(* ===== verification/_CoqProject ===== *)
-Q . S2P
Prelude.v
RustStr.v
ApplyEdits.v
PatchParse.v
PatchUpdate.v
Lifecycle.v
Policy.v
GlobMatch.v
ProjectListing.v
JobLog.v
JobObservation.v
Capabilities.v
CodingAgent.v
RunnerData.v
RegistryState.v
JobState.v
ValidationSteps.v
InventoryCheck.v
JobWire.v
Samples.v
JobUpdate.v
UpdateFacts.v
ProjectInventory.v
InventoryFacts.v
Polling.v
PollFacts.v
Admission.v
AdmissionFacts.v
Reconcile.v
Registration.v
ReconcileFacts.v
DisconnectFacts.v
RegistrationFacts.v
RegistrySafety.v
LeaseSafety.v
QueueBound.v
CodingRuns.v
CodingRunFacts.v
Receipts.v
ReceiptFacts.v
Sql.v
ConnectorModel.v
ConnectorStore.v
ConnectorTasks.v
ConnectorExecutions.v
ConnectorFacts.v
ConnectorSound.v
ConnectorTaskSound.v
ConnectorLaws.v
ConnectorOrder.v
ConnectorExamples.v
AuthModel.v
AuthStore.v
OAuthScopes.v
OAuthHttp.v
AuthFacts.v
OAuthFacts.v
OAuthAuthorize.v
OAuthBridge.v
OAuthGrants.v
OAuthIdentity.v
OAuthLaws.v
OAuthFlow.v
OAuthPurge.v
OAuthCeiling.v
OAuthExamples.v
AgentModel.v
AgentStore.v
AgentCore.v
AgentComm.v
AgentWakes.v
AgentTasks.v
AgentGoals.v
AgentFacts.v
AgentLinks.v
AgentCoreSound.v
AgentCommSound.v
AgentTaskSound.v
AgentLaws.v
AgentExamples.v
