(* ===== verification/Prelude.v ===== *)
(** * WebCodex: verification of the editing core, the Runner registry, the Connector store,
    the OAuth2 server and Agent collaboration

    WebCodex lets remote tools edit files and run Jobs on machines that run a
    "Runner".  The parts that carry its own logic are modelled here: the text, patch
    and listing engines and the protocol vocabulary of crates/webcodex-core; the
    Runner registry of crates/webcodex-runner-registry, the Server's in-memory record
    of Runners, Jobs and requests; the Server's registry of coding-agent Runs in
    src/tool_runtime/coding_agent.rs; of crates/webcodex-store the table of Job
    receipts, the tables of Connector tasks and executions, the tables of accounts and
    OAuth grants and the tables through which Agents collaborate (identities and
    Endpoints, Conversations, Wakes, AgentTasks and Goals); and the Server's OAuth2 endpoints in src/oauth_http with the
    verifiers of bearer tokens in src/auth.

    ** How the parts interact

    A Runner registers with a set of capabilities and an inventory of its Jobs.
    The inventory is validated, checked against the records the Server already has
    (preflight), and applied.  A caller starts a Job: the start is checked, encoded
    as a wire request, queued for the Runner and recorded.  The Runner polls its
    queue (every dispatch fence is checked again as a request is taken out) and
    answers with a result; while the transport is up it sends Job updates with
    increasing sequence numbers; when it goes away its Jobs start to
    recover, its synchronous requests are answered, and a periodic sweep loses Jobs
    that are not reconciled before a deadline and drops old terminal ones.  Every
    handler runs under one mutex, so it is one step of a state machine.  Clients
    see a Job only within their access partition; what they read of a log is
    addressed by absolute line numbers.  When a handler ends, the Jobs it made
    terminal are written to the receipt table, from which a restarted Server rebuilds
    them.

    The Connector keeps its own durable record of the work a client asks for: a task
    with its run and event log, the guidance and approvals of people, edit operations,
    executions that stand for Runner Jobs, and a result that is decided on.  Each
    operation is one SQL transaction: it commits or changes nothing.

    Agents collaborate through the same database.  A durable Agent is reached through the
    Endpoint that was attached last; each attachment raises the controller generation of
    its identity, and calls carry the generation they were made for.  A message posted to
    a Conversation is numbered and delivered to its recipients' Inboxes, and a Wake per
    recipient gathers the deliveries.  The current Endpoint claims the Wake under a lease,
    crosses the dispatch fence, reports the outcome and consumes it; a lost Endpoint gives
    claims back and leaves what was dispatched in doubt.  An AgentTask is worked on by one
    Attempt at a time, with a fence, a lease and a controller generation, on an Endpoint
    (through a Wake) or by a CodingAgent Run; its end creates attention events, and Wakes,
    for the Goals it is correlated with.  Every operation is one immediate transaction.

    Callers identify themselves with API keys, account credentials or OAuth2 access
    tokens.  A client application is registered by a user, or provisioned by the holder
    of a shared key (the bridge).  The authorization endpoint turns a user's, a shared
    key's or a project share's consent into a single-use code; the token endpoint turns
    the code, with its proof key and the client's secret, into an access and a refresh
    token; the verifiers turn an access token into the context a request runs in; a
    change of the client's scopes, a revocation and the purge of stale rows end grants.
    These handlers hold no lock between their calls of the credential store, so requests
    interleave call by call.

    ** Files, in dependency order, and what they model

    - Prelude (this file): results and their [let?]/[bail?] notation, option and
      boolean vocabulary, saturating integers, record updates, tactics, the
      [webcodex] hint database, generic lemmas.
    - RustStr: strings as lists of scalar values, their UTF-8 bytes and the [str]
      methods the code uses (standard library).
    - ApplyEdits: core/apply_edits_shared.rs, line endings, the exact-match
      resolver, the sha256 guard.
    - PatchParse, PatchUpdate: core/apply_patch_shared.rs, the patch grammar, the
      tiered search, miss diagnostics and the derivation of the new file.
    - Lifecycle: core/runner_job_lifecycle.rs.
    - Policy: Modules Authority (authority.rs), ShellQuote (shell_quote.rs),
      SensitivePaths (sensitive_paths.rs), Preview (sensitive_text.rs,
      audit_preview.rs) and Artifact (artifact_policy.rs).
    - GlobMatch, ProjectListing: core/project_listing.rs, the glob matcher, the
      rollup and paging of tracked files.
    - JobLog: the bounded logs of registry/jobs.rs.
    - JobObservation: core/job_observation.rs, observation tokens and the projection
      of a retained stream.
    - Capabilities: registry/capabilities.rs and the protocol's capability record.
    - CodingAgent: core/coding_agent.rs, the protocol of coding-agent Runs and the
      merge of their observations.
    - RunnerData: what a Runner says of itself (core/runner_protocol.rs,
      mcp_gateway.rs, registry/validation.rs).
    - RegistryState: registry/state.rs, access.rs, access_control.rs and the
      protocol records; hash-map iteration is the class [HashIteration].
    - JobState: the Job helpers of registry/jobs.rs, the pending requests of
      requests.rs, and the relations [job_evolves] and [jobs_refine] every handler
      is measured by.
    - ValidationSteps: the canonical validation steps of core/runner_protocol.rs.
    - InventoryCheck: the validation half of registry/reconciliation.rs and
      validation.rs.
    - JobWire: the Job family of core/runner_operation.rs, its encoder, decoder and
      the validators of core/runner_protocol.rs they call; serde_json on a
      validation plan is the class [PlanJson] with its round-trip law.
    - Samples: concrete registries for the witnesses.
    - JobUpdate, UpdateFacts: registry/job_updates.rs, the update handler, stop,
      promotion, cancellation and discard, and what an update can do.
    - ProjectInventory, InventoryFacts: registry/project_inventory.rs and projects.rs,
      paged inventories that are staged and published whole.
    - Polling, PollFacts: registry/polling.rs, dequeue with its fences, results and
      persistent-shell results, and which request a poll or a result settles.
    - Admission, AdmissionFacts: the start of a Job in registry/job_updates.rs, its
      capability gates and detached idempotency, and the effect of a start.
    - Reconcile, ReconcileFacts: the application half of registry/reconciliation.rs
      and the disconnect and expiry of runners.rs; loops over hash maps described
      pointwise, reconciliation as a refinement of a record-wise reference.
    - Registration, RegistrationFacts: register_session of registry/runners.rs; the
      keepalives and runtime metadata of a connection; the cancellation of synchronous
      requests in registry/requests.rs, and the fence of a project that is being
      unregistered in registry/job_updates.rs.
    - DisconnectFacts: the effect of a disconnect.
    - RegistrySafety, LeaseSafety, QueueBound: the handlers as a step relation, its
      invariants, the fencing of replaced instances, and what is final along histories.
    - CodingRuns, CodingRunFacts: the Run registry and the observation tokens of
      src/tool_runtime/coding_agent.rs.
    - Receipts, ReceiptFacts: core/runner_job_receipt.rs,
      registry/receipts.rs and store/job_receipts.rs.
    - Sql: tables as lists of rows in rowid order, statements as functions on them, a
      transaction monad and its weakest preconditions.
    - ConnectorModel, ConnectorStore: the enums, row types and shared statements of
      store/task_kernel.rs, execution_model.rs and schema.rs.
    - ConnectorTasks, ConnectorExecutions: every transaction of task_kernel.rs and
      executions.rs.
    - ConnectorFacts, ConnectorSound, ConnectorTaskSound: the invariant of the tables
      ([wf]), how a transaction may change them ([evolves]), and that every transaction
      keeps to both, by symbolic execution of its body.
    - ConnectorLaws, ConnectorOrder: the transactions as a signature of operations with
      its handler, histories of calls, and what holds along every history.
    - ConnectorExamples: histories that run, with the laws applied to them.
    - AuthModel: the records of store/models.rs, the tables of schema.rs that hold
      accounts and grants, the subject and owner checks of store/oauth.rs, and the
      context of an authenticated request (src/auth/context.rs).
    - AuthStore: the statements and transactions of store/accounts.rs and store/oauth.rs,
      the sign-in sessions, and the purge of schema.rs; the store's methods as a
      signature of calls ([AuthOp]) with its handler; a request as a program over these calls; a system of requests that a
      schedule interleaves, with the log of the calls that were made.
    - OAuthScopes: the scope names of core/authority.rs and their normalization
      (oauth_http/scope_registry.rs, clients.rs, project_share.rs).
    - OAuthHttp: oauth_http/token.rs and revoke.rs, the verifiers of src/auth/tokens.rs
      and the resource indicators of managed_authorize.rs.
    - OAuthAuthorize: oauth_http/managed_authorize.rs (query, login, consent, issue),
      project_share.rs and clients.rs.
    - OAuthBridge: oauth_http/shared_key_bridge.rs, and the authorization endpoint that
      dispatches to it.
    - AuthFacts: the invariant of the credential tables ([auth_wf]), how a call may
      change them, that every call keeps to both, and rules to reason about one request
      while the others interfere.
    - OAuthFacts: what the answers of the endpoints guarantee.
    - OAuthGrants, OAuthIdentity, OAuthLaws, OAuthFlow, OAuthPurge, OAuthCeiling: the
      theorems on grants, identities, the life of tokens, completion, purging and scopes.
    - OAuthExamples: schedules that run, with the theorems applied to them.
    - AgentModel: the enums and rows of store/communication.rs, agent_wake.rs,
      agent_task.rs, agent_attention.rs and goal.rs, the tables with their keys, CHECKs,
      foreign keys and unique indexes.
    - AgentStore: errors, validators, statements, idempotency records, the check that a
      caller is the current Endpoint (communication.rs).
    - AgentCore: the statements that AgentTasks, Wakes and Endpoints share (agent_task.rs,
      agent_wake.rs, agent_attention.rs): the check of the current Attempt, expiry,
      retirement, the loss of an Endpoint, coalescing, attention.
    - AgentComm, AgentWakes, AgentTasks, AgentGoals: every operation of communication.rs,
      agent_wake.rs, agent_task.rs and goal.rs.
    - AgentFacts: how each row may change ([evolves]), the schema and the links between
      the tables ([agent_inv]), rules for statements ([Owned]), loops and reads.
    - AgentLinks, AgentCoreSound, AgentCommSound, AgentTaskSound: the links survive each
      kind of update, and every operation keeps the invariant.
    - AgentLaws: histories of operations and what holds along all of them.
    - AgentExamples: histories that run, with the laws applied to them.

    ** What the theorems show

    - Editing: the resolver and the patch application equal simple references, a
      result range holds the text that was asked for, parsing is total and inverts
      printing, parsed patches are within limits, no splice is out of range,
      ambiguity is reported exactly when the requested matching mode is not met,
      line endings survive a round trip.
    - Registry: an accepted inventory is well formed; reconciling it cannot panic,
      acts record by record, loses what the Runner no longer reports, forgets and
      revives nothing and moves no cursor back; updates apply at most once and in
      order; a start is recorded and queued or changes nothing, and a detached start
      happens once per idempotency key while the record of its Job is retained; an encoded Job operation decodes to itself;
      a poll hands out the first live request of the queue and answers the stale
      ones before it, a request that was handed out is never handed out or queued again,
      and a result settles its request once; a disconnect settles every request and Job of the Runner; overdue
      recoveries are lost within a bounded number of passes; in every reachable
      state the Job invariant and the queue limit hold; along every
      history a terminal Job stays terminal, and its verdict is final except for the
      results of its own request that arrive after its end, which one theorem shows to
      replace it; retention removes only what is old enough.
    - Leases and inventories: a replaced Runner instance is fenced out for the next
      sixteen replacements (the registry remembers no more) or until its shared key
      expires, the limits on shared keys hold, a registration takes over exactly what it may, and
      only whole inventory snapshots are published.
    - Runs and receipts: a Run's history only moves forward, a token is accepted only
      when the Server issued it, and a terminal Job survives a restart unchanged.
    - Connector: along every history the event log of a task is contiguous and
      append-only; an execution's verdict is final and a successful check ran its whole
      plan on its workspace; a task has at most one open execution as long as the clock
      does not run backwards; an approval authorizes once and only after a person
      granted it; a result is decided once; guidance is delivered once and in order; a
      completed edit is replayed, never rerun; a cancelled task accepts no more work;
      a terminal continuation is dispatched at most once, across restarts.
    - OAuth2: however requests interleave, a code or refresh token buys at most one pair
      of tokens; tokens are given only to the authenticated client for a code or refresh
      token of its own, with the matching redirect URI and proof key, and carry the
      grant's subject and scopes; every grant traces back to a code of a registered
      client, and a user's code to a key of that user that had not expired when a request
      showed it; a bearer token is accepted only while it and its client are live; a
      revoked client stays out, and what the revocation of a token (when its update
      succeeds: the handler answers 200 even when it does not) or a scope change ended
      stays ended for every later request (but not for an authorization under way: one
      lemma exhibits the run); a well-formed token request succeeds and its access token
      works, use after use, until it expires or is revoked; purging is invisible; scope normalization and the ceilings of the bridge grant
      exactly what was asked and allowed.
    - Agents: along every history an AgentTask has at most one controller and its verdict
      is final, and a controller that was replaced changes nothing any more; a claimed
      Wake agrees with the one Attempt that holds it, and a dispatched Wake is never
      queued or retired again; every delivery stays covered by a Wake of its recipient;
      the messages of a Conversation are numbered without a gap, and repeating a post, at
      any later time, answers with the message it posted and changes nothing; an Endpoint
      of an earlier generation changes nothing any more; a Goal's revision is taken once
      and a completed Goal is frozen.
    - Listings: the glob matcher equals a declarative matcher over bytes (which on ASCII
      is the documented one over characters) and terminates, and no protected path is listed.
    - Policies: access partitions are isolated, previews are bounded and redacted,
      quoting and identifiers round-trip, protected paths are recognised by
      component and in any case, canonical validation steps carry no option
      outside the allowed set, log cursors are exact.

    ** Conventions and bounds

    Rust's [usize], [u64] and [i64] values are [nat] or [Z]; additions the code
    writes as saturating are clamped at the type's bounds, counters bounded by a
    collection's length are [nat].  Recursion follows the remaining input or the
    list iterated over; fuel is used only by the search for a character boundary
    (JobLog), where it is the length of the text, and by the outer loop of the
    patch parser (PatchParse), where it is the number of lines plus one and the
    parser is proved to return on every input, and by the backtracking glob loop
    (GlobMatch), where (n+2)^m * (m+1) steps for n text and m pattern bytes are proved
    to be enough.  A panic is
    [None] around the result.  A handler's clock readings are one argument [now].
    The order in which a hash map is iterated is any order that lists each entry
    once.  Unicode lower-casing and the alphanumeric class, the JSON size of an
    inventory, the length of serialized JSON values, the digests of pages and of a
    detached Job's id, SHA-256, Base64 and the JSON of a Job snapshot (with its round
    trip), the validators of gateway and plugin responses and the fresh request and Job
    ids are parameters; along histories fresh ids are in use nowhere
    ([fresh_request]) and a request is queued under the id it carries.  In the Connector's tables a column holds the typed value it
    encodes; a statement that breaks a key, a CHECK or a foreign key that the model
    states fails with [Storage]; fresh identifiers are arguments, and one that collides
    is such a failure.  In the OAuth2 endpoints the clock readings of a request and the
    values it generates are arguments, expiry times wrap as [i64] does, and digests,
    Base64, the parsing of URLs and forms and the syntax of header values are the class
    [AuthEnv]; what the Runner registry answers to the bridge is an argument, and an HTML
    page is its status and its message.  A store call fails only where it breaks a
    constraint of the tables, not for the lack of disk or a lock.  A schedule is the list
    of the requests that move next; a store method that takes the connection lock twice is two calls.
    In the Agents' tables every call has its own readings of the clock and random ids
    ([Env]); SHA-256 and the JSON text of a request are the parameters [AgentDigest] and
    [JsonText]; a statement that would break a constraint fails and the transaction is
    undone, as it is when the code panics ([panicked]); generations and leases fail or
    saturate at the bound of [i64] where the code does, and revisions are exact.

    ** Not modelled

    The typed entry points that validate and build synchronous requests (along histories
    any request may be enqueued, with any dispatch fence and waiter), the other
    families of the wire codec, the hidden-cleanup worker; the memory, audit and
    window-activity tables of the store, the rebuild of tables of older schema versions
    and the Connector's listings for its console; the account and pairing endpoints, the route policy of the
    authentication middleware with its shared-key and project-credential fallbacks, the
    discovery metadata; telemetry, views and wake-ups, which do not change the modelled
    state; HTTP, MCP, processes and the tool runtime around the modelled cores, and the
    Runner's and the desktop's own programs. *)
From stdpp Require Export base option numbers sets gmap strings sorting list.

#[export] Set Warnings "-clear-no-such-hyp".

(** ** Results of fallible Rust functions

    [Result<T, E>] with its [?] operator.  A computation that may panic is an
    [option] around it: [None] is the panic. *)

Inductive result (T E : Type) : Type :=
| Ok (value : T)
| Err (error : E).
Arguments Ok {T E} value.
Arguments Err {T E} error.

Definition result_bind {T U E : Type} (r : result T E) (k : T -> result U E) : result U E :=
  match r with
  | Ok v => k v
  | Err e => Err e
  end.

Definition map_err {T E F : Type} (f : E -> F) (r : result T E) : result T F :=
  match r with
  | Ok v => Ok v
  | Err e => Err (f e)
  end.

Definition ok_or {T E : Type} (o : option T) (e : E) : result T E :=
  match o with
  | Some v => Ok v
  | None => Err e
  end.

Definition is_ok {T E : Type} (r : result T E) : bool :=
  match r with
  | Ok _ => true
  | Err _ => false
  end.

Declare Scope rust_scope.
Delimit Scope rust_scope with rust.

Notation "'let?' x := e 'in' k" := (result_bind e (fun x => k))
  (at level 10, x name, e at level 99, k at level 200) : rust_scope.
Notation "'check?' e ;; k" := (result_bind e (fun _ => k))
  (at level 10, e at level 99, k at level 200) : rust_scope.
(** [if guard { return Err(e) }] followed by the rest of the body. *)
Notation "'bail?' b 'with' e ;; k" := (if b then Err e else k)
  (at level 10, b at level 99, e at level 99, k at level 200) : rust_scope.

Open Scope rust_scope.

#[export] Instance result_eq_dec {T E : Type} `{EqDecision T, EqDecision E} :
  EqDecision (result T E).
Proof. intros x y. unfold Decision. decide equality; apply decide; apply _. Defined.

Lemma result_bind_ok {T U E : Type} (r : result T E) (k : T -> result U E) (u : U) :
  result_bind r k = Ok u <-> exists v, r = Ok v /\ k v = Ok u.
Proof. destruct r; simpl; naive_solver. Qed.

(** [Option::is_some_and] and [Option::is_none_or]. *)
Definition is_some_and {A : Type} (p : A -> bool) (o : option A) : bool :=
  match o with
  | Some v => p v
  | None => false
  end.

Definition is_none_or {A : Type} (p : A -> bool) (o : option A) : bool :=
  match o with
  | Some v => p v
  | None => true
  end.

Definition is_some {A : Type} (o : option A) : bool :=
  match o with
  | Some _ => true
  | None => false
  end.

Definition is_none {A : Type} (o : option A) : bool := negb (is_some o).

Definition opt_filter {A : Type} (p : A -> bool) (o : option A) : option A :=
  match o with
  | Some v => if p v then Some v else None
  | None => None
  end.

Definition or_else {A : Type} (o1 o2 : option A) : option A :=
  match o1 with
  | Some v => Some v
  | None => o2
  end.

Definition unwrap_or {A : Type} (d : A) (o : option A) : A :=
  match o with
  | Some v => v
  | None => d
  end.

(** Boolean equality from a decision, for the guards the code writes with [==]. *)
Definition beq {A : Type} `{EqDecision A} (x y : A) : bool := bool_decide (x = y).
Definition is_empty {A : Type} (l : list A) : bool :=
  match l with
  | [] => true
  | _ :: _ => false
  end.

Notation "x ==? y" := (beq x y) (at level 70, no associativity) : rust_scope.
Notation "x !=? y" := (negb (beq x y)) (at level 70, no associativity) : rust_scope.

Lemma beq_eq {A : Type} `{EqDecision A} (x y : A) : beq x y = true <-> x = y.
Proof. apply (bool_decide_eq_true _). Qed.

Lemma beq_neq {A : Type} `{EqDecision A} (x y : A) : beq x y = false <-> x <> y.
Proof. apply (bool_decide_eq_false _). Qed.

Lemma beq_true {A : Type} `{EqDecision A} (x y : A) : beq x y = true -> x = y.
Proof. intros H. by apply (proj1 (beq_eq x y)). Qed.

Lemma beq_false {A : Type} `{EqDecision A} (x y : A) : beq x y = false -> x <> y.
Proof. intros H. by apply (proj1 (beq_neq x y)). Qed.

Lemma beq_refl {A : Type} `{EqDecision A} (x : A) : beq x x = true.
Proof. by apply beq_eq. Qed.

(** ** Machine integers

    [usize]/[u64] values and [i64] timestamps are [Z]; the saturating
    operations the code writes are clamps at the type's bounds. *)

Definition USIZE_MAX : Z := 2 ^ 64 - 1.
Definition U32_MAX : Z := 2 ^ 32 - 1.
Definition I64_MAX : Z := 2 ^ 63 - 1.
Definition I64_MIN : Z := - 2 ^ 63.

Definition usize_sat_add (a b : Z) : Z := Z.min (a + b) USIZE_MAX.
Definition usize_sat_sub (a b : Z) : Z := Z.max (a - b) 0.
Definition u32_sat_add (a b : Z) : Z := Z.min (a + b) U32_MAX.
Definition i64_clamp (a : Z) : Z := Z.max I64_MIN (Z.min a I64_MAX).
Definition i64_sat_add (a b : Z) : Z := i64_clamp (a + b).
Definition i64_sat_sub (a b : Z) : Z := i64_clamp (a - b).

Definition is_usize (a : Z) : Prop := (0 <= a <= USIZE_MAX)%Z.

Lemma usize_sat_add_spec (a b : Z) :
  (0 <= a)%Z -> (0 <= b)%Z -> is_usize (usize_sat_add a b) /\ (usize_sat_add a b <= a + b)%Z.
Proof. unfold is_usize, usize_sat_add, USIZE_MAX. lia. Qed.

Lemma usize_sat_add_exact (a b : Z) :
  (a + b <= USIZE_MAX)%Z -> usize_sat_add a b = (a + b)%Z.
Proof. unfold usize_sat_add. lia. Qed.

(** ** Record updates

    [r <| field := v |>] is Rust's [r.field = v].  A record type gives one
    eta-expansion; the setter of each field is derived from it. *)

Class Eta (R : Type) : Type := eta : R -> R.
Class SetField {R T : Type} (proj : R -> T) : Type := set_field : (T -> T) -> R -> R.

Ltac derive_setter proj :=
  let f := fresh "f" in
  let r := fresh "r" in
  intros f r;
  let body := eval hnf in (eta r) in
  match eval pattern (proj r) in body with
  | ?g _ => exact (g (f (proj r)))
  end.

#[export] Hint Extern 1 (SetField ?proj) => derive_setter proj : typeclass_instances.

#[warnings="-postfix-notation-not-level-1"]
Notation "r <| proj := v |>" := (set_field (proj := proj) (fun _ => v) r)
  (at level 12, left associativity, proj at level 9, v at level 99) : rust_scope.

(** ** Tactics and hints *)

Create HintDb webcodex.

(** Splits every conjunction, negation and equation hidden in boolean guards. *)
Ltac bool_solve :=
  repeat match goal with
  | H : context [ beq ?x ?y ] |- _ => destruct (decide (x = y));
      [ replace (beq x y) with true in * by (symmetry; by apply beq_eq)
      | replace (beq x y) with false in * by (symmetry; by apply beq_neq) ]
  | |- context [ beq ?x ?y ] => destruct (decide (x = y));
      [ replace (beq x y) with true in * by (symmetry; by apply beq_eq)
      | replace (beq x y) with false in * by (symmetry; by apply beq_neq) ]
  end; simpl in *.

Ltac split_andb :=
  repeat match goal with
  | H : (_ && _)%bool = true |- _ => apply andb_true_iff in H; destruct H
  | H : (_ || _)%bool = false |- _ => apply orb_false_iff in H; destruct H
  | H : negb _ = true |- _ => apply negb_true_iff in H
  | H : negb _ = false |- _ => apply negb_false_iff in H
  | H : beq _ _ = true |- _ => apply beq_true in H
  | H : beq _ _ = false |- _ => apply beq_false in H
  end.

(** Walks through the guards of a [result]-returning body in hypothesis [H]. *)
Ltac step_guards H :=
  repeat match type of H with
  | (if ?b then Err _ else _) = Ok _ =>
      let E := fresh "Hguard" in destruct b eqn:E; [discriminate H | ]
  | result_bind ?r _ = Ok _ =>
      let E := fresh "Hstep" in destruct r eqn:E; cbn [result_bind] in H; [ | discriminate H]
  end.

(** ** Generic list lemmas *)

Lemma Forall_app_inv {A : Type} (P : A -> Prop) (l k : list A) :
  Forall P l -> Forall P k -> Forall P (l ++ k).
Proof. intros. by apply Forall_app. Qed.

Lemma last_snoc_inv {A : Type} (l : list A) (x : A) :
  last l = Some x -> exists k, l = k ++ [x].
Proof.
  intros H. destruct (exists_last (l := l)) as (k & y & ->); [by intros -> | ].
  rewrite last_snoc in H. naive_solver.
Qed.

Lemma forallb_Forall {A : Type} (p : A -> bool) (l : list A) :
  forallb p l = true <-> Forall (fun x => p x = true) l.
Proof. rewrite forallb_forall, List.Forall_forall. done. Qed.

Lemma NoDup_take {A : Type} (n : nat) (l : list A) : NoDup l -> NoDup (take n l).
Proof. intros Hl. rewrite <- (take_drop n l) in Hl. apply NoDup_app in Hl as [Hl _]. done. Qed.

Lemma opt_filter_some {A : Type} (p : A -> bool) (o : option A) (x : A) :
  opt_filter p o = Some x <-> o = Some x /\ p x = true.
Proof.
  destruct o as [y|]; cbn; [ | by split; [ | intros [? _]]].
  destruct (p y) eqn:E; split; [by intros [= <-] | by intros [[= ->] _] | done | ].
  intros [[= ->] Hp]. congruence.
Qed.

#[export] Hint Resolve Forall_app_inv : webcodex.

(** ** Stable sorting and removal of adjacent duplicates

    [slice::sort_by] is stable: elements that compare equal keep their order. *)

Fixpoint insert_by {A : Type} (le : A -> A -> bool) (x : A) (l : list A) : list A :=
  match l with
  | [] => [x]
  | y :: l' => if le x y then x :: l else y :: insert_by le x l'
  end.

Definition sort_by {A : Type} (le : A -> A -> bool) (l : list A) : list A := foldr (insert_by le) [] l.

(** [Vec::dedup_by]: of a run of equal neighbours the first one stays. *)
Fixpoint dedup_from {A : Type} (same : A -> A -> bool) (kept : A) (l : list A) : list A :=
  match l with
  | [] => []
  | y :: l' => if same kept y then dedup_from same kept l' else y :: dedup_from same y l'
  end.

Definition dedup_by {A : Type} (same : A -> A -> bool) (l : list A) : list A :=
  match l with
  | [] => []
  | x :: l' => x :: dedup_from same x l'
  end.

Section Sorting.
Context {A : Type} (le : A -> A -> bool).

Lemma insert_by_perm (x : A) (l : list A) : insert_by le x l ≡ₚ x :: l.
Proof.
  induction l as [|y l IH]; [done | ]. cbn. destruct (le x y); [done | ].
  rewrite IH. by rewrite Permutation_swap.
Qed.

Lemma sort_by_perm (l : list A) : sort_by le l ≡ₚ l.
Proof. induction l as [|x l IH]; [done | ]. cbn. rewrite insert_by_perm. by f_equiv. Qed.

Context (le_total : forall x y, le x y = true \/ le y x = true)
  (le_trans : forall x y z, le x y = true -> le y z = true -> le x z = true).

Lemma insert_by_sorted (x : A) (l : list A) :
  StronglySorted (fun a b => le a b = true) l -> StronglySorted (fun a b => le a b = true) (insert_by le x l).
Proof.
  induction 1 as [|y l Hs IH Hy]; [by repeat constructor | ]. cbn. destruct (le x y) eqn:E.
  - constructor; [by constructor | ]. constructor; [done | ].
    eapply Forall_impl; [exact Hy | ]. intros z Hz. by apply (le_trans x y z).
  - constructor; [done | ]. rewrite insert_by_perm. constructor; [ | done].
    destruct (le_total x y); congruence.
Qed.

Lemma sort_by_sorted (l : list A) : StronglySorted (fun a b => le a b = true) (sort_by le l).
Proof. induction l as [|x l IH]; [constructor | ]. cbn. by apply insert_by_sorted. Qed.
End Sorting.

#[export] Instance sort_by_proper {A : Type} (le : A -> A -> bool) : Proper ((≡ₚ) ==> (≡ₚ)) (sort_by le).
Proof. intros l k Hp. by rewrite !sort_by_perm. Qed.
