(* ===== verification/RustStr.v ===== *)
(** * RustStr: the part of [str]/[String] the modelled code uses

    A Rust string is the list of its Unicode scalar values.  Functions that Rust
    defines on bytes ([len], byte slicing, [is_char_boundary]) go through the
    UTF-8 encoding, so that byte offsets and slicing panics are exact. *)
From Stdlib Require Ascii.
From S2P Require Import Prelude.

Local Open Scope N_scope.

Abbreviation char := N.
Abbreviation str := (list N).

(** String literals of the source. *)
Fixpoint lit (s : string) : str :=
  match s with
  | EmptyString => []
  | String a s' => Ascii.N_of_ascii a :: lit s'
  end.
Arguments lit s%_string : simpl never.

Definition LF : char := 10.
Definition CR : char := 13.
Definition NUL : char := 0.

(** [matches!(s, "a" | "b" | ...)]. *)
Definition one_of (s : str) (l : list str) : bool := existsb (fun x => s ==? x) l.

(** ** UTF-8 *)

Definition len_utf8 (c : char) : Z :=
  if c <? 128 then 1 else if c <? 2048 then 2 else if c <? 65536 then 3 else 4.

Definition encode_utf8 (c : char) : list N :=
  if c <? 128 then [c]
  else if c <? 2048 then [192 + c / 64; 128 + c mod 64]
  else if c <? 65536 then [224 + c / 4096; 128 + (c / 64) mod 64; 128 + c mod 64]
  else [240 + c / 262144; 128 + (c / 4096) mod 64; 128 + (c / 64) mod 64; 128 + c mod 64].

Definition as_bytes (s : str) : list N := flat_map encode_utf8 s.

(** [str::len]: the number of UTF-8 bytes. *)
Fixpoint str_len (s : str) : Z :=
  match s with
  | [] => 0%Z
  | c :: s' => (len_utf8 c + str_len s')%Z
  end.

(** [&s[at..]]: [None] is the panic at an offset that is past the end or inside
    a character. *)
Fixpoint byte_drop (s : str) (at_ : Z) : option str :=
  if (at_ =? 0)%Z then Some s
  else match s with
       | [] => None
       | c :: s' => if (at_ <? len_utf8 c)%Z then None else byte_drop s' (at_ - len_utf8 c)%Z
       end.

(** [&s[..at]]. *)
Fixpoint byte_take (s : str) (at_ : Z) : option str :=
  if (at_ =? 0)%Z then Some []
  else match s with
       | [] => None
       | c :: s' =>
           if (at_ <? len_utf8 c)%Z then None
           else (fun r => c :: r) <$> byte_take s' (at_ - len_utf8 c)%Z
       end.

Definition is_char_boundary (s : str) (at_ : Z) : bool := is_some (byte_drop s at_).

(** ** Character classes *)

(** [char::is_whitespace]: the Unicode [White_Space] property. *)
Definition is_whitespace (c : char) : bool :=
  ((9 <=? c) && (c <=? 13)) || (c =? 32) || (c =? 133) || (c =? 160) || (c =? 5760)
  || ((8192 <=? c) && (c <=? 8202)) || (c =? 8232) || (c =? 8233) || (c =? 8239)
  || (c =? 8287) || (c =? 12288).

Definition is_ascii_digit (c : char) : bool := (48 <=? c) && (c <=? 57).
Definition is_ascii_uppercase (c : char) : bool := (65 <=? c) && (c <=? 90).
Definition is_ascii_lowercase (c : char) : bool := (97 <=? c) && (c <=? 122).
Definition is_ascii_alphanumeric (c : char) : bool :=
  is_ascii_digit c || is_ascii_uppercase c || is_ascii_lowercase c.
Definition is_ascii_hexdigit (c : char) : bool :=
  is_ascii_digit c || ((65 <=? c) && (c <=? 70)) || ((97 <=? c) && (c <=? 102)).
Definition is_lower_hexdigit (c : char) : bool :=
  is_ascii_digit c || ((97 <=? c) && (c <=? 102)).
(** [char::is_control]: the general category [Cc]. *)
Definition is_control (c : char) : bool := (c <? 32) || ((127 <=? c) && (c <? 160)).

Definition ascii_lower (c : char) : char := if is_ascii_uppercase c then c + 32 else c.
Definition to_ascii_lowercase (s : str) : str := map ascii_lower s.

(** ** Order

    [str::cmp] compares UTF-8 bytes, which orders texts as their scalar values do. *)

Fixpoint str_leb (a b : str) : bool :=
  match a, b with
  | [], _ => true
  | _ :: _, [] => false
  | x :: a', y :: b' => if x <? y then true else if y <? x then false else str_leb a' b'
  end.

Lemma str_leb_total (a b : str) : str_leb a b = true \/ str_leb b a = true.
Proof.
  revert b. induction a as [|x a IH]; intros [|y b]; cbn; auto.
  destruct (N.ltb_spec x y), (N.ltb_spec y x); auto.
Qed.

Lemma str_leb_trans (a b c : str) : str_leb a b = true -> str_leb b c = true -> str_leb a c = true.
Proof.
  revert b c. induction a as [|x a IH]; intros [|y b] [|z c]; cbn; try done.
  destruct (N.ltb_spec x y), (N.ltb_spec y x), (N.ltb_spec y z), (N.ltb_spec z y),
    (N.ltb_spec x z), (N.ltb_spec z x); try done; try lia. apply IH.
Qed.

Lemma str_leb_antisym (a b : str) : str_leb a b = true -> str_leb b a = true -> a = b.
Proof.
  revert b. induction a as [|x a IH]; intros [|y b]; cbn; try done.
  destruct (N.ltb_spec x y), (N.ltb_spec y x); try done; try lia.
  intros H1 H2. f_equal; [lia | by apply IH].
Qed.

(** ** Trimming, prefixes and suffixes *)

Fixpoint trim_start (s : str) : str :=
  match s with
  | c :: s' => if is_whitespace c then trim_start s' else s
  | [] => []
  end.
Definition trim_end (s : str) : str := rev (trim_start (rev s)).
Definition trim (s : str) : str := trim_end (trim_start s).

Fixpoint strip_prefix (p s : str) : option str :=
  match p, s with
  | [], _ => Some s
  | _ :: _, [] => None
  | x :: p', y :: s' => if (x =? y)%N then strip_prefix p' s' else None
  end.
Definition starts_with (p s : str) : bool := is_some (strip_prefix p s).
Definition strip_suffix (p s : str) : option str := (@rev char) <$> strip_prefix (rev p) (rev s).
Definition ends_with (p s : str) : bool := is_some (strip_suffix p s).

(** [str::contains] of a substring and of a character. *)
Fixpoint str_contains (p s : str) : bool :=
  starts_with p s ||
  match s with
  | [] => false
  | _ :: s' => str_contains p s'
  end.
Definition contains_char (c : char) (s : str) : bool := existsb (N.eqb c) s.

(** [s.split_once(c)] and [s.find(c)] as the pair of the two sides. *)
Fixpoint split_once (c : char) (s : str) : option (str * str) :=
  match s with
  | [] => None
  | x :: s' =>
      if (x =? c)%N then Some ([], s')
      else (fun '(a, b) => (x :: a, b)) <$> split_once c s'
  end.

(** ** Splitting, joining, replacing *)

(** [s.split(p)] for a character predicate: one more piece than separators. *)
Fixpoint split_on (p : char -> bool) (s : str) : list str :=
  match s with
  | [] => [[]]
  | c :: s' =>
      if p c then [] :: split_on p s'
      else match split_on p s' with
           | l :: ls => (c :: l) :: ls
           | [] => [[c]]
           end
  end.
Definition split_char (c : char) (s : str) : list str := split_on (N.eqb c) s.

Fixpoint join (sep : str) (ls : list str) : str :=
  match ls with
  | [] => []
  | [l] => l
  | l :: ls' => l ++ sep ++ join sep ls'
  end.

(** [str::lines]: pieces ended by ["\n"] or ["\r\n"]; an unterminated last piece
    keeps its carriage return, an empty one does not count. *)
Definition strip_cr (l : str) : str :=
  match rev l with
  | c :: r => if (c =? CR)%N then rev r else l
  | [] => l
  end.
Fixpoint lines_of (pieces : list str) : list str :=
  match pieces with
  | [] => []
  | [l] => if is_empty l then [] else [l]
  | l :: ls => strip_cr l :: lines_of ls
  end.
Definition str_lines (s : str) : list str := lines_of (split_char LF s).

(** [s.replace(p, t)] for a non-empty pattern: leftmost non-overlapping matches. *)
Fixpoint replace_from (p t : str) (skip : nat) (s : str) : str :=
  match s with
  | [] => []
  | c :: s' =>
      match skip with
      | S k => replace_from p t k s'
      | O => if starts_with p s then t ++ replace_from p t (length p - 1) s'
             else c :: replace_from p t 0 s'
      end
  end.
Definition str_replace (p t : str) (s : str) : str := replace_from p t 0 s.

(** Number of line feeds in a slice. *)
Definition count_lf (s : list N) : nat := length (List.filter (N.eqb LF) s).

(** ** Decimal printing, as [format!] does for unsigned integers *)

Fixpoint fmt_digits (fuel : nat) (n : N) (acc : str) : str :=
  match fuel with
  | O => acc
  | S f => let acc' := (48 + n mod 10) :: acc in
           if n / 10 =? 0 then acc' else fmt_digits f (n / 10) acc'
  end.
Definition fmt_N (n : N) : str := fmt_digits (S (N.to_nat (N.log2 n))) n [].
Definition fmt_nat (n : nat) : str := fmt_N (N.of_nat n).
Definition fmt_Z (z : Z) : str :=
  if (z <? 0)%Z then lit "-" ++ fmt_N (Z.to_N (- z)) else fmt_N (Z.to_N z).

Local Close Scope N_scope.

(** ** Lemmas *)

Lemma len_utf8_pos (c : char) : (1 <= len_utf8 c <= 4)%Z.
Proof. unfold len_utf8. repeat case_match; lia. Qed.

Lemma str_len_nonneg (s : str) : (0 <= str_len s)%Z.
Proof. induction s as [|c s IH]; simpl; [lia | pose proof (len_utf8_pos c); lia]. Qed.

Lemma str_len_app (s t : str) : str_len (s ++ t) = (str_len s + str_len t)%Z.
Proof. induction s as [|c s IH]; simpl; lia. Qed.

Lemma str_len_zero (s : str) : str_len s = 0%Z -> s = [].
Proof.
  destruct s as [|c s]; [done | simpl].
  pose proof (len_utf8_pos c). pose proof (str_len_nonneg s). lia.
Qed.

Lemma length_as_bytes (s : str) : Z.of_nat (length (as_bytes s)) = str_len s.
Proof.
  induction s as [|c s IH]; [done | ].
  unfold as_bytes in *. simpl. rewrite length_app, Nat2Z.inj_add, IH.
  unfold encode_utf8, len_utf8. repeat case_match; simpl; lia.
Qed.

Lemma strip_prefix_spec (p s r : str) : strip_prefix p s = Some r <-> s = p ++ r.
Proof.
  revert s. induction p as [|x p IH]; intros s; simpl; [naive_solver | ].
  destruct s as [|y s]; simpl; [naive_solver | ].
  destruct (N.eqb_spec x y) as [->|Hne]; [rewrite IH; naive_solver | naive_solver].
Qed.

Lemma starts_with_spec (p s : str) : starts_with p s = true <-> exists r, s = p ++ r.
Proof.
  unfold starts_with. destruct (strip_prefix p s) as [r|] eqn:E; simpl.
  - apply strip_prefix_spec in E. naive_solver.
  - split; [done | ]. intros [r Hr]. apply strip_prefix_spec in Hr. congruence.
Qed.

Lemma strip_suffix_spec (p s r : str) : strip_suffix p s = Some r <-> s = r ++ p.
Proof.
  unfold strip_suffix. rewrite fmap_Some. split.
  - intros (t & Ht & ->). apply strip_prefix_spec in Ht.
    rewrite <- (rev_involutive s), Ht, rev_app_distr, !rev_involutive. done.
  - intros ->. exists (rev r). rewrite rev_involutive. split; [ | done].
    apply strip_prefix_spec. by rewrite rev_app_distr.
Qed.

(** Bytes below 128 occur in the encoding exactly as the characters do. *)
Lemma encode_utf8_ascii (c b : N) :
  (b < 128)%N -> b ∈ encode_utf8 c -> c = b.
Proof.
  intros Hb. unfold encode_utf8.
  repeat case_match; intros Hin; rewrite !elem_of_cons, elem_of_nil in Hin;
    repeat destruct Hin as [Hin|Hin]; try done;
    exfalso; apply (proj1 (N.lt_nge _ _) Hb); rewrite Hin; (etrans; [ | apply N.le_add_r]); lia.
Qed.

Lemma as_bytes_ascii (s : str) (b : N) : (b < 128)%N -> b ∈ as_bytes s <-> b ∈ s.
Proof.
  intros Hb. unfold as_bytes. induction s as [|c s IH]; simpl; [done | ].
  rewrite elem_of_app, elem_of_cons, IH. split; intros [H|H]; auto.
  - left. symmetry. by apply encode_utf8_ascii.
  - subst c. left. unfold encode_utf8.
    destruct (N.ltb_spec b 128); [ | lia]. by apply list_elem_of_singleton.
Qed.

Lemma contains_char_spec (c : char) (s : str) : contains_char c s = true <-> c ∈ s.
Proof.
  unfold contains_char. rewrite existsb_exists. setoid_rewrite N.eqb_eq.
  rewrite list_elem_of_In. naive_solver.
Qed.

Lemma byte_split (a b : str) : byte_drop (a ++ b) (str_len a) = Some b /\ byte_take (a ++ b) (str_len a) = Some a.
Proof.
  induction a as [|c a [IH1 IH2]]; cbn [app str_len].
  - by destruct b.
  - pose proof (len_utf8_pos c). pose proof (str_len_nonneg a). cbn [byte_drop byte_take].
    replace (Z.eqb _ 0) with false by (symmetry; apply Z.eqb_neq; lia).
    replace (Z.ltb _ _) with false by (symmetry; apply Z.ltb_ge; lia).
    replace (len_utf8 c + str_len a - len_utf8 c)%Z with (str_len a) by lia.
    rewrite IH1, IH2. done.
Qed.

Lemma one_of_spec (s : str) (l : list str) : one_of s l = true <-> s ∈ l.
Proof.
  unfold one_of. rewrite existsb_exists, list_elem_of_In. split.
  - intros (x & Hx & ->%beq_true). done.
  - intros H. exists s. split; [done | apply beq_refl].
Qed.

(** *** Splitting and joining *)

Lemma split_on_nonempty (p : char -> bool) (s : str) : split_on p s <> [].
Proof. induction s as [|c s IH]; simpl; [done | ]. repeat case_match; congruence. Qed.

Lemma split_on_pieces (p : char -> bool) (s : str) :
  Forall (Forall (fun c => p c = false)) (split_on p s).
Proof.
  induction s as [|c s IH]; simpl; [by repeat constructor | ].
  destruct (p c) eqn:E; [by constructor | ].
  destruct (split_on p s) as [|l ls]; [by repeat constructor | ].
  inversion IH; subst. by repeat constructor.
Qed.

Lemma join_cons (sep l : str) (ls : list str) :
  ls <> [] -> join sep (l :: ls) = l ++ sep ++ join sep ls.
Proof. by destruct ls. Qed.

Lemma join_split_char (c : char) (s : str) : join [c] (split_char c s) = s.
Proof.
  unfold split_char. induction s as [|x s IH]; [done | ]. simpl.
  pose proof (split_on_nonempty (N.eqb c) s) as Hne.
  destruct (N.eqb_spec c x) as [<-|Hcx].
  - rewrite join_cons by done. simpl. by rewrite IH.
  - destruct (split_on (N.eqb c) s) as [|l ls]; [done | ].
    rewrite <- IH. by destruct ls.
Qed.

Lemma split_char_app (c : char) (l s : str) :
  c ∉ l -> split_char c (l ++ c :: s) = l :: split_char c s.
Proof.
  unfold split_char. induction l as [|x l IH]; simpl; intros Hnot.
  - by rewrite N.eqb_refl.
  - apply not_elem_of_cons in Hnot as [Hcx Hl].
    destruct (N.eqb_spec c x); [done | ]. by rewrite IH.
Qed.

Lemma split_char_plain (c : char) (l : str) : c ∉ l -> split_char c l = [l].
Proof.
  unfold split_char. induction l as [|x l IH]; simpl; intros Hnot; [done | ].
  apply not_elem_of_cons in Hnot as [Hcx Hl].
  destruct (N.eqb_spec c x); [done | ]. by rewrite IH.
Qed.

Lemma split_char_join (c : char) (ls : list str) :
  ls <> [] -> Forall (fun l => c ∉ l) ls -> split_char c (join [c] ls) = ls.
Proof.
  induction ls as [|l ls IH]; [done | ]. intros _ Hall. inversion Hall; subst.
  destruct ls as [|l' ls].
  - by apply split_char_plain.
  - rewrite join_cons by done. cbn [app]. rewrite split_char_app by done. by rewrite IH.
Qed.

Lemma split_char_pieces (c : char) (s : str) : Forall (fun l => c ∉ l) (split_char c s).
Proof.
  unfold split_char. pose proof (split_on_pieces (N.eqb c) s) as Hp.
  eapply Forall_impl; [exact Hp | ]. simpl. intros l Hl Hin.
  rewrite Forall_forall in Hl. specialize (Hl _ Hin). by rewrite N.eqb_refl in Hl.
Qed.

(** *** Replacing *)

Lemma starts_with_ne (x c : char) (p s : str) :
  x <> c -> starts_with (x :: p) (c :: s) = false.
Proof. intros H. unfold starts_with. simpl. by destruct (N.eqb_spec x c). Qed.

Lemma replace_from_skip (p t q s : str) :
  replace_from p t (length q) (q ++ s) = replace_from p t 0 s.
Proof. induction q; simpl; [done | ]. done. Qed.

Lemma str_replace_hit (x : char) (p t s : str) :
  str_replace (x :: p) t (x :: p ++ s) = t ++ str_replace (x :: p) t s.
Proof.
  unfold str_replace. cbn [replace_from].
  replace (starts_with (x :: p) (x :: p ++ s)) with true
    by (symmetry; apply starts_with_spec; by exists s).
  f_equal. replace (length (x :: p) - 1) with (length p) by (simpl; lia).
  apply replace_from_skip.
Qed.

Lemma str_replace_miss (x c : char) (p t s : str) :
  x <> c -> str_replace (x :: p) t (c :: s) = c :: str_replace (x :: p) t s.
Proof. intros H. unfold str_replace. cbn [replace_from]. by rewrite starts_with_ne. Qed.

(** Replacing a pattern whose first character does not occur changes nothing. *)
Lemma str_replace_absent (x : char) (p t s : str) :
  x ∉ s -> str_replace (x :: p) t s = s.
Proof.
  induction s as [|c s IH]; [done | ]. rewrite not_elem_of_cons. intros [H1 H2].
  rewrite str_replace_miss by done. by rewrite IH.
Qed.

(** *** Trimming *)

Lemma trim_start_plain (c : char) (s : str) :
  is_whitespace c = false -> trim_start (c :: s) = c :: s.
Proof. simpl. by intros ->. Qed.

Lemma trim_end_snoc (c : char) (s : str) :
  is_whitespace c = false -> trim_end (s ++ [c]) = s ++ [c].
Proof.
  unfold trim_end. rewrite rev_app_distr. simpl. intros ->. simpl.
  by rewrite rev_involutive.
Qed.

Lemma trim_end_cons_plain (c : char) (s : str) :
  is_whitespace c = false -> trim_end (c :: s) = c :: trim_end s.
Proof.
  intros Hc. unfold trim_end. simpl rev at 2.
  assert (Haux : forall r, trim_start (r ++ [c]) = trim_start r ++ [c]).
  { induction r as [|x r IH]; simpl; [by rewrite Hc | ]. by destruct (is_whitespace x). }
  rewrite Haux, rev_app_distr. done.
Qed.

Lemma trim_start_head (s : str) :
  match trim_start s with
  | [] => True
  | c :: _ => is_whitespace c = false
  end.
Proof. induction s as [|c s IH]; simpl; [done | ]. by destruct (is_whitespace c) eqn:E. Qed.

Lemma trim_start_idem (s : str) : trim_start (trim_start s) = trim_start s.
Proof.
  pose proof (trim_start_head s) as H. destruct (trim_start s); [done | ]. simpl. by rewrite H.
Qed.

Lemma trim_end_idem (s : str) : trim_end (trim_end s) = trim_end s.
Proof. unfold trim_end. by rewrite rev_involutive, trim_start_idem. Qed.

Lemma trim_start_trim (s : str) : trim_start (trim s) = trim s.
Proof.
  unfold trim. pose proof (trim_start_head s) as H. destruct (trim_start s) as [|c t]; [done | ].
  rewrite trim_end_cons_plain by done. simpl. by rewrite H.
Qed.

Lemma trim_idem (s : str) : trim (trim s) = trim s.
Proof. unfold trim at 1. rewrite trim_start_trim. unfold trim. apply trim_end_idem. Qed.

Lemma trim_end_cons (c : char) (s : str) :
  trim_end (c :: s)
  = match trim_end s with
    | [] => if is_whitespace c then [] else [c]
    | t => c :: t
    end.
Proof.
  unfold trim_end. simpl rev at 2.
  assert (Haux : forall r, trim_start (r ++ [c])
    = match trim_start r with [] => if is_whitespace c then [] else [c] | t => t ++ [c] end).
  { induction r as [|x r IH]; simpl; [done | ]. by destruct (is_whitespace x). }
  rewrite Haux. destruct (trim_start (rev s)) as [|x r]; simpl; [by destruct (is_whitespace c) | ].
  rewrite rev_app_distr. simpl. by destruct (rev r ++ [x]) eqn:E; [destruct (rev r) | ].
Qed.

(** Trimming may start at either end. *)
Lemma trim_comm (s : str) : trim s = trim_start (trim_end s).
Proof.
  unfold trim. induction s as [|c s IH]; [done | ]. rewrite trim_end_cons. simpl.
  destruct (is_whitespace c) eqn:Hc.
  - rewrite IH. destruct (trim_end s) as [|x t]; [done | ]. simpl. by rewrite Hc.
  - rewrite trim_end_cons. destruct (trim_end s) as [|x t]; simpl; by rewrite Hc.
Qed.

(** A non-empty trimmed string starts and ends with a visible character. *)
Lemma trimmed_ends (s : str) :
  trim s = s -> s <> [] ->
  (exists c t, s = c :: t /\ is_whitespace c = false)
  /\ (exists c t, s = t ++ [c] /\ is_whitespace c = false).
Proof.
  intros Htrim Hne. split.
  - pose proof (trim_start_head s) as H. pose proof (trim_start_trim s) as H2.
    rewrite Htrim in H2. rewrite H2 in H. destruct s as [|c t]; [done | ]. eauto.
  - pose proof (trim_start_head (rev (trim_start s))) as H.
    assert (Hr : rev s = trim_start (rev (trim_start s))).
    { rewrite <- Htrim at 1. unfold trim, trim_end. by rewrite rev_involutive. }
    rewrite <- Hr in H. destruct (rev s) as [|c t] eqn:E.
    { apply (f_equal (@rev _)) in E. rewrite rev_involutive in E. done. }
    exists c, (rev t). split; [ | done].
    apply (f_equal (@rev _)) in E. rewrite rev_involutive in E. done.
Qed.

Lemma trim_end_app_trimmed (p s : str) :
  trim s = s -> s <> [] -> trim_end (p ++ s) = p ++ s.
Proof.
  intros Ht Hne. destruct (trimmed_ends s Ht Hne) as [_ (c & t & -> & Hc)].
  rewrite app_assoc. by apply trim_end_snoc.
Qed.

#[export] Hint Resolve len_utf8_pos str_len_nonneg split_char_pieces : webcodex.

#[global] Arguments strip_prefix p s : simpl never.
#[global] Arguments starts_with p s : simpl never.
#[global] Arguments trim s : simpl never.
#[global] Arguments trim_end s : simpl never.
#[global] Arguments N.eqb n m : simpl never.
