(* ===== verification/ApplyEdits.v ===== *)
(** * ApplyEdits: crates/webcodex-core/src/apply_edits_shared.rs

    Line-ending detection, canonicalisation and restoration for existing text
    files, the exact-match resolver of [apply_text_edits] (global occurrence
    numbering, optional line fence, bounded conflict candidates) and the input
    vocabulary of the tool. *)
From S2P Require Import Prelude RustStr.

(** ** Line endings *)

Inductive ApplyTextLineEnding : Type :=
| LeNone
| Lf
| Crlf.

#[export] Instance ApplyTextLineEnding_eq_dec : EqDecision ApplyTextLineEnding.
Proof. solve_decision. Defined.

(** The scan of [detect_apply_text_line_ending]: [\r] must be followed by [\n],
    and the pair is consumed as one. *)
Fixpoint detect_loop (bytes : list N) (saw_lf saw_crlf : bool) : result (bool * bool) str :=
  match bytes with
  | [] => Ok (saw_lf, saw_crlf)
  | b :: rest =>
      if N.eqb b CR then
        match rest with
        | b2 :: rest' =>
            if N.eqb b2 LF then detect_loop rest' saw_lf true
            else Err (lit "file contains unsupported bare CR line endings")
        | [] => Err (lit "file contains unsupported bare CR line endings")
        end
      else if N.eqb b LF then detect_loop rest true saw_crlf
      else detect_loop rest saw_lf saw_crlf
  end.

Definition detect_apply_text_line_ending (text : str) : result ApplyTextLineEnding str :=
  let? flags := detect_loop (as_bytes text) false false in
  match flags with
  | (true, true) => Err (lit "file contains mixed LF and CRLF line endings")
  | (true, false) => Ok Lf
  | (false, true) => Ok Crlf
  | (false, false) => Ok LeNone
  end.

Fixpoint has_bare_cr (bytes : list N) : bool :=
  match bytes with
  | [] => false
  | b :: rest =>
      (N.eqb b CR && match rest with b2 :: _ => negb (N.eqb b2 LF) | [] => true end)
      || has_bare_cr rest
  end.

Definition canonicalize_apply_text_line_endings (text : str) (line_ending : ApplyTextLineEnding)
  : result str str :=
  let bytes := as_bytes text in
  if negb (contains_char CR bytes) then Ok text
  else
    bail? has_bare_cr bytes with lit "edit text contains unsupported bare CR line endings" ;;
    if line_ending ==? LeNone then Ok text
    else Ok (str_replace [CR; LF] [LF] text).

Definition restore_apply_text_line_endings (text : str) (line_ending : ApplyTextLineEnding) : str :=
  match line_ending with
  | Crlf => str_replace [LF] [CR; LF] text
  | LeNone | Lf => text
  end.

(** ** Edit vocabulary *)

Inductive ApplyTextEditKind : Type :=
| ReplaceExact
| InsertAfter
| InsertBefore
| DeleteExact.

Definition ApplyTextEditKind_as_str (k : ApplyTextEditKind) : str :=
  match k with
  | ReplaceExact => lit "replace_exact"
  | InsertAfter => lit "insert_after"
  | InsertBefore => lit "insert_before"
  | DeleteExact => lit "delete_exact"
  end.

Record ApplyTextLineScope : Type := mkScope {
  scope_start_line : nat;
  scope_end_line : nat
}.

#[export] Instance ApplyTextLineScope_eq_dec : EqDecision ApplyTextLineScope.
Proof. solve_decision. Defined.

Definition scope_validate (s : ApplyTextLineScope) : result unit str :=
  bail? scope_start_line s ==? 0 with lit "line_scope.start_line must be at least 1" ;;
  bail? scope_end_line s ==? 0 with lit "line_scope.end_line must be at least 1" ;;
  bail? Nat.ltb (scope_end_line s) (scope_start_line s)
    with lit "line_scope.end_line must be greater than or equal to start_line" ;;
  Ok tt.

Record ApplyTextMatchCandidate : Type := mkCandidate {
  cand_occurrence : nat;
  cand_start_line : nat;
  cand_end_line : nat
}.

#[export] Instance ApplyTextMatchCandidate_eq_dec : EqDecision ApplyTextMatchCandidate.
Proof. solve_decision. Defined.

Definition scope_contains (s : ApplyTextLineScope) (c : ApplyTextMatchCandidate) : bool :=
  Nat.leb (scope_start_line s) (cand_start_line c) && Nat.leb (cand_end_line c) (scope_end_line s).

Record ApplyTextEditInput : Type := mkEditInput {
  edit_kind : ApplyTextEditKind;
  edit_old_text : option str;
  edit_new_text : option str;
  edit_anchor_text : option str;
  edit_occurrence : option nat;
  edit_line_scope : option ApplyTextLineScope
}.

Definition MAX_APPLY_TEXT_CONFLICT_CANDIDATES : nat := 8.

Inductive ApplyTextMatchConflictKind : Type :=
| MatchNotFound
| MultipleMatches
| OccurrenceOutOfRange
| OccurrenceOutsideLineScope.

Definition ApplyTextMatchConflictKind_as_str (k : ApplyTextMatchConflictKind) : str :=
  match k with
  | MatchNotFound => lit "match_not_found"
  | MultipleMatches => lit "multiple_matches"
  | OccurrenceOutOfRange => lit "occurrence_out_of_range"
  | OccurrenceOutsideLineScope => lit "occurrence_outside_line_scope"
  end.

Record ApplyTextMatchConflict : Type := mkConflict {
  conflict_kind : ApplyTextMatchConflictKind;
  conflict_match_count : nat;
  conflict_requested_occurrence : option nat;
  conflict_line_scope : option ApplyTextLineScope;
  conflict_line_scope_match_count : option nat;
  conflict_candidate_ranges : list ApplyTextMatchCandidate;
  conflict_candidates_truncated : bool
}.

(** ** Exact-match resolution *)

(** [hay.match_indices(needle)] for a non-empty needle: the byte offsets of the
    leftmost non-overlapping matches.  [str] search is a search of the UTF-8
    bytes. *)
Fixpoint match_indices_from (needle : list N) (skip : nat) (at_ : nat) (hay : list N) : list nat :=
  match hay with
  | [] => []
  | _ :: hay' =>
      match skip with
      | S k => match_indices_from needle k (S at_) hay'
      | O => if starts_with needle hay
             then at_ :: match_indices_from needle (length needle - 1) (S at_) hay'
             else match_indices_from needle 0 (S at_) hay'
      end
  end.
Definition match_indices (hay needle : list N) : list nat := match_indices_from needle 0 0 hay.

(** The mutable variables of the resolver's scan.  The counters are bounded by
    the text's length, so their saturating additions are exact. *)
Record MatchScan : Type := mkScan {
  scan_candidate_ranges : list ApplyTextMatchCandidate;
  scan_match_count : nat;
  scan_line_scope_match_count : nat;
  scan_selected_occurrence : option (nat * nat * ApplyTextMatchCandidate);
  scan_selected_eligible : option (nat * nat);
  scan_line_cursor : nat;
  scan_current_line : nat
}.

Definition scan_init : MatchScan := mkScan [] 0 0 None None 0 1.

Definition byte_slice (bytes : list N) (from to : nat) : list N := take (to - from) (drop from bytes).

Section Resolve.
Context (original needle : str) (occurrence : option nat) (line_scope : option ApplyTextLineScope).

Local Abbreviation bytes := (as_bytes original).
Local Abbreviation nbytes := (as_bytes needle).
Local Abbreviation needle_newlines := (count_lf nbytes).
Local Abbreviation needle_ends_with_newline := (beq (last nbytes) (Some LF)).

Definition scan_candidate (current_line match_count : nat) : ApplyTextMatchCandidate :=
  let end_line := if needle_ends_with_newline then current_line + (needle_newlines - 1)
                  else current_line + needle_newlines in
  mkCandidate match_count current_line (Nat.max end_line current_line).

(** One iteration of the [for (start, _) in original.match_indices(needle)] loop. *)
Definition scan_step (st : MatchScan) (start : nat) : MatchScan :=
  let current_line :=
    scan_current_line st + count_lf (byte_slice bytes (scan_line_cursor st) start) in
  let match_count := S (scan_match_count st) in
  let candidate := scan_candidate current_line match_count in
  let end_ := start + length nbytes in
  let eligible := is_none_or (fun s => scope_contains s candidate) line_scope in
  mkScan
    (if eligible && Nat.ltb (length (scan_candidate_ranges st)) MAX_APPLY_TEXT_CONFLICT_CANDIDATES
     then scan_candidate_ranges st ++ [candidate] else scan_candidate_ranges st)
    match_count
    (if eligible then S (scan_line_scope_match_count st) else scan_line_scope_match_count st)
    (if beq occurrence (Some match_count) then Some (start, end_, candidate)
     else scan_selected_occurrence st)
    (if eligible then Some (start, end_) else scan_selected_eligible st)
    start
    current_line.

Definition scan_all : MatchScan := foldl scan_step scan_init (match_indices bytes nbytes).

Definition scan_scoped_match_count (st : MatchScan) : option nat :=
  (fun _ => scan_line_scope_match_count st) <$> line_scope.
Definition scan_eligible_match_count (st : MatchScan) : nat :=
  unwrap_or (scan_match_count st) (scan_scoped_match_count st).

Definition scan_conflict (st : MatchScan) (kind : ApplyTextMatchConflictKind)
  (requested : option nat) : ApplyTextMatchConflict :=
  mkConflict kind (scan_match_count st) requested line_scope (scan_scoped_match_count st)
    (scan_candidate_ranges st)
    (Nat.ltb MAX_APPLY_TEXT_CONFLICT_CANDIDATES (scan_eligible_match_count st)).

(** [None] is a panic of one of the two [expect]s. *)
Definition resolve_apply_text_match : option (result (nat * nat) ApplyTextMatchConflict) :=
  let st := scan_all in
  if scan_match_count st ==? 0 then Some (Err (scan_conflict st MatchNotFound occurrence))
  else
    match occurrence with
    | Some requested =>
        if (requested ==? 0) || Nat.ltb (scan_match_count st) requested
        then Some (Err (scan_conflict st OccurrenceOutOfRange (Some requested)))
        else
          match scan_selected_occurrence st with
          | None => None
          | Some (start, end_, candidate) =>
              if is_some_and (fun s => negb (scope_contains s candidate)) line_scope
              then Some (Err (scan_conflict st OccurrenceOutsideLineScope (Some requested)))
              else Some (Ok (start, end_))
          end
    | None =>
        if scan_eligible_match_count st ==? 0
        then Some (Err (scan_conflict st MatchNotFound None))
        else if Nat.ltb 1 (scan_eligible_match_count st)
        then Some (Err (scan_conflict st MultipleMatches None))
        else Ok <$> scan_selected_eligible st
    end.
End Resolve.

(** ** File changes *)

Inductive ApplyFileChangeKind : Type :=
| FcEdit
| FcCreate
| FcDelete
| FcRename.

Definition ApplyFileChangeKind_as_str (k : ApplyFileChangeKind) : str :=
  match k with
  | FcEdit => lit "edit"
  | FcCreate => lit "create"
  | FcDelete => lit "delete"
  | FcRename => lit "rename"
  end.

Record ApplyFileChangeInput : Type := mkFileChange {
  fc_kind : ApplyFileChangeKind;
  fc_path : str;
  fc_to_path : option str;
  fc_content : option str;
  fc_edits : list ApplyTextEditInput;
  fc_expected_sha256 : option str
}.

Definition is_lowercase_hex_sha256 (value : str) : bool :=
  Z.eqb (str_len value) 64 && forallb is_lower_hexdigit (as_bytes value).

Definition MAX_APPLY_TEXT_EDITS : nat := 20.
Definition MAX_APPLY_FILE_CHANGES : nat := 16.
Definition MAX_APPLY_TEXT_EDIT_FIELD_BYTES : Z := 512 * 1024.

(** ** Line endings: lemmas *)

Lemma as_bytes_cons (c : char) (s : str) : as_bytes (c :: s) = encode_utf8 c ++ as_bytes s.
Proof. done. Qed.

Lemma encode_ascii (c : char) : (c < 128)%N -> encode_utf8 c = [c].
Proof. intros H. unfold encode_utf8. by destruct (N.ltb_spec c 128); [ | lia]. Qed.

Lemma detect_loop_skip (bs rest : list N) (lf crlf : bool) :
  Forall (fun b => b <> CR /\ b <> LF) bs ->
  detect_loop (bs ++ rest) lf crlf = detect_loop rest lf crlf.
Proof.
  induction 1 as [|b bs [Hcr Hlf] _ IH]; [done | ]. simpl.
  destruct (N.eqb_spec b CR); [done | ]. by destruct (N.eqb_spec b LF).
Qed.

Lemma encode_no_line_bytes (c : char) :
  c <> CR -> c <> LF -> Forall (fun b => b <> CR /\ b <> LF) (encode_utf8 c).
Proof.
  intros H1 H2. apply Forall_forall. intros b Hb.
  split; intros ->; apply encode_utf8_ascii in Hb; done.
Qed.

(** Scanning the bytes is scanning the characters. *)
Lemma detect_loop_chars (s : str) (lf crlf : bool) :
  detect_loop (as_bytes s) lf crlf = detect_loop s lf crlf.
Proof.
  revert lf crlf. induction s as [s IH] using (well_founded_induction (well_founded_ltof _ length)).
  intros lf crlf. destruct s as [|c s]; [done | ]. rewrite as_bytes_cons.
  destruct (decide (c = CR)) as [->|Hcr].
  - rewrite encode_ascii by done. simpl. destruct s as [|d s]; [done | ].
    rewrite as_bytes_cons. destruct (decide (d = LF)) as [->|Hlf].
    + rewrite encode_ascii by done. simpl. apply IH. unfold ltof. simpl. lia.
    + destruct (N.eqb_spec d LF) as [|_]; [done | ].
      destruct (encode_utf8 d) as [|b bs] eqn:E.
      { unfold encode_utf8 in E. repeat case_match; done. }
      simpl. destruct (N.eqb_spec b LF) as [->|]; [ | done].
      exfalso. apply Hlf, encode_utf8_ascii; [done | ]. rewrite E. by left.
  - destruct (decide (c = LF)) as [->|Hlf].
    + rewrite encode_ascii by done. simpl. apply IH. unfold ltof. simpl. lia.
    + rewrite detect_loop_skip by (by apply encode_no_line_bytes). simpl.
      destruct (N.eqb_spec c CR), (N.eqb_spec c LF); try done.
      apply IH. unfold ltof. simpl. lia.
Qed.

Lemma replace_crlf_hit (s : str) :
  str_replace [CR; LF] [LF] (CR :: LF :: s) = LF :: str_replace [CR; LF] [LF] s.
Proof. exact (str_replace_hit CR [LF] [LF] s). Qed.

Lemma replace_lf_hit (s : str) :
  str_replace [LF] [CR; LF] (LF :: s) = CR :: LF :: str_replace [LF] [CR; LF] s.
Proof. exact (str_replace_hit LF [] [CR; LF] s). Qed.

(** What the two flags of a successful scan say of the text. *)
Lemma detect_loop_flags (s : str) (lf crlf lf' crlf' : bool) :
  detect_loop s lf crlf = Ok (lf', crlf') ->
  (lf' = false -> lf = false) /\ (crlf' = false -> crlf = false /\ CR ∉ s)
  /\ (lf' = false -> str_replace [LF] [CR; LF] (str_replace [CR; LF] [LF] s) = s)
  /\ CR ∉ str_replace [CR; LF] [LF] s.
Proof.
  revert lf crlf. induction s as [s IH] using (well_founded_induction (well_founded_ltof _ length)).
  intros lf crlf Hd. destruct s as [|c s].
  { injection Hd as -> ->. split_and!; try done; [ | apply not_elem_of_nil].
    intros ->. split; [done | apply not_elem_of_nil]. }
  simpl in Hd. destruct (N.eqb_spec c CR) as [->|Hcr].
  - destruct s as [|d s]; [done | ]. destruct (N.eqb_spec d LF) as [->|]; [ | done].
    apply IH in Hd as (H1 & H2 & H3 & H4); [ | unfold ltof; simpl; lia].
    split_and!; [done | | | ].
    + intros Hf. destruct (H2 Hf). discriminate.
    + intros Hf. rewrite replace_crlf_hit, replace_lf_hit. by rewrite (H3 Hf).
    + rewrite replace_crlf_hit. by rewrite not_elem_of_cons.
  - assert (Hrep : str_replace [CR; LF] [LF] (c :: s) = c :: str_replace [CR; LF] [LF] s).
    { by apply str_replace_miss. }
    rewrite Hrep. destruct (N.eqb_spec c LF) as [->|Hlf].
    + apply IH in Hd as (H1 & H2 & H3 & H4); [ | unfold ltof; simpl; lia].
      split_and!; try (intros Hf; discriminate (H1 Hf)); [ | by rewrite not_elem_of_cons].
      intros Hf. destruct (H2 Hf). by rewrite not_elem_of_cons.
    + apply IH in Hd as (H1 & H2 & H3 & H4); [ | unfold ltof; simpl; lia].
      split_and!; [done | | | rewrite not_elem_of_cons; split; [congruence | done]].
      { intros Hf. destruct (H2 Hf). rewrite not_elem_of_cons. split_and!; congruence. }
      intros Hf. rewrite str_replace_miss by done. by rewrite (H3 Hf).
Qed.

Lemma detect_has_no_bare_cr (s : str) (lf crlf : bool) (p : bool * bool) :
  detect_loop s lf crlf = Ok p -> has_bare_cr s = false.
Proof.
  revert lf crlf. induction s as [s IH] using (well_founded_induction (well_founded_ltof _ length)).
  intros lf crlf Hd. destruct s as [|c s]; [done | ]. simpl in Hd |- *.
  destruct (N.eqb_spec c CR) as [->|Hcr].
  - destruct s as [|d s]; [done | ]. destruct (N.eqb_spec d LF) as [->|]; [ | done].
    simpl. eapply IH; [ | exact Hd]. unfold ltof. simpl. lia.
  - simpl. destruct (N.eqb_spec c LF); (eapply IH; [ | exact Hd]); unfold ltof; simpl; lia.
Qed.

(** For every file whose line-ending convention is accepted, canonicalising
    its text under that convention succeeds, leaves no carriage return for the
    matcher, and restoring gives the original text back byte for byte. *)
Lemma line_ending_roundtrip (text : str) (le : ApplyTextLineEnding) :
  detect_apply_text_line_ending text = Ok le ->
  exists canonical,
    canonicalize_apply_text_line_endings text le = Ok canonical
    /\ (CR ∉ canonical)
    /\ restore_apply_text_line_endings canonical le = text.
Proof.
  unfold detect_apply_text_line_ending. rewrite detect_loop_chars.
  destruct (detect_loop text false false) as [[lf crlf]|e] eqn:Hd; [ | done]. simpl.
  pose proof (detect_loop_flags _ _ _ _ _ Hd) as (_ & Hno & Hround & Hclean).
  assert (Hbare : has_bare_cr (as_bytes text) = false).
  { eapply detect_has_no_bare_cr. rewrite detect_loop_chars. exact Hd. }
  intros Hle. unfold canonicalize_apply_text_line_endings. rewrite Hbare.
  destruct (contains_char CR (as_bytes text)) eqn:Hc; simpl.
  - apply contains_char_spec in Hc. apply (proj1 (as_bytes_ascii text CR ltac:(done))) in Hc.
    destruct lf, crlf; simplify_eq; simpl; try (by destruct (Hno eq_refl)).
    exists (str_replace [CR; LF] [LF] text). split_and!; [done | done | by apply Hround].
  - exists text. split; [done | ].
    assert (Hnin : CR ∉ text).
    { intros Hin. apply (proj2 (as_bytes_ascii text CR ltac:(done))) in Hin.
      apply contains_char_spec in Hin. congruence. }
    split; [done | ]. destruct lf, crlf; simplify_eq; simpl; try done.
    rewrite <- (Hround eq_refl) at 2. by rewrite (str_replace_absent CR).
Qed.

Lemma line_ending_roundtrip_witness :
  exists canonical,
    canonicalize_apply_text_line_endings (lit "a" ++ [CR; LF] ++ lit "b") Crlf = Ok canonical
    /\ (CR ∉ canonical)
    /\ restore_apply_text_line_endings canonical Crlf = lit "a" ++ [CR; LF] ++ lit "b".
Proof. apply line_ending_roundtrip. vm_compute. reflexivity. Defined.

(** ** The resolver against a reference definition *)

(** A match with its byte range and its identity. *)
Abbreviation match_entry := (nat * nat * ApplyTextMatchCandidate)%type.

Section Reference.
Context (original needle : str) (occurrence : option nat) (line_scope : option ApplyTextLineScope).

(** The line a byte offset is on, counted from the start of the file. *)
Definition line_of_offset (start : nat) : nat := 1 + count_lf (take start (as_bytes original)).

Definition entry_of (k start : nat) : match_entry :=
  (start, start + length (as_bytes needle), scan_candidate needle (line_of_offset start) (S k)).

Definition entries_of (starts : list nat) : list match_entry := imap entry_of starts.
Definition all_entries : list match_entry :=
  entries_of (match_indices (as_bytes original) (as_bytes needle)).

Definition in_scope (e : match_entry) : bool :=
  is_none_or (fun s => scope_contains s (snd e)) line_scope.
Definition eligible (es : list match_entry) : list match_entry := List.filter in_scope es.

Definition reference_conflict (kind : ApplyTextMatchConflictKind) (requested : option nat)
  : ApplyTextMatchConflict :=
  mkConflict kind (length all_entries) requested line_scope
    ((fun _ => length (eligible all_entries)) <$> line_scope)
    (take MAX_APPLY_TEXT_CONFLICT_CANDIDATES (map snd (eligible all_entries)))
    (Nat.ltb MAX_APPLY_TEXT_CONFLICT_CANDIDATES (length (eligible all_entries))).

(** Two passes over all matches: pick the requested one, or the only one in
    scope. *)
Definition reference_resolve : result (nat * nat) ApplyTextMatchConflict :=
  match all_entries with
  | [] => Err (reference_conflict MatchNotFound occurrence)
  | _ :: _ =>
      match occurrence with
      | Some 0 => Err (reference_conflict OccurrenceOutOfRange (Some 0))
      | Some (S k) =>
          match all_entries !! k with
          | None => Err (reference_conflict OccurrenceOutOfRange (Some (S k)))
          | Some e => if in_scope e then Ok (fst e)
                      else Err (reference_conflict OccurrenceOutsideLineScope (Some (S k)))
          end
      | None =>
          match eligible all_entries with
          | [] => Err (reference_conflict MatchNotFound None)
          | [e] => Ok (fst e)
          | _ :: _ :: _ => Err (reference_conflict MultipleMatches None)
          end
      end
  end.

(** What the scan's variables hold after the matches [done] were visited. *)
Record scan_inv (done : list nat) (st : MatchScan) : Prop := {
  si_count : scan_match_count st = length done;
  si_ranges : scan_candidate_ranges st
    = take MAX_APPLY_TEXT_CONFLICT_CANDIDATES (map snd (eligible (entries_of done)));
  si_scoped : scan_line_scope_match_count st = length (eligible (entries_of done));
  si_occurrence : scan_selected_occurrence st
    = (occurrence ≫= fun r => match r with 0 => None | S k => entries_of done !! k end);
  si_eligible : scan_selected_eligible st = fst <$> last (eligible (entries_of done));
  si_cursor : scan_line_cursor st = default 0 (last done);
  si_line : scan_current_line st = line_of_offset (scan_line_cursor st)
}.

Lemma scan_inv_init : scan_inv [] scan_init.
Proof. split; try done. by destruct occurrence as [[|k]|]. Qed.

Lemma count_lf_split (bs : list N) (a b : nat) :
  a <= b -> count_lf (take b bs) = count_lf (take a bs) + count_lf (byte_slice bs a b).
Proof.
  intros Hab. unfold count_lf, byte_slice.
  rewrite <- length_app, <- List.filter_app. do 2 f_equal.
  rewrite take_drop_commute. replace (a + (b - a)) with b by lia.
  replace (take a bs) with (take a (take b bs)) by (rewrite take_take; f_equal; lia).
  by rewrite take_drop.
Qed.

Lemma entries_snoc (done : list nat) (start : nat) :
  entries_of (done ++ [start]) = entries_of done ++ [entry_of (length done) start].
Proof. unfold entries_of. rewrite imap_app. simpl. by rewrite Nat.add_0_r. Qed.

Lemma eligible_snoc (es : list match_entry) (e : match_entry) :
  eligible (es ++ [e]) = eligible es ++ (if in_scope e then [e] else []).
Proof. unfold eligible. rewrite List.filter_app. simpl. by destruct (in_scope e). Qed.

Lemma take_snoc_bounded {A : Type} (n : nat) (l : list A) (x : A) :
  take n (l ++ [x]) = if Nat.ltb (length (take n l)) n then take n l ++ [x] else take n l.
Proof.
  rewrite length_take. destruct (Nat.ltb_spec (n `min` length l) n) as [H|H].
  - rewrite (take_ge l) by lia. apply take_ge. rewrite length_app. simpl. lia.
  - rewrite take_app_le by lia. done.
Qed.

Lemma occurrence_snoc (done : list nat) (start : nat) :
  (occurrence ≫= fun r => match r with
                          | 0 => None
                          | S k => entries_of (done ++ [start]) !! k
                          end)
  = if beq occurrence (Some (S (length done))) then Some (entry_of (length done) start)
    else occurrence ≫= fun r => match r with 0 => None | S k => entries_of done !! k end.
Proof.
  rewrite entries_snoc. assert (Hlen : length (entries_of done) = length done) by apply length_imap.
  destruct occurrence as [[|k]|]; simpl; try done.
  destruct (beq (Some (S k)) (Some (S (length done)))) eqn:E.
  - apply beq_true in E. assert (k = length done) as -> by congruence. by rewrite lookup_app_r, Hlen, Nat.sub_diag by lia.
  - apply beq_false in E. destruct (decide (k < length done)) as [Hk|Hk].
    + by rewrite lookup_app_l by lia.
    + rewrite !lookup_ge_None_2; try done; rewrite ?length_app; simpl; lia || idtac.
      assert (k <> length done) by congruence. lia.
Qed.

Lemma scan_step_inv (done : list nat) (start : nat) (st : MatchScan) :
  default 0 (last done) <= start ->
  scan_inv done st -> scan_inv (done ++ [start]) (scan_step original needle occurrence line_scope st start).
Proof.
  intros Hle [Hc Hr Hs Ho He Hcur Hl].
  assert (Hline : scan_current_line st
                  + count_lf (byte_slice (as_bytes original) (scan_line_cursor st) start)
                  = line_of_offset start).
  { rewrite Hl, Hcur. unfold line_of_offset.
    rewrite (count_lf_split _ (default 0 (last done)) start) by done. lia. }
  unfold scan_step. rewrite Hline, Hc.
  change (is_none_or (λ s, scope_contains s (scan_candidate needle (line_of_offset start)
           (S (length done)))) line_scope) with (in_scope (entry_of (length done) start)).
  split; simpl.
  - rewrite length_app. simpl. lia.
  - rewrite entries_snoc, eligible_snoc, map_app, Hr.
    destruct (in_scope (entry_of (length done) start)); simpl; [ | by rewrite app_nil_r].
    by rewrite take_snoc_bounded.
  - rewrite entries_snoc, eligible_snoc, length_app, Hs.
    destruct (in_scope (entry_of (length done) start)); simpl; lia.
  - rewrite occurrence_snoc, Ho. by destruct (beq occurrence _).
  - rewrite entries_snoc, eligible_snoc, He.
    destruct (in_scope (entry_of (length done) start)); [by rewrite last_snoc | by rewrite app_nil_r].
  - by rewrite last_snoc.
  - done.
Qed.

(** The match offsets come in increasing order. *)
Lemma match_indices_from_ge (nd hay : list N) (skip at_ i : nat) :
  i ∈ match_indices_from nd skip at_ hay -> at_ <= i.
Proof.
  revert skip at_. induction hay as [|b hay IH]; intros skip at_ Hin; simpl in Hin.
  { by apply not_elem_of_nil in Hin. }
  destruct skip; [ | apply IH in Hin; lia].
  destruct (starts_with nd (b :: hay)); [ | apply IH in Hin; lia].
  apply elem_of_cons in Hin as [->|Hin]; [lia | apply IH in Hin; lia].
Qed.

Lemma match_indices_from_sorted (nd hay : list N) (skip at_ : nat) :
  StronglySorted le (match_indices_from nd skip at_ hay).
Proof.
  revert skip at_. induction hay as [|b hay IH]; intros skip at_; simpl; [constructor | ].
  destruct skip; [ | apply IH]. destruct (starts_with nd (b :: hay)); [ | apply IH].
  constructor; [apply IH | ]. apply Forall_forall. intros i Hi.
  apply match_indices_from_ge in Hi. lia.
Qed.

Lemma scan_fold_inv (todo done : list nat) (st : MatchScan) :
  StronglySorted le (done ++ todo) -> scan_inv done st ->
  scan_inv (done ++ todo) (foldl (scan_step original needle occurrence line_scope) st todo).
Proof.
  revert done st. induction todo as [|start todo IH]; intros done st Hsort Hinv; simpl.
  { by rewrite app_nil_r. }
  replace (done ++ start :: todo) with ((done ++ [start]) ++ todo) by (by rewrite <- app_assoc).
  apply IH; [by rewrite <- app_assoc | ]. apply scan_step_inv; [ | done].
  destruct (last done) as [d|] eqn:Hd; simpl; [ | lia].
  apply last_snoc_inv in Hd as [k ->]. rewrite <- app_assoc in Hsort. simpl in Hsort.
  apply StronglySorted_app in Hsort as (_ & _ & Hsort).
  inversion Hsort as [|? ? ? Hall]; subst. by inversion Hall.
Qed.

Lemma scan_all_inv :
  scan_inv (match_indices (as_bytes original) (as_bytes needle))
    (scan_all original needle occurrence line_scope).
Proof.
  unfold scan_all. apply (scan_fold_inv _ []); [ | apply scan_inv_init].
  apply match_indices_from_sorted.
Qed.
End Reference.

(** C39: The single-pass resolver of [apply_text_edits] equals the two-pass
    reference: it never reaches one of its [expect] panics, picks the requested
    global occurrence or the only match inside the line fence, and otherwise
    reports the conflict with the total count, the scoped count and the first
    eight eligible candidates. *)
Theorem resolve_matches_reference (original needle : str) (occurrence : option nat)
  (line_scope : option ApplyTextLineScope) :
  needle <> [] ->
  resolve_apply_text_match original needle occurrence line_scope
  = Some (reference_resolve original needle occurrence line_scope).
Proof.
  intros _. pose proof (scan_all_inv original needle occurrence line_scope) as Hinv.
  unfold resolve_apply_text_match. cbv zeta. set (st := scan_all _ _ _ _) in *.
  set (starts := match_indices _ _) in *. destruct Hinv as [Hc Hr Hs Ho He _ _].
  assert (Hall : all_entries original needle = entries_of original needle starts) by done.
  assert (Hlen : length (all_entries original needle) = length starts) by (rewrite Hall; apply length_imap).
  assert (Helig : scan_eligible_match_count line_scope st
                  = length (eligible line_scope (all_entries original needle))).
  { unfold scan_eligible_match_count, scan_scoped_match_count. rewrite Hs, Hc, <- Hall.
    destruct line_scope as [s|]; simpl; [done | ].
    unfold eligible. rewrite <- Hlen. f_equal. symmetry. apply forallb_filter_id.
    by apply forallb_forall. }
  assert (Hconf : forall k r, scan_conflict line_scope st k r
                              = reference_conflict original needle line_scope k r).
  { intros k r. unfold scan_conflict, reference_conflict. rewrite Helig. rewrite Hr, Hc, Hlen.
    unfold scan_scoped_match_count. by rewrite Hs. }
  rewrite Hc. unfold reference_resolve. rewrite !Hconf.
  destruct (all_entries original needle) as [|e0 es] eqn:Hes.
  { simpl in Hlen. rewrite <- Hlen. simpl. by rewrite ?Hconf. }
  assert (Hpos : length starts <> 0) by (rewrite <- Hlen; simpl; lia).
  replace (length starts ==? 0) with false by (symmetry; by apply beq_neq).
  destruct occurrence as [[|k]|]; simpl orb; cbv iota.
  - by rewrite ?Hconf.
  - rewrite Ho. simpl mbind. rewrite <- Hall. rewrite <- Hes in *.
    destruct (Nat.ltb_spec (length starts) (S k)) as [Hk|Hk].
    + rewrite (lookup_ge_None_2 (all_entries original needle) k) by lia. by rewrite ?Hconf.
    + destruct (lookup_lt_is_Some_2 (all_entries original needle) k) as [[[s e] c] Hx]; [lia | ].
      rewrite Hx. unfold in_scope. simpl. rewrite ?Hconf.
      destruct line_scope as [sc|]; simpl; [ | done]. by destruct (scope_contains sc c).
  - rewrite Helig, He, <- Hall. rewrite <- Hes, ?Hconf.
    destruct (eligible line_scope (all_entries original needle)) as [|[[s e] c] [|x xs]]; done.
Qed.

Lemma resolve_matches_reference_witness :
  resolve_apply_text_match (lit "dup mid dup") (lit "dup") (Some 2) (Some (mkScope 1 1))
  = Some (reference_resolve (lit "dup mid dup") (lit "dup") (Some 2) (Some (mkScope 1 1))).
Proof. apply resolve_matches_reference. discriminate. Defined.

Lemma match_indices_from_hit (nd hay : list N) (skip at_ i : nat) :
  i ∈ match_indices_from nd skip at_ hay ->
  exists r, drop (i - at_) hay = nd ++ r.
Proof.
  revert skip at_. induction hay as [|b hay IH]; intros skip at_ Hin; simpl in Hin.
  { by apply not_elem_of_nil in Hin. }
  assert (Htail : forall k, i ∈ match_indices_from nd k (S at_) hay -> exists r, drop (i - at_) (b :: hay) = nd ++ r).
  { intros k Hi. pose proof (match_indices_from_ge _ _ _ _ _ Hi). apply IH in Hi as [r Hr].
    exists r. by replace (i - at_) with (S (i - S at_)) by lia. }
  destruct skip; [ | by apply Htail in Hin].
  destruct (starts_with nd (b :: hay)) eqn:E; [ | by apply Htail in Hin].
  apply elem_of_cons in Hin as [->|Hin]; [ | by apply Htail in Hin].
  rewrite Nat.sub_diag. by apply starts_with_spec in E.
Qed.

Lemma entry_range (original needle : str) (k : nat) (e : match_entry) :
  all_entries original needle !! k = Some e ->
  snd (fst e) = fst (fst e) + length (as_bytes needle)
  /\ byte_slice (as_bytes original) (fst (fst e)) (snd (fst e)) = as_bytes needle.
Proof.
  unfold all_entries, entries_of. rewrite list_lookup_imap. intros H.
  apply fmap_Some in H as (start & Hs & ->). simpl. split; [done | ].
  apply list_elem_of_lookup_2, match_indices_from_hit in Hs as [r Hr].
  rewrite Nat.sub_0_r in Hr. unfold byte_slice. rewrite Hr.
  replace (start + length (as_bytes needle) - start) with (length (as_bytes needle)) by lia.
  apply take_app_length.
Qed.

(** The byte range an accepted edit rewrites holds exactly the text the
    caller named, and lies inside the requested line fence. *)
Lemma resolve_range_is_needle (original needle : str) (occurrence : option nat)
  (line_scope : option ApplyTextLineScope) (start end_ : nat) :
  needle <> [] ->
  resolve_apply_text_match original needle occurrence line_scope = Some (Ok (start, end_)) ->
  byte_slice (as_bytes original) start end_ = as_bytes needle
  /\ end_ = start + length (as_bytes needle)
  /\ exists k, match_indices (as_bytes original) (as_bytes needle) !! k = Some start
       /\ (forall r, occurrence = Some r -> r = S k)
       /\ forall s, line_scope = Some s ->
            scope_contains s (scan_candidate needle (line_of_offset original start) (S k)) = true.
Proof.
  intros Hne. rewrite resolve_matches_reference by done. intros [= H].
  assert (Hk : exists k e, all_entries original needle !! k = Some e /\ fst e = (start, end_)
                 /\ in_scope line_scope e = true /\ (forall r, occurrence = Some r -> r = S k)).
  { unfold reference_resolve in H. destruct (all_entries original needle) as [|e0 es] eqn:Hes; [done | ].
    rewrite <- Hes in *. destruct occurrence as [[|k]|]; [done | | ].
    - destruct (all_entries original needle !! k) as [e|] eqn:Hx; [ | done].
      destruct (in_scope line_scope e) eqn:Hsc; [ | done]. injection H as H.
      exists k, e. split_and!; [done | done | done | ]. intros r [= <-]. done.
    - destruct (eligible line_scope (all_entries original needle)) as [|e [|]] eqn:He; try done.
      injection H as H. assert (Hin : In e (eligible line_scope (all_entries original needle))).
      { rewrite He. by left. }
      apply filter_In in Hin as [Hin Hsc]. apply list_elem_of_In, list_elem_of_lookup_1 in Hin as [k Hk].
      by exists k, e. }
  destruct Hk as (k & e & Hx & Hfst & Hsc & Hocc). pose proof (entry_range _ _ _ _ Hx) as [Hend Hslice].
  unfold all_entries, entries_of in Hx. rewrite list_lookup_imap in Hx.
  apply fmap_Some in Hx as (s0 & Hs0 & ->). simpl in *. injection Hfst as -> <-.
  split_and!; [done | done | ]. exists k. split_and!; [done | done | ].
  intros sc ->. exact Hsc.
Qed.

Lemma resolve_range_is_needle_witness :
  byte_slice (as_bytes (lit "dup mid dup")) 8 11 = as_bytes (lit "dup").
Proof.
  apply (resolve_range_is_needle (lit "dup mid dup") (lit "dup") (Some 2) None 8 11);
    [discriminate | vm_compute; reflexivity].
Defined.

(** The write guard accepts exactly the 64-character strings over
    [0-9a-f]. *)
Lemma sha256_guard_exact (value : str) :
  is_lowercase_hex_sha256 value = true
  <-> length value = 64 /\ Forall (fun c => is_lower_hexdigit c = true) value.
Proof.
  unfold is_lowercase_hex_sha256.
  assert (Hsmall : forall c, is_lower_hexdigit c = true -> (c < 128)%N).
  { intros c. unfold is_lower_hexdigit, is_ascii_digit.
    rewrite orb_true_iff, !andb_true_iff, !N.leb_le. lia. }
  assert (Heq : Forall (fun c => is_lower_hexdigit c = true) value -> as_bytes value = value).
  { induction 1 as [|c s Hc _ IH]; [done | ]. rewrite as_bytes_cons, IH.
    rewrite encode_ascii by (by apply Hsmall). done. }
  assert (Hback : forallb is_lower_hexdigit (as_bytes value) = true ->
                  Forall (fun c => is_lower_hexdigit c = true) value).
  { rewrite forallb_Forall. intros H. clear Heq. induction value as [|c s IH]; [constructor | ].
    rewrite as_bytes_cons in H. apply Forall_app in H as [Hc Hs]. constructor; [ | by apply IH].
    unfold encode_utf8 in Hc. repeat case_match; inversion Hc as [|? ? Hb _]; subst; try done;
      apply Hsmall in Hb; exfalso; apply (proj1 (N.lt_nge _ _) Hb);
      (etrans; [ | apply N.le_add_r]); lia. }
  rewrite andb_true_iff, Z.eqb_eq, <- length_as_bytes. split.
  - intros [Hl Hf]. apply Hback in Hf. rewrite (Heq Hf) in Hl. split; [lia | done].
  - intros [Hl Hf]. rewrite (Heq Hf). split; [lia | by apply forallb_Forall].
Qed.
