(* ===== verification/PatchParse.v ===== *)
(** * PatchParse: crates/webcodex-core/src/apply_patch_shared.rs, the patch language

    The data types of the Codex-compatible [apply_patch] tool and its line-based
    parser.  The parser's [while index < lines.len()] loops run on the remaining
    lines together with the zero-based [index] of the first of them; the outer
    loop takes fuel, and [parse_total] shows the fuel given is always enough. *)
From S2P Require Import Prelude RustStr.

Definition MAX_CODEX_PATCH_BYTES : Z := 256 * 1024.
Definition MAX_CODEX_PATCH_FILE_CHANGES : nat := 64.
Definition MAX_CODEX_PATCH_CHUNKS_PER_FILE : nat := 256.
Definition MAX_CODEX_PATCH_RECOVERY_READ_LINES : nat := 64.
Definition MAX_CODEX_PATCH_CANDIDATE_POSITIONS : nat := 4.

Definition BEGIN_PATCH_MARKER : str := lit "*** Begin Patch".
Definition END_PATCH_MARKER : str := lit "*** End Patch".
Definition ADD_FILE_MARKER : str := lit "*** Add File:".
Definition DELETE_FILE_MARKER : str := lit "*** Delete File:".
Definition UPDATE_FILE_MARKER : str := lit "*** Update File:".
Definition MOVE_TO_MARKER : str := lit "*** Move to:".
Definition END_OF_FILE_MARKER : str := lit "*** End of File".

Record CodexPatchChunk : Type := mkChunk {
  change_context : option str;
  old_lines : list str;
  new_lines : list str;
  is_end_of_file : bool
}.

#[export] Instance eta_chunk : Eta CodexPatchChunk := fun c =>
  mkChunk (change_context c) (old_lines c) (new_lines c) (is_end_of_file c).

Definition CodexPatchChunk_default : CodexPatchChunk := mkChunk None [] [] false.

Inductive CodexPatchHunk : Type :=
| AddFile (path contents : str)
| DeleteFile (path : str)
| UpdateFile (path : str) (move_path : option str) (chunks : list CodexPatchChunk).

Record CodexPatch : Type := mkPatch { hunks : list CodexPatchHunk }.

Definition hunk_path (h : CodexPatchHunk) : str :=
  match h with
  | AddFile path _ | DeleteFile path | UpdateFile path _ _ => path
  end.

Definition hunk_move_path (h : CodexPatchHunk) : option str :=
  match h with
  | UpdateFile _ move_path _ => move_path
  | _ => None
  end.

Definition hunk_kind (h : CodexPatchHunk) : str :=
  match h with
  | AddFile _ _ => lit "add"
  | DeleteFile _ => lit "delete"
  | UpdateFile _ _ _ => lit "update"
  end.

(** ** Matching vocabulary and errors *)

Inductive CodexPatchMatchMode : Type :=
| Exact
| TrimEnd
| Trim
| Normalized.

#[export] Instance CodexPatchMatchMode_eq_dec : EqDecision CodexPatchMatchMode.
Proof. solve_decision. Defined.

Definition CodexPatchMatchMode_as_str (m : CodexPatchMatchMode) : str :=
  match m with
  | Exact => lit "exact"
  | TrimEnd => lit "trim_end"
  | Trim => lit "trim"
  | Normalized => lit "normalized"
  end.

(** The derived [Ord]: declaration order. *)
Definition mode_rank (m : CodexPatchMatchMode) : nat :=
  match m with Exact => 0 | TrimEnd => 1 | Trim => 2 | Normalized => 3 end.
Definition mode_max (a b : CodexPatchMatchMode) : CodexPatchMatchMode :=
  if Nat.ltb (mode_rank b) (mode_rank a) then a else b.

Inductive ApplyPatchMatchingMode : Type :=
| FirstMatch
| Unique
| ExactUnique.

#[export] Instance ApplyPatchMatchingMode_eq_dec : EqDecision ApplyPatchMatchingMode.
Proof. solve_decision. Defined.

Definition ApplyPatchMatchingMode_as_str (m : ApplyPatchMatchingMode) : str :=
  match m with
  | FirstMatch => lit "first_match"
  | Unique => lit "unique"
  | ExactUnique => lit "exact_unique"
  end.

Definition ApplyPatchMatchingMode_default : ApplyPatchMatchingMode := Unique.

Inductive CodexPatchMatchSource : Type :=
| OldLines
| ChangeContext
| Append.

Definition CodexPatchMatchSource_as_str (s : CodexPatchMatchSource) : str :=
  match s with
  | OldLines => lit "old_lines"
  | ChangeContext => lit "change_context"
  | Append => lit "append"
  end.

Record CodexPatchMatchDiagnostic : Type := mkDiagnostic {
  diag_chunk_index : nat;
  diag_match_source : CodexPatchMatchSource;
  diag_search_start_line : nat;
  diag_expected_line_count : nat;
  diag_available_line_count : nat;
  diag_closest_start_line : option nat;
  diag_closest_exact_line_matches : nat;
  diag_closest_trim_end_line_matches : nat;
  diag_closest_trim_line_matches : nat;
  diag_first_exact_mismatch_offset : option nat
}.

Record CodexPatchError : Type := mkPatchError {
  err_kind : str;
  err_line : option nat;
  err_message : str;
  err_match_diagnostic : option CodexPatchMatchDiagnostic
}.

Definition patch_error (kind : str) (line : option nat) (message : str) : CodexPatchError :=
  mkPatchError kind line message None.

Definition with_match_diagnostic (e : CodexPatchError) (d : CodexPatchMatchDiagnostic)
  : CodexPatchError :=
  mkPatchError (err_kind e) (err_line e) (err_message e) (Some d).

Definition display_patch_error (e : CodexPatchError) : str :=
  match err_line e with
  | Some line => err_kind e ++ lit " at patch line " ++ fmt_nat line ++ lit ": " ++ err_message e
  | None => err_kind e ++ lit ": " ++ err_message e
  end.

(** ** Lines *)

Definition marker_path (line marker : str) : option str :=
  opt_filter (fun path => negb (is_empty path)) (trim <$> strip_prefix marker (trim_end line)).

Definition is_file_header (line : str) : bool :=
  is_some (marker_path line ADD_FILE_MARKER)
  || is_some (marker_path line DELETE_FILE_MARKER)
  || is_some (marker_path line UPDATE_FILE_MARKER).

(** [current.trim_end() == END_PATCH_MARKER || is_file_header(current)] *)
Definition ends_hunk (line : str) : bool :=
  (trim_end line ==? END_PATCH_MARKER) || is_file_header line.

Definition is_blank (line : str) : bool := is_empty (trim line).

Definition normalized_patch_lines (patch : str) : result (list str) CodexPatchError :=
  bail? is_empty patch with patch_error (lit "invalid_patch") None (lit "patch cannot be empty") ;;
  bail? Z.ltb MAX_CODEX_PATCH_BYTES (str_len patch)
    with patch_error (lit "patch_too_large") None
           (lit "patch exceeds " ++ fmt_Z MAX_CODEX_PATCH_BYTES ++ lit " UTF-8 bytes") ;;
  let normalized := str_replace [CR; LF] [LF] patch in
  bail? contains_char CR normalized
    with patch_error (lit "invalid_patch") None
           (lit "patch contains unsupported bare CR line endings") ;;
  Ok (split_char LF normalized).

(** ** Chunks *)

Definition push_chunk (chunks : list CodexPatchChunk) (chunk : CodexPatchChunk) (line : nat)
  : result (list CodexPatchChunk) CodexPatchError :=
  bail? is_some (change_context chunk) && is_empty (old_lines chunk) && is_empty (new_lines chunk)
    with patch_error (lit "invalid_hunk") (Some line)
           (lit "change context must be followed by at least one patch line") ;;
  if is_none (change_context chunk) && is_empty (old_lines chunk) && is_empty (new_lines chunk)
     && negb (is_end_of_file chunk)
  then Ok chunks
  else
    bail? Nat.leb MAX_CODEX_PATCH_CHUNKS_PER_FILE (length chunks)
      with patch_error (lit "patch_too_large") (Some line)
             (lit "one update may contain at most " ++ fmt_nat MAX_CODEX_PATCH_CHUNKS_PER_FILE
              ++ lit " chunks") ;;
    Ok (chunks ++ [chunk]).

(** [current_chunk.take()] followed by [push_chunk(..)?]. *)
Definition flush_chunk (chunks : list CodexPatchChunk) (current : option CodexPatchChunk) (line : nat)
  : result (list CodexPatchChunk) CodexPatchError :=
  match current with
  | Some chunk => push_chunk chunks chunk line
  | None => Ok chunks
  end.

(** ** The parser *)

Fixpoint skip_blank (ls : list str) (index : nat) : list str * nat :=
  match ls with
  | l :: rest => if is_blank l then skip_blank rest (S index) else (ls, index)
  | [] => ([], index)
  end.

(** The blank line an author leaves between two file operations. *)
Definition blank_before_header (current : str) (rest : list str) : bool :=
  is_blank current && match rest with next :: _ => ends_hunk next | [] => false end.

(** The content loop of an Add File operation: the lines added, and where the
    loop stopped. *)
Fixpoint add_file_lines (ls : list str) (index : nat) (added : list str)
  : result (list str * (list str * nat)) CodexPatchError :=
  match ls with
  | [] => Ok (added, ([], index))
  | current :: rest =>
      if ends_hunk current then Ok (added, (ls, index))
      else if blank_before_header current rest then Ok (added, (rest, S index))
      else match strip_prefix (lit "+") current with
           | None => Err (patch_error (lit "invalid_hunk") (Some (S index))
                            (lit "every Add File content line must start with '+'"))
           | Some content => add_file_lines rest (S index) (added ++ [content])
           end
  end.

Definition parse_add_file (path : str) (rest : list str) (index : nat)
  : result (CodexPatchHunk * (list str * nat)) CodexPatchError :=
  let header_line := S index in
  let? r := add_file_lines rest (S index) [] in
  let '(added, stop) := r in
  bail? is_empty added with patch_error (lit "invalid_hunk") (Some header_line)
                              (lit "Add File requires at least one '+' content line") ;;
  Ok (AddFile path (join [LF] added ++ [LF]), stop).

Definition update_line_error (index : nat) : CodexPatchError :=
  patch_error (lit "invalid_hunk") (Some (S index))
    (lit "update lines must start with '+', '-', or one context space").

(** One [+], [-] or context line of the current chunk. *)
Definition push_update_line (chunk : CodexPatchChunk) (current : str) (index : nat)
  : result CodexPatchChunk CodexPatchError :=
  match current with
  | [] => Err (update_line_error index)
  | prefix :: content =>
      if N.eqb prefix 43 then Ok (chunk <| new_lines := new_lines chunk ++ [content] |>)
      else if N.eqb prefix 45 then Ok (chunk <| old_lines := old_lines chunk ++ [content] |>)
      else if N.eqb prefix 32 then
        Ok (chunk <| old_lines := old_lines chunk ++ [content] |>
                  <| new_lines := new_lines chunk ++ [content] |>)
      else Err (update_line_error index)
  end.

(** The change loop of an Update File operation. *)
Fixpoint update_lines (ls : list str) (index : nat) (chunks : list CodexPatchChunk)
  (current_chunk : option CodexPatchChunk) (saw_eof : bool)
  : result ((list CodexPatchChunk * option CodexPatchChunk) * (list str * nat)) CodexPatchError :=
  match ls with
  | [] => Ok ((chunks, current_chunk), ([], index))
  | current :: rest =>
      if ends_hunk current then Ok ((chunks, current_chunk), (ls, index))
      else if blank_before_header current rest then Ok ((chunks, current_chunk), (rest, S index))
      else
        bail? saw_eof with patch_error (lit "invalid_hunk") (Some (S index))
                             (lit "no update lines may follow '*** End of File'") ;;
        let trimmed := trim_end current in
        if (trimmed ==? lit "@@") || starts_with (lit "@@ ") trimmed then
          let? chunks' := flush_chunk chunks current_chunk (S index) in
          let context := opt_filter (fun value => negb (is_empty value))
                           (trim <$> strip_prefix (lit "@@ ") trimmed) in
          update_lines rest (S index) chunks'
            (Some (CodexPatchChunk_default <| change_context := context |>)) saw_eof
        else if trimmed ==? END_OF_FILE_MARKER then
          match current_chunk with
          | None => Err (patch_error (lit "invalid_hunk") (Some (S index))
                           (lit "'*** End of File' requires a preceding update chunk"))
          | Some chunk =>
              update_lines rest (S index) chunks (Some (chunk <| is_end_of_file := true |>)) true
          end
        else
          let? chunk := push_update_line (default CodexPatchChunk_default current_chunk)
                          current index in
          update_lines rest (S index) chunks (Some chunk) saw_eof
  end.

Definition parse_update_file (path : str) (rest : list str) (index : nat)
  : result (CodexPatchHunk * (list str * nat)) CodexPatchError :=
  let header_line := S index in
  let '(move_path, rest', index') :=
    match rest with
    | current :: rest'' =>
        match marker_path current MOVE_TO_MARKER with
        | Some destination => (Some destination, rest'', S (S index))
        | None => (None, rest, S index)
        end
    | [] => (None, rest, S index)
    end in
  let? r := update_lines rest' index' [] None false in
  let '((chunks, current_chunk), (rest_end, index_end)) := r in
  let? chunks' := flush_chunk chunks current_chunk (S index_end) in
  bail? is_none move_path && is_empty chunks'
    with patch_error (lit "invalid_hunk") (Some header_line)
           (lit "Update File requires a Move to destination or at least one change chunk") ;;
  Ok (UpdateFile path move_path chunks', (rest_end, index_end)).

(** One file operation, dispatched on its header line. *)
Definition parse_hunk (line : str) (rest : list str) (index : nat)
  : result (CodexPatchHunk * (list str * nat)) CodexPatchError :=
  match marker_path line ADD_FILE_MARKER with
  | Some path => parse_add_file path rest index
  | None =>
      match marker_path line DELETE_FILE_MARKER with
      | Some path => Ok (DeleteFile path, (rest, S index))
      | None =>
          match marker_path line UPDATE_FILE_MARKER with
          | Some path => parse_update_file path rest index
          | None => Err (patch_error (lit "invalid_patch") (Some (S index))
                           (lit "expected Add File, Delete File, Update File, or End Patch marker"))
          end
      end
  end.

(** Where the outer loop stopped: the operations, whether the end marker was
    seen, and the lines after it. *)
Record HunkLoop : Type := mkHunkLoop {
  loop_hunks : list CodexPatchHunk;
  loop_saw_end : bool;
  loop_rest : list str;
  loop_index : nat
}.

(** [None]: out of fuel. *)
Fixpoint parse_hunks (fuel : nat) (ls : list str) (index : nat) (acc : list CodexPatchHunk)
  : option (result HunkLoop CodexPatchError) :=
  match fuel with
  | O => None
  | S f =>
      match skip_blank ls index with
      | ([], index') => Some (Ok (mkHunkLoop acc false [] index'))
      | (line :: rest, index') =>
          if trim_end line ==? END_PATCH_MARKER
          then Some (Ok (mkHunkLoop acc true rest (S index')))
          else if Nat.leb MAX_CODEX_PATCH_FILE_CHANGES (length acc)
          then Some (Err (patch_error (lit "patch_too_large") (Some (S index'))
                 (lit "patch may touch at most " ++ fmt_nat MAX_CODEX_PATCH_FILE_CHANGES
                  ++ lit " files")))
          else match parse_hunk line rest index' with
               | Err e => Some (Err e)
               | Ok (hunk, (rest', index'')) => parse_hunks f rest' index'' (acc ++ [hunk])
               end
      end
  end.

(** The checks after the outer loop. *)
Definition finish_patch (st : HunkLoop) : result CodexPatch CodexPatchError :=
  bail? negb (loop_saw_end st)
    with patch_error (lit "invalid_patch") None
           (lit "patch must end with '" ++ END_PATCH_MARKER ++ lit "'") ;;
  bail? is_empty (loop_hunks st)
    with patch_error (lit "invalid_patch") None
           (lit "patch must contain at least one file operation") ;;
  bail? existsb (fun line => negb (is_blank line)) (loop_rest st)
    with patch_error (lit "invalid_patch") (Some (S (loop_index st)))
           (lit "non-whitespace content follows End Patch") ;;
  Ok (mkPatch (loop_hunks st)).

Definition begin_marker_error (index : nat) : CodexPatchError :=
  patch_error (lit "invalid_patch") (Some (S index))
    (lit "first marker must be '" ++ BEGIN_PATCH_MARKER ++ lit "'").

Definition parse_codex_patch (patch : str) : option (result CodexPatch CodexPatchError) :=
  match normalized_patch_lines patch with
  | Err e => Some (Err e)
  | Ok lines =>
      match skip_blank lines 0 with
      | ([], index) => Some (Err (begin_marker_error index))
      | (line :: rest, index) =>
          if trim line !=? BEGIN_PATCH_MARKER then Some (Err (begin_marker_error index))
          else match parse_hunks (S (length rest)) rest (S index) [] with
               | None => None
               | Some (Err e) => Some (Err e)
               | Some (Ok st) => Some (finish_patch st)
               end
      end
  end.

(** ** Termination *)

Lemma skip_blank_length (ls : list str) (i : nat) : length (fst (skip_blank ls i)) <= length ls.
Proof.
  revert i. induction ls as [|l ls IH]; intros i; simpl; [done | ].
  destruct (is_blank l); simpl; [specialize (IH (S i)); lia | lia].
Qed.

Lemma add_file_lines_length (ls : list str) (i : nat) (acc out : list str) (stop : list str * nat) :
  add_file_lines ls i acc = Ok (out, stop) -> length (fst stop) <= length ls.
Proof.
  revert i acc. induction ls as [|l ls IH]; intros i acc H; simpl in H; [by simplify_eq | ].
  destruct (ends_hunk l); [by simplify_eq | ].
  destruct (blank_before_header l ls); [simplify_eq; simpl; lia | ].
  destruct (strip_prefix _ l); [apply IH in H; simpl; lia | done].
Qed.

Lemma update_lines_length (ls : list str) (i : nat) (chunks : list CodexPatchChunk)
  (cur : option CodexPatchChunk) (eof : bool) out (stop : list str * nat) :
  update_lines ls i chunks cur eof = Ok (out, stop) -> length (fst stop) <= length ls.
Proof.
  revert i chunks cur eof. induction ls as [|l ls IH]; intros i chunks cur eof H.
  { simpl in H. by simplify_eq. }
  cbn [update_lines] in H. destruct (ends_hunk l); [by simplify_eq | ].
  destruct (blank_before_header l ls); [simplify_eq; simpl; lia | ].
  step_guards H. destruct (_ || _).
  - step_guards H. apply IH in H. simpl. lia.
  - destruct (_ ==? _); [destruct cur; [apply IH in H; simpl; lia | done] | ].
    step_guards H. apply IH in H. simpl. lia.
Qed.

Lemma parse_hunk_length (line : str) (rest : list str) (i : nat) (h : CodexPatchHunk) stop :
  parse_hunk line rest i = Ok (h, stop) -> length (fst stop) <= length rest.
Proof.
  unfold parse_hunk. destruct (marker_path line ADD_FILE_MARKER).
  - unfold parse_add_file. intros H. step_guards H. destruct value as [added stop'].
    step_guards H. simplify_eq. by apply add_file_lines_length in Hstep.
  - destruct (marker_path line DELETE_FILE_MARKER); [intros; by simplify_eq | ].
    destruct (marker_path line UPDATE_FILE_MARKER); [ | done].
    unfold parse_update_file. intros H.
    destruct (match rest with [] => _ | _ :: _ => _ end) as [[mv rest'] i'] eqn:Hmv.
    assert (Hr : length rest' <= length rest).
    { destruct rest; [by simplify_eq | ]. destruct (marker_path _ _); simplify_eq; simpl; lia. }
    step_guards H. destruct value as [[chunks cur] [re ie]]. step_guards H.
    simplify_eq. apply update_lines_length in Hstep. simpl in *. lia.
Qed.

Lemma parse_hunks_fuel (fuel : nat) (ls : list str) (i : nat) (acc : list CodexPatchHunk) :
  length ls < fuel -> is_Some (parse_hunks fuel ls i acc).
Proof.
  revert ls i acc. induction fuel as [|f IH]; intros ls i acc Hlen; [lia | ].
  cbn [parse_hunks].
  pose proof (skip_blank_length ls i) as Hskip.
  destruct (skip_blank ls i) as [[|line rest] i']; [eauto | ]. simpl in Hskip.
  destruct (_ ==? _); [eauto | ]. destruct (Nat.leb _ _); [eauto | ].
  destruct (parse_hunk line rest i') as [[h [rest' i'']]|e] eqn:Hh; [ | eauto].
  apply parse_hunk_length in Hh. simpl in Hh. apply IH. lia.
Qed.

(** The patch parser terminates on every input: it always returns a patch
    or a typed error. *)
Lemma parse_total (patch : str) : exists r, parse_codex_patch patch = Some r.
Proof.
  unfold parse_codex_patch. destruct (normalized_patch_lines patch) as [lines|e]; [ | eauto].
  destruct (skip_blank lines 0) as [[|line rest] i]; [eauto | ].
  destruct (_ !=? _); [eauto | ].
  destruct (parse_hunks_fuel (S (length rest)) rest (S i) []) as [r ->]; [lia | ].
  destruct r; eauto.
Qed.

(** ** What an accepted patch looks like *)

Definition path_ok (p : str) : Prop := p <> [] /\ trim p = p.

Definition chunk_ok (c : CodexPatchChunk) : Prop :=
  match change_context c with
  | Some ctx => path_ok ctx /\ (old_lines c <> [] \/ new_lines c <> [])
  | None => old_lines c <> [] \/ new_lines c <> [] \/ is_end_of_file c = true
  end.

(** Only the last chunk of a file may carry the end-of-file marker. *)
Definition eof_last (cs : list CodexPatchChunk) : Prop :=
  forall pre c post, cs = pre ++ c :: post -> post <> [] -> is_end_of_file c = false.

Definition hunk_ok (h : CodexPatchHunk) : Prop :=
  match h with
  | AddFile p contents =>
      path_ok p /\ exists added, added <> [] /\ contents = join [LF] added ++ [LF]
  | DeleteFile p => path_ok p
  | UpdateFile p mv cs =>
      path_ok p /\ (forall d, mv = Some d -> path_ok d) /\ (mv = None -> cs <> [])
      /\ length cs <= MAX_CODEX_PATCH_CHUNKS_PER_FILE /\ Forall chunk_ok cs /\ eof_last cs
  end.

Definition patch_ok (p : CodexPatch) : Prop :=
  hunks p <> [] /\ length (hunks p) <= MAX_CODEX_PATCH_FILE_CHANGES /\ Forall hunk_ok (hunks p).

Lemma trimmed_some_ok (o : option str) (p : str) :
  opt_filter (fun v => negb (is_empty v)) (trim <$> o) = Some p -> path_ok p.
Proof.
  destruct o as [s|]; simpl; [ | done]. destruct (trim s) as [|c t] eqn:E; simpl; [done | ].
  intros [= <-]. split; [done | ]. rewrite <- E. apply trim_idem.
Qed.

Lemma marker_path_ok (line marker p : str) : marker_path line marker = Some p -> path_ok p.
Proof. apply trimmed_some_ok. Qed.

(** The chunk being collected: its context is usable, and it is closed by an
    end-of-file marker exactly when one was seen. *)
Definition current_ok (cur : option CodexPatchChunk) (saw_eof : bool) : Prop :=
  match cur with
  | Some c => (forall ctx, change_context c = Some ctx -> path_ok ctx) /\ is_end_of_file c = saw_eof
  | None => saw_eof = false
  end.

Definition closed_ok (cs : list CodexPatchChunk) : Prop :=
  length cs <= MAX_CODEX_PATCH_CHUNKS_PER_FILE /\ Forall chunk_ok cs
  /\ Forall (fun c => is_end_of_file c = false) cs.

Lemma push_chunk_ok (cs out : list CodexPatchChunk) (c : CodexPatchChunk) (line : nat) :
  (forall ctx, change_context c = Some ctx -> path_ok ctx) ->
  push_chunk cs c line = Ok out ->
  (out = cs \/ (out = cs ++ [c] /\ chunk_ok c /\ length cs < MAX_CODEX_PATCH_CHUNKS_PER_FILE)).
Proof.
  intros Hctx. unfold push_chunk. intros H. step_guards H.
  destruct (is_none (change_context c) && _ && _ && _) eqn:Hempty.
  { injection H as <-. by left. }
  step_guards H. injection H as <-. right. split; [done | ].
  apply Nat.leb_gt in Hguard0. split; [ | done]. unfold chunk_ok.
  destruct (change_context c) as [ctx|] eqn:Ec; simpl in *.
  - split; [by apply Hctx | ]. destruct (old_lines c), (new_lines c); simpl in *; naive_solver.
  - destruct (old_lines c), (new_lines c), (is_end_of_file c); simpl in *; naive_solver.
Qed.

Lemma flush_chunk_closed (cs out : list CodexPatchChunk) cur (line : nat) :
  closed_ok cs -> current_ok cur false -> flush_chunk cs cur line = Ok out -> closed_ok out.
Proof.
  intros (Hlen & Hok & Heof) Hcur H. destruct cur as [c|]; simpl in *; [ | by simplify_eq].
  destruct Hcur as [Hctx Hc]. apply push_chunk_ok in H as [->|(-> & Hcok & Hl)]; [done | | done].
  split_and!; [rewrite length_app; simpl; lia | | ]; apply Forall_app; auto.
Qed.

Lemma push_update_line_ok (c c' : CodexPatchChunk) (line : str) (i : nat) :
  push_update_line c line i = Ok c' ->
  change_context c' = change_context c /\ is_end_of_file c' = is_end_of_file c.
Proof.
  unfold push_update_line. destruct line as [|x t]; [done | ].
  destruct (N.eqb x 43); [intros; by simplify_eq | ].
  destruct (N.eqb x 45); [intros; by simplify_eq | ].
  destruct (N.eqb x 32); [intros; by simplify_eq | done].
Qed.

Lemma update_lines_ok (ls : list str) (i : nat) cs cur (eof : bool) cs' cur' stop :
  closed_ok cs -> current_ok cur eof ->
  update_lines ls i cs cur eof = Ok ((cs', cur'), stop) ->
  closed_ok cs' /\ exists eof', current_ok cur' eof'.
Proof.
  revert i cs cur eof. induction ls as [|l ls IH]; intros i cs cur eof Hcs Hcur H.
  { simpl in H. simplify_eq. eauto. }
  cbn [update_lines] in H. destruct (ends_hunk l); [simplify_eq; eauto | ].
  destruct (blank_before_header l ls); [simplify_eq; eauto | ].
  destruct eof; [done | ]. destruct (_ || _).
  - step_guards H. eapply IH; [ | | exact H].
    + by eapply flush_chunk_closed.
    + simpl. split; [ | done]. intros ctx. apply trimmed_some_ok.
  - destruct (_ ==? _).
    + destruct cur as [c|]; [ | done]. eapply IH; [done | | exact H]. simpl in *. naive_solver.
    + step_guards H. apply push_update_line_ok in Hstep as [Hc He].
      eapply IH; [done | | exact H]. simpl in *. rewrite Hc, He.
      destruct cur as [c|]; simpl in *; [done | ]. done.
Qed.

Lemma eof_last_closed (cs : list CodexPatchChunk) :
  Forall (fun c => is_end_of_file c = false) cs -> eof_last cs.
Proof. intros H pre c post -> _. apply Forall_app in H as [_ H]. by inversion H. Qed.

Lemma eof_last_snoc (cs : list CodexPatchChunk) (x : CodexPatchChunk) :
  Forall (fun c => is_end_of_file c = false) cs -> eof_last (cs ++ [x]).
Proof.
  intros H pre c post Heq Hne. destruct (exists_last Hne) as (post' & y & ->).
  rewrite app_comm_cons, app_assoc in Heq. apply app_inj_tail in Heq as [-> _].
  apply Forall_app in H as [_ H]. by inversion H.
Qed.

Lemma parse_update_file_ok (p : str) (rest : list str) (i : nat) (h : CodexPatchHunk) stop :
  path_ok p -> parse_update_file p rest i = Ok (h, stop) -> hunk_ok h.
Proof.
  intros Hp. unfold parse_update_file.
  destruct (match rest with [] => _ | _ :: _ => _ end) as [[mv rest'] i'] eqn:Hmv.
  assert (Hmvok : forall d, mv = Some d -> path_ok d).
  { intros d ->. destruct rest as [|l rest]; [done | ].
    destruct (marker_path l MOVE_TO_MARKER) eqn:E; simplify_eq. by eapply marker_path_ok. }
  intros H. step_guards H. destruct value as [[cs cur] [re ie]].
  step_guards H. injection H as <- <-.
  apply update_lines_ok in Hstep as [(Hlen & Hok & Heof) [eof' Hcur]];
    [ | split_and!; [simpl; unfold MAX_CODEX_PATCH_CHUNKS_PER_FILE; lia | constructor | constructor] | done].
  assert (Hne : mv = None -> value <> []).
  { intros ->. simpl in Hguard. by destruct value. }
  destruct cur as [c|]; simpl in Hstep0.
  - destruct Hcur as [Hctx _].
    apply push_chunk_ok in Hstep0 as [->|(-> & Hcok & Hl)]; [ | | done].
    + split_and!; try done. by apply eof_last_closed.
    + split_and!; try done.
      * rewrite length_app. simpl. lia.
      * apply Forall_app; auto.
      * by apply eof_last_snoc.
  - simplify_eq. split_and!; try done. by apply eof_last_closed.
Qed.

Lemma parse_hunk_ok (line : str) (rest : list str) (i : nat) (h : CodexPatchHunk) stop :
  parse_hunk line rest i = Ok (h, stop) -> hunk_ok h.
Proof.
  unfold parse_hunk. destruct (marker_path line ADD_FILE_MARKER) as [p|] eqn:E1.
  - apply marker_path_ok in E1. unfold parse_add_file. intros H. step_guards H.
    destruct value as [added stop']. step_guards H. injection H as <- <-.
    split; [done | ]. exists added. split; [by destruct added | done].
  - destruct (marker_path line DELETE_FILE_MARKER) as [p|] eqn:E2.
    { intros [= <- <-]. by eapply marker_path_ok. }
    destruct (marker_path line UPDATE_FILE_MARKER) as [p|] eqn:E3; [ | done].
    apply parse_update_file_ok. by eapply marker_path_ok.
Qed.

Lemma parse_hunks_ok (fuel : nat) (ls : list str) (i : nat) acc st :
  length acc <= MAX_CODEX_PATCH_FILE_CHANGES -> Forall hunk_ok acc ->
  parse_hunks fuel ls i acc = Some (Ok st) ->
  length (loop_hunks st) <= MAX_CODEX_PATCH_FILE_CHANGES /\ Forall hunk_ok (loop_hunks st).
Proof.
  revert ls i acc. induction fuel as [|f IH]; intros ls i acc Hlen Hok H; [done | ].
  cbn [parse_hunks] in H. destruct (skip_blank ls i) as [[|line rest] i']; [by simplify_eq | ].
  destruct (_ ==? _); [by simplify_eq | ]. destruct (Nat.leb_spec MAX_CODEX_PATCH_FILE_CHANGES (length acc)); [done | ].
  destruct (parse_hunk line rest i') as [[h [rest' i'']]|e] eqn:Hh; [ | done].
  apply parse_hunk_ok in Hh. eapply IH; [ | | exact H].
  - rewrite length_app. simpl. lia.
  - apply Forall_app; auto.
Qed.

Lemma accepted_patch_ok (patch : str) (p : CodexPatch) :
  parse_codex_patch patch = Some (Ok p) -> patch_ok p.
Proof.
  unfold parse_codex_patch. destruct (normalized_patch_lines patch) as [lines|e]; [ | done].
  destruct (skip_blank lines 0) as [[|line rest] i]; [done | ].
  destruct (_ !=? _); [done | ].
  destruct (parse_hunks _ rest (S i) []) as [[st|e]|] eqn:Hp; [ | done | done].
  intros [= H]. unfold finish_patch in H. step_guards H. injection H as <-.
  apply parse_hunks_ok in Hp as [Hl Hf]; [ | simpl; unfold MAX_CODEX_PATCH_FILE_CHANGES; lia | constructor].
  split_and!; [ | done | done]. simpl. by destruct (loop_hunks st).
Qed.

(** C38: The parser returns on every input, a patch or a typed error, and a patch it
    returns is well formed and bounded: between one and 64 file operations,
    trimmed non-empty paths, at most 256 chunks per update, no empty chunk, an
    end-of-file marker only on a file's last chunk, an update without chunks only
    when it moves the file. *)
Theorem parsed_patch_ok (patch : str) :
  exists r, parse_codex_patch patch = Some r
    /\ match r with Ok p => patch_ok p | Err _ => True end.
Proof.
  destruct (parse_total patch) as [r Hr]. exists r. split; [done | ].
  destruct r; [ | done]. by apply (accepted_patch_ok patch).
Qed.

(** ** Printing and the round trip *)

Definition print_chunk_header (c : CodexPatchChunk) : str :=
  match change_context c with
  | Some ctx => lit "@@ " ++ ctx
  | None => lit "@@"
  end.

Definition print_chunk (c : CodexPatchChunk) : list str :=
  print_chunk_header c :: map (cons 45%N) (old_lines c) ++ map (cons 43%N) (new_lines c)
    ++ (if is_end_of_file c then [END_OF_FILE_MARKER] else []).

Definition print_header (marker path : str) : str := marker ++ lit " " ++ path.

Definition print_hunk (h : CodexPatchHunk) : list str :=
  match h with
  | AddFile p contents =>
      print_header ADD_FILE_MARKER p :: map (cons 43%N) (split_char LF (removelast contents))
  | DeleteFile p => [print_header DELETE_FILE_MARKER p]
  | UpdateFile p mv cs =>
      print_header UPDATE_FILE_MARKER p
        :: match mv with Some d => [print_header MOVE_TO_MARKER d] | None => [] end
        ++ flat_map print_chunk cs
  end.

Definition print_patch (p : CodexPatch) : str :=
  join [LF] (BEGIN_PATCH_MARKER :: flat_map print_hunk (hunks p) ++ [END_PATCH_MARKER]).

(** Text that fits on one line. *)
Definition one_line (s : str) : Prop := (LF ∉ s) /\ (CR ∉ s).

Definition chunk_lines_ok (c : CodexPatchChunk) : Prop :=
  (forall ctx, change_context c = Some ctx -> one_line ctx)
  /\ Forall one_line (old_lines c) /\ Forall one_line (new_lines c).

Definition hunk_lines_ok (h : CodexPatchHunk) : Prop :=
  match h with
  | AddFile p contents => one_line p /\ (CR ∉ contents)
  | DeleteFile p => one_line p
  | UpdateFile p mv cs => one_line p /\ (forall d, mv = Some d -> one_line d) /\ Forall chunk_lines_ok cs
  end.

(** *** Lines that do not start with a marker *)

Lemma strip_prefix_head_ne (x c : char) (p s : str) :
  x <> c -> strip_prefix (x :: p) (c :: s) = None.
Proof. intros H. unfold strip_prefix. by destruct (N.eqb_spec x c). Qed.

Lemma strip_prefix_app (p s : str) : strip_prefix p (p ++ s) = Some s.
Proof. by apply strip_prefix_spec. Qed.

Section PlainLine.
Context (c : char) (s : str) (Hws : is_whitespace c = false).

Lemma plain_trim_end : trim_end (c :: s) = c :: trim_end s.
Proof. by apply trim_end_cons_plain. Qed.

Lemma plain_not_blank : is_blank (c :: s) = false.
Proof.
  unfold is_blank, trim. rewrite trim_start_plain by done. by rewrite plain_trim_end.
Qed.

Lemma plain_not_marker (m : str) : c <> 42%N -> marker_path (c :: s) (42%N :: m) = None.
Proof.
  intros H. unfold marker_path. rewrite plain_trim_end, strip_prefix_head_ne by done. done.
Qed.

Lemma plain_not_ends_hunk : c <> 42%N -> ends_hunk (c :: s) = false.
Proof.
  intros H. unfold ends_hunk, is_file_header.
  change ADD_FILE_MARKER with (42%N :: lit "** Add File:").
  change DELETE_FILE_MARKER with (42%N :: lit "** Delete File:").
  change UPDATE_FILE_MARKER with (42%N :: lit "** Update File:").
  rewrite !plain_not_marker by done. rewrite plain_trim_end. simpl.
  rewrite orb_false_r. apply beq_neq. change END_PATCH_MARKER with (42%N :: lit "** End Patch").
  congruence.
Qed.
End PlainLine.

(** *** Header lines *)

Lemma print_header_trim_end (m p : str) : path_ok p -> trim_end (print_header m p) = print_header m p.
Proof.
  intros [Hne Ht]. unfold print_header. rewrite app_assoc. by apply trim_end_app_trimmed.
Qed.

Lemma marker_path_print (m p : str) : path_ok p -> marker_path (print_header m p) m = Some p.
Proof.
  intros Hp. unfold marker_path. rewrite print_header_trim_end by done.
  unfold print_header. rewrite strip_prefix_app. destruct Hp as [Hne Ht].
  assert (Htr : trim (lit " " ++ p) = p) by exact Ht.
  cbn [fmap option_fmap option_map opt_filter]. rewrite Htr. by destruct p.
Qed.

Lemma header_ends_hunk (m p : str) :
  path_ok p -> m = ADD_FILE_MARKER \/ m = DELETE_FILE_MARKER \/ m = UPDATE_FILE_MARKER ->
  ends_hunk (print_header m p) = true.
Proof.
  intros Hp Hm. unfold ends_hunk, is_file_header. apply orb_true_iff. right.
  rewrite !orb_true_iff. destruct Hm as [->|[->| ->]]; rewrite marker_path_print by done; auto.
Qed.

Lemma header_starts_marker (m p : str) : exists t, print_header (42%N :: m) p = 42%N :: t.
Proof. unfold print_header. eauto. Qed.

Lemma marker_path_other (m1 m2 p : str) :
  path_ok p -> strip_prefix m2 (print_header m1 p) = None -> marker_path (print_header m1 p) m2 = None.
Proof.
  intros Hp Hs. unfold marker_path. rewrite print_header_trim_end by done. by rewrite Hs.
Qed.

Lemma end_marker_ends_hunk : ends_hunk END_PATCH_MARKER = true.
Proof. reflexivity. Qed.

(** *** Content lines *)

Lemma add_file_lines_print (ls : list str) (i : nat) (acc : list str) (next : str) (tail : list str) :
  ends_hunk next = true ->
  add_file_lines (map (cons 43%N) ls ++ next :: tail) i acc
  = Ok (acc ++ ls, (next :: tail, i + length ls)).
Proof.
  intros Hnext. revert i acc. induction ls as [|l ls IH]; intros i acc; simpl map.
  - simpl. rewrite Hnext. by rewrite app_nil_r, Nat.add_0_r.
  - cbn [add_file_lines app]. rewrite plain_not_ends_hunk by done.
    unfold blank_before_header. rewrite plain_not_blank by done. simpl andb. cbv iota.
    change (strip_prefix (lit "+") (43%N :: l)) with (Some l). cbv iota.
    rewrite IH. rewrite <- app_assoc. simpl. do 3 f_equal. lia.
Qed.

Lemma update_lines_line (x : char) (l : str) (rest : list str) (i : nat) cs c c' :
  x = 43%N \/ x = 45%N -> push_update_line c (x :: l) i = Ok c' ->
  update_lines ((x :: l) :: rest) i cs (Some c) false = update_lines rest (S i) cs (Some c') false.
Proof.
  intros Hx Hpush. assert (Hws : is_whitespace x = false) by (destruct Hx; subst; done).
  assert (Hstar : x <> 42%N) by (destruct Hx; subst; done).
  cbn [update_lines]. rewrite plain_not_ends_hunk by done.
  unfold blank_before_header. rewrite plain_not_blank by done. simpl andb. cbv iota.
  rewrite plain_trim_end by done.
  replace (x :: trim_end l ==? lit "@@") with false
    by (symmetry; apply beq_neq; destruct Hx; subst; discriminate).
  replace (starts_with (lit "@@ ") (x :: trim_end l)) with false
    by (symmetry; destruct Hx; subst; reflexivity).
  replace (x :: trim_end l ==? END_OF_FILE_MARKER) with false
    by (symmetry; apply beq_neq; destruct Hx; subst; discriminate).
  simpl default. rewrite Hpush. reflexivity.
Qed.

Lemma update_lines_old (ls rest : list str) (i : nat) cs (ctx : option str) (o n : list str) (e : bool) :
  update_lines (map (cons 45%N) ls ++ rest) i cs (Some (mkChunk ctx o n e)) false
  = update_lines rest (i + length ls) cs (Some (mkChunk ctx (o ++ ls) n e)) false.
Proof.
  revert i o. induction ls as [|l ls IH]; intros i o; simpl map.
  - by rewrite app_nil_r, Nat.add_0_r.
  - cbn [app]. rewrite (update_lines_line 45 l _ i cs _ (mkChunk ctx (o ++ [l]) n e));
      [ | by right | reflexivity].
    rewrite IH. rewrite <- app_assoc. simpl. f_equal. lia.
Qed.

Lemma update_lines_new (ls rest : list str) (i : nat) cs (ctx : option str) (o n : list str) (e : bool) :
  update_lines (map (cons 43%N) ls ++ rest) i cs (Some (mkChunk ctx o n e)) false
  = update_lines rest (i + length ls) cs (Some (mkChunk ctx o (n ++ ls) e)) false.
Proof.
  revert i n. induction ls as [|l ls IH]; intros i n; simpl map.
  - by rewrite app_nil_r, Nat.add_0_r.
  - cbn [app]. rewrite (update_lines_line 43 l _ i cs _ (mkChunk ctx o (n ++ [l]) e));
      [ | by left | reflexivity].
    rewrite IH. rewrite <- app_assoc. simpl. f_equal. lia.
Qed.

Lemma chunk_header_facts (c : CodexPatchChunk) :
  chunk_ok c ->
  trim_end (print_chunk_header c) = print_chunk_header c
  /\ opt_filter (fun v => negb (is_empty v))
       (trim <$> strip_prefix (lit "@@ ") (print_chunk_header c)) = change_context c
  /\ (print_chunk_header c ==? lit "@@") || starts_with (lit "@@ ") (print_chunk_header c) = true.
Proof.
  unfold chunk_ok, print_chunk_header. destruct (change_context c) as [ctx|].
  - intros [[Hne Ht] _]. split_and!.
    + by apply trim_end_app_trimmed.
    + rewrite strip_prefix_app. simpl. rewrite Ht. by destruct ctx.
    + apply orb_true_iff. right. apply starts_with_spec. eauto.
  - intros _. by split_and!.
Qed.

Lemma update_lines_header (c : CodexPatchChunk) (rest : list str) (i : nat) cs cs' cur :
  chunk_ok c -> flush_chunk cs cur (S i) = Ok cs' ->
  update_lines (print_chunk_header c :: rest) i cs cur false
  = update_lines rest (S i) cs' (Some (mkChunk (change_context c) [] [] false)) false.
Proof.
  intros Hc Hflush. destruct (chunk_header_facts c Hc) as (Ht & Hctx & Hat).
  assert (Hhead : exists t, print_chunk_header c = 64%N :: t).
  { unfold print_chunk_header. destruct (change_context c); cbn; eauto. }
  destruct Hhead as [t Hhead]. cbn [update_lines].
  rewrite Hhead at 1. rewrite plain_not_ends_hunk by done. unfold blank_before_header.
  rewrite Hhead at 1. rewrite plain_not_blank by done. simpl andb. cbv iota.
  rewrite Ht, Hat, Hflush, Hctx. reflexivity.
Qed.

Lemma update_lines_chunk (c : CodexPatchChunk) (rest : list str) (i : nat) cs cs' cur :
  chunk_ok c -> flush_chunk cs cur (S i) = Ok cs' -> is_end_of_file c = false ->
  update_lines (print_chunk c ++ rest) i cs cur false
  = update_lines rest (i + length (print_chunk c)) cs' (Some c) false.
Proof.
  intros Hc Hf He. unfold print_chunk. rewrite He, app_nil_r. cbn [app].
  erewrite update_lines_header by done. rewrite <- app_assoc.
  rewrite update_lines_old, update_lines_new. destruct c as [ctx o n e]. simpl in *. subst e.
  f_equal. rewrite length_app, !length_map. lia.
Qed.

Lemma update_lines_last_chunk (c : CodexPatchChunk) (i : nat) cs cs' cur next tail :
  chunk_ok c -> flush_chunk cs cur (S i) = Ok cs' -> ends_hunk next = true ->
  update_lines (print_chunk c ++ next :: tail) i cs cur false
  = Ok ((cs', Some c), (next :: tail, i + length (print_chunk c))).
Proof.
  intros Hc Hf Hnext. destruct (is_end_of_file c) eqn:He.
  - unfold print_chunk. rewrite He. cbn [app].
    erewrite update_lines_header by done. rewrite <- app_assoc.
    rewrite update_lines_old. rewrite <- app_assoc, update_lines_new. cbn [app update_lines].
    change (ends_hunk END_OF_FILE_MARKER) with false. cbv iota.
    change (blank_before_header END_OF_FILE_MARKER (next :: tail)) with false. cbv iota.
    change (trim_end END_OF_FILE_MARKER) with END_OF_FILE_MARKER.
    change ((END_OF_FILE_MARKER ==? lit "@@") || starts_with (lit "@@ ") END_OF_FILE_MARKER) with false.
    change (END_OF_FILE_MARKER ==? END_OF_FILE_MARKER) with true. cbv iota.
    rewrite Hnext. destruct c as [ctx o n e]. simpl in *. subst e.
    do 3 f_equal. rewrite !length_app, !length_map. simpl. lia.
  - erewrite update_lines_chunk by done. cbn [update_lines]. by rewrite Hnext.
Qed.

Lemma push_chunk_accepts (cs : list CodexPatchChunk) (c : CodexPatchChunk) (line : nat) :
  chunk_ok c -> length cs < MAX_CODEX_PATCH_CHUNKS_PER_FILE -> push_chunk cs c line = Ok (cs ++ [c]).
Proof.
  intros Hc Hl. unfold push_chunk, chunk_ok in *. apply Nat.leb_gt in Hl. rewrite Hl.
  destruct (change_context c) as [ctx|], (old_lines c), (new_lines c), (is_end_of_file c);
    simpl in *; naive_solver.
Qed.

Lemma eof_last_tail (c : CodexPatchChunk) (cs : list CodexPatchChunk) : eof_last (c :: cs) -> eof_last cs.
Proof. intros H pre x post -> Hne. apply (H (c :: pre) x post); done. Qed.

Lemma update_lines_chunks (cs : list CodexPatchChunk) (i : nat) cs0 cs1 cur next tail :
  cs <> [] -> Forall chunk_ok cs -> eof_last cs ->
  (forall line, flush_chunk cs0 cur line = Ok cs1) ->
  length cs1 + length cs <= MAX_CODEX_PATCH_CHUNKS_PER_FILE -> ends_hunk next = true ->
  exists pre c j, cs = pre ++ [c]
    /\ update_lines (flat_map print_chunk cs ++ next :: tail) i cs0 cur false
       = Ok ((cs1 ++ pre, Some c), (next :: tail, j)).
Proof.
  revert i cs0 cs1 cur. induction cs as [|c cs IH]; [done | ].
  intros i cs0 cs1 cur _ Hok Heof Hflush Hlen Hnext. inversion Hok as [|? ? Hc Hcs]; subst.
  cbn [flat_map]. rewrite <- app_assoc. destruct cs as [|c2 cs].
  - exists [], c. eexists. split; [done | ]. cbn [flat_map app].
    rewrite app_nil_r. by apply update_lines_last_chunk.
  - rewrite (update_lines_chunk c _ i cs0 cs1 cur) by (try done; apply (Heof [] c (c2 :: cs)); done).
    destruct (IH (i + length (print_chunk c)) cs1 (cs1 ++ [c]) (Some c)) as (pre & l & j & Heq & Hrun); try done.
    + by eapply eof_last_tail.
    + intros line. apply push_chunk_accepts; [done | simpl in Hlen; lia].
    + rewrite length_app. simpl in *. lia.
    + exists (c :: pre), l, j. split; [by rewrite Heq | ]. rewrite Hrun. by rewrite <- app_assoc.
Qed.

Lemma parse_update_print (p : str) (mv : option str) (cs : list CodexPatchChunk) (i : nat) next tail :
  hunk_ok (UpdateFile p mv cs) -> ends_hunk next = true ->
  exists j, parse_update_file p
    (match mv with Some d => [print_header MOVE_TO_MARKER d] | None => [] end
       ++ flat_map print_chunk cs ++ next :: tail) i
    = Ok (UpdateFile p mv cs, (next :: tail, j)).
Proof.
  intros (Hp & Hmv & Hne & Hlen & Hok & Heof) Hnext. unfold parse_update_file.
  assert (Hrun : forall k, exists cs' cur j,
    update_lines (flat_map print_chunk cs ++ next :: tail) k [] None false = Ok ((cs', cur), (next :: tail, j))
    /\ forall line, flush_chunk cs' cur line = Ok cs).
  { intros k. destruct cs as [|c0 cs0].
    - exists [], None. eexists. split; [cbn; by rewrite Hnext | done].
    - destruct (update_lines_chunks (c0 :: cs0) k [] [] None next tail) as (pre & c & j & Heq & Hrun); try done.
      exists pre, (Some c), j. rewrite Hrun. split; [done | ]. intros line. cbn [flush_chunk].
      rewrite Heq in *. apply push_chunk_accepts.
      + apply Forall_app in Hok as [_ Hok]. by inversion Hok.
      + rewrite length_app in Hlen. simpl in Hlen. lia. }
  destruct mv as [d|].
  - cbn [app]. rewrite marker_path_print by (by apply Hmv).
    destruct (Hrun (S (S i))) as (cs' & cur & j & -> & Hflush). cbn [result_bind].
    rewrite Hflush. cbn. by exists j.
  - cbn [app]. assert (Hmove : exists l rest, flat_map print_chunk cs ++ next :: tail = l :: rest
                                 /\ marker_path l MOVE_TO_MARKER = None).
    { destruct cs as [|c cs]; [by destruct (Hne eq_refl) | ]. cbn [flat_map].
      exists (print_chunk_header c). eexists. split; [reflexivity | ].
      unfold print_chunk_header. destruct (change_context c); by apply plain_not_marker. }
    destruct Hmove as (l & rest & Heq & Hnone). rewrite Heq, Hnone.
    destruct (Hrun (S i)) as (cs' & cur & j & Hu & Hflush). rewrite Heq in Hu. rewrite Hu. cbn [result_bind].
    rewrite Hflush. cbn [result_bind is_none is_some negb andb].
    replace (is_empty cs) with false by (destruct cs; [by destruct (Hne eq_refl) | done]). eauto.
Qed.

Lemma parse_hunk_print (h : CodexPatchHunk) (i : nat) next tail :
  hunk_ok h -> ends_hunk next = true ->
  exists line ls j, print_hunk h = line :: ls /\ ends_hunk line = true
    /\ is_blank line = false /\ (trim_end line ==? END_PATCH_MARKER) = false
    /\ parse_hunk line (ls ++ next :: tail) i = Ok (h, (next :: tail, j)).
Proof.
  intros Hok Hnext. unfold parse_hunk.
  assert (Hhead : forall m p, path_ok p -> m = ADD_FILE_MARKER \/ m = DELETE_FILE_MARKER \/ m = UPDATE_FILE_MARKER ->
    is_blank (print_header m p) = false /\ (trim_end (print_header m p) ==? END_PATCH_MARKER) = false).
  { intros m p Hp Hm. rewrite print_header_trim_end by done. split.
    - destruct Hm as [->|[->| ->]]; by apply plain_not_blank.
    - apply beq_neq. destruct Hm as [->|[->| ->]]; discriminate. }
  destruct h as [p contents|p|p mv cs]; cbn [print_hunk].
  - destruct Hok as [Hp (added & Hne & Hcont)].
    destruct (Hhead ADD_FILE_MARKER p Hp ltac:(auto)) as [Hb He].
    do 3 eexists. split; [reflexivity | ]. split; [by apply header_ends_hunk; auto | ].
    split; [done | ]. split; [done | ]. rewrite marker_path_print by done.
    unfold parse_add_file. rewrite add_file_lines_print by done. cbn [result_bind app].
    set (ls := split_char LF (removelast contents)).
    replace (is_empty ls) with false
      by (pose proof (split_on_nonempty (N.eqb LF) (removelast contents)); by destruct ls eqn:E).
    do 3 f_equal. unfold ls. rewrite join_split_char, Hcont. by rewrite removelast_last.
  - destruct (Hhead DELETE_FILE_MARKER p Hok ltac:(auto)) as [Hb He].
    do 3 eexists. split; [reflexivity | ]. split; [by apply header_ends_hunk; auto | ].
    split; [done | ]. split; [done | ]. rewrite marker_path_other by done.
    rewrite marker_path_print by done. reflexivity.
  - pose proof Hok as [Hp _]. destruct (Hhead UPDATE_FILE_MARKER p Hp ltac:(auto)) as [Hb He].
    destruct (parse_update_print p mv cs i next tail Hok Hnext) as [j Hrun].
    do 2 eexists. exists j. split; [reflexivity | ]. split; [by apply header_ends_hunk; auto | ].
    split; [done | ]. split; [done | ].
    rewrite !marker_path_other by done. rewrite marker_path_print by done.
    rewrite <- app_assoc. exact Hrun.
Qed.

Lemma skip_blank_plain (line : str) (rest : list str) (i : nat) :
  is_blank line = false -> skip_blank (line :: rest) i = (line :: rest, i).
Proof. simpl. by intros ->. Qed.

Lemma parse_hunks_print (hs acc : list CodexPatchHunk) (fuel i : nat) :
  Forall hunk_ok hs -> length acc + length hs <= MAX_CODEX_PATCH_FILE_CHANGES -> length hs < fuel ->
  exists j, parse_hunks fuel (flat_map print_hunk hs ++ [END_PATCH_MARKER]) i acc
            = Some (Ok (mkHunkLoop (acc ++ hs) true [] j)).
Proof.
  revert acc fuel i. induction hs as [|h hs IH]; intros acc fuel i Hok Hlen Hfuel.
  - destruct fuel as [|f]; [simpl in Hfuel; lia | ]. rewrite app_nil_r. by exists (S i).
  - inversion Hok as [|? ? Hh Hhs]; subst. destruct fuel as [|f]; [lia | ].
    assert (Hnext : exists next tail, flat_map print_hunk hs ++ [END_PATCH_MARKER] = next :: tail
                                      /\ ends_hunk next = true).
    { destruct hs as [|h2 hs]; [by exists END_PATCH_MARKER, [] | ].
      inversion Hhs as [|? ? Hh2 _]; subst.
      destruct (parse_hunk_print h2 0 END_PATCH_MARKER [] Hh2 eq_refl) as (l & ls & _ & Hl & He & _).
      exists l. eexists. cbn [flat_map]. rewrite Hl. split; [reflexivity | done]. }
    destruct Hnext as (next & tail & Heq & Hn).
    destruct (parse_hunk_print h i next tail Hh Hn) as (line & ls & j & Hl & _ & Hblank & Hnotend & Hrun).
    cbn [flat_map]. rewrite <- app_assoc, Heq, Hl. cbn [app parse_hunks].
    rewrite skip_blank_plain by done. rewrite Hnotend.
    replace (Nat.leb MAX_CODEX_PATCH_FILE_CHANGES (length acc)) with false
      by (symmetry; apply Nat.leb_gt; simpl in Hlen; lia).
    rewrite Hrun. destruct (IH (acc ++ [h]) f j) as [j' Hj']; [done | | simpl in Hfuel; lia | ].
    { rewrite length_app. simpl in *. lia. }
    exists j'. rewrite <- Heq, Hj', <- app_assoc. done.
Qed.

(** *** The printed text *)

Lemma not_elem_of_join (c : char) (sep : str) (ls : list str) :
  c ∉ sep -> Forall (fun l => c ∉ l) ls -> c ∉ join sep ls.
Proof.
  intros Hs. induction 1 as [|l ls Hl Hls IH]; [apply not_elem_of_nil | ].
  destruct ls as [|l2 ls]; [done | ]. rewrite join_cons by done. rewrite !not_elem_of_app. done.
Qed.

Lemma one_line_cons (c : char) (s : str) : c <> LF -> c <> CR -> one_line s -> one_line (c :: s).
Proof. unfold one_line. rewrite !not_elem_of_cons. naive_solver. Qed.

Lemma one_line_bool (s : str) :
  negb (contains_char LF s) && negb (contains_char CR s) = true -> one_line s.
Proof.
  rewrite andb_true_iff, !negb_true_iff. intros [H1 H2].
  split; intros Hin; apply contains_char_spec in Hin; congruence.
Qed.

Lemma one_line_app (s t : str) : one_line s -> one_line t -> one_line (s ++ t).
Proof. unfold one_line. rewrite !not_elem_of_app. tauto. Qed.

Lemma one_line_header (m p : str) : one_line m -> one_line p -> one_line (print_header m p).
Proof.
  intros Hm Hp. unfold print_header. apply one_line_app; [done | ].
  apply one_line_app; [by apply one_line_bool | done].
Qed.

Lemma print_chunk_one_line (c : CodexPatchChunk) :
  chunk_lines_ok c -> Forall one_line (print_chunk c).
Proof.
  intros (Hctx & Ho & Hn). unfold print_chunk.
  assert (Hmap : forall x ls, x <> LF -> x <> CR -> Forall one_line ls -> Forall one_line (map (cons x) ls)).
  { intros x ls ? ? H. apply Forall_map. eapply Forall_impl; [exact H | ]. intros. by apply one_line_cons. }
  constructor.
  - unfold print_chunk_header. destruct (change_context c) as [ctx|]; [ | by apply one_line_bool].
    apply one_line_app; [by apply one_line_bool | by apply Hctx].
  - apply Forall_app; split; [by apply Hmap | ]. apply Forall_app; split; [by apply Hmap | ].
    destruct (is_end_of_file c); [ | constructor]. constructor; [by apply one_line_bool | constructor].
Qed.

Lemma Forall_flat_map {A B : Type} (P : B -> Prop) (f : A -> list B) (l : list A) :
  Forall (fun x => Forall P (f x)) l -> Forall P (flat_map f l).
Proof. induction 1; simpl; [constructor | by apply Forall_app]. Qed.

(** A line of an added file's contents has no carriage return of its own. *)
Lemma elem_of_join_piece (c : char) (l : str) (sep : str) (ls : list str) :
  l ∈ ls -> c ∈ l -> c ∈ join sep ls.
Proof.
  intros Hin Hc. apply list_elem_of_split in Hin as (l1 & l2 & ->).
  induction l1 as [|x l1 IH]; cbn [app].
  - destruct l2; [done | ]. rewrite join_cons by done. set_solver.
  - rewrite join_cons by (by destruct l1). set_solver.
Qed.

Lemma print_hunk_one_line (h : CodexPatchHunk) :
  hunk_ok h -> hunk_lines_ok h -> Forall one_line (print_hunk h).
Proof.
  intros Hok Hl. destruct h as [p contents|p|p mv cs]; cbn [print_hunk].
  - destruct Hl as [Hp Hcr]. constructor; [by apply one_line_header; [by apply one_line_bool | ] | ].
    apply Forall_map, Forall_forall. intros l Hin. apply one_line_cons; [done | done | ].
    pose proof (split_char_pieces LF (removelast contents)) as Hpieces.
    rewrite Forall_forall in Hpieces. split; [by apply Hpieces | ]. intros Hc. apply Hcr.
    destruct Hok as [_ (added & _ & ->)]. rewrite removelast_last in Hin.
    apply elem_of_app. left. rewrite <- (join_split_char LF (join [LF] added)).
    by eapply elem_of_join_piece.
  - constructor; [ | constructor]. by apply one_line_header; [by apply one_line_bool | ].
  - destruct Hl as (Hp & Hmv & Hcs).
    constructor; [by apply one_line_header; [by apply one_line_bool | ] | ]. apply Forall_app. split.
    { destruct mv as [d|]; [ | constructor]. constructor; [ | constructor].
      apply one_line_header; [by apply one_line_bool | by apply Hmv]. }
    apply Forall_flat_map. eapply Forall_impl; [exact Hcs | ]. apply print_chunk_one_line.
Qed.

Lemma print_patch_one_line (p : CodexPatch) :
  patch_ok p -> Forall hunk_lines_ok (hunks p) ->
  Forall one_line (BEGIN_PATCH_MARKER :: flat_map print_hunk (hunks p) ++ [END_PATCH_MARKER]).
Proof.
  intros (_ & _ & Hok) Hl. constructor; [by apply one_line_bool | ]. apply Forall_app. split.
  - apply Forall_flat_map. rewrite Forall_forall in *. intros h Hh. by apply print_hunk_one_line; auto.
  - constructor; [by apply one_line_bool | constructor].
Qed.

Lemma print_patch_lines (p : CodexPatch) :
  patch_ok p -> Forall hunk_lines_ok (hunks p) ->
  (str_len (print_patch p) <= MAX_CODEX_PATCH_BYTES)%Z ->
  normalized_patch_lines (print_patch p)
  = Ok (BEGIN_PATCH_MARKER :: flat_map print_hunk (hunks p) ++ [END_PATCH_MARKER]).
Proof.
  intros Hok Hl Hlen. pose proof (print_patch_one_line p Hok Hl) as Hone.
  unfold normalized_patch_lines.
  replace (is_empty (print_patch p)) with false
    by (unfold print_patch; rewrite join_cons by (by destruct (flat_map print_hunk (hunks p))); done).
  replace (Z.ltb MAX_CODEX_PATCH_BYTES (str_len (print_patch p))) with false
    by (symmetry; by apply Z.ltb_ge).
  assert (Hcr : CR ∉ print_patch p).
  { unfold print_patch. apply not_elem_of_join; [by apply not_elem_of_cons; split; [ | apply not_elem_of_nil] | ].
    eapply Forall_impl; [exact Hone | ]. by intros x [_ H]. }
  rewrite str_replace_absent by done.
  replace (contains_char CR (print_patch p)) with false.
  - unfold print_patch. rewrite split_char_join; [done | done | ].
    eapply Forall_impl; [exact Hone | ]. by intros x [H _].
  - symmetry. apply not_true_iff_false. intros Hc. by apply contains_char_spec in Hc.
Qed.

(** C37: Parsing undoes printing: a well-formed patch whose paths, contexts and
    lines each fit on one line, written out in the patch language within the
    size limit, parses back to exactly that patch. *)
Theorem parse_print_patch (p : CodexPatch) :
  patch_ok p -> Forall hunk_lines_ok (hunks p) ->
  (str_len (print_patch p) <= MAX_CODEX_PATCH_BYTES)%Z ->
  parse_codex_patch (print_patch p) = Some (Ok p).
Proof.
  intros Hok Hl Hlen. unfold parse_codex_patch. rewrite print_patch_lines by done.
  rewrite skip_blank_plain by done.
  replace (trim BEGIN_PATCH_MARKER !=? BEGIN_PATCH_MARKER) with false by done.
  pose proof Hok as (Hne & Hmax & Hhs).
  assert (Hfuel : length (hunks p) <= length (flat_map print_hunk (hunks p))).
  { clear. induction (hunks p) as [|h hs IH]; simpl; [done | ].
    rewrite length_app. destruct h; simpl; lia. }
  edestruct (parse_hunks_print (hunks p) []) as [j Hrun]; [done | exact Hmax | | rewrite Hrun].
  - rewrite length_app. simpl. lia.
  - unfold finish_patch. cbn. by destruct p as [[|h hs]].
Qed.

Definition sample_patch : CodexPatch :=
  mkPatch [AddFile (lit "a.txt") (lit "one" ++ [LF] ++ lit "two" ++ [LF]);
           UpdateFile (lit "b.rs") (Some (lit "c.rs"))
             [mkChunk (Some (lit "fn main")) [lit "old"] [lit "new"] false;
              mkChunk None [] [lit "tail"] true];
           DeleteFile (lit "d.md")].

Lemma sample_patch_ok : patch_ok sample_patch.
Proof.
  split_and!; [done | vm_compute; lia | ].
  constructor; [ | constructor; [ | constructor; [done | constructor]]].
  - split; [done | ]. by exists [lit "one"; lit "two"].
  - cbn [hunk_ok]. split; [done | ]. split; [by intros d [= <-] | ]. split; [done | ].
    split; [vm_compute; lia | ]. split.
    + constructor; [by repeat split; auto | ]. constructor; [by right; left | constructor].
    + intros [|x pre] c post Heq Hne; injection Heq as <- Heq; [done | ].
      destruct pre as [|y pre]; injection Heq as ? Heq; [congruence | by destruct pre].
Qed.

Lemma sample_patch_lines : Forall hunk_lines_ok (hunks sample_patch).
Proof.
  constructor; [ | constructor; [ | constructor; [ | constructor]]].
  - split; [by apply one_line_bool | ]. intros H%contains_char_spec. by vm_compute in H.
  - cbn [hunk_lines_ok]. split; [by apply one_line_bool | ].
    split; [intros d [= <-]; by apply one_line_bool | ].
    assert (H1 : forall l, one_line l -> Forall one_line [l]) by (intros; by constructor).
    constructor; [ | constructor; [ | constructor]]; (split; [intros ctx Hctx; simplify_eq/= | split]).
    1-3, 5: first [apply H1 | idtac]; by apply one_line_bool. constructor.
  - by apply one_line_bool.
Qed.

Lemma parse_print_patch_witness :
  parse_codex_patch (print_patch sample_patch) = Some (Ok sample_patch).
Proof.
  apply (parse_print_patch sample_patch sample_patch_ok sample_patch_lines).
  vm_compute. discriminate.
Defined.
