(* ===== verification/PatchUpdate.v ===== *)
(** * PatchUpdate: crates/webcodex-core/src/apply_patch_shared.rs, applying chunks

    The matcher of the [apply_patch] tool ([seek_sequence], four tiers of
    decreasing strictness), the diagnostic of a failed search, and
    [derive_codex_patch_update_with_matching_mode], which turns the chunks of an
    update into line replacements and splices them into the file.  Line numbers
    and counts are lengths of lists of lines in memory, so they are [nat];
    [Vec::splice] out of range is a panic, [None]. *)
From S2P Require Import Prelude RustStr ApplyEdits PatchParse.

Record CodexPatchMatchRejection : Type := mkRejection {
  rej_requested_matching_mode : ApplyPatchMatchingMode;
  rej_match_mode : CodexPatchMatchMode;
  rej_match_source : CodexPatchMatchSource;
  rej_matched_start_line : nat;
  rej_candidate_count : nat;
  rej_candidate_start_lines : list nat;
  rej_candidate_positions_truncated : bool;
  rej_search_start_line : nat;
  rej_source_line_count : nat
}.

Record CodexPatchChunkMatch : Type := mkChunkMatch {
  cm_chunk_index : nat;
  cm_match_mode : option CodexPatchMatchMode;
  cm_match_source : CodexPatchMatchSource;
  cm_matched_start_line : nat;
  cm_candidate_count : option nat;
  cm_unique_match : bool;
  cm_strict_match : bool;
  cm_match_rejection : option CodexPatchMatchRejection
}.

Record CodexPatchUpdate : Type := mkUpdate {
  upd_content : str;
  upd_chunk_matches : list CodexPatchChunkMatch
}.

Record SequenceMatch : Type := mkSeqMatch {
  sm_index : nat;
  sm_mode : CodexPatchMatchMode;
  sm_candidate_count : nat;
  sm_candidate_positions : list nat;
  sm_search_start : nat
}.

Definition is_unique (m : SequenceMatch) : bool := Nat.eqb (sm_candidate_count m) 1.

Definition is_exact_unique (m : SequenceMatch) : bool :=
  (sm_mode m ==? Exact) && Nat.eqb (sm_candidate_count m) 1.

(** Whether a match satisfies the mode the caller asked for. *)
Definition mode_satisfied (requested : ApplyPatchMatchingMode) (matched : SequenceMatch) : bool :=
  match requested with
  | FirstMatch => true
  | Unique => is_unique matched
  | ExactUnique => is_exact_unique matched
  end.

Definition match_rejection_fact (matched : SequenceMatch) (requested : ApplyPatchMatchingMode)
  (source : CodexPatchMatchSource) (source_line_count pattern_len : nat)
  : option CodexPatchMatchRejection :=
  if mode_satisfied requested matched || Nat.eqb pattern_len 0
     || Nat.ltb source_line_count pattern_len
  then None
  else Some (mkRejection requested (sm_mode matched) source (sm_index matched + 1)
               (sm_candidate_count matched)
               (map (fun index => index + 1) (sm_candidate_positions matched))
               (Nat.ltb (length (sm_candidate_positions matched)) (sm_candidate_count matched))
               (sm_search_start matched + 1) source_line_count).

Definition select_match_rejection (first second : option CodexPatchMatchRejection)
  : option CodexPatchMatchRejection :=
  let candidates := omap (fun o => o) [first; second] in
  or_else (List.find (fun c => Nat.ltb 1 (rej_candidate_count c)) candidates) (head candidates).

Definition in_chars (c : char) (cs : list char) : bool := existsb (N.eqb c) cs.

Definition normalize_char (c : char) : char :=
  if in_chars c [0x2010; 0x2011; 0x2012; 0x2013; 0x2014; 0x2015; 0x2212]%N then 45%N
  else if in_chars c [0x2018; 0x2019; 0x201A; 0x201B]%N then 39%N
  else if in_chars c [0x201C; 0x201D; 0x201E; 0x201F]%N then 34%N
  else if in_chars c [0x00A0; 0x2002; 0x2003; 0x2004; 0x2005; 0x2006; 0x2007; 0x2008; 0x2009;
                      0x200A; 0x202F; 0x205F; 0x3000]%N then 32%N
  else c.

Definition normalize_codex_patch_match_text (value : str) : str := map normalize_char (trim value).

(** One line of the file against one line of the pattern. *)
Definition line_matches (mode : CodexPatchMatchMode) (candidate expected : str) : bool :=
  match mode with
  | Exact => candidate ==? expected
  | TrimEnd => trim_end candidate ==? trim_end expected
  | Trim => trim candidate ==? trim expected
  | Normalized => normalize_codex_patch_match_text candidate
                  ==? normalize_codex_patch_match_text expected
  end.

Definition matches_at (lines pattern : list str) (index : nat) (mode : CodexPatchMatchMode) : bool :=
  forallb (fun p => line_matches mode (fst p) (snd p))
    (combine (take (length pattern) (drop index lines)) pattern).

(** The loop over candidate positions of one tier: the selected position, the
    candidate count and the first recorded positions. *)
Record TierScan : Type := mkTier {
  tier_selected : option nat;
  tier_count : nat;
  tier_positions : list nat
}.

Definition tier_step (lines pattern : list str) (mode : CodexPatchMatchMode)
  (acc : TierScan) (index : nat) : TierScan :=
  if matches_at lines pattern index mode then
    mkTier (or_else (tier_selected acc) (Some index)) (tier_count acc + 1)
      (if Nat.ltb (length (tier_positions acc)) MAX_CODEX_PATCH_CANDIDATE_POSITIONS
       then tier_positions acc ++ [index] else tier_positions acc)
  else acc.

Definition scan_tier (lines pattern : list str) (start last_start : nat) (eof : bool)
  (matching_mode : ApplyPatchMatchingMode) (mode : CodexPatchMatchMode) : option SequenceMatch :=
  let structural_eof := eof && (matching_mode ==? Unique) in
  let effective_start := if structural_eof then last_start else start in
  let selected := if eof && (matching_mode !=? Unique) && matches_at lines pattern last_start mode
                  then Some last_start else None in
  let scan := fold_left (tier_step lines pattern mode)
                (seq effective_start (S last_start - effective_start))
                (mkTier selected 0 []) in
  match tier_selected scan with
  | Some index => Some (mkSeqMatch index mode (tier_count scan) (tier_positions scan) effective_start)
  | None => None
  end.

Definition match_tiers : list CodexPatchMatchMode := [Exact; TrimEnd; Trim; Normalized].

(** The first tier that yields a match. *)
Fixpoint first_tier (scan : CodexPatchMatchMode -> option SequenceMatch)
  (modes : list CodexPatchMatchMode) : option SequenceMatch :=
  match modes with
  | [] => None
  | mode :: rest =>
      match scan mode with
      | Some m => Some m
      | None => first_tier scan rest
      end
  end.

Definition seek_sequence (lines pattern : list str) (start : nat) (eof : bool)
  (matching_mode : ApplyPatchMatchingMode) : option SequenceMatch :=
  if is_empty pattern then
    let index := Nat.min start (length lines) in
    Some (mkSeqMatch index Exact 1 [index] index)
  else if Nat.ltb (length lines) (length pattern) then None
  else
    let last_start := length lines - length pattern in
    if Nat.ltb last_start start then None
    else first_tier (scan_tier lines pattern start last_start eof matching_mode) match_tiers.

(** ** The diagnostic of a failed search *)

Record LineScore : Type := mkScore { sc_exact : nat; sc_trim_end : nat; sc_trim : nat }.

(** Positional matches of the pattern against the lines from [index]; the
    comparison stops at the end of the file. *)
Definition score_at (lines pattern : list str) (index : nat) : LineScore :=
  let pairs := combine (drop index lines) pattern in
  let count mode := length (List.filter (fun p => line_matches mode (fst p) (snd p)) pairs) in
  mkScore (count Exact) (count TrimEnd) (count Trim).

(** Lexicographic order on [(trim, trim_end, exact)]. *)
Definition score_gt (a b : LineScore) : bool :=
  Nat.ltb (sc_trim b) (sc_trim a)
  || (Nat.eqb (sc_trim a) (sc_trim b)
      && (Nat.ltb (sc_trim_end b) (sc_trim_end a)
          || (Nat.eqb (sc_trim_end a) (sc_trim_end b) && Nat.ltb (sc_exact b) (sc_exact a)))).

(** The best candidate so far; positions that cannot hold the whole pattern are
    skipped when some position can (the source breaks out of the loop there:
    every later position is as short). *)
Definition best_step (lines pattern : list str) (has_complete_candidate : bool)
  (best : option (nat * LineScore)) (index : nat) : option (nat * LineScore) :=
  let compared := Nat.min (length pattern) (length lines - index) in
  if has_complete_candidate && Nat.ltb compared (length pattern) then best
  else
    let score := score_at lines pattern index in
    if is_none_or (fun b => score_gt score (snd b)) best then Some (index, score) else best.

Definition diagnose_sequence_miss (lines pattern : list str) (start chunk_index : nat)
  (match_source : CodexPatchMatchSource) : CodexPatchMatchDiagnostic :=
  let effective_start := Nat.min start (length lines) in
  let available_line_count := length lines - effective_start in
  let has_complete_candidate := Nat.leb (length pattern) available_line_count in
  let best := fold_left (best_step lines pattern has_complete_candidate)
                (seq effective_start available_line_count) None in
  let mk := mkDiagnostic chunk_index match_source (effective_start + 1) (length pattern)
              available_line_count in
  match best with
  | Some (index, s) =>
      let first_mismatch :=
        List.find (fun offset => negb (bool_decide (lines !! (index + offset) = pattern !! offset)))
          (seq 0 (length pattern)) in
      mk (Some (index + 1)) (sc_exact s) (sc_trim_end s) (sc_trim s) (S <$> first_mismatch)
  | None => mk None 0 0 0 (if is_empty pattern then None else Some 1)
  end.

(** ** Deriving the updated file *)

Record Replacement : Type := mkReplacement {
  rp_start : nat;
  rp_old_len : nat;
  rp_lines : list str
}.

Definition miss_error (path : str) (chunk_index : nat) (what : str)
  (diagnostic : CodexPatchMatchDiagnostic) : CodexPatchError :=
  with_match_diagnostic
    (patch_error (lit "context_mismatch") None
       (path ++ lit ": chunk " ++ fmt_nat chunk_index ++ lit " could not find its " ++ what))
    diagnostic.

(** The optional [@@ context] line: where the search for the chunk starts. *)
Definition seek_context (lines : list str) (path : str) (mode : ApplyPatchMatchingMode)
  (chunk_index : nat) (chunk : CodexPatchChunk) (line_index : nat)
  : result (option SequenceMatch * nat) CodexPatchError :=
  match change_context chunk with
  | None => Ok (None, line_index)
  | Some context =>
      match seek_sequence lines [context] line_index false mode with
      | None => Err (miss_error path chunk_index (lit "change context")
                       (diagnose_sequence_miss lines [context] line_index chunk_index ChangeContext))
      | Some m => Ok (Some m, sm_index m + 1)
      end
  end.

(** A chunk without old lines: an insertion after its context, or at the end. *)
Definition insert_chunk (lines : list str) (mode : ApplyPatchMatchingMode) (chunk_index : nat)
  (chunk : CodexPatchChunk) (context_match : option SequenceMatch) (line_index : nat)
  : Replacement * CodexPatchChunkMatch * nat :=
  let anchored := is_some (change_context chunk) in
  let insertion_index := if anchored then line_index else length lines in
  (mkReplacement insertion_index 0 (new_lines chunk),
   mkChunkMatch chunk_index (sm_mode <$> context_match)
     (if anchored then ChangeContext else Append) (insertion_index + 1)
     (sm_candidate_count <$> context_match)
     (is_none_or is_unique context_match) (is_none_or is_exact_unique context_match)
     (context_match ≫= fun m => match_rejection_fact m mode ChangeContext (length lines) 1),
   line_index).

Definition ends_with_empty_line (ls : list str) : bool := is_some_and is_empty (last ls).

(** The search for the old lines, retried without a trailing empty line. *)
Definition seek_old_lines (lines : list str) (mode : ApplyPatchMatchingMode)
  (chunk : CodexPatchChunk) (line_index : nat) : option SequenceMatch * list str * list str :=
  let pattern := old_lines chunk in
  let replacement := new_lines chunk in
  let found := seek_sequence lines pattern line_index (is_end_of_file chunk) mode in
  if is_none found && ends_with_empty_line pattern then
    let pattern' := removelast pattern in
    let replacement' := if ends_with_empty_line replacement then removelast replacement
                        else replacement in
    (seek_sequence lines pattern' line_index (is_end_of_file chunk) mode, pattern', replacement')
  else (found, pattern, replacement).

Definition replace_chunk (lines : list str) (path : str) (mode : ApplyPatchMatchingMode)
  (chunk_index : nat) (chunk : CodexPatchChunk) (context_match : option SequenceMatch)
  (line_index : nat) : result (Replacement * CodexPatchChunkMatch * nat) CodexPatchError :=
  let '(found, pattern, replacement) := seek_old_lines lines mode chunk line_index in
  match found with
  | None => Err (miss_error path chunk_index (lit "expected old lines")
                   (diagnose_sequence_miss lines pattern line_index chunk_index OldLines))
  | Some found =>
      let start := sm_index found in
      let context_rejection :=
        if mode ==? ExactUnique
        then context_match ≫= fun m => match_rejection_fact m mode ChangeContext (length lines) 1
        else None in
      let old_lines_rejection :=
        match_rejection_fact found mode OldLines (length lines) (length pattern) in
      Ok (mkReplacement start (length pattern) replacement,
          mkChunkMatch chunk_index
            (Some (match context_match with
                   | Some c => mode_max (sm_mode c) (sm_mode found)
                   | None => sm_mode found
                   end))
            OldLines (start + 1) (Some (sm_candidate_count found)) (is_unique found)
            (is_none_or is_exact_unique context_match && is_exact_unique found)
            (select_match_rejection context_rejection old_lines_rejection),
          start + length pattern)
  end.

Definition derive_chunk (lines : list str) (path : str) (mode : ApplyPatchMatchingMode)
  (chunk_index : nat) (chunk : CodexPatchChunk) (line_index : nat)
  : result (Replacement * CodexPatchChunkMatch * nat) CodexPatchError :=
  let? ctx := seek_context lines path mode chunk_index chunk line_index in
  let '(context_match, line_index') := ctx in
  if is_empty (old_lines chunk)
  then Ok (insert_chunk lines mode chunk_index chunk context_match line_index')
  else replace_chunk lines path mode chunk_index chunk context_match line_index'.

(** [for (chunk_index, chunk) in chunks.iter().enumerate()]. *)
Fixpoint derive_chunks (lines : list str) (path : str) (mode : ApplyPatchMatchingMode)
  (chunk_index : nat) (chunks : list CodexPatchChunk) (line_index : nat)
  : result (list Replacement * list CodexPatchChunkMatch) CodexPatchError :=
  match chunks with
  | [] => Ok ([], [])
  | chunk :: rest =>
      let? r := derive_chunk lines path mode chunk_index chunk line_index in
      let '(replacement, chunk_match, line_index') := r in
      let? tail := derive_chunks lines path mode (S chunk_index) rest line_index' in
      let '(replacements, chunk_matches) := tail in
      Ok (replacement :: replacements, chunk_match :: chunk_matches)
  end.

(** [sort_by_key(|(start, _, _)| *start)], a stable sort. *)
Fixpoint insert_by_start (r : Replacement) (rs : list Replacement) : list Replacement :=
  match rs with
  | [] => [r]
  | r' :: rest => if Nat.leb (rp_start r) (rp_start r') then r :: rs
                  else r' :: insert_by_start r rest
  end.
Definition sort_by_start (rs : list Replacement) : list Replacement := foldr insert_by_start [] rs.

(** [new_lines.splice(start..start + old_len, replacement)]. *)
Definition splice (lines : list str) (r : Replacement) : option (list str) :=
  if Nat.leb (rp_start r + rp_old_len r) (length lines)
  then Some (take (rp_start r) lines ++ rp_lines r ++ drop (rp_start r + rp_old_len r) lines)
  else None.

Definition splice_rev (lines : list str) (rs : list Replacement) : option (list str) :=
  fold_left (fun acc r => acc ≫= fun ls => splice ls r) (rev rs) (Some lines).

(** [split('\n')] without the empty piece after a final line feed. *)
Definition file_lines (canonical : str) : list str :=
  let pieces := split_char LF canonical in
  if ends_with_empty_line pieces then removelast pieces else pieces.

Definition unsupported_file (path message : str) : CodexPatchError :=
  patch_error (lit "unsupported_file") None (path ++ lit ": " ++ message).

Definition derive_codex_patch_update_with_matching_mode (original path : str)
  (chunks : list CodexPatchChunk) (mode : ApplyPatchMatchingMode)
  : option (result CodexPatchUpdate CodexPatchError) :=
  match (let? line_ending := map_err (unsupported_file path) (detect_apply_text_line_ending original) in
         let? canonical := map_err (unsupported_file path)
                             (canonicalize_apply_text_line_endings original line_ending) in
         let lines := file_lines canonical in
         let? r := derive_chunks lines path mode 0 chunks 0 in
         Ok (line_ending, lines, r)) with
  | Err e => Some (Err e)
  | Ok (line_ending, lines, (replacements, chunk_matches)) =>
      spliced ← splice_rev lines (sort_by_start replacements);
      Some (Ok (mkUpdate
        (restore_apply_text_line_endings (join [LF] (spliced ++ [[]])) line_ending) chunk_matches))
  end.

Definition derive_codex_patch_update_with_matches (original path : str)
  (chunks : list CodexPatchChunk) : option (result CodexPatchUpdate CodexPatchError) :=
  derive_codex_patch_update_with_matching_mode original path chunks FirstMatch.

Definition derive_codex_patch_update (original path : str) (chunks : list CodexPatchChunk)
  : option (result str CodexPatchError) :=
  r ← derive_codex_patch_update_with_matches original path chunks;
  Some (match r with Ok u => Ok (upd_content u) | Err e => Err e end).

(** ** The matcher *)

(** Positions from [from] to [to], both included, where the pattern matches. *)
Definition candidates (lines pattern : list str) (mode : CodexPatchMatchMode) (from to : nat)
  : list nat :=
  List.filter (fun i => matches_at lines pattern i mode) (seq from (S to - from)).

(** Where the candidates of a search start. *)
Definition search_start (eof : bool) (mode : ApplyPatchMatchingMode) (start last_start : nat) : nat :=
  if eof && (mode ==? Unique) then last_start else start.

Lemma elem_of_candidates lines pattern mode from to i :
  i ∈ candidates lines pattern mode from to
  <-> from <= i <= to /\ matches_at lines pattern i mode = true.
Proof.
  unfold candidates. rewrite list_elem_of_In, filter_In, in_seq.
  split; intros [H1 H2]; (split; [lia | done]).
Qed.

Lemma tier_fold lines pattern mode (idxs : list nat) (acc : TierScan) :
  length (tier_positions acc) <= MAX_CODEX_PATCH_CANDIDATE_POSITIONS ->
  let cands := List.filter (fun i => matches_at lines pattern i mode) idxs in
  fold_left (tier_step lines pattern mode) idxs acc
  = mkTier (or_else (tier_selected acc) (head cands)) (tier_count acc + length cands)
      (take MAX_CODEX_PATCH_CANDIDATE_POSITIONS (tier_positions acc ++ cands)).
Proof.
  revert acc. induction idxs as [|i idxs IH]; intros acc Hlen; cbn [fold_left List.filter].
  - destruct acc as [sel n pos]; cbn in *. rewrite app_nil_r, Nat.add_0_r, take_ge by done.
    by destruct sel.
  - unfold tier_step at 2. destruct (matches_at lines pattern i mode); [ | by apply IH].
    rewrite IH; cbn [tier_selected tier_count tier_positions length head].
    + f_equal; [by destruct (tier_selected acc) | lia | ].
      destruct (Nat.ltb_spec (length (tier_positions acc)) MAX_CODEX_PATCH_CANDIDATE_POSITIONS).
      * by rewrite <- app_assoc.
      * rewrite !take_app_le by lia. done.
    + destruct (Nat.ltb_spec (length (tier_positions acc)) MAX_CODEX_PATCH_CANDIDATE_POSITIONS);
        [rewrite length_app; simpl; lia | lia].
Qed.

(** The position the code prefers among the candidates of a tier. *)
Definition preferred (lines pattern : list str) (eof : bool) (mode : ApplyPatchMatchingMode)
  (tier : CodexPatchMatchMode) (start last_start : nat) : option nat :=
  if eof && (mode !=? Unique) && matches_at lines pattern last_start tier then Some last_start
  else head (candidates lines pattern tier (search_start eof mode start last_start) last_start).

Lemma scan_tier_spec lines pattern start last_start eof mode tier :
  let from := search_start eof mode start last_start in
  let cands := candidates lines pattern tier from last_start in
  scan_tier lines pattern start last_start eof mode tier
  = (fun i => mkSeqMatch i tier (length cands) (take MAX_CODEX_PATCH_CANDIDATE_POSITIONS cands) from)
      <$> preferred lines pattern eof mode tier start last_start.
Proof.
  unfold scan_tier, preferred, candidates, search_start.
  rewrite tier_fold by (cbn; lia). cbn [tier_selected tier_count tier_positions app].
  destruct (eof && (mode !=? Unique) && matches_at lines pattern last_start tier); [done | ].
  cbn [or_else]. by destruct (head _).
Qed.

Lemma preferred_candidate lines pattern eof mode tier start last_start i :
  start <= last_start ->
  preferred lines pattern eof mode tier start last_start = Some i ->
  i ∈ candidates lines pattern tier (search_start eof mode start last_start) last_start.
Proof.
  unfold preferred. destruct (eof && _ && _) eqn:E; intros Hs H.
  - injection H as <-. split_andb. apply elem_of_candidates. unfold search_start.
    destruct (eof && (mode ==? Unique)); split; (done || lia).
  - destruct (candidates _ _ _ _ _); [done | ]. injection H as ->. by left.
Qed.

Lemma preferred_none lines pattern eof mode tier start last_start :
  start <= last_start ->
  preferred lines pattern eof mode tier start last_start = None ->
  candidates lines pattern tier (search_start eof mode start last_start) last_start = [].
Proof.
  unfold preferred. destruct (eof && _ && _); [done | ]. by destruct (candidates _ _ _ _ _).
Qed.

Lemma first_tier_spec (scan : CodexPatchMatchMode -> option SequenceMatch) modes :
  match first_tier scan modes with
  | Some m => exists before tier after, modes = before ++ tier :: after /\ scan tier = Some m
                /\ Forall (fun t => scan t = None) before
  | None => Forall (fun t => scan t = None) modes
  end.
Proof.
  induction modes as [|t modes IH]; simpl; [constructor | ].
  destruct (scan t) as [m|] eqn:E; [by exists [], t, modes | ].
  destruct (first_tier scan modes) as [m|]; [ | by constructor].
  destruct IH as (before & tier & after & -> & Hs & Hb).
  exists (t :: before), tier, after. split_and!; [done | done | by constructor].
Qed.

Lemma line_matches_weaken (a b : str) (m : CodexPatchMatchMode) :
  line_matches m a b = true -> line_matches Normalized a b = true.
Proof.
  assert (Htrim : trim a = trim b -> line_matches Normalized a b = true).
  { intros H. unfold line_matches, normalize_codex_patch_match_text. rewrite H. apply beq_refl. }
  destruct m; cbn [line_matches]; intros H%beq_true; [by rewrite H; apply beq_refl | | by auto | ].
  - apply Htrim. by rewrite !trim_comm, H.
  - unfold normalize_codex_patch_match_text in *. rewrite H. apply beq_refl.
Qed.

Lemma matches_at_weaken lines pattern i m :
  matches_at lines pattern i m = true -> matches_at lines pattern i Normalized = true.
Proof.
  unfold matches_at. rewrite !forallb_forall. intros H p Hp.
  eapply line_matches_weaken. by apply H.
Qed.

(** What the matcher promises for a non-empty pattern that fits behind
    [start]: see [seek_sequence_correct]. *)
Definition seek_result_ok (lines pattern : list str) (start : nat) (eof : bool)
  (mode : ApplyPatchMatchingMode) (r : option SequenceMatch) : Prop :=
  let last_start := length lines - length pattern in
  let from := search_start eof mode start last_start in
  match r with
  | Some m =>
      let cands := candidates lines pattern (sm_mode m) from last_start in
      sm_index m ∈ cands
      /\ preferred lines pattern eof mode (sm_mode m) start last_start = Some (sm_index m)
      /\ (forall tier, mode_rank tier < mode_rank (sm_mode m) ->
            candidates lines pattern tier from last_start = [])
      /\ sm_candidate_count m = length cands
      /\ sm_candidate_positions m = take MAX_CODEX_PATCH_CANDIDATE_POSITIONS cands
      /\ sm_search_start m = from
  | None => forall i, from <= i <= last_start -> matches_at lines pattern i Normalized = false
  end.

Lemma match_tiers_split before tier after t :
  match_tiers = before ++ tier :: after -> mode_rank t < mode_rank tier -> t ∈ before.
Proof.
  unfold match_tiers. intros H Ht.
  destruct before as [|? [|? [|? [|? before]]]]; simplify_eq/=;
    try (by destruct before); destruct t; simpl in Ht; try lia; set_solver.
Qed.

Lemma seek_sequence_tiers lines pattern start eof mode :
  pattern <> [] -> start + length pattern <= length lines ->
  seek_sequence lines pattern start eof mode
  = first_tier (scan_tier lines pattern start (length lines - length pattern) eof mode) match_tiers.
Proof.
  intros Hne Hfit. unfold seek_sequence.
  replace (is_empty pattern) with false by (by destruct pattern).
  replace (Nat.ltb (length lines) (length pattern)) with false by (symmetry; apply Nat.ltb_ge; lia).
  by replace (Nat.ltb (length lines - length pattern) start) with false
    by (symmetry; apply Nat.ltb_ge; lia).
Qed.

(** The patch matcher is exact about what it reports: a match lies at a
    position of the search range where the pattern matches at the reported
    tier, no stricter tier matches anywhere in the range, the candidate count is
    the number of matching positions of that tier, the recorded positions are
    the first four of them, and the selected one is the documented preference
    (the end of the file when the chunk asks for it, else the first).  A miss
    means that no position of the range matches even after normalisation. *)
Lemma seek_sequence_correct lines pattern start eof mode :
  pattern <> [] -> start + length pattern <= length lines ->
  seek_result_ok lines pattern start eof mode (seek_sequence lines pattern start eof mode).
Proof.
  intros Hne Hfit. rewrite seek_sequence_tiers by done. unfold seek_result_ok.
  set (last_start := length lines - length pattern).
  assert (Hs : start <= last_start) by (unfold last_start; lia).
  set (scan := scan_tier _ _ _ _ _ _).
  assert (Hscan : forall t, scan t = None ->
    candidates lines pattern t (search_start eof mode start last_start) last_start = []).
  { intros t Ht. unfold scan in Ht. rewrite scan_tier_spec in Ht. apply preferred_none; [done | ].
    by destruct (preferred _ _ _ _ _ _ _). }
  pose proof (first_tier_spec scan match_tiers) as H. destruct (first_tier scan match_tiers) as [m|].
  - destruct H as (before & tier & after & Heq & Hm & Hbefore).
    unfold scan in Hm. rewrite scan_tier_spec in Hm.
    destruct (preferred lines pattern eof mode tier start last_start) as [i|] eqn:Hp; [ | done].
    injection Hm as <-. cbn [sm_mode sm_index sm_candidate_count sm_candidate_positions sm_search_start].
    split_and!; try done; [by apply preferred_candidate | ].
    intros t Ht. apply Hscan. rewrite Forall_forall in Hbefore. apply Hbefore.
    by eapply match_tiers_split.
  - intros i Hi. apply not_true_iff_false. intros Hm. rewrite Forall_forall in H.
    assert (Hin : i ∈ candidates lines pattern Normalized (search_start eof mode start last_start) last_start)
      by (by apply elem_of_candidates).
    rewrite (Hscan Normalized) in Hin; [by apply not_elem_of_nil in Hin | ].
    apply H. unfold match_tiers. set_solver.
Qed.

Lemma seek_sequence_correct_witness :
  seek_result_ok [lit "a"; lit "b "; lit "b"; lit "b "] [lit "b"] 1 false Unique
    (Some (mkSeqMatch 2 Exact 1 [2] 1)).
Proof.
  apply (seek_sequence_correct [lit "a"; lit "b "; lit "b"; lit "b "] [lit "b"] 1 false Unique);
    [done | simpl; lia].
Defined.

(** ** Where replacements land *)

Lemma seek_sequence_fits lines pattern start eof mode m :
  pattern <> [] -> seek_sequence lines pattern start eof mode = Some m ->
  start + length pattern <= length lines.
Proof.
  unfold seek_sequence. destruct pattern as [|p ps]; [done | ]. cbn [is_empty]. intros _.
  destruct (Nat.ltb_spec (length lines) (length (p :: ps))); [done | ].
  destruct (Nat.ltb_spec (length lines - length (p :: ps)) start); [done | ]. intros _. lia.
Qed.

(** The selected position is a candidate of the reported tier. *)
Lemma seek_sequence_candidate lines pattern start eof mode m :
  pattern <> [] -> seek_sequence lines pattern start eof mode = Some m ->
  let last_start := length lines - length pattern in
  let cands := candidates lines pattern (sm_mode m) (search_start eof mode start last_start) last_start in
  sm_index m ∈ cands /\ sm_candidate_count m = length cands.
Proof.
  intros Hne Hm. pose proof (seek_sequence_fits _ _ _ _ _ _ Hne Hm) as Hfit.
  rewrite seek_sequence_tiers in Hm by done.
  pose proof (first_tier_spec (scan_tier lines pattern start (length lines - length pattern) eof mode)
                match_tiers) as H.
  rewrite Hm in H. destruct H as (_ & tier & _ & _ & Hs & _). rewrite scan_tier_spec in Hs.
  destruct (preferred _ _ _ _ _ _ _) as [i|] eqn:Hp; [ | done]. injection Hs as <-. cbn.
  split; [apply preferred_candidate; [lia | done] | done].
Qed.

Lemma seek_sequence_range lines pattern start eof mode m :
  start <= length lines -> seek_sequence lines pattern start eof mode = Some m ->
  start <= sm_index m /\ sm_index m + length pattern <= length lines.
Proof.
  intros Hs Hm. destruct (decide (pattern = [])) as [->|Hne].
  - cbn in Hm. injection Hm as <-. cbn. lia.
  - pose proof (seek_sequence_fits _ _ _ _ _ _ Hne Hm) as Hfit.
    apply seek_sequence_candidate in Hm as [Hin _]; [ | done].
    apply elem_of_candidates in Hin as [Hr _]. unfold search_start in Hr.
    destruct (eof && _); lia.
Qed.

Definition rp_end (r : Replacement) : nat := rp_start r + rp_old_len r.

(** [x] ends before [y] starts. *)
Definition before (x y : Replacement) : Prop := rp_end x <= rp_start y.

(** An insertion behind the last line, as an unanchored chunk makes it. *)
Definition at_end (n : nat) (r : Replacement) : Prop := rp_start r = n /\ rp_old_len r = 0.

Lemma seek_context_range lines path mode k chunk l cm l' :
  seek_context lines path mode k chunk l = Ok (cm, l') -> l <= length lines ->
  l <= l' <= length lines /\ (is_some cm = is_some (change_context chunk)).
Proof.
  unfold seek_context. destruct (change_context chunk) as [ctx|]; intros H Hl.
  - destruct (seek_sequence _ _ _ _ _) as [m|] eqn:Hm; [ | done]. injection H as <- <-.
    apply seek_sequence_range in Hm; [ | done]. simpl in Hm. split; [lia | done].
  - injection H as <- <-. split; [lia | done].
Qed.

Lemma seek_old_lines_range lines mode chunk l m pattern rep :
  seek_old_lines lines mode chunk l = (Some m, pattern, rep) -> l <= length lines ->
  l <= sm_index m /\ sm_index m + length pattern <= length lines.
Proof.
  unfold seek_old_lines. intros H Hl. destruct (is_none _ && _);
    injection H as Hm <- _; by eapply seek_sequence_range.
Qed.

Lemma derive_chunk_range lines path mode k chunk l r cm l' :
  derive_chunk lines path mode k chunk l = Ok (r, cm, l') -> l <= length lines ->
  l <= l' <= length lines /\ rp_end r <= length lines
  /\ ((l <= rp_start r /\ rp_end r <= l') \/ at_end (length lines) r).
Proof.
  unfold derive_chunk, rp_end, at_end. intros H Hl.
  destruct (seek_context lines path mode k chunk l) as [[ctx l1]|] eqn:Hc; [ | done].
  apply seek_context_range in Hc as [Hl1 Hctx]; [ | done]. cbn in H.
  destruct (is_empty (old_lines chunk)).
  - unfold insert_chunk in H. injection H as <- _ <-. cbn.
    destruct (is_some (change_context chunk)); [split_and!; lia | ]. split_and!; lia.
  - unfold replace_chunk in H.
    destruct (seek_old_lines lines mode chunk l1) as [[[m|] pattern] rep] eqn:Ho; [ | done].
    apply seek_old_lines_range in Ho; [ | lia]. injection H as <- _ <-. cbn. split_and!; lia.
Qed.

(** Later replacements of the derivation relative to an earlier one. *)
Definition placed (x y : Replacement) : Prop := before x y \/ (before y x /\ rp_old_len x = 0).

Lemma derive_chunks_placed lines path mode k chunks l rs ms :
  derive_chunks lines path mode k chunks l = Ok (rs, ms) -> l <= length lines ->
  Forall (fun r => rp_end r <= length lines /\ (l <= rp_start r \/ at_end (length lines) r)) rs
  /\ ForallOrdPairs placed rs.
Proof.
  revert k l rs ms. induction chunks as [|c chunks IH]; intros k l rs ms H Hl; cbn [derive_chunks] in H.
  - injection H as <- _. split; constructor.
  - destruct (derive_chunk lines path mode k c l) as [[[r cm] l']|] eqn:Hd; [ | done]. cbn in H.
    apply derive_chunk_range in Hd as (Hl' & Hend & Hr); [ | done].
    destruct (derive_chunks lines path mode (S k) chunks l') as [[rs' ms']|] eqn:Ht; [ | done].
    injection H as <- <-. apply IH in Ht as [Hall Hord]; [ | lia]. split.
    + constructor; [split; [done | destruct Hr as [[? _]|?]; auto] | ].
      eapply Forall_impl; [exact Hall | ]. intros y [Hy [?|?]]; (split; [done | ]); [left; lia | by right].
    + constructor; [ | done]. eapply List.Forall_impl; [ | apply List.Forall_forall; intros y Hy;
        rewrite Forall_forall in Hall; apply (Hall y); by apply list_elem_of_In].
      intros y [Hy Hyl]. unfold placed, before, at_end, rp_end in *. lia.
Qed.

(** ** Splicing *)

Lemma elem_of_insert_by_start (x z : Replacement) (rs : list Replacement) :
  z ∈ insert_by_start x rs <-> z = x \/ z ∈ rs.
Proof.
  induction rs as [|w rs IH]; cbn [insert_by_start]; [by rewrite elem_of_cons | ].
  destruct (Nat.leb _ _); rewrite !elem_of_cons, ?IH; tauto.
Qed.

Lemma insert_by_start_sorted (x : Replacement) (rs : list Replacement) :
  StronglySorted before rs -> Forall (placed x) rs -> StronglySorted before (insert_by_start x rs).
Proof.
  induction 1 as [|y rs Hs IH Hy]; intros Hp; cbn [insert_by_start]; [by repeat constructor | ].
  apply Forall_cons in Hp as [Hpy Hp].
  destruct (Nat.leb_spec (rp_start x) (rp_start y)) as [Hle|Hgt].
  - constructor; [by constructor | ]. constructor.
    + unfold placed, before, rp_end in *. lia.
    + rewrite Forall_forall in *. intros z Hz. specialize (Hp z Hz). specialize (Hy z Hz).
      unfold placed, before, rp_end in *. lia.
  - constructor; [by apply IH | ].
    apply Forall_forall. intros z [->|Hz]%elem_of_insert_by_start; [ | rewrite Forall_forall in Hy; by apply Hy].
    unfold placed, before, rp_end in *. lia.
Qed.

Lemma elem_of_sort_by_start (rs : list Replacement) (z : Replacement) :
  z ∈ sort_by_start rs <-> z ∈ rs.
Proof.
  induction rs as [|r rs IH]; [done | ].
  change (sort_by_start (r :: rs)) with (insert_by_start r (sort_by_start rs)).
  by rewrite elem_of_insert_by_start, elem_of_cons, IH.
Qed.

Lemma sort_by_start_sorted (rs : list Replacement) :
  ForallOrdPairs placed rs -> StronglySorted before (sort_by_start rs).
Proof.
  induction 1 as [|r rs Hr Hrs IH]; [constructor | ].
  change (sort_by_start (r :: rs)) with (insert_by_start r (sort_by_start rs)).
  apply insert_by_start_sorted; [done | ]. apply Forall_forall. intros z Hz. rewrite elem_of_sort_by_start in Hz. rewrite List.Forall_forall in Hr.
  apply Hr. by apply list_elem_of_In.
Qed.

(** The reference: one pass from left to right that copies the lines between
    replacements and puts each replacement in place of its range. *)
Fixpoint rebuild (lines : list str) (pos : nat) (rs : list Replacement) : list str :=
  match rs with
  | [] => drop pos lines
  | r :: rest => take (rp_start r - pos) (drop pos lines) ++ rp_lines r ++ rebuild lines (rp_end r) rest
  end.

Lemma splice_rev_cons lines r rs :
  splice_rev lines (r :: rs) = splice_rev lines rs ≫= fun ls => splice ls r.
Proof. unfold splice_rev. cbn [rev]. by rewrite fold_left_app. Qed.

Lemma splice_rev_rebuild (lines : list str) (rs : list Replacement) (pos : nat) :
  StronglySorted before rs -> Forall (fun r => pos <= rp_start r /\ rp_end r <= length lines) rs ->
  splice_rev lines rs = Some (take pos lines ++ rebuild lines pos rs).
Proof.
  revert pos. induction rs as [|r rs IH]; intros pos Hs Hb.
  - cbn. by rewrite take_drop.
  - inversion Hs as [|? ? Hs' Hr]; subst. apply Forall_cons in Hb as [[Hpos Hend] Hb].
    rewrite splice_rev_cons, (IH (rp_end r)); [ | done | ].
    + unfold rp_end in *. cbn [option_bind mbind]. unfold splice.
      rewrite length_app, length_take.
      replace (Nat.leb _ _) with true by (symmetry; apply Nat.leb_le; lia).
      cbn [rebuild]. f_equal. rewrite take_app_le by (rewrite length_take; lia).
      rewrite take_take, drop_app_length' by (rewrite length_take; lia).
      rewrite (app_assoc (take pos lines)), take_take_drop. f_equal. f_equal. lia.
    + rewrite Forall_forall in *. intros y Hy. specialize (Hr y Hy). specialize (Hb y Hy).
      unfold before in Hr. lia.
Qed.

(** Applying an update never panics: whatever the file, the chunks and the
    matching mode, the replacement ranges derived from the chunks are in bounds
    and disjoint, so every splice succeeds and the tool returns an updated file
    or a typed error. *)
Lemma derive_never_panics (original path : str) (chunks : list CodexPatchChunk)
  (mode : ApplyPatchMatchingMode) :
  exists r, derive_codex_patch_update_with_matching_mode original path chunks mode = Some r.
Proof.
  unfold derive_codex_patch_update_with_matching_mode.
  destruct (map_err _ (detect_apply_text_line_ending original)) as [le|e]; [ | by eexists]. cbn [result_bind].
  destruct (map_err _ (canonicalize_apply_text_line_endings original le)) as [text|e]; [ | by eexists].
  cbn [result_bind].
  destruct (derive_chunks (file_lines text) path mode 0 chunks 0) as [[rs ms]|e] eqn:Hd; [ | by eexists].
  cbn [result_bind]. apply derive_chunks_placed in Hd as [Hb Ho]; [ | lia].
  rewrite (splice_rev_rebuild _ _ 0); [by eexists | by apply sort_by_start_sorted | ].
  apply Forall_forall. intros r Hr. rewrite elem_of_sort_by_start in Hr.
  rewrite Forall_forall in Hb. destruct (Hb r Hr). lia.
Qed.

(** C36: The updated file is what one pass from left to right over the original
    lines produces: every line outside the chunks' ranges is kept, in order, and
    each range is replaced by its chunk's new lines; the result ends with a line
    feed and is written with the file's own line-ending convention. *)
Theorem derive_matches_reference (original path : str) (chunks : list CodexPatchChunk)
  (mode : ApplyPatchMatchingMode) (u : CodexPatchUpdate) :
  derive_codex_patch_update_with_matching_mode original path chunks mode = Some (Ok u) ->
  exists le canonical rs,
    detect_apply_text_line_ending original = Ok le
    /\ canonicalize_apply_text_line_endings original le = Ok canonical
    /\ derive_chunks (file_lines canonical) path mode 0 chunks 0 = Ok (rs, upd_chunk_matches u)
    /\ StronglySorted before (sort_by_start rs)
    /\ (forall r, r ∈ sort_by_start rs <-> r ∈ rs)
    /\ upd_content u
       = restore_apply_text_line_endings
           (join [LF] (rebuild (file_lines canonical) 0 (sort_by_start rs) ++ [[]])) le.
Proof.
  unfold derive_codex_patch_update_with_matching_mode.
  destruct (detect_apply_text_line_ending original) as [le|e]; [ | done]. cbn [map_err result_bind].
  destruct (canonicalize_apply_text_line_endings original le) as [text|e] eqn:Hc; [ | done].
  cbn [map_err result_bind].
  destruct (derive_chunks (file_lines text) path mode 0 chunks 0) as [[rs ms]|e] eqn:Hd; [ | done].
  cbn [result_bind]. pose proof Hd as Hp. apply derive_chunks_placed in Hp as [Hb Ho]; [ | lia].
  rewrite (splice_rev_rebuild _ _ 0); [ | by apply sort_by_start_sorted | ].
  - intros [= <-]. exists le, text, rs. split_and!; try done; [by apply sort_by_start_sorted | ].
    intros r. apply elem_of_sort_by_start.
  - apply Forall_forall. intros r Hr. rewrite elem_of_sort_by_start in Hr.
    rewrite Forall_forall in Hb. destruct (Hb r Hr). lia.
Qed.

Definition sample_file : str := lit "a" ++ [LF] ++ lit "b" ++ [LF] ++ lit "c".
Definition sample_update : CodexPatchUpdate :=
  mkUpdate (lit "a" ++ [LF] ++ lit "B" ++ [LF] ++ lit "c" ++ [LF] ++ lit "d" ++ [LF])
    [mkChunkMatch 0 None Append 4 None true true None;
     mkChunkMatch 1 (Some TrimEnd) OldLines 2 (Some 1) true false None].
Definition sample_chunks : list CodexPatchChunk :=
  [mkChunk None [] [lit "d"] false; mkChunk None [lit "b "] [lit "B"] false].

Lemma derive_matches_reference_witness : exists le canonical rs,
    detect_apply_text_line_ending sample_file = Ok le
    /\ canonicalize_apply_text_line_endings sample_file le = Ok canonical
    /\ derive_chunks (file_lines canonical) (lit "f") Unique 0 sample_chunks 0
       = Ok (rs, upd_chunk_matches sample_update)
    /\ StronglySorted before (sort_by_start rs)
    /\ (forall r, r ∈ sort_by_start rs <-> r ∈ rs)
    /\ upd_content sample_update
       = restore_apply_text_line_endings
           (join [LF] (rebuild (file_lines canonical) 0 (sort_by_start rs) ++ [[]])) le.
Proof.
  apply (derive_matches_reference sample_file (lit "f") sample_chunks Unique sample_update).
  vm_compute. reflexivity.
Defined.

(** ** Rejections *)

(** Whether a chunk match is acceptable to the requested mode. *)
Definition acceptable (mode : ApplyPatchMatchingMode) (cm : CodexPatchChunkMatch) : bool :=
  match mode with
  | FirstMatch => true
  | Unique => cm_unique_match cm
  | ExactUnique => cm_strict_match cm
  end.

Lemma match_rejection_fact_none m mode source n k :
  (k = 0 -> is_exact_unique m = true) -> k <= n ->
  is_none (match_rejection_fact m mode source n k) = mode_satisfied mode m.
Proof.
  intros Hk Hn. unfold match_rejection_fact.
  destruct (mode_satisfied mode m) eqn:Hs; [done | ]. cbn [orb].
  destruct (Nat.eqb_spec k 0) as [->|]; cbn [orb].
  - specialize (Hk eq_refl). unfold is_exact_unique in Hk. split_andb.
    destruct mode; simpl in Hs; unfold is_exact_unique, is_unique in Hs; [done | congruence | ].
    rewrite H, H0 in Hs. done.
  - by replace (Nat.ltb n k) with false by (symmetry; by apply Nat.ltb_ge).
Qed.

Lemma select_none a b :
  is_none (select_match_rejection a b) = is_none a && is_none b.
Proof.
  unfold select_match_rejection. destruct a as [x|], b as [y|]; cbn [omap list_omap List.find head]; try done;
    repeat case_match; done.
Qed.

Lemma seek_empty_unique lines start eof mode m :
  seek_sequence lines [] start eof mode = Some m -> is_exact_unique m = true.
Proof. intros [= <-]. done. Qed.

Lemma derive_chunk_rejection lines path mode k chunk l r cm l' :
  derive_chunk lines path mode k chunk l = Ok (r, cm, l') -> l <= length lines ->
  is_none (cm_match_rejection cm) = acceptable mode cm.
Proof.
  unfold derive_chunk. intros H Hl.
  destruct (seek_context lines path mode k chunk l) as [[ctx l1]|] eqn:Hc; [ | done].
  pose proof (seek_context_range _ _ _ _ _ _ _ _ Hc Hl) as [Hl1 _]. cbn in H.
  assert (Hctx : forall m, ctx = Some m -> 1 <= length lines).
  { intros m ->. unfold seek_context in Hc. destruct (change_context chunk); [ | done].
    destruct (seek_sequence _ _ _ _ _) as [m'|] eqn:Hm; [ | done].
    apply seek_sequence_range in Hm; [simpl in Hm; lia | done]. }
  destruct (is_empty (old_lines chunk)).
  - unfold insert_chunk in H. injection H as <- <- <-. destruct ctx as [m|]; cbn.
    + rewrite match_rejection_fact_none by (done || by eapply Hctx). by destruct mode.
    + by destruct mode.
  - unfold replace_chunk in H.
    destruct (seek_old_lines lines mode chunk l1) as [[[m|] pattern] rep] eqn:Ho; [ | done].
    pose proof (seek_old_lines_range _ _ _ _ _ _ _ Ho ltac:(lia)) as Hr.
    assert (Hempty : length pattern = 0 -> is_exact_unique m = true).
    { intros Hz. apply nil_length_inv in Hz as ->. unfold seek_old_lines in Ho.
      destruct (is_none _ && _); injection Ho as Hm Hp _; [rewrite Hp in Hm | rewrite Hp in Hm];
        by eapply seek_empty_unique. }
    injection H as _ <- _. cbn [cm_match_rejection acceptable cm_unique_match cm_strict_match].
    rewrite select_none, (match_rejection_fact_none m) by (done || lia).
    destruct mode; [done | done | ]. replace (ExactUnique ==? ExactUnique) with true by done.
    destruct ctx as [c|]; cbn [mbind option_bind mode_satisfied is_none_or]; [ | done].
    rewrite (match_rejection_fact_none c) by (done || by eapply Hctx). done.
Qed.

(** A chunk is rejected exactly when it does not meet the matching mode the
    caller asked for: never under [first_match], exactly when the mutation target
    is ambiguous under [unique], and exactly when some text match that positioned
    the chunk was not exact and unique under [exact_unique]. *)
Lemma rejection_iff_unacceptable (lines : list str) (path : str) (mode : ApplyPatchMatchingMode)
  (chunks : list CodexPatchChunk) (k l : nat) (rs : list Replacement) (ms : list CodexPatchChunkMatch) :
  derive_chunks lines path mode k chunks l = Ok (rs, ms) -> l <= length lines ->
  Forall (fun cm => cm_match_rejection cm = None <-> acceptable mode cm = true) ms.
Proof.
  revert k l rs ms. induction chunks as [|c chunks IH]; intros k l rs ms H Hl; cbn [derive_chunks] in H.
  - injection H as _ <-. constructor.
  - destruct (derive_chunk lines path mode k c l) as [[[r cm] l']|] eqn:Hd; [ | done]. cbn in H.
    destruct (derive_chunks lines path mode (S k) chunks l') as [[rs' ms']|] eqn:Ht; [ | done].
    injection H as <- <-. pose proof (derive_chunk_range _ _ _ _ _ _ _ _ _ Hd Hl) as [Hl' _].
    constructor; [ | eapply IH; [exact Ht | lia]].
    rewrite <- (derive_chunk_rejection _ _ _ _ _ _ _ _ _ Hd Hl).
    by destruct (cm_match_rejection cm).
Qed.

Lemma rejection_iff_unacceptable_witness :
  Forall (fun cm => cm_match_rejection cm = None <-> acceptable Unique cm = true)
    (upd_chunk_matches sample_update).
Proof.
  eapply (rejection_iff_unacceptable [lit "a"; lit "b"; lit "c"] (lit "f") Unique sample_chunks 0 0);
    [vm_compute; reflexivity | lia].
Defined.

(** ** Strict matches replace exactly the old lines *)

Definition replaced_lines (lines : list str) (r : Replacement) : list str :=
  take (rp_old_len r) (drop (rp_start r) lines).

Lemma matches_exact lines pattern i :
  i + length pattern <= length lines -> matches_at lines pattern i Exact = true ->
  take (length pattern) (drop i lines) = pattern.
Proof.
  intros Hlen. unfold matches_at.
  assert (Hl : length (take (length pattern) (drop i lines)) = length pattern)
    by (rewrite length_take, length_drop; lia).
  revert Hl. generalize (take (length pattern) (drop i lines)). clear.
  induction pattern as [|p ps IH]; intros [|x xs] Hl; simpl in *; try done.
  intros H. split_andb. subst. f_equal. apply IH; [lia | done].
Qed.

Lemma seek_exact lines pattern start eof mode m :
  start <= length lines -> seek_sequence lines pattern start eof mode = Some m ->
  sm_mode m = Exact -> take (length pattern) (drop (sm_index m) lines) = pattern.
Proof.
  intros Hs Hm He. destruct (decide (pattern = [])) as [->|Hne]; [done | ].
  pose proof (seek_sequence_range _ _ _ _ _ _ Hs Hm) as [_ Hr].
  apply seek_sequence_candidate in Hm as [Hin _]; [ | done].
  apply elem_of_candidates in Hin as [_ Hin]. rewrite He in Hin. by apply matches_exact.
Qed.

(** A replacement chunk that matched strictly overwrites exactly the lines
    its patch names: the replaced lines are the chunk's old lines, or the old
    lines without the final empty line the search may drop. *)
Lemma strict_match_replaces_old_lines (lines : list str) (path : str) (mode : ApplyPatchMatchingMode)
  (k l l' : nat) (chunk : CodexPatchChunk) (r : Replacement) (cm : CodexPatchChunkMatch) :
  derive_chunk lines path mode k chunk l = Ok (r, cm, l') -> l <= length lines ->
  cm_strict_match cm = true -> old_lines chunk <> [] ->
  replaced_lines lines r = old_lines chunk \/ replaced_lines lines r ++ [[]] = old_lines chunk.
Proof.
  unfold derive_chunk, replaced_lines. intros H Hl Hstrict Hold.
  destruct (seek_context lines path mode k chunk l) as [[ctx l1]|] eqn:Hc; [ | done].
  apply seek_context_range in Hc as [Hl1 _]; [ | done]. cbn [result_bind] in H.
  replace (is_empty (old_lines chunk)) with false in H by (by destruct (old_lines chunk)).
  unfold replace_chunk in H.
  destruct (seek_old_lines lines mode chunk l1) as [[[m|] pattern] rep] eqn:Ho; [ | done].
  injection H as <- <- <-. cbn in *. apply andb_true_iff in Hstrict as [_ Hstrict].
  unfold is_exact_unique in Hstrict. split_andb. unfold seek_old_lines in Ho.
  destruct (is_none _ && _) eqn:Hdrop; injection Ho as Hm <- _.
  - right. rewrite (seek_exact _ _ _ _ _ _ (proj2 Hl1) Hm) by done. split_andb.
    unfold ends_with_empty_line in *. destruct (last (old_lines chunk)) as [x|] eqn:El; [ | done].
    destruct x; [ | done]. apply last_snoc_inv in El as [ks ->]. by rewrite removelast_last.
  - left. by rewrite (seek_exact _ _ _ _ _ _ (proj2 Hl1) Hm).
Qed.

Lemma strict_match_replaces_old_lines_witness :
  let r := mkReplacement 1 1 [lit "B"] in
  replaced_lines [lit "a"; lit "b"; lit "c"] r = [lit "b"; []]
  \/ replaced_lines [lit "a"; lit "b"; lit "c"] r ++ [[]] = [lit "b"; []].
Proof.
  eapply (strict_match_replaces_old_lines [lit "a"; lit "b"; lit "c"] (lit "f") ExactUnique 0 0 2
            (mkChunk (Some (lit "a")) [lit "b"; []] [lit "B"] false) (mkReplacement 1 1 [lit "B"]));
    [vm_compute; reflexivity | simpl; lia | reflexivity | done].
Defined.

(** ** The diagnostic *)

Lemma score_ordered lines pattern i :
  let s := score_at lines pattern i in
  sc_exact s <= sc_trim_end s <= sc_trim s /\ sc_trim s <= length pattern.
Proof.
  unfold score_at. cbn. generalize (drop i lines). induction pattern as [|p ps IH]; intros [|x xs]; simpl;
    try lia. specialize (IH xs).
  assert (H1 : (x ==? p) = true -> (trim_end x ==? trim_end p) = true)
    by (intros ->%beq_true; apply beq_refl).
  assert (H2 : (trim_end x ==? trim_end p) = true -> (trim x ==? trim p) = true)
    by (intros H%beq_true; rewrite !trim_comm, H; apply beq_refl).
  destruct (x ==? p), (trim_end x ==? trim_end p), (trim x ==? trim p); simpl;
    try lia; exfalso; auto; by discriminate H1 || by discriminate H2.
Qed.

Lemma best_step_index lines pattern hc idxs (acc : option (nat * LineScore)) i s :
  fold_left (best_step lines pattern hc) idxs acc = Some (i, s) ->
  acc = Some (i, s) \/ (i ∈ idxs /\ s = score_at lines pattern i).
Proof.
  revert acc. induction idxs as [|j idxs IH]; intros acc H; cbn [fold_left] in H; [by left | ].
  apply IH in H as [H|[H1 H2]]; [ | right; split; [by right | done]].
  unfold best_step in H. destruct (_ && _); [by left | ].
  destruct (is_none_or _ acc); [ | by left]. injection H as <- <-. right. split; [by left | done].
Qed.

(** The body-free diagnostic of a failed search is consistent: its closest
    start line lies inside the searched range, and its three match counts are
    ordered by strictness and never exceed the pattern's length. *)
Lemma diagnostic_consistent (lines pattern : list str) (start chunk_index : nat)
  (source : CodexPatchMatchSource) :
  let d := diagnose_sequence_miss lines pattern start chunk_index source in
  diag_closest_exact_line_matches d <= diag_closest_trim_end_line_matches d
  /\ diag_closest_trim_end_line_matches d <= diag_closest_trim_line_matches d
  /\ diag_closest_trim_line_matches d <= diag_expected_line_count d
  /\ (forall n, diag_closest_start_line d = Some n ->
        diag_search_start_line d <= n < diag_search_start_line d + diag_available_line_count d)
  /\ (forall n, diag_first_exact_mismatch_offset d = Some n -> 1 <= n <= diag_expected_line_count d).
Proof.
  unfold diagnose_sequence_miss. cbn zeta.
  destruct (fold_left _ _ None) as [[i s]|] eqn:Hf; cbn.
  - apply best_step_index in Hf as [Hf|[Hin ->]]; [done | ].
    pose proof (score_ordered lines pattern i) as Hs. cbn zeta in Hs.
    apply list_elem_of_In, in_seq in Hin. do 3 (split; [lia | ]). split.
    + intros n [= <-]. lia.
    + intros n Hn. destruct (List.find _ _) as [o|] eqn:Ho; [ | done]. injection Hn as <-.
      apply find_some in Ho as [Ho _]. apply in_seq in Ho. lia.
  - do 3 (split; [lia | ]). split; [done | ]. intros n Hn. destruct pattern; [done | ]. injection Hn as <-. simpl. lia.
Qed.
