(* ===== verification/Lifecycle.v ===== *)
(** * Lifecycle: crates/webcodex-core/src/runner_job_lifecycle.rs and
    crates/webcodex-runner-registry/src/job_status.rs

    The Runner Job wire lifecycle and the Registry's public activity test. *)
From S2P Require Import Prelude RustStr.

Inductive RunnerJobLifecycle : Type :=
| Queued
| RunnerQueued
| StartedLegacy
| Running
| StopRequested
| Completed
| Failed
| Stopped
| Timeout
| TimedOut
| Lost
| Cancelled.

#[export] Instance RunnerJobLifecycle_eq_dec : EqDecision RunnerJobLifecycle.
Proof. solve_decision. Defined.

Definition from_wire (status : str) : result RunnerJobLifecycle str :=
  if status ==? lit "queued" then Ok Queued
  else if status ==? lit "agent_queued" then Ok RunnerQueued
  else if status ==? lit "started" then Ok StartedLegacy
  else if status ==? lit "running" then Ok Running
  else if status ==? lit "stop_requested" then Ok StopRequested
  else if status ==? lit "completed" then Ok Completed
  else if status ==? lit "failed" then Ok Failed
  else if status ==? lit "stopped" then Ok Stopped
  else if status ==? lit "timeout" then Ok Timeout
  else if status ==? lit "timed_out" then Ok TimedOut
  else if status ==? lit "lost" then Ok Lost
  else if status ==? lit "cancelled" then Ok Cancelled
  else Err (lit "unknown Runner Job lifecycle status: " ++ status).

Definition as_wire (l : RunnerJobLifecycle) : str :=
  match l with
  | Queued => lit "queued"
  | RunnerQueued => lit "agent_queued"
  | StartedLegacy => lit "started"
  | Running => lit "running"
  | StopRequested => lit "stop_requested"
  | Completed => lit "completed"
  | Failed => lit "failed"
  | Stopped => lit "stopped"
  | Timeout => lit "timeout"
  | TimedOut => lit "timed_out"
  | Lost => lit "lost"
  | Cancelled => lit "cancelled"
  end.

Definition is_terminal (l : RunnerJobLifecycle) : bool :=
  match l with
  | Completed | Failed | Stopped | Timeout | TimedOut | Lost | Cancelled => true
  | _ => false
  end.

Definition is_runner_active (l : RunnerJobLifecycle) : bool :=
  match l with
  | RunnerQueued | Running | StopRequested => true
  | _ => false
  end.

Definition is_active (l : RunnerJobLifecycle) : bool :=
  match l with
  | Queued | StartedLegacy => true
  | _ => is_runner_active l
  end.

Definition is_timed_out (l : RunnerJobLifecycle) : bool :=
  match l with
  | Timeout | TimedOut => true
  | _ => false
  end.

(** [RunnerJobLifecycle::from_wire(status).is_ok_and(p)]. *)
Definition wire_is (p : RunnerJobLifecycle -> bool) (status : str) : bool :=
  match from_wire status with
  | Ok l => p l
  | Err _ => false
  end.

Definition job_status_is_active (status : str) : bool :=
  (status ==? lit "recovering") || wire_is is_active status.

(** ** The vocabulary *)

Lemma from_as_wire (l : RunnerJobLifecycle) : from_wire (as_wire l) = Ok l.
Proof. by destruct l. Qed.

Lemma from_wire_ok (status : str) (l : RunnerJobLifecycle) :
  from_wire status = Ok l -> status = as_wire l.
Proof.
  unfold from_wire. intros H.
  repeat match type of H with
  | (if ?b then _ else _) = _ =>
      let E := fresh in destruct b eqn:E; [apply beq_true in E; by injection H as <- | clear E]
  end.
  done.
Qed.

Lemma terminal_not_active (l : RunnerJobLifecycle) : is_terminal l = negb (is_active l).
Proof. by destruct l. Qed.

(** The wire vocabulary is exact: parsing accepts precisely the twelve
    spellings that printing emits, each lifecycle value is either terminal or
    active and never both, and the Registry calls a public status active exactly
    when it is [recovering] or the spelling of an active lifecycle value. *)
Lemma lifecycle_wire_exact (status : str) :
  (forall l, from_wire status = Ok l <-> status = as_wire l)
  /\ (forall l, is_terminal l = negb (is_active l))
  /\ (job_status_is_active status = true
      <-> status = lit "recovering" \/ exists l, is_terminal l = false /\ status = as_wire l).
Proof.
  split_and!.
  - intros l. split; [apply from_wire_ok | intros ->; apply from_as_wire].
  - apply terminal_not_active.
  - unfold job_status_is_active, wire_is. rewrite orb_true_iff, beq_eq.
    apply or_iff_compat_l. split.
    + destruct (from_wire status) as [l|e] eqn:E; [ | done]. intros Ha. exists l.
      rewrite terminal_not_active, Ha. split; [done | by apply from_wire_ok].
    + intros (l & Hl & ->). rewrite from_as_wire. rewrite terminal_not_active in Hl.
      by apply negb_false_iff.
Qed.
