(* ===== verification/Policy.v ===== *)
(** * Policy: the shared authority, path, text and quoting policies of
    crates/webcodex-core/src

    [authority.rs] (project-grant and project-share identities),
    [sensitive_paths.rs] with [is_sensitive_edit_path] of
    [apply_edits_shared.rs], [sensitive_text.rs], [audit_preview.rs],
    [artifact_policy.rs] and [shell_quote.rs].  Unicode tables of the standard
    library ([str::to_lowercase], [char::is_alphanumeric]) are parameters; what
    is used of them is that lowercasing ASCII text is ASCII lowercasing. *)
From S2P Require Import Prelude RustStr.

(** ** authority.rs *)
Module Authority.

Definition PROJECT_GRANT_ID_PREFIX : str := lit "wc_pgrant_".
Definition PROJECT_SHARE_OAUTH_SUBJECT_KIND : str := lit "project_share".
Definition PROJECT_SHARE_SESSION_PREFIX : str := lit "wc_share_".

Definition validate_project_grant_id (value : str) : result unit str :=
  let suffix := default [] (strip_prefix PROJECT_GRANT_ID_PREFIX value) in
  bail? negb (Z.eqb (str_len suffix) 24)
        || negb (forallb (fun byte => is_ascii_hexdigit byte && negb (is_ascii_uppercase byte))
                   (as_bytes suffix))
    with lit "configured project grant identity is invalid" ;;
  Ok tt.

Definition validate_project_share_session_id (value : str) : result unit str :=
  let suffix := default [] (strip_prefix PROJECT_SHARE_SESSION_PREFIX value) in
  bail? negb (Z.eqb (str_len suffix) 64)
        || negb (forallb (fun byte => is_ascii_digit byte || ((97 <=? byte)%N && (byte <=? 102)%N))
                   (as_bytes suffix))
    with lit "configured project share session identity is invalid" ;;
  Ok tt.

Definition BAR : char := 124.

Definition project_share_subject_id (project_grant_id session_id : str) : result str str :=
  check? validate_project_grant_id project_grant_id ;;
  check? validate_project_share_session_id session_id ;;
  Ok (project_grant_id ++ [BAR] ++ session_id).

Definition parse_project_share_subject_id (value : str) : result (str * str) str :=
  let? parts := ok_or (split_once BAR value) (lit "project-share OAuth subject is malformed") in
  let '(grant_id, session_id) := parts in
  bail? contains_char BAR session_id with lit "project-share OAuth subject is malformed" ;;
  check? validate_project_grant_id grant_id ;;
  check? validate_project_share_session_id session_id ;;
  Ok (grant_id, session_id).

Lemma validated_no_bar (prefix value : str) (n : Z) (p : N -> bool) :
  BAR ∉ prefix -> p BAR = false -> n <> 0%Z ->
  let suffix := default [] (strip_prefix prefix value) in
  negb (Z.eqb (str_len suffix) n) || negb (forallb p (as_bytes suffix)) = false ->
  BAR ∉ value.
Proof.
  intros Hpre Hp Hn suffix H. unfold suffix in H. split_andb.
  destruct (strip_prefix prefix value) as [r|] eqn:E; cbn [default] in *.
  - apply strip_prefix_spec in E as ->. rewrite not_elem_of_app. split; [done | ].
    intros Hin. apply (proj2 (as_bytes_ascii r BAR ltac:(done))) in Hin.
    rewrite forallb_forall in H0. rewrite (H0 BAR) in Hp; [done | by apply list_elem_of_In].
  - apply Z.eqb_eq in H. simpl in H. congruence.
Qed.

Lemma grant_no_bar (g : str) : validate_project_grant_id g = Ok tt -> BAR ∉ g.
Proof.
  unfold validate_project_grant_id. intros H. step_guards H.
  apply (validated_no_bar PROJECT_GRANT_ID_PREFIX) in Hguard; [done | | done | done].
  intros Hc%contains_char_spec. by vm_compute in Hc.
Qed.

Lemma session_no_bar (s : str) : validate_project_share_session_id s = Ok tt -> BAR ∉ s.
Proof.
  unfold validate_project_share_session_id. intros H. step_guards H.
  apply (validated_no_bar PROJECT_SHARE_SESSION_PREFIX) in Hguard; [done | | done | done].
  intros Hc%contains_char_spec. by vm_compute in Hc.
Qed.

Lemma split_once_first (c : char) (a b : str) : c ∉ a -> split_once c (a ++ [c] ++ b) = Some (a, b).
Proof.
  induction a as [|x a IH]; intros H; cbn [app split_once].
  - by rewrite N.eqb_refl.
  - apply not_elem_of_cons in H as [Hx Ha]. destruct (N.eqb_spec x c); [congruence | ].
    cbn [app] in IH. by rewrite IH.
Qed.

Lemma split_once_inv (c : char) (s a b : str) : split_once c s = Some (a, b) -> s = a ++ [c] ++ b.
Proof.
  revert a b. induction s as [|x s IH]; intros a b; cbn [split_once]; [done | ].
  destruct (N.eqb_spec x c) as [->|]; [by intros [= <- <-] | ].
  destruct (split_once c s) as [[a' b']|]; [ | done]. intros [= <- <-]. by rewrite (IH a' b').
Qed.

(** Project-share OAuth subjects round-trip: a subject text parses to a
    grant and a session exactly when it is the subject built from that valid
    grant and that valid session, so no text names two pairs and no pair is
    accepted from a text other than its own. *)
Lemma project_share_subject_roundtrip (grant_id session_id value : str) :
  parse_project_share_subject_id value = Ok (grant_id, session_id)
  <-> project_share_subject_id grant_id session_id = Ok value.
Proof.
  unfold parse_project_share_subject_id, project_share_subject_id. split.
  - destruct (split_once BAR value) as [[g s]|] eqn:E; [ | done]. cbn [ok_or result_bind].
    destruct (contains_char BAR s) eqn:Hb; [done | ].
    destruct (validate_project_grant_id g) as [[]|] eqn:Hg; [ | done].
    destruct (validate_project_share_session_id s) as [[]|] eqn:Hs; [ | done].
    intros [= <- <-]. rewrite Hg, Hs. cbn. f_equal. symmetry. by apply split_once_inv.
  - destruct (validate_project_grant_id grant_id) as [[]|] eqn:Hg; [ | done].
    destruct (validate_project_share_session_id session_id) as [[]|] eqn:Hs; [ | done].
    intros [= <-]. apply grant_no_bar in Hg as Hng. apply session_no_bar in Hs as Hns.
    change (BAR :: session_id) with ([BAR] ++ session_id). rewrite split_once_first by done.
    cbn [ok_or result_bind]. replace (contains_char BAR session_id) with false.
    { by rewrite Hg, Hs. }
    symmetry. apply not_true_iff_false. by rewrite contains_char_spec.
Qed.

End Authority.

(** ** shell_quote.rs *)
Module ShellQuote.

Definition QUOTE : char := 39.

Definition shell_escape_simple (value : str) : str :=
  fold_left (fun out character =>
    if N.eqb character QUOTE then out ++ lit "'\''" else out ++ [character]) value (lit "'")
  ++ [QUOTE].

(** The POSIX reading of quotes and backslashes in one word: inside single
    quotes every character but the quote is itself; outside, a backslash takes
    the next character literally, and a blank, an operator or a character with
    a meaning of its own to the shell stops the reader.  [None] is an
    unterminated word. *)
Definition ends_word (c : char) : bool :=
  is_whitespace c || existsb (N.eqb c) (lit ";&|<>()$`#*?[~=%!{").

Fixpoint sh_word (quoted : bool) (s : str) (acc : str) : option (str * str) :=
  match s with
  | [] => if quoted then None else Some (acc, [])
  | c :: rest =>
      if quoted then
        if N.eqb c QUOTE then sh_word false rest acc else sh_word true rest (acc ++ [c])
      else if N.eqb c QUOTE then sh_word true rest acc
      else if N.eqb c 92 then
        match rest with
        | d :: rest' => sh_word false rest' (acc ++ [d])
        | [] => None
        end
      else if ends_word c then Some (acc, s)
      else sh_word false rest (acc ++ [c])
  end.

Fixpoint escape_chars (value : str) : str :=
  match value with
  | [] => []
  | c :: rest => (if N.eqb c QUOTE then lit "'\''" else [c]) ++ escape_chars rest
  end.

Lemma shell_escape_chars (value : str) :
  shell_escape_simple value = [QUOTE] ++ escape_chars value ++ [QUOTE].
Proof.
  unfold shell_escape_simple. change (lit "'") with [QUOTE].
  assert (H : forall acc, fold_left (fun out c => if N.eqb c QUOTE then out ++ lit "'\''" else out ++ [c])
                            value acc = acc ++ escape_chars value).
  { induction value as [|c value IH]; intros acc; cbn [fold_left escape_chars]; [by rewrite app_nil_r | ].
    rewrite IH. by destruct (N.eqb c QUOTE); rewrite <- app_assoc. }
  rewrite H. by rewrite <- app_assoc.
Qed.

Lemma sh_word_escaped (value rest acc : str) :
  sh_word true (escape_chars value ++ rest) acc = sh_word true rest (acc ++ value).
Proof.
  revert acc. induction value as [|c value IH]; intros acc; cbn [escape_chars]; [by rewrite app_nil_r | ].
  rewrite <- app_assoc. destruct (N.eqb_spec c QUOTE) as [->|Hc].
  - change (lit "'\''") with [QUOTE; 92%N; QUOTE; QUOTE]. cbn [app sh_word].
    replace (N.eqb QUOTE QUOTE) with true by done. replace (N.eqb 92 QUOTE) with false by done.
    replace (N.eqb 92 92) with true by done. rewrite IH. by rewrite <- app_assoc.
  - cbn [app sh_word]. apply N.eqb_neq in Hc. rewrite Hc, IH. by rewrite <- app_assoc.
Qed.

(** A quoted value is one shell word that reads back as exactly that value,
    whatever the value holds: when the shell reads it, followed by nothing or by
    a character that stops the reader, the word is the value and nothing of the value
    is left for the shell to interpret. *)
Lemma shell_escape_roundtrip (value rest : str) :
  sh_word false (shell_escape_simple value) [] = Some (value, [])
  /\ (forall c, ends_word c = true ->
        sh_word false (shell_escape_simple value ++ c :: rest) [] = Some (value, c :: rest)).
Proof.
  rewrite shell_escape_chars.
  assert (H : forall tail, sh_word false (([QUOTE] ++ escape_chars value ++ [QUOTE]) ++ tail) []
                           = sh_word false tail value).
  { intros tail. rewrite <- !app_assoc. cbn [app sh_word]. replace (N.eqb QUOTE QUOTE) with true by done.
    rewrite sh_word_escaped. cbn [app sh_word]. by replace (N.eqb QUOTE QUOTE) with true by done. }
  split.
  - specialize (H []). rewrite app_nil_r in H. by rewrite H.
  - intros c Hc. rewrite H. cbn [sh_word].
    assert (Hq : c <> QUOTE /\ c <> 92%N) by (split; intros ->; by vm_compute in Hc).
    destruct Hq as [H1 H2]. apply N.eqb_neq in H1, H2. by rewrite H1, H2, Hc.
Qed.

End ShellQuote.

(** ** sensitive_paths.rs *)
Module SensitivePaths.

Definition SECRET_COMPONENTS : list str :=
  [lit ".git"; lit "secrets"; lit "tokens"; lit "project-registry"; lit "projects.d"].
Definition SECRET_PREFIXES : list str :=
  [lit ".env"; lit "runner.toml"; lit "agent.toml"; lit "webcodex.env"].
Definition SECRET_SUFFIXES : list str := [lit ".pem"; lit ".key"; lit ".env"; lit ".toml.bak"].
Definition BULK_COMPONENTS : list str := [lit "target"; lit "node_modules"].

Definition str_in (s : str) (l : list str) : bool := existsb (fun x => x ==? s) l.

Definition SLASH : char := 47.
Definition BACKSLASH : char := 92.
Definition is_separator (c : char) : bool := N.eqb c SLASH || N.eqb c BACKSLASH.

Definition secret_component (component : str) : bool :=
  str_in component SECRET_COMPONENTS
  || existsb (fun prefix => starts_with prefix component) SECRET_PREFIXES
  || existsb (fun suffix => ends_with suffix component) SECRET_SUFFIXES.

Definition real_component (component : str) : bool :=
  negb (is_empty component) && (component !=? lit ".") && (component !=? lit "..").

Definition is_ascii (s : str) : Prop := Forall (fun c => (c < 128)%N) s.

Section Lowercase.
Context (to_lowercase : str -> str).

Definition path_components (path : str) : list str :=
  map to_lowercase (List.filter real_component (split_on is_separator path)).

Definition is_secret_path (path : str) : bool := existsb secret_component (path_components path).

Definition is_bulk_excluded_path (path : str) : bool :=
  existsb (fun component => str_in component BULK_COMPONENTS) (path_components path).

Definition is_bulk_skipped_path (path : str) : bool :=
  is_secret_path path || is_bulk_excluded_path path.

Definition is_sensitive_edit_path (path : str) : bool :=
  is_secret_path path || is_bulk_excluded_path path.

Definition has_glob_meta (component : str) : bool :=
  existsb (fun c => existsb (N.eqb c) (lit "*?[]")) component.

Definition glob_targets_protected_path (glob : str) : bool :=
  let normalized := default glob (strip_prefix (lit "./") glob) in
  let lowered := to_lowercase normalized in
  let last_piece := default lowered (last (split_char SLASH lowered)) in
  if existsb (fun prefix => starts_with prefix last_piece) SECRET_PREFIXES
     || existsb (fun suffix => ends_with suffix last_piece) SECRET_SUFFIXES
  then true
  else existsb (fun component => secret_component component || str_in component BULK_COMPONENTS)
         (List.filter (fun component => negb (has_glob_meta component)) (split_char SLASH lowered)).

Lemma split_on_app (p : char -> bool) (c : char) (a b : str) :
  p c = true -> split_on p (a ++ c :: b) = split_on p a ++ split_on p b.
Proof.
  intros Hc. induction a as [|x a IH]; cbn [app split_on]; [by rewrite Hc | ].
  rewrite IH. destruct (p x); [done | ].
  pose proof (split_on_nonempty p a). by destruct (split_on p a).
Qed.

Lemma path_components_app (c : char) (a b : str) :
  is_separator c = true -> path_components (a ++ c :: b) = path_components a ++ path_components b.
Proof.
  intros Hc. unfold path_components. rewrite split_on_app by done. by rewrite List.filter_app, map_app.
Qed.

(** The path policy works on whole components: joining two paths with either
    separator is protected exactly when one of them is, so everything below a
    protected directory is protected and no harmless prefix hides a protected
    name; the policy for edits covers the one for reads. *)
Lemma path_policy_by_component (parent child : str) (sep : char) :
  is_separator sep = true ->
  is_secret_path (parent ++ sep :: child) = is_secret_path parent || is_secret_path child
  /\ is_bulk_excluded_path (parent ++ sep :: child)
     = is_bulk_excluded_path parent || is_bulk_excluded_path child
  /\ is_sensitive_edit_path (parent ++ sep :: child)
     = is_sensitive_edit_path parent || is_sensitive_edit_path child.
Proof.
  intros Hc. unfold is_sensitive_edit_path, is_secret_path, is_bulk_excluded_path.
  rewrite path_components_app, !existsb_app by done. split_and!; [done | done | ].
  by rewrite <- !orb_assoc, (orb_assoc (existsb _ (path_components child))),
    (orb_comm (existsb _ (path_components child))), !orb_assoc.
Qed.

Context (Hascii : forall s, is_ascii s -> to_lowercase s = to_ascii_lowercase s).

Lemma ascii_lower_separator (c : char) : is_separator (ascii_lower c) = is_separator c.
Proof.
  unfold ascii_lower. destruct (is_ascii_uppercase c) eqn:E; [ | done].
  unfold is_ascii_uppercase in E. split_andb. apply N.leb_le in H, H0.
  unfold is_separator, SLASH, BACKSLASH.
  assert (Hle : (65 <= c <= 90)%N) by (change 65%N with 65%N; lia).
  destruct (N.eqb_spec (c + 32) 47), (N.eqb_spec (c + 32) 92), (N.eqb_spec c 47), (N.eqb_spec c 92);
    simpl; lia || done.
Qed.

Lemma split_on_map (p : char -> bool) (f : char -> char) (s : str) :
  (forall c, p (f c) = p c) -> split_on p (map f s) = map (map f) (split_on p s).
Proof.
  intros Hp. induction s as [|c s IH]; cbn [map split_on]; [done | ].
  rewrite Hp, IH. destruct (p c); [done | ]. by destruct (split_on p s).
Qed.

Lemma split_on_ascii (p : char -> bool) (s : str) : is_ascii s -> Forall is_ascii (split_on p s).
Proof.
  unfold is_ascii. induction 1 as [|c s Hc Hs IH]; cbn [split_on]; [by repeat constructor | ].
  destruct (p c); [by constructor | ].
  destruct (split_on p s); [by repeat constructor | ]. inversion IH; subst. by repeat constructor.
Qed.

Lemma ascii_lower_low (c d : char) : (d < 65)%N -> ascii_lower c = d <-> c = d.
Proof.
  intros Hd. unfold ascii_lower. destruct (is_ascii_uppercase c) eqn:E; [ | done].
  unfold is_ascii_uppercase in E. split_andb. apply N.leb_le in H, H0. split; intros; lia.
Qed.

Lemma ascii_lower_idem (c : char) : ascii_lower (ascii_lower c) = ascii_lower c.
Proof.
  unfold ascii_lower at 2 3. destruct (is_ascii_uppercase c) eqn:E; [ | unfold ascii_lower; by rewrite E].
  unfold is_ascii_uppercase in E. split_andb. apply N.leb_le in H, H0.
  unfold ascii_lower, is_ascii_uppercase. destruct (N.leb_spec 65 (c + 32)), (N.leb_spec (c + 32) 90);
    simpl; lia || done.
Qed.

Lemma lower_eq_low (s t : str) :
  Forall (fun d => (d < 65)%N) t -> to_ascii_lowercase s = t <-> s = t.
Proof.
  intros Ht. revert s. induction Ht as [|d t Hd Ht IH]; intros [|c s]; simpl; try done.
  split; intros [= H1 H2].
  - apply (proj1 (ascii_lower_low c d Hd)) in H1. apply (proj1 (IH s)) in H2. congruence.
  - subst. f_equal; [by apply ascii_lower_low | by apply IH].
Qed.

Lemma real_component_lower (s : str) : real_component (to_ascii_lowercase s) = real_component s.
Proof.
  assert (Hdot : forall t, Forall (fun d => (d < 65)%N) t -> (to_ascii_lowercase s ==? t) = (s ==? t)).
  { intros t Ht. apply eq_true_iff_eq. rewrite !beq_eq. by apply lower_eq_low. }
  unfold real_component. rewrite !Hdot by (by repeat constructor).
  by destruct s.
Qed.

Lemma filter_map_stable (p : str -> bool) (f : str -> str) (l : list str) :
  (forall x, p (f x) = p x) -> List.filter p (map f l) = map f (List.filter p l).
Proof. intros Hp. induction l as [|x l IH]; simpl; [done | ]. rewrite Hp, IH. by destruct (p x). Qed.

Lemma path_components_lower (path : str) :
  is_ascii path -> path_components path = map to_ascii_lowercase (List.filter real_component (split_on is_separator path)).
Proof.
  intros Hp. unfold path_components. apply map_ext_in. intros c Hc. apply Hascii.
  apply filter_In in Hc as [Hc _]. pose proof (split_on_ascii is_separator path Hp) as Hall.
  rewrite Forall_forall in Hall. apply Hall. by apply list_elem_of_In.
Qed.

Lemma path_components_case (p q : str) :
  is_ascii p -> is_ascii q -> to_ascii_lowercase p = to_ascii_lowercase q ->
  path_components p = path_components q.
Proof.
  intros Hp Hq Heq. rewrite !path_components_lower by done.
  rewrite <- !(filter_map_stable _ to_ascii_lowercase) by apply real_component_lower.
  unfold to_ascii_lowercase at 1 2.
  rewrite <- !(split_on_map is_separator ascii_lower) by apply ascii_lower_separator.
  unfold to_ascii_lowercase in Heq. by rewrite Heq.
Qed.

(** The path policy ignores case: two ASCII paths that differ only in letter
    case get the same verdict from every predicate. *)
Lemma path_policy_case_insensitive (p q : str) :
  is_ascii p -> is_ascii q -> to_ascii_lowercase p = to_ascii_lowercase q ->
  is_secret_path p = is_secret_path q
  /\ is_bulk_excluded_path p = is_bulk_excluded_path q
  /\ is_sensitive_edit_path p = is_sensitive_edit_path q
  /\ is_bulk_skipped_path p = is_bulk_skipped_path q.
Proof.
  intros Hp Hq Heq.
  unfold is_sensitive_edit_path, is_bulk_skipped_path, is_secret_path, is_bulk_excluded_path.
  by rewrite (path_components_case p q).
Qed.

End Lowercase.

Lemma path_policy_by_component_witness :
  is_secret_path to_ascii_lowercase (lit "a/.Git" ++ SLASH :: lit "HEAD") = true.
Proof.
  destruct (path_policy_by_component to_ascii_lowercase (lit "a/.Git") (lit "HEAD") SLASH eq_refl) as [H _].
  rewrite H. reflexivity.
Defined.

Lemma path_policy_case_insensitive_witness :
  is_secret_path to_ascii_lowercase (lit "deploy\ID_RSA.PEM") = true.
Proof.
  destruct (path_policy_case_insensitive to_ascii_lowercase (fun s _ => eq_refl)
              (lit "deploy\ID_RSA.PEM") (lit "deploy\id_rsa.pem")) as [H _];
    [by repeat constructor | by repeat constructor | reflexivity | ].
  rewrite H. reflexivity.
Defined.

End SensitivePaths.

(** ** sensitive_text.rs and audit_preview.rs *)
Module Preview.

Definition WEBCODEX_SECRET_PREFIXES : list str :=
  [lit "wc_pat_"; lit "wc_agent_"; lit "wc_acct_"; lit "wc_oat_"; lit "wc_ort_"; lit "wc_csec_";
   lit "wc_pair_"; lit "wc_boot_"].

Definition secret_like_value (value : str) : bool :=
  let lower := to_ascii_lowercase value in
  str_contains (lit "-----begin") lower
  || str_contains (lit "bearer ") lower
  || str_contains (lit "api_key") lower
  || str_contains (lit "token=") lower
  || str_contains (lit "id_rsa") lower
  || str_contains (lit "id_ed25519") lower
  || existsb (fun prefix => str_contains prefix lower) WEBCODEX_SECRET_PREFIXES.

Definition COMMAND_PREVIEW_MAX_CHARS : nat := 120.
Definition ELLIPSIS : char := 0x2026.
Definition REPLACEMENT : char := 0xFFFD.

Definition command_preview (command : str) : str :=
  let first_line := trim (default [] (head (str_lines command))) in
  if secret_like_value first_line then lit "[redacted]"
  else if Nat.leb (length first_line) COMMAND_PREVIEW_MAX_CHARS then first_line
  else take COMMAND_PREVIEW_MAX_CHARS first_line ++ [ELLIPSIS].

(** The [push] closure: the summary, and whether the character was taken. *)
Definition push (summary : str) (character : char) : str * bool :=
  if Nat.leb COMMAND_PREVIEW_MAX_CHARS (length summary) then (summary, false)
  else (summary ++ [character], true).

(** Continues unless a push was refused, which ends the summary. *)
Definition and_then (r : str * bool) (k : str -> str * bool) : str * bool :=
  if r.2 then k r.1 else r.

Definition push_char (simple : bool) (summary : str) (character : char) : str * bool :=
  if N.eqb character 34 then and_then (push summary 92) (fun s => push s 34)
  else if N.eqb character 92 && negb simple then and_then (push summary 92) (fun s => push s 92)
  else push summary (if is_control character then REPLACEMENT else character).

Fixpoint push_chars (simple : bool) (summary : str) (value : str) : str * bool :=
  match value with
  | [] => (summary, true)
  | c :: rest => and_then (push_char simple summary c) (fun s => push_chars simple s rest)
  end.

Section Alphanumeric.
Context (is_alphanumeric : char -> bool).

Definition simple_value (value : str) : bool :=
  negb (is_empty value)
  && forallb (fun c => is_alphanumeric c || existsb (N.eqb c) (lit "_-./\")) value.

Definition push_value (summary value : str) : str * bool :=
  let simple := simple_value value in
  and_then (if is_empty summary then (summary, true) else push summary 32) (fun s =>
  and_then (if simple then (s, true) else push s 34) (fun s =>
  and_then (push_chars simple s value) (fun s =>
  if simple then (s, true) else push s 34))).

Fixpoint push_values (summary : str) (values : list str) : str * bool :=
  match values with
  | [] => (summary, true)
  | v :: rest => and_then (push_value summary v) (fun s => push_values s rest)
  end.

Definition process_preview (executable : str) (args : list str) : str :=
  let '(summary, complete) := push_values [] (executable :: args) in
  if secret_like_value summary then lit "[redacted]"
  else if complete then summary else summary ++ [ELLIPSIS].

End Alphanumeric.

Lemma str_contains_spec (p s : str) : str_contains p s = true <-> exists a b, s = a ++ p ++ b.
Proof.
  induction s as [|c s IH]; cbn [str_contains]; rewrite orb_true_iff, starts_with_spec.
  - split; [intros [[r Hr]|?]; [by exists [], r | done] | ].
    intros (a & b & Hab). destruct a; [ | done]. left. by exists b.
  - rewrite IH. split.
    + intros [[r Hr]|(a & b & ->)]; [by exists [], r | by exists (c :: a), b].
    + intros ([|x a] & b & Hab); [left; by exists b | ]. injection Hab as -> ->. right. eauto.
Qed.

Lemma contains_prefix (p s t : str) : str_contains p s = true -> str_contains p (s ++ t) = true.
Proof.
  rewrite !str_contains_spec. intros (a & b & ->). exists a, (b ++ t). by rewrite <- !app_assoc.
Qed.

Lemma contains_snoc (p s : str) (c : char) :
  c ∉ p -> str_contains p (s ++ [c]) = true -> p <> [] -> str_contains p s = true.
Proof.
  intros Hc Hs Hne. apply str_contains_spec in Hs as (a & b & Hab). apply str_contains_spec.
  destruct (exists_last (l := p)) as (p' & x & ->); [done | ].
  destruct b as [|y b0] eqn:Eb.
  - rewrite app_nil_r, app_assoc in Hab. apply app_inj_tail in Hab as [_ <-]. set_solver.
  - destruct (exists_last (l := b)) as (b' & z & Hb); [by rewrite Eb | ]. rewrite <- Eb, Hb in Hab.
    rewrite !app_assoc in Hab. apply app_inj_tail in Hab as [-> _]. exists a, b'. by rewrite <- !app_assoc.
Qed.

(** The texts whose presence marks a value as secret. *)
Definition secret_needles : list str :=
  [lit "-----begin"; lit "bearer "; lit "api_key"; lit "token="; lit "id_rsa"; lit "id_ed25519"]
  ++ WEBCODEX_SECRET_PREFIXES.

Lemma secret_like_needles (value : str) :
  secret_like_value value = existsb (fun p => str_contains p (to_ascii_lowercase value)) secret_needles.
Proof. unfold secret_like_value, secret_needles. rewrite existsb_app. cbn [existsb]. by rewrite !orb_assoc, orb_false_r. Qed.

Lemma needles_ok : Forall (fun p => p <> [] /\ (ELLIPSIS ∉ p)) secret_needles.
Proof.
  assert (H : forallb (fun p => negb (is_empty p) && negb (contains_char ELLIPSIS p)) secret_needles = true)
    by reflexivity.
  apply forallb_Forall in H. eapply Forall_impl; [exact H | ]. intros p Hp. simpl in Hp. split_andb.
  split; [by destruct p | ]. intros Hin%contains_char_spec. congruence.
Qed.

Lemma not_secret_prefix (s t : str) : secret_like_value (s ++ t) = false -> secret_like_value s = false.
Proof.
  rewrite !secret_like_needles, <- !not_true_iff_false, !existsb_exists. intros H (p & Hp & Hs). apply H.
  exists p. split; [done | ]. unfold to_ascii_lowercase. rewrite map_app. by apply contains_prefix.
Qed.

Lemma not_secret_ellipsis (s : str) :
  secret_like_value s = false -> secret_like_value (s ++ [ELLIPSIS]) = false.
Proof.
  rewrite !secret_like_needles, <- !not_true_iff_false, !existsb_exists. intros H (p & Hp & Hs). apply H.
  exists p. split; [done | ]. unfold to_ascii_lowercase in *. rewrite map_app in Hs.
  pose proof needles_ok as Hn. rewrite List.Forall_forall in Hn. destruct (Hn p Hp) as [Hne Hc].
  by eapply (contains_snoc p _ ELLIPSIS).
Qed.

(** What a summary under construction satisfies. *)
Definition summary_ok (s : str) : Prop :=
  length s <= COMMAND_PREVIEW_MAX_CHARS /\ Forall (fun c => is_control c = false) s.

Lemma push_ok (s : str) (c : char) : summary_ok s -> is_control c = false -> summary_ok (push s c).1.
Proof.
  intros [Hl Hf] Hc. unfold push. destruct (Nat.leb_spec COMMAND_PREVIEW_MAX_CHARS (length s)); [done | ].
  split; simpl; [rewrite length_app; simpl; lia | apply Forall_app; auto].
Qed.

Lemma and_then_ok (r : str * bool) (k : str -> str * bool) :
  summary_ok r.1 -> (forall s, summary_ok s -> summary_ok (k s).1) -> summary_ok (and_then r k).1.
Proof. intros Hr Hk. unfold and_then. destruct r as [s []]; simpl; auto. Qed.

Lemma push_char_ok (simple : bool) (s : str) (c : char) : summary_ok s -> summary_ok (push_char simple s c).1.
Proof.
  intros Hs. unfold push_char. destruct (N.eqb c 34); [ | destruct (_ && _)].
  - apply and_then_ok; [by apply push_ok | intros; by apply push_ok].
  - apply and_then_ok; [by apply push_ok | intros; by apply push_ok].
  - apply push_ok; [done | ]. by destruct (is_control c) eqn:E.
Qed.

Lemma push_chars_ok (simple : bool) (v s : str) : summary_ok s -> summary_ok (push_chars simple s v).1.
Proof.
  revert s. induction v as [|c v IH]; intros s Hs; cbn [push_chars]; [done | ].
  apply and_then_ok; [by apply push_char_ok | done].
Qed.

Lemma push_values_ok (alnum : char -> bool) (vs : list str) (s : str) :
  summary_ok s -> summary_ok (push_values alnum s vs).1.
Proof.
  revert s. induction vs as [|v vs IH]; intros s Hs; cbn [push_values]; [done | ].
  apply and_then_ok; [ | done]. unfold push_value.
  apply and_then_ok; [by destruct (is_empty s); [ | apply push_ok] | intros s1 H1].
  apply and_then_ok; [by destruct (simple_value alnum v); [ | apply push_ok] | intros s2 H2].
  apply and_then_ok; [by apply push_chars_ok | intros s3 H3].
  by destruct (simple_value alnum v); [ | apply push_ok].
Qed.

(** A process preview is safe to show whatever the argv holds: at most 120
    characters and an ellipsis, no control character, and never text the secret
    detector recognises. *)
Lemma process_preview_safe (is_alphanumeric : char -> bool) (executable : str) (args : list str) :
  let preview := process_preview is_alphanumeric executable args in
  length preview <= COMMAND_PREVIEW_MAX_CHARS + 1
  /\ Forall (fun c => is_control c = false) preview
  /\ secret_like_value preview = false.
Proof.
  unfold process_preview.
  pose proof (push_values_ok is_alphanumeric (executable :: args) []) as [Hl Hf].
  { split; [simpl; lia | constructor]. }
  destruct (push_values is_alphanumeric [] (executable :: args)) as [s complete]. simpl in Hl, Hf.
  destruct (secret_like_value s) eqn:Hs; [ | destruct complete].
  - split_and!; [vm_compute; lia | by repeat constructor | done].
  - split_and!; [lia | done | done].
  - split_and!; [rewrite length_app; cbn [length]; lia | apply Forall_app; by repeat constructor | ].
    by apply not_secret_ellipsis.
Qed.

(** A command preview is bounded and redacted: at most 120 characters and an
    ellipsis, never text the secret detector recognises, and a short first line
    without secrets is shown as it is. *)
Lemma command_preview_safe (command : str) :
  let first_line := trim (default [] (head (str_lines command))) in
  length (command_preview command) <= COMMAND_PREVIEW_MAX_CHARS + 1
  /\ secret_like_value (command_preview command) = false
  /\ (secret_like_value first_line = false -> length first_line <= COMMAND_PREVIEW_MAX_CHARS ->
      command_preview command = first_line).
Proof.
  unfold command_preview. set (first_line := trim _). cbn zeta.
  destruct (secret_like_value first_line) eqn:Hs.
  { split_and!; [vm_compute; lia | done | done]. }
  destruct (Nat.leb_spec (length first_line) COMMAND_PREVIEW_MAX_CHARS).
  { split_and!; [lia | done | done]. }
  split_and!; [rewrite length_app, length_take; cbn [length]; lia | | intros _ Hle; lia].
  apply not_secret_ellipsis. apply (not_secret_prefix _ (drop COMMAND_PREVIEW_MAX_CHARS first_line)).
  by rewrite take_drop.
Qed.

End Preview.

(** ** artifact_policy.rs *)
Module Artifact.

Definition DOCX_MIME : str :=
  lit "application/vnd.openxmlformats-officedocument.wordprocessingml.document".
Definition PPTX_MIME : str :=
  lit "application/vnd.openxmlformats-officedocument.presentationml.presentation".
Definition XLSX_MIME : str := lit "application/vnd.openxmlformats-officedocument.spreadsheetml.sheet".

Definition SAFE_OCTET_STREAM_ARTIFACT_EXTENSIONS : list str :=
  [lit ".artifact"; lit ".dat"; lit ".txt"; lit ".csv"; lit ".json"; lit ".png"; lit ".jpg";
   lit ".jpeg"; lit ".webp"; lit ".mp3"; lit ".mp4"; lit ".pdf"; lit ".zip"; lit ".docx";
   lit ".pptx"; lit ".xlsx"].

Definition ooxml_extension_for_mime (mime : str) : option str :=
  if mime ==? DOCX_MIME then Some (lit ".docx")
  else if mime ==? PPTX_MIME then Some (lit ".pptx")
  else if mime ==? XLSX_MIME then Some (lit ".xlsx")
  else None.

Definition MAX_MCP_IMAGE_BYTES : Z := 1024 * 1024.
Definition MAX_MCP_IMAGE_RESPONSE_BYTES : Z := 1536 * 1024.

Definition has_safe_octet_stream_artifact_extension (path : str) : bool :=
  let lower := to_ascii_lowercase path in
  existsb (fun suffix => ends_with suffix lower) SAFE_OCTET_STREAM_ARTIFACT_EXTENSIONS.

Definition safe_octet_stream_artifact_extensions_csv : str :=
  join (lit ", ") SAFE_OCTET_STREAM_ARTIFACT_EXTENSIONS.

Definition octet_stream_safe_extension_error : str :=
  lit "application/octet-stream is only allowed for safe artifact extensions: "
  ++ safe_octet_stream_artifact_extensions_csv
  ++ lit ". For smoke tests, use artifacts/smoke/<name>.artifact or artifacts/smoke/<name>.txt, or omit mime_type when appropriate.".

(** Every Office extension a MIME type maps to is a safe artifact extension. *)
Lemma ooxml_extension_safe (mime ext stem : str) :
  ooxml_extension_for_mime mime = Some ext ->
  has_safe_octet_stream_artifact_extension (stem ++ ext) = true.
Proof.
  intros H. unfold has_safe_octet_stream_artifact_extension. apply existsb_exists.
  assert (Hext : ext ∈ [lit ".docx"; lit ".pptx"; lit ".xlsx"]).
  { unfold ooxml_extension_for_mime in H. repeat case_match; simplify_eq; set_solver. }
  exists ext. split.
  - apply list_elem_of_In. revert Hext. unfold SAFE_OCTET_STREAM_ARTIFACT_EXTENSIONS. set_solver.
  - unfold ends_with. unfold to_ascii_lowercase. rewrite map_app.
    replace (map ascii_lower ext) with ext by (rewrite !elem_of_cons, elem_of_nil in Hext; naive_solver).
    by rewrite (proj2 (strip_suffix_spec ext _ (map ascii_lower stem))).
Qed.

End Artifact.
