(* ===== verification/GlobMatch.v ===== *)
(** * GlobMatch: the glob matcher of crates/webcodex-core/src/project_listing.rs

    [glob_match_segment] is a loop with an explicit stack of backtrack frames. The
    loop body is [glob_step] and [glob_run k] makes up to [2 ^ k] iterations of it;
    the exponent used covers the variant of the loop, so the result is never cut
    short ([glob_terminates]). The matcher is compared with the textbook recursive
    reading of a pattern, [glob_spec], over the bytes of pattern and path. The
    comment of [glob_matches] says that a question mark stands for one character;
    the code compares bytes, so the two differ on a path with multi-byte
    characters ([question_mark_is_one_byte]) and agree on ASCII text. *)
From S2P Require Import Prelude RustStr.

Definition STAR : N := 42.
Definition QUESTION : N := 63.
Definition SEP : N := 47.

(** A frame: the pattern index after the star, the text index it has consumed up
    to, and whether it may cross a separator. *)
Record frame : Type := mkFrame {
  resume_p : nat;
  resume_t : nat;
  crosses_slash : bool
}.

Inductive glob_state : Type :=
| Matching (p t : nat) (stars : list frame)
| Matched (result : bool).

Section Matcher.
Context (pattern text : list N).

(** Whether the star of a frame can consume one more byte. *)
Definition can_widen (f : frame) : bool :=
  match text !! resume_t f with
  | Some b => crosses_slash f || negb (N.eqb b SEP)
  | None => false
  end.

(** The inner loop: give up frames from the top until one can be widened. *)
Fixpoint backtrack (stars : list frame) : glob_state :=
  match stars with
  | [] => Matched false
  | f :: rest =>
      if can_widen f
      then Matching (resume_p f) (S (resume_t f)) (mkFrame (resume_p f) (S (resume_t f)) (crosses_slash f) :: rest)
      else backtrack rest
  end.

Definition byte_matches (c b : N) : bool := (N.eqb c QUESTION && negb (N.eqb b SEP)) || N.eqb c b.

Fixpoint skip_stars (l : list N) : list N :=
  match l with
  | c :: rest => if N.eqb c STAR then skip_stars rest else l
  | [] => []
  end.

(** One iteration of the outer loop. *)
Definition glob_step (p t : nat) (stars : list frame) : glob_state :=
  match text !! t with
  | None => Matched (is_empty (skip_stars (drop p pattern)))
  | Some b =>
      match pattern !! p with
      | Some c =>
          if N.eqb c STAR then
            let crosses := pattern !! (S p) ==? Some STAR in
            let p := p + (if crosses then 2 else 1) in
            Matching p t (mkFrame p t crosses :: stars)
          else if byte_matches c b then Matching (S p) (S t) stars
          else backtrack stars
      | None => backtrack stars
      end
  end.

(** Up to [2 ^ k] iterations. *)
Fixpoint glob_run (k : nat) (s : glob_state) : glob_state :=
  match s with
  | Matched _ => s
  | Matching p t stars =>
      match k with
      | O => glob_step p t stars
      | S k => glob_run k (glob_run k s)
      end
  end.

(** Enough iterations for a pattern of [m] bytes and a text of [n]. *)
Definition glob_fuel (m n : nat) : nat :=
  N.to_nat (N.log2_up ((N.of_nat n + 2) ^ N.of_nat m * (N.of_nat m + 1) + 1)).

Definition glob_match_segment : option bool :=
  match glob_run (glob_fuel (length pattern) (length text)) (Matching 0 0 []) with
  | Matched result => Some result
  | Matching _ _ _ => None
  end.
End Matcher.

(** ** The meaning of a pattern

    Over any units: the bytes the code compares, or the characters of which the
    comment speaks. *)

Section Spec.
(** A star in front of a pattern with meaning [rest]. *)
Fixpoint star_spec (crosses : bool) (rest : list N -> bool) (text : list N) : bool :=
  rest text || match text with
               | b :: text => (crosses || negb (N.eqb b SEP)) && star_spec crosses rest text
               | [] => false
               end.
End Spec.

Fixpoint glob_spec (pattern text : list N) : bool :=
  match pattern with
  | [] => is_empty text
  | c :: rest =>
      if N.eqb c STAR
      then match rest with
           | c' :: rest' => if N.eqb c' STAR then star_spec true (glob_spec rest') text
                            else star_spec false (glob_spec rest) text
           | [] => star_spec false (glob_spec rest) text
           end
      else match text with
           | b :: text => byte_matches c b && glob_spec rest text
           | [] => false
           end
  end.

(** [glob_matches]: a pattern without a separator also matches the basename. *)
Definition basename (path : str) : str := unwrap_or path (last (split_char SEP path)).

Definition glob_matches (pattern path : str) : option bool :=
  let whole := glob_match_segment (as_bytes pattern) (as_bytes path) in
  if contains_char SEP pattern then whole
  else
    match glob_match_segment (as_bytes pattern) (as_bytes (basename path)) with
    | Some true => Some true
    | Some false => whole
    | None => None
    end.

(** ** Correctness *)

Section Correctness.
Context (pattern text : list N).

(** The suffix of the pattern at [p] matches the suffix of the text at [t]. *)
Definition suffix_matches (p t : nat) : bool := glob_spec (drop p pattern) (drop t text).

Definition star_matches (c : bool) (p t : nat) : bool := star_spec c (glob_spec (drop p pattern)) (drop t text).

Lemma star_matches_unfold (c : bool) (p t : nat) :
  star_matches c p t = suffix_matches p t || (can_widen text (mkFrame p t c) && star_matches c p (S t)).
Proof.
  unfold star_matches, suffix_matches, can_widen. cbn.
  destruct (text !! t) as [b|] eqn:E; [by rewrite (drop_S text b t E) | ].
  apply lookup_ge_None in E. by rewrite (drop_ge text t E).
Qed.

Lemma star_matches_true (c : bool) (p t : nat) :
  star_matches c p t = true <->
  exists q, t <= q /\ suffix_matches p q = true /\ forall x, t <= x < q -> can_widen text (mkFrame p x c) = true.
Proof.
  split.
  - remember (length text - t) as k eqn:Hk. revert t Hk. induction k as [|k IH]; intros t Hk.
    all: rewrite star_matches_unfold; intros [H|H]%orb_true_iff;
      [exists t; split_and!; [lia | done | intros x Hx; lia] | ].
    all: apply andb_true_iff in H as [Hw H]; pose proof Hw as Hw'; unfold can_widen in Hw; cbn in Hw.
    all: destruct (text !! t) as [b|] eqn:E; [ | done]; apply lookup_lt_Some in E.
    { lia. }
    destruct (IH (S t) ltac:(lia) H) as (q & Hq & Hm & Hp). exists q. split_and!; [lia | done | ].
    intros x Hx. destruct (decide (x = t)) as [->|]; [done | ]. apply Hp. lia.
  - intros (q & Hq & Hm & Hp). remember (q - t) as k eqn:Hk. revert t Hk Hq Hp.
    induction k as [|k IH]; intros t Hk Hq Hp; rewrite star_matches_unfold.
    + replace t with q by lia. by rewrite Hm.
    + rewrite (Hp t) by lia. rewrite (IH (S t)) by (try lia; intros; apply Hp; lia). cbn. by rewrite orb_true_r.
Qed.

Lemma spec_nil (l : list N) : glob_spec l [] = is_empty (skip_stars l).
Proof.
  assert (Hstar : forall c r, star_spec c r [] = r []) by (intros; cbn; by rewrite orb_false_r).
  remember (length l) as k eqn:Hk. revert l Hk. induction k as [k IH] using lt_wf_ind. intros [|c l] ->; [done | ].
  cbn [glob_spec skip_stars]. destruct (N.eqb c STAR); [ | done]. destruct l as [|c' l]; [done | ].
  cbn [skip_stars]. destruct (N.eqb c' STAR) eqn:E; rewrite Hstar.
  - by apply (IH (length l)); [cbn; lia | ].
  - rewrite (IH (length (c' :: l))) by (cbn; lia || done). cbn [skip_stars]. by rewrite E.
Qed.

Lemma matches_at_end (p t : nat) :
  text !! t = None -> forall s, t <= s -> suffix_matches p s = is_empty (skip_stars (drop p pattern)).
Proof.
  intros E s Hs. apply lookup_ge_None in E. unfold suffix_matches. rewrite (drop_ge text s) by lia. apply spec_nil.
Qed.

Lemma matches_byte (p t : nat) (c b : N) :
  pattern !! p = Some c -> N.eqb c STAR = false -> text !! t = Some b ->
  suffix_matches p t = byte_matches c b && suffix_matches (S p) (S t).
Proof.
  intros Hp Hc Ht. unfold suffix_matches. rewrite (drop_S _ _ _ Hp), (drop_S _ _ _ Ht). cbn. by rewrite Hc.
Qed.

(** A byte of the pattern consumes a byte of the text wherever it stands. *)
Lemma matches_byte_next (p s : nat) (c : N) :
  pattern !! p = Some c -> N.eqb c STAR = false -> suffix_matches p s = true -> suffix_matches (S p) (S s) = true.
Proof.
  intros Hp Hc H. destruct (text !! s) as [b|] eqn:E.
  - rewrite (matches_byte p s c b Hp Hc E) in H. by apply andb_true_iff in H as [_ H].
  - apply lookup_ge_None in E. unfold suffix_matches in H. rewrite (drop_S _ _ _ Hp), (drop_ge text s E) in H.
    cbn in H. by rewrite Hc in H.
Qed.

Lemma matches_star (p : nat) :
  pattern !! p = Some STAR ->
  let crosses := pattern !! (S p) ==? Some STAR in
  let p' := p + (if crosses then 2 else 1) in
  p < p' <= length pattern /\ forall s, suffix_matches p s = star_matches crosses p' s.
Proof.
  intros Hp crosses p'. pose proof (lookup_lt_Some _ _ _ Hp) as Hlt. unfold suffix_matches.
  rewrite (drop_S _ _ _ Hp). subst p' crosses. destruct (pattern !! S p ==? Some STAR) eqn:E.
  - apply beq_true in E. pose proof (lookup_lt_Some _ _ _ E). split; [lia | ]. intros s.
    rewrite (drop_S _ _ _ E). replace (p + 2) with (S (S p)) by lia. done.
  - split; [lia | ]. intros s. replace (p + 1) with (S p) by lia. cbn [glob_spec]. rewrite N.eqb_refl.
    destruct (drop (S p) pattern) as [|c rest] eqn:Ed; [unfold star_matches; by rewrite Ed | ].
    destruct (N.eqb_spec c STAR) as [->|]; [ | unfold star_matches; by rewrite Ed].
    exfalso. apply beq_false in E. apply E. rewrite <- (Nat.add_0_r (S p)), <- lookup_drop, Ed. done.
Qed.

Lemma no_match_past_pattern (p t : nat) (b : N) :
  pattern !! p = None -> text !! t = Some b -> suffix_matches p t = false.
Proof.
  intros Hp%lookup_ge_None Ht. unfold suffix_matches. rewrite (drop_ge _ _ Hp), (drop_S _ _ _ Ht). done.
Qed.

(** *** The invariant of the loop *)

(** A stretch of the pattern without stars, matched byte by byte. *)
Definition plain_run (p0 t0 p t : nat) : Prop :=
  exists k, p = p0 + k /\ t = t0 + k /\ suffix_matches p0 t0 = suffix_matches p t
    /\ forall s, suffix_matches p0 s = true -> suffix_matches p (s + k) = true.

(** The stack: each star, at [star], was met at [base] after a plain run from the
    star below it; every shorter stretch has been tried and failed. *)
Inductive frames : list frame -> nat -> nat -> Prop :=
| frames_nil p t : plain_run 0 0 p t -> frames [] p t
| frames_cons f rest p t star base :
    plain_run (resume_p f) (resume_t f) p t -> frames rest star base ->
    star < resume_p f <= length pattern ->
    (forall s, suffix_matches star s = star_matches (crosses_slash f) (resume_p f) s) ->
    base <= resume_t f <= length text ->
    (forall q, base <= q < resume_t f -> suffix_matches (resume_p f) q = false
                 /\ can_widen text (mkFrame (resume_p f) q (crosses_slash f)) = true) ->
    frames (f :: rest) p t.

(** The frame can still lead to a match. *)
Definition promising (f : frame) : bool :=
  can_widen text f && star_matches (crosses_slash f) (resume_p f) (S (resume_t f)).

Lemma frame_eta (f : frame) : mkFrame (resume_p f) (resume_t f) (crosses_slash f) = f.
Proof. by destruct f. Qed.

Lemma plain_run_refl (p t : nat) : plain_run p t p t.
Proof. exists 0. rewrite !Nat.add_0_r. split_and!; try done. intros s. by rewrite Nat.add_0_r. Qed.

Lemma plain_run_next (p0 t0 p t : nat) (c b : N) :
  plain_run p0 t0 p t -> pattern !! p = Some c -> N.eqb c STAR = false -> text !! t = Some b ->
  byte_matches c b = true -> plain_run p0 t0 (S p) (S t).
Proof.
  intros (k & -> & -> & He & Hs) Hp Hc Ht Hb. exists (S k). split_and!; [lia | lia | | ].
  - by rewrite He, (matches_byte _ _ c b Hp Hc Ht), Hb.
  - intros s H. rewrite Nat.add_succ_r. eapply matches_byte_next; eauto.
Qed.

(** What remains to be tried decides the match. *)
Lemma frames_answer (stars : list frame) (p t : nat) :
  frames stars p t -> suffix_matches 0 0 = suffix_matches p t || existsb promising stars.
Proof.
  induction 1 as [p t (k & _ & _ & He & _)|f rest p t star base (k & _ & _ & He & _) _ IH _ Hstar Hbase Htried].
  { by rewrite He, orb_false_r. }
  rewrite IH, Hstar. cbn [existsb]. rewrite orb_assoc. f_equal. rewrite <- He. clear IH He.
  apply eq_true_iff_eq. rewrite orb_true_iff. unfold promising. rewrite andb_true_iff, !star_matches_true. split.
  - intros (q & Hq & Hm & Hw). destruct (lt_eq_lt_dec q (resume_t f)) as [[Hlt| ->]|Hgt].
    + destruct (Htried q ltac:(lia)). congruence.
    + by left.
    + right. split; [rewrite <- (frame_eta f); apply Hw; lia | ]. exists q. split_and!; [lia | done | ].
      intros x Hx. apply Hw. lia.
  - intros [Hm|[Hw (q & Hq & Hm & Hx)]].
    + exists (resume_t f). split_and!; [lia | done | ]. intros x Hx. by apply Htried.
    + exists q. split_and!; [lia | done | ]. intros x Hlt. destruct (lt_eq_lt_dec x (resume_t f)) as [[?| ->]|?].
      * apply Htried. lia.
      * by rewrite frame_eta.
      * apply Hx. lia.
Qed.

(** When the text is used up, widening an earlier star cannot help either. *)
Lemma frames_exhausted (stars : list frame) (p t : nat) :
  frames stars p t -> (forall s, t <= s -> suffix_matches p s = false) -> existsb promising stars = false.
Proof.
  induction 1 as [p t _|f rest p t star base (k & -> & -> & _ & Hs) _ IH _ Hstar Hbase Htried]; [done | ].
  intros Hend. assert (Hnone : forall q, resume_t f <= q -> suffix_matches (resume_p f) q = false).
  { intros q Hq. destruct (suffix_matches (resume_p f) q) eqn:E; [ | done]. apply Hs in E. rewrite Hend in E by lia. done. }
  cbn [existsb]. apply orb_false_iff. split.
  - unfold promising. apply andb_false_iff. right. apply not_true_is_false. rewrite star_matches_true.
    intros (q & Hq & Hm & _). rewrite Hnone in Hm by lia. done.
  - apply IH. intros s Hs'. rewrite Hstar. apply not_true_is_false. rewrite star_matches_true.
    intros (q & Hq & Hm & _). destruct (decide (resume_t f <= q)); [rewrite Hnone in Hm by lia; done | ].
    destruct (Htried q ltac:(lia)). congruence.
Qed.

Definition state_ok (s : glob_state) : Prop :=
  match s with
  | Matched result => result = suffix_matches 0 0
  | Matching p t stars => frames stars p t /\ p <= length pattern
  end.

Lemma backtrack_ok (stars : list frame) (p t : nat) :
  frames stars p t -> suffix_matches p t = false -> state_ok (backtrack text stars).
Proof.
  intros Hf. induction Hf as [p t (k & _ & _ & He & _)|f rest p t star base (k & _ & _ & He & _) Hrest IH Hlt Hstar Hbase Htried];
    intros Hno; cbn [backtrack]; [cbn; congruence | ].
  rewrite <- He in Hno. clear He. destruct (can_widen text f) eqn:Hw.
  - split; [ | cbn; lia]. eapply frames_cons; cbn; [apply plain_run_refl | exact Hrest | done | done | | ].
    + unfold can_widen in Hw. destruct (text !! resume_t f) eqn:E; [ | done]. apply lookup_lt_Some in E. lia.
    + intros q Hq. destruct (decide (q = resume_t f)) as [->|]; [by rewrite frame_eta | ]. apply Htried. lia.
  - apply IH. rewrite Hstar. apply not_true_is_false. rewrite star_matches_true. intros (q & Hq & Hm & Hx).
    destruct (lt_eq_lt_dec q (resume_t f)) as [[Hlt'| ->]|Hgt]; [ | congruence | ].
    + destruct (Htried q ltac:(lia)). congruence.
    + specialize (Hx (resume_t f) ltac:(lia)). rewrite frame_eta in Hx. congruence.
Qed.

Lemma frames_next (stars : list frame) (p t : nat) (c b : N) :
  frames stars p t -> pattern !! p = Some c -> N.eqb c STAR = false -> text !! t = Some b ->
  byte_matches c b = true -> frames stars (S p) (S t).
Proof.
  intros Hf Hp Hc Ht Hb. destruct Hf as [p t Hr|f rest p t star base Hr]; [apply frames_nil | eapply frames_cons]; eauto using plain_run_next.
Qed.

Lemma glob_step_ok (stars : list frame) (p t : nat) :
  frames stars p t -> p <= length pattern -> state_ok (glob_step pattern text p t stars).
Proof.
  intros Hf Hp. unfold glob_step. destruct (text !! t) as [b|] eqn:Ht.
  2: { cbn. rewrite (frames_answer _ _ _ Hf). rewrite <- (matches_at_end p t Ht t) by lia.
       destruct (suffix_matches p t) eqn:E; [done | ]. symmetry. eapply frames_exhausted; [exact Hf | ].
       intros s Hs. rewrite (matches_at_end p t Ht s Hs), <- (matches_at_end p t Ht t) by lia. done. }
  destruct (pattern !! p) as [c|] eqn:Hc; [ | eapply backtrack_ok; [exact Hf | by eapply no_match_past_pattern]].
  destruct (N.eqb_spec c STAR) as [->|Hne].
  - destruct (matches_star p Hc) as [Hlt Hs]. split; [ | lia].
    assert (Htl : t < length text) by (by eapply lookup_lt_Some).
    eapply frames_cons; cbn; [apply plain_run_refl | exact Hf | done | done | lia | ]. intros q Hq. lia.
  - apply N.eqb_neq in Hne. destruct (byte_matches c b) eqn:Hb.
    + split; [by eapply frames_next | ]. apply lookup_lt_Some in Hc. lia.
    + eapply backtrack_ok; [exact Hf | ]. by rewrite (matches_byte p t c b Hc Hne Ht), Hb.
Qed.

(** *** The variant of the loop *)

Local Open Scope Z_scope.

Definition radix : Z := Z.of_nat (length text) + 2.

(** The stack as a number in base [radix], most significant digit at the bottom;
    a missing frame counts more than any frame. *)
Fixpoint weight (stars : list frame) : Z :=
  match stars with
  | [] => radix ^ Z.of_nat (length pattern) - 1
  | f :: rest =>
      weight rest - (Z.of_nat (resume_t f) + 1) * radix ^ (Z.of_nat (length pattern) - 1 - Z.of_nat (length rest))
  end.

Definition variant (s : glob_state) : Z :=
  match s with
  | Matched _ => 0
  | Matching p _ stars => weight stars * (Z.of_nat (length pattern) + 1) + (Z.of_nat (length pattern) - Z.of_nat p)
  end.

Lemma frames_depth (stars : list frame) (p t : nat) :
  frames stars p t -> (length stars <= p)%nat
  /\ Forall (fun f => (resume_t f <= length text)%nat) stars /\ (p <= length pattern -> length stars <= length pattern)%nat.
Proof.
  induction 1 as [p t _|f rest p t star base (k & -> & _) _ (I1 & I2 & I3) Hlt _ Hbase _]; [split_and!; [cbn; lia | constructor | cbn; lia] | ].
  cbn. split_and!; [lia | constructor; [lia | done] | lia].
Qed.

(** The power of the radix that a frame at depth [d] counts for. *)
Lemma radix_pow (d : nat) :
  (d < length pattern)%nat ->
  radix ^ (Z.of_nat (length pattern) - Z.of_nat d)
  = radix * radix ^ (Z.of_nat (length pattern) - 1 - Z.of_nat d)
  /\ 0 < radix ^ (Z.of_nat (length pattern) - 1 - Z.of_nat d).
Proof.
  intros Hd. unfold radix. split.
  - rewrite <- Z.pow_succ_r by lia. f_equal. lia.
  - apply Z.pow_pos_nonneg; lia.
Qed.

Lemma weight_nonneg (stars : list frame) :
  (length stars <= length pattern)%nat -> Forall (fun f => (resume_t f <= length text)%nat) stars ->
  radix ^ (Z.of_nat (length pattern) - Z.of_nat (length stars)) - 1 <= weight stars.
Proof.
  induction stars as [|f rest IH]; intros Hl Ha; [cbn; rewrite Z.sub_0_r; lia | ].
  apply Forall_cons in Ha as [Hf Ha]. cbn [length] in *. specialize (IH ltac:(lia) Ha).
  destruct (radix_pow (length rest) ltac:(lia)) as [He Hpos]. cbn [weight].
  replace (Z.of_nat (length pattern) - Z.of_nat (S (length rest)))
    with (Z.of_nat (length pattern) - 1 - Z.of_nat (length rest)) by lia.
  rewrite He in IH. set (w := radix ^ _) in *. unfold radix in IH. nia.
Qed.

Lemma backtrack_decreases (stars : list frame) (p t : nat) (stars' : list frame) :
  (length stars <= length pattern)%nat -> Forall (fun f => (resume_t f <= length text)%nat) stars ->
  backtrack text stars = Matching p t stars' ->
  weight stars' <= weight stars - radix ^ (Z.of_nat (length pattern) - Z.of_nat (length stars)).
Proof.
  induction stars as [|f rest IH]; [done | ]. intros Hl Ha. apply Forall_cons in Ha as [Hf Ha]. cbn [length] in Hl.
  destruct (radix_pow (length rest) ltac:(lia)) as [He Hpos]. cbn [backtrack length weight].
  replace (Z.of_nat (length pattern) - Z.of_nat (S (length rest)))
    with (Z.of_nat (length pattern) - 1 - Z.of_nat (length rest)) by lia.
  destruct (can_widen text f).
  - intros [= <- <- <-]. cbn [weight resume_t]. nia.
  - intros H. specialize (IH ltac:(lia) Ha H). rewrite He in IH. set (w := radix ^ _) in *. unfold radix in IH. nia.
Qed.

Lemma glob_step_decreases (stars : list frame) (p t : nat) p' t' stars' :
  frames stars p t -> (p <= length pattern)%nat -> glob_step pattern text p t stars = Matching p' t' stars' ->
  variant (Matching p' t' stars') < variant (Matching p t stars).
Proof.
  intros Hf Hp H. pose proof (glob_step_ok stars p t Hf Hp) as Hok. rewrite H in Hok. destruct Hok as [_ Hp'].
  destruct (frames_depth _ _ _ Hf) as (_ & Ha & Hd). specialize (Hd Hp). unfold variant.
  assert (Hback : backtrack text stars = Matching p' t' stars' -> weight stars' + 1 <= weight stars).
  { intros Hb. pose proof (backtrack_decreases _ _ _ _ Hd Ha Hb).
    assert (0 < radix ^ (Z.of_nat (length pattern) - Z.of_nat (length stars))); [ | lia].
    apply Z.pow_pos_nonneg; unfold radix; lia. }
  unfold glob_step in H. destruct (text !! t) as [b|]; [ | done]. destruct (pattern !! p) as [c|] eqn:Hc; [ | specialize (Hback H); nia].
  destruct (N.eqb c STAR) eqn:Hs.
  - injection H as <- <- <-. apply N.eqb_eq in Hs as ->. destruct (matches_star p Hc) as [Hlt _].
    pose proof (lookup_lt_Some _ _ _ Hc) as Hpl. cbn [weight resume_t].
    assert (length stars < length pattern)%nat as Hdl by (destruct (frames_depth _ _ _ Hf) as (? & _); lia).
    destruct (radix_pow (length stars) Hdl) as [_ Hpos]. nia.
  - destruct (byte_matches c b); [injection H as <- <- <-; lia | specialize (Hback H); nia].
Qed.

Lemma variant_nonneg (s : glob_state) : state_ok s -> 0 <= variant s.
Proof.
  destruct s as [p t stars|]; [ | done]. intros [Hf Hp]. destruct (frames_depth _ _ _ Hf) as (_ & Ha & Hd).
  pose proof (weight_nonneg stars (Hd Hp) Ha) as Hw.
  assert (0 < radix ^ (Z.of_nat (length pattern) - Z.of_nat (length stars))) by (apply Z.pow_pos_nonneg; unfold radix; lia).
  cbn. nia.
Qed.

Lemma glob_run_ok (k : nat) (s : glob_state) :
  state_ok s -> state_ok (glob_run pattern text k s)
  /\ ((exists result, glob_run pattern text k s = Matched result)
      \/ variant (glob_run pattern text k s) + 2 ^ Z.of_nat k <= variant s).
Proof.
  revert s. induction k as [|k IH]; intros s Hs; (destruct s as [p t stars|result]; [ | by split; [ | left; eexists]]).
  - destruct Hs as [Hf Hp]. cbn [glob_run]. split; [by apply glob_step_ok | ].
    destruct (glob_step pattern text p t stars) as [p' t' stars'|r] eqn:E; [right | left; by eexists].
    pose proof (glob_step_decreases _ _ _ _ _ _ Hf Hp E). change (2 ^ Z.of_nat 0) with 1. lia.
  - cbn [glob_run]. destruct (IH _ Hs) as [Hs1 Hv1]. destruct (IH _ Hs1) as [Hs2 Hv2]. split; [done | ].
    rewrite Nat2Z.inj_succ, Z.pow_succ_r by lia.
    destruct Hv1 as [[r Hr]|Hv1]; [left; rewrite Hr; destruct k; by eexists | ].
    destruct Hv2 as [Hr|Hv2]; [by left | right]. lia.
Qed.

Lemma initial_ok : state_ok (Matching 0 0 []).
Proof. split; [apply frames_nil, plain_run_refl | lia]. Qed.

Lemma glob_match_segment_correct : glob_match_segment pattern text = Some (glob_spec pattern text).
Proof.
  unfold glob_match_segment. set (k := glob_fuel _ _). destruct (glob_run_ok k _ initial_ok) as [Hok [[r Hr]|Hv]].
  - rewrite Hr in *. cbn in Hok. by rewrite Hok.
  - exfalso. pose proof (variant_nonneg _ Hok) as H0. cbn [variant weight] in Hv.
    assert (Hk : radix ^ Z.of_nat (length pattern) * (Z.of_nat (length pattern) + 1) + 1 <= 2 ^ Z.of_nat k).
    { subst k. unfold glob_fuel, radix. set (x := ((_ ^ _) * _ + 1)%N).
      replace (_ + 1) with (Z.of_N x) by (subst x; lia).
      rewrite N_nat_Z. change 2 with (Z.of_N 2). rewrite <- N2Z.inj_pow. apply N2Z.inj_le.
      destruct (decide (x = 1)%N) as [->|Hx]; [done | ]. apply N.log2_up_spec. subst x. lia. }
    lia.
Qed.
End Correctness.

(** ** Theorems *)

(** [j] iterations of the outer loop, one at a time. *)
Definition iteration (pattern text : list N) (s : glob_state) : glob_state :=
  match s with
  | Matching p t stars => glob_step pattern text p t stars
  | Matched result => Matched result
  end.

Lemma iterations_ok (pattern text : list N) (j : nat) :
  let s := Nat.iter j (iteration pattern text) (Matching 0 0 []) in
  state_ok pattern text s
  /\ ((exists result, s = Matched result)
      \/ (variant pattern text s + Z.of_nat j <= variant pattern text (Matching 0 0 []))%Z).
Proof.
  induction j as [|j [Hok Hv]]; [split; [apply initial_ok | right; cbn; lia] | ]. rewrite Nat.iter_succ. cbn zeta in *.
  destruct (Nat.iter j _ _) as [p t stars|r]; [ | split; [done | left; by eexists]].
  destruct Hv as [[r Hr]|Hv]; [done | ]. destruct Hok as [Hf Hp]. cbn [iteration]. split; [by apply glob_step_ok | ].
  destruct (glob_step pattern text p t stars) as [p' t' stars'|r] eqn:E; [right | left; by eexists].
  pose proof (glob_step_decreases _ _ _ _ _ _ _ _ Hf Hp E). lia.
Qed.

(** C34: the matcher's loop terminates on every pattern and text: after
    (n + 2)^m * (m + 1) iterations, for a pattern of m bytes and a text of n, it has
    returned, whatever stars the pattern has. *)
Theorem glob_loop_terminates (pattern text : list N) (j : nat) :
  let m := Z.of_nat (length pattern) in
  let n := Z.of_nat (length text) in
  ((n + 2) ^ m * (m + 1) <= Z.of_nat j)%Z ->
  exists result, Nat.iter j (iteration pattern text) (Matching 0 0 []) = Matched result.
Proof.
  cbn zeta. intros Hj. destruct (iterations_ok pattern text j) as [Hok [Hr|Hv]]; [done | exfalso].
  pose proof (variant_nonneg _ _ _ Hok). cbn [variant weight] in Hv. unfold radix in Hv. lia.
Qed.

Lemma glob_loop_terminates_witness :
  exists result, Nat.iter 256 (iteration (as_bytes (lit "**a")) (as_bytes (lit "ba"))) (Matching 0 0 []) = Matched result.
Proof. apply (glob_loop_terminates (as_bytes (lit "**a")) (as_bytes (lit "ba")) 256). vm_compute. discriminate. Defined.

(** What the comment of [glob_matches] promises: a question mark is one character. *)
Definition documented_match (pattern path : str) : bool :=
  (negb (contains_char SEP pattern) && glob_spec pattern (basename path)) || glob_spec pattern path.

Lemma ascii_bytes (s : str) : Forall (fun c => (c < 128)%N) s -> as_bytes s = s.
Proof.
  induction 1 as [|c s Hc _ IH]; [done | ]. unfold as_bytes in *. cbn [flat_map]. rewrite IH.
  unfold encode_utf8. apply N.ltb_lt in Hc. by rewrite Hc.
Qed.

Lemma elem_of_joined (sep s : str) (ls : list str) (c : char) : s ∈ ls -> c ∈ s -> c ∈ join sep ls.
Proof.
  intros Hs Hc. induction ls as [|l [|l' ls] IH]; [by apply not_elem_of_nil in Hs | | ].
  - apply list_elem_of_singleton in Hs as ->. done.
  - rewrite join_cons, !elem_of_app by done. apply elem_of_cons in Hs as [<-|Hs]; [by left | right; right; by apply IH].
Qed.

Lemma basename_part (path : str) (c : char) : c ∈ basename path -> c ∈ path.
Proof.
  unfold basename. destruct (last (split_char SEP path)) as [s|] eqn:E; [ | done]. cbn [unwrap_or]. intros Hc.
  apply last_Some in E as [l E]. rewrite <- (join_split_char SEP path), E. apply (elem_of_joined _ s); [set_solver | done].
Qed.

(** C33: the iterative matcher decides the recursive reading of the pattern, in which
    a star stands for any bytes but the separator, a double star for any bytes and a
    question mark for one byte but the separator: giving up as soon as the text is
    used up, without trying the remaining frames, loses no match. A pattern without
    a separator is also tried on the basename. When pattern and path are ASCII this is
    the documented reading, in which a question mark is one character; on a path with
    multi-byte characters the two differ. *)
Theorem glob_matches_spec (pattern path : str) :
  glob_matches pattern path
  = Some ((negb (contains_char SEP pattern) && glob_spec (as_bytes pattern) (as_bytes (basename path)))
          || glob_spec (as_bytes pattern) (as_bytes path))
  /\ (Forall (fun c => (c < 128)%N) pattern -> Forall (fun c => (c < 128)%N) path ->
      glob_matches pattern path = Some (documented_match pattern path)).
Proof.
  assert (Hm : glob_matches pattern path
    = Some ((negb (contains_char SEP pattern) && glob_spec (as_bytes pattern) (as_bytes (basename path)))
            || glob_spec (as_bytes pattern) (as_bytes path))).
  { unfold glob_matches. rewrite !glob_match_segment_correct. destruct (contains_char SEP pattern); [done | ].
    by destruct (glob_spec (as_bytes pattern) (as_bytes (basename path))). }
  split; [done | ]. intros Hp Ht. rewrite Hm, (ascii_bytes pattern), (ascii_bytes path), (ascii_bytes (basename path)) by
    (try done; rewrite Forall_forall in *; intros c Hc; by apply Ht, basename_part). done.
Qed.

Lemma glob_matches_spec_witness : glob_matches (lit "s*/?.rs") (lit "src/a.rs") = Some (documented_match (lit "s*/?.rs") (lit "src/a.rs")).
Proof.
  destruct (glob_matches_spec (lit "s*/?.rs") (lit "src/a.rs")) as [_ Hd].
  apply Hd; apply (bool_decide_unpack _); vm_compute; reflexivity.
Defined.

(** The character U+00E9 takes two bytes. *)
Lemma question_mark_is_one_byte :
  documented_match (lit "?") [233%N] = true /\ glob_matches (lit "?") [233%N] = Some false
  /\ glob_matches (lit "??") [233%N] = Some true.
Proof. split_and!; vm_compute; reflexivity. Qed.

