(* ===== verification/ProjectListing.v ===== *)
(** * ProjectListing: crates/webcodex-core/src/project_listing.rs

    What a model sees of the tracked files of a project: the files that are not
    sensitive, inside the scope and matched by a glob, rolled up to a directory
    depth and cut into pages.  Sizes and offsets are [nat]. [None] is a panic of the
    code (a slice off a character boundary). *)
From S2P Require Import Prelude RustStr Policy GlobMatch.
Import SensitivePaths.

Definition MAX_AUTO_DEPTH : nat := 16.

Inductive EntryKind : Type :=
| EntryFile
| EntryDir.

Definition EntryKind_as_str (k : EntryKind) : str :=
  match k with
  | EntryFile => lit "file"
  | EntryDir => lit "dir"
  end.

Record ListingEntry : Type := mkEntry {
  entry_path : str;
  entry_kind : EntryKind;
  entry_file_count : option nat
}.

Record Listing : Type := mkListing {
  lst_entries : list ListingEntry;
  lst_total_files : nat;
  lst_total_entries : nat;
  lst_depth : option nat;
  lst_depth_auto : bool;
  lst_truncated : bool;
  lst_next_offset : option nat
}.

Definition parse_nul_separated (raw : str) : list str * bool :=
  if is_empty raw then ([], false)
  else
    let truncated := negb (ends_with [NUL] raw) in
    let paths := List.filter (fun entry => negb (is_empty entry)) (split_char NUL raw) in
    (if truncated then removelast paths else paths, truncated).

(** [str::trim_matches] with one character, and [str::trim_start_matches] with a
    string (which has no more occurrences than characters). *)
Fixpoint trim_start_char (c : char) (s : str) : str :=
  match s with
  | x :: rest => if N.eqb x c then trim_start_char c rest else s
  | [] => []
  end.
Definition trim_matches_char (c : char) (s : str) : str :=
  rev (trim_start_char c (rev (trim_start_char c s))).
Fixpoint trim_start_loop (fuel : nat) (p s : str) : str :=
  match fuel, strip_prefix p s with
  | S fuel, Some rest => trim_start_loop fuel p rest
  | _, _ => s
  end.
Definition trim_start_matches (p s : str) : str := trim_start_loop (length s) p s.

Definition normalize_scope (path : option str) : str :=
  let raw := trim (unwrap_or [] path) in
  let trimmed := trim_matches_char SEP raw in
  if is_empty trimmed || (trimmed ==? lit ".") then []
  else trim_start_matches (lit "./") trimmed ++ [SEP].

(** ** Rollup *)

(** The text up to and with its [k]-th separator, counting from 0. *)
Fixpoint take_through (k : nat) (s : str) : option str :=
  match s with
  | [] => None
  | c :: rest =>
      if N.eqb c SEP
      then match k with
           | O => Some [c]
           | S k => cons c <$> take_through k rest
           end
      else cons c <$> take_through k rest
  end.

Definition rollup_key (relative : str) (depth : nat) : str := unwrap_or relative (take_through (depth - 1) relative).

Definition same_str (a b : str) : bool := a ==? b.

(** [sort_unstable] followed by [dedup]. *)
Definition sort_dedup (l : list str) : list str := dedup_by same_str (sort_by str_leb l).

Definition entry_count_at_depth (relatives : list str) (depth : nat) : nat :=
  length (sort_dedup (map (fun rel => rollup_key rel depth) relatives)).

Definition separators (s : str) : nat := length (List.filter (N.eqb SEP) s).

Definition deepest_depth (relatives : list str) : nat :=
  Nat.min (match map (fun rel => separators rel + 1) relatives with
           | [] => 1
           | d :: ds => foldl Nat.max d ds
           end) MAX_AUTO_DEPTH.

(** [for depth in (1..=deepest).rev()]. *)
Fixpoint auto_loop (relatives : list str) (limit depth : nat) : nat :=
  match depth with
  | O => 1
  | S d => if Nat.leb (entry_count_at_depth relatives depth) limit then depth else auto_loop relatives limit d
  end.

Definition auto_depth (relatives : list str) (limit : nat) : nat :=
  auto_loop relatives limit (deepest_depth relatives).

(** One relative path joins the last entry or starts a new one; the entries are
    kept last first. *)
Definition roll_key (rolled : list (str * nat)) (key : str) : list (str * nat) :=
  match rolled with
  | (last, count) :: rest => if last ==? key then (last, S count) :: rest else (key, 1) :: rolled
  | [] => [(key, 1)]
  end.

Definition rolled_keys (keys : list str) : list (str * nat) := rev (foldl roll_key [] keys).

Definition rolled_entry (scope : str) (kc : str * nat) : ListingEntry :=
  let '(key, count) := kc in
  let is_dir := ends_with [SEP] key in
  mkEntry (scope ++ key) (if is_dir then EntryDir else EntryFile) (if is_dir then Some count else None).

Section Visible.
Context (to_lowercase : str -> str).

Definition in_scope (scope path : str) : bool := is_empty scope || starts_with scope path.

Definition glob_selected (globs : list str) (path : str) : bool :=
  is_empty globs || existsb (fun glob => glob_matches glob path ==? Some true) globs.

Definition matched_paths (paths : list str) (scope : str) (globs : list str) : list str :=
  sort_dedup
    (List.filter (glob_selected globs)
       (List.filter (in_scope scope)
          (List.filter (fun path => negb (is_bulk_skipped_path to_lowercase path)) paths))).

(** The part of each path behind the scope. *)
Fixpoint relative_paths (scope : str) (matched : list str) : option (list str) :=
  match matched with
  | [] => Some []
  | path :: rest =>
      relative ← byte_drop path (Z.min (str_len scope) (str_len path));
      others ← relative_paths scope rest;
      Some (relative :: others)
  end.

Definition effective_depth (relatives : list str) (depth : option nat) (limit : nat) : option nat * bool :=
  match depth with
  | Some requested => (Some (Nat.max requested 1), false)
  | None => if Nat.leb (length relatives) limit then (None, false) else (Some (auto_depth relatives limit), true)
  end.

Definition all_entries (matched relatives : list str) (scope : str) (depth : option nat) : list ListingEntry :=
  match depth with
  | None => map (fun path => mkEntry path EntryFile None) matched
  | Some depth => map (rolled_entry scope) (rolled_keys (map (fun rel => rollup_key rel depth) relatives))
  end.

Definition build_listing (paths : list str) (scope : str) (globs : list str) (depth : option nat)
  (limit offset : nat) : option Listing :=
  let limit := Nat.max limit 1 in
  let matched := matched_paths paths scope globs in
  relatives ← relative_paths scope matched;
  let '(eff_depth, depth_auto) := effective_depth relatives depth limit in
  let entries := all_entries matched relatives scope eff_depth in
  let total_entries := length entries in
  let start := Nat.min offset total_entries in
  let rest := drop start entries in
  let truncated := Nat.ltb limit (length rest) in
  Some (mkListing (take limit rest) (length matched) total_entries eff_depth depth_auto truncated
          (if truncated then Some (start + limit) else None)).
End Visible.

(** ** Sorted lists without duplicates *)

Definition sorted_strs : list str -> Prop := StronglySorted (fun a b => str_leb a b = true).

Lemma str_leb_refl (a : str) : str_leb a a = true.
Proof. by destruct (str_leb_total a a). Qed.

Lemma dedup_from_spec (kept : str) (l : list str) :
  sorted_strs (kept :: l) ->
  sorted_strs (kept :: dedup_from same_str kept l) /\ NoDup (kept :: dedup_from same_str kept l)
  /\ forall x, x ∈ kept :: dedup_from same_str kept l <-> x ∈ kept :: l.
Proof.
  revert kept. induction l as [|y l IH]; intros kept Hs; [by split_and!; [ | apply NoDup_singleton | ] | ].
  cbn [dedup_from]. destruct (same_str kept y) eqn:E; unfold same_str in E.
  - apply beq_true in E as <-. apply StronglySorted_inv in Hs as [Hs _]. destruct (IH kept Hs) as (I1 & I2 & I3).
    split_and!; [done | done | ]. intros x. rewrite I3, !elem_of_cons. tauto.
  - apply beq_false in E. apply StronglySorted_inv in Hs as [Hs Hf]. destruct (IH y Hs) as (I1 & I2 & I3).
    assert (Hall : Forall (fun b => str_leb kept b = true) (y :: dedup_from same_str y l)).
    { apply Forall_forall. intros x Hx%I3. rewrite Forall_forall in Hf. by apply Hf. }
    split_and!; [by constructor | | ].
    + constructor; [ | done]. intros Hin. apply E. apply StronglySorted_inv in Hs as [_ Hy].
      apply I3, elem_of_cons in Hin as [->|Hin]; [done | ].
      rewrite Forall_forall in Hy. apply str_leb_antisym; [ | by apply Hy].
      apply Forall_cons in Hall as [Hky _]. exact Hky.
    + intros x. rewrite (elem_of_cons _ x kept), (elem_of_cons _ x kept), I3. done.
Qed.

Lemma dedup_by_spec (l : list str) :
  sorted_strs l -> sorted_strs (dedup_by same_str l) /\ NoDup (dedup_by same_str l)
  /\ forall x, x ∈ dedup_by same_str l <-> x ∈ l.
Proof.
  destruct l as [|x l]; [intros _; split_and!; [constructor | constructor | done] | ]. apply dedup_from_spec.
Qed.

Lemma sort_dedup_spec (l : list str) :
  sorted_strs (sort_dedup l) /\ NoDup (sort_dedup l) /\ forall x, x ∈ sort_dedup l <-> x ∈ l.
Proof.
  destruct (dedup_by_spec (sort_by str_leb l)) as (D1 & D2 & D3).
  { apply sort_by_sorted; [exact str_leb_total | exact str_leb_trans]. }
  split_and!; [done | done | ]. intros x. unfold sort_dedup. by rewrite D3, sort_by_perm.
Qed.

(** The number of distinct strings does not depend on how they are listed. *)
Lemma distinct_count (l k : list str) : NoDup k -> (forall x, x ∈ k <-> x ∈ l) -> length (sort_dedup l) = length k.
Proof.
  intros Hk Hx. destruct (sort_dedup_spec l) as (_ & Hn & Hl).
  apply Permutation_length, NoDup_Permutation; [done | done | ]. intros x. by rewrite Hl, Hx.
Qed.

(** ** Rollup keys *)

Fixpoint key_at (k : nat) (s : str) : str :=
  match s with
  | [] => []
  | c :: rest =>
      c :: (if N.eqb c SEP then match k with O => [] | S k => key_at k rest end else key_at k rest)
  end.

Lemma rollup_key_at (s : str) (depth : nat) : rollup_key s depth = key_at (depth - 1) s.
Proof.
  unfold rollup_key. generalize (depth - 1) as k. induction s as [|c s IH]; intros k; [done | ]. cbn.
  assert (Hcons : forall o, unwrap_or (c :: s) (cons c <$> o) = c :: unwrap_or s o) by (by intros [x|]).
  destruct (N.eqb c SEP); [destruct k; [done | ] | ]; by rewrite Hcons, IH.
Qed.

(** Paths in order have their keys in order. *)
Lemma key_at_mono (k : nat) (x y : str) : str_leb x y = true -> str_leb (key_at k x) (key_at k y) = true.
Proof.
  revert k y. induction x as [|c x IH]; intros k [|d y]; cbn; try done.
  destruct (N.ltb_spec c d) as [|Hcd]; [done | ]. destruct (N.ltb_spec d c) as [|Hdc]; [done | ].
  replace d with c by lia. intros H. destruct (N.eqb c SEP); [destruct k; [done | ] | ]; by apply IH.
Qed.

Lemma key_at_prefix (k : nat) (s : str) :
  exists rest, s = key_at k s ++ rest /\ (rest = [] \/ exists d, key_at k s = d ++ [SEP]).
Proof.
  revert k. induction s as [|c s IH]; intros k; [by exists []; auto | ]. cbn.
  destruct (N.eqb_spec c SEP) as [->|].
  - destruct k as [|k]; [exists s; split; [done | right; by exists []] | ].
    destruct (IH k) as (rest & Hs & Hr). exists rest. split; [cbn; by rewrite <- Hs | ].
    destruct Hr as [->|[d Hd]]; [by left | right]. exists (SEP :: d). by rewrite Hd.
  - destruct (IH k) as (rest & Hs & Hr). exists rest. split; [cbn; by rewrite <- Hs | ].
    destruct Hr as [->|[d Hd]]; [by left | right]. exists (c :: d). by rewrite Hd.
Qed.

Lemma rolled_from (keys : list str) (last : str) (count : nat) (rest : list (str * nat)) :
  let rolled := foldl roll_key ((last, count) :: rest) keys in
  map fst (rev rolled) = map fst (rev rest) ++ last :: dedup_from same_str last keys
  /\ sum_list (map snd rolled) = count + sum_list (map snd rest) + length keys
  /\ (forall e, e ∈ rolled -> 0 < count -> Forall (fun e => 0 < snd e) rest -> 0 < snd e).
Proof.
  revert last count rest. induction keys as [|k keys IH]; intros last count rest; cbn zeta.
  { cbn. rewrite map_app. split_and!; [done | lia | ]. intros e [->|He]%elem_of_cons Hc Hr; [done | ].
    rewrite Forall_forall in Hr. by apply Hr. }
  cbn [foldl dedup_from roll_key length]. change (last ==? k) with (same_str last k). destruct (same_str last k) eqn:E.
  - destruct (IH last (S count) rest) as (I1 & I2 & I3). split_and!; [done | lia | ].
    intros e He Hc Hr. apply I3; [done | lia | done].
  - destruct (IH k 1 ((last, count) :: rest)) as (I1 & I2 & I3). split_and!.
    + rewrite I1. cbn. rewrite map_app. cbn. by rewrite <- app_assoc.
    + rewrite I2. cbn. lia.
    + intros e He Hc Hr. apply I3; [done | lia | by constructor].
Qed.

Lemma sum_list_rev (l : list nat) : sum_list (rev l) = sum_list l.
Proof.
  assert (Happ : forall a b, sum_list (a ++ b) = sum_list a + sum_list b)
    by (intros a b; induction a as [|x a IH]; cbn; [done | rewrite IH; lia]).
  induction l as [|x l IH]; cbn; [done | ]. rewrite Happ, IH. cbn. lia.
Qed.

Lemma rolled_keys_spec (keys : list str) :
  map fst (rolled_keys keys) = dedup_by same_str keys /\ sum_list (map snd (rolled_keys keys)) = length keys.
Proof.
  unfold rolled_keys. destruct keys as [|k keys]; [done | ]. cbn [foldl roll_key].
  destruct (rolled_from keys k 1 []) as (I1 & I2 & _). split; [by rewrite I1 | ].
  rewrite map_rev, sum_list_rev, I2. cbn. lia.
Qed.

Lemma rolled_keys_sorted (relatives : list str) (depth : nat) :
  sorted_strs relatives -> sorted_strs (map (fun rel => rollup_key rel depth) relatives).
Proof.
  induction 1 as [|x l Hs IH Hx]; cbn; constructor; [done | ]. apply Forall_forall. intros k Hk.
  apply list_elem_of_In, in_map_iff in Hk as (y & <- & Hy%list_elem_of_In). rewrite !rollup_key_at.
  apply key_at_mono. rewrite Forall_forall in Hx. by apply Hx.
Qed.

(** ** Relative paths *)

Lemma relative_paths_some (scope : str) (matched : list str) :
  Forall (fun path => in_scope scope path = true) matched ->
  exists relatives, relative_paths scope matched = Some relatives /\ matched = map (app scope) relatives.
Proof.
  induction 1 as [|path matched Hp _ (rels & IH & ->)]; [by exists [] | ]. cbn [relative_paths].
  assert (exists rel, path = scope ++ rel) as [rel ->].
  { unfold in_scope in Hp. destruct scope as [|c scope]; [by exists path | ]. cbn in Hp. by apply starts_with_spec. }
  rewrite str_len_app. pose proof (str_len_nonneg rel). rewrite Z.min_l by lia.
  rewrite (proj1 (byte_split scope rel)), IH. by exists (rel :: rels).
Qed.

Lemma str_leb_app (s a b : str) : str_leb (s ++ a) (s ++ b) = str_leb a b.
Proof. induction s as [|c s IH]; [done | ]. cbn. by rewrite N.ltb_irrefl. Qed.

Lemma relatives_sorted (scope : str) (relatives : list str) :
  sorted_strs (map (app scope) relatives) -> sorted_strs relatives.
Proof.
  induction relatives as [|x l IH]; cbn; [constructor | ]. intros [Hs Hf]%StronglySorted_inv. constructor; [by apply IH | ].
  apply Forall_forall. intros y Hy. rewrite Forall_forall in Hf. rewrite <- (str_leb_app scope). apply Hf.
  apply list_elem_of_In, in_map. by apply list_elem_of_In.
Qed.

Section Facts.
Context (to_lowercase : str -> str).

Abbreviation visible := (fun path => negb (is_bulk_skipped_path to_lowercase path)).
Abbreviation matched_paths := (matched_paths to_lowercase).
Abbreviation build_listing := (build_listing to_lowercase).

Lemma matched_spec (paths : list str) (scope : str) (globs : list str) (path : str) :
  path ∈ matched_paths paths scope globs <->
  path ∈ paths /\ is_bulk_skipped_path to_lowercase path = false /\ in_scope scope path = true
  /\ glob_selected globs path = true.
Proof.
  unfold ProjectListing.matched_paths. rewrite (proj2 (proj2 (sort_dedup_spec _))), !list_elem_of_In, !filter_In.
  rewrite negb_true_iff. tauto.
Qed.

(** The matched paths are the scope in front of their relative parts, in order. *)
Lemma matched_relatives (paths : list str) (scope : str) (globs : list str) :
  exists relatives, relative_paths scope (matched_paths paths scope globs) = Some relatives
    /\ matched_paths paths scope globs = map (app scope) relatives
    /\ sorted_strs relatives /\ NoDup relatives.
Proof.
  destruct (relative_paths_some scope (matched_paths paths scope globs)) as (rels & Hr & Hm).
  { apply Forall_forall. intros path Hp%matched_spec. tauto. }
  exists rels. destruct (sort_dedup_spec (List.filter (glob_selected globs)
    (List.filter (in_scope scope) (List.filter visible paths)))) as (S1 & S2 & _).
  change (sorted_strs (matched_paths paths scope globs)) in S1. change (NoDup (matched_paths paths scope globs)) in S2.
  rewrite Hm in S1, S2. split_and!; [done | done | by eapply relatives_sorted | by eapply NoDup_fmap_1].
Qed.

(** The number of files an entry stands for. *)
Definition entry_files (e : ListingEntry) : nat := unwrap_or 1 (entry_file_count e).

(** The entry shows the file, by itself or as a directory above it. *)
Definition shows (e : ListingEntry) (path : str) : Prop :=
  entry_path e = path \/ (entry_kind e = EntryDir /\ starts_with (entry_path e) path = true).

(** The directory in front of a visible path is visible. *)
Lemma directory_visible (d rest : str) :
  is_bulk_skipped_path to_lowercase ((d ++ [SEP]) ++ rest) = false ->
  is_bulk_skipped_path to_lowercase (d ++ [SEP]) = false.
Proof.
  unfold is_bulk_skipped_path, is_secret_path, is_bulk_excluded_path, path_components.
  rewrite <- app_assoc. cbn [app]. rewrite !(split_on_app is_separator SEP) by done. cbn [split_on List.filter].
  rewrite !List.filter_app, !map_app. cbn [List.filter real_component is_empty negb andb map]. rewrite !existsb_app. cbn [existsb].
  intros [H1 H2]%orb_false_iff. apply orb_false_iff in H1 as [-> _]. apply orb_false_iff in H2 as [-> _]. done.
Qed.

Definition adjacent (k : str) (l : list str) : Prop := exists l1 l2, l = l1 ++ k :: k :: l2.

Lemma adjacent_cons (k x : str) (l : list str) : adjacent k l -> adjacent k (x :: l).
Proof. intros (l1 & l2 & ->). by exists (x :: l1), l2. Qed.

(** Only a key met twice in a row counts more than once. *)
Lemma rolled_from_count (keys : list str) (last : str) (count : nat) (rest : list (str * nat)) (k : str) (c : nat) :
  (k, c) ∈ foldl roll_key ((last, count) :: rest) keys -> 1 < c ->
  (k, c) ∈ rest \/ (k = last /\ 1 < count) \/ adjacent k (last :: keys).
Proof.
  revert last count rest. induction keys as [|k0 keys IH]; intros last count rest.
  { cbn. intros [[= -> ->]|He]%elem_of_cons Hc; auto. }
  cbn [foldl roll_key]. destruct (last ==? k0) eqn:E; intros He Hc; destruct (IH _ _ _ He Hc) as [H|[[-> H]|H]].
  - by left.
  - right; right. apply beq_true in E as <-. by exists [], keys.
  - right; right. apply beq_true in E as <-. by apply adjacent_cons.
  - apply elem_of_cons in H as [[= -> ->]|H]; auto.
  - lia.
  - right; right. by apply adjacent_cons.
Qed.

Lemma rolled_keys_count (keys : list str) (k : str) (c : nat) :
  (k, c) ∈ rolled_keys keys -> 0 < c /\ (1 < c -> adjacent k keys).
Proof.
  unfold rolled_keys. intros He%list_elem_of_In%in_rev%list_elem_of_In.
  destruct keys as [|k0 keys]; [by apply not_elem_of_nil in He | ]. cbn [foldl roll_key] in He.
  destruct (rolled_from keys k0 1 []) as (_ & _ & I3). split; [apply (I3 _ He); [lia | constructor] | ].
  intros Hc. destruct (rolled_from_count _ _ _ _ _ _ He Hc) as [H|[[_ H]|H]]; [by apply not_elem_of_nil in H | lia | done].
Qed.

(** The key of a path is the path or a directory above it. *)
Lemma rollup_key_shape (rel : str) (depth : nat) :
  rollup_key rel depth = rel
  \/ exists d rest, rollup_key rel depth = d ++ [SEP] /\ rel = (d ++ [SEP]) ++ rest.
Proof.
  rewrite rollup_key_at. destruct (key_at_prefix (depth - 1) rel) as (rest & Hr & [->|[d Hd]]).
  - left. rewrite app_nil_r in Hr. congruence.
  - right. exists d, rest. by rewrite <- Hd.
Qed.

Lemma ends_with_sep (d : str) : ends_with [SEP] (d ++ [SEP]) = true.
Proof. unfold ends_with. by rewrite (proj2 (strip_suffix_spec [SEP] (d ++ [SEP]) d)). Qed.

Lemma rolled_entry_files (relatives : list str) (scope : str) (depth : nat) (kc : str * nat) :
  NoDup relatives -> kc ∈ rolled_keys (map (fun rel => rollup_key rel depth) relatives) ->
  entry_files (rolled_entry scope kc) = snd kc.
Proof.
  destruct kc as [k c]. intros Hn Hk. destruct (rolled_keys_count _ _ _ Hk) as [H0 H1]. unfold entry_files. cbn.
  destruct (ends_with [SEP] k) eqn:He; [done | ]. cbn. destruct (decide (1 < c)) as [Hc|]; [ | lia]. exfalso.
  destruct (H1 Hc) as (l1 & l2 & Hm). apply map_eq_app in Hm as (r1 & r2 & -> & _ & Hm).
  destruct r2 as [|x [|y r2]]; try done. injection Hm as Hx Hy _.
  assert (Hplain : forall r, rollup_key r depth = k -> r = k).
  { intros r Hr. destruct (rollup_key_shape r depth) as [E|(d & rest & Hd & _)]; [congruence | ].
    rewrite <- Hr, Hd, ends_with_sep in He. done. }
  apply Hplain in Hx, Hy. subst x y. apply NoDup_app in Hn as (_ & _ & Hn). apply NoDup_cons in Hn as [Hn _].
  apply Hn. by left.
Qed.

Lemma rolled_facts (relatives : list str) (scope : str) (depth : nat) :
  sorted_strs relatives -> NoDup relatives ->
  let entries := map (rolled_entry scope) (rolled_keys (map (fun rel => rollup_key rel depth) relatives)) in
  NoDup (map entry_path entries)
  /\ length entries = entry_count_at_depth relatives depth
  /\ sum_list (map entry_files entries) = length relatives
  /\ (forall rel, rel ∈ relatives -> exists e, e ∈ entries /\ shows e (scope ++ rel))
  /\ (forall e, e ∈ entries -> exists rel, rel ∈ relatives /\ entry_path e = scope ++ rollup_key rel depth).
Proof.
  intros Hs Hn. cbn zeta. set (keys := map (fun rel => rollup_key rel depth) relatives).
  pose proof (rolled_keys_sorted relatives depth Hs) as Hks. fold keys in Hks.
  destruct (rolled_keys_spec keys) as [Hfst Hsum]. destruct (dedup_by_spec keys Hks) as (_ & Hd & Hin).
  assert (Hpath : map entry_path (map (rolled_entry scope) (rolled_keys keys)) = map (app scope) (dedup_by same_str keys)).
  { rewrite <- Hfst, !map_map. apply map_ext. by intros [k c]. }
  split_and!.
  - rewrite Hpath. apply NoDup_fmap_2; [ | done]. intros a b Hab. by apply app_inv_head in Hab.
  - rewrite length_map, <- (length_map fst), Hfst. unfold entry_count_at_depth. fold keys.
    symmetry. by apply distinct_count.
  - rewrite map_map. replace (map _ (rolled_keys keys)) with (map snd (rolled_keys keys)); [rewrite Hsum; apply length_map | ].
    apply map_ext_in. intros kc Hk%list_elem_of_In. by rewrite (rolled_entry_files relatives scope depth kc Hn Hk).
  - intros rel Hr. assert (Hk : rollup_key rel depth ∈ map fst (rolled_keys keys)).
    { rewrite Hfst, Hin. apply list_elem_of_In, in_map_iff. exists rel. split; [done | by apply list_elem_of_In]. }
    apply list_elem_of_In, in_map_iff in Hk as ([k c] & Hk & He). cbn in Hk. subst k.
    exists (rolled_entry scope (rollup_key rel depth, c)). split; [apply list_elem_of_In, in_map, He | ]. unfold shows. cbn.
    destruct (rollup_key_shape rel depth) as [E|(d & rest & Hk & Hrel)]; [left; by rewrite E | right].
    rewrite Hk, ends_with_sep. split; [done | ]. apply starts_with_spec. exists rest. rewrite Hrel at 1. by rewrite app_assoc.
  - intros e He. apply list_elem_of_In, in_map_iff in He as ([k c] & <- & He).
    assert (Hk : k ∈ keys) by (apply Hin; rewrite <- Hfst; apply list_elem_of_In, in_map_iff; by exists (k, c)).
    apply list_elem_of_In, in_map_iff in Hk as (rel & <- & Hr). exists rel. split; [by apply list_elem_of_In | done].
Qed.

Lemma auto_loop_spec (relatives : list str) (limit depth : nat) :
  let d := auto_loop relatives limit depth in
  1 <= d /\ (d = 1 \/ entry_count_at_depth relatives d <= limit)
  /\ forall d', d < d' <= depth -> limit < entry_count_at_depth relatives d'.
Proof.
  induction depth as [|depth IH]; cbn zeta; [split_and!; [cbn; lia | by left | cbn; lia] | ]. cbn [auto_loop].
  destruct (Nat.leb_spec (entry_count_at_depth relatives (S depth)) limit) as [Hle|Hgt].
  - split_and!; [lia | by right | lia].
  - destruct IH as (I1 & I2 & I3). split_and!; [done | done | ]. intros d' Hd.
    destruct (decide (d' = S depth)) as [->|]; [done | ]. apply I3. lia.
Qed.

(** ** The listing as a whole *)

(** Everything there is to list, before paging. *)
Definition listing_entries (paths : list str) (scope : str) (globs : list str) (depth : option nat) (limit : nat)
  : option (list ListingEntry) :=
  let matched := matched_paths paths scope globs in
  relatives ← relative_paths scope matched;
  Some (all_entries matched relatives scope (fst (effective_depth relatives depth (Nat.max limit 1)))).

(** A client that asks for the next page as long as there is one. *)
Fixpoint follow_pages (fuel : nat) (paths : list str) (scope : str) (globs : list str) (depth : option nat)
  (limit offset : nat) : option (list (list ListingEntry)) :=
  match fuel with
  | O => None
  | S fuel =>
      l ← build_listing paths scope globs depth limit offset;
      match lst_next_offset l with
      | None => Some [lst_entries l]
      | Some next => cons (lst_entries l) <$> follow_pages fuel paths scope globs depth limit next
      end
  end.

Lemma build_listing_page (paths : list str) (scope : str) (globs : list str) (depth : option nat)
  (limit offset : nat) (entries : list ListingEntry) :
  listing_entries paths scope globs depth limit = Some entries ->
  exists l, build_listing paths scope globs depth limit offset = Some l
    /\ let start := Nat.min offset (length entries) in
       let rest := drop start entries in
       lst_entries l = take (Nat.max limit 1) rest /\ lst_total_entries l = length entries
       /\ lst_total_files l = length (matched_paths paths scope globs)
       /\ lst_next_offset l = if Nat.ltb (Nat.max limit 1) (length rest) then Some (start + Nat.max limit 1) else None.
Proof.
  unfold listing_entries, ProjectListing.build_listing. cbn zeta.
  destruct (relative_paths scope (matched_paths paths scope globs)) as [rels|]; [ | done]. cbn [mbind option_bind].
  destruct (effective_depth rels depth (Nat.max limit 1)) as [d auto]. cbn [fst]. intros [= <-].
  eexists. split; [reflexivity | ]. cbn. done.
Qed.

Lemma follow_pages_from (fuel : nat) (paths : list str) (scope : str) (globs : list str) (depth : option nat)
  (limit offset : nat) (entries : list ListingEntry) :
  listing_entries paths scope globs depth limit = Some entries ->
  offset <= length entries -> length entries - offset < fuel ->
  exists pages, follow_pages fuel paths scope globs depth limit offset = Some pages
    /\ concat pages = drop offset entries /\ Forall (fun page => length page <= Nat.max limit 1) pages.
Proof.
  intros He. revert offset. induction fuel as [|fuel IH]; intros offset Ho Hf; [lia | ]. cbn [follow_pages].
  destruct (build_listing_page paths scope globs depth limit offset entries He) as (l & -> & Hl & _ & _ & Hn).
  cbn zeta in *. cbn [mbind option_bind]. rewrite Nat.min_l in Hl, Hn by lia. rewrite length_drop in Hn. rewrite Hl, Hn.
  assert (Hpage : length (take (Nat.max limit 1) (drop offset entries)) <= Nat.max limit 1) by (rewrite length_take; lia).
  destruct (Nat.ltb_spec (Nat.max limit 1) (length entries - offset)) as [Hlt|Hge].
  - destruct (IH (offset + Nat.max limit 1) ltac:(lia) ltac:(lia)) as (pages & -> & Hc & Ha).
    eexists. split; [reflexivity | ]. split; [ | by constructor]. cbn [concat]. rewrite Hc, <- drop_drop. apply take_drop.
  - eexists. split; [reflexivity | ]. split; [ | by repeat constructor]. cbn [concat]. rewrite app_nil_r.
    apply take_ge. rewrite length_drop. lia.
Qed.

(** Paging a listing is total and complete: it never panics, whatever the paths,
    and following the reported offsets from 0 ends, every page holds at most the
    requested number of entries, and the pages put together are the whole listing,
    each entry once and in order. *)
Lemma listing_pages_complete (paths : list str) (scope : str) (globs : list str) (depth : option nat) (limit : nat) :
  exists entries pages,
    listing_entries paths scope globs depth limit = Some entries
    /\ follow_pages (S (length entries)) paths scope globs depth limit 0 = Some pages
    /\ concat pages = entries /\ Forall (fun page => length page <= Nat.max limit 1) pages.
Proof.
  destruct (matched_relatives paths scope globs) as (rels & Hr & _).
  assert (exists entries, listing_entries paths scope globs depth limit = Some entries) as [entries He].
  { unfold listing_entries. rewrite Hr. by eexists. }
  destruct (follow_pages_from (S (length entries)) paths scope globs depth limit 0 entries He) as (pages & Hp & Hc & Ha);
    [lia | lia | ]. by exists entries, pages.
Qed.

(** A listing shows exactly the files that may be shown. Its entries are
    distinct; the files they stand for (one for a file, the count of a directory) add
    up to the number of tracked files that are not sensitive, in the scope and
    selected by a glob; each such file is an entry or lies under a directory entry;
    and no entry is a sensitive path or directory. *)
Lemma listing_shows_visible_files (paths : list str) (scope : str) (globs : list str) (depth : option nat)
  (limit : nat) (entries : list ListingEntry)
  (Hentries : listing_entries paths scope globs depth limit = Some entries) :
  let matched := matched_paths paths scope globs in
  NoDup (map entry_path entries)
  /\ sum_list (map entry_files entries) = length matched
  /\ (forall path, path ∈ paths -> is_bulk_skipped_path to_lowercase path = false -> in_scope scope path = true ->
        glob_selected globs path = true -> exists e, e ∈ entries /\ shows e path)
  /\ (forall e, e ∈ entries -> is_bulk_skipped_path to_lowercase (entry_path e) = false).
Proof.
  cbn zeta. unfold listing_entries in Hentries. destruct (matched_relatives paths scope globs) as (rels & Hr & Hm & Hs & Hn).
  rewrite Hr in Hentries. cbn [mbind option_bind] in Hentries. injection Hentries as <-.
  assert (Hvis : forall rel, rel ∈ rels -> is_bulk_skipped_path to_lowercase (scope ++ rel) = false).
  { intros rel Hin. assert (scope ++ rel ∈ matched_paths paths scope globs) as H%matched_spec; [ | tauto].
    rewrite Hm. apply list_elem_of_In, in_map. by apply list_elem_of_In. }
  assert (Hfind : forall path, path ∈ paths -> is_bulk_skipped_path to_lowercase path = false -> in_scope scope path = true ->
    glob_selected globs path = true -> path ∈ map (app scope) rels).
  { intros path H1 H2 H3 H4. rewrite <- Hm. by apply matched_spec. }
  destruct (fst (effective_depth rels depth (Nat.max limit 1))) as [d|]; cbn [all_entries].
  - destruct (rolled_facts rels scope d Hs Hn) as (F1 & _ & F3 & F4 & F5). split_and!; [done | | | ].
    + rewrite F3, Hm. by rewrite length_map.
    + intros path H1 H2 H3 H4. specialize (Hfind path H1 H2 H3 H4).
      apply list_elem_of_In, in_map_iff in Hfind as (rel & <- & Hin). apply F4. by apply list_elem_of_In.
    + intros e He. destruct (F5 e He) as (rel & Hin & ->). specialize (Hvis rel Hin).
      destruct (rollup_key_shape rel d) as [->|(dir & rest & -> & Hrel)]; [done | ].
      rewrite app_assoc. apply (directory_visible (scope ++ dir) rest). rewrite Hrel in Hvis. by rewrite !app_assoc in *.
  - assert (Hp : map entry_path (map (fun path => mkEntry path EntryFile None) (matched_paths paths scope globs))
                = matched_paths paths scope globs) by (rewrite map_map; apply map_id).
    split_and!.
    + rewrite Hp, Hm. apply NoDup_fmap_2; [ | done]. intros a b Hab. by apply app_inv_head in Hab.
    + rewrite map_map. cbn. clear. induction (matched_paths paths scope globs) as [|x l IH]; cbn; [done | by rewrite IH].
    + intros path H1 H2 H3 H4. specialize (Hfind path H1 H2 H3 H4). rewrite <- Hm in Hfind.
      exists (mkEntry path EntryFile None). split; [ | by left]. apply list_elem_of_In, in_map_iff. exists path. split; [done | by apply list_elem_of_In].
    + intros e He. apply list_elem_of_In, in_map_iff in He as (path & <- & Hin%list_elem_of_In). cbn. apply matched_spec in Hin. tauto.
Qed.

(** When no depth is asked for, the listing is flat if it fits the limit and
    otherwise rolled up to the deepest depth that fits: it has at most the limit's
    number of entries, unless even the top level has more, and every greater depth
    (up to the deepest considered) would exceed the limit. *)
Lemma auto_depth_deepest_fit (paths : list str) (scope : str) (globs : list str) (limit offset : nat) (l : Listing)
  (Hlist : build_listing paths scope globs None limit offset = Some l) :
  exists relatives, relative_paths scope (matched_paths paths scope globs) = Some relatives
    /\ match lst_depth l with
       | None => lst_total_entries l = lst_total_files l /\ lst_total_files l <= Nat.max limit 1
       | Some d =>
           lst_depth_auto l = true /\ lst_total_entries l = entry_count_at_depth relatives d
           /\ (d = 1 \/ lst_total_entries l <= Nat.max limit 1)
           /\ (forall d', d < d' <= deepest_depth relatives -> Nat.max limit 1 < entry_count_at_depth relatives d')
       end.
Proof.
  destruct (matched_relatives paths scope globs) as (rels & Hr & Hm & Hs & Hn). exists rels. split; [done | ].
  unfold ProjectListing.build_listing in Hlist. rewrite Hr in Hlist. cbn [mbind option_bind effective_depth] in Hlist.
  assert (Hlen : length (matched_paths paths scope globs) = length rels) by (rewrite Hm; apply length_map).
  destruct (Nat.leb_spec (length rels) (Nat.max limit 1)) as [Hle|Hgt]; injection Hlist as <-; cbn.
  - rewrite length_map. lia.
  - destruct (rolled_facts rels scope (auto_depth rels (Nat.max limit 1)) Hs Hn) as (_ & F2 & _).
    destruct (auto_loop_spec rels (Nat.max limit 1) (deepest_depth rels)) as (_ & A2 & A3).
    rewrite F2. split_and!; [done | done | exact A2 | exact A3].
Qed.
End Facts.

Definition sample_paths : list str :=
  [lit "src/a.rs"; lit ".env"; lit "src/db/b.rs"; lit "src/db/c.rs"; lit "README.md"].

Lemma listing_shows_visible_files_witness :
  exists entries, listing_entries to_ascii_lowercase sample_paths [] [] (Some 1) 10 = Some entries
    /\ map entry_path entries = [lit "README.md"; lit "src/"]
    /\ sum_list (map entry_files entries) = 4.
Proof.
  eexists. split; [reflexivity | ]. split; [reflexivity | ].
  refine (eq_trans (proj1 (proj2 (listing_shows_visible_files to_ascii_lowercase sample_paths [] [] (Some 1) 10 _ eq_refl))) _).
  reflexivity.
Defined.

Lemma auto_depth_deepest_fit_witness :
  exists l, build_listing to_ascii_lowercase sample_paths [] [] None 3 0 = Some l /\ lst_depth l = Some 2
    /\ exists relatives, relative_paths [] (matched_paths to_ascii_lowercase sample_paths [] []) = Some relatives
         /\ lst_total_entries l = entry_count_at_depth relatives 2.
Proof.
  eexists. split; [vm_compute; reflexivity | ]. split; [reflexivity | ].
  destruct (auto_depth_deepest_fit to_ascii_lowercase sample_paths [] [] 3 0 _ eq_refl) as (rels & Hr & _ & Hc & _).
  exists rels. split; [exact Hr | exact Hc].
Defined.
