(* ===== verification/JobLog.v ===== *)
(** * JobLog: crates/webcodex-runner-registry/src/jobs.rs, retained log streams

    The bounded live log of a Job: appending output under a byte limit with
    absolute line numbers, replacing it by a final result or by a Runner
    snapshot, and reading a window of lines.  Line numbers are [usize] values in
    [Z]; a slice at a byte offset inside a character is a panic, [None]. *)
From S2P Require Import Prelude RustStr.

Definition ORDINARY_RESULT_STREAM_RETENTION_BYTES : Z := 256 * 1024.
Definition LIVE_JOB_STREAM_RETENTION_BYTES : Z := 256 * 1024.
Definition JOB_SNAPSHOT_STREAM_MAX_BYTES : Z := 64 * 1024.

Record ShellJobLogState : Type := mkLog {
  tail : str;
  first_retained_line : Z;
  next_line : Z;
  truncated : bool
}.

#[export] Instance eta_log : Eta ShellJobLogState := fun l =>
  mkLog (tail l) (first_retained_line l) (next_line l) (truncated l).

#[export] Instance ShellJobLogState_eq_dec : EqDecision ShellJobLogState.
Proof. solve_decision. Defined.

Definition ShellJobLogState_default : ShellJobLogState := mkLog [] 1 1 false.

Record ShellJobStreamSnapshot : Type := mkStreamSnapshot {
  ss_tail : str;
  ss_first_retained_line : Z;
  ss_next_line : Z;
  ss_truncated : bool
}.

(** ** Byte offsets *)

(** [while start < s.len() && !s.is_char_boundary(start) { start += 1 }]; the
    fuel given is the distance to the end of the text. *)
Fixpoint boundary_loop (fuel : nat) (s : str) (start : Z) : Z :=
  match fuel with
  | O => start
  | S f => if (Z.ltb start (str_len s) && negb (is_char_boundary s start))%bool
           then boundary_loop f s (start + 1)%Z else start
  end.
Definition next_boundary (s : str) (start : Z) : Z :=
  boundary_loop (Z.to_nat (str_len s - start)) s start.

(** [s.find('\n')] as a byte offset. *)
Definition find_lf (s : str) : option Z := (fun '(before, _) => str_len before) <$> split_once LF s.

(** [slice.bytes().filter(|byte| *byte == b'\n').count()]. *)
Definition count_lf_bytes (s : str) : Z := Z.of_nat (count_lf (as_bytes s)).

(** ** Operations *)

Definition retain_result_stream_to (value : option str) (max_bytes : Z) : option (option str) :=
  match value with
  | None => Some None
  | Some s =>
      if Z.leb (str_len s) max_bytes then Some (Some s)
      else
        let start := next_boundary s (str_len s - max_bytes) in
        kept ← byte_drop s start;
        Some (Some (lit "[output truncated to last " ++ fmt_Z max_bytes ++ lit " bytes]" ++ [LF] ++ kept))
  end.

Definition retain_ordinary_result_stream (value : option str) : option (option str) :=
  retain_result_stream_to value ORDINARY_RESULT_STREAM_RETENTION_BYTES.

Definition retain_live_job_stream (value : option str) : option (option str) :=
  retain_result_stream_to value LIVE_JOB_STREAM_RETENTION_BYTES.

Definition retained_line_count (value : str) : Z := Z.of_nat (length (str_lines value)).

(** Drops the first [drop_end] bytes and counts their line feeds. *)
Definition drain_log (target : ShellJobLogState) (drop_end : Z) : option ShellJobLogState :=
  dropped ← byte_take (tail target) drop_end;
  kept ← byte_drop (tail target) drop_end;
  Some (target <| tail := kept |>
               <| first_retained_line :=
                    usize_sat_add (first_retained_line target) (count_lf_bytes dropped) |>).

Definition trim_log (target : ShellJobLogState) : option ShellJobLogState :=
  let observed_next := usize_sat_add (first_retained_line target) (retained_line_count (tail target)) in
  let minimum_start := (str_len (tail target) - LIVE_JOB_STREAM_RETENTION_BYTES)%Z in
  behind ← byte_drop (tail target) minimum_start;
  drained ← match find_lf behind with
            | Some relative_newline => drain_log target (minimum_start + relative_newline + 1)%Z
            | None => drain_log target (next_boundary (tail target) minimum_start)
            end;
  let target' := if is_empty (tail drained) then drained <| first_retained_line := observed_next |>
                 else drained in
  Some (target' <| truncated := true |>).

Definition append_log_limited (target : ShellJobLogState) (chunk : option str)
  : option ShellJobLogState :=
  match chunk with
  | None => Some target
  | Some chunk =>
      let target := target <| tail := tail target ++ chunk |> in
      target ← (if Z.ltb LIVE_JOB_STREAM_RETENTION_BYTES (str_len (tail target))
                then trim_log target else Some target);
      Some (target <| next_line :=
              usize_sat_add (first_retained_line target) (retained_line_count (tail target)) |>)
  end.

Definition has_leading_result_retention_truncation_marker (value : str) : bool :=
  if starts_with (lit "[output truncated]" ++ [LF]) value || starts_with (lit "[...]" ++ [LF]) value
  then true
  else
    match strip_prefix (lit "[output truncated to last ") value with
    | None => false
    | Some rest =>
        match split_once LF rest with
        | None => false
        | Some (marker_tail, _) =>
            match strip_suffix (lit " bytes]") marker_tail with
            | None => false
            | Some byte_count => negb (is_empty byte_count) && forallb is_ascii_digit (as_bytes byte_count)
            end
        end
    end.

Definition replace_log_limited (target : ShellJobLogState) (value : option str)
  : option ShellJobLogState :=
  match value with
  | None => Some target
  | Some value =>
      retained ← retain_live_job_stream (Some value);
      let value := default [] retained in
      Some (mkLog value 1 (usize_sat_add 1 (retained_line_count value))
              (has_leading_result_retention_truncation_marker value))
  end.

Definition replace_log_from_snapshot (target : ShellJobLogState) (snapshot : ShellJobStreamSnapshot)
  : ShellJobLogState :=
  mkLog (ss_tail snapshot) (ss_first_retained_line snapshot) (ss_next_line snapshot)
    (ss_truncated snapshot).

(** A selection of lines as text, each line ended by a line feed. *)
Definition selected_text (lines : list str) : str :=
  let selected := join [LF] lines in
  if is_empty selected then selected else selected ++ [LF].

Definition select_log_lines (log : ShellJobLogState) (since_line tail_lines : option Z)
  : str * Z * Z * bool :=
  let lines := str_lines (tail log) in
  let n := Z.of_nat (length lines) in
  match opt_filter (fun k => Z.ltb 0 k) tail_lines with
  | Some tail_ =>
      let start := usize_sat_sub n tail_ in
      (selected_text (drop (Z.to_nat start) lines), next_line log, usize_sat_sub (next_line log) 1,
       Z.ltb 1 (first_retained_line log) || Z.ltb 0 start || truncated log)
  | None =>
      let requested := Z.max (unwrap_or (first_retained_line log) since_line) (first_retained_line log) in
      let start_idx := Z.min (usize_sat_sub requested (first_retained_line log)) n in
      (selected_text (drop (Z.to_nat start_idx) lines), next_line log, usize_sat_sub (next_line log) 1,
       is_some_and (fun line => Z.ltb line (first_retained_line log)) since_line
       || Z.ltb 0 start_idx || truncated log)
  end.

Definition validate_stream_snapshot (stream : ShellJobStreamSnapshot) (field : str) : result unit str :=
  bail? Z.ltb JOB_SNAPSHOT_STREAM_MAX_BYTES (str_len (ss_tail stream))
    with lit "job inventory " ++ field ++ lit " exceeds " ++ fmt_Z JOB_SNAPSHOT_STREAM_MAX_BYTES
         ++ lit " bytes" ;;
  bail? Z.eqb (ss_first_retained_line stream) 0
        || negb (Z.eqb (ss_next_line stream)
                   (usize_sat_add (ss_first_retained_line stream) (retained_line_count (ss_tail stream))))
    with lit "job inventory " ++ field ++ lit " line range is inconsistent" ;;
  bail? Z.ltb 1 (ss_first_retained_line stream) && negb (ss_truncated stream)
    with lit "job inventory " ++ field ++ lit " omits earlier lines without truncated=true" ;;
  Ok tt.

(** ** Slices *)

Lemma byte_drop_inv (s b : str) (k : Z) :
  byte_drop s k = Some b -> exists a, s = a ++ b /\ k = str_len a.
Proof.
  revert k. induction s as [|c s IH]; intros k; cbn [byte_drop].
  - destruct (Z.eqb_spec k 0) as [->|]; [ | done]. intros [= <-]. by exists [].
  - destruct (Z.eqb_spec k 0) as [->|]; [intros [= <-]; by exists [] | ].
    destruct (Z.ltb k (len_utf8 c)); [done | ]. intros (a & -> & Hk)%IH.
    exists (c :: a). split; [done | simpl; lia].
Qed.

Lemma is_char_boundary_app (a b : str) : is_char_boundary (a ++ b) (str_len a) = true.
Proof. unfold is_char_boundary. by rewrite (proj1 (byte_split a b)). Qed.

(** Within the text, the next boundary is found. *)
Lemma boundary_loop_spec (fuel : nat) (s : str) (start : Z) :
  (0 <= start <= str_len s)%Z -> (str_len s - start <= Z.of_nat fuel)%Z ->
  exists a b, s = a ++ b /\ boundary_loop fuel s start = str_len a /\ (start <= str_len a)%Z
    /\ (is_char_boundary s start = true -> str_len a = start).
Proof.
  revert start. induction fuel as [|f IH]; intros start Hs Hf; cbn [boundary_loop].
  - assert (start = str_len s) by lia. subst. exists s, []. rewrite app_nil_r.
    split_and!; [done | done | lia | done].
  - destruct (Z.ltb_spec start (str_len s)).
    + cbn [andb]. destruct (is_char_boundary s start) eqn:Hb; cbn [negb].
      * unfold is_char_boundary in Hb. destruct (byte_drop s start) as [b|] eqn:Hd; [ | done].
        apply byte_drop_inv in Hd as (a & -> & ->). exists a, b. split_and!; [done | done | lia | done].
      * destruct (IH (start + 1)%Z) as (a & b & -> & He & Hle & _); [lia | lia | ].
        exists a, b. split_and!; [done | done | lia | done].
    + cbn [andb]. assert (start = str_len s) by lia. subst. exists s, []. rewrite app_nil_r.
      split_and!; [done | done | lia | done].
Qed.

Lemma next_boundary_spec (s : str) (start : Z) :
  (0 <= start <= str_len s)%Z ->
  exists a b, s = a ++ b /\ next_boundary s start = str_len a /\ (start <= str_len a)%Z
    /\ (is_char_boundary s start = true -> str_len a = start).
Proof. intros H. apply boundary_loop_spec; [done | lia]. Qed.

(** ** Counting lines *)

Definition lf_count (s : str) : nat := length (List.filter (N.eqb LF) s).

Lemma lf_count_app (a b : str) : lf_count (a ++ b) = lf_count a + lf_count b.
Proof. unfold lf_count. by rewrite List.filter_app, length_app. Qed.

Lemma lf_count_cons (c : char) (s : str) :
  lf_count (c :: s) = if N.eqb LF c then S (lf_count s) else lf_count s.
Proof. unfold lf_count. cbn [List.filter]. by destruct (N.eqb LF c). Qed.

Lemma count_lf_chars (s : str) : count_lf_bytes s = Z.of_nat (lf_count s).
Proof.
  unfold count_lf_bytes, count_lf. f_equal. induction s as [|c s IH]; [done | ].
  unfold as_bytes in *. cbn [flat_map]. rewrite List.filter_app, length_app, IH.
  change (lf_count (c :: s)) with (lf_count ([c] ++ s)). rewrite lf_count_app. f_equal.
  assert (Hhigh : forall b, (128 <= b)%N -> N.eqb LF b = false)
    by (intros b Hb; apply N.eqb_neq; unfold LF; lia).
  unfold encode_utf8, lf_count. destruct (N.ltb_spec c 128); [done | ].
  assert (Hc : N.eqb LF c = false) by (by apply Hhigh).
  assert (Hadd : forall k b, (128 <= k)%N -> N.eqb LF (k + b) = false)
    by (intros k b Hk; apply Hhigh; lia).
  repeat case_match; cbn [List.filter]; by rewrite Hc, !Hadd.
Qed.

Definition line_count (s : str) : nat := length (str_lines s).

Lemma line_count_cons (c : char) (s : str) :
  line_count (c :: s) = if N.eqb LF c then S (line_count s) else Nat.max 1 (line_count s).
Proof.
  unfold line_count, str_lines, split_char. cbn [split_on].
  pose proof (split_on_nonempty (N.eqb LF) s) as Hne.
  destruct (split_on (N.eqb LF) s) as [|l ls]; [done | ].
  destruct (N.eqb LF c); [done | ]. destruct ls as [|l2 ls]; cbn; [by destruct (is_empty l) | ].
  lia.
Qed.

Lemma line_count_terminated (a b : str) :
  line_count ((a ++ [LF]) ++ b) = lf_count (a ++ [LF]) + line_count b.
Proof.
  induction a as [|c a IH]; cbn [app].
  - rewrite line_count_cons. done.
  - rewrite line_count_cons, IH, lf_count_cons, lf_count_app. change (lf_count [LF]) with 1.
    destruct (N.eqb LF c); lia.
Qed.

Lemma line_count_plain (b : str) : b <> [] -> LF ∉ b -> line_count b = 1.
Proof.
  induction b as [|c b IH]; [done | ]. intros _ [Hc Hb]%not_elem_of_cons. rewrite line_count_cons.
  replace (N.eqb LF c) with false by (symmetry; by apply N.eqb_neq).
  destruct b as [|d b]; [done | ]. by rewrite IH.
Qed.

Lemma line_count_open (a b : str) :
  b <> [] -> LF ∉ b -> line_count (a ++ b) = lf_count a + line_count b.
Proof.
  intros Hne Hb. rewrite (line_count_plain b) by done. induction a as [|c a IH]; cbn [app].
  - by rewrite line_count_plain.
  - rewrite line_count_cons, IH, lf_count_cons. destruct (N.eqb LF c); lia.
Qed.

(** ** Appending *)

Definition log_ok (l : ShellJobLogState) : Prop :=
  (1 <= first_retained_line l)%Z
  /\ next_line l = usize_sat_add (first_retained_line l) (retained_line_count (tail l)).

(** The text a trim keeps, and the lines it skips. *)
Definition trims_to (before after : ShellJobLogState) : Prop :=
  exists dropped, tail before = dropped ++ tail after
    /\ line_count (tail before) = lf_count dropped + line_count (tail after)
    /\ first_retained_line after = usize_sat_add (first_retained_line before) (Z.of_nat (lf_count dropped)).

Lemma drain_log_at (target : ShellJobLogState) (a b : str) :
  tail target = a ++ b ->
  drain_log target (str_len a)
  = Some (target <| tail := b |>
                 <| first_retained_line :=
                      usize_sat_add (first_retained_line target) (Z.of_nat (lf_count a)) |>).
Proof.
  intros H. unfold drain_log. rewrite H. destruct (byte_split a b) as [-> ->]. cbn.
  by rewrite count_lf_chars.
Qed.

Lemma find_lf_spec (s : str) :
  match find_lf s with
  | Some k => exists a b, s = a ++ [LF] ++ b /\ k = str_len a
  | None => LF ∉ s
  end.
Proof.
  unfold find_lf. induction s as [|c s IH]; cbn [split_once]; [apply not_elem_of_nil | ].
  destruct (N.eqb_spec c LF) as [->|Hc]; [by exists [], s | ].
  destruct (split_once LF s) as [[a b]|]; cbn in *.
  - destruct IH as (a' & b' & -> & Hk). exists (c :: a'), b'. split; [done | simpl; lia].
  - rewrite not_elem_of_cons. done.
Qed.

Lemma trim_log_spec (t : ShellJobLogState) :
  (LIVE_JOB_STREAM_RETENTION_BYTES < str_len (tail t))%Z ->
  match trim_log t with
  | Some t' => trims_to t t' /\ truncated t' = true
               /\ (str_len (tail t') <= LIVE_JOB_STREAM_RETENTION_BYTES)%Z
  | None => is_char_boundary (tail t) (str_len (tail t) - LIVE_JOB_STREAM_RETENTION_BYTES) = false
  end.
Proof.
  intros Hlen. unfold trim_log, is_char_boundary.
  set (start := (str_len (tail t) - LIVE_JOB_STREAM_RETENTION_BYTES)%Z).
  destruct (byte_drop (tail t) start) as [behind|] eqn:Hd; [ | done]. cbn [mbind option_bind].
  apply byte_drop_inv in Hd as (a & Ht & Ha).
  assert (Hb : str_len behind = LIVE_JOB_STREAM_RETENTION_BYTES).
  { assert (str_len (tail t) = str_len a + str_len behind)%Z by (rewrite Ht; apply str_len_app). lia. }
  assert (Hret : (0 < LIVE_JOB_STREAM_RETENTION_BYTES)%Z) by done.
  pose proof (find_lf_spec behind) as Hf. destruct (find_lf behind) as [k|].
  - destruct Hf as (p & q & Hbq & ->).
    assert (Heq : tail t = (a ++ p ++ [LF]) ++ q) by (rewrite Ht, Hbq, <- !app_assoc; done).
    replace (start + str_len p + 1)%Z with (str_len (a ++ p ++ [LF]))
      by (rewrite !str_len_app, <- Ha; cbn; lia).
    rewrite (drain_log_at t _ q Heq). cbn.
    assert (Hq : (str_len q <= LIVE_JOB_STREAM_RETENTION_BYTES)%Z).
    { rewrite <- Hb, Hbq, !str_len_app. pose proof (str_len_nonneg p).
      pose proof (str_len_nonneg [LF]). lia. }
    assert (Hcount : line_count (tail t) = lf_count (a ++ p ++ [LF]) + line_count q)
      by (rewrite Heq, app_assoc; apply line_count_terminated).
    destruct q as [|c q]; cbn [is_empty]; (split; [exists (a ++ p ++ [LF]); split_and!; [done | done | ] | done]).
    + cbn. unfold retained_line_count. change (length (str_lines (tail t))) with (line_count (tail t)).
      rewrite Hcount. cbn. by rewrite Nat.add_0_r.
    + done.
  - destruct (next_boundary_spec (tail t) start) as (a' & b' & Ht' & Hn & _ & Hexact).
    { rewrite Ht, str_len_app, <- Ha in *. pose proof (str_len_nonneg a). lia. }
    assert (Hs : str_len a' = start).
    { apply Hexact. rewrite Ht, Ha. apply is_char_boundary_app. }
    assert (b' = behind) as ->.
    { pose proof (proj1 (byte_split a behind)) as H1. pose proof (proj1 (byte_split a' b')) as H2.
      rewrite <- Ht, <- Ha in H1. rewrite <- Ht', Hs in H2. congruence. }
    rewrite Hn, (drain_log_at t a' behind Ht'). cbn.
    assert (Hne : behind <> []) by (intros ->; simpl in Hb; lia).
    destruct behind as [|c behind]; [done | ]. cbn [is_empty]. cbn.
    cbn [str_len] in Hb. split; [ | split; [done | lia]]. exists a'. split_and!; [done | | done].
    cbn. rewrite Ht'. by apply line_count_open.
Qed.

(** Appending output keeps the log bounded and its line numbers absolute:
    whenever the append returns, the retained text is a suffix of everything
    received within the retention limit, the next line number is the one an
    untruncated log would have, the first retained line never moves back, and the
    log is flagged as truncated exactly when it was before or lost bytes now. *)
Lemma append_log_absolute_lines (t t' : ShellJobLogState) (chunk : str) :
  append_log_limited t (Some chunk) = Some t' ->
  (1 <= first_retained_line t)%Z ->
  (first_retained_line t + Z.of_nat (line_count (tail t ++ chunk)) <= USIZE_MAX)%Z ->
  log_ok t'
  /\ (exists dropped, tail t ++ chunk = dropped ++ tail t')
  /\ (str_len (tail t') <= LIVE_JOB_STREAM_RETENTION_BYTES)%Z
  /\ (first_retained_line t <= first_retained_line t')%Z
  /\ next_line t' = (first_retained_line t + Z.of_nat (line_count (tail t ++ chunk)))%Z
  /\ truncated t' = truncated t || Z.ltb LIVE_JOB_STREAM_RETENTION_BYTES (str_len (tail t ++ chunk)).
Proof.
  intros H Hfirst Hmax. unfold append_log_limited in H.
  set (t0 := t <| tail := tail t ++ chunk |>) in H. cbn in Hmax.
  destruct (Z.ltb_spec LIVE_JOB_STREAM_RETENTION_BYTES (str_len (tail t0))) as [Hlt|Hge].
  - pose proof (trim_log_spec t0 Hlt) as Hs. destruct (trim_log t0) as [t1|]; [ | done].
    destruct Hs as ((dropped & Htail & Hcount & Hfl) & Htr & Hlen). injection H as <-.
    change (tail t0) with (tail t ++ chunk) in *. change (first_retained_line t0) with (first_retained_line t) in Hfl.
    unfold log_ok, retained_line_count, usize_sat_add in *. cbn in *.
    change (length (str_lines (tail t1))) with (line_count (tail t1)).
    split_and!; try lia; [done | by exists dropped | ].
    rewrite Htr. symmetry. rewrite orb_true_iff. right. by apply Z.ltb_lt.
  - injection H as <-. change (tail t0) with (tail t ++ chunk) in *.
    unfold log_ok, retained_line_count, usize_sat_add in *. cbn in *.
    change (length (str_lines (tail t ++ chunk))) with (line_count (tail t ++ chunk)).
    split_and!; try lia; [done | by exists [] | ].
    replace (Z.ltb _ _) with false by (symmetry; by apply Z.ltb_ge). by rewrite orb_false_r.
Qed.

Lemma append_log_absolute_lines_witness :
  let t := mkLog (lit "a" ++ [LF]) 3 4 true in
  let t' := mkLog (lit "a" ++ [LF] ++ lit "b") 3 5 true in
  log_ok t'
  /\ (exists dropped, tail t ++ lit "b" = dropped ++ tail t')
  /\ (str_len (tail t') <= LIVE_JOB_STREAM_RETENTION_BYTES)%Z
  /\ (first_retained_line t <= first_retained_line t')%Z
  /\ next_line t' = (first_retained_line t + Z.of_nat (line_count (tail t ++ lit "b")))%Z
  /\ truncated t' = truncated t || Z.ltb LIVE_JOB_STREAM_RETENTION_BYTES (str_len (tail t ++ lit "b")).
Proof.
  apply (append_log_absolute_lines (mkLog (lit "a" ++ [LF]) 3 4 true)
           (mkLog (lit "a" ++ [LF] ++ lit "b") 3 5 true) (lit "b"));
    [reflexivity | simpl; lia | vm_compute; discriminate].
Defined.

(** An append fails exactly in one case: the text is over the limit and the
    byte where the retained window would start lies inside a character, where the
    slice that looks for the next line feed panics. *)
Lemma append_log_panic_exact (t : ShellJobLogState) (chunk : str) :
  append_log_limited t (Some chunk) = None
  <-> (LIVE_JOB_STREAM_RETENTION_BYTES < str_len (tail t ++ chunk))%Z
      /\ is_char_boundary (tail t ++ chunk)
           (str_len (tail t ++ chunk) - LIVE_JOB_STREAM_RETENTION_BYTES) = false.
Proof.
  unfold append_log_limited. set (t0 := t <| tail := tail t ++ chunk |>).
  change (tail t ++ chunk) with (tail t0).
  destruct (Z.ltb_spec LIVE_JOB_STREAM_RETENTION_BYTES (str_len (tail t0))) as [Hlt|Hge].
  - pose proof (trim_log_spec t0 Hlt) as Hs. destruct (trim_log t0) as [t1|] eqn:E; cbn.
    + split; [done | ]. intros [_ Hb]. exfalso. unfold trim_log in E.
      unfold is_char_boundary in Hb. by destruct (byte_drop _ _).
    + done.
  - split; [done | intros [Hgt _]; lia].
Qed.

(** Two-byte characters whose window starts in the middle of one of them. *)
Definition straddling_chunk : str := repeat 233%N (Z.to_nat 131072) ++ lit "a".

Lemma append_log_can_panic : append_log_limited ShellJobLogState_default (Some straddling_chunk) = None.
Proof. vm_compute. reflexivity. Qed.

(** ** Replacing *)

Lemma retain_total (value : option str) (max_bytes : Z) :
  (0 <= max_bytes)%Z -> exists r, retain_result_stream_to value max_bytes = Some r.
Proof.
  intros Hm. unfold retain_result_stream_to. destruct value as [s|]; [ | eauto].
  destruct (Z.leb_spec (str_len s) max_bytes); [eauto | ].
  destruct (next_boundary_spec s (str_len s - max_bytes)) as (a & b & -> & -> & _); [lia | ].
  rewrite (proj1 (byte_split a b)). eauto.
Qed.

Definition truncation_marker : str :=
  lit "[output truncated to last " ++ fmt_Z LIVE_JOB_STREAM_RETENTION_BYTES ++ lit " bytes]" ++ [LF].

(** Replacing a live log by a final result never panics, restarts the line
    numbers at one, keeps the whole text when it fits, and otherwise keeps a
    suffix of at most the limit behind a truncation marker, which the marker
    detector recognises, so the log is flagged as truncated. *)
Lemma replace_log_spec (t : ShellJobLogState) (value : str) :
  exists t', replace_log_limited t (Some value) = Some t' /\ log_ok t' /\ first_retained_line t' = 1%Z
  /\ ((str_len value <= LIVE_JOB_STREAM_RETENTION_BYTES)%Z -> tail t' = value)
  /\ ((LIVE_JOB_STREAM_RETENTION_BYTES < str_len value)%Z ->
      truncated t' = true
      /\ exists dropped kept, value = dropped ++ kept /\ tail t' = truncation_marker ++ kept
         /\ (str_len kept <= LIVE_JOB_STREAM_RETENTION_BYTES)%Z).
Proof.
  unfold replace_log_limited, retain_live_job_stream, retain_result_stream_to.
  destruct (Z.leb_spec (str_len value) LIVE_JOB_STREAM_RETENTION_BYTES) as [Hle|Hlt].
  - eexists. split; [reflexivity | ]. split; [by split | ]. split_and!; [done | done | lia].
  - destruct (next_boundary_spec value (str_len value - LIVE_JOB_STREAM_RETENTION_BYTES))
      as (a & b & Hv & Hn & Ha & _); [unfold LIVE_JOB_STREAM_RETENTION_BYTES in *; lia | ].
    subst value. rewrite Hn, (proj1 (byte_split a b)). cbn [mbind option_bind]. eexists.
    split; [reflexivity | ]. split; [by split | ]. split; [done | ]. split; [lia | ]. intros _.
    split; [reflexivity | ]. exists a, b. split; [done | ].
    split; [unfold truncation_marker; by rewrite <- !app_assoc | ].
    rewrite str_len_app in Ha. lia.
Qed.

(** ** Reading *)

(** The retained lines with their absolute numbers. *)
Fixpoint number_from (first : Z) (lines : list str) : list (Z * str) :=
  match lines with
  | [] => []
  | l :: rest => (first, l) :: number_from (first + 1)%Z rest
  end.

Definition lines_since (since first : Z) (lines : list str) : list str :=
  map snd (List.filter (fun p => Z.leb since (fst p)) (number_from first lines)).

Lemma lines_since_all (since first : Z) (lines : list str) :
  (since <= first)%Z -> lines_since since first lines = lines.
Proof.
  unfold lines_since. revert first. induction lines as [|l lines IH]; intros first H; cbn; [done | ].
  replace (Z.leb since first) with true by (symmetry; by apply Z.leb_le). cbn. f_equal. apply IH. lia.
Qed.

Lemma lines_since_drop (since first : Z) (lines : list str) :
  (first <= since)%Z -> lines_since since first lines = drop (Z.to_nat (since - first)) lines.
Proof.
  revert first. induction lines as [|l lines IH]; intros first H; [by rewrite drop_nil | ].
  destruct (decide (since = first)) as [->|Hne].
  { rewrite lines_since_all by lia. by rewrite Z.sub_diag. }
  unfold lines_since. cbn. replace (Z.leb since first) with false by (symmetry; apply Z.leb_gt; lia).
  fold (lines_since since (first + 1) lines). rewrite IH by lia.
  replace (Z.to_nat (since - first)) with (S (Z.to_nat (since - (first + 1)))) by lia. done.
Qed.

(** A follow read returns exactly the retained lines whose absolute number
    is at least the requested one, together with the cursor of the next line;
    reading again at that cursor returns nothing, so no line is delivered twice. *)
Lemma select_log_since (log : ShellJobLogState) (since : Z) :
  log_ok log ->
  (first_retained_line log + Z.of_nat (line_count (tail log)) <= USIZE_MAX)%Z ->
  (select_log_lines log (Some since) None).1.1
  = (selected_text (lines_since since (first_retained_line log) (str_lines (tail log))), next_line log)
  /\ (select_log_lines log (Some (next_line log)) None).1.1 = ([], next_line log).
Proof.
  intros [Hfirst Hnext] Hmax. unfold select_log_lines. cbn [opt_filter unwrap_or fst].
  assert (Hread : forall s,
    drop (Z.to_nat (Z.min (usize_sat_sub (Z.max s (first_retained_line log)) (first_retained_line log))
                      (Z.of_nat (length (str_lines (tail log)))))) (str_lines (tail log))
    = lines_since s (first_retained_line log) (str_lines (tail log))).
  { intros s. unfold usize_sat_sub. destruct (Z.le_gt_cases s (first_retained_line log)).
    - rewrite lines_since_all by done. replace (Z.to_nat _) with 0 by lia. done.
    - rewrite lines_since_drop by lia. set (n := length _).
      destruct (Z.le_gt_cases (s - first_retained_line log) (Z.of_nat n)).
      + f_equal. lia.
      + rewrite !drop_ge by (fold n; lia). done. }
  rewrite !Hread. split; [done | ]. rewrite lines_since_drop.
  - rewrite drop_ge; [done | ]. rewrite Hnext. unfold usize_sat_add, retained_line_count.
    unfold line_count in Hmax. lia.
  - rewrite Hnext. unfold usize_sat_add, retained_line_count. unfold line_count in Hmax. lia.
Qed.

Lemma select_log_since_witness :
  let log := mkLog (lit "a" ++ [LF] ++ lit "b" ++ [LF]) 7 9 true in
  (select_log_lines log (Some 8%Z) None).1.1 = (lit "b" ++ [LF], 9%Z)
  /\ (select_log_lines log (Some 9%Z) None).1.1 = ([], 9%Z).
Proof.
  apply (select_log_since (mkLog (lit "a" ++ [LF] ++ lit "b" ++ [LF]) 7 9 true) 8);
    [split; vm_compute; [discriminate | reflexivity] | vm_compute; discriminate].
Defined.
