(* ===== verification/JobObservation.v ===== *)
(** * JobObservation: crates/webcodex-core/src/job_observation.rs

    Observation tokens, the strings with which a client follows a Job (its id, the
    observation epoch and revision, and the next line of each stream), and the
    projection of a retained stream onto what such a client has not seen yet.
    [None] is a panic of the code. *)
From S2P Require Import Prelude RustStr JobLog.

Local Open Scope Z_scope.

Definition LEGACY_TOKEN_PREFIX : str := lit "wjob1".
Definition TOKEN_V2_PREFIX : str := lit "wj2a".
Definition MAX_JOB_OBSERVATION_TOKEN_LEN : Z := 192.
Definition MAX_JOB_ID_LEN : Z := 80.
Definition MAX_EPOCH_LEN : Z := 64.

Record JobObservationToken : Type := mkToken {
  tok_job_id : str;
  tok_epoch : str;
  tok_revision : Z;
  stdout_cursor : option Z;
  stderr_cursor : option Z
}.

Inductive JobObservationTokenError : Type :=
| Malformed
| Oversized
| WrongJob.

Definition display_token_error (e : JobObservationTokenError) : str :=
  match e with
  | Malformed => lit "invalid after_observation_token: malformed opaque Job token"
  | Oversized => lit "invalid after_observation_token: token exceeds 192 bytes"
  | WrongJob => lit "invalid after_observation_token: token belongs to a different Job"
  end.

(** ** Numbers *)

(** [u64::checked_mul] and [u64::checked_add]. *)
Definition u64_checked (a : Z) : option Z := if Z.leb a USIZE_MAX then Some a else None.

(** [try_fold] with [parsed * base + digit], checked at each operation. *)
Definition push_digit (base : Z) (digit : char -> option Z) (parsed : option Z) (c : char) : option Z :=
  parsed ← parsed; d ← digit c; scaled ← u64_checked (parsed * base); u64_checked (scaled + d).

Definition parse_digits (base : Z) (digit : char -> option Z) (value : str) : option Z :=
  foldl (push_digit base digit) (Some 0) value.

Definition decimal_digit (c : char) : option Z :=
  if is_ascii_digit c then Some (Z.of_N c - 48) else None.

Definition base36_digit (c : char) : option Z :=
  if is_ascii_digit c then Some (Z.of_N c - 48)
  else if is_ascii_lowercase c then Some (Z.of_N c - 97 + 10) else None.

Definition leading_zero (value : str) : bool := Z.ltb 1 (str_len value) && starts_with (lit "0") value.

Definition parse_decimal (value : str) : result Z JobObservationTokenError :=
  bail? is_empty value || leading_zero value || negb (forallb is_ascii_digit value) with Malformed ;;
  ok_or (parse_digits 10 decimal_digit value) Malformed.

Definition parse_base36 (value : str) : result Z JobObservationTokenError :=
  bail? is_empty value || leading_zero value with Malformed ;;
  ok_or (parse_digits 36 base36_digit value) Malformed.

Definition base36_char (digit : Z) : char :=
  Z.to_N (if Z.ltb digit 10 then 48 + digit else 97 + digit - 10).

(** The loop that fills the buffer from its end; an index below zero would be a
    panic. *)
Fixpoint encode_loop (index : nat) (value : Z) (encoded : str) : option str :=
  if Z.ltb 0 value
  then match index with
       | O => None
       | S index => encode_loop index (value / 36) (base36_char (value mod 36) :: encoded)
       end
  else Some encoded.

Definition encode_base36 (value : Z) : option str :=
  if Z.eqb value 0 then Some (lit "0") else encode_loop 13 value [].

(** ** Tokens *)

Definition encode (t : JobObservationToken) : option str :=
  match stdout_cursor t, stderr_cursor t with
  | Some out, Some err =>
      revision ← encode_base36 (tok_revision t); out ← encode_base36 out; err ← encode_base36 err;
      Some (join (lit ":") [TOKEN_V2_PREFIX; tok_job_id t; tok_epoch t; revision; out; err])
  | None, None =>
      Some (join (lit ":") [LEGACY_TOKEN_PREFIX; lit "a"; tok_job_id t; tok_epoch t; fmt_Z (tok_revision t)])
  | _, _ => None
  end.

Definition token_char (c : char) : bool := is_ascii_alphanumeric c || contains_char c (lit "-_.").

Definition validate_component (value : str) (max_len : Z) : result unit JobObservationTokenError :=
  bail? is_empty value || Z.ltb max_len (str_len value) with Malformed ;;
  bail? negb (forallb token_char value) with Malformed ;;
  Ok tt.

Definition build (job_id epoch : str) (revision : Z) (out err : option Z)
  : option (result JobObservationToken JobObservationTokenError) :=
  let token := mkToken job_id epoch revision out err in
  match (bail? negb (Bool.eqb (is_some out) (is_some err)) with Malformed ;;
         bail? is_some_and (Z.eqb 0) out || is_some_and (Z.eqb 0) err with Malformed ;;
         check? validate_component job_id MAX_JOB_ID_LEN ;;
         check? validate_component epoch MAX_EPOCH_LEN ;;
         Ok tt) with
  | Err e => Some (Err e)
  | Ok _ =>
      encoded ← encode token;
      Some (bail? Z.ltb MAX_JOB_OBSERVATION_TOKEN_LEN (str_len encoded) with Oversized ;; Ok token)
  end.

Definition token_new (job_id epoch : str) (revision out err : Z) :=
  build job_id epoch revision (Some out) (Some err).
Definition token_new_legacy (job_id epoch : str) (revision : Z) := build job_id epoch revision None None.

(** The token built of the parts is the one that prints as [value]. *)
Definition canonical (value : str) (built : option (result JobObservationToken JobObservationTokenError))
  : option (result JobObservationToken JobObservationTokenError) :=
  built ← built;
  match built with
  | Err e => Some (Err e)
  | Ok token => encoded ← encode token; Some (bail? encoded !=? value with Malformed ;; Ok token)
  end.

Definition parse_legacy (value : str) : option (result JobObservationToken JobObservationTokenError) :=
  match split_char 58 value with
  | [prefix; version; job_id; epoch; revision] =>
      if (prefix !=? LEGACY_TOKEN_PREFIX) || (version !=? lit "a") then Some (Err Malformed)
      else match parse_decimal revision with
           | Err e => Some (Err e)
           | Ok revision => canonical value (build job_id epoch revision None None)
           end
  | _ => Some (Err Malformed)
  end.

Definition parse_v2 (value : str) : option (result JobObservationToken JobObservationTokenError) :=
  match split_char 58 value with
  | [prefix; job_id; epoch; revision; out; err] =>
      if prefix !=? TOKEN_V2_PREFIX then Some (Err Malformed)
      else match (let? revision := parse_base36 revision in let? out := parse_base36 out in
                  let? err := parse_base36 err in Ok (revision, out, err)) with
           | Err e => Some (Err e)
           | Ok (revision, out, err) => canonical value (build job_id epoch revision (Some out) (Some err))
           end
  | _ => Some (Err Malformed)
  end.

Definition ascii_only (value : str) : bool := forallb (fun c => N.ltb c 128) value.

Definition parse (value : str) : option (result JobObservationToken JobObservationTokenError) :=
  if is_empty value || negb (ascii_only value) then Some (Err Malformed)
  else if Z.ltb MAX_JOB_OBSERVATION_TOKEN_LEN (str_len value) then Some (Err Oversized)
  else if starts_with (lit "wjob1:") value then parse_legacy value else parse_v2 value.

Definition parse_bound (value job_id : str) : option (result JobObservationToken JobObservationTokenError) :=
  parsed ← parse value;
  Some (let? token := parsed in bail? tok_job_id token !=? job_id with WrongJob ;; Ok token).

Definition is_legacy (t : JobObservationToken) : bool := is_none (stdout_cursor t).

(** ** Following a stream *)

Inductive JobLogDeltaStatus : Type :=
| DeltaBaseline
| DeltaDelta
| DeltaUnchanged
| DeltaReset.

Definition delta_status_as_str (s : JobLogDeltaStatus) : str :=
  match s with
  | DeltaBaseline => lit "baseline"
  | DeltaDelta => lit "delta"
  | DeltaUnchanged => lit "unchanged"
  | DeltaReset => lit "reset"
  end.

Inductive JobLogSelectionMode : Type :=
| Baseline
| Delta (cursor : Z)
| Reset_.

Record JobLogStreamProjection : Type := mkProjection {
  pr_text : str;
  pr_next_line : Z;
  pr_total_lines : Z;
  pr_returned_lines : Z;
  pr_first_retained_line : Z;
  pr_truncated : bool;
  pr_delta_reset : bool
}.

Definition baseline_start (lines : list str) (tail_bound : option Z) : Z :=
  unwrap_or 0 ((fun tail => usize_sat_sub (Z.of_nat (length lines)) tail) <$> tail_bound).

(** The first selected line and whether the client's position was given up. *)
Definition select_start (lines : list str) (first observed_next : Z) (consistent : bool) (tail_bound : option Z)
  (mode : JobLogSelectionMode) : Z * bool :=
  match mode with
  | Baseline => (baseline_start lines tail_bound, false)
  | Reset_ => (baseline_start lines tail_bound, true)
  | Delta cursor =>
      if negb (consistent && (Z.leb first cursor && Z.leb cursor observed_next))
      then (baseline_start lines tail_bound, true)
      else
        let delta_start := Z.min (usize_sat_sub cursor first) (Z.of_nat (length lines)) in
        let bounded_start :=
          unwrap_or delta_start
            ((fun tail => Z.max (usize_sat_sub (Z.of_nat (length lines)) tail) delta_start) <$> tail_bound) in
        (bounded_start, Z.ltb delta_start bounded_start)
  end.

Definition baseline_or_reset (mode : JobLogSelectionMode) : bool :=
  match mode with Delta _ => false | _ => true end.

Definition project_log_stream (retained_text : str) (first_retained_line next_line : Z) (storage_truncated : bool)
  (tail_lines : option Z) (mode : JobLogSelectionMode) (preserve_trailing_newline : bool)
  : JobLogStreamProjection :=
  let lines := str_lines retained_text in
  let first := Z.max first_retained_line 1 in
  let expected_next := usize_sat_add first (Z.of_nat (length lines)) in
  let observed_next := Z.max next_line 1 in
  let consistent := Z.eqb observed_next expected_next in
  let next_line :=
    if consistent && negb (is_empty retained_text) && negb (ends_with [LF] retained_text)
    then Z.max (usize_sat_sub observed_next 1) first else observed_next in
  let tail_bound := opt_filter (fun tail => Z.ltb 0 tail) tail_lines in
  let '(start, delta_reset) := select_start lines first observed_next consistent tail_bound mode in
  let selected := join [LF] (drop (Z.to_nat start) lines) in
  let text := if preserve_trailing_newline && negb (is_empty selected) then selected ++ [LF] else selected in
  let truncated := (baseline_or_reset mode || delta_reset)
                   && (storage_truncated || Z.ltb 1 first || Z.ltb 0 start) in
  mkProjection text next_line (usize_sat_sub observed_next 1) (usize_sat_sub (Z.of_nat (length lines)) start)
    first truncated delta_reset.

Definition combined_delta_status (mode : JobLogSelectionMode) (stdout stderr : JobLogStreamProjection)
  : JobLogDeltaStatus :=
  match mode with
  | Baseline => DeltaBaseline
  | Reset_ => DeltaReset
  | Delta _ =>
      if pr_delta_reset stdout || pr_delta_reset stderr then DeltaReset
      else if is_empty (pr_text stdout) && is_empty (pr_text stderr) then DeltaUnchanged
      else DeltaDelta
  end.

(** ** Numbers and their digits *)

Definition is_u64 (a : Z) : Prop := 0 <= a <= USIZE_MAX.

Lemma parse_digits_snoc base digit (s : str) (c : char) :
  parse_digits base digit (s ++ [c]) = push_digit base digit (parse_digits base digit s) c.
Proof. unfold parse_digits. by rewrite foldl_app. Qed.

Lemma push_digit_some base digit (v d : Z) (c : char) :
  digit c = Some d -> 0 <= d -> v * base + d <= USIZE_MAX ->
  push_digit base digit (Some v) c = Some (v * base + d).
Proof.
  intros Hd H0 Hmax. unfold push_digit. cbn. rewrite Hd. cbn. unfold u64_checked.
  destruct (Z.leb_spec (v * base) USIZE_MAX); [ | lia]. cbn.
  by destruct (Z.leb_spec (v * base + d) USIZE_MAX); [ | lia].
Qed.

Lemma parse_digits_range base digit (s : str) (v : Z) :
  0 <= base -> (forall c d, digit c = Some d -> 0 <= d) ->
  parse_digits base digit s = Some v -> is_u64 v.
Proof.
  intros Hb Hd. revert v. induction s as [|c s IH] using rev_ind; intros v.
  { intros [= <-]. split; [lia | done]. }
  rewrite parse_digits_snoc. unfold push_digit. destruct (parse_digits base digit s) as [p|] eqn:E; [ | done].
  cbn. destruct (digit c) as [d|] eqn:Ed; [ | done]. cbn. destruct (IH p eq_refl). specialize (Hd c d Ed).
  unfold u64_checked. destruct (Z.leb_spec (p * base) USIZE_MAX); [ | done]. cbn.
  destruct (Z.leb_spec (p * base + d) USIZE_MAX); [ | done]. intros [= <-]. split; nia.
Qed.

Lemma base36_char_digit (d : Z) :
  0 <= d < 36 -> base36_digit (base36_char d) = Some d /\ token_char (base36_char d) = true
  /\ (base36_char d = 48%N -> d = 0).
Proof.
  intros H. assert (Hall : Forall (fun d => base36_digit (base36_char d) = Some d
    /\ token_char (base36_char d) = true /\ (base36_char d = 48%N -> d = 0)) (seqZ 0 36)).
  { repeat (constructor; [split_and!; [reflexivity | reflexivity | by intros ?] | ]). constructor. }
  rewrite Forall_forall in Hall. apply Hall, elem_of_seqZ. lia.
Qed.

Lemma base36_digit_nonneg (c : char) (d : Z) : base36_digit c = Some d -> 0 <= d.
Proof.
  unfold base36_digit, is_ascii_digit, is_ascii_lowercase. intros H.
  destruct (_ && _) eqn:E1; [injection H as <-; apply andb_true_iff in E1 as [E%N.leb_le _]; lia | ].
  destruct (_ && _) eqn:E2 in H; [ | done]. injection H as <-. apply andb_true_iff in E2 as [E%N.leb_le _]. lia.
Qed.

Lemma decimal_digit_nonneg (c : char) (d : Z) : decimal_digit c = Some d -> 0 <= d.
Proof.
  unfold decimal_digit, is_ascii_digit. destruct (_ && _) eqn:E1; [ | done]. intros [= <-].
  apply andb_true_iff in E1 as [E%N.leb_le _]. lia.
Qed.

(** What the digits of a positive number look like. *)
Record digits_of (base : Z) (digit : char -> option Z) (value : Z) (s : str) : Prop := {
  dg_value : parse_digits base digit s = Some value;
  dg_chars : forallb token_char s = true;
  dg_head : 0 < value -> exists c rest, s = c :: rest /\ c <> 48%N
}.

Lemma encode_loop_digits (index : nat) (value : Z) (acc : str) :
  0 <= value <= USIZE_MAX -> value < 36 ^ Z.of_nat index ->
  exists s, encode_loop index value acc = Some (s ++ acc)
    /\ digits_of 36 base36_digit value s /\ (length s <= index)%nat.
Proof.
  revert value acc. induction index as [|index IH]; intros value acc Hv Hlt.
  - replace value with 0 by (cbn in Hlt; lia). exists []. split; [done | ]. split; [by split | cbn; lia].
  - cbn [encode_loop]. destruct (Z.ltb_spec 0 value) as [Hpos|].
    2: { replace value with 0 by lia. exists []. split; [done | ]. split; [by split | cbn; lia]. }
    rewrite Nat2Z.inj_succ, Z.pow_succ_r in Hlt by lia.
    pose proof (Z.mod_pos_bound value 36 ltac:(lia)) as Hmod.
    pose proof (Z.div_mod value 36 ltac:(lia)) as Hdm.
    destruct (IH (value / 36) (base36_char (value mod 36) :: acc)) as (s & Hs & [Dv Dc Dh] & Hl);
      [split; [apply Z.div_pos; lia | lia] | apply Z.div_lt_upper_bound; lia | ].
    destruct (base36_char_digit _ Hmod) as (Hd & Ht & Hz).
    exists (s ++ [base36_char (value mod 36)]). split; [by rewrite Hs, <- app_assoc | ].
    split; [ | rewrite length_app; cbn; lia]. split.
    + rewrite parse_digits_snoc, Dv, (push_digit_some _ _ _ _ _ Hd) by lia. f_equal. lia.
    + rewrite forallb_app, Dc. cbn. by rewrite Ht.
    + intros _. destruct (Z.eq_dec (value / 36) 0) as [E|E].
      * destruct s as [|c s]; [exists (base36_char (value mod 36)), []; split; [done | ]; intros H%Hz; lia | ].
        exfalso. rewrite E in Hs. assert (H0 : forall acc, encode_loop index 0 acc = Some acc) by (intros; by destruct index).
        rewrite H0 in Hs. apply (f_equal (fun o => length (unwrap_or [] o))) in Hs. cbn in Hs. rewrite length_app in Hs. cbn in Hs. lia.
      * destruct Dh as (c & rest & -> & Hc); [lia | ]. by exists c, (rest ++ [base36_char (value mod 36)]).
Qed.

(** The printed form of a number, in either base. *)
Record numeral (base : Z) (digit : char -> option Z) (value : Z) (width : nat) (s : str) : Prop := {
  nm_value : parse_digits base digit s = Some value;
  nm_chars : forallb token_char s = true;
  nm_nonempty : is_empty s = false;
  nm_leading : leading_zero s = false;
  nm_width : (length s <= width)%nat
}.

Lemma leading_nonzero (c : char) (rest : str) : c <> 48%N -> leading_zero (c :: rest) = false.
Proof.
  intros Hc. unfold leading_zero. change (lit "0") with [48%N]. rewrite starts_with_ne by done. apply andb_false_r.
Qed.

Lemma encode_base36_numeral (value : Z) :
  is_u64 value -> exists s, encode_base36 value = Some s /\ numeral 36 base36_digit value 13 s.
Proof.
  intros Hv. unfold encode_base36. destruct (Z.eqb_spec value 0) as [->|Hne].
  { eexists. split; [reflexivity | ]. split; try reflexivity. change (length (lit "0")) with 1%nat. lia. }
  destruct (encode_loop_digits 13 value []) as (s & Hs & [Dv Dc Dh] & Hl); [exact Hv | | ].
  { destruct Hv as [_ H]. eapply Z.le_lt_trans; [exact H | reflexivity]. }
  rewrite app_nil_r in Hs. destruct Dh as (c & rest & -> & Hc); [destruct Hv; lia | ].
  exists (c :: rest). split; [done | ]. split; try done. by apply leading_nonzero.
Qed.

Lemma decimal_char_digit (n : N) :
  decimal_digit (48 + n mod 10) = Some (Z.of_N (n mod 10)) /\ is_ascii_digit (48 + n mod 10) = true
  /\ token_char (48 + n mod 10) = true.
Proof.
  pose proof (N.mod_upper_bound n 10 ltac:(lia)) as H. revert H. generalize (n mod 10)%N as m. intros m H.
  assert (Hd : is_ascii_digit (48 + m) = true).
  { unfold is_ascii_digit. apply andb_true_iff. split; apply N.leb_le; lia. }
  split_and!; [ | done | ].
  - unfold decimal_digit. rewrite Hd. f_equal. lia.
  - unfold token_char, is_ascii_alphanumeric. rewrite Hd. by destruct (is_ascii_lowercase _), (is_ascii_uppercase _).
Qed.

Lemma fmt_digits_numeral (fuel : nat) (n : N) (acc : str) :
  Z.of_N n <= USIZE_MAX -> Z.of_N n < 10 ^ Z.of_nat fuel -> (0 < fuel)%nat ->
  exists s, fmt_digits fuel n acc = s ++ acc
    /\ parse_digits 10 decimal_digit s = Some (Z.of_N n) /\ forallb is_ascii_digit s = true
    /\ forallb token_char s = true /\ s <> []
    /\ ((0 < n)%N -> exists c rest, s = c :: rest /\ c <> 48%N)
    /\ (forall k, (0 < k)%nat -> Z.of_N n < 10 ^ Z.of_nat k -> (length s <= k)%nat).
Proof.
  revert n acc. induction fuel as [|fuel IH]; [lia | ]. intros n acc Hmax Hlt _. cbn [fmt_digits].
  destruct (decimal_char_digit n) as (Hd & Ha & Ht). pose proof (N.div_mod n 10 ltac:(lia)) as Hdm.
  pose proof (N.mod_upper_bound n 10 ltac:(lia)) as Hmod. pose proof (Z.mod_pos_bound (Z.of_N n) 10 ltac:(lia)) as Hmz.
  pose proof (Z.div_mod (Z.of_N n) 10 ltac:(lia)) as Hdz'.
  destruct (N.eqb_spec (n / 10) 0) as [E|E].
  - exists [48 + n mod 10]%N. split_and!; [done | | cbn; by rewrite Ha | cbn; by rewrite Ht | done | | ].
    + change ([48 + n mod 10]%N) with ([] ++ [48 + n mod 10]%N). rewrite parse_digits_snoc.
      unfold parse_digits. cbn [foldl]. rewrite (push_digit_some _ _ _ _ _ Hd) by lia. f_equal. lia.
    + intros Hn. exists (48 + n mod 10)%N, []. split; [done | lia].
    + intros k Hk _. cbn. lia.
  - rewrite Nat2Z.inj_succ, Z.pow_succ_r in Hlt by lia.
    assert (Hdz : Z.of_N (n / 10) = Z.of_N n / 10) by (rewrite N2Z.inj_div; done).
    assert (Hf : (0 < fuel)%nat) by (destruct fuel; [cbn in Hlt; lia | lia]).
    destruct (IH (n / 10)%N (48 + n mod 10 :: acc)%N) as (s & -> & Sp & Sd & St & Sn & Sh & Sw); [lia | lia | done | ].
    exists (s ++ [48 + n mod 10]%N). split_and!.
    + by rewrite <- app_assoc.
    + rewrite parse_digits_snoc, Sp, (push_digit_some _ _ _ _ _ Hd) by lia. f_equal. lia.
    + rewrite forallb_app, Sd. cbn. by rewrite Ha.
    + rewrite forallb_app, St. cbn. by rewrite Ht.
    + by destruct s.
    + intros _. destruct Sh as (c & rest & -> & Hc); [lia | ]. by exists c, (rest ++ [48 + n mod 10]%N).
    + intros [|[|k]] Hk Hw; [lia | cbn in Hw; lia | ]. rewrite length_app. cbn [length].
      specialize (Sw (S k) ltac:(lia)). rewrite Nat2Z.inj_succ, Z.pow_succ_r in Hw by lia. lia.
Qed.

Lemma fmt_Z_numeral (value : Z) :
  is_u64 value -> numeral 10 decimal_digit value 20 (fmt_Z value) /\ forallb is_ascii_digit (fmt_Z value) = true.
Proof.
  intros Hv. unfold fmt_Z. destruct (Z.ltb_spec value 0); [destruct Hv; lia | ]. unfold fmt_N.
  set (n := Z.to_N value). assert (Hn : Z.of_N n = value) by (subst n; lia).
  destruct (fmt_digits_numeral (S (N.to_nat (N.log2 n))) n []) as (s & -> & Sp & Sd & St & Sn & Sh & Sw).
  - destruct Hv; lia.
  - destruct (decide (n = 0)%N) as [E|E]; [rewrite E; reflexivity | ].
    pose proof (N.log2_spec n ltac:(lia)) as [_ Hl].
    replace (Z.of_nat (S (N.to_nat (N.log2 n)))) with (Z.of_N (N.succ (N.log2 n))) by lia.
    eapply Z.lt_le_trans; [ | apply Z.pow_le_mono_l with (a := 2); lia].
    rewrite <- (N2Z.inj_pow 2). lia.
  - lia.
  - rewrite app_nil_r. split; [ | done]. rewrite <- Hn at 1. split; [done | done | by destruct s | | ].
    + destruct (decide (n = 0)%N) as [E|E]; [rewrite E in Sw; clear Sh | destruct Sh as (c & rest & -> & Hc); [lia | by apply leading_nonzero]].
      specialize (Sw 1%nat ltac:(lia) ltac:(cbn; lia)). destruct s as [|c [|c2 s]]; try done; cbn in Sw; try lia.
      unfold leading_zero. cbn [str_len]. pose proof (len_utf8_pos c).
      destruct (Z.ltb_spec 1 (len_utf8 c + 0)); [ | done]. exfalso.
      cbn in Sd. unfold is_ascii_digit in Sd. unfold len_utf8 in *. destruct (N.ltb_spec c 128); [lia | ].
      apply andb_true_iff in Sd as [Sd _]. apply andb_true_iff in Sd as [_ Sd%N.leb_le]. lia.
    + apply Sw; [lia | ]. destruct Hv as [_ Hle]. rewrite Hn. eapply Z.le_lt_trans; [exact Hle | reflexivity].
Qed.

(** ** Tokens *)

Lemma token_char_ascii (c : char) : token_char c = true -> (c < 128)%N /\ c <> 58%N.
Proof.
  unfold token_char, is_ascii_alphanumeric, is_ascii_digit, is_ascii_uppercase, is_ascii_lowercase.
  intros H. repeat (apply orb_true_iff in H as [H|H]).
  all: try (apply andb_true_iff in H as [H1%N.leb_le H2%N.leb_le]; lia).
  all: cbn in H; first [done | apply N.eqb_eq in H; subst; cbn; lia].
Qed.

Lemma token_chars_plain (s : str) :
  forallb token_char s = true -> ascii_only s = true /\ (58%N ∉ s) /\ str_len s = Z.of_nat (length s).
Proof.
  induction s as [|c s IH]; cbn; [intros _; split_and!; [done | apply not_elem_of_nil | done] | ].
  intros [Hc Hs]%andb_true_iff. apply token_char_ascii in Hc as [Ha Hn]. destruct (IH Hs) as (I1 & I2 & I3).
  split_and!.
  - unfold ascii_only in I1. rewrite I1. by apply N.ltb_lt in Ha as ->.
  - by apply not_elem_of_cons.
  - rewrite I3. unfold len_utf8. destruct (N.ltb_spec c 128); lia.
Qed.

(** What [build] checks of a token. *)
Record token_ok (t : JobObservationToken) : Prop := {
  ok_job : validate_component (tok_job_id t) MAX_JOB_ID_LEN = Ok tt;
  ok_epoch : validate_component (tok_epoch t) MAX_EPOCH_LEN = Ok tt;
  ok_pair : is_some (stdout_cursor t) = is_some (stderr_cursor t);
  ok_cursors : is_some_and (Z.eqb 0) (stdout_cursor t) || is_some_and (Z.eqb 0) (stderr_cursor t) = false
}.

(** The numbers of a token are u64. *)
Record token_u64 (t : JobObservationToken) : Prop := {
  u64_revision : is_u64 (tok_revision t);
  u64_out : from_option is_u64 True (stdout_cursor t);
  u64_err : from_option is_u64 True (stderr_cursor t)
}.

Lemma validate_component_ok (s : str) (n : Z) :
  validate_component s n = Ok tt -> forallb token_char s = true /\ str_len s <= n.
Proof.
  unfold validate_component. destruct (_ || _) eqn:E; [done | ]. apply orb_false_iff in E as [_ E%Z.ltb_ge].
  destruct (forallb token_char s) eqn:F; [done | done].
Qed.

(** The parts of a token's string. *)
Definition token_parts (t : JobObservationToken) : option (list str) :=
  match stdout_cursor t, stderr_cursor t with
  | Some out, Some err =>
      revision ← encode_base36 (tok_revision t); out ← encode_base36 out; err ← encode_base36 err;
      Some [TOKEN_V2_PREFIX; tok_job_id t; tok_epoch t; revision; out; err]
  | None, None => Some [LEGACY_TOKEN_PREFIX; lit "a"; tok_job_id t; tok_epoch t; fmt_Z (tok_revision t)]
  | _, _ => None
  end.

Lemma encode_parts (t : JobObservationToken) : encode t = join (lit ":") <$> token_parts t.
Proof.
  unfold encode, token_parts. destruct (stdout_cursor t), (stderr_cursor t); try done.
  by destruct (encode_base36 (tok_revision t)), (encode_base36 z), (encode_base36 z0).
Qed.

Lemma join_plain (parts : list str) :
  Forall (fun p => forallb token_char p = true) parts ->
  ascii_only (join (lit ":") parts) = true
  /\ str_len (join (lit ":") parts) = Z.of_nat (sum_list (length <$> parts)) + Z.of_nat (length parts - 1).
Proof.
  induction parts as [|p parts IH]; [done | ]. intros [Hp Hps]%Forall_cons.
  destruct (token_chars_plain p Hp) as (Ha & _ & Hl). destruct (IH Hps) as [I1 I2].
  destruct parts as [|q parts]; [cbn in *; split; [done | lia] | ].
  rewrite join_cons by done. split.
  - unfold ascii_only in *. rewrite !forallb_app, Ha, I1. done.
  - rewrite !str_len_app, I2, Hl. change (str_len (lit ":")) with 1. cbn. lia.
Qed.

Lemma encode_ok (t : JobObservationToken) :
  token_ok t -> token_u64 t ->
  exists parts, token_parts t = Some parts
    /\ Forall (fun p => forallb token_char p = true) parts
    /\ str_len (join (lit ":") parts) <= MAX_JOB_OBSERVATION_TOKEN_LEN.
Proof.
  intros [Oj Oe Op _] [Ur Uo Ue]. destruct (validate_component_ok _ _ Oj) as [Jc Jl].
  destruct (validate_component_ok _ _ Oe) as [Ec El].
  destruct (token_chars_plain _ Jc) as (_ & _ & Jn). destruct (token_chars_plain _ Ec) as (_ & _ & En).
  unfold MAX_JOB_ID_LEN, MAX_EPOCH_LEN, MAX_JOB_OBSERVATION_TOKEN_LEN in *. unfold token_parts.
  assert (length TOKEN_V2_PREFIX = 4%nat /\ length LEGACY_TOKEN_PREFIX = 5%nat) as [HL2 HL1] by done.
  destruct (stdout_cursor t) as [out|], (stderr_cursor t) as [err|]; try done.
  - destruct (encode_base36_numeral _ Ur) as (r & Hr & [_ Rc _ _ Rw]).
    destruct (encode_base36_numeral _ Uo) as (o & Ho & [_ Oc _ _ Ow]).
    destruct (encode_base36_numeral _ Ue) as (e & He & [_ Ec' _ _ Ew]).
    rewrite Hr. cbn. rewrite Ho. cbn. rewrite He. cbn. eexists. split; [done | ].
    assert (Hall : Forall (fun p => forallb token_char p = true)
              [TOKEN_V2_PREFIX; tok_job_id t; tok_epoch t; r; o; e]) by (repeat constructor; done).
    split; [exact Hall | ]. rewrite (proj2 (join_plain _ Hall)). cbn. lia.
  - destruct (fmt_Z_numeral _ Ur) as [[_ Rc _ _ Rw] _]. eexists. split; [done | ].
    revert Rc Rw. generalize (fmt_Z (tok_revision t)) as r. intros r Rc Rw.
    assert (Hall : Forall (fun p => forallb token_char p = true)
              [LEGACY_TOKEN_PREFIX; lit "a"; tok_job_id t; tok_epoch t; r]) by (repeat constructor; done).
    split; [exact Hall | ]. rewrite (proj2 (join_plain _ Hall)). cbn. change (length (lit "a")) with 1%nat. lia.
Qed.

(** [build] accepts exactly the well-formed tokens, whatever their size. *)
Lemma build_spec (t : JobObservationToken) :
  token_u64 t ->
  build (tok_job_id t) (tok_epoch t) (tok_revision t) (stdout_cursor t) (stderr_cursor t) = Some (Ok t)
    /\ token_ok t
  \/ build (tok_job_id t) (tok_epoch t) (tok_revision t) (stdout_cursor t) (stderr_cursor t) = Some (Err Malformed)
    /\ ~ token_ok t.
Proof.
  intros Hu. unfold build. destruct (Bool.eqb _ _) eqn:Hp; cbn [negb].
  2: { right. split; [done | ]. intros [_ _ H _]. rewrite H in Hp. by rewrite Bool.eqb_reflx in Hp. }
  apply Bool.eqb_prop in Hp. destruct (is_some_and _ _ || _) eqn:Hz.
  { right. split; [done | ]. intros [_ _ _ H]. congruence. }
  assert (Herr : forall s n, validate_component s n = Ok tt \/ validate_component s n = Err Malformed).
  { intros s n. unfold validate_component. destruct (is_empty s || Z.ltb n (str_len s)); [by right | ]. destruct (forallb token_char s); cbn; auto. }
  destruct (Herr (tok_job_id t) MAX_JOB_ID_LEN) as [Hj|Hj]; rewrite Hj; cbn.
  2: { right. split; [done | ]. intros [H _ _ _]. congruence. }
  destruct (Herr (tok_epoch t) MAX_EPOCH_LEN) as [He|He]; rewrite He; cbn.
  2: { right. split; [done | ]. intros [_ H _ _]. congruence. }
  assert (Hok : token_ok t) by done. left. split; [ | done].
  replace (mkToken _ _ _ _ _) with t by (by destruct t).
  destruct (encode_ok t Hok Hu) as (parts & Hparts & _ & Hl). rewrite encode_parts, Hparts. cbn.
  by destruct (Z.ltb_spec MAX_JOB_OBSERVATION_TOKEN_LEN (str_len (join (lit ":") parts))); [lia | ].
Qed.

Lemma parse_base36_u64 (s : str) (v : Z) : parse_base36 s = Ok v -> is_u64 v.
Proof.
  unfold parse_base36. destruct (_ || _); [done | ]. destruct (parse_digits _ _ s) as [w|] eqn:E; [ | done].
  intros [= <-]. eapply parse_digits_range; [ | exact base36_digit_nonneg | exact E]. lia.
Qed.

Lemma parse_decimal_u64 (s : str) (v : Z) : parse_decimal s = Ok v -> is_u64 v.
Proof.
  unfold parse_decimal. destruct (_ || _); [done | ]. destruct (parse_digits _ _ s) as [w|] eqn:E; [ | done].
  intros [= <-]. eapply parse_digits_range; [ | exact decimal_digit_nonneg | exact E]. lia.
Qed.

Lemma parse_numeral36 (v : Z) (n : nat) (s : str) : numeral 36 base36_digit v n s -> parse_base36 s = Ok v.
Proof. intros [Nv _ Ne Nl _]. unfold parse_base36. by rewrite Ne, Nl, Nv. Qed.

(** A string that parses prints back as itself, and parsing never panics. *)
Lemma canonical_spec (value : str) (t : JobObservationToken) :
  token_u64 t ->
  let built := build (tok_job_id t) (tok_epoch t) (tok_revision t) (stdout_cursor t) (stderr_cursor t) in
  canonical value built = Some (Ok t) /\ encode t = Some value
  \/ canonical value built = Some (Err Malformed).
Proof.
  intros Hu. destruct (build_spec t Hu) as [[Hb Hok]|[Hb _]]; cbn zeta; rewrite Hb; cbn; [ | by right].
  destruct (encode_ok t Hok Hu) as (parts & Hparts & _ & _). rewrite encode_parts, Hparts. cbn.
  destruct (join (lit ":") parts ==? value) eqn:E; cbn; [ | by right].
  apply beq_true in E. left. by rewrite E.
Qed.

Lemma parse_sound (value : str) :
  (exists t, parse value = Some (Ok t) /\ encode t = Some value /\ token_u64 t)
  \/ parse value = Some (Err Malformed) \/ parse value = Some (Err Oversized).
Proof.
  unfold parse. destruct (_ || _); [auto | ]. destruct (Z.ltb _ _); [auto | ].
  destruct (starts_with _ _).
  - unfold parse_legacy. destruct (split_char 58 value) as [|p [|v [|j [|e [|r [|? ?]]]]]]; auto.
    destruct (_ || _); [auto | ]. destruct (parse_decimal r) as [rev|er] eqn:Hr.
    2: { right; left. unfold parse_decimal in Hr. destruct (_ || _) in Hr; [by injection Hr as <- | ].
         by destruct (parse_digits _ _ r); [ | injection Hr as <-]. }
    apply parse_decimal_u64 in Hr. assert (Hu : token_u64 (mkToken j e rev None None)) by done.
    destruct (canonical_spec value _ Hu) as [[Hc Hp]|Hc]; cbn in Hc; rewrite Hc; [left; by eexists | auto].
  - unfold parse_v2. destruct (split_char 58 value) as [|p [|j [|e [|r [|o [|x [|? ?]]]]]]]; auto.
    destruct (_ !=? _); [auto | ].
    assert (Herr : forall s err, parse_base36 s = Err err -> err = Malformed).
    { intros s err. unfold parse_base36. destruct (_ || _); [by intros [= <-] | ].
      by destruct (parse_digits _ _ s); [ | intros [= <-]]. }
    destruct (parse_base36 r) as [rv|er] eqn:Hr; cbn; [ | apply Herr in Hr; subst; auto].
    destruct (parse_base36 o) as [ov|er] eqn:Ho; cbn; [ | apply Herr in Ho; subst; auto].
    destruct (parse_base36 x) as [xv|er] eqn:Hx; cbn; [ | apply Herr in Hx; subst; auto].
    apply parse_base36_u64 in Hr, Ho, Hx. assert (Hu : token_u64 (mkToken j e rv (Some ov) (Some xv))) by done.
    destruct (canonical_spec value _ Hu) as [[Hc Hp]|Hc]; cbn in Hc; rewrite Hc; [left; by eexists | auto].
Qed.

(** The string of a well-formed token is its parts, and they parse back. *)
Lemma parse_encode (t : JobObservationToken) :
  token_ok t -> token_u64 t -> exists s, encode t = Some s /\ parse s = Some (Ok t).
Proof.
  intros Hok Hu. destruct (encode_ok t Hok Hu) as (parts & Hparts & Hall & Hl).
  assert (Hs : encode t = Some (join (lit ":") parts)) by (by rewrite encode_parts, Hparts).
  exists (join (lit ":") parts). split; [done | ]. destruct (build_spec t Hu) as [[Hb _]|[_ Hn]]; [ | done].
  assert (Hsplit : split_char 58 (join (lit ":") parts) = parts).
  { apply split_char_join; [ | eapply Forall_impl; [exact Hall | ]; intros p Hp; apply token_chars_plain, Hp].
    unfold token_parts in Hparts. destruct (stdout_cursor t), (stderr_cursor t); try done; [ | by injection Hparts as <-].
    destruct (encode_base36 (tok_revision t)), (encode_base36 z), (encode_base36 z0); try done. by injection Hparts as <-. }
  unfold parse. rewrite (proj1 (join_plain parts Hall)). destruct (Z.ltb_spec MAX_JOB_OBSERVATION_TOKEN_LEN (str_len (join (lit ":") parts))); [lia | ].
  destruct t as [j e r o x], Hu as [Ur Uo Ux], Hok as [_ _ Op _]. cbn in *. unfold token_parts in Hparts. cbn in Hparts.
  destruct o as [o|], x as [x|]; try done.
  - destruct (encode_base36_numeral r Ur) as (sr & Hr & Nr). destruct (encode_base36_numeral o Uo) as (so & Ho & No).
    destruct (encode_base36_numeral x Ux) as (sx & Hx & Nx). rewrite Hr, Ho, Hx in Hparts. cbn in Hparts. injection Hparts as <-.
    change (is_empty (join (lit ":") [TOKEN_V2_PREFIX; j; e; sr; so; sx])) with false. cbn [negb orb].
    change (starts_with (lit "wjob1:") (join (lit ":") [TOKEN_V2_PREFIX; j; e; sr; so; sx])) with false. cbn [negb].
    unfold parse_v2. rewrite Hsplit. rewrite beq_refl. cbn [negb].
    rewrite (parse_numeral36 _ _ _ Nr), (parse_numeral36 _ _ _ No), (parse_numeral36 _ _ _ Nx). cbn [result_bind].
    unfold canonical. rewrite Hb. cbn [mbind option_bind]. rewrite Hs. cbn [mbind option_bind]. by rewrite beq_refl.
  - injection Hparts as <-. destruct (fmt_Z_numeral r Ur) as [[Nv _ Ne Nl _] Nd].
    set (sr := fmt_Z r) in *. clearbody sr.
    change (is_empty (join (lit ":") [LEGACY_TOKEN_PREFIX; lit "a"; j; e; sr])) with false. cbn [negb orb].
    change (starts_with (lit "wjob1:") (join (lit ":") [LEGACY_TOKEN_PREFIX; lit "a"; j; e; sr])) with true.
    unfold parse_legacy. rewrite Hsplit. rewrite !beq_refl. cbn [negb orb]. unfold parse_decimal.
    rewrite Ne, Nl, Nd, Nv. cbn [negb orb ok_or]. unfold canonical. rewrite Hb. cbn [mbind option_bind]. rewrite Hs. cbn [mbind option_bind]. by rewrite beq_refl.
Qed.

(** Observation tokens are a canonical encoding. For numbers of 64 bits, building
    a token never panics and never hits the size limit (192 bytes is exactly enough);
    a token that was built prints and parses back to itself; a string that parses is
    the string its token prints, so no two strings name the same token; and no
    string makes the parser panic. *)
Lemma token_encoding_canonical (job_id epoch : str) (revision : Z) (out err : option Z)
  (Hrev : is_u64 revision) (Hout : from_option is_u64 True out) (Herr : from_option is_u64 True err) :
  (build job_id epoch revision out err = Some (Err Malformed)
   \/ exists t s, build job_id epoch revision out err = Some (Ok t) /\ encode t = Some s
        /\ str_len s <= MAX_JOB_OBSERVATION_TOKEN_LEN /\ parse s = Some (Ok t))
  /\ (forall s, parse s <> None)
  /\ (forall s t, parse s = Some (Ok t) -> encode t = Some s).
Proof.
  split_and!.
  - assert (Hu : token_u64 (mkToken job_id epoch revision out err)) by done.
    destruct (build_spec _ Hu) as [[Hb Hok]|[Hb _]]; cbn in Hb; [right | by left].
    destruct (parse_encode _ Hok Hu) as (s & Hs & Hp). exists (mkToken job_id epoch revision out err), s.
    split_and!; [done | done | | done]. destruct (encode_ok _ Hok Hu) as (parts & Hparts & _ & Hl).
    rewrite encode_parts, Hparts in Hs. by injection Hs as <-.
  - intros s. destruct (parse_sound s) as [(t & -> & _)|[->| ->]]; done.
  - intros s t Hp. destruct (parse_sound s) as [(t' & Hp' & He & _)|[Hp'|Hp']]; congruence.
Qed.

Lemma token_encoding_canonical_witness :
  let t := mkToken (lit "job-1") (lit "e1") 42 (Some 101) (Some 21) in
  encode t = Some (lit "wj2a:job-1:e1:16:2t:l")
  /\ ((build (lit "job-1") (lit "e1") 42 (Some 101) (Some 21) = Some (Err Malformed)
       \/ exists t s, build (lit "job-1") (lit "e1") 42 (Some 101) (Some 21) = Some (Ok t) /\ encode t = Some s
            /\ str_len s <= MAX_JOB_OBSERVATION_TOKEN_LEN /\ parse s = Some (Ok t))
      /\ (forall s, parse s <> None) /\ (forall s t, parse s = Some (Ok t) -> encode t = Some s)).
Proof.
  split; [reflexivity | ]. apply token_encoding_canonical; split; vm_compute; discriminate.
Defined.

(** ** Following a growing stream *)

(** A text of whole lines. *)
Definition whole_lines (a : str) : Prop := a = [] \/ exists a', a = a' ++ [LF].

Lemma split_char_join2 (c : char) (a b : str) : split_char c (a ++ c :: b) = split_char c a ++ split_char c b.
Proof.
  unfold split_char. induction a as [|x a IH]; cbn [app split_on]; [by rewrite N.eqb_refl | ].
  rewrite IH. destruct (N.eqb c x); [done | ]. pose proof (split_on_nonempty (N.eqb c) a).
  by destruct (split_on (N.eqb c) a).
Qed.

Lemma lines_of_app (p q : list str) : q <> [] -> lines_of (p ++ q) = map strip_cr p ++ lines_of q.
Proof.
  intros Hq. induction p as [|l p IH]; [done | ]. cbn [app map]. rewrite <- IH. cbn [lines_of].
  destruct (p ++ q) eqn:E; [ | done]. apply app_eq_nil in E as [_ E]. done.
Qed.

Lemma str_lines_whole (a b : str) : whole_lines a -> str_lines (a ++ b) = str_lines a ++ str_lines b.
Proof.
  intros [->|[a' ->]]; [done | ]. unfold str_lines. rewrite <- app_assoc. cbn [app].
  rewrite !split_char_join2, !lines_of_app by (by try apply split_on_nonempty). cbn. by rewrite app_nil_r.
Qed.

(** Every text is whole lines and a last, open one. *)
Lemma last_line (t : str) : exists a tail, t = a ++ tail /\ whole_lines a /\ LF ∉ tail.
Proof.
  induction t as [|c t (a & tail & -> & Ha & Ht)] using rev_ind.
  { exists [], []. split_and!; [done | by left | apply not_elem_of_nil]. }
  destruct (decide (c = LF)) as [->|Hc].
  - exists ((a ++ tail) ++ [LF]), []. split_and!; [by rewrite app_nil_r | right; by eexists | apply not_elem_of_nil].
  - exists a, (tail ++ [c]). split_and!; [by rewrite <- app_assoc | done | ].
    rewrite not_elem_of_app. split; [done | ]. by rewrite list_elem_of_singleton.
Qed.

Lemma ends_with_lf (s : str) : ends_with [LF] s = true <-> exists r, s = r ++ [LF].
Proof.
  unfold ends_with. destruct (strip_suffix [LF] s) as [r|] eqn:E.
  - split; [intros _; exists r; by apply strip_suffix_spec | done].
  - split; [done | ]. intros [r Hr]. apply strip_suffix_spec in Hr. congruence.
Qed.

Definition line_total (t : str) : Z := Z.of_nat (length (str_lines t)).

(** The position after a text: its open last line is not behind it. *)
Lemma next_line_position (t a tail : str) (f : Z) trunc tail_lines mode nl :
  t = a ++ tail -> whole_lines a -> LF ∉ tail -> 1 <= f -> f + line_total t <= USIZE_MAX ->
  pr_next_line (project_log_stream t f (f + line_total t) trunc tail_lines mode nl) = f + line_total a.
Proof.
  intros -> Ha Ht Hf Hmax. unfold project_log_stream. destruct (select_start _ _ _ _ _ _) as [start reset]. cbn.
  pose proof (str_lines_whole a tail Ha) as Hl. unfold line_total in *.
  rewrite (Z.max_l f 1), (Z.max_l (f + _) 1) by lia. rewrite usize_sat_add_exact, Z.eqb_refl by lia. cbn [andb].
  destruct tail as [|c tail].
  - rewrite app_nil_r in *. destruct Ha as [->|[a' ->]]; [cbn; lia | ].
    replace (ends_with [LF] (a' ++ [LF])) with true by (symmetry; apply ends_with_lf; by eexists).
    by rewrite andb_false_r.
  - replace (is_empty (a ++ c :: tail)) with false by (by destruct a).
    replace (ends_with [LF] (a ++ c :: tail)) with false.
    2: { symmetry. apply not_true_is_false. intros [r Hr]%ends_with_lf. apply Ht.
         assert (Hlast : last (c :: tail) = Some LF).
         { apply (f_equal last) in Hr. rewrite last_snoc, last_app_cons in Hr. done. }
         apply last_Some in Hlast as [l ->]. apply elem_of_app. right. by apply list_elem_of_singleton. }
    cbn [negb andb]. rewrite Hl, length_app. pose proof (line_count_plain (c :: tail) ltac:(done) Ht) as H1.
    unfold line_count in H1. rewrite H1. unfold usize_sat_sub. lia.
Qed.

(** Following a stream loses nothing and repeats nothing. A client that read a
    retained text [t1] (from line [f], in any mode) and later asks for the delta at
    the position it was given, after the log grew and old whole lines were evicted:
    unless the position itself was evicted, the answer is not a reset, and the lines
    the client had behind its position followed by the returned ones are exactly the
    lines of the whole stream, an open last line being delivered again when it is
    complete; if the position was evicted, the client is told so and gets everything
    that is retained. *)
Lemma delta_follows_stream (t1 more gone kept : str) (f : Z) trunc1 trunc2 tail1 mode1 nl1 nl2
  (Hgrow : t1 ++ more = gone ++ kept) (Hgone : whole_lines gone)
  (Hf : 1 <= f) (Hmax : f + line_total (t1 ++ more) + line_total t1 <= USIZE_MAX) :
  let c := pr_next_line (project_log_stream t1 f (f + line_total t1) trunc1 tail1 mode1 nl1) in
  let f' := f + line_total gone in
  let p := project_log_stream kept f' (f' + line_total kept) trunc2 None (Delta c) nl2 in
  let fresh := drop (Z.to_nat (c - f')) (str_lines kept) in
  let text lines := if nl2 && negb (is_empty (join [LF] lines)) then join [LF] lines ++ [LF] else join [LF] lines in
  (f' <= c -> pr_delta_reset p = false /\ pr_text p = text fresh
              /\ take (Z.to_nat (c - f)) (str_lines t1) ++ fresh = str_lines (t1 ++ more))
  /\ (c < f' -> pr_delta_reset p = true /\ pr_text p = text (str_lines kept)).
Proof.
  destruct (last_line t1) as (a & tail & Ht & Ha & Htail). unfold line_total in *.
  assert (Hall : str_lines (t1 ++ more) = str_lines gone ++ str_lines kept) by (rewrite Hgrow; by apply str_lines_whole).
  assert (Hall' : str_lines (t1 ++ more) = str_lines a ++ str_lines (tail ++ more)).
  { rewrite Ht, <- app_assoc. by apply str_lines_whole. }
  assert (Hlen := f_equal length Hall). rewrite length_app in Hlen.
  assert (Hlen' := f_equal length Hall'). rewrite length_app in Hlen'.
  cbn zeta. rewrite (next_line_position t1 a tail f) by (done || (unfold line_total; lia)). unfold line_total.
  unfold project_log_stream. set (c := f + Z.of_nat (length (str_lines a))).
  set (f' := f + Z.of_nat (length (str_lines gone))).
  rewrite (Z.max_l f' 1), (Z.max_l (f' + _) 1) by lia. rewrite usize_sat_add_exact, Z.eqb_refl by (subst f'; lia).
  cbn [opt_filter fmap option_fmap option_map unwrap_or select_start andb]. split; intros Hc.
  - rewrite (proj2 (Z.leb_le f' c)) by done. rewrite (proj2 (Z.leb_le c _)) by (subst f' c; lia). cbn [negb andb].
    rewrite Z.ltb_irrefl. cbn. unfold usize_sat_sub.
    replace (Z.min _ _) with (c - f') by (subst f' c; lia). split_and!; [done | done | ].
    replace (Z.to_nat (c - f)) with (length (str_lines a)) by (subst c; lia).
    rewrite Ht at 1. rewrite (str_lines_whole a tail Ha), take_app_length.
    assert (Hd : drop (length (str_lines a)) (str_lines (t1 ++ more)) = drop (Z.to_nat (c - f')) (str_lines kept)).
    { rewrite Hall, drop_app_ge by (subst f' c; lia). f_equal. subst f' c. lia. }
    rewrite <- Hd, Hall', drop_app_length. done.
  - rewrite (proj2 (Z.leb_gt f' c)) by done. done.
Qed.

Lemma delta_follows_stream_witness :
  let p := project_log_stream (lit "b2" ++ [LF] ++ lit "c") 2 4 true None
    (Delta (pr_next_line (project_log_stream (lit "a" ++ [LF] ++ lit "b") 1 3 false None Baseline false))) false in
  pr_text p = lit "b2" ++ [LF] ++ lit "c" /\ pr_delta_reset p = false.
Proof.
  destruct (delta_follows_stream (lit "a" ++ [LF] ++ lit "b") (lit "2" ++ [LF] ++ lit "c") (lit "a" ++ [LF])
    (lit "b2" ++ [LF] ++ lit "c") 1 false true None Baseline false false) as [H _];
    [reflexivity | right; exists (lit "a"); reflexivity | lia | vm_compute; discriminate | ].
  destruct H as (H1 & H2 & _); [vm_compute; discriminate | ]. split; [exact H2 | exact H1].
Defined.
