(* ===== verification/Capabilities.v ===== *)
(** * Capabilities: crates/webcodex-runner-registry/src/capabilities.rs

    The Server's vocabulary of Runner capabilities: the feature enumeration, its
    wire names ([RUNNER_CAPABILITY_*] of webcodex-core's runner_protocol.rs), the
    frozen generation-2 baseline, and the feature set normalised from one accepted
    registration. *)
From S2P Require Import Prelude RustStr.

Inductive RunnerFeature : Type :=
| Shell
| FileRead
| FileWrite
| ArtifactExportChunkRead
| ArtifactExportStreamingMetadata
| StructuredFileDelete
| ApplyTextEditOccurrence
| ApplyTextEditLineScope
| ApplyPatch
| ApplyPatchMatchMetadata
| ApplyPatchMatchingMode
| ApplyPatchStrictMatching
| Git
| Jobs
| AsyncJobs
| AsyncShellJobs
| SshShell
| PersistentShell
| SshPersistentShell
| StructuredValidationArgv
| StructuredCargoTestCountAssertion
| StructuredCargoTestExecutionPolicy
| StructuredGoTestJson
| StructuredGoTestTool
| StructuredGoTestPackages
| StructuredProcessArgv
| StructuredScriptPayload
| StructuredScriptJavascript
| StructuredScriptTypescript
| InternalPosixScript
| StructuredExecutionJobs
| DetachedProcessJobs
| LspReadOnlyNavigation
| LspCallHierarchy
| ProjectLifecycle
| ProjectPathRegistration
| ManagedWorktree
| ConfiguredSkillRootsRead
| SkillStoreRead
| SkillStoreManage
| ComputerObserve
| ComputerApplicationDiscovery
| ComputerApplicationLaunch
| ComputerDisplayObserve
| ComputerPointerControl
| ComputerClipboardRead
| ComputerClipboardWrite
| ComputerSnapshotRegion
| ComputerAccessibilityObserve
| ComputerElementState
| JobStateReconciliation
| CodingAgentRuns
| NativeToolPlugins
| ManagedSshResources
| RunnerConfigControl
| ComputerControl
| ComputerScrollToElement
| ComputerKeyInput
| ComputerWindowActivate
| ComputerTextInput.

#[export] Instance RunnerFeature_eq_dec : EqDecision RunnerFeature.
Proof. solve_decision. Defined.

Definition ALL_RUNNER_FEATURES : list RunnerFeature :=
  [Shell; FileRead; FileWrite; ArtifactExportChunkRead; ArtifactExportStreamingMetadata;
   StructuredFileDelete; ApplyTextEditOccurrence; ApplyTextEditLineScope; ApplyPatch;
   ApplyPatchMatchMetadata; ApplyPatchMatchingMode; ApplyPatchStrictMatching; Git; Jobs; AsyncJobs;
   AsyncShellJobs; SshShell; PersistentShell; SshPersistentShell; StructuredValidationArgv;
   StructuredCargoTestCountAssertion; StructuredCargoTestExecutionPolicy; StructuredGoTestJson;
   StructuredGoTestTool; StructuredGoTestPackages; StructuredProcessArgv; StructuredScriptPayload;
   StructuredScriptJavascript; StructuredScriptTypescript; InternalPosixScript;
   StructuredExecutionJobs; DetachedProcessJobs; LspReadOnlyNavigation; LspCallHierarchy;
   ProjectLifecycle; ProjectPathRegistration; ManagedWorktree; ConfiguredSkillRootsRead;
   SkillStoreRead; SkillStoreManage; ComputerObserve; ComputerApplicationDiscovery;
   ComputerApplicationLaunch; ComputerDisplayObserve; ComputerPointerControl;
   ComputerClipboardRead; ComputerClipboardWrite; ComputerSnapshotRegion;
   ComputerAccessibilityObserve; ComputerElementState; JobStateReconciliation; CodingAgentRuns;
   NativeToolPlugins; ManagedSshResources; RunnerConfigControl; ComputerControl;
   ComputerScrollToElement; ComputerKeyInput; ComputerWindowActivate; ComputerTextInput].

Inductive RunnerFeatureInference : Type :=
| GenerationEligible
| RegistrationRequired.

#[export] Instance RunnerFeatureInference_eq_dec : EqDecision RunnerFeatureInference.
Proof. solve_decision. Defined.

Definition as_wire_name (f : RunnerFeature) : str :=
  match f with
  | Shell => lit "shell"
  | FileRead => lit "file_read"
  | FileWrite => lit "file_write"
  | ArtifactExportChunkRead => lit "artifact_export_chunk_read"
  | ArtifactExportStreamingMetadata => lit "artifact_export_streaming_metadata"
  | StructuredFileDelete => lit "structured_file_delete"
  | ApplyTextEditOccurrence => lit "apply_text_edit_occurrence"
  | ApplyTextEditLineScope => lit "apply_text_edit_line_scope"
  | ApplyPatch => lit "apply_patch"
  | ApplyPatchMatchMetadata => lit "apply_patch_match_metadata"
  | ApplyPatchMatchingMode => lit "apply_patch_matching_mode"
  | ApplyPatchStrictMatching => lit "apply_patch_strict_matching"
  | Git => lit "git"
  | Jobs => lit "jobs"
  | AsyncJobs => lit "async_jobs"
  | AsyncShellJobs => lit "async_shell_jobs"
  | SshShell => lit "ssh_shell"
  | PersistentShell => lit "persistent_shell"
  | SshPersistentShell => lit "ssh_persistent_shell"
  | StructuredValidationArgv => lit "structured_validation_argv"
  | StructuredCargoTestCountAssertion => lit "structured_cargo_test_count_assertion"
  | StructuredCargoTestExecutionPolicy => lit "structured_cargo_test_execution_policy"
  | StructuredGoTestJson => lit "structured_go_test_json"
  | StructuredGoTestTool => lit "structured_go_test_tool"
  | StructuredGoTestPackages => lit "structured_go_test_packages"
  | StructuredProcessArgv => lit "structured_process_argv"
  | StructuredScriptPayload => lit "structured_script_payload"
  | StructuredScriptJavascript => lit "structured_script_javascript"
  | StructuredScriptTypescript => lit "structured_script_typescript"
  | InternalPosixScript => lit "internal_posix_script"
  | StructuredExecutionJobs => lit "structured_execution_jobs"
  | DetachedProcessJobs => lit "detached_process_jobs"
  | LspReadOnlyNavigation => lit "lsp_read_only_navigation"
  | LspCallHierarchy => lit "lsp_call_hierarchy"
  | ProjectLifecycle => lit "project_lifecycle"
  | ProjectPathRegistration => lit "project_path_registration"
  | ManagedWorktree => lit "managed_worktree"
  | ConfiguredSkillRootsRead => lit "configured_skill_roots_read"
  | SkillStoreRead => lit "skill_store_read"
  | SkillStoreManage => lit "skill_store_manage"
  | ComputerObserve => lit "computer_observe"
  | ComputerApplicationDiscovery => lit "computer_application_discovery"
  | ComputerApplicationLaunch => lit "computer_application_launch"
  | ComputerDisplayObserve => lit "computer_display_observe"
  | ComputerPointerControl => lit "computer_pointer_control"
  | ComputerClipboardRead => lit "computer_clipboard_read"
  | ComputerClipboardWrite => lit "computer_clipboard_write"
  | ComputerSnapshotRegion => lit "computer_snapshot_region"
  | ComputerAccessibilityObserve => lit "computer_accessibility_observe"
  | ComputerElementState => lit "computer_element_state"
  | JobStateReconciliation => lit "job_state_reconciliation"
  | CodingAgentRuns => lit "coding_agent_runs"
  | NativeToolPlugins => lit "native_tool_plugins"
  | ManagedSshResources => lit "managed_ssh_resources"
  | RunnerConfigControl => lit "runner_config_control"
  | ComputerControl => lit "computer_control"
  | ComputerScrollToElement => lit "computer_scroll_to_element"
  | ComputerKeyInput => lit "computer_key_input"
  | ComputerWindowActivate => lit "computer_window_activate"
  | ComputerTextInput => lit "computer_text_input"
  end.

Definition from_wire_name (name : str) : option RunnerFeature :=
  if name ==? lit "shell" then Some Shell
  else if name ==? lit "file_read" then Some FileRead
  else if name ==? lit "file_write" then Some FileWrite
  else if name ==? lit "artifact_export_chunk_read" then Some ArtifactExportChunkRead
  else if name ==? lit "artifact_export_streaming_metadata" then Some ArtifactExportStreamingMetadata
  else if name ==? lit "structured_file_delete" then Some StructuredFileDelete
  else if name ==? lit "apply_text_edit_occurrence" then Some ApplyTextEditOccurrence
  else if name ==? lit "apply_text_edit_line_scope" then Some ApplyTextEditLineScope
  else if name ==? lit "apply_patch" then Some ApplyPatch
  else if name ==? lit "apply_patch_match_metadata" then Some ApplyPatchMatchMetadata
  else if name ==? lit "apply_patch_matching_mode" then Some ApplyPatchMatchingMode
  else if name ==? lit "apply_patch_strict_matching" then Some ApplyPatchStrictMatching
  else if name ==? lit "git" then Some Git
  else if name ==? lit "jobs" then Some Jobs
  else if name ==? lit "async_jobs" then Some AsyncJobs
  else if name ==? lit "async_shell_jobs" then Some AsyncShellJobs
  else if name ==? lit "ssh_shell" then Some SshShell
  else if name ==? lit "persistent_shell" then Some PersistentShell
  else if name ==? lit "ssh_persistent_shell" then Some SshPersistentShell
  else if name ==? lit "structured_validation_argv" then Some StructuredValidationArgv
  else if name ==? lit "structured_cargo_test_count_assertion" then Some StructuredCargoTestCountAssertion
  else if name ==? lit "structured_cargo_test_execution_policy" then Some StructuredCargoTestExecutionPolicy
  else if name ==? lit "structured_go_test_json" then Some StructuredGoTestJson
  else if name ==? lit "structured_go_test_tool" then Some StructuredGoTestTool
  else if name ==? lit "structured_go_test_packages" then Some StructuredGoTestPackages
  else if name ==? lit "structured_process_argv" then Some StructuredProcessArgv
  else if name ==? lit "structured_script_payload" then Some StructuredScriptPayload
  else if name ==? lit "structured_script_javascript" then Some StructuredScriptJavascript
  else if name ==? lit "structured_script_typescript" then Some StructuredScriptTypescript
  else if name ==? lit "internal_posix_script" then Some InternalPosixScript
  else if name ==? lit "structured_execution_jobs" then Some StructuredExecutionJobs
  else if name ==? lit "detached_process_jobs" then Some DetachedProcessJobs
  else if name ==? lit "lsp_read_only_navigation" then Some LspReadOnlyNavigation
  else if name ==? lit "lsp_call_hierarchy" then Some LspCallHierarchy
  else if name ==? lit "project_lifecycle" then Some ProjectLifecycle
  else if name ==? lit "project_path_registration" then Some ProjectPathRegistration
  else if name ==? lit "managed_worktree" then Some ManagedWorktree
  else if name ==? lit "configured_skill_roots_read" then Some ConfiguredSkillRootsRead
  else if name ==? lit "skill_store_read" then Some SkillStoreRead
  else if name ==? lit "skill_store_manage" then Some SkillStoreManage
  else if name ==? lit "computer_observe" then Some ComputerObserve
  else if name ==? lit "computer_application_discovery" then Some ComputerApplicationDiscovery
  else if name ==? lit "computer_application_launch" then Some ComputerApplicationLaunch
  else if name ==? lit "computer_display_observe" then Some ComputerDisplayObserve
  else if name ==? lit "computer_pointer_control" then Some ComputerPointerControl
  else if name ==? lit "computer_clipboard_read" then Some ComputerClipboardRead
  else if name ==? lit "computer_clipboard_write" then Some ComputerClipboardWrite
  else if name ==? lit "computer_snapshot_region" then Some ComputerSnapshotRegion
  else if name ==? lit "computer_accessibility_observe" then Some ComputerAccessibilityObserve
  else if name ==? lit "computer_element_state" then Some ComputerElementState
  else if name ==? lit "job_state_reconciliation" then Some JobStateReconciliation
  else if name ==? lit "coding_agent_runs" then Some CodingAgentRuns
  else if name ==? lit "native_tool_plugins" then Some NativeToolPlugins
  else if name ==? lit "managed_ssh_resources" then Some ManagedSshResources
  else if name ==? lit "runner_config_control" then Some RunnerConfigControl
  else if name ==? lit "computer_control" then Some ComputerControl
  else if name ==? lit "computer_scroll_to_element" then Some ComputerScrollToElement
  else if name ==? lit "computer_key_input" then Some ComputerKeyInput
  else if name ==? lit "computer_window_activate" then Some ComputerWindowActivate
  else if name ==? lit "computer_text_input" then Some ComputerTextInput
  else None.

Definition inference (f : RunnerFeature) : RunnerFeatureInference :=
  match f with
  | FileRead | FileWrite | ArtifactExportChunkRead | ArtifactExportStreamingMetadata
  | StructuredFileDelete | ApplyTextEditOccurrence | Jobs | AsyncJobs | AsyncShellJobs
  | StructuredValidationArgv | StructuredCargoTestCountAssertion | StructuredGoTestJson
  | StructuredGoTestTool | StructuredGoTestPackages | StructuredProcessArgv
  | StructuredScriptPayload | InternalPosixScript | StructuredExecutionJobs | LspReadOnlyNavigation
  | LspCallHierarchy | ProjectLifecycle | ProjectPathRegistration => GenerationEligible
  | Shell | Git | StructuredScriptJavascript | StructuredScriptTypescript
  | StructuredCargoTestExecutionPolicy | ApplyTextEditLineScope | ApplyPatch
  | ApplyPatchMatchMetadata | ApplyPatchMatchingMode | ApplyPatchStrictMatching | SshShell
  | PersistentShell | SshPersistentShell | DetachedProcessJobs | ManagedWorktree
  | ConfiguredSkillRootsRead | SkillStoreRead | SkillStoreManage | ComputerObserve
  | ComputerApplicationDiscovery | ComputerApplicationLaunch | ComputerDisplayObserve
  | ComputerPointerControl | ComputerClipboardRead | ComputerClipboardWrite
  | ComputerSnapshotRegion | ComputerAccessibilityObserve | ComputerElementState
  | JobStateReconciliation | CodingAgentRuns | NativeToolPlugins | ManagedSshResources
  | RunnerConfigControl | ComputerControl | ComputerScrollToElement | ComputerKeyInput
  | ComputerWindowActivate | ComputerTextInput => RegistrationRequired
  end.

(** The explicit boolean projection of one registration. *)
Record RunnerCapabilities : Type := mkCapabilities {
  cap_shell : bool;
  cap_file_read : bool;
  cap_file_write : bool;
  cap_artifact_export_chunk_read : bool;
  cap_artifact_export_streaming_metadata : bool;
  cap_structured_file_delete : bool;
  cap_apply_text_edit_occurrence : bool;
  cap_apply_text_edit_line_scope : bool;
  cap_apply_patch : bool;
  cap_apply_patch_match_metadata : bool;
  cap_apply_patch_matching_mode : bool;
  cap_apply_patch_strict_matching : bool;
  cap_git : bool;
  cap_jobs : bool;
  cap_async_jobs : bool;
  cap_async_shell_jobs : bool;
  cap_ssh_shell : bool;
  cap_persistent_shell : bool;
  cap_ssh_persistent_shell : bool;
  cap_structured_validation_argv : bool;
  cap_structured_cargo_test_count_assertion : bool;
  cap_structured_cargo_test_execution_policy : bool;
  cap_structured_go_test_json : bool;
  cap_structured_go_test_tool : bool;
  cap_structured_go_test_packages : bool;
  cap_structured_process_argv : bool;
  cap_structured_script_payload : bool;
  cap_structured_script_javascript : bool;
  cap_structured_script_typescript : bool;
  cap_internal_posix_script : bool;
  cap_structured_execution_jobs : bool;
  cap_detached_process_jobs : bool;
  cap_lsp_read_only_navigation : bool;
  cap_lsp_call_hierarchy : bool;
  cap_project_lifecycle : bool;
  cap_project_path_registration : bool;
  cap_managed_worktree : bool;
  cap_configured_skill_roots_read : bool;
  cap_skill_store_read : bool;
  cap_skill_store_manage : bool;
  cap_computer_observe : bool;
  cap_computer_application_discovery : bool;
  cap_computer_application_launch : bool;
  cap_computer_display_observe : bool;
  cap_computer_pointer_control : bool;
  cap_computer_clipboard_read : bool;
  cap_computer_clipboard_write : bool;
  cap_computer_snapshot_region : bool;
  cap_computer_accessibility_observe : bool;
  cap_computer_element_state : bool;
  cap_computer_control : bool;
  cap_computer_scroll_to_element : bool;
  cap_computer_key_input : bool;
  cap_computer_window_activate : bool;
  cap_computer_text_input : bool;
  cap_job_state_reconciliation : bool;
  cap_coding_agent_runs : bool;
  cap_native_tool_plugins : bool;
  cap_managed_ssh_resources : bool;
  cap_runner_config_control : bool
}.

Definition advertised_by (f : RunnerFeature) (c : RunnerCapabilities) : bool :=
  match f with
  | Shell => cap_shell c
  | FileRead => cap_file_read c
  | FileWrite => cap_file_write c
  | ArtifactExportChunkRead => cap_artifact_export_chunk_read c
  | ArtifactExportStreamingMetadata => cap_artifact_export_streaming_metadata c
  | StructuredFileDelete => cap_structured_file_delete c
  | ApplyTextEditOccurrence => cap_apply_text_edit_occurrence c
  | ApplyTextEditLineScope => cap_apply_text_edit_line_scope c
  | ApplyPatch => cap_apply_patch c
  | ApplyPatchMatchMetadata => cap_apply_patch_match_metadata c
  | ApplyPatchMatchingMode => cap_apply_patch_matching_mode c
  | ApplyPatchStrictMatching => cap_apply_patch_strict_matching c
  | Git => cap_git c
  | Jobs => cap_jobs c
  | AsyncJobs => cap_async_jobs c
  | AsyncShellJobs => cap_async_shell_jobs c
  | SshShell => cap_ssh_shell c
  | PersistentShell => cap_persistent_shell c
  | SshPersistentShell => cap_ssh_persistent_shell c
  | StructuredValidationArgv => cap_structured_validation_argv c
  | StructuredCargoTestCountAssertion => cap_structured_cargo_test_count_assertion c
  | StructuredCargoTestExecutionPolicy => cap_structured_cargo_test_execution_policy c
  | StructuredGoTestJson => cap_structured_go_test_json c
  | StructuredGoTestTool => cap_structured_go_test_tool c
  | StructuredGoTestPackages => cap_structured_go_test_packages c
  | StructuredProcessArgv => cap_structured_process_argv c
  | StructuredScriptPayload => cap_structured_script_payload c
  | StructuredScriptJavascript => cap_structured_script_javascript c
  | StructuredScriptTypescript => cap_structured_script_typescript c
  | InternalPosixScript => cap_internal_posix_script c
  | StructuredExecutionJobs => cap_structured_execution_jobs c
  | DetachedProcessJobs => cap_detached_process_jobs c
  | LspReadOnlyNavigation => cap_lsp_read_only_navigation c
  | LspCallHierarchy => cap_lsp_call_hierarchy c
  | ProjectLifecycle => cap_project_lifecycle c
  | ProjectPathRegistration => cap_project_path_registration c
  | ManagedWorktree => cap_managed_worktree c
  | ConfiguredSkillRootsRead => cap_configured_skill_roots_read c
  | SkillStoreRead => cap_skill_store_read c
  | SkillStoreManage => cap_skill_store_manage c
  | ComputerObserve => cap_computer_observe c
  | ComputerApplicationDiscovery => cap_computer_application_discovery c
  | ComputerApplicationLaunch => cap_computer_application_launch c
  | ComputerDisplayObserve => cap_computer_display_observe c
  | ComputerPointerControl => cap_computer_pointer_control c
  | ComputerClipboardRead => cap_computer_clipboard_read c
  | ComputerClipboardWrite => cap_computer_clipboard_write c
  | ComputerSnapshotRegion => cap_computer_snapshot_region c
  | ComputerAccessibilityObserve => cap_computer_accessibility_observe c
  | ComputerElementState => cap_computer_element_state c
  | JobStateReconciliation => cap_job_state_reconciliation c
  | CodingAgentRuns => cap_coding_agent_runs c
  | NativeToolPlugins => cap_native_tool_plugins c
  | ManagedSshResources => cap_managed_ssh_resources c
  | RunnerConfigControl => cap_runner_config_control c
  | ComputerControl => cap_computer_control c
  | ComputerScrollToElement => cap_computer_scroll_to_element c
  | ComputerKeyInput => cap_computer_key_input c
  | ComputerWindowActivate => cap_computer_window_activate c
  | ComputerTextInput => cap_computer_text_input c
  end.

Definition RUNNER_PROTOCOL_GENERATION_V2_BASELINE_CAPABILITY_NAMES : list str :=
  [lit "file_read"; lit "file_write"; lit "artifact_export_chunk_read";
   lit "artifact_export_streaming_metadata"; lit "structured_file_delete";
   lit "apply_text_edit_occurrence"; lit "jobs"; lit "async_jobs"; lit "async_shell_jobs";
   lit "structured_validation_argv"; lit "structured_cargo_test_count_assertion";
   lit "structured_go_test_json"; lit "structured_go_test_tool"; lit "structured_go_test_packages";
   lit "structured_process_argv"; lit "structured_script_payload"; lit "internal_posix_script";
   lit "structured_execution_jobs"; lit "lsp_read_only_navigation"; lit "lsp_call_hierarchy";
   lit "project_lifecycle"; lit "project_path_registration"].

Definition RUNNER_CAPABILITY_NAMES : list str :=
  [lit "shell"; lit "file_read"; lit "file_write"; lit "artifact_export_chunk_read";
   lit "artifact_export_streaming_metadata"; lit "structured_file_delete";
   lit "apply_text_edit_occurrence"; lit "apply_text_edit_line_scope"; lit "apply_patch";
   lit "apply_patch_match_metadata"; lit "apply_patch_matching_mode";
   lit "apply_patch_strict_matching"; lit "git"; lit "jobs"; lit "async_jobs";
   lit "async_shell_jobs"; lit "ssh_shell"; lit "persistent_shell"; lit "ssh_persistent_shell";
   lit "structured_validation_argv"; lit "structured_cargo_test_count_assertion";
   lit "structured_cargo_test_execution_policy"; lit "structured_go_test_json";
   lit "structured_go_test_tool"; lit "structured_go_test_packages"; lit "structured_process_argv";
   lit "structured_script_payload"; lit "structured_script_javascript";
   lit "structured_script_typescript"; lit "internal_posix_script";
   lit "structured_execution_jobs"; lit "detached_process_jobs"; lit "lsp_read_only_navigation";
   lit "lsp_call_hierarchy"; lit "project_lifecycle"; lit "project_path_registration";
   lit "managed_worktree"; lit "configured_skill_roots_read"; lit "skill_store_read";
   lit "skill_store_manage"; lit "computer_observe"; lit "computer_application_discovery";
   lit "computer_application_launch"; lit "computer_display_observe";
   lit "computer_pointer_control"; lit "computer_clipboard_read"; lit "computer_clipboard_write";
   lit "computer_snapshot_region"; lit "computer_accessibility_observe";
   lit "computer_element_state"; lit "job_state_reconciliation"; lit "coding_agent_runs";
   lit "native_tool_plugins"; lit "managed_ssh_resources"; lit "runner_config_control";
   lit "computer_control"; lit "computer_scroll_to_element"; lit "computer_key_input";
   lit "computer_window_activate"; lit "computer_text_input"].

Record RunnerFeatureSet : Type := mkFeatureSet { capabilities : RunnerCapabilities }.

(** The registration loop: the first baseline feature that is not advertised
    rejects the registration. *)
Fixpoint check_baseline (features : list RunnerFeature) (c : RunnerCapabilities) : result unit str :=
  match features with
  | [] => Ok tt
  | f :: rest =>
      bail? (inference f ==? GenerationEligible) && negb (advertised_by f c)
        with lit "runner generation baseline capability mismatch: " ++ as_wire_name f ;;
      check_baseline rest c
  end.

Definition try_from_registration (c : RunnerCapabilities) : result RunnerFeatureSet str :=
  check? check_baseline ALL_RUNNER_FEATURES c ;;
  Ok (mkFeatureSet c).

Definition supports (s : RunnerFeatureSet) (f : RunnerFeature) : bool := advertised_by f (capabilities s).

Definition supports_wire_name (s : RunnerFeatureSet) (capability : str) : bool :=
  is_some_and (supports s) (from_wire_name capability).

Definition wire_capabilities (s : RunnerFeatureSet) : RunnerCapabilities := capabilities s.

(** A Runner that advertises everything, or nothing. *)
Definition uniform_capabilities (b : bool) : RunnerCapabilities :=
  mkCapabilities b b b b b b b b b b b b b b b b b b b b
    b b b b b b b b b b b b b b b b b b b b
    b b b b b b b b b b b b b b b b b b b b.

(** ** The vocabulary *)

Lemma from_as_wire_name (f : RunnerFeature) : from_wire_name (as_wire_name f) = Some f.
Proof. by destruct f. Qed.

Lemma from_wire_name_some (name : str) (f : RunnerFeature) :
  from_wire_name name = Some f -> name = as_wire_name f.
Proof.
  unfold from_wire_name. intros H.
  repeat match type of H with
  | (if ?b then _ else _) = _ =>
      let E := fresh in destruct b eqn:E; [apply beq_true in E; by injection H as <- | clear E]
  end.
  done.
Qed.

Lemma all_features_complete (f : RunnerFeature) : f ∈ ALL_RUNNER_FEATURES.
Proof. destruct f; apply (bool_decide_unpack _); vm_compute; exact I. Qed.

(** The capability vocabulary is a bijection: a wire name is recognised
    exactly when it is the name of the feature returned, every feature is in the
    list of all features once, and the wire names of that list are, in order, the
    protocol's list of capability names. *)
Lemma capability_names_bijective (name : str) :
  (forall f, from_wire_name name = Some f <-> name = as_wire_name f)
  /\ (forall f, f ∈ ALL_RUNNER_FEATURES)
  /\ NoDup ALL_RUNNER_FEATURES
  /\ map as_wire_name ALL_RUNNER_FEATURES = RUNNER_CAPABILITY_NAMES.
Proof.
  split_and!.
  - intros f. split; [apply from_wire_name_some | intros ->; apply from_as_wire_name].
  - apply all_features_complete.
  - apply (bool_decide_unpack _). vm_compute. exact I.
  - reflexivity.
Qed.

Lemma check_baseline_ok (features : list RunnerFeature) (c : RunnerCapabilities) :
  check_baseline features c = Ok tt
  <-> forall f, f ∈ features -> inference f = GenerationEligible -> advertised_by f c = true.
Proof.
  induction features as [|g features IH]; cbn [check_baseline].
  - split; [intros _ f Hf; by apply not_elem_of_nil in Hf | done].
  - destruct ((inference g ==? GenerationEligible) && negb (advertised_by g c)) eqn:E.
    + split_andb. split; [done | ]. intros Hall. rewrite (Hall g) in *; [done | by left | done].
    + rewrite IH. split; intros H f; [ | intros Hf; apply H; by right].
      rewrite elem_of_cons. intros [->|Hf] Hi; [ | by apply H]. rewrite Hi in E.
      apply andb_false_iff in E as [E|E]; [by apply beq_false in E | by apply negb_false_iff in E].
Qed.

(** The features of the frozen baseline, from their names. *)
Lemma baseline_names_eligible (f : RunnerFeature) :
  inference f = GenerationEligible
  <-> as_wire_name f ∈ RUNNER_PROTOCOL_GENERATION_V2_BASELINE_CAPABILITY_NAMES.
Proof.
  assert (H : forallb (fun f => Bool.eqb (inference f ==? GenerationEligible)
    (bool_decide (as_wire_name f ∈ RUNNER_PROTOCOL_GENERATION_V2_BASELINE_CAPABILITY_NAMES)))
    ALL_RUNNER_FEATURES = true) by (vm_compute; reflexivity).
  rewrite forallb_forall in H. specialize (H f). apply Bool.eqb_prop in H.
  - rewrite <- beq_eq, H. apply (bool_decide_eq_true _).
  - apply list_elem_of_In, all_features_complete.
Qed.

(** A registration is accepted exactly when every capability of the frozen
    generation-2 baseline is advertised under its wire name, and an accepted
    registration supports precisely what its own snapshot advertises: nothing is
    inferred. *)
Lemma registration_baseline_exact (c : RunnerCapabilities) :
  (is_ok (try_from_registration c) = true
   <-> forall name, name ∈ RUNNER_PROTOCOL_GENERATION_V2_BASELINE_CAPABILITY_NAMES ->
         supports_wire_name (mkFeatureSet c) name = true)
  /\ (forall s f, try_from_registration c = Ok s -> supports s f = advertised_by f c).
Proof.
  unfold try_from_registration. split.
  - transitivity (check_baseline ALL_RUNNER_FEATURES c = Ok tt).
    { destruct (check_baseline ALL_RUNNER_FEATURES c) as [[]|]; done. }
    rewrite check_baseline_ok. split.
    + intros H name Hname. assert (Hf : exists f, from_wire_name name = Some f).
      { revert name Hname. apply Forall_forall. repeat constructor; eexists; reflexivity. }
      destruct Hf as [f Hf]. unfold supports_wire_name. rewrite Hf. cbn.
      apply H; [apply all_features_complete | ]. apply baseline_names_eligible.
      by rewrite <- (from_wire_name_some _ _ Hf).
    + intros H f _ Hi. apply baseline_names_eligible in Hi. specialize (H _ Hi).
      unfold supports_wire_name in H. rewrite from_as_wire_name in H. exact H.
  - intros s f H. destruct (check_baseline ALL_RUNNER_FEATURES c); [ | done]. by injection H as <-.
Qed.
