(* ===== verification/CodingAgent.v ===== *)
(** * CodingAgent: crates/webcodex-core/src/coding_agent.rs, coding-agent runs

    The closed protocol for runs of a coding agent that a Runner owns: the
    validators of requests, snapshots and responses, and the merge of an
    observation into the snapshot already retained, which is a state machine
    ordered by the observation revision.  The theorems say what an observer that
    keeps merging can end with: nothing of a run's identity changes, revisions
    only grow, a definitive outcome is final, and observations that arrive late,
    twice or out of order do not matter. *)
From S2P Require Import Prelude RustStr.

Definition CODING_AGENT_MAX_PROVIDERS : nat := 8.
Definition CODING_AGENT_MAX_PROVIDER_ID_BYTES : Z := 64.
Definition CODING_AGENT_MAX_PROVIDER_NAME_BYTES : Z := 128.
Definition CODING_AGENT_MAX_RUN_ID_BYTES : Z := 96.
Definition CODING_AGENT_MAX_INTENT_FINGERPRINT_BYTES : Z := 96.
Definition CODING_AGENT_MAX_PROJECT_ID_BYTES : Z := 512.
Definition CODING_AGENT_MAX_PROJECT_ROOT_BYTES : Z := 4096.
Definition CODING_AGENT_MAX_INSTRUCTION_BYTES : Z := 64 * 1024.
Definition CODING_AGENT_MAX_CONFIG_OPTIONS : nat := 32.
Definition CODING_AGENT_MAX_CONFIG_KEY_BYTES : Z := 128.
Definition CODING_AGENT_MAX_CONFIG_VALUE_BYTES : Z := 4096.
Definition CODING_AGENT_MAX_EVENT_TEXT_BYTES : Z := 16 * 1024.
Definition CODING_AGENT_MAX_ERROR_KIND_BYTES : Z := 64.
Definition CODING_AGENT_MAX_ERROR_MESSAGE_BYTES : Z := 16 * 1024.
Definition CODING_AGENT_MAX_EVENT_METADATA_BYTES : Z := 1024.
Definition CODING_AGENT_MAX_TERMINAL_METADATA_BYTES : Z := 1024.
Definition CODING_AGENT_MAX_EVENTS_PER_RESPONSE : Z := 64.
Definition CODING_AGENT_MAX_INVENTORY_RUNS : nat := 128.
Definition CODING_AGENT_TIMEOUT_MIN_SECS : Z := 1.
Definition CODING_AGENT_TIMEOUT_MAX_SECS : Z := 3600.
Definition CODING_AGENT_OBSERVE_WAIT_MAX_SECS : Z := 60.
Definition CODING_AGENT_STOP_REASON_END_TURN : str := lit "end_turn".
Definition CODING_AGENT_STOP_REASON_CANCELLED : str := lit "cancelled".
Definition CODING_AGENT_STOP_REASON_MAX_TOKENS : str := lit "max_tokens".
Definition CODING_AGENT_STOP_REASON_MAX_TURN_REQUESTS : str := lit "max_turn_requests".
Definition CODING_AGENT_STOP_REASON_REFUSAL : str := lit "refusal".

Record CodingAgentProvider : Type := mkCodingProvider {
  cap_provider_id : str;
  cap_provider_instance_id : str;
  cap_name : str
}.

Inductive CodingAgentRunState : Type :=
| RunStarting | RunRunning | RunWaitingPermission | RunCompleted | RunFailed | RunCancelled | RunLost.

Definition run_terminal (s : CodingAgentRunState) : bool :=
  match s with
  | RunCompleted | RunFailed | RunCancelled | RunLost => true
  | _ => false
  end.

Definition run_state_as_str (s : CodingAgentRunState) : str :=
  match s with
  | RunStarting => lit "starting"
  | RunRunning => lit "running"
  | RunWaitingPermission => lit "waiting_permission"
  | RunCompleted => lit "completed"
  | RunFailed => lit "failed"
  | RunCancelled => lit "cancelled"
  | RunLost => lit "lost"
  end.

Definition run_state_from_str (value : str) : option CodingAgentRunState :=
  if value ==? lit "starting" then Some RunStarting
  else if value ==? lit "running" then Some RunRunning
  else if value ==? lit "waiting_permission" then Some RunWaitingPermission
  else if value ==? lit "completed" then Some RunCompleted
  else if value ==? lit "failed" then Some RunFailed
  else if value ==? lit "cancelled" then Some RunCancelled
  else if value ==? lit "lost" then Some RunLost
  else None.

Inductive CodingAgentExecutionState : Type :=
| ExecNotStarted | ExecStarted | ExecOutcomeUnknown | ExecCompleted.

Definition execution_state_as_str (s : CodingAgentExecutionState) : str :=
  match s with
  | ExecNotStarted => lit "not_started"
  | ExecStarted => lit "started"
  | ExecOutcomeUnknown => lit "outcome_unknown"
  | ExecCompleted => lit "completed"
  end.

Definition execution_state_from_str (value : str) : option CodingAgentExecutionState :=
  if value ==? lit "not_started" then Some ExecNotStarted
  else if value ==? lit "started" then Some ExecStarted
  else if value ==? lit "outcome_unknown" then Some ExecOutcomeUnknown
  else if value ==? lit "completed" then Some ExecCompleted
  else None.

Inductive CodingAgentDispatchState : Type :=
| DispatchNotStarted | DispatchOutcomeUnknown | DispatchCompleted.

Inductive CodingAgentConfigValue : Type :=
| ConfigString (s : str)
| ConfigBool (b : bool)
| ConfigInteger (z : Z).

Inductive CodingAgentEventKind : Type :=
| AgentMessage | Reasoning | Plan | ToolActivity | FileChange | TerminalActivity | Usage
| PermissionRequest | TerminalEvent.

Record CodingAgentUsage : Type := mkUsage {
  used_tokens : option Z;
  context_window_tokens : option Z;
  cost_amount : option str;
  cost_currency : option str
}.

Record CodingAgentEvent : Type := mkEvent {
  ev_sequence : Z;
  ev_kind : CodingAgentEventKind;
  ev_text : option str;
  ev_label : option str;
  ev_status : option str;
  ev_usage : option CodingAgentUsage
}.

Record CodingAgentTerminal : Type := mkTerminal {
  stop_reason : option str;
  error_code : option str;
  term_message : option str;
  completed_at : Z
}.

Record CodingAgentRunSnapshot : Type := mkRun {
  run_id : str;
  intent_fingerprint : str;
  authority_fingerprint : str;
  runtime_project_id : str;
  run_provider_id : str;
  run_provider_instance_id : str;
  run_state : CodingAgentRunState;
  execution_state : CodingAgentExecutionState;
  observation_revision : Z;
  run_created_at : Z;
  run_updated_at : Z;
  terminal : option CodingAgentTerminal
}.

Record CodingAgentStartRequest : Type := mkStart {
  st_run_id : str;
  st_intent_fingerprint : str;
  st_authority_fingerprint : str;
  st_runtime_project_id : str;
  st_project_root : str;
  st_provider_id : str;
  st_provider_instance_id : str;
  st_instruction : str;
  st_config : list (str * CodingAgentConfigValue);
  st_timeout_secs : Z
}.

Inductive CodingAgentRequest : Type :=
| StartRun (request : CodingAgentStartRequest)
| ObserveRun (rid : str) (after_sequence : option Z) (limit wait_secs : Z)
| CancelRun (rid : str).

Record CodingAgentObserveResult : Type := mkObserve {
  obs_run : CodingAgentRunSnapshot;
  obs_events : list CodingAgentEvent;
  first_retained_sequence : Z;
  next_sequence : Z;
  has_more : bool;
  history_lost : bool
}.

Inductive CodingAgentResponsePayload : Type :=
| StartPayload (run : CodingAgentRunSnapshot)
| ObservePayload (observation : CodingAgentObserveResult)
| CancelPayload (run : CodingAgentRunSnapshot).

Record CodingAgentError : Type := mkCodingError {
  ce_code : str;
  ce_message : str;
  failure_kind : option str;
  recovery_kind : option str
}.

Record CodingAgentResponse : Type := mkCodingResponse {
  dispatch_state : CodingAgentDispatchState;
  cr_payload : option CodingAgentResponsePayload;
  cr_error : option CodingAgentError
}.

Inductive CodingAgentObservationMerge : Type := Stale | ExactReplay | Advance.

#[export] Instance provider_eq_dec : EqDecision CodingAgentProvider.
Proof. solve_decision. Defined.
#[export] Instance run_state_eq_dec : EqDecision CodingAgentRunState.
Proof. solve_decision. Defined.
#[export] Instance execution_state_eq_dec : EqDecision CodingAgentExecutionState.
Proof. solve_decision. Defined.
#[export] Instance terminal_eq_dec : EqDecision CodingAgentTerminal.
Proof. solve_decision. Defined.
#[export] Instance snapshot_eq_dec : EqDecision CodingAgentRunSnapshot.
Proof. solve_decision. Defined.

Definition request_run_id (r : CodingAgentRequest) : str :=
  match r with
  | StartRun request => st_run_id request
  | ObserveRun rid _ _ _ => rid
  | CancelRun rid => rid
  end.

Definition coding_provider_binding (r : CodingAgentRequest) : option (str * str) :=
  match r with
  | StartRun request => Some (st_provider_id request, st_provider_instance_id request)
  | ObserveRun _ _ _ _ | CancelRun _ => None
  end.

Definition coding_success (payload : CodingAgentResponsePayload) : CodingAgentResponse :=
  mkCodingResponse DispatchCompleted (Some payload) None.

Definition coding_error (state : CodingAgentDispatchState) (code message : str)
  (failure recovery : option str) : CodingAgentResponse :=
  mkCodingResponse state None (Some (mkCodingError code message failure recovery)).

(** ** Validators *)

Definition validate_identifier (value field : str) (max_bytes : Z) (lowercase_only : bool) : result unit str :=
  bail? is_empty value || Z.ltb max_bytes (str_len value)
    with field ++ lit " must contain 1..=" ++ fmt_Z max_bytes ++ lit " bytes" ;;
  bail? negb (forallb (fun byte =>
                (if lowercase_only then is_ascii_lowercase byte else is_ascii_alphanumeric byte)
                || is_ascii_digit byte || existsb (N.eqb byte) (lit "_-.")) (as_bytes value))
    with field ++ lit " contains unsupported characters" ;;
  Ok tt.

Definition validate_low_cardinality_kind (value field : str) (max_bytes : Z) : result unit str :=
  bail? is_empty value || Z.ltb max_bytes (str_len value)
        || negb (forallb (fun byte => is_ascii_lowercase byte || is_ascii_digit byte || N.eqb byte 95)
                   (as_bytes value))
    with field ++ lit " is invalid" ;;
  Ok tt.

Definition validate_provider_id (value : str) : result unit str :=
  validate_identifier value (lit "provider_id") CODING_AGENT_MAX_PROVIDER_ID_BYTES true.

Definition validate_provider_instance_id (value : str) : result unit str :=
  validate_identifier value (lit "provider_instance_id") CODING_AGENT_MAX_PROVIDER_ID_BYTES false.

Definition validate_run_id (value : str) : result unit str :=
  bail? negb (starts_with (lit "wc_agent_run_") value)
    with lit "run_id must use the wc_agent_run_ namespace" ;;
  validate_identifier value (lit "run_id") CODING_AGENT_MAX_RUN_ID_BYTES false.

Definition validate_intent_fingerprint (value : str) : result unit str :=
  validate_identifier value (lit "intent_fingerprint") CODING_AGENT_MAX_INTENT_FINGERPRINT_BYTES false.

Definition validate_authority_fingerprint (value : str) : result unit str :=
  bail? negb (starts_with (lit "auth_") value)
    with lit "authority_fingerprint must use the auth_ namespace" ;;
  validate_identifier value (lit "authority_fingerprint") 80 false.

(** [value.as_ref().is_some_and(|value| value.len() > max)]. *)
Definition longer_than (max_bytes : Z) (value : option str) : bool :=
  is_some_and (fun v => Z.ltb max_bytes (str_len v)) value.

(** ** Snapshots *)

Definition terminal_for_state (run : CodingAgentRunSnapshot) (expected : CodingAgentExecutionState)
  : result CodingAgentTerminal str :=
  bail? execution_state run !=? expected
    with lit "terminal CodingAgentRun execution_state is inconsistent" ;;
  ok_or (terminal run) (lit "terminal CodingAgentRun snapshot lacks terminal metadata").

Definition validate_terminal_metadata (t : CodingAgentTerminal) : result unit str :=
  bail? longer_than CODING_AGENT_MAX_TERMINAL_METADATA_BYTES (stop_reason t)
        || longer_than CODING_AGENT_MAX_TERMINAL_METADATA_BYTES (error_code t)
        || longer_than CODING_AGENT_MAX_ERROR_MESSAGE_BYTES (term_message t)
    with lit "CodingAgentRun snapshot terminal metadata is too large" ;;
  match error_code t with
  | Some code => validate_low_cardinality_kind code (lit "CodingAgentRun terminal error code")
                   CODING_AGENT_MAX_TERMINAL_METADATA_BYTES
  | None => Ok tt
  end.

Definition check_cancelled (run : CodingAgentRunSnapshot) (t : CodingAgentTerminal) : result unit str :=
  match execution_state run with
  | ExecNotStarted =>
      bail? is_some (stop_reason t) || is_some (error_code t) || is_none_or is_empty (term_message t)
        with lit "pre-prompt cancelled CodingAgentRun snapshot claims ACP terminal truth" ;;
      Ok tt
  | ExecCompleted =>
      bail? (stop_reason t !=? Some CODING_AGENT_STOP_REASON_CANCELLED) || is_some (error_code t)
        with lit "post-prompt cancelled CodingAgentRun snapshot lacks cancelled truth" ;;
      Ok tt
  | _ => Err (lit "cancelled CodingAgentRun snapshot has inconsistent execution state")
  end.

Definition check_failed (run : CodingAgentRunSnapshot) (t : CodingAgentTerminal) : result unit str :=
  match stop_reason t with
  | Some reason =>
      if one_of reason [CODING_AGENT_STOP_REASON_MAX_TOKENS; CODING_AGENT_STOP_REASON_MAX_TURN_REQUESTS;
                        CODING_AGENT_STOP_REASON_REFUSAL]
      then bail? (execution_state run !=? ExecCompleted) || (error_code t !=? Some reason)
             with lit "failed CodingAgentRun ACP terminal truth is inconsistent" ;;
           Ok tt
      else Err (lit "CodingAgentRun snapshot has unknown or contradictory stop_reason")
  | None =>
      bail? negb ((execution_state run ==? ExecNotStarted) || (execution_state run ==? ExecCompleted))
            || is_none (error_code t)
        with lit "failed CodingAgentRun internal terminal truth is inconsistent" ;;
      Ok tt
  end.

Definition check_run_state (run : CodingAgentRunSnapshot) : result unit str :=
  match run_state run with
  | RunStarting =>
      bail? (execution_state run !=? ExecNotStarted) || is_some (terminal run)
        with lit "starting CodingAgentRun snapshot is semantically inconsistent" ;;
      Ok tt
  | RunRunning =>
      bail? negb ((execution_state run ==? ExecOutcomeUnknown) || (execution_state run ==? ExecStarted))
            || is_some (terminal run)
        with lit "running CodingAgentRun snapshot is semantically inconsistent" ;;
      Ok tt
  | RunWaitingPermission =>
      bail? (execution_state run !=? ExecStarted) || is_some (terminal run)
        with lit "waiting_permission CodingAgentRun snapshot is semantically inconsistent" ;;
      Ok tt
  | RunCompleted =>
      let? t := terminal_for_state run ExecCompleted in
      bail? (stop_reason t !=? Some CODING_AGENT_STOP_REASON_END_TURN) || is_some (error_code t)
        with lit "completed CodingAgentRun snapshot lacks end_turn truth" ;;
      Ok tt
  | RunCancelled =>
      let? t := ok_or (terminal run) (lit "cancelled CodingAgentRun snapshot lacks terminal metadata") in
      check_cancelled run t
  | RunFailed =>
      let? t := ok_or (terminal run) (lit "failed CodingAgentRun snapshot lacks terminal metadata") in
      check_failed run t
  | RunLost =>
      let? t := terminal_for_state run ExecOutcomeUnknown in
      bail? is_some (stop_reason t) || is_none (error_code t)
        with lit "lost CodingAgentRun snapshot claims definite terminal truth" ;;
      Ok tt
  end.

Definition validate_coding_agent_run_snapshot (run : CodingAgentRunSnapshot) : result unit str :=
  check? validate_run_id (run_id run) ;;
  check? validate_intent_fingerprint (intent_fingerprint run) ;;
  check? validate_authority_fingerprint (authority_fingerprint run) ;;
  check? validate_provider_id (run_provider_id run) ;;
  check? validate_provider_instance_id (run_provider_instance_id run) ;;
  bail? is_empty (trim (runtime_project_id run))
        || Z.ltb CODING_AGENT_MAX_PROJECT_ID_BYTES (str_len (runtime_project_id run))
    with lit "CodingAgentRun snapshot project id is invalid" ;;
  check? match terminal run with Some t => validate_terminal_metadata t | None => Ok tt end ;;
  check_run_state run.

(** ** Requests and responses *)

Section Requests.
(** [serde_json::to_vec] of a configuration value: its length. *)
Context (serialized_len : CodingAgentConfigValue -> Z).

Definition config_ok (entry : str * CodingAgentConfigValue) : bool :=
  negb (is_empty (fst entry) || Z.ltb CODING_AGENT_MAX_CONFIG_KEY_BYTES (str_len (fst entry))
        || existsb (fun c => contains_char c (fst entry)) [NUL; CR; LF]
        || Z.ltb CODING_AGENT_MAX_CONFIG_VALUE_BYTES (serialized_len (snd entry))).

Definition validate_start_request (r : CodingAgentStartRequest) : result unit str :=
  check? validate_intent_fingerprint (st_intent_fingerprint r) ;;
  check? validate_authority_fingerprint (st_authority_fingerprint r) ;;
  bail? is_empty (trim (st_runtime_project_id r))
        || Z.ltb CODING_AGENT_MAX_PROJECT_ID_BYTES (str_len (st_runtime_project_id r))
    with lit "runtime_project_id is invalid" ;;
  bail? is_empty (st_project_root r)
        || Z.ltb CODING_AGENT_MAX_PROJECT_ROOT_BYTES (str_len (st_project_root r))
        || contains_char NUL (st_project_root r)
    with lit "project_root is invalid" ;;
  check? validate_provider_id (st_provider_id r) ;;
  check? validate_provider_instance_id (st_provider_instance_id r) ;;
  bail? is_empty (st_instruction r)
        || Z.ltb CODING_AGENT_MAX_INSTRUCTION_BYTES (str_len (st_instruction r))
        || contains_char NUL (st_instruction r)
    with lit "instruction is invalid" ;;
  bail? Nat.ltb CODING_AGENT_MAX_CONFIG_OPTIONS (length (st_config r))
    with lit "too many config overrides" ;;
  bail? negb (forallb config_ok (st_config r)) with lit "config override is invalid" ;;
  bail? negb (Z.leb CODING_AGENT_TIMEOUT_MIN_SECS (st_timeout_secs r)
              && Z.leb (st_timeout_secs r) CODING_AGENT_TIMEOUT_MAX_SECS)
    with lit "timeout_secs is outside the supported range" ;;
  Ok tt.

Definition validate_request (request : CodingAgentRequest) : result unit str :=
  check? validate_run_id (request_run_id request) ;;
  match request with
  | StartRun r => validate_start_request r
  | ObserveRun _ _ limit wait_secs =>
      bail? Z.eqb limit 0 || Z.ltb CODING_AGENT_MAX_EVENTS_PER_RESPONSE limit
        with lit "observe limit is outside the supported range" ;;
      bail? Z.ltb CODING_AGENT_OBSERVE_WAIT_MAX_SECS wait_secs
        with lit "observe wait_secs is outside the supported range" ;;
      Ok tt
  | CancelRun _ => Ok tt
  end.
End Requests.

Definition validate_coding_agent_error (e : CodingAgentError) : result unit str :=
  check? validate_low_cardinality_kind (ce_code e) (lit "CodingAgentRun error code")
           CODING_AGENT_MAX_ERROR_KIND_BYTES ;;
  bail? Z.ltb CODING_AGENT_MAX_ERROR_MESSAGE_BYTES (str_len (ce_message e))
    with lit "CodingAgentRun error message is too large" ;;
  check? match failure_kind e with
         | Some kind => validate_low_cardinality_kind kind (lit "CodingAgentRun failure kind")
                          CODING_AGENT_MAX_ERROR_KIND_BYTES
         | None => Ok tt
         end ;;
  bail? is_some_and (fun kind => negb (one_of kind
          [lit "fix_input"; lit "retry_same"; lit "reobserve"; lit "reconcile"; lit "wait";
           lit "user_action"; lit "none"])) (recovery_kind e)
    with lit "CodingAgentRun recovery kind is invalid" ;;
  Ok tt.

Fixpoint check_events (previous : option Z) (events : list CodingAgentEvent) : result unit str :=
  match events with
  | [] => Ok tt
  | event :: rest =>
      bail? longer_than CODING_AGENT_MAX_EVENT_TEXT_BYTES (ev_text event)
            || is_some_and (fun sequence => Z.leb (ev_sequence event) sequence) previous
        with lit "CodingAgentRun response event bounds/order are invalid" ;;
      bail? longer_than CODING_AGENT_MAX_EVENT_METADATA_BYTES (ev_label event)
            || longer_than CODING_AGENT_MAX_EVENT_METADATA_BYTES (ev_status event)
            || is_some_and (fun usage =>
                 longer_than CODING_AGENT_MAX_EVENT_METADATA_BYTES (cost_amount usage)
                 || longer_than CODING_AGENT_MAX_EVENT_METADATA_BYTES (cost_currency usage)) (ev_usage event)
        with lit "CodingAgentRun response event metadata is too large" ;;
      check_events (Some (ev_sequence event)) rest
  end.

Definition check_observation (o : CodingAgentObserveResult) : result CodingAgentRunSnapshot str :=
  bail? Z.ltb CODING_AGENT_MAX_EVENTS_PER_RESPONSE (Z.of_nat (length (obs_events o)))
    with lit "CodingAgentRun response contains too many events" ;;
  check? check_events None (obs_events o) ;;
  bail? Z.eqb (first_retained_sequence o) 0
        || Z.ltb (usize_sat_add (next_sequence o) 1) (first_retained_sequence o)
    with lit "CodingAgentRun response retention metadata is invalid" ;;
  Ok (obs_run o).

Definition validate_response_for_request (request : CodingAgentRequest) (response : CodingAgentResponse)
  : result unit str :=
  match cr_payload response, cr_error response with
  | Some _, Some _ | None, None =>
      Err (lit "CodingAgentRun response must contain exactly one payload or error")
  | None, Some e => validate_coding_agent_error e
  | Some payload, None =>
      let? run := match request, payload with
                  | StartRun _, StartPayload run => Ok run
                  | ObserveRun _ _ _ _, ObservePayload observation => check_observation observation
                  | CancelRun _, CancelPayload run => Ok run
                  | _, _ => Err (lit "CodingAgentRun response kind does not match request operation")
                  end in
      bail? run_id run !=? request_run_id request
        with lit "CodingAgentRun response run_id does not match request" ;;
      validate_coding_agent_run_snapshot run
  end.

(** ** Merging observations *)

Definition same_run (stored incoming : CodingAgentRunSnapshot) : bool :=
  (run_id stored ==? run_id incoming)
  && (intent_fingerprint stored ==? intent_fingerprint incoming)
  && (authority_fingerprint stored ==? authority_fingerprint incoming)
  && (runtime_project_id stored ==? runtime_project_id incoming)
  && (run_provider_id stored ==? run_provider_id incoming)
  && (run_provider_instance_id stored ==? run_provider_instance_id incoming)
  && (run_created_at stored ==? run_created_at incoming).

Definition validate_coding_agent_run_identity_transition (stored incoming : CodingAgentRunSnapshot)
  : result unit str :=
  bail? negb (same_run stored incoming)
    with lit "CodingAgentRun observation identity changed across revisions" ;;
  Ok tt.

Definition definitive (s : CodingAgentRunState) : bool :=
  match s with
  | RunCompleted | RunFailed | RunCancelled => true
  | _ => false
  end.

Definition execution_transition_valid (stored incoming : CodingAgentRunSnapshot) : bool :=
  match execution_state stored with
  | ExecNotStarted => true
  | ExecOutcomeUnknown =>
      match execution_state incoming with
      | ExecOutcomeUnknown | ExecStarted | ExecCompleted => true
      | ExecNotStarted => (run_state incoming ==? RunFailed) || (run_state incoming ==? RunCancelled)
      end
  | ExecStarted =>
      match execution_state incoming with
      | ExecStarted | ExecCompleted => true
      | ExecOutcomeUnknown => run_state incoming ==? RunLost
      | ExecNotStarted => false
      end
  | ExecCompleted => false
  end.

Definition validate_coding_agent_run_transition (stored incoming : CodingAgentRunSnapshot)
  : result unit str :=
  bail? Z.leb (observation_revision incoming) (observation_revision stored)
    with lit "CodingAgentRun transition does not advance observation revision" ;;
  bail? definitive (run_state stored)
    with lit "definitive terminal CodingAgentRun observation cannot advance to new truth" ;;
  bail? (run_state stored ==? RunLost) && negb (run_terminal (run_state incoming))
    with lit "lost CodingAgentRun may only reconcile to newer lost or definitive terminal truth" ;;
  bail? (run_state stored !=? RunStarting) && (run_state incoming ==? RunStarting)
    with lit "CodingAgentRun state cannot regress to starting" ;;
  bail? negb (execution_transition_valid stored incoming)
    with lit "CodingAgentRun execution state regressed across observations" ;;
  Ok tt.

Definition merge_coding_agent_run_snapshot (stored incoming : CodingAgentRunSnapshot)
  : result CodingAgentObservationMerge str :=
  check? validate_coding_agent_run_snapshot stored ;;
  check? validate_coding_agent_run_snapshot incoming ;;
  check? validate_coding_agent_run_identity_transition stored incoming ;;
  match Z.compare (observation_revision incoming) (observation_revision stored) with
  | Lt => Ok Stale
  | Eq => bail? negb (bool_decide (incoming = stored))
            with lit "CodingAgentRun observation revision has conflicting authoritative snapshots" ;;
          Ok ExactReplay
  | Gt => check? validate_coding_agent_run_transition stored incoming ;;
          Ok Advance
  end.

(** An observer that retains the newest snapshot: the merge decides whether the
    incoming one replaces it. *)
Definition observe (stored incoming : CodingAgentRunSnapshot) : result CodingAgentRunSnapshot str :=
  let? disposition := merge_coding_agent_run_snapshot stored incoming in
  Ok match disposition with Advance => incoming | Stale | ExactReplay => stored end.

Fixpoint observe_all (stored : CodingAgentRunSnapshot) (incoming : list CodingAgentRunSnapshot)
  : result CodingAgentRunSnapshot str :=
  match incoming with
  | [] => Ok stored
  | x :: rest => let? stored := observe stored x in observe_all stored rest
  end.

(** ** What a valid snapshot and an accepted transition say *)

Definition valid_run (r : CodingAgentRunSnapshot) : Prop := validate_coding_agent_run_snapshot r = Ok tt.

(** The execution states a run state goes with. *)
Definition state_matrix (s : CodingAgentRunState) (e : CodingAgentExecutionState) : bool :=
  match s, e with
  | RunStarting, ExecNotStarted | RunRunning, (ExecOutcomeUnknown | ExecStarted)
  | RunWaitingPermission, ExecStarted | RunCompleted, ExecCompleted
  | (RunCancelled | RunFailed), (ExecNotStarted | ExecCompleted) | RunLost, ExecOutcomeUnknown => true
  | _, _ => false
  end.

Lemma valid_run_matrix (r : CodingAgentRunSnapshot) :
  valid_run r ->
  state_matrix (run_state r) (execution_state r) = true /\ is_some (terminal r) = run_terminal (run_state r).
Proof.
  unfold valid_run, validate_coding_agent_run_snapshot. intros H. step_guards H. clear -H.
  destruct r as [? ? ? ? ? ? s e ? ? ? t]. cbn in *.
  destruct s, e, t as [[sr ec ms ?]|]; cbn in H; try done;
    unfold check_failed in H; cbn in H; (destruct sr; [by case_match | done]).
Qed.

Lemma merge_advance (a b : CodingAgentRunSnapshot) :
  merge_coding_agent_run_snapshot a b = Ok Advance <->
  valid_run a /\ valid_run b /\ same_run a b = true /\ validate_coding_agent_run_transition a b = Ok tt.
Proof.
  unfold merge_coding_agent_run_snapshot, validate_coding_agent_run_identity_transition, valid_run.
  destruct (validate_coding_agent_run_snapshot a) as [[]|]; cbn; [ | naive_solver].
  destruct (validate_coding_agent_run_snapshot b) as [[]|]; cbn; [ | naive_solver].
  destruct (same_run a b); cbn; [ | naive_solver].
  destruct (validate_coding_agent_run_transition a b) as [[]|] eqn:Ht; cbn.
  - unfold validate_coding_agent_run_transition in Ht.
    destruct (Z.leb_spec (observation_revision b) (observation_revision a)); [done | ].
    replace (Z.compare _ _) with Gt by (symmetry; apply Z.compare_gt_iff; lia). naive_solver.
  - destruct (Z.compare _ _); try (split; naive_solver). case_match; naive_solver.
Qed.

(** What an accepted transition guarantees, in one place. *)
Definition state_step (s : CodingAgentRunState) (e : CodingAgentExecutionState) (s' : CodingAgentRunState)
  (e' : CodingAgentExecutionState) : bool :=
  negb (definitive s)
  && match s, s' with
     | RunLost, _ => run_terminal s'
     | RunStarting, _ => true
     | _, RunStarting => false
     | _, _ => true
     end
  && match e, e' with
     | ExecNotStarted, _ => true
     | ExecOutcomeUnknown, ExecNotStarted => match s' with RunFailed | RunCancelled => true | _ => false end
     | ExecOutcomeUnknown, _ => true
     | ExecStarted, (ExecStarted | ExecCompleted) => true
     | ExecStarted, ExecOutcomeUnknown => match s' with RunLost => true | _ => false end
     | _, _ => false
     end.

Lemma transition_facts (a b : CodingAgentRunSnapshot) :
  validate_coding_agent_run_transition a b = Ok tt <->
  (observation_revision a < observation_revision b)%Z
  /\ state_step (run_state a) (execution_state a) (run_state b) (execution_state b) = true.
Proof.
  unfold validate_coding_agent_run_transition, execution_transition_valid.
  destruct (Z.leb_spec (observation_revision b) (observation_revision a)); [naive_solver lia | ].
  destruct (run_state a), (execution_state a), (run_state b), (execution_state b); cbn;
    (split; [intros He | intros [_ He]]; first [discriminate He | done]).
Qed.

Lemma same_run_spec (a b : CodingAgentRunSnapshot) :
  same_run a b = true <->
  (run_id a, intent_fingerprint a, authority_fingerprint a, runtime_project_id a, run_provider_id a,
   run_provider_instance_id a, run_created_at a)
  = (run_id b, intent_fingerprint b, authority_fingerprint b, runtime_project_id b, run_provider_id b,
     run_provider_instance_id b, run_created_at b).
Proof.
  unfold same_run. rewrite !andb_true_iff, !beq_eq. split.
  - intros [[[[[[-> ->] ->] ->] ->] ->] ->]. done.
  - intros [= -> -> -> -> -> -> ->]. done.
Qed.

Lemma same_run_trans (a b c : CodingAgentRunSnapshot) :
  same_run a b = true -> same_run b c = true -> same_run a c = true.
Proof. rewrite !same_run_spec. congruence. Qed.

Lemma same_run_sym (a b : CodingAgentRunSnapshot) : same_run a b = true -> same_run b a = true.
Proof. rewrite !same_run_spec. congruence. Qed.

(** Skipping an intermediate snapshot is harmless, unless a started run ends as
    one that never started. *)
Lemma transition_skip (a b c : CodingAgentRunSnapshot) :
  valid_run a -> valid_run b -> valid_run c ->
  validate_coding_agent_run_transition a b = Ok tt -> validate_coding_agent_run_transition b c = Ok tt ->
  ~ (execution_state a = ExecStarted /\ execution_state c = ExecNotStarted) ->
  validate_coding_agent_run_transition a c = Ok tt.
Proof.
  intros Va Vb Vc H1 H2 Hn. rewrite transition_facts in H1, H2 |- *.
  destruct H1 as [R1 E1], H2 as [R2 E2]. split; [lia | ].
  apply valid_run_matrix in Va as [Va _], Vb as [Vb _], Vc as [Vc _]. revert Va Vb Vc E1 E2 Hn. clear.
  destruct (run_state a), (execution_state a); try discriminate; intros _;
  destruct (run_state b), (execution_state b); try discriminate; intros _;
  destruct (run_state c), (execution_state c); try discriminate; intros _; cbn; tauto.
Qed.

(** ** Convergence of observers *)

(** The successive snapshots of one run, oldest first: each is accepted after the
    one before it, and a run seen started never ends as not started. *)
Definition run_history (h : list CodingAgentRunSnapshot) : Prop :=
  Forall valid_run h
  /\ Sorted (fun a b => merge_coding_agent_run_snapshot a b = Ok Advance) h
  /\ ForallOrdPairs (fun a c => ~ (execution_state a = ExecStarted /\ execution_state c = ExecNotStarted)) h.

Lemma history_pairs (h : list CodingAgentRunSnapshot) :
  run_history h -> ForallOrdPairs (fun a b => merge_coding_agent_run_snapshot a b = Ok Advance) h.
Proof.
  induction h as [|a h IH]; [constructor | ]. intros (Hv & Hs & Hn).
  apply Forall_cons in Hv as [Ha Hv]. apply Sorted_inv in Hs as [Hs Hd].
  inversion Hn as [|? ? Hna Hn']; subst. assert (IH' := IH ltac:(done)). constructor; [ | done].
  destruct h as [|b h]; [constructor | ]. inversion Hd as [|? ? Hab]; subst.
  inversion IH' as [|? ? Hb _]; subst. constructor; [done | ].
  rewrite List.Forall_forall in Hb, Hna. apply List.Forall_forall. intros c Hc.
  specialize (Hb c Hc). apply merge_advance in Hab, Hb. apply merge_advance.
  destruct Hab as (Va & Vb & I1 & T1), Hb as (_ & Vc & I2 & T2).
  split_and!; [done.. | by eapply same_run_trans | ].
  apply (transition_skip a b c); try done. apply Hna. by right.
Qed.

(** Two snapshots of one history: the later one is accepted over the earlier one,
    the earlier one is stale after the later one, and each replays exactly. *)
Lemma history_merge (h : list CodingAgentRunSnapshot) (a b : CodingAgentRunSnapshot) :
  run_history h -> a ∈ h -> b ∈ h ->
  observe a b = Ok (if Z.ltb (observation_revision a) (observation_revision b) then b else a).
Proof.
  intros Hh Ha Hb. pose proof (history_pairs h Hh) as Hp. destruct Hh as (Hv & _ & _).
  assert (Hva : valid_run a) by (rewrite Forall_forall in Hv; auto).
  assert (Hvb : valid_run b) by (rewrite Forall_forall in Hv; auto).
  assert (Hc : a = b \/ merge_coding_agent_run_snapshot a b = Ok Advance \/ merge_coding_agent_run_snapshot b a = Ok Advance).
  { apply list_elem_of_In in Ha, Hb. destruct (ForallOrdPairs_In Hp _ _ Ha Hb) as [|[|]]; auto. }
  unfold observe. destruct Hc as [->|[Hab|Hba]].
  - unfold merge_coding_agent_run_snapshot, validate_coding_agent_run_identity_transition.
    unfold valid_run in Hva. rewrite Hva. cbn. rewrite (proj2 (same_run_spec b b) eq_refl). cbn.
    rewrite Z.compare_refl, bool_decide_true by done. cbn. by rewrite Z.ltb_irrefl.
  - rewrite Hab. cbn. apply merge_advance in Hab as (_ & _ & _ & Ht). apply transition_facts in Ht as [Hr _].
    by rewrite (proj2 (Z.ltb_lt _ _) Hr).
  - apply merge_advance in Hba as (_ & _ & Hs & Ht). apply transition_facts in Ht as [Hr _].
    apply same_run_sym in Hs.
    unfold merge_coding_agent_run_snapshot, validate_coding_agent_run_identity_transition.
    unfold valid_run in Hva, Hvb. rewrite Hva, Hvb. cbn. rewrite Hs. cbn.
    rewrite (proj2 (Z.compare_lt_iff _ _) Hr). cbn. by rewrite (proj2 (Z.ltb_ge _ _)) by lia.
Qed.

(** Observers converge.  An observer that holds one snapshot of a run's history
    and receives any others of it, late, twice or out of order, never reports a
    conflict and ends with the newest snapshot it has seen; so two observers that
    have seen the same newest snapshot hold the same truth. *)
Lemma observations_converge (h : list CodingAgentRunSnapshot) (s : CodingAgentRunSnapshot)
  (xs : list CodingAgentRunSnapshot) :
  run_history h -> s ∈ h -> xs ⊆ h ->
  exists m, observe_all s xs = Ok m /\ m ∈ s :: xs
    /\ forall x, x ∈ s :: xs -> (observation_revision x <= observation_revision m)%Z.
Proof.
  intros Hh. revert s. induction xs as [|x xs IH]; intros s Hs Hxs.
  - exists s. split_and!; [done | set_solver | ]. intros x ->%list_elem_of_singleton. lia.
  - assert (Hx : x ∈ h) by set_solver. cbn [observe_all].
    rewrite (history_merge h s x Hh Hs Hx). cbn [result_bind].
    destruct (Z.ltb_spec (observation_revision s) (observation_revision x)) as [Hl|Hl].
    + destruct (IH x Hx ltac:(set_solver)) as (m & Hm & Hin & Hmax). exists m. split_and!; [done | set_solver | ].
      intros y [->|Hy]%elem_of_cons; [ | by apply Hmax].
      specialize (Hmax x ltac:(set_solver)). lia.
    + destruct (IH s Hs ltac:(set_solver)) as (m & Hm & Hin & Hmax). exists m. split_and!; [done | set_solver | ].
      intros y [->|[->|Hy]%elem_of_cons]%elem_of_cons; [apply Hmax; set_solver | | apply Hmax; set_solver].
      specialize (Hmax s ltac:(set_solver)). lia.
Qed.

(** ** A sample run *)

Definition sample_run (s : CodingAgentRunState) (e : CodingAgentExecutionState) (revision : Z)
  (t : option CodingAgentTerminal) : CodingAgentRunSnapshot :=
  mkRun (lit "wc_agent_run_1") (lit "intent") (lit "auth_ann") (lit "agent:r1:demo") (lit "acp") (lit "acp-1")
    s e revision 100 (100 + revision) t.

Definition run_started : CodingAgentRunSnapshot := sample_run RunRunning ExecStarted 2 None.
Definition run_lost : CodingAgentRunSnapshot :=
  sample_run RunLost ExecOutcomeUnknown 3 (Some (mkTerminal None (Some (lit "provider_lost")) None 103)).
Definition run_completed : CodingAgentRunSnapshot :=
  sample_run RunCompleted ExecCompleted 4 (Some (mkTerminal (Some (lit "end_turn")) None None 104)).
Definition run_failed_unstarted : CodingAgentRunSnapshot :=
  sample_run RunFailed ExecNotStarted 4 (Some (mkTerminal None (Some (lit "never_started")) None 104)).

Lemma observations_converge_witness :
  exists m, observe_all run_started [run_completed; run_lost; run_completed] = Ok m
    /\ m ∈ [run_started; run_completed; run_lost; run_completed]
    /\ forall x, x ∈ [run_started; run_completed; run_lost; run_completed] ->
         (observation_revision x <= observation_revision m)%Z.
Proof.
  apply (observations_converge [run_started; run_lost; run_completed] run_started
           [run_completed; run_lost; run_completed]); [ | set_solver | set_solver].
  split_and!.
  - repeat constructor.
  - repeat constructor.
  - repeat constructor; cbn; intros [? ?]; discriminate.
Defined.

(** Skipping a revision can turn an accepted history into a conflict.  A run that
    is seen started, then lost, is accepted as failed without ever having started;
    an observer that missed the loss rejects the same final snapshot, and so stays
    at "running" for good. *)
Lemma skipped_loss_conflicts :
  exists a b c, merge_coding_agent_run_snapshot a b = Ok Advance
    /\ merge_coding_agent_run_snapshot b c = Ok Advance
    /\ observe_all a [b; c] = Ok c
    /\ observe_all a [c] = Err (lit "CodingAgentRun execution state regressed across observations").
Proof. exists run_started, run_lost, run_failed_unstarted. vm_compute. done. Qed.
