(* ===== verification/RunnerData.v ===== *)
(** * RunnerData: what a Runner reports about itself when it registers

    The records of crates/webcodex-core/src/runner_protocol.rs and mcp_gateway.rs
    that the registry keeps for a Runner (host context, policy summary, tool
    providers, project summaries and the paged project inventory), with the
    normalisation and validation of crates/webcodex-runner-registry/src/validation.rs.
    Records the Server only carries (shell profiles) are their wire text. *)
From S2P Require Import Prelude RustStr CodingAgent.

(** ** Host context *)

Definition RUNNER_HOST_CONTEXT_ROLE_MAX_BYTES : Z := 64.
Definition RUNNER_HOST_CONTEXT_TEXT_MAX_BYTES : Z := 512.
Definition RUNNER_HOST_CONTEXT_TOTAL_MAX_BYTES : Z := 1536.

Record RunnerHostContext : Type := mkHost {
  host_role : option str;
  host_runtime : option str;
  host_service : option str;
  host_network : option str;
  host_architecture : option str
}.

Definition normalize_host_role (value : option str) : result (option str) str :=
  match value with
  | None => Ok None
  | Some value =>
      let value := trim value in
      bail? is_empty value || Z.ltb RUNNER_HOST_CONTEXT_ROLE_MAX_BYTES (str_len value)
        with lit "host_context.role must be 1..=" ++ fmt_Z RUNNER_HOST_CONTEXT_ROLE_MAX_BYTES
             ++ lit " UTF-8 bytes" ;;
      bail? negb (forallb (fun c => is_ascii_lowercase c || is_ascii_digit c || N.eqb c 95 || N.eqb c 45) value)
        with lit "host_context.role may only contain lowercase ASCII letters, digits, '_' and '-'" ;;
      Ok (Some value)
  end.

Definition normalize_host_context_text (field : str) (value : option str) : result (option str) str :=
  match value with
  | None => Ok None
  | Some value =>
      let value := trim value in
      bail? is_empty value || Z.ltb RUNNER_HOST_CONTEXT_TEXT_MAX_BYTES (str_len value)
        with lit "host_context." ++ field ++ lit " must be 1..=" ++ fmt_Z RUNNER_HOST_CONTEXT_TEXT_MAX_BYTES
             ++ lit " UTF-8 bytes" ;;
      bail? existsb is_control value
        with lit "host_context." ++ field ++ lit " must not contain control characters" ;;
      Ok (Some value)
  end.

Definition host_fields (h : RunnerHostContext) : list (option str) :=
  [host_role h; host_runtime h; host_service h; host_network h; host_architecture h].

Definition host_total (h : RunnerHostContext) : Z :=
  foldr Z.add 0%Z (map (fun f => unwrap_or 0%Z (str_len <$> f)) (host_fields h)).

Definition host_normalized (h : RunnerHostContext) : result RunnerHostContext str :=
  let? role := normalize_host_role (host_role h) in
  let? runtime := normalize_host_context_text (lit "runtime") (host_runtime h) in
  let? service := normalize_host_context_text (lit "service") (host_service h) in
  let? network := normalize_host_context_text (lit "network") (host_network h) in
  let? architecture := normalize_host_context_text (lit "architecture") (host_architecture h) in
  let h := mkHost role runtime service network architecture in
  bail? forallb is_none (host_fields h) with lit "host_context must contain at least one field" ;;
  bail? Z.ltb RUNNER_HOST_CONTEXT_TOTAL_MAX_BYTES (host_total h)
    with lit "host_context content must be at most " ++ fmt_Z RUNNER_HOST_CONTEXT_TOTAL_MAX_BYTES
         ++ lit " UTF-8 bytes total" ;;
  Ok h.

(** ** Tool providers *)

Definition MAX_PROVIDER_TEXT_CHARS : nat := 120.
Definition MAX_PROVIDER_TOOL_NAMES : nat := 64.

Record RunnerConfigReloadStatus : Type := mkReload {
  reload_generation : Z;
  last_reload_result : str;
  last_reload_error_code : option str;
  last_reload_error_field : option str;
  last_reload_error_reason : option str;
  restart_required : bool;
  restart_required_fields : list str
}.

Record ProviderCallSummary : Type := mkCall {
  call_capability : str;
  selected_provider : str;
  fallback_used : bool;
  call_result : str;
  write_state : option str;
  call_duration_ms : Z;
  call_error_code : option str
}.

Record ClaudeCodeProviderStatus : Type := mkClaude {
  cc_enabled : bool;
  cc_version : option str;
  cc_available : bool;
  cc_process_state : str;
  cc_discovered_tool_names : list str;
  cc_capabilities : list (str * str);
  cc_last_error_code : option str;
  cc_last_call : option ProviderCallSummary
}.

Record ToolProvidersStatus : Type := mkTools {
  tp_strategy : str;
  tp_claude_code : ClaudeCodeProviderStatus;
  tp_config_reload : RunnerConfigReloadStatus
}.

Definition RUNNER_CONFIG_RESTART_REQUIRED_FIELDS : list str :=
  [lit "acp"; lit "capabilities"; lit "client_id"; lit "display_name"; lit "host_context"; lit "hostname";
   lit "max_concurrent_jobs"; lit "mcp_gateway"; lit "owner"; lit "poll_interval_ms";
   lit "project_registry_dir"; lit "quic"; lit "server_url"; lit "token"; lit "transport";
   lit "websocket_connect_timeout_secs"].

Definition RELOAD_RESULTS : list str :=
  [lit "not_attempted"; lit "success"; lit "partial"; lit "failure"; lit "unsupported"].
Definition RELOAD_ERRORS : list str :=
  [lit "config_read_failed"; lit "config_parse_failed"; lit "config_validation_failed";
   lit "provider_config_invalid"; lit "plugin_reload_failed"; lit "reload_unsupported"].
Definition RELOAD_ERROR_FIELDS : list str :=
  [lit "max_concurrent_jobs"; lit "shell.max_persistent_shells"; lit "shell.persistent_shell_idle_timeout_secs";
   lit "acp.max_concurrent_runs"; lit "acp.permission_timeout_secs"; lit "mcp.request_timeout_secs"].

Definition sorted_unique (l : list str) : list str := dedup_by beq (sort_by str_leb l).

Definition reload_diagnostic_valid (s : RunnerConfigReloadStatus) : bool :=
  match last_reload_error_field s, last_reload_error_reason s with
  | None, None => true
  | Some field, Some reason =>
      one_of field RELOAD_ERROR_FIELDS && (reason ==? lit "out_of_range")
      && (last_reload_error_code s ==? Some (lit "config_validation_failed"))
      && (last_reload_result s ==? lit "failure")
  | _, _ => false
  end.

Definition normalize_config_reload (s : RunnerConfigReloadStatus) : option RunnerConfigReloadStatus :=
  if Z.eqb (reload_generation s) 0 || negb (one_of (last_reload_result s) RELOAD_RESULTS)
     || is_some_and (fun code => negb (one_of code RELOAD_ERRORS)) (last_reload_error_code s)
  then None
  else
    let keep := reload_diagnostic_valid s in
    let fields := sorted_unique (List.filter (fun f => one_of f RUNNER_CONFIG_RESTART_REQUIRED_FIELDS)
                                   (restart_required_fields s)) in
    Some (mkReload (reload_generation s) (last_reload_result s) (last_reload_error_code s)
            (if keep then last_reload_error_field s else None)
            (if keep then last_reload_error_reason s else None)
            (negb (is_empty fields)) fields).

Definition bounded_provider_text (value : str) : str :=
  take MAX_PROVIDER_TEXT_CHARS (List.filter (fun c => negb (is_control c)) value).

Definition safe_provider_identifier (value : str) : option str :=
  let value := bounded_provider_text value in
  if negb (is_empty value)
     && forallb (fun c => is_ascii_alphanumeric c || contains_char c (lit "_-.:")) value
  then Some value else None.

Definition safe_provider_version (value : str) : option str :=
  let value := trim value in
  if negb (is_empty value)
     && forallb (fun c => is_ascii_alphanumeric c || contains_char c (lit " ._-+()")) value
  then Some (bounded_provider_text value) else None.

Definition normalize_provider_call (call : ProviderCallSummary) : option ProviderCallSummary :=
  if negb (one_of (call_capability call) [lit "edit_file"; lit "search_project_text"])
     || negb (one_of (selected_provider call) [lit "claude_code"; lit "native"])
     || negb (one_of (call_result call) [lit "success"; lit "failure"])
     || negb (is_none_or (fun s => one_of s [lit "not_submitted"; lit "confirmed"; lit "uncertain"]) (write_state call))
  then None
  else if ((call_capability call ==? lit "search_project_text") && is_some (write_state call))
          || ((call_capability call ==? lit "edit_file") && is_none (write_state call))
          || (fallback_used call && (selected_provider call !=? lit "native"))
  then None
  else Some (mkCall (call_capability call) (selected_provider call) (fallback_used call) (call_result call)
               (write_state call) (Z.min (call_duration_ms call) (24 * 60 * 60 * 1000))
               (call_error_code call ≫= safe_provider_identifier)).

Definition claude_capability_ok (entry : str * str) : bool :=
  one_of (fst entry) [lit "edit_file"; lit "search_project_text"]
  && one_of (snd entry) [lit "available"; lit "unmapped"; lit "schema_mismatch"].

Definition normalize_tool_providers (status : option ToolProvidersStatus) : option ToolProvidersStatus :=
  status ← status;
  reload ← normalize_config_reload (tp_config_reload status);
  let cc := tp_claude_code status in
  if negb (one_of (tp_strategy status) [lit "native"; lit "claude_code"; lit "claude_code_then_native"])
     || negb (one_of (cc_process_state cc)
                [lit "not_started"; lit "starting"; lit "initializing"; lit "discovering"; lit "mapping";
                 lit "running"; lit "stopped"])
  then None
  else
    let names := take MAX_PROVIDER_TOOL_NAMES
                   (sorted_unique (omap safe_provider_identifier (cc_discovered_tool_names cc))) in
    if Nat.ltb 2 (length (cc_capabilities cc)) || negb (forallb claude_capability_ok (cc_capabilities cc))
    then None
    else Some (mkTools (tp_strategy status)
                 (mkClaude (cc_enabled cc) (cc_version cc ≫= safe_provider_version) (cc_available cc)
                    (cc_process_state cc) names (cc_capabilities cc)
                    (cc_last_error_code cc ≫= safe_provider_identifier)
                    (cc_last_call cc ≫= normalize_provider_call))
                 reload).

(** ** MCP gateway providers *)

Definition MCP_GATEWAY_MAX_PROVIDERS : nat := 8.
Definition MCP_GATEWAY_MAX_PROVIDER_ID_BYTES : Z := 64.
Definition MCP_GATEWAY_MAX_PROVIDER_NAME_BYTES : Z := 128.

Record McpGatewayProvider : Type := mkProvider {
  provider_id : str;
  provider_instance_id : str;
  provider_name : str
}.

Definition validate_mcp_identifier (value field : str) (max_bytes : Z) (lowercase_only : bool)
  : result unit str :=
  bail? is_empty value || Z.ltb max_bytes (str_len value)
    with field ++ lit " must contain 1..=" ++ fmt_Z max_bytes ++ lit " bytes" ;;
  bail? negb (forallb (fun byte =>
                (if lowercase_only then is_ascii_lowercase byte else is_ascii_alphanumeric byte)
                || is_ascii_digit byte || existsb (N.eqb byte) (lit "_-.")) (as_bytes value))
    with field ++ lit " may contain only "
         ++ (if lowercase_only then lit "lowercase ASCII letters" else lit "ASCII letters")
         ++ lit ", digits, '_', '-', and '.'" ;;
  Ok tt.

Definition validate_provider_name (value : str) : result unit str :=
  bail? is_empty (trim value) || Z.ltb MCP_GATEWAY_MAX_PROVIDER_NAME_BYTES (str_len value)
    with lit "provider name must contain 1..=" ++ fmt_Z MCP_GATEWAY_MAX_PROVIDER_NAME_BYTES ++ lit " bytes" ;;
  bail? existsb is_control value with lit "provider name contains unsupported control characters" ;;
  Ok tt.

Fixpoint check_providers (ids instances : gset str) (providers : list McpGatewayProvider) : result unit str :=
  match providers with
  | [] => Ok tt
  | p :: rest =>
      check? validate_mcp_identifier (provider_id p) (lit "provider_id") MCP_GATEWAY_MAX_PROVIDER_ID_BYTES true ;;
      check? validate_mcp_identifier (provider_instance_id p) (lit "provider_instance_id")
               MCP_GATEWAY_MAX_PROVIDER_ID_BYTES false ;;
      check? validate_provider_name (provider_name p) ;;
      bail? bool_decide (provider_id p ∈ ids) with lit "duplicate bridge provider id" ;;
      bail? bool_decide (provider_instance_id p ∈ instances)
        with lit "duplicate bridge provider instance identity" ;;
      check_providers ({[ provider_id p ]} ∪ ids) ({[ provider_instance_id p ]} ∪ instances) rest
  end.

Definition validate_providers (providers : list McpGatewayProvider) : result unit str :=
  bail? Nat.ltb MCP_GATEWAY_MAX_PROVIDERS (length providers)
    with lit "provider count exceeds maximum " ++ fmt_nat MCP_GATEWAY_MAX_PROVIDERS ;;
  check_providers ∅ ∅ providers.

Record RunnerPolicySummary : Type := mkPolicy {
  allow_raw_shell : bool;
  allow_cwd_anywhere : bool;
  allowed_roots : list str;
  max_timeout_secs : Z;
  max_output_bytes : Z;
  shell_profiles : option str;
  tool_providers : option ToolProvidersStatus;
  mcp_gateway_providers : option (list McpGatewayProvider)
}.

Record RunnerBuildInfo : Type := mkBuild {
  build_version : option str;
  build_git_commit : option str;
  build_git_dirty : option bool
}.

(** ** Project summaries *)

Definition PROJECT_INVENTORY_PAGE_MAX_SUMMARIES : nat := 64.
Definition PROJECT_INVENTORY_PAGE_MAX_SERIALIZED_BYTES : Z := 256 * 1024.
Definition PROJECT_INVENTORY_SNAPSHOT_MAX_SERIALIZED_BYTES : Z := 16 * 1024 * 1024.
Definition PROJECT_INVENTORY_GENERATION_MAX_BYTES : Z := 96.
Definition PROJECT_INVENTORY_STAGING_TTL_SECS : Z := 120.
Definition PROJECT_INVENTORY_MAX_CONCURRENT_SYNCS : nat := 8.

Record RunnerProjectSummary : Type := mkProject {
  project_id_ : str;
  project_name : option str;
  project_path : str;
  allow_patch : bool;
  project_kind : option str;
  registration_source : option str;
  project_description : option str;
  project_hooks : list str;
  project_disabled : bool;
  project_revision : option str;
  project_git_branch : option str;
  project_git_head : option str;
  project_git_dirty : option bool;
  project_updated_at : Z;
  project_shell_profile : option str
}.

Definition id_chars_ok (value : str) : bool :=
  forallb (fun c => is_ascii_alphanumeric c || contains_char c (lit "-_.")) value.

Definition bad_text (max_bytes : Z) (value : option str) : bool :=
  is_some_and (fun v => Z.ltb max_bytes (str_len v) || contains_char NUL v) value.

Definition bad_revision (revision : str) : bool :=
  match strip_prefix (lit "sha256:") revision with
  | None => true
  | Some hex => negb (Z.eqb (str_len hex) 64) || negb (forallb is_ascii_hexdigit hex)
  end.

Definition validate_project_summary (p : RunnerProjectSummary) : result unit str :=
  bail? is_empty (project_id_ p) || Z.ltb 64 (str_len (project_id_ p)) || negb (id_chars_ok (project_id_ p))
    with lit "project_summary_invalid_id" ;;
  bail? is_empty (project_path p) || Z.ltb 4096 (str_len (project_path p)) || contains_char NUL (project_path p)
    with lit "project_summary_invalid_path" ;;
  bail? is_some_and is_empty (project_name p) || bad_text 120 (project_name p)
    with lit "project_summary_invalid_name" ;;
  bail? bad_text 500 (project_description p) with lit "project_summary_invalid_description" ;;
  bail? bad_text 120 (project_kind p) || bad_text 120 (project_shell_profile p)
        || bad_text 512 (project_git_branch p) || bad_text 128 (project_git_head p)
    with lit "project_summary_invalid_metadata" ;;
  bail? Nat.ltb 64 (length (project_hooks p))
        || existsb (fun hook => is_empty hook || Z.ltb 120 (str_len hook) || contains_char NUL hook) (project_hooks p)
    with lit "project_summary_invalid_hooks" ;;
  bail? is_some_and bad_revision (project_revision p) with lit "project_summary_invalid_revision" ;;
  Ok tt.

Fixpoint validate_summaries (projects : list RunnerProjectSummary) : result unit str :=
  match projects with
  | [] => Ok tt
  | p :: rest => check? validate_project_summary p ;; validate_summaries rest
  end.

(** ** The paged inventory *)

Record ShellProjectInventoryPage : Type := mkPage {
  page_generation : str;
  page_snapshot_sequence : Z;
  page_index : Z;
  page_total_reported : nat;
  page_complete : bool;
  page_projects : list RunnerProjectSummary
}.

Record ShellProjectInventoryStatus : Type := mkStatus {
  sync_state : str;
  status_generation : option str;
  status_total_reported : option nat;
  total_synced : nat;
  last_error_code : option str;
  last_sync_at : option Z;
  max_summaries_per_page : nat;
  max_serialized_bytes_per_page : Z
}.

#[export] Instance eta_status : Eta ShellProjectInventoryStatus := fun s =>
  mkStatus (sync_state s) (status_generation s) (status_total_reported s) (total_synced s) (last_error_code s)
    (last_sync_at s) (max_summaries_per_page s) (max_serialized_bytes_per_page s).

Record ProjectInventoryStaging : Type := mkStaging {
  stg_generation : str;
  stg_snapshot_sequence : Z;
  stg_total_reported : nat;
  next_page_index : Z;
  stg_projects : list RunnerProjectSummary;
  seen_ids : gset str;
  serialized_bytes : Z;
  stg_started_at : Z
}.

#[export] Instance eta_staging : Eta ProjectInventoryStaging := fun s =>
  mkStaging (stg_generation s) (stg_snapshot_sequence s) (stg_total_reported s) (next_page_index s)
    (stg_projects s) (seen_ids s) (serialized_bytes s) (stg_started_at s).

Record ProjectInventoryState : Type := mkInventoryState {
  inv_status : ShellProjectInventoryStatus;
  staging : option ProjectInventoryStaging;
  retired_generations : list str;
  highest_snapshot_sequence : Z;
  last_page_generation : option str;
  last_page_index : option Z;
  last_page_digest : option str
}.

#[export] Instance eta_inventory_state : Eta ProjectInventoryState := fun s =>
  mkInventoryState (inv_status s) (staging s) (retired_generations s) (highest_snapshot_sequence s)
    (last_page_generation s) (last_page_index s) (last_page_digest s).

Definition status (state : str) (generation : option str) (reported : option nat) (synced : nat)
  (error_code : option str) (sync_at : option Z) : ShellProjectInventoryStatus :=
  mkStatus state generation reported synced error_code sync_at PROJECT_INVENTORY_PAGE_MAX_SUMMARIES
    PROJECT_INVENTORY_PAGE_MAX_SERIALIZED_BYTES.

Definition pending_inventory_state (synced : nat) : ProjectInventoryState :=
  mkInventoryState (status (lit "pending") None None synced None None) None [] 0 None None None.
