(* ===== verification/RegistryState.v ===== *)
(** * RegistryState: crates/webcodex-runner-registry/src/state.rs, access.rs,
    access_control.rs and the protocol records they hold

    The in-memory state of the Runner registry: Runner records, Job records with
    their recovery overlay and observation state, pending requests, queues and
    waiters.  Hash maps are [gmap]s keyed by text; a oneshot sender is the fact
    that a waiter is registered; an [Arc<AtomicU64>] revision is its value.  The
    shared set of receipt candidates is kept on the Job records: a Job's flag
    says that its id is in the set, which is all the guard's drop looks up.
    The payloads of request kinds the registry only forwards are kept as their
    wire text. *)
From S2P Require Import Prelude RustStr Lifecycle JobLog Capabilities CodingAgent RunnerData.

(** ** Iteration over hash maps

    The order in which a [HashMap] yields its entries is not specified; the
    operations are stated for any order that lists every entry once. *)
Class HashIteration : Type := {
  hash_iter : forall {A : Type}, gmap str A -> list (str * A);
  hash_iter_perm : forall {A : Type} (m : gmap str A), hash_iter m ≡ₚ map_to_list m
}.

#[export] Instance map_to_list_iteration : HashIteration := {|
  hash_iter := fun A m => map_to_list m;
  hash_iter_perm := fun A m => reflexivity _
|}.

Lemma elem_of_hash_iter `{HashIteration} {A : Type} (m : gmap str A) (k : str) (v : A) :
  (k, v) ∈ hash_iter m <-> m !! k = Some v.
Proof. rewrite (hash_iter_perm m). apply elem_of_map_to_list. Qed.

(** ** Access *)

Inductive RunnerAccessGroup : Type :=
| SharedKey (group : str)
| ProjectGrant (group : str)
| OpenAnonymous.

#[export] Instance RunnerAccessGroup_eq_dec : EqDecision RunnerAccessGroup.
Proof. solve_decision. Defined.

Record RunnerAccess : Type := mkAccess {
  global_visibility : bool;
  owner_bypass : bool;
  username : option str;
  group : option RunnerAccessGroup
}.

(** ** Protocol records *)

Inductive ShellCommandExecutionState : Type :=
| NotStarted
| OutcomeUnknown
| CommandTimedOut
| CommandCompleted.

#[export] Instance ShellCommandExecutionState_eq_dec : EqDecision ShellCommandExecutionState.
Proof. solve_decision. Defined.

Inductive ShellScriptLanguage : Type := Sh | Bash | Powershell | Javascript | Typescript.

#[export] Instance ShellScriptLanguage_eq_dec : EqDecision ShellScriptLanguage.
Proof. solve_decision. Defined.

Record ShellJobStructuredExecutionMetadata : Type := mkStructured {
  execution_source : str;
  language : option ShellScriptLanguage;
  script_bytes : option Z;
  arg_count : Z;
  stdin_present : bool;
  validation_identity : option str;
  assertion_name : option str;
  validation_tool : option str
}.

#[export] Instance structured_eq_dec : EqDecision ShellJobStructuredExecutionMetadata.
Proof. solve_decision. Defined.

Record ShellJobValidationStep : Type := mkStep {
  step_name : str;
  step_program : str;
  step_args : list str;
  step_env : list (str * str)
}.

#[export] Instance step_eq_dec : EqDecision ShellJobValidationStep.
Proof. solve_decision. Defined.

Record ShellJobValidationMetadata : Type := mkValidation {
  val_tool : str;
  val_kind : str;
  val_steps : list ShellJobValidationStep;
  val_effective_timeout_secs : Z;
  val_sync_wait_secs : Z;
  val_adapter : str;
  val_validation_target_id : option str;
  val_minimum_tests : option Z;
  val_require_tests : option bool;
  val_no_run : option bool
}.

#[export] Instance validation_eq_dec : EqDecision ShellJobValidationMetadata.
Proof. solve_decision. Defined.

Record ShellJobValidationProgress : Type := mkProgress {
  completed : nat;
  current_step : option str;
  failed_step : option str
}.

#[export] Instance progress_eq_dec : EqDecision ShellJobValidationProgress.
Proof. solve_decision. Defined.

Inductive ShellJobActivityState : Type := Working | Waiting.

Inductive ShellJobActivityPhase : Type :=
| ProcessRunning
| ValidationFormat
| ValidationCheck
| ValidationTest
| CargoWaitingForBuildLock
| CargoCompiling
| CargoChecking.

Inductive ShellJobActivitySource : Type := RunnerExecution | ValidationPlan | CargoOutput.

#[export] Instance activity_state_eq_dec : EqDecision ShellJobActivityState.
Proof. solve_decision. Defined.
#[export] Instance activity_phase_eq_dec : EqDecision ShellJobActivityPhase.
Proof. solve_decision. Defined.
#[export] Instance activity_source_eq_dec : EqDecision ShellJobActivitySource.
Proof. solve_decision. Defined.

Record ShellJobActivity : Type := mkActivity {
  act_state : ShellJobActivityState;
  act_phase : ShellJobActivityPhase;
  act_source : ShellJobActivitySource
}.

#[export] Instance activity_eq_dec : EqDecision ShellJobActivity.
Proof. solve_decision. Defined.

Definition activity_is_canonical (a : ShellJobActivity) : bool :=
  match act_state a, act_phase a, act_source a with
  | Working, ProcessRunning, RunnerExecution
  | Working, ValidationFormat, ValidationPlan
  | Working, ValidationCheck, ValidationPlan
  | Working, ValidationTest, ValidationPlan
  | Waiting, CargoWaitingForBuildLock, CargoOutput
  | Working, CargoCompiling, CargoOutput
  | Working, CargoChecking, CargoOutput => true
  | _, _, _ => false
  end.

Record ShellJobContext : Type := mkContext {
  runtime_project_id : option str;
  workflow_session_id : option str;
  ctx_ssh_resource : option str;
  ctx_project_cwd : option str;
  ctx_cwd : option str;
  ctx_purpose : option str;
  ctx_shell : option str;
  ctx_command_preview : str;
  ctx_validation_steps : list str;
  ctx_validation : option ShellJobValidationMetadata;
  ctx_structured_execution : option ShellJobStructuredExecutionMetadata
}.

Record ShellJobSnapshot : Type := mkSnapshot {
  snap_job_id : str;
  snap_request_id : str;
  snap_status : str;
  snap_update_seq : Z;
  snap_created_at : Z;
  snap_started_at : option Z;
  snap_ended_at : option Z;
  snap_exit_code : option Z;
  snap_duration_ms : option Z;
  snap_error : option str;
  snap_command_execution_state : option ShellCommandExecutionState;
  snap_context : ShellJobContext;
  snap_stdout : ShellJobStreamSnapshot;
  snap_stderr : ShellJobStreamSnapshot;
  snap_validation_progress : option ShellJobValidationProgress;
  snap_activity : option ShellJobActivity
}.

Record ShellJobInventory : Type := mkInventory {
  active_complete : bool;
  inv_jobs : list ShellJobSnapshot
}.

Record ShellJobLogSnapshot : Type := mkLogSnapshot {
  log_stdout : ShellJobStreamSnapshot;
  log_stderr : ShellJobStreamSnapshot
}.

Record RunnerJobUpdateRequest : Type := mkJobUpdate {
  up_client_id : str;
  up_runner_instance_id : str;
  up_job_id : str;
  up_request_id : option str;
  up_update_seq : option Z;
  up_status : str;
  up_stdout_chunk : option str;
  up_stderr_chunk : option str;
  up_stdout_tail : option str;
  up_stderr_tail : option str;
  up_log_snapshot : option ShellJobLogSnapshot;
  up_exit_code : option Z;
  up_duration_ms : option Z;
  up_error : option str;
  up_command_execution_state : option ShellCommandExecutionState;
  up_validation_progress : option ShellJobValidationProgress;
  up_activity : option ShellJobActivity;
  up_finished : bool
}.

Record ShellProcessArgv : Type := mkArgv { executable : str; args : list str }.

Record ShellJobCodexMetadata : Type := mkCodex {
  codex_project : option str;
  codex_goal_id : option str;
  codex_client_request_id : option str;
  codex_command : option str;
  codex_kind : option str;
  codex_suite : option str;
  codex_script_path : option str;
  codex_reason : option str;
  codex_max_runtime_secs : option Z
}.

(** ** Job records *)

Inductive ShellJobVisibility : Type :=
| Public
| HiddenUntilHandoff
| CleanupPending.

#[export] Instance ShellJobVisibility_eq_dec : EqDecision ShellJobVisibility.
Proof. solve_decision. Defined.

Inductive JobRecoveryPhase : Type :=
| Recovering
| Reconciled
| LostAfterReconcile.

#[export] Instance JobRecoveryPhase_eq_dec : EqDecision JobRecoveryPhase.
Proof. solve_decision. Defined.

Definition recovery_phase_as_wire (p : JobRecoveryPhase) : str :=
  match p with
  | Recovering => lit "recovering"
  | Reconciled => lit "reconciled"
  | LostAfterReconcile => lit "lost_after_reconcile"
  end.

Inductive JobRecoveryReason : Type :=
| RunnerTransportDisconnected
| RunnerTransportStale
| RunnerRequestNotDispatched
| RunnerDisconnectedWithoutReconciliation
| SharedKeyRunnerExpired
| RunnerInventoryMissing
| RunnerInstanceReplaced
| RunnerRecoveryDeadlineExceeded
| ServerRestartReconciliation
| SameInstanceReconciliation
| SameInstanceUpdateReconciliation
| DetachedInstanceTransfer.

#[export] Instance JobRecoveryReason_eq_dec : EqDecision JobRecoveryReason.
Proof. solve_decision. Defined.

Definition recovery_reason_as_wire (r : JobRecoveryReason) : str :=
  match r with
  | RunnerTransportDisconnected => lit "runner_transport_disconnected"
  | RunnerTransportStale => lit "runner_transport_stale"
  | RunnerRequestNotDispatched => lit "runner_request_not_dispatched"
  | RunnerDisconnectedWithoutReconciliation => lit "runner_disconnected_without_reconciliation"
  | SharedKeyRunnerExpired => lit "shared_key_runner_expired"
  | RunnerInventoryMissing => lit "runner_inventory_missing"
  | RunnerInstanceReplaced => lit "runner_instance_replaced"
  | RunnerRecoveryDeadlineExceeded => lit "runner_recovery_deadline_exceeded"
  | ServerRestartReconciliation => lit "server_restart_reconciliation"
  | SameInstanceReconciliation => lit "same_instance_reconciliation"
  | SameInstanceUpdateReconciliation => lit "same_instance_update_reconciliation"
  | DetachedInstanceTransfer => lit "detached_instance_transfer"
  end.

Definition implies_lost_after_reconcile (r : JobRecoveryReason) : bool :=
  match r with
  | RunnerInventoryMissing | RunnerInstanceReplaced | RunnerRecoveryDeadlineExceeded => true
  | _ => false
  end.

Record JobRecoveryState : Type := mkRecovery {
  rec_phase : option JobRecoveryPhase;
  recovered_after_server_restart : bool;
  reconciled_at : option Z;
  rec_reason : option JobRecoveryReason;
  recovering_since : option Z
}.

#[export] Instance eta_recovery : Eta JobRecoveryState := fun r =>
  mkRecovery (rec_phase r) (recovered_after_server_restart r) (reconciled_at r) (rec_reason r)
    (recovering_since r).

#[export] Instance JobRecoveryState_eq_dec : EqDecision JobRecoveryState.
Proof. solve_decision. Defined.

Definition JobRecoveryState_default : JobRecoveryState := mkRecovery None false None None None.

Definition recovering (r : JobRecoveryState) : bool := rec_phase r ==? Some Recovering.

Definition recovery_public_state (r : JobRecoveryState) : option str :=
  recovery_phase_as_wire <$> rec_phase r.

Definition recovery_public_reason (r : JobRecoveryState) : option str :=
  recovery_reason_as_wire <$> rec_reason r.

Record JobObservationState : Type := mkObservation {
  obs_epoch : str;
  obs_revision : Z;
  terminal_observed_at : option Z;
  has_receipt_candidates : bool;
  is_receipt_candidate : bool;
  receipt_expires_at : option Z
}.

#[export] Instance eta_observation : Eta JobObservationState := fun o =>
  mkObservation (obs_epoch o) (obs_revision o) (terminal_observed_at o) (has_receipt_candidates o)
    (is_receipt_candidate o) (receipt_expires_at o).

Definition JobObservationState_new (epoch : str) : JobObservationState :=
  mkObservation epoch 0 None false false None.

Record DetachedIdempotencyIntent : Type := mkIntent {
  intent_project_id : option str;
  intent_session_id : option str;
  intent_project_cwd : option str;
  intent_cwd : option str;
  intent_purpose : option str;
  intent_shell : option str;
  intent_process : ShellProcessArgv;
  intent_stdin : option str;
  intent_timeout_secs : Z
}.

Record ShellJobRecord : Type := mkJob {
  job_id : str;
  request_id : option str;
  client_id : str;
  auth_group : option RunnerAccessGroup;
  owner_at_admission : option str;
  runner_instance_id : str;
  kind : str;
  project_id : option str;
  session_id : option str;
  ssh_resource : option str;
  cwd : option str;
  project_cwd : option str;
  purpose : option str;
  shell : option str;
  command_preview : str;
  detached_idempotency_intent : option DetachedIdempotencyIntent;
  lifecycle : RunnerJobLifecycle;
  created_at : Z;
  started_at : option Z;
  ended_at : option Z;
  exit_code : option Z;
  duration_ms : option Z;
  stdout : ShellJobLogState;
  stderr : ShellJobLogState;
  error : option str;
  command_execution_state : option ShellCommandExecutionState;
  structured_execution : option ShellJobStructuredExecutionMetadata;
  codex : option ShellJobCodexMetadata;
  validation_steps : list str;
  validation : option ShellJobValidationMetadata;
  validation_progress : option ShellJobValidationProgress;
  activity : option ShellJobActivity;
  visibility : ShellJobVisibility;
  last_update_seq : Z;
  recovery : JobRecoveryState;
  observation : JobObservationState
}.

#[export] Instance eta_job : Eta ShellJobRecord := fun j =>
  mkJob (job_id j) (request_id j) (client_id j) (auth_group j) (owner_at_admission j)
    (runner_instance_id j) (kind j) (project_id j) (session_id j) (ssh_resource j) (cwd j)
    (project_cwd j) (purpose j) (shell j) (command_preview j) (detached_idempotency_intent j)
    (lifecycle j) (created_at j) (started_at j) (ended_at j) (exit_code j) (duration_ms j) (stdout j)
    (stderr j) (error j) (command_execution_state j) (structured_execution j) (codex j)
    (validation_steps j) (validation j) (validation_progress j) (activity j) (visibility j)
    (last_update_seq j) (recovery j) (observation j).

Definition recovery_active (j : ShellJobRecord) : bool :=
  is_runner_active (lifecycle j) && recovering (recovery j).

Definition public_status (j : ShellJobRecord) : str :=
  if recovery_active j then lit "recovering" else as_wire (lifecycle j).

(** ** Requests to a Runner (runner_operation.rs, runner_protocol.rs) *)

Record ShellScriptPayload : Type := mkScript {
  script_language : ShellScriptLanguage;
  script_text : str;
  script_args : list str
}.

Record RunnerJobShellOperation : Type := mkJobShell {
  jsh_job_id : str;
  jsh_cwd : option str;
  jsh_command : str;
  jsh_timeout_secs : Z;
  jsh_context : ShellJobContext
}.

Record RunnerJobValidationOperation : Type := mkJobValidation {
  jva_job_id : str;
  jva_cwd : option str;
  jva_steps : list ShellJobValidationStep;
  jva_timeout_secs : Z;
  jva_context : ShellJobContext
}.

Record RunnerJobProcessOperation : Type := mkJobProcess {
  jpr_job_id : str;
  jpr_cwd : option str;
  jpr_process : ShellProcessArgv;
  jpr_stdin : option str;
  jpr_timeout_secs : Z;
  jpr_context : ShellJobContext
}.

Record RunnerJobScriptOperation : Type := mkJobScript {
  jsc_job_id : str;
  jsc_cwd : option str;
  jsc_script : ShellScriptPayload;
  jsc_stdin : option str;
  jsc_timeout_secs : Z;
  jsc_context : ShellJobContext
}.

Inductive RunnerJobOperation : Type :=
| StartShell (operation : RunnerJobShellOperation)
| StartValidation (operation : RunnerJobValidationOperation)
| StartProcess (operation : RunnerJobProcessOperation)
| StartDetachedProcess (operation : RunnerJobProcessOperation)
| StartScript (operation : RunnerJobScriptOperation)
| Stop (job_id : str).

Inductive McpGatewayRequest : Type :=
| McpProviderStatus (provider_id provider_instance_id : str)
| McpToolsList (provider_id provider_instance_id : str)
| McpToolsCall (provider_id provider_instance_id name arguments expected_schema : str).

Definition mcp_provider_id (r : McpGatewayRequest) : str :=
  match r with
  | McpProviderStatus p _ | McpToolsList p _ | McpToolsCall p _ _ _ _ => p
  end.

Definition mcp_provider_instance_id (r : McpGatewayRequest) : str :=
  match r with
  | McpProviderStatus _ i | McpToolsList _ i | McpToolsCall _ i _ _ _ => i
  end.

Inductive PluginGatewayRequest : Type :=
| PluginCheck (provider_id : str)
| PluginReload
| PluginProjectCatalog (project_id : str)
| PluginProvidersList
| PluginToolsList (provider_id provider_instance_id : str)
| PluginToolsCall (provider_id provider_instance_id name arguments expected_schema : str).

Definition provider_binding (r : PluginGatewayRequest) : option (str * str) :=
  match r with
  | PluginToolsList p i | PluginToolsCall p i _ _ _ => Some (p, i)
  | PluginCheck _ | PluginReload | PluginProjectCatalog _ | PluginProvidersList => None
  end.

Record PersistentShellRequest : Type := mkPersistentShell {
  psh_action : str;
  psh_shell_id : str;
  psh_workflow_session_id : str;
  psh_runtime_project_id : str
}.

(** [native_image] of a File or Computer operation is whether its kind and payload
    ask for a large native image; the other payloads are wire text. *)
Inductive RunnerOperation : Type :=
| OpRunShell (payload : str)
| OpRunProcess (payload : str)
| OpRunScript (payload : str)
| OpRunInternalPosixScript (payload : str)
| OpJob (operation : RunnerJobOperation)
| OpFile (native_image : bool) (payload : str)
| OpProject (payload : str)
| OpComputer (native_image : bool) (payload : str)
| OpValidation (payload : str)
| OpLsp (payload : str)
| OpPersistentShell (request : PersistentShellRequest)
| OpMcpGateway (request : McpGatewayRequest)
| OpPluginGateway (request : PluginGatewayRequest)
| OpCodingAgent (request : CodingAgentRequest)
| OpConfiguredSkillRoots (payload : str)
| OpSkillStore (payload : str)
| OpSshResource (payload : str)
| OpRunnerConfig (payload : str).

Definition is_large_native_image_request (op : RunnerOperation) : bool :=
  match op with
  | OpComputer native_image _ | OpFile native_image _ => native_image
  | _ => false
  end.

(** The V2 envelope.  The typed payloads that are neither a process nor a script
    are kept as wire text. *)
Record RunnerRequest : Type := mkRequest {
  req_request_id : str;
  req_client_id : str;
  req_kind : str;
  req_job_id : option str;
  req_cwd : option str;
  req_path : option str;
  req_content : option str;
  req_max_bytes : option Z;
  req_expected_sha256 : option str;
  req_expected_prefix : option str;
  req_start_line : option Z;
  req_end_line : option Z;
  req_create_dirs : bool;
  req_command : str;
  req_process : option ShellProcessArgv;
  req_script : option ShellScriptPayload;
  req_stdin : option str;
  req_timeout_secs : Z;
  req_requested_by : str;
  req_created_at : Z;
  req_validation : option str;
  req_lsp : option str;
  req_job_context : option ShellJobContext;
  req_persistent_shell : option str;
  req_mcp_gateway : option str;
  req_plugin_gateway : option str;
  req_coding_agent : option str
}.

#[export] Instance eta_request : Eta RunnerRequest := fun r =>
  mkRequest (req_request_id r) (req_client_id r) (req_kind r) (req_job_id r) (req_cwd r) (req_path r)
    (req_content r) (req_max_bytes r) (req_expected_sha256 r) (req_expected_prefix r) (req_start_line r)
    (req_end_line r) (req_create_dirs r) (req_command r) (req_process r) (req_script r) (req_stdin r)
    (req_timeout_secs r) (req_requested_by r) (req_created_at r) (req_validation r) (req_lsp r)
    (req_job_context r) (req_persistent_shell r) (req_mcp_gateway r) (req_plugin_gateway r)
    (req_coding_agent r).

Record RunnerInvocationMetadata : Type := mkInvocation {
  inv_request_id : str;
  inv_client_id : str;
  inv_requested_by : str;
  inv_created_at : Z
}.

Definition empty_wire (m : RunnerInvocationMetadata) (kind : str) (timeout_secs : Z) : RunnerRequest :=
  mkRequest (inv_request_id m) (inv_client_id m) kind None None None None None None None None None false []
    None None None timeout_secs (inv_requested_by m) (inv_created_at m) None None None None None None None.

(** ** Runner records *)

Inductive RunnerTransport : Type := Polling | WebSocket | Quic.

#[export] Instance RunnerTransport_eq_dec : EqDecision RunnerTransport.
Proof. solve_decision. Defined.

Definition RunnerTransport_as_str (t : RunnerTransport) : str :=
  match t with
  | Polling => lit "polling"
  | WebSocket => lit "websocket"
  | Quic => lit "quic"
  end.

Record ProjectedStructuredTerminalSuppression : Type := mkSuppression {
  sup_client_id : str;
  sup_runner_instance_id : str;
  sup_job_id : str;
  sup_request_id : str;
  sup_expires_at : Z
}.

Record RunnerRecord : Type := mkRunner {
  r_client_id : str;
  r_runner_instance_id : str;
  r_display_name : option str;
  r_owner : option str;
  r_hostname : option str;
  r_host_context : option RunnerHostContext;
  r_runner_features : RunnerFeatureSet;
  r_projects : list RunnerProjectSummary;
  r_project_inventory : ProjectInventoryState;
  r_last_seen : Z;
  r_accepted_protocol : Z;
  r_transport : RunnerTransport;
  r_policy : option RunnerPolicySummary;
  r_auth_group : option RunnerAccessGroup;
  r_registered_at : Z;
  r_connected_at : Z;
  r_connection_id : option str;
  r_disconnected_at : option Z;
  r_process_started_at : option Z;
  r_build : option RunnerBuildInfo;
  r_job_concurrency_limit : option Z;
  r_coding_agent_providers : list CodingAgentProvider;
  r_coding_agent_inventory : list CodingAgentRunSnapshot;
  r_suppressions : list ProjectedStructuredTerminalSuppression
}.

#[export] Instance eta_runner : Eta RunnerRecord := fun r =>
  mkRunner (r_client_id r) (r_runner_instance_id r) (r_display_name r) (r_owner r) (r_hostname r)
    (r_host_context r) (r_runner_features r) (r_projects r) (r_project_inventory r) (r_last_seen r)
    (r_accepted_protocol r) (r_transport r) (r_policy r) (r_auth_group r) (r_registered_at r)
    (r_connected_at r) (r_connection_id r) (r_disconnected_at r) (r_process_started_at r) (r_build r)
    (r_job_concurrency_limit r) (r_coding_agent_providers r) (r_coding_agent_inventory r) (r_suppressions r).

Definition r_mcp_gateway_providers (r : RunnerRecord) : option (list McpGatewayProvider) :=
  r_policy r ≫= mcp_gateway_providers.

Definition JOB_INVENTORY_MAX_ACTIVE_JOBS : nat := 64.
Definition JOB_INVENTORY_MAX_TERMINAL_JOBS : nat := 64.
Definition JOB_INVENTORY_MAX_JOBS : nat := JOB_INVENTORY_MAX_ACTIVE_JOBS + JOB_INVENTORY_MAX_TERMINAL_JOBS.
Definition JOB_TERMINAL_RETENTION_SECS : Z := 15 * 60.

Definition prune_projected_structured_terminal_suppressions (r : RunnerRecord) (now : Z) : RunnerRecord :=
  r <| r_suppressions := List.filter (fun s => Z.ltb now (sup_expires_at s)) (r_suppressions r) |>.

(** [while queue.len() > cap { queue.pop_front() }]. *)
Definition keep_last {A : Type} (cap : nat) (l : list A) : list A := drop (length l - cap) l.

Definition remember_projected_structured_terminal (r : RunnerRecord) (jid rid : str) (now : Z)
  : RunnerRecord :=
  let r := prune_projected_structured_terminal_suppressions r now in
  let kept := List.filter (fun s => (sup_job_id s !=? jid) || (sup_request_id s !=? rid)) (r_suppressions r) in
  let s := mkSuppression (r_client_id r) (r_runner_instance_id r) jid rid
             (i64_sat_add now JOB_TERMINAL_RETENTION_SECS) in
  r <| r_suppressions := keep_last JOB_INVENTORY_MAX_TERMINAL_JOBS (kept ++ [s]) |>.

Definition suppresses_projected_structured_terminal (r : RunnerRecord) (cid iid jid rid : str) (now : Z)
  : bool :=
  existsb (fun s => Z.ltb now (sup_expires_at s) && (sup_client_id s ==? cid)
                    && (sup_runner_instance_id s ==? iid) && (sup_job_id s ==? jid)
                    && (sup_request_id s ==? rid)) (r_suppressions r).

(** ** Pending requests and the registry *)

Record SkillStoreDispatchFence : Type := mkSkillFence {
  skf_runner_instance_id : str;
  skf_management : bool;
  skf_configured_roots : bool
}.

(** The fences of a pending request, revalidated when it is handed out. *)
Record DispatchFences : Type := mkFences {
  expected_runner_owner : option str;
  expected_project_id : option str;
  expected_project_cwd : option str;
  expected_mcp_gateway_runner_instance_id : option str;
  expected_mcp_gateway_provider_id : option str;
  expected_mcp_gateway_provider_instance_id : option str;
  expected_ssh_resource_runner_instance_id : option str;
  expected_runner_config_runner_instance_id : option str;
  skill_store_fence : option SkillStoreDispatchFence
}.

Definition no_fences : DispatchFences := mkFences None None None None None None None None None.

Record PendingShellRequest : Type := mkPending {
  p_request : RunnerRequest;
  p_operation : RunnerOperation;
  p_has_waiter : bool;
  p_job_id : option str;
  p_fences : DispatchFences;
  p_dispatched : bool
}.

#[export] Instance eta_pending : Eta PendingShellRequest := fun p =>
  mkPending (p_request p) (p_operation p) (p_has_waiter p) (p_job_id p) (p_fences p) (p_dispatched p).

Definition p_request_client_id (p : PendingShellRequest) : str := req_client_id (p_request p).

Record CodingAgentDispatchFence : Type := mkCodingFence {
  caf_runner_instance_id : str;
  caf_provider_id : str;
  caf_provider_instance_id : str
}.

Record PluginGatewayDispatchFence : Type := mkPluginFence {
  pgf_runner_instance_id : str;
  pgf_provider : option (str * str)
}.

Record NotifierEntry : Type := mkNotifier {
  n_runner_instance_id : str;
  n_connection_id : option str
}.

Record RunnerRegistryInner : Type := mkInner {
  runners : gmap str RunnerRecord;
  pending_by_id : gmap str PendingShellRequest;
  persistent_waiters : gset str;
  mcp_gateway_waiters : gset str;
  plugin_gateway_waiters : gset str;
  plugin_gateway_fences : gmap str PluginGatewayDispatchFence;
  coding_agent_waiters : gset str;
  coding_agent_fences : gmap str CodingAgentDispatchFence;
  queues_by_runner : gmap str (list str);
  jobs_by_id : gmap str ShellJobRecord;
  request_to_job : gmap str str;
  retired_instances : gmap str (list str);
  unregistering_projects : gmap str Z;
  notifiers : gmap str NotifierEntry
}.

#[export] Instance eta_inner : Eta RunnerRegistryInner := fun i =>
  mkInner (runners i) (pending_by_id i) (persistent_waiters i) (mcp_gateway_waiters i)
    (plugin_gateway_waiters i) (plugin_gateway_fences i) (coding_agent_waiters i)
    (coding_agent_fences i) (queues_by_runner i) (jobs_by_id i) (request_to_job i)
    (retired_instances i) (unregistering_projects i) (notifiers i).

Definition RunnerRegistryInner_default : RunnerRegistryInner :=
  mkInner ∅ ∅ ∅ ∅ ∅ ∅ ∅ ∅ ∅ ∅ ∅ ∅ ∅ ∅.

(** [if let Some(job) = inner.jobs_by_id.get_mut(id) { f(job) }]. *)
Definition update_job_record (inner : RunnerRegistryInner) (id : str)
  (f : ShellJobRecord -> ShellJobRecord) : RunnerRegistryInner :=
  inner <| jobs_by_id := alter f id (jobs_by_id inner) |>.

Definition update_runner_record (inner : RunnerRegistryInner) (id : str)
  (f : RunnerRecord -> RunnerRecord) : RunnerRegistryInner :=
  inner <| runners := alter f id (runners inner) |>.

Definition remove_job_record (inner : RunnerRegistryInner) (id : str) : RunnerRegistryInner :=
  inner <| jobs_by_id := delete id (jobs_by_id inner) |>.

(** ** access_control.rs *)

Definition non_blank (o : option str) : option str := opt_filter (fun s => negb (is_empty (trim s))) o.

Definition assert_runner_owner (access : option RunnerAccess) (cid : str) (owner : option str)
  : result unit str :=
  if unwrap_or false (owner_bypass <$> access) then Ok tt
  else
    let? owner := ok_or (non_blank owner) (lit "runner " ++ cid ++ lit " has no owner") in
    let user := non_blank (access ≫= username) in
    if user ==? Some owner then Ok tt
    else Err (lit "runner " ++ cid ++ lit " is owned by " ++ owner
              ++ lit "; current api key belongs to " ++ unwrap_or (lit "anonymous") user).

Definition lightweight_group_matches (access : option RunnerAccess) (g : option RunnerAccessGroup) : bool :=
  match g with
  | Some _ => (access ≫= group) ==? g
  | None => is_none (access ≫= group)
  end.

Definition runner_visible_to_access (access : option RunnerAccess) (runner : RunnerRecord) : bool :=
  match access with
  | None => true
  | Some a =>
      if global_visibility a then true
      else if negb (lightweight_group_matches (Some a) (r_auth_group runner)) then false
      else if is_some (r_auth_group runner) then true
      else
        let user := non_blank (username a) in
        let owner := non_blank (r_owner runner) in
        is_some user && (user ==? owner)
  end.

Definition assert_runner_access (access : option RunnerAccess) (runner : RunnerRecord) : result unit str :=
  bail? negb (runner_visible_to_access access runner)
    with lit "unknown shell client: " ++ r_client_id runner ;;
  if is_some (r_auth_group runner) then Ok tt
  else assert_runner_owner access (r_client_id runner) (r_owner runner).

Definition job_visible_to_access (access : option RunnerAccess) (job : ShellJobRecord) (now : Z) : bool :=
  if is_some_and (fun expires => Z.leb expires now) (receipt_expires_at (observation job)) then false
  else
    match access with
    | None => true
    | Some a =>
        if global_visibility a then true
        else match auth_group job with
             | Some g => lightweight_group_matches (Some a) (Some g)
             | None => is_none (group a)
                       && is_some_and (fun u => negb (is_empty (trim u))
                                                && (owner_at_admission job ==? Some u)) (username a)
             end
    end.

(** ** Isolation *)

(** The partition a non-global caller lives in: its lightweight group, or, for
    managed Runners, the owner of that name. *)
Definition same_partition (a : RunnerAccess) (g : option RunnerAccessGroup) (owner : option str) : Prop :=
  g = group a
  /\ (g = None -> exists u, username a = Some u /\ trim u <> [] /\ owner = Some u).

Lemma non_blank_some (o : option str) (u : str) : non_blank o = Some u <-> o = Some u /\ trim u <> [].
Proof.
  unfold non_blank. destruct o as [s|]; cbn; [ | naive_solver].
  destruct (trim s) as [|c t] eqn:E; cbn; split.
  - done.
  - intros [[= ->] Hne]. congruence.
  - intros [= ->]. by rewrite E.
  - by intros [? _].
Qed.

Lemma group_matches_spec (a : RunnerAccess) (g : option RunnerAccessGroup) :
  lightweight_group_matches (Some a) g = true <-> g = group a.
Proof.
  unfold lightweight_group_matches. cbn. destruct g as [g|].
  - rewrite beq_eq. naive_solver.
  - destruct (group a); cbn; split; done.
Qed.

Lemma owner_matches_spec (user owner : option str) :
  is_some (non_blank user) && (non_blank user ==? non_blank owner) = true
  <-> exists u, user = Some u /\ trim u <> [] /\ owner = Some u.
Proof.
  rewrite andb_true_iff, beq_eq. split.
  - intros [Hs He]. destruct (non_blank user) as [u|] eqn:Eu; [ | done].
    symmetry in He. apply non_blank_some in Eu as [-> Hu]. apply non_blank_some in He as [-> _].
    by exists u.
  - intros (u & -> & Hu & ->). by rewrite (proj2 (non_blank_some (Some u) u)).
Qed.

(** Partitions are isolated: a caller without global visibility sees a
    Runner or a Job exactly when it is in the caller's own partition (the same
    lightweight group, or no group and the caller's non-blank user name as
    owner), and nobody sees a receipt after its deadline. *)
Lemma access_isolation (a : RunnerAccess) (r : RunnerRecord) (j : ShellJobRecord) (now : Z) :
  (runner_visible_to_access (Some a) r = true
   <-> global_visibility a = true \/ same_partition a (r_auth_group r) (r_owner r))
  /\ (job_visible_to_access (Some a) j now = true
      <-> (forall e, receipt_expires_at (observation j) = Some e -> (now < e)%Z)
          /\ (global_visibility a = true \/ same_partition a (auth_group j) (owner_at_admission j))).
Proof.
  unfold runner_visible_to_access, job_visible_to_access, same_partition. split.
  - destruct (global_visibility a); [naive_solver | ].
    destruct (lightweight_group_matches (Some a) (r_auth_group r)) eqn:Hg; cbn [negb].
    + apply group_matches_spec in Hg. destruct (r_auth_group r) as [g|]; cbn [is_some].
      * split; [intros _; right; by split | done].
      * rewrite owner_matches_spec. naive_solver.
    + split; [done | ]. intros [?|[He _]]; [done | ]. apply group_matches_spec in He. congruence.
  - assert (Hexp : is_some_and (fun e => Z.leb e now) (receipt_expires_at (observation j)) = false
                   <-> forall e, receipt_expires_at (observation j) = Some e -> (now < e)%Z).
    { destruct (receipt_expires_at (observation j)) as [e|]; cbn; [rewrite Z.leb_gt; naive_solver | done]. }
    destruct (is_some_and _ _) eqn:Ee.
    { split; [done | ]. intros [H _]. apply Hexp in H. congruence. }
    destruct (global_visibility a); [naive_solver | ].
    pose proof (proj1 Hexp eq_refl) as Hlive. clear Hexp Ee.
    destruct (auth_group j) as [g|].
    + rewrite group_matches_spec. split; [intros H; split; [done | right; by split] | ].
      by intros [_ [?|[? _]]].
    + rewrite andb_true_iff. split.
      * intros [Hg Hu]. split; [done | right]. destruct (group a); [done | ]. split; [done | intros _].
        destruct (username a) as [u|]; [ | done]. cbn in Hu. split_andb.
        exists u. split_and!; [done | by destruct (trim u) | done].
      * intros [_ [?|[Hg Hu]]]; [done | ]. destruct (Hu eq_refl) as (u & -> & Ht & ->).
        rewrite <- Hg. cbn. rewrite beq_refl. by destruct (trim u).
Qed.

(** A projected terminal is remembered for the retention window: the Runner
    record that remembered it suppresses exactly that Job and request of its own
    lease until the deadline and not after, and never remembers more than the
    inventory's limit. *)
Lemma suppression_remembered (r : RunnerRecord) (jid rid : str) (now t : Z) :
  let r' := remember_projected_structured_terminal r jid rid now in
  length (r_suppressions r') <= JOB_INVENTORY_MAX_TERMINAL_JOBS
  /\ suppresses_projected_structured_terminal r' (r_client_id r) (r_runner_instance_id r) jid rid t
     = Z.ltb t (i64_sat_add now JOB_TERMINAL_RETENTION_SECS).
Proof.
  unfold remember_projected_structured_terminal. cbn zeta.
  set (r1 := prune_projected_structured_terminal_suppressions r now).
  set (kept := List.filter _ (r_suppressions r1)).
  set (s := mkSuppression _ _ _ _ _). unfold suppresses_projected_structured_terminal. cbn [r_suppressions set_field].
  split.
  { cbn. unfold keep_last. rewrite length_drop. unfold JOB_INVENTORY_MAX_TERMINAL_JOBS. lia. }
  cbn. unfold keep_last. rewrite drop_app_le by (rewrite length_app; unfold JOB_INVENTORY_MAX_TERMINAL_JOBS; simpl; lia).
  rewrite existsb_app. cbn [existsb].
  replace (existsb _ (drop _ kept)) with false.
  - cbn. rewrite !beq_refl, !andb_true_r. by rewrite orb_false_r.
  - symmetry. apply not_true_iff_false. rewrite existsb_exists. intros (x & Hx & Hm). split_andb.
    assert (Hin : In x kept).
    { rewrite <- (take_drop (length (kept ++ [s]) - JOB_INVENTORY_MAX_TERMINAL_JOBS) kept).
      apply in_app_iff. by right. }
    apply filter_In in Hin as [_ Hin]. rewrite H0, H1 in *. subst. by rewrite !beq_refl in Hin.
Qed.
