(* ===== verification/JobState.v ===== *)
(** * JobState: Job lifecycle helpers and pending requests of the registry

    crates/webcodex-runner-registry/src/jobs.rs (terminal observation, recovery,
    loss, refresh, lease and capacity checks), requests.rs (enqueue, removal and
    the resolution of requests of a disconnected Runner) and the request cleanup
    of reconciliation.rs.  [now_ts()] is the argument [now]: one clock reading per
    operation.  A response sent to a waiter is an element of the operation's
    output. *)
From S2P Require Import Prelude RustStr Lifecycle JobLog Capabilities RegistryState.

Definition RUNNER_ONLINE_WINDOW_SECS : Z := 60.
Definition MAX_QUEUED_REQUESTS_PER_RUNNER : nat := 256.
Definition JOB_RECOVERY_GRACE_SECS : Z := 120.
Definition JOB_RECOVERY_GRACE_MIN_SECS : Z := 5.
Definition JOB_RECOVERY_GRACE_MAX_SECS : Z := 3600.

Definition clamp_grace (raw : Z) : Z :=
  Z.max JOB_RECOVERY_GRACE_MIN_SECS (Z.min raw JOB_RECOVERY_GRACE_MAX_SECS).

(** [job_recovery_grace_secs]: the environment's value, when it parses. *)
Definition job_recovery_grace_secs (env : option Z) : Z :=
  match env with
  | Some raw => clamp_grace raw
  | None => JOB_RECOVERY_GRACE_SECS
  end.

(** ** jobs.rs: lifecycle helpers *)

Definition parse_job_lifecycle (status : str) : result RunnerJobLifecycle str := from_wire status.
Definition is_final_job_status (status : str) : bool := wire_is is_terminal status.
Definition is_runner_active_job_status (status : str) : bool := wire_is is_runner_active status.

Definition observe_job_terminal (job : ShellJobRecord) (now : Z) : ShellJobRecord :=
  if is_terminal (lifecycle job) && is_none (terminal_observed_at (observation job))
  then job <| observation := observation job <| terminal_observed_at := Some now |> |>
  else job.

Definition U64_MODULUS : Z := 2 ^ 64.

Definition notify_job_update (job : ShellJobRecord) : ShellJobRecord :=
  let obs := observation job <| obs_revision := ((obs_revision (observation job) + 1) mod U64_MODULUS)%Z |> in
  job <| observation :=
    if is_terminal (lifecycle job) && has_receipt_candidates obs
    then obs <| is_receipt_candidate := true |> else obs |>.

Definition begin_job_recovery (job : ShellJobRecord) (now : Z) (reason : JobRecoveryReason)
  : ShellJobRecord :=
  if is_terminal (lifecycle job) || (lifecycle job ==? Queued) then job
  else
    let since := if recovering (recovery job) then recovering_since (recovery job) else Some now in
    notify_job_update
      (job <| recovery := recovery job <| recovering_since := since |>
                                       <| rec_phase := Some Recovering |>
                                       <| rec_reason := Some reason |> |>
           <| ended_at := None |>
           <| activity := None |>).

(** The state a structured command is left in when its Job is lost. *)
Definition unfinished_execution_state (job : ShellJobRecord) : ShellCommandExecutionState :=
  if is_some (started_at job) then OutcomeUnknown else NotStarted.

Definition mark_job_lost (job : ShellJobRecord) (now : Z) (reason : JobRecoveryReason) (message : str)
  : ShellJobRecord :=
  if is_terminal (lifecycle job) then job
  else
    let job := observe_job_terminal (job <| lifecycle := Lost |> <| activity := None |>) now in
    let job := if is_none (ended_at job) then job <| ended_at := Some now |> else job in
    let job := job <| error := Some message |> in
    let job := if is_some (structured_execution job)
               then job <| command_execution_state := Some (unfinished_execution_state job) |> else job in
    notify_job_update
      (job <| recovery := recovery job
                <| rec_phase := if implies_lost_after_reconcile reason then Some LostAfterReconcile else None |>
                <| rec_reason := Some reason |>
                <| recovering_since := None |> |>).

Definition runner_is_connected_locked (inner : RunnerRegistryInner) (cid : str) (now : Z) : bool :=
  is_some_and (fun r => Z.leb (i64_sat_sub now (r_last_seen r)) RUNNER_ONLINE_WINDOW_SECS)
    (runners inner !! cid).

Definition offline_last_seen (now : Z) : Z := i64_sat_sub now (i64_sat_add RUNNER_ONLINE_WINDOW_SECS 1).

Definition assert_active_instance_locked (inner : RunnerRegistryInner) (cid iid : str) : result unit str :=
  match runners inner !! cid with
  | None => Err (lit "unknown shell client: " ++ cid)
  | Some r =>
      bail? r_runner_instance_id r !=? iid
        with lit "runner " ++ cid ++ lit " is no longer the active instance (stale or replaced)" ;;
      Ok tt
  end.

Inductive PendingRequestEnqueueError : Type :=
| InvalidOperation (message : str)
| UnknownRunner (client_id : str)
| RunnerOffline (client_id : str)
| QueueFull (client_id : str) (limit : nat).

Definition display_enqueue_error (e : PendingRequestEnqueueError) : str :=
  match e with
  | InvalidOperation message => lit "invalid canonical Runner operation: " ++ message
  | UnknownRunner cid => lit "unknown shell client: " ++ cid
  | RunnerOffline cid =>
      lit "runner " ++ cid ++ lit " is offline (no keepalive within "
      ++ fmt_Z RUNNER_ONLINE_WINDOW_SECS ++ lit "s); reconnect the Runner before retrying"
  | QueueFull cid limit =>
      lit "too many pending requests for runner " ++ cid ++ lit " (limit " ++ fmt_nat limit ++ lit ")"
  end.

Definition ensure_queue_capacity_locked (inner : RunnerRegistryInner) (cid : str)
  : result unit PendingRequestEnqueueError :=
  let len := unwrap_or 0 (length <$> queues_by_runner inner !! cid) in
  bail? Nat.leb MAX_QUEUED_REQUESTS_PER_RUNNER len
    with QueueFull cid MAX_QUEUED_REQUESTS_PER_RUNNER ;;
  Ok tt.

Definition ensure_dispatch_supported_locked (inner : RunnerRegistryInner) (cid : str) (now : Z)
  : result unit PendingRequestEnqueueError :=
  bail? is_none (runners inner !! cid) with UnknownRunner cid ;;
  bail? negb (runner_is_connected_locked inner cid now) with RunnerOffline cid ;;
  Ok tt.

Definition runner_reconciles (inner : RunnerRegistryInner) (cid : str) : bool :=
  is_some_and (fun r => supports (r_runner_features r) JobStateReconciliation) (runners inner !! cid).

Definition refresh_job_status_locked (grace : Z) (inner : RunnerRegistryInner) (jid : str) (now : Z)
  : RunnerRegistryInner :=
  match jobs_by_id inner !! jid with
  | None => inner
  | Some job =>
      if is_terminal (lifecycle job) || negb (is_runner_active (lifecycle job)) then inner
      else if recovery_active job then
        if is_some_and (fun since => Z.leb grace (i64_sat_sub now since)) (recovering_since (recovery job))
        then update_job_record inner jid (fun j =>
               mark_job_lost j now RunnerRecoveryDeadlineExceeded
                 (lit "runner did not reconcile the job before the recovery deadline"))
        else inner
      else if runner_is_connected_locked inner (client_id job) now then inner
      else update_job_record inner jid (fun j =>
             if runner_reconciles inner (client_id job)
             then begin_job_recovery j now RunnerTransportStale
             else mark_job_lost j now RunnerDisconnectedWithoutReconciliation
                    (lit "runner went stale while job was running"))
  end.

(** ** requests.rs *)

(** [queue.retain(|id| id != request_id)]. *)
Definition retain_not (rid : str) (queue : list str) : list str := List.filter (fun id => id !=? rid) queue.

Definition drop_from_queue (inner : RunnerRegistryInner) (cid rid : str) : RunnerRegistryInner :=
  inner <| queues_by_runner := alter (retain_not rid) cid (queues_by_runner inner) |>.

(** [operation] is what [request.decode_operation()] gives. *)
Definition enqueue_pending_request_locked (operation : result RunnerOperation str)
  (inner : RunnerRegistryInner) (cid rid : str) (request : RunnerRequest) (has_waiter : bool)
  (jid : option str) (now : Z) : result RunnerRegistryInner PendingRequestEnqueueError :=
  let? operation := map_err InvalidOperation operation in
  check? ensure_dispatch_supported_locked inner cid now ;;
  check? ensure_queue_capacity_locked inner cid ;;
  Ok (inner <| queues_by_runner :=
                 <[ cid := unwrap_or [] (queues_by_runner inner !! cid) ++ [rid] ]> (queues_by_runner inner) |>
            <| pending_by_id :=
                 <[ rid := mkPending request operation has_waiter jid no_fences false ]> (pending_by_id inner) |>).

Definition remove_request_from_queues_locked (inner : RunnerRegistryInner) (rid : str) : RunnerRegistryInner :=
  inner <| queues_by_runner := retain_not rid <$> queues_by_runner inner |>.

Definition remove_pending_request_locked (inner : RunnerRegistryInner) (rid : str) : RunnerRegistryInner :=
  remove_request_from_queues_locked
    (inner <| pending_by_id := delete rid (pending_by_id inner) |>) rid.

(** What a waiter is told when its Runner goes away; [dispatched] is whether the
    Runner may have started the work. *)
Inductive WaiterResponse : Type :=
| ShellFailed (rid cid err : str) (dispatched : bool)
| McpGatewayFailed (rid : str) (dispatched : bool)
| PluginGatewayFailed (rid : str) (dispatched : bool)
| CodingAgentFailed (rid : str) (dispatched : bool).

(** Every waiter registered for the request is told once. *)
Definition waiter_responses (cid err : str) (inner : RunnerRegistryInner) (rid : str)
  (pending : PendingShellRequest) : list WaiterResponse :=
  let d := p_dispatched pending in
  (if p_has_waiter pending then [ShellFailed rid cid err d] else [])
  ++ (if decide (rid ∈ mcp_gateway_waiters inner) then [McpGatewayFailed rid d] else [])
  ++ (if decide (rid ∈ plugin_gateway_waiters inner) then [PluginGatewayFailed rid d] else [])
  ++ (if decide (rid ∈ coding_agent_waiters inner) then [CodingAgentFailed rid d] else []).

Definition resolve_one (cid err : str) (st : RunnerRegistryInner * list WaiterResponse) (rid : str)
  : RunnerRegistryInner * list WaiterResponse :=
  let '(inner, sent) := st in
  match pending_by_id inner !! rid with
  | None => (inner, sent)
  | Some pending =>
      (drop_from_queue inner cid rid
         <| pending_by_id := delete rid (pending_by_id inner) |>
         <| mcp_gateway_waiters := mcp_gateway_waiters inner ∖ {[ rid ]} |>
         <| plugin_gateway_waiters := plugin_gateway_waiters inner ∖ {[ rid ]} |>
         <| coding_agent_waiters := coding_agent_waiters inner ∖ {[ rid ]} |>
         <| coding_agent_fences := delete rid (coding_agent_fences inner) |>
         <| plugin_gateway_fences := delete rid (plugin_gateway_fences inner) |>
         <| persistent_waiters := persistent_waiters inner ∖ {[ rid ]} |>,
       sent ++ waiter_responses cid err inner rid pending)
  end.

Section Iteration.
Context `{HashIteration}.

Definition sync_requests_of (inner : RunnerRegistryInner) (cid : str) : list str :=
  map fst (List.filter (fun e => is_none (p_job_id (snd e)) && (p_request_client_id (snd e) ==? cid))
             (hash_iter (pending_by_id inner))).

Definition resolve_disconnected_sync_requests_locked (inner : RunnerRegistryInner) (cid err : str)
  : RunnerRegistryInner * list WaiterResponse :=
  fold_left (resolve_one cid err) (sync_requests_of inner cid) (inner, []).

(** ** reconciliation.rs: request cleanup *)

Definition remove_job_request_mapping (inner : RunnerRegistryInner) (cid : str) (rid : option str)
  : RunnerRegistryInner :=
  match rid with
  | None => inner
  | Some rid =>
      drop_from_queue inner cid rid
        <| pending_by_id := delete rid (pending_by_id inner) |>
        <| persistent_waiters := persistent_waiters inner ∖ {[ rid ]} |>
        <| request_to_job := delete rid (request_to_job inner) |>
  end.

Definition remove_job_control_requests (inner : RunnerRegistryInner) (cid : str) (job_ids : gset str)
  : RunnerRegistryInner :=
  let request_ids :=
    map fst (List.filter (fun e => (p_request_client_id (snd e) ==? cid)
                                   && is_some_and (fun j => bool_decide (j ∈ job_ids)) (p_job_id (snd e)))
               (hash_iter (pending_by_id inner))) in
  fold_left (fun acc rid => remove_job_request_mapping acc cid (Some rid)) request_ids inner.

End Iteration.

(** ** What every operation keeps of a Job *)

(** A terminal Job has the time the Server first observed it, and a recovering
    one the time its recovery began. *)
Definition job_inv (j : ShellJobRecord) : Prop :=
  (is_terminal (lifecycle j) = true -> is_some (terminal_observed_at (observation j)) = true)
  /\ (rec_phase (recovery j) = Some Recovering -> is_some (recovering_since (recovery j)) = true).

(** What a later start under the same idempotency key is compared with. *)
Definition start_of (j : ShellJobRecord) : str * option DetachedIdempotencyIntent :=
  (kind j, detached_idempotency_intent j).

(** Identity, authorisation and what was started never change, a terminal verdict
    is final in every field but the observation bookkeeping, and so is its
    observation time. *)
Record job_evolves (old new : ShellJobRecord) : Prop := {
  ev_job_id : job_id new = job_id old;
  ev_request_id : request_id new = request_id old;
  ev_client_id : client_id new = client_id old;
  ev_auth_group : auth_group new = auth_group old;
  ev_owner : owner_at_admission new = owner_at_admission old;
  ev_visibility : visibility new = visibility old;
  ev_terminal : is_terminal (lifecycle old) = true -> new = old <| observation := observation new |>;
  ev_observed : forall t, terminal_observed_at (observation old) = Some t ->
    terminal_observed_at (observation new) = Some t;
  ev_start : start_of new = start_of old
}.

#[export] Instance job_evolves_refl : Reflexive job_evolves.
Proof. intros j. split; try done. intros _. by destruct j. Qed.

#[export] Instance job_evolves_trans : Transitive job_evolves.
Proof.
  intros a b c [H1 H2 H3 H4 H5 Hv H6 H7 H8] [K1 K2 K3 K4 K5 Kv K6 K7 K8]. split; try congruence.
  - intros Ht. specialize (H6 Ht). assert (Hb : is_terminal (lifecycle b) = true) by (by rewrite H6).
    rewrite (K6 Hb), H6. by destruct a.
  - intros t Ht. auto.
Qed.

Lemma observe_notify_evolves (j : ShellJobRecord) : job_evolves j (notify_job_update j).
Proof.
  unfold notify_job_update. split; try (by destruct j); try done.
  intros t Ht. cbn. by destruct (_ && _).
Qed.

Lemma begin_recovery_evolves (j : ShellJobRecord) (now : Z) (reason : JobRecoveryReason) :
  job_evolves j (begin_job_recovery j now reason).
Proof.
  unfold begin_job_recovery. destruct (_ || _) eqn:E; [done | ]. split_andb.
  etransitivity; [ | apply observe_notify_evolves]. split; try done. intros Ht. congruence.
Qed.

Lemma mark_lost_evolves (j : ShellJobRecord) (now : Z) (reason : JobRecoveryReason) (message : str) :
  job_evolves j (mark_job_lost j now reason message).
Proof.
  unfold mark_job_lost. destruct (is_terminal (lifecycle j)) eqn:E; [done | ].
  etransitivity; [ | apply observe_notify_evolves].
  unfold observe_job_terminal. cbn.
  destruct (terminal_observed_at (observation j)) eqn:Eo; cbn;
    destruct (ended_at j) eqn:Ee, (structured_execution j) eqn:Es; cbn; rewrite ?Eo, ?Ee, ?Es; cbn.
  all: split; cbn; try done; intros; congruence.
Qed.

Lemma notify_inv (j : ShellJobRecord) : job_inv j -> job_inv (notify_job_update j).
Proof. unfold job_inv, notify_job_update. cbn. by destruct (_ && _). Qed.

Lemma begin_recovery_inv (j : ShellJobRecord) (now : Z) (reason : JobRecoveryReason) :
  job_inv j -> job_inv (begin_job_recovery j now reason).
Proof.
  intros [H1 H2]. unfold begin_job_recovery. destruct (_ || _) eqn:E; [done | ].
  apply notify_inv. split; [done | ]. cbn. intros _. unfold recovering.
  destruct (rec_phase (recovery j) ==? Some Recovering) eqn:Er; [ | done].
  apply H2. by apply beq_true in Er.
Qed.

Lemma mark_lost_inv (j : ShellJobRecord) (now : Z) (reason : JobRecoveryReason) (message : str) :
  job_inv j -> job_inv (mark_job_lost j now reason message).
Proof.
  intros Hj. unfold mark_job_lost. destruct (is_terminal (lifecycle j)) eqn:E; [done | ].
  apply notify_inv. split.
  - intros _. unfold observe_job_terminal. cbn.
    destruct (terminal_observed_at (observation j)) eqn:Eo; cbn;
      destruct (ended_at j) eqn:Ee, (structured_execution j) eqn:Es; cbn;
      rewrite ?Eo, ?Ee, ?Es; cbn; by rewrite ?Eo.
  - cbn. by destruct (implies_lost_after_reconcile reason).
Qed.

Lemma mark_lost_lifecycle (j : ShellJobRecord) (now : Z) (reason : JobRecoveryReason) (message : str) :
  is_terminal (lifecycle (mark_job_lost j now reason message)) = true.
Proof.
  unfold mark_job_lost. destruct (is_terminal (lifecycle j)) eqn:E; [done | ].
  unfold observe_job_terminal. cbn.
  destruct (terminal_observed_at (observation j)); cbn;
    destruct (ended_at j) eqn:Ee, (structured_execution j) eqn:Es; cbn; by rewrite ?Ee, ?Es.
Qed.

Lemma mark_lost_is_lost (j : ShellJobRecord) (now : Z) (reason : JobRecoveryReason) (message : str) :
  is_terminal (lifecycle j) = false -> lifecycle (mark_job_lost j now reason message) = Lost.
Proof.
  intros E. unfold mark_job_lost. rewrite E. unfold observe_job_terminal. cbn.
  destruct (terminal_observed_at (observation j)); cbn;
    destruct (ended_at j) eqn:Ee, (structured_execution j) eqn:Es; cbn; by rewrite ?Ee, ?Es.
Qed.

Lemma recovery_active_nonterminal (j : ShellJobRecord) :
  recovery_active j = true -> is_terminal (lifecycle j) = false.
Proof. unfold recovery_active. by destruct (lifecycle j). Qed.

#[export] Hint Resolve observe_notify_evolves begin_recovery_evolves mark_lost_evolves
  notify_inv begin_recovery_inv mark_lost_inv : webcodex.

(** ** The registry's invariant *)

(** Every Job is stored under its own id and satisfies [job_inv]. *)
Definition jobs_inv (inner : RunnerRegistryInner) : Prop :=
  map_Forall (fun id j => job_id j = id /\ job_inv j) (jobs_by_id inner).

(** Jobs present before and after have evolved. *)
Definition registry_evolves (i i' : RunnerRegistryInner) : Prop :=
  forall id j j', jobs_by_id i !! id = Some j -> jobs_by_id i' !! id = Some j' -> job_evolves j j'.

(** An operation that only updates Jobs in place, by steps that evolve them and
    keep their invariant, or removes them. *)
Definition jobs_refine (i i' : RunnerRegistryInner) : Prop :=
  forall id j', jobs_by_id i' !! id = Some j' ->
    exists j, jobs_by_id i !! id = Some j /\ job_evolves j j' /\ (job_inv j -> job_inv j').

#[export] Instance jobs_refine_refl : Reflexive jobs_refine.
Proof. intros i id j' H. exists j'. done. Qed.

#[export] Instance jobs_refine_trans : Transitive jobs_refine.
Proof.
  intros a b c Hab Hbc id j' Hc. destruct (Hbc id j' Hc) as (j & Hb & He & Hi).
  destruct (Hab id j Hb) as (j0 & Ha & He0 & Hi0). exists j0.
  split; [done | ]. split; [by etransitivity | auto].
Qed.

Lemma jobs_refine_same (i i' : RunnerRegistryInner) :
  jobs_by_id i' = jobs_by_id i -> jobs_refine i i'.
Proof. intros H id j' Hj. rewrite H in Hj. exists j'. done. Qed.

Lemma jobs_refine_inv (i i' : RunnerRegistryInner) : jobs_refine i i' -> jobs_inv i -> jobs_inv i'.
Proof.
  intros Hr Hi id j' Hj. destruct (Hr id j' Hj) as (j & Hj0 & He & Hinv).
  destruct (Hi id j Hj0) as [Hid Hji]. split; [by rewrite (ev_job_id _ _ He) | auto].
Qed.

Lemma jobs_refine_evolves (i i' : RunnerRegistryInner) : jobs_refine i i' -> registry_evolves i i'.
Proof.
  intros Hr id j j' Hj Hj'. destruct (Hr id j' Hj') as (j0 & Hj0 & He & _). congruence.
Qed.

Lemma update_job_refine (i : RunnerRegistryInner) (id : str) (f : ShellJobRecord -> ShellJobRecord) :
  (forall j, job_evolves j (f j)) -> (forall j, job_inv j -> job_inv (f j)) ->
  jobs_refine i (update_job_record i id f).
Proof.
  intros He Hi id' j' H. cbn in H. apply lookup_alter_Some in H as [(-> & j & Hj & ->)|[Hne Hj]].
  - exists j. auto.
  - exists j'. done.
Qed.

Lemma remove_job_refine (i : RunnerRegistryInner) (id : str) : jobs_refine i (remove_job_record i id).
Proof.
  intros id' j' H. cbn in H. apply lookup_delete_Some in H as [_ H]. exists j'. done.
Qed.

Lemma fold_refine {A : Type} (f : RunnerRegistryInner -> A -> RunnerRegistryInner) (l : list A)
  (i : RunnerRegistryInner) : (forall i x, jobs_refine i (f i x)) -> jobs_refine i (fold_left f l i).
Proof.
  intros Hf. revert i. induction l as [|x l IH]; intros i; cbn; [done | ].
  etransitivity; [apply Hf | apply IH].
Qed.

Lemma fold_jobs_same {A : Type} (f : RunnerRegistryInner -> A -> RunnerRegistryInner) (l : list A)
  (i : RunnerRegistryInner) :
  (forall i x, jobs_by_id (f i x) = jobs_by_id i) -> jobs_by_id (fold_left f l i) = jobs_by_id i.
Proof.
  intros Hf. revert i. induction l as [|x l IH]; intros i; cbn; [done | ]. by rewrite IH, Hf.
Qed.

Lemma remove_mapping_jobs (i : RunnerRegistryInner) (cid : str) (rid : option str) :
  jobs_by_id (remove_job_request_mapping i cid rid) = jobs_by_id i.
Proof. by destruct rid. Qed.

Section IterationLemmas.
Context `{HashIteration}.

Lemma remove_control_jobs (i : RunnerRegistryInner) (cid : str) (ids : gset str) :
  jobs_by_id (remove_job_control_requests i cid ids) = jobs_by_id i.
Proof. apply fold_jobs_same. intros. apply remove_mapping_jobs. Qed.

Lemma resolve_one_jobs (cid err rid : str) (st : RunnerRegistryInner * list WaiterResponse) :
  jobs_by_id (resolve_one cid err st rid).1 = jobs_by_id st.1.
Proof. destruct st as [i sent]. cbn. by destruct (pending_by_id i !! rid). Qed.

Lemma resolve_disconnected_jobs (i : RunnerRegistryInner) (cid err : str) :
  jobs_by_id (resolve_disconnected_sync_requests_locked i cid err).1 = jobs_by_id i.
Proof.
  unfold resolve_disconnected_sync_requests_locked. generalize (sync_requests_of i cid).
  intros l. change (jobs_by_id i) with (jobs_by_id (i, @nil WaiterResponse).1).
  generalize (i, @nil WaiterResponse). induction l as [|x l IH]; intros st; cbn [fold_left]; [done | ].
  by rewrite IH, resolve_one_jobs.
Qed.

End IterationLemmas.

Lemma refresh_refine (grace : Z) (i : RunnerRegistryInner) (jid : str) (now : Z) :
  jobs_refine i (refresh_job_status_locked grace i jid now).
Proof.
  unfold refresh_job_status_locked. destruct (jobs_by_id i !! jid) as [job|]; [ | done].
  destruct (_ || _); [done | ]. destruct (recovery_active job).
  - destruct (is_some_and _ _); [ | done]. apply update_job_refine; auto with webcodex.
  - destruct (runner_is_connected_locked _ _ _); [done | ].
    apply update_job_refine; intros j; destruct (runner_reconciles _ _); auto with webcodex.
Qed.
