(* ===== verification/ValidationSteps.v ===== *)
(** * ValidationSteps: crates/webcodex-core/src/runner_protocol.rs, canonical argv

    The closed argv grammar of structured validation steps, the normalisers of
    the values a caller may put into it, and the validity of validation and
    structured-execution metadata. *)
From S2P Require Import Prelude RustStr RegistryState.

Definition RUST_TEST_FILTER_MAX_BYTES : Z := 200.
Definition CARGO_VALUE_MAX_BYTES : Z := 500.
Definition CARGO_TEST_MIN_TESTS_MAX : Z := 1000000.
Definition GO_TEST_PACKAGE_MAX_ITEMS : nat := 8.
Definition GO_TEST_PACKAGE_MAX_BYTES : Z := 256.
Definition VALIDATION_ASSERTION_NAME_MAX_CHARS : nat := 120.
Definition PROCESS_ARG_MAX_COUNT : Z := 256.
Definition SCRIPT_MIN_BYTES : Z := 1.
Definition SCRIPT_MAX_BYTES : Z := 512 * 1024.
Definition SCRIPT_ARG_MAX_COUNT : Z := 256.

Definition DASH : char := 45.
Definition starts_with_dash (s : str) : bool := match s with c :: _ => N.eqb c DASH | [] => false end.

Definition normalize_cargo_value (raw : str) : result (option str) str :=
  bail? contains_char NUL raw with lit "cannot contain NUL bytes" ;;
  let trimmed := trim raw in
  if is_empty trimmed then Ok None
  else
    bail? existsb is_control trimmed with lit "contains control characters" ;;
    bail? starts_with_dash trimmed with lit "must not start with '-'" ;;
    bail? Z.ltb CARGO_VALUE_MAX_BYTES (str_len trimmed) with lit "exceeds 500 bytes" ;;
    Ok (Some trimmed).

Definition normalize_rust_test_filter (raw : str) : result (option str) str :=
  bail? Z.ltb RUST_TEST_FILTER_MAX_BYTES (str_len raw) with lit "exceeds 200 bytes" ;;
  bail? contains_char NUL raw with lit "cannot contain NUL bytes" ;;
  let trimmed := trim raw in
  if is_empty trimmed then Ok None
  else
    bail? existsb is_control trimmed with lit "contains control characters" ;;
    bail? starts_with_dash trimmed with lit "must not start with '-'" ;;
    Ok (Some trimmed).

Definition valid_rust_test_filter (value : str) : bool :=
  match normalize_rust_test_filter value with
  | Ok normalized => is_some normalized
  | Err _ => false
  end.

(** ** Go packages *)

Definition is_ascii_control_byte (b : N) : bool := (b <? 32)%N || (b =? 127)%N.
Definition is_ascii_whitespace_byte (b : N) : bool :=
  existsb (N.eqb b) [32; 9; 10; 12; 13]%N.

(** The segment loop. *)
Fixpoint check_go_segments (segments : list str) : result unit str :=
  match segments with
  | [] => Ok tt
  | segment :: rest =>
      bail? is_empty segment with lit "package pattern contains an empty segment" ;;
      bail? (segment ==? lit ".") || (segment ==? lit "..")
        with lit "package pattern contains an interior '.' or '..' segment" ;;
      if segment ==? lit "..." then
        bail? negb (is_empty rest) with lit "'...' is only allowed as the final complete segment" ;;
        check_go_segments rest
      else
        bail? str_contains (lit "...") segment
          with lit "'...' is only allowed as the final complete segment" ;;
        bail? negb (forallb (fun b => is_ascii_alphanumeric b || existsb (N.eqb b) (lit "_-."))
                      (as_bytes segment))
          with lit "package pattern contains invalid characters" ;;
        check_go_segments rest
  end.

Definition normalize_go_test_package (raw : str) : result str str :=
  bail? is_empty raw with lit "package pattern cannot be empty" ;;
  bail? Z.ltb GO_TEST_PACKAGE_MAX_BYTES (str_len raw) with lit "package pattern exceeds 256 bytes" ;;
  bail? negb (forallb (fun c => (c <? 128)%N) raw) with lit "package pattern must be ASCII" ;;
  bail? existsb (fun b => is_ascii_control_byte b || is_ascii_whitespace_byte b) (as_bytes raw)
    with lit "package pattern cannot contain whitespace or control characters" ;;
  bail? contains_char 92%N raw with lit "package pattern cannot contain backslashes" ;;
  if raw ==? lit "." then Ok raw
  else
    match strip_prefix (lit "./") raw with
    | None => Err (lit "package pattern must be '.' or start with './'")
    | Some rest =>
        bail? is_empty rest with lit "package pattern must name a package path" ;;
        check? check_go_segments (split_char 47%N rest) ;;
        Ok raw
    end.

Fixpoint normalize_all (packages : list str) : result (list str) str :=
  match packages with
  | [] => Ok []
  | p :: rest =>
      let? p' := normalize_go_test_package p in
      let? rest' := normalize_all rest in
      Ok (p' :: rest')
  end.

Definition normalize_go_test_packages (packages : option (list str)) : result (list str) str :=
  match packages with
  | None => Ok [lit "./..."]
  | Some packages =>
      bail? is_empty packages || Nat.ltb GO_TEST_PACKAGE_MAX_ITEMS (length packages)
        with lit "packages must contain between 1 and 8 items" ;;
      normalize_all packages
  end.

Definition is_canonical_go_test_json_args (args : list str) : bool :=
  match args with
  | a0 :: a1 :: ((_ :: _) as packages) =>
      if (a0 !=? lit "test") || (a1 !=? lit "-json") then false
      else match normalize_go_test_packages (Some packages) with
           | Ok normalized => normalized ==? packages
           | Err _ => false
           end
  | _ => false
  end.

(** ** Cargo argv *)

(** The flag loop with the set of flags already seen. *)
Fixpoint cargo_flags_loop (args : list str) (allow_no_run : bool) (seen : list str) : bool :=
  match args with
  | [] => true
  | arg :: rest =>
      if one_of arg [lit "--all-targets"; lit "--all-features"; lit "--no-default-features"]
         || ((arg ==? lit "--no-run") && allow_no_run)
      then if one_of arg seen then false else cargo_flags_loop rest allow_no_run (arg :: seen)
      else if one_of arg [lit "--features"; lit "-p"] then
        if one_of arg seen then false
        else match rest with
             | [] => false
             | value :: rest' =>
                 match normalize_cargo_value value with
                 | Ok (Some normalized) =>
                     if normalized ==? value then cargo_flags_loop rest' allow_no_run (arg :: seen)
                     else false
                 | _ => false
                 end
             end
      else false
  end.

Definition is_canonical_cargo_flags (args : list str) (allow_no_run : bool) : bool :=
  cargo_flags_loop args allow_no_run [].

Definition is_canonical_cargo_check_args (args : list str) : bool :=
  match args with
  | a :: rest => (a ==? lit "check") && is_canonical_cargo_flags rest false
  | [] => false
  end.

Definition is_canonical_cargo_test_args (args : list str) : bool :=
  match args with
  | a :: rest =>
      if a !=? lit "test" then false
      else
        let flags := match rest with
                     | filter :: rest' => if valid_rust_test_filter filter then rest' else rest
                     | [] => rest
                     end in
        is_canonical_cargo_flags flags true
  | [] => false
  end.

Definition node_script_allowed (kind script : str) : bool :=
  ((kind ==? lit "format") && one_of script [lit "format:check"; lit "format-check"; lit "check:format"])
  || ((kind ==? lit "check") && one_of script [lit "check"; lit "typecheck"; lit "lint"])
  || ((kind ==? lit "test") && one_of script [lit "test"]).

(** ** Steps and metadata *)

Definition is_structured_go_test_json (s : ShellJobValidationStep) : bool :=
  if (step_name s !=? lit "test") || (step_program s !=? lit "go") || negb (is_empty (step_env s))
  then false else is_canonical_go_test_json_args (step_args s).

Definition node_args_ok (kind : str) (args : list str) : bool :=
  match args with
  | [a0; a1; a2] => (a0 ==? lit "run") && (a1 ==? lit "--silent") && node_script_allowed kind a2
  | _ => false
  end.

Definition step_is_canonical (s : ShellJobValidationStep) : bool :=
  let args := step_args s in
  if existsb (fun arg => contains_char NUL arg || Z.ltb CARGO_VALUE_MAX_BYTES (str_len arg)) args then false
  else if negb (forallb (fun kv => (fst kv ==? lit "CARGO_TARGET_DIR") && negb (is_empty (snd kv))
                                   && negb (contains_char NUL (snd kv)) && Z.leb (str_len (snd kv)) 500)
                  (step_env s)) then false
  else
    let named n p := (step_name s ==? n) && (step_program s ==? p) in
    if named (lit "format") (lit "cargo") then args ==? [lit "fmt"; lit "--"; lit "--check"]
    else if named (lit "check") (lit "cargo") then is_canonical_cargo_check_args args
    else if named (lit "test") (lit "cargo") then is_canonical_cargo_test_args args
    else if named (lit "check") (lit "go") then args ==? [lit "vet"; lit "./..."]
    else if named (lit "test") (lit "go") then
      (args ==? [lit "test"; lit "./..."]) || is_structured_go_test_json s
    else if named (lit "format") (lit "python") then
      (args ==? [lit "-m"; lit "ruff"; lit "format"; lit "--check"])
      || (args ==? [lit "-m"; lit "black"; lit "--check"])
    else if named (lit "check") (lit "python") then
      (args ==? [lit "-m"; lit "ruff"; lit "check"]) || (args ==? [lit "-m"; lit "mypy"])
    else if named (lit "test") (lit "python") then
      (args ==? [lit "-m"; lit "pytest"])
      || (args ==? [lit "-B"; lit "-m"; lit "unittest"; lit "discover"; lit "-v"])
    else if one_of (step_program s) [lit "npm"; lit "pnpm"; lit "yarn"; lit "bun"]
    then node_args_ok (step_name s) args
    else false.

Definition hex24 (suffix : str) : bool :=
  Z.eqb (str_len suffix) 24 && forallb is_ascii_hexdigit (as_bytes suffix).

Definition validation_is_valid (v : ShellJobValidationMetadata) : bool :=
  match val_steps v with
  | [step] =>
      if (val_adapter v !=? val_tool v)
         || negb (step_is_canonical step)
         || Z.ltb (val_effective_timeout_secs v) 1
         || Z.ltb (val_effective_timeout_secs v) (val_sync_wait_secs v)
         || is_some_and (fun value => negb (is_some_and hex24 (strip_prefix (lit "target:") value)))
              (val_validation_target_id v)
         || is_some_and (fun m => negb (Z.leb 1 m && Z.leb m CARGO_TEST_MIN_TESTS_MAX)) (val_minimum_tests v)
      then false
      else if is_some (val_minimum_tests v) && (val_tool v !=? lit "cargo_test") then false
      else if (is_some (val_require_tests v) || is_some (val_no_run v)) && (val_tool v !=? lit "cargo_test")
      then false
      else if (val_no_run v ==? Some true) && is_some (val_minimum_tests v) then false
      else if (val_require_tests v ==? Some true)
              && (is_none (val_minimum_tests v) || (val_no_run v ==? Some true)) then false
      else if val_tool v ==? lit "cargo_fmt" then
        (val_kind v ==? lit "format") && (step_name step ==? lit "format") && (step_program step ==? lit "cargo")
      else if val_tool v ==? lit "cargo_check" then
        (val_kind v ==? lit "check") && (step_name step ==? lit "check") && (step_program step ==? lit "cargo")
      else if val_tool v ==? lit "cargo_test" then
        (val_kind v ==? lit "test") && (step_name step ==? lit "test") && (step_program step ==? lit "cargo")
      else if val_tool v ==? lit "go_test" then
        (val_kind v ==? lit "test") && is_structured_go_test_json step
      else false
  | _ => false
  end.

Definition structured_is_valid (m : ShellJobStructuredExecutionMetadata) : bool :=
  let identity := validation_identity m in
  let process_or_script := one_of (execution_source m) [lit "run_process"; lit "run_script"] in
  let identity_valid := is_none_or (fun value =>
    is_some_and hex24 (or_else (strip_prefix (lit "target:") value)
                         (or_else (strip_prefix (lit "command:") value)
                            (strip_prefix (lit "assertion:") value)))) identity in
  let assertion_identity_source_valid := is_none_or (fun value =>
    negb (starts_with (lit "assertion:") value) || process_or_script) identity in
  let validation_tool_valid := match validation_tool m with
    | None => true
    | Some tool => one_of tool [lit "cargo_fmt"; lit "cargo_check"; lit "cargo_test"]
        && is_some_and (fun value => starts_with (lit "target:") value
                                     || starts_with (lit "assertion:") value) identity
    end in
  let assertion_name_valid := is_none_or (fun value =>
    let trimmed := trim value in
    (value ==? trimmed) && negb (is_empty trimmed)
    && Nat.leb (length trimmed) VALIDATION_ASSERTION_NAME_MAX_CHARS
    && negb (existsb is_control trimmed)
    && is_some_and (fun value => starts_with (lit "assertion:") value) identity
    && process_or_script) (assertion_name m) in
  if negb identity_valid || negb assertion_identity_source_valid || negb validation_tool_valid
     || negb assertion_name_valid then false
  else if one_of (execution_source m) [lit "run_process"; lit "run_detached_process"] then
    is_none (language m) && is_none (script_bytes m) && Z.leb (arg_count m) PROCESS_ARG_MAX_COUNT
  else if execution_source m ==? lit "run_script" then
    is_some (language m)
    && is_some_and (fun b => Z.leb SCRIPT_MIN_BYTES b && Z.leb b SCRIPT_MAX_BYTES) (script_bytes m)
    && Z.leb (arg_count m) SCRIPT_ARG_MAX_COUNT
  else false.

(** ** No smuggled options *)

(** Everything a canonical step may pass that looks like an option. *)
Definition allowed_options : list str :=
  [lit "--"; lit "--check"; lit "--all-targets"; lit "--all-features"; lit "--no-default-features";
   lit "--no-run"; lit "--features"; lit "-p"; lit "-json"; lit "-m"; lit "-B"; lit "-v"; lit "--silent"].

Definition options_allowed (args : list str) : Prop :=
  Forall (fun a => starts_with_dash a = true -> a ∈ allowed_options) args.

Definition options_allowed_b (args : list str) : bool :=
  forallb (fun a => negb (starts_with_dash a) || one_of a allowed_options) args.

Lemma options_allowed_check (args : list str) : options_allowed_b args = true -> options_allowed args.
Proof.
  unfold options_allowed_b. rewrite forallb_Forall. intros H. eapply Forall_impl; [exact H | ].
  intros a Ha Hd. simpl in Ha. rewrite Hd in Ha. by apply one_of_spec.
Qed.

Lemma trimmed_value_no_dash (v t : str) :
  trim v = t -> t <> [] -> starts_with_dash t = false -> starts_with_dash v = false.
Proof.
  intros <- Hne Hd. destruct v as [|c v]; [done | ]. cbn. destruct (N.eqb_spec c DASH) as [->|]; [ | done].
  unfold trim in Hd. rewrite trim_start_plain in Hd by done.
  rewrite trim_end_cons_plain in Hd by done. by cbn in Hd.
Qed.

Lemma cargo_value_no_dash (v n : str) :
  normalize_cargo_value v = Ok (Some n) -> starts_with_dash v = false.
Proof.
  unfold normalize_cargo_value. destruct (contains_char NUL v); [done | ].
  destruct (trim v) as [|c t] eqn:Et; [done | ]. cbn [is_empty].
  destruct (existsb is_control (c :: t)); [done | ].
  destruct (starts_with_dash (c :: t)) eqn:Ed; [done | ]. intros _.
  by eapply trimmed_value_no_dash.
Qed.

Lemma rust_filter_no_dash (v : str) : valid_rust_test_filter v = true -> starts_with_dash v = false.
Proof.
  unfold valid_rust_test_filter, normalize_rust_test_filter.
  destruct (Z.ltb _ _); [done | ]. destruct (contains_char NUL v); [done | ].
  destruct (trim v) as [|c t] eqn:Et; [done | ]. cbn [is_empty].
  destruct (existsb is_control (c :: t)); [done | ].
  destruct (starts_with_dash (c :: t)) eqn:Ed; [done | ]. intros _.
  by eapply trimmed_value_no_dash.
Qed.

Lemma cargo_flags_allowed (n : nat) (args : list str) (allow : bool) (seen : list str) :
  length args <= n -> cargo_flags_loop args allow seen = true -> options_allowed args.
Proof.
  revert args seen. induction n as [|n IH]; intros [|arg rest] seen Hlen H; try by constructor.
  { simpl in Hlen. lia. }
  cbn [cargo_flags_loop] in H. simpl in Hlen.
  destruct (one_of arg _ || _) eqn:Ek.
  - destruct (one_of arg seen); [done | ]. constructor; [ | eapply IH; [lia | exact H]].
    intros _. apply orb_true_iff in Ek as [Ek|Ek].
    + apply one_of_spec in Ek. unfold allowed_options. set_solver.
    + split_andb. subst. unfold allowed_options. set_solver.
  - destruct (one_of arg [lit "--features"; lit "-p"]) eqn:Ev; [ | done].
    destruct (one_of arg seen); [done | ]. destruct rest as [|value rest]; [done | ].
    destruct (normalize_cargo_value value) as [[v|]|] eqn:En; try done.
    destruct (v ==? value); [ | done]. constructor.
    { intros _. apply one_of_spec in Ev. unfold allowed_options. set_solver. }
    constructor; [ | eapply IH; [simpl in Hlen; lia | exact H]].
    apply cargo_value_no_dash in En. congruence.
Qed.

Lemma cargo_test_allowed (args : list str) : is_canonical_cargo_test_args args = true -> options_allowed args.
Proof.
  unfold is_canonical_cargo_test_args, is_canonical_cargo_flags. destruct args as [|a rest]; [done | ].
  destruct (a !=? lit "test") eqn:Ea; [done | ]. split_andb. subst. intros H. constructor; [done | ].
  destruct rest as [|f rest]; [constructor | ]. destruct (valid_rust_test_filter f) eqn:Ef.
  - constructor; [apply rust_filter_no_dash in Ef; congruence | by eapply cargo_flags_allowed].
  - by eapply cargo_flags_allowed.
Qed.

Lemma go_package_no_dash (p q : str) : normalize_go_test_package p = Ok q -> starts_with_dash p = false.
Proof.
  unfold normalize_go_test_package. intros H. step_guards H.
  destruct (p ==? lit ".") eqn:Ep; [by apply beq_true in Ep as -> | ].
  destruct (strip_prefix (lit "./") p) as [r|] eqn:Er; [ | done].
  apply strip_prefix_spec in Er as ->. done.
Qed.

Lemma go_json_allowed (args : list str) : is_canonical_go_test_json_args args = true -> options_allowed args.
Proof.
  destruct args as [|a0 [|a1 packages]]; [done | done | ]. unfold is_canonical_go_test_json_args.
  destruct packages as [|p ps]; [done | ]. generalize (p :: ps) as packages. clear p ps. intros packages.
  destruct (_ || _) eqn:E; [done | ]. split_andb. subst.
  unfold normalize_go_test_packages. destruct (_ || _); [done | ]. intros H.
  constructor; [done | ]. constructor; [intros _; unfold allowed_options; set_solver | ].
  destruct (normalize_all packages) as [ns|] eqn:En; [ | done]. clear H. revert ns En.
  induction packages as [|p ps IH]; intros ns En; [constructor | ]. cbn in En.
  destruct (normalize_go_test_package p) eqn:Ep; [ | done]. cbn in En.
  destruct (normalize_all ps) as [ns'|]; [ | done]. constructor; [ | by eapply IH].
  apply go_package_no_dash in Ep. congruence.
Qed.

Lemma node_allowed (kind : str) (args : list str) : node_args_ok kind args = true -> options_allowed args.
Proof.
  unfold node_args_ok. destruct args as [|a0 [|a1 [|a2 [|? ?]]]]; try done. intros H. split_andb. subst.
  apply options_allowed_check. cbn -[starts_with_dash one_of lit].
  replace (negb (starts_with_dash a2)) with true; [done | ]. unfold node_script_allowed in H0.
  rewrite !orb_true_iff, !andb_true_iff, !one_of_spec, !beq_eq in H0.
  symmetry. apply negb_true_iff.
  rewrite !elem_of_cons, !elem_of_nil in H0. by naive_solver.
Qed.

Ltac fixed_argv H := apply beq_true in H; rewrite H; by apply options_allowed_check.

(** A canonical validation step cannot smuggle an option or an environment
    variable: it runs one of seven known programs, every argument that starts
    with a dash is one of thirteen fixed options, no argument has a NUL byte or
    more than 500 bytes, and the only environment variable is CARGO_TARGET_DIR. *)
Lemma canonical_step_safe (s : ShellJobValidationStep) :
  step_is_canonical s = true ->
  step_program s ∈ [lit "cargo"; lit "go"; lit "python"; lit "npm"; lit "pnpm"; lit "yarn"; lit "bun"]
  /\ options_allowed (step_args s)
  /\ Forall (fun a => (NUL ∉ a) /\ (str_len a <= CARGO_VALUE_MAX_BYTES)%Z) (step_args s)
  /\ Forall (fun kv => fst kv = lit "CARGO_TARGET_DIR") (step_env s).
Proof.
  unfold step_is_canonical. cbn zeta. destruct (existsb _ (step_args s)) eqn:Ea; [done | ].
  destruct (negb (forallb _ (step_env s))) eqn:Ee; [done | ]. intros H.
  assert (Hargs : Forall (fun a => (NUL ∉ a) /\ (str_len a <= CARGO_VALUE_MAX_BYTES)%Z) (step_args s)).
  { apply Forall_forall. intros a Hin. apply not_true_iff_false in Ea. split.
    - intros Hn. apply Ea, existsb_exists. exists a. split; [by apply list_elem_of_In | ].
      apply orb_true_iff. left. by apply contains_char_spec.
    - apply Z.nlt_ge. intros Hn. apply Ea, existsb_exists. exists a. split; [by apply list_elem_of_In | ].
      apply orb_true_iff. right. by apply Z.ltb_lt. }
  assert (Henv : Forall (fun kv => fst kv = lit "CARGO_TARGET_DIR") (step_env s)).
  { apply negb_false_iff, forallb_Forall in Ee. eapply Forall_impl; [exact Ee | ].
    intros kv Hkv. simpl in Hkv. by split_andb. }
  repeat match type of H with
  | (if ?b then _ else _) = true => let E := fresh "Ecase" in destruct b eqn:E
  end; try discriminate H; (split; [ | split; [ | by split]]).
  all: try (match goal with |- step_program _ ∈ _ =>
              split_andb; match goal with H : step_program _ = _ |- _ => rewrite H; set_solver end end).
  all: try (apply beq_true in H; rewrite H; by apply options_allowed_check).
  all: try (apply orb_true_iff in H as [H|H]; fixed_argv H).
  - unfold is_canonical_cargo_check_args, is_canonical_cargo_flags in H.
    destruct (step_args s) as [|a rest]; [done | ]. split_andb. subst.
    constructor; [done | by eapply cargo_flags_allowed].
  - by apply cargo_test_allowed.
  - apply orb_true_iff in H as [H|H]; [fixed_argv H | ].
    unfold is_structured_go_test_json in H. destruct (_ || _); [done | ]. by apply go_json_allowed.
  - apply one_of_spec in Ecase7. revert Ecase7. set_solver.
  - by eapply node_allowed.
Qed.

Lemma canonical_step_safe_witness :
  let s := mkStep (lit "test") (lit "cargo") [lit "test"; lit "my::filter"; lit "-p"; lit "core"; lit "--no-run"]
             [(lit "CARGO_TARGET_DIR", lit "/tmp/t")] in
  step_program s ∈ [lit "cargo"; lit "go"; lit "python"; lit "npm"; lit "pnpm"; lit "yarn"; lit "bun"]
  /\ options_allowed (step_args s)
  /\ Forall (fun a => (NUL ∉ a) /\ (str_len a <= CARGO_VALUE_MAX_BYTES)%Z) (step_args s)
  /\ Forall (fun kv => fst kv = lit "CARGO_TARGET_DIR") (step_env s).
Proof.
  apply (canonical_step_safe (mkStep (lit "test") (lit "cargo")
    [lit "test"; lit "my::filter"; lit "-p"; lit "core"; lit "--no-run"]
    [(lit "CARGO_TARGET_DIR", lit "/tmp/t")])).
  vm_compute. reflexivity.
Defined.
