(* ===== verification/InventoryCheck.v ===== *)
(** * InventoryCheck: crates/webcodex-runner-registry/src/reconciliation.rs,
    admission of a Runner's Job inventory

    The validation a register-time inventory passes before it may change the
    registry, with the id checks of validation.rs.  The serialised size of an
    inventory (serde_json) is a parameter. *)
From S2P Require Import Prelude RustStr Lifecycle Policy JobLog Capabilities RegistryState JobState ValidationSteps.

Definition MAX_CLIENT_ID_LEN : Z := 80.
Definition MAX_AGENT_INSTANCE_ID_LEN : Z := 128.
Definition MAX_CONTEXT_FIELD_CHARS : nat := 1024.
Definition MAX_SNAPSHOT_ERROR_CHARS : nat := 4096.
Definition JOB_INVENTORY_MAX_SERIALIZED_BYTES : Z := 1024 * 1024.
Definition SESSION_ID_PREFIX : str := lit "wc_sess_".

Definition validate_id (value field : str) : result unit str :=
  bail? is_empty value || Z.ltb MAX_CLIENT_ID_LEN (str_len value)
    with field ++ lit " must be 1..=" ++ fmt_Z MAX_CLIENT_ID_LEN ++ lit " characters" ;;
  bail? negb (forallb (fun c => is_ascii_alphanumeric c || existsb (N.eqb c) (lit "-_.")) value)
    with field ++ lit " may only contain ASCII letters, digits, '-', '_', and '.'" ;;
  Ok tt.

Definition validate_runner_instance_id (value : str) : result unit str :=
  bail? is_empty value with lit "agent_instance_id must not be empty" ;;
  bail? Z.ltb MAX_AGENT_INSTANCE_ID_LEN (str_len value)
    with lit "agent_instance_id is too long; maximum is " ++ fmt_Z MAX_AGENT_INSTANCE_ID_LEN
         ++ lit " characters" ;;
  bail? negb (forallb (fun c => is_ascii_alphanumeric c || existsb (N.eqb c) (lit "-_")) value)
    with lit "agent_instance_id may only contain ASCII letters, digits, '-', and '_'" ;;
  Ok tt.

Definition is_valid_session_id (sid : str) : bool :=
  starts_with SESSION_ID_PREFIX sid && Z.ltb (str_len SESSION_ID_PREFIX) (str_len sid)
  && forallb (fun b => is_ascii_alphanumeric b || N.eqb b 95) (as_bytes sid).

Definition valid_bounded_text (value : str) (max_chars : nat) : bool :=
  negb (contains_char NUL value) && Nat.leb (length value) max_chars.

(** The fields of a project summary the inventory looks at. *)
Record ProjectRef : Type := mkProjectRef { pr_id : str; pr_disabled : bool }.

Definition check_context_text (name : str) (value : option str) : result unit str :=
  bail? is_some_and (fun v => negb (valid_bounded_text v MAX_CONTEXT_FIELD_CHARS)) value
    with lit "job inventory " ++ name ++ lit " is invalid or oversized" ;;
  Ok tt.

Definition PURPOSES : list str :=
  [lit "validation"; lit "test"; lit "build"; lit "format"; lit "release"; lit "diagnostic";
   lit "operation"; lit "other"].
Definition SHELLS : list str :=
  [lit "sh"; lit "bash"; lit "powershell"; lit "javascript"; lit "typescript"; lit "direct_argv";
   lit "configured"; lit "custom"; lit "remote"].

(** [iter().collect::<HashSet<_>>().len() == len()]. *)
Definition all_distinct (l : list str) : bool := bool_decide (NoDup l).

Definition check_runtime_project (cid : str) (projects : list ProjectRef)
  (require_project_membership : bool) (context : ShellJobContext) : result unit str :=
  match runtime_project_id context with
  | None => Ok tt
  | Some rpid =>
      let? pid := ok_or (opt_filter (fun p => negb (is_empty p))
                           (strip_prefix (lit "agent:" ++ cid ++ lit ":") rpid))
                    (lit "job inventory runtime_project_id does not belong to client_id") in
      check? validate_id pid (lit "project_id") ;;
      bail? require_project_membership
            && negb (existsb (fun p => negb (pr_disabled p) && (pr_id p ==? pid)) projects)
        with lit "job inventory runtime_project_id is not registered by this runner" ;;
      Ok tt
  end.

Definition validate_context (cid : str) (projects : list ProjectRef) (require_project_membership : bool)
  (snapshot : ShellJobSnapshot) : result unit str :=
  let context := snap_context snapshot in
  let preview := ctx_command_preview context in
  bail? (Preview.command_preview preview !=? preview)
        || Nat.ltb (Preview.COMMAND_PREVIEW_MAX_CHARS + 1) (length preview)
    with lit "job inventory command_preview is not canonical and bounded" ;;
  check? check_context_text (lit "project_cwd") (ctx_project_cwd context) ;;
  check? check_context_text (lit "cwd") (ctx_cwd context) ;;
  check? check_context_text (lit "purpose") (ctx_purpose context) ;;
  check? check_context_text (lit "shell") (ctx_shell context) ;;
  bail? is_some_and (fun p => negb (one_of p PURPOSES)) (ctx_purpose context)
    with lit "job inventory purpose is invalid" ;;
  bail? is_some_and (fun s => negb (one_of s SHELLS)) (ctx_shell context)
    with lit "job inventory shell is invalid" ;;
  let steps := ctx_validation_steps context in
  bail? Nat.ltb 3 (length steps) || negb (all_distinct steps)
        || existsb (fun s => negb (one_of s [lit "format"; lit "check"; lit "test"])) steps
    with lit "job inventory validation_steps are invalid" ;;
  bail? is_some_and (fun v => negb (validation_is_valid v) || (map step_name (val_steps v) !=? steps))
          (ctx_validation context)
    with lit "job inventory validation metadata is invalid" ;;
  bail? is_some_and (fun m => negb (structured_is_valid m)) (ctx_structured_execution context)
        || (is_some (ctx_structured_execution context)
            && (negb (is_empty steps) || is_some (ctx_validation context)))
    with lit "job inventory structured execution metadata is invalid" ;;
  bail? is_some_and (fun s => negb (is_valid_session_id s) || Nat.ltb 128 (length s))
          (workflow_session_id context)
    with lit "job inventory workflow_session_id is invalid" ;;
  bail? is_some (workflow_session_id context) && is_none (runtime_project_id context)
    with lit "job inventory workflow_session_id requires runtime_project_id" ;;
  check_runtime_project cid projects require_project_membership context.

(** ** One snapshot *)

Definition check_times (s : ShellJobSnapshot) (l : RunnerJobLifecycle) : result unit str :=
  let active := is_runner_active l in
  let terminal := is_terminal l in
  bail? Z.leb (snap_created_at s) 0
        || is_some_and (fun started => Z.ltb started (snap_created_at s)) (snap_started_at s)
        || is_some_and (fun ended => Z.ltb ended (unwrap_or (snap_created_at s) (snap_started_at s)))
             (snap_ended_at s)
    with lit "job inventory timestamps are inconsistent" ;;
  bail? active && is_some (snap_ended_at s)
    with lit "active job inventory snapshot must not have ended_at" ;;
  bail? active && (is_some (snap_exit_code s) || is_some (snap_duration_ms s))
    with lit "active job inventory snapshot must not contain terminal result fields" ;;
  bail? terminal && is_none (snap_ended_at s)
    with lit "terminal job inventory snapshot requires ended_at" ;;
  bail? (l ==? Completed) && (snap_exit_code s !=? Some 0%Z)
    with lit "completed job inventory snapshot requires exit_code=0" ;;
  bail? ((l ==? Running) || (l ==? StopRequested)) && is_none (snap_started_at s)
    with lit "running job inventory snapshot requires started_at" ;;
  Ok tt.

(** The lifecycle values a command's own outcome may go with. *)
Definition execution_state_fits (state : ShellCommandExecutionState) (l : RunnerJobLifecycle)
  (started : bool) : bool :=
  match state with
  | NotStarted => negb started && match l with Failed | Stopped | Cancelled | Lost => true | _ => false end
  | OutcomeUnknown => match l with Failed | Lost => true | _ => false end
  | CommandTimedOut => match l with Timeout | TimedOut => true | _ => false end
  | CommandCompleted => match l with Completed | Failed | Stopped | Cancelled => true | _ => false end
  end.

Definition check_execution_state (s : ShellJobSnapshot) (l : RunnerJobLifecycle) : result unit str :=
  bail? is_some_and (fun e => negb (valid_bounded_text e MAX_SNAPSHOT_ERROR_CHARS)) (snap_error s)
    with lit "job inventory error is invalid or oversized" ;;
  bail? is_runner_active l && is_some (snap_command_execution_state s)
    with lit "active job inventory snapshot must not contain terminal lifecycle" ;;
  bail? is_some (ctx_structured_execution (snap_context s)) && is_terminal l
        && is_none (snap_command_execution_state s)
    with lit "terminal structured job inventory snapshot requires command_execution_state" ;;
  bail? is_some_and (fun state => negb (execution_state_fits state l (is_some (snap_started_at s))))
          (snap_command_execution_state s)
    with lit "job inventory command_execution_state is inconsistent" ;;
  Ok tt.

Definition progress_matches (l : RunnerJobLifecycle) (steps : list str)
  (progress : option ShellJobValidationProgress) : bool :=
  match l with
  | RunnerQueued => is_none progress
  | Running | StopRequested =>
      is_some_and (fun p => Nat.ltb (completed p) (length steps)
                            && (current_step p ==? steps !! completed p) && is_none (failed_step p)) progress
  | Completed =>
      is_some_and (fun p => Nat.eqb (completed p) (length steps)
                            && is_none (current_step p) && is_none (failed_step p)) progress
  | Failed =>
      is_none_or (fun p => is_none (current_step p)
                           && is_none_or (fun failed => Nat.ltb (completed p) (length steps)
                                                        && (steps !! completed p ==? Some failed))
                                (failed_step p)) progress
  | Stopped | Timeout | TimedOut | Cancelled | Lost =>
      is_none_or (fun p => is_none (current_step p) && is_none (failed_step p)) progress
  | _ => false
  end.

Definition check_progress (s : ShellJobSnapshot) (l : RunnerJobLifecycle) : result unit str :=
  let steps := ctx_validation_steps (snap_context s) in
  let unknown_step := is_some_and (fun step => negb (one_of step steps)) in
  bail? is_empty steps && is_some (snap_validation_progress s)
    with lit "job inventory validation_progress is unexpected" ;;
  bail? is_some_and (fun p => Nat.ltb (length steps) (completed p)
                              || unknown_step (current_step p) || unknown_step (failed_step p)
                              || (is_some (current_step p) && is_some (failed_step p)))
          (snap_validation_progress s)
    with lit "job inventory validation_progress is inconsistent" ;;
  bail? negb (is_empty steps) && negb (progress_matches l steps (snap_validation_progress s))
    with lit "job inventory validation_progress does not match status" ;;
  Ok tt.

Definition validation_activity_phase (step : str) : option ShellJobActivityPhase :=
  if step ==? lit "format" then Some ValidationFormat
  else if step ==? lit "check" then Some ValidationCheck
  else if step ==? lit "test" then Some ValidationTest
  else None.

(** Whether the step a plan is at is a canonical Cargo step. *)
Definition cargo_step_at (v : ShellJobValidationMetadata) (at_ : nat) : bool :=
  is_some_and (fun step => (step_program step ==? lit "cargo") && step_is_canonical step) (val_steps v !! at_).

Definition check_activity (s : ShellJobSnapshot) (l : RunnerJobLifecycle) : result unit str :=
  match snap_activity s with
  | None => Ok tt
  | Some a =>
      let steps := ctx_validation_steps (snap_context s) in
      bail? negb (activity_is_canonical a) || negb ((l ==? Running) || (l ==? StopRequested))
        with lit "job inventory activity is invalid for status" ;;
      match act_source a with
      | RunnerExecution =>
          bail? negb (is_empty steps) || (act_phase a !=? ProcessRunning)
            with lit "job inventory activity is inconsistent with execution kind" ;;
          Ok tt
      | ValidationPlan =>
          let expected := (snap_validation_progress s ≫= current_step) ≫= validation_activity_phase in
          bail? expected !=? Some (act_phase a)
            with lit "job inventory activity is inconsistent with validation progress" ;;
          Ok tt
      | CargoOutput =>
          match snap_validation_progress s with
          | None => Err (lit "job inventory Cargo activity requires validation progress")
          | Some p =>
              bail? is_none (current_step p) || is_empty steps
                with lit "job inventory Cargo activity requires an active validation step" ;;
              bail? is_some_and (fun v => negb (cargo_step_at v (completed p))) (ctx_validation (snap_context s))
                with lit "job inventory Cargo activity is inconsistent with validation metadata" ;;
              Ok tt
          end
      end
  end.

Definition validate_snapshot (cid : str) (projects : list ProjectRef) (require_project_membership : bool)
  (s : ShellJobSnapshot) : result bool str :=
  check? validate_id (snap_job_id s) (lit "job_id") ;;
  check? validate_id (snap_request_id s) (lit "request_id") ;;
  bail? Z.eqb (snap_update_seq s) 0 with lit "job inventory update_seq must be greater than zero" ;;
  let invalid_status := lit "job inventory status '" ++ snap_status s ++ lit "' is invalid" in
  let? l := map_err (fun _ => invalid_status) (parse_job_lifecycle (snap_status s)) in
  bail? negb (is_runner_active l) && negb (is_terminal l) with invalid_status ;;
  check? check_times s l ;;
  check? check_execution_state s l ;;
  check? validate_context cid projects require_project_membership s ;;
  check? validate_stream_snapshot (snap_stdout s) (lit "stdout") ;;
  check? validate_stream_snapshot (snap_stderr s) (lit "stderr") ;;
  check? check_progress s l ;;
  check? check_activity s l ;;
  Ok (is_runner_active l).

(** ** The inventory *)

Record InventoryScan : Type := mkScanState {
  scan_ids : list str;
  scan_request_ids : list str;
  scan_active : nat;
  scan_terminal : nat;
  scan_saw_terminal : bool
}.

Fixpoint scan_inventory (cid : str) (projects : list ProjectRef) (membership : bool)
  (jobs : list ShellJobSnapshot) (st : InventoryScan) : result InventoryScan str :=
  match jobs with
  | [] => Ok st
  | s :: rest =>
      bail? one_of (snap_job_id s) (scan_ids st)
        with lit "job inventory contains duplicate job_id " ++ snap_job_id s ;;
      bail? one_of (snap_request_id s) (scan_request_ids st)
        with lit "job inventory contains duplicate request_id " ++ snap_request_id s ;;
      let? active := validate_snapshot cid projects membership s in
      let ids := snap_job_id s :: scan_ids st in
      let rids := snap_request_id s :: scan_request_ids st in
      if active then
        bail? scan_saw_terminal st
          with lit "job inventory must order all active jobs before terminal history" ;;
        scan_inventory cid projects membership rest
          (mkScanState ids rids (S (scan_active st)) (scan_terminal st) (scan_saw_terminal st))
      else
        scan_inventory cid projects membership rest
          (mkScanState ids rids (scan_active st) (S (scan_terminal st)) true)
  end.

Section Serialisation.
Context (serialized_len : ShellJobInventory -> result Z str).

Definition validate_job_inventory_inner (cid : str) (projects : list ProjectRef) (membership : bool)
  (inventory : ShellJobInventory) : result unit str :=
  bail? negb (active_complete inventory)
    with lit "job_state_reconciliation requires active_complete job inventory" ;;
  bail? Nat.ltb JOB_INVENTORY_MAX_JOBS (length (inv_jobs inventory))
    with lit "job inventory exceeds " ++ fmt_nat JOB_INVENTORY_MAX_JOBS ++ lit " records" ;;
  let? len := map_err (fun e => lit "could not serialize job inventory: " ++ e) (serialized_len inventory) in
  bail? Z.ltb JOB_INVENTORY_MAX_SERIALIZED_BYTES len
    with lit "job inventory exceeds " ++ fmt_Z JOB_INVENTORY_MAX_SERIALIZED_BYTES ++ lit " serialized bytes" ;;
  let? st := scan_inventory cid projects membership (inv_jobs inventory) (mkScanState [] [] 0 0 false) in
  bail? Nat.ltb JOB_INVENTORY_MAX_ACTIVE_JOBS (scan_active st)
    with lit "job inventory exceeds " ++ fmt_nat JOB_INVENTORY_MAX_ACTIVE_JOBS ++ lit " active records" ;;
  bail? Nat.ltb JOB_INVENTORY_MAX_TERMINAL_JOBS (scan_terminal st)
    with lit "job inventory exceeds " ++ fmt_nat JOB_INVENTORY_MAX_TERMINAL_JOBS ++ lit " terminal records" ;;
  Ok tt.

Definition validate_job_inventory_without_project_membership (cid : str) (inventory : ShellJobInventory)
  : result unit str := validate_job_inventory_inner cid [] false inventory.

End Serialisation.

(** ** What an accepted inventory looks like *)

Definition snapshot_lifecycle (s : ShellJobSnapshot) (l : RunnerJobLifecycle) : Prop :=
  from_wire (snap_status s) = Ok l.

(** A bounded stream whose line range covers its text. *)
Definition stream_ok (st : ShellJobStreamSnapshot) : Prop :=
  (str_len (ss_tail st) <= JOB_SNAPSHOT_STREAM_MAX_BYTES)%Z
  /\ ss_first_retained_line st <> 0%Z
  /\ ss_next_line st = usize_sat_add (ss_first_retained_line st) (retained_line_count (ss_tail st))
  /\ ((1 < ss_first_retained_line st)%Z -> ss_truncated st = true).

(** An accepted snapshot: a Runner-owned or terminal status, a non-zero sequence
    number, an end exactly when terminal, exit code zero when completed, and
    consistent bounded logs. *)
Definition snapshot_ok (s : ShellJobSnapshot) (active : bool) : Prop :=
  exists l, snapshot_lifecycle s l
    /\ is_runner_active l = active /\ is_terminal l = negb active
    /\ snap_update_seq s <> 0%Z
    /\ is_some (snap_ended_at s) = is_terminal l
    /\ (l = Completed -> snap_exit_code s = Some 0%Z)
    /\ stream_ok (snap_stdout s) /\ stream_ok (snap_stderr s).

Lemma validate_stream_ok (st : ShellJobStreamSnapshot) (field : str) :
  validate_stream_snapshot st field = Ok tt -> stream_ok st.
Proof.
  unfold validate_stream_snapshot. intros H. step_guards H. split_andb.
  apply Z.ltb_ge in Hguard. apply Z.eqb_neq in H0. apply Z.eqb_eq in H1.
  apply andb_false_iff in Hguard1. split_and!; try done.
  intros Hlt. apply Z.ltb_lt in Hlt. destruct Hguard1 as [Hg|Hg]; [congruence | by apply negb_false_iff].
Qed.

Lemma active_not_terminal (l : RunnerJobLifecycle) : is_runner_active l = true -> is_terminal l = false.
Proof. by destruct l. Qed.

Lemma check_times_ok (s : ShellJobSnapshot) (l : RunnerJobLifecycle) :
  check_times s l = Ok tt ->
  (is_terminal l = negb (is_runner_active l) -> is_some (snap_ended_at s) = negb (is_runner_active l))
  /\ (l = Completed -> snap_exit_code s = Some 0%Z).
Proof.
  unfold check_times, is_none. intros H. step_guards H.
  apply andb_false_iff in Hguard0, Hguard2, Hguard3. split.
  - intros Ht. rewrite Ht in Hguard2. destruct (is_runner_active l); simpl in *; [by destruct Hguard0 | ].
    destruct Hguard2 as [?|Hg]; [done | by apply negb_false_iff in Hg].
  - intros ->. destruct Hguard3 as [Hg|Hg]; [by apply beq_false in Hg | ].
    apply negb_false_iff in Hg. by apply beq_true in Hg.
Qed.

Lemma validate_snapshot_ok cid projects membership s active :
  validate_snapshot cid projects membership s = Ok active -> snapshot_ok s active.
Proof.
  unfold validate_snapshot. intros H. step_guards H.
  rename Hguard into Hseq, value1 into l. injection H as <-.
  destruct (parse_job_lifecycle (snap_status s)) as [l'|] eqn:El; [ | done]. injection Hstep1 as ->.
  exists l. split; [done | ]. split; [done | ].
  assert (Hterm : is_terminal l = negb (is_runner_active l)).
  { destruct (is_runner_active l) eqn:Ea; [by rewrite active_not_terminal | ].
    apply andb_false_iff in Hguard0. destruct Hguard0 as [?|Hg]; [done | by apply negb_false_iff]. }
  split; [done | ]. split; [by apply Z.eqb_neq | ].
  destruct value2, value5, value6. apply check_times_ok in Hstep2 as [Hended Hcode].
  split; [by rewrite Hterm in *; apply Hended | ]. split; [done | ].
  split; by eapply validate_stream_ok.
Qed.

Definition ids_of (jobs : list ShellJobSnapshot) : list str := map snap_job_id jobs.
Definition request_ids_of (jobs : list ShellJobSnapshot) : list str := map snap_request_id jobs.

Lemma scan_inventory_spec cid projects membership jobs st st' :
  scan_inventory cid projects membership jobs st = Ok st' ->
  NoDup (scan_ids st) -> NoDup (scan_request_ids st) ->
  exists active terminal, jobs = active ++ terminal
    /\ Forall (fun s => snapshot_ok s true) active /\ Forall (fun s => snapshot_ok s false) terminal
    /\ (scan_saw_terminal st = true -> active = [])
    /\ scan_active st' = scan_active st + length active
    /\ scan_terminal st' = scan_terminal st + length terminal
    /\ NoDup (ids_of jobs ++ scan_ids st) /\ NoDup (request_ids_of jobs ++ scan_request_ids st).
Proof.
  revert st. induction jobs as [|s jobs IH]; intros st H Hn1 Hn2; cbn [scan_inventory] in H.
  - injection H as <-. exists [], []. cbn. split_and!; try done; lia.
  - destruct (one_of (snap_job_id s) (scan_ids st)) eqn:E1; [done | ].
    destruct (one_of (snap_request_id s) (scan_request_ids st)) eqn:E2; [done | ].
    destruct (validate_snapshot cid projects membership s) as [active|] eqn:Ev; [ | done]. cbn in H.
    apply validate_snapshot_ok in Ev.
    assert (Hf1 : snap_job_id s ∉ scan_ids st) by (intros Hin%one_of_spec; congruence).
    assert (Hf2 : snap_request_id s ∉ scan_request_ids st) by (intros Hin%one_of_spec; congruence).
    assert (Hperm : forall (A : Type) (x : A) l k, NoDup (l ++ x :: k) -> NoDup ((x :: l) ++ k)).
    { intros A x l k Hnd. rewrite <- Permutation_middle in Hnd. done. }
    destruct active.
    + destruct (scan_saw_terminal st) eqn:Et; [done | ]. apply IH in H; [ | by constructor | by constructor].
      destruct H as (a & t & -> & Ha & Ht & Hs & Hca & Hct & Hd1 & Hd2). cbn in *.
      exists (s :: a), t. split_and!; try done; try (simpl; lia); [by constructor | by apply Hperm ..].
    + apply IH in H; [ | by constructor | by constructor].
      destruct H as (a & t & -> & Ha & Ht & Hs & Hca & Hct & Hd1 & Hd2). cbn in *.
      rewrite (Hs eq_refl) in *. exists [], (s :: t).
      split_and!; try done; try (simpl in *; lia); [by constructor | by apply Hperm ..].
Qed.

(** What acceptance establishes of an inventory. *)
Definition inventory_well_formed (inventory : ShellJobInventory) : Prop :=
  active_complete inventory = true
  /\ NoDup (ids_of (inv_jobs inventory)) /\ NoDup (request_ids_of (inv_jobs inventory))
  /\ exists active terminal, inv_jobs inventory = active ++ terminal
     /\ Forall (fun s => snapshot_ok s true) active /\ Forall (fun s => snapshot_ok s false) terminal
     /\ length active <= JOB_INVENTORY_MAX_ACTIVE_JOBS /\ length terminal <= JOB_INVENTORY_MAX_TERMINAL_JOBS.

Lemma accepted_well_formed (serialized_len : ShellJobInventory -> result Z str) (cid : str)
  (projects : list ProjectRef) (membership : bool) (inventory : ShellJobInventory) :
  validate_job_inventory_inner serialized_len cid projects membership inventory = Ok tt ->
  inventory_well_formed inventory.
Proof.
  unfold validate_job_inventory_inner. intros H. step_guards H.
  apply Nat.ltb_ge in Hguard2, Hguard3. apply negb_false_iff in Hguard.
  apply scan_inventory_spec in Hstep0 as (a & t & Hjobs & Ha & Ht & _ & Hca & Hct & Hd1 & Hd2);
    [ | constructor | constructor].
  cbn [scan_ids scan_request_ids scan_active scan_terminal] in Hca, Hct, Hd1, Hd2.
  rewrite app_nil_r in Hd1, Hd2.
  split; [done | ]. split; [done | ]. split; [done | ]. exists a, t. split_and!; try done; lia.
Qed.

(** An inventory the registry accepts is well formed: it is complete for
    active Jobs, lists at most 64 active snapshots and then at most 64 terminal
    ones, repeats no Job id and no request id, and every snapshot is internally
    consistent (a Runner-owned status has no end time, a terminal one has one, a
    completed Job exited with zero, and each log's line range covers its text). *)
Lemma accepted_inventory_ok (serialized_len : ShellJobInventory -> result Z str) (cid : str)
  (projects : list ProjectRef) (membership : bool) (inventory : ShellJobInventory) :
  validate_job_inventory_inner serialized_len cid projects membership inventory = Ok tt ->
  inventory_well_formed inventory.
Proof. apply accepted_well_formed. Qed.

Definition empty_stream : ShellJobStreamSnapshot := mkStreamSnapshot [] 1 1 false.
Definition sample_snapshot (jid rid status : str) (seq : Z) (ended : option Z) (code : option Z)
  : ShellJobSnapshot :=
  mkSnapshot jid rid status seq 100 (Some 101%Z) ended code None None None
    (mkContext None None None None None None None (lit "cargo test") [] None None)
    empty_stream empty_stream None None.
Definition sample_inventory : ShellJobInventory :=
  mkInventory true [sample_snapshot (lit "j1") (lit "r1") (lit "running") 3 None None;
                    sample_snapshot (lit "j2") (lit "r2") (lit "completed") 5 (Some 102%Z) (Some 0%Z)].

Lemma accepted_inventory_ok_witness : inventory_well_formed sample_inventory.
Proof.
  apply (accepted_inventory_ok (fun _ => Ok 1000%Z) (lit "runner-1") [] false sample_inventory).
  vm_compute. reflexivity.
Defined.
