(* ===== verification/JobWire.v ===== *)
(** * JobWire: the Job part of crates/webcodex-core/src/runner_operation.rs and
    the execution validators of runner_protocol.rs it calls

    A Job operation is encoded into the V2 request envelope by the Server and
    decoded again wherever it is admitted.  The envelope is an optional-field bag,
    so decoding first checks that no field of another kind is present.  The JSON
    text of a validation plan is produced and read by serde_json, which is the
    interface [PlanJson] here. *)
From S2P Require Import Prelude RustStr RegistryState ValidationSteps InventoryCheck.

(** ** Validators *)

Definition RAW_SHELL_WIRE_MAX_BYTES : Z := 64 * 1024.
Definition PROCESS_EXECUTABLE_MAX_BYTES : Z := 1024.
Definition PROCESS_ARG_MAX_BYTES : Z := 8192.
Definition PROCESS_ARGV_MAX_BYTES : Z := 16000.
Definition PROCESS_STDIN_MAX_BYTES : Z := 64 * 1024.
Definition PROCESS_CWD_MAX_BYTES : Z := 1024.
Definition STRUCTURED_EXECUTION_TIMEOUT_MIN_SECS : Z := 1.
Definition STRUCTURED_EXECUTION_TIMEOUT_MAX_SECS : Z := 3600.
Definition SCRIPT_ARG_MAX_BYTES : Z := 8192.
Definition SCRIPT_ARGV_MAX_BYTES : Z := 16000.
Definition SCRIPT_STDIN_MAX_BYTES : Z := 64 * 1024.
Definition SCRIPT_CWD_MAX_BYTES : Z := 1024.
Definition SCRIPT_TIMEOUT_MAX_SECS : Z := STRUCTURED_EXECUTION_TIMEOUT_MAX_SECS.

Definition validate_raw_shell_wire_command (command : str) : result unit str :=
  bail? is_empty (trim command) with lit "command cannot be empty" ;;
  bail? Z.ltb RAW_SHELL_WIRE_MAX_BYTES (str_len command)
    with lit "command is too long for the Runner wire envelope; maximum is "
         ++ fmt_Z RAW_SHELL_WIRE_MAX_BYTES ++ lit " bytes" ;;
  bail? contains_char NUL command with lit "command cannot contain NUL bytes" ;;
  Ok tt.

(** [executable.rsplit(['/', '\\']).next()], lowercased. *)
Definition executable_basename (executable : str) : str :=
  to_ascii_lowercase (List.last (split_on (fun c => N.eqb c 47 || N.eqb c 92) executable) executable).

Fixpoint take_while {A : Type} (p : A -> bool) (l : list A) : list A :=
  match l with
  | x :: l' => if p x then x :: take_while p l' else []
  | [] => []
  end.

Definition sh_command_flag (arg : str) : bool :=
  let lower := to_ascii_lowercase arg in
  (lower ==? lit "-c")
  || (starts_with (lit "-") lower && negb (starts_with (lit "--") lower)
      && contains_char 99 (drop 1 lower)).

Definition process_uses_shell_command_mode (process : ShellProcessArgv) : bool :=
  let basename := executable_basename (executable process) in
  if one_of basename [lit "sh"; lit "sh.exe"; lit "bash"; lit "bash.exe"] then
    existsb sh_command_flag (take_while (fun arg => arg !=? lit "--") (args process))
  else if one_of basename [lit "powershell"; lit "powershell.exe"; lit "pwsh"; lit "pwsh.exe"] then
    existsb (fun arg => one_of (to_ascii_lowercase arg) [lit "-command"; lit "-c"]) (args process)
  else if one_of basename [lit "cmd"; lit "cmd.exe"] then
    existsb (fun arg => to_ascii_lowercase arg ==? lit "/c") (args process)
  else false.

(** The argument loop: the byte total, one boundary byte per argument. *)
Fixpoint check_args (max_bytes : Z) (index : nat) (total : Z) (args : list str) : result Z str :=
  match args with
  | [] => Ok total
  | arg :: rest =>
      bail? Z.ltb max_bytes (str_len arg)
        with lit "args[" ++ fmt_nat index ++ lit "] is too long; maximum is " ++ fmt_Z max_bytes
             ++ lit " bytes" ;;
      bail? contains_char NUL arg
        with lit "args[" ++ fmt_nat index ++ lit "] cannot contain NUL bytes" ;;
      check_args max_bytes (S index) (usize_sat_add (usize_sat_add total 1) (str_len arg)) rest
  end.

Definition validate_process_argv (process : ShellProcessArgv) : result unit str :=
  bail? is_empty (trim (executable process)) with lit "executable must not be empty" ;;
  bail? Z.ltb PROCESS_EXECUTABLE_MAX_BYTES (str_len (executable process))
    with lit "executable is too long; maximum is " ++ fmt_Z PROCESS_EXECUTABLE_MAX_BYTES ++ lit " bytes" ;;
  bail? contains_char NUL (executable process) with lit "executable cannot contain NUL bytes" ;;
  bail? Z.ltb PROCESS_ARG_MAX_COUNT (Z.of_nat (length (args process)))
    with lit "args may contain at most " ++ fmt_Z PROCESS_ARG_MAX_COUNT ++ lit " entries" ;;
  let? total := check_args PROCESS_ARG_MAX_BYTES 0 (str_len (executable process)) (args process) in
  bail? Z.ltb PROCESS_ARGV_MAX_BYTES total
    with lit "executable and args are too large; maximum total is " ++ fmt_Z PROCESS_ARGV_MAX_BYTES
         ++ lit " bytes" ;;
  bail? process_uses_shell_command_mode process
    with lit "run_process does not accept shell command modes; use run_shell for shell syntax" ;;
  Ok tt.

Definition check_bounded_text (name : str) (max_bytes : Z) (too_long : str) (value : option str)
  : result unit str :=
  match value with
  | None => Ok tt
  | Some text =>
      bail? Z.ltb max_bytes (str_len text)
        with name ++ too_long ++ lit "; maximum is " ++ fmt_Z max_bytes ++ lit " bytes" ;;
      bail? contains_char NUL text with name ++ lit " cannot contain NUL bytes" ;;
      Ok tt
  end.

Definition validate_script_request (payload : ShellScriptPayload) (stdin cwd : option str) (timeout_secs : Z)
  : result unit str :=
  bail? Z.ltb (str_len (script_text payload)) SCRIPT_MIN_BYTES
    with lit "script must contain at least 1 UTF-8 byte" ;;
  bail? Z.ltb SCRIPT_MAX_BYTES (str_len (script_text payload))
    with lit "script is too large; maximum is " ++ fmt_Z SCRIPT_MAX_BYTES ++ lit " bytes" ;;
  bail? contains_char NUL (script_text payload) with lit "script cannot contain NUL bytes" ;;
  bail? Z.ltb SCRIPT_ARG_MAX_COUNT (Z.of_nat (length (script_args payload)))
    with lit "args may contain at most " ++ fmt_Z SCRIPT_ARG_MAX_COUNT ++ lit " entries" ;;
  let? total := check_args SCRIPT_ARG_MAX_BYTES 0 0 (script_args payload) in
  bail? Z.ltb SCRIPT_ARGV_MAX_BYTES total
    with lit "script args are too large; maximum total is " ++ fmt_Z SCRIPT_ARGV_MAX_BYTES ++ lit " bytes" ;;
  check? check_bounded_text (lit "stdin") SCRIPT_STDIN_MAX_BYTES (lit " is too large") stdin ;;
  check? check_bounded_text (lit "cwd") SCRIPT_CWD_MAX_BYTES (lit " is too long") cwd ;;
  bail? Z.eqb timeout_secs 0 || Z.ltb SCRIPT_TIMEOUT_MAX_SECS timeout_secs
    with lit "timeout_secs must be between 1 and " ++ fmt_Z SCRIPT_TIMEOUT_MAX_SECS ;;
  Ok tt.

Definition invalid_text (max_bytes : Z) (value : option str) : bool :=
  is_some_and (fun text => Z.ltb max_bytes (str_len text) || contains_char NUL text) value.

Definition structured_timeout_ok (timeout_secs : Z) : bool :=
  Z.leb STRUCTURED_EXECUTION_TIMEOUT_MIN_SECS timeout_secs
  && Z.leb timeout_secs STRUCTURED_EXECUTION_TIMEOUT_MAX_SECS.

Definition STRUCTURED_TIMEOUT_MESSAGE : str :=
  lit "timeout_secs must be between " ++ fmt_Z STRUCTURED_EXECUTION_TIMEOUT_MIN_SECS ++ lit " and "
  ++ fmt_Z STRUCTURED_EXECUTION_TIMEOUT_MAX_SECS.

Definition validate_structured_job_common (cwd stdin : option str) (timeout_secs : Z) : result unit str :=
  bail? invalid_text PROCESS_STDIN_MAX_BYTES stdin with lit "stdin is invalid or oversized" ;;
  bail? invalid_text PROCESS_CWD_MAX_BYTES cwd with lit "cwd is invalid or oversized" ;;
  bail? negb (structured_timeout_ok timeout_secs) with STRUCTURED_TIMEOUT_MESSAGE ;;
  Ok tt.

Definition validate_validation_steps (steps : list ShellJobValidationStep) : result unit str :=
  bail? negb (Nat.leb 1 (length steps) && Nat.leb (length steps) 3)
        || existsb (fun s => negb (step_is_canonical s)) steps
        || negb (all_distinct (map step_name steps))
    with lit "invalid structured validation plan" ;;
  Ok tt.

Definition validate_job_context_coherence (cwd : option str) (context : ShellJobContext) : result unit str :=
  bail? ctx_cwd context !=? cwd with lit "job recovery context cwd does not match operation cwd" ;;
  bail? is_some (ctx_ssh_resource context) && is_none (workflow_session_id context)
    with lit "job recovery SSH resource requires Workflow Session" ;;
  Ok tt.

(** ** Job operations *)

Definition operation_job_id (op : RunnerJobOperation) : str :=
  match op with
  | StartShell o => jsh_job_id o
  | StartValidation o => jva_job_id o
  | StartProcess o | StartDetachedProcess o => jpr_job_id o
  | StartScript o => jsc_job_id o
  | Stop jid => jid
  end.

Definition operation_context (op : RunnerJobOperation) : option ShellJobContext :=
  match op with
  | StartShell o => Some (jsh_context o)
  | StartValidation o => Some (jva_context o)
  | StartProcess o | StartDetachedProcess o => Some (jpr_context o)
  | StartScript o => Some (jsc_context o)
  | Stop _ => None
  end.

Definition is_start (op : RunnerJobOperation) : bool := match op with Stop _ => false | _ => true end.
Definition is_detached_process (op : RunnerJobOperation) : bool :=
  match op with StartDetachedProcess _ => true | _ => false end.

Definition expected_structured_execution (op : RunnerJobOperation)
  : option ShellJobStructuredExecutionMetadata :=
  let metadata := operation_context op ≫= ctx_structured_execution in
  let identity := metadata ≫= validation_identity in
  let tool := metadata ≫= validation_tool in
  let assertion := metadata ≫= assertion_name in
  match op with
  | StartProcess o =>
      Some (mkStructured (lit "run_process") None None (Z.of_nat (length (args (jpr_process o))))
              (is_some (jpr_stdin o)) identity assertion tool)
  | StartDetachedProcess o =>
      Some (mkStructured (lit "run_detached_process") None None (Z.of_nat (length (args (jpr_process o))))
              (is_some (jpr_stdin o)) identity None tool)
  | StartScript o =>
      Some (mkStructured (lit "run_script") (Some (script_language (jsc_script o)))
              (Some (str_len (script_text (jsc_script o))))
              (Z.of_nat (length (script_args (jsc_script o)))) (is_some (jsc_stdin o)) identity assertion tool)
  | StartShell _ | StartValidation _ | Stop _ => None
  end.

Definition job_wire_kind (op : RunnerJobOperation) : str :=
  match op with
  | StartShell _ => lit "start_job"
  | StartValidation _ => lit "start_validation_job"
  | StartProcess _ => lit "start_process_job"
  | StartDetachedProcess _ => lit "start_detached_process_job"
  | StartScript _ => lit "start_script_job"
  | Stop _ => lit "stop_job"
  end.

(** ** Guards on the envelope *)

Definition ensure_no_file_fields (wire : RunnerRequest) : result unit str :=
  bail? is_some (req_path wire) || is_some (req_content wire) || is_some (req_max_bytes wire)
        || is_some (req_expected_sha256 wire) || is_some (req_expected_prefix wire)
        || is_some (req_start_line wire) || is_some (req_end_line wire) || req_create_dirs wire
    with req_kind wire ++ lit " contains incompatible file fields" ;;
  Ok tt.

(** The typed payloads of kinds other than process and script. *)
Definition has_gateway_payload (wire : RunnerRequest) : bool :=
  is_some (req_validation wire) || is_some (req_lsp wire) || is_some (req_persistent_shell wire)
  || is_some (req_mcp_gateway wire) || is_some (req_plugin_gateway wire) || is_some (req_coding_agent wire).

Definition ensure_special_payloads_absent (wire : RunnerRequest) : result unit str :=
  bail? is_some (req_process wire) || is_some (req_script wire) || has_gateway_payload wire
    with req_kind wire ++ lit " contains incompatible typed payload" ;;
  Ok tt.

Definition ensure_only_process_payload (wire : RunnerRequest) : result unit str :=
  bail? is_some (req_script wire) || has_gateway_payload wire
    with req_kind wire ++ lit " conflicts with non-process typed payload" ;;
  Ok tt.

Definition ensure_only_script_payload (wire : RunnerRequest) : result unit str :=
  bail? is_some (req_process wire) || has_gateway_payload wire
    with req_kind wire ++ lit " conflicts with non-script typed payload" ;;
  Ok tt.

(** ** Encoding and decoding *)

(** serde_json on a validation plan: what it writes, it reads back. *)
Class PlanJson : Type := {
  plan_to_string : list ShellJobValidationStep -> result str str;
  plan_from_str : str -> result (list ShellJobValidationStep) str;
  plan_roundtrip : forall steps text, plan_to_string steps = Ok text -> plan_from_str text = Ok steps
}.

(** What the two operation kinds with a stop or a start share. *)
Definition decode_job_head (wire : RunnerRequest) : result str str :=
  check? ensure_no_file_fields wire ;;
  ok_or (req_job_id wire) (req_kind wire ++ lit " requires job_id").

Definition encode_stop (m : RunnerInvocationMetadata) (jid : str) : RunnerRequest :=
  empty_wire m (lit "stop_job") 30 <| req_job_id := Some jid |> <| req_timeout_secs := 1%Z |>.

Definition decode_stop (wire : RunnerRequest) : result RunnerJobOperation str :=
  let? jid := decode_job_head wire in
  check? ensure_special_payloads_absent wire ;;
  bail? is_some (req_cwd wire) || is_some (req_stdin wire) || is_some (req_job_context wire)
        || negb (is_empty (req_command wire))
    with lit "stop_job contains incompatible execution fields" ;;
  Ok (Stop jid).

Section Codec.
Context `{PlanJson}.

Definition encode_job_operation (m : RunnerInvocationMetadata) (op : RunnerJobOperation)
  : result RunnerRequest str :=
  let wire := empty_wire m (job_wire_kind op) 30 in
  match op with
  | StartShell o =>
      check? validate_raw_shell_wire_command (jsh_command o) ;;
      check? validate_job_context_coherence (jsh_cwd o) (jsh_context o) ;;
      Ok (wire <| req_job_id := Some (jsh_job_id o) |> <| req_cwd := jsh_cwd o |>
               <| req_command := jsh_command o |> <| req_timeout_secs := jsh_timeout_secs o |>
               <| req_job_context := Some (jsh_context o) |>)
  | StartValidation o =>
      check? validate_validation_steps (jva_steps o) ;;
      check? validate_job_context_coherence (jva_cwd o) (jva_context o) ;;
      bail? ctx_validation_steps (jva_context o) !=? map step_name (jva_steps o)
        with lit "Job validation context does not match operation steps" ;;
      let? command := map_err (fun e => lit "could not encode validation Job plan: " ++ e)
                        (plan_to_string (jva_steps o)) in
      Ok (wire <| req_job_id := Some (jva_job_id o) |> <| req_cwd := jva_cwd o |>
               <| req_command := command |> <| req_timeout_secs := jva_timeout_secs o |>
               <| req_job_context := Some (jva_context o) |>)
  | StartProcess o | StartDetachedProcess o =>
      check? validate_structured_job_common (jpr_cwd o) (jpr_stdin o) (jpr_timeout_secs o) ;;
      check? validate_process_argv (jpr_process o) ;;
      check? validate_job_context_coherence (jpr_cwd o) (jpr_context o) ;;
      Ok (wire <| req_job_id := Some (jpr_job_id o) |> <| req_cwd := jpr_cwd o |>
               <| req_process := Some (jpr_process o) |> <| req_stdin := jpr_stdin o |>
               <| req_timeout_secs := jpr_timeout_secs o |> <| req_job_context := Some (jpr_context o) |>)
  | StartScript o =>
      check? validate_script_request (jsc_script o) (jsc_stdin o) (jsc_cwd o) (jsc_timeout_secs o) ;;
      check? validate_job_context_coherence (jsc_cwd o) (jsc_context o) ;;
      Ok (wire <| req_job_id := Some (jsc_job_id o) |> <| req_cwd := jsc_cwd o |>
               <| req_script := Some (jsc_script o) |> <| req_stdin := jsc_stdin o |>
               <| req_timeout_secs := jsc_timeout_secs o |> <| req_job_context := Some (jsc_context o) |>)
  | Stop jid => Ok (encode_stop m jid)
  end.

(** The recovery metadata of a typed Job is the one its operation implies. *)
Definition check_structured_metadata (op : RunnerJobOperation) (message : str) : result RunnerJobOperation str :=
  bail? (operation_context op ≫= ctx_structured_execution) !=? expected_structured_execution op
    with message ;;
  Ok op.

Definition decode_shell_start (wire : RunnerRequest) (jid : str) (context : ShellJobContext)
  : result RunnerJobOperation str :=
  check? ensure_special_payloads_absent wire ;;
  bail? is_some (req_stdin wire) with lit "start_job does not accept stdin" ;;
  check? validate_raw_shell_wire_command (req_command wire) ;;
  Ok (StartShell (mkJobShell jid (req_cwd wire) (req_command wire) (req_timeout_secs wire) context)).

Definition decode_validation_start (wire : RunnerRequest) (jid : str) (context : ShellJobContext)
  : result RunnerJobOperation str :=
  check? ensure_special_payloads_absent wire ;;
  bail? is_some (req_stdin wire) with lit "start_validation_job does not accept stdin" ;;
  let? steps := map_err (fun e => lit "invalid validation Job plan: " ++ e)
                  (plan_from_str (req_command wire)) in
  check? validate_validation_steps steps ;;
  bail? ctx_validation_steps context !=? map step_name steps
    with lit "validation Job plan does not match recovery context" ;;
  Ok (StartValidation (mkJobValidation jid (req_cwd wire) steps (req_timeout_secs wire) context)).

Definition decode_process_start (wire : RunnerRequest) (jid : str) (context : ShellJobContext)
  : result RunnerJobOperation str :=
  check? ensure_only_process_payload wire ;;
  bail? negb (is_empty (req_command wire)) || is_some (ctx_ssh_resource context)
    with lit "typed process Job contains incompatible execution fields" ;;
  let? process := ok_or (req_process wire) (req_kind wire ++ lit " requires process payload") in
  check? validate_process_argv process ;;
  check? validate_structured_job_common (req_cwd wire) (req_stdin wire) (req_timeout_secs wire) ;;
  let operation := mkJobProcess jid (req_cwd wire) process (req_stdin wire) (req_timeout_secs wire) context in
  check_structured_metadata
    (if req_kind wire ==? lit "start_detached_process_job" then StartDetachedProcess operation
     else StartProcess operation)
    (lit "process Job recovery metadata does not match typed operation").

Definition decode_script_start (wire : RunnerRequest) (jid : str) (context : ShellJobContext)
  : result RunnerJobOperation str :=
  check? ensure_only_script_payload wire ;;
  bail? negb (is_empty (req_command wire)) || is_some (ctx_ssh_resource context)
    with lit "typed script Job contains incompatible execution fields" ;;
  let? script := ok_or (req_script wire) (lit "start_script_job requires script payload") in
  check? validate_script_request script (req_stdin wire) (req_cwd wire) (req_timeout_secs wire) ;;
  check_structured_metadata
    (StartScript (mkJobScript jid (req_cwd wire) script (req_stdin wire) (req_timeout_secs wire) context))
    (lit "script Job recovery metadata does not match typed operation").

(** [None] is the [unreachable!] for a kind that is not a Job's. *)
Definition decode_job_operation (wire : RunnerRequest) : option (result RunnerJobOperation str) :=
  if req_kind wire ==? lit "stop_job" then Some (decode_stop wire)
  else
    let decoded :=
      let? jid := decode_job_head wire in
      let? context := ok_or (req_job_context wire) (req_kind wire ++ lit " requires job_context") in
      check? validate_job_context_coherence (req_cwd wire) context ;;
      Ok (jid, context) in
    match decoded with
    | Err err => Some (Err err)
    | Ok (jid, context) =>
        if req_kind wire ==? lit "start_job" then Some (decode_shell_start wire jid context)
        else if req_kind wire ==? lit "start_validation_job" then Some (decode_validation_start wire jid context)
        else if one_of (req_kind wire) [lit "start_process_job"; lit "start_detached_process_job"]
        then Some (decode_process_start wire jid context)
        else if req_kind wire ==? lit "start_script_job" then Some (decode_script_start wire jid context)
        else None
    end.

(** ** Round trip *)

(** What the decoder asks of a typed Job beyond what the encoder checks: no SSH
    resource, and the recovery metadata its operation implies. *)
Definition operation_coherent (op : RunnerJobOperation) : bool :=
  match op with
  | StartProcess o | StartDetachedProcess o =>
      is_none (ctx_ssh_resource (jpr_context o))
      && ((operation_context op ≫= ctx_structured_execution) ==? expected_structured_execution op)
  | StartScript o =>
      is_none (ctx_ssh_resource (jsc_context o))
      && ((operation_context op ≫= ctx_structured_execution) ==? expected_structured_execution op)
  | _ => true
  end.

(** Evaluates comparisons of literal texts. *)
Ltac eval_literals :=
  repeat match goal with
  | |- context [ beq (lit ?a) (lit ?b) ] =>
      let v := eval vm_compute in (beq (lit a) (lit b)) in change (beq (lit a) (lit b)) with v
  | |- context [ one_of (lit ?a) ?l ] =>
      let v := eval vm_compute in (one_of (lit a) l) in change (one_of (lit a) l) with v
  end; cbv iota.

Ltac eval_decode :=
  unfold decode_job_operation, decode_job_head, ensure_no_file_fields; cbn; eval_literals.

(** Replays checks that are known to succeed. *)
Ltac passed_checks :=
  repeat match goal with
  | E : ?r = Ok _ |- context [ result_bind ?r _ ] => rewrite E; cbn [result_bind]
  end; cbn.

Lemma map_err_ok {T E F : Type} (f : E -> F) (r : result T E) (x : T) : map_err f r = Ok x -> r = Ok x.
Proof. destruct r; cbn; congruence. Qed.

Lemma metadata_checked (op : RunnerJobOperation) (ssh : option str) (message field : str) :
  (is_none ssh && ((operation_context op ≫= ctx_structured_execution) ==? expected_structured_execution op) = true ->
   (if is_some ssh then Err field else check_structured_metadata op message) = Ok op)
  /\ (is_none ssh && ((operation_context op ≫= ctx_structured_execution) ==? expected_structured_execution op) = false ->
   exists err, (if is_some ssh then Err field else check_structured_metadata op message) = Err err).
Proof.
  unfold check_structured_metadata. destruct ssh; cbn [is_none is_some negb andb]; [split; [done | by eexists] | ].
  destruct (_ ==? _); cbn [negb]; split; try done. by eexists.
Qed.

Lemma encoded_job_decodes (m : RunnerInvocationMetadata) (op : RunnerJobOperation) (wire : RunnerRequest) :
  encode_job_operation m op = Ok wire ->
  exists decoded, decode_job_operation wire = Some decoded
    /\ (operation_coherent op = true -> decoded = Ok op)
    /\ (operation_coherent op = false -> exists err, decoded = Err err).
Proof.
  intros Henc. destruct op as [[]|[]|[]|[]|[]|jid]; unfold encode_job_operation in Henc; step_guards Henc;
    injection Henc as <-; cbn in * |-; eval_decode; passed_checks; try (eexists; split; [reflexivity | done]).
  - apply map_err_ok, plan_roundtrip in Hstep1. rewrite Hstep1. cbn. passed_checks. rewrite Hguard.
    eexists. by split.
  - eexists. split; [reflexivity | ]. exact (metadata_checked (StartProcess (mkJobProcess _ _ _ _ _ _)) _ _ _).
  - eexists. split; [reflexivity | ].
    exact (metadata_checked (StartDetachedProcess (mkJobProcess _ _ _ _ _ _)) _ _ _).
  - eexists. split; [reflexivity | ]. exact (metadata_checked (StartScript (mkJobScript _ _ _ _ _ _)) _ _ _).
Qed.

(** C35: Decoding undoes encoding: a Job operation the Server can encode decodes at
    the Runner to exactly that operation, provided its recovery metadata is the
    one the operation implies; if it is not, the decoder rejects it, so a typed
    Job never runs with recovery metadata that describes another one. *)
Theorem job_wire_roundtrip (m : RunnerInvocationMetadata) (op : RunnerJobOperation) (wire : RunnerRequest) :
  encode_job_operation m op = Ok wire ->
  exists decoded, decode_job_operation wire = Some decoded
    /\ (operation_coherent op = true -> decoded = Ok op)
    /\ (operation_coherent op = false -> exists err, decoded = Err err).
Proof. apply encoded_job_decodes. Qed.

End Codec.

(** ** A concrete plan codec and a sample operation *)

#[export] Instance step_countable : Countable ShellJobValidationStep.
Proof.
  apply (inj_countable' (fun s => (step_name s, step_program s, step_args s, step_env s))
           (fun '(n, p, a, e) => mkStep n p a e)). by intros [].
Defined.

(** A plan as the text of one character that numbers it. *)
Definition numbered_plans : PlanJson.
Proof.
  refine {| plan_to_string := fun steps => Ok [N.pos (encode steps)];
            plan_from_str := fun text =>
              match text with
              | [N.pos p] => ok_or (decode p) (lit "not a plan")
              | _ => Err (lit "not a plan")
              end |}.
  intros steps text [= <-]. by rewrite decode_encode.
Defined.

Definition sample_context : ShellJobContext :=
  mkContext None None None None None None None (lit "cargo test") [] None
    (Some (mkStructured (lit "run_process") None None 1 false None None None)).

Definition sample_process_start : RunnerJobOperation :=
  StartProcess (mkJobProcess (lit "a") None (mkArgv (lit "cargo") [lit "test"]) None 60 sample_context).

Definition sample_invocation : RunnerInvocationMetadata := mkInvocation (lit "req-a") (lit "r1") (lit "ann") 100.

Lemma job_wire_roundtrip_witness : exists wire,
  @encode_job_operation numbered_plans sample_invocation sample_process_start = Ok wire
  /\ @decode_job_operation numbered_plans wire = Some (Ok sample_process_start).
Proof.
  destruct (@encode_job_operation numbered_plans sample_invocation sample_process_start) as [wire|e] eqn:E;
    [ | vm_compute in E; discriminate].
  destruct (@job_wire_roundtrip numbered_plans _ _ _ E) as (d & Hd & Hok & _).
  exists wire. split; [done | ]. rewrite Hd, Hok; [done | vm_compute; reflexivity].
Defined.
