(* ===== verification/Samples.v ===== *)
(** * Samples: small concrete registries

    Records used to evaluate the registry's operations in the witnesses. *)
From S2P Require Import Prelude RustStr Lifecycle JobLog Capabilities RunnerData RegistryState JobState JobWire.

(** A running Job of Runner "r1" whose recovery began at second 100. *)
Definition sample_job (id : str) (l : RunnerJobLifecycle) (rec : JobRecoveryState) : ShellJobRecord :=
  mkJob id (Some (lit "req-" ++ id)) (lit "r1") None (Some (lit "ann")) (lit "i1") (lit "shell")
    None None None None None None None (lit "cargo test") None l 90 (Some 91%Z) None None None
    ShellJobLogState_default ShellJobLogState_default None None None None [] None None None Public 3
    rec (JobObservationState_new (lit "epoch")).

Definition recovering_job (id : str) : ShellJobRecord :=
  sample_job id Running (mkRecovery (Some Recovering) false None (Some RunnerTransportDisconnected) (Some 100%Z)).

Definition registry_of (jobs : list ShellJobRecord) : RunnerRegistryInner :=
  RunnerRegistryInner_default
    <| jobs_by_id := list_to_map (map (fun j => (job_id j, j)) jobs) |>.

Definition recovering_registry : RunnerRegistryInner :=
  registry_of [recovering_job (lit "a"); recovering_job (lit "b"); recovering_job (lit "c")].

(** Runner "r1" with a running Job, its start request, and a synchronous request
    that is being waited for; both were dispatched and are in no queue. *)
Definition sample_runner : RunnerRecord :=
  mkRunner (lit "r1") (lit "i1") None (Some (lit "ann")) None None (mkFeatureSet (uniform_capabilities true)) []
    (pending_inventory_state 0) 290 2 Polling None None 80 80 None None None None None [] [] [].

Definition sample_request (rid kind : str) : RunnerRequest :=
  empty_wire (mkInvocation rid (lit "r1") (lit "ann") 100) kind 30.

Definition connected_registry : RunnerRegistryInner :=
  registry_of [sample_job (lit "a") Running JobRecoveryState_default]
    <| runners := {[ lit "r1" := sample_runner ]} |>
    <| pending_by_id := {[ lit "req-a" := mkPending (sample_request (lit "req-a") (lit "start_job"))
                             (OpJob sample_process_start) false (Some (lit "a")) no_fences true;
                           lit "sync" := mkPending (sample_request (lit "sync") (lit "run_shell"))
                             (OpRunShell []) true None no_fences true ]} |>
    <| queues_by_runner := {[ lit "r1" := [] ]} |>.

(** A Runner that advertises the features [on] selects. *)
Definition capabilities_of (on : RunnerFeature -> bool) : RunnerCapabilities :=
  mkCapabilities (on Shell) (on FileRead) (on FileWrite) (on ArtifactExportChunkRead) (on ArtifactExportStreamingMetadata)
    (on StructuredFileDelete) (on ApplyTextEditOccurrence) (on ApplyTextEditLineScope) (on ApplyPatch)
    (on ApplyPatchMatchMetadata) (on ApplyPatchMatchingMode) (on ApplyPatchStrictMatching) (on Git) (on Jobs)
    (on AsyncJobs) (on AsyncShellJobs) (on SshShell) (on PersistentShell) (on SshPersistentShell)
    (on StructuredValidationArgv) (on StructuredCargoTestCountAssertion) (on StructuredCargoTestExecutionPolicy)
    (on StructuredGoTestJson) (on StructuredGoTestTool) (on StructuredGoTestPackages) (on StructuredProcessArgv)
    (on StructuredScriptPayload) (on StructuredScriptJavascript) (on StructuredScriptTypescript)
    (on InternalPosixScript) (on StructuredExecutionJobs) (on DetachedProcessJobs) (on LspReadOnlyNavigation)
    (on LspCallHierarchy) (on ProjectLifecycle) (on ProjectPathRegistration) (on ManagedWorktree)
    (on ConfiguredSkillRootsRead) (on SkillStoreRead) (on SkillStoreManage) (on ComputerObserve)
    (on ComputerApplicationDiscovery) (on ComputerApplicationLaunch) (on ComputerDisplayObserve)
    (on ComputerPointerControl) (on ComputerClipboardRead) (on ComputerClipboardWrite)
    (on ComputerSnapshotRegion) (on ComputerAccessibilityObserve) (on ComputerElementState) (on ComputerControl)
    (on ComputerScrollToElement) (on ComputerKeyInput) (on ComputerWindowActivate) (on ComputerTextInput)
    (on JobStateReconciliation) (on CodingAgentRuns) (on NativeToolPlugins) (on ManagedSshResources)
    (on RunnerConfigControl).

Definition baseline_feature (f : RunnerFeature) : bool :=
  match inference f with GenerationEligible => true | RegistrationRequired => false end.
