(* ===== verification/JobUpdate.v ===== *)
(** * JobUpdate: crates/webcodex-runner-registry/src/job_updates.rs

    A Runner's update of a Job, the stop request, and the hidden Jobs of
    structured executions: promotion to a public Job, cancellation, and the
    discard of a terminal whose result was already returned.  Each handler runs
    under the registry's mutex and takes the time of its one clock reading; it
    returns the registry also when it fails, because some failures come after a
    change.  [None] is a panic.  A handler's view of a Job is the record it is
    made from; telemetry and the wake-up of a transport have no effect on the
    registry. *)
From S2P Require Import Prelude RustStr Lifecycle JobLog Capabilities RegistryState JobState ValidationSteps InventoryCheck JobWire.

Record JobPublicMutationSignature : Type := mkSignature {
  sig_lifecycle : RunnerJobLifecycle;
  sig_recovery : JobRecoveryState;
  sig_last_update_seq : Z;
  sig_stdout : ShellJobLogState;
  sig_stderr : ShellJobLogState;
  sig_error : option str;
  sig_started_at : option Z;
  sig_ended_at : option Z;
  sig_exit_code : option Z;
  sig_duration_ms : option Z;
  sig_command_execution_state : option ShellCommandExecutionState;
  sig_validation_progress : option ShellJobValidationProgress;
  sig_activity : option ShellJobActivity;
  sig_recovered_after_server_restart : bool;
  sig_reconciled_at : option Z
}.

#[export] Instance JobPublicMutationSignature_eq_dec : EqDecision JobPublicMutationSignature.
Proof. solve_decision. Defined.

Definition public_mutation_signature (job : ShellJobRecord) : JobPublicMutationSignature :=
  {| sig_lifecycle := lifecycle job;
     sig_recovery := recovery job;
     sig_last_update_seq := last_update_seq job;
     sig_stdout := stdout job;
     sig_stderr := stderr job;
     sig_error := error job;
     sig_started_at := started_at job;
     sig_ended_at := ended_at job;
     sig_exit_code := exit_code job;
     sig_duration_ms := duration_ms job;
     sig_command_execution_state := command_execution_state job;
     sig_validation_progress := validation_progress job;
     sig_activity := activity job;
     sig_recovered_after_server_restart := recovered_after_server_restart (recovery job);
     sig_reconciled_at := reconciled_at (recovery job) |}.

(** ** Protocol checks of an update *)

Definition VALIDATION_STEP_SPAWN_FAILED_CODE : str := lit "validation_step_spawn_failed".
Definition VALIDATION_TOOL_UNAVAILABLE_CODE : str := lit "validation_tool_unavailable".
Definition VALIDATION_STEP_WAIT_FAILED_CODE : str := lit "validation_step_wait_failed".

Definition validation_infrastructure_failure_code (err : str) : option str :=
  if err ==? VALIDATION_STEP_SPAWN_FAILED_CODE then Some VALIDATION_STEP_SPAWN_FAILED_CODE
  else if err ==? VALIDATION_TOOL_UNAVAILABLE_CODE then Some VALIDATION_TOOL_UNAVAILABLE_CODE
  else if err ==? VALIDATION_STEP_WAIT_FAILED_CODE then Some VALIDATION_STEP_WAIT_FAILED_CODE
  else None.

(** [ValidationProtocolError]: its code. *)
Definition invalid_progress (code : str) : result unit str := Err code.

Definition is_cancelling (l : RunnerJobLifecycle) : bool :=
  match l with
  | Stopped | Cancelled | Timeout | TimedOut | Lost => true
  | _ => false
  end.

Definition is_queued (l : RunnerJobLifecycle) : bool :=
  match l with
  | Queued | RunnerQueued => true
  | _ => false
  end.

Definition no_active_step (p : ShellJobValidationProgress) : bool :=
  is_none (current_step p) && is_none (failed_step p).

(** Whether the step fields fit the position [completed] in the plan. *)
Definition progress_shape_valid (steps : list str) (update : RunnerJobUpdateRequest) (l : RunnerJobLifecycle)
  (p : ShellJobValidationProgress) : bool :=
  let infrastructure_failure :=
    (l ==? Failed) && up_finished update && is_none (up_exit_code update)
    && is_some (up_error update ≫= validation_infrastructure_failure_code) in
  if is_cancelling l then no_active_step p
  else if infrastructure_failure then Nat.ltb (completed p) (length steps) && no_active_step p
  else if negb (is_terminal l) then (steps !! completed p ==? current_step p) && is_none (failed_step p)
  else if (l ==? Completed) && (up_exit_code update ==? Some 0%Z)
  then Nat.eqb (completed p) (length steps) && no_active_step p
  else if l ==? Failed then (steps !! completed p ==? failed_step p) && is_none (current_step p)
  else false.

Definition validate_validation_progress (job : ShellJobRecord) (update : RunnerJobUpdateRequest)
  (l : RunnerJobLifecycle) : result unit str :=
  let steps := validation_steps job in
  if is_empty steps then
    if is_none (up_validation_progress update) then Ok tt
    else invalid_progress (lit "validation_progress_unexpected")
  else if negb (all_distinct steps) then invalid_progress (lit "validation_plan_invalid")
  else if up_finished update && negb (is_terminal l)
  then invalid_progress (lit "validation_progress_invalid")
  else match up_validation_progress update with
       | None => if is_queued l || is_cancelling l then Ok tt
                 else invalid_progress (lit "validation_progress_missing")
       | Some p =>
           if is_queued l || Nat.ltb (length steps) (completed p)
           then invalid_progress (lit "validation_progress_invalid")
           else
             let previous := unwrap_or 0 (completed <$> validation_progress job) in
             if Nat.ltb (completed p) previous || Nat.ltb (previous + 1) (completed p)
             then invalid_progress (lit "validation_progress_invalid")
             else if progress_shape_valid steps update l p then Ok tt
             else if (l ==? Completed) && (up_exit_code update ==? Some 0%Z)
             then invalid_progress (lit "validation_progress_incomplete")
             else invalid_progress (lit "validation_progress_invalid")
       end.

Definition ACTIVITY_INVALID : str := lit "job_activity_invalid".

Definition validate_job_activity (job : ShellJobRecord) (update : RunnerJobUpdateRequest)
  (l : RunnerJobLifecycle) : result unit str :=
  match up_activity update with
  | None => Ok tt
  | Some a =>
      if negb (activity_is_canonical a) || negb ((l ==? Running) || (l ==? StopRequested))
      then invalid_progress ACTIVITY_INVALID
      else match act_source a with
           | RunnerExecution =>
               if negb (is_empty (validation_steps job)) || (act_phase a !=? ProcessRunning)
               then invalid_progress ACTIVITY_INVALID else Ok tt
           | ValidationPlan =>
               match up_validation_progress update ≫= current_step with
               | None => invalid_progress ACTIVITY_INVALID
               | Some step =>
                   if validation_activity_phase step !=? Some (act_phase a)
                   then invalid_progress ACTIVITY_INVALID else Ok tt
               end
           | CargoOutput =>
               match up_validation_progress update with
               | None => invalid_progress ACTIVITY_INVALID
               | Some p =>
                   if is_none (current_step p) || is_empty (validation_steps job)
                   then invalid_progress ACTIVITY_INVALID
                   else if is_some_and (fun v => negb (cargo_step_at v (completed p))) (validation job)
                   then invalid_progress ACTIVITY_INVALID else Ok tt
               end
           end
  end.

Definition execution_state_valid (state : ShellCommandExecutionState) (job : ShellJobRecord)
  (l : RunnerJobLifecycle) : bool :=
  match state with
  | NotStarted =>
      ((l ==? Failed) || (l ==? Stopped) || (l ==? Cancelled) || (l ==? Lost)) && is_none (started_at job)
  | OutcomeUnknown => (l ==? Failed) || (l ==? Lost)
  | CommandTimedOut => is_timed_out l
  | CommandCompleted => (l ==? Completed) || (l ==? Failed) || (l ==? Stopped) || (l ==? Cancelled)
  end.

Definition validate_command_execution_state (job : ShellJobRecord) (update : RunnerJobUpdateRequest)
  (l : RunnerJobLifecycle) : result unit str :=
  let terminal := is_terminal l in
  if negb terminal && is_some (up_command_execution_state update)
  then invalid_progress (lit "command_execution_state_on_active_job")
  else if is_some (structured_execution job) && terminal && is_none (up_command_execution_state update)
  then invalid_progress (lit "structured_job_lifecycle_missing")
  else match up_command_execution_state update with
       | None => Ok tt
       | Some state => if execution_state_valid state job l then Ok tt
                       else invalid_progress (lit "structured_job_lifecycle_invalid")
       end.

(** ** [update_job_checked] *)

(** The checks on the body alone. *)
Definition check_update_body (body : RunnerJobUpdateRequest) : result unit str :=
  check? validate_id (up_client_id body) (lit "client_id") ;;
  check? validate_id (up_job_id body) (lit "job_id") ;;
  check? validate_runner_instance_id (up_runner_instance_id body) ;;
  match up_log_snapshot body with
  | None => Ok tt
  | Some snapshot =>
      check? validate_stream_snapshot (log_stdout snapshot) (lit "job update stdout snapshot") ;;
      check? validate_stream_snapshot (log_stderr snapshot) (lit "job update stderr snapshot") ;;
      bail? is_some (up_stdout_chunk body) || is_some (up_stderr_chunk body)
            || is_some (up_stdout_tail body) || is_some (up_stderr_tail body)
        with lit "job update log_snapshot cannot be combined with chunk or legacy tail fields" ;;
      Ok tt
  end.

Definition invalid_status (sequenced : bool) (status : str) : str :=
  (if sequenced then lit "job_state_reconciliation update status '" else lit "job update status '")
  ++ status ++ lit "' is invalid".

(** The sequence and status checks; [sequenced] is whether the Runner reconciles. *)
Definition check_update_status (sequenced : bool) (body : RunnerJobUpdateRequest)
  : result (option Z * RunnerJobLifecycle) str :=
  let? incoming_seq :=
    (if sequenced
     then match opt_filter (fun s => Z.ltb 0 s) (up_update_seq body) with
          | Some s => Ok (Some s)
          | None => Err (lit "job_state_reconciliation update requires update_seq")
          end
     else Ok (up_update_seq body)) in
  let status := trim (up_status body) in
  bail? sequenced && (up_status body !=? status)
    with lit "job_state_reconciliation update status must be canonical without surrounding whitespace" ;;
  let? l := map_err (fun _ => invalid_status sequenced status) (parse_job_lifecycle status) in
  bail? sequenced && negb (is_runner_active l || is_terminal l) with invalid_status sequenced status ;;
  bail? sequenced && negb (Bool.eqb (up_finished body) (is_terminal l))
    with lit "job_state_reconciliation update has inconsistent finished/status" ;;
  bail? sequenced && negb (is_terminal l) && (is_some (up_exit_code body) || is_some (up_duration_ms body))
    with lit "active job_state_reconciliation update contains terminal result fields" ;;
  bail? sequenced && (l ==? Completed) && (up_exit_code body !=? Some 0%Z)
    with lit "completed job_state_reconciliation update requires exit_code=0" ;;
  Ok (incoming_seq, l).

(** Liveness is refreshed only for the connection that holds the lease. *)
Definition refresh_liveness (inner : RunnerRegistryInner) (cid : str) (expected : option str) (now : Z)
  : RunnerRegistryInner :=
  if is_none expected || is_some_and (fun r => r_connection_id r ==? expected) (runners inner !! cid)
  then update_runner_record inner cid (fun r => r <| r_last_seen := now |>) else inner.

Definition check_update_job (job : ShellJobRecord) (body : RunnerJobUpdateRequest) (sequenced : bool)
  : result unit str :=
  bail? client_id job !=? up_client_id body with lit "job_id does not belong to client_id" ;;
  bail? runner_instance_id job !=? up_runner_instance_id body
    with lit "job_id belongs to a replaced runner instance" ;;
  bail? is_some_and (fun rid => request_id job !=? Some rid) (up_request_id body)
    with lit "job update request_id does not match job_id" ;;
  bail? is_some (up_log_snapshot body) && negb sequenced
    with lit "job update log_snapshot requires job_state_reconciliation capability" ;;
  bail? recovery_active job && sequenced && is_none (up_log_snapshot body)
    with lit "recovering job update requires an authoritative log_snapshot or register inventory" ;;
  Ok tt.

(** The update breaks the executor protocol: the Job fails. *)
Definition fail_violation (job : ShellJobRecord) (body : RunnerJobUpdateRequest) (err : str) (now : Z)
  : ShellJobRecord :=
  let job := observe_job_terminal (job <| lifecycle := Failed |>) now in
  let job := job <| ended_at := Some now |>
                 <| exit_code := up_exit_code body |>
                 <| duration_ms := up_duration_ms body |>
                 <| error := Some (lit "executor protocol violation: " ++ err) |>
                 <| activity := None |> in
  if is_some (structured_execution job)
  then job <| command_execution_state := Some (unfinished_execution_state job) |> else job.

Definition update_logs (job : ShellJobRecord) (body : RunnerJobUpdateRequest) : option ShellJobRecord :=
  match up_log_snapshot body with
  | Some snapshot =>
      Some (job <| stdout := replace_log_from_snapshot (stdout job) (log_stdout snapshot) |>
                <| stderr := replace_log_from_snapshot (stderr job) (log_stderr snapshot) |>)
  | None =>
      out1 ← replace_log_limited (stdout job) (up_stdout_tail body);
      err1 ← replace_log_limited (stderr job) (up_stderr_tail body);
      out2 ← append_log_limited out1 (up_stdout_chunk body);
      err2 ← append_log_limited err1 (up_stderr_chunk body);
      Some (job <| stdout := out2 |> <| stderr := err2 |>)
  end.

(** The statuses whose first sight is taken as the start of the command. *)
Definition marks_started (l : RunnerJobLifecycle) : bool :=
  match l with
  | Running | Completed | Failed | Stopped | Timeout => true
  | _ => false
  end.

Definition note_progress (job : ShellJobRecord) (body : RunnerJobUpdateRequest) (l : RunnerJobLifecycle)
  (now : Z) : ShellJobRecord :=
  let job := if is_some (up_validation_progress body)
             then job <| validation_progress := up_validation_progress body |> else job in
  let job := if is_some (up_activity body) then job <| activity := up_activity body |> else job in
  if is_none (started_at job) && (up_command_execution_state body !=? Some NotStarted) && marks_started l
  then job <| started_at := Some now |> else job.

Definition advance_lifecycle (job : ShellJobRecord) (l : RunnerJobLifecycle) : ShellJobRecord :=
  if is_terminal (lifecycle job) then job
  else job <| lifecycle := if (l ==? Queued) && is_some (started_at job) then RunnerQueued else l |>.

Definition accept_terminal (job : ShellJobRecord) (body : RunnerJobUpdateRequest) (l : RunnerJobLifecycle)
  (was_recovering : bool) (now : Z) : ShellJobRecord :=
  let job := observe_job_terminal (job <| lifecycle := l |>) now in
  let job := job <| ended_at := Some now |>
                 <| exit_code := up_exit_code body |>
                 <| duration_ms := up_duration_ms body |>
                 <| error := up_error body |>
                 <| command_execution_state := up_command_execution_state body |>
                 <| activity := None |> in
  let rec := recovery job in
  let rec := if was_recovering then rec
             else rec <| rec_phase := (fun _ => Reconciled) <$> reconciled_at rec |> in
  job <| recovery := rec <| recovering_since := None |> |>.

(** [finished] on an update whose status is not terminal. *)
Definition finish_nonterminal (job : ShellJobRecord) (now : Z) : ShellJobRecord :=
  let l := if is_none (error job) && (exit_code job ==? Some 0%Z) then Completed else Failed in
  observe_job_terminal (job <| lifecycle := l |>) now <| ended_at := Some now |> <| activity := None |>.

Definition accept_update (job : ShellJobRecord) (body : RunnerJobUpdateRequest) (l : RunnerJobLifecycle)
  (now : Z) : option (ShellJobRecord * bool) :=
  let was_recovering := recovery_active job in
  job ← update_logs job body;
  let job := advance_lifecycle (note_progress job body l now) l in
  let job := if is_terminal l then accept_terminal job body l was_recovering now
             else if is_some (up_error body) then job <| error := up_error body |> else job in
  let finish := up_finished body && negb (is_terminal (lifecycle job)) in
  let job := if finish then finish_nonterminal job now else job in
  let job := if was_recovering
             then job <| recovery := recovery job <| rec_phase := Some Reconciled |>
                                       <| reconciled_at := Some now |>
                                       <| rec_reason := Some SameInstanceUpdateReconciliation |>
                                       <| recovering_since := None |> |>
             else job in
  Some (job, is_terminal l || finish).

Definition validate_update (job : ShellJobRecord) (body : RunnerJobUpdateRequest) (l : RunnerJobLifecycle)
  : result unit str :=
  check? validate_validation_progress job body l ;;
  check? validate_command_execution_state job body l ;;
  validate_job_activity job body l.

(** The Job after an update that is neither stale nor late, and whether its start
    request is dropped. *)
Definition updated_job (job : ShellJobRecord) (body : RunnerJobUpdateRequest) (incoming_seq : option Z)
  (l : RunnerJobLifecycle) (now : Z) : option (ShellJobRecord * bool) :=
  '(job', drop) ← match validate_update job body l with
                  | Err err => Some (fail_violation job body err now, true)
                  | Ok _ => accept_update job body l now
                  end;
  let job' := match incoming_seq with
              | Some sequence => job' <| last_update_seq := sequence |>
              | None => job'
              end in
  let job' := if public_mutation_signature job' ==? public_mutation_signature job then job'
              else notify_job_update job' in
  Some (job', drop).

Definition regresses_cursor (job : ShellJobRecord) (body : RunnerJobUpdateRequest) : bool :=
  is_some_and (fun snapshot => Z.ltb (ss_next_line (log_stdout snapshot)) (next_line (stdout job))
                               || Z.ltb (ss_next_line (log_stderr snapshot)) (next_line (stderr job)))
    (up_log_snapshot body).

(** What the handler does with a Job it found; [None] in the second component
    means the Job is left as it is. *)
Definition update_found_job (job : ShellJobRecord) (body : RunnerJobUpdateRequest) (sequenced : bool)
  (incoming_seq : option Z) (l : RunnerJobLifecycle) (now : Z)
  : option (result (option (ShellJobRecord * bool)) str) :=
  match check_update_job job body sequenced with
  | Err err => Some (Err err)
  | Ok _ =>
      if sequenced && is_some_and (fun s => Z.leb s (last_update_seq job)) incoming_seq then Some (Ok None)
      else if is_terminal (lifecycle job) then Some (Ok None)
      else if regresses_cursor job body
      then Some (Err (lit "job update authoritative log snapshot regresses an absolute cursor"))
      else (fun r => Ok (Some r)) <$> updated_job job body incoming_seq l now
  end.

(** The registry after the Job was updated. *)
Definition store_update (inner : RunnerRegistryInner) (id : str) (job : ShellJobRecord) (drop : bool)
  : RunnerRegistryInner :=
  let inner := inner <| jobs_by_id := <[ id := job ]> (jobs_by_id inner) |> in
  let inner := match (if drop then request_id job else None) with
               | Some rid => inner <| pending_by_id := delete rid (pending_by_id inner) |>
                                   <| request_to_job := delete rid (request_to_job inner) |>
               | None => inner
               end in
  if (visibility job ==? CleanupPending) && is_terminal (lifecycle job)
  then remove_job_record inner id else inner.

Definition update_job_checked (inner : RunnerRegistryInner) (body : RunnerJobUpdateRequest)
  (expected : option str) (now : Z) : option (RunnerRegistryInner * result ShellJobRecord str) :=
  let checked :=
    check? check_update_body body ;;
    check? assert_active_instance_locked inner (up_client_id body) (up_runner_instance_id body) ;;
    check_update_status (runner_reconciles inner (up_client_id body)) body in
  match checked with
  | Err err => Some (inner, Err err)
  | Ok (incoming_seq, l) =>
      let sequenced := runner_reconciles inner (up_client_id body) in
      let inner := refresh_liveness inner (up_client_id body) expected now in
      match jobs_by_id inner !! up_job_id body with
      | None => Some (inner, Err (lit "unknown shell job: " ++ up_job_id body))
      | Some job =>
          outcome ← update_found_job job body sequenced incoming_seq l now;
          match outcome with
          | Err err => Some (inner, Err err)
          | Ok None => Some (inner, Ok job)
          | Ok (Some (job', drop)) => Some (store_update inner (up_job_id body) job' drop, Ok job')
          end
      end
  end.

(** ** Stopping and hidden Jobs *)

Definition unknown_job (jid : str) : str := lit "unknown shell job: " ++ jid.

(** The stop request; [stop_id] is the fresh request id. *)
Definition enqueue_stop (requested_by : str) (inner : RunnerRegistryInner) (jid stop_id : str)
  (job : ShellJobRecord) (now : Z) : result RunnerRegistryInner str :=
  let request := encode_stop (mkInvocation stop_id (client_id job) requested_by now) jid in
  let operation := let? op := decode_stop request in Ok (OpJob op) in
  map_err display_enqueue_error
    (enqueue_pending_request_locked operation inner (client_id job) stop_id request false (Some jid) now).

Definition stop_queued (job : ShellJobRecord) (now : Z) : ShellJobRecord :=
  let job := observe_job_terminal (job <| lifecycle := Stopped |>) now in
  let job := job <| ended_at := Some now |>
                 <| error := Some (lit "job stopped before Runner picked it up") |> in
  notify_job_update (if is_some (structured_execution job)
                     then job <| command_execution_state := Some NotStarted |> else job).

Definition drop_start_request (inner : RunnerRegistryInner) (rid : option str) : RunnerRegistryInner :=
  match rid with
  | Some rid => let inner := remove_pending_request_locked inner rid in
                inner <| request_to_job := delete rid (request_to_job inner) |>
  | None => inner
  end.

Definition stop_job_for_auth (grace : Z) (requested_by : str) (inner : RunnerRegistryInner)
  (access : option RunnerAccess) (jid stop_id : str) (now : Z) : RunnerRegistryInner * result unit str :=
  match validate_id jid (lit "job_id") with
  | Err err => (inner, Err err)
  | Ok _ =>
      let inner := refresh_job_status_locked grace inner jid now in
      match jobs_by_id inner !! jid with
      | None => (inner, Err (unknown_job jid))
      | Some job =>
          if (visibility job !=? Public) || negb (job_visible_to_access access job now)
          then (inner, Err (unknown_job jid))
          else if recovery_active job
          then (inner, Err (lit "runner_unavailable_recovering: wait for same-instance job reconciliation before retrying stop_job"))
          else match lifecycle job with
               | Queued =>
                   (update_job_record (drop_start_request inner (request_id job)) jid
                      (fun j => stop_queued j now), Ok tt)
               | RunnerQueued | Running =>
                   match enqueue_stop requested_by inner jid stop_id job now with
                   | Err err => (inner, Err err)
                   | Ok inner =>
                       (update_job_record inner jid (fun j =>
                          notify_job_update (j <| lifecycle := StopRequested |>
                                               <| error := Some (lit "stop requested") |>)), Ok tt)
                   end
               | _ => (inner, Ok tt)
               end
      end
  end.

(** [has_token] is whether the view carries an observation token. *)
Definition promote_hidden_job (grace : Z) (has_token : ShellJobRecord -> bool) (inner : RunnerRegistryInner)
  (jid : str) (now : Z) : RunnerRegistryInner * result unit str :=
  let inner := refresh_job_status_locked grace inner jid now in
  match jobs_by_id inner !! jid with
  | None => (inner, Err (unknown_job jid))
  | Some job =>
      if visibility job ==? CleanupPending
      then (inner, Err (lit "structured job cleanup is pending: " ++ jid))
      else if is_terminal (lifecycle job) then (inner, Ok tt)
      else if negb (has_token job)
      then (inner, Err (lit "structured job has no canonical observation token: " ++ jid))
      else (update_job_record inner jid (fun j => j <| visibility := Public |>), Ok tt)
  end.

Definition cancel_hidden_job_for_auth (grace : Z) (inner : RunnerRegistryInner)
  (access : option RunnerAccess) (jid stop_id : str) (now : Z) : RunnerRegistryInner * result bool str :=
  match validate_id jid (lit "job_id") with
  | Err err => (inner, Err err)
  | Ok _ =>
      let inner := refresh_job_status_locked grace inner jid now in
      match jobs_by_id inner !! jid with
      | None => (inner, Err (unknown_job jid))
      | Some job =>
          if (visibility job ==? Public) || negb (job_visible_to_access access job now)
          then (inner, Err (unknown_job jid))
          else if lifecycle job ==? Queued
          then (remove_job_record (drop_start_request inner (request_id job)) jid, Ok true)
          else if is_terminal (lifecycle job) then (remove_job_record inner jid, Ok true)
          else
            let inner := update_job_record inner jid (fun j => j <| visibility := CleanupPending |>) in
            if negb (recovery_active job) && is_runner_active (lifecycle job)
               && (lifecycle job !=? StopRequested)
            then match enqueue_stop (lit "tool_runtime_cleanup") inner jid stop_id job now with
                 | Err err => (inner, Err err)
                 | Ok inner =>
                     (update_job_record inner jid (fun j =>
                        j <| lifecycle := StopRequested |>
                          <| error := Some (lit "internal structured execution cleanup requested") |>), Ok false)
                 end
            else (inner, Ok false)
      end
  end.

(** The discard of a terminal hidden Job whose result was already returned. *)
Definition remove_projected_hidden_terminal_job_record (inner : RunnerRegistryInner) (jid : str) (now : Z)
  : RunnerRegistryInner * bool :=
  match jobs_by_id inner !! jid with
  | None => (inner, false)
  | Some job =>
      match request_id job with
      | None => (inner, false)
      | Some rid =>
          if (visibility job !=? HiddenUntilHandoff) || negb (is_terminal (lifecycle job))
          then (inner, false)
          else
            let inner := update_runner_record inner (client_id job) (fun r =>
                           if r_runner_instance_id r ==? runner_instance_id job
                           then remember_projected_structured_terminal r jid rid now else r) in
            let inner := remove_job_record inner jid in
            (drop_from_queue
               (inner <| request_to_job := delete rid (request_to_job inner) |>
                      <| pending_by_id := delete rid (pending_by_id inner) |>) (client_id job) rid, true)
      end
  end.
