(* ===== verification/UpdateFacts.v ===== *)
(** * UpdateFacts: what a Runner's Job update can and cannot do *)
From S2P Require Import Prelude RustStr Lifecycle JobLog Capabilities RegistryState JobState InventoryCheck Samples JobUpdate.

(** ** The pieces of an accepted update *)

(** What an update never touches, and the verdict it may set. *)
Record update_frame (old new : ShellJobRecord) : Prop := {
  uf_job_id : job_id new = job_id old;
  uf_request_id : request_id new = request_id old;
  uf_client_id : client_id new = client_id old;
  uf_auth_group : auth_group new = auth_group old;
  uf_owner : owner_at_admission new = owner_at_admission old;
  uf_instance : runner_instance_id new = runner_instance_id old;
  uf_visibility : visibility new = visibility old;
  uf_observed : forall t, terminal_observed_at (observation old) = Some t ->
    terminal_observed_at (observation new) = Some t;
  uf_start : start_of new = start_of old
}.

#[export] Instance update_frame_refl : Reflexive update_frame.
Proof. done. Qed.

#[export] Instance update_frame_trans : Transitive update_frame.
Proof. intros a b c [] []. split; try congruence. auto. Qed.

Lemma observe_frame (j : ShellJobRecord) (now : Z) : update_frame j (observe_job_terminal j now).
Proof.
  unfold observe_job_terminal. destruct (terminal_observed_at (observation j)) eqn:E.
  - by rewrite andb_false_r.
  - destruct (is_terminal _); cbn; [ | done]. split; try done. congruence.
Qed.

Lemma notify_frame (j : ShellJobRecord) : update_frame j (notify_job_update j).
Proof. unfold notify_job_update. split; try done. intros t Ht. cbn. by destruct (_ && _). Qed.

Lemma observe_observed (j : ShellJobRecord) (now : Z) :
  is_terminal (lifecycle j) = true ->
  is_some (terminal_observed_at (observation (observe_job_terminal j now))) = true.
Proof.
  intros Ht. unfold observe_job_terminal. rewrite Ht.
  by destruct (terminal_observed_at (observation j)) eqn:E; cbn; rewrite ?E.
Qed.

Lemma observe_same (j : ShellJobRecord) (now : Z) :
  observe_job_terminal j now = j <| observation := observation (observe_job_terminal j now) |>.
Proof. unfold observe_job_terminal. destruct (_ && _); by destruct j. Qed.

(** [j'] is [j] with other values in the fields that neither the frame nor the
    invariant reads. *)
Ltac frame_step := split; cbn; try done.

Lemma fail_violation_frame (j : ShellJobRecord) (body : RunnerJobUpdateRequest) (err : str) (now : Z) :
  update_frame j (fail_violation j body err now).
Proof.
  unfold fail_violation. rewrite observe_same. set (o := observe_job_terminal _ now).
  assert (Ho : update_frame (j <| lifecycle := Failed |>) o) by apply observe_frame.
  destruct Ho as [_ _ _ _ _ _ _ Hobs]. cbn. destruct (structured_execution j); cbn; frame_step.
Qed.

Lemma fail_violation_verdict (j : ShellJobRecord) (body : RunnerJobUpdateRequest) (err : str) (now : Z) :
  let j' := fail_violation j body err now in
  lifecycle j' = Failed
  /\ is_some (terminal_observed_at (observation j')) = true
  /\ recovery j' = recovery j /\ validation_progress j' = validation_progress j
  /\ ended_at j' = Some now.
Proof.
  cbn zeta. unfold fail_violation. rewrite observe_same.
  pose proof (observe_observed (j <| lifecycle := Failed |>) now eq_refl) as Hobs.
  set (o := observe_job_terminal _ now) in *. cbn. by destruct (structured_execution j).
Qed.

Lemma update_logs_frame (j j1 : ShellJobRecord) (body : RunnerJobUpdateRequest) :
  update_logs j body = Some j1 ->
  update_frame j j1 /\ lifecycle j1 = lifecycle j /\ recovery j1 = recovery j
  /\ observation j1 = observation j /\ validation_progress j1 = validation_progress j
  /\ exit_code j1 = exit_code j /\ error j1 = error j.
Proof.
  unfold update_logs. destruct (up_log_snapshot body).
  - intros [= <-]. done.
  - destruct (replace_log_limited (stdout j) _) as [o1|]; [ | done].
    destruct (replace_log_limited (stderr j) _) as [e1|]; [ | done]. cbn.
    destruct (append_log_limited o1 _) as [o2|]; [ | done].
    destruct (append_log_limited e1 _) as [e2|]; [ | done]. cbn. by intros [= <-].
Qed.

Lemma note_progress_frame (j : ShellJobRecord) (body : RunnerJobUpdateRequest) (l : RunnerJobLifecycle) (now : Z) :
  let j1 := note_progress j body l now in
  update_frame j j1 /\ lifecycle j1 = lifecycle j /\ recovery j1 = recovery j
  /\ observation j1 = observation j
  /\ validation_progress j1
     = (if is_some (up_validation_progress body) then up_validation_progress body else validation_progress j)
  /\ exit_code j1 = exit_code j /\ error j1 = error j.
Proof.
  cbn zeta. unfold note_progress. destruct (is_some (up_validation_progress body)), (is_some (up_activity body));
    cbn; destruct (is_none (started_at j) && _ && _); done.
Qed.

Lemma advance_lifecycle_frame (j : ShellJobRecord) (l : RunnerJobLifecycle) :
  is_terminal (lifecycle j) = false ->
  let j1 := advance_lifecycle j l in
  update_frame j j1 /\ recovery j1 = recovery j /\ observation j1 = observation j
  /\ validation_progress j1 = validation_progress j /\ (is_terminal (lifecycle j1) = is_terminal l)
  /\ exit_code j1 = exit_code j /\ error j1 = error j.
Proof.
  intros Ht. cbn zeta. unfold advance_lifecycle. rewrite Ht. split_and!; try done. cbn.
  destruct (l ==? Queued) eqn:E; [ | done]. apply beq_true in E as ->. by destruct (is_some _).
Qed.

(** What the verdict steps leave: everything outside the verdict, and a terminal
    status with its observation time. *)
Record verdict_step (old new : ShellJobRecord) : Prop := {
  vs_frame : update_frame old new;
  vs_progress : validation_progress new = validation_progress old;
  vs_observed : is_terminal (lifecycle new) = true ->
    is_some (terminal_observed_at (observation new)) = true;
  vs_recovering : rec_phase (recovery new) = Some Recovering ->
    recovering_since (recovery new) = recovering_since (recovery old)
    /\ rec_phase (recovery old) = Some Recovering
}.

Lemma accept_terminal_step (j : ShellJobRecord) (body : RunnerJobUpdateRequest) (l : RunnerJobLifecycle)
  (now : Z) :
  is_terminal l = true ->
  let j' := accept_terminal j body l false now in
  verdict_step j j' /\ lifecycle j' = l /\ exit_code j' = up_exit_code body.
Proof.
  intros Hl. cbn zeta. unfold accept_terminal. rewrite observe_same.
  pose proof (observe_frame (j <| lifecycle := l |>) now) as [_ _ _ _ _ _ _ Hobs].
  pose proof (observe_observed (j <| lifecycle := l |>) now Hl) as Hsome.
  set (o := observe_job_terminal _ now) in *. cbn in *. split; [ | done]. split; cbn; try done.
  by destruct (reconciled_at (recovery j)).
Qed.

(** In recovery the phase is overwritten afterwards, so only the frame matters. *)
Lemma accept_terminal_recovering (j : ShellJobRecord) (body : RunnerJobUpdateRequest) (l : RunnerJobLifecycle)
  (now : Z) :
  is_terminal l = true ->
  let j' := accept_terminal j body l true now in
  update_frame j j' /\ validation_progress j' = validation_progress j
  /\ is_some (terminal_observed_at (observation j')) = true /\ lifecycle j' = l
  /\ exit_code j' = up_exit_code body.
Proof.
  intros Hl. cbn zeta. unfold accept_terminal. rewrite observe_same.
  pose proof (observe_frame (j <| lifecycle := l |>) now) as [_ _ _ _ _ _ _ Hobs].
  pose proof (observe_observed (j <| lifecycle := l |>) now Hl) as Hsome.
  set (o := observe_job_terminal _ now) in *. cbn in *. split_and!; try done; split; try done.
Qed.

Lemma finish_nonterminal_step (j : ShellJobRecord) (now : Z) :
  let j' := finish_nonterminal j now in
  update_frame j j' /\ validation_progress j' = validation_progress j /\ recovery j' = recovery j
  /\ is_some (terminal_observed_at (observation j')) = true /\ is_terminal (lifecycle j') = true
  /\ (lifecycle j' = Completed -> exit_code j' = Some 0%Z).
Proof.
  cbn zeta. unfold finish_nonterminal.
  set (l := if is_none (error j) && (exit_code j ==? Some 0%Z) then Completed else Failed).
  assert (Hl : is_terminal l = true) by (subst l; by destruct (_ && _)).
  assert (Hc : l = Completed -> exit_code j = Some 0%Z).
  { subst l. destruct (_ && _) eqn:E; [intros _ | done]. split_andb. done. }
  rewrite observe_same. pose proof (observe_frame (j <| lifecycle := l |>) now) as [_ _ _ _ _ _ _ Hobs].
  pose proof (observe_observed (j <| lifecycle := l |>) now Hl) as Hsome.
  set (o := observe_job_terminal _ now) in *. cbn in *. split_and!; try done; split; try done.
Qed.

(** The finishing flag ends a Job that is not ended yet, and nothing else does. *)
Lemma finish_flag_step (j : ShellJobRecord) (body : RunnerJobUpdateRequest) (now : Z) :
  is_terminal (lifecycle j) = false ->
  let j' := if up_finished body then finish_nonterminal j now else j in
  update_frame j j' /\ recovery j' = recovery j /\ validation_progress j' = validation_progress j
  /\ is_terminal (lifecycle j') = up_finished body
  /\ (is_terminal (lifecycle j') = true -> is_some (terminal_observed_at (observation j')) = true).
Proof.
  intros Ht. cbn zeta. destruct (up_finished body); [ | split_and!; try done; congruence].
  destruct (finish_nonterminal_step j now) as (A1 & A2 & A3 & A4 & A5 & _). by split_and!.
Qed.

(** An accepted update keeps the frame and the invariant, moves the progress only
    to what it carries, and drops the start request exactly when the Job ended. *)
Lemma accept_update_spec (j j' : ShellJobRecord) (body : RunnerJobUpdateRequest) (l : RunnerJobLifecycle)
  (now : Z) (drop : bool) :
  is_terminal (lifecycle j) = false ->
  accept_update j body l now = Some (j', drop) ->
  update_frame j j' /\ (job_inv j -> job_inv j')
  /\ validation_progress j'
     = (if is_some (up_validation_progress body) then up_validation_progress body else validation_progress j)
  /\ drop = is_terminal (lifecycle j')
  /\ (is_terminal l = true -> lifecycle j' = l /\ exit_code j' = up_exit_code body)
  /\ (is_terminal l = false -> up_finished body = false -> is_terminal (lifecycle j') = false).
Proof.
  intros Ht. unfold accept_update. destruct (update_logs j body) as [j1|] eqn:E1; [ | done]. cbn.
  apply update_logs_frame in E1 as (F1 & L1 & R1 & O1 & V1 & _).
  destruct (note_progress_frame j1 body l now) as (F2 & L2 & R2 & O2 & V2 & _).
  set (j2 := note_progress j1 body l now) in *.
  destruct (advance_lifecycle_frame j2 l) as (F3 & R3 & O3 & V3 & T3 & _); [congruence | ].
  set (j3 := advance_lifecycle j2 l) in *.
  assert (F : update_frame j j3) by (do 2 (etransitivity; [done | ]); done).
  assert (R : recovery j3 = recovery j) by congruence.
  assert (O : observation j3 = observation j) by congruence.
  assert (V : validation_progress j3 = (if is_some (up_validation_progress body)
    then up_validation_progress body else validation_progress j)) by (rewrite V3, V2; by rewrite V1).
  clearbody j3. clear j1 j2 F1 L1 R1 O1 V1 F2 L2 R2 O2 V2 F3 R3 O3 V3.
  destruct (is_terminal l) eqn:El.
  - destruct (recovery_active j) eqn:Er.
    + destruct (accept_terminal_recovering j3 body l now El) as (Ga & Gv & Go & Gl & Gx).
      set (j4 := accept_terminal j3 body l true now) in *. clearbody j4. rewrite Gl, El. cbn [negb andb]. rewrite andb_false_r.
      intros [= <- <-]. cbn. rewrite Gl, El, Gv, Gx. split_and!; try done.
      etransitivity; [exact F | ]. destruct Ga. split; done.
    + destruct (accept_terminal_step j3 body l now El) as ([Ga Gv Go Gr] & Gl & Gx).
      set (j4 := accept_terminal j3 body l false now) in *. clearbody j4. rewrite Gl, El. cbn [negb andb]. rewrite andb_false_r.
      intros [= <- <-]. rewrite Gl, El, Gv, Gx. split_and!; try done.
      * by etransitivity.
      * intros [Hi1 Hi2]. split.
        -- done.
        -- intros Hp. destruct (Gr Hp) as [Hs Hq]. rewrite Hs, R. apply Hi2. by rewrite <- R.
  - set (j4 := if is_some (up_error body) then j3 <| error := up_error body |> else j3).
    assert (G : update_frame j j4 /\ recovery j4 = recovery j /\ observation j4 = observation j
      /\ validation_progress j4 = validation_progress j3 /\ is_terminal (lifecycle j4) = false).
    { subst j4. destruct (is_some (up_error body)); split_and!; try done.
      etransitivity; [exact F | ]. by split. }
    destruct G as (Gf & Gr & Go & Gv & Gt). clearbody j4. rewrite Gt. cbn [negb]. rewrite andb_true_r.
    set (j5 := if up_finished body then finish_nonterminal j4 now else j4).
    destruct (finish_flag_step j4 body now Gt) as (Kf & Kr & Kv & Kt & Ko). fold j5 in Kf, Kr, Kv, Kt, Ko.
    clearbody j5. rewrite Gr in Kr. rewrite Gv in Kv. apply (transitivity Gf) in Kf.
    destruct (recovery_active j) eqn:Er; intros [= <- <-]; cbn; rewrite Kv, V, Kt; split_and!; try done.
    + etransitivity; [exact Kf | by split].
    + intros [Hi1 Hi2]. split; [done | ]. rewrite Kr. done.
Qed.

Definition completed_steps (j : ShellJobRecord) : nat := unwrap_or 0 (completed <$> validation_progress j).

Lemma validated_progress_bounds (j : ShellJobRecord) (body : RunnerJobUpdateRequest) (l : RunnerJobLifecycle)
  (p : ShellJobValidationProgress) :
  validate_validation_progress j body l = Ok tt -> up_validation_progress body = Some p ->
  completed_steps j <= completed p <= completed_steps j + 1.
Proof.
  unfold validate_validation_progress, invalid_progress, completed_steps. intros Hv Hp. rewrite Hp in Hv.
  destruct (is_empty (validation_steps j)); [done | ]. destruct (negb _); [done | ].
  destruct (up_finished body && _); [done | ]. destruct (is_queued l || _); [done | ].
  destruct (Nat.ltb _ _ || Nat.ltb _ _) eqn:E; [done | ]. apply orb_false_iff in E as [E1 E2].
  apply Nat.ltb_ge in E1, E2. done.
Qed.

Lemma sequence_frame (j : ShellJobRecord) (s : Z) : update_frame j (j <| last_update_seq := s |>).
Proof. by split. Qed.

Lemma maybe_notify_frame (j : ShellJobRecord) (b : bool) :
  let j' := if b then j else notify_job_update j in
  update_frame j j' /\ (job_inv j -> job_inv j') /\ lifecycle j' = lifecycle j
  /\ last_update_seq j' = last_update_seq j /\ completed_steps j' = completed_steps j
  /\ exit_code j' = exit_code j.
Proof.
  cbn zeta. destruct b; [done | ]. split_and!; [apply notify_frame | apply notify_inv | done ..].
Qed.

(** A Job that takes an update: its frame and invariant are kept, it has the
    update's sequence number, at most one more validation step is completed, its
    start request is dropped exactly when it ended, and a Job that ends completed
    by its status did so with the exit code the update carries. *)
Lemma updated_job_spec (j j' : ShellJobRecord) (body : RunnerJobUpdateRequest) (seq : option Z)
  (l : RunnerJobLifecycle) (now : Z) (drop : bool) :
  is_terminal (lifecycle j) = false ->
  updated_job j body seq l now = Some (j', drop) ->
  update_frame j j' /\ (job_inv j -> job_inv j')
  /\ last_update_seq j' = unwrap_or (last_update_seq j') seq
  /\ completed_steps j <= completed_steps j' <= completed_steps j + 1
  /\ drop = is_terminal (lifecycle j')
  /\ (up_finished body = is_terminal l -> lifecycle j' = Completed ->
      l = Completed /\ exit_code j' = up_exit_code body).
Proof.
  intros Ht. unfold updated_job.
  set (inner := match validate_update j body l with Err err => _ | Ok _ => _ end).
  destruct inner as [[j1 d]|] eqn:E; [ | done]. cbn [mbind option_bind]. subst inner.
  assert (H1 : update_frame j j1 /\ (job_inv j -> job_inv j1)
    /\ completed_steps j <= completed_steps j1 <= completed_steps j + 1
    /\ d = is_terminal (lifecycle j1)
    /\ (up_finished body = is_terminal l -> lifecycle j1 = Completed ->
        l = Completed /\ exit_code j1 = up_exit_code body)).
  { destruct (validate_update j body l) as [[]|err] eqn:Ev.
    - apply accept_update_spec in E as (F & I & V & D & T & N); [ | done].
      assert (Hc : completed_steps j <= completed_steps j1 <= completed_steps j + 1).
      { destruct (up_validation_progress body) as [p|] eqn:Ep; cbn [is_some] in V.
        - replace (completed_steps j1) with (completed p) by (unfold completed_steps; by rewrite V).
          unfold validate_update in Ev. step_guards Ev. destruct value. by eapply validated_progress_bounds.
        - replace (completed_steps j1) with (completed_steps j) by (unfold completed_steps; by rewrite V). lia. }
      split; [done | ]. split; [done | ]. split; [done | ]. split; [done | ].
      intros Hf Hcomp.
      destruct (is_terminal l) eqn:El.
      + destruct (T eq_refl) as [Hl Hx]. split; congruence.
      + specialize (N eq_refl Hf). by rewrite Hcomp in N.
    - injection E as <- <-. destruct (fail_violation_verdict j body err now) as (L & O & R & V & _).
      replace (completed_steps (fail_violation j body err now)) with (completed_steps j)
        by (unfold completed_steps; by rewrite V).
      rewrite L. split; [apply fail_violation_frame | ]. split.
      + intros [Hi1 Hi2]. split; [done | ]. by rewrite R.
      + split; [lia | done]. }
  destruct H1 as (F & I & C & D & X). clear E.
  set (j2 := match seq with Some s => _ | None => j1 end).
  assert (H2 : update_frame j1 j2 /\ (job_inv j1 -> job_inv j2) /\ lifecycle j2 = lifecycle j1
    /\ last_update_seq j2 = unwrap_or (last_update_seq j2) seq /\ completed_steps j2 = completed_steps j1
    /\ exit_code j2 = exit_code j1).
  { subst j2. destruct seq; split_and!; done. }
  destruct H2 as (F2 & I2 & L2 & S2 & C2 & X2). clearbody j2.
  destruct (maybe_notify_frame j2 (public_mutation_signature j2 ==? public_mutation_signature j))
    as (F3 & I3 & L3 & S3 & C3 & X3). cbn zeta in *.
  set (j3 := if _ ==? _ then j2 else notify_job_update j2) in *. clearbody j3.
  intros [= <- <-]. split; [etransitivity; [exact F | by etransitivity] | ]. split; [auto | ].
  split; [rewrite S3; by destruct seq | ]. rewrite C3, C2, L3, L2, X3, X2. done.
Qed.

(** ** The handler *)

Lemma sequenced_status (body : RunnerJobUpdateRequest) (seq : option Z) (l : RunnerJobLifecycle) :
  check_update_status true body = Ok (seq, l) ->
  exists s, seq = Some s /\ up_update_seq body = Some s /\ (0 < s)%Z
    /\ from_wire (up_status body) = Ok l
    /\ up_finished body = is_terminal l
    /\ (is_runner_active l || is_terminal l = true)
    /\ (l = Completed -> up_exit_code body = Some 0%Z).
Proof.
  unfold check_update_status. intros H.
  destruct (opt_filter (fun s => Z.ltb 0 s) (up_update_seq body)) as [s|] eqn:Es; [ | done].
  apply opt_filter_some in Es as [Es Hs]. apply Z.ltb_lt in Hs. cbn [result_bind andb] in H.
  destruct (negb (up_status body ==? trim (up_status body))) eqn:Et; [done | ].
  apply negb_false_iff, beq_true in Et. rewrite <- Et in H. unfold parse_job_lifecycle in H.
  destruct (from_wire (up_status body)) as [l0|] eqn:El; [ | done]. cbn [map_err result_bind] in H.
  step_guards H. injection H as <- <-. apply negb_false_iff in Hguard, Hguard0.
  exists s. split_and!; try done.
  - by apply Bool.eqb_prop.
  - intros ->. rewrite beq_refl in Hguard2. by apply negb_false_iff, beq_true in Hguard2.
Qed.

Lemma refresh_liveness_jobs (i : RunnerRegistryInner) (cid : str) (expected : option str) (now : Z) :
  jobs_by_id (refresh_liveness i cid expected now) = jobs_by_id i.
Proof. unfold refresh_liveness. by destruct (_ || _). Qed.

Lemma store_update_lookup (i : RunnerRegistryInner) (id : str) (j : ShellJobRecord) (drop : bool) (k : str) :
  jobs_by_id (store_update i id j drop) !! k
  = if decide (k = id)
    then (if (visibility j ==? CleanupPending) && is_terminal (lifecycle j) then None else Some j)
    else jobs_by_id i !! k.
Proof.
  unfold store_update. destruct (if drop then request_id j else None) as [rid|];
    destruct (_ && _); cbn; destruct (decide (k = id)) as [->|Hk];
    rewrite ?lookup_delete_eq, ?lookup_insert_eq by done; try done;
    rewrite ?lookup_delete_ne, ?lookup_insert_ne by done; done.
Qed.

(** The cases of the handler, for any Runner. *)
Lemma update_job_cases (inner inner' : RunnerRegistryInner) (body : RunnerJobUpdateRequest)
  (expected : option str) (now : Z) (r : result ShellJobRecord str) :
  update_job_checked inner body expected now = Some (inner', r) ->
  jobs_by_id inner' = jobs_by_id inner
  \/ exists seq l j j' drop,
       check_update_status (runner_reconciles inner (up_client_id body)) body = Ok (seq, l)
       /\ jobs_by_id inner !! up_job_id body = Some j /\ r = Ok j'
       /\ check_update_job j body (runner_reconciles inner (up_client_id body)) = Ok tt
       /\ (runner_reconciles inner (up_client_id body) = true ->
           is_some_and (fun s => Z.leb s (last_update_seq j)) seq = false)
       /\ is_terminal (lifecycle j) = false
       /\ updated_job j body seq l now = Some (j', drop)
       /\ forall k, jobs_by_id inner' !! k
          = if decide (k = up_job_id body)
            then (if (visibility j' ==? CleanupPending) && is_terminal (lifecycle j') then None else Some j')
            else jobs_by_id inner !! k.
Proof.
  unfold update_job_checked. set (sequenced := runner_reconciles inner (up_client_id body)).
  set (checked := result_bind (check_update_body body) _).
  destruct checked as [[seq l]|] eqn:Ec; [ | intros [= <- _]; by left]. subst checked.
  destruct (check_update_body body); [ | done]. cbn [result_bind] in Ec.
  destruct (assert_active_instance_locked _ _ _); [ | done]. cbn [result_bind] in Ec.
  set (live := refresh_liveness inner _ expected now).
  assert (Hl : jobs_by_id live = jobs_by_id inner) by apply refresh_liveness_jobs.
  rewrite Hl. destruct (jobs_by_id inner !! up_job_id body) as [j|] eqn:Ej; [ | intros [= <- _]; by left].
  unfold update_found_job.
  destruct (check_update_job j body sequenced) as [[]|] eqn:Ek; [ | intros [= <- _]; by left].
  destruct (sequenced && _) eqn:Es; [intros [= <- _]; by left | ].
  destruct (is_terminal (lifecycle j)) eqn:Et; [intros [= <- _]; by left | ].
  destruct (regresses_cursor j body); [intros [= <- _]; by left | ].
  destruct (updated_job j body seq l now) as [[j' drop]|] eqn:Eu; [ | done]. cbn.
  intros [= <- <-]. right. exists seq, l, j, j', drop. split_and!; try done.
  - intros Hs. by rewrite Hs in Es.
  - intros k. rewrite store_update_lookup. by rewrite Hl.
Qed.

(** An update of a reconciling Runner is applied at most once and in order:
    only the Job it names can change, and only while that Job is live and held by
    the very Runner instance that sent it; the update's sequence number is then
    strictly greater than the Job's and becomes the Job's, identity and
    authorisation stay, validation advances by at most one step, a Job never ends
    as completed without exit code zero, and only a hidden Job awaiting cleanup is
    dropped when it ends. *)
Lemma sequenced_update_effect (inner inner' : RunnerRegistryInner) (body : RunnerJobUpdateRequest)
  (expected : option str) (now : Z) (r : result ShellJobRecord str) (k : str) (j : ShellJobRecord) :
  runner_reconciles inner (up_client_id body) = true ->
  update_job_checked inner body expected now = Some (inner', r) ->
  jobs_by_id inner !! k = Some j ->
  jobs_by_id inner' !! k = Some j
  \/ exists j', k = up_job_id body /\ r = Ok j'
     /\ is_terminal (lifecycle j) = false
     /\ client_id j = up_client_id body /\ runner_instance_id j = up_runner_instance_id body
     /\ update_frame j j'
     /\ up_update_seq body = Some (last_update_seq j') /\ (last_update_seq j < last_update_seq j')%Z
     /\ completed_steps j <= completed_steps j' <= completed_steps j + 1
     /\ (lifecycle j' = Completed -> exit_code j' = Some 0%Z)
     /\ (jobs_by_id inner' !! k = Some j'
         \/ jobs_by_id inner' !! k = None /\ visibility j = CleanupPending /\ is_terminal (lifecycle j') = true).
Proof.
  intros Hseq Hu Hj.
  destruct (update_job_cases inner inner' body expected now r Hu)
    as [->|(seq & l & j0 & j' & drop & Hs & Hj0 & -> & Hc & Hstale & Ht & Hup & Hk)]; [by left | ].
  rewrite Hseq in *. specialize (Hstale eq_refl). rewrite Hk.
  destruct (decide (k = up_job_id body)) as [->|Hne]; [ | left; by rewrite Hj].
  rewrite Hj in Hj0. injection Hj0 as <-. right. exists j'.
  apply sequenced_status in Hs as (s & -> & Hbs & Hpos & _ & Hfin & _ & Hexit).
  apply updated_job_spec in Hup as (F & _ & S & C & _ & X); [ | done]. cbn in S, Hstale. apply Z.leb_gt in Hstale.
  unfold check_update_job in Hc. step_guards Hc.
  apply negb_false_iff, beq_true in Hguard. apply negb_false_iff, beq_true in Hguard0.
  rewrite <- (uf_visibility _ _ F). split_and!; try done; try lia; [congruence | | ].
  - intros Hcomp. destruct (X Hfin Hcomp) as [-> ->]. by apply Hexit.
  - destruct ((visibility j' ==? CleanupPending) && is_terminal (lifecycle j')) eqn:E; [right | by left].
    split_andb. done.
Qed.

(** The update a Runner sends when its Job "a" ends. *)
Definition ended_update (status : str) (code : option Z) : RunnerJobUpdateRequest :=
  mkJobUpdate (lit "r1") (lit "i1") (lit "a") (Some (lit "req-a")) (Some 4%Z) status
    None None None None None code None None None None None true.

Lemma sequenced_update_effect_witness :
  exists inner' j', update_job_checked connected_registry (ended_update (lit "completed") (Some 0%Z)) None 300
                    = Some (inner', Ok j')
    /\ jobs_by_id inner' !! lit "a" = Some j' /\ lifecycle j' = Completed /\ last_update_seq j' = 4%Z.
Proof.
  destruct (update_job_checked connected_registry (ended_update (lit "completed") (Some 0%Z)) None 300)
    as [[i' r]|] eqn:E; [ | vm_compute in E; discriminate].
  destruct (jobs_by_id connected_registry !! lit "a") as [j|] eqn:Ej; [ | vm_compute in Ej; discriminate].
  destruct (sequenced_update_effect connected_registry i' (ended_update (lit "completed") (Some 0%Z)) None 300 r
    (lit "a") j) as [Hsame|(j' & _ & -> & _ & _ & _ & _ & Hs & _ & _ & _ & Hk)].
  - vm_compute. reflexivity.
  - exact E.
  - exact Ej.
  - exfalso. vm_compute in E. injection E as <- <-. vm_compute in Hsame, Ej. congruence.
  - exists i', j'. vm_compute in E. injection E as <- <-. split_and!; try reflexivity.
Defined.

(** ** Timeout spellings *)

(** The two timeout spellings are not handled alike: they are the same outcome
    to the protocol checks, but when the first terminal report of a Job not yet
    seen running carries an outcome other than not-started, [timeout] records a
    start time and [timed_out] leaves the Job without one. *)
Lemma timeout_spellings_diverge (job : ShellJobRecord) (body : RunnerJobUpdateRequest) (now : Z) :
  started_at job = None -> up_command_execution_state body <> Some NotStarted ->
  validate_update job body Timeout = validate_update job body TimedOut
  /\ started_at (note_progress job body Timeout now) = Some now
  /\ started_at (note_progress job body TimedOut now) = None.
Proof.
  intros Hs Hn. split.
  - unfold validate_update, validate_validation_progress, validate_command_execution_state,
      validate_job_activity, progress_shape_valid. cbn [is_terminal negb andb is_queued is_cancelling].
    destruct (up_command_execution_state body) as [[]|]; reflexivity.
  - assert (He : negb (up_command_execution_state body ==? Some NotStarted) = true)
      by (by apply negb_true_iff, beq_neq).
    unfold note_progress. destruct (is_some (up_validation_progress body)), (is_some (up_activity body)); cbn;
      rewrite Hs, He; cbn; done.
Qed.

Lemma timeout_spellings_diverge_witness :
  let job := sample_job (lit "a") RunnerQueued JobRecoveryState_default <| started_at := None |> in
  started_at (note_progress job (ended_update (lit "timeout") None) Timeout 300) = Some 300%Z
  /\ started_at (note_progress job (ended_update (lit "timed_out") None) TimedOut 300) = None.
Proof.
  set (job := sample_job (lit "a") RunnerQueued JobRecoveryState_default <| started_at := None |>).
  destruct (timeout_spellings_diverge job (ended_update (lit "timeout") None) 300) as (_ & Ht & _);
    [reflexivity | discriminate | ].
  destruct (timeout_spellings_diverge job (ended_update (lit "timed_out") None) 300) as (_ & _ & Hd);
    [reflexivity | discriminate | ].
  split; [exact Ht | exact Hd].
Defined.
