(* ===== verification/ProjectInventory.v ===== *)
(** * ProjectInventory: crates/webcodex-runner-registry/src/project_inventory.rs and
    the project projection of projects.rs

    A Runner reports its projects as numbered pages of a snapshot.  Pages are
    staged until the last one arrives and the whole snapshot is published at once;
    the published list is what requests are routed by.  Everything that goes wrong
    with a page (order, totals, duplicates, size, age) discards the staging and
    never the published list.  The length and digest of a page's JSON encoding are
    parameters (serde_json and sha2). *)
From S2P Require Import Prelude RustStr Capabilities RunnerData RegistryState JobState InventoryCheck.

Definition MAX_RETIRED_PROJECT_GENERATIONS : nat := 16.

Definition retire_generation (state : ProjectInventoryState) (generation : str) : ProjectInventoryState :=
  if is_empty generation || one_of generation (retired_generations state) then state
  else state <| retired_generations :=
         keep_last MAX_RETIRED_PROJECT_GENERATIONS (retired_generations state ++ [generation]) |>.

(** [if let Some(staging) = state.staging.take() { retire_generation(...) }]. *)
Definition drop_staging (state : ProjectInventoryState) : ProjectInventoryState :=
  match staging state with
  | Some st => retire_generation (state <| staging := None |>) (stg_generation st)
  | None => state
  end.

Definition set_inventory (r : RunnerRecord) (state : ProjectInventoryState) : RunnerRecord :=
  r <| r_project_inventory := state |>.

Definition set_status (r : RunnerRecord) (s : ShellProjectInventoryStatus) : RunnerRecord :=
  set_inventory r (r_project_inventory r <| inv_status := s |>).

Definition clear_staging (r : RunnerRecord) (error_code : option str) (now : Z) : RunnerRecord :=
  let r := set_inventory r (drop_staging (r_project_inventory r)) in
  match error_code with
  | None => r
  | Some code =>
      let s := inv_status (r_project_inventory r) in
      set_status r (status (lit "degraded") (status_generation s) (status_total_reported s)
                      (length (r_projects r)) (Some code) (or_else (last_sync_at s) (Some now)))
  end.

Definition preserve_authoritative_pending (existing : ProjectInventoryState) (synced : nat)
  : ProjectInventoryState :=
  let state := drop_staging existing in
  state <| inv_status := status (lit "pending") (status_generation (inv_status state)) None synced None
                           (last_sync_at (inv_status state)) |>.

Definition reconcile_dynamic_projection (r : RunnerRecord) (now : Z) : RunnerRecord :=
  let r := clear_staging r None now in
  let state := r_project_inventory r in
  let state := match status_generation (inv_status state) with
               | Some previous => retire_generation state previous
               | None => state
               end in
  set_inventory r (state <| inv_status := status (lit "complete") None (Some (length (r_projects r)))
                              (length (r_projects r)) None (Some now) |>).

Definition expire_staging (r : RunnerRecord) (now : Z) : RunnerRecord :=
  if is_some_and (fun st => Z.ltb PROJECT_INVENTORY_STAGING_TTL_SECS (i64_sat_sub now (stg_started_at st)))
       (staging (r_project_inventory r))
  then clear_staging r (Some (lit "project_inventory_sync_timeout")) now
  else r.

Definition validate_generation (generation : str) : result unit str :=
  bail? is_empty generation || Z.ltb PROJECT_INVENTORY_GENERATION_MAX_BYTES (str_len generation)
        || negb (id_chars_ok generation)
    with lit "project_inventory_invalid_generation" ;;
  Ok tt.

Definition note_nonfatal_error (r : RunnerRecord) (code : str) : RunnerRecord :=
  set_status r (inv_status (r_project_inventory r) <| last_error_code := Some code |>).

Definition fail_current_staging (r : RunnerRecord) (code : str) (now : Z) : RunnerRecord :=
  clear_staging r (Some code) now.

Definition project_le (a b : RunnerProjectSummary) : bool := str_leb (project_id_ a) (project_id_ b).
Definition same_id (a b : RunnerProjectSummary) : bool := project_id_ a ==? project_id_ b.
Definition project_ids (projects : list RunnerProjectSummary) : list str := map project_id_ projects.

(** ** Pages *)

(** Whether the page belongs to the snapshot being staged. *)
Definition staging_matches_page (state : ProjectInventoryState) (page : ShellProjectInventoryPage) : bool :=
  is_some_and (fun st => (stg_generation st ==? page_generation page)
                         && Z.eqb (stg_snapshot_sequence st) (page_snapshot_sequence page)) (staging state).

Definition completed_generation_matches_page (state : ProjectInventoryState) (page : ShellProjectInventoryPage)
  : bool :=
  is_none (staging state) && (sync_state (inv_status state) ==? lit "complete")
  && (status_generation (inv_status state) ==? Some (page_generation page)).

Definition exact_last_page_replay (state : ProjectInventoryState) (page : ShellProjectInventoryPage)
  (digest : str) : bool :=
  (last_page_generation state ==? Some (page_generation page))
  && (last_page_index state ==? Some (page_index page)) && (last_page_digest state ==? Some digest).

(** A fresh snapshot begins with its page 0; [Err] is the Runner record the
    handler returns with instead. *)
Definition begin_staging (r : RunnerRecord) (concurrent_staging : nat) (page : ShellProjectInventoryPage)
  (now : Z) : result RunnerRecord RunnerRecord :=
  let state := r_project_inventory r in
  bail? negb (Z.eqb (page_index page) 0)
    with note_nonfatal_error r (lit "project_inventory_missing_or_stale_generation") ;;
  bail? is_none (staging state) && Nat.leb PROJECT_INVENTORY_MAX_CONCURRENT_SYNCS concurrent_staging
    with set_status r (status (lit "degraded") (status_generation (inv_status state))
           (status_total_reported (inv_status state)) (length (r_projects r))
           (Some (lit "project_inventory_staging_capacity")) (last_sync_at (inv_status state))) ;;
  bail? Z.leb (page_snapshot_sequence page) (highest_snapshot_sequence state)
    with note_nonfatal_error r (lit "project_inventory_stale_generation") ;;
  let state := state <| highest_snapshot_sequence := page_snapshot_sequence page |> in
  let state := match status_generation (inv_status state) with
               | Some previous =>
                   if (sync_state (inv_status state) ==? lit "complete") && (previous !=? page_generation page)
                   then retire_generation state previous else state
               | None => state
               end in
  let fresh := mkStaging (page_generation page) (page_snapshot_sequence page) (page_total_reported page) 0 [] ∅ 0 now in
  Ok (set_inventory r (drop_staging state <| staging := Some fresh |>)).

(** The page is added to the staging, and the snapshot published when it is the
    last one. *)
Definition accept_page (r : RunnerRecord) (st : ProjectInventoryStaging) (page : ShellProjectInventoryPage)
  (next_bytes : Z) (digest : str) (now : Z) : RunnerRecord :=
  let state := r_project_inventory r in
  let st := st <| seen_ids := list_to_set (project_ids (page_projects page)) ∪ seen_ids st |>
               <| stg_projects := stg_projects st ++ page_projects page |>
               <| serialized_bytes := next_bytes |>
               <| next_page_index := u32_sat_add (next_page_index st) 1 |> in
  let state := state <| last_page_generation := Some (page_generation page) |>
                     <| last_page_index := Some (page_index page) |>
                     <| last_page_digest := Some digest |> in
  if page_complete page then
    let projects := sort_by project_le (stg_projects st) in
    set_inventory r (state <| staging := None |>
                           <| inv_status := status (lit "complete") (Some (page_generation page))
                                (Some (length projects)) (length projects) None (Some now) |>)
      <| r_projects := projects |>
  else
    set_inventory r (state <| staging := Some st |>
                           <| inv_status := status (lit "in_progress") (Some (page_generation page))
                                (Some (page_total_reported page)) (length (stg_projects st)) None
                                (last_sync_at (inv_status state)) |>).

(** [None] is the [unreachable!] of the source. *)
Definition stage_page (r : RunnerRecord) (page : ShellProjectInventoryPage) (page_bytes : Z) (digest : str)
  (now : Z) : option RunnerRecord :=
  st ← staging (r_project_inventory r);
  let next_total := usize_sat_add (Z.of_nat (length (stg_projects st))) (Z.of_nat (length (page_projects page))) in
  let total := Z.of_nat (stg_total_reported st) in
  let next_bytes := usize_sat_add (serialized_bytes st) page_bytes in
  Some (
    if negb (staging_matches_page (r_project_inventory r) page)
    then note_nonfatal_error r (lit "project_inventory_stale_generation")
    else if negb (Z.eqb (next_page_index st) (page_index page))
    then fail_current_staging r (lit "project_inventory_page_out_of_order") now
    else if negb (Nat.eqb (stg_total_reported st) (page_total_reported page))
    then fail_current_staging r (lit "project_inventory_total_changed") now
    else if existsb (fun p => bool_decide (project_id_ p ∈ seen_ids st)) (page_projects page)
    then fail_current_staging r (lit "project_inventory_duplicate_project_id") now
    else if Z.ltb total next_total || (page_complete page && negb (Z.eqb next_total total))
            || (negb (page_complete page) && Z.leb total next_total)
    then fail_current_staging r (lit "project_inventory_completion_mismatch") now
    else if Z.ltb PROJECT_INVENTORY_SNAPSHOT_MAX_SERIALIZED_BYTES next_bytes
    then fail_current_staging r (lit "project_inventory_snapshot_too_large") now
    else accept_page r st page next_bytes digest now).

Section Pages.
(** The length of the JSON of a list of summaries, and the length and the digest of
    the JSON of a page. *)
Context (summaries_json_len : list RunnerProjectSummary -> Z)
  (page_json_len : ShellProjectInventoryPage -> Z) (page_json_digest : ShellProjectInventoryPage -> str).

Definition validate_project_summary_batch (projects : list RunnerProjectSummary) : result Z str :=
  check? validate_summaries projects ;;
  let bytes := summaries_json_len projects in
  bail? Z.ltb PROJECT_INVENTORY_SNAPSHOT_MAX_SERIALIZED_BYTES bytes
    with lit "project_inventory_snapshot_too_large" ;;
  bail? negb (Nat.eqb (size (list_to_set (project_ids projects) : gset str)) (length projects))
    with lit "project_inventory_duplicate_project_id" ;;
  Ok bytes.

Definition validate_page (page : ShellProjectInventoryPage) : result (Z * str) str :=
  check? validate_generation (page_generation page) ;;
  bail? Z.eqb (page_snapshot_sequence page) 0 with lit "project_inventory_invalid_snapshot_sequence" ;;
  bail? Nat.ltb PROJECT_INVENTORY_PAGE_MAX_SUMMARIES (length (page_projects page))
    with lit "project_inventory_page_summary_limit" ;;
  check? (if Nat.eqb (page_total_reported page) 0
          then bail? negb (Z.eqb (page_index page) 0) || negb (page_complete page)
                     || negb (is_empty (page_projects page))
                 with lit "project_inventory_empty_snapshot_malformed" ;; Ok tt
          else bail? is_empty (page_projects page) with lit "project_inventory_empty_page" ;; Ok tt) ;;
  check? validate_project_summary_batch (page_projects page) ;;
  bail? Z.ltb PROJECT_INVENTORY_PAGE_MAX_SERIALIZED_BYTES (page_json_len page)
    with lit "project_inventory_page_too_large" ;;
  Ok (page_json_len page, page_json_digest page).

(** What one page does to the record of the Runner that sent it. *)
Definition apply_page (r : RunnerRecord) (concurrent_staging : nat) (page : ShellProjectInventoryPage)
  (now : Z) : option RunnerRecord :=
  match validate_page page with
  | Err code => Some (fail_current_staging r code now)
  | Ok (bytes, digest) =>
      let state := r_project_inventory r in
      let matches := staging_matches_page state page in
      let completed := completed_generation_matches_page state page in
      if exact_last_page_replay state page digest && (matches || completed) then Some r
      else if Z.ltb (page_snapshot_sequence page) (highest_snapshot_sequence state)
              || (Z.eqb (page_snapshot_sequence page) (highest_snapshot_sequence state) && negb matches)
      then Some (note_nonfatal_error r (lit "project_inventory_stale_generation"))
      else if one_of (page_generation page) (retired_generations state) || completed
      then Some (note_nonfatal_error r (lit "project_inventory_stale_generation"))
      else if matches then stage_page r page bytes digest now
      else match begin_staging r concurrent_staging page now with
           | Err r => Some r
           | Ok r => stage_page r page bytes digest now
           end
  end.

Definition apply_project_inventory_page_checked (inner : RunnerRegistryInner) (cid iid : str)
  (connection : option str) (page : ShellProjectInventoryPage) (now : Z)
  : option (RunnerRegistryInner * result ShellProjectInventoryStatus str) :=
  match validate_runner_instance_id iid with
  | Err err => Some (inner, Err err)
  | Ok _ =>
      let inner := inner <| runners := (fun r => expire_staging r now) <$> runners inner |> in
      let concurrent := size (filter (fun kv => is_some (staging (r_project_inventory (snd kv))) = true)
                                (runners inner)) in
      match runners inner !! cid with
      | None => Some (inner, Err (lit "unknown shell client: " ++ cid))
      | Some r =>
          if r_runner_instance_id r !=? iid
          then Some (inner, Err (lit "runner " ++ cid ++ lit " is no longer the active instance (stale or replaced)"))
          else if is_some_and (fun expected => r_connection_id r !=? Some expected) connection
          then Some (inner, Err (lit "runner " ++ cid ++ lit " transport connection is no longer active"))
          else
            r ← apply_page (expire_staging (r <| r_last_seen := now |>) now) concurrent page now;
            Some (inner <| runners := <[ cid := r ]> (runners inner) |>,
                  Ok (inv_status (r_project_inventory r)))
      end
  end.
End Pages.

(** ** projects.rs: registered and unregistered projects *)

(** [projects.iter_mut().find(|p| p.id == project.id)], replaced in place. *)
Fixpoint replace_project (project : RunnerProjectSummary) (projects : list RunnerProjectSummary)
  : option (list RunnerProjectSummary) :=
  match projects with
  | [] => None
  | p :: rest => if same_id p project then Some (project :: rest)
                 else (fun rest => p :: rest) <$> replace_project project rest
  end.

Definition upsert_project_summary (projects : list RunnerProjectSummary) (project : RunnerProjectSummary)
  : list RunnerProjectSummary :=
  match replace_project project projects with
  | Some projects => projects
  | None => dedup_by same_id (sort_by project_le (projects ++ [project]))
  end.

Definition with_active_runner (inner : RunnerRegistryInner) (cid iid : str) : result RunnerRecord str :=
  let? r := ok_or (runners inner !! cid) (lit "unknown shell client: " ++ cid) in
  bail? r_runner_instance_id r !=? iid
    with lit "runner " ++ cid ++ lit " is no longer the active instance (stale or replaced)" ;;
  Ok r.

Definition upsert_runner_project_for_instance (inner : RunnerRegistryInner) (cid iid : str)
  (project : RunnerProjectSummary) (now : Z) : RunnerRegistryInner * result unit str :=
  match (check? validate_project_summary project ;; with_active_runner inner cid iid) with
  | Err err => (inner, Err err)
  | Ok r =>
      let r := r <| r_projects := upsert_project_summary (r_projects r) project |> in
      (inner <| runners := <[ cid := reconcile_dynamic_projection r now ]> (runners inner) |>, Ok tt)
  end.

Definition remove_runner_project_for_instance (inner : RunnerRegistryInner) (cid iid pid : str) (now : Z)
  : RunnerRegistryInner * result bool str :=
  match with_active_runner inner cid iid with
  | Err err => (inner, Err err)
  | Ok r =>
      let kept := List.filter (fun p => project_id_ p !=? pid) (r_projects r) in
      let r' := reconcile_dynamic_projection (r <| r_projects := kept |>) now in
      (inner <| runners := <[ cid := r' ]> (runners inner) |>,
       Ok (negb (Nat.eqb (length kept) (length (r_projects r)))))
  end.
