(* ===== verification/InventoryFacts.v ===== *)
(** * InventoryFacts: what the paged project inventory guarantees

    The published projects are always sorted, unique and valid; a snapshot is
    published whole or not at all, out of pages that arrived in order; snapshots
    only get newer; and a page that is sent again changes nothing. *)
From S2P Require Import Prelude RustStr Capabilities RunnerData RegistryState JobState InventoryCheck Samples ProjectInventory.

Definition valid_project (p : RunnerProjectSummary) : Prop := validate_project_summary p = Ok tt.

Definition current_staging (r : RunnerRecord) : option ProjectInventoryStaging := staging (r_project_inventory r).
Definition highest (r : RunnerRecord) : Z := highest_snapshot_sequence (r_project_inventory r).

(** ** Order of projects *)

Lemma project_le_total (a b : RunnerProjectSummary) : project_le a b = true \/ project_le b a = true.
Proof. apply str_leb_total. Qed.

Lemma project_le_trans (a b c : RunnerProjectSummary) :
  project_le a b = true -> project_le b c = true -> project_le a c = true.
Proof. apply str_leb_trans. Qed.

Definition projects_sorted : list RunnerProjectSummary -> Prop := StronglySorted (fun a b => project_le a b = true).

Lemma sort_projects_sorted (l : list RunnerProjectSummary) : projects_sorted (sort_by project_le l).
Proof. apply sort_by_sorted; [exact project_le_total | exact project_le_trans]. Qed.

Lemma sort_projects_ids (l : list RunnerProjectSummary) :
  NoDup (project_ids l) -> NoDup (project_ids (sort_by project_le l)).
Proof. unfold project_ids. by rewrite (sort_by_perm project_le l). Qed.

(** ** The staging machinery leaves the rest of the record alone *)

Lemma retire_same (s : ProjectInventoryState) (g : str) :
  staging (retire_generation s g) = staging s
  /\ highest_snapshot_sequence (retire_generation s g) = highest_snapshot_sequence s
  /\ inv_status (retire_generation s g) = inv_status s.
Proof. unfold retire_generation. by destruct (_ || _). Qed.

Lemma retire_bounded (s : ProjectInventoryState) (g : str) :
  length (retired_generations s) <= MAX_RETIRED_PROJECT_GENERATIONS ->
  length (retired_generations (retire_generation s g)) <= MAX_RETIRED_PROJECT_GENERATIONS.
Proof.
  unfold retire_generation. destruct (_ || _); [done | ]. intros _. cbn.
  unfold keep_last. rewrite length_drop. lia.
Qed.

Lemma drop_staging_same (s : ProjectInventoryState) :
  staging (drop_staging s) = None /\ highest_snapshot_sequence (drop_staging s) = highest_snapshot_sequence s.
Proof.
  unfold drop_staging. destruct (staging s) eqn:E; [ | done].
  destruct (retire_same (s <| staging := None |>) (stg_generation p)) as (-> & -> & _). done.
Qed.

Lemma drop_staging_bounded (s : ProjectInventoryState) :
  length (retired_generations s) <= MAX_RETIRED_PROJECT_GENERATIONS ->
  length (retired_generations (drop_staging s)) <= MAX_RETIRED_PROJECT_GENERATIONS.
Proof. unfold drop_staging. destruct (staging s); [ | done]. intros H. by apply retire_bounded. Qed.

(** A change that publishes nothing: the staging is kept or dropped. *)
Record quiet (r r' : RunnerRecord) : Prop := {
  q_projects : r_projects r' = r_projects r;
  q_staging : current_staging r' = current_staging r \/ current_staging r' = None;
  q_highest : highest r' = highest r;
  q_bounded : length (retired_generations (r_project_inventory r)) <= MAX_RETIRED_PROJECT_GENERATIONS ->
              length (retired_generations (r_project_inventory r')) <= MAX_RETIRED_PROJECT_GENERATIONS
}.

Lemma quiet_refl (r : RunnerRecord) : quiet r r.
Proof. split; auto. Qed.

Lemma note_quiet (r : RunnerRecord) (code : str) : quiet r (note_nonfatal_error r code).
Proof. split; auto. Qed.

Lemma clear_quiet (r : RunnerRecord) (code : option str) (now : Z) :
  quiet r (clear_staging r code now) /\ current_staging (clear_staging r code now) = None.
Proof.
  destruct (drop_staging_same (r_project_inventory r)) as [Hs Hh].
  assert (Hq : quiet r (set_inventory r (drop_staging (r_project_inventory r)))).
  { split; [done | right; exact Hs | exact Hh | apply drop_staging_bounded]. }
  unfold clear_staging. destruct code; [ | by split].
  destruct Hq as [H1 H2 H3 H4]. split; [by split | exact Hs].
Qed.

Lemma expire_quiet (r : RunnerRecord) (now : Z) : quiet r (expire_staging r now).
Proof. unfold expire_staging. destruct (is_some_and _ _); [apply clear_quiet | apply quiet_refl]. Qed.

(** ** The effect of one page *)

(** The page continues the staged snapshot [st]. *)
Record page_fits (st : ProjectInventoryStaging) (page : ShellProjectInventoryPage) (bytes next_bytes : Z) : Prop := {
  fit_generation : stg_generation st = page_generation page;
  fit_sequence : stg_snapshot_sequence st = page_snapshot_sequence page;
  fit_index : next_page_index st = page_index page;
  fit_total : stg_total_reported st = page_total_reported page;
  fit_fresh : Forall (fun p => project_id_ p ∉ seen_ids st) (page_projects page);
  fit_complete : page_complete page = true ->
    length (stg_projects st ++ page_projects page) = page_total_reported page;
  fit_partial : page_complete page = false ->
    length (stg_projects st ++ page_projects page) < page_total_reported page;
  fit_bytes : next_bytes = usize_sat_add (serialized_bytes st) bytes
              /\ (next_bytes <= PROJECT_INVENTORY_SNAPSHOT_MAX_SERIALIZED_BYTES)%Z
}.

(** The staging a page continues: the current one, or a fresh one it opens. *)
Definition opens (r : RunnerRecord) (page : ShellProjectInventoryPage) (now : Z) (st : ProjectInventoryStaging)
  : Prop :=
  current_staging r = Some st
  \/ (st = mkStaging (page_generation page) (page_snapshot_sequence page) (page_total_reported page) 0 [] ∅ 0 now
      /\ (highest r < page_snapshot_sequence page)%Z).

Inductive page_effect (r : RunnerRecord) (page : ShellProjectInventoryPage) (bytes : Z) (now : Z) (r' : RunnerRecord)
  : Prop :=
| effect_quiet : quiet r r' -> page_effect r page bytes now r'
| effect_dropped :
    r_projects r' = r_projects r -> current_staging r' = None -> (highest r <= highest r')%Z ->
    page_effect r page bytes now r'
| effect_staged st next_bytes :
    opens r page now st -> page_fits st page bytes next_bytes -> page_complete page = false ->
    r_projects r' = r_projects r ->
    current_staging r' =
      Some (st <| seen_ids := list_to_set (project_ids (page_projects page)) ∪ seen_ids st |>
               <| stg_projects := stg_projects st ++ page_projects page |>
               <| serialized_bytes := next_bytes |>
               <| next_page_index := u32_sat_add (next_page_index st) 1 |>) ->
    highest r' = page_snapshot_sequence page -> (highest r <= highest r')%Z ->
    page_effect r page bytes now r'
| effect_published st next_bytes :
    opens r page now st -> page_fits st page bytes next_bytes -> page_complete page = true ->
    r_projects r' = sort_by project_le (stg_projects st ++ page_projects page) ->
    current_staging r' = None ->
    highest r' = page_snapshot_sequence page -> (highest r <= highest r')%Z ->
    page_effect r page bytes now r'.

(** The invariant: what is published and what is staged is well formed. *)
Record staging_ok (st : ProjectInventoryStaging) : Prop := {
  so_seen : seen_ids st = list_to_set (project_ids (stg_projects st));
  so_unique : NoDup (project_ids (stg_projects st));
  so_valid : Forall valid_project (stg_projects st);
  so_total : length (stg_projects st) <= stg_total_reported st;
  so_index : (0 <= next_page_index st)%Z;
  so_bytes : (Z.of_nat (length (stg_projects st)) + next_page_index st <= serialized_bytes st
              <= PROJECT_INVENTORY_SNAPSHOT_MAX_SERIALIZED_BYTES)%Z
}.

Record inventory_ok (r : RunnerRecord) : Prop := {
  io_sorted : projects_sorted (r_projects r);
  io_unique : NoDup (project_ids (r_projects r));
  io_valid : Forall valid_project (r_projects r);
  io_staging : forall st, current_staging r = Some st ->
    staging_ok st /\ stg_snapshot_sequence st = highest r
}.

Lemma quiet_ok (r r' : RunnerRecord) : quiet r r' -> inventory_ok r -> inventory_ok r'.
Proof.
  intros [Hp Hs Hh _] [H1 H2 H3 H4]. rewrite <- Hp in H1, H2, H3. split; [done.. | ].
  intros st Hst. rewrite Hh. destruct Hs as [Hs|Hs]; [apply H4; congruence | congruence].
Qed.

Section Pages.
Context (summaries_json_len : list RunnerProjectSummary -> Z)
  (page_json_len : ShellProjectInventoryPage -> Z) (page_json_digest : ShellProjectInventoryPage -> str).
(** The JSON of a page has a byte for the page and one for each of its projects. *)
Context (page_json_len_ge : forall page,
  (1 + Z.of_nat (length (page_projects page)) <= page_json_len page)%Z).

Abbreviation apply_page := (apply_page summaries_json_len page_json_len page_json_digest).
Abbreviation validate_page := (validate_page summaries_json_len page_json_len page_json_digest).

(** What a page that passes validation is known to have. *)
Record page_ok (page : ShellProjectInventoryPage) : Prop := {
  po_valid : Forall valid_project (page_projects page);
  po_unique : NoDup (project_ids (page_projects page));
  po_small : length (page_projects page) <= PROJECT_INVENTORY_PAGE_MAX_SUMMARIES
}.

Lemma validate_summaries_ok (l : list RunnerProjectSummary) :
  validate_summaries l = Ok tt -> Forall valid_project l.
Proof.
  induction l as [|p l IH]; [constructor | ]. cbn. destruct (validate_project_summary p) as [[]|] eqn:E; [ | done].
  intros H. constructor; [done | by apply IH].
Qed.

Lemma unique_by_size (l : list str) : size (list_to_set l : gset str) = length l -> NoDup l.
Proof.
  induction l as [|x l IH]; [constructor | ]. intros H. cbn in H.
  assert (Hle : size (list_to_set l : gset str) <= length l).
  { clear. induction l as [|y l IH]; cbn; [by rewrite size_empty | ].
    pose proof (size_union_alt {[ y ]} (list_to_set l : gset str)) as Hs. rewrite Hs, size_singleton.
    assert (size (list_to_set l ∖ {[ y ]} : gset str) <= size (list_to_set l : gset str)) by (apply subseteq_size; set_solver).
    lia. }
  destruct (decide (x ∈ (list_to_set l : gset str))) as [Hx|Hx].
  - replace ({[ x ]} ∪ list_to_set l : gset str) with (list_to_set l : gset str) in H by set_solver. lia.
  - rewrite size_union in H by set_solver. rewrite size_singleton in H.
    constructor; [set_solver | ]. apply IH. lia.
Qed.

Lemma validate_page_ok (page : ShellProjectInventoryPage) (bytes : Z) (digest : str) :
  validate_page page = Ok (bytes, digest) ->
  page_ok page /\ bytes = page_json_len page /\ digest = page_json_digest page.
Proof.
  unfold ProjectInventory.validate_page, validate_project_summary_batch. intros H. step_guards H. clear Hstep0.
  injection H as <- <-. split; [ | done]. step_guards Hstep1. destruct value as [].
  split; [by destruct value2; apply validate_summaries_ok | | apply Nat.ltb_ge in Hguard0; lia].
  apply unique_by_size. apply negb_false_iff, Nat.eqb_eq in Hguard3.
  unfold project_ids. rewrite length_map. exact Hguard3.
Qed.

Lemma accept_page_effect (r : RunnerRecord) st page next_bytes digest now :
  let r' := accept_page r st page next_bytes digest now in
  highest r' = highest r
  /\ if page_complete page
     then r_projects r' = sort_by project_le (stg_projects st ++ page_projects page) /\ current_staging r' = None
     else r_projects r' = r_projects r
          /\ current_staging r' =
             Some (st <| seen_ids := list_to_set (project_ids (page_projects page)) ∪ seen_ids st |>
                      <| stg_projects := stg_projects st ++ page_projects page |>
                      <| serialized_bytes := next_bytes |>
                      <| next_page_index := u32_sat_add (next_page_index st) 1 |>).
Proof. cbn zeta. unfold accept_page. by destruct (page_complete page). Qed.

(** Staging a page either discards the staging or extends it as it should. *)
Lemma stage_page_effect (r r' : RunnerRecord) st page bytes digest now :
  current_staging r = Some st -> staging_ok st -> page_ok page -> bytes = page_json_len page ->
  staging_matches_page (r_project_inventory r) page = true ->
  stage_page r page bytes digest now = Some r' ->
  (r_projects r' = r_projects r /\ highest r' = highest r /\ current_staging r' = None)
  \/ exists next_bytes, page_fits st page bytes next_bytes
     /\ r' = accept_page r st page next_bytes digest now.
Proof.
  intros Hst [_ _ _ Htot Hidx Hby] [_ _ Hsmall] -> Hm H. unfold stage_page in H.
  unfold current_staging in Hst. rewrite Hst in H. cbn [mbind option_bind] in H. injection H as <-.
  assert (Hq : forall code, r_projects (fail_current_staging r code now) = r_projects r
    /\ highest (fail_current_staging r code now) = highest r
    /\ current_staging (fail_current_staging r code now) = None).
  { intros code. destruct (clear_quiet r (Some code) now) as [[? ? ? _] ?]. auto. }
  rewrite Hm. cbn [negb].
  unfold staging_matches_page in Hm. rewrite Hst in Hm. cbn in Hm. apply andb_true_iff in Hm as [Hg Hsq].
  apply beq_true in Hg. apply Z.eqb_eq in Hsq.
  destruct (Z.eqb_spec (next_page_index st) (page_index page)) as [Hi|]; cbn [negb]; [ | left; auto].
  destruct (Nat.eqb_spec (stg_total_reported st) (page_total_reported page)) as [Ht|]; cbn [negb]; [ | left; auto].
  destruct (existsb _ (page_projects page)) eqn:Hd; [left; auto | ].
  destruct (_ || _ || _) eqn:Hc; [left; auto | ]. 
  destruct (Z.ltb_spec PROJECT_INVENTORY_SNAPSHOT_MAX_SERIALIZED_BYTES
              (usize_sat_add (serialized_bytes st) (page_json_len page))) as [|Hb]; [left; auto | ].
  right. eexists. split; [ | reflexivity].
  pose proof (page_json_len_ge page). unfold PROJECT_INVENTORY_SNAPSHOT_MAX_SERIALIZED_BYTES, PROJECT_INVENTORY_PAGE_MAX_SUMMARIES in *.
  rewrite usize_sat_add_exact in Hc by (unfold USIZE_MAX; lia).
  apply orb_false_iff in Hc as [Hc Hp]. apply orb_false_iff in Hc as [Hc0 Hc].
  split; try done.
  - apply Forall_forall. intros q Hin Hseen. enough (existsb (fun p => bool_decide (project_id_ p ∈ seen_ids st)) (page_projects page) = true) by congruence.
    apply existsb_exists. exists q. split; [by apply list_elem_of_In | by apply bool_decide_eq_true].
  - intros E. rewrite E in Hc. cbn in Hc. apply negb_false_iff, Z.eqb_eq in Hc. rewrite length_app. lia.
  - intros E. rewrite E in Hp. cbn in Hp. apply Z.leb_gt in Hp. rewrite length_app. lia.
Qed.

Lemma fresh_staging_ok (page : ShellProjectInventoryPage) (now : Z) :
  staging_ok (mkStaging (page_generation page) (page_snapshot_sequence page) (page_total_reported page) 0 [] ∅ 0 now).
Proof. split; cbn; try done; [constructor | lia]. Qed.

Lemma begin_staging_effect (r : RunnerRecord) n page now :
  match begin_staging r n page now with
  | Err r' => quiet r r'
  | Ok r' =>
      r_projects r' = r_projects r
      /\ current_staging r' = Some (mkStaging (page_generation page) (page_snapshot_sequence page)
                                     (page_total_reported page) 0 [] ∅ 0 now)
      /\ highest r' = page_snapshot_sequence page /\ (highest r < page_snapshot_sequence page)%Z
  end.
Proof.
  unfold begin_staging. destruct (negb (Z.eqb _ 0)); [apply note_quiet | ].
  destruct (_ && _); [by split; auto | ].
  destruct (Z.leb_spec (page_snapshot_sequence page) (highest_snapshot_sequence (r_project_inventory r))) as [|Hlt];
    [apply note_quiet | ]. split_and!; [done | done | | exact Hlt].
  set (s := match status_generation _ with Some _ => _ | None => _ end).
  unfold highest. cbn. rewrite (proj2 (drop_staging_same s)). subst s.
  destruct (status_generation _); [ | done]. destruct (_ && _); [ | done].
  by rewrite (proj1 (proj2 (retire_same _ _))).
Qed.

Lemma apply_page_effect (r : RunnerRecord) (n : nat) page now :
  inventory_ok r ->
  exists r', apply_page r n page now = Some r'
    /\ page_effect r page (page_json_len page) now r' /\ (page_ok page \/ quiet r r').
Proof.
  intros Hok. unfold ProjectInventory.apply_page. destruct (validate_page page) as [[bytes digest]|code] eqn:Hv.
  2: { destruct (clear_quiet r (Some code) now) as [Hq _]. eexists. split; [reflexivity | ].
       split; [by apply effect_quiet | by right]. }
  apply validate_page_ok in Hv as (Hp & -> & ->).
  assert (Hquiet : forall r', quiet r r' ->
    page_effect r page (page_json_len page) now r' /\ (page_ok page \/ quiet r r')).
  { intros r' Hq. split; [by apply effect_quiet | by left]. }
  assert (Hstage : forall r1 st, current_staging r1 = Some st -> staging_ok st -> opens r page now st ->
    staging_matches_page (r_project_inventory r1) page = true ->
    r_projects r1 = r_projects r -> highest r1 = page_snapshot_sequence page -> (highest r <= highest r1)%Z ->
    exists r', stage_page r1 page (page_json_len page) (page_json_digest page) now = Some r'
      /\ page_effect r page (page_json_len page) now r' /\ (page_ok page \/ quiet r r')).
  { intros r1 st Hst Hso Ho Hm Hpr Hh1 Hh2.
    destruct (stage_page r1 page _ _ now) as [r'|] eqn:Hs; [ | unfold stage_page, current_staging in *; by rewrite Hst in Hs].
    exists r'. split; [done | ]. split; [ | by left].
    apply (stage_page_effect r1 r' st) in Hs as [(H1 & H2 & H3)|(nb & Hf & ->)]; try done.
    - apply effect_dropped; [congruence | done | lia].
    - destruct (accept_page_effect r1 st page nb (page_json_digest page) now) as [Ha Hb].
      destruct (page_complete page) eqn:Hc; destruct Hb as [Hb1 Hb2].
      + eapply effect_published; eauto; congruence.
      + eapply effect_staged; eauto; congruence. }
  destruct (_ && _); [eexists; split; [reflexivity | apply Hquiet, quiet_refl] | ].
  destruct (Z.ltb _ _ || _) eqn:Hstale; [eexists; split; [reflexivity | apply Hquiet, note_quiet] | ].
  destruct (one_of _ _ || _); [eexists; split; [reflexivity | apply Hquiet, note_quiet] | ].
  destruct (staging_matches_page (r_project_inventory r) page) eqn:Hm.
  - pose proof Hm as Hm'. unfold staging_matches_page in Hm'.
    destruct (staging (r_project_inventory r)) as [st|] eqn:Hst; [ | done].
    destruct (io_staging r Hok st Hst) as [Hso Hseq]. cbn in Hm'. apply andb_true_iff in Hm' as [_ He%Z.eqb_eq].
    apply (Hstage r st); auto; [by left | congruence | lia].
  - pose proof (begin_staging_effect r n page now) as Hb. destruct (begin_staging r n page now) as [r1|r1].
    + destruct Hb as (H1 & H2 & H3 & H4). eapply (Hstage r1); [exact H2 | apply fresh_staging_ok | by right | | done | done | lia].
      unfold staging_matches_page, current_staging in *. rewrite H2. cbn. by rewrite beq_refl, Z.eqb_refl.
    + eexists. split; [reflexivity | by apply Hquiet].
Qed.

(** ** The invariant is preserved *)

Lemma opened_ok (r : RunnerRecord) page now st : inventory_ok r -> opens r page now st -> staging_ok st.
Proof.
  intros Hok [Hst|[-> _]]; [by apply (io_staging r Hok) | apply fresh_staging_ok].
Qed.

(** A staged snapshot with one more page that fits it is well formed. *)
Lemma extended_ok st page bytes next_bytes :
  staging_ok st -> page_ok page -> page_fits st page bytes next_bytes ->
  let all := stg_projects st ++ page_projects page in
  NoDup (project_ids all) /\ Forall valid_project all
  /\ list_to_set (project_ids (page_projects page)) ∪ seen_ids st = (list_to_set (project_ids all) : gset str).
Proof.
  clear page_json_len_ge page_json_len page_json_digest summaries_json_len.
  intros [Hseen Huniq Hval _ _ _] [Pv Pu _] [_ _ _ _ Hfresh _ _ _]. cbn zeta. unfold project_ids in *.
  split_and!; [ | by apply Forall_app | ].
  - rewrite map_app. apply NoDup_app. split_and!; [done | | done]. intros x Hx Hx'.
    apply list_elem_of_In, in_map_iff in Hx' as (q & <- & Hq). apply list_elem_of_In in Hq.
    rewrite Forall_forall in Hfresh. apply (Hfresh q Hq). rewrite Hseen. by apply elem_of_list_to_set.
  - rewrite Hseen, map_app, list_to_set_app_L. set_solver.
Qed.

Lemma page_effect_ok (r r' : RunnerRecord) page now :
  inventory_ok r -> page_ok page -> page_effect r page (page_json_len page) now r' -> inventory_ok r'.
Proof.
  intros Hok Hp He. pose proof Hok as [H1 H2 H3 H4]. destruct He as [Hq|Hpr Hn _|st nb Ho Hf Hc Hpr Hst Hh _|st nb Ho Hf Hc Hpr Hst Hh _].
  - by eapply quiet_ok.
  - split; rewrite ?Hpr; try done. intros st Hst. congruence.
  - pose proof (opened_ok r page now st Hok Ho) as Hso. split; rewrite ?Hpr; try done. intros st' Hst'.
    destruct (extended_ok st page _ nb Hso Hp Hf) as (Hu & Hv & Hs).
    pose proof (page_json_len_ge page). destruct Hso as [_ _ _ _ Hi Hb], Hf as [_ Fs _ Ft _ _ Fp [Fb Fl]].
    specialize (Fp Hc). rewrite Hst in Hst'. injection Hst' as <-. split; [ | cbn; congruence].
    unfold PROJECT_INVENTORY_SNAPSHOT_MAX_SERIALIZED_BYTES in *. unfold usize_sat_add, USIZE_MAX in Fb.
    rewrite length_app in Fp. split; cbn; try done; unfold u32_sat_add, U32_MAX in *; rewrite ?length_app; try lia; unfold PROJECT_INVENTORY_SNAPSHOT_MAX_SERIALIZED_BYTES in *; lia.
  - pose proof (opened_ok r page now st Hok Ho) as Hso. destruct (extended_ok st page _ nb Hso Hp Hf) as (Hu & Hv & _).
    split; rewrite ?Hpr; [apply sort_projects_sorted | by apply sort_projects_ids | by rewrite sort_by_perm | congruence].
Qed.

Lemma apply_page_ok (r : RunnerRecord) (n : nat) page now :
  inventory_ok r -> exists r', apply_page r n page now = Some r' /\ inventory_ok r'.
Proof.
  intros Hok. destruct (apply_page_effect r n page now Hok) as (r' & Hr & He & [Hp|Hq]).
  - exists r'. split; [done | by eapply page_effect_ok].
  - exists r'. split; [done | by eapply quiet_ok].
Qed.
End Pages.

(** Registered and unregistered projects. *)

Lemma replace_project_ids (q : RunnerProjectSummary) (l l' : list RunnerProjectSummary) :
  replace_project q l = Some l' -> project_ids l' = project_ids l.
Proof.
  revert l'. induction l as [|p l IH]; intros l'; [done | ]. cbn. unfold same_id.
  destruct (_ ==? _) eqn:E.
  - intros [= <-]. cbn. apply beq_true in E. by rewrite E.
  - destruct (replace_project q l); [ | done]. intros [= <-]. unfold project_ids. cbn. f_equal. by apply IH.
Qed.

Lemma replace_project_valid (q : RunnerProjectSummary) (l l' : list RunnerProjectSummary) :
  replace_project q l = Some l' -> valid_project q -> Forall valid_project l -> Forall valid_project l'.
Proof.
  revert l'. induction l as [|p l IH]; intros l'; [done | ]. cbn.
  destruct (same_id p q); [intros [= <-] Hq Hl; apply Forall_cons in Hl as [_ Hl]; by constructor | ].
  destruct (replace_project q l); [ | done]. intros [= <-] Hq Hl. apply Forall_cons in Hl as [Hp Hl].
  constructor; [done | by apply IH].
Qed.

Lemma replace_project_none (q : RunnerProjectSummary) (l : list RunnerProjectSummary) :
  replace_project q l = None -> project_id_ q ∉ project_ids l.
Proof.
  induction l as [|p l IH]; cbn; [intros _; apply not_elem_of_nil | ]. unfold same_id.
  destruct (_ ==? _) eqn:E; [done | ]. destruct (replace_project q l); [done | ]. intros _.
  apply beq_false in E. rewrite elem_of_cons. intros [Hx|H]; [congruence | by apply IH].
Qed.

Lemma sorted_by_ids (l l' : list RunnerProjectSummary) :
  project_ids l' = project_ids l -> projects_sorted l -> projects_sorted l'.
Proof.
  revert l'. induction l as [|p l IH]; intros [|p' l'] Hi; try done. cbn in Hi. injection Hi as Hp Hi.
  intros Hs. apply StronglySorted_inv in Hs as [Hs Hf]. constructor; [by apply IH | ].
  apply List.Forall_forall. intros q Hq. rewrite List.Forall_forall in Hf. unfold project_le in *. rewrite Hp.
  assert (Hin : In (project_id_ q) (map project_id_ l)) by (unfold project_ids in Hi; rewrite <- Hi; by apply in_map).
  apply in_map_iff in Hin as (q' & Hq' & Hin). rewrite <- Hq'. by apply Hf.
Qed.

Lemma dedup_unique (l : list RunnerProjectSummary) : NoDup (project_ids l) -> dedup_by same_id l = l.
Proof.
  assert (Hd : forall x l, NoDup (project_ids (x :: l)) -> dedup_from same_id x l = l).
  { intros x k. revert x. induction k as [|y k IH]; intros x Hn; [done | ]. cbn in *.
    unfold same_id at 1. destruct (_ ==? _) eqn:E.
    - apply beq_true in E. apply NoDup_cons in Hn as [Hx _]. exfalso. apply Hx. rewrite E. set_solver.
    - f_equal. apply IH. by apply NoDup_cons in Hn as [_ Hn]. }
  destruct l as [|x l]; [done | ]. intros Hn. cbn. f_equal. by apply Hd.
Qed.

Lemma upsert_ok (l : list RunnerProjectSummary) (q : RunnerProjectSummary) :
  projects_sorted l -> NoDup (project_ids l) -> Forall valid_project l -> valid_project q ->
  projects_sorted (upsert_project_summary l q) /\ NoDup (project_ids (upsert_project_summary l q))
  /\ Forall valid_project (upsert_project_summary l q).
Proof.
  intros Hs Hu Hv Hq. unfold upsert_project_summary. destruct (replace_project q l) as [l'|] eqn:E.
  - pose proof (replace_project_ids _ _ _ E) as Hi. split_and!; [by eapply sorted_by_ids | by rewrite Hi | by eapply replace_project_valid].
  - apply replace_project_none in E.
    assert (Hn : NoDup (project_ids (sort_by project_le (l ++ [q])))).
    { apply sort_projects_ids. unfold project_ids in *. rewrite map_app. apply NoDup_app. split_and!; [done | | apply NoDup_singleton].
      intros x Hx Hx'%list_elem_of_singleton. by subst. }
    rewrite dedup_unique by done. split_and!; [apply sort_projects_sorted | done | ].
    rewrite sort_by_perm. apply Forall_app. split; [done | by constructor].
Qed.

Lemma dynamic_projection_ok (r : RunnerRecord) (now : Z) :
  projects_sorted (r_projects r) -> NoDup (project_ids (r_projects r)) -> Forall valid_project (r_projects r) ->
  inventory_ok (reconcile_dynamic_projection r now)
  /\ r_projects (reconcile_dynamic_projection r now) = r_projects r.
Proof.
  intros H1 H2 H3. unfold reconcile_dynamic_projection.
  destruct (clear_quiet r None now) as [[Hp _ _ _] Hn]. split; [ | exact Hp].
  split; cbn; rewrite ?Hp; try done. intros st Hst. exfalso. revert Hst. unfold current_staging. cbn.
  destruct (status_generation _); [rewrite (proj1 (retire_same _ _)) | ]; by rewrite (proj1 (drop_staging_same _)).
Qed.

(** ** Histories of one Runner's inventory *)

Inductive inventory_event : Type :=
| EvPage (concurrent_staging : nat) (page : ShellProjectInventoryPage) (now : Z)
| EvExpire (now : Z)
| EvReconnect
| EvUpsert (project : RunnerProjectSummary) (now : Z)
| EvRemove (project_id : str) (now : Z).

(** The record after [upsert_runner_project_for_instance] and
    [remove_runner_project_for_instance] accepted the call. *)
Definition upserted (r : RunnerRecord) (project : RunnerProjectSummary) (now : Z) : RunnerRecord :=
  reconcile_dynamic_projection (r <| r_projects := upsert_project_summary (r_projects r) project |>) now.

Definition removed (r : RunnerRecord) (pid : str) (now : Z) : RunnerRecord :=
  reconcile_dynamic_projection
    (r <| r_projects := List.filter (fun p => project_id_ p !=? pid) (r_projects r) |>) now.

Section Histories.
Context (summaries_json_len : list RunnerProjectSummary -> Z)
  (page_json_len : ShellProjectInventoryPage -> Z) (page_json_digest : ShellProjectInventoryPage -> str).

(** [None] would be a panic. *)
Definition inventory_step (r : RunnerRecord) (ev : inventory_event) : option RunnerRecord :=
  match ev with
  | EvPage n page now =>
      apply_page summaries_json_len page_json_len page_json_digest
        (expire_staging (r <| r_last_seen := now |>) now) n page now
  | EvExpire now => Some (expire_staging r now)
  | EvReconnect =>
      Some (set_inventory r (preserve_authoritative_pending (r_project_inventory r) (length (r_projects r))))
  | EvUpsert q now => Some (if is_ok (validate_project_summary q) then upserted r q now else r)
  | EvRemove pid now => Some (removed r pid now)
  end.

Definition inventory_run (r : RunnerRecord) (evs : list inventory_event) : option RunnerRecord :=
  foldl (fun acc ev => r ← acc; inventory_step r ev) (Some r) evs.
End Histories.

(** ** The abstract inventory: snapshots are published whole *)

(** A complete snapshot: the pages 0, 1, ... of one snapshot, in order, the last one
    (and no other) marked complete, with the announced number of distinct
    projects. *)
Record page_run (generation : str) (sequence : Z) (total : nat) (pages : list ShellProjectInventoryPage) : Prop := {
  run_same : Forall (fun p => page_generation p = generation /\ page_snapshot_sequence p = sequence
                              /\ page_total_reported p = total) pages;
  run_index : forall i p, pages !! i = Some p -> page_index p = Z.of_nat i
}.

Definition pages_projects (pages : list ShellProjectInventoryPage) : list RunnerProjectSummary :=
  concat (map page_projects pages).

Record complete_snapshot (pages : list ShellProjectInventoryPage) (last : ShellProjectInventoryPage) : Prop := {
  cs_run : page_run (page_generation last) (page_snapshot_sequence last) (page_total_reported last) (pages ++ [last]);
  cs_partial : Forall (fun p => page_complete p = false) pages;
  cs_last : page_complete last = true;
  cs_total : length (pages_projects (pages ++ [last])) = page_total_reported last;
  cs_unique : NoDup (project_ids (pages_projects (pages ++ [last])));
  cs_valid : Forall valid_project (pages_projects (pages ++ [last]))
}.

Record abstract_inventory : Type := mkAbstract {
  ab_received : list ShellProjectInventoryPage;
  ab_latest : Z;
  ab_projects : list RunnerProjectSummary
}.

(** What the published projects may do: a page publishes a complete snapshot of
    received pages newer than every earlier one, or changes nothing; registering
    and removing a project are immediate; nothing else changes them. *)
Inductive abstract_step : abstract_inventory -> inventory_event -> abstract_inventory -> Prop :=
| as_page received latest projects n page now :
    abstract_step (mkAbstract received latest projects) (EvPage n page now)
      (mkAbstract (received ++ [page]) latest projects)
| as_publish received latest projects n page now pages :
    sublist pages received -> complete_snapshot pages page -> (latest < page_snapshot_sequence page)%Z ->
    abstract_step (mkAbstract received latest projects) (EvPage n page now)
      (mkAbstract (received ++ [page]) (page_snapshot_sequence page)
         (sort_by project_le (pages_projects (pages ++ [page]))))
| as_expire a now : abstract_step a (EvExpire now) a
| as_reconnect a : abstract_step a EvReconnect a
| as_upsert received latest projects q now :
    valid_project q ->
    abstract_step (mkAbstract received latest projects) (EvUpsert q now)
      (mkAbstract received latest (upsert_project_summary projects q))
| as_upsert_invalid a q now : ~ valid_project q -> abstract_step a (EvUpsert q now) a
| as_remove received latest projects pid now :
    abstract_step (mkAbstract received latest projects) (EvRemove pid now)
      (mkAbstract received latest (List.filter (fun p => project_id_ p !=? pid) projects)).

Inductive abstract_run : abstract_inventory -> list inventory_event -> abstract_inventory -> Prop :=
| ar_nil a : abstract_run a [] a
| ar_snoc a evs b ev c : abstract_run a evs b -> abstract_step b ev c -> abstract_run a (evs ++ [ev]) c.

(** ** Simulation *)

(** The staging is a run of received pages, none of them the last. *)
Record staged_from (st : ProjectInventoryStaging) (pages : list ShellProjectInventoryPage) : Prop := {
  sf_run : page_run (stg_generation st) (stg_snapshot_sequence st) (stg_total_reported st) pages;
  sf_partial : Forall (fun p => page_complete p = false) pages;
  sf_projects : stg_projects st = pages_projects pages;
  sf_next : next_page_index st = Z.of_nat (length pages)
}.

Record simulates (r : RunnerRecord) (a : abstract_inventory) : Prop := {
  sim_projects : r_projects r = ab_projects a;
  sim_latest : (ab_latest a <= highest r)%Z;
  sim_staging : forall st, current_staging r = Some st ->
    (ab_latest a < highest r)%Z
    /\ exists pages, sublist pages (ab_received a) /\ staged_from st pages
}.

Lemma pages_projects_snoc (pages : list ShellProjectInventoryPage) (page : ShellProjectInventoryPage) :
  pages_projects (pages ++ [page]) = pages_projects pages ++ page_projects page.
Proof. unfold pages_projects. rewrite map_app, concat_app. cbn. by rewrite app_nil_r. Qed.

Lemma quiet_trans (r1 r2 r3 : RunnerRecord) : quiet r1 r2 -> quiet r2 r3 -> quiet r1 r3.
Proof.
  intros [P1 S1 H1 B1] [P2 S2 H2 B2]. split; [congruence | | congruence | auto].
  destruct S1, S2; (left; congruence) || (right; congruence).
Qed.

Lemma quiet_simulates (r r' : RunnerRecord) (a : abstract_inventory) :
  quiet r r' -> simulates r a -> simulates r' a.
Proof.
  intros [Hp Hs Hh _] [Sp Sl Ss]. split; rewrite ?Hp, ?Hh; try done.
  intros st Hst. apply Ss. destruct Hs; congruence.
Qed.

Lemma simulates_received (r : RunnerRecord) (received : list ShellProjectInventoryPage) latest projects page :
  simulates r (mkAbstract received latest projects) -> simulates r (mkAbstract (received ++ [page]) latest projects).
Proof.
  intros [Sp Sl Ss]. split; try done. intros st Hst. destruct (Ss st Hst) as (Hl & pages & Hsub & Hf).
  split; [done | ]. exists pages. split; [by apply sublist_inserts_r | done].
Qed.

(** One more page on a run of pages. *)
Lemma page_run_snoc g s n (pages : list ShellProjectInventoryPage) (page : ShellProjectInventoryPage) :
  page_run g s n pages -> page_generation page = g -> page_snapshot_sequence page = s ->
  page_total_reported page = n -> page_index page = Z.of_nat (length pages) -> page_run g s n (pages ++ [page]).
Proof.
  intros [Rs Ri] Hg Hs Hn Hi. split; [apply Forall_app; split; [done | by constructor] | ].
  intros i p Hp. apply lookup_app_Some in Hp as [Hp|[Hle Hp]]; [by apply Ri | ].
  apply list_lookup_singleton_Some in Hp as [Hi' <-]. rewrite Hi. lia.
Qed.

Lemma opens_staged (r : RunnerRecord) (a : abstract_inventory) page now st :
  simulates r a -> opens r page now st -> inventory_ok r ->
  (stg_snapshot_sequence st = page_snapshot_sequence page -> (ab_latest a < page_snapshot_sequence page)%Z)
  /\ exists pages, sublist pages (ab_received a) /\ staged_from st pages.
Proof.
  intros [Sp Sl Ss] Ho Hok. destruct Ho as [Hst|[-> Hlt]].
  - destruct (Ss st Hst) as [Hl Hp]. destruct (io_staging r Hok st Hst) as [_ Hseq]. split; [congruence | done].
  - split; [lia | ]. exists []. split; [apply sublist_nil_l | ]. repeat split; try done; try constructor.
Qed.

Section PageSimulation.
Context (summaries_json_len : list RunnerProjectSummary -> Z)
  (page_json_len : ShellProjectInventoryPage -> Z) (page_json_digest : ShellProjectInventoryPage -> str).
Context (page_json_len_ge : forall page,
  (1 + Z.of_nat (length (page_projects page)) <= page_json_len page)%Z).

Lemma page_simulates (r : RunnerRecord) (a : abstract_inventory) (n : nat) page now at_ :
  inventory_ok r -> simulates r a ->
  exists r' b, apply_page summaries_json_len page_json_len page_json_digest r n page now = Some r'
    /\ abstract_step a (EvPage n page at_) b /\ simulates r' b.
Proof.
  intros Hok Hs. destruct a as [received latest projects].
  destruct (apply_page_effect summaries_json_len _ page_json_digest page_json_len_ge r n page now Hok) as (r' & Hr & He & Hp).
  exists r'. pose proof (simulates_received _ _ _ _ page Hs) as Hs'.
  assert (Hkeep : forall r2, quiet r r2 -> exists b, Some r2 = Some r2
    /\ abstract_step (mkAbstract received latest projects) (EvPage n page at_) b /\ simulates r2 b).
  { intros r2 Hq. eexists. split_and!; [done | apply as_page | by eapply quiet_simulates]. }
  destruct He as [Hq|Hpr Hn Hh|st nb Ho Hf Hc Hpr Hst Hh Hle|st nb Ho Hf Hc Hpr Hst Hh Hle]; rewrite Hr.
  - by apply Hkeep.
  - eexists. split_and!; [done | apply as_page | ]. destruct Hs as [Sp Sl _].
    split; cbn in *; [congruence | lia | intros st Hst; congruence].
  - eexists. split_and!; [done | apply as_page | ].
    destruct (opens_staged _ _ _ _ _ Hs Ho Hok) as (Hlt & pages & Hsub & Hfrom).
    pose proof (opened_ok r page now st Hok Ho) as Hso. destruct Hf as [Fg Fs Fi Ft _ _ _ [Fb Fl]], Hfrom as [Hrun Hpart Hproj Hnext].
    specialize (Hlt Fs). cbn in *. split; cbn; [rewrite Hpr; apply Hs | lia | ].
    intros st' Hst'. rewrite Hst in Hst'. injection Hst' as <-. split; [lia | ]. exists (pages ++ [page]).
    split; [by apply sublist_app | ]. split; cbn.
    + apply page_run_snoc; congruence.
    + apply Forall_app. split; [done | by constructor].
    + by rewrite pages_projects_snoc, Hproj.
    + destruct Hso as [_ _ _ _ _ Hb]. unfold PROJECT_INVENTORY_SNAPSHOT_MAX_SERIALIZED_BYTES in *.
      unfold u32_sat_add, U32_MAX. rewrite length_app. cbn. lia.
  - destruct (opens_staged _ _ _ _ _ Hs Ho Hok) as (Hlt & pages & Hsub & Hfrom).
    pose proof (opened_ok r page now st Hok Ho) as Hso.
    destruct Hp as [Hp|Hq]; [ | by apply Hkeep].
    destruct (extended_ok st page _ nb Hso Hp Hf) as (Hu & Hv & _).
    destruct Hf as [Fg Fs Fi Ft _ Fc _ _], Hfrom as [Hrun Hpart Hproj Hnext]. specialize (Hlt Fs). specialize (Fc Hc).
    rewrite Hproj, <- pages_projects_snoc in Hu, Hv, Fc. rewrite Hproj, <- pages_projects_snoc in Hpr. cbn in *.
    eexists. split_and!; [done | apply (as_publish _ _ _ _ _ _ pages) | ]; try done.
    + split; try done. rewrite <- Fg, <- Fs, <- Ft. apply page_run_snoc; congruence.
    + split; cbn; [congruence | lia | intros st' Hst'; congruence].
Qed.
End PageSimulation.

(** ** The theorems *)

Lemma reconnect_quiet (r : RunnerRecord) (n : nat) :
  quiet r (set_inventory r (preserve_authoritative_pending (r_project_inventory r) n)).
Proof.
  destruct (drop_staging_same (r_project_inventory r)) as [Hs Hh].
  split; [done | right; exact Hs | exact Hh | apply drop_staging_bounded].
Qed.

Lemma page_prologue_quiet (r : RunnerRecord) (now : Z) : quiet r (expire_staging (r <| r_last_seen := now |>) now).
Proof. apply (quiet_trans _ (r <| r_last_seen := now |>)); [by split; auto | apply expire_quiet]. Qed.

(** A projection of the record with the same snapshot order and no staging. *)
Lemma dynamic_step (r : RunnerRecord) (projects : list RunnerProjectSummary) (now : Z) :
  projects_sorted projects -> NoDup (project_ids projects) -> Forall valid_project projects ->
  let r' := reconcile_dynamic_projection (r <| r_projects := projects |>) now in
  inventory_ok r' /\ r_projects r' = projects /\ current_staging r' = None /\ highest r' = highest r.
Proof.
  intros H1 H2 H3 r'. destruct (dynamic_projection_ok (r <| r_projects := projects |>) now) as [Hok Hp]; try done.
  split_and!; [done | exact Hp | | ]; subst r'; unfold current_staging, highest, reconcile_dynamic_projection; cbn;
    destruct (status_generation _); rewrite ?(proj1 (retire_same _ _)), ?(proj1 (proj2 (retire_same _ _)));
    apply (drop_staging_same (r_project_inventory r)).
Qed.

Lemma filter_projects_ok (f : RunnerProjectSummary -> bool) (l : list RunnerProjectSummary) :
  projects_sorted l -> NoDup (project_ids l) -> Forall valid_project l ->
  projects_sorted (List.filter f l) /\ NoDup (project_ids (List.filter f l)) /\ Forall valid_project (List.filter f l).
Proof.
  induction l as [|p l IH]; cbn; [done | ]. intros Hs Hn Hv.
  apply StronglySorted_inv in Hs as [Hs Hf]. apply NoDup_cons in Hn as [Hx Hn]. apply Forall_cons in Hv as [Hp Hv].
  destruct (IH Hs Hn Hv) as (I1 & I2 & I3). destruct (f p); [ | done]. split_and!; [ | | by constructor].
  - constructor; [done | ]. rewrite List.Forall_forall in *. intros q [Hq _]%filter_In. by apply Hf.
  - cbn. constructor; [ | done]. intros Hin. apply Hx. apply list_elem_of_In, in_map_iff in Hin as (q & Hq & [Hq' _]%filter_In).
    apply list_elem_of_In, in_map_iff. by exists q.
Qed.

Lemma dynamic_simulates (r r' : RunnerRecord) (a : abstract_inventory) (projects : list RunnerProjectSummary) :
  simulates r a -> r_projects r' = projects -> current_staging r' = None -> highest r' = highest r ->
  simulates r' (mkAbstract (ab_received a) (ab_latest a) projects).
Proof. intros [Sp Sl Ss] Hp Hn Hh. split; cbn; [done | lia | intros st Hst; congruence]. Qed.

Section Refinement.
Context (summaries_json_len : list RunnerProjectSummary -> Z)
  (page_json_len : ShellProjectInventoryPage -> Z) (page_json_digest : ShellProjectInventoryPage -> str).
Context (page_json_len_ge : forall page,
  (1 + Z.of_nat (length (page_projects page)) <= page_json_len page)%Z).

Abbreviation step := (inventory_step summaries_json_len page_json_len page_json_digest).
Abbreviation run := (inventory_run summaries_json_len page_json_len page_json_digest).

Lemma step_simulates (r : RunnerRecord) (a : abstract_inventory) (ev : inventory_event) :
  inventory_ok r -> simulates r a ->
  exists r' b, step r ev = Some r' /\ abstract_step a ev b /\ inventory_ok r' /\ simulates r' b.
Proof.
  intros Hok Hs. pose proof Hok as [H1 H2 H3 _]. destruct a as [received latest projects].
  pose proof (sim_projects _ _ Hs) as Hp. cbn in Hp. destruct ev as [n page now|now| |q now|pid now]; cbn [inventory_step].
  - pose proof (page_prologue_quiet r now) as Hq. pose proof (quiet_ok _ _ Hq Hok) as Hok1.
    destruct (page_simulates summaries_json_len _ page_json_digest page_json_len_ge _ _ n page now now Hok1
      (quiet_simulates _ _ _ Hq Hs)) as (r' & b & Hr & Hb & Hs').
    destruct (apply_page_ok summaries_json_len _ page_json_digest page_json_len_ge _ n page now Hok1) as (r2 & Hr2 & Hok2).
    exists r', b. rewrite Hr in Hr2. injection Hr2 as <-. auto.
  - eexists _, _. split_and!; [done | apply as_expire | |].
    + eapply quiet_ok; [apply expire_quiet | done].
    + eapply quiet_simulates; [apply expire_quiet | done].
  - eexists _, _. split_and!; [done | apply as_reconnect | |].
    + eapply quiet_ok; [apply reconnect_quiet | done].
    + eapply quiet_simulates; [apply reconnect_quiet | done].
  - destruct (validate_project_summary q) as [[]|err] eqn:Hv; cbn [is_ok].
    + destruct (upsert_ok (r_projects r) q H1 H2 H3 Hv) as (U1 & U2 & U3).
      destruct (dynamic_step r _ now U1 U2 U3) as (D1 & D2 & D3 & D4).
      eexists _, _. split_and!; [done | by apply as_upsert | exact D1 | ]. rewrite <- Hp.
      apply (dynamic_simulates r _ (mkAbstract received latest projects)); done.
    + eexists _, _. split_and!; [done | apply as_upsert_invalid | done | done]. unfold valid_project. by rewrite Hv.
  - destruct (filter_projects_ok (fun p => project_id_ p !=? pid) (r_projects r) H1 H2 H3) as (U1 & U2 & U3).
    destruct (dynamic_step r _ now U1 U2 U3) as (D1 & D2 & D3 & D4).
    eexists _, _. split_and!; [done | apply as_remove | exact D1 | ]. rewrite <- Hp.
    apply (dynamic_simulates r _ (mkAbstract received latest projects)); done.
Qed.

Lemma inventory_run_snoc (r : RunnerRecord) (evs : list inventory_event) (ev : inventory_event) :
  run r (evs ++ [ev]) = (r ← run r evs; step r ev).
Proof. unfold inventory_run. by rewrite foldl_app. Qed.

(** C31: the paged project inventory refines an inventory of whole snapshots. Along
    any history of pages (in any order, replayed, damaged, interleaved between
    snapshots), staging expiries, reconnects and project registrations or removals,
    the handlers never panic, and the published projects change only the way the
    abstract inventory allows: at once, to the sorted projects of a complete
    snapshot whose pages 0..n-1 were all received in that order, newer than every
    snapshot published before, or by one registration or removal; and they stay
    sorted, valid and unique. *)
Theorem inventory_publishes_whole_snapshots (r : RunnerRecord) (evs : list inventory_event)
  (Hok : inventory_ok r) (Hidle : current_staging r = None) :
  exists r' b, run r evs = Some r'
    /\ abstract_run (mkAbstract [] (highest r) (r_projects r)) evs b
    /\ r_projects r' = ab_projects b
    /\ projects_sorted (ab_projects b) /\ NoDup (project_ids (ab_projects b)) /\ Forall valid_project (ab_projects b).
Proof.
  enough (exists r' b, run r evs = Some r'
    /\ abstract_run (mkAbstract [] (highest r) (r_projects r)) evs b /\ inventory_ok r' /\ simulates r' b)
    as (r' & b & Hr & Hb & [H1 H2 H3 _] & [Sp _ _]).
  { exists r', b. rewrite <- Sp. by split_and!. }
  induction evs as [|ev evs IH] using rev_ind.
  - exists r, (mkAbstract [] (highest r) (r_projects r)). split_and!; [done | constructor | done | ].
    split; cbn; [done | lia | intros st Hst; congruence].
  - destruct IH as (r1 & b1 & Hr1 & Hb1 & Hok1 & Hs1).
    destruct (step_simulates r1 b1 ev Hok1 Hs1) as (r2 & b2 & Hr2 & Hb2 & Hok2 & Hs2).
    exists r2, b2. rewrite inventory_run_snoc, Hr1. split_and!; [exact Hr2 | by eapply ar_snoc | done | done].
Qed.
End Refinement.

(** ** Redelivery *)

Section Redelivery.
Context (summaries_json_len : list RunnerProjectSummary -> Z)
  (page_json_len : ShellProjectInventoryPage -> Z) (page_json_digest : ShellProjectInventoryPage -> str).

Abbreviation apply_page := (apply_page summaries_json_len page_json_len page_json_digest).

(** The record already shows the page as taken, or turns it away as old. *)
Definition settled (r : RunnerRecord) (page : ShellProjectInventoryPage) (digest : str) : bool :=
  let state := r_project_inventory r in
  let matches := staging_matches_page state page in
  let completed := completed_generation_matches_page state page in
  (exact_last_page_replay state page digest && (matches || completed))
  || (Z.ltb (page_snapshot_sequence page) (highest_snapshot_sequence state)
      || (Z.eqb (page_snapshot_sequence page) (highest_snapshot_sequence state) && negb matches))
  || (one_of (page_generation page) (retired_generations state) || completed).

Lemma settled_unchanged (r r' : RunnerRecord) (n : nat) page now bytes digest :
  validate_page summaries_json_len page_json_len page_json_digest page = Ok (bytes, digest) ->
  settled r page digest = true -> apply_page r n page now = Some r' ->
  r_projects r' = r_projects r /\ current_staging r' = current_staging r.
Proof.
  intros Hv Hs. unfold ProjectInventory.apply_page. rewrite Hv. unfold settled in Hs.
  destruct (exact_last_page_replay _ _ _ && _); [intros [= <-]; done | ].
  destruct (Z.ltb _ _ || _); [intros [= <-]; done | ]. cbn in Hs. rewrite Hs. by intros [= <-].
Qed.

(** Staging a page settles it: it is recorded as the last page, or its snapshot is
    given up and cannot be opened again. *)
Lemma stage_page_settles (r r' : RunnerRecord) page bytes digest now :
  staging_matches_page (r_project_inventory r) page = true ->
  highest r = page_snapshot_sequence page ->
  stage_page r page bytes digest now = Some r' -> settled r' page digest = true.
Proof.
  intros Hm Hh H. unfold stage_page in H. destruct (staging (r_project_inventory r)) as [st|] eqn:Hst; [ | done].
  cbn [mbind option_bind] in H. rewrite Hm in H. cbn [negb] in H.
  assert (Hfail : forall code, settled (fail_current_staging r code now) page digest = true).
  { intros code. destruct (clear_quiet r (Some code) now) as [[_ _ Hh' _] Hn]. unfold settled, current_staging, highest in *.
    unfold fail_current_staging. unfold staging_matches_page at 2. rewrite Hn, Hh', Hh, Z.eqb_refl. cbn.
    by rewrite !orb_true_r. }
  injection H as <-. unfold staging_matches_page in Hm. rewrite Hst in Hm. cbn in Hm.
  apply andb_true_iff in Hm as [Hg Hsq].
  destruct (negb (Z.eqb (next_page_index st) _)); [by apply Hfail | ].
  destruct (negb (Nat.eqb _ _)); [by apply Hfail | ]. destruct (existsb _ _); [by apply Hfail | ].
  destruct (_ || _ || _); [by apply Hfail | ]. destruct (Z.ltb _ _); [by apply Hfail | ].
  unfold accept_page, settled, exact_last_page_replay.
  destruct (page_complete page); cbn; rewrite !beq_refl; cbn; [ | by rewrite Hg, Hsq].
  unfold highest in Hh. rewrite Hh, Z.eqb_refl. cbn. by rewrite !orb_true_r.
Qed.

(** A page that is not settled is staged, into the current staging or a new one. *)
Lemma unsettled_staged (r : RunnerRecord) (n : nat) page now bytes digest :
  validate_page summaries_json_len page_json_len page_json_digest page = Ok (bytes, digest) ->
  settled r page digest = false ->
  apply_page r n page now =
    if staging_matches_page (r_project_inventory r) page then stage_page r page bytes digest now
    else match begin_staging r n page now with
         | Err r => Some r
         | Ok r => stage_page r page bytes digest now
         end.
Proof.
  intros Hv Hs. unfold settled in Hs. apply orb_false_iff in Hs as [Hs H3]. apply orb_false_iff in Hs as [H1 H2].
  unfold ProjectInventory.apply_page. by rewrite Hv, H1, H2, H3.
Qed.

(** A refusal to open a snapshot is repeated. *)
Lemma begin_refused_again (r r1 : RunnerRecord) (n : nat) page now now' digest :
  staging_matches_page (r_project_inventory r) page = false -> settled r page digest = false ->
  begin_staging r n page now = Err r1 ->
  staging_matches_page (r_project_inventory r1) page = false
  /\ exists r2, begin_staging r1 n page now' = Err r2
     /\ r_projects r2 = r_projects r1 /\ current_staging r2 = current_staging r1.
Proof.
  intros Hm Hs. unfold begin_staging at 1. destruct (negb (Z.eqb _ 0)) eqn:Hi.
  { intros [= <-]. split; [exact Hm | ]. eexists. unfold begin_staging. by rewrite Hi. }
  destruct (_ && _) eqn:Hcap.
  { intros [= <-]. split; [exact Hm | ]. eexists. unfold begin_staging. rewrite Hi.
    change (staging (r_project_inventory (set_status r _))) with (staging (r_project_inventory r)). by rewrite Hcap. }
  destruct (Z.leb_spec (page_snapshot_sequence page) (highest_snapshot_sequence (r_project_inventory r))) as [Hle|]; [ | done].
  unfold settled in Hs. rewrite Hm in Hs. cbn [negb] in Hs. rewrite andb_true_r in Hs.
  destruct (Z.ltb_spec (page_snapshot_sequence page) (highest_snapshot_sequence (r_project_inventory r))); [by rewrite orb_true_r in Hs | ].
  replace (page_snapshot_sequence page) with (highest_snapshot_sequence (r_project_inventory r)) in Hs by lia.
  rewrite Z.eqb_refl in Hs. by rewrite orb_true_r in Hs.
Qed.

(** Delivery of a page is idempotent: a page that arrives twice in a row, with
    no change of the staging capacity between, has the published projects and the
    staged snapshot it had after the first arrival, whether the first arrival
    staged it, published its snapshot, or was refused. *)
Lemma page_redelivery_changes_nothing (r r1 r2 : RunnerRecord) (n : nat) page now now'
  (Hok : inventory_ok r) (H1 : apply_page r n page now = Some r1) (H2 : apply_page r1 n page now' = Some r2) :
  r_projects r2 = r_projects r1 /\ current_staging r2 = current_staging r1.
Proof.
  destruct (validate_page summaries_json_len page_json_len page_json_digest page) as [[bytes digest]|code] eqn:Hv.
  2: { unfold ProjectInventory.apply_page in H1, H2. rewrite Hv in H1, H2. injection H1 as <-. injection H2 as <-.
       destruct (clear_quiet r (Some code) now) as [_ Hn].
       destruct (clear_quiet (fail_current_staging r code now) (Some code) now') as [[Hp _ _ _] Hn'].
       split; [exact Hp | ]. unfold fail_current_staging in *. congruence. }
  destruct (settled r page digest) eqn:Hs0.
  { assert (settled r1 page digest = true); [ | by eapply settled_unchanged].
    revert H1. unfold ProjectInventory.apply_page. rewrite Hv. pose proof Hs0 as Hs. unfold settled in Hs.
    destruct (exact_last_page_replay _ _ _ && _); [by intros [= <-] | ].
    destruct (Z.ltb _ _ || _); [by intros [= <-] | ]. cbn in Hs. rewrite Hs. by intros [= <-]. }
  rewrite (unsettled_staged r n page now bytes digest Hv Hs0) in H1.
  destruct (staging_matches_page (r_project_inventory r) page) eqn:Hm.
  { eapply settled_unchanged; [done | eapply (stage_page_settles r); [done | | exact H1] | done].
    unfold staging_matches_page in Hm. destruct (staging (r_project_inventory r)) as [st|] eqn:Hst; [ | done].
    cbn in Hm. apply andb_true_iff in Hm as [_ Hsq%Z.eqb_eq]. destruct (io_staging r Hok st Hst). congruence. }
  pose proof (begin_staging_effect r n page now) as Hb. destruct (begin_staging r n page now) as [r0|r0] eqn:Hbegin.
  - destruct Hb as (_ & Hst & Hh & _).
    eapply settled_unchanged; [done | eapply (stage_page_settles r0); [ | done | exact H1] | done].
    unfold staging_matches_page, current_staging in *. rewrite Hst. cbn. by rewrite beq_refl, Z.eqb_refl.
  - injection H1 as <-. destruct (begin_refused_again r r0 n page now now' digest Hm Hs0 Hbegin) as (Hm' & r3 & Hb3 & Hp & Hc).
    destruct (settled r0 page digest) eqn:Hs1; [by eapply settled_unchanged | ].
    rewrite (unsettled_staged r0 n page now' bytes digest Hv Hs1), Hm', Hb3 in H2. by injection H2 as <-.
Qed.
End Redelivery.

(** ** Witnesses *)

Definition sample_project (id : str) : RunnerProjectSummary :=
  mkProject id None (lit "/srv/" ++ id) true None None None [] false None None None None 0 None.

Definition sample_page (index : Z) (complete : bool) (ids : list str) : ShellProjectInventoryPage :=
  mkPage (lit "g1") 1 index 2 complete (map sample_project ids).

Definition sample_page_len (page : ShellProjectInventoryPage) : Z := 1 + Z.of_nat (length (page_projects page)).
Definition sample_summaries_len (l : list RunnerProjectSummary) : Z := Z.of_nat (length l).
Definition sample_digest (page : ShellProjectInventoryPage) : str := concat (project_ids (page_projects page)).

(** Two pages, the first one sent twice. *)
Definition sample_history : list inventory_event :=
  [EvPage 0 (sample_page 0 false [lit "b"]) 100; EvPage 1 (sample_page 0 false [lit "b"]) 101;
   EvPage 1 (sample_page 1 true [lit "a"]) 102].

Lemma sample_runner_ok : inventory_ok sample_runner.
Proof. repeat split; try constructor; discriminate. Defined.

Lemma inventory_publishes_whole_snapshots_witness :
  project_ids <$> (r_projects <$> inventory_run sample_summaries_len sample_page_len sample_digest sample_runner sample_history)
    = Some [lit "a"; lit "b"]
  /\ exists r' b, inventory_run sample_summaries_len sample_page_len sample_digest sample_runner sample_history = Some r'
    /\ abstract_run (mkAbstract [] (highest sample_runner) (r_projects sample_runner)) sample_history b
    /\ r_projects r' = ab_projects b
    /\ projects_sorted (ab_projects b) /\ NoDup (project_ids (ab_projects b)) /\ Forall valid_project (ab_projects b).
Proof.
  split; [vm_compute; reflexivity | ].
  apply inventory_publishes_whole_snapshots; [intros page; apply Z.le_refl | exact sample_runner_ok | reflexivity].
Defined.

Lemma page_redelivery_changes_nothing_witness :
  exists r1 r2,
    apply_page sample_summaries_len sample_page_len sample_digest sample_runner 0 (sample_page 0 false [lit "b"]) 100 = Some r1
    /\ apply_page sample_summaries_len sample_page_len sample_digest r1 0 (sample_page 0 false [lit "b"]) 101 = Some r2
    /\ project_ids <$> (stg_projects <$> current_staging r1) = Some [lit "b"]
    /\ r_projects r2 = r_projects r1 /\ current_staging r2 = current_staging r1.
Proof.
  eexists _, _. split; [reflexivity | split; [reflexivity | split; [vm_compute; reflexivity | ]]].
  apply (page_redelivery_changes_nothing sample_summaries_len sample_page_len sample_digest sample_runner _ _ 0
    (sample_page 0 false [lit "b"]) 100 101); [exact sample_runner_ok | reflexivity | reflexivity].
Defined.
