(* ===== verification/Polling.v ===== *)
(** * Polling: crates/webcodex-runner-registry/src/polling.rs, the hand-out of
    requests to a Runner and the return of their results

    A poll pops request ids off the front of the Runner's queue until one may be
    handed out.  Every request carries fences (the exact Runner process, provider,
    project placement or capability it was admitted for) that are revalidated at
    that moment; a request whose fence no longer holds is removed and its waiters
    are told that it never started.  Messages on oneshot channels are the replies
    a handler returns beside the new state. *)
From S2P Require Import Prelude RustStr Lifecycle Policy JobLog Capabilities CodingAgent RunnerData RegistryState JobState InventoryCheck JobUpdate.

(** ** Replies *)

Record ShellRunResponse : Type := mkRunResponse {
  rsp_success : bool;
  rsp_request_id : str;
  rsp_client_id : str;
  rsp_cwd : option str;
  rsp_command_preview : str;
  rsp_exit_code : option Z;
  rsp_stdout : option str;
  rsp_stderr : option str;
  rsp_duration_ms : option Z;
  rsp_error : option str;
  rsp_request_dispatched : option bool;
  rsp_command_execution_state : option ShellCommandExecutionState
}.

(** The dispatch state of a typed gateway's reply. *)
Inductive GatewayDispatchState : Type := GatewayNotStarted | GatewayOutcomeUnknown.

(** What a typed gateway's waiter receives: the Runner's own response, as wire
    text, or an error made by the Server. *)
Inductive GatewayReply : Type :=
| GatewayResponse (text : str)
| GatewayError (state : GatewayDispatchState) (code message : str).

Inductive Reply : Type :=
| ShellReply (response : ShellRunResponse)
| McpReply (rid : str) (reply : GatewayReply)
| PluginReply (rid : str) (reply : GatewayReply)
| CodingAgentReply (rid : str) (response : CodingAgentResponse).

Definition reply_request (r : Reply) : str :=
  match r with
  | ShellReply response => rsp_request_id response
  | McpReply rid _ | PluginReply rid _ | CodingAgentReply rid _ => rid
  end.

Definition script_language_as_str (l : ShellScriptLanguage) : str :=
  match l with
  | Sh => lit "sh"
  | Bash => lit "bash"
  | Powershell => lit "powershell"
  | Javascript => lit "javascript"
  | Typescript => lit "typescript"
  end.

Definition script_preview (language : str) (script_bytes arg_count : Z) : str :=
  language ++ lit " script (" ++ fmt_Z script_bytes ++ lit " bytes, " ++ fmt_Z arg_count ++ lit " args)".

(** ** Fences *)

(** Why a request may no longer be handed out, and by which check. *)
Inductive StaleDispatch : Type :=
| StaleRunnerConfig (code message : str)
| StaleSshResource (code message : str)
| StaleBridge (code message : str)
| StalePlugin (code message : str)
| StaleSkillStore (message : str)
| StaleCodingAgent (code message : str)
| StaleProject (message : str).

Definition stale_runner_config (runner : option RunnerRecord) (p : PendingShellRequest) : option StaleDispatch :=
  match p_operation p, expected_runner_config_runner_instance_id (p_fences p) with
  | OpRunnerConfig _, Some expected =>
      match runner with
      | None => Some (StaleRunnerConfig (lit "runner_replaced")
                  (lit "Exact Runner disappeared before config operation dispatch"))
      | Some r =>
          if r_runner_instance_id r !=? expected
          then Some (StaleRunnerConfig (lit "runner_replaced")
                       (lit "Exact Runner changed before config operation dispatch"))
          else if negb (supports (r_runner_features r) RunnerConfigControl)
          then Some (StaleRunnerConfig (lit "capability_unavailable")
                       (lit "Runner config-control capability changed before dispatch"))
          else None
      end
  | OpRunnerConfig _, None =>
      Some (StaleRunnerConfig (lit "runner_replaced") (lit "Runner config exact-process fence is missing"))
  | _, Some _ =>
      Some (StaleRunnerConfig (lit "runner_replaced") (lit "Runner config exact-process fence is inconsistent"))
  | _, None => None
  end.

Definition stale_ssh_resource (runner : option RunnerRecord) (p : PendingShellRequest) : option StaleDispatch :=
  match p_operation p, expected_ssh_resource_runner_instance_id (p_fences p) with
  | OpSshResource _, Some expected =>
      match runner with
      | None => Some (StaleSshResource (lit "runner_replaced")
                  (lit "Exact Runner disappeared before SSH resource dispatch"))
      | Some r =>
          if r_runner_instance_id r !=? expected
          then Some (StaleSshResource (lit "runner_replaced")
                       (lit "Exact Runner changed before SSH resource dispatch"))
          else if negb (supports (r_runner_features r) ManagedSshResources)
          then Some (StaleSshResource (lit "ssh_resource_registry_unavailable")
                       (lit "Managed SSH resource capability changed before dispatch"))
          else None
      end
  | OpSshResource _, None =>
      Some (StaleSshResource (lit "runner_replaced") (lit "SSH resource exact Runner fence is missing"))
  | _, Some _ =>
      Some (StaleSshResource (lit "runner_replaced") (lit "SSH resource exact Runner fence is inconsistent"))
  | _, None => None
  end.

Definition has_provider (provider instance : str) (providers : list McpGatewayProvider) : bool :=
  existsb (fun p => (provider_id p ==? provider) && (provider_instance_id p ==? instance)) providers.

Definition stale_bridge (runner : option RunnerRecord) (p : PendingShellRequest) : option StaleDispatch :=
  let incomplete := Some (StaleBridge (lit "stale_provider")
                      (lit "stale_mcp_gateway: pending exact bridge fence is incomplete")) in
  match p_operation p, expected_mcp_gateway_runner_instance_id (p_fences p),
        expected_mcp_gateway_provider_id (p_fences p), expected_mcp_gateway_provider_instance_id (p_fences p) with
  | OpMcpGateway operation, Some expected_runner, Some expected_provider, Some expected_instance =>
      if (mcp_provider_id operation !=? expected_provider)
         || (mcp_provider_instance_id operation !=? expected_instance)
      then Some (StaleBridge (lit "stale_provider")
                   (lit "stale_mcp_gateway: pending exact-provider fence is inconsistent"))
      else match runner with
           | None => Some (StaleBridge (lit "stale_runner")
                       (lit "stale_mcp_gateway: target Runner disappeared before dispatch"))
           | Some r =>
               if r_runner_instance_id r !=? expected_runner
               then Some (StaleBridge (lit "stale_runner")
                            (lit "stale_mcp_gateway: target Runner changed before dispatch"))
               else if negb (is_some_and (has_provider expected_provider expected_instance)
                               (r_mcp_gateway_providers r))
               then Some (StaleBridge (lit "stale_provider")
                            (lit "stale_mcp_gateway: target provider changed before dispatch"))
               else None
           end
  | OpMcpGateway _, _, _, _ => incomplete
  | _, None, None, None => None
  | _, _, _, _ => incomplete
  end.

Definition stale_plugin (runner : option RunnerRecord) (fence : option PluginGatewayDispatchFence)
  (p : PendingShellRequest) : option StaleDispatch :=
  match p_operation p with
  | OpPluginGateway operation =>
      match fence with
      | None => Some (StalePlugin (lit "stale_plugin_fence") (lit "native Plugin exact dispatch fence is missing"))
      | Some fence =>
          if provider_binding operation !=? pgf_provider fence
          then Some (StalePlugin (lit "stale_plugin_provider")
                       (lit "native Plugin provider binding changed before dispatch"))
          else match runner with
               | None => Some (StalePlugin (lit "stale_runner")
                           (lit "native Plugin target Runner disappeared before dispatch"))
               | Some r =>
                   if r_runner_instance_id r !=? pgf_runner_instance_id fence
                   then Some (StalePlugin (lit "stale_runner")
                                (lit "native Plugin target Runner changed before dispatch"))
                   else if negb (supports (r_runner_features r) NativeToolPlugins)
                   then Some (StalePlugin (lit "plugin_capability_unavailable")
                                (lit "native Plugin capability changed before dispatch"))
                   else None
               end
      end
  | _ => None
  end.

(** The check of one Skill source: [kind] names it in the messages. *)
Definition stale_skill_source (kind capability_error : str) (required : RunnerFeature)
  (runner : option RunnerRecord) (fence : SkillStoreDispatchFence) : option StaleDispatch :=
  match runner with
  | None => Some (StaleSkillStore (lit "stale_runner: " ++ kind ++ lit " target Runner disappeared before dispatch"))
  | Some r =>
      if r_runner_instance_id r !=? skf_runner_instance_id fence
      then Some (StaleSkillStore (lit "stale_runner: " ++ kind ++ lit " target Runner changed before dispatch"))
      else if negb (supports (r_runner_features r) required)
      then Some (StaleSkillStore (capability_error ++ lit ": exact Runner no longer advertises "
                                  ++ as_wire_name required ++ lit " before dispatch"))
      else None
  end.

Definition stale_skill_store (runner : option RunnerRecord) (p : PendingShellRequest) : option StaleDispatch :=
  match p_operation p, skill_store_fence (p_fences p) with
  | OpSkillStore _, Some fence =>
      if negb (skf_configured_roots fence)
      then stale_skill_source (lit "Skill store") (lit "skill_store_capability_unavailable")
             (if skf_management fence then SkillStoreManage else SkillStoreRead) runner fence
      else Some (StaleSkillStore (lit "stale_runner: Skill source dispatch fence mode does not match the request kind"))
  | OpConfiguredSkillRoots _, Some fence =>
      if skf_configured_roots fence && negb (skf_management fence)
      then stale_skill_source (lit "configured Skill roots") (lit "configured_skill_roots_capability_unavailable")
             ConfiguredSkillRootsRead runner fence
      else Some (StaleSkillStore (lit "stale_runner: Skill source dispatch fence mode does not match the request kind"))
  | OpSkillStore _, None | OpConfiguredSkillRoots _, None =>
      Some (StaleSkillStore (lit "stale_runner: Skill source exact dispatch fence is missing"))
  | _, Some _ =>
      Some (StaleSkillStore (lit "stale_runner: Skill source dispatch fence is attached to the wrong request kind"))
  | _, None => None
  end.

Definition stale_coding_agent (runner : option RunnerRecord) (fence : option CodingAgentDispatchFence)
  (p : PendingShellRequest) : option StaleDispatch :=
  match p_operation p with
  | OpCodingAgent _ =>
      match fence, runner with
      | None, _ => Some (StaleCodingAgent (lit "stale_coding_agent_fence")
                     (lit "CodingAgentRun exact dispatch fence is missing"))
      | Some _, None => Some (StaleCodingAgent (lit "stale_runner")
                          (lit "CodingAgentRun target Runner disappeared before dispatch"))
      | Some fence, Some r =>
          if r_runner_instance_id r !=? caf_runner_instance_id fence
          then Some (StaleCodingAgent (lit "stale_runner")
                       (lit "CodingAgentRun target Runner changed before dispatch"))
          else if negb (existsb (fun q => (cap_provider_id q ==? caf_provider_id fence)
                                          && (cap_provider_instance_id q ==? caf_provider_instance_id fence))
                          (r_coding_agent_providers r))
          then Some (StaleCodingAgent (lit "stale_provider")
                       (lit "CodingAgentRun target ACP provider changed before dispatch"))
          else None
      end
  | _ => None
  end.

Definition project_placed (pid cwd : str) (projects : list RunnerProjectSummary) : bool :=
  existsb (fun q => negb (project_disabled q) && (project_id_ q ==? pid) && (project_path q ==? cwd)) projects.

Definition stale_project (runner : option RunnerRecord) (p : PendingShellRequest) : option StaleDispatch :=
  match expected_project_id (p_fences p), expected_project_cwd (p_fences p) with
  | Some pid, Some cwd =>
      let gone := Some (StaleProject (lit "stale_project: target project " ++ pid
                          ++ lit " is no longer registered at the resolved path")) in
      match runner with
      | None => gone
      | Some r =>
          if r_owner r !=? expected_runner_owner (p_fences p)
          then Some (StaleProject (lit "stale_authority: target Runner owner changed before dispatch"))
          else if negb (supports (r_runner_features r) FileWrite)
          then Some (StaleProject (lit "stale_authority: target Runner no longer advertises file_write before dispatch"))
          else if project_placed pid cwd (r_projects r) then None else gone
      end
  | None, None => None
  | _, _ => Some (StaleProject (lit "stale_project: pending project placement fence is incomplete"))
  end.

(** The checks, in the order the poll makes them. *)
Definition stale_dispatch (inner : RunnerRegistryInner) (cid rid : str) (p : PendingShellRequest)
  : option StaleDispatch :=
  let runner := runners inner !! cid in
  or_else (stale_runner_config runner p)
  (or_else (stale_ssh_resource runner p)
  (or_else (stale_bridge runner p)
  (or_else (stale_plugin runner (plugin_gateway_fences inner !! rid) p)
  (or_else (stale_skill_store runner p)
  (or_else (stale_coding_agent runner (coding_agent_fences inner !! rid) p)
           (stale_project runner p)))))).

Section Poll.
(** The Unicode table behind [char::is_alphanumeric], which previews use. *)
Context (is_alphanumeric : char -> bool).

Definition request_preview (request : RunnerRequest) : str :=
  match req_script request, req_process request with
  | Some script, _ => script_preview (script_language_as_str (script_language script))
                        (str_len (script_text script)) (Z.of_nat (length (script_args script)))
  | None, Some process => Preview.process_preview is_alphanumeric (executable process) (args process)
  | None, None => Preview.command_preview (req_command request)
  end.

(** ** Requests that may not be handed out *)

Definition not_started_response (cid rid : str) (cwd : option str) (preview error : str) : ShellRunResponse :=
  mkRunResponse false rid cid cwd preview None None None None (Some error) (Some false) (Some NotStarted).

Definition shell_not_started (p : PendingShellRequest) (cid rid : str) (cwd : option str)
  (preview error : str) : list Reply :=
  if p_has_waiter p then [ShellReply (not_started_response cid rid cwd preview error)] else [].

Definition reply_if (registered : gset str) (rid : str) (reply : Reply) : list Reply :=
  if decide (rid ∈ registered) then [reply] else [].

Definition take_pending (inner : RunnerRegistryInner) (rid : str) : RunnerRegistryInner :=
  inner <| pending_by_id := delete rid (pending_by_id inner) |>.

Definition reject_stale (inner : RunnerRegistryInner) (cid rid : str) (p : PendingShellRequest)
  (stale : StaleDispatch) : RunnerRegistryInner * list Reply :=
  let taken := take_pending inner rid in
  let cwd := req_cwd (p_request p) in
  let preview := request_preview (p_request p) in
  let error code reply_message := GatewayError GatewayNotStarted code reply_message in
  match stale with
  | StaleRunnerConfig code message | StaleSshResource code message =>
      (taken, shell_not_started p cid rid None [] (code ++ lit ": " ++ message))
  | StaleBridge code message =>
      (taken <| mcp_gateway_waiters := mcp_gateway_waiters inner ∖ {[ rid ]} |>
             <| persistent_waiters := persistent_waiters inner ∖ {[ rid ]} |>,
       shell_not_started p cid rid cwd preview message
       ++ reply_if (mcp_gateway_waiters inner) rid
            (McpReply rid (error code
               (if code ==? lit "stale_runner"
                then lit "Exact Runner changed before bridge dispatch; request was not started"
                else lit "Exact provider changed before bridge dispatch; request was not started"))))
  | StalePlugin code message =>
      (taken <| plugin_gateway_waiters := plugin_gateway_waiters inner ∖ {[ rid ]} |>
             <| plugin_gateway_fences := delete rid (plugin_gateway_fences inner) |>
             <| mcp_gateway_waiters := mcp_gateway_waiters inner ∖ {[ rid ]} |>
             <| coding_agent_waiters := coding_agent_waiters inner ∖ {[ rid ]} |>
             <| coding_agent_fences := delete rid (coding_agent_fences inner) |>
             <| persistent_waiters := persistent_waiters inner ∖ {[ rid ]} |>,
       shell_not_started p cid rid cwd preview message
       ++ reply_if (plugin_gateway_waiters inner) rid
            (PluginReply rid (error code
               (lit "Exact native Plugin dispatch target changed before dispatch; request was not started"))))
  | StaleSkillStore message =>
      (taken <| persistent_waiters := persistent_waiters inner ∖ {[ rid ]} |>,
       shell_not_started p cid rid None preview message)
  | StaleCodingAgent code message =>
      (taken <| coding_agent_waiters := coding_agent_waiters inner ∖ {[ rid ]} |>
             <| coding_agent_fences := delete rid (coding_agent_fences inner) |>
             <| mcp_gateway_waiters := mcp_gateway_waiters inner ∖ {[ rid ]} |>
             <| persistent_waiters := persistent_waiters inner ∖ {[ rid ]} |>,
       reply_if (coding_agent_waiters inner) rid
         (CodingAgentReply rid (coding_error DispatchNotStarted code message (Some (lit "stale_state"))
            (Some (lit "reobserve")))))
  | StaleProject message =>
      (taken <| persistent_waiters := persistent_waiters inner ∖ {[ rid ]} |>,
       shell_not_started p cid rid cwd preview message)
  end.

(** ** Handing out a request *)

Definition is_stop (op : RunnerOperation) : bool := match op with OpJob (Stop _) => true | _ => false end.

Definition dispatch_job (now : Z) (job : ShellJobRecord) : ShellJobRecord :=
  if lifecycle job ==? Queued
  then let job := job <| lifecycle := RunnerQueued |> in
       let job := if is_none (structured_execution job) then job <| started_at := Some now |> else job in
       notify_job_update job
  else job.

Definition dispatch (inner : RunnerRegistryInner) (rid : str) (p : PendingShellRequest) (now : Z)
  : RunnerRegistryInner :=
  let inner := inner <| pending_by_id := <[ rid := p <| p_dispatched := true |> ]> (pending_by_id inner) |> in
  if is_stop (p_operation p) then take_pending inner rid
  else match p_job_id p with
       | Some jid => update_job_record inner jid (dispatch_job now)
       | None => inner
       end.

(** The loop: one turn per id popped off the Runner's queue. *)
Fixpoint poll_loop (inner : RunnerRegistryInner) (cid : str) (now : Z) (queue : list str)
  : (RunnerRegistryInner * list Reply) * option RunnerRequest :=
  match queue with
  | [] => ((inner, []), None)
  | rid :: rest =>
      let inner := inner <| queues_by_runner := <[ cid := rest ]> (queues_by_runner inner) |> in
      match pending_by_id inner !! rid with
      | None => poll_loop inner cid now rest
      | Some p =>
          match stale_dispatch inner cid rid p with
          | Some stale =>
              let '(inner, replies) := reject_stale inner cid rid p stale in
              let '((inner, later), answer) := poll_loop inner cid now rest in
              ((inner, replies ++ later), answer)
          | None => ((dispatch inner rid p now, []), Some (p_request p))
          end
      end
  end.

Definition check_lease (inner : RunnerRegistryInner) (cid iid : str) (connection : option str)
  : result unit str :=
  let? runner := ok_or (runners inner !! cid) (lit "unknown shell client: " ++ cid) in
  bail? r_runner_instance_id runner !=? iid
    with lit "runner " ++ cid ++ lit " is no longer the active instance (stale or replaced)" ;;
  bail? is_some connection && (r_connection_id runner !=? connection)
    with lit "runner " ++ cid ++ lit " transport connection is no longer active" ;;
  Ok tt.

Definition poll_checked (inner : RunnerRegistryInner) (cid iid : str) (connection : option str) (now : Z)
  : (RunnerRegistryInner * list Reply) * result (option RunnerRequest) str :=
  let admitted :=
    check? validate_id cid (lit "client_id") ;;
    check? validate_runner_instance_id iid ;;
    check_lease inner cid iid connection in
  match admitted with
  | Err err => ((inner, []), Err err)
  | Ok _ =>
      let inner := update_runner_record inner cid (fun r => r <| r_last_seen := now |>) in
      match queues_by_runner inner !! cid with
      | None => ((inner, []), Ok None)
      | Some queue => let '(state, answer) := poll_loop inner cid now queue in (state, Ok answer)
      end
  end.

(** ** Results *)

Record RunnerResultPayload : Type := mkResult {
  res_client_id : str;
  res_runner_instance_id : str;
  res_request_id : str;
  res_exit_code : option Z;
  res_stdout : option str;
  res_stderr : option str;
  res_duration_ms : option Z;
  res_error : option str;
  res_command_execution_state : option ShellCommandExecutionState;
  res_mcp_gateway : option str;
  res_plugin_gateway : option str;
  res_coding_agent : option CodingAgentResponse
}.

(** No field of the result is set beside the typed response. *)
Definition only_typed_response (body : RunnerResultPayload) : bool :=
  is_none (res_command_execution_state body) && is_none (res_exit_code body) && is_none (res_stdout body)
  && is_none (res_stderr body) && is_none (res_duration_ms body) && is_none (res_error body).

Definition is_coding_agent (op : RunnerOperation) : bool := match op with OpCodingAgent _ => true | _ => false end.
Definition is_mcp_gateway (op : RunnerOperation) : bool := match op with OpMcpGateway _ => true | _ => false end.
Definition is_plugin_gateway (op : RunnerOperation) : bool := match op with OpPluginGateway _ => true | _ => false end.

(** The refusals of a result, before anything but liveness has changed. *)
Definition check_result (inner : RunnerRegistryInner) (body : RunnerResultPayload)
  : result PendingShellRequest str :=
  let? pending := ok_or (pending_by_id inner !! res_request_id body)
                    (lit "unknown or expired shell request: " ++ res_request_id body) in
  bail? p_request_client_id pending !=? res_client_id body with lit "request_id does not belong to client_id" ;;
  bail? negb (is_coding_agent (p_operation pending)) && is_some (res_coding_agent body)
    with lit "unexpected CodingAgentRun result for non-coding request" ;;
  bail? negb (is_mcp_gateway (p_operation pending)) && is_some (res_mcp_gateway body)
    with lit "unexpected MCP gateway result for non-bridge request" ;;
  bail? negb (is_plugin_gateway (p_operation pending)) && is_some (res_plugin_gateway body)
    with lit "unexpected Plugin gateway result for non-Plugin request" ;;
  Ok pending.

Definition invalid_response (dispatched : bool) (after before : str) : GatewayReply :=
  GatewayError (if dispatched then GatewayOutcomeUnknown else GatewayNotStarted)
    (lit "invalid_runner_response") (if dispatched then after else before).

Definition typed_reply (response : option str) (acceptable : str -> bool) (fallback : GatewayReply)
  : GatewayReply :=
  match response with
  | Some text => if acceptable text then GatewayResponse text else fallback
  | None => fallback
  end.

Definition result_success (body : RunnerResultPayload) : bool :=
  match res_command_execution_state body with
  | None | Some CommandCompleted => is_none (res_error body) && (res_exit_code body ==? Some 0%Z)
  | _ => false
  end.

(** The verdict a result gives the Job it belongs to; [None] is a panic of the log
    retention. *)
Definition finish_job (body : RunnerResultPayload) (now : Z) (job : ShellJobRecord) : option ShellJobRecord :=
  let job := observe_job_terminal
               (job <| lifecycle := if result_success body then Completed else Failed |>) now in
  let job := job <| ended_at := Some now |> <| exit_code := res_exit_code body |>
                 <| duration_ms := res_duration_ms body |> in
  out ← replace_log_limited (stdout job) (res_stdout body);
  err ← replace_log_limited (stderr job) (res_stderr body);
  Some (notify_job_update (job <| stdout := out |> <| stderr := err |> <| error := res_error body |>)).

(** What the Job of a finished request becomes. *)
Definition settle_job (inner : RunnerRegistryInner) (rid : str) (jid : option str) (body : RunnerResultPayload)
  (now : Z) : option RunnerRegistryInner :=
  match jid with
  | None => Some inner
  | Some jid =>
      let inner := inner <| request_to_job := delete rid (request_to_job inner) |> in
      match jobs_by_id inner !! jid with
      | None => Some inner
      | Some job => job ← finish_job body now job;
                    Some (inner <| jobs_by_id := <[ jid := job ]> (jobs_by_id inner) |>)
      end
  end.

Definition complete_ordinary (inner : RunnerRegistryInner) (pending : PendingShellRequest)
  (body : RunnerResultPayload) (now : Z) : option (RunnerRegistryInner * list Reply) :=
  let rid := res_request_id body in
  stdout ← (if is_large_native_image_request (p_operation pending)
            then retain_result_stream_to (res_stdout body) Artifact.MAX_MCP_IMAGE_RESPONSE_BYTES
            else retain_ordinary_result_stream (res_stdout body));
  stderr ← retain_ordinary_result_stream (res_stderr body);
  inner ← settle_job inner rid (p_job_id pending) body now;
  let response :=
    mkRunResponse (result_success body) rid (res_client_id body) (req_cwd (p_request pending))
      (request_preview (p_request pending)) (res_exit_code body) stdout stderr (res_duration_ms body)
      (res_error body) (Some (p_dispatched pending)) (res_command_execution_state body) in
  Some (inner, if p_has_waiter pending then [ShellReply response] else []).

Definition coding_agent_reply (body : RunnerResultPayload) (request : CodingAgentRequest) (dispatched : bool)
  : CodingAgentResponse :=
  let fallback :=
    coding_error (if dispatched then DispatchOutcomeUnknown else DispatchNotStarted)
      (lit "invalid_runner_response")
      (if dispatched
       then lit "Runner returned an invalid CodingAgentRun response after dispatch; reconcile the same run_id before any new initiation"
       else lit "Runner returned an invalid CodingAgentRun response before dispatch")
      (Some (lit "protocol")) (Some (lit "reobserve")) in
  match res_coding_agent body with
  | Some response =>
      if only_typed_response body && is_none (res_mcp_gateway body)
         && is_ok (validate_response_for_request request response)
      then response else fallback
  | None => fallback
  end.

(** The validators of the MCP and Plugin gateways' responses (mcp_gateway.rs,
    plugin.rs), as predicates on the response text. *)
Context (mcp_valid : str -> bool) (plugin_valid : PluginGatewayRequest -> str -> bool).

Definition complete_taken (inner : RunnerRegistryInner) (pending : PendingShellRequest)
  (body : RunnerResultPayload) (now : Z) : option (RunnerRegistryInner * list Reply) :=
  let rid := res_request_id body in
  let inner := take_pending inner rid in
  let d := p_dispatched pending in
  match p_operation pending with
  | OpMcpGateway _ =>
      let reply := typed_reply (res_mcp_gateway body)
        (fun r => only_typed_response body && mcp_valid r)
        (invalid_response d
           (lit "Runner returned an invalid bridge response after dispatch; downstream outcome is unknown and must not be retried automatically")
           (lit "Runner returned an invalid bridge response before provider dispatch")) in
      Some (inner <| mcp_gateway_waiters := mcp_gateway_waiters inner ∖ {[ rid ]} |>,
            reply_if (mcp_gateway_waiters inner) rid (McpReply rid reply))
  | OpPluginGateway request =>
      let reply := typed_reply (res_plugin_gateway body)
        (fun r => only_typed_response body && is_none (res_mcp_gateway body) && is_none (res_coding_agent body)
                  && plugin_valid request r)
        (invalid_response d
           (lit "Runner returned an invalid Plugin response after dispatch; downstream outcome is unknown and must not be retried automatically")
           (lit "Runner returned an invalid Plugin response before provider dispatch")) in
      Some (inner <| plugin_gateway_waiters := plugin_gateway_waiters inner ∖ {[ rid ]} |>
                  <| plugin_gateway_fences := delete rid (plugin_gateway_fences inner) |>,
            reply_if (plugin_gateway_waiters inner) rid (PluginReply rid reply))
  | OpCodingAgent request =>
      Some (inner <| coding_agent_waiters := coding_agent_waiters inner ∖ {[ rid ]} |>
                  <| coding_agent_fences := delete rid (coding_agent_fences inner) |>,
            reply_if (coding_agent_waiters inner) rid
              (CodingAgentReply rid (coding_agent_reply body request d)))
  | _ => complete_ordinary inner pending body now
  end.

Definition complete_checked (inner : RunnerRegistryInner) (body : RunnerResultPayload)
  (connection : option str) (now : Z) : option ((RunnerRegistryInner * list Reply) * result unit str) :=
  let admitted :=
    check? validate_id (res_client_id body) (lit "client_id") ;;
    check? validate_id (res_request_id body) (lit "request_id") ;;
    check? validate_runner_instance_id (res_runner_instance_id body) ;;
    assert_active_instance_locked inner (res_client_id body) (res_runner_instance_id body) in
  match admitted with
  | Err err => Some ((inner, []), Err err)
  | Ok _ =>
      let inner := refresh_liveness inner (res_client_id body) connection now in
      match check_result inner body with
      | Err err => Some ((inner, []), Err err)
      | Ok pending => state ← complete_taken inner pending body now; Some (state, Ok tt)
      end
  end.

End Poll.

(** ** Persistent shells *)

Definition PERSISTENT_SHELL_STREAM_RETENTION_BYTES : Z := 256 * 1024.

Record PersistentShellResult : Type := mkPersistentResult {
  psr_shell_id : str;
  psr_workflow_session_id : str;
  psr_runtime_project_id : str;
  psr_shell_state : str;
  psr_execution_state : str;
  psr_stdout : str;
  psr_stderr : str;
  psr_stdout_truncated : bool;
  psr_stderr_truncated : bool;
  psr_cwd : option str;
  psr_initial_cwd : option str;
  psr_shell : option str;
  psr_profile : option str;
  psr_close_reason : option str;
  psr_error_code : option str;
  psr_error : option str
}.

#[export] Instance eta_persistent_result : Eta PersistentShellResult := fun r =>
  mkPersistentResult (psr_shell_id r) (psr_workflow_session_id r) (psr_runtime_project_id r)
    (psr_shell_state r) (psr_execution_state r) (psr_stdout r) (psr_stderr r) (psr_stdout_truncated r)
    (psr_stderr_truncated r) (psr_cwd r) (psr_initial_cwd r) (psr_shell r) (psr_profile r)
    (psr_close_reason r) (psr_error_code r) (psr_error r).

Record RunnerPersistentShellResultRequest : Type := mkPersistentResultRequest {
  psq_client_id : str;
  psq_runner_instance_id : str;
  psq_request_id : str;
  psq_result : PersistentShellResult
}.

(** The stream and whether it was cut; the outer [None] is a panic. *)
Definition truncate_persistent_shell_stream (value : str) : option (str * bool) :=
  if Z.leb (str_len value) PERSISTENT_SHELL_STREAM_RETENTION_BYTES then Some (value, false)
  else kept ← byte_drop value (next_boundary value (str_len value - PERSISTENT_SHELL_STREAM_RETENTION_BYTES));
       Some (kept, true).

Definition MAX_METADATA_BYTES : Z := 8 * 1024.

Fixpoint check_metadata (fields : list (str * option str)) : result unit str :=
  match fields with
  | [] => Ok tt
  | (name, value) :: rest =>
      bail? is_some_and (fun v => Z.ltb MAX_METADATA_BYTES (str_len v)) value
        with name ++ lit " exceeds persistent shell result metadata limit" ;;
      check_metadata rest
  end.

Definition check_persistent_shell_result (r : PersistentShellResult) : result unit str :=
  check? validate_id (psr_shell_id r) (lit "shell_id") ;;
  check? validate_id (psr_workflow_session_id r) (lit "workflow_session_id") ;;
  bail? is_empty (psr_runtime_project_id r) || Z.ltb 1024 (str_len (psr_runtime_project_id r))
        || existsb is_control (psr_runtime_project_id r)
    with lit "invalid runtime_project_id in persistent shell result" ;;
  bail? negb (existsb (fun x => psr_shell_state r ==? x)
          [lit "opening"; lit "running"; lit "exited"; lit "closed"; lit "poisoned"; lit "lost"; lit "unknown"])
    with lit "invalid shell_state in persistent shell result" ;;
  check_metadata
    [(lit "execution_state", Some (psr_execution_state r)); (lit "cwd", psr_cwd r);
     (lit "initial_cwd", psr_initial_cwd r); (lit "shell", psr_shell r); (lit "profile", psr_profile r);
     (lit "close_reason", psr_close_reason r); (lit "error_code", psr_error_code r); (lit "error", psr_error r)].

Definition normalize_persistent_shell_result (r : PersistentShellResult)
  : option (result PersistentShellResult str) :=
  match check_persistent_shell_result r with
  | Err err => Some (Err err)
  | Ok _ =>
      '(out, out_cut) ← truncate_persistent_shell_stream (psr_stdout r);
      let r := r <| psr_stdout := out |> <| psr_stdout_truncated := out_cut || psr_stdout_truncated r |> in
      '(err, err_cut) ← truncate_persistent_shell_stream (psr_stderr r);
      Some (Ok (r <| psr_stderr := err |> <| psr_stderr_truncated := err_cut || psr_stderr_truncated r |>))
  end.

(** The pending persistent-shell request a result names. *)
Definition check_persistent_request (inner : RunnerRegistryInner) (cid rid : str)
  : result PersistentShellRequest str :=
  let? pending := ok_or (pending_by_id inner !! rid)
                    (lit "unknown or expired persistent shell request: " ++ rid) in
  bail? p_request_client_id pending !=? cid with lit "request_id does not belong to client_id" ;;
  match p_operation pending with
  | OpPersistentShell request => Ok request
  | _ => Err (lit "request_id does not belong to a persistent shell request")
  end.

Definition same_shell (expected : PersistentShellRequest) (r : PersistentShellResult) : bool :=
  (psh_shell_id expected ==? psr_shell_id r)
  && (psh_workflow_session_id expected ==? psr_workflow_session_id r)
  && (psh_runtime_project_id expected ==? psr_runtime_project_id r).

(** Beside the state, the result the waiter receives, if one is registered. *)
Definition complete_persistent_shell_checked (inner : RunnerRegistryInner)
  (body : RunnerPersistentShellResultRequest) (connection : option str) (now : Z)
  : option ((RunnerRegistryInner * option PersistentShellResult) * result unit str) :=
  let cid := psq_client_id body in
  let rid := psq_request_id body in
  let ids :=
    check? validate_id cid (lit "client_id") ;;
    check? validate_id rid (lit "request_id") ;;
    validate_runner_instance_id (psq_runner_instance_id body) in
  match ids with
  | Err err => Some ((inner, None), Err err)
  | Ok _ =>
      normalized ← normalize_persistent_shell_result (psq_result body);
      let admitted :=
        let? r := normalized in
        check? assert_active_instance_locked inner cid (psq_runner_instance_id body) ;;
        Ok r in
      match admitted with
      | Err err => Some ((inner, None), Err err)
      | Ok r =>
          let inner := refresh_liveness inner cid connection now in
          match check_persistent_request inner cid rid with
          | Err err => Some ((inner, None), Err err)
          | Ok expected =>
              let waiting := persistent_waiters inner in
              if negb (same_shell expected r)
              then let inner := remove_pending_request_locked inner rid in
                   Some ((inner <| persistent_waiters := waiting ∖ {[ rid ]} |>, None),
                         Err (lit "persistent shell result identity mismatch"))
              else let inner := take_pending inner rid in
                   Some ((inner <| persistent_waiters := waiting ∖ {[ rid ]} |>,
                          if decide (rid ∈ waiting) then Some r else None), Ok tt)
          end
      end
  end.
