(* ===== verification/PollFacts.v ===== *)
(** * PollFacts: what a poll hands out and what a result settles *)
From S2P Require Import Prelude RustStr Lifecycle Policy JobLog Capabilities CodingAgent RegistryState JobState InventoryCheck JobWire Samples JobUpdate UpdateFacts Polling.

(** ** Polling *)

(** The request may be handed out now. *)
Definition live (i : RunnerRegistryInner) (cid rid : str) : bool :=
  match pending_by_id i !! rid with
  | Some p => is_none (stale_dispatch i cid rid p)
  | None => false
  end.

(** A reply that says the work was never started. *)
Definition says_not_started (r : Reply) : Prop :=
  match r with
  | ShellReply response =>
      rsp_success response = false /\ rsp_request_dispatched response = Some false
      /\ rsp_command_execution_state response = Some NotStarted
  | McpReply _ (GatewayError GatewayNotStarted _ _)
  | PluginReply _ (GatewayError GatewayNotStarted _ _) => True
  | CodingAgentReply _ response => dispatch_state response = DispatchNotStarted
  | _ => False
  end.

(** The parts of the registry that decide whether [rid] may be handed out to [cid]. *)
Record same_for (cid rid : str) (i i' : RunnerRegistryInner) : Prop := {
  sf_pending : pending_by_id i' !! rid = pending_by_id i !! rid;
  sf_runner : runners i' !! cid = runners i !! cid;
  sf_plugin : plugin_gateway_fences i' !! rid = plugin_gateway_fences i !! rid;
  sf_coding : coding_agent_fences i' !! rid = coding_agent_fences i !! rid
}.

Lemma same_for_stale (cid rid : str) (i i' : RunnerRegistryInner) (p : PendingShellRequest) :
  same_for cid rid i i' -> stale_dispatch i' cid rid p = stale_dispatch i cid rid p.
Proof. intros [_ Hr Hp Hc]. unfold stale_dispatch. by rewrite Hr, Hp, Hc. Qed.

Lemma same_for_live (cid rid : str) (i i' : RunnerRegistryInner) :
  same_for cid rid i i' -> live i' cid rid = live i cid rid.
Proof.
  intros Hs. unfold live. rewrite (sf_pending _ _ _ _ Hs).
  destruct (pending_by_id i !! rid); [by rewrite (same_for_stale _ _ _ _ _ Hs) | done].
Qed.

#[export] Instance same_for_trans (cid rid : str) : Transitive (same_for cid rid).
Proof. intros a b c [] []. split; congruence. Qed.

Section PollFacts.
Context (is_alphanumeric : char -> bool).

Lemma shell_not_started_says (p : PendingShellRequest) (cid rid : str) (cwd : option str) (preview err : str) :
  Forall (fun r => says_not_started r /\ reply_request r = rid) (shell_not_started p cid rid cwd preview err).
Proof. unfold shell_not_started. destruct (p_has_waiter p); repeat constructor. Qed.

Lemma reply_if_says (registered : gset str) (rid : str) (r : Reply) :
  says_not_started r -> reply_request r = rid ->
  Forall (fun r => says_not_started r /\ reply_request r = rid) (reply_if registered rid r).
Proof. intros. unfold reply_if. destruct (decide _); repeat constructor; done. Qed.

(** A rejection concerns the one request: it is removed, all it says is that the
    work did not start, and nothing that decides about other requests changes. *)
Lemma reject_stale_spec (i : RunnerRegistryInner) (cid rid : str) (p : PendingShellRequest) (s : StaleDispatch) :
  let '(i', replies) := reject_stale is_alphanumeric i cid rid p s in
  pending_by_id i' = delete rid (pending_by_id i)
  /\ queues_by_runner i' = queues_by_runner i
  /\ jobs_by_id i' = jobs_by_id i
  /\ runners i' = runners i
  /\ (forall k, k <> rid -> same_for cid k i i')
  /\ Forall (fun r => says_not_started r /\ reply_request r = rid) replies.
Proof.
  destruct s; cbn; (split; [done | ]; split; [done | ]; split; [done | ]; split; [done | ]; split);
    try (intros k Hk; split; cbn; by rewrite ?lookup_delete_ne by done);
    try apply Forall_app_inv; try apply shell_not_started_says; apply reply_if_says; done.
Qed.

Definition after_dispatch (p : PendingShellRequest) : option PendingShellRequest :=
  if is_stop (p_operation p) then None else Some (p <| p_dispatched := true |>).

Lemma dispatch_spec (i : RunnerRegistryInner) (rid : str) (p : PendingShellRequest) (now : Z) :
  pending_by_id (dispatch i rid p now) !! rid = after_dispatch p
  /\ (forall k, k <> rid -> pending_by_id (dispatch i rid p now) !! k = pending_by_id i !! k)
  /\ queues_by_runner (dispatch i rid p now) = queues_by_runner i
  /\ runners (dispatch i rid p now) = runners i.
Proof.
  unfold dispatch, after_dispatch. destruct (is_stop (p_operation p)); cbn.
  - split; [by rewrite lookup_delete_eq | ]. split; [ | done].
    intros k Hk. by rewrite lookup_delete_ne, lookup_insert_ne by done.
  - destruct (p_job_id p); cbn; (split; [by rewrite lookup_insert_eq | split; [ | done]]);
      intros k Hk; by rewrite lookup_insert_ne.
Qed.

(** The only check that gives a coding-agent rejection is the coding agent's. *)
Definition not_coding_agent (s : option StaleDispatch) : Prop :=
  match s with Some (StaleCodingAgent _ _) => False | _ => True end.

Lemma or_else_coding (a b : option StaleDispatch) (c m : str) :
  not_coding_agent a -> or_else a b = Some (StaleCodingAgent c m) -> b = Some (StaleCodingAgent c m).
Proof. destruct a as [[]|]; done. Qed.

Lemma skill_source_not_coding (k e : str) (f : RunnerFeature) (r : option RunnerRecord)
  (fence : SkillStoreDispatchFence) : not_coding_agent (stale_skill_source k e f r fence).
Proof. unfold stale_skill_source. destruct r; [destruct (_ !=? _); [done | by destruct (negb _)] | done]. Qed.

Lemma stale_coding_agent_kind (i : RunnerRegistryInner) (cid rid : str) (p : PendingShellRequest) (c m : str) :
  stale_dispatch i cid rid p = Some (StaleCodingAgent c m) -> is_coding_agent (p_operation p) = true.
Proof.
  unfold stale_dispatch. intros H.
  repeat (apply or_else_coding in H; [ |
    unfold stale_runner_config, stale_ssh_resource, stale_bridge, stale_plugin, stale_skill_store;
    repeat case_match; try done; apply skill_source_not_coding]).
  destruct (stale_coding_agent _ _ p) eqn:E.
  - unfold stale_coding_agent in E. by destruct (p_operation p).
  - cbn in H. unfold stale_project in H. exfalso. repeat case_match; done.
Qed.

Definition dispatched_jobs (p : PendingShellRequest) (now : Z) (jobs : gmap str ShellJobRecord)
  : gmap str ShellJobRecord :=
  if is_stop (p_operation p) then jobs
  else match p_job_id p with
       | Some jid => alter (dispatch_job now) jid jobs
       | None => jobs
       end.

(** A waiter of a request that was refused is told so. *)
Definition told (i : RunnerRegistryInner) (replies : list Reply) (k : str) : Prop :=
  forall p, pending_by_id i !! k = Some p -> p_has_waiter p = true -> is_coding_agent (p_operation p) = false ->
  exists r, ShellReply r ∈ replies /\ rsp_request_id r = k.

(** What the loop does on a queue: it skips the ids that may not be handed out,
    settling the ones that are still pending, and stops at the first that may. *)
Definition poll_outcome (cid : str) (now : Z) (queue : list str) (i i' : RunnerRegistryInner)
  (replies : list Reply) (answer : option RunnerRequest) : Prop :=
  exists skipped rest,
    Forall (fun k => live i cid k = false /\ pending_by_id i' !! k = None /\ told i replies k) skipped
    /\ Forall (fun r => says_not_started r /\ reply_request r ∈ skipped) replies
    /\ runners i' = runners i
    /\ queues_by_runner i' = (if is_empty queue then queues_by_runner i else <[ cid := rest ]> (queues_by_runner i))
    /\ match answer with
       | None => queue = skipped /\ rest = [] /\ jobs_by_id i' = jobs_by_id i
           /\ forall k, k ∉ skipped -> pending_by_id i' !! k = pending_by_id i !! k
       | Some request => exists rid p, queue = skipped ++ rid :: rest /\ live i cid rid = true
           /\ pending_by_id i !! rid = Some p /\ request = p_request p
           /\ pending_by_id i' !! rid = after_dispatch p
           /\ jobs_by_id i' = dispatched_jobs p now (jobs_by_id i)
           /\ forall k, k <> rid -> k ∉ skipped -> pending_by_id i' !! k = pending_by_id i !! k
       end.

Lemma reject_tells (i i' : RunnerRegistryInner) (cid rid : str) (p : PendingShellRequest) (s : StaleDispatch)
  (replies : list Reply) :
  pending_by_id i !! rid = Some p -> stale_dispatch i cid rid p = Some s ->
  reject_stale is_alphanumeric i cid rid p s = (i', replies) -> told i replies rid.
Proof.
  intros Hp Hs Hr q Hq Hw Hc. rewrite Hp in Hq. injection Hq as <-.
  destruct s; cbn in Hr; injection Hr as <- <-; unfold shell_not_started; rewrite ?Hw;
    try (eexists; split; [rewrite ?elem_of_app; left; apply list_elem_of_singleton; reflexivity | done]);
    try (eexists; split; [apply list_elem_of_singleton; reflexivity | done]).
  apply stale_coding_agent_kind in Hs. congruence.
Qed.

Lemma outcome_absent (cid : str) (now : Z) (queue : list str) (i i' : RunnerRegistryInner)
  (replies : list Reply) (answer : option RunnerRequest) (k : str) :
  poll_outcome cid now queue i i' replies answer ->
  pending_by_id i !! k = None -> pending_by_id i' !! k = None.
Proof.
  intros (skipped & rest & Hsk & _ & _ & _ & Hans) Hk. destruct (decide (k ∈ skipped)) as [Hin|Hin].
  - rewrite Forall_forall in Hsk. by apply Hsk in Hin as (_ & ? & _).
  - destruct answer as [req|].
    + destruct Hans as (rid & p & _ & _ & Hp & _ & _ & _ & Hrest). rewrite Hrest; [done | congruence | done].
    + destruct Hans as (_ & _ & _ & Hrest). by rewrite Hrest.
Qed.

Lemma told_weaken (i i1 : RunnerRegistryInner) (replies later : list Reply) (k : str) :
  pending_by_id i1 !! k = pending_by_id i !! k -> told i1 later k -> told i (replies ++ later) k.
Proof.
  intros He Ht p Hp Hw Hc. rewrite <- He in Hp. destruct (Ht p Hp Hw Hc) as (r & Hr & Hk).
  exists r. split; [ | done]. apply elem_of_app. by right.
Qed.

(** A turn that skips [rid] before the rest of the loop. *)
Lemma outcome_cons (cid : str) (now : Z) (rid : str) (queue : list str) (i i1 i' : RunnerRegistryInner)
  (replies later : list Reply) (answer : option RunnerRequest) :
  live i cid rid = false -> told i replies rid ->
  pending_by_id i1 = delete rid (pending_by_id i) ->
  queues_by_runner i1 = <[ cid := queue ]> (queues_by_runner i) ->
  jobs_by_id i1 = jobs_by_id i -> runners i1 = runners i ->
  (forall k, k <> rid -> same_for cid k i i1) ->
  Forall (fun r => says_not_started r /\ reply_request r = rid) replies ->
  poll_outcome cid now queue i1 i' later answer ->
  poll_outcome cid now (rid :: queue) i i' (replies ++ later) answer.
Proof.
  intros Hl Ht Hp Hq Hj Hr Hsf Hrep Hout.
  assert (Hgone : pending_by_id i' !! rid = None)
    by (eapply outcome_absent; [exact Hout | by rewrite Hp, lookup_delete_eq]).
  assert (Hkeep : forall k, k <> rid -> pending_by_id i1 !! k = pending_by_id i !! k)
    by (intros k Hk; by rewrite Hp, lookup_delete_ne).
  destruct Hout as (skipped & rest & Hsk & Hlat & Hrun & Hqu & Hans).
  assert (Htold : told i (replies ++ later) rid).
  { intros p H1 H2 H3. destruct (Ht p H1 H2 H3) as (r & ? & ?). exists r. rewrite elem_of_app. auto. }
  exists (rid :: skipped), rest. split_and!.
  - constructor; [done | ]. eapply Forall_impl; [exact Hsk | ]. intros k (Hk1 & Hk2 & Hk3).
    destruct (decide (k = rid)) as [->|Hne]; [done | ]. rewrite (same_for_live _ _ _ _ (Hsf k Hne)) in Hk1.
    split_and!; [done | done | ]. eapply told_weaken; [by apply Hkeep | done].
  - apply Forall_app. split; eapply Forall_impl; try done; intros r [? He]; split; try done; set_solver.
  - congruence.
  - rewrite Hqu, Hq. cbn [is_empty]. destruct queue as [|x q]; cbn [is_empty]; [ | by rewrite insert_insert_eq].
    destruct answer; [ | by destruct Hans as (_ & -> & _)]. destruct Hans as (? & ? & Happ & _). by destruct skipped.
  - destruct answer as [req|].
    + destruct Hans as (k & p & -> & Hlive & Hpk & Hreq & Hdis & Hjobs & Hrest).
      assert (Hne : k <> rid) by (intros ->; by rewrite Hp, lookup_delete_eq in Hpk).
      exists k, p. rewrite <- Hkeep, <- Hj by done. split_and!; try done.
      * by rewrite <- (same_for_live _ _ _ _ (Hsf k Hne)).
      * intros k' H1 [H2 H3]%not_elem_of_cons. by rewrite Hrest, Hkeep.
    + destruct Hans as (-> & -> & Hjobs & Hrest). split_and!; [done | done | congruence | ].
      intros k' [H2 H3]%not_elem_of_cons. by rewrite Hrest, Hkeep.
Qed.

Lemma poll_loop_outcome (cid : str) (now : Z) (queue : list str) (i i' : RunnerRegistryInner)
  (replies : list Reply) (answer : option RunnerRequest) :
  poll_loop is_alphanumeric i cid now queue = ((i', replies), answer) ->
  poll_outcome cid now queue i i' replies answer.
Proof.
  revert i i' replies. induction queue as [|rid rest IH]; intros i i' replies Hl; cbn in Hl.
  { injection Hl as <- <- <-. exists [], []. by split_and!. }
  set (i0 := i <| queues_by_runner := <[cid:=rest]> (queues_by_runner i) |>) in *.
  destruct (pending_by_id i !! rid) as [p|] eqn:Ep.
  - assert (Hst : stale_dispatch i0 cid rid p = stale_dispatch i cid rid p) by done.
    destruct (stale_dispatch i0 cid rid p) as [s|] eqn:Es.
    + destruct (reject_stale is_alphanumeric i0 cid rid p s) as [i1 r1] eqn:Er.
      destruct (poll_loop is_alphanumeric i1 cid now rest) as [[i2 later] ans] eqn:El.
      injection Hl as <- <- <-. pose proof (reject_stale_spec i0 cid rid p s) as Hspec. rewrite Er in Hspec.
      destruct Hspec as (H1 & H2 & H3 & H4 & H5 & H6).
      eapply (outcome_cons cid now rid rest i i1); try done.
      * unfold live. by rewrite Ep, <- Hst.
      * by eapply (reject_tells i0 i1).
      * intros k Hk. destruct (H5 k Hk). by split.
      * by apply IH.
    + injection Hl as <- <- <-. destruct (dispatch_spec i0 rid p now) as (D1 & D2 & D3 & D4).
      exists [], rest. split_and!; try done. exists rid, p. split_and!; try done.
      * unfold live. by rewrite Ep, <- Hst.
      * unfold dispatch, dispatched_jobs. destruct (is_stop _); [done | by destruct (p_job_id p)].
      * intros k Hk _. by apply D2.
  - eapply (outcome_cons cid now rid rest i i0 i' []); try done.
    + unfold live. by rewrite Ep.
    + intros p Hp. congruence.
    + cbn. symmetry. by apply delete_id.
    + by apply IH.
Qed.

End PollFacts.

Lemma poll_outcome_holds (is_alphanumeric : char -> bool) (i : RunnerRegistryInner) (cid iid : str)
  (connection : option str) (now : Z) :
  let seen := update_runner_record i cid (fun r => r <| r_last_seen := now |>) in
  match poll_checked is_alphanumeric i cid iid connection now with
  | ((i', replies), Err _) => i' = i /\ replies = []
  | ((i', replies), Ok answer) =>
      check_lease i cid iid connection = Ok tt
      /\ poll_outcome cid now (unwrap_or [] (queues_by_runner i !! cid)) seen i' replies answer
  end.
Proof.
  cbn zeta. unfold poll_checked. destruct (validate_id cid _); cbn [result_bind]; [ | done].
  destruct (validate_runner_instance_id iid); cbn [result_bind]; [ | done].
  destruct (check_lease i cid iid connection) as [[]|]; [ | done].
  set (seen := update_runner_record _ _ _). change (queues_by_runner i) with (queues_by_runner seen).
  destruct (queues_by_runner seen !! cid) as [queue|] eqn:Eq; cbn [unwrap_or].
  - destruct (poll_loop is_alphanumeric seen cid now queue) as [[i' replies] answer] eqn:El.
    split; [done | by eapply poll_loop_outcome].
  - split; [done | ]. exists [], []. by split_and!.
Qed.

(** A poll that does not hold the Runner's lease (unknown Runner, replaced
    process, superseded connection) changes nothing.  Otherwise it hands out the
    first queued request whose fences still hold, marked as dispatched (a stop
    request is forgotten instead), and leaves the queue behind it as it was; every
    request it passed over is gone from the registry and what its waiters were
    told is exactly that it never started. *)
Lemma poll_hands_out_first_live (is_alphanumeric : char -> bool) (i : RunnerRegistryInner) (cid iid : str)
  (connection : option str) (now : Z) :
  let seen := update_runner_record i cid (fun r => r <| r_last_seen := now |>) in
  match poll_checked is_alphanumeric i cid iid connection now with
  | ((i', replies), Err _) => i' = i /\ replies = []
  | ((i', replies), Ok answer) =>
      check_lease i cid iid connection = Ok tt
      /\ poll_outcome cid now (unwrap_or [] (queues_by_runner i !! cid)) seen i' replies answer
  end.
Proof. apply poll_outcome_holds. Qed.

(** ** Results *)

Section ResultFacts.
Context (is_alphanumeric : char -> bool) (mcp_valid : str -> bool)
  (plugin_valid : PluginGatewayRequest -> str -> bool).

Lemma replace_log_total (l : ShellJobLogState) (value : option str) :
  exists l', replace_log_limited l value = Some l'.
Proof.
  unfold replace_log_limited, retain_live_job_stream. destruct value as [s|]; [ | eauto].
  destruct (retain_total (Some s) LIVE_JOB_STREAM_RETENTION_BYTES) as [r ->]; [done | eauto].
Qed.

(** The verdict of a result. *)
Definition verdict (body : RunnerResultPayload) (now : Z) (j j' : ShellJobRecord) : Prop :=
  lifecycle j' = (if result_success body then Completed else Failed)
  /\ exit_code j' = res_exit_code body /\ error j' = res_error body /\ ended_at j' = Some now
  /\ is_some (terminal_observed_at (observation j')) = true
  /\ recovery j' = recovery j
  /\ job_id j' = job_id j /\ client_id j' = client_id j /\ request_id j' = request_id j
  /\ auth_group j' = auth_group j /\ owner_at_admission j' = owner_at_admission j
  /\ visibility j' = visibility j /\ start_of j' = start_of j
  /\ forall t, terminal_observed_at (observation j) = Some t -> terminal_observed_at (observation j') = Some t.

Lemma finish_job_verdict (body : RunnerResultPayload) (now : Z) (j : ShellJobRecord) :
  exists j', finish_job body now j = Some j' /\ verdict body now j j'.
Proof.
  unfold finish_job. set (l := if result_success body then Completed else Failed).
  set (j1 := observe_job_terminal (j <| lifecycle := l |>) now).
  destruct (replace_log_total (stdout (j1 <| ended_at := Some now |> <| exit_code := res_exit_code body |>
              <| duration_ms := res_duration_ms body |>)) (res_stdout body)) as [out ->]. cbn [mbind option_bind].
  destruct (replace_log_total (stderr (j1 <| ended_at := Some now |> <| exit_code := res_exit_code body |>
              <| duration_ms := res_duration_ms body |>)) (res_stderr body)) as [err ->]. cbn [mbind option_bind].
  eexists. split; [reflexivity | ]. unfold verdict. subst j1. unfold observe_job_terminal. cbn.
  assert (Hl : is_terminal l = true) by (subst l; by destruct (result_success body)). rewrite Hl. cbn.
  destruct (terminal_observed_at (observation j)) eqn:Eo; cbn; rewrite Hl; cbn;
    destruct (has_receipt_candidates (observation j)); cbn; rewrite ?Eo; by split_and!.
Qed.

Lemma settle_job_spec (i : RunnerRegistryInner) (rid : str) (jid : option str) (body : RunnerResultPayload)
  (now : Z) :
  exists i', settle_job i rid jid body now = Some i'
    /\ pending_by_id i' = pending_by_id i /\ queues_by_runner i' = queues_by_runner i
    /\ match jid ≫= (jobs_by_id i !!.) with
       | Some j => exists j' k, jid = Some k /\ jobs_by_id i' = <[ k := j' ]> (jobs_by_id i) /\ verdict body now j j'
       | None => jobs_by_id i' = jobs_by_id i
       end.
Proof.
  unfold settle_job. destruct jid as [k|]; cbn; [ | by exists i].
  destruct (jobs_by_id i !! k) as [j|]; [ | by eexists].
  destruct (finish_job_verdict body now j) as (j' & -> & Hv). cbn. eexists. split; [reflexivity | ].
  split_and!; [done | done | ]. by exists j', k.
Qed.

(** The Job a result gives a verdict to: the one behind an ordinary request. *)
Definition result_job (i : RunnerRegistryInner) (p : PendingShellRequest) : option ShellJobRecord :=
  if is_mcp_gateway (p_operation p) || is_plugin_gateway (p_operation p) || is_coding_agent (p_operation p)
  then None else p_job_id p ≫= (jobs_by_id i !!.).

Lemma complete_ordinary_spec (i : RunnerRegistryInner) (p : PendingShellRequest) (body : RunnerResultPayload)
  (now : Z) :
  exists i' replies, complete_ordinary is_alphanumeric i p body now = Some (i', replies)
    /\ pending_by_id i' = pending_by_id i /\ queues_by_runner i' = queues_by_runner i
    /\ length replies <= 1 /\ Forall (fun r => reply_request r = res_request_id body) replies
    /\ match p_job_id p ≫= (jobs_by_id i !!.) with
       | Some j => exists j' k, p_job_id p = Some k /\ jobs_by_id i' = <[ k := j' ]> (jobs_by_id i)
           /\ verdict body now j j'
       | None => jobs_by_id i' = jobs_by_id i
       end.
Proof.
  unfold complete_ordinary.
  assert (Hout : exists o, (if is_large_native_image_request (p_operation p)
    then retain_result_stream_to (res_stdout body) Artifact.MAX_MCP_IMAGE_RESPONSE_BYTES
    else retain_ordinary_result_stream (res_stdout body)) = Some o)
    by (destruct (is_large_native_image_request _); by apply retain_total).
  destruct Hout as [o ->]. cbn [mbind option_bind].
  destruct (retain_total (res_stderr body) ORDINARY_RESULT_STREAM_RETENTION_BYTES) as [e He]; [done | ].
  unfold retain_ordinary_result_stream. rewrite He. cbn [mbind option_bind].
  destruct (settle_job_spec i (res_request_id body) (p_job_id p) body now) as (i' & -> & Hp & Hq & Hj).
  cbn [mbind option_bind]. eexists _, _. split; [reflexivity | ]. split_and!; try done.
  - destruct (p_has_waiter p); cbn; lia.
  - destruct (p_has_waiter p); repeat constructor.
Qed.

Lemma complete_taken_spec (i : RunnerRegistryInner) (p : PendingShellRequest) (body : RunnerResultPayload)
  (now : Z) :
  exists i' replies, complete_taken is_alphanumeric mcp_valid plugin_valid i p body now = Some (i', replies)
    /\ pending_by_id i' = delete (res_request_id body) (pending_by_id i)
    /\ queues_by_runner i' = queues_by_runner i
    /\ length replies <= 1 /\ Forall (fun r => reply_request r = res_request_id body) replies
    /\ match result_job i p with
       | Some j => exists j' k, p_job_id p = Some k /\ jobs_by_id i' = <[ k := j' ]> (jobs_by_id i)
           /\ verdict body now j j'
       | None => jobs_by_id i' = jobs_by_id i
       end.
Proof.
  unfold complete_taken, result_job.
  pose proof (complete_ordinary_spec (take_pending i (res_request_id body)) p body now) as Hord.
  destruct (p_operation p); cbn [is_mcp_gateway is_plugin_gateway is_coding_agent orb]; try exact Hord;
    (eexists _, _; split; [reflexivity | ]); unfold reply_if; destruct (decide _); split_and!; try done; cbn;
    try lia; by constructor.
Qed.

Lemma check_result_ok (i : RunnerRegistryInner) (body : RunnerResultPayload) (p : PendingShellRequest) :
  check_result i body = Ok p ->
  pending_by_id i !! res_request_id body = Some p /\ p_request_client_id p = res_client_id body.
Proof.
  unfold check_result, ok_or. intros H. destruct (pending_by_id i !! _) as [q|]; [ | done].
  cbn [result_bind] in H. step_guards H. injection H as ->. split_andb. done.
Qed.

Lemma refresh_liveness_frame (i : RunnerRegistryInner) (cid : str) (connection : option str) (now : Z) :
  pending_by_id (refresh_liveness i cid connection now) = pending_by_id i
  /\ jobs_by_id (refresh_liveness i cid connection now) = jobs_by_id i
  /\ queues_by_runner (refresh_liveness i cid connection now) = queues_by_runner i.
Proof. unfold refresh_liveness. by destruct (_ || _). Qed.

(** A result for a request that is not pending is refused. *)
Lemma unknown_result_refused (i : RunnerRegistryInner) (body : RunnerResultPayload) (connection : option str)
  (now : Z) :
  pending_by_id i !! res_request_id body = None ->
  exists i' err, complete_checked is_alphanumeric mcp_valid plugin_valid i body connection now
    = Some ((i', []), Err err).
Proof.
  intros Hn. unfold complete_checked. destruct (check? validate_id _ _ ;; _) as [[]|]; [ | eauto].
  destruct (check_result _ body) as [p|] eqn:E; [ | eauto]. apply check_result_ok in E as [E _].
  rewrite (proj1 (refresh_liveness_frame _ _ _ _)) in E. congruence.
Qed.

End ResultFacts.

(** What a poll does to the Jobs. *)
Lemma poll_jobs (is_alphanumeric : char -> bool) (i : RunnerRegistryInner) (cid iid : str)
  (connection : option str) (now : Z) :
  let i' := (poll_checked is_alphanumeric i cid iid connection now).1.1 in
  jobs_by_id i' = jobs_by_id i \/ exists p, jobs_by_id i' = dispatched_jobs p now (jobs_by_id i).
Proof.
  pose proof (poll_outcome_holds is_alphanumeric i cid iid connection now) as Hp. cbn zeta in *.
  destruct (poll_checked is_alphanumeric i cid iid connection now) as [[i' replies] [answer|err]]; cbn [fst];
    [ | by destruct Hp as [-> _]; left].
  destruct Hp as (_ & skipped & rest & _ & _ & _ & _ & Hans). destruct answer as [request|].
  - destruct Hans as (rid & p & _ & _ & _ & _ & _ & Hj & _). right. by exists p.
  - destruct Hans as (_ & _ & Hj & _). by left.
Qed.

Lemma result_job_lookup (i : RunnerRegistryInner) (p : PendingShellRequest) (j : ShellJobRecord) (k : str) :
  result_job i p = Some j -> p_job_id p = Some k -> jobs_by_id i !! k = Some j.
Proof. unfold result_job. destruct (_ || _); [done | ]. intros Hr Hk. by rewrite Hk in Hr. Qed.

Lemma complete_outcome (is_alphanumeric : char -> bool) (mcp_valid : str -> bool)
  (plugin_valid : PluginGatewayRequest -> str -> bool)
  (i : RunnerRegistryInner) (body : RunnerResultPayload) (connection : option str) (now : Z) :
  exists i' replies verdict_,
    complete_checked is_alphanumeric mcp_valid plugin_valid i body connection now
    = Some ((i', replies), verdict_)
    /\ match verdict_ with
       | Err _ => replies = [] /\ pending_by_id i' = pending_by_id i /\ jobs_by_id i' = jobs_by_id i
       | Ok _ => exists p, pending_by_id i !! res_request_id body = Some p
           /\ p_request_client_id p = res_client_id body
           /\ assert_active_instance_locked i (res_client_id body) (res_runner_instance_id body) = Ok tt
           /\ pending_by_id i' = delete (res_request_id body) (pending_by_id i)
           /\ length replies <= 1 /\ Forall (fun r => reply_request r = res_request_id body) replies
           /\ match result_job i p with
              | Some j => exists j' k, p_job_id p = Some k /\ jobs_by_id i' = <[ k := j' ]> (jobs_by_id i)
                  /\ verdict body now j j'
              | None => jobs_by_id i' = jobs_by_id i
              end
           /\ forall connection' now', exists i2 err,
                complete_checked is_alphanumeric mcp_valid plugin_valid i' body connection' now'
                = Some ((i2, []), Err err)
       end.
Proof.
  unfold complete_checked at 1. destruct (check? validate_id _ _ ;; _) as [[]|] eqn:Ea;
    [ | eexists _, _, _; by split].
  step_guards Ea. set (i0 := refresh_liveness _ _ _ _).
  destruct (refresh_liveness_frame i (res_client_id body) connection now) as (Fp & Fj & _). fold i0 in Fp, Fj.
  destruct (check_result i0 body) as [p|] eqn:Er; [ | eexists _, _, _; by split].
  apply check_result_ok in Er as [Hp Hc]. rewrite Fp in Hp.
  destruct (complete_taken_spec is_alphanumeric mcp_valid plugin_valid i0 p body now)
    as (i' & replies & -> & Hd & _ & Hl & Hr & Hj).
  cbn [mbind option_bind]. eexists _, _, _. split; [reflexivity | ]. exists p. cbn [fst snd] in *.
  rewrite <- Fp, <- Fj. split_and!; try done.
  - by rewrite Fp.
  - unfold result_job in *. by rewrite <- Fj.
  - intros connection' now'. apply unknown_result_refused. by rewrite Hd, lookup_delete_eq.
Qed.

Lemma complete_jobs is_alphanumeric mcp_valid plugin_valid i i' body connection now replies r :
  complete_checked is_alphanumeric mcp_valid plugin_valid i body connection now
  = Some ((i', replies), r) ->
  jobs_by_id i' = jobs_by_id i
  \/ exists p j j' k, pending_by_id i !! res_request_id body = Some p /\ result_job i p = Some j
       /\ p_job_id p = Some k /\ jobs_by_id i' = <[ k := j' ]> (jobs_by_id i) /\ verdict body now j j'.
Proof.
  intros Hc. destruct (complete_outcome is_alphanumeric mcp_valid plugin_valid i body connection now)
    as (i2 & rep2 & r2 & Heq & Hout). rewrite Hc in Heq. injection Heq as <- <- <-.
  destruct r as [[]|err]; [ | left; by destruct Hout as (_ & _ & ?)].
  destruct Hout as (p & Hp & _ & _ & _ & _ & _ & Hj & _). destruct (result_job i p) as [j|] eqn:Er; [ | by left].
  destruct Hj as (j' & k & ? & ? & ?). right. by exists p, j, j', k.
Qed.

(** What a result does to the requests. *)
Lemma complete_requests is_alphanumeric mcp_valid plugin_valid i i' body connection now replies r :
  complete_checked is_alphanumeric mcp_valid plugin_valid i body connection now
  = Some ((i', replies), r) ->
  queues_by_runner i' = queues_by_runner i /\ pending_by_id i' ⊆ pending_by_id i.
Proof.
  unfold complete_checked. destruct (check? validate_id _ _ ;; _); [ | by intros [= <- _ _]].
  destruct (refresh_liveness_frame i (res_client_id body) connection now) as (Fp & _ & Fq).
  set (i0 := refresh_liveness _ _ _ _) in *. rewrite <- Fp, <- Fq.
  destruct (check_result i0 body) as [p|]; [ | by intros [= <- _ _]].
  destruct (complete_taken_spec is_alphanumeric mcp_valid plugin_valid i0 p body now)
    as (i2 & rep & -> & Hd & Hq & _). cbn [mbind option_bind]. intros [= <- _ _].
  rewrite Hd, Hq. split; [done | apply delete_subseteq].
Qed.

(** Handling a result never panics and settles its request exactly once.  A
    refused result changes no request and no Job.  An accepted one comes from the
    active process of the Runner the request was meant for; the request is
    removed, at most one waiter is told, the Job behind an ordinary request gets
    the verdict (completed exactly when it exited with code zero without an
    error), no other Job changes, and repeating the result is refused. *)
Lemma result_settles_once (is_alphanumeric : char -> bool) (mcp_valid : str -> bool)
  (plugin_valid : PluginGatewayRequest -> str -> bool)
  (i : RunnerRegistryInner) (body : RunnerResultPayload) (connection : option str) (now : Z) :
  exists i' replies verdict_,
    complete_checked is_alphanumeric mcp_valid plugin_valid i body connection now
    = Some ((i', replies), verdict_)
    /\ match verdict_ with
       | Err _ => replies = [] /\ pending_by_id i' = pending_by_id i /\ jobs_by_id i' = jobs_by_id i
       | Ok _ => exists p, pending_by_id i !! res_request_id body = Some p
           /\ p_request_client_id p = res_client_id body
           /\ assert_active_instance_locked i (res_client_id body) (res_runner_instance_id body) = Ok tt
           /\ pending_by_id i' = delete (res_request_id body) (pending_by_id i)
           /\ length replies <= 1 /\ Forall (fun r => reply_request r = res_request_id body) replies
           /\ match result_job i p with
              | Some j => exists j' k, p_job_id p = Some k /\ jobs_by_id i' = <[ k := j' ]> (jobs_by_id i)
                  /\ verdict body now j j'
              | None => jobs_by_id i' = jobs_by_id i
              end
           /\ forall connection' now', exists i2 err,
                complete_checked is_alphanumeric mcp_valid plugin_valid i' body connection' now'
                = Some ((i2, []), Err err)
       end.
Proof. apply complete_outcome. Qed.

(** A Job update leaves a terminal Job as it is. *)
Lemma update_keeps_terminal (i i' : RunnerRegistryInner) (body : RunnerJobUpdateRequest)
  (expected : option str) (now : Z) (r : result ShellJobRecord str) (k : str) (j : ShellJobRecord) :
  update_job_checked i body expected now = Some (i', r) ->
  jobs_by_id i !! k = Some j -> is_terminal (lifecycle j) = true -> jobs_by_id i' !! k = Some j.
Proof.
  intros Hu Hl Hterm. destruct (update_job_cases i i' body expected now r Hu)
    as [->|(seq & l' & j0 & j' & drop & _ & Hj & _ & _ & _ & Ht & _ & Hk)]; [done | ].
  rewrite Hk. destruct (decide (k = up_job_id body)) as [->|_]; [congruence | done].
Qed.

(** A valid result of the active process of the Runner is accepted, whatever state
    the Job is in. *)
Lemma valid_result_accepted (is_alphanumeric : char -> bool) (mcp_valid : str -> bool)
  (plugin_valid : PluginGatewayRequest -> str -> bool) (i : RunnerRegistryInner) (body : RunnerResultPayload)
  (p : PendingShellRequest) (connection : option str) (now : Z) (j : ShellJobRecord) :
  validate_id (res_client_id body) (lit "client_id") = Ok tt ->
  validate_id (res_request_id body) (lit "request_id") = Ok tt ->
  validate_runner_instance_id (res_runner_instance_id body) = Ok tt ->
  assert_active_instance_locked i (res_client_id body) (res_runner_instance_id body) = Ok tt ->
  check_result i body = Ok p -> result_job i p = Some j ->
  exists i' replies j' k,
    complete_checked is_alphanumeric mcp_valid plugin_valid i body connection now = Some ((i', replies), Ok tt)
    /\ p_job_id p = Some k /\ jobs_by_id i' = <[ k := j' ]> (jobs_by_id i) /\ verdict body now j j'.
Proof.
  intros H1 H2 H3 H4 H5 Hj. unfold complete_checked. rewrite H1, H2, H3, H4. cbn [result_bind].
  destruct (refresh_liveness_frame i (res_client_id body) connection now) as (Fp & Fj & _).
  set (i0 := refresh_liveness _ _ _ _) in *.
  assert (Hc : check_result i0 body = Ok p) by (unfold check_result in *; by rewrite Fp). rewrite Hc.
  destruct (complete_taken_spec is_alphanumeric mcp_valid plugin_valid i0 p body now)
    as (i' & replies & -> & _ & _ & _ & _ & Hjob). cbn [mbind option_bind].
  assert (Hr : result_job i0 p = Some j) by (unfold result_job in *; by rewrite Fj). rewrite Hr, Fj in Hjob.
  destruct Hjob as (j' & k & ? & ? & ?). by exists i', replies, j', k.
Qed.

(** A persistent-shell result touches no Job, and of the requests only its own. *)
Lemma complete_shell_frame (i i' : RunnerRegistryInner) (body : RunnerPersistentShellResultRequest)
  (connection : option str) (now : Z) (reply : option PersistentShellResult) (r : result unit str) :
  complete_persistent_shell_checked i body connection now = Some ((i', reply), r) ->
  jobs_by_id i' = jobs_by_id i.
Proof.
  unfold complete_persistent_shell_checked. destruct (check? validate_id _ _ ;; _); [ | by intros [= <- _ _]].
  destruct (normalize_persistent_shell_result _) as [normalized|]; [ | done]. cbn [mbind option_bind].
  destruct (let? r := normalized in _); [ | by intros [= <- _ _]].
  destruct (refresh_liveness_frame i (psq_client_id body) connection now) as (_ & Fj & _).
  destruct (check_persistent_request _ _ _); [ | by intros [= <- _ _]].
  destruct (negb _); intros [= <- _ _]; exact Fj.
Qed.
