(* ===== verification/Admission.v ===== *)
(** * Admission: the start of a Job, crates/webcodex-runner-registry/src/job_updates.rs
    [start_job_with_metadata_for_access]

    A start is checked on its own first: the execution it describes, its preview,
    its recovery context, its request on the wire.  It is then admitted under the
    registry's lock against the target Runner's visibility and capabilities, the
    unregistering projects and, for a detached process, the Job its idempotency key
    names.  The fresh request and Job ids, the SHA-256 digest and the JSON of a
    validation plan are arguments. *)
From S2P Require Import Prelude RustStr Lifecycle Policy JobLog Capabilities RegistryState JobState ValidationSteps InventoryCheck JobWire JobUpdate Polling.

(** ** The request *)

Inductive StructuredJobExecution : Type :=
| Process (process : ShellProcessArgv)
| DetachedProcess (process : ShellProcessArgv)
| Script (script : ShellScriptPayload).

Record ShellJobStartMetadata : Type := mkStartMetadata {
  sm_project_id : option str;
  sm_session_id : option str;
  sm_ssh_resource : option str;
  sm_project_cwd : option str;
  sm_purpose : option str;
  sm_shell : option str;
  sm_validation_steps : list ShellJobValidationStep;
  sm_validation : option ShellJobValidationMetadata;
  sm_visibility : ShellJobVisibility;
  sm_validation_identity : option str;
  sm_validation_tool : option str;
  sm_assertion_name : option str;
  sm_structured_execution : option StructuredJobExecution;
  sm_stdin : option str;
  sm_detached_idempotency_key : option str
}.

(** The fields of a Job request that a start reads. *)
Record ShellJobOpRequest : Type := mkJobOp {
  jo_client_id : option str;
  jo_cwd : option str;
  jo_command : option str;
  jo_timeout_secs : option Z;
  jo_codex : option ShellJobCodexMetadata
}.

#[export] Instance argv_eq_dec : EqDecision ShellProcessArgv.
Proof. solve_decision. Defined.
#[export] Instance intent_eq_dec : EqDecision DetachedIdempotencyIntent.
Proof. solve_decision. Defined.

Definition MAX_CWD_LEN : Z := 1024.
Definition MAX_SYNC_WAIT_SECS : Z := 120.
Definition MAX_COMMAND_TIMEOUT_SECS : Z := 24 * 60 * 60.
Definition MAX_RUN_STDIN_BYTES : Z := 15 * 1024 * 1024.
Definition DETACHED_IDEMPOTENCY_KEY_MAX_BYTES : Z := 128.
Definition DETACHED_IDEMPOTENCY_CONFLICT : str := lit "detached_idempotency_conflict".
Definition DETACHED_IDEMPOTENCY_RECOVERY_PREFIX : str := lit "detached_idempotency_recovery_required:".

(** ** Checks before the lock *)

Definition validate_run_request (cid command : str) (stdin cwd : option str) (timeout_secs wait_timeout_secs : Z)
  : result unit str :=
  check? validate_id cid (lit "client_id") ;;
  check? validate_raw_shell_wire_command command ;;
  check? check_bounded_text (lit "stdin") MAX_RUN_STDIN_BYTES (lit " is too large") stdin ;;
  check? check_bounded_text (lit "cwd") MAX_CWD_LEN (lit " is too long") cwd ;;
  bail? Z.eqb timeout_secs 0 || Z.ltb MAX_COMMAND_TIMEOUT_SECS timeout_secs
    with lit "timeout_secs must be between 1 and " ++ fmt_Z MAX_COMMAND_TIMEOUT_SECS ;;
  bail? Z.ltb MAX_SYNC_WAIT_SECS wait_timeout_secs
    with lit "wait_timeout_secs must be <= " ++ fmt_Z MAX_SYNC_WAIT_SECS ++ lit " for synchronous runShell" ;;
  Ok tt.

(** The registry's own [validate_structured_job_common], whose messages differ from
    the wire codec's. *)
Definition check_structured_start (cwd stdin : option str) (timeout_secs : Z) : result unit str :=
  check? check_bounded_text (lit "stdin") PROCESS_STDIN_MAX_BYTES (lit " is too large") stdin ;;
  check? check_bounded_text (lit "cwd") PROCESS_CWD_MAX_BYTES (lit " is too long") cwd ;;
  bail? negb (structured_timeout_ok timeout_secs) with STRUCTURED_TIMEOUT_MESSAGE ;;
  Ok tt.

Definition validate_detached_idempotency_key (key : str) : result unit str :=
  bail? is_empty key || Z.ltb DETACHED_IDEMPOTENCY_KEY_MAX_BYTES (str_len key)
        || existsb (fun c => N.eqb c NUL || N.eqb c CR || N.eqb c LF) key
    with lit "detached idempotency_key must be 1..=" ++ fmt_Z DETACHED_IDEMPOTENCY_KEY_MAX_BYTES
         ++ lit " bytes and contain no NUL/CR/LF" ;;
  Ok tt.

Definition valid_ssh_resource (resource : str) : bool :=
  negb (is_empty resource || Z.ltb 80 (str_len resource) || str_contains (lit "..") resource
        || negb (forallb (fun c => is_ascii_alphanumeric c || existsb (N.eqb c) (lit "_-.")) resource)).

(** What the checks derive: the safe preview, the recovery metadata and the kind of
    the Job. *)
Record StartShape : Type := mkShape {
  sh_preview : str;
  sh_structured : option ShellJobStructuredExecutionMetadata;
  sh_kind : str
}.

Section Start.
Context (is_alphanumeric : char -> bool).

Definition start_shape (cid command : str) (cwd : option str) (timeout_secs : Z) (m : ShellJobStartMetadata)
  : result StartShape str :=
  let structured source language bytes count assertion :=
    Some (mkStructured source language bytes count (is_some (sm_stdin m)) (sm_validation_identity m)
            assertion (sm_validation_tool m)) in
  match sm_structured_execution m with
  | Some (Process process) =>
      check? validate_process_argv process ;;
      check? check_structured_start cwd (sm_stdin m) timeout_secs ;;
      Ok (mkShape (Preview.process_preview is_alphanumeric (executable process) (args process))
            (structured (lit "run_process") None None (Z.of_nat (length (args process))) (sm_assertion_name m))
            (lit "run_process"))
  | Some (DetachedProcess process) =>
      check? validate_process_argv process ;;
      check? check_structured_start cwd (sm_stdin m) timeout_secs ;;
      Ok (mkShape (lit "detached process (" ++ fmt_nat (length (args process)) ++ lit " args)")
            (structured (lit "run_detached_process") None None (Z.of_nat (length (args process))) None)
            (lit "run_detached_process"))
  | Some (Script script) =>
      check? validate_script_request script (sm_stdin m) cwd timeout_secs ;;
      Ok (mkShape (script_preview (script_language_as_str (script_language script))
                     (str_len (script_text script)) (Z.of_nat (length (script_args script))))
            (structured (lit "run_script") (Some (script_language script)) (Some (str_len (script_text script)))
               (Z.of_nat (length (script_args script))) (sm_assertion_name m))
            (lit "run_script"))
  | None =>
      check? validate_run_request cid command None cwd timeout_secs 0 ;;
      Ok (mkShape (if is_empty (sm_validation_steps m) then Preview.command_preview command
                   else lit "validation: " ++ join (lit ", ") (map step_name (sm_validation_steps m)))
            None (lit "shell"))
  end.

Definition is_detached_request (m : ShellJobStartMetadata) : bool :=
  match sm_structured_execution m with Some (DetachedProcess _) => true | _ => false end.

Definition script_in (l : ShellScriptLanguage) (m : ShellJobStartMetadata) : bool :=
  match sm_structured_execution m with Some (Script s) => script_language s ==? l | _ => false end.

Definition detached_intent (cwd : option str) (timeout_secs : Z) (m : ShellJobStartMetadata)
  : option DetachedIdempotencyIntent :=
  match sm_structured_execution m with
  | Some (DetachedProcess process) =>
      Some (mkIntent (sm_project_id m) (sm_session_id m) (sm_project_cwd m) cwd (sm_purpose m) (sm_shell m)
              process (sm_stdin m) timeout_secs)
  | _ => None
  end.

Definition start_context (cwd : option str) (shape : StartShape) (m : ShellJobStartMetadata) : ShellJobContext :=
  mkContext (sm_project_id m) (sm_session_id m) (sm_ssh_resource m) (sm_project_cwd m) cwd (sm_purpose m)
    (sm_shell m) (sh_preview shape) (map step_name (sm_validation_steps m)) (sm_validation m)
    (sh_structured shape).

Definition start_operation (jid command : str) (cwd : option str) (timeout_secs : Z) (shape : StartShape)
  (m : ShellJobStartMetadata) : RunnerJobOperation :=
  let context := start_context cwd shape m in
  match sm_structured_execution m with
  | Some (Process process) => StartProcess (mkJobProcess jid cwd process (sm_stdin m) timeout_secs context)
  | Some (DetachedProcess process) =>
      StartDetachedProcess (mkJobProcess jid cwd process (sm_stdin m) timeout_secs context)
  | Some (Script script) => StartScript (mkJobScript jid cwd script (sm_stdin m) timeout_secs context)
  | None => if is_empty (sm_validation_steps m)
            then StartShell (mkJobShell jid cwd command timeout_secs context)
            else StartValidation (mkJobValidation jid cwd (sm_validation_steps m) timeout_secs context)
  end.

(** The self-contained checks of the metadata. *)
Definition check_start_metadata (command : str) (m : ShellJobStartMetadata) : result unit str :=
  bail? is_some (sm_ssh_resource m) && is_none (sm_session_id m)
    with lit "ssh_session_required: an SSH resource requires a Workflow Session id" ;;
  bail? is_some_and (fun r => negb (valid_ssh_resource r)) (sm_ssh_resource m)
    with lit "ssh_resource_invalid: resource name is invalid" ;;
  bail? Nat.ltb 3 (length (sm_validation_steps m))
        || existsb (fun s => negb (step_is_canonical s)) (sm_validation_steps m)
        || negb (all_distinct (map step_name (sm_validation_steps m)))
    with lit "invalid structured validation plan" ;;
  bail? is_some_and (fun v => negb (validation_is_valid v) || (val_steps v !=? sm_validation_steps m)) (sm_validation m)
    with lit "invalid structured validation metadata" ;;
  bail? is_some (sm_structured_execution m)
        && (negb (is_empty (sm_validation_steps m)) || is_some (sm_validation m) || negb (is_empty command))
    with lit "typed structured Job starts require command=" ++ [34%N; 34%N] ++ lit " and no validation plan" ;;
  Ok tt.

(** The digest of a detached start's identity, as lowercase hexadecimal text. *)
Context (sha256_hex : str -> str).

Definition detached_job_id_for_key (principal key : str) : result str str :=
  check? validate_detached_idempotency_key key ;;
  Ok (lit "detached_"
      ++ sha256_hex (lit "webcodex-detached-initiation-v1" ++ [NUL] ++ principal ++ [NUL] ++ key)).

Definition start_job_id (fresh_job_id : str) (initiator : option str) (m : ShellJobStartMetadata)
  : result str str :=
  bail? negb (eqb (is_detached_request m) (is_some (sm_detached_idempotency_key m)))
    with lit "detached idempotency_key must be present exactly for detached process Job starts" ;;
  match sm_detached_idempotency_key m with
  | Some key =>
      let? principal := ok_or initiator
        (lit "detached idempotency requires a stable authenticated caller identity") in
      detached_job_id_for_key principal key
  | None => Ok fresh_job_id
  end.

(** ** A checked start *)

Record StartPlan : Type := mkPlan {
  pl_client_id : str;
  pl_request_id : str;
  pl_job_id : str;
  pl_cwd : option str;
  pl_timeout_secs : Z;
  pl_shape : StartShape;
  pl_intent : option DetachedIdempotencyIntent;
  pl_request : RunnerRequest
}.

Context `{PlanJson}.

Definition plan_start (body : ShellJobOpRequest) (requested_by : str) (m : ShellJobStartMetadata)
  (initiator : option str) (fresh_request_id fresh_job_id : str) (now : Z) : result StartPlan str :=
  let? cid := ok_or (jo_client_id body) (lit "client_id is required for op=start") in
  let? command := ok_or (jo_command body) (lit "command is required for op=start") in
  let timeout_secs := unwrap_or 120%Z (jo_timeout_secs body) in
  let cwd := trim <$> jo_cwd body in
  check? check_start_metadata command m ;;
  let? shape := start_shape cid command cwd timeout_secs m in
  let? jid := start_job_id fresh_job_id initiator m in
  let? request := encode_job_operation (mkInvocation fresh_request_id cid requested_by now)
                    (start_operation jid command cwd timeout_secs shape m) in
  Ok (mkPlan cid fresh_request_id jid cwd timeout_secs shape (detached_intent cwd timeout_secs m) request).

(** ** Admission under the lock *)

Definition go_test_packages (s : ShellJobValidationStep) : bool :=
  is_structured_go_test_json s && (step_args s !=? [lit "test"; lit "-json"; lit "./..."]).

Definition unsupported (cid prefix what : str) : str :=
  prefix ++ lit "runner " ++ cid ++ lit " does not support " ++ what.

(** What the start needs of the Runner, in the order it is checked. *)
Definition check_start_capabilities (features : RunnerFeatureSet) (cid : str) (shape : StartShape)
  (m : ShellJobStartMetadata) : result unit str :=
  let missing feature := negb (supports features feature) in
  let steps := sm_validation_steps m in
  let capability := lit "capability_unavailable: " in
  bail? missing AsyncJobs && missing AsyncShellJobs with unsupported cid [] (lit "async shell jobs") ;;
  bail? is_some (sh_structured shape) && missing StructuredExecutionJobs
    with unsupported cid capability (lit "structured_execution_jobs") ;;
  bail? script_in Javascript m && missing StructuredScriptJavascript
    with unsupported cid capability (lit "structured_script_javascript") ;;
  bail? script_in Typescript m && missing StructuredScriptTypescript
    with unsupported cid capability (lit "structured_script_typescript") ;;
  bail? is_detached_request m && missing DetachedProcessJobs
    with unsupported cid capability (lit "detached_process_jobs") ;;
  bail? is_some (sh_structured shape) && is_some (sm_ssh_resource m)
    with lit "ssh_resource_unsupported_for_request: typed structured Jobs do not support SSH resources" ;;
  bail? is_some (sm_ssh_resource m) && missing SshShell
    with unsupported cid (lit "agent_capability_unavailable: ") (lit "ssh_shell") ;;
  bail? negb (is_empty steps) && missing StructuredValidationArgv
    with unsupported cid (lit "structured_validation_unavailable: ") (lit "structured argv validation jobs") ;;
  bail? is_some (sm_validation m ≫= val_minimum_tests) && missing StructuredCargoTestCountAssertion
    with unsupported cid (lit "structured_cargo_test_count_assertion_unavailable: ")
           (lit "durable Cargo test-count assertions") ;;
  bail? is_some_and (fun v => is_some (val_require_tests v) || is_some (val_no_run v)) (sm_validation m)
        && missing StructuredCargoTestExecutionPolicy
    with unsupported cid (lit "structured_cargo_test_execution_policy_unavailable: ")
           (lit "durable Cargo validation execution-policy metadata") ;;
  bail? existsb is_structured_go_test_json steps && missing StructuredGoTestJson
    with unsupported cid (lit "structured_go_test_json_unavailable: ") (lit "machine-readable Go test validation") ;;
  bail? existsb go_test_packages steps && missing StructuredGoTestPackages
    with unsupported cid (lit "structured_go_test_packages_unavailable: ")
           (lit "focused Go package validation argv") ;;
  bail? is_some_and (fun v => val_tool v ==? lit "go_test") (sm_validation m) && missing StructuredGoTestTool
    with unsupported cid (lit "structured_go_test_tool_unavailable: ")
           (lit "the first-class go_test validation contract") ;;
  Ok tt.

Definition check_start_runner (inner : RunnerRegistryInner) (access : option RunnerAccess) (plan : StartPlan)
  (m : ShellJobStartMetadata) : result RunnerRecord str :=
  let cid := pl_client_id plan in
  let? runner := ok_or (runners inner !! cid) (lit "unknown shell client: " ++ cid) in
  check? (if is_some access then assert_runner_access access runner else Ok tt) ;;
  check? check_start_capabilities (r_runner_features runner) cid (pl_shape plan) m ;;
  bail? is_some_and (fun p => is_some (unregistering_projects inner !! p)) (sm_project_id m)
    with lit "project_unregister_in_progress" ;;
  Ok runner.

(** What a detached start finds at the Job its key names: [Ok None] when there is
    none, the recorded Job when it was started for the same intent. *)
Definition replayed_start (inner : RunnerRegistryInner) (plan : StartPlan)
  : result (option ShellJobRecord) str :=
  match pl_intent plan, jobs_by_id inner !! pl_job_id plan with
  | Some intent, Some existing =>
      bail? kind existing !=? lit "run_detached_process"
        with DETACHED_IDEMPOTENCY_CONFLICT ++ lit ": idempotency key resolves to a non-detached Job" ;;
      match detached_idempotency_intent existing with
      | Some recorded =>
          if recorded ==? intent then Ok (Some existing)
          else Err (DETACHED_IDEMPOTENCY_CONFLICT
                    ++ lit ": idempotency key was already used for different detached process intent")
      | None => Err (DETACHED_IDEMPOTENCY_RECOVERY_PREFIX ++ pl_job_id plan)
      end
  | _, _ => Ok None
  end.

(** [epoch] and [receipts]: the registry's observation epoch, and whether a receipt
    store is configured. *)
Definition admitted_job (plan : StartPlan) (body : ShellJobOpRequest) (m : ShellJobStartMetadata)
  (runner : RunnerRecord) (epoch : str) (receipts : bool) (now : Z) : ShellJobRecord :=
  {| job_id := pl_job_id plan; request_id := Some (pl_request_id plan); client_id := pl_client_id plan;
     auth_group := r_auth_group runner; owner_at_admission := r_owner runner;
     runner_instance_id := r_runner_instance_id runner; kind := sh_kind (pl_shape plan);
     project_id := sm_project_id m; session_id := sm_session_id m; ssh_resource := sm_ssh_resource m;
     cwd := pl_cwd plan; project_cwd := sm_project_cwd m; purpose := sm_purpose m; shell := sm_shell m;
     command_preview := sh_preview (pl_shape plan); detached_idempotency_intent := pl_intent plan;
     lifecycle := Queued; created_at := now; started_at := None; ended_at := None; exit_code := None;
     duration_ms := None; stdout := ShellJobLogState_default; stderr := ShellJobLogState_default;
     error := None; command_execution_state := None; structured_execution := sh_structured (pl_shape plan);
     codex := jo_codex body; validation_steps := map step_name (sm_validation_steps m);
     validation := sm_validation m; validation_progress := None; activity := None;
     visibility := sm_visibility m; last_update_seq := 0; recovery := JobRecoveryState_default;
     observation := JobObservationState_new epoch <| has_receipt_candidates := receipts |> |}.

(** What [enqueue_pending_request_locked] decodes; [None] is the [unreachable!] of the
    Job decoder. *)
Definition decoded_start (request : RunnerRequest) : option (result RunnerOperation str) :=
  (fun r => let? op := r in Ok (OpJob op)) <$> decode_job_operation request.

Definition start_job_with_metadata_for_access (inner : RunnerRegistryInner) (body : ShellJobOpRequest)
  (requested_by : str) (m : ShellJobStartMetadata) (access : option RunnerAccess) (initiator : option str)
  (fresh_request_id fresh_job_id epoch : str) (receipts : bool) (now : Z)
  : option (RunnerRegistryInner * result ShellJobRecord str) :=
  let checked :=
    let? plan := plan_start body requested_by m initiator fresh_request_id fresh_job_id now in
    let? runner := check_start_runner inner access plan m in
    let? replay := replayed_start inner plan in
    Ok (plan, runner, replay) in
  match checked with
  | Err err => Some (inner, Err err)
  | Ok (plan, runner, Some existing) => Some (inner, Ok existing)
  | Ok (plan, runner, None) =>
      operation ← decoded_start (pl_request plan);
      match enqueue_pending_request_locked operation inner (pl_client_id plan) (pl_request_id plan)
              (pl_request plan) false (Some (pl_job_id plan)) now with
      | Err err => Some (inner, Err (display_enqueue_error err))
      | Ok inner =>
          let job := admitted_job plan body m runner epoch receipts now in
          Some (inner <| request_to_job := <[ pl_request_id plan := pl_job_id plan ]> (request_to_job inner) |>
                      <| jobs_by_id := <[ pl_job_id plan := job ]> (jobs_by_id inner) |>, Ok job)
      end
  end.
End Start.
