(* ===== verification/AdmissionFacts.v ===== *)
(** * AdmissionFacts: what a Job start leaves behind, and that a detached start
    happens once per idempotency key *)
From S2P Require Import Prelude RustStr Lifecycle Policy JobLog Capabilities RegistryState JobState ValidationSteps InventoryCheck JobWire Samples JobUpdate Polling Admission.

Section AdmissionFacts.
Context (is_alphanumeric : char -> bool) (sha256_hex : str -> str) `{PlanJson}.

(** ** The wire operation of a start *)

(** A start whose typed execution has no SSH resource carries the recovery
    metadata its operation implies. *)
Lemma start_operation_coherent (cid jid command : str) (cwd : option str) (timeout_secs : Z)
  (m : ShellJobStartMetadata) (shape : StartShape) :
  start_shape is_alphanumeric cid command cwd timeout_secs m = Ok shape ->
  is_some (sh_structured shape) && is_some (sm_ssh_resource m) = false ->
  operation_coherent (start_operation jid command cwd timeout_secs shape m) = true.
Proof.
  unfold start_shape, start_operation. intros Hs Hssh.
  destruct (sm_structured_execution m) as [[p|p|s]|]; step_guards Hs; injection Hs as <-; cbn in *.
  4: by destruct (is_empty _).
  all: destruct (sm_ssh_resource m); [done | ]; cbn; unfold beq; rewrite ?andb_true_l;
    by apply bool_decide_eq_true.
Qed.

Lemma start_operation_is_start (jid command : str) (cwd : option str) (timeout_secs : Z)
  (m : ShellJobStartMetadata) (shape : StartShape) :
  is_start (start_operation jid command cwd timeout_secs shape m) = true
  /\ operation_job_id (start_operation jid command cwd timeout_secs shape m) = jid
  /\ operation_context (start_operation jid command cwd timeout_secs shape m) = Some (start_context cwd shape m).
Proof.
  unfold start_operation. destruct (sm_structured_execution m) as [[]|]; [done | done | done | ].
  by destruct (is_empty _).
Qed.

(** What a plan was made from. *)
Record plan_spec (body : ShellJobOpRequest) (requested_by : str) (m : ShellJobStartMetadata)
  (initiator : option str) (fresh_request_id fresh_job_id : str) (now : Z) (plan : StartPlan)
  (command : str) : Prop := {
  ps_client : jo_client_id body = Some (pl_client_id plan);
  ps_command : jo_command body = Some command;
  ps_request_id : pl_request_id plan = fresh_request_id;
  ps_cwd : pl_cwd plan = (trim <$> jo_cwd body);
  ps_timeout : pl_timeout_secs plan = unwrap_or 120%Z (jo_timeout_secs body);
  ps_metadata : check_start_metadata command m = Ok tt;
  ps_shape : start_shape is_alphanumeric (pl_client_id plan) command (pl_cwd plan) (pl_timeout_secs plan) m
    = Ok (pl_shape plan);
  ps_job : start_job_id sha256_hex fresh_job_id initiator m = Ok (pl_job_id plan);
  ps_intent : pl_intent plan = detached_intent (pl_cwd plan) (pl_timeout_secs plan) m;
  ps_wire : encode_job_operation (mkInvocation fresh_request_id (pl_client_id plan) requested_by now)
    (start_operation (pl_job_id plan) command (pl_cwd plan) (pl_timeout_secs plan) (pl_shape plan) m)
    = Ok (pl_request plan)
}.

Lemma plan_start_spec body requested_by m initiator rid jid now plan :
  plan_start is_alphanumeric sha256_hex body requested_by m initiator rid jid now = Ok plan ->
  exists command, plan_spec body requested_by m initiator rid jid now plan command.
Proof.
  unfold plan_start. intros Hp. destruct (jo_client_id body) as [cid|] eqn:Ec; [ | done].
  destruct (jo_command body) as [command|] eqn:Em; [ | done]. cbn [ok_or result_bind] in Hp.
  step_guards Hp. injection Hp as <-. destruct value. exists command. by split.
Qed.

(** Whether an operation can be encoded does not depend on the invocation. *)
Lemma encode_any_invocation (inv inv' : RunnerInvocationMetadata) (op : RunnerJobOperation) (wire : RunnerRequest) :
  encode_job_operation inv op = Ok wire -> exists wire', encode_job_operation inv' op = Ok wire'.
Proof.
  intros He. destruct op; cbn [encode_job_operation] in *; step_guards He;
    repeat match goal with E : _ = Ok _ |- _ => rewrite ?E; clear E end; cbn [result_bind];
    rewrite ?Hguard; eauto.
Qed.

(** ** The handler *)

Lemma capabilities_exclude_ssh features cid shape m :
  check_start_capabilities features cid shape m = Ok tt ->
  is_some (sh_structured shape) && is_some (sm_ssh_resource m) = false.
Proof. unfold check_start_capabilities. intros Hc. by step_guards Hc. Qed.

Lemma start_runner_spec inner access plan m runner :
  check_start_runner inner access plan m = Ok runner ->
  runners inner !! pl_client_id plan = Some runner
  /\ (is_some access = true -> assert_runner_access access runner = Ok tt)
  /\ check_start_capabilities (r_runner_features runner) (pl_client_id plan) (pl_shape plan) m = Ok tt
  /\ is_some_and (fun p => is_some (unregistering_projects inner !! p)) (sm_project_id m) = false.
Proof.
  unfold check_start_runner. destruct (runners inner !! pl_client_id plan) as [r|]; [ | done].
  cbn [ok_or result_bind]. intros Hr. step_guards Hr. injection Hr as <-. destruct value, value0.
  split_and!; try done. intros Ha. by rewrite Ha in Hstep.
Qed.

(** The wire request of a plan that passed the Runner's checks decodes to the
    operation it was made from. *)
Lemma planned_request_decodes body requested_by m initiator rid jid now plan command inner access runner :
  plan_spec body requested_by m initiator rid jid now plan command ->
  check_start_runner inner access plan m = Ok runner ->
  decoded_start (pl_request plan)
  = Some (Ok (OpJob (start_operation (pl_job_id plan) command (pl_cwd plan) (pl_timeout_secs plan) (pl_shape plan) m))).
Proof.
  intros Hp Hr. apply start_runner_spec in Hr as (_ & _ & Hc & _). apply capabilities_exclude_ssh in Hc.
  destruct (encoded_job_decodes _ _ _ (ps_wire _ _ _ _ _ _ _ _ _ Hp)) as (d & Hd & Hok & _).
  unfold decoded_start. rewrite Hd. cbn.
  rewrite Hok; [done | ]. eapply start_operation_coherent; [by eapply ps_shape | done].
Qed.

(** The three ways a start ends: refused, answered with the recorded Job of the same
    detached start, or admitted. *)
Inductive start_outcome (inner : RunnerRegistryInner) (body : ShellJobOpRequest) (requested_by : str)
  (m : ShellJobStartMetadata) (access : option RunnerAccess) (initiator : option str) (rid jid epoch : str)
  (receipts : bool) (now : Z) : RunnerRegistryInner -> result ShellJobRecord str -> Prop :=
| start_refused err :
    start_outcome inner body requested_by m access initiator rid jid epoch receipts now inner (Err err)
| start_replayed plan command runner existing :
    plan_spec body requested_by m initiator rid jid now plan command ->
    check_start_runner inner access plan m = Ok runner ->
    replayed_start inner plan = Ok (Some existing) ->
    start_outcome inner body requested_by m access initiator rid jid epoch receipts now inner (Ok existing)
| start_admitted plan command runner i1 :
    plan_spec body requested_by m initiator rid jid now plan command ->
    check_start_runner inner access plan m = Ok runner ->
    replayed_start inner plan = Ok None ->
    enqueue_pending_request_locked
      (Ok (OpJob (start_operation (pl_job_id plan) command (pl_cwd plan) (pl_timeout_secs plan) (pl_shape plan) m)))
      inner (pl_client_id plan) rid (pl_request plan) false (Some (pl_job_id plan)) now = Ok i1 ->
    let job := admitted_job plan body m runner epoch receipts now in
    start_outcome inner body requested_by m access initiator rid jid epoch receipts now
      (i1 <| request_to_job := <[ rid := pl_job_id plan ]> (request_to_job i1) |>
          <| jobs_by_id := <[ pl_job_id plan := job ]> (jobs_by_id i1) |>) (Ok job).

Definition start_ := start_job_with_metadata_for_access is_alphanumeric sha256_hex.

Lemma start_outcomes inner body requested_by m access initiator rid jid epoch receipts now :
  exists i' r, start_ inner body requested_by m access initiator rid jid epoch receipts now = Some (i', r)
    /\ start_outcome inner body requested_by m access initiator rid jid epoch receipts now i' r.
Proof.
  unfold start_, start_job_with_metadata_for_access.
  destruct (plan_start _ _ body requested_by m initiator rid jid now) as [plan|e] eqn:Ep; cbn [result_bind];
    [ | eexists _, _; split; [done | constructor]].
  apply plan_start_spec in Ep as [command Hp].
  destruct (check_start_runner inner access plan m) as [runner|e] eqn:Er; cbn [result_bind];
    [ | eexists _, _; split; [done | constructor]].
  destruct (replayed_start inner plan) as [[existing|]|e] eqn:Ex; cbn [result_bind].
  - eexists _, _. split; [done | by econstructor].
  - rewrite (planned_request_decodes _ _ _ _ _ _ _ _ _ _ _ _ Hp Er). cbn [mbind option_bind].
    rewrite (ps_request_id _ _ _ _ _ _ _ _ _ Hp).
    destruct (enqueue_pending_request_locked _ _ _ _ _ _ _ _) as [i1|e] eqn:Eq;
      [ | eexists _, _; split; [done | constructor]].
    eexists _, _. split; [reflexivity | by econstructor].
  - eexists _, _. split; [done | constructor].
Qed.

Lemma encoded_client inv op wire : encode_job_operation inv op = Ok wire -> req_client_id wire = inv_client_id inv.
Proof. intros He. destruct op; cbn [encode_job_operation] in He; step_guards He; by injection He as <-. Qed.

Lemma encoded_request_id inv op wire : encode_job_operation inv op = Ok wire -> req_request_id wire = inv_request_id inv.
Proof. intros He. destruct op; cbn [encode_job_operation] in He; step_guards He; by injection He as <-. Qed.

Lemma enqueue_spec operation inner cid rid request w jid now i1 :
  enqueue_pending_request_locked (Ok operation) inner cid rid request w jid now = Ok i1 ->
  i1 = inner <| queues_by_runner := <[ cid := unwrap_or [] (queues_by_runner inner !! cid) ++ [rid] ]> (queues_by_runner inner) |>
             <| pending_by_id := <[ rid := mkPending request operation w jid no_fences false ]> (pending_by_id inner) |>
  /\ length (unwrap_or [] (queues_by_runner inner !! cid)) < MAX_QUEUED_REQUESTS_PER_RUNNER.
Proof.
  unfold enqueue_pending_request_locked, ensure_queue_capacity_locked. intros Hq. cbn [map_err result_bind] in Hq.
  step_guards Hq. injection Hq as <-. split; [done | ]. step_guards Hstep0.
  apply Nat.leb_gt in Hguard. by destruct (queues_by_runner inner !! cid).
Qed.

Lemma replayed_fresh inner plan m :
  replayed_start inner plan = Ok None -> pl_intent plan = detached_intent (pl_cwd plan) (pl_timeout_secs plan) m ->
  is_detached_request m = true -> jobs_by_id inner !! pl_job_id plan = None.
Proof.
  unfold replayed_start, detached_intent, is_detached_request. intros Hr Hi Hd.
  destruct (sm_structured_execution m) as [[]|]; try done. rewrite Hi in Hr.
  destruct (jobs_by_id inner !! pl_job_id plan) as [j|]; [ | done]. step_guards Hr.
  destruct (detached_idempotency_intent j); [by case_match | done].
Qed.

Lemma replayed_spec inner plan m existing :
  replayed_start inner plan = Ok (Some existing) ->
  pl_intent plan = detached_intent (pl_cwd plan) (pl_timeout_secs plan) m ->
  is_detached_request m = true /\ jobs_by_id inner !! pl_job_id plan = Some existing
  /\ kind existing = lit "run_detached_process" /\ detached_idempotency_intent existing = pl_intent plan.
Proof.
  unfold replayed_start, detached_intent, is_detached_request. intros Hr Hi.
  destruct (pl_intent plan) as [intent|] eqn:Ei; [ | done].
  destruct (sm_structured_execution m) as [[]|]; try done.
  destruct (jobs_by_id inner !! pl_job_id plan) as [j|] eqn:Ej; [ | done]. step_guards Hr.
  destruct (detached_idempotency_intent j) as [recorded|] eqn:Ed; [ | done].
  destruct (recorded ==? intent) eqn:E; [ | done]. injection Hr as <-. apply beq_true in E as ->.
  split_andb. done.
Qed.

(** A detached start names its Job by the key alone. *)
Lemma detached_job_id_stable (jid jid' : str) (initiator : option str) (m : ShellJobStartMetadata) (k : str) :
  is_detached_request m = true ->
  start_job_id sha256_hex jid initiator m = Ok k -> start_job_id sha256_hex jid' initiator m = Ok k.
Proof.
  unfold start_job_id. intros Hd Hk. rewrite Hd in *. step_guards Hk.
  by destruct (sm_detached_idempotency_key m).
Qed.

Lemma detached_has_intent (cwd : option str) (timeout_secs : Z) (m : ShellJobStartMetadata) :
  is_detached_request m = true -> is_some (detached_intent cwd timeout_secs m) = true.
Proof. unfold is_detached_request, detached_intent. by destruct (sm_structured_execution m) as [[]|]. Qed.

(** Planning a detached start again gives the same plan up to the request. *)
Lemma replan body requested_by m initiator rid jid now plan command rid' jid' now' :
  plan_spec body requested_by m initiator rid jid now plan command -> is_detached_request m = true ->
  exists plan', plan_start is_alphanumeric sha256_hex body requested_by m initiator rid' jid' now' = Ok plan'
    /\ pl_client_id plan' = pl_client_id plan /\ pl_job_id plan' = pl_job_id plan
    /\ pl_shape plan' = pl_shape plan /\ pl_intent plan' = pl_intent plan.
Proof.
  intros [Hc Hm _ Hcwd Ht Hmeta Hsh Hj Hi Hw] Hd.
  apply (detached_job_id_stable jid jid') in Hj; [ | done].
  destruct (encode_any_invocation _ (mkInvocation rid' (pl_client_id plan) requested_by now') _ _ Hw) as [w' Hw'].
  unfold plan_start. rewrite Hc, Hm. cbn [ok_or result_bind]. rewrite Hmeta. cbn [result_bind].
  rewrite <- Hcwd, <- Ht, Hsh. cbn [result_bind]. rewrite Hj. cbn [result_bind]. rewrite Hw'. cbn [result_bind].
  eexists. by split_and!.
Qed.

(** What an accepted detached start leaves at the Job its key names. *)
Definition recorded_start (i1 : RunnerRegistryInner) (plan : StartPlan) (job : ShellJobRecord) : Prop :=
  jobs_by_id i1 !! pl_job_id plan = Some job /\ kind job = lit "run_detached_process"
  /\ detached_idempotency_intent job = pl_intent plan.

Lemma recorded_replays i1 plan plan' job :
  recorded_start i1 plan job -> is_some (pl_intent plan) = true ->
  pl_job_id plan' = pl_job_id plan -> pl_intent plan' = pl_intent plan ->
  replayed_start i1 plan' = Ok (Some job).
Proof.
  intros (Hj & Hk & Hi) Hs Hid Hin. unfold replayed_start. rewrite Hid, Hin, Hj, Hk, Hi, beq_refl.
  destruct (pl_intent plan) as [intent|]; [ | done]. cbn [negb]. by rewrite beq_refl.
Qed.

Lemma detached_start_recorded inner body requested_by m access initiator rid jid epoch receipts now i1 job :
  start_outcome inner body requested_by m access initiator rid jid epoch receipts now i1 (Ok job) ->
  is_detached_request m = true ->
  exists plan command runner,
    plan_spec body requested_by m initiator rid jid now plan command
    /\ check_start_runner inner access plan m = Ok runner /\ recorded_start i1 plan job
    /\ runners i1 = runners inner /\ unregistering_projects i1 = unregistering_projects inner.
Proof.
  intros Hout Hd. inversion Hout as [|plan command runner existing Hp Hr Hx|plan command runner i0 Hp Hr Hx Hq job' He];
    subst; exists plan, command, runner.
  - destruct (replayed_spec _ plan m job Hx) as (_ & Hj & Hk & Hi); [by eapply ps_intent | ].
    by split_and!.
  - apply enqueue_spec in Hq as [-> _]. split_and!; try done. split_and!; [cbn; by rewrite lookup_insert_eq | | done].
    subst job'. cbn. pose proof (ps_shape _ _ _ _ _ _ _ _ _ Hp) as Hs. unfold start_shape in Hs.
    unfold is_detached_request in Hd. destruct (sm_structured_execution m) as [[]|]; try done.
    step_guards Hs. by injection Hs as <-.
Qed.

(** While the record of a detached start is there, the same request is answered
    with it, unless the Runner no longer admits the request. *)
Lemma recorded_start_replayed i2 body requested_by m access initiator rid jid now plan command job rid2 jid2 epoch2
  receipts2 now2 :
  plan_spec body requested_by m initiator rid jid now plan command -> is_detached_request m = true ->
  recorded_start i2 plan job ->
  exists plan2, plan_start is_alphanumeric sha256_hex body requested_by m initiator rid2 jid2 now2 = Ok plan2
    /\ start_ i2 body requested_by m access initiator rid2 jid2 epoch2 receipts2 now2
       = Some (i2, match check_start_runner i2 access plan2 m with Ok _ => Ok job | Err e => Err e end).
Proof.
  intros Hp Hd Hrec.
  destruct (replan _ _ _ _ _ _ _ _ _ rid2 jid2 now2 Hp Hd) as (plan' & Hpl & Hc & Hj & Hsh & Hi).
  exists plan'. split; [done | ]. unfold start_, start_job_with_metadata_for_access. rewrite Hpl. cbn [result_bind].
  destruct (check_start_runner i2 access plan' m); cbn [result_bind]; [ | done].
  destruct Hp as [_ _ _ _ _ _ _ _ Hint _]. apply (detached_has_intent (pl_cwd plan) (pl_timeout_secs plan)) in Hd.
  rewrite <- Hint in Hd. by rewrite (recorded_replays _ _ _ _ Hrec Hd Hj Hi).
Qed.

(** ... and no detached start under its key, by whomever, starts anything. *)
Lemma recorded_start_taken i2 m initiator plan jid job body2 requested_by2 m2 access2 initiator2 rid2 jid2 epoch2
  receipts2 now2 :
  start_job_id sha256_hex jid initiator m = Ok (pl_job_id plan) -> recorded_start i2 plan job ->
  is_detached_request m2 = true ->
  start_job_id sha256_hex jid2 initiator2 m2 = start_job_id sha256_hex jid initiator m ->
  exists r, start_ i2 body2 requested_by2 m2 access2 initiator2 rid2 jid2 epoch2 receipts2 now2 = Some (i2, r)
    /\ ((exists err, r = Err err)
        \/ r = Ok job
           /\ detached_intent (trim <$> jo_cwd body2) (unwrap_or 120%Z (jo_timeout_secs body2)) m2 = pl_intent plan).
Proof.
  intros Hj (Hjob & _ & Hint) Hd2 Hkey. rewrite Hj in Hkey.
  destruct (start_outcomes i2 body2 requested_by2 m2 access2 initiator2 rid2 jid2 epoch2 receipts2 now2)
    as (i' & r & Heq & Hout2). exists r.
  destruct Hout2 as [err|plan2 c2 runner2 existing Hp2 Hr2 Hx2|plan2 c2 runner2 i0 Hp2 Hr2 Hx2 Hq2 job2];
    [by split; [ | left; exists err] | | exfalso]; destruct Hp2 as [_ _ _ Hcwd2 Ht2 _ _ Hj2 Hi2 _];
    rewrite Hj2 in Hkey; injection Hkey as Hkey.
  - split; [done | right]. apply (replayed_spec _ _ m2) in Hx2 as (_ & Hf & _ & Hf2); [ | done].
    rewrite Hkey, Hjob in Hf. injection Hf as <-. rewrite <- Hcwd2, <- Ht2, <- Hi2. by split; [ | congruence].
  - apply (replayed_fresh _ _ m2) in Hx2; [ | done | done]. rewrite Hkey in Hx2. congruence.
Qed.

End AdmissionFacts.

Definition detached_metadata : ShellJobStartMetadata :=
  mkStartMetadata None None None None None None [] None Public None None None
    (Some (DetachedProcess (mkArgv (lit "cargo") [lit "test"]))) None (Some (lit "key-1")).

Definition detached_body : ShellJobOpRequest := mkJobOp (Some (lit "r1")) None (Some []) (Some 60%Z) None.

Definition sample_start (inner : RunnerRegistryInner) (rid jid : str) (now : Z)
  : option (RunnerRegistryInner * result ShellJobRecord str) :=
  @start_job_with_metadata_for_access is_ascii_alphanumeric (fun s => s) numbered_plans inner detached_body
    (lit "ann") detached_metadata None (Some (lit "ann")) rid jid (lit "epoch") false now.

(** Starting a Job never panics.  A refused start changes nothing; a detached
    start that was made before is answered with its recorded Job and changes
    nothing; any other accepted start adds exactly one Job, queued and attributed
    to the target Runner's group and owner, and exactly one undispatched request at
    the end of that Runner's queue, within its limit, whose operation starts that
    very Job with the same recovery metadata. *)
Lemma start_effect `{PlanJson} (is_alphanumeric : char -> bool) (sha256_hex : str -> str)
  (inner : RunnerRegistryInner) (body : ShellJobOpRequest) (requested_by : str) (m : ShellJobStartMetadata)
  (access : option RunnerAccess) (initiator : option str) (rid jid epoch : str) (receipts : bool) (now : Z) :
  exists i' r,
    start_job_with_metadata_for_access is_alphanumeric sha256_hex inner body requested_by m access initiator
      rid jid epoch receipts now = Some (i', r)
    /\ match r with
       | Err _ => i' = inner
       | Ok job =>
           (i' = inner /\ is_detached_request m = true /\ exists k,
              start_job_id sha256_hex jid initiator m = Ok k /\ jobs_by_id inner !! k = Some job)
           \/ exists runner op request,
                let cid := client_id job in
                let queue := unwrap_or [] (queues_by_runner inner !! cid) in
                jo_client_id body = Some cid /\ runners inner !! cid = Some runner
                /\ (is_some access = true -> assert_runner_access access runner = Ok tt)
                /\ start_job_id sha256_hex jid initiator m = Ok (job_id job)
                /\ (is_detached_request m = true -> jobs_by_id inner !! job_id job = None)
                /\ jobs_by_id i' = <[ job_id job := job ]> (jobs_by_id inner)
                /\ lifecycle job = Queued /\ request_id job = Some rid
                /\ auth_group job = r_auth_group runner /\ owner_at_admission job = r_owner runner
                /\ pending_by_id i'
                   = <[ rid := mkPending request (OpJob op) false (Some (job_id job)) no_fences false ]>
                       (pending_by_id inner)
                /\ req_client_id request = cid
                /\ is_start op = true /\ operation_job_id op = job_id job
                /\ (operation_context op ≫= ctx_structured_execution) = structured_execution job
                /\ queues_by_runner i' = <[ cid := queue ++ [rid] ]> (queues_by_runner inner)
                /\ length queue < MAX_QUEUED_REQUESTS_PER_RUNNER
       end.
Proof.
  destruct (start_outcomes is_alphanumeric sha256_hex inner body requested_by m access initiator rid jid epoch
    receipts now) as (i' & r & Heq & Hout). exists i', r. split; [exact Heq | ]. clear Heq.
  destruct Hout as [err|plan command runner existing Hp Hr Hx|plan command runner i1 Hp Hr Hx Hq job].
  - done.
  - left. destruct (replayed_spec inner plan m existing Hx) as (Hd & Hj & _); [by eapply ps_intent | ].
    split_and!; [done | done | ]. exists (pl_job_id plan). split; [by eapply ps_job | done].
  - right. apply start_runner_spec in Hr as (Hrun & Hacc & _). apply enqueue_spec in Hq as [-> Hlen].
    destruct (start_operation_is_start (pl_job_id plan) command (pl_cwd plan) (pl_timeout_secs plan) m (pl_shape plan))
      as (Hstart & Hid & Hctx).
    eexists runner, _, (pl_request plan). cbn. split_and!; try done.
    + by eapply ps_client.
    + by eapply ps_job.
    + intros Hd. eapply replayed_fresh; [exact Hx | by eapply ps_intent | done].
    + subst job. cbn. by rewrite (ps_request_id _ _ _ _ _ _ _ _ _ _ _ Hp).
    + by rewrite (encoded_client _ _ _ (ps_wire _ _ _ _ _ _ _ _ _ _ _ Hp)).
    + by rewrite Hctx.
Qed.
