(* ===== verification/Reconcile.v ===== *)
(** * Reconcile: crates/webcodex-runner-registry/src/reconciliation.rs, runners.rs

    How the registry brings its Job records in line with what a Runner reports:
    the preflight of an inventory, its application, the loss of Jobs of a replaced
    instance, the recovery deadline, terminal retention, expiry of shared-key
    Runners and the disconnection of a transport.  Every function runs under the
    registry's mutex, so each is one atomic step; an [expect] that could fail makes
    the step an [option]. *)
From S2P Require Import Prelude RustStr Lifecycle JobLog Capabilities RegistryState JobState InventoryCheck.

(** ** Ownership of a snapshot *)

Definition same_context (job : ShellJobRecord) (snapshot : ShellJobSnapshot) : bool :=
  let context := snap_context snapshot in
  (request_id job ==? Some (snap_request_id snapshot))
  && (project_id job ==? runtime_project_id context)
  && (session_id job ==? workflow_session_id context)
  && (ssh_resource job ==? ctx_ssh_resource context)
  && (cwd job ==? ctx_cwd context)
  && (project_cwd job ==? ctx_project_cwd context)
  && (purpose job ==? ctx_purpose context)
  && (shell job ==? ctx_shell context)
  && (command_preview job ==? ctx_command_preview context)
  && (validation_steps job ==? ctx_validation_steps context)
  && (validation job ==? ctx_validation context)
  && (structured_execution job ==? ctx_structured_execution context).

Definition RUN_DETACHED : str := lit "run_detached_process".

Definition detached_source (m : option ShellJobStructuredExecutionMetadata) : bool :=
  is_some_and (fun metadata => execution_source metadata ==? RUN_DETACHED) m.

Definition detached_instance_transfer_allowed (job : ShellJobRecord) (snapshot : ShellJobSnapshot) : bool :=
  (kind job ==? RUN_DETACHED)
  && detached_source (structured_execution job)
  && detached_source (ctx_structured_execution (snap_context snapshot))
  && same_context job snapshot.

Definition progress_completed (p : option ShellJobValidationProgress) : nat :=
  unwrap_or 0 (completed <$> p).

Definition belongs (jid tail : str) : str := lit "job inventory job_id " ++ jid ++ tail.

(** The body of the preflight's loop, for one snapshot. *)
Definition preflight_snapshot (inner : RunnerRegistryInner) (cid iid : str) (snapshot : ShellJobSnapshot)
  : result unit str :=
  bail? is_some_and (fun jid => jid !=? snap_job_id snapshot)
          (request_to_job inner !! snap_request_id snapshot)
    with lit "job inventory request_id " ++ snap_request_id snapshot
         ++ lit " belongs to a different job" ;;
  match jobs_by_id inner !! snap_job_id snapshot with
  | None => Ok tt
  | Some existing =>
      bail? client_id existing !=? cid
        with belongs (snap_job_id snapshot) (lit " belongs to a different runner") ;;
      if is_terminal (lifecycle existing) && is_some (receipt_expires_at (observation existing))
      then Ok tt
      else
        let transfer := (runner_instance_id existing !=? iid)
                        && detached_instance_transfer_allowed existing snapshot in
        bail? (runner_instance_id existing !=? iid) && negb transfer
          with belongs (snap_job_id snapshot) (lit " belongs to a replaced runner instance") ;;
        bail? negb (same_context existing snapshot)
          with belongs (snap_job_id snapshot) (lit " has inconsistent ownership context") ;;
        bail? transfer && negb (is_terminal (lifecycle existing))
              && Z.ltb (snap_update_seq snapshot) (last_update_seq existing)
          with belongs (snap_job_id snapshot)
                 (lit " regresses update sequence across detached runner replacement") ;;
        let would_apply :=
          Z.ltb (last_update_seq existing) (snap_update_seq snapshot)
          || (Z.eqb (snap_update_seq snapshot) (last_update_seq existing) && recovery_active existing) in
        if negb (is_terminal (lifecycle existing)) && would_apply then
          bail? Nat.ltb (progress_completed (snap_validation_progress snapshot))
                        (progress_completed (validation_progress existing))
            with belongs (snap_job_id snapshot) (lit " regresses validation progress") ;;
          bail? Z.ltb (ss_next_line (snap_stdout snapshot)) (next_line (stdout existing))
                || Z.ltb (ss_next_line (snap_stderr snapshot)) (next_line (stderr existing))
            with belongs (snap_job_id snapshot) (lit " regresses an absolute log cursor") ;;
          Ok tt
        else Ok tt
  end.

Fixpoint preflight_jobs (inner : RunnerRegistryInner) (cid iid : str) (jobs : list ShellJobSnapshot)
  : result unit str :=
  match jobs with
  | [] => Ok tt
  | snapshot :: rest =>
      check? preflight_snapshot inner cid iid snapshot ;;
      preflight_jobs inner cid iid rest
  end.

Definition preflight_inventory_locked (inner : RunnerRegistryInner) (cid iid : str)
  (inventory : ShellJobInventory) : result unit str :=
  preflight_jobs inner cid iid (inv_jobs inventory).

(** ** Records from snapshots *)

(** [JobLifecycleState::from_wire(..).expect(..)]. *)
Definition expect_lifecycle (status : str) : option RunnerJobLifecycle :=
  match from_wire status with
  | Ok l => Some l
  | Err _ => None
  end.

Definition record_from_snapshot (cid iid : str) (group : option RunnerAccessGroup) (epoch : str)
  (snapshot : ShellJobSnapshot) (now : Z) : option ShellJobRecord :=
  let context := snap_context snapshot in
  l ← expect_lifecycle (snap_status snapshot);
  Some (observe_job_terminal
    {| job_id := snap_job_id snapshot;
       request_id := Some (snap_request_id snapshot);
       client_id := cid;
       auth_group := group;
       owner_at_admission := None;
       runner_instance_id := iid;
       kind := unwrap_or (lit "shell") (execution_source <$> ctx_structured_execution context);
       project_id := runtime_project_id context;
       session_id := workflow_session_id context;
       ssh_resource := ctx_ssh_resource context;
       cwd := ctx_cwd context;
       project_cwd := ctx_project_cwd context;
       purpose := ctx_purpose context;
       shell := ctx_shell context;
       command_preview := ctx_command_preview context;
       detached_idempotency_intent := None;
       lifecycle := l;
       created_at := snap_created_at snapshot;
       started_at := snap_started_at snapshot;
       ended_at := snap_ended_at snapshot;
       exit_code := snap_exit_code snapshot;
       duration_ms := snap_duration_ms snapshot;
       stdout := ShellJobLogState_default;
       stderr := ShellJobLogState_default;
       error := snap_error snapshot;
       command_execution_state := snap_command_execution_state snapshot;
       structured_execution := ctx_structured_execution context;
       codex := None;
       validation_steps := ctx_validation_steps context;
       validation := ctx_validation context;
       validation_progress := snap_validation_progress snapshot;
       activity := snap_activity snapshot;
       visibility := Public;
       last_update_seq := snap_update_seq snapshot;
       recovery := mkRecovery (Some Reconciled) true (Some now) (Some ServerRestartReconciliation) None;
       observation := JobObservationState_new epoch |} now).

Definition apply_snapshot (job : ShellJobRecord) (snapshot : ShellJobSnapshot) (now : Z)
  (reason : JobRecoveryReason) : option ShellJobRecord :=
  l ← expect_lifecycle (snap_status snapshot);
  let job := observe_job_terminal (job <| lifecycle := l |>) now in
  Some (notify_job_update
    (job <| started_at := snap_started_at snapshot |>
         <| ended_at := snap_ended_at snapshot |>
         <| exit_code := snap_exit_code snapshot |>
         <| duration_ms := snap_duration_ms snapshot |>
         <| error := snap_error snapshot |>
         <| command_execution_state := snap_command_execution_state snapshot |>
         <| structured_execution := ctx_structured_execution (snap_context snapshot) |>
         <| validation_progress := snap_validation_progress snapshot |>
         <| activity := snap_activity snapshot |>
         <| validation := ctx_validation (snap_context snapshot) |>
         <| stdout := replace_log_from_snapshot (stdout job) (snap_stdout snapshot) |>
         <| stderr := replace_log_from_snapshot (stderr job) (snap_stderr snapshot) |>
         <| last_update_seq := snap_update_seq snapshot |>
         <| recovery := recovery job <| rec_phase := Some Reconciled |>
                                     <| reconciled_at := Some now |>
                                     <| rec_reason := Some reason |>
                                     <| recovering_since := None |> |>)).

Section Reconciliation.
Context `{HashIteration}.

Definition remove_all_jobs (inner : RunnerRegistryInner) (ids : list str) : RunnerRegistryInner :=
  fold_left remove_job_record ids inner.

Definition removable (job : ShellJobRecord) : bool :=
  (visibility job ==? CleanupPending) && is_terminal (lifecycle job).

Definition remove_cleanup_terminal_jobs_locked (inner : RunnerRegistryInner) : RunnerRegistryInner :=
  remove_all_jobs inner
    (map fst (List.filter (fun e => removable (snd e)) (hash_iter (jobs_by_id inner)))).

Definition prune_projected_structured_terminal_suppressions_locked (inner : RunnerRegistryInner) (now : Z)
  : RunnerRegistryInner :=
  inner <| runners := (fun r => prune_projected_structured_terminal_suppressions r now) <$> runners inner |>.

Definition RECOVERY_SWEEP_PASS_CAP : nat := 64.

(** ** Recovery deadline *)

Definition recovery_expired (grace : Z) (filter : option str) (now : Z) (job : ShellJobRecord) : bool :=
  recovery_active job
  && is_none_or (fun cid => client_id job ==? cid) filter
  && is_some_and (fun since => Z.leb grace (i64_sat_sub now since)) (recovering_since (recovery job)).

(** The ids, clients and requests the pass selects. *)
Definition expired_jobs (grace : Z) (filter : option str) (now : Z) (pass_cap : nat)
  (inner : RunnerRegistryInner) : list (str * ShellJobRecord) :=
  take pass_cap (List.filter (fun e => recovery_expired grace filter now (snd e))
                   (hash_iter (jobs_by_id inner))).

Definition drop_mappings (inner : RunnerRegistryInner) (jobs : list (str * ShellJobRecord))
  : RunnerRegistryInner :=
  fold_left (fun acc e => remove_job_request_mapping acc (client_id (snd e)) (request_id (snd e))) jobs inner.

Definition drop_control_requests (inner : RunnerRegistryInner) (jobs : list (str * ShellJobRecord))
  : RunnerRegistryInner :=
  fold_left (fun acc cid => remove_job_control_requests acc cid (list_to_set (map fst jobs)))
    (remove_dups (map (fun e => client_id (snd e)) jobs)) inner.

Definition DEADLINE_MESSAGE : str := lit "runner did not reconcile the job before the recovery deadline".

Definition expire_recovering_jobs_locked (grace : Z) (inner : RunnerRegistryInner)
  (client_filter : option str) (now : Z) (pass_cap : nat) : RunnerRegistryInner * nat :=
  let expired := expired_jobs grace client_filter now pass_cap inner in
  if is_empty expired then (inner, 0)
  else
    let inner := fold_left (fun acc e => update_job_record acc (fst e) (fun job =>
                   if recovery_active job
                   then mark_job_lost job now RunnerRecoveryDeadlineExceeded DEADLINE_MESSAGE
                   else job)) expired inner in
    let inner := drop_mappings inner expired in
    let inner := drop_control_requests inner expired in
    (remove_cleanup_terminal_jobs_locked inner, length expired).

(** ** Terminal retention *)

(** The registry's locked state and, beside it, the cleanup intents kept under
    their own mutex. *)
Record RunnerRegistry : Type := mkRegistry {
  reg_inner : RunnerRegistryInner;
  cleanup_intents : gmap str (option RunnerAccess)
}.

#[export] Instance eta_registry : Eta RunnerRegistry := fun r => mkRegistry (reg_inner r) (cleanup_intents r).

Inductive TerminalSweepAction : Type :=
| Observe
| Remove.

Definition terminal_sweep_action (now : Z) (job : ShellJobRecord) : option TerminalSweepAction :=
  if (visibility job !=? Public) || negb (is_terminal (lifecycle job)) then None
  else match terminal_observed_at (observation job) with
       | None => Some Observe
       | Some observed_at =>
           if Z.leb JOB_TERMINAL_RETENTION_SECS (i64_sat_sub now observed_at) then Some Remove else None
       end.

Definition wants_action (now : Z) (a : TerminalSweepAction) (job : ShellJobRecord) : bool :=
  match terminal_sweep_action now job, a with
  | Some Observe, Observe | Some Remove, Remove => true
  | _, _ => false
  end.

Definition sweep_actions (now : Z) (inner : RunnerRegistryInner) : list (str * ShellJobRecord) :=
  take RECOVERY_SWEEP_PASS_CAP
    (List.filter (fun e => is_some (terminal_sweep_action now (snd e))) (hash_iter (jobs_by_id inner))).

Definition prune_expired_terminal_jobs_locked (reg : RunnerRegistry) (now : Z) : RunnerRegistry * nat :=
  let actions := sweep_actions now (reg_inner reg) in
  let observed := List.filter (fun e => wants_action now Observe (snd e)) actions in
  let expired := List.filter (fun e => wants_action now Remove (snd e)) actions in
  let ids : gset str := list_to_set (map fst expired) in
  let inner := fold_left (fun acc e => update_job_record acc (fst e)
                 (fun job => observe_job_terminal job now)) observed (reg_inner reg) in
  if is_empty expired then (reg <| reg_inner := inner |>, 0)
  else
    let inner := drop_mappings inner expired in
    let inner := drop_control_requests inner expired in
    let inner := inner <| request_to_job :=
                   filter (fun e => e.2 ∉ ids) (request_to_job inner) |> in
    let inner := remove_all_jobs inner (map fst expired) in
    (mkRegistry inner (filter (fun e => e.1 ∉ ids) (cleanup_intents reg)), length expired).

(** ** Shared-key Runner expiry (runners.rs) *)

Definition is_shared_key (g : option RunnerAccessGroup) : bool :=
  match g with
  | Some (SharedKey _) => true
  | _ => false
  end.

Definition shared_key_expired (offline_ttl : Z) (inner : RunnerRegistryInner) (now : Z)
  (cid : str) (runner : RunnerRecord) : bool :=
  is_shared_key (r_auth_group runner)
  && negb (is_some (notifiers inner !! cid)
           || Z.leb (i64_sat_sub now (r_last_seen runner)) RUNNER_ONLINE_WINDOW_SECS)
  && Z.ltb offline_ttl (i64_sat_sub now (unwrap_or (r_last_seen runner) (r_disconnected_at runner))).

Definition EXPIRED_WAITER_MESSAGE : str :=
  lit "runner went offline: shared-key runner registration expired".
Definition EXPIRED_JOB_MESSAGE : str := lit "shared-key runner registration expired after being offline".

Definition resolve_all_clients (err : str) (st : RunnerRegistryInner * list WaiterResponse)
  (clients : list str) : RunnerRegistryInner * list WaiterResponse :=
  fold_left (fun st cid =>
    let '(inner, sent) := resolve_disconnected_sync_requests_locked (fst st) cid err in
    (inner, snd st ++ sent)) clients st.

Definition lose_jobs (inner : RunnerRegistryInner) (ids : list str) (now : Z)
  (reason : JobRecoveryReason) (message : str) : RunnerRegistryInner :=
  fold_left (fun acc id => update_job_record acc id (fun job => mark_job_lost job now reason message))
    ids inner.

Definition forget_runner (inner : RunnerRegistryInner) (cid : str) : RunnerRegistryInner :=
  inner <| runners := delete cid (runners inner) |>
        <| queues_by_runner := delete cid (queues_by_runner inner) |>
        <| notifiers := delete cid (notifiers inner) |>
        <| retired_instances := delete cid (retired_instances inner) |>
        <| unregistering_projects :=
             filter (fun e => starts_with (lit "agent:" ++ cid ++ lit ":") e.1 = false)
               (unregistering_projects inner) |>.

Definition prune_expired_shared_key_runners_locked (offline_ttl : Z) (reg : RunnerRegistry) (now : Z)
  : RunnerRegistry * list WaiterResponse :=
  let inner := reg_inner reg in
  let expired := map fst (List.filter (fun e => shared_key_expired offline_ttl inner now (fst e) (snd e))
                            (hash_iter (runners inner))) in
  if is_empty expired then (reg, [])
  else
    let expired_set : gset str := list_to_set expired in
    let request_list := map fst (List.filter (fun e =>
                          bool_decide (p_request_client_id (snd e) ∈ expired_set))
                          (hash_iter (pending_by_id inner))) in
    let request_ids : gset str := list_to_set request_list in
    let job_list := map fst (List.filter (fun e => bool_decide (client_id (snd e) ∈ expired_set))
                      (hash_iter (jobs_by_id inner))) in
    let job_ids : gset str := list_to_set job_list in
    let '(inner, sent) := resolve_all_clients EXPIRED_WAITER_MESSAGE (inner, []) expired in
    let inner := lose_jobs inner job_list now SharedKeyRunnerExpired EXPIRED_JOB_MESSAGE in
    let inner := fold_left (fun acc rid =>
                   acc <| pending_by_id := delete rid (pending_by_id acc) |>
                       <| persistent_waiters := persistent_waiters acc ∖ {[ rid ]} |>)
                   request_list inner in
    let inner := inner <| request_to_job :=
                   filter (fun e => (e.1 ∉ request_ids) /\ (e.2 ∉ job_ids)) (request_to_job inner) |> in
    let inner := fold_left forget_runner expired inner in
    (mkRegistry inner (filter (fun e => e.1 ∉ job_ids) (cleanup_intents reg)), sent).

(** The body of [recovery_timeout_sweep] that runs under the registry's mutex. *)
Definition recovery_timeout_sweep_locked (grace offline_ttl : Z) (reg : RunnerRegistry) (now : Z)
  : RunnerRegistry * list WaiterResponse :=
  let '(reg, sent) := prune_expired_shared_key_runners_locked offline_ttl reg now in
  let inner := prune_projected_structured_terminal_suppressions_locked (reg_inner reg) now in
  let inner := fst (expire_recovering_jobs_locked grace inner None now RECOVERY_SWEEP_PASS_CAP) in
  (fst (prune_expired_terminal_jobs_locked (reg <| reg_inner := inner |>) now), sent).

(** ** Reconciliation of a Runner's inventory *)

Record ReconciliationSummary : Type := mkSummary {
  inventory_active : nat;
  inventory_terminal : nat;
  reconstructed : nat;
  updated : nat;
  missing : nat;
  suppressed_terminal : nat
}.

#[export] Instance eta_summary : Eta ReconciliationSummary := fun s =>
  mkSummary (inventory_active s) (inventory_terminal s) (reconstructed s) (updated s) (missing s)
    (suppressed_terminal s).

(** What one snapshot does to the record of its id.  [Skip] leaves it alone. *)
Inductive SnapshotOutcome : Type :=
| Skip
| Suppress
| Update (job : ShellJobRecord)
| Insert (job : ShellJobRecord).

Definition reconcile_existing (iid : str) (now : Z) (existing : ShellJobRecord) (snapshot : ShellJobSnapshot)
  : option SnapshotOutcome :=
  if is_terminal (lifecycle existing) then Some Skip
  else
    let transfer := (runner_instance_id existing !=? iid)
                    && detached_instance_transfer_allowed existing snapshot in
    if Z.ltb (snap_update_seq snapshot) (last_update_seq existing) then Some Skip
    else if Z.eqb (snap_update_seq snapshot) (last_update_seq existing)
            && negb (recovery_active existing) && negb transfer then Some Skip
    else
      let existing := if transfer then existing <| runner_instance_id := iid |> else existing in
      let reason := if transfer then DetachedInstanceTransfer else SameInstanceReconciliation in
      Update <$> apply_snapshot existing snapshot now reason.

Definition reconcile_unknown (cid iid : str) (group : option RunnerAccessGroup) (epoch : str) (now : Z)
  (runner : option RunnerRecord) (snapshot : ShellJobSnapshot) : option SnapshotOutcome :=
  let suppress :=
    is_final_job_status (snap_status snapshot)
    && is_some_and (fun r => suppresses_projected_structured_terminal r cid iid (snap_job_id snapshot)
                               (snap_request_id snapshot) now) runner in
  if suppress then Some Suppress
  else
    record ← record_from_snapshot cid iid group epoch snapshot now;
    let record := record <| owner_at_admission := runner ≫= r_owner |> in
    let record := record <| stdout := replace_log_from_snapshot (stdout record) (snap_stdout snapshot) |>
                         <| stderr := replace_log_from_snapshot (stderr record) (snap_stderr snapshot) |> in
    Some (Insert (notify_job_update record)).

Definition snapshot_outcome (cid iid : str) (group : option RunnerAccessGroup) (epoch : str) (now : Z)
  (inner : RunnerRegistryInner) (snapshot : ShellJobSnapshot) : option SnapshotOutcome :=
  match jobs_by_id inner !! snap_job_id snapshot with
  | Some existing => reconcile_existing iid now existing snapshot
  | None => reconcile_unknown cid iid group epoch now (runners inner !! cid) snapshot
  end.

Definition put_job (inner : RunnerRegistryInner) (id : str) (job : ShellJobRecord) : RunnerRegistryInner :=
  inner <| jobs_by_id := <[ id := job ]> (jobs_by_id inner) |>.

(** The mapping of a request whose snapshot is final is dropped, except after a
    [continue]. *)
Definition finish_snapshot (inner : RunnerRegistryInner) (cid : str) (snapshot : ShellJobSnapshot)
  : RunnerRegistryInner :=
  if is_final_job_status (snap_status snapshot)
  then remove_job_request_mapping inner cid (Some (snap_request_id snapshot)) else inner.

Definition reconcile_snapshot (cid iid : str) (group : option RunnerAccessGroup) (epoch : str) (now : Z)
  (st : RunnerRegistryInner * ReconciliationSummary) (snapshot : ShellJobSnapshot)
  : option (RunnerRegistryInner * ReconciliationSummary) :=
  let '(inner, summary) := st in
  outcome ← snapshot_outcome cid iid group epoch now inner snapshot;
  match outcome with
  | Skip => Some (inner, summary)
  | Suppress => Some (inner, summary <| suppressed_terminal := suppressed_terminal summary + 1 |>)
  | Update job =>
      Some (finish_snapshot (put_job inner (snap_job_id snapshot) job) cid snapshot,
            summary <| updated := updated summary + 1 |>)
  | Insert job =>
      Some (finish_snapshot (put_job inner (snap_job_id snapshot) job) cid snapshot,
            summary <| reconstructed := reconstructed summary + 1 |>)
  end.

Fixpoint reconcile_snapshots (cid iid : str) (group : option RunnerAccessGroup) (epoch : str) (now : Z)
  (jobs : list ShellJobSnapshot) (st : RunnerRegistryInner * ReconciliationSummary)
  : option (RunnerRegistryInner * ReconciliationSummary) :=
  match jobs with
  | [] => Some st
  | snapshot :: rest =>
      st ← reconcile_snapshot cid iid group epoch now st snapshot;
      reconcile_snapshots cid iid group epoch now rest st
  end.

Definition MISSING_MESSAGE : str := lit "runner complete active inventory did not contain this job".

Definition is_missing (cid iid : str) (inventory_ids : gset str) (id : str) (job : ShellJobRecord) : bool :=
  (client_id job ==? cid) && (runner_instance_id job ==? iid)
  && is_runner_active (lifecycle job) && negb (bool_decide (id ∈ inventory_ids)).

(** [for (job_id, request_id) in jobs { mark_job_lost; remove_job_request_mapping }]
    and the removal of the control requests of those Jobs. *)
Definition lose_and_unmap (inner : RunnerRegistryInner) (cid : str) (jobs : list (str * ShellJobRecord))
  (now : Z) (reason : JobRecoveryReason) (message : str) : RunnerRegistryInner :=
  let inner := fold_left (fun acc e =>
                 remove_job_request_mapping
                   (update_job_record acc (fst e) (fun job => mark_job_lost job now reason message))
                   cid (request_id (snd e))) jobs inner in
  remove_job_control_requests inner cid (list_to_set (map fst jobs)).

Definition reconcile_inventory_locked (grace : Z) (inner : RunnerRegistryInner) (cid iid : str)
  (group : option RunnerAccessGroup) (epoch : str) (inventory : ShellJobInventory) (now : Z)
  : option (RunnerRegistryInner * ReconciliationSummary) :=
  let inner := prune_projected_structured_terminal_suppressions_locked inner now in
  let inner := fst (expire_recovering_jobs_locked grace inner (Some cid) now RECOVERY_SWEEP_PASS_CAP) in
  let inventory_ids : gset str := list_to_set (ids_of (inv_jobs inventory)) in
  let gone := List.filter (fun e => is_missing cid iid inventory_ids (fst e) (snd e))
                (hash_iter (jobs_by_id inner)) in
  let summary :=
    {| inventory_active :=
         length (List.filter (fun s => is_runner_active_job_status (snap_status s)) (inv_jobs inventory));
       inventory_terminal :=
         length (List.filter (fun s => is_final_job_status (snap_status s)) (inv_jobs inventory));
       reconstructed := 0; updated := 0; missing := length gone; suppressed_terminal := 0 |} in
  let inner := lose_and_unmap inner cid gone now RunnerInventoryMissing MISSING_MESSAGE in
  '(inner, summary) ← reconcile_snapshots cid iid group epoch now (inv_jobs inventory) (inner, summary);
  Some (remove_cleanup_terminal_jobs_locked inner, summary).

Definition REPLACED_MESSAGE : str :=
  lit "runner instance was replaced before the job completed or reconciled".

Definition transferred (replacement : option ShellJobInventory) (job : ShellJobRecord) : bool :=
  is_some_and (fun inventory =>
    existsb (fun s => (snap_job_id s ==? job_id job) && detached_instance_transfer_allowed job s)
      (inv_jobs inventory)) replacement.

Definition is_replaced (cid iid : str) (replacement : option ShellJobInventory) (job : ShellJobRecord) : bool :=
  (client_id job ==? cid) && (runner_instance_id job ==? iid)
  && ((lifecycle job ==? Queued) || is_runner_active (lifecycle job))
  && negb (transferred replacement job).

Definition terminate_instance_jobs_locked (inner : RunnerRegistryInner) (cid iid : str)
  (replacement : option ShellJobInventory) (now : Z) : RunnerRegistryInner :=
  let jobs := List.filter (fun e => is_replaced cid iid replacement (snd e))
                (hash_iter (jobs_by_id inner)) in
  remove_cleanup_terminal_jobs_locked
    (lose_and_unmap inner cid jobs now RunnerInstanceReplaced REPLACED_MESSAGE).

(** ** Disconnection of a transport (runners.rs) *)

Definition NOT_DISPATCHED_MESSAGE : str :=
  lit "Runner transport disconnected before the queued request was dispatched".
Definition NO_RECONCILIATION_MESSAGE : str :=
  lit "Runner transport disconnected without reconciliation support".
Definition DISCONNECTED_MESSAGE : str :=
  lit "runner went offline: transport disconnected before returning a result".

Definition disconnect_job (recoverable : bool) (now : Z) (job : ShellJobRecord) : ShellJobRecord :=
  if recoverable && (lifecycle job !=? Queued)
  then begin_job_recovery job now RunnerTransportDisconnected
  else if lifecycle job ==? Queued
       then mark_job_lost job now RunnerRequestNotDispatched NOT_DISPATCHED_MESSAGE
       else mark_job_lost job now RunnerDisconnectedWithoutReconciliation NO_RECONCILIATION_MESSAGE.

Definition drop_request (inner : RunnerRegistryInner) (cid : str) (rid : str) : RunnerRegistryInner :=
  drop_from_queue inner cid rid
    <| pending_by_id := delete rid (pending_by_id inner) |>
    <| request_to_job := delete rid (request_to_job inner) |>.

Definition connection_matches (expected : option str) (actual : option str) : bool :=
  match expected with
  | Some id => actual ==? Some id
  | None => true
  end.

Definition lease_is_active (inner : RunnerRegistryInner) (cid iid : str) (connection : option str)
  (transport : option RunnerTransport) : bool :=
  is_some_and (fun r => (r_runner_instance_id r ==? iid)
                        && connection_matches connection (r_connection_id r)
                        && is_none_or (fun t => r_transport r ==? t) transport) (runners inner !! cid).

Definition disconnect_affects (cid : str) (job : ShellJobRecord) : bool :=
  (client_id job ==? cid)
  && negb (is_terminal (lifecycle job)
           || negb ((lifecycle job ==? Queued) || is_runner_active (lifecycle job))).

Definition disconnect_one (recoverable : bool) (now : Z) (cid : str) (inner : RunnerRegistryInner) (id : str)
  : RunnerRegistryInner :=
  let rid := jobs_by_id inner !! id ≫= request_id in
  let inner := update_job_record inner id (disconnect_job recoverable now) in
  match rid with
  | Some rid => drop_request inner cid rid
  | None => inner
  end.

Definition job_requests_of (inner : RunnerRegistryInner) (cid : str) : list str :=
  map fst (List.filter (fun e => (p_request_client_id (snd e) ==? cid) && is_some (p_job_id (snd e)))
             (hash_iter (pending_by_id inner))).

Definition reconcile_disconnect_checked (inner : RunnerRegistryInner) (cid iid : str)
  (connection : option str) (transport : option RunnerTransport) (now : Z)
  : (RunnerRegistryInner * list WaiterResponse) * bool :=
  if negb (lease_is_active inner cid iid connection transport) then ((inner, []), false)
  else
    let inner :=
      if is_some_and (fun n => (n_runner_instance_id n ==? iid)
                               && connection_matches connection (n_connection_id n))
           (notifiers inner !! cid)
      then inner <| notifiers := delete cid (notifiers inner) |> else inner in
    let recoverable := runner_reconciles inner cid in
    let inner := update_runner_record inner cid (fun r =>
                   r <| r_last_seen := offline_last_seen now |> <| r_disconnected_at := Some now |>) in
    let affected := map fst (List.filter (fun e => disconnect_affects cid (snd e))
                               (hash_iter (jobs_by_id inner))) in
    let inner := fold_left (disconnect_one recoverable now cid) affected inner in
    let inner := fold_left (fun acc rid => drop_request acc cid rid) (job_requests_of inner cid) inner in
    (resolve_disconnected_sync_requests_locked inner cid DISCONNECTED_MESSAGE, true).

End Reconciliation.
