(* ===== verification/Registration.v ===== *)
(** * Registration: register_session of crates/webcodex-runner-registry/src/runners.rs

    A Runner registers to obtain the lease of its client id.  Everything that can
    fail is checked before anything changes; then, under the registry's mutex, a
    replaced instance is retired with its Jobs and waiters, the new record and
    transport lease are installed, and the reported Jobs are reconciled.  The view
    returned to the caller is represented by the record it is made of.  [None] is a
    panic of the code. *)
From S2P Require Import Prelude RustStr Lifecycle Capabilities CodingAgent RunnerData RegistryState JobState InventoryCheck ProjectInventory Reconcile.

Definition MAX_RUNNER_FIELD_LEN : nat := 200.
Definition RUNNER_JOB_CONCURRENCY_MIN : Z := 1.
Definition RUNNER_JOB_CONCURRENCY_MAX : Z := 64.
Definition RUNNER_PROTOCOL_GENERATION_V2 : Z := 2.
Definition MAX_RETIRED_INSTANCES_PER_RUNNER : nat := 16.

Record RunnerRegisterRequest : Type := mkRegister {
  reg_client_id : str;
  reg_runner_instance_id : str;
  reg_protocol_generation : Z;
  reg_display_name : option str;
  reg_owner : option str;
  reg_hostname : option str;
  reg_capabilities : RunnerCapabilities;
  reg_host_context : option RunnerHostContext;
  reg_policy : option RunnerPolicySummary;
  reg_process_started_at : option Z;
  reg_build : option RunnerBuildInfo;
  reg_job_concurrency_limit : option Z;
  reg_job_inventory : option ShellJobInventory;
  reg_coding_agent_providers : option (list CodingAgentProvider);
  reg_coding_agent_inventory : option (list CodingAgentRunSnapshot)
}.

Record StreamingSessionRegistration : Type := mkStreaming {
  ses_connection_id : str;
  ses_transport : RunnerTransport
}.

Record SharedKeyRegistrationLimits : Type := mkLimits {
  per_group : nat;
  global : nat;
  offline_ttl_secs : Z
}.

(** ** Checks before the lock *)

Definition validate_optional_field (value : option str) (field : str) : result unit str :=
  match value with
  | None => Ok tt
  | Some value =>
      bail? Nat.ltb MAX_RUNNER_FIELD_LEN (length value)
        with field ++ lit " is too long; maximum is " ++ fmt_nat MAX_RUNNER_FIELD_LEN ++ lit " characters" ;;
      bail? contains_char NUL value with field ++ lit " cannot contain NUL bytes" ;;
      Ok tt
  end.

Definition trim_string (value : option str) : option str :=
  opt_filter (fun v => negb (is_empty v)) (trim <$> value).

Definition accept_protocol (generation : Z) : result Z str :=
  if Z.eqb generation RUNNER_PROTOCOL_GENERATION_V2 then Ok generation
  else Err (lit "agent_protocol_generation is unsupported").

(** The providers one after the other; the arguments are the ids seen so far. *)
Fixpoint check_coding_providers (ids instances : gset str) (providers : list CodingAgentProvider) : result unit str :=
  match providers with
  | [] => Ok tt
  | p :: rest =>
      check? map_err (fun e => lit "invalid coding-agent provider id: " ++ e) (validate_provider_id (cap_provider_id p)) ;;
      check? map_err (fun e => lit "invalid coding-agent provider instance: " ++ e)
               (validate_provider_instance_id (cap_provider_instance_id p)) ;;
      bail? is_empty (trim (cap_name p)) || Z.ltb CODING_AGENT_MAX_PROVIDER_NAME_BYTES (str_len (cap_name p))
            || existsb is_control (cap_name p)
        with lit "invalid coding-agent provider name" ;;
      bail? bool_decide (cap_provider_id p ∈ ids) || bool_decide (cap_provider_instance_id p ∈ instances)
        with lit "duplicate coding-agent provider identity" ;;
      check_coding_providers ({[ cap_provider_id p ]} ∪ ids) ({[ cap_provider_instance_id p ]} ∪ instances) rest
  end.

Fixpoint check_coding_runs (cid : str) (providers : list CodingAgentProvider) (ids : gset str)
  (runs : list CodingAgentRunSnapshot) : result unit str :=
  match runs with
  | [] => Ok tt
  | run :: rest =>
      check? map_err (fun e => lit "invalid coding-agent Run snapshot: " ++ e) (validate_coding_agent_run_snapshot run) ;;
      bail? bool_decide (run_id run ∈ ids) with lit "duplicate coding-agent Run id in inventory" ;;
      bail? negb (starts_with (lit "agent:" ++ cid ++ lit ":") (CodingAgent.runtime_project_id run))
        with lit "coding-agent Run inventory references another Runner project namespace" ;;
      bail? negb (run_terminal (run_state run))
            && negb (existsb (fun p => (cap_provider_id p ==? run_provider_id run)
                                       && (cap_provider_instance_id p ==? run_provider_instance_id run)) providers)
        with lit "active coding-agent Run references a stale provider instance" ;;
      check_coding_runs cid providers ({[ run_id run ]} ∪ ids) rest
  end.

Definition validate_coding_agent_registration (cid : str) (capability : bool)
  (providers : option (list CodingAgentProvider)) (runs : option (list CodingAgentRunSnapshot)) : result unit str :=
  match capability, providers, runs with
  | false, None, None => Ok tt
  | false, _, _ => Err (lit "coding-agent provider/inventory metadata requires coding_agent_runs capability")
  | true, Some (_ :: _ as providers), Some runs =>
      bail? Nat.ltb CODING_AGENT_MAX_PROVIDERS (length providers)
        with lit "coding-agent provider inventory exceeds bounded limit" ;;
      bail? Nat.ltb CODING_AGENT_MAX_INVENTORY_RUNS (length runs)
        with lit "coding-agent Run inventory exceeds bounded limit" ;;
      check? check_coding_providers ∅ ∅ providers ;;
      check_coding_runs cid providers ∅ runs
  | true, _, _ => Err (lit "coding_agent_runs capability requires non-empty provider inventory and Run inventory")
  end.

(** Capabilities that make sense only with another one. *)
Definition check_feature_dependencies (features : RunnerFeatureSet) : result unit str :=
  bail? supports features ApplyPatchMatchMetadata && negb (supports features ApplyPatch)
    with lit "apply_patch_match_metadata capability requires apply_patch capability" ;;
  bail? supports features ApplyPatchStrictMatching && negb (supports features ApplyPatchMatchMetadata)
    with lit "apply_patch_strict_matching capability requires apply_patch_match_metadata capability" ;;
  bail? supports features ApplyPatchMatchingMode && negb (supports features ApplyPatchMatchMetadata)
    with lit "apply_patch_matching_mode capability requires apply_patch_match_metadata capability" ;;
  Ok tt.

Definition check_registration_fields (body : RunnerRegisterRequest) : result unit str :=
  check? validate_id (reg_client_id body) (lit "client_id") ;;
  check? validate_runner_instance_id (reg_runner_instance_id body) ;;
  check? validate_optional_field (reg_display_name body) (lit "display_name") ;;
  check? validate_optional_field (reg_owner body) (lit "owner") ;;
  check? validate_optional_field (reg_hostname body) (lit "hostname") ;;
  bail? is_some_and (fun limit => negb (Z.leb RUNNER_JOB_CONCURRENCY_MIN limit && Z.leb limit RUNNER_JOB_CONCURRENCY_MAX))
          (reg_job_concurrency_limit body)
    with lit "job_concurrency_limit must be between " ++ fmt_Z RUNNER_JOB_CONCURRENCY_MIN ++ lit " and "
         ++ fmt_Z RUNNER_JOB_CONCURRENCY_MAX ;;
  Ok tt.

Definition normalize_policy (policy : option RunnerPolicySummary) : option RunnerPolicySummary :=
  (fun p => mkPolicy (allow_raw_shell p) (allow_cwd_anywhere p) (allowed_roots p) (max_timeout_secs p)
              (max_output_bytes p) (shell_profiles p) (normalize_tool_providers (tool_providers p))
              (mcp_gateway_providers p)) <$> policy.

Definition normalize_host (host : option RunnerHostContext) : result (option RunnerHostContext) str :=
  match host with
  | None => Ok None
  | Some host => let? host := host_normalized host in Ok (Some host)
  end.

Section Checks.
(** The length of a Job inventory's JSON. *)
Context (serialized_len : ShellJobInventory -> result Z str).

Definition check_job_inventory (cid : str) (features : RunnerFeatureSet) (inventory : option ShellJobInventory)
  : result unit str :=
  match supports features JobStateReconciliation, inventory with
  | true, Some inventory => validate_job_inventory_without_project_membership serialized_len cid inventory
  | true, None => Err (lit "job_state_reconciliation capability requires job_inventory")
  | false, Some _ => Err (lit "job_inventory requires job_state_reconciliation capability")
  | false, None => Ok tt
  end.

(** The record of the registering Runner, before anything of an earlier
    registration of the same instance is carried over. *)
Definition registration_record (body : RunnerRegisterRequest) (access : option RunnerAccess)
  (streaming : option StreamingSessionRegistration) (now : Z) : result RunnerRecord str :=
  check? check_registration_fields body ;;
  let cid := trim (reg_client_id body) in
  let iid := trim (reg_runner_instance_id body) in
  let? accepted_protocol := accept_protocol (reg_protocol_generation body) in
  let? features := try_from_registration (reg_capabilities body) in
  check? check_feature_dependencies features ;;
  check? validate_coding_agent_registration cid (supports features CodingAgentRuns)
           (reg_coding_agent_providers body) (reg_coding_agent_inventory body) ;;
  let? host := normalize_host (reg_host_context body) in
  let policy := normalize_policy (reg_policy body) in
  check? match policy ≫= mcp_gateway_providers with
         | Some providers =>
             map_err (fun e => lit "invalid MCP gateway provider inventory: " ++ e) (validate_providers providers)
         | None => Ok tt
         end ;;
  check? check_job_inventory cid features (reg_job_inventory body) ;;
  Ok (mkRunner cid iid (trim_string (reg_display_name body)) (trim_string (reg_owner body))
        (trim_string (reg_hostname body)) host features [] (pending_inventory_state 0) now accepted_protocol
        (unwrap_or Polling (ses_transport <$> streaming)) policy (access ≫= group) now now
        (ses_connection_id <$> streaming) None (reg_process_started_at body) (reg_build body)
        (reg_job_concurrency_limit body) (unwrap_or [] (reg_coding_agent_providers body))
        (unwrap_or [] (reg_coding_agent_inventory body)) []).
End Checks.

(** ** Checks under the lock *)

Definition in_shared_key_group (g : str) (r : RunnerRecord) : bool :=
  match r_auth_group r with
  | Some (SharedKey existing) => existing ==? g
  | _ => false
  end.

Definition count_runners (p : RunnerRecord -> bool) (inner : RunnerRegistryInner) : nat :=
  size (filter (fun kv => p kv.2 = true) (runners inner)).

(** The limits on Runners admitted by a shared key, for a client id that is new. *)
Definition check_shared_key_limits (limits : SharedKeyRegistrationLimits) (inner : RunnerRegistryInner)
  (record : RunnerRecord) : result unit str :=
  match r_auth_group record, runners inner !! r_client_id record with
  | Some (SharedKey g), None =>
      bail? Nat.leb (per_group limits) (count_runners (in_shared_key_group g) inner)
        with lit "shared-key runner group limit reached (maximum " ++ fmt_nat (per_group limits) ++ lit " runners)" ;;
      bail? Nat.leb (global limits) (count_runners (fun r => is_shared_key (r_auth_group r)) inner)
        with lit "shared-key runner global limit reached (maximum " ++ fmt_nat (global limits) ++ lit " runners)" ;;
      Ok tt
  | _, _ => Ok tt
  end.

Definition reject_same_instance_feature_downgrade (existing : option RunnerRecord) (iid : str)
  (incoming : RunnerFeatureSet) (feature : RunnerFeature) : result unit str :=
  bail? is_some_and (fun e => (r_runner_instance_id e ==? iid) && supports (r_runner_features e) feature
                              && negb (supports incoming feature)) existing
    with lit "same runner instance cannot downgrade " ++ as_wire_name feature ++ lit " capability" ;;
  Ok tt.

(** The features an instance keeps for its lifetime, in the order they are checked. *)
Definition FIXED_FEATURES : list RunnerFeature :=
  [JobStateReconciliation; CodingAgentRuns; StructuredCargoTestExecutionPolicy; StructuredScriptJavascript;
   StructuredScriptTypescript; NativeToolPlugins].

Fixpoint reject_downgrades (existing : option RunnerRecord) (iid : str) (incoming : RunnerFeatureSet)
  (features : list RunnerFeature) : result unit str :=
  match features with
  | [] => Ok tt
  | f :: rest =>
      check? reject_same_instance_feature_downgrade existing iid incoming f ;;
      reject_downgrades existing iid incoming rest
  end.

Definition is_retired (inner : RunnerRegistryInner) (cid iid : str) : bool :=
  is_some_and (one_of iid) (retired_instances inner !! cid).

Definition check_claim (limits : SharedKeyRegistrationLimits) (inner : RunnerRegistryInner) (record : RunnerRecord)
  (inventory : option ShellJobInventory) : result unit str :=
  let cid := r_client_id record in
  let iid := r_runner_instance_id record in
  let existing := runners inner !! cid in
  bail? is_some_and (fun e => r_auth_group e !=? r_auth_group record) existing
    with lit "runner identity is unavailable" ;;
  check? check_shared_key_limits limits inner record ;;
  bail? is_retired inner cid iid
    with lit "runner " ++ cid ++ lit " instance was replaced and cannot reclaim the lease" ;;
  check? reject_downgrades existing iid (r_runner_features record) FIXED_FEATURES ;;
  bail? is_some_and (fun e => (r_runner_instance_id e ==? iid)
                              && (r_coding_agent_providers e !=? r_coding_agent_providers record)) existing
    with lit "same runner instance cannot change ACP coding-agent provider inventory" ;;
  match inventory with
  | Some inventory => preflight_inventory_locked inner cid iid inventory
  | None => Ok tt
  end.

(** ** The commit *)

Definition REPLACED_WAITER_MESSAGE : str :=
  lit "runner instance was replaced before the request completed; the request was not handed to the replacement instance".

(** The id of the instance the registration replaces. *)
Definition replaced_instance (inner : RunnerRegistryInner) (record : RunnerRecord) : option str :=
  existing ← runners inner !! r_client_id record;
  if r_runner_instance_id existing !=? r_runner_instance_id record then Some (r_runner_instance_id existing) else None.

Definition retire_instance (inner : RunnerRegistryInner) (cid iid : str) : RunnerRegistryInner :=
  let retired := unwrap_or [] (retired_instances inner !! cid) in
  let retired := if one_of iid retired then retired
                 else keep_last MAX_RETIRED_INSTANCES_PER_RUNNER (retired ++ [iid]) in
  inner <| retired_instances := <[ cid := retired ]> (retired_instances inner) |>.

(** What a transport reconnect of the same instance keeps. *)
Definition carry_over (existing : option RunnerRecord) (record : RunnerRecord) (now : Z) : RunnerRecord :=
  match existing with
  | Some e =>
      if r_runner_instance_id e ==? r_runner_instance_id record
      then prune_projected_structured_terminal_suppressions
             (record <| r_registered_at := r_registered_at e |> <| r_suppressions := r_suppressions e |>) now
             <| r_projects := r_projects e |>
             <| r_project_inventory :=
                  preserve_authoritative_pending (r_project_inventory e) (length (r_projects e)) |>
      else record
  | None => record
  end.

Definition install_lease (inner : RunnerRegistryInner) (record : RunnerRecord)
  (streaming : option StreamingSessionRegistration) : RunnerRegistryInner :=
  let cid := r_client_id record in
  let notifiers' := delete cid (notifiers inner) in
  inner <| runners := <[ cid := record ]> (runners inner) |>
        <| notifiers := match streaming with
                        | Some s => <[ cid := mkNotifier (r_runner_instance_id record) (Some (ses_connection_id s)) ]> notifiers'
                        | None => notifiers'
                        end |>.

Section Register.
Context `{HashIteration}.
(** The length of a Job inventory's JSON, the recovery grace period, the registry's
    limits and its observation epoch. *)
Context (serialized_len : ShellJobInventory -> result Z str) (grace : Z)
  (limits : SharedKeyRegistrationLimits) (epoch : str).

(** The Jobs and waiters of a replaced instance are settled and it is retired. *)
Definition retire_replaced (inner : RunnerRegistryInner) (record : RunnerRecord)
  (inventory : option ShellJobInventory) (now : Z) : RunnerRegistryInner * list WaiterResponse :=
  let cid := r_client_id record in
  match replaced_instance inner record with
  | None => (inner, [])
  | Some old =>
      let inner := terminate_instance_jobs_locked inner cid old inventory now in
      let '(inner, sent) := resolve_disconnected_sync_requests_locked inner cid REPLACED_WAITER_MESSAGE in
      (retire_instance inner cid old, sent)
  end.

Definition reconcile_reported (inner : RunnerRegistryInner) (cid iid : str) (inventory : option ShellJobInventory)
  (now : Z) : option RunnerRegistryInner :=
  match inventory with
  | None => Some inner
  | Some inventory =>
      fst <$> reconcile_inventory_locked grace inner cid iid (runners inner !! cid ≫= r_auth_group) epoch inventory now
  end.

(** The session whose transport lease is taken over is cancelled last. *)
Definition commit_registration (inner : RunnerRegistryInner) (record : RunnerRecord)
  (streaming : option StreamingSessionRegistration) (inventory : option ShellJobInventory) (now : Z)
  : option (RunnerRegistryInner * list WaiterResponse * option NotifierEntry) :=
  let cid := r_client_id record in
  let cancelled := notifiers inner !! cid in
  let '(inner, sent) := retire_replaced inner record inventory now in
  let record := carry_over (runners inner !! cid) record now in
  inner ← reconcile_reported (install_lease inner record streaming) cid (r_runner_instance_id record) inventory now;
  Some (inner, sent, cancelled).

Definition register_session (reg : RunnerRegistry) (body : RunnerRegisterRequest) (access : option RunnerAccess)
  (streaming : option StreamingSessionRegistration) (now : Z)
  : option (RunnerRegistry * list WaiterResponse * option NotifierEntry * result RunnerRecord str) :=
  match registration_record serialized_len body access streaming now with
  | Err err => Some (reg, [], None, Err err)
  | Ok record =>
      let '(reg, sent0) := prune_expired_shared_key_runners_locked (offline_ttl_secs limits) reg now in
      match check_claim limits (reg_inner reg) record (reg_job_inventory body) with
      | Err err => Some (reg, sent0, None, Err err)
      | Ok _ =>
          committed ← commit_registration (reg_inner reg) record streaming (reg_job_inventory body) now;
          let '(inner, sent, cancelled) := committed in
          installed ← runners inner !! r_client_id record;
          Some (reg <| reg_inner := inner |>, sent0 ++ sent, cancelled, Ok installed)
      end
  end.

(** Streaming registration, which the polling transport may not use. *)
Definition register_streaming_session (reg : RunnerRegistry) (body : RunnerRegisterRequest)
  (access : option RunnerAccess) (connection_id : str) (transport : RunnerTransport) (now : Z)
  : option (RunnerRegistry * list WaiterResponse * option NotifierEntry * result RunnerRecord str) :=
  match (check? validate_id connection_id (lit "connection_id") ;;
         bail? transport ==? Polling with lit "streaming Runner transport is unsupported" ;; Ok tt) with
  | Err err => Some (reg, [], None, Err err)
  | Ok _ => register_session reg body access (Some (mkStreaming connection_id transport)) now
  end.
End Register.

(** ** Keepalives and runtime metadata *)

Definition check_connection (r : RunnerRecord) (cid : str) (connection : option str) : result RunnerRecord str :=
  bail? is_some connection && (r_connection_id r !=? connection)
    with lit "runner " ++ cid ++ lit " transport connection is no longer active" ;;
  Ok r.

Definition touch_runner_for_connection (inner : RunnerRegistryInner) (cid iid connection : str) (now : Z)
  : RunnerRegistryInner * result unit str :=
  match (check? validate_runner_instance_id iid ;;
         let? r := with_active_runner inner cid iid in check_connection r cid (Some connection)) with
  | Err err => (inner, Err err)
  | Ok _ => (update_runner_record inner cid (fun r => r <| r_last_seen := now |>), Ok tt)
  end.

Definition update_policy_metadata (tools : option ToolProvidersStatus) (providers : option (list McpGatewayProvider))
  (p : RunnerPolicySummary) : RunnerPolicySummary :=
  mkPolicy (allow_raw_shell p) (allow_cwd_anywhere p) (allowed_roots p) (max_timeout_secs p) (max_output_bytes p)
    (shell_profiles p) (if is_some tools then tools else tool_providers p)
    (if is_some providers then providers else mcp_gateway_providers p).

Definition update_runtime_metadata_checked (inner : RunnerRegistryInner) (cid iid : str) (connection : option str)
  (tools : option ToolProvidersStatus) (providers : option (list McpGatewayProvider)) (now : Z)
  : RunnerRegistryInner * result unit str :=
  let tools := normalize_tool_providers tools in
  match match providers with
        | Some l => map_err (fun e => lit "invalid MCP gateway provider inventory: " ++ e) (validate_providers l)
        | None => Ok tt
        end with
  | Err err => (inner, Err err)
  | Ok _ =>
      if is_none tools && is_none providers then (inner, Ok tt)
      else match (check? validate_runner_instance_id iid ;;
                  let? r := with_active_runner inner cid iid in check_connection r cid connection) with
           | Err err => (inner, Err err)
           | Ok _ =>
               (update_runner_record inner cid (fun r =>
                  r <| r_policy := update_policy_metadata tools providers <$> r_policy r |> <| r_last_seen := now |>),
                Ok tt)
           end
  end.

(** ** Requests of synchronous callers

    What a caller adds to the request it enqueued, under the same lock: the fences
    that are revalidated when the request is handed out, and the waiter of a
    typed answer. *)
Inductive Attachment : Type :=
| AttachNothing
| AttachPersistent
| AttachMcp
| AttachPlugin (fence : PluginGatewayDispatchFence)
| AttachCodingAgent (fence : CodingAgentDispatchFence).

Definition attach_request (inner : RunnerRegistryInner) (rid : str) (fences : DispatchFences) (a : Attachment)
  : RunnerRegistryInner :=
  let inner := inner <| pending_by_id := alter (fun p => p <| p_fences := fences |>) rid (pending_by_id inner) |> in
  match a with
  | AttachNothing => inner
  | AttachPersistent => inner <| persistent_waiters := {[ rid ]} ∪ persistent_waiters inner |>
  | AttachMcp => inner <| mcp_gateway_waiters := {[ rid ]} ∪ mcp_gateway_waiters inner |>
  | AttachPlugin fence =>
      inner <| plugin_gateway_fences := <[ rid := fence ]> (plugin_gateway_fences inner) |>
            <| plugin_gateway_waiters := {[ rid ]} ∪ plugin_gateway_waiters inner |>
  | AttachCodingAgent fence =>
      inner <| coding_agent_fences := <[ rid := fence ]> (coding_agent_fences inner) |>
            <| coding_agent_waiters := {[ rid ]} ∪ coding_agent_waiters inner |>
  end.

Definition forget_waiters (inner : RunnerRegistryInner) (rid : str) : RunnerRegistryInner :=
  inner <| persistent_waiters := persistent_waiters inner ∖ {[ rid ]} |>
        <| mcp_gateway_waiters := mcp_gateway_waiters inner ∖ {[ rid ]} |>
        <| plugin_gateway_waiters := plugin_gateway_waiters inner ∖ {[ rid ]} |>
        <| plugin_gateway_fences := delete rid (plugin_gateway_fences inner) |>
        <| coding_agent_waiters := coding_agent_waiters inner ∖ {[ rid ]} |>
        <| coding_agent_fences := delete rid (coding_agent_fences inner) |>.

(** Whether the cancelled request had been dispatched, if it was still pending. *)
Definition cancel_request_dispatch_state (inner : RunnerRegistryInner) (rid : str)
  : RunnerRegistryInner * option bool :=
  let inner := forget_waiters inner rid in
  (remove_pending_request_locked inner rid, p_dispatched <$> pending_by_id inner !! rid).

(** [closed], [mcp_closed], ... say of which requests the receiving end of the
    waiter of that kind is gone. *)
Definition is_abandoned (closed mcp_closed plugin_closed coding_closed : str -> bool) (inner : RunnerRegistryInner)
  (rid : str) (p : PendingShellRequest) : bool :=
  let id := req_request_id (p_request p) in
  is_none (p_job_id p)
  && ((p_has_waiter p && closed rid)
      || (bool_decide (id ∈ mcp_gateway_waiters inner) && mcp_closed id)
      || (bool_decide (id ∈ plugin_gateway_waiters inner) && plugin_closed id)
      || (bool_decide (id ∈ coding_agent_waiters inner) && coding_closed id)).

Section Sweeps.
Context `{HashIteration}.

Definition cancel_abandoned_sync_requests (closed mcp_closed plugin_closed coding_closed : str -> bool)
  (inner : RunnerRegistryInner) : RunnerRegistryInner * nat :=
  let abandoned := map fst (List.filter (fun e => is_abandoned closed mcp_closed plugin_closed coding_closed inner
                                                   (fst e) (snd e)) (hash_iter (pending_by_id inner))) in
  (fold_left (fun inner rid => remove_pending_request_locked (forget_waiters inner rid) rid) abandoned inner,
   length abandoned).

(** ** The fence of a project that is being unregistered *)

Definition begin_project_unregister (grace : Z) (inner : RunnerRegistryInner) (access : option RunnerAccess)
  (project : str) (now : Z) : RunnerRegistryInner * nat :=
  let inner := fold_left (fun inner id => refresh_job_status_locked grace inner id now)
                 (map fst (hash_iter (jobs_by_id inner))) inner in
  let active := length (List.filter (fun e => job_visible_to_access access (snd e) now
                                              && (project_id (snd e) ==? Some project)
                                              && is_active (lifecycle (snd e))) (hash_iter (jobs_by_id inner))) in
  (if Nat.eqb active 0
   then inner <| unregistering_projects :=
                   <[ project := (unwrap_or 0 (unregistering_projects inner !! project) + 1)%Z ]>
                     (unregistering_projects inner) |>
   else inner, active).

Definition end_project_unregister (inner : RunnerRegistryInner) (project : str) : RunnerRegistryInner :=
  match unregistering_projects inner !! project with
  | None => inner
  | Some count =>
      inner <| unregistering_projects :=
                 if Z.eqb (count - 1) 0 then delete project (unregistering_projects inner)
                 else <[ project := (count - 1)%Z ]> (unregistering_projects inner) |>
  end.

End Sweeps.
