(* ===== verification/ReconcileFacts.v ===== *)
(** * ReconcileFacts: what reconciliation, deadlines and disconnection guarantee

    Pointwise descriptions of the registry's loops over its hash maps, and from
    them the theorems of Reconcile.v. *)
From S2P Require Import Prelude RustStr Lifecycle JobLog Capabilities RegistryState JobState InventoryCheck Reconcile Samples.

(** ** Hash-map loops, pointwise *)

Section HashLoops.
Context `{HashIteration}.

Definition keys_where {A : Type} (p : str * A -> bool) (m : gmap str A) : list str :=
  map fst (List.filter p (hash_iter m)).

Lemma elem_of_keys_where {A : Type} (p : str * A -> bool) (m : gmap str A) (k : str) :
  k ∈ keys_where p m <-> exists v, m !! k = Some v /\ p (k, v) = true.
Proof.
  unfold keys_where. rewrite list_elem_of_In, in_map_iff. split.
  - intros ([k' v] & <- & Hin). apply filter_In in Hin as [Hin Hp].
    apply list_elem_of_In, elem_of_hash_iter in Hin. by exists v.
  - intros (v & Hl & Hp). exists (k, v). split; [done | ]. apply filter_In. split; [ | done].
    by apply list_elem_of_In, elem_of_hash_iter.
Qed.

Lemma NoDup_hash_keys {A : Type} (m : gmap str A) : NoDup (map fst (hash_iter m)).
Proof.
  eapply NoDup_ListNoDup, Permutation_NoDup; [ | apply NoDup_ListNoDup, (NoDup_fst_map_to_list m)].
  symmetry. apply Permutation_map, hash_iter_perm.
Qed.

Lemma NoDup_map_filter {A B : Type} (f : A -> B) (p : A -> bool) (l : list A) :
  NoDup (map f l) -> NoDup (map f (List.filter p l)).
Proof.
  induction l as [|x l IH]; cbn; [done | ]. intros [Hx Hl]%NoDup_cons.
  destruct (p x); cbn; [ | auto]. apply NoDup_cons. split; [ | auto]. intros Hin. apply Hx.
  apply list_elem_of_In, in_map_iff in Hin as (y & Hy & Hin). apply filter_In in Hin as [Hin _].
  apply list_elem_of_In, in_map_iff. by exists y.
Qed.

Lemma NoDup_keys_where {A : Type} (p : str * A -> bool) (m : gmap str A) : NoDup (keys_where p m).
Proof. apply NoDup_map_filter, NoDup_hash_keys. Qed.

(** A loop that rewrites the record of each listed key once. *)
Lemma fold_alter_lookup {E : Type} (g : RunnerRegistryInner -> E -> RunnerRegistryInner)
  (key : E -> str) (f : ShellJobRecord -> ShellJobRecord) (l : list E) (i : RunnerRegistryInner) (k : str) :
  (forall acc e, jobs_by_id (g acc e) = alter f (key e) (jobs_by_id acc)) -> NoDup (map key l) ->
  jobs_by_id (fold_left g l i) !! k
  = if decide (k ∈ map key l) then f <$> jobs_by_id i !! k else jobs_by_id i !! k.
Proof.
  intros Hg. revert i. induction l as [|e l IH]; intros i Hnd; cbn [fold_left map].
  - destruct (decide _) as [Hin|]; [by apply not_elem_of_nil in Hin | done].
  - apply NoDup_cons in Hnd as [Hne Hnd]. rewrite IH, Hg by done.
    destruct (decide (k ∈ map key l)) as [Hk|Hk].
    + rewrite decide_True by (by right). assert (key e <> k) by (intros <-; done).
      by rewrite lookup_alter_ne.
    + destruct (decide (k = key e)) as [->|Hke].
      * rewrite decide_True by (by left). by rewrite lookup_alter_eq.
      * rewrite decide_False, lookup_alter_ne by (try done; intros [?|?]%elem_of_cons; done). done.
Qed.

Lemma remove_all_lookup (ids : list str) (i : RunnerRegistryInner) (k : str) :
  jobs_by_id (remove_all_jobs i ids) !! k = if decide (k ∈ ids) then None else jobs_by_id i !! k.
Proof.
  unfold remove_all_jobs. revert i. induction ids as [|x ids IH]; intros i; cbn [fold_left].
  - by rewrite decide_False by apply not_elem_of_nil.
  - rewrite IH. cbn. destruct (decide (k ∈ ids)) as [Hk|Hk].
    + by rewrite decide_True by (by right).
    + destruct (decide (k = x)) as [->|Hx].
      * by rewrite decide_True, lookup_delete_eq by (by left).
      * rewrite decide_False, lookup_delete_ne by (try done; intros [?|?]%elem_of_cons; done). done.
Qed.

Lemma remove_cleanup_lookup (i : RunnerRegistryInner) (k : str) :
  jobs_by_id (remove_cleanup_terminal_jobs_locked i) !! k
  = opt_filter (fun j => negb (removable j)) (jobs_by_id i !! k).
Proof.
  unfold remove_cleanup_terminal_jobs_locked. rewrite remove_all_lookup.
  fold (keys_where (fun e => removable (snd e)) (jobs_by_id i)).
  destruct (decide _) as [Hin|Hin].
  - apply elem_of_keys_where in Hin as (v & -> & Hv). cbn in *. by rewrite Hv.
  - destruct (jobs_by_id i !! k) as [v|] eqn:E; [ | done]. cbn.
    destruct (removable v) eqn:Ev; [ | done]. exfalso. apply Hin, elem_of_keys_where. by exists v.
Qed.

Lemma drop_mappings_jobs (i : RunnerRegistryInner) (l : list (str * ShellJobRecord)) :
  jobs_by_id (drop_mappings i l) = jobs_by_id i.
Proof. apply fold_jobs_same. intros. apply remove_mapping_jobs. Qed.

Lemma drop_control_jobs (i : RunnerRegistryInner) (l : list (str * ShellJobRecord)) :
  jobs_by_id (drop_control_requests i l) = jobs_by_id i.
Proof. apply fold_jobs_same. intros. apply remove_control_jobs. Qed.

Lemma lose_and_unmap_lookup (i : RunnerRegistryInner) (cid : str) (l : list (str * ShellJobRecord)) (now : Z)
  (reason : JobRecoveryReason) (message : str) (k : str) :
  NoDup (map fst l) ->
  jobs_by_id (lose_and_unmap i cid l now reason message) !! k
  = if decide (k ∈ map fst l) then (fun j => mark_job_lost j now reason message) <$> jobs_by_id i !! k
    else jobs_by_id i !! k.
Proof.
  intros Hnd. unfold lose_and_unmap. rewrite remove_control_jobs. apply fold_alter_lookup; [ | done].
  intros acc e. by rewrite remove_mapping_jobs.
Qed.

(** ** The recovery deadline *)

Section Deadline.
Context (grace now : Z) (filter : option str).

Definition due (i : RunnerRegistryInner) : list str :=
  keys_where (fun e => recovery_expired grace filter now (snd e)) (jobs_by_id i).

Lemma expired_is_take (cap : nat) (i : RunnerRegistryInner) :
  map fst (expired_jobs grace filter now cap i) = take cap (due i).
Proof. unfold expired_jobs, due, keys_where. by rewrite !fmap_take. Qed.

Definition lose_expired (job : ShellJobRecord) : ShellJobRecord :=
  if recovery_active job then mark_job_lost job now RunnerRecoveryDeadlineExceeded DEADLINE_MESSAGE else job.

Lemma expire_lookup (i : RunnerRegistryInner) (cap : nat) (k : str) :
  jobs_by_id (expire_recovering_jobs_locked grace i filter now cap).1 !! k
  = if decide (take cap (due i) = []) then jobs_by_id i !! k
    else opt_filter (fun j => negb (removable j))
           (if decide (k ∈ take cap (due i)) then lose_expired <$> jobs_by_id i !! k
            else jobs_by_id i !! k).
Proof.
  unfold expire_recovering_jobs_locked. rewrite <- expired_is_take.
  destruct (expired_jobs grace filter now cap i) as [|e l] eqn:E; cbn [is_empty map].
  - by rewrite decide_True.
  - rewrite decide_False by done. cbn [fst]. rewrite remove_cleanup_lookup, drop_control_jobs, drop_mappings_jobs.
    f_equal. change (fst e :: map fst l) with (map fst (e :: l)).
    apply (fold_alter_lookup _ fst lose_expired); [done | ].
    rewrite <- E, expired_is_take. apply NoDup_take, NoDup_keys_where.
Qed.

Lemma lose_expired_is_lost (j : ShellJobRecord) :
  recovery_active j = true -> lifecycle (lose_expired j) = Lost.
Proof.
  intros Ha. unfold lose_expired. rewrite Ha. by apply mark_lost_is_lost, recovery_active_nonterminal.
Qed.

Lemma expired_active (j : ShellJobRecord) :
  recovery_expired grace filter now j = true -> recovery_active j = true /\ removable j = false.
Proof.
  unfold recovery_expired, removable. intros H1. split_andb. split; [done | ].
  by rewrite recovery_active_nonterminal, andb_false_r.
Qed.

Lemma due_lookup (i : RunnerRegistryInner) (k : str) :
  k ∈ due i <-> exists j, jobs_by_id i !! k = Some j /\ recovery_expired grace filter now j = true.
Proof. apply elem_of_keys_where. Qed.

Lemma lost_not_expired (j : ShellJobRecord) : lifecycle j = Lost -> recovery_expired grace filter now j = false.
Proof. unfold recovery_expired, recovery_active. by intros ->. Qed.

(** One pass leaves due exactly the Jobs it did not select. *)
Lemma due_after_pass (i : RunnerRegistryInner) (cap : nat) :
  due (expire_recovering_jobs_locked grace i filter now cap).1 ≡ₚ drop cap (due i).
Proof.
  assert (Hnd : NoDup (due i)) by apply NoDup_keys_where.
  pose proof Hnd as Hsplit. rewrite <- (take_drop cap (due i)) in Hsplit.
  apply NoDup_app in Hsplit as (_ & Hdisj & Hdrop).
  apply NoDup_Permutation; [apply NoDup_keys_where | done | ]. intros k.
  assert (Hin : k ∈ due i <-> k ∈ take cap (due i) \/ k ∈ drop cap (due i)).
  { by rewrite <- elem_of_app, take_drop. }
  rewrite due_lookup. rewrite expire_lookup. destruct (decide (take cap (due i) = [])) as [He|He].
  { rewrite <- due_lookup, Hin, He. split; [intros [?%not_elem_of_nil|?]; done | by right]. }
  destruct (decide (k ∈ take cap (due i))) as [Hk|Hk].
  - split; [ | intros Hd; exfalso; by apply (Hdisj k)].
    intros (j' & Hj' & Hx). exfalso. apply opt_filter_some in Hj' as [Hj' _].
    apply fmap_Some in Hj' as (j & Hj & ->).
    assert (Hd : k ∈ due i) by (apply Hin; by left). apply due_lookup in Hd as (j0 & Hj0 & Hx0).
    rewrite Hj in Hj0. injection Hj0 as <-. apply expired_active in Hx0 as [Ha _].
    by rewrite lost_not_expired in Hx by (by apply lose_expired_is_lost).
  - split.
    + intros (j & Hj & Hx). apply opt_filter_some in Hj as [Hj _].
      assert (Hd : k ∈ due i) by (apply due_lookup; by exists j). by apply Hin in Hd as [?|?].
    + intros Hd. assert (Hd' : k ∈ due i) by (apply Hin; by right).
      apply due_lookup in Hd' as (j & Hj & Hx). exists j. split; [ | done].
      apply opt_filter_some. split; [done | ]. apply expired_active in Hx as [_ ->]. done.
Qed.

Lemma expire_count (i : RunnerRegistryInner) (cap : nat) :
  (expire_recovering_jobs_locked grace i filter now cap).2 = Nat.min cap (length (due i)).
Proof.
  rewrite <- length_take, <- expired_is_take. unfold expire_recovering_jobs_locked.
  destruct (expired_jobs grace filter now cap i); cbn; by rewrite ?length_map.
Qed.

(** [n] consecutive passes. *)
Definition sweep_passes (cap n : nat) (i : RunnerRegistryInner) : RunnerRegistryInner :=
  Nat.iter n (fun i => (expire_recovering_jobs_locked grace i filter now cap).1) i.

Lemma due_after_passes (i : RunnerRegistryInner) (cap n : nat) :
  length (due (sweep_passes cap n i)) = length (due i) - n * cap.
Proof.
  induction n as [|n IH]; [cbn; lia | ].
  change (sweep_passes cap (S n) i)
    with (expire_recovering_jobs_locked grace (sweep_passes cap n i) filter now cap).1.
  rewrite due_after_pass, length_drop, IH. lia.
Qed.

(** A Job that was due is, after any pass, still due, lost, or a removed
    cleanup record; [v] is its visibility. *)
Definition settled (v : ShellJobVisibility) (o : option ShellJobRecord) : Prop :=
  match o with
  | Some j => visibility j = v /\ (lifecycle j = Lost \/ recovery_expired grace filter now j = true)
  | None => v = CleanupPending
  end.

Lemma settled_filter (v : ShellJobVisibility) (o : option ShellJobRecord) :
  settled v o -> settled v (opt_filter (fun j => negb (removable j)) o).
Proof.
  destruct o as [j|]; cbn; [ | done]. intros [Hv Hs]. destruct (removable j) eqn:E; cbn; [ | done].
  unfold removable in E. split_andb. congruence.
Qed.

Lemma settled_lose (v : ShellJobVisibility) (j : ShellJobRecord) :
  settled v (Some j) -> settled v (Some (lose_expired j)).
Proof.
  intros [Hv Hs]. split.
  - unfold lose_expired. destruct (recovery_active j); [ | done].
    rewrite <- Hv. apply ev_visibility, mark_lost_evolves.
  - left. destruct Hs as [Hl|Hx].
    + unfold lose_expired, recovery_active. by rewrite Hl.
    + by apply lose_expired_is_lost, expired_active.
Qed.

Lemma pass_settled (v : ShellJobVisibility) (i : RunnerRegistryInner) (cap : nat) (k : str) :
  settled v (jobs_by_id i !! k) ->
  settled v (jobs_by_id (expire_recovering_jobs_locked grace i filter now cap).1 !! k).
Proof.
  intros Hs. rewrite expire_lookup. destruct (decide _); [done | ]. apply settled_filter.
  destruct (decide _); [ | done]. destruct (jobs_by_id i !! k); [by apply settled_lose | done].
Qed.

End Deadline.
End HashLoops.

(** The recovery deadline is live: one pass loses at most [cap] due Jobs and
    reports their number, and after enough passes of at most [cap] Jobs each no
    Job is left recovering past its deadline; every Job that was due is then
    lost, or was a hidden record awaiting cleanup and is gone. *)
Lemma recovery_deadline_live `{HashIteration} (grace now : Z) (filter : option str)
  (i : RunnerRegistryInner) (cap n : nat) :
  length (due grace now filter i) <= n * cap ->
  (expire_recovering_jobs_locked grace i filter now cap).2 = Nat.min cap (length (due grace now filter i))
  /\ due grace now filter (sweep_passes grace now filter cap n i) = []
  /\ forall k j, jobs_by_id i !! k = Some j -> recovery_expired grace filter now j = true ->
     match jobs_by_id (sweep_passes grace now filter cap n i) !! k with
     | Some j' => lifecycle j' = Lost
     | None => visibility j = CleanupPending
     end.
Proof.
  intros Hn. split; [apply expire_count | ].
  assert (Hnil : due grace now filter (sweep_passes grace now filter cap n i) = []).
  { apply nil_length_inv. rewrite due_after_passes. lia. }
  split; [done | ]. intros k j Hj Hx.
  assert (Hs : settled grace now filter (visibility j)
                 (jobs_by_id (sweep_passes grace now filter cap n i) !! k)).
  { clear Hn Hnil. induction n as [|n IH]; [cbn; rewrite Hj; split; [done | by right] | by apply pass_settled]. }
  destruct (jobs_by_id (sweep_passes grace now filter cap n i) !! k) as [j'|] eqn:Ej; [ | done].
  destruct Hs as [_ [?|Hx']]; [done | ].
  exfalso. assert (Hin : k ∈ due grace now filter (sweep_passes grace now filter cap n i)).
  { apply due_lookup. by exists j'. }
  rewrite Hnil in Hin. by apply not_elem_of_nil in Hin.
Qed.

Lemma recovery_deadline_live_witness :
  (expire_recovering_jobs_locked 120 recovering_registry None 300 2).2 = 2
  /\ due 120 300 None (sweep_passes 120 300 None 2 2 recovering_registry) = [].
Proof.
  destruct (recovery_deadline_live 120 300 None recovering_registry 2 2) as (Hc & Hd & _).
  - vm_compute. lia.
  - split; [ | exact Hd]. rewrite Hc. vm_compute. reflexivity.
Defined.

(** ** Reconciliation, record by record *)

Lemma validate_snapshot_known cid projects membership s active :
  validate_snapshot cid projects membership s = Ok active -> exists l, from_wire (snap_status s) = Ok l.
Proof.
  intros Hv. destruct (validate_snapshot_ok _ _ _ _ _ Hv) as (l & Hl & _). exists l.
  unfold snapshot_lifecycle in Hl. destruct_and?; done.
Qed.

(** What an accepted inventory gives to the code that applies it. *)
Definition inventory_usable (inventory : ShellJobInventory) : Prop :=
  NoDup (ids_of (inv_jobs inventory))
  /\ Forall (fun s => exists l, from_wire (snap_status s) = Ok l) (inv_jobs inventory).

Section Pointwise.
Context `{HashIteration} (cid iid : str) (group : option RunnerAccessGroup) (epoch : str) (now : Z).

Definition find_snapshot (jobs : list ShellJobSnapshot) (id : str) : option ShellJobSnapshot :=
  List.find (fun s => snap_job_id s ==? id) jobs.

Definition after_outcome (o : option ShellJobRecord) (outcome : SnapshotOutcome) : option ShellJobRecord :=
  match outcome with
  | Skip | Suppress => o
  | Update j | Insert j => Some j
  end.

Definition outcome_on (runner : option RunnerRecord) (snapshot : ShellJobSnapshot) (o : option ShellJobRecord)
  : option SnapshotOutcome :=
  match o with
  | Some existing => reconcile_existing iid now existing snapshot
  | None => reconcile_unknown cid iid group epoch now runner snapshot
  end.

(** The reference: what reconciliation makes of one record. *)
Definition reconcile_record (runner : option RunnerRecord) (snapshot : option ShellJobSnapshot)
  (o : option ShellJobRecord) : option (option ShellJobRecord) :=
  match snapshot with
  | Some s => after_outcome o <$> outcome_on runner s o
  | None => Some ((fun j => if (client_id j ==? cid) && (runner_instance_id j ==? iid)
                               && is_runner_active (lifecycle j)
                            then mark_job_lost j now RunnerInventoryMissing MISSING_MESSAGE else j) <$> o)
  end.

Lemma expect_known (s : ShellJobSnapshot) (l : RunnerJobLifecycle) :
  from_wire (snap_status s) = Ok l -> expect_lifecycle (snap_status s) = Some l.
Proof. unfold expect_lifecycle. by intros ->. Qed.

Lemma outcome_total (runner : option RunnerRecord) (s : ShellJobSnapshot) (o : option ShellJobRecord)
  (l : RunnerJobLifecycle) :
  from_wire (snap_status s) = Ok l -> exists out, outcome_on runner s o = Some out.
Proof.
  intros Hl%expect_known. destruct o as [j|]; cbn.
  - unfold reconcile_existing, apply_snapshot. rewrite Hl.
    repeat (destruct (_ : bool); [eauto | ]). cbn. eauto.
  - unfold reconcile_unknown, record_from_snapshot. rewrite Hl. destruct (_ && _); cbn; eauto.
Qed.

Lemma finish_snapshot_frame (i : RunnerRegistryInner) (s : ShellJobSnapshot) :
  jobs_by_id (finish_snapshot i cid s) = jobs_by_id i /\ runners (finish_snapshot i cid s) = runners i.
Proof. unfold finish_snapshot. by destruct (is_final_job_status _). Qed.

Lemma reconcile_snapshot_step (i : RunnerRegistryInner) (sum : ReconciliationSummary) (s : ShellJobSnapshot)
  (l : RunnerJobLifecycle) :
  from_wire (snap_status s) = Ok l ->
  exists i' sum' out, reconcile_snapshot cid iid group epoch now (i, sum) s = Some (i', sum')
    /\ runners i' = runners i
    /\ outcome_on (runners i !! cid) s (jobs_by_id i !! snap_job_id s) = Some out
    /\ jobs_by_id i' !! snap_job_id s = after_outcome (jobs_by_id i !! snap_job_id s) out
    /\ forall k, k <> snap_job_id s -> jobs_by_id i' !! k = jobs_by_id i !! k.
Proof.
  intros Hl. destruct (outcome_total (runners i !! cid) s (jobs_by_id i !! snap_job_id s) l Hl) as [out Ho].
  unfold reconcile_snapshot, snapshot_outcome. fold (outcome_on (runners i !! cid) s (jobs_by_id i !! snap_job_id s)).
  rewrite Ho. cbn. destruct out as [| |j|j]; eexists _, _, _; (split; [done | ]).
  1, 2: done.
  all: destruct (finish_snapshot_frame (put_job i (snap_job_id s) j) s) as [Hj Hr]; rewrite Hj, Hr; cbn.
  all: split_and!; [done | done | by rewrite lookup_insert_eq | intros k Hk; by rewrite lookup_insert_ne].
Qed.

Lemma reconcile_snapshots_spec (jobs : list ShellJobSnapshot) (i : RunnerRegistryInner)
  (sum : ReconciliationSummary) :
  NoDup (ids_of jobs) -> Forall (fun s => exists l, from_wire (snap_status s) = Ok l) jobs ->
  exists i' sum', reconcile_snapshots cid iid group epoch now jobs (i, sum) = Some (i', sum')
    /\ runners i' = runners i
    /\ forall k, match find_snapshot jobs k with
                 | Some s => after_outcome (jobs_by_id i !! k) <$> outcome_on (runners i !! cid) s (jobs_by_id i !! k)
                             = Some (jobs_by_id i' !! k)
                 | None => jobs_by_id i' !! k = jobs_by_id i !! k
                 end.
Proof.
  revert i sum. induction jobs as [|s jobs IH]; intros i sum Hnd Hl.
  { by exists i, sum. }
  apply Forall_cons in Hl as [[l Hs] Hl]. apply NoDup_cons in Hnd as [Hfresh Hnd].
  destruct (reconcile_snapshot_step i sum s l Hs) as (i1 & sum1 & out & Hstep & Hr1 & Hout & Hat & Hother).
  destruct (IH i1 sum1 Hnd Hl) as (i' & sum' & Hrest & Hr' & Hk).
  exists i', sum'. cbn [reconcile_snapshots]. rewrite Hstep. cbn [mbind option_bind].
  split_and!; [done | congruence | ]. intros k. specialize (Hk k). unfold find_snapshot in *. cbn [List.find].
  destruct (snap_job_id s ==? k) eqn:E.
  - apply beq_true in E as <-.
    destruct (List.find (fun s0 => snap_job_id s0 ==? snap_job_id s) jobs) as [s'|] eqn:Ef.
    + exfalso. apply find_some in Ef as [Hin He]. apply beq_true in He. apply Hfresh.
      rewrite <- He. unfold ids_of. apply list_elem_of_In, in_map_iff. by exists s'.
    + rewrite Hout, Hk, Hat. done.
  - apply beq_false in E. rewrite Hother in Hk by congruence. by rewrite Hr1 in Hk.
Qed.

End Pointwise.

Lemma accepted_usable (serialized_len : ShellJobInventory -> result Z str) (cid : str)
  (projects : list ProjectRef) (membership : bool) (inventory : ShellJobInventory) :
  validate_job_inventory_inner serialized_len cid projects membership inventory = Ok tt ->
  inventory_usable inventory.
Proof.
  intros Ha%accepted_well_formed. destruct Ha as (_ & Hnd & _ & a & t & Hj & Hsa & Hst & _).
  split; [done | ]. rewrite Hj. apply Forall_app_inv.
  - eapply Forall_impl; [exact Hsa | ]. intros s (l & Hl & _). by exists l.
  - eapply Forall_impl; [exact Hst | ]. intros s (l & Hl & _). by exists l.
Qed.

Lemma find_snapshot_none (jobs : list ShellJobSnapshot) (k : str) :
  find_snapshot jobs k = None <-> k ∉ ids_of jobs.
Proof.
  unfold find_snapshot. split.
  - intros Hf Hin. unfold ids_of in Hin. apply list_elem_of_In, in_map_iff in Hin as (s & <- & Hin).
    apply (find_none _ _ Hf) in Hin. by rewrite beq_refl in Hin.
  - intros Hk. destruct (List.find _ jobs) as [s|] eqn:Ef; [ | done]. exfalso. apply Hk.
    apply find_some in Ef as [Hin <-%beq_true]. apply list_elem_of_In, in_map_iff. by exists s.
Qed.

Lemma find_snapshot_some (jobs : list ShellJobSnapshot) (k : str) (s : ShellJobSnapshot) :
  find_snapshot jobs k = Some s -> s ∈ jobs /\ snap_job_id s = k.
Proof. intros [Hin He%beq_true]%find_some. split; [by apply list_elem_of_In | done]. Qed.

Section ReconcileSpec.
Context `{HashIteration}.

(** The state in which the inventory is compared: suppressions pruned and the
    Runner's overdue recoveries lost. *)
Definition reconcile_start (grace : Z) (inner : RunnerRegistryInner) (cid : str) (now : Z)
  : RunnerRegistryInner :=
  (expire_recovering_jobs_locked grace
     (prune_projected_structured_terminal_suppressions_locked inner now) (Some cid) now
     RECOVERY_SWEEP_PASS_CAP).1.

Lemma missing_loop_lookup (i : RunnerRegistryInner) (cid iid : str) (ids : gset str) (now : Z) (k : str) :
  jobs_by_id (lose_and_unmap i cid
    (List.filter (fun e => is_missing cid iid ids (fst e) (snd e)) (hash_iter (jobs_by_id i)))
    now RunnerInventoryMissing MISSING_MESSAGE) !! k
  = (fun j => if is_missing cid iid ids k j
              then mark_job_lost j now RunnerInventoryMissing MISSING_MESSAGE else j) <$> jobs_by_id i !! k.
Proof.
  rewrite lose_and_unmap_lookup by apply NoDup_map_filter, NoDup_hash_keys.
  fold (keys_where (fun e => is_missing cid iid ids (fst e) (snd e)) (jobs_by_id i)).
  destruct (decide _) as [Hin|Hin].
  - apply elem_of_keys_where in Hin as (v & -> & Hv). cbn in *. by rewrite Hv.
  - destruct (jobs_by_id i !! k) as [j|] eqn:Ej; [ | done]. cbn.
    destruct (is_missing cid iid ids k j) eqn:Em; [ | done]. exfalso. apply Hin, elem_of_keys_where.
    by exists j.
Qed.

Lemma lose_and_unmap_runners (i : RunnerRegistryInner) (cid : str) (l : list (str * ShellJobRecord)) (now : Z)
  (reason : JobRecoveryReason) (message : str) :
  runners (lose_and_unmap i cid l now reason message) = runners i.
Proof.
  assert (Hf : forall (E : Type) (g : RunnerRegistryInner -> E -> RunnerRegistryInner) l i,
    (forall i e, runners (g i e) = runners i) -> runners (fold_left g l i) = runners i).
  { intros E g l0. induction l0 as [|x l0 IH]; intros i0 Hg; cbn; [done | ]. by rewrite IH, Hg. }
  unfold lose_and_unmap, remove_job_control_requests. rewrite Hf by done. apply Hf.
  intros i0 e. by destruct (request_id (snd e)).
Qed.

Lemma reconcile_spec (grace : Z) (inner : RunnerRegistryInner) (cid iid : str)
  (group : option RunnerAccessGroup) (epoch : str) (inventory : ShellJobInventory) (now : Z) :
  inventory_usable inventory ->
  let start := reconcile_start grace inner cid now in
  exists inner' summary,
    reconcile_inventory_locked grace inner cid iid group epoch inventory now = Some (inner', summary)
    /\ forall k, opt_filter (fun j => negb (removable j))
                   <$> reconcile_record cid iid group epoch now (runners start !! cid)
                         (find_snapshot (inv_jobs inventory) k) (jobs_by_id start !! k)
                 = Some (jobs_by_id inner' !! k).
Proof.
  intros [Hnd Hl] start. unfold reconcile_inventory_locked. fold (reconcile_start grace inner cid now). fold start.
  set (ids := list_to_set (ids_of (inv_jobs inventory))).
  set (gone := List.filter _ (hash_iter (jobs_by_id start))).
  set (sum := mkSummary _ _ _ _ _ _).
  set (mid := lose_and_unmap start cid gone now RunnerInventoryMissing MISSING_MESSAGE).
  destruct (reconcile_snapshots_spec cid iid group epoch now (inv_jobs inventory) mid sum Hnd Hl)
    as (i' & sum' & -> & _ & Hk). cbn [mbind option_bind].
  exists (remove_cleanup_terminal_jobs_locked i'), sum'. split; [done | ]. intros k. specialize (Hk k).
  assert (Hmid : jobs_by_id mid !! k
    = (fun j => if is_missing cid iid ids k j
                then mark_job_lost j now RunnerInventoryMissing MISSING_MESSAGE else j)
        <$> jobs_by_id start !! k) by apply missing_loop_lookup.
  assert (Hrun : runners mid = runners start) by apply lose_and_unmap_runners.
  rewrite remove_cleanup_lookup. unfold reconcile_record.
  destruct (find_snapshot (inv_jobs inventory) k) as [s|] eqn:Ef.
  - assert (Hin : k ∈ ids).
    { apply elem_of_list_to_set. destruct (decide (k ∈ ids_of (inv_jobs inventory))) as [?|Hn]; [done | ].
      apply find_snapshot_none in Hn. congruence. }
    replace (jobs_by_id start !! k) with (jobs_by_id mid !! k).
    + rewrite <- Hrun, Hk. done.
    + rewrite Hmid. unfold is_missing. rewrite (bool_decide_eq_true_2 _ Hin).
      destruct (jobs_by_id start !! k) as [j|]; [ | done]. cbn. by rewrite andb_false_r.
  - apply find_snapshot_none in Ef. rewrite Hk, Hmid. cbn. do 2 f_equal.
    destruct (jobs_by_id start !! k) as [j|]; [ | done]. cbn. unfold is_missing.
    rewrite bool_decide_eq_false_2 by (unfold ids; by rewrite elem_of_list_to_set).
    by rewrite andb_true_r.
Qed.

End ReconcileSpec.

(** C3: Reconciliation of an accepted inventory returns (its [expect]s cannot
    fail) and acts record by record, whatever the order of the hash maps: each
    record becomes what the reference makes of it and of the snapshot with its id
    alone, and terminal records awaiting cleanup are dropped. *)
Theorem reconcile_refines_record_spec `{HashIteration} (serialized_len : ShellJobInventory -> result Z str)
  (projects : list ProjectRef) (membership : bool) (grace : Z) (inner : RunnerRegistryInner) (cid iid : str)
  (group : option RunnerAccessGroup) (epoch : str) (inventory : ShellJobInventory) (now : Z) :
  validate_job_inventory_inner serialized_len cid projects membership inventory = Ok tt ->
  let start := reconcile_start grace inner cid now in
  exists inner' summary,
    reconcile_inventory_locked grace inner cid iid group epoch inventory now = Some (inner', summary)
    /\ forall k, opt_filter (fun j => negb (removable j))
                   <$> reconcile_record cid iid group epoch now (runners start !! cid)
                         (find_snapshot (inv_jobs inventory) k) (jobs_by_id start !! k)
                 = Some (jobs_by_id inner' !! k).
Proof. intros Hv%accepted_usable. by apply reconcile_spec. Qed.

Definition reconcile_sample (jobs : list ShellJobRecord) : option (RunnerRegistryInner * ReconciliationSummary) :=
  reconcile_inventory_locked 120 (registry_of jobs) (lit "r1") (lit "i1") None (lit "epoch") sample_inventory 300.

Lemma reconcile_refines_record_spec_witness :
  exists inner' summary, reconcile_sample [recovering_job (lit "j9")] = Some (inner', summary)
    /\ updated summary = 0 /\ reconstructed summary = 2
    /\ lifecycle <$> jobs_by_id inner' !! lit "j9" = Some Lost
    /\ lifecycle <$> jobs_by_id inner' !! lit "j1" = Some Running.
Proof.
  destruct (reconcile_refines_record_spec (fun _ => Ok 1000%Z) [] false 120
    (registry_of [recovering_job (lit "j9")]) (lit "r1") (lit "i1") None (lit "epoch") sample_inventory 300
    ltac:(vm_compute; reflexivity)) as (i' & sum & Hr & _).
  exists i', sum. split; [exact Hr | ]. vm_compute in Hr. injection Hr as <- <-. vm_compute. done.
Defined.

(** ** Monotonicity *)

(** The cursors a client may hold on a Job never move back. *)
Definition cursors_le (old new : ShellJobRecord) : Prop :=
  (last_update_seq old <= last_update_seq new)%Z
  /\ progress_completed (validation_progress old) <= progress_completed (validation_progress new)
  /\ (next_line (stdout old) <= next_line (stdout new))%Z
  /\ (next_line (stderr old) <= next_line (stderr new))%Z.

#[export] Instance cursors_le_refl : Reflexive cursors_le.
Proof. intros j. unfold cursors_le. split_and!; lia. Qed.

Lemma mark_lost_cursors (j : ShellJobRecord) (now : Z) (reason : JobRecoveryReason) (message : str) :
  cursors_le j (mark_job_lost j now reason message).
Proof.
  unfold mark_job_lost. destruct (is_terminal (lifecycle j)); [done | ].
  unfold observe_job_terminal. cbn.
  destruct (terminal_observed_at (observation j)); cbn;
    destruct (ended_at j) eqn:Ee, (structured_execution j) eqn:Es; cbn; rewrite ?Ee, ?Es; done.
Qed.

Lemma preflight_all (i : RunnerRegistryInner) (cid iid : str) (jobs : list ShellJobSnapshot)
  (s : ShellJobSnapshot) :
  preflight_jobs i cid iid jobs = Ok tt -> s ∈ jobs -> preflight_snapshot i cid iid s = Ok tt.
Proof.
  induction jobs as [|x jobs IH]; cbn; intros Hp Hin; [by apply not_elem_of_nil in Hin | ].
  destruct (preflight_snapshot i cid iid x) as [[]|] eqn:Ex; [ | done].
  apply elem_of_cons in Hin as [->|Hin]; auto.
Qed.

Lemma apply_snapshot_fields (j j' : ShellJobRecord) (s : ShellJobSnapshot) (now : Z) (reason : JobRecoveryReason) :
  apply_snapshot j s now reason = Some j' ->
  last_update_seq j' = snap_update_seq s
  /\ validation_progress j' = snap_validation_progress s
  /\ next_line (stdout j') = ss_next_line (snap_stdout s)
  /\ next_line (stderr j') = ss_next_line (snap_stderr s)
  /\ expect_lifecycle (snap_status s) = Some (lifecycle j')
  /\ runner_instance_id j' = runner_instance_id j.
Proof.
  unfold apply_snapshot. destruct (expect_lifecycle _) as [l|]; [ | done]. cbn. intros [= <-].
  unfold observe_job_terminal. cbn. destruct (_ && _); done.
Qed.

(** An update the preflight admitted on the Job's own lease moves every cursor
    forward. *)
Lemma admitted_update_cursors (i : RunnerRegistryInner) (cid iid : str) (now : Z) (s : ShellJobSnapshot)
  (j j' : ShellJobRecord) :
  preflight_snapshot i cid iid s = Ok tt -> jobs_by_id i !! snap_job_id s = Some j ->
  runner_instance_id j = iid ->
  reconcile_existing iid now j s = Some (Update j') -> cursors_le j j'.
Proof.
  unfold preflight_snapshot, reconcile_existing. intros Hp Hj <- Hr. rewrite Hj, beq_refl in *.
  cbn [negb andb] in *. step_guards Hp. destruct (is_terminal (lifecycle j)) eqn:Et; [done | ].
  cbn [andb negb] in *. step_guards Hp.
  destruct (Z.ltb (snap_update_seq s) (last_update_seq j)) eqn:Elt; [done | ].
  rewrite andb_true_r in Hr.
  destruct (Z.eqb (snap_update_seq s) (last_update_seq j) && negb (recovery_active j)) eqn:Eeq; [done | ].
  assert (Hw : Z.ltb (last_update_seq j) (snap_update_seq s)
               || (Z.eqb (snap_update_seq s) (last_update_seq j) && recovery_active j) = true).
  { apply Z.ltb_ge in Elt. destruct (Z.eqb_spec (snap_update_seq s) (last_update_seq j)) as [He|He]; cbn in *.
    - apply negb_false_iff in Eeq. rewrite Eeq. apply orb_true_r.
    - replace (Z.ltb (last_update_seq j) (snap_update_seq s)) with true by (symmetry; apply Z.ltb_lt; lia). done. }
  rewrite Hw in Hp. step_guards Hp. apply fmap_Some in Hr as (x & Hx & [= <-]).
  apply apply_snapshot_fields in Hx as (Hseq & Hprog & Hout & Herr & _).
  unfold cursors_le. rewrite Hseq, Hprog, Hout, Herr.
  apply orb_false_iff in Hguard3 as [Ho He]. apply Z.ltb_ge in Ho, He, Elt. apply Nat.ltb_ge in Hguard2.
  by split_and!.
Qed.

Section ReconcileKeeps.
Context `{HashIteration}.

Lemma start_lookup (grace : Z) (inner : RunnerRegistryInner) (cid : str) (now : Z) (k : str)
  (j : ShellJobRecord) :
  jobs_by_id inner !! k = Some j -> visibility j <> CleanupPending ->
  exists j1, jobs_by_id (reconcile_start grace inner cid now) !! k = Some j1
    /\ (j1 = j \/ (is_terminal (lifecycle j1) = true
                   /\ j1 = mark_job_lost j now RunnerRecoveryDeadlineExceeded DEADLINE_MESSAGE)).
Proof.
  intros Hj Hv. unfold reconcile_start. rewrite expire_lookup.
  set (pruned := prune_projected_structured_terminal_suppressions_locked inner now).
  change (jobs_by_id pruned) with (jobs_by_id inner). rewrite Hj.
  assert (Hkeep : forall x, visibility x = visibility j ->
    opt_filter (fun j => negb (removable j)) (Some x) = Some x).
  { intros x Hx. cbn. unfold removable. rewrite Hx. by destruct (visibility j). }
  destruct (decide (take _ _ = [])); [eauto | ]. destruct (decide (k ∈ _)); [ | rewrite Hkeep; eauto].
  cbn [fmap option_fmap option_map]. rewrite Hkeep; unfold lose_expired.
  - destruct (recovery_active j); [ | eauto]. eexists. split; [done | right]. split; [apply mark_lost_lifecycle | done].
  - destruct (recovery_active j); [apply ev_visibility, mark_lost_evolves | done].
Qed.

Lemma apply_snapshot_evolves (j j' : ShellJobRecord) (s : ShellJobSnapshot) (now : Z)
  (reason : JobRecoveryReason) :
  is_terminal (lifecycle j) = false -> apply_snapshot j s now reason = Some j' -> job_evolves j j'.
Proof.
  intros Ht. unfold apply_snapshot. destruct (expect_lifecycle _) as [l|]; [ | done]. cbn. intros [= <-].
  etransitivity; [ | apply observe_notify_evolves].
  unfold observe_job_terminal. cbn. destruct (terminal_observed_at (observation j)) eqn:Eo; cbn.
  - rewrite andb_false_r. split; cbn; try done; intros; congruence.
  - destruct (is_terminal l); cbn; split; cbn; try done; intros; congruence.
Qed.

Lemma reconcile_existing_evolves (iid : str) (now : Z) (j : ShellJobRecord) (s : ShellJobSnapshot)
  (out : SnapshotOutcome) :
  reconcile_existing iid now j s = Some out ->
  exists j', after_outcome (Some j) out = Some j' /\ job_evolves j j'
    /\ (out = Skip \/ (out = Update j' /\ is_terminal (lifecycle j) = false)).
Proof.
  assert (Hskip : exists j', Some j = Some j' /\ job_evolves j j'
            /\ (Skip = Skip \/ (Skip = Update j' /\ is_terminal (lifecycle j) = false))).
  { exists j. split_and!; [done | done | by left]. }
  unfold reconcile_existing. destruct (is_terminal (lifecycle j)) eqn:Et; [by intros [= <-] | ].
  destruct (Z.ltb _ _); [by intros [= <-] | ]. destruct (_ && _ && negb _); [by intros [= <-] | ].
  intros (j' & Hj' & ->)%fmap_Some. exists j'. cbn. split_and!; [done | | by right].
  destruct (_ && _); [ | by eapply apply_snapshot_evolves].
  eapply apply_snapshot_evolves in Hj'; [ | done]. etransitivity; [ | exact Hj'].
  split; cbn; try done; intros; congruence.
Qed.

Lemma evolves_kept (j j' : ShellJobRecord) :
  job_evolves j j' -> visibility j <> CleanupPending ->
  opt_filter (fun j => negb (removable j)) (Some j') = Some j'.
Proof. intros He Hv. cbn. unfold removable. rewrite (ev_visibility _ _ He). by destruct (visibility j). Qed.

Lemma start_evolves (j j1 : ShellJobRecord) (now : Z) :
  (j1 = j \/ (is_terminal (lifecycle j1) = true
              /\ j1 = mark_job_lost j now RunnerRecoveryDeadlineExceeded DEADLINE_MESSAGE)) ->
  job_evolves j j1 /\ cursors_le j j1.
Proof. intros [->|[_ ->]]; [done | ]. split; [apply mark_lost_evolves | apply mark_lost_cursors]. Qed.

Lemma reconcile_keeps_spec (grace : Z) (inner inner' : RunnerRegistryInner) (cid iid : str)
  (group : option RunnerAccessGroup) (epoch : str) (inventory : ShellJobInventory) (now : Z)
  (summary : ReconciliationSummary) (k : str) (j : ShellJobRecord) :
  inventory_usable inventory ->
  reconcile_inventory_locked grace inner cid iid group epoch inventory now = Some (inner', summary) ->
  jobs_by_id inner !! k = Some j -> visibility j <> CleanupPending ->
  exists j', jobs_by_id inner' !! k = Some j' /\ job_evolves j j'
    /\ (preflight_inventory_locked inner cid iid inventory = Ok tt -> runner_instance_id j = iid ->
        cursors_le j j').
Proof.
  intros Hu Hr Hj Hv.
  destruct (reconcile_spec grace inner cid iid group epoch inventory now Hu) as (i2 & sum2 & Hr2 & Hk).
  rewrite Hr in Hr2. injection Hr2 as <- <-. specialize (Hk k).
  destruct (start_lookup grace inner cid now k j Hj Hv) as (j1 & Hj1 & Hrel).
  destruct (start_evolves j j1 now Hrel) as [He Hc]. rewrite Hj1 in Hk. unfold reconcile_record in Hk.
  destruct (find_snapshot (inv_jobs inventory) k) as [s|] eqn:Ef; cbn [outcome_on] in Hk.
  - destruct (reconcile_existing iid now j1 s) as [out|] eqn:Eo; [ | done].
    apply reconcile_existing_evolves in Eo as Ho. destruct Ho as (j' & Ha & He' & Hout). cbn [fmap option_fmap option_map] in Hk.
    assert (Hjj' : job_evolves j j') by (by etransitivity).
    rewrite Ha, (evolves_kept j j') in Hk by done. injection Hk as Hk. exists j'. split_and!; [done | done | ].
    intros Hp Hi. destruct Hout as [->|[-> Hnt]]; [cbn in Ha; by injection Ha as <- | ].
    destruct Hrel as [->|[Ht _]]; [ | congruence]. apply find_snapshot_some in Ef as [Hin Hid].
    eapply admitted_update_cursors; [by eapply preflight_all | by rewrite Hid | done | done].
  - cbn in Hk.
    set (j' := if (client_id j1 ==? cid) && (runner_instance_id j1 ==? iid) && is_runner_active (lifecycle j1)
               then mark_job_lost j1 now RunnerInventoryMissing MISSING_MESSAGE else j1) in Hk.
    assert (He' : job_evolves j1 j' /\ cursors_le j1 j').
    { subst j'. destruct (_ && _); [split; [apply mark_lost_evolves | apply mark_lost_cursors] | done]. }
    destruct He' as [He' Hc']. assert (Hjj' : job_evolves j j') by (by etransitivity).
    pose proof (evolves_kept j j' Hjj' Hv) as Hkeep. cbn in Hkeep. rewrite Hkeep in Hk. injection Hk as Hk.
    exists j'. split_and!; [done | done | ]. intros _ _. unfold cursors_le in *. intuition lia.
Qed.

End ReconcileKeeps.

(** Reconciliation never forgets or revives: every Job the registry holds
    (hidden records awaiting cleanup apart) is still there afterwards with the same
    identity, request and authorisation; a terminal Job keeps its verdict and all
    its fields; and, for a Job of the reporting instance and an inventory that
    passed the preflight, its update sequence, validation progress and absolute
    log lines never move backwards. *)
Lemma reconcile_keeps_jobs `{HashIteration} (serialized_len : ShellJobInventory -> result Z str)
  (projects : list ProjectRef) (membership : bool) (grace : Z) (inner inner' : RunnerRegistryInner)
  (cid iid : str) (group : option RunnerAccessGroup) (epoch : str) (inventory : ShellJobInventory) (now : Z)
  (summary : ReconciliationSummary) (k : str) (j : ShellJobRecord) :
  validate_job_inventory_inner serialized_len cid projects membership inventory = Ok tt ->
  preflight_inventory_locked inner cid iid inventory = Ok tt ->
  reconcile_inventory_locked grace inner cid iid group epoch inventory now = Some (inner', summary) ->
  jobs_by_id inner !! k = Some j -> visibility j <> CleanupPending ->
  exists j', jobs_by_id inner' !! k = Some j' /\ job_evolves j j'
    /\ (runner_instance_id j = iid -> cursors_le j j').
Proof.
  intros Hv%accepted_usable Hp Hr Hj Hc.
  destruct (reconcile_keeps_spec grace inner inner' cid iid group epoch inventory now summary k j Hv Hr Hj Hc)
    as (j' & Hj' & He & Hcur). exists j'. split_and!; [done | done | auto].
Qed.

(** A Job recovering since second 250, reported again as running by its Runner. *)
Definition reported_job : ShellJobRecord :=
  sample_job (lit "j1") Running
    (mkRecovery (Some Recovering) false None (Some RunnerTransportDisconnected) (Some 250%Z))
    <| request_id := Some (lit "r1") |>.

Lemma reconcile_keeps_jobs_witness :
  exists inner' summary j', reconcile_sample [reported_job] = Some (inner', summary)
    /\ jobs_by_id inner' !! lit "j1" = Some j' /\ job_evolves reported_job j' /\ cursors_le reported_job j'.
Proof.
  destruct (reconcile_sample [reported_job]) as [[i' sum]|] eqn:E; [ | vm_compute in E; discriminate].
  destruct (reconcile_keeps_jobs (fun _ => Ok 1000%Z) [] false 120 (registry_of [reported_job]) i' (lit "r1")
    (lit "i1") None (lit "epoch") sample_inventory 300 sum (lit "j1") reported_job) as (j' & Hj & He & Hc).
  1, 2, 4: vm_compute; reflexivity.
  - exact E.
  - discriminate.
  - exists i', sum, j'. split_and!; [done | exact Hj | exact He | apply Hc; reflexivity].
Defined.

(** After reconciliation no Job is running on this Runner instance without
    its Runner saying so: every Runner-active record of the instance is in the
    inventory; the Jobs the complete inventory left out are lost. *)
Lemma reconcile_active_reported `{HashIteration} (serialized_len : ShellJobInventory -> result Z str)
  (projects : list ProjectRef) (membership : bool) (grace : Z) (inner inner' : RunnerRegistryInner)
  (cid iid : str) (group : option RunnerAccessGroup) (epoch : str) (inventory : ShellJobInventory) (now : Z)
  (summary : ReconciliationSummary) (k : str) (j' : ShellJobRecord) :
  validate_job_inventory_inner serialized_len cid projects membership inventory = Ok tt ->
  reconcile_inventory_locked grace inner cid iid group epoch inventory now = Some (inner', summary) ->
  jobs_by_id inner' !! k = Some j' -> client_id j' = cid -> runner_instance_id j' = iid ->
  is_runner_active (lifecycle j') = true ->
  k ∈ ids_of (inv_jobs inventory).
Proof.
  intros Hu%accepted_usable Hr Hj' Hcid Hiid Hact.
  destruct (reconcile_spec grace inner cid iid group epoch inventory now Hu) as (i2 & sum2 & Hr2 & Hk).
  rewrite Hr in Hr2. injection Hr2 as <- <-. specialize (Hk k).
  destruct (decide (k ∈ ids_of (inv_jobs inventory))) as [?|Hn]; [done | exfalso].
  apply find_snapshot_none in Hn. rewrite Hn, Hj' in Hk.
  destruct (jobs_by_id (reconcile_start grace inner cid now) !! k) as [j|]; [ | done].
  cbn [reconcile_record fmap option_fmap option_map] in Hk. apply (inj Some) in Hk.
  apply opt_filter_some in Hk as [[= Hk] _].
  destruct ((client_id j ==? cid) && (runner_instance_id j ==? iid) && is_runner_active (lifecycle j)) eqn:E.
  - rewrite <- Hk in Hact. apply active_not_terminal in Hact. by rewrite mark_lost_lifecycle in Hact.
  - subst j. rewrite Hcid, Hiid, !beq_refl, Hact in E. done.
Qed.

Lemma reconcile_active_reported_witness :
  exists inner' summary, reconcile_sample [reported_job] = Some (inner', summary)
    /\ lit "j1" ∈ ids_of (inv_jobs sample_inventory).
Proof.
  destruct (reconcile_sample [reported_job]) as [[i' sum]|] eqn:E; [ | vm_compute in E; discriminate].
  exists i', sum. split; [done | ].
  destruct (jobs_by_id i' !! lit "j1") as [j'|] eqn:Ej;
    [ | exfalso; vm_compute in E; injection E as <- <-; vm_compute in Ej; discriminate].
  apply (reconcile_active_reported (fun _ => Ok 1000%Z) [] false 120 (registry_of [reported_job]) i' (lit "r1")
    (lit "i1") None (lit "epoch") sample_inventory 300 sum (lit "j1") j').
  - vm_compute. reflexivity.
  - exact E.
  - exact Ej.
  - vm_compute in E. injection E as <- <-. vm_compute in Ej. injection Ej as <-. reflexivity.
  - vm_compute in E. injection E as <- <-. vm_compute in Ej. injection Ej as <-. reflexivity.
  - vm_compute in E. injection E as <- <-. vm_compute in Ej. injection Ej as <-. reflexivity.
Defined.

(** ** The transfer the preflight does not cover *)

(** A detached Job of instance "i0", not recovering, whose log has reached line
    9; the replacement instance "i1" reports it at the same sequence with an
    empty log. *)
Definition detached_metadata : ShellJobStructuredExecutionMetadata :=
  mkStructured RUN_DETACHED None None 0 false None None None.

Definition detached_job : ShellJobRecord :=
  sample_job (lit "j1") Running JobRecoveryState_default
    <| request_id := Some (lit "r1") |> <| runner_instance_id := lit "i0" |>
    <| kind := RUN_DETACHED |> <| structured_execution := Some detached_metadata |>
    <| stdout := mkLog (lit "x") 8 9 true |>.

Definition detached_inventory : ShellJobInventory :=
  mkInventory true
    [mkSnapshot (lit "j1") (lit "r1") (lit "running") 3 90 (Some 91%Z) None None None None None
       (mkContext None None None None None None None (lit "cargo test") [] None (Some detached_metadata))
       empty_stream empty_stream None None].

(** The preflight does not cover the transfer of a detached Job at an equal
    update sequence: there is an inventory that passes validation and preflight
    and whose application moves the Job's absolute log cursor back, from line 9 to
    line 1. *)
Lemma equal_sequence_transfer_regresses :
  validate_job_inventory_inner (fun _ => Ok 1000%Z) (lit "r1") [] false detached_inventory = Ok tt
  /\ preflight_inventory_locked (registry_of [detached_job]) (lit "r1") (lit "i1") detached_inventory = Ok tt
  /\ match reconcile_inventory_locked 120 (registry_of [detached_job]) (lit "r1") (lit "i1") None
             (lit "epoch") detached_inventory 300 with
     | Some (inner', _) =>
         (fun j => next_line (stdout j)) <$> jobs_by_id inner' !! lit "j1" = Some 1%Z
         /\ next_line (stdout detached_job) = 9%Z
     | None => False
     end.
Proof. vm_compute. done. Qed.
