(* ===== verification/DisconnectFacts.v ===== *)
(** * DisconnectFacts: what a transport disconnect leaves behind

    The theorem of [reconcile_disconnect_checked]: no request of the Runner stays
    pending, each synchronous waiter is answered, each Job is recovering or lost. *)
From S2P Require Import Prelude RustStr Lifecycle JobLog Capabilities RegistryState JobState InventoryCheck Reconcile Samples ReconcileFacts.

(** ** Answering the synchronous waiters *)

Section Resolve.
Context (cid err : str).

Definition responses_for (i : RunnerRegistryInner) (rid : str) : list WaiterResponse :=
  match pending_by_id i !! rid with
  | Some p => waiter_responses cid err i rid p
  | None => []
  end.

Lemma resolve_one_spec (i : RunnerRegistryInner) (sent : list WaiterResponse) (rid : str) :
  let st := resolve_one cid err (i, sent) rid in
  st.2 = sent ++ responses_for i rid
  /\ pending_by_id st.1 = delete rid (pending_by_id i)
  /\ (forall k, k <> rid -> responses_for st.1 k = responses_for i k)
  /\ runners st.1 = runners i.
Proof.
  unfold resolve_one, responses_for. destruct (pending_by_id i !! rid) as [p|] eqn:Ep; cbn zeta.
  - split_and!; try done. intros k Hk. cbn. rewrite lookup_delete_ne by done.
    destruct (pending_by_id i !! k) as [q|]; [ | done]. unfold waiter_responses. cbn.
    assert (Hs : forall X : gset str, k ∈ X ∖ {[ rid ]} <-> k ∈ X) by set_solver.
    by rewrite !(decide_ext _ _ _ _ (Hs _)).
  - cbn. split_and!; [by rewrite app_nil_r | by rewrite delete_id | done | done].
Qed.

Lemma resolve_fold (l : list str) (i : RunnerRegistryInner) (sent : list WaiterResponse) :
  NoDup l ->
  let st := fold_left (resolve_one cid err) l (i, sent) in
  st.2 = sent ++ concat (map (responses_for i) l)
  /\ (forall k, pending_by_id st.1 !! k = if decide (k ∈ l) then None else pending_by_id i !! k)
  /\ runners st.1 = runners i.
Proof.
  revert i sent. induction l as [|x l IH]; intros i sent Hnd; cbn [fold_left map concat].
  - split_and!; [by rewrite app_nil_r | | done].
    intros k. by rewrite decide_False by apply not_elem_of_nil.
  - apply NoDup_cons in Hnd as [Hx Hnd]. destruct (resolve_one_spec i sent x) as (Hs & Hp & Hf & Hr).
    destruct (resolve_one cid err (i, sent) x) as [i1 sent1]. cbn [fst snd] in *.
    destruct (IH i1 sent1 Hnd) as (Hs' & Hp' & Hr'). cbn zeta. split_and!.
    + rewrite Hs', Hs, <- app_assoc. do 2 f_equal. f_equal. apply map_ext_in. intros k Hk%list_elem_of_In.
      apply Hf. by intros ->.
    + intros k. rewrite Hp', Hp. destruct (decide (k ∈ l)).
      * by rewrite decide_True by (by right).
      * destruct (decide (k = x)) as [->|Hne].
        -- by rewrite decide_True, lookup_delete_eq by (by left).
        -- rewrite decide_False, lookup_delete_ne by (try done; intros [?|?]%elem_of_cons; done). done.
    + congruence.
Qed.

End Resolve.

(** ** Dropping the Job-backed requests *)

(** The request a Job was created for is Job-backed and of the Job's Runner. *)
Definition requests_typed (i : RunnerRegistryInner) : Prop :=
  forall k j rid p, jobs_by_id i !! k = Some j -> request_id j = Some rid ->
    pending_by_id i !! rid = Some p -> is_some (p_job_id p) = true /\ p_request_client_id p = client_id j.

(** A request that backs a Job of the Runner. *)
Definition backs_job_of (cid : str) (p : PendingShellRequest) : Prop :=
  is_some (p_job_id p) = true /\ p_request_client_id p = cid.

Record sync_kept (cid : str) (i i' : RunnerRegistryInner) : Prop := {
  sk_subset : pending_by_id i' ⊆ pending_by_id i;
  sk_sync : forall k p, pending_by_id i !! k = Some p -> ~ backs_job_of cid p -> pending_by_id i' !! k = Some p;
  sk_mcp : mcp_gateway_waiters i' = mcp_gateway_waiters i;
  sk_plugin : plugin_gateway_waiters i' = plugin_gateway_waiters i;
  sk_agent : coding_agent_waiters i' = coding_agent_waiters i;
  sk_runners : runners i' = runners i
}.

#[export] Instance sync_kept_refl (cid : str) : Reflexive (sync_kept cid).
Proof. by intros i. Qed.

#[export] Instance sync_kept_trans (cid : str) : Transitive (sync_kept cid).
Proof.
  intros a b c [] []. split; try congruence; [by etransitivity | auto].
Qed.

Lemma drop_request_kept (i : RunnerRegistryInner) (cid rid : str) :
  (forall p, pending_by_id i !! rid = Some p -> backs_job_of cid p) ->
  sync_kept cid i (drop_request i cid rid).
Proof.
  intros Ht. split; try done; cbn.
  - apply delete_subseteq.
  - intros k p Hk Hn. rewrite lookup_delete_ne; [done | ]. intros ->. by apply Hn, Ht.
Qed.

Lemma drop_requests_kept (cid : str) (l : list str) (i : RunnerRegistryInner) :
  (forall rid p, rid ∈ l -> pending_by_id i !! rid = Some p -> backs_job_of cid p) ->
  let i' := fold_left (fun acc rid => drop_request acc cid rid) l i in
  sync_kept cid i i' /\ jobs_by_id i' = jobs_by_id i
  /\ forall k, pending_by_id i' !! k = if decide (k ∈ l) then None else pending_by_id i !! k.
Proof.
  revert i. induction l as [|x l IH]; intros i Ht; cbn [fold_left].
  - split_and!; [done | done | ]. intros k. by rewrite decide_False by apply not_elem_of_nil.
  - destruct (IH (drop_request i cid x)) as (Hk & Hj & Hp).
    { intros rid p Hin Hp. apply (Ht rid); [by right | ]. cbn in Hp. by apply lookup_delete_Some in Hp as [_ ?]. }
    cbn zeta. split_and!.
    + etransitivity; [apply (drop_request_kept i cid x) | exact Hk]. intros p. apply Ht. by left.
    + by rewrite Hj.
    + intros k. rewrite Hp. cbn. destruct (decide (k ∈ l)).
      * by rewrite decide_True by (by right).
      * destruct (decide (k = x)) as [->|Hne].
        -- by rewrite decide_True, lookup_delete_eq by (by left).
        -- rewrite decide_False, lookup_delete_ne by (try done; intros [?|?]%elem_of_cons; done). done.
Qed.

Lemma disconnect_job_evolves (recoverable : bool) (now : Z) (j : ShellJobRecord) :
  job_evolves j (disconnect_job recoverable now j).
Proof. unfold disconnect_job. repeat destruct (_ : bool); auto with webcodex. Qed.

Lemma requests_typed_kept (cid : str) (i i' : RunnerRegistryInner) :
  jobs_refine i i' -> sync_kept cid i i' -> requests_typed i -> requests_typed i'.
Proof.
  intros Hr Hs Ht k j' rid p Hj Hrid Hp. destruct (Hr k j' Hj) as (j & Hj0 & He & _).
  rewrite (ev_request_id _ _ He) in Hrid. rewrite (ev_client_id _ _ He). eapply Ht; [done | done | ].
  by eapply lookup_weaken, sk_subset.
Qed.

Lemma disconnect_one_kept (recoverable : bool) (now : Z) (cid : str) (i : RunnerRegistryInner) (k : str) :
  requests_typed i -> (forall j, jobs_by_id i !! k = Some j -> client_id j = cid) ->
  sync_kept cid i (disconnect_one recoverable now cid i k)
  /\ jobs_by_id (disconnect_one recoverable now cid i k)
     = alter (disconnect_job recoverable now) k (jobs_by_id i).
Proof.
  intros Ht Hc. unfold disconnect_one. destruct (jobs_by_id i !! k) as [j|] eqn:Ej; cbn; [ | done].
  destruct (request_id j) as [rid|] eqn:Er; [ | done]. split; [ | done].
  etransitivity; [ | apply drop_request_kept]; [done | ]. cbn. intros p Hp.
  destruct (Ht k j rid p) as [Hs Hpc]; try done. split; [done | ]. by rewrite Hpc, Hc.
Qed.

Lemma disconnect_job_inv (recoverable : bool) (now : Z) (j : ShellJobRecord) :
  job_inv j -> job_inv (disconnect_job recoverable now j).
Proof. unfold disconnect_job. intros. repeat destruct (_ : bool); auto with webcodex. Qed.

Lemma disconnect_one_refine (recoverable : bool) (now : Z) (cid : str) (i : RunnerRegistryInner) (k : str) :
  jobs_refine i (disconnect_one recoverable now cid i k).
Proof.
  unfold disconnect_one. set (i1 := update_job_record i k _).
  assert (H1 : jobs_refine i i1).
  { apply update_job_refine; [apply disconnect_job_evolves | apply disconnect_job_inv]. }
  by destruct (jobs_by_id i !! k ≫= request_id).
Qed.

Lemma disconnect_fold_kept (recoverable : bool) (now : Z) (cid : str) (l : list str) (i : RunnerRegistryInner) :
  requests_typed i -> (forall k j, k ∈ l -> jobs_by_id i !! k = Some j -> client_id j = cid) ->
  let i' := fold_left (disconnect_one recoverable now cid) l i in
  sync_kept cid i i' /\ requests_typed i'.
Proof.
  revert i. induction l as [|x l IH]; intros i Ht Hl; cbn [fold_left]; [done | ].
  destruct (disconnect_one_kept recoverable now cid i x Ht) as [Hk _]; [intros j; apply Hl; by left | ].
  destruct (IH (disconnect_one recoverable now cid i x)) as [Hk' Ht'].
  - eapply requests_typed_kept; [apply disconnect_one_refine | done | done].
  - intros k j' Hin Hj'. destruct (disconnect_one_refine recoverable now cid i x k j' Hj') as (j & Hj & He & _).
    rewrite (ev_client_id _ _ He). apply (Hl k); [by right | done].
  - split; [by etransitivity | done].
Qed.

Lemma disconnect_fold_jobs (recoverable : bool) (now : Z) (cid : str) (l : list str) (i : RunnerRegistryInner)
  (k : str) :
  NoDup l ->
  jobs_by_id (fold_left (disconnect_one recoverable now cid) l i) !! k
  = if decide (k ∈ l) then disconnect_job recoverable now <$> jobs_by_id i !! k else jobs_by_id i !! k.
Proof.
  intros Hnd. rewrite <- (map_id l) in Hnd.
  rewrite (fold_alter_lookup _ id (disconnect_job recoverable now)), map_id; [done | | done].
  intros acc e. unfold disconnect_one. by destruct (jobs_by_id acc !! e ≫= request_id).
Qed.

(** ** The disconnect *)

Section Disconnect.
Context `{HashIteration}.

(** The registry after the lease is marked offline, the Jobs are settled and the
    Job-backed requests dropped. *)
Definition offline_lease (inner : RunnerRegistryInner) (cid iid : str) (connection : option str) (now : Z)
  : RunnerRegistryInner :=
  update_runner_record
    (if is_some_and (fun n => (n_runner_instance_id n ==? iid)
                              && connection_matches connection (n_connection_id n)) (notifiers inner !! cid)
     then inner <| notifiers := delete cid (notifiers inner) |> else inner)
    cid (fun r => r <| r_last_seen := offline_last_seen now |> <| r_disconnected_at := Some now |>).

Definition settled_jobs (recoverable : bool) (now : Z) (cid : str) (i : RunnerRegistryInner)
  : RunnerRegistryInner :=
  fold_left (disconnect_one recoverable now cid)
    (keys_where (fun e => disconnect_affects cid (snd e)) (jobs_by_id i)) i.

Definition without_job_requests (cid : str) (i : RunnerRegistryInner) : RunnerRegistryInner :=
  fold_left (fun acc rid => drop_request acc cid rid) (job_requests_of i cid) i.

Lemma disconnect_unfold (inner : RunnerRegistryInner) (cid iid : str) (connection : option str)
  (transport : option RunnerTransport) (now : Z) :
  lease_is_active inner cid iid connection transport = true ->
  reconcile_disconnect_checked inner cid iid connection transport now
  = (resolve_disconnected_sync_requests_locked
       (without_job_requests cid
          (settled_jobs (runner_reconciles inner cid) now cid (offline_lease inner cid iid connection now)))
       cid DISCONNECTED_MESSAGE, true).
Proof.
  intros Hl. unfold reconcile_disconnect_checked. rewrite Hl. cbn [negb].
  unfold without_job_requests, settled_jobs, offline_lease, keys_where.
  by destruct (is_some_and _ (notifiers inner !! cid)).
Qed.

Lemma job_requests_spec (i : RunnerRegistryInner) (cid rid : str) :
  rid ∈ job_requests_of i cid <-> exists p, pending_by_id i !! rid = Some p
    /\ p_request_client_id p = cid /\ is_some (p_job_id p) = true.
Proof.
  unfold job_requests_of. fold (keys_where (fun e => (p_request_client_id (snd e) ==? cid)
    && is_some (p_job_id (snd e))) (pending_by_id i)).
  rewrite elem_of_keys_where. cbn. setoid_rewrite andb_true_iff. by setoid_rewrite beq_eq.
Qed.

Lemma sync_requests_spec (i : RunnerRegistryInner) (cid rid : str) :
  rid ∈ sync_requests_of i cid <-> exists p, pending_by_id i !! rid = Some p
    /\ p_request_client_id p = cid /\ p_job_id p = None.
Proof.
  unfold sync_requests_of. fold (keys_where (fun e => is_none (p_job_id (snd e))
    && (p_request_client_id (snd e) ==? cid)) (pending_by_id i)).
  rewrite elem_of_keys_where. cbn. split; intros (p & Hp & Hx).
  - split_andb. exists p. by destruct (p_job_id p).
  - exists p. destruct Hx as [<- Hn]. rewrite Hn, beq_refl. done.
Qed.

Definition response_request (r : WaiterResponse) : str :=
  match r with
  | ShellFailed rid _ _ _ | McpGatewayFailed rid _ | PluginGatewayFailed rid _ | CodingAgentFailed rid _ => rid
  end.

(** The responses a request's waiters received. *)
Definition answered (rid : str) (sent : list WaiterResponse) : list WaiterResponse :=
  List.filter (fun r => response_request r ==? rid) sent.

Lemma answered_responses (cid err : str) (i : RunnerRegistryInner) (rid k : str) :
  answered rid (responses_for cid err i k) = if decide (rid = k) then responses_for cid err i k else [].
Proof.
  unfold responses_for. destruct (pending_by_id i !! k) as [p|]; [ | by destruct (decide _)].
  assert (Ha : forall r rs, response_request r = k -> answered rid (r :: rs)
    = (if decide (rid = k) then [r] else []) ++ answered rid rs).
  { intros r rs Hr. cbn. rewrite Hr. unfold beq. destruct (decide (rid = k)) as [->|Hn].
    - by rewrite bool_decide_eq_true_2.
    - by rewrite bool_decide_eq_false_2 by congruence. }
  unfold waiter_responses. destruct (p_has_waiter p), (decide (k ∈ mcp_gateway_waiters i)),
    (decide (k ∈ plugin_gateway_waiters i)), (decide (k ∈ coding_agent_waiters i)); cbn [app];
    rewrite ?Ha by done; by destruct (decide (rid = k)).
Qed.

Lemma answered_concat (cid err : str) (i : RunnerRegistryInner) (rid : str) (l : list str) :
  NoDup l ->
  answered rid (concat (map (responses_for cid err i) l))
  = if decide (rid ∈ l) then responses_for cid err i rid else [].
Proof.
  induction l as [|x l IH]; intros Hnd; cbn [map concat].
  - by rewrite decide_False by apply not_elem_of_nil.
  - apply NoDup_cons in Hnd as [Hx Hnd]. unfold answered in *. rewrite List.filter_app, IH by done.
    fold (answered rid (responses_for cid err i x)). rewrite answered_responses.
    destruct (decide (rid = x)) as [->|Hn].
    + rewrite (decide_False (P := x ∈ l)), decide_True by (done || by left). apply app_nil_r.
    + destruct (decide (rid ∈ l)); [rewrite decide_True by (by right) | rewrite decide_False]; try done.
      by intros [?|?]%elem_of_cons.
Qed.

Lemma disconnect_job_settles (recoverable : bool) (now : Z) (j : ShellJobRecord) :
  is_terminal (lifecycle j) = false -> (lifecycle j ==? Queued) || is_runner_active (lifecycle j) = true ->
  let j' := disconnect_job recoverable now j in
  lifecycle j' = Lost \/ (recoverable = true /\ recovery_active j' = true).
Proof.
  intros Ht Ha. cbn zeta. unfold disconnect_job. destruct (lifecycle j ==? Queued) eqn:Eq.
  - rewrite andb_false_r. left. by apply mark_lost_is_lost.
  - destruct recoverable; cbn [andb negb]; [right | left; by apply mark_lost_is_lost].
    split; [done | ]. unfold begin_job_recovery. rewrite Ht, Eq. cbn [orb].
    unfold recovery_active, recovering. cbn. cbn in Ha. by rewrite Ha.
Qed.

Lemma settled_jobs_lookup (recoverable : bool) (now : Z) (cid : str) (i : RunnerRegistryInner) (k : str) :
  jobs_by_id (settled_jobs recoverable now cid i) !! k
  = (fun j => if disconnect_affects cid j then disconnect_job recoverable now j else j) <$> jobs_by_id i !! k.
Proof.
  unfold settled_jobs. rewrite disconnect_fold_jobs by apply NoDup_keys_where.
  destruct (decide _) as [Hin|Hin].
  - apply elem_of_keys_where in Hin as (j & -> & Hj). cbn in *. by rewrite Hj.
  - destruct (jobs_by_id i !! k) as [j|] eqn:Ej; [ | done]. cbn.
    destruct (disconnect_affects cid j) eqn:Ea; [ | done]. exfalso. apply Hin, elem_of_keys_where. by exists j.
Qed.

(** The registry just before the synchronous waiters are answered. *)
Lemma before_resolve (inner : RunnerRegistryInner) (cid iid : str) (connection : option str) (now : Z) :
  requests_typed inner ->
  let offline := offline_lease inner cid iid connection now in
  let i2 := without_job_requests cid (settled_jobs (runner_reconciles inner cid) now cid offline) in
  sync_kept cid (inner <| runners := runners offline |>) i2
  /\ runners i2 = runners offline
  /\ (forall rid p, pending_by_id i2 !! rid = Some p -> p_request_client_id p = cid -> p_job_id p = None)
  /\ (forall k, jobs_by_id i2 !! k
        = (fun j => if disconnect_affects cid j then disconnect_job (runner_reconciles inner cid) now j else j)
            <$> jobs_by_id inner !! k).
Proof.
  intros Ht. cbn zeta. set (offline := offline_lease inner cid iid connection now).
  assert (Hj0 : jobs_by_id offline = jobs_by_id inner) by (subst offline; unfold offline_lease; by destruct (is_some_and _ _)).
  assert (Hp0 : pending_by_id offline = pending_by_id inner) by (subst offline; unfold offline_lease; by destruct (is_some_and _ _)).
  assert (Ht0 : requests_typed offline) by (unfold requests_typed; by rewrite Hj0, Hp0).
  set (i1 := settled_jobs _ now cid offline).
  destruct (disconnect_fold_kept (runner_reconciles inner cid) now cid
    (keys_where (fun e => disconnect_affects cid (snd e)) (jobs_by_id offline)) offline Ht0) as [Hk1 Ht1].
  { intros k j (j0 & Hj & Ha)%elem_of_keys_where Hj'. simplify_eq. cbn in Ha. unfold disconnect_affects in Ha.
    apply andb_prop in Ha as [Ha _]. by apply beq_true in Ha. }
  fold i1 in Hk1, Ht1.
  destruct (drop_requests_kept cid (job_requests_of i1 cid) i1) as (Hk2 & Hj2 & Hp2).
  { intros rid p Hin Hp. apply job_requests_spec in Hin as (q & Hq & Hqc & Hs). split; congruence. }
  assert (Hk : sync_kept cid offline (without_job_requests cid i1)) by (by etransitivity).
  split_and!.
  - destruct Hk as [A B C D E F]. rewrite Hp0 in A, B. revert C D E F. subst offline. unfold offline_lease.
    by destruct (is_some_and _ _).
  - by apply sk_runners in Hk.
  - intros rid p Hp Hc. unfold without_job_requests in Hp. rewrite Hp2 in Hp.
    destruct (decide _) as [|Hn]; [done | ]. destruct (p_job_id p) eqn:Ep; [ | done]. exfalso.
    apply Hn, job_requests_spec. exists p. by rewrite Ep.
  - intros k. unfold without_job_requests. rewrite Hj2. subst i1. rewrite settled_jobs_lookup. by rewrite Hj0.
Qed.

Lemma offline_not_connected (inner i' : RunnerRegistryInner) (cid iid : str) (connection : option str) (now : Z) :
  (0 <= now <= I64_MAX)%Z -> runners i' = runners (offline_lease inner cid iid connection now) ->
  runner_is_connected_locked i' cid now = false.
Proof.
  intros Hnow Hr. unfold runner_is_connected_locked. rewrite Hr. unfold offline_lease.
  replace (runners _) with
    (alter (fun r => r <| r_last_seen := offline_last_seen now |> <| r_disconnected_at := Some now |>) cid
       (runners inner)) by (by destruct (is_some_and _ _)).
  rewrite lookup_alter_eq. destruct (runners inner !! cid) as [r|]; [ | done]. cbn.
  apply Z.leb_gt. unfold offline_last_seen, i64_sat_sub, i64_sat_add, i64_clamp, RUNNER_ONLINE_WINDOW_SECS,
    I64_MIN, I64_MAX in *. lia.
Qed.

End Disconnect.

(** The waiters of a synchronous request of this Runner; nobody else is told. *)
Definition owed_responses (cid : str) (inner : RunnerRegistryInner) (rid : str) : list WaiterResponse :=
  match pending_by_id inner !! rid with
  | Some p => if (p_request_client_id p ==? cid) && is_none (p_job_id p)
              then waiter_responses cid DISCONNECTED_MESSAGE inner rid p else []
  | None => []
  end.

(** The Runner's synchronous requests and their waiters reach the answering pass
    as they were when the disconnect began. *)
Lemma owed_unchanged `{HashIteration} (cid : str) (inner i2 : RunnerRegistryInner) (rid : str) :
  sync_kept cid inner i2 ->
  (if decide (rid ∈ sync_requests_of i2 cid) then responses_for cid DISCONNECTED_MESSAGE i2 rid else [])
  = owed_responses cid inner rid.
Proof.
  intros [Hsub Hkeep Hmcp Hplug Hag _]. unfold owed_responses.
  assert (Hin : rid ∈ sync_requests_of i2 cid <-> rid ∈ sync_requests_of inner cid).
  { rewrite !sync_requests_spec. split; intros (p & Hq & Hc & Hn); exists p; split_and!; try done.
    - by eapply lookup_weaken.
    - apply Hkeep; [done | ]. intros [Hs _]. by rewrite Hn in Hs. }
  destruct (decide (rid ∈ sync_requests_of i2 cid)) as [Hd1|Hd1]; rewrite Hin, sync_requests_spec in Hd1.
  - destruct Hd1 as (p & Hq & Hc & Hn). rewrite Hq, Hc, Hn, beq_refl. cbn.
    unfold responses_for. rewrite (Hkeep rid p Hq) by (intros [Hs _]; by rewrite Hn in Hs).
    unfold waiter_responses. by rewrite Hmcp, Hplug, Hag.
  - destruct (pending_by_id inner !! rid) as [p|] eqn:Eq; [ | done].
    destruct ((p_request_client_id p ==? cid) && is_none (p_job_id p)) eqn:E; [ | done].
    exfalso. split_andb. apply Hd1. exists p. by destruct (p_job_id p).
Qed.

(** A Job of the Runner is settled, any other Job is left as it was. *)
Lemma disconnected_job_outcome (recoverable : bool) (cid : str) (now : Z) (j : ShellJobRecord) :
  let j' := if disconnect_affects cid j then disconnect_job recoverable now j else j in
  job_evolves j j'
  /\ (client_id j = cid -> is_terminal (lifecycle j') = true \/ lifecycle j = StartedLegacy
                           \/ (recoverable = true /\ recovery_active j' = true))
  /\ (client_id j <> cid -> j' = j).
Proof.
  cbn zeta. unfold disconnect_affects.
  destruct (client_id j ==? cid) eqn:Ec; [apply beq_true in Ec | apply beq_false in Ec]; cbn [andb]; [ | done].
  destruct (is_terminal (lifecycle j)) eqn:Et; cbn [orb negb].
  { split_and!; [done | intros _; by left | done]. }
  rewrite negb_involutive.
  destruct ((lifecycle j ==? Queued) || is_runner_active (lifecycle j)) eqn:Ea.
  - split_and!; [apply disconnect_job_evolves | intros _ | done].
    destruct (disconnect_job_settles recoverable now j Et Ea) as [Hl|?]; [left; by rewrite Hl | by right; right].
  - split_and!; [done | intros _; right; left | done]. by destruct (lifecycle j).
Qed.

(** A disconnect settles everything of the Runner at once: its pending
    requests are all removed and no others, every waiter of a synchronous request
    is answered exactly once with whether its work was dispatched, every Job of it
    is terminal or (when the Runner reconciles) recovering (the legacy started
    state apart, which is not Runner-owned), the other Runners' Jobs are
    untouched, and the Runner reads as offline immediately. *)
Lemma disconnect_settles `{HashIteration} (inner inner' : RunnerRegistryInner) (cid iid : str)
  (connection : option str) (transport : option RunnerTransport) (now : Z) (sent : list WaiterResponse) :
  requests_typed inner -> (0 <= now <= I64_MAX)%Z ->
  reconcile_disconnect_checked inner cid iid connection transport now = ((inner', sent), true) ->
  (forall rid p, pending_by_id inner' !! rid = Some p
     <-> pending_by_id inner !! rid = Some p /\ p_request_client_id p <> cid)
  /\ (forall rid, answered rid sent = owed_responses cid inner rid)
  /\ (forall k j', jobs_by_id inner' !! k = Some j' -> exists j, jobs_by_id inner !! k = Some j
        /\ job_evolves j j'
        /\ (client_id j = cid -> is_terminal (lifecycle j') = true \/ lifecycle j = StartedLegacy
                                 \/ (runner_reconciles inner cid = true /\ recovery_active j' = true))
        /\ (client_id j <> cid -> j' = j))
  /\ runner_is_connected_locked inner' cid now = false.
Proof.
  intros Ht Hnow Hd. destruct (lease_is_active inner cid iid connection transport) eqn:El.
  2: { unfold reconcile_disconnect_checked in Hd. by rewrite El in Hd. }
  rewrite disconnect_unfold in Hd by done. injection Hd as Hd.
  destruct (before_resolve inner cid iid connection now Ht) as (Hk & Hrun & Hsync & Hjobs). cbn zeta in *.
  set (i2 := without_job_requests cid _) in *.
  assert (Hjr : jobs_by_id inner' = jobs_by_id i2).
  { rewrite <- (resolve_disconnected_jobs i2 cid DISCONNECTED_MESSAGE), Hd. done. }
  unfold resolve_disconnected_sync_requests_locked in Hd.
  assert (Hnd : NoDup (sync_requests_of i2 cid)) by apply NoDup_map_filter, NoDup_hash_keys.
  destruct (resolve_fold cid DISCONNECTED_MESSAGE (sync_requests_of i2 cid) i2 [] Hnd) as (Hs & Hp & Hr).
  rewrite Hd in Hs, Hp, Hr. cbn [fst snd app] in *.
  assert (Hsub : pending_by_id i2 ⊆ pending_by_id inner) by exact (sk_subset _ _ _ Hk). split_and!.
  - intros rid p. rewrite Hp. split.
    + destruct (decide _) as [|Hn]; [done | ]. intros Hrid. split; [by eapply lookup_weaken | ].
      intros Hc. apply Hn, sync_requests_spec. exists p. split_and!; [done | done | by eapply Hsync].
    + intros [Hrid Hc]. rewrite decide_False.
      * by eapply sk_sync; [exact Hk | | intros [_ ?]].
      * intros (q & Hq & Hqc & _)%sync_requests_spec. apply (lookup_weaken _ (pending_by_id inner)) in Hq;
          [congruence | done].
  - intros rid. rewrite Hs, answered_concat by done. exact (owed_unchanged _ _ _ rid Hk).
  - intros k j' Hj'. rewrite Hjr, Hjobs in Hj'. apply fmap_Some in Hj' as (j & Hj & ->). exists j.
    split; [done | apply disconnected_job_outcome].
  - eapply offline_not_connected; [done | ]. by rewrite Hr, Hrun.
Qed.

Lemma connected_typed : requests_typed connected_registry.
Proof.
  intros k j rid p Hj Hr Hp. cbn in Hj, Hp. apply lookup_insert_Some in Hj as [[_ <-]|[_ Hj]]; [ | done].
  vm_compute in Hr. injection Hr as <-. vm_compute in Hp. by injection Hp as <-.
Defined.

Lemma disconnect_settles_witness :
  exists inner' sent,
    reconcile_disconnect_checked connected_registry (lit "r1") (lit "i1") None None 300 = ((inner', sent), true)
    /\ answered (lit "sync") sent = [ShellFailed (lit "sync") (lit "r1") DISCONNECTED_MESSAGE true]
    /\ runner_is_connected_locked inner' (lit "r1") 300 = false.
Proof.
  destruct (reconcile_disconnect_checked connected_registry (lit "r1") (lit "i1") None None 300)
    as [[i' sent] b] eqn:E.
  assert (Hb : b = true) by (vm_compute in E; by injection E as _ _ <-). subst b.
  destruct (disconnect_settles connected_registry i' (lit "r1") (lit "i1") None None 300 sent) as (_ & Ha & _ & Hc).
  - exact connected_typed.
  - unfold I64_MAX. lia.
  - exact E.
  - exists i', sent. split; [done | ]. split; [ | exact Hc]. rewrite Ha. vm_compute. reflexivity.
Defined.
