(* ===== verification/RegistrationFacts.v ===== *)
(** * RegistrationFacts: what a registration guarantees

    A registration either fails and changes nothing, or takes the lease over as a
    whole; an instance that was replaced can neither act nor come back; and the
    limits on Runners admitted by a shared key hold. *)
From S2P Require Import Prelude RustStr Lifecycle JobLog Capabilities CodingAgent RunnerData RegistryState JobState InventoryCheck Samples JobUpdate ProjectInventory Polling Reconcile Registration ReconcileFacts.

(** ** Operations on Jobs and requests leave the leases alone *)

(** The record without the suppressions, which reconciliation prunes. *)
Definition lease_of (r : RunnerRecord) : RunnerRecord := r <| r_suppressions := [] |>.

Record same_leases (i i' : RunnerRegistryInner) : Prop := {
  sl_runners : lease_of <$> runners i' = lease_of <$> runners i;
  sl_retired : retired_instances i' = retired_instances i;
  sl_notifiers : notifiers i' = notifiers i
}.

#[export] Instance same_leases_refl : Reflexive same_leases.
Proof. by split. Qed.

#[export] Instance same_leases_trans : Transitive same_leases.
Proof. intros a b c [H1 H2 H3] [K1 K2 K3]. split; congruence. Qed.

Lemma fold_leases {E : Type} (g : RunnerRegistryInner -> E -> RunnerRegistryInner) (l : list E)
  (i : RunnerRegistryInner) : (forall i e, same_leases i (g i e)) -> same_leases i (fold_left g l i).
Proof. intros Hg. revert i. induction l as [|x l IH]; intros i; cbn; [done | ]. etransitivity; [apply Hg | apply IH]. Qed.

Lemma mapping_leases (i : RunnerRegistryInner) (cid : str) (rid : option str) :
  same_leases i (remove_job_request_mapping i cid rid).
Proof. by destruct rid. Qed.

Lemma same_leases_lookup (i i' : RunnerRegistryInner) (k : str) :
  same_leases i i' -> lease_of <$> runners i' !! k = lease_of <$> runners i !! k.
Proof. intros [H _ _]. by rewrite <- !lookup_fmap, H. Qed.

Section Leases.
Context `{HashIteration}.

Lemma control_leases (i : RunnerRegistryInner) (cid : str) (ids : gset str) :
  same_leases i (remove_job_control_requests i cid ids).
Proof. apply fold_leases. intros. apply mapping_leases. Qed.

Lemma remove_all_leases (i : RunnerRegistryInner) (ids : list str) : same_leases i (remove_all_jobs i ids).
Proof. by apply fold_leases. Qed.

Lemma lose_and_unmap_leases (i : RunnerRegistryInner) (cid : str) (l : list (str * ShellJobRecord)) (now : Z)
  (reason : JobRecoveryReason) (message : str) : same_leases i (lose_and_unmap i cid l now reason message).
Proof.
  etransitivity; [ | apply control_leases]. apply fold_leases. intros i0 e.
  etransitivity; [ | apply mapping_leases]. done.
Qed.

Lemma terminate_leases (i : RunnerRegistryInner) (cid iid : str) (replacement : option ShellJobInventory) (now : Z) :
  same_leases i (terminate_instance_jobs_locked i cid iid replacement now).
Proof. etransitivity; [apply lose_and_unmap_leases | apply remove_all_leases]. Qed.

Lemma expire_leases (grace : Z) (i : RunnerRegistryInner) (filter : option str) (now : Z) (cap : nat) :
  same_leases i (expire_recovering_jobs_locked grace i filter now cap).1.
Proof.
  unfold expire_recovering_jobs_locked. destruct (is_empty _); [done | ]. cbn [fst].
  etransitivity; [ | apply remove_all_leases].
  etransitivity; [ | apply fold_leases; intros; apply control_leases].
  etransitivity; [ | apply fold_leases; intros; apply mapping_leases]. by apply fold_leases.
Qed.

Lemma resolve_leases (i : RunnerRegistryInner) (cid err : str) :
  same_leases i (resolve_disconnected_sync_requests_locked i cid err).1.
Proof.
  unfold resolve_disconnected_sync_requests_locked. generalize (sync_requests_of i cid) as l.
  change i with (fst (i, @nil WaiterResponse)) at 1. generalize (i, @nil WaiterResponse) as st.
  intros st l. revert st. induction l as [|x l IH]; intros [i0 sent]; cbn [fold_left]; [done | ].
  etransitivity; [ | apply IH]. cbn. by destruct (pending_by_id i0 !! x).
Qed.

Lemma reconcile_snapshots_leases (cid iid : str) (group : option RunnerAccessGroup) (epoch : str) (now : Z)
  (jobs : list ShellJobSnapshot) (st st' : RunnerRegistryInner * ReconciliationSummary) :
  reconcile_snapshots cid iid group epoch now jobs st = Some st' -> same_leases st.1 st'.1.
Proof.
  revert st. induction jobs as [|s jobs IH]; intros [i sum] Hr; cbn [reconcile_snapshots] in Hr; [by injection Hr as <- | ].
  destruct (reconcile_snapshot cid iid group epoch now (i, sum) s) as [st1|] eqn:E; [ | done].
  cbn [mbind option_bind] in Hr. transitivity st1.1; [ | by apply IH]. unfold reconcile_snapshot in E.
  destruct (snapshot_outcome cid iid group epoch now i s) as [out|]; [ | done]. cbn [mbind option_bind] in E.
  destruct out; injection E as <-; cbn [fst]; [done | done | | ]; unfold finish_snapshot; by destruct (is_final_job_status _).
Qed.

Lemma reconcile_leases (grace : Z) (i i' : RunnerRegistryInner) (cid iid : str)
  (group : option RunnerAccessGroup) (epoch : str) (inventory : ShellJobInventory) (now : Z) summary :
  reconcile_inventory_locked grace i cid iid group epoch inventory now = Some (i', summary) -> same_leases i i'.
Proof.
  unfold reconcile_inventory_locked.
  set (i1 := prune_projected_structured_terminal_suppressions_locked i now).
  assert (H1 : same_leases i i1).
  { split; [ | done | done]. cbn. rewrite <- map_fmap_compose. by apply map_fmap_ext. }
  set (i2 := (expire_recovering_jobs_locked grace i1 (Some cid) now RECOVERY_SWEEP_PASS_CAP).1).
  assert (H2 : same_leases i1 i2) by apply expire_leases. clearbody i1 i2.
  destruct (reconcile_snapshots _ _ _ _ _ _ _) as [[i3 sum3]|] eqn:E; [ | done]. cbn. intros [= <- <-].
  apply reconcile_snapshots_leases in E. cbn [fst] in E.
  etransitivity; [exact H1 | ]. etransitivity; [exact H2 | ]. etransitivity; [ | apply remove_all_leases].
  etransitivity; [ | exact E]. apply lose_and_unmap_leases.
Qed.

(** Expiry of shared-key Runners only takes Runners away. *)
Lemma prune_runners_sub (ttl : Z) (reg : RunnerRegistry) (now : Z) :
  runners (reg_inner (prune_expired_shared_key_runners_locked ttl reg now).1) ⊆ runners (reg_inner reg).
Proof.
  unfold prune_expired_shared_key_runners_locked. set (expired := map fst _). destruct (is_empty expired); [done | ].
  assert (Hres : forall l st, runners (resolve_all_clients EXPIRED_WAITER_MESSAGE st l).1 = runners st.1).
  { intros l. induction l as [|c l IH]; intros st; [done | ]. cbn [resolve_all_clients fold_left].
    unfold resolve_all_clients in IH. rewrite IH. unfold resolve_disconnected_sync_requests_locked.
    generalize (sync_requests_of (fst st) c) as rl. intros rl.
    assert (Hf : forall s, runners (fold_left (resolve_one c EXPIRED_WAITER_MESSAGE) rl s).1 = runners s.1).
    { induction rl as [|x rl IHr]; intros [i0 sent]; cbn [fold_left]; [done | ]. rewrite IHr. cbn. by destruct (pending_by_id i0 !! x). }
    specialize (Hf (fst st, [])). by destruct (fold_left _ rl _). }
  specialize (Hres expired (reg_inner reg, [])). destruct (resolve_all_clients _ _ expired) as [i1 sent]. cbn [fst reg_inner] in *.
  assert (Hfold : forall (E : Type) (g : RunnerRegistryInner -> E -> RunnerRegistryInner) l i,
    (forall i e, runners (g i e) ⊆ runners i) -> runners (fold_left g l i) ⊆ runners i).
  { intros E g l. induction l as [|x l IH]; intros i Hg; cbn; [done | ]. etransitivity; [by apply IH | apply Hg]. }
  rewrite <- Hres. etransitivity; [apply Hfold; intros; apply delete_subseteq | ]. cbn.
  etransitivity; [by apply Hfold | ]. by apply Hfold.
Qed.
End Leases.

(** ** The record a request asks for *)

(** What a registered record takes from the request. *)
Record claims_lease (body : RunnerRegisterRequest) (access : option RunnerAccess)
  (streaming : option StreamingSessionRegistration) (r : RunnerRecord) : Prop := {
  cl_client : r_client_id r = trim (reg_client_id body);
  cl_instance : r_runner_instance_id r = trim (reg_runner_instance_id body);
  cl_group : r_auth_group r = access ≫= group;
  cl_connection : r_connection_id r = ses_connection_id <$> streaming;
  cl_features : try_from_registration (reg_capabilities body) = Ok (r_runner_features r);
  cl_generation : r_accepted_protocol r = RUNNER_PROTOCOL_GENERATION_V2;
  cl_concurrency : forall n, r_job_concurrency_limit r = Some n -> (1 <= n <= 64)%Z
}.

Lemma registration_record_ok (serialized_len : ShellJobInventory -> result Z str) body access streaming now r :
  registration_record serialized_len body access streaming now = Ok r ->
  claims_lease body access streaming r /\ forall inv, reg_job_inventory body = Some inv -> inventory_usable inv.
Proof.
  unfold registration_record. intros Hr. destruct (check_registration_fields body) as [[]|] eqn:Ef; [ | done].
  cbn [result_bind] in Hr. unfold accept_protocol in Hr.
  destruct (Z.eqb (reg_protocol_generation body) _) eqn:Eg; [ | done]. apply Z.eqb_eq in Eg.
  cbn [result_bind] in Hr. step_guards Hr.
  injection Hr as <-. split.
  - split; cbn; try done. intros n Hn. unfold check_registration_fields in Ef. step_guards Ef.
    rewrite Hn in Hguard. cbn in Hguard. apply negb_false_iff, andb_true_iff in Hguard as [H1 H2].
    apply Z.leb_le in H1, H2. unfold RUNNER_JOB_CONCURRENCY_MIN, RUNNER_JOB_CONCURRENCY_MAX in *. lia.
  - intros inv Hinv. clear Hstep. rewrite Hinv in *.
    match goal with H : check_job_inventory _ _ _ _ = Ok _ |- _ =>
      unfold check_job_inventory in H; destruct (supports _ _) in H; [ | done];
      destruct (validate_job_inventory_without_project_membership _ _ _) as [[]|] eqn:E; [ | done] end.
    by eapply accepted_usable.
Qed.

(** ** The commit *)

Section Commit.
Context `{HashIteration} (serialized_len : ShellJobInventory -> result Z str) (grace : Z)
  (limits : SharedKeyRegistrationLimits) (epoch : str).

(** The instances retired once [record] has replaced the active one. *)
Definition retired_after (inner : RunnerRegistryInner) (record : RunnerRecord) : gmap str (list str) :=
  match replaced_instance inner record with
  | None => retired_instances inner
  | Some old => retired_instances (retire_instance inner (r_client_id record) old)
  end.

Lemma retire_replaced_leases (inner : RunnerRegistryInner) (record : RunnerRecord)
  (inventory : option ShellJobInventory) (now : Z) :
  let i := (retire_replaced inner record inventory now).1 in
  lease_of <$> runners i = lease_of <$> runners inner /\ notifiers i = notifiers inner
  /\ retired_instances i = retired_after inner record.
Proof.
  cbn zeta. unfold retire_replaced, retired_after. destruct (replaced_instance inner record) as [old|]; [ | done].
  set (i1 := terminate_instance_jobs_locked _ _ _ _ _).
  assert (H1 : same_leases inner i1) by apply terminate_leases.
  pose proof (resolve_leases i1 (r_client_id record) REPLACED_WAITER_MESSAGE) as H2.
  destruct (resolve_disconnected_sync_requests_locked _ _ _) as [i2 sent]. cbn [fst] in *.
  destruct (same_leases_trans _ _ _ H1 H2) as [Hr Hret Hn]. cbn. unfold retire_instance. cbn. by rewrite Hret.
Qed.

(** The state in which the reported Jobs are reconciled. *)
Definition taken_over (inner : RunnerRegistryInner) (record : RunnerRecord)
  (streaming : option StreamingSessionRegistration) (inventory : option ShellJobInventory) (now : Z)
  : RunnerRegistryInner :=
  let inner := (retire_replaced inner record inventory now).1 in
  install_lease inner (carry_over (runners inner !! r_client_id record) record now) streaming.

Lemma carry_over_lease (existing : option RunnerRecord) (record : RunnerRecord) (now : Z) :
  let r := carry_over existing record now in
  r_client_id r = r_client_id record /\ r_runner_instance_id r = r_runner_instance_id record
  /\ r_auth_group r = r_auth_group record /\ r_connection_id r = r_connection_id record
  /\ r_runner_features r = r_runner_features record /\ r_accepted_protocol r = r_accepted_protocol record
  /\ r_job_concurrency_limit r = r_job_concurrency_limit record.
Proof. cbn zeta. destruct existing as [e|]; [ | done]. unfold carry_over. by destruct (_ ==? _). Qed.

Lemma reconcile_reported_total (i : RunnerRegistryInner) (cid iid : str) (inventory : option ShellJobInventory)
  (now : Z) :
  (forall inv, inventory = Some inv -> inventory_usable inv) ->
  exists i', reconcile_reported grace epoch i cid iid inventory now = Some i' /\ same_leases i i'.
Proof.
  intros Hu. destruct inventory as [inv|]; cbn; [ | by exists i].
  destruct (reconcile_spec grace i cid iid (runners i !! cid ≫= r_auth_group) epoch inv now (Hu inv eq_refl))
    as (i' & sum & Hr & _).
  exists i'. rewrite Hr. split; [done | by eapply reconcile_leases].
Qed.

Lemma commit_spec (inner : RunnerRegistryInner) (record : RunnerRecord)
  (streaming : option StreamingSessionRegistration) (inventory : option ShellJobInventory) (now : Z) :
  (forall inv, inventory = Some inv -> inventory_usable inv) ->
  exists i', commit_registration grace epoch inner record streaming inventory now
    = Some (i', (retire_replaced inner record inventory now).2, notifiers inner !! r_client_id record)
    /\ reconcile_reported grace epoch (taken_over inner record streaming inventory now) (r_client_id record)
         (r_runner_instance_id record) inventory now = Some i'
    /\ same_leases (taken_over inner record streaming inventory now) i'.
Proof.
  intros Hu.
  destruct (reconcile_reported_total (taken_over inner record streaming inventory now) (r_client_id record)
    (r_runner_instance_id record) inventory now Hu) as (i' & Hr & Hl).
  exists i'. split_and!; [ | done | done]. unfold taken_over in Hr. unfold commit_registration.
  destruct (retire_replaced inner record inventory now) as [i1 sent]. cbn [fst snd] in *.
  pose proof (carry_over_lease (runners i1 !! r_client_id record) record now) as (_ & -> & _).
  by rewrite Hr.
Qed.
End Commit.

(** ** Outcomes *)

Lemma lease_field {A : Type} (f : RunnerRecord -> A) (r r' : RunnerRecord) :
  (forall x, f (lease_of x) = f x) -> lease_of r' = lease_of r -> f r' = f r.
Proof. intros Hf He. by rewrite <- (Hf r'), <- (Hf r), He. Qed.

Lemma claims_lease_of (body : RunnerRegisterRequest) (access : option RunnerAccess)
  (streaming : option StreamingSessionRegistration) (r r' : RunnerRecord) :
  lease_of r' = lease_of r -> claims_lease body access streaming r -> claims_lease body access streaming r'.
Proof.
  intros He []. split.
  - by rewrite (lease_field r_client_id r r').
  - by rewrite (lease_field r_runner_instance_id r r').
  - by rewrite (lease_field r_auth_group r r').
  - by rewrite (lease_field r_connection_id r r').
  - by rewrite (lease_field r_runner_features r r').
  - by rewrite (lease_field r_accepted_protocol r r').
  - by rewrite (lease_field r_job_concurrency_limit r r').
Qed.

(** A reconnect of the instance that holds the lease keeps what was built up under
    it. *)
Definition reconnect_keeps (old new : RunnerRecord) : Prop :=
  r_runner_instance_id old = r_runner_instance_id new ->
  r_registered_at new = r_registered_at old /\ r_projects new = r_projects old
  /\ forall f, In f FIXED_FEATURES -> supports (r_runner_features old) f = true ->
       supports (r_runner_features new) f = true.

(** [new] is the lease table [old] with the lease of one client taken over. *)
Record lease_taken (body : RunnerRegisterRequest) (access : option RunnerAccess)
  (streaming : option StreamingSessionRegistration) (old new : RunnerRegistryInner) (installed : RunnerRecord) : Prop := {
  lt_installed : runners new !! trim (reg_client_id body) = Some installed;
  lt_claims : claims_lease body access streaming installed;
  lt_others : forall k, k <> trim (reg_client_id body) ->
    lease_of <$> runners new !! k = lease_of <$> runners old !! k /\ notifiers new !! k = notifiers old !! k
    /\ retired_instances new !! k = retired_instances old !! k;
  lt_notifier : notifiers new !! trim (reg_client_id body)
    = (fun s => mkNotifier (r_runner_instance_id installed) (Some (ses_connection_id s))) <$> streaming;
  lt_group : forall e, runners old !! trim (reg_client_id body) = Some e -> r_auth_group e = r_auth_group installed;
  lt_reconnect : forall e, runners old !! trim (reg_client_id body) = Some e -> reconnect_keeps e installed;
  lt_fresh : is_retired old (trim (reg_client_id body)) (r_runner_instance_id installed) = false;
  lt_retired : retired_instances new = retired_after old installed
}.

Lemma reject_downgrades_ok (existing : option RunnerRecord) (iid : str) (incoming : RunnerFeatureSet)
  (features : list RunnerFeature) (e : RunnerRecord) (f : RunnerFeature) :
  reject_downgrades existing iid incoming features = Ok tt -> existing = Some e -> r_runner_instance_id e = iid ->
  In f features -> supports (r_runner_features e) f = true -> supports incoming f = true.
Proof.
  intros Hr -> <-. induction features as [|x l IH]; [done | ]. cbn [reject_downgrades] in Hr.
  unfold reject_same_instance_feature_downgrade in Hr. cbn [is_some_and] in Hr. rewrite beq_refl in Hr. cbn [andb] in Hr.
  destruct (supports (r_runner_features e) x && negb (supports incoming x)) eqn:E; [done | ].
  intros [<-|Hin] Hs; [ | by apply IH]. rewrite Hs in E. by apply negb_false_iff in E.
Qed.

(** Why a claim is admitted. *)
Record claim_ok (limits : SharedKeyRegistrationLimits) (inner : RunnerRegistryInner) (record : RunnerRecord) : Prop := {
  co_group : forall e, runners inner !! r_client_id record = Some e -> r_auth_group e = r_auth_group record;
  co_limits : check_shared_key_limits limits inner record = Ok tt;
  co_fresh : is_retired inner (r_client_id record) (r_runner_instance_id record) = false;
  co_features : reject_downgrades (runners inner !! r_client_id record) (r_runner_instance_id record)
                  (r_runner_features record) FIXED_FEATURES = Ok tt
}.

Lemma check_claim_ok (limits : SharedKeyRegistrationLimits) (inner : RunnerRegistryInner) (record : RunnerRecord)
  (inventory : option ShellJobInventory) :
  check_claim limits inner record inventory = Ok tt -> claim_ok limits inner record.
Proof.
  unfold check_claim. intros Hc. step_guards Hc.
  repeat match goal with u : unit |- _ => destruct u end. split; [ | done ..].
  intros e He. rewrite He in Hguard. cbn in Hguard. by apply negb_false_iff, beq_true in Hguard.
Qed.

Section Outcomes.
Context `{HashIteration} (serialized_len : ShellJobInventory -> result Z str) (grace : Z)
  (limits : SharedKeyRegistrationLimits) (epoch : str).

Lemma retired_after_instance (inner : RunnerRegistryInner) (r r' : RunnerRecord) :
  r_client_id r' = r_client_id r -> r_runner_instance_id r' = r_runner_instance_id r ->
  retired_after inner r' = retired_after inner r.
Proof. intros H1 H2. unfold retired_after, replaced_instance. by rewrite H1, H2. Qed.

Lemma retired_after_other (inner : RunnerRegistryInner) (r : RunnerRecord) (k : str) :
  k <> r_client_id r -> retired_after inner r !! k = retired_instances inner !! k.
Proof. intros Hk. unfold retired_after. destruct (replaced_instance inner r); [ | done]. cbn. by rewrite lookup_insert_ne. Qed.

Lemma taken_over_taken (body : RunnerRegisterRequest) (access : option RunnerAccess)
  (streaming : option StreamingSessionRegistration) (now : Z) (old new : RunnerRegistryInner) (record : RunnerRecord) :
  claims_lease body access streaming record -> claim_ok limits old record ->
  same_leases (taken_over old record streaming (reg_job_inventory body) now) new ->
  exists installed, lease_taken body access streaming old new installed
    /\ r_auth_group installed = r_auth_group record.
Proof.
  intros Hc Ho Hs. pose proof (cl_client _ _ _ _ Hc) as Hcid.
  destruct (retire_replaced_leases old record (reg_job_inventory body) now) as (Hru & Hno & Hret).
  unfold taken_over in Hs. set (i1 := (retire_replaced old record (reg_job_inventory body) now).1) in *. clearbody i1.
  set (r := carry_over (runners i1 !! r_client_id record) record now) in *.
  pose proof (carry_over_lease (runners i1 !! r_client_id record) record now) as (C1 & C2 & C3 & C4 & C5 & C6 & C7).
  fold r in C1, C2, C3, C4, C5, C6, C7.
  pose proof (same_leases_lookup _ _ (r_client_id record) Hs) as Hl. cbn [runners install_lease set_field] in Hl.
  unfold install_lease in Hl. cbn in Hl. rewrite C1, lookup_insert_eq in Hl.
  apply fmap_Some in Hl as (installed & Hin & He). symmetry in He.
  assert (Hcl : claims_lease body access streaming installed).
  { apply (claims_lease_of body access streaming r); [done | ]. destruct Hc. split; try congruence. by rewrite C7. }
  assert (Hold : forall e, runners old !! r_client_id record = Some e ->
    exists e1, runners i1 !! r_client_id record = Some e1 /\ lease_of e1 = lease_of e).
  { intros e He1. apply (f_equal (fun m => m !! r_client_id record)) in Hru. rewrite !lookup_fmap, He1 in Hru.
    apply fmap_Some in Hru as (e1 & H1 & H2). by exists e1. }
  exists installed. split; [split | by rewrite (lease_field r_auth_group r installed)].
  - by rewrite <- Hcid.
  - done.
  - rewrite <- Hcid. intros k Hk. destruct Hs as [S1 S2 S3]. rewrite S2, S3. cbn.
    split_and!.
    + rewrite <- !lookup_fmap, S1. cbn. rewrite C1, lookup_fmap, lookup_insert_ne, <- lookup_fmap, Hru by done. done.
    + rewrite C1. destruct streaming; [rewrite lookup_insert_ne by done | ]; rewrite lookup_delete_ne by done; by rewrite Hno.
    + rewrite Hret. by apply retired_after_other.
  - rewrite <- Hcid. destruct Hs as [_ _ ->]. cbn. rewrite C1.
    destruct streaming; cbn; [rewrite lookup_insert_eq | by rewrite lookup_delete_eq].
    by rewrite (lease_field r_runner_instance_id r installed).
  - rewrite <- Hcid. intros e He1. rewrite (lease_field r_auth_group r installed), C3 by done. by eapply co_group.
  - rewrite <- Hcid. intros e He1 Hsame. destruct (Hold e He1) as (e1 & H1 & H2).
    rewrite (lease_field r_runner_instance_id r installed), C2 in Hsame by done.
    assert (Hre : r_registered_at r = r_registered_at e /\ r_projects r = r_projects e).
    { subst r. rewrite H1. unfold carry_over. rewrite (lease_field r_runner_instance_id e e1), Hsame, beq_refl by done. cbn.
      by rewrite (lease_field r_registered_at e e1), (lease_field r_projects e e1). }
    rewrite (lease_field r_registered_at r installed), (lease_field r_projects r installed) by done.
    split_and!; [apply Hre | apply Hre | ]. intros f Hf Hs1.
    rewrite (lease_field r_runner_features r installed), C5 by done.
    by eapply reject_downgrades_ok; [apply (co_features _ _ _ Ho) | exact He1 | .. ].
  - rewrite <- Hcid, (lease_field r_runner_instance_id r installed), C2 by done. apply Ho.
  - destruct Hs as [_ -> _]. cbn. rewrite Hret. symmetry. apply retired_after_instance.
    + by rewrite (lease_field r_client_id r installed).
    + by rewrite (lease_field r_runner_instance_id r installed).
Qed.

(** Every registration ends, in one of these ways. *)
Lemma register_outcomes (reg : RunnerRegistry) (body : RunnerRegisterRequest) (access : option RunnerAccess)
  (streaming : option StreamingSessionRegistration) (now : Z) :
  let pruned := (prune_expired_shared_key_runners_locked (offline_ttl_secs limits) reg now).1 in
  exists reg' sent cancelled r,
    register_session serialized_len grace limits epoch reg body access streaming now = Some (reg', sent, cancelled, r)
    /\ match r with
       | Err _ => (reg' = reg /\ sent = [] \/ reg' = pruned) /\ cancelled = None
       | Ok installed =>
           cancelled = notifiers (reg_inner pruned) !! trim (reg_client_id body)
           /\ lease_taken body access streaming (reg_inner pruned) (reg_inner reg') installed
           /\ exists record, registration_record serialized_len body access streaming now = Ok record
              /\ claim_ok limits (reg_inner pruned) record /\ r_auth_group installed = r_auth_group record
       end.
Proof.
  cbn zeta. unfold register_session.
  destruct (registration_record serialized_len body access streaming now) as [record|err] eqn:Er;
    [ | exists reg, [], None, (Err err); by auto].
  destruct (prune_expired_shared_key_runners_locked (offline_ttl_secs limits) reg now) as [reg1 sent0]. cbn [fst].
  destruct (check_claim limits (reg_inner reg1) record (reg_job_inventory body)) as [[]|err] eqn:Ec;
    [ | exists reg1, sent0, None, (Err err); by auto].
  apply check_claim_ok in Ec. apply registration_record_ok in Er as Hr. destruct Hr as [Hcl Hu].
  destruct (commit_spec grace epoch (reg_inner reg1) record streaming (reg_job_inventory body) now Hu)
    as (i' & Hcommit & _ & Hs).
  destruct (taken_over_taken body access streaming now (reg_inner reg1) i' record Hcl Ec Hs) as (installed & Hl & Hg).
  pose proof (lt_installed _ _ _ _ _ _ Hl) as Hi. rewrite <- (cl_client _ _ _ _ Hcl) in Hi.
  rewrite Hcommit. cbn [mbind option_bind]. rewrite Hi. cbn [mbind option_bind].
  do 4 eexists. split; [reflexivity | ]. cbn. rewrite <- (cl_client _ _ _ _ Hcl). split_and!; [done | done | ].
  by exists record.
Qed.
(** The state a registration leaves: as it was, pruned, or taken over and reconciled. *)
Lemma register_states (reg reg' : RunnerRegistry) (body : RunnerRegisterRequest) (access : option RunnerAccess)
  (streaming : option StreamingSessionRegistration) (now : Z) sent cancelled r :
  register_session serialized_len grace limits epoch reg body access streaming now = Some (reg', sent, cancelled, r) ->
  let pruned := (prune_expired_shared_key_runners_locked (offline_ttl_secs limits) reg now).1 in
  reg' = reg \/ reg' = pruned
  \/ exists record, (forall inv, reg_job_inventory body = Some inv -> inventory_usable inv)
     /\ reconcile_reported grace epoch (taken_over (reg_inner pruned) record streaming (reg_job_inventory body) now)
          (r_client_id record) (r_runner_instance_id record) (reg_job_inventory body) now = Some (reg_inner reg').
Proof.
  cbn zeta. unfold register_session. intros Hr.
  destruct (registration_record serialized_len body access streaming now) as [record|err] eqn:Er;
    [ | injection Hr as <- <- <- <-; by left].
  destruct (prune_expired_shared_key_runners_locked (offline_ttl_secs limits) reg now) as [reg1 sent0]. cbn [fst].
  destruct (check_claim limits (reg_inner reg1) record (reg_job_inventory body)) as [u|err];
    [ | injection Hr as <- <- <- <-; by right; left]. right. right.
  apply registration_record_ok in Er as [_ Hu]. exists record. split; [done | ].
  destruct (commit_spec grace epoch (reg_inner reg1) record streaming (reg_job_inventory body) now Hu)
    as (i' & Hcommit & Hrec & _).
  rewrite Hcommit in Hr. cbn [mbind option_bind] in Hr. destruct (runners i' !! _); [ | done].
  by injection Hr as <- <- <- <-.
Qed.
End Outcomes.

(** A registration never panics and is all or nothing.  When it fails, the
    registry is as it was, or as the expiry of long-offline shared-key Runners left
    it, and no session is cancelled.  When it succeeds, the lease of the client id
    named by the request is held by the instance, group and connection of the
    request with the capabilities it declared; the transport lease it displaced is
    the one that is cancelled; the authorization group of the client id did not
    change; the instance had not been retired, and a different instance that held
    the lease is retired now; a reconnect of the same instance keeps its
    projects, its registration time and its fixed features; and no other client's lease is touched. *)
Lemma registration_takes_over `{HashIteration} (serialized_len : ShellJobInventory -> result Z str) (grace : Z)
  (limits : SharedKeyRegistrationLimits) (epoch : str) (reg : RunnerRegistry) (body : RunnerRegisterRequest)
  (access : option RunnerAccess) (streaming : option StreamingSessionRegistration) (now : Z) :
  let pruned := (prune_expired_shared_key_runners_locked (offline_ttl_secs limits) reg now).1 in
  exists reg' sent cancelled r,
    register_session serialized_len grace limits epoch reg body access streaming now = Some (reg', sent, cancelled, r)
    /\ match r with
       | Err _ => (reg' = reg \/ reg' = pruned) /\ cancelled = None
       | Ok installed =>
           cancelled = notifiers (reg_inner pruned) !! trim (reg_client_id body)
           /\ lease_taken body access streaming (reg_inner pruned) (reg_inner reg') installed
       end.
Proof.
  cbn zeta. destruct (register_outcomes serialized_len grace limits epoch reg body access streaming now)
    as (reg' & sent & cancelled & r & Hr & Ho).
  exists reg', sent, cancelled, r. split; [exact Hr | ]. destruct r; naive_solver.
Qed.

(** ** The shared-key limits *)

Definition within_limits (limits : SharedKeyRegistrationLimits) (inner : RunnerRegistryInner) : Prop :=
  (forall g, count_runners (in_shared_key_group g) inner <= per_group limits)
  /\ count_runners (fun r => is_shared_key (r_auth_group r)) inner <= global limits.

(** Both counts look at nothing but the groups. *)
Definition groups (inner : RunnerRegistryInner) : gmap str (option RunnerAccessGroup) := r_auth_group <$> runners inner.

Definition count_groups (q : option RunnerAccessGroup -> bool) (m : gmap str (option RunnerAccessGroup)) : nat :=
  size (filter (fun kv => q kv.2 = true) m).

Definition group_is (g : str) (o : option RunnerAccessGroup) : bool :=
  match o with Some (SharedKey existing) => existing ==? g | _ => false end.

Lemma count_runners_groups (q : option RunnerAccessGroup -> bool) (inner : RunnerRegistryInner) :
  count_runners (fun r => q (r_auth_group r)) inner = count_groups q (groups inner).
Proof. unfold count_runners, count_groups, groups. by rewrite map_filter_fmap, map_size_fmap. Qed.

Lemma count_groups_sub (q : option RunnerAccessGroup -> bool) (m m' : gmap str (option RunnerAccessGroup)) :
  m ⊆ m' -> count_groups q m <= count_groups q m'.
Proof. intros Hs. by apply map_subseteq_size, map_filter_subseteq_mono. Qed.

Lemma count_groups_insert (q : option RunnerAccessGroup -> bool) (m : gmap str (option RunnerAccessGroup)) (k : str)
  (g : option RunnerAccessGroup) :
  m !! k = None -> count_groups q (<[k := g]> m) = (if q g then S (count_groups q m) else count_groups q m).
Proof.
  intros Hk. unfold count_groups. destruct (q g) eqn:E.
  - rewrite map_filter_insert_True by done. rewrite map_size_insert_None; [done | ].
    apply map_lookup_filter_None. by left.
  - rewrite map_filter_insert_False by (cbn; congruence). by rewrite delete_id.
Qed.

Lemma within_limits_groups (limits : SharedKeyRegistrationLimits) (i : RunnerRegistryInner) :
  within_limits limits i <->
  (forall g, count_groups (group_is g) (groups i) <= per_group limits)
  /\ count_groups is_shared_key (groups i) <= global limits.
Proof. unfold within_limits. rewrite count_runners_groups. setoid_rewrite (count_runners_groups (group_is _)). done. Qed.

Lemma taken_groups (body : RunnerRegisterRequest) (access : option RunnerAccess)
  (streaming : option StreamingSessionRegistration) (old new : RunnerRegistryInner) (installed : RunnerRecord) :
  lease_taken body access streaming old new installed ->
  groups new = <[ trim (reg_client_id body) := r_auth_group installed ]> (groups old).
Proof.
  intros Hl. apply map_eq. intros k. unfold groups. destruct (decide (k = trim (reg_client_id body))) as [->|Hk].
  - rewrite lookup_insert_eq, lookup_fmap, (lt_installed _ _ _ _ _ _ Hl). done.
  - rewrite lookup_insert_ne, !lookup_fmap by done. destruct (lt_others _ _ _ _ _ _ Hl k Hk) as [He _].
    destruct (runners new !! k) as [r'|], (runners old !! k) as [r|]; try done. cbn in *.
    f_equal. apply (lease_field r_auth_group); [done | congruence].
Qed.

Lemma check_limits_groups (limits : SharedKeyRegistrationLimits) (i : RunnerRegistryInner) (record : RunnerRecord) (g : str) :
  check_shared_key_limits limits i record = Ok tt -> r_auth_group record = Some (SharedKey g) ->
  groups i !! r_client_id record = None ->
  count_groups (group_is g) (groups i) < per_group limits /\ count_groups is_shared_key (groups i) < global limits.
Proof.
  unfold check_shared_key_limits, groups. rewrite lookup_fmap. intros Hc Hg Hn. rewrite Hg in Hc.
  destruct (runners i !! r_client_id record); [done | ]. step_guards Hc.
  apply Nat.leb_gt in Hguard, Hguard0.
  change (in_shared_key_group g) with (fun r => group_is g (r_auth_group r)) in Hguard.
  rewrite count_runners_groups in Hguard. rewrite (count_runners_groups is_shared_key) in Hguard0. done.
Qed.

(** The limits on Runners admitted by a shared key are kept: if no group has more
    than its share of Runners and all groups together no more than the global limit,
    then the same holds after any registration, accepted or refused. *)
Lemma shared_key_limits_hold `{HashIteration} (serialized_len : ShellJobInventory -> result Z str) (grace : Z)
  (limits : SharedKeyRegistrationLimits) (epoch : str) (reg reg' : RunnerRegistry) (body : RunnerRegisterRequest)
  (access : option RunnerAccess) (streaming : option StreamingSessionRegistration) (now : Z) sent cancelled r :
  within_limits limits (reg_inner reg) ->
  register_session serialized_len grace limits epoch reg body access streaming now = Some (reg', sent, cancelled, r) ->
  within_limits limits (reg_inner reg').
Proof.
  intros H0 Hr. destruct (register_outcomes serialized_len grace limits epoch reg body access streaming now)
    as (reg2 & sent2 & cancelled2 & r2 & Hr2 & Ho). rewrite Hr in Hr2. injection Hr2 as <- <- <- <-.
  assert (H1 : within_limits limits (reg_inner (prune_expired_shared_key_runners_locked (offline_ttl_secs limits) reg now).1)).
  { apply within_limits_groups in H0 as [Hg Ha]. apply within_limits_groups.
    assert (Hsub := map_fmap_mono r_auth_group _ _ (prune_runners_sub (offline_ttl_secs limits) reg now)).
    split; intros; (etransitivity; [by apply count_groups_sub | done]). }
  destruct r as [installed|err]; [ | destruct Ho as [[[-> _]| ->] _]; done].
  destruct Ho as (_ & Hl & record & Her & Hok & Hgr). set (i1 := reg_inner _) in H1, Hl, Hok. clearbody i1.
  apply within_limits_groups in H1 as [Hg Ha]. apply within_limits_groups. rewrite (taken_groups _ _ _ _ _ _ Hl).
  apply registration_record_ok in Her as [Hcl _]. rewrite Hgr, <- (cl_client _ _ _ _ Hcl).
  destruct (groups i1 !! r_client_id record) as [g0|] eqn:E.
  - rewrite insert_id; [done | ]. rewrite E. f_equal. unfold groups in E. rewrite lookup_fmap in E.
    apply fmap_Some in E as (e & He & ->). by eapply co_group.
  - destruct (r_auth_group record) as [[g|g|]|] eqn:Eg.
    2, 3, 4: split; intros; rewrite count_groups_insert by done; [apply Hg | exact Ha].
    destruct (check_limits_groups limits i1 record g (co_limits _ _ _ Hok) Eg E) as [L1 L2].
    split; intros; rewrite count_groups_insert by done; [ | cbn; lia]. cbn [group_is].
    destruct (g ==? g0) eqn:Eq; [apply beq_true in Eq as <-; lia | apply Hg].
Qed.

(** Instance [iid] of a Runner of the shared-key group "team" registers. *)
Definition sample_registration (cid iid : str) : RunnerRegisterRequest :=
  mkRegister cid iid 2 None None None (capabilities_of baseline_feature) None None None None None None None None.

Definition team_access : option RunnerAccess := Some (mkAccess false false None (Some (SharedKey (lit "team")))).

Definition sample_register (reg : RunnerRegistry) (cid iid : str) (now : Z) :=
  register_session (fun _ => Ok 0%Z) 120 (mkLimits 1 5 600) (lit "epoch") reg (sample_registration cid iid) team_access
    (Some (mkStreaming (lit "conn-" ++ iid) WebSocket)) now.

Definition registration_history (now : Z) :=
  r1 ← sample_register (mkRegistry RunnerRegistryInner_default ∅) (lit "r1") (lit "i1") 100;
  r2 ← sample_register r1.1.1.1 (lit "r1") (lit "i2") 101;
  r3 ← sample_register r2.1.1.1 (lit "r1") (lit "i1") 102;
  r4 ← sample_register r3.1.1.1 (lit "r2") (lit "k1") now;
  Some (r4.1.1.1, [r1.2; r2.2; r3.2; r4.2]).

(** A second instance takes the lease over, the first cannot come back, and a second
    Runner of the group exceeds its limit of one. *)
Example sample_history_outcomes :
  (fun h => map is_ok h.2) <$> registration_history 103 = Some [true; true; false; false].
Proof. vm_compute. reflexivity. Qed.

Lemma shared_key_limits_hold_witness :
  exists reg', fst ∘ fst ∘ fst <$> sample_register (mkRegistry RunnerRegistryInner_default ∅) (lit "r1") (lit "i1") 100
      = Some reg'
    /\ size (runners (reg_inner reg')) = 1 /\ within_limits (mkLimits 1 5 600) (reg_inner reg').
Proof.
  destruct (sample_register (mkRegistry RunnerRegistryInner_default ∅) (lit "r1") (lit "i1") 100)
    as [[[[reg' sent] cancelled] r]|] eqn:E; [ | vm_compute in E; discriminate].
  exists reg'. split; [reflexivity | ]. split.
  - vm_compute in E. injection E as <- <- <- <-. reflexivity.
  - refine (shared_key_limits_hold _ _ _ _ _ _ _ _ _ _ _ _ _ _ E). split; [intros g | ]; vm_compute; lia.
Defined.
