(* ===== verification/RegistrySafety.v ===== *)
(** * RegistrySafety: the registry as a state machine

    One step of the registry is one handler run under its mutex, with any
    arguments and at any time; the ids the handlers generate are fresh, and an
    enqueued request carries the id it is queued under.  The
    invariant of the Job records holds in every reachable state.  A terminal
    verdict is final along every history in which the record stays, except that
    [complete_checked] accepts the result of a request whose Job has ended
    already: such a late result gives the Job a new verdict. *)
From stdpp Require Import relations.
From S2P Require Import Prelude RustStr Lifecycle JobLog Capabilities RegistryState JobState InventoryCheck JobWire Samples JobUpdate UpdateFacts Polling PollFacts Admission AdmissionFacts ProjectInventory Reconcile Registration ReconcileFacts DisconnectFacts RegistrationFacts.

(** A generated request id is in use nowhere. *)
Definition fresh_request (i : RunnerRegistryInner) (rid : str) : Prop :=
  pending_by_id i !! rid = None /\ forall cid q, queues_by_runner i !! cid = Some q -> rid ∉ q.

Inductive registry_step `{HashIteration} : RunnerRegistryInner -> RunnerRegistryInner -> Prop :=
| step_refresh grace i jid now : registry_step i (refresh_job_status_locked grace i jid now)
| step_start (plans : PlanJson) is_alphanumeric sha256_hex i i' body requested_by m access initiator rid jid
    epoch receipts now r :
    fresh_request i rid -> jobs_by_id i !! jid = None ->
    start_job_with_metadata_for_access is_alphanumeric sha256_hex i body requested_by m access initiator
      rid jid epoch receipts now = Some (i', r) -> registry_step i i'
| step_poll is_alphanumeric i cid iid connection now :
    registry_step i (poll_checked is_alphanumeric i cid iid connection now).1.1
| step_complete is_alphanumeric mcp_valid plugin_valid i i' body connection now replies r :
    complete_checked is_alphanumeric mcp_valid plugin_valid i body connection now
    = Some ((i', replies), r) -> registry_step i i'
| step_complete_shell i i' body connection now reply r :
    complete_persistent_shell_checked i body connection now = Some ((i', reply), r) -> registry_step i i'
| step_enqueue operation i i' cid rid request w jid now fences attachment :
    fresh_request i rid -> req_request_id request = rid ->
    enqueue_pending_request_locked operation i cid rid request w jid now = Ok i' ->
    registry_step i (attach_request i' rid fences attachment)
| step_cancel_request i rid : registry_step i (cancel_request_dispatch_state i rid).1
| step_cancel_abandoned closed mcp_closed plugin_closed coding_closed i :
    registry_step i (cancel_abandoned_sync_requests closed mcp_closed plugin_closed coding_closed i).1
| step_begin_unregister grace i access project now :
    registry_step i (begin_project_unregister grace i access project now).1
| step_end_unregister i project : registry_step i (end_project_unregister i project)
| step_touch i cid iid connection now :
    registry_step i (touch_runner_for_connection i cid iid connection now).1
| step_metadata i cid iid connection tools providers now :
    registry_step i (update_runtime_metadata_checked i cid iid connection tools providers now).1
| step_prune_shared_key ttl reg now :
    registry_step (reg_inner reg) (reg_inner (prune_expired_shared_key_runners_locked ttl reg now).1)
| step_update i i' body expected now r :
    update_job_checked i body expected now = Some (i', r) -> registry_step i i'
| step_stop grace requested_by i access jid stop_id now :
    fresh_request i stop_id ->
    registry_step i (stop_job_for_auth grace requested_by i access jid stop_id now).1
| step_promote grace has_token i jid now :
    registry_step i (promote_hidden_job grace has_token i jid now).1
| step_cancel grace i access jid stop_id now :
    fresh_request i stop_id ->
    registry_step i (cancel_hidden_job_for_auth grace i access jid stop_id now).1
| step_discard i jid now : registry_step i (remove_projected_hidden_terminal_job_record i jid now).1
| step_sweep grace ttl reg now :
    registry_step (reg_inner reg) (reg_inner (recovery_timeout_sweep_locked grace ttl reg now).1)
| step_register serialized_len grace limits epoch reg reg' body access streaming now sent cancelled r :
    register_session serialized_len grace limits epoch reg body access streaming now
    = Some (reg', sent, cancelled, r) -> registry_step (reg_inner reg) (reg_inner reg')
| step_page summaries_json_len page_json_len page_json_digest i i' cid iid connection page now r :
    apply_project_inventory_page_checked summaries_json_len page_json_len page_json_digest i cid iid connection
      page now = Some (i', r) -> registry_step i i'
| step_upsert_project i cid iid project now :
    registry_step i (upsert_runner_project_for_instance i cid iid project now).1
| step_remove_project i cid iid pid now :
    registry_step i (remove_runner_project_for_instance i cid iid pid now).1
| step_disconnect i cid iid connection transport now :
    registry_step i (reconcile_disconnect_checked i cid iid connection transport now).1.1.

(** ** How a record may change in one step *)

(** As [job_evolves], except that a hidden Job may be promoted or put up for
    cleanup. *)
Record job_history (old new : ShellJobRecord) : Prop := {
  hi_job_id : job_id new = job_id old;
  hi_request_id : request_id new = request_id old;
  hi_client_id : client_id new = client_id old;
  hi_auth_group : auth_group new = auth_group old;
  hi_owner : owner_at_admission new = owner_at_admission old;
  hi_visibility : visibility new = visibility old \/ visibility old = HiddenUntilHandoff;
  hi_terminal : is_terminal (lifecycle old) = true -> new = old <| observation := observation new |>;
  hi_observed : forall t, terminal_observed_at (observation old) = Some t ->
    terminal_observed_at (observation new) = Some t;
  hi_start : start_of new = start_of old
}.

#[export] Instance job_history_refl : Reflexive job_history.
Proof. intros j. split; try done; [by left | intros _; by destruct j]. Qed.

#[export] Instance job_history_trans : Transitive job_history.
Proof.
  intros a b c [H1 H2 H3 H4 H5 Hv H6 H7 H8] [K1 K2 K3 K4 K5 Kv K6 K7 K8]. split; try congruence.
  - destruct Hv as [<-|?]; [done | by right].
  - intros Ht. specialize (H6 Ht). assert (Hb : is_terminal (lifecycle b) = true) by (by rewrite H6).
    rewrite (K6 Hb), H6. by destruct a.
  - auto.
Qed.

Lemma evolves_history (a b : ShellJobRecord) : job_evolves a b -> job_history a b.
Proof. intros []. split; try done. by left. Qed.

Lemma frame_history (a b : ShellJobRecord) :
  update_frame a b -> is_terminal (lifecycle a) = false -> job_history a b.
Proof. intros [] Ht. split; try done; [by left | congruence]. Qed.

(** Every record afterwards is an earlier one with a history. *)
Definition jobs_carry (i i' : RunnerRegistryInner) : Prop :=
  forall k j', jobs_by_id i' !! k = Some j' ->
    exists j, jobs_by_id i !! k = Some j /\ job_history j j' /\ (job_inv j -> job_inv j').

#[export] Instance jobs_carry_refl : Reflexive jobs_carry.
Proof. intros i k j H. by exists j. Qed.

#[export] Instance jobs_carry_trans : Transitive jobs_carry.
Proof.
  intros a b c Hab Hbc k j' Hc. destruct (Hbc k j' Hc) as (j & Hb & He & Hi).
  destruct (Hab k j Hb) as (j0 & Ha & He0 & Hi0). exists j0. split; [done | ].
  split; [by etransitivity | auto].
Qed.

Lemma refine_carry (i i' : RunnerRegistryInner) : jobs_refine i i' -> jobs_carry i i'.
Proof.
  intros Hr k j' Hj. destruct (Hr k j' Hj) as (j & Hj0 & He & Hi). exists j.
  split; [done | ]. split; [by apply evolves_history | done].
Qed.

Lemma carry_same (i i' : RunnerRegistryInner) : jobs_by_id i' = jobs_by_id i -> jobs_carry i i'.
Proof. intros He k j Hj. rewrite He in Hj. by exists j. Qed.

(** A record rewritten in place. *)
Lemma update_known_carry (i : RunnerRegistryInner) (id : str) (f : ShellJobRecord -> ShellJobRecord)
  (j : ShellJobRecord) :
  jobs_by_id i !! id = Some j -> job_history j (f j) -> (job_inv j -> job_inv (f j)) ->
  jobs_carry i (update_job_record i id f).
Proof.
  intros Hj Hh Hi k j' H. cbn in H. apply lookup_alter_Some in H as [(-> & j0 & Hj0 & ->)|[_ H]].
  - rewrite Hj in Hj0. injection Hj0 as <-. by exists j.
  - by exists j'.
Qed.

Lemma remove_carry (i : RunnerRegistryInner) (id : str) : jobs_carry i (remove_job_record i id).
Proof. apply refine_carry, remove_job_refine. Qed.

(** ... or a reconstructed one, where there was none but perhaps a record awaiting
    cleanup. *)
Definition jobs_step (i i' : RunnerRegistryInner) : Prop :=
  forall k j', jobs_by_id i' !! k = Some j' ->
    (exists j, jobs_by_id i !! k = Some j /\ job_history j j' /\ (job_inv j -> job_inv j'))
    \/ (job_id j' = k /\ job_inv j' /\ forall j, jobs_by_id i !! k = Some j -> visibility j = CleanupPending).

Lemma carry_step (i i' : RunnerRegistryInner) : jobs_carry i i' -> jobs_step i i'.
Proof. intros Hc k j' Hj. left. by apply Hc. Qed.

(** ** The handlers *)

Section Handlers.
Context `{HashIteration}.

Lemma remove_all_refine (ids : list str) (i : RunnerRegistryInner) : jobs_refine i (remove_all_jobs i ids).
Proof. apply fold_refine. intros. apply remove_job_refine. Qed.

Lemma lose_and_unmap_refine (i : RunnerRegistryInner) (cid : str) (l : list (str * ShellJobRecord)) (now : Z)
  (reason : JobRecoveryReason) (message : str) : jobs_refine i (lose_and_unmap i cid l now reason message).
Proof.
  unfold lose_and_unmap. etransitivity; [ | apply jobs_refine_same, remove_control_jobs].
  apply fold_refine. intros i0 e. etransitivity; [ | apply jobs_refine_same, remove_mapping_jobs].
  apply update_job_refine; auto with webcodex.
Qed.

Lemma terminate_refine (i : RunnerRegistryInner) (cid iid : str) (replacement : option ShellJobInventory)
  (now : Z) : jobs_refine i (terminate_instance_jobs_locked i cid iid replacement now).
Proof. etransitivity; [apply lose_and_unmap_refine | apply remove_all_refine]. Qed.

Lemma expire_refine (grace : Z) (i : RunnerRegistryInner) (filter : option str) (now : Z) (cap : nat) :
  jobs_refine i (expire_recovering_jobs_locked grace i filter now cap).1.
Proof.
  unfold expire_recovering_jobs_locked. destruct (is_empty _); [done | ]. cbn [fst].
  etransitivity; [ | apply remove_all_refine].
  etransitivity; [ | apply jobs_refine_same, drop_control_jobs].
  etransitivity; [ | apply jobs_refine_same, drop_mappings_jobs].
  apply fold_refine. intros i0 e.
  apply update_job_refine; intros j; destruct (recovery_active j); try done; auto with webcodex.
Qed.

Lemma observe_evolves (j : ShellJobRecord) (now : Z) : job_evolves j (observe_job_terminal j now).
Proof.
  destruct (observe_frame j now). split; try done. intros _. apply observe_same.
Qed.

Lemma observe_inv (j : ShellJobRecord) (now : Z) : job_inv j -> job_inv (observe_job_terminal j now).
Proof.
  intros [H1 H2]. rewrite observe_same. split; cbn; [ | done]. intros Ht. by apply observe_observed.
Qed.

Lemma prune_terminal_refine (reg : RunnerRegistry) (now : Z) :
  jobs_refine (reg_inner reg) (reg_inner (prune_expired_terminal_jobs_locked reg now).1).
Proof.
  unfold prune_expired_terminal_jobs_locked. set (observed := List.filter (fun e => wants_action now Observe (snd e)) _).
  set (expired := List.filter (fun e => wants_action now Remove (snd e)) _).
  set (i1 := fold_left _ observed (reg_inner reg)).
  assert (H1 : jobs_refine (reg_inner reg) i1).
  { apply fold_refine. intros i0 e. apply update_job_refine; intros j; [apply observe_evolves | apply observe_inv]. }
  destruct (is_empty expired); [exact H1 | ]. cbn [fst reg_inner].
  etransitivity; [exact H1 | ]. etransitivity; [ | apply remove_all_refine].
  apply jobs_refine_same.
  transitivity (jobs_by_id (drop_control_requests (drop_mappings i1 expired) expired)); [done | ].
  by rewrite drop_control_jobs, drop_mappings_jobs.
Qed.

Lemma resolve_all_jobs (err : str) (clients : list str) (st : RunnerRegistryInner * list WaiterResponse) :
  jobs_by_id (resolve_all_clients err st clients).1 = jobs_by_id st.1.
Proof.
  unfold resolve_all_clients. revert st. induction clients as [|c l IH]; intros st; cbn [fold_left]; [done | ].
  rewrite IH. pose proof (resolve_disconnected_jobs (fst st) c err) as Hr.
  destruct (resolve_disconnected_sync_requests_locked (fst st) c err). done.
Qed.

Lemma lose_jobs_refine (i : RunnerRegistryInner) (ids : list str) (now : Z) (reason : JobRecoveryReason)
  (message : str) : jobs_refine i (lose_jobs i ids now reason message).
Proof. apply fold_refine. intros i0 e. apply update_job_refine; auto with webcodex. Qed.

Lemma prune_shared_key_refine (ttl : Z) (reg : RunnerRegistry) (now : Z) :
  jobs_refine (reg_inner reg) (reg_inner (prune_expired_shared_key_runners_locked ttl reg now).1).
Proof.
  unfold prune_expired_shared_key_runners_locked.
  set (expired := map fst (List.filter _ (hash_iter (runners _)))).
  destruct (is_empty expired); [done | ].
  pose proof (resolve_all_jobs EXPIRED_WAITER_MESSAGE expired (reg_inner reg, [])) as Hr.
  destruct (resolve_all_clients EXPIRED_WAITER_MESSAGE (reg_inner reg, []) expired) as [i1 sent].
  cbn [fst reg_inner] in *. etransitivity; [apply (jobs_refine_same _ _ Hr) | ].
  set (i2 := lose_jobs i1 _ now SharedKeyRunnerExpired EXPIRED_JOB_MESSAGE). set (i3 := fold_left _ _ i2).
  assert (H3 : jobs_by_id i3 = jobs_by_id i2) by (by apply fold_jobs_same).
  transitivity i2; [apply lose_jobs_refine | ]. apply jobs_refine_same. by rewrite fold_jobs_same.
Qed.

Lemma sweep_refine (grace ttl : Z) (reg : RunnerRegistry) (now : Z) :
  jobs_refine (reg_inner reg) (reg_inner (recovery_timeout_sweep_locked grace ttl reg now).1).
Proof.
  unfold recovery_timeout_sweep_locked. pose proof (prune_shared_key_refine ttl reg now) as H1.
  destruct (prune_expired_shared_key_runners_locked ttl reg now) as [reg1 sent]. cbn [fst] in *.
  etransitivity; [exact H1 | ]. etransitivity; [ | apply prune_terminal_refine]. cbn.
  etransitivity; [ | apply expire_refine]. by apply jobs_refine_same.
Qed.

Lemma disconnect_refine (i : RunnerRegistryInner) (cid iid : str) (connection : option str)
  (transport : option RunnerTransport) (now : Z) :
  jobs_refine i (reconcile_disconnect_checked i cid iid connection transport now).1.1.
Proof.
  destruct (lease_is_active i cid iid connection transport) eqn:El.
  - rewrite disconnect_unfold by done. cbn [fst].
    etransitivity; [ | apply jobs_refine_same, resolve_disconnected_jobs].
    etransitivity; [ | apply jobs_refine_same, fold_jobs_same; done].
    etransitivity; [ | apply fold_refine; intros; apply disconnect_one_refine].
    apply jobs_refine_same. unfold offline_lease. by destruct (is_some_and _ _).
  - unfold reconcile_disconnect_checked. by rewrite El.
Qed.

Lemma update_carry (i i' : RunnerRegistryInner) (body : RunnerJobUpdateRequest) (expected : option str)
  (now : Z) (r : result ShellJobRecord str) :
  update_job_checked i body expected now = Some (i', r) -> jobs_carry i i'.
Proof.
  intros Hu. destruct (update_job_cases i i' body expected now r Hu)
    as [Hs|(seq & l & j & j' & drop & _ & Hj & _ & _ & _ & Ht & Hup & Hk)]; [by apply carry_same | ].
  apply updated_job_spec in Hup as (F & I & _); [ | done]. intros k x Hx. rewrite Hk in Hx.
  destruct (decide (k = up_job_id body)) as [->|_]; [ | by exists x].
  destruct (_ && _); [done | ]. injection Hx as <-. exists j. split; [done | ].
  split; [by apply frame_history | done].
Qed.

Lemma refresh_carry (grace : Z) (i : RunnerRegistryInner) (jid : str) (now : Z) :
  jobs_carry i (refresh_job_status_locked grace i jid now).
Proof. apply refine_carry, refresh_refine. Qed.

Lemma drop_start_jobs (i : RunnerRegistryInner) (rid : option str) :
  jobs_by_id (drop_start_request i rid) = jobs_by_id i.
Proof. by destruct rid. Qed.

Lemma enqueue_jobs operation i i' cid rid rcid w jid now :
  enqueue_pending_request_locked operation i cid rid rcid w jid now = Ok i' -> jobs_by_id i' = jobs_by_id i.
Proof. unfold enqueue_pending_request_locked. intros Hq. step_guards Hq. by injection Hq as <-. Qed.

Lemma enqueue_stop_jobs requested_by i i' jid stop_id job now :
  enqueue_stop requested_by i jid stop_id job now = Ok i' -> jobs_by_id i' = jobs_by_id i.
Proof.
  unfold enqueue_stop. intros Hq. step_guards Hq.
  destruct (enqueue_pending_request_locked _ _ _ _ _ _ _ _) eqn:E; [ | done]. injection Hq as <-.
  by eapply enqueue_jobs.
Qed.

Lemma stop_queued_frame (j : ShellJobRecord) (now : Z) :
  update_frame j (stop_queued j now) /\ (job_inv j -> job_inv (stop_queued j now)).
Proof.
  unfold stop_queued. rewrite observe_same.
  pose proof (observe_frame (j <| lifecycle := Stopped |>) now) as [_ _ _ _ _ _ _ Hobs].
  pose proof (observe_observed (j <| lifecycle := Stopped |>) now eq_refl) as Hsome.
  set (o := observe_job_terminal _ now) in *. cbn in Hobs. cbn [structured_execution set_field].
  split.
  - etransitivity; [ | apply notify_frame]. cbn. destruct (is_some (structured_execution j)); frame_step.
  - intros [Hi1 Hi2]. apply notify_inv. cbn. destruct (is_some (structured_execution j)); split; done.
Qed.

Lemma stop_requested_frame (j : ShellJobRecord) (err : option str) :
  let j' := j <| lifecycle := StopRequested |> <| error := err |> in
  update_frame j j' /\ (job_inv j -> job_inv j').
Proof. cbn zeta. split; [by split | ]. intros [H1 H2]. by split. Qed.

Lemma stop_carry (grace : Z) (requested_by : str) (i : RunnerRegistryInner)
  (access : option RunnerAccess) (jid stop_id : str) (now : Z) :
  jobs_carry i (stop_job_for_auth grace requested_by i access jid stop_id now).1.
Proof.
  unfold stop_job_for_auth. destruct (validate_id jid _); [ | done].
  transitivity (refresh_job_status_locked grace i jid now); [apply refresh_carry | ].
  set (i1 := refresh_job_status_locked grace i jid now). clearbody i1.
  destruct (jobs_by_id i1 !! jid) as [j|] eqn:Ej; [ | done]. destruct (_ || _); [done | ].
  destruct (recovery_active j); [done | ].
  assert (Hreq : is_terminal (lifecycle j) = false -> jobs_carry i1
    (match enqueue_stop requested_by i1 jid stop_id j now with
     | Err err => (i1, Err err)
     | Ok inner => (update_job_record inner jid (fun j =>
         notify_job_update (j <| lifecycle := StopRequested |> <| error := Some (lit "stop requested") |>)), Ok tt)
     end).1).
  { intros Ht. destruct (enqueue_stop _ _ _ _ _ _) as [i2|] eqn:Eq; [ | done]. apply enqueue_stop_jobs in Eq.
    transitivity i2; [by apply carry_same | ].
    destruct (stop_requested_frame j (Some (lit "stop requested"))) as [F I].
    apply (update_known_carry _ _ _ j); [by rewrite Eq | | auto using notify_inv].
    apply frame_history; [ | done]. etransitivity; [exact F | apply notify_frame]. }
  destruct (lifecycle j) eqn:El; try done; [ | by apply Hreq ..].
  set (i2 := drop_start_request i1 (request_id j)).
  transitivity i2; [apply carry_same, drop_start_jobs | ]. destruct (stop_queued_frame j now) as [F I].
  apply (update_known_carry _ _ _ j); [subst i2; by rewrite drop_start_jobs | | done].
  apply frame_history; [done | by rewrite El].
Qed.

Lemma set_visibility_carry (i : RunnerRegistryInner) (jid : str) (j : ShellJobRecord) (v : ShellJobVisibility) :
  jobs_by_id i !! jid = Some j -> visibility j = v \/ visibility j = HiddenUntilHandoff ->
  is_terminal (lifecycle j) = false ->
  jobs_carry i (update_job_record i jid (fun j => j <| visibility := v |>)).
Proof.
  intros Hj Hv Ht. apply (update_known_carry _ _ _ j); [done | | by intros [? ?]].
  split; try done; [ | congruence]. cbn. destruct Hv as [->|?]; [by left | by right].
Qed.

Lemma promote_carry (grace : Z) (has_token : ShellJobRecord -> bool) (i : RunnerRegistryInner) (jid : str)
  (now : Z) : jobs_carry i (promote_hidden_job grace has_token i jid now).1.
Proof.
  unfold promote_hidden_job.
  transitivity (refresh_job_status_locked grace i jid now); [apply refresh_carry | ].
  set (i1 := refresh_job_status_locked grace i jid now). clearbody i1.
  destruct (jobs_by_id i1 !! jid) as [j|] eqn:Ej; [ | done].
  destruct (visibility j ==? CleanupPending) eqn:Ev; [done | ].
  destruct (is_terminal (lifecycle j)) eqn:Et; [done | ]. destruct (negb _); [done | ].
  apply (set_visibility_carry i1 jid j Public Ej); [ | done].
  apply beq_false in Ev. destruct (visibility j); [by left | by right | done].
Qed.

Lemma cancel_carry (grace : Z) (i : RunnerRegistryInner)
  (access : option RunnerAccess) (jid stop_id : str) (now : Z) :
  jobs_carry i (cancel_hidden_job_for_auth grace i access jid stop_id now).1.
Proof.
  unfold cancel_hidden_job_for_auth. destruct (validate_id jid _); [ | done].
  transitivity (refresh_job_status_locked grace i jid now); [apply refresh_carry | ].
  set (i1 := refresh_job_status_locked grace i jid now). clearbody i1.
  destruct (jobs_by_id i1 !! jid) as [j|] eqn:Ej; [ | done].
  destruct (visibility j ==? Public) eqn:Ev; [done | ]. destruct (negb (job_visible_to_access _ _ _)); [done | ].
  cbn [orb]. destruct (lifecycle j ==? Queued).
  { etransitivity; [apply (carry_same i1 (drop_start_request i1 (request_id j))), drop_start_jobs | apply remove_carry]. }
  destruct (is_terminal (lifecycle j)) eqn:Et; [apply remove_carry | ].
  apply beq_false in Ev.
  assert (Hc : jobs_carry i1 (update_job_record i1 jid (fun j => j <| visibility := CleanupPending |>))).
  { apply (set_visibility_carry i1 jid j); [done | | done]. destruct (visibility j); [done | by right | by left]. }
  etransitivity; [exact Hc | ]. set (i2 := update_job_record i1 jid _).
  destruct (_ && _); [ | done]. destruct (enqueue_stop _ _ _ _ _ _) as [i3|] eqn:Eq; [ | done].
  apply enqueue_stop_jobs in Eq. transitivity i3; [by apply carry_same | ].
  set (j2 := j <| visibility := CleanupPending |>).
  destruct (stop_requested_frame j2 (Some (lit "internal structured execution cleanup requested"))) as [F I].
  apply (update_known_carry _ _ _ j2); [ | by apply frame_history | done].
  rewrite Eq. cbn. by rewrite lookup_alter_eq, Ej.
Qed.

Lemma discard_carry (i : RunnerRegistryInner) (jid : str) (now : Z) :
  jobs_carry i (remove_projected_hidden_terminal_job_record i jid now).1.
Proof.
  unfold remove_projected_hidden_terminal_job_record.
  destruct (jobs_by_id i !! jid) as [j|]; [ | done]. destruct (request_id j); [ | done].
  destruct (_ || _); [done | ]. etransitivity; [ | apply (carry_same (remove_job_record i jid)); done].
  apply remove_carry.
Qed.

Lemma apply_snapshot_inv (j j' : ShellJobRecord) (s : ShellJobSnapshot) (now : Z) (reason : JobRecoveryReason) :
  apply_snapshot j s now reason = Some j' -> job_inv j'.
Proof.
  unfold apply_snapshot. destruct (expect_lifecycle _) as [l|]; [ | done]. cbn [mbind option_bind].
  rewrite observe_same. intros [= <-]. apply notify_inv. split; cbn; [ | done].
  intros Hl. by apply (observe_observed (j <| lifecycle := l |>)).
Qed.

Lemma reconcile_existing_inv (iid : str) (now : Z) (j j' : ShellJobRecord) (s : ShellJobSnapshot) :
  reconcile_existing iid now j s = Some (Update j') -> job_inv j'.
Proof.
  unfold reconcile_existing. repeat (destruct (_ : bool); [done | ]).
  intros (x & Hx & [= <-])%fmap_Some. by eapply apply_snapshot_inv.
Qed.

Lemma reconcile_unknown_fresh (cid iid : str) (group : option RunnerAccessGroup) (epoch : str) (now : Z)
  (runner : option RunnerRecord) (s : ShellJobSnapshot) (out : SnapshotOutcome) (j' : ShellJobRecord) :
  reconcile_unknown cid iid group epoch now runner s = Some out -> after_outcome None out = Some j' ->
  job_id j' = snap_job_id s /\ job_inv j'.
Proof.
  unfold reconcile_unknown. destruct (_ && _); [by intros [= <-] | ]. unfold record_from_snapshot.
  destruct (expect_lifecycle (snap_status s)) as [l|]; [ | done]. cbn [mbind option_bind].
  rewrite observe_same. set (j0 := mkJob _ _ _ _ _ _ _ _ _ _ _ _ _ _ _ _ _ _ _ _ _ _ _ _ _ _ _ _ _ _ _ _ _ _ _ _).
  pose proof (observe_observed j0 now) as Ho. set (o := observe_job_terminal j0 now) in *.
  intros [= <-] [= <-]. split; [done | ]. apply notify_inv. split; cbn; [exact Ho | done].
Qed.

Lemma reconcile_step (grace : Z) (i i' : RunnerRegistryInner) (cid iid : str)
  (group : option RunnerAccessGroup) (epoch : str) (inventory : ShellJobInventory) (now : Z)
  (summary : ReconciliationSummary) :
  inventory_usable inventory ->
  reconcile_inventory_locked grace i cid iid group epoch inventory now = Some (i', summary) ->
  jobs_step i i'.
Proof.
  intros Hu Hr k j' Hj'.
  destruct (reconcile_spec grace i cid iid group epoch inventory now Hu) as (i2 & sum2 & Hr2 & Hk).
  rewrite Hr in Hr2. injection Hr2 as <- <-. specialize (Hk k). rewrite Hj' in Hk.
  assert (Hstart : jobs_refine i (reconcile_start grace i cid now)).
  { etransitivity; [ | apply expire_refine]. by apply jobs_refine_same. }
  apply fmap_Some in Hk as (o & Ho & Hf). symmetry in Hf. apply opt_filter_some in Hf as [-> _].
  unfold reconcile_record in Ho.
  destruct (jobs_by_id (reconcile_start grace i cid now) !! k) as [j1|] eqn:Ej1.
  - destruct (Hstart k j1 Ej1) as (j & Hj & He & Hi). left. exists j. split; [done | ].
    assert (Hx : job_evolves j1 j' /\ (job_inv j1 -> job_inv j')).
    { destruct (find_snapshot _ k) as [s|]; cbn [outcome_on] in Ho.
      - apply fmap_Some in Ho as (out & Eo & Ha). pose proof Eo as Eo'.
        apply reconcile_existing_evolves in Eo as (x & Hx & Hev & Hout). rewrite Hx in Ha.
        injection Ha as ->. split; [done | ]. destruct Hout as [->|[-> _]].
        + by injection Hx as <-.
        + intros _. by eapply reconcile_existing_inv.
      - injection Ho as <-. destruct (_ && _); [ | done]. split; [apply mark_lost_evolves | apply mark_lost_inv]. }
    destruct Hx as [Hev Hinv]. split; [ | auto]. apply evolves_history. by etransitivity.
  - destruct (find_snapshot (inv_jobs inventory) k) as [s|] eqn:Ef; [ | done]. cbn [outcome_on] in Ho.
    apply fmap_Some in Ho as (out & Eo & Ha). right. apply find_snapshot_some in Ef as [_ <-].
    destruct (reconcile_unknown_fresh _ _ _ _ _ _ _ _ _ Eo (eq_sym Ha)) as [Hid Hinv].
    split_and!; [done | done | ]. intros j Hj. destruct (decide (visibility j = CleanupPending)) as [?|Hn]; [done | ].
    destruct (start_lookup grace i cid now _ j Hj Hn) as (j1 & Hj1 & _). congruence.
Qed.

(** *** Registration *)

(** Every Job stays, except perhaps one up for cleanup. *)
Definition jobs_last (i i' : RunnerRegistryInner) : Prop :=
  forall k j, jobs_by_id i !! k = Some j -> visibility j <> CleanupPending -> is_Some (jobs_by_id i' !! k).

Lemma jobs_last_same (i i' : RunnerRegistryInner) : jobs_by_id i' = jobs_by_id i -> jobs_last i i'.
Proof. intros He k j Hj _. rewrite He. by exists j. Qed.

Lemma jobs_last_trans (a b c : RunnerRegistryInner) :
  jobs_refine a b -> jobs_last a b -> jobs_last b c -> jobs_last a c.
Proof.
  intros Hr Hab Hbc k j Hj Hv. destruct (Hab k j Hj Hv) as [j1 Hj1]. destruct (Hr k j1 Hj1) as (j0 & Hj0 & He & _).
  rewrite Hj in Hj0. injection Hj0 as <-. apply (Hbc k j1 Hj1). by rewrite (ev_visibility _ _ He).
Qed.

(** Jobs that only evolve, then a step. *)
Lemma refine_then_step (a b c : RunnerRegistryInner) :
  jobs_refine a b -> jobs_last a b -> jobs_step b c -> jobs_step a c.
Proof.
  intros Hr Hl Hs k j' Hj'. destruct (Hs k j' Hj') as [(j1 & Hj1 & Hh & Hi)|(Hid & Hi & Hc)].
  - left. destruct (Hr k j1 Hj1) as (j & Hj & He & Hi1). exists j. split; [done | ].
    split; [ | auto]. etransitivity; [by apply evolves_history | done].
  - right. split_and!; [done | done | ]. intros j Hj.
    destruct (decide (visibility j = CleanupPending)) as [?|Hn]; [done | ]. destruct (Hl k j Hj Hn) as [j1 Hj1].
    destruct (Hr k j1 Hj1) as (j0 & Hj0 & He & _). rewrite Hj in Hj0. injection Hj0 as <-.
    rewrite <- (ev_visibility _ _ He). by apply Hc.
Qed.

Lemma lose_jobs_last (i : RunnerRegistryInner) (ids : list str) (now : Z) (reason : JobRecoveryReason)
  (message : str) : jobs_last i (lose_jobs i ids now reason message).
Proof.
  intros k j Hj _. unfold lose_jobs.
  assert (Hk : is_Some (jobs_by_id i !! k)) by (by exists j). clear Hj. revert i Hk.
  induction ids as [|x ids IH]; intros i Hk; cbn [fold_left]; [done | ]. apply IH. by apply lookup_alter_is_Some.
Qed.

Lemma prune_shared_key_last (ttl : Z) (reg : RunnerRegistry) (now : Z) :
  jobs_last (reg_inner reg) (reg_inner (prune_expired_shared_key_runners_locked ttl reg now).1).
Proof.
  unfold prune_expired_shared_key_runners_locked.
  set (expired := map fst (List.filter _ (hash_iter (runners _)))).
  destruct (is_empty expired); [by apply jobs_last_same | ].
  pose proof (resolve_all_jobs EXPIRED_WAITER_MESSAGE expired (reg_inner reg, [])) as Hr.
  destruct (resolve_all_clients EXPIRED_WAITER_MESSAGE (reg_inner reg, []) expired) as [i1 sent].
  cbn [fst reg_inner] in *. intros k j Hj Hv. rewrite <- Hr in Hj.
  set (i2 := lose_jobs i1 _ now SharedKeyRunnerExpired EXPIRED_JOB_MESSAGE). set (i3 := fold_left _ _ i2).
  assert (H3 : jobs_by_id i3 = jobs_by_id i2) by (by apply fold_jobs_same).
  rewrite fold_jobs_same by done. cbn. rewrite H3. by eapply lose_jobs_last.
Qed.

Lemma terminate_last (i : RunnerRegistryInner) (cid iid : str) (replacement : option ShellJobInventory) (now : Z) :
  jobs_last i (terminate_instance_jobs_locked i cid iid replacement now).
Proof.
  intros k j Hj Hv. unfold terminate_instance_jobs_locked. rewrite remove_cleanup_lookup.
  rewrite lose_and_unmap_lookup by apply NoDup_map_filter, NoDup_hash_keys. rewrite Hj.
  assert (Hm : forall x, visibility x = visibility j -> is_Some (opt_filter (fun x => negb (removable x)) (Some x))).
  { intros x Hx. cbn. unfold removable. rewrite Hx. apply beq_neq in Hv. rewrite Hv. by eexists. }
  destruct (decide _); cbn [fmap option_fmap option_map]; apply Hm; [ | done].
  apply (ev_visibility _ _ (mark_lost_evolves _ _ _ _)).
Qed.

Lemma retire_replaced_refine (i : RunnerRegistryInner) (record : RunnerRecord) (inventory : option ShellJobInventory)
  (now : Z) : jobs_refine i (retire_replaced i record inventory now).1 /\ jobs_last i (retire_replaced i record inventory now).1.
Proof.
  unfold retire_replaced. destruct (replaced_instance i record) as [old|]; [ | split; [done | by apply jobs_last_same]].
  set (i1 := terminate_instance_jobs_locked _ _ _ _ _).
  pose proof (resolve_disconnected_jobs i1 (r_client_id record) REPLACED_WAITER_MESSAGE) as Hr.
  destruct (resolve_disconnected_sync_requests_locked _ _ _) as [i2 sent]. cbn [fst] in *.
  assert (Hs : jobs_by_id (retire_instance i2 (r_client_id record) old) = jobs_by_id i1) by (by rewrite <- Hr).
  split.
  - etransitivity; [apply terminate_refine | by apply jobs_refine_same].
  - eapply jobs_last_trans; [apply terminate_refine | apply terminate_last | by apply jobs_last_same].
Qed.

Lemma register_step serialized_len grace limits epoch reg reg' body access streaming now sent cancelled r :
  register_session serialized_len grace limits epoch reg body access streaming now = Some (reg', sent, cancelled, r) ->
  jobs_step (reg_inner reg) (reg_inner reg').
Proof.
  intros Hr. pose proof (prune_shared_key_refine (offline_ttl_secs limits) reg now) as Hp.
  pose proof (prune_shared_key_last (offline_ttl_secs limits) reg now) as Hq.
  destruct (register_states _ _ _ _ _ _ _ _ _ _ _ _ _ Hr) as [->|[->|(record & Hu & Hrec)]];
    [by apply carry_step | by apply carry_step, refine_carry | ].
  eapply refine_then_step; [exact Hp | exact Hq | ].
  destruct (retire_replaced_refine (reg_inner (prune_expired_shared_key_runners_locked (offline_ttl_secs limits) reg now).1)
    record (reg_job_inventory body) now) as [H1 H2].
  eapply refine_then_step; [exact H1 | exact H2 | ]. unfold taken_over in Hrec.
  set (i1 := (retire_replaced _ record _ now).1) in *. set (i2 := install_lease i1 _ _) in *.
  assert (Hsame : jobs_by_id i2 = jobs_by_id i1) by done. clearbody i2.
  eapply refine_then_step; [by apply jobs_refine_same | by apply jobs_last_same | ].
  destruct (reg_job_inventory body) as [inv|]; cbn [reconcile_reported] in Hrec;
    [ | injection Hrec as ->; by apply carry_step].
  apply fmap_Some in Hrec as ([i3 sum] & Hrec & ->). eapply reconcile_step; [by apply Hu | exact Hrec].
Qed.

Lemma page_jobs summaries_json_len page_json_len page_json_digest i i' cid iid connection page now r :
  apply_project_inventory_page_checked summaries_json_len page_json_len page_json_digest i cid iid connection
    page now = Some (i', r) -> jobs_by_id i' = jobs_by_id i.
Proof.
  unfold apply_project_inventory_page_checked. destruct (validate_runner_instance_id iid); [ | by intros [= <- _]].
  destruct (runners _ !! cid) as [x|]; [ | by intros [= <- _]]. destruct (_ !=? iid); [by intros [= <- _] | ].
  destruct (is_some_and _ connection); [by intros [= <- _] | ].
  destruct (apply_page _ _ _ _ _ _ _) as [y|]; [ | done]. by intros [= <- _].
Qed.

Lemma upsert_jobs i cid iid project now :
  jobs_by_id (upsert_runner_project_for_instance i cid iid project now).1 = jobs_by_id i.
Proof. unfold upsert_runner_project_for_instance. by destruct (result_bind _ _). Qed.

Lemma remove_project_jobs i cid iid pid now :
  jobs_by_id (remove_runner_project_for_instance i cid iid pid now).1 = jobs_by_id i.
Proof. unfold remove_runner_project_for_instance. by destruct (with_active_runner _ _ _). Qed.

(** *** Starting, polling and results *)

(** The result of a request whose Job [k] has ended already is accepted, and the
    Job gets the verdict of that result. *)
Inductive late_result (k : str) (i i' : RunnerRegistryInner) (j1 j2 : ShellJobRecord) : Prop :=
| late_result_accepted is_alphanumeric mcp_valid plugin_valid body connection now replies r p :
    complete_checked is_alphanumeric mcp_valid plugin_valid i body connection now = Some ((i', replies), r) ->
    pending_by_id i !! res_request_id body = Some p -> p_job_id p = Some k -> result_job i p = Some j1 ->
    is_terminal (lifecycle j1) = true -> verdict body now j1 j2 ->
    jobs_by_id i' = <[ k := j2 ]> (jobs_by_id i) -> late_result k i i' j1 j2.

Lemma late_result_lookup (k : str) (i i' : RunnerRegistryInner) (j1 j2 : ShellJobRecord) :
  late_result k i i' j1 j2 -> jobs_by_id i !! k = Some j1 /\ jobs_by_id i' !! k = Some j2
    /\ forall k', k' <> k -> jobs_by_id i' !! k' = jobs_by_id i !! k'.
Proof.
  intros [al mv pv body conn now replies r p _ _ Hk Hj _ _ Hi]. rewrite Hi, lookup_insert_eq.
  split_and!; [by eapply result_job_lookup | done | intros k' Hk'; by rewrite lookup_insert_ne].
Qed.

(** What a late result keeps all the same. *)
Record job_kept (old new : ShellJobRecord) : Prop := {
  kp_job_id : job_id new = job_id old;
  kp_request_id : request_id new = request_id old;
  kp_client_id : client_id new = client_id old;
  kp_auth_group : auth_group new = auth_group old;
  kp_owner : owner_at_admission new = owner_at_admission old;
  kp_start : start_of new = start_of old;
  kp_visibility : visibility new = visibility old \/ visibility old = HiddenUntilHandoff;
  kp_terminal : is_terminal (lifecycle old) = true -> is_terminal (lifecycle new) = true;
  kp_observed : forall t, terminal_observed_at (observation old) = Some t ->
    terminal_observed_at (observation new) = Some t
}.

#[export] Instance job_kept_refl : Reflexive job_kept.
Proof. intros j. split; try done. by left. Qed.

#[export] Instance job_kept_trans : Transitive job_kept.
Proof.
  intros a b c [] []. split; try congruence; [ | auto ..].
  destruct kp_visibility0 as [<-|?]; [done | by right].
Qed.

Lemma history_kept (a b : ShellJobRecord) : job_history a b -> job_kept a b.
Proof. intros []. split; try done. intros Ht. by rewrite hi_terminal0. Qed.

Lemma late_result_kept (k : str) (i i' : RunnerRegistryInner) (j1 j2 : ShellJobRecord) :
  late_result k i i' j1 j2 -> job_kept j1 j2 /\ (job_inv j1 -> job_inv j2).
Proof.
  intros [al mv pv body conn now replies r p _ _ _ _ _ Hverdict _].
  destruct Hverdict as (Hl & _ & _ & _ & Ho & Hrec & Hid & Hc & Hr & Hg & Hw & Hv & Hst & Hobs). split.
  - split; try done; [by left | ]. intros _. rewrite Hl. by destruct (result_success body).
  - intros [_ Hi]. split; [done | by rewrite Hrec].
Qed.

Lemma start_step {plans : PlanJson} is_alphanumeric sha256_hex i i' body requested_by m access initiator rid jid
  epoch receipts now r :
  jobs_by_id i !! jid = None ->
  start_job_with_metadata_for_access is_alphanumeric sha256_hex i body requested_by m access initiator
    rid jid epoch receipts now = Some (i', r) -> jobs_step i i'.
Proof.
  intros Hfresh Heq.
  destruct (start_outcomes is_alphanumeric sha256_hex i body requested_by m access initiator rid jid epoch
    receipts now) as (i2 & r2 & Heq2 & Hout). unfold start_ in Heq2. rewrite Heq in Heq2. injection Heq2 as <- <-.
  destruct Hout as [err|plan command runner existing Hp Hr Hx|plan command runner i1 Hp Hr Hx Hq job];
    [by apply carry_step .. | ].
  apply enqueue_spec in Hq as [-> _]. intros k j' Hj'. cbn in Hj'.
  apply lookup_insert_Some in Hj' as [[<- <-]|[_ Hj']]; [ | left; by exists j'].
  right. split_and!; [done | by split | ]. intros j Hj. exfalso. destruct Hp as [_ _ _ _ _ _ _ Hid Hint _].
  destruct (is_detached_request m) eqn:Ed.
  - apply (replayed_fresh _ _ m) in Hx; [congruence | done | done].
  - unfold start_job_id in Hid. rewrite Ed in Hid. step_guards Hid.
    destruct (sm_detached_idempotency_key m); [done | ]. injection Hid as Hid. congruence.
Qed.

Lemma dispatch_job_history (now : Z) (j : ShellJobRecord) :
  job_history j (dispatch_job now j) /\ (job_inv j -> job_inv (dispatch_job now j)).
Proof.
  unfold dispatch_job. destruct (lifecycle j ==? Queued) eqn:E; [ | done]. apply beq_true in E.
  destruct (is_none _); split.
  1, 3: split; cbn; try done; [by left | by rewrite E].
  all: intros [_ Hi]; apply notify_inv; by split.
Qed.

Lemma poll_carry is_alphanumeric i cid iid connection now :
  jobs_carry i (poll_checked is_alphanumeric i cid iid connection now).1.1.
Proof.
  pose proof (poll_jobs is_alphanumeric i cid iid connection now) as Hp.
  destruct (poll_checked is_alphanumeric i cid iid connection now) as [[i' replies] answer]. cbn [fst] in *.
  destruct Hp as [Hj|(p & Hj)]; [by apply carry_same | ].
  intros k j' Hj'. rewrite Hj in Hj'. unfold dispatched_jobs in Hj'.
  destruct (is_stop _); [by exists j' | ]. destruct (p_job_id p) as [jid|]; [ | by exists j'].
  apply lookup_alter_Some in Hj' as [(-> & j & Hk & ->)|[_ Hk]]; [ | by exists j'].
  exists j. split; [done | apply dispatch_job_history].
Qed.

Lemma verdict_history body now j j' :
  is_terminal (lifecycle j) = false -> verdict body now j j' ->
  job_history j j' /\ (job_inv j -> job_inv j').
Proof.
  intros Ht (Hl & _ & _ & _ & Ho & Hrec & Hid & Hc & Hr & Hg & Hw & Hv & Hst & Hobs). split.
  - split; try done; [by left | congruence].
  - intros [_ Hi]. split; [done | by rewrite Hrec].
Qed.

Lemma complete_carry is_alphanumeric mcp_valid plugin_valid i i' body connection now replies r :
  complete_checked is_alphanumeric mcp_valid plugin_valid i body connection now
  = Some ((i', replies), r) -> jobs_carry i i' \/ exists k j1 j2, late_result k i i' j1 j2.
Proof.
  intros Hc. pose proof Hc as Ho. apply complete_jobs in Ho
    as [Hj|(p & j & j' & k & Hp & Hres & Hk & Hj & Hv)]; [left; by apply carry_same | ].
  destruct (is_terminal (lifecycle j)) eqn:Et.
  { right. exists k, j, j'. by econstructor. }
  left. intros k' x Hx. rewrite Hj in Hx. apply lookup_insert_Some in Hx as [[<- <-]|[_ Hx]]; [ | by exists x].
  exists j. split; [by eapply result_job_lookup | by eapply verdict_history].
Qed.

Lemma complete_shell_jobs i i' body connection now reply r :
  complete_persistent_shell_checked i body connection now = Some ((i', reply), r) ->
  jobs_by_id i' = jobs_by_id i.
Proof. apply complete_shell_frame. Qed.

(** *** Callers' requests, keepalives and unregistering *)

Lemma attach_jobs i rid fences a : jobs_by_id (attach_request i rid fences a) = jobs_by_id i.
Proof. by destruct a. Qed.

Lemma cancel_abandoned_jobs closed mcp_closed plugin_closed coding_closed i :
  jobs_by_id (cancel_abandoned_sync_requests closed mcp_closed plugin_closed coding_closed i).1 = jobs_by_id i.
Proof. by apply fold_jobs_same. Qed.

Lemma begin_unregister_refine grace i access project now :
  jobs_refine i (begin_project_unregister grace i access project now).1.
Proof.
  unfold begin_project_unregister. set (i1 := fold_left _ _ i).
  assert (H1 : jobs_refine i i1) by (apply fold_refine; intros; apply refresh_refine).
  cbn [fst]. destruct (Nat.eqb _ 0); [ | exact H1]. etransitivity; [exact H1 | by apply jobs_refine_same].
Qed.

Lemma touch_jobs i cid iid connection now :
  jobs_by_id (touch_runner_for_connection i cid iid connection now).1 = jobs_by_id i.
Proof. unfold touch_runner_for_connection. by destruct (check? _ ;; _). Qed.

Lemma metadata_jobs i cid iid connection tools providers now :
  jobs_by_id (update_runtime_metadata_checked i cid iid connection tools providers now).1 = jobs_by_id i.
Proof.
  unfold update_runtime_metadata_checked. destruct (match providers with Some _ => _ | None => _ end); [ | done].
  destruct (_ && _); [done | ]. by destruct (check? _ ;; _).
Qed.

(** Every step of the registry is one the relation above describes, or a late
    result. *)
Lemma step_sound (i i' : RunnerRegistryInner) :
  registry_step i i' -> jobs_step i i' \/ exists k j1 j2, late_result k i i' j1 j2.
Proof.
  intros Hs. destruct Hs; try match goal with Hc : complete_checked _ _ _ _ _ _ _ = _ |- _ =>
    destruct (complete_carry _ _ _ _ _ _ _ _ _ _ Hc); [by left; apply carry_step | by right] end; left.
  - apply carry_step, refresh_carry.
  - by eapply start_step.
  - apply carry_step, poll_carry.
  - apply carry_step, carry_same. by eapply complete_shell_jobs.
  - apply carry_step, carry_same. rewrite attach_jobs. by eapply enqueue_jobs.
  - apply carry_step, carry_same. done.
  - apply carry_step, carry_same, cancel_abandoned_jobs.
  - apply carry_step, refine_carry, begin_unregister_refine.
  - apply carry_step, carry_same. unfold end_project_unregister. by destruct (unregistering_projects _ !! _).
  - apply carry_step, carry_same, touch_jobs.
  - apply carry_step, carry_same, metadata_jobs.
  - apply carry_step, refine_carry, prune_shared_key_refine.
  - apply carry_step. by eapply update_carry.
  - apply carry_step, stop_carry.
  - apply carry_step, promote_carry.
  - apply carry_step, cancel_carry.
  - apply carry_step, discard_carry.
  - apply carry_step, refine_carry, sweep_refine.
  - by eapply register_step.
  - apply carry_step, carry_same. by eapply page_jobs.
  - apply carry_step, carry_same, upsert_jobs.
  - apply carry_step, carry_same, remove_project_jobs.
  - apply carry_step, refine_carry, disconnect_refine.
Qed.

End Handlers.

(** ** Reachable states *)

Lemma step_keeps_inv `{HashIteration} (i i' : RunnerRegistryInner) :
  registry_step i i' -> jobs_inv i -> jobs_inv i'.
Proof.
  intros [Hs|(k0 & j1 & j2 & Hlate)]%step_sound Hi k j' Hj'.
  - destruct (Hs k j' Hj') as [(j & Hj & Hh & Hinv)|(Hid & Hinv & _)]; [ | done].
    destruct (Hi k j Hj) as [Hid Hji]. split; [by rewrite (hi_job_id _ _ Hh) | auto].
  - destruct (late_result_lookup _ _ _ _ _ Hlate) as (H1 & H2 & Ho).
    destruct (late_result_kept _ _ _ _ _ Hlate) as [Hk Hinv].
    destruct (decide (k = k0)) as [->|Hne]; [ | rewrite Ho in Hj' by done; by apply Hi].
    rewrite H2 in Hj'. injection Hj' as <-. destruct (Hi _ _ H1) as [Hid Hji].
    split; [by rewrite (kp_job_id _ _ Hk) | auto].
Qed.

(** C2: In every state the registry can reach from an empty one (or from any state
    that satisfies it), through any sequence of its handlers with any arguments,
    each Job is stored under its own id, a terminal Job has the time at which the
    Server first observed it, and a recovering Job the time its recovery began. *)
Theorem reachable_jobs_inv `{HashIteration} (i0 i : RunnerRegistryInner) :
  jobs_inv i0 -> rtc registry_step i0 i -> jobs_inv i.
Proof. intros H0 Hr. induction Hr as [i|i i1 i2 Hs _ IH]; [done | ]. apply IH. by eapply step_keeps_inv. Qed.

(** Runner "r1" registers with an inventory of two Jobs. *)
Definition reporting_registration : RunnerRegisterRequest :=
  mkRegister (lit "r1") (lit "i1") 2 None None None
    (capabilities_of (fun f => match f with JobStateReconciliation => true | f => baseline_feature f end))
    None None None None None (Some sample_inventory) None None.

Definition reporting_history :=
  register_session (fun _ => Ok 100%Z) 120 (mkLimits 1 5 600) (lit "epoch") (mkRegistry RunnerRegistryInner_default ∅)
    reporting_registration None None 300.

Lemma reachable_jobs_inv_witness :
  exists i, rtc registry_step RunnerRegistryInner_default i /\ is_some (jobs_by_id i !! lit "j1") = true /\ jobs_inv i.
Proof.
  assert (H0 : jobs_inv RunnerRegistryInner_default) by (intros k j Hj; cbn in Hj; by rewrite lookup_empty in Hj).
  destruct reporting_history as [[[[reg sent] cancelled] r]|] eqn:E; [ | vm_compute in E; discriminate].
  assert (Hstep : rtc registry_step RunnerRegistryInner_default (reg_inner reg)).
  { apply rtc_once. exact (step_register _ _ _ _ _ _ _ _ _ _ _ _ _ E). }
  exists (reg_inner reg). split; [exact Hstep | ]. split.
  - vm_compute in E. injection E as <- <- <- <-. vm_compute. reflexivity.
  - exact (reachable_jobs_inv RunnerRegistryInner_default (reg_inner reg) H0 Hstep).
Defined.

(** A history in which the record of [k] stays in the registry and is not up for
    cleanup. *)
Inductive stays `{HashIteration} (k : str) : RunnerRegistryInner -> RunnerRegistryInner -> Prop :=
| stays_here i : stays k i i
| stays_step i i1 i2 j :
    jobs_by_id i !! k = Some j -> visibility j <> CleanupPending -> is_Some (jobs_by_id i1 !! k) ->
    registry_step i i1 -> stays k i1 i2 -> stays k i i2.

(** A late result for [k] was accepted on a history in which the record stays; [j2]
    is the record with its verdict. *)
Inductive overruled `{HashIteration} (k : str) (i i' : RunnerRegistryInner) (j2 : ShellJobRecord) : Prop :=
| overruled_by i1 i2 j1 :
    stays k i i1 -> registry_step i1 i2 -> late_result k i1 i2 j1 j2 -> stays k i2 i' -> overruled k i i' j2.

Lemma overruled_later `{HashIteration} (k : str) (i i1 i' : RunnerRegistryInner) (j j2 : ShellJobRecord) :
  jobs_by_id i !! k = Some j -> visibility j <> CleanupPending -> is_Some (jobs_by_id i1 !! k) ->
  registry_step i i1 -> overruled k i1 i' j2 -> overruled k i i' j2.
Proof. intros Hj Hv Hs Hstep [a b j1 H1 Hstep2 Hl H2]. econstructor; [by econstructor | done..]. Qed.

(** The record of [k] after one step in which it stays. *)
Lemma stays_one `{HashIteration} (k : str) (i i1 : RunnerRegistryInner) (j j1 : ShellJobRecord) :
  registry_step i i1 -> jobs_by_id i !! k = Some j -> visibility j <> CleanupPending ->
  jobs_by_id i1 !! k = Some j1 -> job_history j j1 \/ late_result k i i1 j j1.
Proof.
  intros Hstep Hj Hv Hj1. destruct (step_sound _ _ Hstep) as [Hs|(k0 & a & b & Hlate)].
  - destruct (Hs k j1 Hj1) as [(x & Hx & Hh & _)|(_ & _ & Hc)]; [ | by apply Hc in Hj].
    rewrite Hj in Hx. injection Hx as <-. by left.
  - destruct (late_result_lookup _ _ _ _ _ Hlate) as (H1 & H2 & Ho).
    destruct (decide (k = k0)) as [->|Hne].
    + rewrite Hj in H1. rewrite Hj1 in H2. injection H1 as <-. injection H2 as <-. by right.
    + left. rewrite Ho, Hj in Hj1 by done. by injection Hj1 as <-.
Qed.

Lemma stays_history `{HashIteration} (k : str) (i i' : RunnerRegistryInner) (j : ShellJobRecord) :
  stays k i i' -> jobs_by_id i !! k = Some j ->
  exists j', jobs_by_id i' !! k = Some j' /\ job_kept j j'
    /\ (job_history j j' \/ exists j2, overruled k i i' j2 /\ job_history j2 j').
Proof.
  intros Hs. revert j. induction Hs as [i|i i1 i2 j0 Hj0 Hv [j1 Hj1] Hstep Hs IH]; intros j Hj.
  { exists j. split_and!; [done | done | by left]. }
  rewrite Hj in Hj0. injection Hj0 as <-. destruct (IH j1 Hj1) as (j' & Hj' & Hk & Hh).
  exists j'. split; [done | ].
  assert (Hlater : forall j2, overruled k i1 i2 j2 -> overruled k i i2 j2)
    by (intros j2; by eapply overruled_later).
  destruct (stays_one k i i1 j j1 Hstep Hj Hv Hj1) as [Hone|Hone].
  - split; [etransitivity; [by apply history_kept | done] | ].
    destruct Hh as [Hh|(j2 & Ho & Hh)]; [left; by etransitivity | right; eauto].
  - split; [etransitivity; [by eapply late_result_kept | done] | ].
    right. destruct Hh as [Hh|(j2 & Ho & Hh)]; [ | eauto].
    exists j1. split; [ | done]. econstructor; [constructor | done..].
Qed.

(** C1: Along any sequence of registry steps in which a Job's record stays, its
    identity, request, Runner, group, owner and what was started never change, a
    public Job stays public, a terminal Job stays terminal, and the time of its
    first observation is kept.  The verdict itself is final (every field but the
    observation bookkeeping keeps its value) except for one kind of step: the
    result of a request whose Job has ended already is accepted by the result
    handler, and then the record is the one with the verdict of such a late result
    for this very Job, again in every field but the observation bookkeeping.  No
    update, inventory, disconnect, stop, sweep or registration, and no result of
    another Job's request, ever changes a terminal verdict. *)
Theorem terminal_verdict_final `{HashIteration} (k : str) (i i' : RunnerRegistryInner) (j : ShellJobRecord) :
  stays k i i' -> jobs_by_id i !! k = Some j ->
  exists j', jobs_by_id i' !! k = Some j'
    /\ job_id j' = job_id j /\ request_id j' = request_id j /\ client_id j' = client_id j
    /\ auth_group j' = auth_group j /\ owner_at_admission j' = owner_at_admission j
    /\ kind j' = kind j /\ detached_idempotency_intent j' = detached_idempotency_intent j
    /\ (visibility j = Public -> visibility j' = Public)
    /\ (forall t, terminal_observed_at (observation j) = Some t -> terminal_observed_at (observation j') = Some t)
    /\ (is_terminal (lifecycle j) = true -> is_terminal (lifecycle j') = true
        /\ (j' = j <| observation := observation j' |>
            \/ exists j2, overruled k i i' j2 /\ j' = j2 <| observation := observation j' |>)).
Proof.
  intros Hs Hj. destruct (stays_history k i i' j Hs Hj) as (j' & Hj' & [] & Hh). exists j'.
  injection kp_start0 as Hkind Hint. split_and!; try done.
  - intros Hp. destruct kp_visibility0 as [->|?]; [done | congruence].
  - intros Ht. split; [auto | ]. destruct Hh as [Hh|(j2 & Ho & Hh)]; [left; by apply Hh | right].
    exists j2. split; [done | ]. apply Hh. destruct Ho as [i1 i2 j1 _ _ [????????? _ _ _ _ _ [Hl _] _] _].
    rewrite Hl. by destruct (result_success _).
Qed.

(** *** A history with a late result

    Runner "r1" registers, a detached process is started on it and handed out by a
    poll; the Runner goes silent, reading the Job finds it lost, and then the
    result arrives. *)

Definition h_registration (iid : str) : RunnerRegisterRequest :=
  mkRegister (lit "r1") iid 2 None None None
    (capabilities_of (fun f => match f with
       | DetachedProcessJobs | StructuredProcessArgv | StructuredExecutionJobs => true
       | f => baseline_feature f end))
    None None None None None None None None.

Definition h_register (reg : RunnerRegistry) (iid : str) (now : Z) :=
  register_session (fun _ => Ok 100%Z) 120 (mkLimits 20 50 600) (lit "epoch") reg (h_registration iid) None None now.

Definition h_empty : RunnerRegistry := mkRegistry RunnerRegistryInner_default ∅.

Definition h_register_answer := Eval vm_compute in
  unwrap_or (h_empty, [], None, Err []) (h_register h_empty (lit "i1") 300).

Definition h_registered : RunnerRegistry := h_register_answer.1.1.1.

Definition h_start_answer : RunnerRegistryInner * result ShellJobRecord str := Eval vm_compute in
  unwrap_or (reg_inner h_registered, Err []) (sample_start (reg_inner h_registered) (lit "req-1") (lit "unused") 301).

Definition h_started : RunnerRegistryInner := h_start_answer.1.

Definition h_poll_answer := Eval vm_compute in
  poll_checked is_ascii_alphanumeric h_started (lit "r1") (lit "i1") None 302.

Definition h_polled : RunnerRegistryInner := h_poll_answer.1.1.

Definition h_request : RunnerRequest := Eval vm_compute in
  match h_poll_answer.2 with Ok (Some request) => request | _ => sample_request (lit "none") (lit "none") end.

Definition h_job : str := Eval vm_compute in
  unwrap_or [] (request_to_job h_started !! lit "req-1").

Definition h_lost : RunnerRegistryInner := Eval vm_compute in refresh_job_status_locked 120 h_polled h_job 2000.

Definition h_lost_job : ShellJobRecord := Eval vm_compute in
  unwrap_or (sample_job (lit "a") Failed JobRecoveryState_default) (jobs_by_id h_lost !! h_job).

Definition h_result : RunnerResultPayload :=
  mkResult (lit "r1") (lit "i1") (lit "req-1") (Some 0%Z) None None None None None None None None.

Definition h_complete (i : RunnerRegistryInner) (now : Z) :=
  complete_checked is_ascii_alphanumeric (fun _ => true) (fun _ _ => true) i h_result None now.

Definition h_complete_answer := Eval vm_compute in unwrap_or ((h_lost, []), Ok tt) (h_complete h_lost 2001).

Definition h_completed : RunnerRegistryInner := h_complete_answer.1.1.

Lemma h_registered_reached : registry_step RunnerRegistryInner_default (reg_inner h_registered).
Proof.
  assert (E : h_register h_empty (lit "i1") 300
    = Some (h_registered, h_register_answer.1.1.2, h_register_answer.1.2, h_register_answer.2))
    by (vm_compute; reflexivity).
  exact (step_register _ _ _ _ _ _ _ _ _ _ _ _ _ E).
Qed.

Lemma h_start_spec :
  @start_job_with_metadata_for_access is_ascii_alphanumeric (fun s => s) numbered_plans (reg_inner h_registered)
    detached_body (lit "ann") AdmissionFacts.detached_metadata None (Some (lit "ann")) (lit "req-1") (lit "unused") (lit "epoch") false 301
  = Some (h_started, h_start_answer.2).
Proof. vm_compute. reflexivity. Qed.

Lemma h_request_fresh : fresh_request (reg_inner h_registered) (lit "req-1").
Proof.
  split; [vm_compute; reflexivity | ].
  assert (Hq : queues_by_runner (reg_inner h_registered) = ∅) by (vm_compute; reflexivity).
  intros cid q. by rewrite Hq, lookup_empty.
Qed.

Lemma h_started_reached : registry_step (reg_inner h_registered) h_started.
Proof.
  eapply step_start; [exact h_request_fresh | | exact h_start_spec]. vm_compute. reflexivity.
Qed.

Lemma h_polled_reached : registry_step h_started h_polled.
Proof.
  assert (He : h_polled = (poll_checked is_ascii_alphanumeric h_started (lit "r1") (lit "i1") None 302).1.1)
    by (vm_compute; reflexivity).
  rewrite He. apply step_poll.
Qed.

Lemma h_lost_step : registry_step h_polled h_lost.
Proof.
  assert (He : h_lost = refresh_job_status_locked 120 h_polled h_job 2000) by (vm_compute; reflexivity).
  rewrite He. apply step_refresh.
Qed.

Lemma h_lost_reached : rtc registry_step RunnerRegistryInner_default h_lost.
Proof.
  eapply rtc_l; [exact h_registered_reached | ]. eapply rtc_l; [exact h_started_reached | ].
  eapply rtc_l; [exact h_polled_reached | apply rtc_once, h_lost_step].
Qed.

Lemma h_complete_spec : h_complete h_lost 2001 = Some ((h_completed, h_complete_answer.1.2), Ok tt).
Proof. vm_compute. reflexivity. Qed.

Lemma h_completed_step : registry_step h_lost h_completed.
Proof. exact (step_complete _ _ _ _ _ _ _ _ _ _ h_complete_spec). Qed.

Lemma terminal_verdict_final_witness :
  rtc registry_step RunnerRegistryInner_default h_lost
  /\ jobs_by_id h_lost !! h_job = Some h_lost_job /\ lifecycle h_lost_job = Lost
  /\ exists j', jobs_by_id h_completed !! h_job = Some j' /\ lifecycle j' = Completed
    /\ exists j2, overruled h_job h_lost h_completed j2 /\ j' = j2 <| observation := observation j' |>.
Proof.
  assert (Hj : jobs_by_id h_lost !! h_job = Some h_lost_job) by (vm_compute; reflexivity).
  assert (Hc : is_some (jobs_by_id h_completed !! h_job) = true) by (vm_compute; reflexivity).
  assert (Hl : lifecycle <$> jobs_by_id h_completed !! h_job = Some Completed) by (vm_compute; reflexivity).
  split; [exact h_lost_reached | ]. split; [exact Hj | ]. split; [reflexivity | ].
  destruct (terminal_verdict_final h_job h_lost h_completed h_lost_job)
    as (j' & Hj' & _ & _ & _ & _ & _ & _ & _ & _ & _ & Ht).
  - eapply stays_step; [exact Hj | vm_compute; discriminate | | exact h_completed_step | apply stays_here].
    destruct (jobs_by_id h_completed !! h_job); [by eexists | discriminate].
  - exact Hj.
  - exists j'. rewrite Hj' in Hl. injection Hl as Hl. split; [exact Hj' | ]. split; [exact Hl | ].
    destruct (Ht eq_refl) as [_ [He|Ho]]; [ | exact Ho]. rewrite He in Hl. discriminate.
Defined.

(** ** Detached starts

    The record of a detached start answers every later start under its key for as
    long as it is retained. *)

Lemma detached_started `{PlanJson} is_alphanumeric sha256_hex inner i1 body requested_by m access initiator rid jid
  epoch receipts now job k :
  start_job_with_metadata_for_access is_alphanumeric sha256_hex inner body requested_by m access initiator
    rid jid epoch receipts now = Some (i1, Ok job) ->
  is_detached_request m = true -> start_job_id sha256_hex jid initiator m = Ok k ->
  exists plan command, plan_spec is_alphanumeric sha256_hex body requested_by m initiator rid jid now plan command
    /\ pl_job_id plan = k /\ recorded_start i1 plan job.
Proof.
  intros Hstart Hd Hk.
  destruct (start_outcomes is_alphanumeric sha256_hex inner body requested_by m access initiator rid jid epoch
    receipts now) as (i' & r & Heq & Hout). unfold start_ in Heq. rewrite Hstart in Heq. injection Heq as <- <-.
  destruct (detached_start_recorded _ _ _ _ _ _ _ _ _ _ _ _ _ _ _ Hout Hd)
    as (plan & command & runner & Hp & _ & Hrec & _). exists plan, command. split_and!; [done | | done].
  destruct Hp as [_ _ _ _ _ _ _ Hid _ _]. congruence.
Qed.

(** The record stays that of the same start. *)
Lemma recorded_stays `{HashIteration} i1 i2 plan job :
  recorded_start i1 plan job -> stays (pl_job_id plan) i1 i2 ->
  exists job2, recorded_start i2 plan job2 /\ job_kept job job2.
Proof.
  intros (Hj & Hk & Hi) Hs. destruct (stays_history _ _ _ _ Hs Hj) as (job2 & Hj2 & Hkept & _). exists job2.
  split; [ | done]. pose proof (kp_start _ _ Hkept) as Hst. injection Hst as Hk2 Hi2. split_and!; congruence.
Qed.

(** C29: A detached start happens once per idempotency key for as long as the
    record of its Job is retained (and not put up for cleanup), whatever happens to
    the registry and to the Job meanwhile: polls, updates, results, the Job's end,
    disconnects, re-registrations.  Every detached start under that key, by
    whomever and with whatever body, ids and time, changes nothing and is either
    refused or answered with that very Job, and the latter only for the same
    intent.  The same request of the same caller is answered with the Job as it
    then is, unless the target Runner no longer admits such a request, in which
    case it gets that error. *)
Theorem detached_start_once `{HashIteration} `{PlanJson} (is_alphanumeric : char -> bool) (sha256_hex : str -> str)
  (inner i1 i2 : RunnerRegistryInner) (body : ShellJobOpRequest) (requested_by : str) (m : ShellJobStartMetadata)
  (access : option RunnerAccess) (initiator : option str) (rid jid epoch : str) (receipts : bool) (now : Z)
  (job : ShellJobRecord) (k : str) :
  start_job_with_metadata_for_access is_alphanumeric sha256_hex inner body requested_by m access initiator
    rid jid epoch receipts now = Some (i1, Ok job) ->
  is_detached_request m = true -> start_job_id sha256_hex jid initiator m = Ok k -> stays k i1 i2 ->
  exists job2, jobs_by_id i2 !! k = Some job2
    /\ job_id job2 = job_id job /\ request_id job2 = request_id job /\ client_id job2 = client_id job
    /\ (forall access2 rid2 jid2 epoch2 receipts2 now2, exists plan2,
          plan_start is_alphanumeric sha256_hex body requested_by m initiator rid2 jid2 now2 = Ok plan2
          /\ start_job_with_metadata_for_access is_alphanumeric sha256_hex i2 body requested_by m access2 initiator
               rid2 jid2 epoch2 receipts2 now2
             = Some (i2, match check_start_runner i2 access2 plan2 m with Ok _ => Ok job2 | Err e => Err e end))
    /\ (forall body2 requested_by2 m2 access2 initiator2 rid2 jid2 epoch2 receipts2 now2,
          is_detached_request m2 = true -> start_job_id sha256_hex jid2 initiator2 m2 = Ok k ->
          exists r, start_job_with_metadata_for_access is_alphanumeric sha256_hex i2 body2 requested_by2 m2 access2
              initiator2 rid2 jid2 epoch2 receipts2 now2 = Some (i2, r)
            /\ ((exists err, r = Err err)
                \/ r = Ok job2
                   /\ detached_intent (trim <$> jo_cwd body2) (unwrap_or 120%Z (jo_timeout_secs body2)) m2
                      = detached_intent (trim <$> jo_cwd body) (unwrap_or 120%Z (jo_timeout_secs body)) m)).
Proof.
  intros Hstart Hd Hk Hs.
  destruct (detached_started _ _ _ _ _ _ _ _ _ _ _ _ _ _ _ _ Hstart Hd Hk) as (plan & command & Hp & <- & Hrec).
  destruct (recorded_stays _ _ _ _ Hrec Hs) as (job2 & Hrec2 & []). exists job2.
  split_and!; [by destruct Hrec2 | done | done | done | | ].
  - intros access2 rid2 jid2 epoch2 receipts2 now2. by eapply recorded_start_replayed.
  - intros body2 requested_by2 m2 access2 initiator2 rid2 jid2 epoch2 receipts2 now2 Hd2 Hkey.
    rewrite <- Hk in Hkey.
    destruct (recorded_start_taken is_alphanumeric sha256_hex i2 m initiator plan jid job2 body2 requested_by2 m2 access2
      initiator2 rid2 jid2 epoch2 receipts2 now2 Hk Hrec2 Hd2 Hkey) as (r & Heq & Hr).
    exists r. split; [exact Heq | ]. destruct Hp as [_ _ _ Hcwd Ht _ _ _ Hi _]. by rewrite <- Hcwd, <- Ht, <- Hi.
Qed.

(** The record of the sample Job stays to the end. *)
Lemma h_job_stays : stays h_job h_started h_completed.
Proof.
  assert (Hvis : forall i, match jobs_by_id i !! h_job with Some j => visibility j ==? Public | None => false end = true ->
    exists j, jobs_by_id i !! h_job = Some j /\ visibility j <> CleanupPending).
  { intros i Hi. destruct (jobs_by_id i !! h_job) as [j|]; [ | done]. exists j. split; [done | ].
    apply beq_true in Hi. congruence. }
  destruct (Hvis h_started) as (j1 & Hj1 & Hv1); [vm_compute; reflexivity | ].
  destruct (Hvis h_polled) as (j2 & Hj2 & Hv2); [vm_compute; reflexivity | ].
  destruct (Hvis h_lost) as (j3 & Hj3 & Hv3); [vm_compute; reflexivity | ].
  destruct (Hvis h_completed) as (j4 & Hj4 & Hv4); [vm_compute; reflexivity | ].
  eapply stays_step; [exact Hj1 | exact Hv1 | by exists j2 | exact h_polled_reached | ].
  eapply stays_step; [exact Hj2 | exact Hv2 | by exists j3 | exact h_lost_step | ].
  eapply stays_step; [exact Hj3 | exact Hv3 | by exists j4 | exact h_completed_step | constructor].
Qed.

Definition h_started_job : ShellJobRecord := Eval vm_compute in
  unwrap_or (sample_job (lit "a") Failed JobRecoveryState_default) (jobs_by_id h_started !! h_job).

Lemma detached_start_once_witness : exists job2,
  jobs_by_id h_completed !! h_job = Some job2 /\ lifecycle job2 = Completed
  /\ sample_start h_completed (lit "req-2") (lit "other") 2002 = Some (h_completed, Ok job2).
Proof.
  destruct (@detached_start_once _ numbered_plans is_ascii_alphanumeric (fun s => s) (reg_inner h_registered) h_started
    h_completed detached_body (lit "ann") AdmissionFacts.detached_metadata None (Some (lit "ann")) (lit "req-1")
    (lit "unused") (lit "epoch") false 301 h_started_job h_job h_start_spec)
    as (job2 & Hj & _ & _ & _ & Hr & _).
  - reflexivity.
  - vm_compute. reflexivity.
  - exact h_job_stays.
  - exists job2. split; [exact Hj | ].
    assert (Hl : lifecycle <$> jobs_by_id h_completed !! h_job = Some Completed) by (vm_compute; reflexivity).
    rewrite Hj in Hl. split; [by injection Hl | ].
    destruct (Hr None (lit "req-2") (lit "other") (lit "epoch") false 2002%Z) as (plan2 & Hp & Hs).
    assert (Hc : match @plan_start is_ascii_alphanumeric (fun s => s) numbered_plans detached_body (lit "ann")
        AdmissionFacts.detached_metadata (Some (lit "ann")) (lit "req-2") (lit "other") 2002 with
      | Ok plan => match check_start_runner h_completed None plan AdmissionFacts.detached_metadata with
                   | Ok _ => true | Err _ => false end
      | Err _ => false end = true) by (vm_compute; reflexivity).
    rewrite Hp in Hc. destruct (check_start_runner h_completed None plan2 _); [exact Hs | discriminate].
Defined.

(** C40: A late result replaces a terminal verdict.  In any registry in which a
    request is pending whose Job has ended already (lost, say, because the Runner
    went silent), a result of that request that the active process of the Runner
    sends is accepted: the Job becomes completed or failed as the result says, with
    its exit code, error and end time, and its first observation time is kept.  A
    Job update in the same state never changes the Job, so the two ways a Runner
    reports an outcome disagree. *)
Theorem late_result_replaces_verdict (is_alphanumeric : char -> bool) (mcp_valid : str -> bool)
  (plugin_valid : PluginGatewayRequest -> str -> bool) (i : RunnerRegistryInner) (body : RunnerResultPayload)
  (p : PendingShellRequest) (connection : option str) (now : Z) (k : str) (j : ShellJobRecord) :
  validate_id (res_client_id body) (lit "client_id") = Ok tt ->
  validate_id (res_request_id body) (lit "request_id") = Ok tt ->
  validate_runner_instance_id (res_runner_instance_id body) = Ok tt ->
  assert_active_instance_locked i (res_client_id body) (res_runner_instance_id body) = Ok tt ->
  check_result i body = Ok p -> p_job_id p = Some k -> result_job i p = Some j -> is_terminal (lifecycle j) = true ->
  (exists i' replies j',
     complete_checked is_alphanumeric mcp_valid plugin_valid i body connection now = Some ((i', replies), Ok tt)
     /\ jobs_by_id i' !! k = Some j'
     /\ lifecycle j' = (if result_success body then Completed else Failed)
     /\ exit_code j' = res_exit_code body /\ error j' = res_error body /\ ended_at j' = Some now
     /\ (forall t, terminal_observed_at (observation j) = Some t -> terminal_observed_at (observation j') = Some t))
  /\ forall update expected now' i2 r, update_job_checked i update expected now' = Some (i2, r) ->
       jobs_by_id i2 !! k = Some j.
Proof.
  intros H1 H2 H3 H4 H5 Hk Hj Ht. split.
  - destruct (valid_result_accepted is_alphanumeric mcp_valid plugin_valid i body p connection now j H1 H2 H3 H4 H5 Hj)
      as (i' & replies & j' & k' & Hc & Hk' & Hi & Hverdict). rewrite Hk in Hk'. injection Hk' as <-.
    destruct Hverdict as (Hl & He & Her & Hend & _ & _ & _ & _ & _ & _ & _ & _ & _ & Hobs).
    exists i', replies, j'. rewrite Hi, lookup_insert_eq. by split_and!.
  - intros update expected now' i2 r Hu. eapply update_keeps_terminal; [exact Hu | by eapply result_job_lookup | done].
Qed.

Definition h_pending : PendingShellRequest := Eval vm_compute in
  unwrap_or (mkPending (sample_request (lit "req-1") (lit "start_job")) (OpJob sample_process_start) false None no_fences true)
    (pending_by_id h_lost !! lit "req-1").

Lemma late_result_replaces_verdict_witness :
  rtc registry_step RunnerRegistryInner_default h_lost /\ lifecycle h_lost_job = Lost
  /\ exists i' replies j', h_complete h_lost 2001 = Some ((i', replies), Ok tt)
       /\ jobs_by_id i' !! h_job = Some j' /\ lifecycle j' = Completed.
Proof.
  split; [exact h_lost_reached | ]. split; [reflexivity | ].
  destruct (late_result_replaces_verdict is_ascii_alphanumeric (fun _ => true) (fun _ _ => true) h_lost h_result
    h_pending None 2001 h_job h_lost_job) as [(i' & replies & j' & Hc & Hj & Hl & _) _];
    [vm_compute; reflexivity .. | ].
  exists i', replies, j'. split; [exact Hc | ]. split; [exact Hj | exact Hl].
Defined.

(** ** Terminal retention *)

Section Retention.
Context `{HashIteration}.

Lemma elem_of_actions (now : Z) (i : RunnerRegistryInner) (a : TerminalSweepAction) (k : str) :
  k ∈ map fst (List.filter (fun e => wants_action now a (snd e)) (sweep_actions now i)) ->
  exists j, jobs_by_id i !! k = Some j /\ wants_action now a j = true.
Proof.
  intros Hin. apply list_elem_of_In, in_map_iff in Hin as ([k' j] & <- & Hin).
  apply filter_In in Hin as [Hin Ha]. exists j. split; [ | done].
  assert (Hin' : In (k', j) (List.filter (fun e => is_some (terminal_sweep_action now (snd e)))
    (hash_iter (jobs_by_id i)))).
  { rewrite <- (take_drop RECOVERY_SWEEP_PASS_CAP (List.filter _ _)). apply in_app_iff. by left. }
  apply filter_In in Hin' as [Hin' _]. apply elem_of_hash_iter, list_elem_of_In. done.
Qed.

Lemma wants_remove (now : Z) (j : ShellJobRecord) :
  wants_action now Remove j = true ->
  visibility j = Public /\ is_terminal (lifecycle j) = true
  /\ exists t, terminal_observed_at (observation j) = Some t
     /\ (JOB_TERMINAL_RETENTION_SECS <= i64_sat_sub now t)%Z.
Proof.
  unfold wants_action, terminal_sweep_action. destruct (_ || _) eqn:E; [done | ]. split_andb. intros Ha.
  destruct (terminal_observed_at (observation j)) as [t|]; [ | done].
  destruct (Z.leb _ _) eqn:El; [ | done]. apply Z.leb_le in El. split_and!; [done | done | by exists t].
Qed.

Lemma observe_fold_jobs (now : Z) (l : list (str * ShellJobRecord)) (i : RunnerRegistryInner) (k : str) :
  is_Some (jobs_by_id i !! k) ->
  is_Some (jobs_by_id (fold_left (fun acc e => update_job_record acc (fst e)
    (fun job => observe_job_terminal job now)) l i) !! k).
Proof.
  revert i. induction l as [|e l IH]; intros i Hk; cbn [fold_left]; [done | ]. apply IH. cbn.
  by apply lookup_alter_is_Some.
Qed.

Lemma remove_all_requests (ids : list str) (i : RunnerRegistryInner) :
  request_to_job (remove_all_jobs i ids) = request_to_job i.
Proof.
  unfold remove_all_jobs. revert i. induction ids as [|x ids IH]; intros i; [done | ].
  cbn [fold_left]. by rewrite IH.
Qed.

End Retention.

(** A retention pass removes at most 64 Jobs, and only public terminal ones
    that the Server has observed as terminal for the retention period; a removed
    Job leaves no request mapping and no cleanup intent behind, and no other Job
    disappears. *)
Lemma terminal_retention `{HashIteration} (reg reg' : RunnerRegistry) (now : Z) (n : nat) :
  prune_expired_terminal_jobs_locked reg now = (reg', n) ->
  n <= RECOVERY_SWEEP_PASS_CAP
  /\ forall k j, jobs_by_id (reg_inner reg) !! k = Some j -> jobs_by_id (reg_inner reg') !! k = None ->
     visibility j = Public /\ is_terminal (lifecycle j) = true
     /\ (exists t, terminal_observed_at (observation j) = Some t
         /\ (JOB_TERMINAL_RETENTION_SECS <= i64_sat_sub now t)%Z)
     /\ (forall rid, request_to_job (reg_inner reg') !! rid <> Some k)
     /\ cleanup_intents reg' !! k = None.
Proof.
  unfold prune_expired_terminal_jobs_locked.
  set (expired := List.filter (fun e => wants_action now Remove (snd e)) _).
  set (observed := List.filter (fun e => wants_action now Observe (snd e)) _).
  set (i1 := fold_left _ observed (reg_inner reg)). intros Hp.
  assert (Hlen : length expired <= RECOVERY_SWEEP_PASS_CAP).
  { etransitivity; [apply List.filter_length_le | ]. unfold sweep_actions. rewrite length_take. lia. }
  destruct (is_empty expired) eqn:Ee; injection Hp as <- <-.
  { split; [lia | ]. intros k j Hj Hn. exfalso.
    assert (Hs : is_Some (jobs_by_id i1 !! k)) by (apply observe_fold_jobs; by exists j).
    change (jobs_by_id i1 !! k = None) in Hn. rewrite Hn in Hs. by destruct Hs. }
  split; [done | ]. intros k j Hj Hn. cbn [reg_inner cleanup_intents] in *.
  rewrite remove_all_lookup in Hn. destruct (decide (k ∈ map fst expired)) as [Hin|Hout].
  - pose proof Hin as Hact. apply elem_of_actions in Hact as (j0 & Hj0 & Hw).
    rewrite Hj in Hj0. injection Hj0 as <-. apply wants_remove in Hw as (Hv & Ht & Hobs).
    assert (Hid : k ∈ (list_to_set (map fst expired) : gset str)) by (by apply elem_of_list_to_set).
    split_and!; try done.
    + intros rid Hrid. rewrite remove_all_requests in Hrid.
      apply map_lookup_filter_Some in Hrid as [_ Hrid]. by apply Hrid.
    + apply map_lookup_filter_None. right. intros a _ Hne. by apply Hne.
  - exfalso.
    assert (Hs : is_Some (jobs_by_id i1 !! k)) by (apply observe_fold_jobs; by exists j).
    change (jobs_by_id (drop_control_requests (drop_mappings i1 expired) expired) !! k = None) in Hn.
    rewrite drop_control_jobs, drop_mappings_jobs in Hn.
    rewrite Hn in Hs. by destruct Hs.
Qed.

Definition old_terminal : ShellJobRecord :=
  observe_job_terminal (sample_job (lit "a") Failed JobRecoveryState_default) 100.

Lemma terminal_retention_witness :
  exists reg', prune_expired_terminal_jobs_locked (mkRegistry (registry_of [old_terminal]) ∅) 1000 = (reg', 1)
    /\ 1 <= RECOVERY_SWEEP_PASS_CAP
    /\ exists t, terminal_observed_at (observation old_terminal) = Some t
       /\ (JOB_TERMINAL_RETENTION_SECS <= i64_sat_sub 1000 t)%Z.
Proof.
  destruct (prune_expired_terminal_jobs_locked (mkRegistry (registry_of [old_terminal]) ∅) 1000)
    as [reg' n] eqn:E.
  assert (Hn : n = 1) by (vm_compute in E; by injection E as _ <-). subst n.
  destruct (terminal_retention (mkRegistry (registry_of [old_terminal]) ∅) reg' 1000 1 E) as [Hc Hr].
  exists reg'. split; [done | ]. split; [exact Hc | ].
  destruct (Hr (lit "a") old_terminal) as (_ & _ & Ht & _).
  - reflexivity.
  - vm_compute in E. injection E as <-. vm_compute. reflexivity.
  - exact Ht.
Defined.
