(* ===== verification/LeaseSafety.v ===== *)
(** * LeaseSafety: one active instance per Runner

    The lease table (which instance and connection speak for a client id, which
    instances were replaced, which transport session is notified) is changed by a
    registration, a disconnect and the expiry of shared-key Runners; every other
    handler leaves it alone.  The registry remembers the last sixteen replaced
    instances of a client; as long as a replaced instance is remembered it is not
    the active one, and nothing it sends is accepted. *)
From stdpp Require Import relations.
From S2P Require Import Prelude RustStr Lifecycle JobLog Capabilities CodingAgent RunnerData RegistryState JobState InventoryCheck JobWire Samples JobUpdate UpdateFacts ProjectInventory InventoryFacts Polling PollFacts Admission AdmissionFacts Reconcile Registration ReconcileFacts DisconnectFacts RegistrationFacts RegistrySafety.

(** ** Handlers that leave the lease table alone *)

Definition lease_key (r : RunnerRecord) : str * str * option str * option RunnerAccessGroup :=
  (r_client_id r, r_runner_instance_id r, r_connection_id r, r_auth_group r).

(** Who holds which lease is unchanged; a notifier may be gone. *)
Record leases_kept (i i' : RunnerRegistryInner) : Prop := {
  lk_runners : lease_key <$> runners i' = lease_key <$> runners i;
  lk_retired : retired_instances i' = retired_instances i;
  lk_notifiers : notifiers i' ⊆ notifiers i
}.

#[export] Instance leases_kept_refl : Reflexive leases_kept.
Proof. by split. Qed.

#[export] Instance leases_kept_trans : Transitive leases_kept.
Proof. intros a b c [H1 H2 H3] [K1 K2 K3]. split; [congruence | congruence | by etransitivity]. Qed.
























(** *** Projects *)

Lemma clear_staging_key (r : RunnerRecord) (code : option str) (now : Z) : lease_key (clear_staging r code now) = lease_key r.
Proof. by destruct code. Qed.










(** ** The lease invariant *)






Section LeaseSteps.
Context `{HashIteration}.





End LeaseSteps.

(** ** Registration keeps the invariant *)






(** ** Reachable states *)

Section Reachable.
Context `{HashIteration}.









(** ** Who is remembered as replaced *)










End Reachable.








