(* ===== verification/QueueBound.v ===== *)
(** * QueueBound: the Runner queues stay within their limit, and a request is
    handed out once

    Only an enqueue lengthens a queue, and it checks the limit under the same
    lock; a poll takes requests off the front; every other handler leaves queues
    as they are or takes requests out.  A queued request is therefore never one
    that was handed out before. *)
From stdpp Require Import relations.
From S2P Require Import Prelude RustStr Lifecycle JobLog Capabilities RegistryState JobState InventoryCheck JobWire Samples JobUpdate UpdateFacts Polling PollFacts Admission AdmissionFacts ProjectInventory Reconcile Registration ReconcileFacts DisconnectFacts RegistrationFacts RegistrySafety.

Definition queues_bounded (i : RunnerRegistryInner) : Prop :=
  map_Forall (fun _ q => length q <= MAX_QUEUED_REQUESTS_PER_RUNNER) (queues_by_runner i).

(** No request is queued anew, none is pending anew or changed. *)
Record requests_shrink (i i' : RunnerRegistryInner) : Prop := {
  rs_queues : forall cid q', queues_by_runner i' !! cid = Some q' ->
    exists q, queues_by_runner i !! cid = Some q /\ q' `sublist_of` q;
  rs_pending : pending_by_id i' ⊆ pending_by_id i
}.

#[export] Instance requests_shrink_refl : Reflexive requests_shrink.
Proof. intros i. split; [ | done]. intros cid q Hq. by exists q. Qed.

#[export] Instance requests_shrink_trans : Transitive requests_shrink.
Proof.
  intros a b c [Hab Pab] [Hbc Pbc]. split; [ | by etransitivity].
  intros cid q Hq. destruct (Hbc cid q Hq) as (q1 & Hq1 & H1).
  destruct (Hab cid q1 Hq1) as (q2 & Hq2 & H2). exists q2. split; [done | by etransitivity].
Qed.

Lemma shrink_bounded (i i' : RunnerRegistryInner) : requests_shrink i i' -> queues_bounded i -> queues_bounded i'.
Proof.
  intros [Hs _] Hb cid q' Hq. destruct (Hs cid q' Hq) as (q & Hq0 & Hl%sublist_length).
  specialize (Hb cid q Hq0). cbn in Hb. lia.
Qed.

Lemma shrink_same (i i' : RunnerRegistryInner) :
  queues_by_runner i' = queues_by_runner i -> pending_by_id i' ⊆ pending_by_id i -> requests_shrink i i'.
Proof. intros He Hp. split; [ | done]. intros cid q Hq. rewrite He in Hq. by exists q. Qed.

Lemma fold_shrink {A : Type} (f : RunnerRegistryInner -> A -> RunnerRegistryInner) (l : list A)
  (i : RunnerRegistryInner) : (forall i x, requests_shrink i (f i x)) -> requests_shrink i (fold_left f l i).
Proof.
  intros Hf. revert i. induction l as [|x l IH]; intros i; cbn; [done | ]. etransitivity; [apply Hf | apply IH].
Qed.

Lemma retain_not_sublist (rid : str) (q : list str) : retain_not rid q `sublist_of` q.
Proof.
  unfold retain_not. induction q as [|x q IH]; cbn; [done | ]. destruct (_ !=? _); by constructor.
Qed.

(** A record whose queues are those of [i] with a request taken out of one. *)
Lemma alter_shrink (i i' : RunnerRegistryInner) (cid rid : str) :
  queues_by_runner i' = alter (retain_not rid) cid (queues_by_runner i) ->
  pending_by_id i' ⊆ pending_by_id i -> requests_shrink i i'.
Proof.
  intros He Hp. split; [ | done]. intros c q Hq. rewrite He in Hq.
  apply lookup_alter_Some in Hq as [(-> & q0 & Hq0 & ->)|[_ Hq]].
  - exists q0. split; [done | apply retain_not_sublist].
  - by exists q.
Qed.

(** A handler that leaves the queues alone or takes one request out. *)
Ltac pending_shrinks := cbn; first [reflexivity | apply delete_subseteq].

Ltac shrinks :=
  first [ apply shrink_same; [reflexivity | pending_shrinks]
        | eapply alter_shrink; [reflexivity | pending_shrinks] ].

Lemma mapping_shrink (i : RunnerRegistryInner) (cid : str) (rid : option str) :
  requests_shrink i (remove_job_request_mapping i cid rid).
Proof. destruct rid as [rid|]; [by shrinks | done]. Qed.

Section QueueHandlers.
Context `{HashIteration}.

Lemma control_shrink (i : RunnerRegistryInner) (cid : str) (ids : gset str) :
  requests_shrink i (remove_job_control_requests i cid ids).
Proof. apply fold_shrink. intros. apply mapping_shrink. Qed.

Lemma lose_and_unmap_shrink (i : RunnerRegistryInner) (cid : str) (l : list (str * ShellJobRecord)) (now : Z)
  (reason : JobRecoveryReason) (message : str) : requests_shrink i (lose_and_unmap i cid l now reason message).
Proof.
  unfold lose_and_unmap. etransitivity; [ | apply control_shrink]. apply fold_shrink. intros i0 e.
  etransitivity; [ | apply mapping_shrink]. by shrinks.
Qed.

Lemma remove_all_shrink (ids : list str) (i : RunnerRegistryInner) : requests_shrink i (remove_all_jobs i ids).
Proof. apply fold_shrink. intros. by shrinks. Qed.

Lemma drop_mappings_shrink (i : RunnerRegistryInner) (l : list (str * ShellJobRecord)) :
  requests_shrink i (drop_mappings i l).
Proof. apply fold_shrink. intros. apply mapping_shrink. Qed.

Lemma drop_control_shrink (i : RunnerRegistryInner) (l : list (str * ShellJobRecord)) :
  requests_shrink i (drop_control_requests i l).
Proof. apply fold_shrink. intros. apply control_shrink. Qed.

Lemma expire_shrink (grace : Z) (i : RunnerRegistryInner) (filter : option str) (now : Z) (cap : nat) :
  requests_shrink i (expire_recovering_jobs_locked grace i filter now cap).1.
Proof.
  unfold expire_recovering_jobs_locked. destruct (is_empty _); [done | ]. cbn [fst].
  etransitivity; [ | apply remove_all_shrink]. etransitivity; [ | apply drop_control_shrink].
  etransitivity; [ | apply drop_mappings_shrink]. apply fold_shrink. intros. by shrinks.
Qed.

Lemma prune_terminal_shrink (reg : RunnerRegistry) (now : Z) :
  requests_shrink (reg_inner reg) (reg_inner (prune_expired_terminal_jobs_locked reg now).1).
Proof.
  unfold prune_expired_terminal_jobs_locked. set (observed := List.filter (fun e => wants_action now Observe (snd e)) _).
  set (expired := List.filter (fun e => wants_action now Remove (snd e)) _).
  set (i1 := fold_left _ observed (reg_inner reg)).
  assert (H1 : requests_shrink (reg_inner reg) i1) by (apply fold_shrink; intros; by shrinks).
  destruct (is_empty expired); [exact H1 | ]. cbn [fst reg_inner]. etransitivity; [exact H1 | ].
  etransitivity; [ | apply remove_all_shrink].
  transitivity (drop_control_requests (drop_mappings i1 expired) expired); [ | by shrinks].
  etransitivity; [apply drop_mappings_shrink | apply drop_control_shrink].
Qed.

Lemma resolve_one_shrink (cid err rid : str) (st : RunnerRegistryInner * list WaiterResponse) :
  requests_shrink st.1 (resolve_one cid err st rid).1.
Proof.
  destruct st as [i sent]. cbn. destruct (pending_by_id i !! rid); [ | done]. by shrinks.
Qed.

Lemma resolve_shrink (i : RunnerRegistryInner) (cid err : str) :
  requests_shrink i (resolve_disconnected_sync_requests_locked i cid err).1.
Proof.
  unfold resolve_disconnected_sync_requests_locked. generalize (sync_requests_of i cid) as l. intros l.
  change i with (i, @nil WaiterResponse).1 at 1. generalize (i, @nil WaiterResponse) as st.
  induction l as [|x l IH]; intros st; cbn [fold_left]; [done | ].
  etransitivity; [apply (resolve_one_shrink cid err x) | apply IH].
Qed.

Lemma resolve_all_shrink (err : str) (clients : list str) (st : RunnerRegistryInner * list WaiterResponse) :
  requests_shrink st.1 (resolve_all_clients err st clients).1.
Proof.
  unfold resolve_all_clients. revert st. induction clients as [|c l IH]; intros st; cbn [fold_left]; [done | ].
  etransitivity; [ | apply IH]. pose proof (resolve_shrink (fst st) c err) as Hr.
  by destruct (resolve_disconnected_sync_requests_locked (fst st) c err).
Qed.

Lemma forget_shrink (i : RunnerRegistryInner) (cid : str) : requests_shrink i (forget_runner i cid).
Proof. split; [ | done]. intros c q Hq. cbn in Hq. apply lookup_delete_Some in Hq as [_ Hq]. by exists q. Qed.

Lemma prune_shared_key_shrink (ttl : Z) (reg : RunnerRegistry) (now : Z) :
  requests_shrink (reg_inner reg) (reg_inner (prune_expired_shared_key_runners_locked ttl reg now).1).
Proof.
  unfold prune_expired_shared_key_runners_locked.
  set (expired := map fst (List.filter _ (hash_iter (runners _)))). destruct (is_empty expired); [done | ].
  pose proof (resolve_all_shrink EXPIRED_WAITER_MESSAGE expired (reg_inner reg, [])) as Hr.
  destruct (resolve_all_clients EXPIRED_WAITER_MESSAGE (reg_inner reg, []) expired) as [i1 sent].
  cbn [fst reg_inner] in *. etransitivity; [exact Hr | ].
  etransitivity; [ | apply fold_shrink; intros; apply forget_shrink].
  set (i2 := lose_jobs i1 _ now SharedKeyRunnerExpired EXPIRED_JOB_MESSAGE). set (i3 := fold_left _ _ i2).
  transitivity i2; [apply fold_shrink; intros; by shrinks | ].
  transitivity i3; [apply fold_shrink; intros; by shrinks | by shrinks].
Qed.

Lemma sweep_shrink (grace ttl : Z) (reg : RunnerRegistry) (now : Z) :
  requests_shrink (reg_inner reg) (reg_inner (recovery_timeout_sweep_locked grace ttl reg now).1).
Proof.
  unfold recovery_timeout_sweep_locked. pose proof (prune_shared_key_shrink ttl reg now) as H1.
  destruct (prune_expired_shared_key_runners_locked ttl reg now) as [reg1 sent]. cbn [fst] in *.
  etransitivity; [exact H1 | ]. etransitivity; [ | apply prune_terminal_shrink]. cbn.
  etransitivity; [ | apply expire_shrink]. by shrinks.
Qed.

Lemma terminate_shrink (i : RunnerRegistryInner) (cid iid : str) (replacement : option ShellJobInventory)
  (now : Z) : requests_shrink i (terminate_instance_jobs_locked i cid iid replacement now).
Proof. etransitivity; [apply lose_and_unmap_shrink | apply remove_all_shrink]. Qed.

Lemma drop_request_shrink (i : RunnerRegistryInner) (cid rid : str) : requests_shrink i (drop_request i cid rid).
Proof. by shrinks. Qed.

Lemma disconnect_shrink (i : RunnerRegistryInner) (cid iid : str) (connection : option str)
  (transport : option RunnerTransport) (now : Z) :
  requests_shrink i (reconcile_disconnect_checked i cid iid connection transport now).1.1.
Proof.
  destruct (lease_is_active i cid iid connection transport) eqn:El.
  - rewrite disconnect_unfold by done. cbn [fst]. etransitivity; [ | apply resolve_shrink].
    etransitivity; [ | apply fold_shrink; intros; apply drop_request_shrink].
    etransitivity; [ | apply fold_shrink; intros i0 k].
    + unfold offline_lease. destruct (is_some_and _ _); shrinks.
    + unfold disconnect_one. destruct (jobs_by_id i0 !! k ≫= request_id); [ | by shrinks].
      etransitivity; [ | apply drop_request_shrink]. by shrinks.
  - unfold reconcile_disconnect_checked. by rewrite El.
Qed.

Lemma reconcile_snapshots_shrink (cid iid : str) (group : option RunnerAccessGroup) (epoch : str) (now : Z)
  (jobs : list ShellJobSnapshot) (st st' : RunnerRegistryInner * ReconciliationSummary) :
  reconcile_snapshots cid iid group epoch now jobs st = Some st' -> requests_shrink st.1 st'.1.
Proof.
  revert st. induction jobs as [|s jobs IH]; intros [i sum] Hr; cbn [reconcile_snapshots] in Hr.
  { by injection Hr as <-. }
  destruct (reconcile_snapshot cid iid group epoch now (i, sum) s) as [st1|] eqn:E; [ | done].
  cbn [mbind option_bind] in Hr. transitivity st1.1; [ | by apply IH]. unfold reconcile_snapshot in E.
  destruct (snapshot_outcome cid iid group epoch now i s) as [out|]; [ | done]. cbn [mbind option_bind] in E.
  destruct out; injection E as <-; cbn [fst]; [done | done | | ].
  all: unfold finish_snapshot; destruct (is_final_job_status _); [ | by shrinks].
  all: by shrinks.
Qed.

Lemma reconcile_shrink (grace : Z) (i i' : RunnerRegistryInner) (cid iid : str)
  (group : option RunnerAccessGroup) (epoch : str) (inventory : ShellJobInventory) (now : Z)
  (summary : ReconciliationSummary) :
  reconcile_inventory_locked grace i cid iid group epoch inventory now = Some (i', summary) ->
  requests_shrink i i'.
Proof.
  unfold reconcile_inventory_locked. fold (reconcile_start grace i cid now).
  assert (H0 : requests_shrink i (reconcile_start grace i cid now)).
  { etransitivity; [ | apply expire_shrink]. by shrinks. }
  destruct (reconcile_snapshots _ _ _ _ _ _ _) as [[i2 sum2]|] eqn:E; [ | done]. cbn. intros [= <- <-].
  apply reconcile_snapshots_shrink in E. cbn [fst] in E.
  etransitivity; [exact H0 | ]. etransitivity; [ | apply remove_all_shrink].
  etransitivity; [ | exact E]. apply lose_and_unmap_shrink.
Qed.

Lemma refresh_shrink (grace : Z) (i : RunnerRegistryInner) (jid : str) (now : Z) :
  requests_shrink i (refresh_job_status_locked grace i jid now).
Proof.
  unfold refresh_job_status_locked. destruct (jobs_by_id i !! jid) as [j|]; [ | done].
  destruct (_ || _); [done | ]. destruct (recovery_active j).
  - destruct (is_some_and _ _); [by shrinks | done].
  - destruct (runner_is_connected_locked _ _ _); [done | by shrinks].
Qed.

Lemma update_job_shrink (i i' : RunnerRegistryInner) (body : RunnerJobUpdateRequest) (expected : option str)
  (now : Z) (r : result ShellJobRecord str) :
  update_job_checked i body expected now = Some (i', r) -> requests_shrink i i'.
Proof.
  unfold update_job_checked. destruct (result_bind _ _) as [[seq l]|]; [ | by intros [= <- _]].
  set (live := refresh_liveness _ _ _ _).
  assert (Hl : requests_shrink i live).
  { subst live. unfold refresh_liveness. destruct (_ || _); shrinks. }
  destruct (jobs_by_id live !! up_job_id body) as [j|]; [ | by intros [= <- _]].
  destruct (update_found_job _ _ _ _ _ _) as [[[[j' drop]|]|]|]; [ | by intros [= <- _] .. | done].
  intros [= <- _]. etransitivity; [exact Hl | ]. unfold store_update.
  destruct (if drop then request_id j' else None); destruct (_ && _); shrinks.
Qed.

Lemma drop_start_shrink (i : RunnerRegistryInner) (rid : option str) : requests_shrink i (drop_start_request i rid).
Proof.
  destruct rid as [rid|]; [ | done]. split; [ | cbn; apply delete_subseteq]. intros c q Hq. cbn in Hq.
  rewrite lookup_fmap in Hq. apply fmap_Some in Hq as (q0 & Hq0 & ->). exists q0.
  split; [done | apply retain_not_sublist].
Qed.

Lemma promote_shrink (grace : Z) (has_token : ShellJobRecord -> bool) (i : RunnerRegistryInner) (jid : str)
  (now : Z) : requests_shrink i (promote_hidden_job grace has_token i jid now).1.
Proof.
  unfold promote_hidden_job. etransitivity; [apply (refresh_shrink grace i jid now) | ].
  destruct (jobs_by_id _ !! jid) as [j|]; [ | done]. destruct (visibility j ==? CleanupPending); [done | ].
  destruct (is_terminal (lifecycle j)); [done | ]. destruct (negb _); [done | by shrinks].
Qed.

Lemma discard_shrink (i : RunnerRegistryInner) (jid : str) (now : Z) :
  requests_shrink i (remove_projected_hidden_terminal_job_record i jid now).1.
Proof.
  unfold remove_projected_hidden_terminal_job_record. destruct (jobs_by_id i !! jid) as [j|]; [ | done].
  destruct (request_id j) as [rid|]; [ | done]. destruct (_ || _); [done | ].
  by shrinks.
Qed.

(** ** Enqueueing and handing out *)

(** A fresh, undispatched request at the end of a queue that had room. *)
Definition enqueued (i i' : RunnerRegistryInner) : Prop :=
  exists i0 cid rid p, requests_shrink i i0 /\ fresh_request i rid
    /\ length (unwrap_or [] (queues_by_runner i0 !! cid)) < MAX_QUEUED_REQUESTS_PER_RUNNER
    /\ queues_by_runner i' = <[ cid := unwrap_or [] (queues_by_runner i0 !! cid) ++ [rid] ]> (queues_by_runner i0)
    /\ pending_by_id i' = <[ rid := p ]> (pending_by_id i0) /\ p_dispatched p = false
    /\ req_request_id (p_request p) = rid.

(** A request handed out of a queue; what was before it is dropped. *)
Definition handed_out (i i' : RunnerRegistryInner) : Prop :=
  exists cid skipped rid rest p, queues_by_runner i !! cid = Some (skipped ++ rid :: rest)
    /\ queues_by_runner i' = <[ cid := rest ]> (queues_by_runner i)
    /\ pending_by_id i !! rid = Some p /\ pending_by_id i' !! rid = after_dispatch p
    /\ forall k p', k <> rid -> pending_by_id i' !! k = Some p' -> pending_by_id i !! k = Some p'.

Definition requests_change (i i' : RunnerRegistryInner) : Prop :=
  requests_shrink i i' \/ enqueued i i' \/ handed_out i i'.

Lemma shrink_fresh (i i' : RunnerRegistryInner) (rid : str) :
  requests_shrink i i' -> fresh_request i rid -> fresh_request i' rid.
Proof.
  intros [Hq Hp] [Hn Hf]. split.
  - destruct (pending_by_id i' !! rid) as [p|] eqn:E; [ | done].
    eapply lookup_weaken in E; [ | exact Hp]. congruence.
  - intros cid q' Hq'. destruct (Hq cid q' Hq') as (q & Hq0 & Hs). intros Hin.
    eapply Hf; [exact Hq0 | ]. by eapply sublist_subseteq.
Qed.

Lemma enqueue_change operation i0 i i' cid rid request w jid now :
  requests_shrink i0 i -> fresh_request i0 rid -> req_request_id request = rid ->
  enqueue_pending_request_locked operation i cid rid request w jid now = Ok i' -> enqueued i0 i'.
Proof.
  intros Hs Hf Hid Hq. destruct operation as [op|]; [ | done]. apply enqueue_spec in Hq as [-> Hl].
  exists i, cid, rid, (mkPending request op w jid no_fences false). by split_and!.
Qed.

(** ... with what the caller attaches to it. *)
Lemma attach_change operation i i' cid rid request w jid now fences a :
  fresh_request i rid -> req_request_id request = rid ->
  enqueue_pending_request_locked operation i cid rid request w jid now = Ok i' ->
  enqueued i (attach_request i' rid fences a).
Proof.
  intros Hf Hid Hq. destruct operation as [op|]; [ | done]. apply enqueue_spec in Hq as [-> Hl].
  exists i, cid, rid, (mkPending request op w jid fences false).
  assert (Hp : forall b, queues_by_runner (attach_request b rid fences a) = queues_by_runner b
    /\ pending_by_id (attach_request b rid fences a) = alter (fun p => p <| p_fences := fences |>) rid (pending_by_id b))
    by (intros b; by destruct a).
  match goal with |- context [attach_request ?b rid fences a] => destruct (Hp b) as [Hq1 Hp1] end.
  rewrite Hq1, Hp1. cbn. rewrite alter_insert_eq. by split_and!.
Qed.

Lemma enqueue_stop_change operation i0 i i' jid stop_id job now :
  requests_shrink i0 i -> fresh_request i0 stop_id ->
  enqueue_stop operation i jid stop_id job now = Ok i' -> enqueued i0 i'.
Proof.
  unfold enqueue_stop. intros Hs Hf Hq.
  destruct (enqueue_pending_request_locked _ _ _ _ _ _ _ _) eqn:E; [ | done]. injection Hq as <-.
  by eapply enqueue_change in E.
Qed.

Lemma stop_change (grace : Z) (operation : str) (i : RunnerRegistryInner)
  (access : option RunnerAccess) (jid stop_id : str) (now : Z) :
  fresh_request i stop_id -> requests_change i (stop_job_for_auth grace operation i access jid stop_id now).1.
Proof.
  intros Hf. unfold stop_job_for_auth. destruct (validate_id jid _); [ | by left].
  pose proof (refresh_shrink grace i jid now) as Hs.
  set (i1 := refresh_job_status_locked grace i jid now) in *. clearbody i1.
  destruct (jobs_by_id i1 !! jid) as [j|]; [ | by left]. destruct (_ || _); [by left | ].
  destruct (recovery_active j); [by left | ]. destruct (lifecycle j); try by left.
  - left. etransitivity; [exact Hs | ]. etransitivity; [apply drop_start_shrink | by shrinks].
  - destruct (enqueue_stop _ _ _ _ _ _) eqn:E; [ | by left]. right; left. by eapply enqueue_stop_change in E.
  - destruct (enqueue_stop _ _ _ _ _ _) eqn:E; [ | by left]. right; left. by eapply enqueue_stop_change in E.
Qed.

Lemma cancel_change (grace : Z) (i : RunnerRegistryInner)
  (access : option RunnerAccess) (jid stop_id : str) (now : Z) :
  fresh_request i stop_id -> requests_change i (cancel_hidden_job_for_auth grace i access jid stop_id now).1.
Proof.
  intros Hf. unfold cancel_hidden_job_for_auth. destruct (validate_id jid _); [ | by left].
  pose proof (refresh_shrink grace i jid now) as Hs.
  set (i1 := refresh_job_status_locked grace i jid now) in *. clearbody i1.
  destruct (jobs_by_id i1 !! jid) as [j|]; [ | by left]. destruct (_ || _); [by left | ].
  destruct (lifecycle j ==? Queued).
  { left. etransitivity; [exact Hs | ]. etransitivity; [apply drop_start_shrink | by shrinks]. }
  destruct (is_terminal (lifecycle j)); [left; etransitivity; [exact Hs | by shrinks] | ].
  set (i2 := update_job_record i1 jid _).
  assert (Hs2 : requests_shrink i i2) by (etransitivity; [exact Hs | by shrinks]).
  destruct (_ && _); [ | by left].
  destruct (enqueue_stop _ _ _ _ _ _) eqn:E; [ | by left]. right; left. by eapply enqueue_stop_change in E.
Qed.

Lemma start_change {plans : PlanJson} is_alphanumeric sha256_hex i i' body requested_by m access initiator rid jid
  epoch receipts now r :
  fresh_request i rid ->
  start_job_with_metadata_for_access is_alphanumeric sha256_hex i body requested_by m access initiator
    rid jid epoch receipts now = Some (i', r) -> requests_change i i'.
Proof.
  intros Hf Heq.
  destruct (start_outcomes is_alphanumeric sha256_hex i body requested_by m access initiator rid jid epoch
    receipts now) as (i2 & r2 & Heq2 & Hout). unfold start_ in Heq2. rewrite Heq in Heq2. injection Heq2 as <- <-.
  destruct Hout as [err|plan command runner existing Hp Hr Hx|plan command runner i1 Hp Hr Hx Hq job];
    [by left .. | ].
  right; left. eapply (enqueue_change _ i) in Hq; [done | done | done | ].
  by rewrite (encoded_request_id _ _ _ (ps_wire _ _ _ _ _ _ _ _ _ _ _ Hp)).
Qed.

Lemma poll_change is_alphanumeric i cid iid connection now :
  requests_change i (poll_checked is_alphanumeric i cid iid connection now).1.1.
Proof.
  pose proof (poll_outcome_holds is_alphanumeric i cid iid connection now) as Hp. cbn zeta in Hp.
  destruct (poll_checked is_alphanumeric i cid iid connection now) as [[i' replies] [answer|err]]; cbn [fst];
    [ | by destruct Hp as [-> _]; left].
  destruct Hp as (_ & skipped & rest & Hsk & _ & _ & Hq & Hans). cbn in Hsk, Hq, Hans.
  rewrite Forall_forall in Hsk.
  assert (Hsame : forall k p', pending_by_id i' !! k = Some p' -> k ∉ skipped)
    by (intros k p' Hk Hin; apply Hsk in Hin as (_ & Hn & _); congruence).
  destruct answer as [request|].
  - destruct Hans as (rid & p & Hqueue & _ & Hrid & _ & Hafter & _ & Hk). right; right.
    exists cid, skipped, rid, rest, p. split_and!; try done.
    + destruct (queues_by_runner i !! cid); cbn [unwrap_or] in Hqueue; [congruence | by destruct skipped].
    + rewrite Hq, Hqueue. by destruct skipped.
    + intros k p' Hne Hp'. rewrite <- Hk; [done | done | by eapply Hsame].
  - destruct Hans as (Hqueue & -> & _ & Hk). left. split.
    + intros c q' Hc. rewrite Hq in Hc. destruct (is_empty _) eqn:Ee; [by exists q' | ].
      apply lookup_insert_Some in Hc as [[<- <-]|[_ Hc]]; [ | by exists q'].
      destruct (queues_by_runner i !! cid) as [queue|]; [ | done]. exists queue. split; [done | apply sublist_nil_l].
    + apply map_subseteq_spec. intros k p' Hp'. rewrite <- Hk; [done | by eapply Hsame].
Qed.

Lemma complete_shrink is_alphanumeric mcp_valid plugin_valid i i' body connection now replies r :
  complete_checked is_alphanumeric mcp_valid plugin_valid i body connection now
  = Some ((i', replies), r) -> requests_shrink i i'.
Proof. intros Hc. apply complete_requests in Hc as [Hq Hp]. by apply shrink_same. Qed.

Lemma complete_shell_shrink i i' body connection now reply r :
  complete_persistent_shell_checked i body connection now = Some ((i', reply), r) -> requests_shrink i i'.
Proof.
  unfold complete_persistent_shell_checked. destruct (check? validate_id _ _ ;; _); [ | by intros [= <- _ _]].
  destruct (normalize_persistent_shell_result _) as [normalized|]; [ | done]. cbn [mbind option_bind].
  destruct (let? r := normalized in _); [ | by intros [= <- _ _]].
  assert (Hl : requests_shrink i (refresh_liveness i (psq_client_id body) connection now))
    by (unfold refresh_liveness; destruct (_ || _); shrinks).
  destruct (check_persistent_request _ _ _); [ | by intros [= <- _ _]].
  destruct (negb _); intros [= <- _ _]; (etransitivity; [exact Hl | ]); [ | by shrinks].
  set (live := refresh_liveness _ _ _ _). destruct (drop_start_shrink live (Some (psq_request_id body))) as [Hq Hp].
  split; [exact Hq | exact Hp].
Qed.

Lemma retire_replaced_shrink (i : RunnerRegistryInner) (record : RunnerRecord) (inventory : option ShellJobInventory)
  (now : Z) : requests_shrink i (retire_replaced i record inventory now).1.
Proof.
  unfold retire_replaced. destruct (replaced_instance i record) as [old|]; [ | done].
  set (i1 := terminate_instance_jobs_locked _ _ _ _ _).
  pose proof (resolve_shrink i1 (r_client_id record) REPLACED_WAITER_MESSAGE) as Hr.
  destruct (resolve_disconnected_sync_requests_locked _ _ _) as [i2 sent]. cbn [fst] in *.
  etransitivity; [apply terminate_shrink | ]. etransitivity; [exact Hr | by shrinks].
Qed.

Lemma register_shrink serialized_len grace limits epoch reg reg' body access streaming now sent cancelled r :
  register_session serialized_len grace limits epoch reg body access streaming now = Some (reg', sent, cancelled, r) ->
  requests_shrink (reg_inner reg) (reg_inner reg').
Proof.
  intros Hr. pose proof (prune_shared_key_shrink (offline_ttl_secs limits) reg now) as Hp.
  destruct (register_states _ _ _ _ _ _ _ _ _ _ _ _ _ Hr) as [->|[->|(record & Hu & Hrec)]]; [done | done | ].
  etransitivity; [exact Hp | ]. etransitivity; [apply retire_replaced_shrink | ].
  unfold taken_over in Hrec. set (i1 := (retire_replaced _ record _ now).1) in *. set (i2 := install_lease i1 _ _) in *.
  assert (H2 : requests_shrink i1 i2) by shrinks. clearbody i2. etransitivity; [exact H2 | ].
  destruct (reg_job_inventory body) as [inv|]; cbn [reconcile_reported] in Hrec; [ | by injection Hrec as ->].
  apply fmap_Some in Hrec as ([i3 sum] & Hrec & ->). by eapply reconcile_shrink.
Qed.

Lemma page_shrink summaries_json_len page_json_len page_json_digest i i' cid iid connection page now r :
  apply_project_inventory_page_checked summaries_json_len page_json_len page_json_digest i cid iid connection
    page now = Some (i', r) -> requests_shrink i i'.
Proof.
  unfold apply_project_inventory_page_checked. destruct (validate_runner_instance_id iid); [ | by intros [= <- _]].
  destruct (runners _ !! cid) as [x|]; [ | intros [= <- _]; by shrinks]. destruct (_ !=? iid); [intros [= <- _]; by shrinks | ].
  destruct (is_some_and _ connection); [intros [= <- _]; by shrinks | ].
  destruct (apply_page _ _ _ _ _ _ _) as [y|]; [ | done]. intros [= <- _]. by shrinks.
Qed.

Lemma cancel_request_shrink (i : RunnerRegistryInner) (rid : str) :
  requests_shrink i (remove_pending_request_locked (forget_waiters i rid) rid).
Proof.
  destruct (drop_start_shrink (forget_waiters i rid) (Some rid)) as [Hq Hp]. by split.
Qed.

Lemma step_requests (i i' : RunnerRegistryInner) : registry_step i i' -> requests_change i i'.
Proof.
  intros Hs. destruct Hs.
  - left. apply refresh_shrink.
  - by eapply start_change.
  - apply poll_change.
  - left. by eapply complete_shrink.
  - left. by eapply complete_shell_shrink.
  - right; left. by eapply attach_change.
  - left. apply cancel_request_shrink.
  - left. apply fold_shrink. intros. apply cancel_request_shrink.
  - left. unfold begin_project_unregister. set (i1 := fold_left _ _ i).
    assert (H1 : requests_shrink i i1) by (apply fold_shrink; intros; apply refresh_shrink).
    cbn [fst]. destruct (Nat.eqb _ 0); [ | exact H1]. etransitivity; [exact H1 | by shrinks].
  - left. unfold end_project_unregister. destruct (unregistering_projects i !! project); [by shrinks | done].
  - left. unfold touch_runner_for_connection. destruct (check? _ ;; _); [by shrinks | done].
  - left. unfold update_runtime_metadata_checked. destruct (match providers with Some _ => _ | None => _ end); [ | done].
    destruct (_ && _); [done | ]. destruct (check? _ ;; _); [by shrinks | done].
  - left. apply prune_shared_key_shrink.
  - left. by eapply update_job_shrink.
  - by apply stop_change.
  - left. apply promote_shrink.
  - by apply cancel_change.
  - left. apply discard_shrink.
  - left. apply sweep_shrink.
  - left. by eapply register_shrink.
  - left. by eapply page_shrink.
  - left. unfold upsert_runner_project_for_instance. by destruct (result_bind _ _); shrinks.
  - left. unfold remove_runner_project_for_instance. by destruct (with_active_runner _ _ _); shrinks.
  - left. apply disconnect_shrink.
Qed.

Lemma change_bounded (i i' : RunnerRegistryInner) :
  requests_change i i' -> queues_bounded i -> queues_bounded i'.
Proof.
  intros [Hs|[(i0 & cid & rid & p & Hs & _ & Hl & Hq & _)|(cid & skipped & rid & rest & p & Hc & Hq & _)]] Hb.
  - by eapply shrink_bounded.
  - apply (shrink_bounded _ _ Hs) in Hb. intros c q Hcq. rewrite Hq in Hcq.
    apply lookup_insert_Some in Hcq as [[_ <-]|[_ Hcq]]; [ | by apply (Hb c)]. rewrite length_app. cbn [length]. lia.
  - intros c q Hcq. rewrite Hq in Hcq. apply lookup_insert_Some in Hcq as [[_ <-]|[_ Hcq]]; [ | by apply (Hb c)].
    specialize (Hb cid _ Hc). cbn in Hb. rewrite length_app in Hb. cbn [length] in Hb. lia.
Qed.

(** ** One queue, one place, not dispatched *)

(** A request is queued at most once and not after it was handed out, and it carries
    the id it is pending under. *)
Record queued_once (i : RunnerRegistryInner) : Prop := {
  qo_nodup : forall cid q, queues_by_runner i !! cid = Some q -> NoDup q;
  qo_place : forall c1 c2 q1 q2 rid, queues_by_runner i !! c1 = Some q1 -> queues_by_runner i !! c2 = Some q2 ->
    rid ∈ q1 -> rid ∈ q2 -> c1 = c2;
  qo_waiting : forall cid q rid p, queues_by_runner i !! cid = Some q -> rid ∈ q ->
    pending_by_id i !! rid = Some p -> p_dispatched p = false;
  qo_key : forall rid p, pending_by_id i !! rid = Some p -> req_request_id (p_request p) = rid
}.

Lemma shrink_once (i i' : RunnerRegistryInner) : requests_shrink i i' -> queued_once i -> queued_once i'.
Proof.
  intros [Hq Hp] [Hn Hpl Hw Hkey]. split.
  - intros cid q' Hc. destruct (Hq cid q' Hc) as (q & Hc0 & Hs). by eapply sublist_NoDup, Hs; eapply Hn.
  - intros c1 c2 q1' q2' rid H1 H2 Hin1 Hin2.
    destruct (Hq c1 q1' H1) as (q1 & Hc1 & Hs1), (Hq c2 q2' H2) as (q2 & Hc2 & Hs2).
    eapply Hpl; [exact Hc1 | exact Hc2 | by eapply elem_of_sublist, Hs1 | by eapply elem_of_sublist, Hs2].
  - intros cid q' rid p Hc Hin Hrid. destruct (Hq cid q' Hc) as (q & Hc0 & Hs).
    eapply Hw; [exact Hc0 | by eapply elem_of_sublist, Hs | by eapply lookup_weaken].
  - intros rid p Hrid. eapply Hkey. by eapply lookup_weaken.
Qed.

Lemma enqueue_once (i i' : RunnerRegistryInner) : enqueued i i' -> queued_once i -> queued_once i'.
Proof.
  intros (i0 & cid & rid & p & Hs & Hf & _ & Hq & Hp & Hd & Hid) Ho.
  apply (shrink_fresh _ _ _ Hs) in Hf as [Hfp Hfq]. apply (shrink_once _ _ Hs) in Ho as [Hn Hpl Hw Hkey].
  set (q0 := unwrap_or [] (queues_by_runner i0 !! cid)) in *.
  assert (Hq0 : NoDup q0 /\ rid ∉ q0).
  { subst q0. destruct (queues_by_runner i0 !! cid) as [q|] eqn:E; cbn; [by eauto | split; [constructor | set_solver]]. }
  assert (Hold : forall c q k, queues_by_runner i' !! c = Some q -> k ∈ q -> k <> rid ->
    exists q1, queues_by_runner i0 !! c = Some q1 /\ k ∈ q1).
  { intros c q k Hc Hin Hne. rewrite Hq in Hc. apply lookup_insert_Some in Hc as [[<- <-]|[_ Hc]]; [ | eauto].
    apply elem_of_app in Hin as [Hin|Hin%list_elem_of_singleton]; [ | done]. subst q0.
    destruct (queues_by_runner i0 !! cid) as [q|]; cbn in Hin; [eauto | set_solver]. }
  assert (Hnew : forall c q, queues_by_runner i' !! c = Some q -> rid ∈ q -> c = cid).
  { intros c q Hc Hin. rewrite Hq in Hc. apply lookup_insert_Some in Hc as [[<- _]|[_ Hc]]; [done | ].
    by apply Hfq in Hc. }
  split.
  - intros c q Hc. rewrite Hq in Hc. apply lookup_insert_Some in Hc as [[_ <-]|[_ Hc]]; [ | by eauto].
    apply NoDup_app. split_and!; [apply Hq0 | set_solver | apply NoDup_singleton].
  - intros c1 c2 q1 q2 k H1 H2 Hi1 Hi2. destruct (decide (k = rid)) as [->|Hne].
    + by rewrite (Hnew _ _ H1 Hi1), (Hnew _ _ H2 Hi2).
    + destruct (Hold _ _ _ H1 Hi1 Hne) as (q1' & ? & ?), (Hold _ _ _ H2 Hi2 Hne) as (q2' & ? & ?). by eapply Hpl.
  - intros c q k pk Hc Hin Hk. rewrite Hp in Hk. apply lookup_insert_Some in Hk as [[<- <-]|[Hne Hk]]; [done | ].
    destruct (Hold c q k Hc Hin) as (q1 & ? & ?); [done | ]. by eapply Hw.
  - intros k pk Hk. rewrite Hp in Hk. apply lookup_insert_Some in Hk as [[<- <-]|[_ Hk]]; [done | by apply Hkey].
Qed.

Lemma dispatched_request (p p' : PendingShellRequest) :
  after_dispatch p = Some p' -> p_request p = p_request p' /\ p_dispatched p' = true.
Proof. unfold after_dispatch. destruct (is_stop _); [done | ]. by intros [= <-]. Qed.

Lemma handed_out_once (i i' : RunnerRegistryInner) : handed_out i i' -> queued_once i -> queued_once i'.
Proof.
  intros (cid & skipped & rid & rest & p & Hc & Hq & Hrid & Hafter & Hk) [Hn Hpl Hw Hkey].
  pose proof (Hn _ _ Hc) as Hnd. apply NoDup_app in Hnd as (_ & _ & Hnd). apply NoDup_cons in Hnd as [Hnr Hnd].
  assert (Hold : forall c q k, queues_by_runner i' !! c = Some q -> k ∈ q -> k <> rid
    /\ exists q1, queues_by_runner i !! c = Some q1 /\ k ∈ q1).
  { intros c q k Hcq Hin. rewrite Hq in Hcq. apply lookup_insert_Some in Hcq as [[<- <-]|[Hne Hcq]].
    - split; [by intros -> | ]. eexists. split; [exact Hc | set_solver].
    - split; [ | by eauto]. intros ->. apply Hne. eapply (Hpl _ _ _ _ rid); [exact Hc | exact Hcq | set_solver | done]. }
  split.
  - intros c q Hcq. rewrite Hq in Hcq. apply lookup_insert_Some in Hcq as [[_ <-]|[_ Hcq]]; [done | by eauto].
  - intros c1 c2 q1 q2 k H1 H2 Hi1 Hi2.
    destruct (Hold _ _ _ H1 Hi1) as (_ & q1' & ? & ?), (Hold _ _ _ H2 Hi2) as (_ & q2' & ? & ?). by eapply Hpl.
  - intros c q k pk Hcq Hin Hpk. destruct (Hold c q k Hcq Hin) as (Hne & q1 & ? & ?).
    eapply Hw; [done | done | by apply Hk].
  - intros k pk Hpk. destruct (decide (k = rid)) as [->|Hne]; [ | by apply Hkey, Hk].
    rewrite Hafter in Hpk. apply dispatched_request in Hpk as [<- _]. by apply Hkey.
Qed.

Lemma reachable_once (i0 i : RunnerRegistryInner) : queued_once i0 -> rtc registry_step i0 i -> queued_once i.
Proof.
  intros H0 Hr. induction Hr as [i|i i1 i2 Hs _ IH]; [done | ]. apply IH.
  destruct (step_requests _ _ Hs) as [?|[?|?]]; [by eapply shrink_once | by eapply enqueue_once | by eapply handed_out_once].
Qed.

End QueueHandlers.

(** No sequence of registry steps makes a Runner's queue of undelivered
    requests longer than 256: the stop requests the handlers enqueue themselves
    count against the same limit. *)
Lemma reachable_queues_bounded `{HashIteration} (i0 i : RunnerRegistryInner) :
  queues_bounded i0 -> rtc registry_step i0 i -> queues_bounded i.
Proof. intros H0 Hr. induction Hr as [i|i i1 i2 Hs _ IH]; [done | ]. apply IH. by eapply change_bounded, H0; apply step_requests. Qed.

Lemma connected_fresh (rid : str) :
  pending_by_id connected_registry !! rid = None -> fresh_request connected_registry rid.
Proof.
  intros Hp. split; [done | ]. intros cid q Hc. cbn in Hc. apply lookup_singleton_Some in Hc as [_ <-]. set_solver.
Defined.

Lemma reachable_queues_bounded_witness :
  exists i, rtc registry_step connected_registry i
    /\ queues_by_runner i !! lit "r1" = Some [lit "stop-1"] /\ queues_bounded i.
Proof.
  set (i := (stop_job_for_auth 120 (lit "ann") connected_registry None (lit "a") (lit "stop-1") 300).1).
  assert (Hs : rtc registry_step connected_registry i)
    by (apply rtc_once, step_stop, (connected_fresh (lit "stop-1")); vm_compute; reflexivity).
  exists i. split; [exact Hs | ]. split; [vm_compute; reflexivity | ].
  apply (reachable_queues_bounded connected_registry i); [ | exact Hs].
  intros cid q Hq. cbn in Hq. apply lookup_singleton_Some in Hq as [_ <-].
  cbn. unfold MAX_QUEUED_REQUESTS_PER_RUNNER. lia.
Defined.

(** ** After a request was handed out *)

(** The request [rid] is in no queue, and dispatched if it is still pending. *)
Definition spent (rid : str) (i : RunnerRegistryInner) : Prop :=
  (forall c q, queues_by_runner i !! c = Some q -> rid ∉ q)
  /\ forall p, pending_by_id i !! rid = Some p -> p_dispatched p = true.

(** A step that enqueues a new request under the id [rid]. *)
Definition requeued (rid : str) (i i' : RunnerRegistryInner) : Prop :=
  pending_by_id i !! rid = None /\ is_Some (pending_by_id i' !! rid).

Lemma shrink_spent (rid : str) (i i' : RunnerRegistryInner) : requests_shrink i i' -> spent rid i -> spent rid i'.
Proof.
  intros [Hq Hp] [Hs Hd]. split.
  - intros c q' Hc. destruct (Hq c q' Hc) as (q & Hc0 & Hsub). intros Hin. eapply Hs; [exact Hc0 | ].
    by eapply elem_of_sublist.
  - intros p Hrid. apply Hd. by eapply lookup_weaken.
Qed.

Lemma enqueue_spent (rid : str) (i i' : RunnerRegistryInner) :
  enqueued i i' -> ~ requeued rid i i' -> spent rid i -> spent rid i'.
Proof.
  intros (i0 & cid & rid' & p & Hs & Hf & _ & Hq & Hp & _) Hn Hsp. destruct (decide (rid' = rid)) as [->|Hne].
  { exfalso. apply Hn. split; [apply Hf | rewrite Hp, lookup_insert_eq; by eexists]. }
  apply (shrink_spent _ _ _ Hs) in Hsp as [Hsq Hsd]. split.
  - intros c q Hc. rewrite Hq in Hc. apply lookup_insert_Some in Hc as [[<- <-]|[_ Hc]]; [ | by eapply Hsq].
    rewrite not_elem_of_app, list_elem_of_singleton. split; [ | by intros ->].
    destruct (queues_by_runner i0 !! cid) as [q|] eqn:E; cbn; [by eapply Hsq | set_solver].
  - intros p' Hp'. rewrite Hp, lookup_insert_ne in Hp' by done. by apply Hsd.
Qed.

Lemma handed_out_spent (rid : str) (i i' : RunnerRegistryInner) : handed_out i i' -> spent rid i -> spent rid i'.
Proof.
  intros (cid & skipped & rid' & rest & p & Hc & Hq & _ & _ & Hk) [Hsq Hsd].
  pose proof (Hsq _ _ Hc) as Hnot. assert (Hne : rid <> rid') by (intros ->; apply Hnot; set_solver). split.
  - intros c q Hcq. rewrite Hq in Hcq. apply lookup_insert_Some in Hcq as [[<- <-]|[_ Hcq]]; [set_solver | by eapply Hsq].
  - intros p' Hp'. by apply Hsd, Hk.
Qed.

Lemma spent_stays `{HashIteration} (rid : str) (i i' : RunnerRegistryInner) :
  rtc (fun a b => registry_step a b /\ ~ requeued rid a b) i i' -> spent rid i -> spent rid i'.
Proof.
  induction 1 as [i|i i1 i2 [Hs Hn] _ IH]; [done | ]. intros Hsp. apply IH.
  destruct (step_requests _ _ Hs) as [?|[?|?]];
    [by eapply shrink_spent | by eapply enqueue_spent | by eapply handed_out_spent].
Qed.

(** What a poll that answers with a request does. *)
Lemma poll_takes (is_alphanumeric : char -> bool) (i i' : RunnerRegistryInner)
  (cid iid : str) (connection : option str) (now : Z) (replies : list Reply) (request : RunnerRequest) :
  queued_once i -> poll_checked is_alphanumeric i cid iid connection now = ((i', replies), Ok (Some request)) ->
  exists q p, queues_by_runner i !! cid = Some q /\ req_request_id request ∈ q
    /\ pending_by_id i !! req_request_id request = Some p /\ p_request p = request /\ p_dispatched p = false
    /\ spent (req_request_id request) i'.
Proof.
  intros Ho Hp. pose proof (poll_outcome_holds is_alphanumeric i cid iid connection now) as Hout. rewrite Hp in Hout.
  destruct Hout as (_ & skipped & rest & _ & _ & _ & Hq & rid & p & Hqueue & _ & Hrid & -> & Hafter & _).
  cbn in Hq, Hrid. rewrite (qo_key _ Ho rid p Hrid).
  assert (Hc : queues_by_runner i !! cid = Some (skipped ++ rid :: rest))
    by (destruct (queues_by_runner i !! cid); cbn in Hqueue; [congruence | by destruct skipped]).
  rewrite Hqueue in Hq. replace (is_empty (skipped ++ rid :: rest)) with false in Hq by (by destruct skipped).
  exists (skipped ++ rid :: rest), p.
  split_and!; [done | set_solver | done | done | eapply (qo_waiting _ Ho _ _ rid); [exact Hc | set_solver | done] | ].
  split; [ | intros p'; rewrite Hafter; apply dispatched_request].
  intros c q Hcq Hin. rewrite Hq in Hcq. apply lookup_insert_Some in Hcq as [[_ <-]|[Hne Hcq]].
  - pose proof (qo_nodup _ Ho _ _ Hc) as (_ & _ & [Hn _]%NoDup_cons)%NoDup_app. done.
  - apply Hne. eapply (qo_place _ Ho _ _ _ _ rid); [exact Hc | exact Hcq | set_solver | done].
Qed.

(** C28: A request is handed out at most once.  In every reachable state, a request
    that a poll hands out was pending under its own id and not dispatched before;
    and in every state reached afterwards by any handlers, for as long as no new
    request is enqueued under the same (generated) id, it is in no Runner's queue,
    it is marked dispatched if it is still pending, and no poll of any Runner hands
    out a request with that id again. *)
Theorem handed_out_at_most_once `{HashIteration} (is_alphanumeric : char -> bool) (i0 i i' i2 : RunnerRegistryInner)
  (cid iid : str) (connection : option str) (now : Z) (replies : list Reply) (request : RunnerRequest) :
  queued_once i0 -> rtc registry_step i0 i ->
  poll_checked is_alphanumeric i cid iid connection now = ((i', replies), Ok (Some request)) ->
  rtc (fun a b => registry_step a b /\ ~ requeued (req_request_id request) a b) i' i2 ->
  (exists p, pending_by_id i !! req_request_id request = Some p /\ p_request p = request /\ p_dispatched p = false)
  /\ (forall c q, queues_by_runner i2 !! c = Some q -> req_request_id request ∉ q)
  /\ (forall p, pending_by_id i2 !! req_request_id request = Some p -> p_dispatched p = true)
  /\ (forall is_alphanumeric2 cid2 iid2 connection2 now2 i3 replies2 request2,
        poll_checked is_alphanumeric2 i2 cid2 iid2 connection2 now2 = ((i3, replies2), Ok (Some request2)) ->
        req_request_id request2 <> req_request_id request).
Proof.
  intros H0 Hr Hp Hlater. pose proof (reachable_once _ _ H0 Hr) as Ho.
  destruct (poll_takes _ _ _ _ _ _ _ _ _ Ho Hp) as (q & p & _ & _ & Hpend & Hreq & Hd & Hspent).
  apply (spent_stays _ _ _ Hlater) in Hspent as [Hq2 Hd2]. split_and!; [by exists p | done | done | ].
  intros is_alphanumeric2 cid2 iid2 connection2 now2 i3 replies2 request2 Hp2.
  assert (Ho2 : queued_once i2).
  { apply (reachable_once i i2 Ho). eapply rtc_l; [ | eapply rtc_subrel; [ | exact Hlater]; by intros a b [? _]].
    pose proof (step_poll is_alphanumeric i cid iid connection now) as Hs. by rewrite Hp in Hs. }
  destruct (poll_takes _ _ _ _ _ _ _ _ _ Ho2 Hp2) as (q2 & p2 & Hq & Hin & _). intros Heq. rewrite Heq in Hin.
  by eapply Hq2.
Qed.

Lemma queued_once_empty : queued_once RunnerRegistryInner_default.
Proof. split; intros *; cbn; by rewrite lookup_empty. Qed.

(** The start request of the sample history, up to the state in which the Job is
    lost. *)
Lemma handed_out_at_most_once_witness :
  rtc registry_step RunnerRegistryInner_default h_started
  /\ exists replies request,
       poll_checked is_ascii_alphanumeric h_started (lit "r1") (lit "i1") None 302
       = ((h_polled, replies), Ok (Some request))
       /\ req_request_id request = lit "req-1"
       /\ forall c q, queues_by_runner h_lost !! c = Some q -> lit "req-1" ∉ q.
Proof.
  assert (Hr : rtc registry_step RunnerRegistryInner_default h_started)
    by (eapply rtc_l; [exact h_registered_reached | apply rtc_once; exact h_started_reached]).
  split; [exact Hr | ].
  assert (E : poll_checked is_ascii_alphanumeric h_started (lit "r1") (lit "i1") None 302
    = ((h_polled, h_poll_answer.1.2), Ok (Some h_request))) by (vm_compute; reflexivity).
  assert (Hid : req_request_id h_request = lit "req-1") by (vm_compute; reflexivity).
  exists h_poll_answer.1.2, h_request. split; [exact E | ]. split; [exact Hid | ].
  assert (Hlater : rtc (fun a b => registry_step a b /\ ~ requeued (req_request_id h_request) a b) h_polled h_lost).
  { apply rtc_once. split; [exact h_lost_step | ]. rewrite Hid. intros [Hn _].
    assert (Hs : is_some (pending_by_id h_polled !! lit "req-1") = true) by (vm_compute; reflexivity).
    rewrite Hn in Hs. discriminate. }
  destruct (handed_out_at_most_once is_ascii_alphanumeric RunnerRegistryInner_default h_started h_polled h_lost
    (lit "r1") (lit "i1") None 302 _ _ queued_once_empty Hr E Hlater) as (_ & Hq & _).
  rewrite Hid in Hq. exact Hq.
Defined.
