(* ===== verification/CodingRuns.v ===== *)
(** * CodingRuns: coding-agent Runs and their tokens (src/tool_runtime/coding_agent.rs)

    The Server keeps, under one mutex, the newest snapshot of every Run it has seen,
    the Runner and provider the Run is bound to, the session that records it, and
    which kinds of lifecycle evidence were recorded.  Each method of
    [CodingAgentServerState] prunes the registry and then acts on one Run. *)
From S2P Require Import RegistryState CodingAgent Prelude RustStr.

Definition SERVER_TERMINAL_RETENTION_SECS : Z := 15 * 60.
Definition SERVER_MAX_TERMINAL_RUNS : nat := CODING_AGENT_MAX_INVENTORY_RUNS.
Definition IDEMPOTENCY_KEY_MAX_BYTES : Z := 256.

Record ServerRunBinding : Type := mkBinding {
  bind_authority_fingerprint : str;
  bind_client_id : str;
  bind_runner_instance_id : str;
  bind_runtime_project_id : str;
  bind_provider_id : str;
  bind_provider_instance_id : str;
  recording_session_id : option str;
  recorded_lifecycle_mask : Z;
  snapshot : CodingAgentRunSnapshot
}.

#[export] Instance eta_binding : Eta ServerRunBinding := fun b =>
  mkBinding (bind_authority_fingerprint b) (bind_client_id b) (bind_runner_instance_id b)
    (bind_runtime_project_id b) (bind_provider_id b) (bind_provider_instance_id b) (recording_session_id b)
    (recorded_lifecycle_mask b) (snapshot b).

#[export] Instance eta_run_snapshot : Eta CodingAgentRunSnapshot := fun r =>
  mkRun (run_id r) (intent_fingerprint r) (authority_fingerprint r) (runtime_project_id r) (run_provider_id r)
    (run_provider_instance_id r) (run_state r) (execution_state r) (observation_revision r) (run_created_at r)
    (run_updated_at r) (terminal r).

Abbreviation runs_map := (gmap str ServerRunBinding).

Definition bound_terminal (b : ServerRunBinding) : bool := run_terminal (run_state (snapshot b)).
Definition bound_updated_at (b : ServerRunBinding) : Z := run_updated_at (snapshot b).

(** ** Input of a start *)

Definition validate_start_input (provider_id idempotency_key instruction : str)
  (config : option (list (str * CodingAgentConfigValue))) (timeout_secs : option Z) : result unit str :=
  check? validate_provider_id provider_id ;;
  bail? is_empty idempotency_key || Z.ltb IDEMPOTENCY_KEY_MAX_BYTES (str_len idempotency_key)
        || existsb (fun c => contains_char c idempotency_key) [NUL; CR; LF]
    with lit "idempotency_key must contain 1..=" ++ fmt_Z IDEMPOTENCY_KEY_MAX_BYTES ++ lit " bytes and no NUL/CR/LF" ;;
  bail? is_empty instruction || Z.ltb CODING_AGENT_MAX_INSTRUCTION_BYTES (str_len instruction)
        || contains_char NUL instruction
    with lit "instruction is empty, too large, or contains NUL" ;;
  bail? is_some_and (fun config => Nat.ltb CODING_AGENT_MAX_CONFIG_OPTIONS (length config)) config
    with lit "too many CodingAgentRun config overrides" ;;
  bail? is_some_and (fun timeout => negb (Z.leb CODING_AGENT_TIMEOUT_MIN_SECS timeout
                                          && Z.leb timeout CODING_AGENT_TIMEOUT_MAX_SECS)) timeout_secs
    with lit "timeout_secs is outside the supported range" ;;
  Ok tt.

(** ** Pruning *)

Definition retained (now : Z) (b : ServerRunBinding) : bool :=
  negb (bound_terminal b) || Z.leb (i64_sat_sub now SERVER_TERMINAL_RETENTION_SECS) (bound_updated_at b).

Definition older (a b : str * Z) : bool := Z.leb (snd a) (snd b).

Section Runs.
Context `{HashIteration}.

Definition terminal_runs (runs : runs_map) : list (str * Z) :=
  map (fun e => (fst e, bound_updated_at (snd e))) (List.filter (fun e => bound_terminal (snd e)) (hash_iter runs)).

Definition prune_server_runs_locked (runs : runs_map) (now : Z) : runs_map :=
  let runs : runs_map := filter (fun e => retained now (snd e) = true) runs in
  let terminals := terminal_runs runs in
  if Nat.leb (length terminals) SERVER_MAX_TERMINAL_RUNS then runs
  else
    let terminals := sort_by older terminals in
    let remove_count := length terminals - SERVER_MAX_TERMINAL_RUNS in
    fold_left (fun runs e => delete (fst e) runs) (take remove_count terminals) runs.

(** ** One Run *)

Definition run_matches_binding_identity (b : ServerRunBinding) (run : CodingAgentRunSnapshot) : bool :=
  (run_id run ==? run_id (snapshot b))
  && (authority_fingerprint run ==? bind_authority_fingerprint b)
  && (intent_fingerprint run ==? intent_fingerprint (snapshot b))
  && (runtime_project_id run ==? bind_runtime_project_id b)
  && (run_provider_id run ==? bind_provider_id b)
  && (run_provider_instance_id run ==? bind_provider_instance_id b).

Definition merge_server_run_binding_locked (runs : runs_map) (incoming : ServerRunBinding)
  : runs_map * result ServerRunBinding str :=
  let id := run_id (snapshot incoming) in
  match runs !! id with
  | None =>
      match validate_coding_agent_run_snapshot (snapshot incoming) with
      | Err err => (runs, Err err)
      | Ok _ => (<[ id := incoming ]> runs, Ok incoming)
      end
  | Some existing =>
      match merge_coding_agent_run_snapshot (snapshot existing) (snapshot incoming) with
      | Err err => (runs, Err err)
      | Ok (Stale | ExactReplay) =>
          let existing := if is_none (recording_session_id existing)
                          then existing <| recording_session_id := recording_session_id incoming |>
                          else existing in
          (<[ id := existing ]> runs, Ok existing)
      | Ok Advance =>
          let merged := incoming
            <| recording_session_id := or_else (recording_session_id existing) (recording_session_id incoming) |>
            <| recorded_lifecycle_mask := recorded_lifecycle_mask existing |> in
          (<[ id := merged ]> runs, Ok merged)
      end
  end.

(** [client_id] and [runner_instance_id] are those of the Runner's view. *)
Definition bind (runs : runs_map) (client_id runner_instance_id : str) (run : CodingAgentRunSnapshot)
  (session : option str) (now : Z) : runs_map * result ServerRunBinding str :=
  let incoming :=
    mkBinding (authority_fingerprint run) client_id runner_instance_id (runtime_project_id run)
      (run_provider_id run) (run_provider_instance_id run) session 0 run in
  merge_server_run_binding_locked (prune_server_runs_locked runs now) incoming.

Definition LOST_MESSAGE : str :=
  lit "owning Runner/provider instance was replaced while prompt outcome was uncertain; do not redispatch".

Definition mark_server_binding_lost (b : ServerRunBinding) (code : str) (completed_at : Z)
  : result ServerRunBinding str :=
  if bound_terminal b then Ok b
  else
    let run := snapshot b in
    bail? Z.ltb USIZE_MAX (observation_revision run + 1)
      with lit "CodingAgentRun observation revision is exhausted" ;;
    Ok (b <| snapshot := run <| run_state := RunLost |>
                             <| execution_state := ExecOutcomeUnknown |>
                             <| run_updated_at := completed_at |>
                             <| observation_revision := (observation_revision run + 1)%Z |>
                             <| terminal := Some (mkTerminal None (Some code) (Some LOST_MESSAGE) completed_at) |> |>).

(** The clock is read for the pruning and again for the completion time. *)
Definition mark_lost (runs : runs_map) (id code : str) (now completed_at : Z)
  : runs_map * result (option ServerRunBinding) str :=
  let runs := prune_server_runs_locked runs now in
  match runs !! id with
  | None => (runs, Ok None)
  | Some current =>
      if bound_terminal current then (runs, Ok (Some current))
      else match mark_server_binding_lost current code completed_at with
           | Err err => (runs, Err err)
           | Ok lost =>
               let '(runs, merged) := merge_server_run_binding_locked runs lost in
               (runs, let? merged := merged in Ok (Some merged))
           end
  end.

Definition merge_bound_snapshot (runs : runs_map) (b : ServerRunBinding) (run : CodingAgentRunSnapshot) (now : Z)
  : runs_map * result ServerRunBinding str :=
  merge_server_run_binding_locked (prune_server_runs_locked runs now) (b <| snapshot := run |>).

Definition attach_recorder (runs : runs_map) (id : str) (session : option str) (now : Z) : runs_map :=
  match session with
  | None => runs
  | Some session =>
      alter (fun b => if is_none (recording_session_id b) then b <| recording_session_id := Some session |> else b)
        id (prune_server_runs_locked runs now)
  end.

(** The bit of the mask and the kind of evidence of a state. *)
Definition lifecycle_evidence (s : CodingAgentRunState) : Z * str :=
  match s with
  | RunStarting | RunRunning => (1, lit "coding_agent_started")
  | RunWaitingPermission => (2, lit "coding_agent_waiting_permission")
  | RunCompleted | RunFailed | RunCancelled | RunLost => (4, lit "coding_agent_terminal")
  end%Z.

Definition take_lifecycle_evidence (runs : runs_map) (id : str) (now : Z)
  : runs_map * option (str * CodingAgentRunSnapshot * str) :=
  let runs := prune_server_runs_locked runs now in
  match runs !! id with
  | None => (runs, None)
  | Some b =>
      match recording_session_id b with
      | None => (runs, None)
      | Some session =>
          let '(bit, kind) := lifecycle_evidence (run_state (snapshot b)) in
          if negb (Z.eqb (Z.land (recorded_lifecycle_mask b) bit) 0) then (runs, None)
          else (<[ id := b <| recorded_lifecycle_mask := Z.lor (recorded_lifecycle_mask b) bit |> ]> runs,
                Some (session, snapshot b, kind))
      end
  end.

Definition get (runs : runs_map) (id : str) (now : Z) : runs_map * option ServerRunBinding :=
  let runs := prune_server_runs_locked runs now in (runs, runs !! id).
End Runs.

(** * Observation tokens of coding-agent Runs (src/tool_runtime/coding_agent.rs)

    A token carries the Server's epoch and the masked event sequence of one Run,
    authenticated with a keyed digest.  SHA-256 and the URL-safe Base64 alphabet come
    from libraries; what is relied on of them is stated by [TokenPrimitives].  Bytes
    are the numbers below 256. *)

Definition PUBLIC_TOKEN_PREFIX : str := lit "wcar2_".
Definition PUBLIC_TOKEN_MAX_BYTES : Z := 192.
Definition PUBLIC_TOKEN_EPOCH_BYTES : nat := 32.
Definition PUBLIC_TOKEN_SEQUENCE_BYTES : nat := 8.
Definition PUBLIC_TOKEN_TAG_BYTES : nat := 16.
Definition PUBLIC_TOKEN_PAYLOAD_BYTES : nat :=
  PUBLIC_TOKEN_EPOCH_BYTES + PUBLIC_TOKEN_SEQUENCE_BYTES + PUBLIC_TOKEN_TAG_BYTES.
Definition OBSERVATION_MAC_KEY_BYTES : nat := 32.
Definition BLOCK_BYTES : nat := 64.
Definition MASK_DOMAIN : list N := as_bytes (lit "webcodex.coding-agent.observation.sequence-mask.v2") ++ [0%N].
Definition TAG_DOMAIN : list N := as_bytes (lit "webcodex.coding-agent.observation.tag.v2") ++ [0%N].

Inductive TokenError : Type := TokenInvalid | TokenStaleEpoch.

Definition is_byte (b : N) : Prop := (b < 256)%N.

Class TokenPrimitives : Type := {
  sha256 : list N -> list N;
  b64_encode : list N -> str;
  b64_decode : list N -> option (list N);
  sha256_length : forall l, length (sha256 l) = 32;
  sha256_bytes : forall l, Forall is_byte (sha256 l);
  b64_roundtrip : forall l, Forall is_byte l -> b64_decode (as_bytes (b64_encode l)) = Some l;
  b64_ascii : forall l, Forall is_byte l -> Forall (fun c => (c < 128)%N) (b64_encode l);
  b64_nonempty : forall l, l <> [] -> b64_encode l <> [];
  b64_length : forall l, length (b64_encode l) <= 2 * length l;
  b64_decode_bytes : forall s l, b64_decode s = Some l -> Forall is_byte l
}.

(** [u64::to_be_bytes] and [u64::from_be_bytes]. *)
Fixpoint be_bytes (n : nat) (value : Z) : list N :=
  match n with
  | O => []
  | S n => Z.to_N ((value / 256 ^ Z.of_nat n) mod 256) :: be_bytes n value
  end.

Definition to_be_bytes (value : Z) : list N := be_bytes 8 value.

Definition from_be_bytes (bytes : list N) : Z := fold_left (fun acc b => (acc * 256 + Z.of_N b)%Z) bytes 0%Z.

(** config.rs. *)
Definition constant_time_eq (a b : list N) : bool :=
  let diff := N.lxor (N.of_nat (length a)) (N.of_nat (length b)) in
  let diff := fold_left (fun diff i => N.lor diff (N.lxor (nth i a 0%N) (nth i b 0%N)))
                (seq 0 (Nat.max (length a) (length b))) diff in
  N.eqb diff 0.

(** A pad of one block with the key added to its front. *)
Definition pad_key (pad : N) (key : list N) : list N := map (N.lxor pad) key ++ repeat pad (BLOCK_BYTES - length key).

Definition xor_bytes (a mask : list N) : list N := zip_with N.lxor a mask.

Section Token.
Context `{TokenPrimitives}.

Definition observation_token_hmac (key domain : list N) (epoch run_id : str) (extra : list N) : list N :=
  let inner_digest :=
    sha256 (pad_key 54 key ++ domain
            ++ to_be_bytes (str_len epoch) ++ as_bytes epoch
            ++ to_be_bytes (str_len run_id) ++ as_bytes run_id
            ++ to_be_bytes (Z.of_nat (length extra)) ++ extra) in
  sha256 (pad_key 92 key ++ inner_digest).

Definition sequence_mask (key : list N) (epoch run_id : str) : list N :=
  observation_token_hmac key MASK_DOMAIN epoch run_id [].

Definition token_tag (key : list N) (epoch run_id : str) (masked : list N) : list N :=
  take PUBLIC_TOKEN_TAG_BYTES (observation_token_hmac key TAG_DOMAIN epoch run_id masked).

Definition token_payload (key : list N) (epoch run_id : str) (sequence : Z) : list N :=
  let masked := xor_bytes (to_be_bytes sequence) (sequence_mask key epoch run_id) in
  as_bytes epoch ++ masked ++ token_tag key epoch run_id masked.

Definition observation_token (key : list N) (epoch run_id : str) (sequence : Z) : str :=
  PUBLIC_TOKEN_PREFIX ++ b64_encode (token_payload key epoch run_id sequence).

(** The epoch is valid UTF-8 and made of hexadecimal digits exactly when each of its
    bytes is one; it is then the text of those bytes. *)
Definition parse_observation_token (key : list N) (epoch run_id token : str) : result Z TokenError :=
  bail? Z.ltb PUBLIC_TOKEN_MAX_BYTES (str_len token) with TokenInvalid ;;
  let? encoded := ok_or (strip_prefix PUBLIC_TOKEN_PREFIX token) TokenInvalid in
  bail? is_empty encoded || negb (forallb (fun c => N.ltb c 128) encoded) with TokenInvalid ;;
  let? payload := ok_or (b64_decode (as_bytes encoded)) TokenInvalid in
  bail? negb (Nat.eqb (length payload) PUBLIC_TOKEN_PAYLOAD_BYTES) with TokenInvalid ;;
  let token_epoch := take PUBLIC_TOKEN_EPOCH_BYTES payload in
  bail? negb (forallb is_ascii_hexdigit token_epoch) with TokenInvalid ;;
  let masked := take PUBLIC_TOKEN_SEQUENCE_BYTES (drop PUBLIC_TOKEN_EPOCH_BYTES payload) in
  let tag := drop (PUBLIC_TOKEN_EPOCH_BYTES + PUBLIC_TOKEN_SEQUENCE_BYTES) payload in
  bail? negb (constant_time_eq tag (token_tag key token_epoch run_id masked)) with TokenInvalid ;;
  bail? token_epoch !=? epoch with TokenStaleEpoch ;;
  Ok (from_be_bytes (xor_bytes masked (sequence_mask key token_epoch run_id))).
End Token.

(** ** Words and bytes *)

Lemma be_bytes_length (n : nat) (value : Z) : length (be_bytes n value) = n.
Proof. induction n as [|n IH]; cbn; [done | by rewrite IH]. Qed.

Lemma be_bytes_bytes (n : nat) (value : Z) : Forall is_byte (be_bytes n value).
Proof.
  induction n as [|n IH]; cbn [be_bytes]; constructor; [ | done]. unfold is_byte.
  pose proof (Z.mod_pos_bound (value / 256 ^ Z.of_nat n) 256). lia.
Qed.

Lemma from_be_bytes_snoc_acc (l : list N) (acc : Z) :
  fold_left (fun acc b => (acc * 256 + Z.of_N b)%Z) l acc = (acc * 256 ^ Z.of_nat (length l) + from_be_bytes l)%Z.
Proof.
  unfold from_be_bytes. revert acc. induction l as [|b l IH]; intros acc; cbn [fold_left length]; [lia | ].
  rewrite IH, (IH (0 * 256 + Z.of_N b)%Z). rewrite Nat2Z.inj_succ, Z.pow_succ_r by lia. nia.
Qed.

Lemma from_be_bytes_cons (b : N) (l : list N) :
  from_be_bytes (b :: l) = (Z.of_N b * 256 ^ Z.of_nat (length l) + from_be_bytes l)%Z.
Proof. unfold from_be_bytes at 1. cbn [fold_left]. rewrite from_be_bytes_snoc_acc. lia. Qed.

Lemma from_be_bytes_range (l : list N) : Forall is_byte l -> (0 <= from_be_bytes l < 256 ^ Z.of_nat (length l))%Z.
Proof.
  induction 1 as [|b l Hb _ IH]; [done | ]. rewrite from_be_bytes_cons. cbn [length].
  rewrite Nat2Z.inj_succ, Z.pow_succ_r by lia. unfold is_byte in Hb. nia.
Qed.

Lemma from_be_be_bytes (n : nat) (value : Z) : from_be_bytes (be_bytes n value) = (value mod 256 ^ Z.of_nat n)%Z.
Proof.
  induction n as [|n IH]; cbn [be_bytes]; [by rewrite Z.mod_1_r | ].
  rewrite from_be_bytes_cons, be_bytes_length, IH, Nat2Z.inj_succ, Z.pow_succ_r by lia.
  pose proof (Z.mod_pos_bound (value / 256 ^ Z.of_nat n) 256).
  rewrite Z2N.id by lia. rewrite (Z.mul_comm 256), Z.rem_mul_r by lia. lia.
Qed.

Lemma to_from_be_bytes (value : Z) : (0 <= value < 2 ^ 64)%Z -> from_be_bytes (to_be_bytes value) = value.
Proof. intros Hv. unfold to_be_bytes. rewrite from_be_be_bytes. apply Z.mod_small. exact Hv. Qed.

Lemma be_bytes_high (n : nat) (hi value : Z) :
  be_bytes n (hi * 256 ^ Z.of_nat n + value) = be_bytes n value.
Proof.
  revert hi value. induction n as [|n IH]; intros hi value; cbn [be_bytes]; [done | ].
  rewrite Nat2Z.inj_succ, Z.pow_succ_r by lia.
  replace (hi * (256 * 256 ^ Z.of_nat n) + value)%Z with ((hi * 256) * 256 ^ Z.of_nat n + value)%Z by lia.
  rewrite IH. f_equal. rewrite Z.div_add_l by lia. by rewrite Z.add_comm, Z.mod_add by lia.
Qed.

Lemma be_from_be_bytes (l : list N) : Forall is_byte l -> be_bytes (length l) (from_be_bytes l) = l.
Proof.
  induction 1 as [|b l Hb Hl IH]; [done | ]. cbn [length be_bytes]. rewrite from_be_bytes_cons, be_bytes_high, IH.
  f_equal. pose proof (from_be_bytes_range l Hl). unfold is_byte in Hb.
  rewrite Z.div_add_l by lia. rewrite (Z.div_small (from_be_bytes l)) by lia. rewrite Z.add_0_r, Z.mod_small by lia. lia.
Qed.

(** ** The comparison *)

Lemma lor_fold_zero (f : nat -> N) (l : list nat) (acc : N) :
  fold_left (fun diff i => N.lor diff (f i)) l acc = 0%N <-> acc = 0%N /\ Forall (fun i => f i = 0%N) l.
Proof.
  revert acc. induction l as [|i l IH]; intros acc; cbn [fold_left].
  - split; [intros ->; by split | by intros [-> _]].
  - rewrite IH, N.lor_eq_0_iff, Forall_cons. naive_solver.
Qed.

Lemma constant_time_eq_spec (a b : list N) : constant_time_eq a b = true <-> a = b.
Proof.
  unfold constant_time_eq. rewrite N.eqb_eq, lor_fold_zero, N.lxor_eq_0_iff, Forall_forall. split.
  - intros [Hlen%Nat2N.inj Hi]. rewrite Hlen, Nat.max_id in Hi. apply (nth_ext a b 0%N 0%N Hlen). intros i Hl.
    apply N.lxor_eq, Hi. apply elem_of_seq. lia.
  - intros ->. split; [done | ]. intros i _. apply N.lxor_nilpotent.
Qed.

Lemma xor_bytes_twice (a mask : list N) : length a <= length mask -> xor_bytes (xor_bytes a mask) mask = a.
Proof.
  revert mask. induction a as [|x a IH]; intros [|m mask] Hl; cbn in *; [done | done | lia | ].
  f_equal; [ | apply IH; lia]. by rewrite N.lxor_assoc, N.lxor_nilpotent, N.lxor_0_r.
Qed.

(** ** Texts of one byte per character *)

Lemma hexdigit_ascii (c : char) : is_ascii_hexdigit c = true -> (c < 128)%N.
Proof.
  unfold is_ascii_hexdigit, is_ascii_digit. rewrite !orb_true_iff, !andb_true_iff, !N.leb_le. lia.
Qed.

Lemma ascii_text (s : str) : Forall (fun c => (c < 128)%N) s -> as_bytes s = s /\ str_len s = Z.of_nat (length s).
Proof.
  induction 1 as [|c s Hc _ [IH1 IH2]]; [done | ]. unfold as_bytes in *. cbn [flat_map str_len length].
  apply N.ltb_lt in Hc. assert (He : encode_utf8 c = [c]) by (unfold encode_utf8; by rewrite Hc).
  rewrite He, IH1. unfold len_utf8. rewrite Hc. split; [done | lia].
Qed.

Lemma hex_text (l : list N) : forallb is_ascii_hexdigit l = true -> as_bytes l = l /\ Forall is_byte l.
Proof.
  intros Hh. apply forallb_Forall in Hh. split.
  - apply ascii_text. eapply Forall_impl; [exact Hh | ]. apply hexdigit_ascii.
  - eapply Forall_impl; [exact Hh | ]. intros c Hc%hexdigit_ascii. unfold is_byte. lia.
Qed.

(** ** The token *)

(** The epoch of a Server is 32 hexadecimal digits. *)
Definition epoch_ok (epoch : str) : Prop :=
  length epoch = PUBLIC_TOKEN_EPOCH_BYTES /\ forallb is_ascii_hexdigit epoch = true.

Section TokenFacts.
Context `{TokenPrimitives} (key : list N).

Lemma hmac_length (domain : list N) (epoch run_id : str) (extra : list N) :
  length (observation_token_hmac key domain epoch run_id extra) = 32.
Proof. apply sha256_length. Qed.

Lemma tag_length (epoch run_id : str) (masked : list N) : length (token_tag key epoch run_id masked) = PUBLIC_TOKEN_TAG_BYTES.
Proof. unfold token_tag. rewrite length_take, hmac_length. reflexivity. Qed.

Lemma xor_byte (x y : N) : is_byte x -> is_byte y -> is_byte (N.lxor x y).
Proof.
  unfold is_byte. intros Hx Hy. destruct (N.eq_dec (N.lxor x y) 0%N) as [->|Hn]; [lia | ].
  assert (Hlog : forall z, (z < 256)%N -> (N.log2 z < 8)%N).
  { intros z Hz. destruct (N.eq_dec z 0%N) as [->|?]; [done | ]. apply N.log2_lt_pow2; [lia | exact Hz]. }
  apply (N.log2_lt_pow2 _ 8%N); [lia | ]. pose proof (N.log2_lxor x y). pose proof (Hlog x Hx). pose proof (Hlog y Hy). lia.
Qed.

Lemma xor_bytes_bytes (a mask : list N) : Forall is_byte a -> Forall is_byte mask -> Forall is_byte (xor_bytes a mask).
Proof.
  intros Ha. revert mask. induction Ha as [|x a Hx _ IH]; intros mask Hm; [constructor | ].
  destruct Hm as [|y mask Hy Hm]; cbn; constructor; [by apply xor_byte | by apply IH].
Qed.

Definition masked_of (epoch run_id : str) (sequence : Z) : list N :=
  xor_bytes (to_be_bytes sequence) (sequence_mask key epoch run_id).

Lemma masked_length (epoch run_id : str) (sequence : Z) : length (masked_of epoch run_id sequence) = PUBLIC_TOKEN_SEQUENCE_BYTES.
Proof.
  unfold masked_of, xor_bytes, sequence_mask. rewrite length_zip_with, hmac_length. unfold to_be_bytes.
  by rewrite be_bytes_length.
Qed.

Lemma payload_ok (epoch run_id : str) (sequence : Z) :
  epoch_ok epoch ->
  token_payload key epoch run_id sequence
  = epoch ++ masked_of epoch run_id sequence ++ token_tag key epoch run_id (masked_of epoch run_id sequence)
  /\ length (token_payload key epoch run_id sequence) = PUBLIC_TOKEN_PAYLOAD_BYTES
  /\ Forall is_byte (token_payload key epoch run_id sequence).
Proof.
  intros [Hl Hh]. destruct (hex_text epoch Hh) as [Hb Hby].
  assert (Heq : token_payload key epoch run_id sequence
    = epoch ++ masked_of epoch run_id sequence ++ token_tag key epoch run_id (masked_of epoch run_id sequence))
    by (unfold token_payload; by rewrite Hb).
  split_and!; [exact Heq | | ]; rewrite Heq.
  - rewrite !length_app, Hl, masked_length, tag_length. reflexivity.
  - rewrite !Forall_app. split_and!; [done | | ].
    + apply xor_bytes_bytes; [apply be_bytes_bytes | apply sha256_bytes].
    + apply Forall_take, sha256_bytes.
Qed.
End TokenFacts.

(** An observation token opens for the Run and epoch it was made for and only
    says it is stale in another epoch: under what is relied on of SHA-256 and
    Base64, parsing the token of any 64-bit sequence gives the sequence back, and
    in a Server with another epoch the stale-epoch error. *)
Lemma token_roundtrip `{TokenPrimitives} (key : list N) (epoch epoch' run_id : str) (sequence : Z) :
  epoch_ok epoch -> (0 <= sequence < 2 ^ 64)%Z ->
  parse_observation_token key epoch' run_id (observation_token key epoch run_id sequence)
  = if decide (epoch = epoch') then Ok sequence else Err TokenStaleEpoch.
Proof.
  intros He Hs. destruct (payload_ok key epoch run_id sequence He) as (Hp & Hlen & Hbytes). destruct He as [Hel Heh].
  unfold parse_observation_token, observation_token. set (payload := token_payload key epoch run_id sequence) in *.
  pose proof (b64_ascii payload Hbytes) as Ha. destruct (ascii_text _ Ha) as [_ Hsl].
  rewrite str_len_app, Hsl, (proj2 (strip_prefix_spec _ _ _) eq_refl). pose proof (b64_length payload) as Hbl. rewrite Hlen in Hbl.
  destruct (Z.ltb_spec PUBLIC_TOKEN_MAX_BYTES (str_len PUBLIC_TOKEN_PREFIX + Z.of_nat (length (b64_encode payload)))) as [Hx|_].
  { change (str_len PUBLIC_TOKEN_PREFIX) with 6%Z in Hx. change (2 * PUBLIC_TOKEN_PAYLOAD_BYTES) with 112 in Hbl.
    unfold PUBLIC_TOKEN_MAX_BYTES in Hx. lia. }
  cbn [ok_or result_bind]. assert (Hne : b64_encode payload <> []) by (apply b64_nonempty; intros Hn; by rewrite Hn in Hlen).
  assert (Hasc : forallb (fun c => N.ltb c 128) (b64_encode payload) = true).
  { apply forallb_Forall. eapply Forall_impl; [exact Ha | ]. intros c Hc. by apply N.ltb_lt. }
  assert (Hemp : is_empty (b64_encode payload) = false) by (by destruct (b64_encode payload)).
  rewrite Hasc, Hemp. cbn [orb negb].
  rewrite (b64_roundtrip payload Hbytes). cbn [ok_or result_bind]. rewrite Hlen, Nat.eqb_refl. cbn [negb].
  assert (Ht : take PUBLIC_TOKEN_EPOCH_BYTES payload = epoch) by (rewrite Hp, <- Hel; by rewrite take_app_length).
  rewrite Ht, Heh. cbn [negb].
  assert (Hd : drop PUBLIC_TOKEN_EPOCH_BYTES payload
    = masked_of key epoch run_id sequence ++ token_tag key epoch run_id (masked_of key epoch run_id sequence))
    by (rewrite Hp, <- Hel; by rewrite drop_app_length).
  set (masked := masked_of key epoch run_id sequence) in *.
  assert (Hm : length masked = PUBLIC_TOKEN_SEQUENCE_BYTES) by apply masked_length.
  rewrite <- drop_drop, Hd, <- Hm, take_app_length, drop_app_length.
  rewrite (proj2 (constant_time_eq_spec _ _) eq_refl). cbn [negb]. destruct (decide (epoch = epoch')) as [->|Hne'].
  - rewrite beq_refl. cbn [negb]. unfold masked, masked_of. rewrite xor_bytes_twice; [by rewrite to_from_be_bytes | ].
    unfold to_be_bytes, sequence_mask. rewrite be_bytes_length, hmac_length. lia.
  - apply beq_neq in Hne'. by rewrite Hne'.
Qed.

(** Only the token the Server would issue opens: when a text is accepted for a
    Run in an epoch with a sequence, it is the prefix and an encoding of exactly
    the payload the Server makes for that epoch, Run and sequence, so the epoch,
    the masked sequence and the tag are all authenticated. *)
Lemma accepted_token_is_issued `{TokenPrimitives} (key : list N) (epoch run_id token : str) (sequence : Z) :
  parse_observation_token key epoch run_id token = Ok sequence ->
  (0 <= sequence < 2 ^ 64)%Z /\ epoch_ok epoch
  /\ exists encoded, token = PUBLIC_TOKEN_PREFIX ++ encoded
     /\ b64_decode (as_bytes encoded) = Some (token_payload key epoch run_id sequence).
Proof.
  unfold parse_observation_token. intros Hp. destruct (Z.ltb _ _); [done | ].
  destruct (strip_prefix PUBLIC_TOKEN_PREFIX token) as [encoded|] eqn:Es; [ | done]. cbn [ok_or result_bind] in Hp.
  destruct (_ || _); [done | ]. destruct (b64_decode (as_bytes encoded)) as [payload|] eqn:Ed; [ | done].
  cbn [ok_or result_bind] in Hp. destruct (Nat.eqb_spec (length payload) PUBLIC_TOKEN_PAYLOAD_BYTES) as [Hl|]; [ | done].
  cbn [negb] in Hp. set (te := take PUBLIC_TOKEN_EPOCH_BYTES payload) in *.
  destruct (forallb is_ascii_hexdigit te) eqn:Eh; [ | done]. cbn [negb] in Hp.
  set (masked := take PUBLIC_TOKEN_SEQUENCE_BYTES (drop PUBLIC_TOKEN_EPOCH_BYTES payload)) in *.
  destruct (constant_time_eq _ _) eqn:Et; [ | done]. apply constant_time_eq_spec in Et. cbn [negb] in Hp.
  destruct (te !=? epoch) eqn:Ee; [done | ]. apply negb_false_iff, beq_true in Ee. injection Hp as Hp. rewrite Ee in *.
  pose proof (b64_decode_bytes _ _ Ed) as Hby.
  assert (Hlm : length masked = 8).
  { unfold masked. rewrite length_take, length_drop, Hl. reflexivity. }
  assert (Hlt : length te = PUBLIC_TOKEN_EPOCH_BYTES) by (unfold te; rewrite length_take, Hl; reflexivity).
  set (unmasked := xor_bytes masked (sequence_mask key epoch run_id)) in *.
  assert (Hlu : length unmasked = 8).
  { unfold unmasked, xor_bytes, sequence_mask. by rewrite length_zip_with, hmac_length, Hlm. }
  assert (Hbu : Forall is_byte unmasked).
  { apply xor_bytes_bytes; [apply Forall_take, Forall_drop, Hby | apply sha256_bytes]. }
  pose proof (from_be_bytes_range unmasked Hbu) as Hr. rewrite Hlu, Hp in Hr. split; [exact Hr | ].
  split; [split; [by rewrite <- Ee | done] | ]. exists encoded. split; [by apply strip_prefix_spec | ]. f_equal.
  unfold token_payload. rewrite <- Hp. unfold to_be_bytes. rewrite <- Hlu, (be_from_be_bytes unmasked Hbu).
  unfold unmasked. rewrite xor_bytes_twice by (rewrite Hlm; unfold sequence_mask; rewrite hmac_length; lia).
  rewrite <- Et. destruct (hex_text epoch Eh) as [-> _]. rewrite <- Ee. unfold te, masked.
  rewrite <- drop_drop, (take_drop PUBLIC_TOKEN_SEQUENCE_BYTES). symmetry. by rewrite take_drop.
Qed.

(** ** Witnesses: a checksum and a two-character alphabet in place of the libraries *)

Definition checksum (l : list N) : N := fold_left (fun a b => (a * 31 + b) mod 256)%N l 7%N.
Definition toy_digest (l : list N) : list N := (checksum l mod 256)%N :: map N.of_nat (seq 1 31).
Definition toy_encode (l : list N) : str := flat_map (fun b => [(97 + (b / 16) mod 16)%N; (97 + b mod 16)%N]) l.
Definition toy_nibble (c : N) : option N := if ((97 <=? c) && (c <? 113))%N then Some (c - 97)%N else None.
Fixpoint toy_decode (s : list N) : option (list N) :=
  match s with
  | [] => Some []
  | hi :: lo :: s => hi ← toy_nibble hi; lo ← toy_nibble lo; (fun l => (hi * 16 + lo)%N :: l) <$> toy_decode s
  | _ => None
  end.

Lemma toy_ascii (l : list N) : Forall (fun c => (c < 128)%N) (toy_encode l).
Proof.
  induction l as [|b l IH]; cbn; [constructor | ]. pose proof (N.mod_lt (b / 16) 16). pose proof (N.mod_lt b 16).
  repeat constructor; [lia | lia | exact IH].
Qed.

Lemma toy_nibble_mod (n : N) : toy_nibble (97 + n mod 16) = Some (n mod 16)%N.
Proof.
  assert (Hm : (n mod 16 < 16)%N) by (by apply N.mod_lt). unfold toy_nibble. generalize dependent (n mod 16)%N. intros m Hm.
  destruct (N.leb_spec 97 (97 + m)); [ | lia]. destruct (N.ltb_spec (97 + m) 113); [ | lia]. cbn [andb]. f_equal. lia.
Qed.

Lemma toy_roundtrip (l : list N) : Forall is_byte l -> toy_decode (as_bytes (toy_encode l)) = Some l.
Proof.
  intros Hl. rewrite (proj1 (ascii_text _ (toy_ascii l))). induction Hl as [|b l Hb _ IH]; [done | ].
  unfold toy_encode in IH |- *. cbn [flat_map app toy_decode]. rewrite !toy_nibble_mod. cbn [mbind option_bind]. rewrite IH.
  cbn. do 2 f_equal. unfold is_byte in Hb. rewrite (N.mod_small (b / 16)) by (apply N.Div0.div_lt_upper_bound; exact Hb).
  rewrite N.mul_comm. symmetry. apply N.Div0.div_mod.
Qed.

Lemma toy_decode_bytes (n : nat) (s l : list N) : length s <= n -> toy_decode s = Some l -> Forall is_byte l.
Proof.
  revert s l. induction n as [|n IH]; intros [|hi [|lo s]] l Hn Hd; cbn in *; simplify_eq; try constructor; try lia.
  destruct (toy_nibble hi) as [h|] eqn:Eh; [ | done]. destruct (toy_nibble lo) as [o|] eqn:Eo; [ | done]. cbn in Hd.
  destruct (toy_decode s) as [l0|] eqn:El; [ | done]. injection Hd as <-. unfold toy_nibble in *.
  destruct (N.leb_spec 97 hi), (N.ltb_spec hi 113), (N.leb_spec 97 lo), (N.ltb_spec lo 113); cbn in Eh, Eo; simplify_eq.
  constructor; [unfold is_byte; lia | ]. by apply (IH s); [lia | ].
Qed.

#[export] Instance toy_primitives : TokenPrimitives.
Proof.
  refine {| sha256 := toy_digest; b64_encode := toy_encode; b64_decode := toy_decode |}.
  - done.
  - intros l. constructor; [by apply N.mod_lt | ]. by repeat constructor.
  - exact toy_roundtrip.
  - intros l _. apply toy_ascii.
  - intros [|b l]; [done | by cbn].
  - intros l. unfold toy_encode. induction l as [|b l IH]; cbn [flat_map app length] in *; [lia | ]. lia.
  - intros s l. by apply (toy_decode_bytes (length s)).
Defined.

Definition sample_key : list N := repeat 9%N 32.
Definition sample_epoch : str := concat (repeat (lit "0123456789abcdef") 2).

Lemma token_roundtrip_witness :
  parse_observation_token sample_key sample_epoch (lit "run-1") (observation_token sample_key sample_epoch (lit "run-1") 513)
    = Ok 513%Z
  /\ parse_observation_token sample_key sample_epoch (lit "run-2") (observation_token sample_key sample_epoch (lit "run-1") 513)
     = Err TokenInvalid.
Proof.
  split; [ | vm_compute; reflexivity].
  rewrite (token_roundtrip sample_key sample_epoch sample_epoch (lit "run-1") 513); [ | by split | lia].
  by rewrite decide_True.
Defined.

Lemma accepted_token_is_issued_witness :
  exists encoded, observation_token sample_key sample_epoch (lit "run-1") 513 = PUBLIC_TOKEN_PREFIX ++ encoded
    /\ b64_decode (as_bytes encoded) = Some (token_payload sample_key sample_epoch (lit "run-1") 513).
Proof.
  refine (proj2 (proj2 (accepted_token_is_issued sample_key sample_epoch (lit "run-1")
    (observation_token sample_key sample_epoch (lit "run-1") 513) 513 _))).
  vm_compute. reflexivity.
Defined.
