(* ===== verification/CodingRunFacts.v ===== *)
(** * CodingRunFacts: what the Server's registry of Runs guarantees

    A Run the Server keeps only moves forward, is recorded by one session and gives
    each kind of lifecycle evidence once; pruning forgets only old terminal Runs; and
    a live Run whose owner is gone is marked lost. *)
From S2P Require Import Prelude RustStr RegistryState CodingAgent CodingRuns.

(** ** Pruning *)

Section Prune.
Context `{HashIteration}.

Lemma delete_all_lookup (l : list (str * Z)) (runs : runs_map) (k : str) :
  fold_left (fun runs e => delete (fst e) runs) l runs !! k = if decide (k ∈ map fst l) then None else runs !! k.
Proof.
  revert runs. induction l as [|e l IH]; intros runs; cbn [fold_left map].
  - by rewrite decide_False by apply not_elem_of_nil.
  - rewrite IH. destruct (decide (k ∈ map fst l)) as [Hk|Hk]; [by rewrite decide_True by (by right) | ].
    destruct (decide (k = fst e)) as [->|He].
    + by rewrite decide_True, lookup_delete_eq by (by left).
    + rewrite decide_False, lookup_delete_ne by (try done; intros [?|?]%elem_of_cons; done). done.
Qed.

Lemma elem_of_terminal_runs (runs : runs_map) (k : str) (t : Z) :
  (k, t) ∈ terminal_runs runs <-> exists b, runs !! k = Some b /\ bound_terminal b = true /\ bound_updated_at b = t.
Proof.
  unfold terminal_runs. rewrite list_elem_of_In, in_map_iff. split.
  - intros ([k' b] & [= -> <-] & Hin). apply filter_In in Hin as [Hin Ht]. exists b.
    apply list_elem_of_In, elem_of_hash_iter in Hin. done.
  - intros (b & Hb & Ht & <-). exists (k, b). split; [done | ]. apply filter_In.
    split; [by apply list_elem_of_In, elem_of_hash_iter | done].
Qed.

Lemma terminal_runs_unique (runs : runs_map) : NoDup (map fst (terminal_runs runs)).
Proof.
  unfold terminal_runs. rewrite map_map. cbn. change (fun x => x.1) with (@fst str ServerRunBinding).
  assert (Hn : NoDup (map fst (hash_iter runs))) by (rewrite hash_iter_perm; apply NoDup_fst_map_to_list).
  revert Hn. generalize (hash_iter runs) as l. intros l.
  induction l as [|x l IH]; cbn; [done | ]. intros [Hx Hl]%NoDup_cons. destruct (bound_terminal x.2); [ | by apply IH].
  cbn. apply NoDup_cons. split; [ | by apply IH]. intros Hin. apply Hx.
  apply list_elem_of_In, in_map_iff in Hin as (y & <- & Hy). apply filter_In in Hy as [Hy _].
  apply list_elem_of_In, in_map_iff. by exists y.
Qed.

Lemma older_total (a b : str * Z) : older a b = true \/ older b a = true.
Proof. unfold older. rewrite !Z.leb_le. lia. Qed.

Lemma older_trans (a b c : str * Z) : older a b = true -> older b c = true -> older a c = true.
Proof. unfold older. rewrite !Z.leb_le. lia. Qed.

(** The Runs dropped to make room, and those kept. *)
Lemma sorted_split (l : list (str * Z)) (n : nat) (x y : str * Z) :
  x ∈ take n (sort_by older l) -> y ∈ drop n (sort_by older l) -> (snd x <= snd y)%Z.
Proof.
  intros Hx Hy. pose proof (sort_by_sorted older older_total older_trans l) as Hs.
  rewrite <- (take_drop n (sort_by older l)) in Hs.
  apply StronglySorted_app in Hs as (Hs & _ & _). specialize (Hs x y).
  apply Z.leb_le. apply Hs; [exact Hx | exact Hy].
Qed.

Record prune_spec (runs runs' : runs_map) (now : Z) : Prop := {
  ps_sub : runs' ⊆ runs;
  ps_live : forall k b, runs !! k = Some b -> bound_terminal b = false -> runs' !! k = Some b;
  ps_bound : length (terminal_runs runs') <= SERVER_MAX_TERMINAL_RUNS;
  ps_oldest : forall k b, runs !! k = Some b -> runs' !! k = None ->
    (bound_updated_at b < i64_sat_sub now SERVER_TERMINAL_RETENTION_SECS)%Z
    \/ forall k' b', runs' !! k' = Some b' -> bound_terminal b' = true -> (bound_updated_at b <= bound_updated_at b')%Z
}.

Lemma prune_ok (runs : runs_map) (now : Z) : prune_spec runs (prune_server_runs_locked runs now) now.
Proof.
  unfold prune_server_runs_locked. set (runs1 := filter _ runs : runs_map).
  assert (H1 : forall k b, runs1 !! k = Some b <-> runs !! k = Some b /\ retained now b = true)
    by (intros k b; apply map_lookup_filter_Some).
  assert (Hlive : forall k b, runs !! k = Some b -> bound_terminal b = false -> runs1 !! k = Some b)
    by (intros k b Hb Ht; apply H1; unfold retained; by rewrite Ht).
  assert (Hold : forall k b, runs !! k = Some b -> runs1 !! k = None ->
    (bound_updated_at b < i64_sat_sub now SERVER_TERMINAL_RETENTION_SECS)%Z).
  { intros k b Hb Hn. destruct (retained now b) eqn:Er; [assert (runs1 !! k = Some b) by (by apply H1); congruence | ].
    unfold retained in Er. apply orb_false_iff in Er as [_ Er]. by apply Z.leb_gt in Er. }
  set (T := terminal_runs runs1). destruct (Nat.leb_spec (length T) SERVER_MAX_TERMINAL_RUNS) as [Hle|Hgt].
  { split; [apply map_filter_subseteq | exact Hlive | exact Hle | intros k b Hb Hn; left; by eapply Hold]. }
  set (S := sort_by older T). set (n := length S - SERVER_MAX_TERMINAL_RUNS).
  assert (Hperm : S ≡ₚ T) by apply sort_by_perm.
  assert (Hnd : NoDup (map fst S)) by (rewrite Hperm; apply terminal_runs_unique).
  set (runs2 := fold_left _ _ runs1).
  assert (H2 : forall k, runs2 !! k = if decide (k ∈ map fst (take n S)) then None else runs1 !! k)
    by (intros; apply delete_all_lookup).
  assert (Hkept : forall k t, (k, t) ∈ terminal_runs runs2 -> (k, t) ∈ drop n S).
  { intros k t Hk. apply elem_of_terminal_runs in Hk as (b & Hb & Ht & <-). rewrite H2 in Hb.
    destruct (decide _) as [|Hout]; [done | ].
    assert (Hin : (k, bound_updated_at b) ∈ S) by (rewrite Hperm; apply elem_of_terminal_runs; by exists b).
    rewrite <- (take_drop n S) in Hin. apply elem_of_app in Hin as [Hin|Hin]; [ | done]. exfalso. apply Hout.
    apply list_elem_of_In, in_map_iff. exists (k, bound_updated_at b). split; [done | by apply list_elem_of_In]. }
  split.
  - transitivity runs1; [ | apply map_filter_subseteq]. apply map_subseteq_spec. intros k b Hb. rewrite H2 in Hb. by destruct (decide _).
  - intros k b Hb Ht. rewrite H2. destruct (decide _) as [Hin|_]; [ | by apply Hlive]. exfalso.
    apply list_elem_of_In, in_map_iff in Hin as ([k' t] & <- & Hin). apply list_elem_of_In in Hin.
    assert (Hin2 : (k', t) ∈ T) by (rewrite <- Hperm, <- (take_drop n S); apply elem_of_app; by left).
    apply elem_of_terminal_runs in Hin2 as (b' & Hb' & Ht' & _). apply H1 in Hb' as [Hb' _]. cbn in *. congruence.
  - transitivity (length (drop n S)).
    + apply NoDup_incl_length.
      * apply NoDup_ListNoDup. eapply NoDup_fmap_1, terminal_runs_unique.
      * intros [k t] Hin. apply list_elem_of_In, Hkept, list_elem_of_In, Hin.
    + rewrite length_drop. unfold n. rewrite Hperm. lia.
  - intros k b Hb Hn. rewrite H2 in Hn. destruct (decide _) as [Hin|_]; [right | left; by eapply Hold].
    intros k' b' Hb' Ht'.
    assert (Hd : (k', bound_updated_at b') ∈ drop n S) by (apply Hkept, elem_of_terminal_runs; by exists b').
    apply list_elem_of_In, in_map_iff in Hin as ([k2 t] & <- & Hin). apply list_elem_of_In in Hin.
    assert (Hin2 : (k2, t) ∈ T) by (rewrite <- Hperm, <- (take_drop n S); apply elem_of_app; by left).
    apply elem_of_terminal_runs in Hin2 as (b2 & Hb2 & _ & <-). apply H1 in Hb2 as [Hb2 _]. cbn [fst] in Hb.
    rewrite Hb in Hb2. injection Hb2 as <-.
    by apply (sorted_split T n (k2, bound_updated_at b) (k', bound_updated_at b')).
Qed.
End Prune.

(** ** Operations on one registry *)

(** The methods of [CodingAgentServerState], with the arguments of one call. *)
Inductive run_op : Type :=
| RBind (client_id runner_instance_id : str) (run : CodingAgentRunSnapshot) (session : option str)
| RMarkLost (id code : str) (completed_at : Z)
| RMerge (b : ServerRunBinding) (run : CodingAgentRunSnapshot)
| RAttach (id : str) (session : option str)
| RTake (id : str)
| RGet (id : str).

Section Steps.
Context `{HashIteration}.

(** The registry after a call and the evidence it hands out: the Run and the kind. *)
Definition run_step (runs : runs_map) (now : Z) (op : run_op) : runs_map * option (str * str) :=
  match op with
  | RBind cid iid run session => ((bind runs cid iid run session now).1, None)
  | RMarkLost id code completed => ((mark_lost runs id code now completed).1, None)
  | RMerge b run => ((merge_bound_snapshot runs b run now).1, None)
  | RAttach id session => (attach_recorder runs id session now, None)
  | RTake id => let '(runs, evidence) := take_lifecycle_evidence runs id now in
                (runs, (fun e => (id, snd e)) <$> evidence)
  | RGet id => ((get runs id now).1, None)
  end.

(** The binding says what its snapshot says. *)
Record binding_ok (k : str) (b : ServerRunBinding) : Prop := {
  bo_key : run_id (snapshot b) = k;
  bo_valid : valid_run (snapshot b);
  bo_authority : bind_authority_fingerprint b = authority_fingerprint (snapshot b);
  bo_project : bind_runtime_project_id b = runtime_project_id (snapshot b);
  bo_provider : bind_provider_id b = run_provider_id (snapshot b);
  bo_instance : bind_provider_instance_id b = run_provider_instance_id (snapshot b)
}.

Definition runs_ok (runs : runs_map) : Prop := map_Forall binding_ok runs.

(** A snapshot is merged into a binding only after its identity was compared with
    the binding's, as the callers do. *)
Definition op_ok (op : run_op) : Prop :=
  match op with
  | RMerge b run => binding_ok (run_id (snapshot b)) b /\ run_matches_binding_identity b run = true
  | _ => True
  end.

Definition mask_le (a b : Z) : Prop := Z.land a b = a.

(** How the binding of one Run may change. *)
Record advances (old new : ServerRunBinding) : Prop := {
  ad_same : same_run (snapshot old) (snapshot new) = true;
  ad_revision : (observation_revision (snapshot old) <= observation_revision (snapshot new))%Z;
  ad_unchanged : observation_revision (snapshot old) = observation_revision (snapshot new) ->
    snapshot new = snapshot old;
  ad_definitive : definitive (run_state (snapshot old)) = true -> snapshot new = snapshot old;
  ad_terminal : bound_terminal old = true -> bound_terminal new = true;
  ad_session : forall s, recording_session_id old = Some s -> recording_session_id new = Some s;
  ad_mask : mask_le (recorded_lifecycle_mask old) (recorded_lifecycle_mask new)
}.

Lemma same_run_refl (r : CodingAgentRunSnapshot) : same_run r r = true.
Proof. by apply same_run_spec. Qed.

#[export] Instance advances_refl : Reflexive advances.
Proof. intros b. split; try done; [apply same_run_refl | apply Z.land_diag]. Qed.

Lemma mask_le_trans (a b c : Z) : mask_le a b -> mask_le b c -> mask_le a c.
Proof. unfold mask_le. intros H1 H2. rewrite <- H1 at 1. by rewrite <- Z.land_assoc, H2. Qed.

#[export] Instance advances_trans : Transitive advances.
Proof.
  intros a b c [H1 H2 Hu H3 H4 H5 H6] [K1 K2 Ku K3 K4 K5 K6]. split.
  - by eapply same_run_trans.
  - lia.
  - intros He. rewrite Ku by lia. apply Hu. lia.
  - intros Hd. specialize (H3 Hd). rewrite <- H3 in Hd. by rewrite (K3 Hd).
  - auto.
  - auto.
  - by eapply mask_le_trans.
Qed.

Lemma stale_or_replay (a b : CodingAgentRunSnapshot) d :
  merge_coding_agent_run_snapshot a b = Ok d -> d <> Advance -> valid_run a /\ run_id a = run_id b.
Proof.
  unfold merge_coding_agent_run_snapshot, validate_coding_agent_run_identity_transition, valid_run.
  destruct (validate_coding_agent_run_snapshot a) as [[]|]; cbn; [ | done].
  destruct (validate_coding_agent_run_snapshot b) as [[]|]; cbn; [ | done].
  destruct (same_run a b) eqn:E; cbn; [ | done]. intros _ _. split; [done | ].
  apply same_run_spec in E. by injection E.
Qed.

Lemma transition_terminal (a b : CodingAgentRunSnapshot) :
  validate_coding_agent_run_transition a b = Ok tt ->
  definitive (run_state a) = false /\ (run_terminal (run_state a) = true -> run_terminal (run_state b) = true).
Proof.
  intros [_ Hs]%transition_facts. unfold state_step in Hs. apply andb_true_iff in Hs as [Hs _].
  apply andb_true_iff in Hs as [Hd Ht]. apply negb_true_iff in Hd. split; [done | ].
  by destruct (run_state a), (run_state b).
Qed.

(** [b] is [incoming] with the recorder and the evidence of the record it replaces. *)
Definition taken_from (incoming b : ServerRunBinding) : Prop :=
  b = incoming <| recording_session_id := recording_session_id b |>
               <| recorded_lifecycle_mask := recorded_lifecycle_mask b |>.

Lemma taken_from_ok (k : str) (incoming b : ServerRunBinding) :
  taken_from incoming b -> binding_ok k incoming -> binding_ok k b.
Proof. intros ->. by intros []. Qed.

(** What merging an incoming binding does to the registry. *)
Lemma merge_spec (runs : runs_map) (incoming : ServerRunBinding) :
  let id := run_id (snapshot incoming) in
  let '(runs', r) := merge_server_run_binding_locked runs incoming in
  match r with
  | Err _ => runs' = runs
  | Ok b => runs' = <[ id := b ]> runs
      /\ match runs !! id with
         | Some old => advances old b
             /\ (taken_from incoming b \/ b = old <| recording_session_id := recording_session_id b |>)
             /\ valid_run (snapshot b)
         | None => b = incoming /\ valid_run (snapshot incoming)
         end
  end.
Proof.
  cbn zeta. unfold merge_server_run_binding_locked. destruct (runs !! run_id (snapshot incoming)) as [old|] eqn:E.
  - destruct (merge_coding_agent_run_snapshot (snapshot old) (snapshot incoming)) as [d|err] eqn:Em; [ | done].
    assert (Hkeep : d <> Advance ->
      let b := if is_none (recording_session_id old) then old <| recording_session_id := recording_session_id incoming |> else old in
      advances old b /\ (taken_from incoming b \/ b = old <| recording_session_id := recording_session_id b |>) /\ valid_run (snapshot b)).
    { intros Hd. destruct (stale_or_replay _ _ _ Em Hd) as [Hv _]. cbn zeta.
      destruct (recording_session_id old) as [s|] eqn:Es; cbn [is_none].
      - split_and!; [done | right; by destruct old; cbn in *; subst | done].
      - split_and!; [ | by right | done]. split; cbn; try done; [apply same_run_refl | congruence | apply Z.land_diag]. }
    destruct d; [by split; [ | apply Hkeep] .. | ]. clear Hkeep.
    apply merge_advance in Em as (Va & Vb & Hsame & Ht). apply transition_terminal in Ht as Ht'. destruct Ht' as [Hnd Hter].
    apply transition_facts in Ht as [Hrev _]. split; [done | ]. split_and!; [ | left; by cbn | done].
    split; cbn; try done; try lia.
    + congruence.
    + intros s ->. done.
    + apply Z.land_diag.
  - destruct (validate_coding_agent_run_snapshot (snapshot incoming)) as [[]|] eqn:Ev; [ | done]. done.
Qed.

(** *** One step *)

(** [bit] belongs to the evidence [kind]. *)
Definition evidence_bit (kind : str) (bit : Z) : Prop := exists s, lifecycle_evidence s = (bit, kind).

(** What a call makes of the registry [runs] its pruning left. *)
Record step_ok (runs runs' : runs_map) (evidence : option (str * str)) : Prop := {
  so_ok : runs_ok runs';
  so_advances : forall k b, runs !! k = Some b -> exists b', runs' !! k = Some b' /\ advances b b';
  so_evidence : forall k kind, evidence = Some (k, kind) ->
    exists b b' bit, runs !! k = Some b /\ runs' !! k = Some b' /\ evidence_bit kind bit
      /\ Z.land (recorded_lifecycle_mask b) bit = 0%Z /\ Z.land (recorded_lifecycle_mask b') bit = bit
}.

Lemma step_same (runs : runs_map) : runs_ok runs -> step_ok runs runs None.
Proof. intros Hok. split; [done | | done]. intros k b Hb. by exists b. Qed.

Lemma insert_advances (runs : runs_map) (id : str) (b : ServerRunBinding) :
  (forall old, runs !! id = Some old -> advances old b) ->
  forall k x, runs !! k = Some x -> exists x', <[ id := b ]> runs !! k = Some x' /\ advances x x'.
Proof.
  intros Ha k x Hx. destruct (decide (id = k)) as [<-|Hk].
  - exists b. rewrite lookup_insert_eq. auto.
  - exists x. by rewrite lookup_insert_ne.
Qed.

Lemma insert_step (runs : runs_map) (id : str) (b : ServerRunBinding) :
  runs_ok runs -> binding_ok id b -> (forall old, runs !! id = Some old -> advances old b) ->
  step_ok runs (<[ id := b ]> runs) None.
Proof.
  intros Hok Hb Ha. split; [by apply map_Forall_insert_2 | by apply insert_advances | done].
Qed.

Lemma recorder_ok (k : str) (b : ServerRunBinding) (session : option str) :
  binding_ok k b -> binding_ok k (b <| recording_session_id := session |>).
Proof. by intros []. Qed.

Lemma merge_step (runs : runs_map) (incoming : ServerRunBinding) :
  runs_ok runs ->
  (valid_run (snapshot incoming) -> binding_ok (run_id (snapshot incoming)) incoming) ->
  step_ok runs (merge_server_run_binding_locked runs incoming).1 None.
Proof.
  intros Hok Hin. pose proof (merge_spec runs incoming) as Hm. cbn zeta in Hm.
  destruct (merge_server_run_binding_locked runs incoming) as [runs2 [b|err]]; cbn [fst];
    [ | subst; by apply step_same].
  destruct Hm as [-> Hm]. destruct (runs !! run_id (snapshot incoming)) as [old|] eqn:E.
  - destruct Hm as (Ha & Hfrom & Hv). apply insert_step; [done | | congruence].
    destruct Hfrom as [Hfrom| ->]; [ | by apply recorder_ok, Hok].
    apply (taken_from_ok _ incoming); [done | ]. apply Hin. rewrite Hfrom in Hv. exact Hv.
  - destruct Hm as [-> Hv]. apply insert_step; [done | by apply Hin | congruence].
Qed.

Lemma matches_identity_ok (b : ServerRunBinding) (run : CodingAgentRunSnapshot) :
  run_matches_binding_identity b run = true -> valid_run run -> binding_ok (run_id run) (b <| snapshot := run |>).
Proof.
  unfold run_matches_binding_identity. intros Hm Hv. rewrite !andb_true_iff, !beq_eq in Hm.
  destruct Hm as [[[[[H1 H2] H3] H4] H5] H6]. by split.
Qed.

Lemma mark_lost_fields (b lost : ServerRunBinding) (code : str) (completed_at : Z) :
  mark_server_binding_lost b code completed_at = Ok lost -> valid_run (snapshot lost) -> binding_ok (run_id (snapshot b)) b ->
  binding_ok (run_id (snapshot lost)) lost.
Proof.
  unfold mark_server_binding_lost. destruct (bound_terminal b); [by intros [= <-] | ]. destruct (Z.ltb _ _); [done | ].
  intros [= <-] Hv []. by split.
Qed.

Lemma recorder_step (runs : runs_map) (id session : str) :
  runs_ok runs ->
  step_ok runs (alter (fun b => if is_none (recording_session_id b) then b <| recording_session_id := Some session |> else b)
                  id runs) None.
Proof.
  intros Hok. split; [ | | done].
  - intros k b Hb. apply lookup_alter_Some in Hb as [(<- & b0 & Hb0 & ->)|[_ Hb]]; [ | by apply Hok].
    apply Hok in Hb0. destruct (is_none _); [by apply recorder_ok | done].
  - intros k b Hb. destruct (decide (k = id)) as [->|Hk]; [ | exists b; by rewrite lookup_alter_ne].
    rewrite lookup_alter_eq, Hb. eexists. split; [done | ].
    destruct (recording_session_id b) as [s|] eqn:Es; cbn [is_none]; [done | ].
    split; cbn; try done; [apply same_run_refl | congruence | apply Z.land_diag].
Qed.

Lemma take_step (runs : runs_map) (id : str) (b : ServerRunBinding) (bit : Z) (kind : str) :
  runs_ok runs -> runs !! id = Some b -> evidence_bit kind bit -> Z.land (recorded_lifecycle_mask b) bit = 0%Z ->
  step_ok runs (<[ id := b <| recorded_lifecycle_mask := Z.lor (recorded_lifecycle_mask b) bit |> ]> runs) (Some (id, kind)).
Proof.
  intros Hok Hb Hk Hz. set (b' := b <| recorded_lifecycle_mask := _ |>).
  assert (Hbit : mask_le (recorded_lifecycle_mask b) (recorded_lifecycle_mask b')
    /\ Z.land (recorded_lifecycle_mask b') bit = bit).
  { unfold mask_le. cbn. split; apply Z.bits_inj'; intros n _; rewrite Z.land_spec, Z.lor_spec;
      destruct (Z.testbit (recorded_lifecycle_mask b) n), (Z.testbit bit n); done. }
  split.
  - apply map_Forall_insert_2; [ | done]. destruct (Hok id b Hb). by split.
  - apply insert_advances. intros old Hold. rewrite Hb in Hold. injection Hold as <-.
    split; cbn; try done; [apply same_run_refl | apply Hbit].
  - intros k kind' [= <- <-]. exists b, b', bit. rewrite lookup_insert_eq. naive_solver.
Qed.

Lemma run_step_ok (runs : runs_map) (now : Z) (op : run_op) :
  runs_ok runs -> op_ok op ->
  step_ok (prune_server_runs_locked runs now) (run_step runs now op).1 (run_step runs now op).2.
Proof.
  intros Hok Hop. pose proof (prune_ok runs now) as [Hsub _ _ _].
  assert (Hp : runs_ok (prune_server_runs_locked runs now)) by (intros k b Hb; apply Hok; by eapply lookup_weaken).
  destruct op as [cid iid run session|id code completed|b run|id session|id|id]; cbn [run_step fst snd].
  - apply merge_step; [done | ]. intros Hv. by split.
  - unfold mark_lost. set (runs1 := prune_server_runs_locked runs now) in *.
    destruct (runs1 !! id) as [b|] eqn:E; [ | by apply step_same]. destruct (bound_terminal b); [by apply step_same | ].
    destruct (mark_server_binding_lost b code completed) as [lost|] eqn:El; [ | by apply step_same].
    pose proof (merge_step runs1 lost Hp) as Hm.
    destruct (merge_server_run_binding_locked runs1 lost) as [runs2 r]. apply Hm. intros Hv.
    eapply mark_lost_fields; [exact El | exact Hv | ]. pose proof (Hp id b E) as Hb. by rewrite (bo_key _ _ Hb).
  - destruct Hop as [_ Hid]. apply merge_step; [done | ]. cbn. intros Hv. by apply matches_identity_ok.
  - destruct session as [session|]; cbn; [by apply recorder_step | ].
    split; [done | | done]. intros k b Hb. exists b. split; [by eapply lookup_weaken | done].
  - unfold take_lifecycle_evidence. set (runs1 := prune_server_runs_locked runs now) in *.
    destruct (runs1 !! id) as [b|] eqn:E; [ | by apply step_same].
    destruct (recording_session_id b) as [session|]; [ | by apply step_same].
    destruct (lifecycle_evidence (run_state (snapshot b))) as [bit kind] eqn:Ee.
    destruct (Z.eqb_spec (Z.land (recorded_lifecycle_mask b) bit) 0) as [Hz|]; cbn [negb]; [ | by apply step_same].
    cbn. apply take_step; [done | done | by eexists | done].
  - by apply step_same.
Qed.

(** *** Histories *)

Fixpoint run_all (runs : runs_map) (calls : list (Z * run_op)) : runs_map * list (str * str) :=
  match calls with
  | [] => (runs, [])
  | (now, op) :: rest =>
      let '(runs, evidence) := run_step runs now op in
      let '(runs, later) := run_all runs rest in
      (runs, match evidence with Some e => e :: later | None => later end)
  end.

(** The pruning of no call forgets Run [k]. *)
Fixpoint remembered (k : str) (runs : runs_map) (calls : list (Z * run_op)) : Prop :=
  match calls with
  | [] => True
  | (now, op) :: rest => is_Some (prune_server_runs_locked runs now !! k) /\ remembered k (run_step runs now op).1 rest
  end.

Definition evidence_of (k : str) (evidence : list (str * str)) : list str :=
  map snd (List.filter (fun e => fst e ==? k) evidence).

Lemma evidence_bit_unique (kind : str) (bit bit' : Z) : evidence_bit kind bit -> evidence_bit kind bit' -> bit = bit' /\ bit <> 0%Z.
Proof. intros [s Hs] [s' Hs']. destruct s, s'; cbn in *; by simplify_eq. Qed.

Lemma mask_le_clear (a b bit : Z) : mask_le a b -> Z.land b bit = 0%Z -> Z.land a bit = 0%Z.
Proof. unfold mask_le. intros Hle Hz. rewrite <- Hle, <- Z.land_assoc, Hz. apply Z.land_0_r. Qed.

Lemma history_spec (k : str) (calls : list (Z * run_op)) (runs : runs_map) (b : ServerRunBinding) :
  runs_ok runs -> Forall (fun c => op_ok (snd c)) calls -> runs !! k = Some b -> remembered k runs calls ->
  let '(runs', evidence) := run_all runs calls in
  runs_ok runs'
  /\ (exists b', runs' !! k = Some b' /\ advances b b')
  /\ NoDup (evidence_of k evidence)
  /\ Forall (fun kind => forall bit, evidence_bit kind bit -> Z.land (recorded_lifecycle_mask b) bit = 0%Z)
       (evidence_of k evidence).
Proof.
  revert runs b. induction calls as [|[now op] calls IH]; intros runs b Hok Hops Hb Hrem; cbn [run_all].
  - split_and!; [done | by exists b | apply NoDup_nil_2 | apply Forall_nil_2].
  - apply Forall_cons in Hops as [Hop Hops]. destruct Hrem as [[b0 Hb0] Hrem].
    pose proof (prune_ok runs now) as [Hsub _ _ _]. pose proof Hb0 as Hb0'. eapply lookup_weaken in Hb0'; [ | exact Hsub].
    rewrite Hb in Hb0'. injection Hb0' as <-.
    pose proof (run_step_ok runs now op Hok Hop) as [S1 S2 S3].
    destruct (run_step runs now op) as [runs1 e]. cbn [fst snd] in *. destruct (S2 k b Hb0) as (b1 & Hb1 & Ha1).
    specialize (IH runs1 b1 S1 Hops Hb1 Hrem). destruct (run_all runs1 calls) as [runs2 later].
    destruct IH as (I1 & (b2 & Hb2 & Ha2) & I3 & I4). split_and!; [done | exists b2; split; [done | by etransitivity] | | ].
    all: destruct e as [[id kind]|]; cbn [evidence_of List.filter map fst snd].
    all: unfold evidence_of; cbn [List.filter fst]; try (destruct (id ==? k) eqn:Ek; [apply beq_true in Ek as -> | ]).
    all: try exact I3; cbn [map snd].
    + destruct (S3 k kind eq_refl) as (x & x' & bit & Hx & Hx' & Hbit & Hz & Hs). simplify_eq.
      apply NoDup_cons. split; [ | exact I3]. intros Hin. rewrite Forall_forall in I4.
      specialize (I4 kind Hin bit Hbit). destruct (evidence_bit_unique kind bit bit Hbit Hbit). congruence.
    + destruct (S3 k kind eq_refl) as (x & x' & bit & Hx & Hx' & Hbit & Hz & Hs). simplify_eq. apply Forall_cons. split.
      * intros bit' Hbit'. by destruct (evidence_bit_unique kind bit bit' Hbit Hbit') as [-> _].
      * eapply Forall_impl; [exact I4 | ]. intros kd Hkd bit' Hb'. eapply mask_le_clear; [apply Ha1 | auto].
    + eapply Forall_impl; [exact I4 | ]. intros kd Hkd bit' Hb'. eapply mask_le_clear; [apply Ha1 | auto].
    + eapply Forall_impl; [exact I4 | ]. intros kd Hkd bit' Hb'. eapply mask_le_clear; [apply Ha1 | auto].
Qed.
End Steps.

(** C32: A Run the Server keeps only moves forward.  Along any sequence of calls whose
    pruning does not forget it, its identity (authority, intent, project, provider
    and instance) is fixed, its observation revision never decreases, a snapshot of
    the same revision is the same snapshot, a completed, failed or cancelled Run
    keeps its snapshot and a lost one stays terminal, the session that records it
    is the first one, and each kind of lifecycle evidence is handed out at most
    once.  Every binding agrees with its snapshot throughout. *)
Theorem run_history_forward `{HashIteration} (k : str) (calls : list (Z * run_op)) (runs : runs_map) (b : ServerRunBinding) :
  runs_ok runs -> Forall (fun c => op_ok (snd c)) calls -> runs !! k = Some b -> remembered k runs calls ->
  runs_ok (run_all runs calls).1
  /\ (exists b', (run_all runs calls).1 !! k = Some b' /\ advances b b')
  /\ NoDup (evidence_of k (run_all runs calls).2).
Proof.
  intros Hok Hops Hb Hrem. pose proof (history_spec k calls runs b Hok Hops Hb Hrem) as Hs.
  destruct (run_all runs calls) as [runs' evidence]. by destruct Hs as (? & ? & ? & _).
Qed.

(** Pruning the Server's registry of Runs keeps every live Run, keeps at most 128
    terminal ones, changes none, and forgets a terminal Run only if it ended before
    the retention period or no later than every terminal Run that is kept,
    whatever order the hash map yields its entries in. *)
Lemma prune_forgets_oldest_terminal `{HashIteration} (runs : runs_map) (now : Z) :
  let runs' := prune_server_runs_locked runs now in
  runs' ⊆ runs
  /\ (forall k b, runs !! k = Some b -> run_terminal (run_state (snapshot b)) = false -> runs' !! k = Some b)
  /\ length (terminal_runs runs') <= SERVER_MAX_TERMINAL_RUNS
  /\ forall k b, runs !! k = Some b -> runs' !! k = None ->
     (run_updated_at (snapshot b) < i64_sat_sub now SERVER_TERMINAL_RETENTION_SECS)%Z
     \/ forall k' b', runs' !! k' = Some b' -> run_terminal (run_state (snapshot b')) = true ->
        (run_updated_at (snapshot b) <= run_updated_at (snapshot b'))%Z.
Proof. cbn zeta. by destruct (prune_ok runs now). Qed.

(** ** Loss *)

Lemma lost_valid (b lost : ServerRunBinding) (code : str) (completed_at : Z) :
  valid_run (snapshot b) -> bound_terminal b = false ->
  validate_low_cardinality_kind code (lit "CodingAgentRun terminal error code") CODING_AGENT_MAX_TERMINAL_METADATA_BYTES = Ok tt ->
  mark_server_binding_lost b code completed_at = Ok lost ->
  merge_coding_agent_run_snapshot (snapshot b) (snapshot lost) = Ok Advance.
Proof.
  unfold mark_server_binding_lost. intros Hv Ht Hc. rewrite Ht. destruct (Z.ltb _ _); [done | ]. intros [= <-].
  apply merge_advance. split_and!; [done | | by apply same_run_spec | ].
  - unfold valid_run, validate_coding_agent_run_snapshot in Hv |- *. cbn.
    destruct (validate_run_id _) as [[]|]; [ | done]. destruct (validate_intent_fingerprint _) as [[]|]; [ | done].
    destruct (validate_authority_fingerprint _) as [[]|]; [ | done]. destruct (validate_provider_id _) as [[]|]; [ | done].
    destruct (validate_provider_instance_id _) as [[]|]; [ | done]. cbn [result_bind] in Hv |- *.
    match type of Hv with (if ?c then _ else _) = _ => destruct c; [done | ] end.
    assert (Hlen : longer_than CODING_AGENT_MAX_TERMINAL_METADATA_BYTES (Some code) = false).
    { unfold validate_low_cardinality_kind in Hc. destruct (is_empty code || Z.ltb _ _) eqn:E in Hc; [done | ].
      apply orb_false_iff in E as [_ E]. exact E. }
    unfold validate_terminal_metadata. cbn [stop_reason error_code term_message]. rewrite Hlen, Hc. done.
  - apply transition_facts. cbn. split; [lia | ]. apply valid_run_matrix in Hv as [Hm _]. unfold bound_terminal in Ht.
    by destruct (run_state (snapshot b)), (execution_state (snapshot b)).
Qed.

(** A live Run whose owner is gone can always be given up: marking it lost with a
    well-formed code succeeds unless its revision counter is exhausted, and stores
    a lost snapshot of the next revision with an unknown outcome and the code; a Run
    that is terminal or unknown is left as it is. *)
Lemma live_run_is_marked_lost `{HashIteration} (runs : runs_map) (id code : str) (now completed : Z) :
  runs_ok runs ->
  validate_low_cardinality_kind code (lit "CodingAgentRun terminal error code") CODING_AGENT_MAX_TERMINAL_METADATA_BYTES = Ok tt ->
  let pruned := prune_server_runs_locked runs now in
  match pruned !! id with
  | None => mark_lost runs id code now completed = (pruned, Ok None)
  | Some b =>
      if run_terminal (run_state (snapshot b)) then mark_lost runs id code now completed = (pruned, Ok (Some b))
      else if Z.leb USIZE_MAX (observation_revision (snapshot b)) then exists err, mark_lost runs id code now completed = (pruned, Err err)
      else exists b', mark_lost runs id code now completed = (<[ id := b' ]> pruned, Ok (Some b'))
           /\ run_state (snapshot b') = RunLost /\ execution_state (snapshot b') = ExecOutcomeUnknown
           /\ observation_revision (snapshot b') = (observation_revision (snapshot b) + 1)%Z
           /\ terminal (snapshot b') = Some (mkTerminal None (Some code) (Some LOST_MESSAGE) completed)
           /\ same_run (snapshot b) (snapshot b') = true
  end.
Proof.
  intros Hok Hc. cbn zeta. unfold mark_lost. set (pruned := prune_server_runs_locked runs now).
  destruct (pruned !! id) as [b|] eqn:Eb; [ | done].
  change (run_terminal (run_state (snapshot b))) with (bound_terminal b). destruct (bound_terminal b) eqn:Et; [done | ].
  assert (Hb : binding_ok id b) by (apply Hok; eapply lookup_weaken; [exact Eb | apply prune_ok]).
  destruct (mark_server_binding_lost b code completed) as [lost|err] eqn:El; unfold mark_server_binding_lost in El; rewrite Et in El.
  - pose proof (lost_valid b lost code completed (bo_valid _ _ Hb) Et Hc) as Hm. unfold mark_server_binding_lost in Hm.
    rewrite Et in Hm. specialize (Hm El). destruct (Z.ltb_spec USIZE_MAX (observation_revision (snapshot b) + 1)); [done | ].
    destruct (Z.leb_spec USIZE_MAX (observation_revision (snapshot b))); [lia | ]. injection El as <-.
    unfold merge_server_run_binding_locked. cbn [snapshot set_field run_id]. cbn in Hm |- *.
    rewrite (bo_key _ _ Hb), Eb, Hm. eexists. split; [reflexivity | ]. cbn. split_and!; try done. by apply same_run_spec.
  - destruct (Z.ltb_spec USIZE_MAX (observation_revision (snapshot b) + 1)); [ | done].
    destruct (Z.leb_spec USIZE_MAX (observation_revision (snapshot b))); [ | lia]. by eexists.
Qed.

(** ** Witnesses *)

Definition sample_id : str := lit "wc_agent_run_1".
Definition sample_bound : ServerRunBinding :=
  mkBinding (lit "auth_ann") (lit "r1") (lit "i1") (lit "agent:r1:demo") (lit "acp") (lit "acp-1") None 0 run_started.
Definition sample_runs : runs_map := {[ sample_id := sample_bound ]}.

Lemma sample_runs_ok : runs_ok sample_runs.
Proof. apply map_Forall_singleton. split; vm_compute; reflexivity. Qed.

(** A recorder is attached, evidence is asked for twice, the Run completes, evidence
    is asked for twice more. *)
Definition sample_calls : list (Z * run_op) :=
  [(110, RAttach sample_id (Some (lit "s1"))); (111, RTake sample_id); (112, RTake sample_id);
   (113, RBind (lit "r1") (lit "i1") run_completed (Some (lit "s2"))); (114, RTake sample_id); (115, RTake sample_id)]%Z.

Lemma run_history_forward_witness :
  exists b', (run_all sample_runs sample_calls).1 !! sample_id = Some b'
    /\ advances sample_bound b' /\ run_state (snapshot b') = RunCompleted /\ recording_session_id b' = Some (lit "s1")
    /\ evidence_of sample_id (run_all sample_runs sample_calls).2 = [lit "coding_agent_started"; lit "coding_agent_terminal"]
    /\ NoDup (evidence_of sample_id (run_all sample_runs sample_calls).2).
Proof.
  destruct (run_history_forward sample_id sample_calls sample_runs sample_bound) as (_ & (b' & Hb' & Ha) & Hn).
  - exact sample_runs_ok.
  - repeat constructor.
  - reflexivity.
  - repeat split; try (eexists; vm_compute; reflexivity).
  - exists b'. split; [exact Hb' | ]. split; [exact Ha | ]. vm_compute in Hb'. injection Hb' as <-.
    split; [reflexivity | ]. split; [reflexivity | ]. split; [vm_compute; reflexivity | exact Hn].
Defined.

Lemma live_run_is_marked_lost_witness :
  exists b', mark_lost sample_runs sample_id (lit "runner_replaced_uncertain") 120 121
      = (<[ sample_id := b' ]> (prune_server_runs_locked sample_runs 120), Ok (Some b'))
    /\ run_state (snapshot b') = RunLost.
Proof.
  pose proof (live_run_is_marked_lost sample_runs sample_id (lit "runner_replaced_uncertain") 120 121 sample_runs_ok) as Hl.
  assert (Hc : validate_low_cardinality_kind (lit "runner_replaced_uncertain") (lit "CodingAgentRun terminal error code")
    CODING_AGENT_MAX_TERMINAL_METADATA_BYTES = Ok tt) by (vm_compute; reflexivity).
  specialize (Hl Hc). cbn zeta in Hl.
  assert (Hp : prune_server_runs_locked sample_runs 120 !! sample_id = Some sample_bound) by (vm_compute; reflexivity).
  rewrite Hp in Hl.
  change (run_terminal (run_state (snapshot sample_bound))) with false in Hl.
  change (Z.leb USIZE_MAX (observation_revision (snapshot sample_bound))) with false in Hl.
  destruct Hl as (b' & Hm & Hs & _). exists b'. split; [exact Hm | exact Hs].
Defined.
