(* ===== verification/Receipts.v ===== *)
(** * Receipts: durable evidence of terminal Jobs

    receipts.rs of the registry and runner_job_receipt.rs: what is captured when the
    registry is unlocked, what a receipt must satisfy, and how a starting Server
    rebuilds its terminal Jobs.  job_receipts.rs of the store: the table
    [wc_job_receipts] as a finite map from its primary key to the other columns, and
    each statement as what it does to that map. *)
From S2P Require Import Prelude RustStr Policy Lifecycle JobLog RegistryState JobState ValidationSteps InventoryCheck Reconcile.

Definition JOB_RECEIPT_STREAM_MAX_BYTES : Z := 256 * 1024 + 128.
Definition JOB_RECEIPT_PAYLOAD_MAX_BYTES : Z := 4 * 1024 * 1024.

Record RetainedJobReceipt : Type := mkReceipt {
  rc_client_id : str;
  rc_runner_instance_id : str;
  rc_auth_group : option RunnerAccessGroup;
  rc_owner_at_admission : option str;
  rc_kind : str;
  rc_snapshot : ShellJobSnapshot;
  rc_terminal_observed_at : Z;
  rc_expires_at : Z
}.

(** ** Validation *)

(** The closure [text]. *)
Definition receipt_text (s : str) (max : Z) : bool :=
  negb (is_empty s) && Z.leb (str_len s) max && negb (contains_char NUL s).

Definition receipt_identity_ok (r : RetainedJobReceipt) (now : Z) : bool :=
  let snapshot := rc_snapshot r in
  receipt_text (rc_client_id r) 128
  && receipt_text (rc_runner_instance_id r) 128
  && receipt_text (snap_job_id snapshot) 128
  && receipt_text (snap_request_id snapshot) 128
  && receipt_text (rc_kind r) 128
  && one_of (rc_kind r) [lit "shell"; lit "run_process"; lit "run_script"]
  && Z.ltb 0 (rc_terminal_observed_at r)
  && Z.leb (rc_terminal_observed_at r) now
  && Z.eqb (rc_expires_at r) (i64_sat_add (rc_terminal_observed_at r) JOB_TERMINAL_RETENTION_SECS)
  && Z.ltb now (rc_expires_at r).

Definition receipt_partition_ok (r : RetainedJobReceipt) : bool :=
  match rc_auth_group r with
  | Some (SharedKey group) => Z.eqb (str_len group) 64 && forallb is_ascii_hexdigit (as_bytes group)
  | Some (ProjectGrant group) => receipt_text group 256
  | Some OpenAnonymous => true
  | None => is_none_or (fun owner => receipt_text owner 256 && negb (is_empty (trim owner))) (rc_owner_at_admission r)
  end.

Definition receipt_terminal_ok (snapshot : ShellJobSnapshot) : bool :=
  match from_wire (snap_status snapshot) with Ok state => is_terminal state | Err _ => false end
  && is_some (snap_ended_at snapshot)
  && Z.ltb 0 (snap_created_at snapshot)
  && negb ((snap_status snapshot ==? lit "completed") && (snap_exit_code snapshot !=? Some 0%Z))
  && is_none (snap_activity snapshot)
  && is_none (ctx_validation (snap_context snapshot))
  && negb (is_some_and (fun metadata => negb (structured_is_valid metadata)
                                        || (execution_source metadata ==? lit "run_detached_process"))
             (ctx_structured_execution (snap_context snapshot))).

Definition receipt_project_ok (cid : str) (context : ShellJobContext) : bool :=
  negb (is_some_and (fun project => is_none_or is_empty (strip_prefix (lit "agent:" ++ cid ++ lit ":") project))
          (runtime_project_id context))
  && negb (is_some_and (fun session => is_none (runtime_project_id context) || negb (is_valid_session_id session))
             (workflow_session_id context)).

Definition receipt_progress_ok (context : ShellJobContext) (progress : ShellJobValidationProgress) : bool :=
  Nat.leb (completed progress) (length (ctx_validation_steps context))
  && is_none_or (fun step => one_of step (ctx_validation_steps context)) (current_step progress)
  && is_none_or (fun step => one_of step (ctx_validation_steps context)) (failed_step progress).

Definition receipt_context_ok (snapshot : ShellJobSnapshot) : bool :=
  let context := snap_context snapshot in
  (Preview.command_preview (ctx_command_preview context) ==? ctx_command_preview context)
  && Nat.leb (length (ctx_command_preview context)) (Preview.COMMAND_PREVIEW_MAX_CHARS + 1)
  && forallb (is_none_or (fun value => receipt_text value 4096))
       [runtime_project_id context; workflow_session_id context; ctx_ssh_resource context;
        ctx_project_cwd context; ctx_cwd context; ctx_purpose context; ctx_shell context]
  && is_none_or (fun value => Z.leb (str_len value) (16 * 1024)) (snap_error snapshot)
  && Nat.leb (length (ctx_validation_steps context)) 3
  && forallb (fun step => one_of step [lit "format"; lit "check"; lit "test"]) (ctx_validation_steps context)
  && is_none_or (receipt_progress_ok context) (snap_validation_progress snapshot).

Definition receipt_stream_ok (stream : ShellJobStreamSnapshot) : bool :=
  let lines := Z.of_nat (length (str_lines (ss_tail stream))) in
  Z.leb (str_len (ss_tail stream)) JOB_RECEIPT_STREAM_MAX_BYTES
  && negb (Z.eqb (ss_first_retained_line stream) 0)
  && Z.leb (ss_first_retained_line stream + lines) USIZE_MAX
  && Z.eqb (ss_first_retained_line stream + lines) (ss_next_line stream)
  && negb (Z.ltb 1 (ss_first_retained_line stream) && negb (ss_truncated stream)).

Definition validate_receipt (r : RetainedJobReceipt) (now : Z) : result unit str :=
  let snapshot := rc_snapshot r in
  bail? negb (receipt_identity_ok r now) with lit "invalid receipt identity or deadline" ;;
  bail? negb (receipt_partition_ok r) with lit "invalid receipt authorization partition" ;;
  bail? is_some_and (fun owner => negb (receipt_text owner 256)) (rc_owner_at_admission r)
    with lit "invalid receipt owner" ;;
  bail? negb (receipt_terminal_ok snapshot) with lit "invalid receipt terminal snapshot" ;;
  bail? negb (receipt_project_ok (rc_client_id r) (snap_context snapshot))
    with lit "invalid receipt project/session context" ;;
  bail? negb (receipt_context_ok snapshot) with lit "invalid receipt context" ;;
  bail? negb (receipt_stream_ok (snap_stdout snapshot) && receipt_stream_ok (snap_stderr snapshot))
    with lit "invalid receipt log bounds" ;;
  Ok tt.

(** ** Capture *)

(** The closure [stream]. *)
Definition capture_stream (log : ShellJobLogState) : ShellJobStreamSnapshot :=
  mkStreamSnapshot (tail log) (first_retained_line log) (next_line log) (truncated log).

Definition capture_context (job : ShellJobRecord) : ShellJobContext :=
  mkContext (project_id job) (session_id job) (ssh_resource job) (project_cwd job) (cwd job) (purpose job) (shell job)
    (command_preview job) (validation_steps job) None (structured_execution job).

Definition capture_snapshot (job : ShellJobRecord) (rid : str) : ShellJobSnapshot :=
  mkSnapshot (job_id job) rid (as_wire (lifecycle job)) (last_update_seq job) (created_at job) (started_at job)
    (ended_at job) (exit_code job) (duration_ms job) (error job) (command_execution_state job) (capture_context job)
    (capture_stream (stdout job)) (capture_stream (stderr job)) (validation_progress job) None.

Definition capture (job : ShellJobRecord) (now : Z) : option RetainedJobReceipt :=
  if (visibility job !=? Public) || negb (is_terminal (lifecycle job)) || (kind job ==? lit "run_detached_process") then None
  else
    observed ← terminal_observed_at (observation job);
    rid ← request_id job;
    let receipt :=
      mkReceipt (client_id job) (runner_instance_id job) (auth_group job) (owner_at_admission job) (kind job)
        (capture_snapshot job rid) observed (i64_sat_add observed JOB_TERMINAL_RETENTION_SECS) in
    match validate_receipt receipt now with
    | Err _ => None
    | Ok _ => Some receipt
    end.

(** ** The store the registry writes to *)

(** [JobReceiptStore]: the state behind the trait object and its operations. *)
Class JobReceiptStore (store : Type) : Type := {
  store_upsert : store -> RetainedJobReceipt -> Z -> store * result unit str;
  store_load : store -> Z -> store * result (list RetainedJobReceipt) str;
  store_prune : store -> Z -> store * result unit str
}.

Section Registry.
Context `{HashIteration} {store : Type} `{JobReceiptStore store}.

Definition is_candidate (job : ShellJobRecord) : bool := is_receipt_candidate (observation job).

Definition clear_candidate (job : ShellJobRecord) : ShellJobRecord :=
  job <| observation := observation job <| is_receipt_candidate := false |> |>.

(** The drop of the registry's guard: the candidates are taken and captured, the
    mutex is released, and each receipt is written; failures are only counted.
    [clock] is the time read for each Job, [written] the time of the writes. *)
Definition drop_guard (inner : RunnerRegistryInner) (s : store) (clock : str -> Z) (written : Z)
  : RunnerRegistryInner * store * nat :=
  let candidates := List.filter (fun e => is_candidate (snd e)) (hash_iter (jobs_by_id inner)) in
  let receipts := omap (fun e => capture (snd e) (clock (fst e))) candidates in
  let inner := inner <| jobs_by_id := clear_candidate <$> jobs_by_id inner |> in
  let '(s, failed) :=
    fold_left (fun st receipt =>
      let '(s, r) := store_upsert (fst st) receipt written in
      (s, if is_ok r then snd st else S (snd st))) receipts (s, 0) in
  (inner, s, failed).

(** The Job a receipt stands for. *)
Definition hydrated_job (epoch : str) (receipt : RetainedJobReceipt) (now : Z) : option ShellJobRecord :=
  job ← record_from_snapshot (rc_client_id receipt) (rc_runner_instance_id receipt) (rc_auth_group receipt) epoch
          (rc_snapshot receipt) now;
  Some (job <| owner_at_admission := rc_owner_at_admission receipt |>
            <| kind := rc_kind receipt |>
            <| observation := observation job <| terminal_observed_at := Some (rc_terminal_observed_at receipt) |>
                                              <| receipt_expires_at := Some (rc_expires_at receipt) |> |>
            <| stdout := replace_log_from_snapshot (stdout job) (snap_stdout (rc_snapshot receipt)) |>
            <| stderr := replace_log_from_snapshot (stderr job) (snap_stderr (rc_snapshot receipt)) |>).

(** One turn of the loop; [None] is a panic. *)
Definition hydrate_one (epoch : str) (now : Z) (inner : RunnerRegistryInner) (receipt : RetainedJobReceipt)
  : option RunnerRegistryInner :=
  match validate_receipt receipt now with
  | Err _ => Some inner
  | Ok _ =>
      job ← hydrated_job epoch receipt now;
      Some (match jobs_by_id inner !! job_id job with
            | Some _ => inner
            | None => inner <| jobs_by_id := <[ job_id job := job ]> (jobs_by_id inner) |>
            end)
  end.

Fixpoint hydrate (epoch : str) (now : Z) (receipts : list RetainedJobReceipt) (inner : RunnerRegistryInner)
  : option RunnerRegistryInner :=
  match receipts with
  | [] => Some inner
  | receipt :: rest => inner ← hydrate_one epoch now inner receipt; hydrate epoch now rest inner
  end.

(** The registry of a starting Server and the store after the load. *)
Definition with_job_receipt_store (s : store) (epoch : str) (now : Z) : option (RunnerRegistryInner * store) :=
  let '(s, loaded) := store_load s now in
  let receipts := match loaded with Ok receipts => receipts | Err _ => [] end in
  inner ← hydrate epoch now receipts RunnerRegistryInner_default;
  Some (inner, s).
End Registry.

(** * The table of terminal Job receipts (crates/webcodex-store/src/job_receipts.rs)

    The table [wc_job_receipts] is a finite map from its primary key [job_id] to its
    other columns, and each statement the code sends is the change it makes to that
    map.  The JSON text of a snapshot comes from serde and is a parameter. *)

Record ReceiptRow : Type := mkRow {
  row_client_id : str;
  row_runner_instance_id : str;
  row_auth_kind : str;
  row_auth_partition : option str;
  row_owner_at_admission : option str;
  row_kind : str;
  row_snapshot : str;
  row_terminal_observed_at : Z;
  row_expires_at : Z
}.

#[export] Instance ReceiptRow_eq_dec : EqDecision ReceiptRow.
Proof. solve_decision. Defined.

Abbreviation receipt_table := (gmap str ReceiptRow).

(** [serde_json::to_string] and [from_str] of a snapshot. *)
Class SnapshotJson : Type := {
  snapshot_to_string : ShellJobSnapshot -> result str str;
  snapshot_from_str : str -> option ShellJobSnapshot;
  snapshot_roundtrip : forall s text, snapshot_to_string s = Ok text -> snapshot_from_str text = Some s
}.

(** [DELETE FROM wc_job_receipts WHERE expires_at <= ?1]. *)
Definition prune_expired (table : receipt_table) (now : Z) : receipt_table :=
  filter (fun e => (now < row_expires_at (snd e))%Z) table.

(** [ORDER BY terminal_observed_at DESC, job_id DESC]: [a] comes before [b]. *)
Definition row_before (a b : str * ReceiptRow) : bool :=
  Z.ltb (row_terminal_observed_at (snd b)) (row_terminal_observed_at (snd a))
  || (Z.eqb (row_terminal_observed_at (snd a)) (row_terminal_observed_at (snd b))
      && negb (str_leb (fst a) (fst b))).

(** How many rows of the same Runner come before a row in that order. *)
Definition rows_before (table : receipt_table) (e : str * ReceiptRow) : nat :=
  size (filter (fun a => row_client_id (snd a) = row_client_id (snd e) /\ row_before a e = true) table).

(** The rows beyond the newest ones of their Runner: past [OFFSET ?2], or with a
    [ROW_NUMBER()] above [?1]. *)
Definition in_excess (table : receipt_table) (e : str * ReceiptRow) : bool :=
  Nat.leb JOB_INVENTORY_MAX_TERMINAL_JOBS (rows_before table e).

Definition trim_runner (table : receipt_table) (cid : str) : receipt_table :=
  filter (fun e => (row_client_id (snd e) ==? cid) && in_excess table e = false) table.

Definition trim_history (table : receipt_table) : receipt_table :=
  filter (fun e => in_excess table e = false) table.

(** The columns an authorization partition is stored in. *)
Definition auth_columns (r : RetainedJobReceipt) : str * option str :=
  match rc_auth_group r with
  | Some (SharedKey group) => (lit "shared_key", Some group)
  | Some (ProjectGrant group) => (lit "project_grant", Some group)
  | Some OpenAnonymous => (lit "open_anonymous", None)
  | None => (if is_some (rc_owner_at_admission r) then lit "managed_owner" else lit "managed_unowned", None)
  end.

Definition auth_from_columns (auth_kind : str) (partition owner : option str) : option (option RunnerAccessGroup) :=
  match partition with
  | Some group =>
      if auth_kind ==? lit "shared_key" then Some (Some (SharedKey group))
      else if auth_kind ==? lit "project_grant" then Some (Some (ProjectGrant group))
      else None
  | None =>
      if auth_kind ==? lit "open_anonymous" then Some (Some OpenAnonymous)
      else if (auth_kind ==? lit "managed_owner") && is_some owner then Some None
      else if (auth_kind ==? lit "managed_unowned") && is_none owner then Some None
      else None
  end.

(** The bounds the query checks on the columns before a row is read. *)
Definition columns_bounded (job_id : str) (row : ReceiptRow) : bool :=
  Z.leb (str_len job_id) 128 && Z.leb (str_len (row_client_id row)) 128
  && Z.leb (str_len (row_runner_instance_id row)) 128 && Z.leb (str_len (row_auth_kind row)) 32
  && is_none_or (fun p => Z.leb (str_len p) 256) (row_auth_partition row)
  && is_none_or (fun o => Z.leb (str_len o) 256) (row_owner_at_admission row)
  && Z.leb (str_len (row_kind row)) 128.

(** [ORDER BY client_id, terminal_observed_at, job_id]. *)
Definition row_order (a b : str * ReceiptRow) : bool :=
  if negb (str_leb (row_client_id (snd b)) (row_client_id (snd a))) then true
  else if negb (str_leb (row_client_id (snd a)) (row_client_id (snd b))) then false
  else if Z.ltb (row_terminal_observed_at (snd a)) (row_terminal_observed_at (snd b)) then true
  else if Z.ltb (row_terminal_observed_at (snd b)) (row_terminal_observed_at (snd a)) then false
  else str_leb (fst a) (fst b).

Section Store.
Context `{SnapshotJson}.

Definition receipt_row (r : RetainedJobReceipt) (payload : str) : ReceiptRow :=
  mkRow (rc_client_id r) (rc_runner_instance_id r) (fst (auth_columns r)) (snd (auth_columns r))
    (rc_owner_at_admission r) (rc_kind r) payload (rc_terminal_observed_at r) (rc_expires_at r).

(** [ON CONFLICT(job_id) DO NOTHING]. *)
Definition insert_new (table : receipt_table) (id : str) (row : ReceiptRow) : receipt_table :=
  match table !! id with Some _ => table | None => <[ id := row ]> table end.

Definition upsert_job_receipt (table : receipt_table) (r : RetainedJobReceipt) (now : Z)
  : receipt_table * result unit str :=
  let prepared :=
    check? validate_receipt r now ;;
    let? payload := snapshot_to_string (rc_snapshot r) in
    bail? Z.ltb JOB_RECEIPT_PAYLOAD_MAX_BYTES (str_len payload) with lit "oversized Job receipt" ;;
    Ok payload in
  match prepared with
  | Err err => (table, Err err)
  | Ok payload =>
      let table := insert_new (prune_expired table now) (snap_job_id (rc_snapshot r)) (receipt_row r payload) in
      (trim_runner table (rc_client_id r), Ok tt)
  end.

Definition prune_job_receipts (table : receipt_table) (now : Z) : receipt_table := prune_expired table now.

(** The closure that turns a row into a receipt. *)
Definition row_receipt (now : Z) (e : str * ReceiptRow) : option RetainedJobReceipt :=
  let '(id, row) := e in
  if negb (columns_bounded id row) then None
  else
    group ← auth_from_columns (row_auth_kind row) (row_auth_partition row) (row_owner_at_admission row);
    payload ← (if Z.leb (str_len (row_snapshot row)) JOB_RECEIPT_PAYLOAD_MAX_BYTES then Some (row_snapshot row) else None);
    snapshot ← snapshot_from_str payload;
    let receipt :=
      mkReceipt (row_client_id row) (row_runner_instance_id row) group (row_owner_at_admission row) (row_kind row)
        snapshot (row_terminal_observed_at row) (row_expires_at row) in
    if (snap_job_id snapshot !=? id) || negb (is_ok (validate_receipt receipt now)) then None else Some receipt.

Definition load_job_receipts (table : receipt_table) (now : Z) : receipt_table * list RetainedJobReceipt :=
  let table := trim_history (prune_expired table now) in
  (table, omap (row_receipt now) (sort_by row_order (map_to_list table))).

(** src/job_receipts.rs: the adapter, whose statements are taken to succeed. *)
#[export] Instance SqliteJobReceiptStore : JobReceiptStore receipt_table := {|
  store_upsert := fun table r now =>
    let '(table, res) := upsert_job_receipt table r now in
    (table, map_err (fun _ => lit "Job receipt write failed") res);
  store_load := fun table now => let '(table, receipts) := load_job_receipts table now in (table, Ok receipts);
  store_prune := fun table now => (prune_job_receipts table now, Ok tt)
|}.
End Store.
