(* ===== verification/ReceiptFacts.v ===== *)
(** * ReceiptFacts: a terminal Job survives a restart of the Server

    A receipt stays valid until it expires; the table keeps the first receipt of a
    Job and the newest ones of each Runner; a starting Server rebuilds exactly the
    Jobs of the valid receipts, with their verdict, logs and authorization. *)
From S2P Require Import Prelude RustStr Policy Lifecycle ProjectListing JobLog RegistryState JobState ValidationSteps InventoryCheck Samples Reconcile Receipts.

(** ** Receipts *)

Definition receipt_valid (r : RetainedJobReceipt) (now : Z) : Prop := validate_receipt r now = Ok tt.

Record receipt_facts (r : RetainedJobReceipt) (now : Z) : Prop := {
  rf_identity : receipt_identity_ok r now = true;
  rf_partition : receipt_partition_ok r = true;
  rf_owner : is_some_and (fun owner => negb (receipt_text owner 256)) (rc_owner_at_admission r) = false;
  rf_terminal : receipt_terminal_ok (rc_snapshot r) = true;
  rf_project : receipt_project_ok (rc_client_id r) (snap_context (rc_snapshot r)) = true;
  rf_context : receipt_context_ok (rc_snapshot r) = true;
  rf_streams : receipt_stream_ok (snap_stdout (rc_snapshot r)) && receipt_stream_ok (snap_stderr (rc_snapshot r)) = true
}.

Lemma receipt_valid_facts (r : RetainedJobReceipt) (now : Z) : receipt_valid r now <-> receipt_facts r now.
Proof.
  unfold receipt_valid, validate_receipt. split.
  - intros Hv. step_guards Hv.
    repeat match goal with Hx : negb _ = false |- _ => apply negb_false_iff in Hx end. by split.
  - intros [-> -> -> -> -> -> ->]. done.
Qed.

(** Validity ends with the deadline and not before. *)
Lemma receipt_valid_later (r : RetainedJobReceipt) (now now' : Z) :
  receipt_valid r now -> (now <= now' < rc_expires_at r)%Z -> receipt_valid r now'.
Proof.
  rewrite !receipt_valid_facts. intros [Hid ? ? ? ? ? ?] Hn. split; try done. unfold receipt_identity_ok in *.
  apply andb_true_iff in Hid as [Hid _]. apply andb_true_iff in Hid as [Hid He]. apply andb_true_iff in Hid as [Hid Ho].
  apply Z.leb_le in Ho. rewrite Hid, He, (proj2 (Z.leb_le _ _)), (proj2 (Z.ltb_lt _ _)) by lia. done.
Qed.

Lemma receipt_expiry (r : RetainedJobReceipt) (now : Z) : receipt_valid r now -> (now < rc_expires_at r)%Z.
Proof.
  rewrite receipt_valid_facts. intros [Hid _ _ _ _ _ _]. unfold receipt_identity_ok in Hid.
  apply andb_true_iff in Hid as [_ Hid]. by apply Z.ltb_lt.
Qed.

Lemma receipt_lifecycle (r : RetainedJobReceipt) (now : Z) :
  receipt_valid r now -> exists l, from_wire (snap_status (rc_snapshot r)) = Ok l /\ is_terminal l = true.
Proof.
  rewrite receipt_valid_facts. intros [_ _ _ Ht _ _ _]. unfold receipt_terminal_ok in Ht.
  destruct (from_wire _) as [l|]; [ | done]. exists l. split; [done | ]. by destruct (is_terminal l).
Qed.

(** ** Rows *)

Section Rows.
Context `{SnapshotJson}.

Lemma receipt_text_len (s : str) (max : Z) : receipt_text s max = true -> (str_len s <= max)%Z.
Proof. unfold receipt_text. rewrite !andb_true_iff, Z.leb_le. tauto. Qed.

Lemma auth_columns_roundtrip (r : RetainedJobReceipt) :
  auth_from_columns (fst (auth_columns r)) (snd (auth_columns r)) (rc_owner_at_admission r) = Some (rc_auth_group r).
Proof. unfold auth_columns. destruct (rc_auth_group r) as [[g|g|]|]; [done .. | ]. by destruct (rc_owner_at_admission r). Qed.

Lemma receipt_columns_bounded (r : RetainedJobReceipt) (now : Z) (payload : str) :
  receipt_valid r now -> columns_bounded (snap_job_id (rc_snapshot r)) (receipt_row r payload) = true.
Proof.
  rewrite receipt_valid_facts. intros [Hid Hp Ho _ _ _ _]. unfold receipt_identity_ok in Hid.
  rewrite !andb_true_iff in Hid. destruct Hid as [[[[[[[[[H1 H2] H3] _] H5] _] _] _] _] _].
  apply receipt_text_len in H1, H2, H3, H5. unfold columns_bounded. cbn.
  rewrite !(proj2 (Z.leb_le _ _)) by done. cbn [andb].
  assert (Hk : Z.leb (str_len (fst (auth_columns r))) 32 = true
    /\ is_none_or (fun p => Z.leb (str_len p) 256) (snd (auth_columns r)) = true).
  { unfold auth_columns, receipt_partition_ok in *. destruct (rc_auth_group r) as [[g|g|]|]; cbn.
    - apply andb_true_iff in Hp as [Hp _]. apply Z.eqb_eq in Hp. split; [done | apply Z.leb_le; lia].
    - apply receipt_text_len in Hp. split; [done | by apply Z.leb_le].
    - done.
    - by destruct (is_some _). }
  destruct Hk as [-> ->]. cbn [andb]. rewrite (proj2 (Z.leb_le _ _) H5), andb_true_r.
  destruct (rc_owner_at_admission r) as [o|]; [ | done]. cbn in *.
  apply negb_false_iff, receipt_text_len in Ho. by apply Z.leb_le.
Qed.

(** A stored receipt reads back as it was, until it expires. *)
Lemma row_receipt_roundtrip (r : RetainedJobReceipt) (now : Z) (payload : str) :
  receipt_valid r now -> snapshot_to_string (rc_snapshot r) = Ok payload ->
  (str_len payload <= JOB_RECEIPT_PAYLOAD_MAX_BYTES)%Z ->
  row_receipt now (snap_job_id (rc_snapshot r), receipt_row r payload) = Some r.
Proof.
  intros Hv Hs Hl. unfold row_receipt. rewrite (receipt_columns_bounded r now) by done. cbn [negb].
  unfold receipt_row.
  cbn [row_client_id row_runner_instance_id row_auth_kind row_auth_partition row_owner_at_admission row_kind row_snapshot
       row_terminal_observed_at row_expires_at].
  rewrite auth_columns_roundtrip, (proj2 (Z.leb_le _ _) Hl). cbn [mbind option_bind].
  rewrite (snapshot_roundtrip _ _ Hs). cbn [mbind option_bind]. rewrite beq_refl. cbn [negb orb].
  unfold receipt_valid in Hv. destruct r. cbn in *. by rewrite Hv.
Qed.

(** What is read is valid and is the Job of its row. *)
Lemma row_receipt_valid (now : Z) (id : str) (row : ReceiptRow) (r : RetainedJobReceipt) :
  row_receipt now (id, row) = Some r -> receipt_valid r now /\ snap_job_id (rc_snapshot r) = id.
Proof.
  unfold row_receipt. destruct (negb _); [done | ]. destruct (auth_from_columns _ _ _) as [g|]; [ | done]. cbn [mbind option_bind].
  destruct (Z.leb _ _); [ | done]. cbn [mbind option_bind]. destruct (snapshot_from_str _) as [s|]; [ | done].
  cbn [mbind option_bind]. destruct (_ || _) eqn:E; [done | ]. intros [= <-]. apply orb_false_iff in E as [E1 E2].
  apply negb_false_iff, beq_true in E1. apply negb_false_iff in E2. split; [ | done]. unfold receipt_valid.
  by destruct (validate_receipt _ now) as [[]|].
Qed.
End Rows.

(** ** Capture and rebuilding *)

(** The Job a restarted Server has in place of [job]: the same request, verdict, logs
    and authorization; what only a live Server uses is gone, and the recovery and
    observation states are those of a reconciled Job with a deadline. *)
Definition restored_job (epoch : str) (now : Z) (job : ShellJobRecord) : ShellJobRecord :=
  job <| detached_idempotency_intent := None |>
      <| codex := None |>
      <| validation := None |>
      <| activity := None |>
      <| recovery := mkRecovery (Some Reconciled) true (Some now) (Some ServerRestartReconciliation) None |>
      <| observation :=
           mkObservation epoch 0 (terminal_observed_at (observation job)) false false
             ((fun t => i64_sat_add t JOB_TERMINAL_RETENTION_SECS) <$> terminal_observed_at (observation job)) |>.

Lemma capture_spec (job : ShellJobRecord) (now : Z) (r : RetainedJobReceipt) :
  capture job now = Some r ->
  receipt_valid r now /\ visibility job = Public /\ is_terminal (lifecycle job) = true
  /\ exists observed rid, terminal_observed_at (observation job) = Some observed /\ request_id job = Some rid
  /\ r = mkReceipt (client_id job) (runner_instance_id job) (auth_group job) (owner_at_admission job) (kind job)
           (capture_snapshot job rid) observed (i64_sat_add observed JOB_TERMINAL_RETENTION_SECS).
Proof.
  unfold capture. destruct (_ || _) eqn:E; [done | ]. rewrite !orb_false_iff, !negb_false_iff in E. destruct E as [[E1 E2] _].
  apply beq_true in E1. destruct (terminal_observed_at _) as [o|]; [ | done]. cbn [mbind option_bind].
  destruct (request_id job) as [rid|]; [ | done]. cbn [mbind option_bind].
  destruct (validate_receipt _ now) as [[]|] eqn:Ev; [ | done]. intros [= <-]. split; [done | ]. eauto 10.
Qed.

(** A captured receipt rebuilds the Job it was captured from. *)
Lemma hydrated_captured (job : ShellJobRecord) (seen now : Z) (epoch : str) (r : RetainedJobReceipt) :
  capture job seen = Some r -> hydrated_job epoch r now = Some (restored_job epoch now job).
Proof.
  intros (_ & Hv & Ht & o & rid & Ho & Hr & ->)%capture_spec.
  unfold hydrated_job, record_from_snapshot, expect_lifecycle, observe_job_terminal. cbn [rc_snapshot capture_snapshot snap_status].
  rewrite from_as_wire. cbn -[i64_sat_add]. rewrite Ht. destruct job as [? ? ? ? ? ? ? ? ? ? ? ? ? ? ? ? ? ? ? ? ? ? out err].
  cbn -[i64_sat_add] in *. subst. unfold restored_job. cbn -[i64_sat_add]. rewrite Ho. by destruct out, err.
Qed.

(** A valid receipt can always be rebuilt, into a terminal public Job. *)
Lemma hydrated_valid (epoch : str) (r : RetainedJobReceipt) (now : Z) :
  receipt_valid r now ->
  exists job, hydrated_job epoch r now = Some job /\ job_id job = snap_job_id (rc_snapshot r)
    /\ is_terminal (lifecycle job) = true /\ visibility job = Public /\ auth_group job = rc_auth_group r
    /\ receipt_expires_at (observation job) = Some (rc_expires_at r).
Proof.
  intros (l & Hl & Ht)%receipt_lifecycle. unfold hydrated_job, record_from_snapshot, expect_lifecycle, observe_job_terminal.
  rewrite Hl. cbn. rewrite Ht. cbn. eexists. split_and!; reflexivity || done.
Qed.

(** Hydration never panics on valid receipts with distinct Jobs, and the Jobs it makes
    are exactly the receipts'. *)
Lemma hydrate_spec (epoch : str) (now : Z) (receipts : list RetainedJobReceipt) (inner : RunnerRegistryInner) :
  Forall (fun r => receipt_valid r now) receipts ->
  NoDup ((fun r => snap_job_id (rc_snapshot r)) <$> receipts) ->
  (forall r, r ∈ receipts -> jobs_by_id inner !! snap_job_id (rc_snapshot r) = None) ->
  exists jobs, hydrate epoch now receipts inner = Some (inner <| jobs_by_id := jobs |>)
    /\ forall id, jobs !! id =
         match list_find (fun r => snap_job_id (rc_snapshot r) = id) receipts with
         | Some (_, r) => hydrated_job epoch r now
         | None => jobs_by_id inner !! id
         end.
Proof.
  revert inner. induction receipts as [|r rest IH]; intros inner Hv Hn Hf.
  { exists (jobs_by_id inner). split; [by destruct inner | done]. }
  apply Forall_cons in Hv as [Hr Hv]. rewrite fmap_cons, NoDup_cons in Hn. destruct Hn as [Hfresh Hn].
  destruct (hydrated_valid epoch r now Hr) as (job & Hj & Hid & _). cbn [hydrate]. unfold hydrate_one.
  rewrite Hr, Hj. cbn [mbind option_bind]. rewrite Hid, Hf by apply elem_of_cons, or_introl, eq_refl.
  destruct (IH (inner <| jobs_by_id := <[snap_job_id (rc_snapshot r) := job]> (jobs_by_id inner) |>)) as (jobs & Hh & Hl);
    [done | done | | ].
  { intros r' Hr'. cbn. rewrite lookup_insert_ne; [apply Hf, elem_of_cons; by right | ].
    intros He. apply Hfresh. rewrite He. by apply (list_elem_of_fmap_2 (fun r => snap_job_id (rc_snapshot r))). }
  exists jobs. split; [by rewrite Hh | ]. intros id. rewrite Hl. cbn.
  destruct (decide (snap_job_id (rc_snapshot r) = id)) as [<-|Hne].
  - destruct (list_find _ rest) as [[i r']|] eqn:El; cbn.
    + exfalso. apply list_find_Some in El as (El & He & _). apply Hfresh. rewrite <- He.
      by eapply (list_elem_of_fmap_2 (fun r => snap_job_id (rc_snapshot r))), list_elem_of_lookup_2.
    + by rewrite lookup_insert_eq, Hj.
  - rewrite lookup_insert_ne by done. by destruct (list_find _ rest) as [[i r']|].
Qed.

(** ** The table *)

Lemma row_before_irrefl (e : str * ReceiptRow) : row_before e e = false.
Proof. unfold row_before. rewrite Z.ltb_irrefl, Z.eqb_refl, str_leb_refl. done. Qed.

Lemma row_before_trans (a b c : str * ReceiptRow) :
  row_before a b = true -> row_before b c = true -> row_before a c = true.
Proof.
  unfold row_before. rewrite !orb_true_iff, !andb_true_iff, !negb_true_iff, !Z.ltb_lt, !Z.eqb_eq.
  intros [H1|[H1 H2]] [H3|[H3 H4]]; [left; lia .. | ]. right. split; [lia | ].
  destruct (str_leb (fst a) (fst c)) eqn:E; [ | done].
  destruct (str_leb_total (fst b) (fst c)) as [Hb|Hb]; [congruence | ].
  by rewrite (str_leb_trans _ _ _ E Hb) in H2.
Qed.

Lemma row_before_total (a b : str * ReceiptRow) : fst a <> fst b -> row_before a b = true \/ row_before b a = true.
Proof.
  intros Hne. unfold row_before. rewrite !orb_true_iff, !andb_true_iff, !negb_true_iff, !Z.ltb_lt, !Z.eqb_eq.
  destruct (Z.lt_total (row_terminal_observed_at (snd a)) (row_terminal_observed_at (snd b))) as [?|[?|?]]; [tauto | | tauto].
  destruct (str_leb (fst a) (fst b)) eqn:E1, (str_leb (fst b) (fst a)) eqn:E2; [ | intuition lia .. | ].
  - by destruct Hne; apply str_leb_antisym.
  - by destruct (str_leb_total (fst a) (fst b)); congruence.
Qed.

Lemma rows_before_mono (t t' : receipt_table) (e : str * ReceiptRow) : t ⊆ t' -> rows_before t e <= rows_before t' e.
Proof. intros Hs. by apply map_subseteq_size, map_filter_subseteq_mono. Qed.

Lemma in_excess_mono (t t' : receipt_table) (e : str * ReceiptRow) :
  t ⊆ t' -> in_excess t' e = false -> in_excess t e = false.
Proof. unfold in_excess. rewrite !Nat.leb_gt. intros Hs. pose proof (rows_before_mono t t' e Hs). lia. Qed.

Lemma rows_before_insert (t : receipt_table) (id : str) (row : ReceiptRow) :
  t !! id = None -> rows_before (<[id := row]> t) (id, row) = rows_before t (id, row).
Proof.
  intros Hn. unfold rows_before. f_equal. rewrite map_filter_insert_False, delete_id; [done | done | ].
  intros [_ Hb]. by rewrite row_before_irrefl in Hb.
Qed.

Lemma prune_expired_subseteq (t : receipt_table) (now : Z) : prune_expired t now ⊆ t.
Proof. apply map_filter_subseteq. Qed.

(** The receipts of one Runner. *)
Definition runner_rows (t : receipt_table) (cid : str) : receipt_table :=
  filter (fun e => row_client_id (snd e) = cid) t.

(** A finite nonempty set of rows has a last one. *)
Lemma last_row (l : list (str * ReceiptRow)) (e : str * ReceiptRow) :
  NoDup (fst <$> e :: l) -> exists m, m ∈ e :: l /\ forall x, x ∈ e :: l -> x <> m -> row_before x m = true.
Proof.
  revert e. induction l as [|y l IH]; intros e Hn.
  { exists e. split; [apply list_elem_of_here | ]. intros x Hx Hne. by apply list_elem_of_singleton in Hx. }
  rewrite fmap_cons, NoDup_cons in Hn. destruct Hn as [He Hn]. destruct (IH y Hn) as (m & Hm & Hall).
  assert (Hne : fst e <> fst m) by (intros Heq; apply He; rewrite Heq; by apply list_elem_of_fmap_2).
  destruct (row_before_total e m Hne) as [Hb|Hb].
  - exists m. split; [by apply elem_of_cons; right | ]. intros x [->|Hx]%elem_of_cons Hx'; [done | by apply Hall].
  - exists e. split; [apply list_elem_of_here | ]. intros x [->|Hx]%elem_of_cons Hx'; [done | ].
    destruct (decide (x = m)) as [->|Hxm]; [done | ]. by apply (row_before_trans _ m); [apply Hall | ].
Qed.

(** Rows with fewer than [n] newer rows of their Runner are at most [n]. *)
Lemma trimmed_bound (t : receipt_table) (cid : str) :
  map_Forall (fun id row => row_client_id row = cid -> in_excess t (id, row) = false) t ->
  size (runner_rows t cid) <= JOB_INVENTORY_MAX_TERMINAL_JOBS.
Proof.
  intros Hall. rewrite <- length_map_to_list.
  pose proof (NoDup_fst_map_to_list (runner_rows t cid)) as Hn.
  destruct (map_to_list (runner_rows t cid)) as [|e l] eqn:El; [cbn; unfold JOB_INVENTORY_MAX_TERMINAL_JOBS; lia | ].
  destruct (last_row l e Hn) as ([id row] & Hm & Hlast).
  assert (Hin : runner_rows t cid !! id = Some row) by (apply elem_of_map_to_list; by rewrite El).
  apply map_lookup_filter_Some in Hin as [Hin Hc]. cbn in Hc. pose proof (Hall id row Hin Hc) as He.
  unfold in_excess in He. apply Nat.leb_gt in He. rewrite <- El, length_map_to_list.
  enough (size (runner_rows t cid) <= S (rows_before t (id, row))) by lia.
  transitivity (size (<[id := row]> (filter (fun a => row_client_id (snd a) = row_client_id row /\ row_before a (id, row) = true) t))).
  - apply map_subseteq_size, map_subseteq_spec. intros k r Hk.
    destruct (decide (k = id)) as [->|Hne].
    + rewrite lookup_insert_eq. apply map_lookup_filter_Some in Hk as [Hk _]. congruence.
    + rewrite lookup_insert_ne by done. pose proof Hk as Hk'. apply map_lookup_filter_Some in Hk' as [Hk1 Hk2].
      apply map_lookup_filter_Some. cbn in *. split; [done | ]. split; [congruence | ].
      apply Hlast; [rewrite <- El; by apply elem_of_map_to_list | congruence].
  - unfold rows_before. cbn [snd].
    set (f := filter _ t). destruct (f !! id) eqn:Ef; [rewrite map_size_insert_Some by eauto; lia | ].
    rewrite map_size_insert_None by done. lia.
Qed.

Lemma lookup_trim_runner (t : receipt_table) (cid id : str) (row : ReceiptRow) :
  trim_runner t cid !! id = Some row <->
  t !! id = Some row /\ (row_client_id row = cid -> in_excess t (id, row) = false).
Proof.
  unfold trim_runner. rewrite map_lookup_filter_Some. cbn. rewrite andb_false_iff, beq_neq.
  destruct (in_excess t (id, row)), (decide (row_client_id row = cid)); intuition congruence.
Qed.

Lemma lookup_trim_history (t : receipt_table) (id : str) (row : ReceiptRow) :
  trim_history t !! id = Some row <-> t !! id = Some row /\ in_excess t (id, row) = false.
Proof. unfold trim_history. by rewrite map_lookup_filter_Some. Qed.

Lemma lookup_prune_expired (t : receipt_table) (now : Z) (id : str) (row : ReceiptRow) :
  prune_expired t now !! id = Some row <-> t !! id = Some row /\ (now < row_expires_at row)%Z.
Proof. unfold prune_expired. by rewrite map_lookup_filter_Some. Qed.

Lemma trim_runner_subseteq (t : receipt_table) (cid : str) : trim_runner t cid ⊆ t.
Proof. apply map_filter_subseteq. Qed.

Lemma runner_rows_mono (t t' : receipt_table) (cid : str) :
  t ⊆ t' -> size (runner_rows t cid) <= size (runner_rows t' cid).
Proof. intros Hs. by apply map_subseteq_size, map_filter_subseteq_mono. Qed.

Section Table.
Context `{SnapshotJson}.

(** What a load returns: the valid receipts of the rows it keeps, one per Job. *)
Lemma load_spec (t t2 : receipt_table) (now : Z) (receipts : list RetainedJobReceipt) :
  load_job_receipts t now = (t2, receipts) ->
  t2 = trim_history (prune_expired t now)
  /\ Forall (fun r => receipt_valid r now) receipts
  /\ NoDup ((fun r => snap_job_id (rc_snapshot r)) <$> receipts)
  /\ forall r, r ∈ receipts <->
       exists row, t2 !! snap_job_id (rc_snapshot r) = Some row
         /\ row_receipt now (snap_job_id (rc_snapshot r), row) = Some r.
Proof.
  unfold load_job_receipts. intros [= <- <-]. set (t2 := trim_history _). split; [done | ].
  assert (Hin : forall r, r ∈ omap (row_receipt now) (sort_by row_order (map_to_list t2)) <->
    exists row, t2 !! snap_job_id (rc_snapshot r) = Some row /\ row_receipt now (snap_job_id (rc_snapshot r), row) = Some r).
  { intros r. rewrite list_elem_of_omap. split.
    - intros ([id row] & Hm & Hr). rewrite sort_by_perm, elem_of_map_to_list in Hm.
      destruct (row_receipt_valid now id row r Hr) as [_ <-]. by exists row.
    - intros (row & Hl & Hr). eexists. split; [ | exact Hr]. by rewrite sort_by_perm, elem_of_map_to_list. }
  split_and!; [ | | done].
  - apply Forall_forall. intros r (row & _ & Hr)%Hin. by apply row_receipt_valid in Hr as [? _].
  - pose proof (NoDup_fst_map_to_list t2) as Hn. rewrite <- (sort_by_perm row_order (map_to_list t2)) in Hn.
    clear Hin. induction (sort_by _ _) as [|[id row] l IH]; [constructor | ].
    rewrite fmap_cons, NoDup_cons in Hn. destruct Hn as [Hid Hn]. cbn [omap list_omap].
    destruct (row_receipt now (id, row)) as [r|] eqn:Er; [ | by apply IH].
    rewrite fmap_cons. apply NoDup_cons. split; [ | by apply IH]. destruct (row_receipt_valid now id row r Er) as [_ ->].
    intros (r' & -> & ([id' row'] & Hl & Hr)%list_elem_of_omap)%list_elem_of_fmap.
    apply Hid. destruct (row_receipt_valid now id' row' r' Hr) as [_ ->].
    apply (list_elem_of_fmap_2 fst) in Hl. exact Hl.
Qed.

(** The registry of a starting Server: exactly the Jobs of the receipts it loaded. *)
Lemma restart_spec (t : receipt_table) (epoch : str) (now : Z) :
  exists jobs, with_job_receipt_store t epoch now
    = Some (RunnerRegistryInner_default <| jobs_by_id := jobs |>, trim_history (prune_expired t now))
  /\ forall id, jobs !! id =
       (row ← trim_history (prune_expired t now) !! id; r ← row_receipt now (id, row); hydrated_job epoch r now).
Proof.
  unfold with_job_receipt_store. cbn [store_load SqliteJobReceiptStore].
  destruct (load_job_receipts t now) as [t2 receipts] eqn:El. destruct (load_spec _ _ _ _ El) as (-> & Hv & Hn & Hin).
  destruct (hydrate_spec epoch now receipts RunnerRegistryInner_default Hv Hn) as (jobs & -> & Hj); [done | ].
  exists jobs. split; [done | ]. intros id. rewrite Hj.
  destruct (list_find _ receipts) as [[i r]|] eqn:Ef; cbn [mbind option_bind].
  - apply list_find_Some in Ef as (Hr & Hid & _). apply list_elem_of_lookup_2, Hin in Hr as (row & Hl & Hr).
    rewrite Hid in Hl, Hr. rewrite Hl. cbn [mbind option_bind]. by rewrite Hr.
  - apply list_find_None in Ef. destruct (trim_history _ !! id) as [row|] eqn:Hl; [ | done]. cbn [mbind option_bind].
    destruct (row_receipt now (id, row)) as [r|] eqn:Hr; [ | done]. exfalso.
    destruct (row_receipt_valid now id row r Hr) as [_ Hid]. rewrite Forall_forall in Ef.
    apply (Ef r); [ | done]. apply Hin. exists row. by rewrite Hid.
Qed.

(** What a successful write does. *)
Lemma upsert_spec (t t1 : receipt_table) (r : RetainedJobReceipt) (now : Z) :
  upsert_job_receipt t r now = (t1, Ok tt) ->
  receipt_valid r now /\ exists payload, snapshot_to_string (rc_snapshot r) = Ok payload
  /\ (str_len payload <= JOB_RECEIPT_PAYLOAD_MAX_BYTES)%Z
  /\ t1 = trim_runner (insert_new (prune_expired t now) (snap_job_id (rc_snapshot r)) (receipt_row r payload)) (rc_client_id r).
Proof.
  unfold upsert_job_receipt, receipt_valid. destruct (validate_receipt r now) as [[]|]; [ | done]. cbn [result_bind].
  destruct (snapshot_to_string _) as [payload|]; [ | done]. cbn [result_bind].
  destruct (Z.ltb JOB_RECEIPT_PAYLOAD_MAX_BYTES (str_len payload)) eqn:E; [done | ]. apply Z.ltb_ge in E. intros [= <-]. eauto.
Qed.

Lemma upsert_keeps (t t1 : receipt_table) (r : RetainedJobReceipt) (now : Z) (payload : str) :
  upsert_job_receipt t r now = (t1, Ok tt) -> snapshot_to_string (rc_snapshot r) = Ok payload ->
  t !! snap_job_id (rc_snapshot r) = None ->
  rows_before t (snap_job_id (rc_snapshot r), receipt_row r payload) < JOB_INVENTORY_MAX_TERMINAL_JOBS ->
  t1 !! snap_job_id (rc_snapshot r) = Some (receipt_row r payload)
  /\ rows_before t1 (snap_job_id (rc_snapshot r), receipt_row r payload) < JOB_INVENTORY_MAX_TERMINAL_JOBS.
Proof.
  intros (_ & payload' & Hs & _ & ->)%upsert_spec Hs' Hn Hr. assert (payload' = payload) as -> by congruence.
  assert (Hp : prune_expired t now !! snap_job_id (rc_snapshot r) = None)
    by (eapply lookup_weaken_None; [done | apply prune_expired_subseteq]).
  set (id := snap_job_id _) in *. set (row := receipt_row _ _) in *. unfold insert_new. rewrite Hp.
  assert (Hlt : rows_before (<[id:=row]> (prune_expired t now)) (id, row) < JOB_INVENTORY_MAX_TERMINAL_JOBS).
  { rewrite rows_before_insert by done. pose proof (rows_before_mono _ t (id, row) (prune_expired_subseteq t now)). lia. }
  split.
  - apply lookup_trim_runner. split; [by rewrite lookup_insert_eq | ]. intros _. by apply Nat.leb_gt.
  - pose proof (rows_before_mono _ _ (id, row) (trim_runner_subseteq (<[id:=row]> (prune_expired t now)) (rc_client_id r))). lia.
Qed.

(** How many receipts of the same Runner the table holds that are newer than [r]. *)
Definition newer_receipts (t : receipt_table) (r : RetainedJobReceipt) : nat :=
  rows_before t (snap_job_id (rc_snapshot r), receipt_row r []).

(** C30: A terminal Job survives a restart of the Server: once its receipt is captured
    and written, and as long as the receipt has not expired and fewer than the
    retained number of the Runner's receipts are newer, a Server that starts on that
    table has the Job, with the request, verdict, logs, context and authorization the
    first Server had; a Job it has comes from a stored receipt and is terminal. *)
Theorem terminal_job_survives_restart (t t1 : receipt_table) (job : ShellJobRecord) (r : RetainedJobReceipt)
  (seen written now : Z) (epoch : str) :
  capture job seen = Some r ->
  upsert_job_receipt t r written = (t1, Ok tt) ->
  t !! job_id job = None ->
  newer_receipts t r < JOB_INVENTORY_MAX_TERMINAL_JOBS ->
  (written <= now < rc_expires_at r)%Z ->
  exists inner t2, with_job_receipt_store t1 epoch now = Some (inner, t2)
    /\ jobs_by_id inner !! job_id job = Some (restored_job epoch now job)
    /\ map_Forall (fun id j => is_some (t1 !! id) = true /\ is_terminal (lifecycle j) = true) (jobs_by_id inner).
Proof.
  intros Hc Hu Hn Hr Hw. pose proof Hc as (Hval & _ & _ & o & rid & _ & _ & Er)%capture_spec.
  assert (Hid : snap_job_id (rc_snapshot r) = job_id job) by by rewrite Er.
  destruct (upsert_spec _ _ _ _ Hu) as (Hv & payload & Hs & Hl & _). rewrite <- Hid in *.
  destruct (upsert_keeps _ _ _ _ _ Hu Hs Hn Hr) as [Hk Hb].
  destruct (restart_spec t1 epoch now) as (jobs & -> & Hj). eexists _, _. split; [done | ]. split.
  - cbn. rewrite Hj.
    assert (trim_history (prune_expired t1 now) !! snap_job_id (rc_snapshot r) = Some (receipt_row r payload)) as ->.
    { apply lookup_trim_history. split; [apply lookup_prune_expired; split; [done | cbn; lia] | ].
      eapply in_excess_mono; [apply prune_expired_subseteq | by apply Nat.leb_gt]. }
    cbn [mbind option_bind]. rewrite row_receipt_roundtrip; [ | by apply (receipt_valid_later r written) | done | done].
    cbn [mbind option_bind]. by apply (hydrated_captured job seen).
  - cbn. intros id j Hl'. rewrite Hj in Hl'. destruct (trim_history _ !! id) as [row|] eqn:Ht; [ | done].
    cbn [mbind option_bind] in Hl'. destruct (row_receipt now (id, row)) as [r'|] eqn:Hr'; [ | done]. cbn [mbind option_bind] in Hl'.
    apply lookup_trim_history in Ht as [[Ht _]%lookup_prune_expired _]. rewrite Ht. split; [done | ].
    destruct (row_receipt_valid _ _ _ _ Hr') as [Hv' _]. destruct (hydrated_valid epoch r' now Hv') as (j' & Hj' & _ & Ht' & _).
    congruence.
Qed.
End Table.

(** ** Histories of the table *)

Section Histories.
Context `{SnapshotJson}.

(** One call of the store at time [now]. *)
Inductive store_step (now : Z) (t : receipt_table) : receipt_table -> Prop :=
| store_step_upsert (r : RetainedJobReceipt) : store_step now t (fst (upsert_job_receipt t r now))
| store_step_load : store_step now t (fst (load_job_receipts t now))
| store_step_prune : store_step now t (prune_job_receipts t now).

Inductive store_reachable : receipt_table -> Prop :=
| store_initial : store_reachable ∅
| store_next (t t' : receipt_table) (now : Z) : store_reachable t -> store_step now t t' -> store_reachable t'.

(** A row some write made of a valid receipt. *)
Definition row_of_receipt (id : str) (row : ReceiptRow) (r : RetainedJobReceipt) (written : Z) : Prop :=
  receipt_valid r written /\ snap_job_id (rc_snapshot r) = id
  /\ exists payload, snapshot_to_string (rc_snapshot r) = Ok payload
     /\ (str_len payload <= JOB_RECEIPT_PAYLOAD_MAX_BYTES)%Z /\ row = receipt_row r payload.

(** Every row of the result is an old one or the first receipt of its Job. *)
Lemma store_step_rows (now : Z) (t t' : receipt_table) (id : str) (row : ReceiptRow) :
  store_step now t t' -> t' !! id = Some row ->
  (now < row_expires_at row)%Z
  /\ (t !! id = Some row
      \/ ((forall old, t !! id = Some old -> (row_expires_at old <= now)%Z) /\ exists r, row_of_receipt id row r now))
  \/ t' = t.
Proof.
  intros [r| |] Hl.
  - destruct (upsert_job_receipt t r now) as [t1 [[]|e]] eqn:Hu; cbn in *.
    2: { right. revert Hu. unfold upsert_job_receipt. by case_match; intros [= <- _]. }
    left. destruct (upsert_spec _ _ _ _ Hu) as (Hv & payload & Hs & Hlen & ->).
    apply lookup_trim_runner in Hl as [Hl _]. unfold insert_new in Hl.
    destruct (prune_expired t now !! snap_job_id (rc_snapshot r)) as [old|] eqn:Hp.
    { apply lookup_prune_expired in Hl as [Hl Hx]. tauto. }
    destruct (decide (id = snap_job_id (rc_snapshot r))) as [->|Hne].
    + rewrite lookup_insert_eq in Hl. injection Hl as <-. split; [by apply receipt_expiry in Hv | right]. split.
      * intros old Ho. destruct (decide (row_expires_at old <= now)%Z) as [?|Hlt]; [done | ]. exfalso.
        assert (prune_expired t now !! snap_job_id (rc_snapshot r) = Some old) by (apply lookup_prune_expired; split; [done | lia]).
        congruence.
      * exists r. split; [done | ]. eauto.
    + rewrite lookup_insert_ne in Hl by done. apply lookup_prune_expired in Hl as [Hl Hx]. tauto.
  - cbn in Hl. apply lookup_trim_history in Hl as [[Hl Hx]%lookup_prune_expired _]. tauto.
  - apply lookup_prune_expired in Hl as [Hl Hx]. tauto.
Qed.

Lemma store_step_bounded (now : Z) (t t' : receipt_table) (cid : str) :
  store_step now t t' -> size (runner_rows t cid) <= JOB_INVENTORY_MAX_TERMINAL_JOBS ->
  size (runner_rows t' cid) <= JOB_INVENTORY_MAX_TERMINAL_JOBS.
Proof.
  intros Hstep Hb.
  assert (Hsub : forall t0, t0 ⊆ t -> size (runner_rows t0 cid) <= JOB_INVENTORY_MAX_TERMINAL_JOBS)
    by (intros t0 Hs; pose proof (runner_rows_mono t0 t cid Hs); lia).
  destruct Hstep as [r| |].
  - destruct (upsert_job_receipt t r now) as [t1 [[]|e]] eqn:Hu; cbn.
    2: { revert Hu. unfold upsert_job_receipt. by case_match; intros [= <- _]. }
    destruct (upsert_spec _ _ _ _ Hu) as (Hv & payload & Hs & Hlen & ->). set (full := insert_new _ _ _).
    destruct (decide (cid = rc_client_id r)) as [->|Hne].
    + apply trimmed_bound. intros id row Hl Hc. apply lookup_trim_runner in Hl as [_ Hl].
      eapply in_excess_mono; [apply trim_runner_subseteq | by apply Hl].
    + transitivity (size (runner_rows (prune_expired t now) cid)); [ | apply Hsub, prune_expired_subseteq].
      apply map_subseteq_size, map_subseteq_spec. intros id row [Hl Hc]%map_lookup_filter_Some.
      apply map_lookup_filter_Some. split; [ | done]. apply lookup_trim_runner in Hl as [Hl _]. subst full.
      unfold insert_new in Hl. destruct (prune_expired t now !! snap_job_id (rc_snapshot r)); [done | ].
      apply lookup_insert_Some in Hl as [[_ <-]|[_ Hl]]; [by destruct Hne | done].
  - apply Hsub. cbn. transitivity (prune_expired t now); [apply map_filter_subseteq | apply prune_expired_subseteq].
  - apply Hsub, prune_expired_subseteq.
Qed.

(** The receipt table through any history of writes, loads and prunes: a Runner
    never has more than the retained number of receipts; every row is a receipt that
    was valid when it was written and reads back as that receipt until it expires;
    and a further call never changes the row of a Job that has not expired (the first
    receipt of a Job stands). *)
Lemma receipt_table_history (t : receipt_table) (Hr : store_reachable t) :
  (forall cid, size (runner_rows t cid) <= JOB_INVENTORY_MAX_TERMINAL_JOBS)
  /\ map_Forall (fun id row => exists r written, row_of_receipt id row r written
       /\ forall now, (written <= now < rc_expires_at r)%Z -> row_receipt now (id, row) = Some r) t
  /\ forall now t', store_step now t t' ->
       map_Forall (fun id row => forall row', t' !! id = Some row' -> (now < row_expires_at row)%Z -> row' = row) t.
Proof.
  split_and!.
  - intros cid. induction Hr as [|t t' now Ht IH Hs]; [ | by eapply store_step_bounded].
    unfold runner_rows. rewrite map_filter_empty, map_size_empty. lia.
  - cut (map_Forall (fun id row => exists r written, row_of_receipt id row r written) t).
    { intros Hall id row Hl. destruct (Hall id row Hl) as (r & w & Hrow). exists r, w. split; [done | ].
      destruct Hrow as (Hv & <- & payload & Hs & Hlen & ->). intros now Hn.
      apply row_receipt_roundtrip; [by apply (receipt_valid_later r w) | done | done]. }
    induction Hr as [|t t' now Ht IH Hs]; [apply map_Forall_empty | ]. intros id row Hl.
    destruct (store_step_rows _ _ _ _ _ Hs Hl) as [(_ & [Ho|(_ & r & Hrow)])| ->]; eauto.
  - intros now t' Hs id row Hl row' Hl' Hx.
    destruct (store_step_rows _ _ _ _ _ Hs Hl') as [(_ & [Ho|(Hexp & _)])| ->]; [congruence | | congruence].
    specialize (Hexp _ Hl). lia.
Qed.
End Histories.

(** ** A concrete restart *)

#[local] Instance stream_snapshot_eq_dec : EqDecision ShellJobStreamSnapshot.
Proof. solve_decision. Defined.
#[local] Instance job_context_eq_dec : EqDecision ShellJobContext.
Proof. solve_decision. Defined.
#[local] Instance job_snapshot_eq_dec : EqDecision ShellJobSnapshot.
Proof. solve_decision. Defined.

(** A Job of Runner "r1" that completed at second 200 with one line of output. *)
Definition finished_job : ShellJobRecord :=
  sample_job (lit "a") Completed JobRecoveryState_default
    <| ended_at := Some 199%Z |> <| exit_code := Some 0%Z |>
    <| stdout := mkLog (lit "ok" ++ [LF]) 1 2 false |>
    <| observation := JobObservationState_new (lit "epoch") <| terminal_observed_at := Some 200%Z |>
                                                            <| is_receipt_candidate := true |> |>.

(** A serializer that knows one snapshot. *)
#[local] Program Instance finished_json : SnapshotJson := {|
  snapshot_to_string s :=
    if decide (s = capture_snapshot finished_job (lit "req-a")) then Ok (lit "{}") else Err (lit "unknown");
  snapshot_from_str text := Some (capture_snapshot finished_job (lit "req-a"))
|}.
Next Obligation. intros s text Hs. cbn in Hs. by case_decide; subst. Qed.

Definition finished_receipt : RetainedJobReceipt :=
  mkReceipt (lit "r1") (lit "i1") None (Some (lit "ann")) (lit "shell") (capture_snapshot finished_job (lit "req-a"))
    200 (i64_sat_add 200 JOB_TERMINAL_RETENTION_SECS).

Definition finished_table : receipt_table := fst (upsert_job_receipt ∅ finished_receipt 201).

Lemma terminal_job_survives_restart_witness :
  capture finished_job 201 = Some finished_receipt
  /\ exists inner t2, with_job_receipt_store finished_table (lit "epoch2") 500 = Some (inner, t2)
    /\ jobs_by_id inner !! lit "a" = Some (restored_job (lit "epoch2") 500 finished_job)
    /\ map_Forall (fun id j => is_some (finished_table !! id) = true /\ is_terminal (lifecycle j) = true) (jobs_by_id inner).
Proof.
  split; [vm_compute; reflexivity | ].
  apply (terminal_job_survives_restart ∅ finished_table finished_job finished_receipt 201 201 500 (lit "epoch2")).
  - vm_compute. reflexivity.
  - vm_compute. reflexivity.
  - vm_compute. reflexivity.
  - apply Nat.ltb_lt. vm_compute. reflexivity.
  - vm_compute. split; [discriminate | reflexivity].
Defined.

Lemma receipt_table_history_witness :
  finished_table !! lit "a" = Some (receipt_row finished_receipt (lit "{}"))
  /\ size (runner_rows finished_table (lit "r1")) <= JOB_INVENTORY_MAX_TERMINAL_JOBS.
Proof.
  split; [vm_compute; reflexivity | ].
  apply (receipt_table_history finished_table). apply (store_next ∅ _ 201); [apply store_initial | apply store_step_upsert].
Defined.
