(* ===== verification/Sql.v ===== *)
(** * Sql: tables, transactions and their weakest preconditions

    What the store's modules use of SQLite through rusqlite: a table is the list of
    its rows in rowid order, a statement is a function on such lists, and a
    transaction is a computation that either commits its last state or, when it
    returns an error, leaves the database as it was. *)
From S2P Require Import Prelude.

(** ** Tables *)

(** [UPDATE t SET set WHERE where]. *)
Definition rows_update {A : Type} (sel : A -> bool) (upd : A -> A) (t : list A) : list A :=
  map (fun row => if sel row then upd row else row) t.

(** The number of rows a statement changed, as [execute] returns it. *)
Definition rows_matched {A : Type} (sel : A -> bool) (t : list A) : nat := length (List.filter sel t).

(** [SELECT ... ORDER BY key DESC, rowid DESC LIMIT 1]. *)
Definition latest_by {A : Type} (key : A -> Z) (t : list A) : option A :=
  fold_left (fun best row => match best with
                             | Some b => if Z.leb (key b) (key row) then Some row else best
                             | None => Some row
                             end) t None.

(** [n as i64] of a [usize]. *)
Definition as_i64 (n : Z) : Z :=
  let m := (n mod 2 ^ 64)%Z in if Z.ltb m (2 ^ 63) then m else (m - 2 ^ 64)%Z.

(** [LIMIT n], which a negative number lifts. *)
Definition limit_rows {A : Type} (n : Z) (t : list A) : list A := if Z.ltb n 0 then t else take (Z.to_nat n) t.

(** [COALESCE(a, b)]. *)
Abbreviation coalesce := or_else.

Section Rows.
Context {A : Type}.
Implicit Types (t : list A) (p sel : A -> bool) (upd : A -> A).

Lemma rows_update_elem t sel upd (row : A) :
  row ∈ rows_update sel upd t ->
  exists old, old ∈ t /\ ((sel old = true /\ row = upd old) \/ (sel old = false /\ row = old)).
Proof.
  unfold rows_update. rewrite list_elem_of_In, in_map_iff. intros (old & <- & Ho). exists old.
  rewrite list_elem_of_In. destruct (sel old); auto.
Qed.

Lemma rows_update_hit t sel upd (row : A) : row ∈ t -> sel row = true -> upd row ∈ rows_update sel upd t.
Proof. rewrite !list_elem_of_In. intros Hr Hs. apply in_map_iff. exists row. by rewrite Hs. Qed.

(** A statement that changed a row found one. *)
Lemma rows_matched_hit t sel (n : nat) : negb (Nat.eqb (rows_matched sel t) (S n)) = false -> exists row, row ∈ t /\ sel row = true.
Proof.
  rewrite negb_false_iff, Nat.eqb_eq. unfold rows_matched. intros Hm.
  destruct (List.filter sel t) as [|row l] eqn:Ef; [done | ]. exists row.
  assert (Hin : In row (List.filter sel t)) by (rewrite Ef; by left). apply filter_In in Hin. by rewrite list_elem_of_In.
Qed.

Lemma rows_update_lookup t sel upd (i : nat) :
  rows_update sel upd t !! i = (fun row => if sel row then upd row else row) <$> t !! i.
Proof. apply list_lookup_fmap. Qed.

Lemma rows_update_key {K : Type} (key : A -> K) t sel upd :
  (forall row, key (upd row) = key row) -> map key (rows_update sel upd t) = map key t.
Proof.
  intros Hk. unfold rows_update. rewrite map_map. apply map_ext. intros row. destruct (sel row); auto.
Qed.

Lemma rows_update_Forall (P : A -> Prop) t sel upd :
  (forall row, row ∈ t -> sel row = true -> P row -> P (upd row)) ->
  Forall P t -> Forall P (rows_update sel upd t).
Proof.
  rewrite !Forall_forall. intros Hs Hp row (old & Ho & [[Hw ->]|[Hw ->]])%rows_update_elem; auto.
Qed.

Lemma find_elem p t (row : A) : find p t = Some row -> row ∈ t /\ p row = true.
Proof. rewrite list_elem_of_In. apply find_some. Qed.

Lemma find_elem_none p t (row : A) : find p t = None -> row ∈ t -> p row = false.
Proof. intros Hf Hr. apply (find_none _ _ Hf). by apply list_elem_of_In. Qed.
(** The only row of a table that passes a test is the one found. *)
Lemma find_only p t (x : A) :
  x ∈ t -> p x = true -> (forall y, y ∈ t -> p y = true -> y = x) -> find p t = Some x.
Proof.
  intros Hx Hp Hu. destruct (find p t) as [y|] eqn:Ef.
  - apply find_elem in Ef as [Hy Hpy]. by rewrite (Hu y).
  - by rewrite (find_elem_none _ _ _ Ef Hx) in Hp.
Qed.

Lemma find_app p t t' : find p (t ++ t') = match find p t with Some row => Some row | None => find p t' end.
Proof. induction t as [|r t IH]; [done | ]. cbn. by destruct (p r). Qed.

Lemma find_unique_key {K : Type} `{EqDecision K} (key : A -> K) t (row : A) :
  NoDup (map key t) -> row ∈ t -> find (fun r => key r ==? key row) t = Some row.
Proof.
  induction t as [|r t IH]; intros Hn Hr; [by apply not_elem_of_nil in Hr | ]. cbn in *.
  apply NoDup_cons in Hn as [Hfresh Hn]. apply elem_of_cons in Hr as [->|Hr]; [by rewrite beq_refl | ].
  destruct (key r ==? key row) eqn:E; [ | by apply IH]. apply beq_true in E. exfalso. apply Hfresh. rewrite E.
  by apply (list_elem_of_fmap_2 key).
Qed.

Lemma latest_by_step (key : A -> Z) t (row : A) :
  latest_by key (t ++ [row]) =
  match latest_by key t with
  | Some b => if Z.leb (key b) (key row) then Some row else Some b
  | None => Some row
  end.
Proof. unfold latest_by. rewrite fold_left_app. cbn. by destruct (fold_left _ t None). Qed.

Lemma latest_by_spec (key : A -> Z) t :
  match latest_by key t with
  | Some b => b ∈ t /\ forall row, row ∈ t -> (key row <= key b)%Z
  | None => t = []
  end.
Proof.
  induction t as [|row t IH] using rev_ind; [done | ]. rewrite latest_by_step.
  destruct (latest_by key t) as [b|]; [destruct IH as [Hb Hmax] | subst t].
  - destruct (Z.leb_spec (key b) (key row)) as [Hle|Hlt]; (split; [apply elem_of_app; rewrite ?list_elem_of_singleton; auto | ]);
      intros r [Hr|Hr%list_elem_of_singleton]%elem_of_app; subst; try lia; specialize (Hmax r Hr); lia.
  - split; [apply list_elem_of_here | ]. intros r Hr%list_elem_of_singleton. subst. lia.
Qed.
End Rows.

(** ** Tables that only grow *)

(** The rows of [t] are still there, each changed as [R] allows, before the new ones. *)
Definition grows {A : Type} (R : A -> A -> Prop) (t t' : list A) : Prop :=
  exists t1 t2, t' = t1 ++ t2 /\ Forall2 R t t1.

Section Grows.
Context {A : Type} (R : A -> A -> Prop) `{!PreOrder R}.

Lemma grows_update (t : list A) (sel : A -> bool) (upd : A -> A) :
  (forall row, row ∈ t -> sel row = true -> R row (upd row)) -> grows R t (rows_update sel upd t).
Proof.
  intros Hu. exists (rows_update sel upd t), []. rewrite app_nil_r. split; [done | ].
  induction t as [|row t IH]; [constructor | ]. cbn. constructor.
  - destruct (sel row) eqn:E; [apply Hu; [apply list_elem_of_here | done] | reflexivity].
  - apply IH. intros r Hr. apply Hu. by apply elem_of_cons; right.
Qed.

Lemma grows_app (t more : list A) : grows R t (t ++ more).
Proof. exists t, more. split; [done | ]. induction t; by constructor. Qed.

#[export] Instance grows_refl : Reflexive (grows R).
Proof. intros t. rewrite <- (app_nil_r t) at 2. apply grows_app. Qed.

#[export] Instance grows_trans : Transitive (grows R).
Proof.
  intros t t' t'' (t1 & t2 & -> & H1) (u1 & u2 & -> & H2). apply Forall2_app_inv_l in H2 as (v1 & v2 & Hv1 & Hv2 & ->).
  exists v1, (v2 ++ u2). rewrite app_assoc. split; [done | ]. clear -H1 Hv1 PreOrder0.
  revert v1 Hv1. induction H1 as [|x y t t1 Hxy H1 IH]; intros v1 Hv; inversion Hv; subst; [constructor | ].
  constructor; [by etransitivity | by apply IH].
Qed.

Lemma grows_then_app (t t' more : list A) : grows R t t' -> grows R t (t' ++ more).
Proof. intros Hg. etransitivity; [done | apply grows_app]. Qed.

Lemma grows_then_update (t t' : list A) (sel : A -> bool) (upd : A -> A) :
  (forall row, row ∈ t' -> sel row = true -> R row (upd row)) -> grows R t t' -> grows R t (rows_update sel upd t').
Proof. intros Hu Hg. etransitivity; [done | by apply grows_update]. Qed.

Lemma grows_lookup (t t' : list A) (i : nat) (row : A) :
  grows R t t' -> t !! i = Some row -> exists row', t' !! i = Some row' /\ R row row'.
Proof.
  intros (t1 & t2 & -> & Hf) Hl. destruct (Forall2_lookup_l _ _ _ _ _ Hf Hl) as (row' & Hl' & Hr).
  exists row'. split; [by apply lookup_app_l_Some | done].
Qed.

Lemma grows_elem (t t' : list A) (row : A) : grows R t t' -> row ∈ t -> exists row', row' ∈ t' /\ R row row'.
Proof.
  intros Hg (i & Hl)%list_elem_of_lookup. destruct (grows_lookup _ _ _ _ Hg Hl) as (row' & Hl' & Hr).
  exists row'. split; [by eapply list_elem_of_lookup_2 | done].
Qed.
End Grows.

(** Where the rows of a table come from: each is a row there was, as [R] allows it to have
    changed, or one of [extra]. *)
Definition sourced {A : Type} (R : A -> A -> Prop) (extra : A -> Prop) (t t' : list A) : Prop :=
  forall row', row' ∈ t' -> (exists row, row ∈ t /\ R row row') \/ extra row'.

Section Sourced.
Context {A : Type} (R : A -> A -> Prop) `{!PreOrder R} (extra : A -> Prop).

Lemma sourced_refl (t : list A) : sourced R extra t t.
Proof. intros row Hr. left. by exists row. Qed.

Lemma sourced_update (t t' : list A) (sel : A -> bool) (upd : A -> A) :
  (forall row, row ∈ t' -> sel row = true -> R row (upd row)) ->
  sourced R (fun _ => False) t t' -> sourced R extra t (rows_update sel upd t').
Proof.
  intros Hu Hs row' Hr. unfold rows_update in Hr. apply list_elem_of_In, in_map_iff in Hr as (row1 & Heq & Hin).
  apply list_elem_of_In in Hin. left. destruct (Hs row1 Hin) as [(row & Hrow & HR) | []]. exists row. split; [done | ].
  destruct (sel row1) eqn:Es; subst row'; [ | done]. etransitivity; [done | by apply Hu].
Qed.

Lemma sourced_snoc (t t' : list A) (row : A) : extra row -> sourced R extra t t' -> sourced R extra t (t' ++ [row]).
Proof. intros He Hs row' [Hr | ->%list_elem_of_singleton]%elem_of_app; [by apply Hs | by right]. Qed.
End Sourced.

(** ** Unique keys *)

(** What [PRIMARY KEY] and [UNIQUE] say of a column. *)
Definition keyed {A K : Type} (key : A -> K) (t : list A) : Prop := NoDup (map key t).

Section Keyed.
Context {A K : Type} `{EqDecision K} (key : A -> K).
Implicit Types (t : list A) (sel : A -> bool) (upd : A -> A).

Lemma keyed_update t sel upd :
  (forall row, sel row = true -> key (upd row) = key row) -> keyed key t -> keyed key (rows_update sel upd t).
Proof.
  intros Hk. unfold keyed. replace (map key (rows_update sel upd t)) with (map key t); [done | ].
  unfold rows_update. rewrite map_map. apply map_ext. intros row. destruct (sel row) eqn:E; [by rewrite Hk | done].
Qed.

Lemma keyed_snoc t (row : A) :
  existsb (fun r => key r ==? key row) t = false -> keyed key t -> keyed key (t ++ [row]).
Proof.
  intros Hf Hn. unfold keyed. rewrite map_app. apply NoDup_app. split_and!; [done | | apply NoDup_singleton].
  intros k Hk Hrow%list_elem_of_singleton. subst k. apply list_elem_of_In, in_map_iff in Hk as (r & Heq & Hin).
  apply not_true_iff_false in Hf. apply Hf, existsb_exists. exists r. split; [done | ]. by rewrite Heq, beq_refl.
Qed.

(** The rows with a key are one row. *)
Lemma keyed_unique t (r r' : A) : keyed key t -> r ∈ t -> r' ∈ t -> key r = key r' -> r = r'.
Proof.
  unfold keyed. intros Hn Hr Hr' Hk. pose proof (find_unique_key key t r Hn Hr) as H1.
  pose proof (find_unique_key key t r' Hn Hr') as H2. rewrite <- Hk in H2. congruence.
Qed.

Lemma keyed_find t (row : A) (p : A -> bool) :
  keyed key t -> row ∈ t -> p row = true -> (forall r, p r = true -> key r = key row) -> find p t = Some row.
Proof.
  intros Hn Hr Hp Hk. destruct (find p t) as [r|] eqn:E.
  - apply find_elem in E as [Hin Hpr]. f_equal. apply (keyed_unique t); auto.
  - apply (find_elem_none p t row) in E; [congruence | done].
Qed.

(** A condition that fixes a key selects at most one row. *)
Lemma keyed_matched t (row : A) (p : A -> bool) :
  keyed key t -> row ∈ t -> p row = true -> (forall r, p r = true -> key r = key row) -> rows_matched p t = 1.
Proof.
  intros Hn Hr Hp Hk. unfold rows_matched. induction t as [|r t IH]; [by apply not_elem_of_nil in Hr | ].
  apply NoDup_cons in Hn as [Hfresh Hn]. cbn. apply elem_of_cons in Hr as [<-|Hr].
  - rewrite Hp. cbn. f_equal. replace (List.filter p t) with (@nil A); [done | ]. symmetry.
    destruct (List.filter p t) as [|x l] eqn:E; [done | ]. exfalso. apply Hfresh.
    assert (Hin : In x (List.filter p t)) by (rewrite E; by left). apply filter_In in Hin as [Hin Hx].
    rewrite <- (Hk x Hx). apply (list_elem_of_fmap_2 key). by apply list_elem_of_In.
  - destruct (p r) eqn:E; [ | by apply IH]. exfalso. apply Hfresh. rewrite (Hk r E). by apply (list_elem_of_fmap_2 key).
Qed.

Lemma rows_matched_none t (p : A -> bool) : rows_matched p t = 0 -> forall row, row ∈ t -> p row = false.
Proof.
  unfold rows_matched. intros Hm row Hr. apply not_true_iff_false. intros Hp.
  assert (Hin : In row (List.filter p t)) by (apply filter_In; split; [by apply list_elem_of_In | done]).
  by destruct (List.filter p t).
Qed.
End Keyed.

(** ** Transactions *)

Definition tx (S E A : Type) : Type := S -> result (A * S) E.

#[export] Instance tx_ret (S E : Type) : MRet (tx S E) := fun A a s => Ok (a, s).
#[export] Instance tx_bind (S E : Type) : MBind (tx S E) := fun A B k m s =>
  match m s with
  | Ok (a, s') => k a s'
  | Err e => Err e
  end.

Section Tx.
Context {S E : Type}.

Definition fail {A : Type} (e : E) : tx S E A := fun _ => Err e.
Definition gets {A : Type} (f : S -> A) : tx S E A := fun s => Ok (f s, s).
Definition modify (f : S -> S) : tx S E unit := fun s => Ok (tt, f s).
(** [ok_or(e)?]. *)
Definition or_fail {A : Type} (o : option A) (e : E) : tx S E A :=
  match o with Some a => mret a | None => fail e end.
(** [if guard { return Err(e) }]. *)
Definition reject (b : bool) (e : E) : tx S E unit := if b then fail e else mret tt.
Definition lift {A : Type} (r : result A E) : tx S E A :=
  match r with Ok a => mret a | Err e => fail e end.
Definition when (b : bool) (m : tx S E unit) : tx S E unit := if b then m else mret tt.

(** A transaction commits or leaves the state alone. *)
Definition run_tx {A : Type} (m : tx S E A) (s : S) : S * result A E :=
  match m s with
  | Ok (a, s') => (s', Ok a)
  | Err e => (s, Err e)
  end.

(** What a computation establishes whenever it commits. *)
Definition tx_wp {A : Type} (m : tx S E A) (post : A -> S -> Prop) (s : S) : Prop :=
  forall a s', m s = Ok (a, s') -> post a s'.

Lemma wp_ret {A : Type} (a : A) (post : A -> S -> Prop) (s : S) : post a s -> tx_wp (mret a) post s.
Proof. by intros Hp a' s' [= <- <-]. Qed.

Lemma wp_bind {A B : Type} (m : tx S E A) (k : A -> tx S E B) (post : B -> S -> Prop) (s : S) :
  tx_wp m (fun a => tx_wp (k a) post) s -> tx_wp (m ≫= k) post s.
Proof.
  intros Hm b s' Hb. unfold mbind, tx_bind in Hb. destruct (m s) as [[a s1]|e] eqn:Em; [ | done]. by apply (Hm a s1).
Qed.

Lemma wp_fail {A : Type} (e : E) (post : A -> S -> Prop) (s : S) : tx_wp (fail e) post s.
Proof. by intros a s'. Qed.

Lemma wp_gets {A : Type} (f : S -> A) (post : A -> S -> Prop) (s : S) : post (f s) s -> tx_wp (gets f) post s.
Proof. by intros Hp a s' [= <- <-]. Qed.

Lemma wp_modify (f : S -> S) (post : unit -> S -> Prop) (s : S) : post tt (f s) -> tx_wp (modify f) post s.
Proof. by intros Hp a s' [= <- <-]. Qed.

Lemma wp_or_fail {A : Type} (o : option A) (e : E) (post : A -> S -> Prop) (s : S) :
  (forall a, o = Some a -> post a s) -> tx_wp (or_fail o e) post s.
Proof. intros Hp. destruct o; [by apply wp_ret, Hp | apply wp_fail]. Qed.

Lemma wp_reject (b : bool) (e : E) (post : unit -> S -> Prop) (s : S) :
  (b = false -> post tt s) -> tx_wp (reject b e) post s.
Proof. intros Hp. destruct b; [apply wp_fail | by apply wp_ret, Hp]. Qed.

Lemma wp_lift {A : Type} (r : result A E) (post : A -> S -> Prop) (s : S) :
  (forall a, r = Ok a -> post a s) -> tx_wp (lift r) post s.
Proof. intros Hp. destruct r; [by apply wp_ret, Hp | apply wp_fail]. Qed.

Lemma wp_when (b : bool) (m : tx S E unit) (post : unit -> S -> Prop) (s : S) :
  (b = true -> tx_wp m post s) -> (b = false -> post tt s) -> tx_wp (when b m) post s.
Proof. intros H1 H2. destruct b; [by apply H1 | by apply wp_ret, H2]. Qed.

Lemma wp_mono {A : Type} (m : tx S E A) (post post' : A -> S -> Prop) (s : S) :
  tx_wp m post s -> (forall a s', post a s' -> post' a s') -> tx_wp m post' s.
Proof. intros Hm Hp a s' Ha. by apply Hp, Hm. Qed.

Lemma wp_and {A : Type} (m : tx S E A) (post post' : A -> S -> Prop) (s : S) :
  tx_wp m post s -> tx_wp m post' s -> tx_wp m (fun a s' => post a s' /\ post' a s') s.
Proof. intros H1 H2 a s' Ha. split; [by apply H1 | by apply H2]. Qed.

(** What holds before and after every commit holds after the call. *)
Lemma run_tx_wp {A : Type} (m : tx S E A) (post : S -> Prop) (s : S) :
  post s -> tx_wp m (fun _ => post) s -> post (fst (run_tx m s)).
Proof. intros Hs Hm. unfold run_tx. destruct (m s) as [[a s']|e] eqn:Em; [by apply (Hm a s') | done]. Qed.
End Tx.

Arguments tx_wp : simpl never.

Create HintDb wp.
#[export] Hint Resolve wp_fail : wp.

(** One step of a transaction's body. *)
Ltac wp_step :=
  lazymatch goal with
  | |- tx_wp (_ ≫= _) _ _ => apply wp_bind
  | |- tx_wp (mret _) _ _ => apply wp_ret
  | |- tx_wp (fail _) _ _ => apply wp_fail
  | |- tx_wp (gets _) _ _ => apply wp_gets
  | |- tx_wp (modify _) _ _ => apply wp_modify
  | |- tx_wp (or_fail _ _) _ _ => apply wp_or_fail; intros ? ?
  | |- tx_wp (reject _ _) _ _ => apply wp_reject; intros ?
  | |- tx_wp (lift _) _ _ => apply wp_lift; intros ? ?
  | |- tx_wp (when _ _) _ _ => apply wp_when; intros ?
  | |- tx_wp (if ?b then _ else _) _ _ => let Hb := fresh "Hb" in destruct b eqn:Hb
  | |- tx_wp (match ?o with Some _ => _ | None => _ end) _ _ => let Ho := fresh "Ho" in destruct o eqn:Ho
  end.
Ltac wp_steps := repeat (wp_step; cbn beta).
