(* ===== verification/ConnectorModel.v ===== *)
(** * ConnectorModel: the tables of the Connector's tasks and executions

    The states of task_kernel.rs and execution_model.rs with their database texts, the
    rows of the tables (schema.rs) and the projections the code reads them through.  A
    column whose CHECK lists the texts of a state holds that state; a column that holds
    JSON holds the value. *)
From S2P Require Import Prelude RustStr Lifecycle Sql.

(** ** JSON values (serde_json) *)

Inductive Value : Type :=
| VNull
| VBool (b : bool)
| VInt (n : Z)
| VFloat (text : str)
| VString (s : str)
| VArray (l : list Value)
| VObject (l : list (str * Value)).

Definition opt_string (o : option str) : Value := match o with Some s => VString s | None => VNull end.

(** [value[key]]: the member of an object, [Null] when there is none. *)
Definition value_get (v : Value) (key : str) : Value :=
  match v with
  | VObject l => unwrap_or VNull (snd <$> find (fun e => fst e ==? key) l)
  | _ => VNull
  end.

(** [serde_json::to_string] of a value, whose length the limits bound. *)
Class JsonText : Type := json_to_string : Value -> str.

(** ** States of a task *)

Inductive ConnectorTaskMode : Type := ModeNormal | ModeReadOnly | ModeInspectLegacy.
Inductive ConnectorTaskLifecycle : Type := TaskActive | TaskReadyForReview | TaskAccepted | TaskRejected.
Inductive ConnectorTaskState : Type :=
  StActive | StReadyForReview | StAccepted | StRejected | StCancelled | StNeedsAttention.
Inductive ConnectorRunLifecycle : Type := RunRunning | RunCompleted | RunInterrupted.
Inductive ConnectorRunState : Type := RsRunning | RsCompleted | RsInterrupted | RsCancelled.
Inductive ConnectorResultDecisionStatus : Type := DecisionPending | DecisionAccepted | DecisionRejected.
Inductive ConnectorResultDecision : Type := DecideAccepted | DecideRejected.
Inductive ConnectorResultDecisionRecoveryState : Type := RecoveryPending | RecoveryNeedsAttention.
Inductive ConnectorApprovalState : Type :=
  ApprovalPending | ApprovalApproved | ApprovalDenied | ApprovalConsumed | ApprovalExpired.
Inductive ConnectorEditOperationState : Type := EditPending | EditCompleted | EditFailed.

#[export] Instance mode_eq_dec : EqDecision ConnectorTaskMode.
Proof. solve_decision. Defined.
#[export] Instance task_lifecycle_eq_dec : EqDecision ConnectorTaskLifecycle.
Proof. solve_decision. Defined.
#[export] Instance task_state_eq_dec : EqDecision ConnectorTaskState.
Proof. solve_decision. Defined.
#[export] Instance run_lifecycle_eq_dec : EqDecision ConnectorRunLifecycle.
Proof. solve_decision. Defined.
#[export] Instance run_state_eq_dec : EqDecision ConnectorRunState.
Proof. solve_decision. Defined.
#[export] Instance decision_status_eq_dec : EqDecision ConnectorResultDecisionStatus.
Proof. solve_decision. Defined.
#[export] Instance decision_eq_dec : EqDecision ConnectorResultDecision.
Proof. solve_decision. Defined.
#[export] Instance recovery_state_eq_dec : EqDecision ConnectorResultDecisionRecoveryState.
Proof. solve_decision. Defined.
#[export] Instance approval_state_eq_dec : EqDecision ConnectorApprovalState.
Proof. solve_decision. Defined.
#[export] Instance edit_state_eq_dec : EqDecision ConnectorEditOperationState.
Proof. solve_decision. Defined.

Definition mode_as_db (m : ConnectorTaskMode) : str :=
  match m with ModeNormal => lit "normal" | ModeReadOnly => lit "read_only" | ModeInspectLegacy => lit "inspect" end.

Definition task_state_as_str (s : ConnectorTaskState) : str :=
  match s with
  | StActive => lit "active" | StReadyForReview => lit "ready_for_review" | StAccepted => lit "accepted"
  | StRejected => lit "rejected" | StCancelled => lit "cancelled" | StNeedsAttention => lit "needs_attention"
  end.

Definition run_status_as_str (s : ConnectorRunState) : str :=
  match s with
  | RsRunning => lit "running" | RsCompleted => lit "completed" | RsInterrupted => lit "interrupted"
  | RsCancelled => lit "cancelled"
  end.

Definition decision_as_db (d : ConnectorResultDecision) : str :=
  match d with DecideAccepted => lit "accepted" | DecideRejected => lit "rejected" end.

Definition approval_state_as_db (s : ConnectorApprovalState) : str :=
  match s with
  | ApprovalPending => lit "pending" | ApprovalApproved => lit "approved" | ApprovalDenied => lit "denied"
  | ApprovalConsumed => lit "consumed" | ApprovalExpired => lit "expired"
  end.

(** The status a decision gives a result, and the lifecycle it gives its task. *)
Definition decided (d : ConnectorResultDecision) : ConnectorResultDecisionStatus :=
  match d with DecideAccepted => DecisionAccepted | DecideRejected => DecisionRejected end.
Definition decided_lifecycle (d : ConnectorResultDecision) : ConnectorTaskLifecycle :=
  match d with DecideAccepted => TaskAccepted | DecideRejected => TaskRejected end.

Definition effective_task_state (lifecycle : ConnectorTaskLifecycle) (run_lifecycle : ConnectorRunLifecycle)
  (result_decision : option ConnectorResultDecisionStatus) (cancelled : bool) : ConnectorTaskState :=
  if cancelled then StCancelled
  else match result_decision with
  | Some DecisionAccepted => StAccepted
  | Some DecisionRejected => StRejected
  | Some DecisionPending | None =>
      if run_lifecycle ==? RunInterrupted then StNeedsAttention
      else match lifecycle with
           | TaskActive => StActive
           | TaskReadyForReview => StReadyForReview
           | TaskAccepted => StAccepted
           | TaskRejected => StRejected
           end
  end.

Definition effective_run_state (lifecycle : ConnectorRunLifecycle) (cancelled : bool) : ConnectorRunState :=
  if cancelled then RsCancelled
  else match lifecycle with
       | RunRunning => RsRunning
       | RunCompleted => RsCompleted
       | RunInterrupted => RsInterrupted
       end.

(** [ConnectorTaskStoreError]; the cause of a storage error is not kept. *)
Inductive ConnectorTaskStoreError : Type :=
| NotFound
| OperationIdConflict (operation_id : str)
| DecisionError (code message : str)
| InvalidState (message : str)
| Storage.

Definition mode_requested (value : str) : result ConnectorTaskMode ConnectorTaskStoreError :=
  if value ==? lit "normal" then Ok ModeNormal
  else if value ==? lit "read_only" then Ok ModeReadOnly
  else Err (InvalidState (lit "task mode must be normal or read_only")).

Definition decision_requested (value : str) : result ConnectorResultDecision ConnectorTaskStoreError :=
  if value ==? lit "accepted" then Ok DecideAccepted
  else if value ==? lit "rejected" then Ok DecideRejected
  else Err (InvalidState (lit "result decision must be accepted or rejected")).

(** ** States of an execution *)

Inductive ConnectorExecutionKind : Type := KindCommand | KindCheck.

Inductive ConnectorExecutionState : Type :=
| ExAccepted
| ExQueued
| ExStarting
| ExRunning
| ExCancelRequested
| ExSucceeded
| ExFailed
| ExCancelled
| ExInterrupted
| ExUnknown.

Inductive ConnectorExecutionContinuationIntent : Type := IntentNone | IntentArmedForTerminal.

Inductive ConnectorTerminalContinuationDeliveryState : Type :=
| Unclaimed
| Claimed
| Dispatching
| Delivered
| DeliveryUnknown.

#[export] Instance execution_kind_eq_dec : EqDecision ConnectorExecutionKind.
Proof. solve_decision. Defined.
#[export] Instance execution_state_eq_dec : EqDecision ConnectorExecutionState.
Proof. solve_decision. Defined.
#[export] Instance continuation_intent_eq_dec : EqDecision ConnectorExecutionContinuationIntent.
Proof. solve_decision. Defined.
#[export] Instance delivery_state_eq_dec : EqDecision ConnectorTerminalContinuationDeliveryState.
Proof. solve_decision. Defined.

Definition execution_kind_as_db (k : ConnectorExecutionKind) : str :=
  match k with KindCommand => lit "command" | KindCheck => lit "check" end.

Definition execution_kind_requested (value : str) : option ConnectorExecutionKind :=
  if value ==? lit "command" then Some KindCommand
  else if value ==? lit "check" then Some KindCheck
  else None.

Definition execution_state_as_db (s : ConnectorExecutionState) : str :=
  match s with
  | ExAccepted => lit "accepted" | ExQueued => lit "queued" | ExStarting => lit "starting"
  | ExRunning => lit "running" | ExCancelRequested => lit "cancel_requested" | ExSucceeded => lit "succeeded"
  | ExFailed => lit "failed" | ExCancelled => lit "cancelled" | ExInterrupted => lit "interrupted"
  | ExUnknown => lit "unknown"
  end.

Definition execution_state_from_db (value : str) : option ConnectorExecutionState :=
  if value ==? lit "accepted" then Some ExAccepted
  else if value ==? lit "queued" then Some ExQueued
  else if value ==? lit "starting" then Some ExStarting
  else if value ==? lit "running" then Some ExRunning
  else if value ==? lit "cancel_requested" then Some ExCancelRequested
  else if value ==? lit "succeeded" then Some ExSucceeded
  else if value ==? lit "failed" then Some ExFailed
  else if value ==? lit "cancelled" then Some ExCancelled
  else if value ==? lit "interrupted" then Some ExInterrupted
  else if value ==? lit "unknown" then Some ExUnknown
  else None.

Definition state_is_active (s : ConnectorExecutionState) : bool :=
  match s with
  | ExAccepted | ExQueued | ExStarting | ExRunning | ExCancelRequested => true
  | _ => false
  end.

Definition state_is_terminal (s : ConnectorExecutionState) : bool := negb (state_is_active s).
Definition state_blocks_finish (s : ConnectorExecutionState) : bool := state_is_active s || (s ==? ExUnknown).

Definition execution_event_kind (s : ConnectorExecutionState) : str :=
  match s with
  | ExAccepted => lit "execution_accepted"
  | ExQueued => lit "execution_queued"
  | ExStarting | ExRunning => lit "execution_started"
  | ExCancelRequested => lit "execution_cancel_requested"
  | ExSucceeded => lit "execution_succeeded"
  | ExFailed => lit "execution_failed"
  | ExCancelled => lit "execution_cancelled"
  | ExInterrupted => lit "execution_interrupted"
  | ExUnknown => lit "execution_unknown"
  end.

(** The texts of a column are read back as the state they were written for. *)
Lemma execution_state_roundtrip (s : ConnectorExecutionState) (text : str) :
  execution_state_from_db text = Some s <-> text = execution_state_as_db s.
Proof.
  split; [ | by intros ->; destruct s].
  unfold execution_state_from_db. repeat case_match; intros [= <-];
    match goal with H : beq text _ = true |- _ => apply beq_true in H; exact H end.
Qed.

(** ** Rows (schema.rs) *)

(** [wc_tasks]. *)
Record TaskRow : Type := mkTask {
  t_id : str;
  t_project_id : str;
  t_owner_subject_id : str;
  t_goal : str;
  t_mode : ConnectorTaskMode;
  t_status : ConnectorTaskLifecycle;
  t_created_at : Z;
  t_updated_at : Z;
  t_guidance_seen_seq : Z
}.

#[export] Instance eta_mkTask : Eta TaskRow := fun x =>
  mkTask (t_id x) (t_project_id x) (t_owner_subject_id x) (t_goal x) (t_mode x) (t_status x) (t_created_at x)
    (t_updated_at x) (t_guidance_seen_seq x).

(** [wc_runs]. *)
Record RunRow : Type := mkRun {
  r_id : str;
  r_task_id : str;
  r_workspace_id : str;
  r_status : ConnectorRunLifecycle;
  r_started_at : Z;
  r_finished_at : option Z
}.

#[export] Instance eta_mkRun : Eta RunRow := fun x =>
  mkRun (r_id x) (r_task_id x) (r_workspace_id x) (r_status x) (r_started_at x) (r_finished_at x).

(** [wc_run_contexts]. *)
Record RunContextRow : Type := mkRunContext {
  x_run_id : str;
  x_target_executor_ref : str;
  x_execution_executor_ref : str;
  x_target_root : str;
  x_execution_root : str;
  x_baseline_commit : option str;
  x_baseline_tree : option str;
  x_isolated : bool;
  x_created_at : Z
}.

#[export] Instance eta_mkRunContext : Eta RunContextRow := fun x =>
  mkRunContext (x_run_id x) (x_target_executor_ref x) (x_execution_executor_ref x) (x_target_root x)
    (x_execution_root x) (x_baseline_commit x) (x_baseline_tree x) (x_isolated x) (x_created_at x).

(** [wc_task_results]. *)
Record ResultRow : Type := mkResult {
  s_id : str;
  s_task_id : str;
  s_run_id : str;
  s_summary : str;
  s_patch_artifact : option str;
  s_patch_sha256 : option str;
  s_patch_bytes : Z;
  s_changed_paths : list str;
  s_validation : Value;
  s_warnings : list str;
  s_decision_status : ConnectorResultDecisionStatus;
  s_decided_by : option str;
  s_decided_at : option Z;
  s_cleanup_warning : option str;
  s_created_at : Z
}.

#[export] Instance eta_mkResult : Eta ResultRow := fun x =>
  mkResult (s_id x) (s_task_id x) (s_run_id x) (s_summary x) (s_patch_artifact x) (s_patch_sha256 x)
    (s_patch_bytes x) (s_changed_paths x) (s_validation x) (s_warnings x) (s_decision_status x) (s_decided_by x)
    (s_decided_at x) (s_cleanup_warning x) (s_created_at x).

(** [wc_result_decision_intents]. *)
Record DecisionIntentRow : Type := mkDecisionIntent {
  i_task_id : str;
  i_result_id : str;
  i_decision : ConnectorResultDecision;
  i_actor : str;
  i_started_at : Z;
  i_state : ConnectorResultDecisionRecoveryState;
  i_error_code : option str;
  i_error_message : option str;
  i_last_attempt_at : option Z
}.

#[export] Instance eta_mkDecisionIntent : Eta DecisionIntentRow := fun x =>
  mkDecisionIntent (i_task_id x) (i_result_id x) (i_decision x) (i_actor x) (i_started_at x) (i_state x)
    (i_error_code x) (i_error_message x) (i_last_attempt_at x).

(** [wc_approvals], read as [ConnectorApproval]. *)
Record ConnectorApproval : Type := mkApproval {
  a_id : str;
  a_task_id : str;
  a_run_id : str;
  a_action_kind : str;
  a_action_hash : str;
  a_action_summary : str;
  a_state : ConnectorApprovalState;
  a_requested_at : Z;
  a_expires_at : Z;
  a_decided_by : option str;
  a_decided_at : option Z;
  a_consumed_at : option Z;
  a_decision_reason : option str
}.

#[export] Instance eta_mkApproval : Eta ConnectorApproval := fun x =>
  mkApproval (a_id x) (a_task_id x) (a_run_id x) (a_action_kind x) (a_action_hash x) (a_action_summary x)
    (a_state x) (a_requested_at x) (a_expires_at x) (a_decided_by x) (a_decided_at x) (a_consumed_at x)
    (a_decision_reason x).

(** [wc_edit_operations]. *)
Record EditOperationRow : Type := mkEditOperation {
  o_task_id : str;
  o_operation_id : str;
  o_request_sha256 : str;
  o_state : ConnectorEditOperationState;
  o_result : option Value;
  o_created_at : Z;
  o_updated_at : Z
}.

#[export] Instance eta_mkEditOperation : Eta EditOperationRow := fun x =>
  mkEditOperation (o_task_id x) (o_operation_id x) (o_request_sha256 x) (o_state x) (o_result x) (o_created_at
    x) (o_updated_at x).

(** [wc_task_events]. *)
Record EventRow : Type := mkEvent {
  v_id : str;
  v_task_id : str;
  v_run_id : str;
  v_sequence : Z;
  v_kind : str;
  v_payload : Value;
  v_created_at : Z
}.

#[export] Instance eta_mkEvent : Eta EventRow := fun x =>
  mkEvent (v_id x) (v_task_id x) (v_run_id x) (v_sequence x) (v_kind x) (v_payload x) (v_created_at x).

(** [wc_executions] as [map_execution] reads it. *)
Record ConnectorExecution : Type := mkExecution {
  e_execution_id : str;
  e_kind : ConnectorExecutionKind;
  e_task_id : str;
  e_run_id : str;
  e_state : ConnectorExecutionState;
  e_submitted_at : Z;
  e_queued_at : option Z;
  e_queue_deadline : Z;
  e_started_at : option Z;
  e_last_output_at : option Z;
  e_finished_at : option Z;
  e_stdout_cursor : Z;
  e_stderr_cursor : Z;
  e_exit_code : option Z;
  e_failure_source : option str;
  e_failure_code : option str;
  e_terminal_reason : option str;
  e_operation_id : str;
  e_request_sha256 : str;
  e_executor_reference : option str;
  e_first_status_failure_at : option Z;
  e_last_successful_observation_at : option Z;
  e_status_failure_code : option str;
  e_check_plan : list str;
  e_check_recipe : option Value;
  e_check_completed : Z;
  e_check_workspace_sha256 : option str;
  e_validated_workspace_sha256 : option str;
  e_failed_check : option str;
  e_assertion_evidence : option Value;
  e_continuation_intent : ConnectorExecutionContinuationIntent;
  e_continuation_armed_at : option Z;
  e_continuation_delivery_state : ConnectorTerminalContinuationDeliveryState;
  e_mcp_task_materialized_at : option Z;
  e_mcp_task_result_finalized_at : option Z;
  e_mcp_task_output_tail : option Value
}.

#[export] Instance eta_mkExecution : Eta ConnectorExecution := fun x =>
  mkExecution (e_execution_id x) (e_kind x) (e_task_id x) (e_run_id x) (e_state x) (e_submitted_at x)
    (e_queued_at x) (e_queue_deadline x) (e_started_at x) (e_last_output_at x) (e_finished_at x) (e_stdout_cursor
    x) (e_stderr_cursor x) (e_exit_code x) (e_failure_source x) (e_failure_code x) (e_terminal_reason x)
    (e_operation_id x) (e_request_sha256 x) (e_executor_reference x) (e_first_status_failure_at x)
    (e_last_successful_observation_at x) (e_status_failure_code x) (e_check_plan x) (e_check_recipe x)
    (e_check_completed x) (e_check_workspace_sha256 x) (e_validated_workspace_sha256 x) (e_failed_check x)
    (e_assertion_evidence x) (e_continuation_intent x) (e_continuation_armed_at x) (e_continuation_delivery_state
    x) (e_mcp_task_materialized_at x) (e_mcp_task_result_finalized_at x) (e_mcp_task_output_tail x).

(** A row of [wc_executions]: the columns [map_execution] reads and the two it does not. *)
Record ExecutionRow : Type := mkExecutionRow {
  x_execution : ConnectorExecution;
  x_cancel_requested_at : option Z;
  x_claim_fence : option str
}.

#[export] Instance eta_mkExecutionRow : Eta ExecutionRow := fun x =>
  mkExecutionRow (x_execution x) (x_cancel_requested_at x) (x_claim_fence x).

(** The window a task is worked on from, with the fingerprint of its project context
    (project_context_contract.rs). *)

Record ContextFileFingerprint : Type := mkFileFingerprint {
  cf_path : str;
  cf_sha256 : str;
  cf_bytes : Z;
  cf_complete : bool;
  cf_hash_kind : str;
  cf_modified_unix_nanos : option Z
}.

#[export] Instance eta_mkFileFingerprint : Eta ContextFileFingerprint := fun x =>
  mkFileFingerprint (cf_path x) (cf_sha256 x) (cf_bytes x) (cf_complete x) (cf_hash_kind x)
    (cf_modified_unix_nanos x).

Record GitContextFingerprint : Type := mkGitFingerprint {
  gf_available : bool;
  gf_branch : option str;
  gf_head : option str;
  gf_worktree_sha256 : option str;
  gf_dirty : option bool
}.

#[export] Instance eta_mkGitFingerprint : Eta GitContextFingerprint := fun x =>
  mkGitFingerprint (gf_available x) (gf_branch x) (gf_head x) (gf_worktree_sha256 x) (gf_dirty x).

Record FingerprintCompleteness : Type := mkCompleteness {
  fc_complete : bool;
  fc_partial_slices : list str;
  fc_warnings : list str
}.

#[export] Instance eta_mkCompleteness : Eta FingerprintCompleteness := fun x =>
  mkCompleteness (fc_complete x) (fc_partial_slices x) (fc_warnings x).

Record ProjectContextFingerprint : Type := mkFingerprint {
  pf_schema_version : Z;
  pf_project_root_sha256 : str;
  pf_target_directory : str;
  pf_git : GitContextFingerprint;
  pf_rules : list ContextFileFingerprint;
  pf_manifests : list ContextFileFingerprint;
  pf_completeness : FingerprintCompleteness
}.

#[export] Instance eta_mkFingerprint : Eta ProjectContextFingerprint := fun x =>
  mkFingerprint (pf_schema_version x) (pf_project_root_sha256 x) (pf_target_directory x) (pf_git x) (pf_rules x)
    (pf_manifests x) (pf_completeness x).

(** [wc_window_project_contexts]. *)
Record WindowContextRow : Type := mkWindowContext {
  w_window_key : str;
  w_window_source : str;
  w_project_id : str;
  w_owner_subject_id : str;
  w_project_root_sha256 : str;
  w_task_id : str;
  w_target_path : str;
  w_fingerprint : ProjectContextFingerprint;
  w_created_at : Z;
  w_updated_at : Z
}.

#[export] Instance eta_mkWindowContext : Eta WindowContextRow := fun x =>
  mkWindowContext (w_window_key x) (w_window_source x) (w_project_id x) (w_owner_subject_id x)
    (w_project_root_sha256 x) (w_task_id x) (w_target_path x) (w_fingerprint x) (w_created_at x) (w_updated_at x).

(** [wc_projects]. *)
Record ProjectRow : Type := mkProjectRow {
  p_id : str;
  p_name : str;
  p_created_at : Z;
  p_updated_at : Z
}.

#[export] Instance eta_mkProjectRow : Eta ProjectRow := fun x =>
  mkProjectRow (p_id x) (p_name x) (p_created_at x) (p_updated_at x).

(** [wc_workspaces]. *)
Record WorkspaceRow : Type := mkWorkspaceRow {
  k_id : str;
  k_project_id : str;
  k_executor_ref : str;
  k_created_at : Z;
  k_updated_at : Z
}.

#[export] Instance eta_mkWorkspaceRow : Eta WorkspaceRow := fun x =>
  mkWorkspaceRow (k_id x) (k_project_id x) (k_executor_ref x) (k_created_at x) (k_updated_at x).

(** [wc_connector_grants]. *)
Record GrantRow : Type := mkGrant {
  g_id : str;
  g_project_id : str;
  g_subject_id : str;
  g_profile : str;
  g_created_at : Z;
  g_updated_at : Z;
  g_revoked_at : option Z
}.

#[export] Instance eta_mkGrant : Eta GrantRow := fun x =>
  mkGrant (g_id x) (g_project_id x) (g_subject_id x) (g_profile x) (g_created_at x) (g_updated_at x)
    (g_revoked_at x).

(** The Connector's part of the database. *)
Record Db : Type := mkDb {
  projects : list ProjectRow;
  workspaces : list WorkspaceRow;
  grants : list GrantRow;
  tasks : list TaskRow;
  runs : list RunRow;
  run_contexts : list RunContextRow;
  results : list ResultRow;
  intents : list DecisionIntentRow;
  approvals : list ConnectorApproval;
  edits : list EditOperationRow;
  executions : list ExecutionRow;
  events : list EventRow;
  windows : list WindowContextRow
}.

#[export] Instance eta_mkDb : Eta Db := fun x =>
  mkDb (projects x) (workspaces x) (grants x) (tasks x) (runs x) (run_contexts x) (results x) (intents x)
    (approvals x) (edits x) (executions x) (events x) (windows x).

Definition Db_empty : Db := mkDb [] [] [] [] [] [] [] [] [] [] [] [] [].
