(* ===== verification/ConnectorStore.v ===== *)
(** * ConnectorStore: reading a task, and the statements the operations share

    [load_task] with its joins, the readers of results, approvals and executions, and
    the helpers of task_kernel.rs and executions.rs that every operation composes.  A
    statement that breaks a key, a CHECK or a foreign key fails with [Storage]. *)
From S2P Require Import Prelude RustStr Lifecycle Sql ConnectorModel.

Abbreviation ctx := (tx Db ConnectorTaskStoreError).

(** ** Reading *)

Record ConnectorTaskSnapshot : Type := mkTaskSnapshot {
  n_task_id : str;
  n_run_id : str;
  n_project_id : str;
  n_workspace_id : str;
  n_owner_subject_id : str;
  n_goal : str;
  n_mode : ConnectorTaskMode;
  n_task_lifecycle : ConnectorTaskLifecycle;
  n_task_status : ConnectorTaskState;
  n_run_lifecycle : ConnectorRunLifecycle;
  n_run_status : ConnectorRunState;
  n_event_cursor : Z;
  n_target_executor_ref : str;
  n_execution_executor_ref : str;
  n_target_root : str;
  n_execution_root : str;
  n_baseline_commit : option str;
  n_baseline_tree : option str;
  n_isolated : bool;
  n_created_at : Z;
  n_updated_at : Z
}.

#[export] Instance eta_mkTaskSnapshot : Eta ConnectorTaskSnapshot := fun x =>
  mkTaskSnapshot (n_task_id x) (n_run_id x) (n_project_id x) (n_workspace_id x) (n_owner_subject_id x) (n_goal
    x) (n_mode x) (n_task_lifecycle x) (n_task_status x) (n_run_lifecycle x) (n_run_status x) (n_event_cursor x)
    (n_target_executor_ref x) (n_execution_executor_ref x) (n_target_root x) (n_execution_root x)
    (n_baseline_commit x) (n_baseline_tree x) (n_isolated x) (n_created_at x) (n_updated_at x).

Definition task_by_id (db : Db) (id : str) : option TaskRow := find (fun t => t_id t ==? id) (tasks db).
Definition context_of (db : Db) (rid : str) : option RunContextRow :=
  find (fun c => x_run_id c ==? rid) (run_contexts db).

(** [COALESCE(MAX(sequence), 0)] over the events of a task (sequences are positive). *)
Definition max_sequence (db : Db) (task : str) : Z :=
  foldr (fun e acc => if v_task_id e ==? task then Z.max (v_sequence e) acc else acc) 0%Z (events db).

Definition next_event_sequence (db : Db) (task : str) : Z := (max_sequence db task + 1)%Z.

Definition is_cancelled (db : Db) (task : str) : bool :=
  existsb (fun e => (v_task_id e ==? task) && (v_kind e ==? lit "task_cancelled")) (events db).

(** The run of a task, with its context, that [ORDER BY r.started_at DESC LIMIT 1] picks. *)
Definition latest_run (db : Db) (task : str) : option RunRow :=
  latest_by r_started_at (List.filter (fun r => (r_task_id r ==? task) && is_some (context_of db (r_id r))) (runs db)).

Definition result_of_run (db : Db) (rid : str) : option ResultRow := find (fun s => s_run_id s ==? rid) (results db).
Definition load_result (db : Db) (task : str) : option ResultRow := find (fun s => s_task_id s ==? task) (results db).

Definition load_task (db : Db) (task project subject : str) : option ConnectorTaskSnapshot :=
  t ← task_by_id db task;
  if negb ((t_project_id t ==? project) && (t_owner_subject_id t ==? subject)) then None
  else
    r ← latest_run db task;
    c ← context_of db (r_id r);
    let decision := s_decision_status <$> result_of_run db (r_id r) in
    let cancelled := is_cancelled db task in
    Some (mkTaskSnapshot (t_id t) (r_id r) (t_project_id t) (r_workspace_id r) (t_owner_subject_id t) (t_goal t) (t_mode t)
      (t_status t) (effective_task_state (t_status t) (r_status r) decision cancelled)
      (r_status r) (effective_run_state (r_status r) cancelled) (max_sequence db task)
      (x_target_executor_ref c) (x_execution_executor_ref c) (x_target_root c) (x_execution_root c)
      (x_baseline_commit c) (x_baseline_tree c) (x_isolated c) (t_created_at t) (t_updated_at t)).

Definition load_execution_row (db : Db) (id : str) : option ExecutionRow :=
  find (fun x => e_execution_id (x_execution x) ==? id) (executions db).
Definition load_execution (db : Db) (id : str) : option ConnectorExecution := x_execution <$> load_execution_row db id.

Definition task_executions (db : Db) (task : str) : list ExecutionRow :=
  List.filter (fun x => e_task_id (x_execution x) ==? task) (executions db).

(** [ORDER BY submitted_at DESC, rowid DESC LIMIT 1]. *)
Definition latest_execution (db : Db) (task : str) : option ConnectorExecution :=
  x_execution <$> latest_by (fun x => e_submitted_at (x_execution x)) (task_executions db task).

Definition latest_execution_by_kind (db : Db) (task : str) (kind : ConnectorExecutionKind) : option ConnectorExecution :=
  x_execution <$> latest_by (fun x => e_submitted_at (x_execution x))
    (List.filter (fun x => e_kind (x_execution x) ==? kind) (task_executions db task)).

Definition load_execution_by_operation (db : Db) (task rid operation_id : str) : option ConnectorExecution :=
  x_execution <$> find (fun x => (e_task_id (x_execution x) ==? task) && (e_run_id (x_execution x) ==? rid)
                                 && (e_operation_id (x_execution x) ==? operation_id)) (executions db).

Definition load_approval_by_hash (db : Db) (task rid action_hash : str) : option ConnectorApproval :=
  find (fun a => (a_task_id a ==? task) && (a_run_id a ==? rid) && (a_action_hash a ==? action_hash)) (approvals db).
Definition load_approval (db : Db) (id task : str) : option ConnectorApproval :=
  find (fun a => (a_id a ==? id) && (a_task_id a ==? task)) (approvals db).

Definition require_task (task project subject : str) : ctx ConnectorTaskSnapshot :=
  db ← gets id; or_fail (load_task db task project subject) NotFound.

Definition require_execution (id_ : str) : ctx ConnectorExecution :=
  db ← gets id; or_fail (load_execution db id_) NotFound.

Definition require_running (task : ConnectorTaskSnapshot) : ctx unit :=
  reject (negb (n_task_status task ==? StActive) || negb (n_run_status task ==? RsRunning))
    (InvalidState (lit "task " ++ n_task_id task ++ lit " is " ++ task_state_as_str (n_task_status task)
                   ++ lit ", run is " ++ run_status_as_str (n_run_status task) ++ lit "; start a new task for more work")).

(** ** Statements *)

Definition run_exists (db : Db) (rid : str) : bool := existsb (fun r => r_id r ==? rid) (runs db).

(** The keys, CHECKs and foreign keys of [wc_task_events]. *)
Definition event_admissible (db : Db) (e : EventRow) : bool :=
  negb (existsb (fun o => (v_id o ==? v_id e)
                          || ((v_task_id o ==? v_task_id e) && (v_sequence o ==? v_sequence e))) (events db))
  && Z.ltb 0 (v_sequence e) && is_some (task_by_id db (v_task_id e)) && run_exists db (v_run_id e).

(** [insert_event]; [fresh] is the identifier drawn for the event. *)
Definition insert_event (fresh task rid : str) (sequence : Z) (kind : str) (payload : Value) (now : Z) : ctx unit :=
  db ← gets id;
  let e := mkEvent fresh task rid sequence kind payload now in
  _ ← reject (negb (event_admissible db e)) Storage;
  modify (fun db => db <| events := events db ++ [e] |>).

Definition update_tasks (sel : TaskRow -> bool) (upd : TaskRow -> TaskRow) : ctx unit :=
  modify (fun db => db <| tasks := rows_update sel upd (tasks db) |>).
Definition update_runs (sel : RunRow -> bool) (upd : RunRow -> RunRow) : ctx unit :=
  modify (fun db => db <| runs := rows_update sel upd (runs db) |>).
Definition update_approvals (sel : ConnectorApproval -> bool) (upd : ConnectorApproval -> ConnectorApproval) : ctx unit :=
  modify (fun db => db <| approvals := rows_update sel upd (approvals db) |>).

(** The CHECKs of [wc_executions] on the columns that change. *)
Definition execution_check (x : ExecutionRow) : bool :=
  let e := x_execution x in
  Z.leb 1 (e_stdout_cursor e) && Z.leb 1 (e_stderr_cursor e) && Z.leb 0 (e_check_completed e)
  && is_none_or (fun f => Z.leb 1 (Z.of_nat (length f)) && Z.leb (Z.of_nat (length f)) 80) (x_claim_fence x)
  && match e_continuation_delivery_state e with
     | Claimed | Dispatching => is_some (x_claim_fence x)
     | Unclaimed | Delivered | DeliveryUnknown => is_none (x_claim_fence x)
     end.

(** [UPDATE wc_executions]: all the changed rows must pass the CHECKs. *)
Definition update_executions (sel : ExecutionRow -> bool) (upd : ExecutionRow -> ExecutionRow) : ctx unit :=
  db ← gets id;
  _ ← reject (negb (forallb (fun x => negb (sel x) || execution_check (upd x)) (executions db))) Storage;
  modify (fun db => db <| executions := rows_update sel upd (executions db) |>).

Definition has_id (id : str) (x : ExecutionRow) : bool := e_execution_id (x_execution x) ==? id.

(** A change of the columns [map_execution] reads. *)
Definition on_execution (f : ConnectorExecution -> ConnectorExecution) (x : ExecutionRow) : ExecutionRow :=
  x <| x_execution := f (x_execution x) |>.

Definition touch_task (task : str) (now : Z) : ctx unit :=
  update_tasks (fun t => t_id t ==? task) (fun t => t <| t_updated_at := now |>).

Definition expire_task_approvals (task : str) : ctx unit :=
  update_approvals
    (fun a => (a_task_id a ==? task) && ((a_state a ==? ApprovalPending) || (a_state a ==? ApprovalApproved)))
    (fun a => a <| a_state := ApprovalExpired |>).

Definition append_execution_event (fresh : str) (e : ConnectorExecution) (s : ConnectorExecutionState) (now : Z) : ctx unit :=
  db ← gets id;
  insert_event fresh (e_task_id e) (e_run_id e) (next_event_sequence db (e_task_id e)) (execution_event_kind s)
    (VObject [(lit "execution_id", VString (e_execution_id e)); (lit "kind", VString (execution_kind_as_db (e_kind e)));
              (lit "state", VString (execution_state_as_db s))]) now.

Definition interrupt_run (fresh rid task reason : str) (now : Z) : ctx unit :=
  _ ← update_runs (fun r => (r_id r ==? rid) && (r_status r ==? RunRunning))
        (fun r => r <| r_status := RunInterrupted |> <| r_finished_at := Some now |>);
  db ← gets id;
  _ ← insert_event fresh task rid (next_event_sequence db task) (lit "run_interrupted")
        (VObject [(lit "reason", VString reason); (lit "recoverable", VBool true)]) now;
  _ ← expire_task_approvals task;
  touch_task task now.

Definition finalize_task_cancel (fresh task rid : str) (payload : Value) (now : Z) : ctx unit :=
  _ ← update_runs (fun r => r_id r ==? rid)
        (fun r => r <| r_status := RunInterrupted |> <| r_finished_at := Some now |>);
  db ← gets id;
  _ ← insert_event fresh task rid (next_event_sequence db task) (lit "task_cancelled") payload now;
  _ ← expire_task_approvals task;
  touch_task task now.

(** The execution as it is when the transaction commits. *)
Definition commit_execution (id : str) : ctx ConnectorExecution := require_execution id.
