(* ===== verification/ConnectorTasks.v ===== *)
(** * ConnectorTasks: the operations on a Connector task (task_kernel.rs)

    Every operation is one transaction on the tables.  Identifiers the code draws
    ([new_id]) and the time are arguments.  What an operation reads again after it has
    committed is returned as an option, [None] standing for the error it then gives. *)
From S2P Require Import Prelude RustStr Lifecycle Sql ConnectorModel ConnectorStore.

(** ** Bindings *)

Record ConnectorBinding : Type := mkBinding {
  cb_project_id : str;
  cb_project_name : str;
  cb_workspace_id : str;
  cb_executor_ref : str;
  cb_subject_id : str;
  cb_profile : str;
  cb_now : Z
}.

(** [INSERT ... ON CONFLICT(key) DO UPDATE SET ...]. *)
Definition upsert {A : Type} (same : A -> bool) (upd : A -> A) (row : A) (t : list A) : list A :=
  if existsb same t then rows_update same upd t else t ++ [row].

Definition ensure_connector_binding (fresh : str) (b : ConnectorBinding) : ctx unit :=
  _ ← modify (fun db => db <| projects :=
        upsert (fun p => p_id p ==? cb_project_id b)
          (fun p => p <| p_name := cb_project_name b |> <| p_updated_at := cb_now b |>)
          (mkProjectRow (cb_project_id b) (cb_project_name b) (cb_now b) (cb_now b)) (projects db) |>);
  _ ← modify (fun db => db <| workspaces :=
        upsert (fun w => k_id w ==? cb_workspace_id b)
          (fun w => w <| k_project_id := cb_project_id b |> <| k_executor_ref := cb_executor_ref b |>
                      <| k_updated_at := cb_now b |>)
          (mkWorkspaceRow (cb_workspace_id b) (cb_project_id b) (cb_executor_ref b) (cb_now b) (cb_now b))
          (workspaces db) |>);
  db ← gets id;
  let same g := (g_project_id g ==? cb_project_id b) && (g_subject_id g ==? cb_subject_id b) in
  _ ← reject (negb (existsb same (grants db)) && existsb (fun g => g_id g ==? fresh) (grants db)) Storage;
  modify (fun db => db <| grants :=
    upsert same (fun g => g <| g_profile := cb_profile b |> <| g_updated_at := cb_now b |> <| g_revoked_at := None |>)
      (mkGrant fresh (cb_project_id b) (cb_subject_id b) (cb_profile b) (cb_now b) (cb_now b) None) (grants db) |>).

Record ConnectorWindowBinding : Type := mkWindowBinding {
  wb_window_key : str;
  wb_window_source : str;
  wb_project_root_sha256 : str;
  wb_target_path : str;
  wb_fingerprint : ProjectContextFingerprint;
  wb_now : Z
}.

(** The primary key of a window's context. *)
Definition same_window (b : ConnectorWindowBinding) (project subject : str) (w : WindowContextRow) : bool :=
  (w_window_key w ==? wb_window_key b) && (w_project_id w ==? project) && (w_owner_subject_id w ==? subject)
  && (w_project_root_sha256 w ==? wb_project_root_sha256 b).

Definition bind_window_context (task project subject : str) (b : ConnectorWindowBinding) : ctx unit :=
  _ ← reject (pf_project_root_sha256 (wb_fingerprint b) !=? wb_project_root_sha256 b)
        (InvalidState (lit "window context root identity does not match its fingerprint"));
  db ← gets id;
  _ ← reject (negb (is_some_and (fun t => (t_project_id t ==? project) && (t_owner_subject_id t ==? subject))
                     (task_by_id db task))) NotFound;
  _ ← modify (fun db => db <| windows :=
        List.filter (fun w => negb ((w_task_id w ==? task) && negb (same_window b project subject w))) (windows db) |>);
  modify (fun db => db <| windows :=
    upsert (same_window b project subject)
      (fun w => w <| w_window_source := wb_window_source b |> <| w_task_id := task |> <| w_target_path := wb_target_path b |>
                  <| w_fingerprint := wb_fingerprint b |> <| w_updated_at := wb_now b |>)
      (mkWindowContext (wb_window_key b) (wb_window_source b) project subject (wb_project_root_sha256 b) task
         (wb_target_path b) (wb_fingerprint b) (wb_now b) (wb_now b)) (windows db) |>).

Definition bind_optional (task project subject : str) (b : option ConnectorWindowBinding) : ctx unit :=
  match b with Some b => bind_window_context task project subject b | None => mret tt end.

(** ** Start and continuation *)

Definition validate_connector_task_workspace_shape (mode : ConnectorTaskMode) (isolated : bool)
  (target_root execution_root : str) (baseline_commit baseline_tree : option str) : result unit ConnectorTaskStoreError :=
  match mode with
  | ModeNormal =>
      bail? negb isolated || (execution_root ==? target_root) || is_none_or is_empty baseline_commit
            || is_none_or is_empty baseline_tree
        with InvalidState (lit "normal tasks require an isolated execution root and Git baseline") ;;
      Ok tt
  | ModeReadOnly =>
      bail? isolated || (execution_root !=? target_root)
        with InvalidState (lit "read_only tasks must use the target workspace without isolation") ;;
      Ok tt
  | ModeInspectLegacy => Err (InvalidState (lit "task mode must be normal or read_only"))
  end.

Record NewConnectorTask : Type := mkNewTask {
  nt_task_id : str;
  nt_run_id : str;
  nt_project_id : str;
  nt_workspace_id : str;
  nt_subject_id : str;
  nt_goal : str;
  nt_mode : str;
  nt_target_executor_ref : str;
  nt_execution_executor_ref : str;
  nt_target_root : str;
  nt_execution_root : str;
  nt_baseline_commit : option str;
  nt_baseline_tree : option str;
  nt_isolated : bool;
  nt_now : Z
}.

Definition start_connector_task_transaction (fresh : str) (task : NewConnectorTask)
  (binding : option ConnectorWindowBinding) : ctx ConnectorTaskSnapshot :=
  mode ← lift (mode_requested (nt_mode task));
  _ ← lift (validate_connector_task_workspace_shape mode (nt_isolated task) (nt_target_root task) (nt_execution_root task)
              (nt_baseline_commit task) (nt_baseline_tree task));
  db ← gets id;
  _ ← reject (negb (existsb (fun g => (g_project_id g ==? nt_project_id task) && (g_subject_id g ==? nt_subject_id task)
                                      && is_none (g_revoked_at g)) (grants db))) NotFound;
  _ ← reject (is_some (task_by_id db (nt_task_id task))
              || negb (existsb (fun p => p_id p ==? nt_project_id task) (projects db))) Storage;
  _ ← modify (fun db => db <| tasks := tasks db ++
        [mkTask (nt_task_id task) (nt_project_id task) (nt_subject_id task) (nt_goal task) mode TaskActive
           (nt_now task) (nt_now task) 0] |>);
  _ ← reject (run_exists db (nt_run_id task)
              || negb (existsb (fun w => k_id w ==? nt_workspace_id task) (workspaces db))) Storage;
  _ ← modify (fun db => db <| runs := runs db ++
        [mkRun (nt_run_id task) (nt_task_id task) (nt_workspace_id task) RunRunning (nt_now task) None] |>);
  _ ← reject (is_some (context_of db (nt_run_id task))
              || (nt_isolated task && (is_none (nt_baseline_commit task) || is_none (nt_baseline_tree task)))) Storage;
  _ ← modify (fun db => db <| run_contexts := run_contexts db ++
        [mkRunContext (nt_run_id task) (nt_target_executor_ref task) (nt_execution_executor_ref task) (nt_target_root task)
           (nt_execution_root task) (nt_baseline_commit task) (nt_baseline_tree task) (nt_isolated task) (nt_now task)] |>);
  _ ← insert_event fresh (nt_task_id task) (nt_run_id task) 1 (lit "task_started")
        (VObject [(lit "goal", VString (nt_goal task)); (lit "mode", VString (mode_as_db mode));
                  (lit "isolated", VBool (nt_isolated task)); (lit "baseline_commit", opt_string (nt_baseline_commit task))])
        (nt_now task);
  _ ← bind_optional (nt_task_id task) (nt_project_id task) (nt_subject_id task) binding;
  mret (mkTaskSnapshot (nt_task_id task) (nt_run_id task) (nt_project_id task) (nt_workspace_id task) (nt_subject_id task)
          (nt_goal task) mode TaskActive StActive RunRunning RsRunning 1 (nt_target_executor_ref task)
          (nt_execution_executor_ref task) (nt_target_root task) (nt_execution_root task) (nt_baseline_commit task)
          (nt_baseline_tree task) (nt_isolated task) (nt_now task) (nt_now task)).

Record ConnectorWorkspaceTransition : Type := mkTransition {
  wt_target_executor_ref : str;
  wt_execution_executor_ref : str;
  wt_target_root : str;
  wt_execution_root : str;
  wt_baseline_commit : str;
  wt_baseline_tree : str
}.

Record ConnectorTaskContinuation : Type := mkContinuation {
  ct_task_id : str;
  ct_project_id : str;
  ct_subject_id : str;
  ct_instruction : str;
  ct_mode : str;
  ct_workspace : option ConnectorWorkspaceTransition;
  ct_now : Z
}.

Definition INSPECT_RETIRED : str := lit "inspect_mode_retired: this pre-0.4 inspect task can no longer execute; start a new read_only task for analysis or a new normal task for writable work".
Definition NO_DOWNGRADE : str := lit "normal tasks cannot transition to read_only; finish or reject the current writable task and start a new read_only task".

(** The workspace of the task after the continuation. *)
Definition final_shape (task : ConnectorTaskSnapshot) (w : option ConnectorWorkspaceTransition)
  : bool * str * str * option str * option str :=
  match w with
  | Some w => (true, wt_target_root w, wt_execution_root w, Some (wt_baseline_commit w), Some (wt_baseline_tree w))
  | None => (n_isolated task, n_target_root task, n_execution_root task, n_baseline_commit task, n_baseline_tree task)
  end.

Definition upgrade_context (w : ConnectorWorkspaceTransition) (c : RunContextRow) : RunContextRow :=
  c <| x_target_executor_ref := wt_target_executor_ref w |> <| x_execution_executor_ref := wt_execution_executor_ref w |>
    <| x_target_root := wt_target_root w |> <| x_execution_root := wt_execution_root w |>
    <| x_baseline_commit := Some (wt_baseline_commit w) |> <| x_baseline_tree := Some (wt_baseline_tree w) |>
    <| x_isolated := true |>.

Definition continue_connector_task_transaction (fresh : str) (c : ConnectorTaskContinuation)
  (binding : option ConnectorWindowBinding) : ctx (option ConnectorTaskSnapshot * Z * ConnectorTaskMode) :=
  requested_mode ← lift (mode_requested (ct_mode c));
  task ← require_task (ct_task_id c) (ct_project_id c) (ct_subject_id c);
  _ ← require_running task;
  _ ← reject (n_mode task ==? ModeInspectLegacy) (InvalidState INSPECT_RETIRED);
  _ ← reject (n_task_status task !=? StActive) (InvalidState (lit "only an active task can continue"));
  _ ← reject ((n_mode task ==? ModeNormal) && (requested_mode ==? ModeReadOnly)) (InvalidState NO_DOWNGRADE);
  _ ← reject ((requested_mode ==? ModeNormal) && negb (n_isolated task) && is_none (ct_workspace c))
        (InvalidState (lit "read-only workspace must be upgraded before enabling writes"));
  let '(isolated, target_root, execution_root, baseline_commit, baseline_tree) := final_shape task (ct_workspace c) in
  _ ← lift (validate_connector_task_workspace_shape requested_mode isolated target_root execution_root baseline_commit
              baseline_tree);
  _ ← match ct_workspace c with
      | Some w => modify (fun db => db <| run_contexts :=
                    rows_update (fun x => x_run_id x ==? n_run_id task) (upgrade_context w) (run_contexts db) |>)
      | None => mret tt
      end;
  _ ← update_tasks (fun t => t_id t ==? ct_task_id c)
        (fun t => t <| t_mode := requested_mode |> <| t_updated_at := ct_now c |>);
  let sequence := (n_event_cursor task + 1)%Z in
  _ ← insert_event fresh (n_task_id task) (n_run_id task) sequence (lit "task_instruction")
        (VObject [(lit "instruction", VString (ct_instruction c)); (lit "previous_mode", VString (mode_as_db (n_mode task)));
                  (lit "mode", VString (mode_as_db requested_mode));
                  (lit "capability_changed", VBool (n_mode task !=? requested_mode));
                  (lit "workspace_upgraded", VBool (is_some (ct_workspace c)))]) (ct_now c);
  _ ← bind_optional (n_task_id task) (ct_project_id c) (ct_subject_id c) binding;
  after ← gets (fun db => load_task db (ct_task_id c) (ct_project_id c) (ct_subject_id c));
  mret (after, sequence, n_mode task).

Definition check_shape (task : ConnectorTaskSnapshot) : ctx unit :=
  lift (validate_connector_task_workspace_shape (n_mode task) (n_isolated task) (n_target_root task) (n_execution_root task)
          (n_baseline_commit task) (n_baseline_tree task)).

Definition append_interrupted_connector_instruction_transaction (fresh task_id project subject instruction mode : str)
  (now : Z) (binding : option ConnectorWindowBinding) : ctx Z :=
  requested_mode ← lift (mode_requested mode);
  task ← require_task task_id project subject;
  _ ← reject (n_mode task ==? ModeInspectLegacy) (InvalidState INSPECT_RETIRED);
  _ ← reject ((n_mode task ==? ModeNormal) && (requested_mode ==? ModeReadOnly)) (InvalidState NO_DOWNGRADE);
  _ ← check_shape task;
  _ ← reject ((n_run_status task !=? RsInterrupted) || (n_task_status task !=? StNeedsAttention))
        (InvalidState (lit "only an interrupted task accepts a blocked continuation instruction"));
  let sequence := (n_event_cursor task + 1)%Z in
  _ ← insert_event fresh task_id (n_run_id task) sequence (lit "task_instruction")
        (VObject [(lit "instruction", VString instruction); (lit "mode", VString (mode_as_db requested_mode));
                  (lit "applied", VBool false); (lit "blocked_by", VString (lit "task_interrupted"))]) now;
  _ ← touch_task task_id now;
  _ ← bind_optional task_id project subject binding;
  mret sequence.

(** ** Events and guidance *)

Definition append_connector_task_event (fresh task_id project subject kind : str) (payload : Value) (now : Z) : ctx Z :=
  task ← require_task task_id project subject;
  _ ← require_running task;
  let sequence := (n_event_cursor task + 1)%Z in
  _ ← insert_event fresh (n_task_id task) (n_run_id task) sequence kind payload now;
  _ ← touch_task task_id now;
  mret sequence.

Definition append_connector_decision_guidance (fresh task_id project subject : str) (payload : Value) (now : Z) : ctx Z :=
  task ← require_task task_id project subject;
  let sequence := (n_event_cursor task + 1)%Z in
  _ ← insert_event fresh (n_task_id task) (n_run_id task) sequence (lit "human_guidance") payload now;
  _ ← touch_task task_id now;
  mret sequence.

Definition is_guidance (task : str) (e : EventRow) : bool :=
  (v_task_id e ==? task) && (v_kind e ==? lit "human_guidance").

Definition by_sequence (a b : EventRow) : bool := Z.leb (v_sequence a) (v_sequence b).

(** The guidance above the watermark, oldest first. *)
Definition pending_guidance (db : Db) (task : str) (seen : Z) : list EventRow :=
  sort_by by_sequence (List.filter (fun e => is_guidance task e && Z.ltb seen (v_sequence e)) (events db)).

(** [iter().map(sequence).max()]. *)
Definition max_claimed (l : list EventRow) : option Z :=
  foldr (fun e acc => Some (match acc with Some m => Z.max (v_sequence e) m | None => v_sequence e end)) None l.

Definition claim_pending_connector_guidance (task_id project subject : str) (max_guidance : Z) : ctx (list EventRow) :=
  _ ← require_task task_id project subject;
  db ← gets id;
  t ← or_fail (task_by_id db task_id) Storage;
  let claimed := limit_rows (as_i64 max_guidance) (pending_guidance db task_id (t_guidance_seen_seq t)) in
  _ ← match max_claimed claimed with
      | Some max_seq => update_tasks (fun t => (t_id t ==? task_id) && (t_project_id t ==? project))
                          (fun t => t <| t_guidance_seen_seq := Z.max (t_guidance_seen_seq t) max_seq |>)
      | None => mret tt
      end;
  mret claimed.

(** [connector_guidance_read_state]: the watermark and the newest unread guidance. *)
Definition connector_guidance_read_state (db : Db) (task_id project : str) : option (Z * option Z) :=
  t ← task_by_id db task_id;
  if t_project_id t ==? project
  then Some (t_guidance_seen_seq t, max_claimed (pending_guidance db task_id (t_guidance_seen_seq t)))
  else None.

(** The last [limit] events of a task, oldest first. *)
Definition connector_task_events (db : Db) (task_id project subject : str) (limit : Z)
  : result (list EventRow) ConnectorTaskStoreError :=
  match load_task db task_id project subject with
  | None => Err NotFound
  | Some _ =>
      Ok (rev (limit_rows (as_i64 limit)
        (sort_by (fun a b => Z.leb (v_sequence b) (v_sequence a)) (List.filter (fun e => v_task_id e ==? task_id) (events db)))))
  end.

(** The paths one applied edit reports. *)
Definition applied_of (e : EventRow) : list str :=
  match value_get (v_payload e) (lit "ok"), value_get (v_payload e) (lit "dry_run") with
  | VBool true, VBool true => []
  | VBool true, _ =>
      match value_get (v_payload e) (lit "changed_paths") with
      | VArray l => omap (fun v => match v with VString s => Some s | _ => None end) l
      | _ => []
      end
  | _, _ => []
  end.

(** The distinct paths in first-seen order. *)
Definition first_seen (l : list str) : list str := fold_left (fun acc p => if one_of p acc then acc else acc ++ [p]) l [].

Record AppliedPaths : Type := mkApplied { ap_paths : list str; ap_total : nat; ap_complete : bool }.

Definition connector_task_applied_paths (db : Db) (task_id project subject : str) (cap : nat)
  : result AppliedPaths ConnectorTaskStoreError :=
  match load_task db task_id project subject with
  | None => Err NotFound
  | Some _ =>
      let edits := sort_by by_sequence
        (List.filter (fun e => (v_task_id e ==? task_id) && (v_kind e ==? lit "edits_apply")) (events db)) in
      let seen := first_seen (concat (map applied_of edits)) in
      let paths := take cap seen in
      Ok (mkApplied paths (length seen) (Nat.eqb (length paths) (length seen)))
  end.

(** ** Edit operations *)

Inductive ConnectorEditOperationGate : Type :=
| EditStarted
| EditReplay (result : Value)
| EditInProgress
| EditConflict.

Definition edit_key (task operation : str) (o : EditOperationRow) : bool :=
  (o_task_id o ==? task) && (o_operation_id o ==? operation).

Definition begin_connector_edit_operation (task_id project subject operation request_sha256 : str) (now : Z)
  : ctx ConnectorEditOperationGate :=
  task ← require_task task_id project subject;
  _ ← require_running task;
  db ← gets id;
  match find (edit_key task_id operation) (edits db) with
  | Some o =>
      if o_request_sha256 o !=? request_sha256 then mret EditConflict
      else match o_state o, o_result o with
           | EditPending, None => mret EditInProgress
           | EditCompleted, Some v => mret (EditReplay v)
           | EditFailed, None =>
               let sel o := edit_key task_id operation o && (o_request_sha256 o ==? request_sha256)
                            && (o_state o ==? EditFailed) in
               let updated := rows_matched sel (edits db) in
               _ ← modify (fun db => db <| edits :=
                     rows_update sel (fun o => o <| o_state := EditPending |> <| o_updated_at := now |>) (edits db) |>);
               mret (if Nat.eqb updated 1 then EditStarted else EditInProgress)
           | _, _ => fail (InvalidState (lit "edit operation state is inconsistent"))
           end
  | None =>
      _ ← modify (fun db => db <| edits := edits db ++
            [mkEditOperation task_id operation request_sha256 EditPending None now now] |>);
      mret EditStarted
  end.

(** The row a pending operation of this request has. *)
Definition pending_edit (task operation request_sha256 : str) (o : EditOperationRow) : bool :=
  edit_key task operation o && (o_request_sha256 o ==? request_sha256) && (o_state o ==? EditPending).

Definition settle_edit (task operation request_sha256 : str) (upd : EditOperationRow -> EditOperationRow) (message : str)
  : ctx unit :=
  db ← gets id;
  _ ← reject (negb (Nat.eqb (rows_matched (pending_edit task operation request_sha256) (edits db)) 1))
        (InvalidState message);
  modify (fun db => db <| edits := rows_update (pending_edit task operation request_sha256) upd (edits db) |>).

Definition complete_connector_edit_operation (task_id project subject operation request_sha256 : str) (result : Value)
  (now : Z) : ctx unit :=
  task ← require_task task_id project subject;
  _ ← require_running task;
  settle_edit task_id operation request_sha256
    (fun o => o <| o_state := EditCompleted |> <| o_result := Some result |> <| o_updated_at := now |>)
    (lit "edit operation could not be completed").

Definition fail_connector_edit_operation (task_id operation request_sha256 : str) (now : Z) : ctx unit :=
  settle_edit task_id operation request_sha256 (fun o => o <| o_state := EditFailed |> <| o_updated_at := now |>)
    (lit "edit operation could not be marked failed").

(** ** Results *)

Record NewConnectorResult : Type := mkNewResult {
  nr_result_id : str;
  nr_summary : str;
  nr_patch_artifact : option str;
  nr_patch_sha256 : option str;
  nr_patch_bytes : Z;
  nr_changed_paths : list str;
  nr_validation : Value;
  nr_warnings : list str
}.

Definition patch_metadata_valid (r : NewConnectorResult) : bool :=
  if Z.eqb (nr_patch_bytes r) 0 then is_none (nr_patch_artifact r) && is_none (nr_patch_sha256 r)
  else is_some (nr_patch_artifact r) && is_some (nr_patch_sha256 r).

(** The keys and the CHECK on the patch of [wc_task_results]. *)
Definition result_admissible (db : Db) (s : ResultRow) : bool :=
  negb (existsb (fun o => (s_id o ==? s_id s) || (s_task_id o ==? s_task_id s) || (s_run_id o ==? s_run_id s)) (results db))
  && (if Z.eqb (s_patch_bytes s) 0 then is_none (s_patch_artifact s) && is_none (s_patch_sha256 s)
      else Z.ltb 0 (s_patch_bytes s) && is_some (s_patch_artifact s) && is_some (s_patch_sha256 s)).

Definition insert_result (s : ResultRow) : ctx unit :=
  db ← gets id;
  _ ← reject (negb (result_admissible db s)) Storage;
  modify (fun db => db <| results := results db ++ [s] |>).

Definition finish_connector_task (fresh task_id project subject : str) (r : NewConnectorResult) (now : Z) : ctx Z :=
  _ ← reject (negb (patch_metadata_valid r)) (InvalidState (lit "task result patch metadata is inconsistent"));
  task ← require_task task_id project subject;
  _ ← require_running task;
  let sequence := (n_event_cursor task + 1)%Z in
  _ ← insert_event fresh (n_task_id task) (n_run_id task) sequence (lit "task_finished")
        (VObject [(lit "result_id", VString (nr_result_id r)); (lit "summary", VString (nr_summary r));
                  (lit "patch_sha256", opt_string (nr_patch_sha256 r)); (lit "patch_bytes", VInt (nr_patch_bytes r));
                  (lit "changed_file_count", VInt (Z.of_nat (length (nr_changed_paths r))));
                  (lit "warning_count", VInt (Z.of_nat (length (nr_warnings r))))]) now;
  _ ← insert_result (mkResult (nr_result_id r) (n_task_id task) (n_run_id task) (nr_summary r) (nr_patch_artifact r)
        (nr_patch_sha256 r) (as_i64 (nr_patch_bytes r)) (nr_changed_paths r) (nr_validation r) (nr_warnings r)
        DecisionPending None None None now);
  _ ← update_runs (fun x => r_id x ==? n_run_id task)
        (fun x => x <| r_status := RunCompleted |> <| r_finished_at := Some now |>);
  _ ← update_tasks (fun t => t_id t ==? n_task_id task)
        (fun t => t <| t_status := TaskReadyForReview |> <| t_updated_at := now |>);
  _ ← expire_task_approvals (n_task_id task);
  mret sequence.

Definition update_results (sel : ResultRow -> bool) (upd : ResultRow -> ResultRow) : ctx unit :=
  modify (fun db => db <| results := rows_update sel upd (results db) |>).

(** [cleanup_warning || '; ' || warning]. *)
Definition join_warning (old : option str) (warning : str) : str :=
  match old with Some w => w ++ lit "; " ++ warning | None => warning end.

Definition record_connector_workspace_release (fresh task_id project subject : str) (released : bool)
  (cleanup_warning : option str) (now : Z) : ctx Z :=
  task ← require_task task_id project subject;
  _ ← reject (negb ((n_task_status task ==? StReadyForReview) || (n_task_status task ==? StAccepted)
                    || (n_task_status task ==? StRejected)) || (n_run_status task !=? RsCompleted))
        (InvalidState (lit "workspace release can only follow a completed task result"));
  db ← gets id;
  _ ← reject (is_none (load_result db task_id)) (InvalidState (lit "workspace release requires a stable task result"));
  _ ← match cleanup_warning with
      | Some warning => update_results (fun s => s_task_id s ==? task_id)
                          (fun s => s <| s_cleanup_warning := Some (join_warning (s_cleanup_warning s) warning) |>)
      | None => when released (update_results (fun s => s_task_id s ==? task_id) (fun s => s <| s_cleanup_warning := None |>))
      end;
  let sequence := (n_event_cursor task + 1)%Z in
  _ ← insert_event fresh task_id (n_run_id task) sequence (lit "workspace_release")
        (VObject [(lit "released", VBool released); (lit "cleanup_warning", opt_string cleanup_warning)]) now;
  _ ← touch_task task_id now;
  mret sequence.

Definition owner_of (task_id project : str) : ctx str :=
  db ← gets id;
  t ← or_fail (opt_filter (fun t => t_project_id t ==? project) (task_by_id db task_id)) NotFound;
  mret (t_owner_subject_id t).

Definition resume_connector_task (fresh task_id project actor : str) (now : Z) : ctx (option ConnectorTaskSnapshot) :=
  subject ← owner_of task_id project;
  task ← require_task task_id project subject;
  _ ← reject (n_mode task ==? ModeInspectLegacy)
        (InvalidState (lit "inspect_mode_retired: this pre-0.4 inspect task can no longer execute; reject it locally and start a new read_only or normal task"));
  _ ← check_shape task;
  _ ← reject ((n_run_status task !=? RsInterrupted) || (n_task_status task !=? StNeedsAttention))
        (InvalidState (lit "only an interrupted task can be resumed"));
  db ← gets id;
  _ ← reject (is_some (load_result db task_id)) (InvalidState (lit "a task with a stable result cannot be resumed"));
  _ ← update_runs (fun x => r_id x ==? n_run_id task)
        (fun x => x <| r_status := RunRunning |> <| r_finished_at := None |>);
  _ ← insert_event fresh task_id (n_run_id task) (n_event_cursor task + 1) (lit "run_resumed")
        (VObject [(lit "actor", VString actor)]) now;
  _ ← touch_task task_id now;
  gets (fun db => load_task db task_id project subject).

(** The latest run of a task in a project among those [sel] selects, joined without its context. *)
Definition project_run (db : Db) (task_id project : str) (sel : RunRow -> bool) : option RunRow :=
  t ← task_by_id db task_id;
  if t_project_id t ==? project
  then latest_by r_started_at (List.filter (fun r => (r_task_id r ==? task_id) && sel r) (runs db))
  else None.

Definition ABANDONED : str := lit "Interrupted task abandoned locally without capturing a patch.".

Definition abandon_interrupted_connector_task (fresh result_id task_id project actor : str) (now : Z) : ctx (option ResultRow) :=
  db ← gets id;
  run ← or_fail (if is_some (load_result db task_id) then None
               else project_run db task_id project (fun r => r_status r ==? RunInterrupted))
          (InvalidState (lit "only an interrupted task without a Result can be abandoned"));
  _ ← insert_result (mkResult result_id task_id (r_id run) ABANDONED None None 0 [] (VObject [(lit "status", VString (lit "not_run"))])
        [lit "interrupted workspace changes were discarded locally"] DecisionRejected (Some actor) (Some now) None now);
  _ ← insert_event fresh task_id (r_id run) (max_sequence db task_id + 1) (lit "task_abandoned")
        (VObject [(lit "actor", VString actor); (lit "result_id", VString result_id); (lit "changes_captured", VBool false)]) now;
  _ ← update_runs (fun x => r_id x ==? r_id run)
        (fun x => x <| r_status := RunCompleted |> <| r_finished_at := Some now |>);
  _ ← update_tasks (fun t => t_id t ==? task_id)
        (fun t => t <| t_status := TaskReadyForReview |> <| t_updated_at := now |>);
  _ ← expire_task_approvals task_id;
  gets (fun db => load_result db task_id).

(** ** Approvals *)

Inductive ConnectorApprovalGate : Type :=
| GatePending (a : ConnectorApproval)
| GateDenied (a : ConnectorApproval)
| GateExpired (a : ConnectorApproval)
| GateConsumed (a : ConnectorApproval)
| GateAuthorized (a : ConnectorApproval).

(** The keys and CHECK of [wc_approvals]. *)
Definition approval_admissible (db : Db) (a : ConnectorApproval) : bool :=
  negb (existsb (fun o => (a_id o ==? a_id a)
                          || ((a_task_id o ==? a_task_id a) && (a_run_id o ==? a_run_id a) && (a_action_hash o ==? a_action_hash a)))
         (approvals db))
  && Z.ltb (a_requested_at a) (a_expires_at a).

Definition insert_approval (a : ConnectorApproval) : ctx unit :=
  db ← gets id;
  _ ← reject (negb (approval_admissible db a)) Storage;
  modify (fun db => db <| approvals := approvals db ++ [a] |>).

Definition expire_approval (id : str) (from : ConnectorApprovalState) : ctx unit :=
  update_approvals (fun a => (a_id a ==? id) && (a_state a ==? from)) (fun a => a <| a_state := ApprovalExpired |>).

Definition renewed (now expires_at : Z) (a : ConnectorApproval) : ConnectorApproval :=
  a <| a_state := ApprovalPending |> <| a_requested_at := now |> <| a_expires_at := expires_at |>
    <| a_decided_by := None |> <| a_decided_at := None |> <| a_consumed_at := None |>.

Definition consumed (now : Z) (a : ConnectorApproval) : ConnectorApproval :=
  a <| a_state := ApprovalConsumed |> <| a_consumed_at := Some now |>.

(** The gate of an approval that exists. *)
Definition gate_approval (fresh : str) (task : ConnectorTaskSnapshot) (task_id action_kind action_hash : str)
  (now expires_at : Z) (a : ConnectorApproval) : ctx ConnectorApprovalGate :=
  match a_state a with
  | ApprovalPending =>
      if Z.leb (a_expires_at a) now then
        _ ← expire_approval (a_id a) ApprovalPending;
        mret (GateExpired (a <| a_state := ApprovalExpired |>))
      else mret (GatePending a)
  | ApprovalApproved =>
      if Z.leb (a_expires_at a) now then
        _ ← expire_approval (a_id a) ApprovalApproved;
        mret (GateExpired (a <| a_state := ApprovalExpired |>))
      else
        db ← gets id;
        let sel x := (a_id x ==? a_id a) && (a_state x ==? ApprovalApproved) in
        _ ← reject (negb (Nat.eqb (rows_matched sel (approvals db)) 1)) (InvalidState (lit "approval was already consumed"));
        _ ← update_approvals sel (consumed now);
        _ ← insert_event fresh task_id (n_run_id task) (n_event_cursor task + 1) (lit "approval_consumed")
              (VObject [(lit "approval_id", VString (a_id a)); (lit "action_hash", VString (a_action_hash a))]) now;
        _ ← touch_task task_id now;
        mret (GateAuthorized (consumed now a))
  | ApprovalDenied => mret (GateDenied a)
  | ApprovalExpired =>
      _ ← reject (negb (Z.ltb now expires_at)) Storage;
      _ ← update_approvals (fun x => (a_id x ==? a_id a) && (a_state x ==? ApprovalExpired)) (renewed now expires_at);
      _ ← insert_event fresh task_id (n_run_id task) (n_event_cursor task + 1) (lit "approval_requested")
            (VObject [(lit "approval_id", VString (a_id a)); (lit "action_kind", VString action_kind);
                      (lit "action_hash", VString action_hash); (lit "expires_at", VInt expires_at);
                      (lit "renewed", VBool true)]) now;
      _ ← touch_task task_id now;
      mret (GatePending (renewed now expires_at a))
  | ApprovalConsumed => mret (GateConsumed a)
  end.

Definition request_or_consume_connector_approval (fresh approval_id task_id project subject action_kind action_hash
  action_summary : str) (now expires_at : Z) : ctx ConnectorApprovalGate :=
  task ← require_task task_id project subject;
  _ ← require_running task;
  db ← gets id;
  a ← match load_approval_by_hash db task_id (n_run_id task) action_hash with
      | Some a => mret a
      | None =>
          let a := mkApproval approval_id task_id (n_run_id task) action_kind action_hash action_summary ApprovalPending now
                     expires_at None None None None in
          _ ← insert_approval a;
          _ ← insert_event fresh task_id (n_run_id task) (n_event_cursor task + 1) (lit "approval_requested")
                (VObject [(lit "approval_id", VString approval_id); (lit "action_kind", VString action_kind);
                          (lit "action_hash", VString action_hash); (lit "expires_at", VInt expires_at)]) now;
          _ ← touch_task task_id now;
          mret a
      end;
  gate_approval fresh task task_id action_kind action_hash now expires_at a.

(** The inner result is what the call returns once it has committed. *)
Definition decide_connector_approval (fresh task_id project approval_id : str) (approve : bool) (actor : str)
  (reason : option str) (now : Z) : ctx (result (option ConnectorApproval) ConnectorTaskStoreError) :=
  subject ← owner_of task_id project;
  task ← require_task task_id project subject;
  _ ← require_running task;
  db ← gets id;
  a ← or_fail (load_approval db approval_id task_id) NotFound;
  _ ← reject (a_state a !=? ApprovalPending)
        (InvalidState (lit "approval is " ++ approval_state_as_db (a_state a) ++ lit "; only pending approvals can be decided"));
  if Z.leb (a_expires_at a) now then
    _ ← update_approvals (fun x => a_id x ==? approval_id) (fun x => x <| a_state := ApprovalExpired |>);
    mret (Err (InvalidState (lit "approval expired; submit the exact action again to request a new decision")))
  else
    let state := if approve then ApprovalApproved else ApprovalDenied in
    let reason := opt_filter (fun r => negb (is_empty r)) (trim <$> reason) in
    _ ← update_approvals (fun x => (a_id x ==? approval_id) && (a_state x ==? ApprovalPending))
          (fun x => x <| a_state := state |> <| a_decided_by := Some actor |> <| a_decided_at := Some now |>
                      <| a_decision_reason := reason |>);
    db ← gets id;
    _ ← insert_event fresh task_id (a_run_id a) (max_sequence db task_id + 1)
          (if approve then lit "approval_granted" else lit "approval_denied")
          (VObject [(lit "approval_id", VString approval_id); (lit "action_hash", VString (a_action_hash a));
                    (lit "actor", VString actor); (lit "reason", opt_string reason)]) now;
    _ ← touch_task task_id now;
    after ← gets (fun db => load_approval db approval_id task_id);
    mret (Ok after).

(** ** Decisions on a result *)

(** The number of rows the insert of an intent writes, and the table after it. *)
Definition put_intent (row : DecisionIntentRow) (t : list DecisionIntentRow) : list DecisionIntentRow * nat :=
  match find (fun i => i_task_id i ==? i_task_id row) t with
  | None => (t ++ [row], 1)
  | Some _ =>
      let sel i := (i_task_id i ==? i_task_id row) && (i_result_id i ==? i_result_id row)
                   && (i_state i ==? RecoveryNeedsAttention) && (i_decision row ==? DecideRejected) in
      (rows_update sel (fun i => i <| i_decision := i_decision row |> <| i_actor := i_actor row |>
                                   <| i_started_at := i_started_at row |> <| i_state := RecoveryPending |>
                                   <| i_error_code := None |> <| i_error_message := None |> <| i_last_attempt_at := None |>) t,
       rows_matched sel t)
  end.

(** The pending result a decision may start on. *)
Definition decidable_result (db : Db) (task_id project result_id : str) : bool :=
  is_some_and (fun t => t_project_id t ==? project) (task_by_id db task_id)
  && existsb (fun s => (s_task_id s ==? task_id) && (s_id s ==? result_id) && (s_decision_status s ==? DecisionPending))
       (results db).

Definition begin_connector_result_decision (task_id project result_id decision actor : str) (now : Z) : ctx unit :=
  decision ← lift (decision_requested decision);
  db ← gets id;
  let lost := DecisionError (lit "result_decision_in_progress") (lit "another result decision won the durable intent race") in
  _ ← reject (negb (decidable_result db task_id project result_id)) lost;
  let '(t, inserted) := put_intent (mkDecisionIntent task_id result_id decision actor now RecoveryPending None None None) (intents db) in
  _ ← modify (fun db => db <| intents := t |>);
  reject (negb (Nat.eqb inserted 1)) lost.

Definition abort_connector_result_decision (task_id result_id : str) : ctx unit :=
  modify (fun db => db <| intents :=
    List.filter (fun i => negb ((i_task_id i ==? task_id) && (i_result_id i ==? result_id))) (intents db) |>).

(** The decisions a restarted Server takes up again. *)
Definition connector_result_decision_intents (db : Db) (project : str) : list (str * str * ConnectorResultDecision) :=
  let le a b := if Z.ltb (i_started_at a) (i_started_at b) then true
                else Z.eqb (i_started_at a) (i_started_at b) && str_leb (i_task_id a) (i_task_id b) in
  map (fun i => (i_task_id i, i_result_id i, i_decision i))
    (sort_by le (List.filter (fun i => is_some_and (fun t => t_project_id t ==? project) (task_by_id db (i_task_id i))
                                        && (i_state i ==? RecoveryPending)) (intents db))).

Definition mark_connector_result_decision_needs_attention (fresh task_id project result_id error_code error_message : str)
  (now : Z) : ctx unit :=
  db ← gets id;
  run ← or_fail (project_run db task_id project (fun _ => true)) NotFound;
  let sel i := (i_task_id i ==? task_id) && (i_result_id i ==? result_id) && (i_state i ==? RecoveryPending) in
  _ ← reject (negb (Nat.eqb (rows_matched sel (intents db)) 1))
        (DecisionError (lit "result_recovery_state_changed") (lit "result recovery state changed while it was being quarantined"));
  _ ← modify (fun db => db <| intents :=
        rows_update sel (fun i => i <| i_state := RecoveryNeedsAttention |> <| i_error_code := Some error_code |>
                                    <| i_error_message := Some error_message |> <| i_last_attempt_at := Some now |>) (intents db) |>);
  _ ← update_runs (fun x => r_id x ==? r_id run)
        (fun x => x <| r_status := RunInterrupted |> <| r_finished_at := coalesce (r_finished_at x) (Some now) |>);
  _ ← insert_event fresh task_id (r_id run) (max_sequence db task_id + 1) (lit "result_recovery_needs_attention")
        (VObject [(lit "result_id", VString result_id); (lit "error_code", VString error_code);
                  (lit "error_message", VString error_message)]) now;
  touch_task task_id now.

(** The intent, the result and the run a decision is finalized on. *)
Definition decision_target (db : Db) (task_id project result_id : str) : option (DecisionIntentRow * RunRow) :=
  i ← find (fun i => (i_task_id i ==? task_id) && (i_result_id i ==? result_id) && (i_state i ==? RecoveryPending)) (intents db);
  t ← opt_filter (fun t => t_project_id t ==? project) (task_by_id db task_id);
  s ← opt_filter (fun s => s_decision_status s ==? DecisionPending) (load_result db task_id);
  r ← find (fun r => r_id r ==? s_run_id s) (runs db);
  Some (i, r).

Definition ALREADY_DECIDED : ConnectorTaskStoreError :=
  DecisionError (lit "result_already_decided") (lit "task result was already decided").

Definition finalize_connector_result_decision (fresh task_id project result_id : str) (cleanup_warning : option str) (now : Z)
  : ctx (option ResultRow) :=
  db ← gets id;
  found ← or_fail (decision_target db task_id project result_id) ALREADY_DECIDED;
  let '(i, run) := found in
  let sel s := (s_task_id s ==? task_id) && (s_id s ==? result_id) && (s_decision_status s ==? DecisionPending) in
  _ ← reject (negb (Nat.eqb (rows_matched sel (results db)) 1)) ALREADY_DECIDED;
  _ ← update_results sel
        (fun s => s <| s_decision_status := decided (i_decision i) |> <| s_decided_by := Some (i_actor i) |>
                    <| s_decided_at := Some now |> <| s_cleanup_warning := coalesce cleanup_warning (s_cleanup_warning s) |>);
  _ ← update_tasks (fun t => t_id t ==? task_id)
        (fun t => t <| t_status := decided_lifecycle (i_decision i) |> <| t_updated_at := now |>);
  _ ← update_runs (fun x => r_id x ==? r_id run)
        (fun x => x <| r_status := RunCompleted |> <| r_finished_at := coalesce (r_finished_at x) (Some now) |>);
  _ ← insert_event fresh task_id (r_id run) (max_sequence db task_id + 1)
        (match i_decision i with DecideAccepted => lit "task_accepted" | DecideRejected => lit "task_rejected" end)
        (VObject [(lit "decision", VString (decision_as_db (i_decision i))); (lit "actor", VString (i_actor i));
                  (lit "cleanup_warning", opt_string cleanup_warning)]) now;
  _ ← modify (fun db => db <| intents := List.filter (fun i => negb (i_task_id i ==? task_id)) (intents db) |>);
  gets (fun db => load_result db task_id).
