(* ===== verification/ConnectorExecutions.v ===== *)
(** * ConnectorExecutions: the durable lifecycle of executions (executions.rs, execution_model.rs)

    What an observation of the executor means for an execution ([observed_state]), and
    the transactions that reserve, start, attach, observe, cancel, finish and recover
    executions and deliver their terminal continuations. *)
From S2P Require Import Prelude RustStr Lifecycle Sql ConnectorModel ConnectorStore.

Definition MAX_ASSERTION_EVIDENCE_BYTES : Z := 16 * 1024.
Definition MAX_MCP_TASK_OUTPUT_TAIL_BYTES : Z := 4 * 1024 * 1024.

Definition is_active_execution (e : ConnectorExecution) : bool := state_is_active (e_state e).
Definition is_terminal_execution (e : ConnectorExecution) : bool := state_is_terminal (e_state e).
Definition blocks_finish (e : ConnectorExecution) : bool := state_blocks_finish (e_state e).
Definition terminal_continuation_is_armed (e : ConnectorExecution) : bool :=
  (e_continuation_intent e ==? IntentArmedForTerminal) && is_some (e_continuation_armed_at e).
Definition mcp_task_is_materialized (e : ConnectorExecution) : bool := is_some (e_mcp_task_materialized_at e).
Definition mcp_task_result_is_finalized (e : ConnectorExecution) : bool := is_some (e_mcp_task_result_finalized_at e).
Definition executor_status_recognized (status : str) : bool :=
  (status ==? lit "recovering") || match from_wire status with Ok _ => true | Err _ => false end.

(** ** Observations *)

Record ConnectorExecutionObservation : Type := mkObservationOf {
  ob_executor_status : str;
  ob_stdout_cursor : Z;
  ob_stderr_cursor : Z;
  ob_exit_code : option Z;
  ob_started_at : option Z;
  ob_finished_at : option Z;
  ob_check_completed : option Z;
  ob_failed_check : option str;
  ob_assertion_evidence : option Value;
  ob_validated_workspace_sha256 : option str;
  ob_executor_failure_code : option str;
  ob_mcp_task_output_tail : option Value;
  ob_now : Z
}.

Abbreviation StateOutcome := (ConnectorExecutionState * option str * option str * option str)%type.

Definition active_state (e : ConnectorExecution) (s : ConnectorExecutionState) : StateOutcome :=
  (if e_state e ==? ExCancelRequested then ExCancelRequested else s, None, None, None).
Definition failed_outcome (source code reason : str) : StateOutcome := (ExFailed, Some source, Some code, Some reason).
Definition unknown_outcome (code : str) : StateOutcome :=
  (ExUnknown, Some (lit "executor"), Some code, Some (lit "executor_terminal_unknown")).
Definition succeeded_outcome : StateOutcome := (ExSucceeded, None, None, Some (lit "exit_zero")).

Definition plan_len (e : ConnectorExecution) : Z := Z.of_nat (length (e_check_plan e)).

(** A completed Job. *)
Definition completed_outcome (e : ConnectorExecution) (ob : ConnectorExecutionObservation) : StateOutcome :=
  match e_kind e with
  | KindCheck =>
      if (ob_exit_code ob ==? Some 0%Z) && (ob_check_completed ob ==? Some (plan_len e)) && is_none (ob_failed_check ob)
      then succeeded_outcome
      else failed_outcome (lit "executor")
             (if is_none (ob_check_completed ob) then lit "validation_progress_missing" else lit "validation_progress_incomplete")
             (lit "executor_protocol_violation")
  | KindCommand =>
      if ob_exit_code ob ==? Some 0%Z then succeeded_outcome
      else if is_none (ob_exit_code ob) then unknown_outcome (lit "executor_exit_code_missing")
      else failed_outcome (lit "command") (lit "nonzero_exit") (lit "nonzero_exit")
  end.

(** A stopped or cancelled Job. *)
Definition stopped_outcome (e : ConnectorExecution) : StateOutcome :=
  if (e_state e ==? ExCancelRequested) && (e_failure_code e ==? Some (lit "queue_deadline"))
  then failed_outcome (lit "queue") (lit "queue_deadline") (lit "queue_timeout")
  else if e_state e ==? ExCancelRequested then (ExCancelled, None, None, Some (lit "user_cancelled"))
  else active_state e ExRunning.

(** A failed Job. *)
Definition job_failed_outcome (e : ConnectorExecution) (ob : ConnectorExecutionObservation) : StateOutcome :=
  match e_kind e with
  | KindCheck =>
      if is_some (ob_failed_check ob) && is_some_and (fun n => Z.ltb n (plan_len e)) (ob_check_completed ob)
      then failed_outcome (lit "check") (lit "assertion_failed") (lit "nonzero_exit")
      else failed_outcome (lit "executor")
             (if is_none (ob_check_completed ob) then lit "validation_progress_missing" else lit "validation_progress_invalid")
             (lit "executor_protocol_violation")
  | KindCommand => failed_outcome (lit "command") (lit "nonzero_exit") (lit "nonzero_exit")
  end.

Definition observed_state (e : ConnectorExecution) (ob : ConnectorExecutionObservation) : StateOutcome :=
  match ob_executor_failure_code ob with
  | Some code => failed_outcome (lit "executor") code (lit "executor_protocol_violation")
  | None =>
      if ob_executor_status ob ==? lit "recovering"
      then active_state e (if e_state e ==? ExQueued then ExQueued else ExRunning)
      else match from_wire (ob_executor_status ob) with
           | Err _ => active_state e ExRunning
           | Ok Queued | Ok RunnerQueued => active_state e ExQueued
           | Ok Running | Ok StartedLegacy | Ok StopRequested => active_state e ExRunning
           | Ok Completed => completed_outcome e ob
           | Ok Stopped | Ok Cancelled => stopped_outcome e
           | Ok Timeout | Ok TimedOut => failed_outcome (lit "executor") (lit "command_timeout") (lit "timeout")
           | Ok Lost => unknown_outcome (lit "executor_lost")
           | Ok Failed => job_failed_outcome e ob
           end
  end.

Section Operations.
Context `{JsonText}.

(** The bound on a persisted output tail. *)
Definition oversized_tail (tail : option Value) : bool :=
  is_some_and (fun v => Z.ltb MAX_MCP_TASK_OUTPUT_TAIL_BYTES (str_len (json_to_string v))) tail.

Definition serialize_mcp_task_output_tail (tail : option Value) : ctx (option Value) :=
  _ ← reject (oversized_tail tail) (InvalidState (lit "MCP task output tail exceeds its durable size limit"));
  mret tail.

(** ** Reservation and start *)

Inductive ConnectorExecutionReservation : Type :=
| ReservationCreated (e : ConnectorExecution)
| ReservationExisting (e : ConnectorExecution).

Definition MISMATCH : str := lit "execution kind and check plan do not match".

(** The plan as the column holds it: joined with commas and split when it is read. *)
Definition stored_plan (plan : list str) : list str := split_char 44 (join (lit ",") plan).

Definition kind_mismatch (kind : ConnectorExecutionKind) (plan : list str) (recipe : option Value) (sha : option str) : bool :=
  match kind with
  | KindCommand => negb (is_empty plan) || is_some sha || is_some recipe
  | KindCheck => is_empty plan || is_none sha || is_none recipe
  end.

Definition new_execution (id : str) (kind : ConnectorExecutionKind) (task : ConnectorTaskSnapshot)
  (operation_id request_sha256 : str) (plan : list str) (recipe : option Value) (sha : option str) (queue_deadline now : Z)
  : ExecutionRow :=
  mkExecutionRow
    (mkExecution id kind (n_task_id task) (n_run_id task) ExAccepted now None queue_deadline None None None 1 1 None None None
       None operation_id request_sha256 None None None None
       (match kind with KindCheck => stored_plan plan | KindCommand => [] end) recipe 0 sha None None None IntentNone None
       Unclaimed None None None)
    None None.

(** The keys and foreign keys of [wc_executions]. *)
Definition execution_admissible (db : Db) (e : ConnectorExecution) : bool :=
  negb (existsb (fun x => (e_execution_id (x_execution x) ==? e_execution_id e)
                          || ((e_task_id (x_execution x) ==? e_task_id e) && (e_run_id (x_execution x) ==? e_run_id e)
                              && (e_operation_id (x_execution x) ==? e_operation_id e))) (executions db))
  && is_some (task_by_id db (e_task_id e)) && run_exists db (e_run_id e).

Definition reserve_connector_execution (fresh execution_id : str) (task : ConnectorTaskSnapshot)
  (kind operation_id request_sha256 : str) (plan : list str) (recipe : option Value) (sha : option str)
  (queue_deadline now : Z) : ctx ConnectorExecutionReservation :=
  kind ← or_fail (execution_kind_requested kind) (InvalidState MISMATCH);
  current ← require_task (n_task_id task) (n_project_id task) (n_owner_subject_id task);
  _ ← require_running current;
  db ← gets id;
  match load_execution_by_operation db (n_task_id task) (n_run_id task) operation_id with
  | Some existing =>
      _ ← reject (e_request_sha256 existing !=? request_sha256) (OperationIdConflict operation_id);
      mret (ReservationExisting existing)
  | None =>
      _ ← match opt_filter blocks_finish (latest_execution db (n_task_id task)) with
          | Some active =>
              fail (InvalidState (lit "execution " ++ e_execution_id active ++ lit " is "
                ++ execution_state_as_db (e_state active)
                ++ lit "; review or cancel it before starting another execution"))
          | None => mret tt
          end;
      _ ← reject (kind_mismatch kind plan recipe sha) (InvalidState MISMATCH);
      let row := new_execution execution_id kind task operation_id request_sha256 plan recipe sha queue_deadline now in
      _ ← reject (negb (execution_admissible db (x_execution row))) Storage;
      _ ← modify (fun db => db <| executions := executions db ++ [row] |>);
      _ ← append_execution_event fresh (x_execution row) ExAccepted now;
      _ ← touch_task (n_task_id task) now;
      mret (ReservationCreated (x_execution row))
  end.

(** An execution already past its first state is returned as it is. *)
Definition start_connector_execution (fresh id_ : str) (now : Z) : ctx ConnectorExecution :=
  e ← require_execution id_;
  if e_state e !=? ExAccepted then mret e
  else
    _ ← update_executions (has_id id_) (on_execution (fun e => e <| e_state := ExStarting |>));
    _ ← append_execution_event fresh e ExStarting now;
    _ ← touch_task (e_task_id e) now;
    commit_execution id_.

(** ** MCP task and terminal continuation *)

Definition materialize_connector_execution_mcp_task_for_subject (id_ project subject : str) (now : Z) : ctx ConnectorExecution :=
  e ← require_execution id_;
  _ ← require_task (e_task_id e) project subject;
  if mcp_task_is_materialized e || is_terminal_execution e then mret e
  else
    _ ← reject (negb (terminal_continuation_is_armed e))
          (InvalidState (lit "active Connector execution is not durably armed for MCP task polling"));
    _ ← update_executions
          (fun x => has_id id_ x && state_is_active (e_state (x_execution x)) && terminal_continuation_is_armed (x_execution x))
          (on_execution (fun e => e <| e_mcp_task_materialized_at := coalesce (e_mcp_task_materialized_at e) (Some now) |>));
    commit_execution id_.

Definition record_connector_mcp_task_output_tail (id_ : str) (tail : Value) : ctx ConnectorExecution :=
  tail ← serialize_mcp_task_output_tail (Some tail);
  e ← require_execution id_;
  if negb (mcp_task_is_materialized e) || mcp_task_result_is_finalized e || is_terminal_execution e then mret e
  else
    _ ← update_executions
          (fun x => has_id id_ x && mcp_task_is_materialized (x_execution x)
                    && negb (mcp_task_result_is_finalized (x_execution x)) && state_is_active (e_state (x_execution x)))
          (on_execution (fun e => e <| e_mcp_task_output_tail := tail |>));
    commit_execution id_.

Definition arm_connector_terminal_continuation (id_ : str) (now : Z) : ctx ConnectorExecution :=
  e ← require_execution id_;
  if is_terminal_execution e || (e_continuation_intent e ==? IntentArmedForTerminal) then mret e
  else
    _ ← update_executions (fun x => has_id id_ x && state_is_active (e_state (x_execution x)))
          (on_execution (fun e => e <| e_continuation_intent := IntentArmedForTerminal |>
                                    <| e_continuation_armed_at := coalesce (e_continuation_armed_at e) (Some now) |>));
    commit_execution id_.

(** [TERMINAL_CONTINUATION_READY_PREDICATE]. *)
Definition continuation_ready (x : ExecutionRow) : bool :=
  let e := x_execution x in
  (e_continuation_intent e ==? IntentArmedForTerminal) && state_is_terminal (e_state e)
  && is_none (e_mcp_task_materialized_at e) && (e_continuation_delivery_state e ==? Unclaimed) && is_none (x_claim_fence x).

(** [ORDER BY finished_at ASC, submitted_at ASC, id ASC], NULL first. *)
Definition ready_order (a b : ExecutionRow) : bool :=
  let key (o : option Z) := match o with Some t => t | None => (I64_MIN - 1)%Z end in
  let fa := key (e_finished_at (x_execution a)) in let fb := key (e_finished_at (x_execution b)) in
  let sa := e_submitted_at (x_execution a) in let sb := e_submitted_at (x_execution b) in
  if Z.ltb fa fb then true else if Z.ltb fb fa then false
  else if Z.ltb sa sb then true else if Z.ltb sb sa then false
  else str_leb (e_execution_id (x_execution a)) (e_execution_id (x_execution b)).

Definition claim_next_terminal_continuation (fence : str) : ctx (option (ConnectorExecution * str)) :=
  db ← gets id;
  match sort_by ready_order (List.filter continuation_ready (executions db)) with
  | [] => mret None
  | candidate :: _ =>
      let cid := e_execution_id (x_execution candidate) in
      let sel x := has_id cid x && continuation_ready x in
      _ ← update_executions sel
            (fun x => x <| x_claim_fence := Some fence |>
                        <| x_execution := x_execution x <| e_continuation_delivery_state := Claimed |> |>);
      _ ← reject (negb (Nat.eqb (rows_matched sel (executions db)) 1))
            (InvalidState (lit "terminal continuation claim lost its ready state"));
      e ← require_execution cid;
      mret (Some (e, fence))
  end.

Definition transition_terminal_continuation_delivery (id_ fence : str)
  (expected next : ConnectorTerminalContinuationDeliveryState) (clear_fence : bool) : ctx ConnectorExecution :=
  e ← require_execution id_;
  db ← gets id;
  _ ← reject (negb (is_some_and (fun x => x_claim_fence x ==? Some fence) (load_execution_row db id_)))
        (InvalidState (lit "terminal continuation claim fence is stale"));
  _ ← reject (e_continuation_delivery_state e !=? expected)
        (InvalidState (lit "terminal continuation delivery transition is not allowed from the current state"));
  let sel x := has_id id_ x && (e_continuation_delivery_state (x_execution x) ==? expected) && (x_claim_fence x ==? Some fence) in
  _ ← update_executions sel
        (fun x => (if clear_fence then x <| x_claim_fence := None |> else x)
                    <| x_execution := x_execution x <| e_continuation_delivery_state := next |> |>);
  _ ← reject (negb (Nat.eqb (rows_matched sel (executions db)) 1))
        (InvalidState (lit "terminal continuation claim fence is no longer current"));
  commit_execution id_.

Definition release_terminal_continuation_claim (id_ fence : str) : ctx ConnectorExecution :=
  transition_terminal_continuation_delivery id_ fence Claimed Unclaimed true.
Definition begin_terminal_continuation_dispatch (id_ fence : str) : ctx ConnectorExecution :=
  transition_terminal_continuation_delivery id_ fence Claimed Dispatching false.
Definition complete_terminal_continuation_delivery (id_ fence : str) : ctx ConnectorExecution :=
  transition_terminal_continuation_delivery id_ fence Dispatching Delivered true.
Definition mark_terminal_continuation_delivery_unknown (id_ fence : str) : ctx ConnectorExecution :=
  transition_terminal_continuation_delivery id_ fence Dispatching DeliveryUnknown true.

(** ** The executor *)

Definition attached_state (e : ConnectorExecution) (status : str) : ConnectorExecutionState :=
  if e_state e ==? ExCancelRequested then ExCancelRequested
  else match from_wire status with
       | Ok Queued | Ok RunnerQueued => ExQueued
       | Ok Running | Ok StartedLegacy => ExRunning
       | _ => e_state e
       end.

Definition attach_connector_executor (fresh id_ reference status : str) (now : Z) : ctx ConnectorExecution :=
  e ← require_execution id_;
  _ ← reject (is_some_and (fun r => r !=? reference) (e_executor_reference e))
        (InvalidState (lit "execution " ++ e_execution_id e ++ lit " is already attached to a different executor reference"));
  if is_terminal_execution e then
    _ ← update_executions (has_id id_)
          (on_execution (fun e => e <| e_executor_reference := coalesce (e_executor_reference e) (Some reference) |>));
    _ ← touch_task (e_task_id e) now;
    commit_execution id_
  else
    let state := attached_state e status in
    let recognized := executor_status_recognized status in
    _ ← update_executions (has_id id_) (on_execution (fun e =>
          e <| e_executor_reference := Some reference |> <| e_state := state |>
            <| e_queued_at := if state ==? ExQueued then coalesce (e_queued_at e) (Some now) else e_queued_at e |>
            <| e_started_at := if state ==? ExRunning then coalesce (e_started_at e) (Some now) else e_started_at e |>
            <| e_first_status_failure_at := if recognized then e_first_status_failure_at e
                                            else coalesce (e_first_status_failure_at e) (Some now) |>
            <| e_status_failure_code := if recognized then e_status_failure_code e
                                        else Some (lit "executor_status_unrecognized") |>));
    _ ← when (e_state e !=? state) (append_execution_event fresh e state now);
    _ ← touch_task (e_task_id e) now;
    commit_execution id_.

Definition status_failed (code : str) (now : Z) (e : ConnectorExecution) : ConnectorExecution :=
  e <| e_first_status_failure_at := coalesce (e_first_status_failure_at e) (Some now) |> <| e_status_failure_code := Some code |>.

Definition record_connector_execution_status_failure (id_ code : str) (now : Z) : ctx ConnectorExecution :=
  e ← require_execution id_;
  if is_terminal_execution e then mret e
  else
    _ ← update_executions (has_id id_) (on_execution (status_failed code now));
    _ ← touch_task (e_task_id e) now;
    commit_execution id_.

(** The checks of an observation against the execution and the state it leads to. *)
Definition check_execution_observation (e : ConnectorExecution) (ob : ConnectorExecutionObservation) (state : ConnectorExecutionState)
  (source : option str) : result unit ConnectorTaskStoreError :=
  let invalid m := InvalidState (lit m) in
  bail? is_some_and (fun n => Z.ltb (plan_len e) n) (ob_check_completed ob)
    with invalid "validation progress exceeds its durable check plan" ;;
  bail? is_some_and (fun n => Z.ltb n (e_check_completed e)) (ob_check_completed ob)
    with invalid "validation progress cannot move backwards" ;;
  bail? (e_kind e ==? KindCommand)
        && (is_some (ob_check_completed ob) || is_some (ob_failed_check ob) || is_some (ob_validated_workspace_sha256 ob))
    with invalid "ordinary execution cannot record validation progress" ;;
  bail? is_some_and (fun failed =>
          nth_error (e_check_plan e) (Z.to_nat (unwrap_or (e_check_completed e) (ob_check_completed ob))) !=? Some failed)
          (ob_failed_check ob)
    with invalid "failed check does not match durable validation progress" ;;
  bail? oversized_tail (ob_mcp_task_output_tail ob) with invalid "MCP task output tail exceeds its durable size limit" ;;
  bail? is_some_and (fun v => Z.ltb MAX_ASSERTION_EVIDENCE_BYTES (str_len (json_to_string v))) (ob_assertion_evidence ob)
    with invalid "assertion evidence exceeds its durable size limit" ;;
  bail? is_some (ob_assertion_evidence ob)
        && (is_none (ob_failed_check ob) || (state !=? ExFailed) || (source !=? Some (lit "check")))
    with invalid "assertion evidence requires trusted failed-check progress" ;;
  bail? (state ==? ExSucceeded) && (e_kind e ==? KindCheck)
        && ((ob_check_completed ob !=? Some (plan_len e)) || is_some (ob_failed_check ob)
            || is_none (ob_validated_workspace_sha256 ob)
            || (e_check_workspace_sha256 e !=? ob_validated_workspace_sha256 ob))
    with invalid "successful check requires complete progress and matching workspace provenance" ;;
  bail? is_some (ob_validated_workspace_sha256 ob) && negb ((state ==? ExSucceeded) && (e_kind e ==? KindCheck))
    with invalid "validated workspace provenance requires a successful check" ;;
  Ok tt.

(** The columns the observation writes. *)
Definition observed_execution (ob : ConnectorExecutionObservation) (stdout_cursor stderr_cursor : Z) (output_advanced : bool)
  (state : ConnectorExecutionState) (source code reason : option str) (e : ConnectorExecution) : ConnectorExecution :=
  let terminal := state_is_terminal state in
  let failed_check := (state ==? ExFailed) && (e_kind e ==? KindCheck) && (source ==? Some (lit "check")) in
  e <| e_state := state |> <| e_stdout_cursor := as_i64 stdout_cursor |> <| e_stderr_cursor := as_i64 stderr_cursor |>
    <| e_last_output_at := if output_advanced then Some (ob_now ob) else e_last_output_at e |>
    <| e_started_at := coalesce (e_started_at e) (ob_started_at ob) |>
    <| e_finished_at := if terminal then coalesce (ob_finished_at ob) (Some (ob_now ob)) else None |>
    <| e_exit_code := coalesce (ob_exit_code ob) (e_exit_code e) |>
    <| e_failure_source := coalesce source (e_failure_source e) |>
    <| e_failure_code := coalesce code (e_failure_code e) |>
    <| e_terminal_reason := coalesce reason (e_terminal_reason e) |>
    <| e_first_status_failure_at := None |> <| e_last_successful_observation_at := Some (ob_now ob) |>
    <| e_status_failure_code := None |>
    <| e_check_completed := unwrap_or (e_check_completed e) (as_i64 <$> ob_check_completed ob) |>
    <| e_failed_check := if failed_check then ob_failed_check ob else e_failed_check e |>
    <| e_assertion_evidence := if failed_check then ob_assertion_evidence ob else e_assertion_evidence e |>
    <| e_validated_workspace_sha256 := if (state ==? ExSucceeded) && (e_kind e ==? KindCheck)
                                       then ob_validated_workspace_sha256 ob else None |>
    <| e_mcp_task_output_tail := if mcp_task_is_materialized e && is_some (ob_mcp_task_output_tail ob)
                                 then ob_mcp_task_output_tail ob else e_mcp_task_output_tail e |>
    <| e_mcp_task_result_finalized_at := if terminal && mcp_task_is_materialized e
                                         then coalesce (e_mcp_task_result_finalized_at e) (Some (ob_now ob))
                                         else e_mcp_task_result_finalized_at e |>.

Definition observe_connector_execution (fresh1 fresh2 id_ : str) (ob : ConnectorExecutionObservation) : ctx ConnectorExecution :=
  e ← require_execution id_;
  if is_terminal_execution e then mret e
  else if negb (executor_status_recognized (ob_executor_status ob)) then
    _ ← update_executions (has_id id_) (on_execution (status_failed (lit "executor_status_unrecognized") (ob_now ob)));
    _ ← touch_task (e_task_id e) (ob_now ob);
    commit_execution id_
  else
    let stdout_cursor := Z.max (e_stdout_cursor e) (ob_stdout_cursor ob) in
    let stderr_cursor := Z.max (e_stderr_cursor e) (ob_stderr_cursor ob) in
    let output_advanced := Z.ltb (e_stdout_cursor e) stdout_cursor || Z.ltb (e_stderr_cursor e) stderr_cursor in
    let '(state, source, code, reason) := observed_state e ob in
    _ ← lift (check_execution_observation e ob state source);
    _ ← update_executions (has_id id_)
          (on_execution (observed_execution ob stdout_cursor stderr_cursor output_advanced state source code reason));
    _ ← when (state !=? e_state e) (append_execution_event fresh1 e state (ob_now ob));
    _ ← (if state ==? ExUnknown then interrupt_run fresh2 (e_run_id e) (e_task_id e) (lit "execution_terminal_unknown") (ob_now ob)
         else when (state ==? ExCancelled)
                (finalize_task_cancel fresh2 (e_task_id e) (e_run_id e)
                   (VObject [(lit "execution_id", VString (e_execution_id e))]) (ob_now ob)));
    _ ← touch_task (e_task_id e) (ob_now ob);
    commit_execution id_.

(** ** Cancellation and timeout *)

Definition cancel_payload (reason : option str) : Value :=
  VObject [(lit "execution_id", VNull); (lit "reason", opt_string reason)].

(** The finalization of a materialized MCP task's result. *)
Definition finalize_mcp (now : Z) (e : ConnectorExecution) : ConnectorExecution :=
  e <| e_mcp_task_result_finalized_at := if mcp_task_is_materialized e
                                         then coalesce (e_mcp_task_result_finalized_at e) (Some now)
                                         else e_mcp_task_result_finalized_at e |>.

Definition request_connector_execution_cancel (fresh1 fresh2 : str) (task : ConnectorTaskSnapshot) (reason : option str)
  (now : Z) : ctx (option ConnectorExecution) :=
  current ← require_task (n_task_id task) (n_project_id task) (n_owner_subject_id task);
  db ← gets id;
  if n_task_status current ==? StCancelled then mret (latest_execution db (n_task_id task))
  else
    _ ← require_running current;
    match latest_execution db (n_task_id task) with
    | None =>
        _ ← finalize_task_cancel fresh1 (n_task_id current) (n_run_id current) (cancel_payload reason) now;
        mret None
    | Some e =>
        if is_terminal_execution e then
          _ ← finalize_task_cancel fresh1 (n_task_id current) (n_run_id current) (cancel_payload reason) now;
          mret (Some e)
        else
          let immediate := (e_state e ==? ExAccepted) && is_none (e_executor_reference e) in
          let state := if immediate then ExCancelled else ExCancelRequested in
          let requested := e_state e ==? ExCancelRequested in
          _ ← update_executions (has_id (e_execution_id e)) (fun x =>
                let y := x <| x_cancel_requested_at := coalesce (x_cancel_requested_at x) (Some now) |> in
                on_execution (fun e =>
                  let e := e <| e_state := state |> <| e_terminal_reason := Some (lit "user_cancelled") |> in
                  if immediate then finalize_mcp now (e <| e_finished_at := Some now |>) else e) y);
          _ ← when (negb requested) (append_execution_event fresh1 e state now);
          _ ← (if immediate then
                 finalize_task_cancel fresh2 (e_task_id e) (e_run_id e)
                   (VObject [(lit "execution_id", VString (e_execution_id e))]) now
               else match reason with
                    | Some reason =>
                        when (negb requested)
                          (db ← gets id;
                           insert_event fresh2 (n_task_id task) (n_run_id task) (next_event_sequence db (n_task_id task))
                             (lit "task_cancel_requested") (VObject [(lit "reason", VString reason)]) now)
                    | None => mret tt
                    end);
          _ ← touch_task (n_task_id task) now;
          e ← commit_execution (e_execution_id e);
          mret (Some e)
    end.

Definition request_connector_queue_timeout (fresh id_ : str) (now : Z) : ctx ConnectorExecution :=
  e ← require_execution id_;
  if e_state e !=? ExQueued then mret e
  else
    _ ← update_executions (has_id id_) (fun x =>
          on_execution (fun e => e <| e_state := ExCancelRequested |> <| e_failure_source := Some (lit "queue") |>
                                   <| e_failure_code := Some (lit "queue_deadline") |>
                                   <| e_terminal_reason := Some (lit "queue_timeout_requested") |>)
            (x <| x_cancel_requested_at := Some now |>));
    _ ← append_execution_event fresh e ExCancelRequested now;
    _ ← touch_task (e_task_id e) now;
    commit_execution id_.

Definition connector_finish_blocker (db : Db) (task : str) : option ConnectorExecution :=
  opt_filter blocks_finish (latest_execution db task).

(** ** Failure without an observation *)

Inductive ConnectorExecutionFailure : Type :=
| FailSubmission (code : str)
| FailUnknown (code : str)
| FailWorkspace (code evidence : str).

Definition provenance (detail : str) : Value :=
  VObject [(lit "invariant", VString (lit "workspace_provenance")); (lit "detail", VString detail)].

Definition workspace_evidence (f : ConnectorExecutionFailure) : option Value :=
  match f with
  | FailWorkspace _ evidence =>
      Some (if Z.leb (str_len (json_to_string (provenance evidence))) MAX_ASSERTION_EVIDENCE_BYTES then provenance evidence
            else provenance (lit "workspace provenance mismatch evidence exceeded the durable size limit"))
  | _ => None
  end.

Definition failure_outcome (e : ConnectorExecution) (f : ConnectorExecutionFailure)
  : ConnectorExecutionState * str * str * str :=
  match f with
  | FailSubmission code =>
      if e_state e ==? ExCancelRequested
      then (ExCancelled, lit "cancellation", lit "cancelled_before_submission", lit "user_cancelled")
      else (ExFailed, lit "submission", code, lit "submission_failed")
  | FailUnknown code => (ExUnknown, lit "transport", code, lit "executor_terminal_unknown")
  | FailWorkspace code _ => (ExFailed, lit "workspace", code, lit "workspace_invariant_failed")
  end.

Definition finish_connector_execution (fresh1 fresh2 id_ : str) (f : ConnectorExecutionFailure) (now : Z)
  : ctx ConnectorExecution :=
  e ← require_execution id_;
  if negb (is_active_execution e) then mret e
  else
    let '(state, source, code, reason) := failure_outcome e f in
    _ ← update_executions (has_id (e_execution_id e)) (on_execution (fun e => finalize_mcp now
          (e <| e_state := state |> <| e_finished_at := Some now |> <| e_exit_code := None |>
             <| e_failure_source := Some source |> <| e_failure_code := Some code |> <| e_terminal_reason := Some reason |>
             <| e_assertion_evidence := coalesce (workspace_evidence f) (e_assertion_evidence e) |>)));
    _ ← append_execution_event fresh1 e state now;
    _ ← (if state ==? ExCancelled then
           finalize_task_cancel fresh2 (e_task_id e) (e_run_id e)
             (VObject [(lit "execution_id", VString (e_execution_id e))]) now
         else when (state ==? ExUnknown)
                (interrupt_run fresh2 (e_run_id e) (e_task_id e) (lit "execution_terminal_unknown") now));
    _ ← touch_task (e_task_id e) now;
    commit_execution id_.

(** ** Restart *)

Definition in_project (db : Db) (project task : str) : bool :=
  is_some_and (fun t => t_project_id t ==? project) (task_by_id db task).

(** The deliveries of the previous process are released or left uncertain. *)
Definition recover_deliveries (db : Db) (project : str) : ctx unit :=
  _ ← update_executions
        (fun x => let e := x_execution x in
                  (e_continuation_delivery_state e ==? Claimed) && is_some (x_claim_fence x)
                  && (e_continuation_intent e ==? IntentArmedForTerminal) && state_is_terminal (e_state e)
                  && in_project db project (e_task_id e))
        (fun x => x <| x_claim_fence := None |>
                    <| x_execution := x_execution x <| e_continuation_delivery_state := Unclaimed |> |>);
  update_executions
    (fun x => (e_continuation_delivery_state (x_execution x) ==? Dispatching)
              && in_project db project (e_task_id (x_execution x)))
    (fun x => x <| x_claim_fence := None |>
                <| x_execution := x_execution x <| e_continuation_delivery_state := DeliveryUnknown |> |>).

(** The running runs of a project, each with its newest active execution. *)
Definition running_runs (db : Db) (project : str) : list (str * str * option str) :=
  map (fun r => (r_id r, r_task_id r,
                 (fun x => e_execution_id (x_execution x)) <$>
                   latest_by (fun x => e_submitted_at (x_execution x))
                     (List.filter (fun x => (e_run_id (x_execution x) ==? r_id r) && state_is_active (e_state (x_execution x)))
                        (executions db))))
    (List.filter (fun r => in_project db project (r_task_id r) && (r_status r ==? RunRunning)) (runs db)).

Definition interrupt_execution (fresh id_ : str) (now : Z) : ctx unit :=
  e ← require_execution id_;
  _ ← update_executions (has_id id_) (on_execution (fun e => finalize_mcp now
        (e <| e_state := ExInterrupted |> <| e_finished_at := Some now |> <| e_failure_source := Some (lit "runtime") |>
           <| e_failure_code := Some (lit "executor_handle_unverified") |>
           <| e_terminal_reason := Some (lit "runtime_restarted") |>)));
  append_execution_event fresh e ExInterrupted now.

(** The loop over the runs; [fresh n] is the n-th identifier drawn. *)
Fixpoint recover_runs (fresh : nat -> str) (n : nat) (now : Z) (l : list (str * str * option str)) : ctx nat :=
  match l with
  | [] => mret 0
  | (rid, task, id_) :: rest =>
      _ ← match id_ with Some id_ => interrupt_execution (fresh n) id_ now | None => mret tt end;
      _ ← interrupt_run (fresh (S n)) rid task (lit "runtime_restarted") now;
      interrupted ← recover_runs fresh (S (S n)) now rest;
      mret ((if is_some id_ then 1 else 0) + interrupted)
  end.

Definition reconcile_connector_executions_inner (fresh : nat -> str) (project : str) (now : Z) (recover : bool)
  : ctx (nat * nat) :=
  db ← gets id;
  _ ← when recover (recover_deliveries db project);
  db ← gets id;
  let recoveries := running_runs db project in
  interrupted ← recover_runs fresh 0 now recoveries;
  mret (length recoveries, interrupted).
End Operations.
