(* ===== verification/ConnectorFacts.v ===== *)
(** * ConnectorFacts: how the Connector's tables evolve

    The invariant of the tables ([wf]), the relation between the tables before and
    after a transaction ([evolves]), and the rules by which each statement preserves
    both; every operation of ConnectorTasks and ConnectorExecutions is shown to be
    sound by executing it symbolically. *)
From S2P Require Import Prelude RustStr Lifecycle Sql ConnectorModel ConnectorStore ConnectorTasks ConnectorExecutions.

#[global] Arguments max_sequence : simpl never.

(** ** What a transaction may change *)

(** A task keeps what it was started with, and its guidance watermark never goes back. *)
Definition task_kept (t t' : TaskRow) : Prop :=
  t_id t' = t_id t /\ t_project_id t' = t_project_id t /\ t_owner_subject_id t' = t_owner_subject_id t
  /\ t_goal t' = t_goal t /\ t_created_at t' = t_created_at t /\ (t_guidance_seen_seq t <= t_guidance_seen_seq t')%Z.

Definition run_kept (r r' : RunRow) : Prop :=
  r_id r' = r_id r /\ r_task_id r' = r_task_id r /\ r_workspace_id r' = r_workspace_id r /\ r_started_at r' = r_started_at r.

(** A result keeps its content; once it is decided, its decision. *)
Definition result_kept (s s' : ResultRow) : Prop :=
  s_id s' = s_id s /\ s_task_id s' = s_task_id s /\ s_run_id s' = s_run_id s /\ s_summary s' = s_summary s
  /\ s_patch_sha256 s' = s_patch_sha256 s /\ s_changed_paths s' = s_changed_paths s /\ s_validation s' = s_validation s
  /\ (s_decision_status s <> DecisionPending ->
      s_decision_status s' = s_decision_status s /\ s_decided_by s' = s_decided_by s /\ s_decided_at s' = s_decided_at s).

(** An approval is for one action; consumed or denied, it stays as it is. *)
Definition approval_kept (a a' : ConnectorApproval) : Prop :=
  a_id a' = a_id a /\ a_task_id a' = a_task_id a /\ a_run_id a' = a_run_id a /\ a_action_kind a' = a_action_kind a
  /\ a_action_hash a' = a_action_hash a /\ (a_state a = ApprovalConsumed \/ a_state a = ApprovalDenied -> a' = a).

(** An edit operation is for one request; completed, it keeps its result. *)
Definition edit_kept (o o' : EditOperationRow) : Prop :=
  o_task_id o' = o_task_id o /\ o_operation_id o' = o_operation_id o /\ o_request_sha256 o' = o_request_sha256 o
  /\ (o_state o = EditCompleted -> o' = o).

(** What identifies an execution and its request. *)
Definition execution_identity (e : ConnectorExecution) :=
  (e_execution_id e, e_kind e, e_task_id e, e_run_id e, e_submitted_at e, e_operation_id e, e_request_sha256 e,
   e_check_plan e, e_check_workspace_sha256 e).

(** What a terminal execution says happened. *)
Definition execution_verdict (e : ConnectorExecution) :=
  (e_state e, e_finished_at e, e_exit_code e, e_failure_source e, e_failure_code e, e_terminal_reason e,
   (e_stdout_cursor e, e_stderr_cursor e, e_check_completed e, e_failed_check e, e_assertion_evidence e,
    e_validated_workspace_sha256 e)).

(** How far the delivery of the terminal continuation has got; from [Dispatching] on
    there is no way back. *)
Definition delivery_rank (s : ConnectorTerminalContinuationDeliveryState) : nat :=
  match s with Unclaimed | Claimed => 0 | Dispatching => 1 | Delivered | DeliveryUnknown => 2 end.

Definition delivery_kept (s s' : ConnectorTerminalContinuationDeliveryState) : Prop :=
  delivery_rank s <= delivery_rank s' /\ (delivery_rank s = 2 -> s' = s).

Definition execution_kept (x x' : ExecutionRow) : Prop :=
  execution_identity (x_execution x') = execution_identity (x_execution x)
  /\ (e_stdout_cursor (x_execution x) <= e_stdout_cursor (x_execution x'))%Z
  /\ (e_stderr_cursor (x_execution x) <= e_stderr_cursor (x_execution x'))%Z
  /\ (e_check_completed (x_execution x) <= e_check_completed (x_execution x'))%Z
  /\ delivery_kept (e_continuation_delivery_state (x_execution x)) (e_continuation_delivery_state (x_execution x'))
  /\ (state_is_terminal (e_state (x_execution x)) = true ->
      execution_verdict (x_execution x') = execution_verdict (x_execution x)).

#[export] Instance task_kept_preorder : PreOrder task_kept.
Proof.
  split; [intros t; unfold task_kept; split_and!; done || lia | ].
  unfold task_kept. intros a b c. intuition (try congruence; lia).
Qed.

#[export] Instance run_kept_preorder : PreOrder run_kept.
Proof. split; [by intros r | ]. unfold run_kept. intros a b c. intuition congruence. Qed.

#[export] Instance result_kept_preorder : PreOrder result_kept.
Proof.
  split; [intros s; unfold result_kept; split_and!; done | ]. unfold result_kept. intros a b c.
  intros (? & ? & ? & ? & ? & ? & ? & Hab) (? & ? & ? & ? & ? & ? & ? & Hbc). split_and!; try congruence.
  intros Hd. destruct (Hab Hd) as (E1 & E2 & E3). destruct Hbc as (F1 & F2 & F3); [by rewrite E1 | ].
  split_and!; congruence.
Qed.

#[export] Instance approval_kept_preorder : PreOrder approval_kept.
Proof.
  split; [intros a; unfold approval_kept; split_and!; done | ]. unfold approval_kept. intros a b c.
  intros (? & ? & ? & ? & ? & Hab) (? & ? & ? & ? & ? & Hbc). split_and!; try congruence.
  intros Hs. specialize (Hab Hs). subst b. auto.
Qed.

#[export] Instance edit_kept_preorder : PreOrder edit_kept.
Proof.
  split; [intros o; unfold edit_kept; split_and!; done | ]. unfold edit_kept. intros a b c.
  intros (? & ? & ? & Hab) (? & ? & ? & Hbc). split_and!; try congruence.
  intros Hs. specialize (Hab Hs). subst b. auto.
Qed.

#[export] Instance delivery_kept_preorder : PreOrder delivery_kept.
Proof.
  split; [by intros s | ]. intros a b c [H1 H2] [H3 H4]. split; [lia | ]. intros Ha. specialize (H2 Ha). subst b. auto.
Qed.

#[export] Instance execution_kept_preorder : PreOrder execution_kept.
Proof.
  split; [intros x; unfold execution_kept; split_and!; done || lia | ]. unfold execution_kept. intros a b c.
  intros (? & ? & ? & ? & Dab & Vab) (? & ? & ? & ? & Dbc & Vbc). split_and!; try congruence; try lia; [by etransitivity | ].
  intros Ht. specialize (Vab Ht). rewrite Vbc; [done | ]. injection Vab as Hs. by rewrite Hs.
Qed.

(** The tables before and after: no task, run, result, approval, edit operation,
    execution or event disappears, and what may change is as above. *)
Record evolves (db db' : Db) : Prop := {
  ev_tasks : grows task_kept (tasks db) (tasks db');
  ev_runs : grows run_kept (runs db) (runs db');
  ev_results : grows result_kept (results db) (results db');
  ev_approvals : grows approval_kept (approvals db) (approvals db');
  ev_edits : grows edit_kept (edits db) (edits db');
  ev_executions : grows execution_kept (executions db) (executions db');
  ev_events : exists more, events db' = events db ++ more
}.

#[export] Instance evolves_preorder : PreOrder evolves.
Proof.
  split.
  - intros db. split; try reflexivity. exists []. by rewrite app_nil_r.
  - intros a b c [] []. split; try by etransitivity.
    destruct ev_events0 as [m1 E1], ev_events1 as [m2 E2]. exists (m1 ++ m2). by rewrite E2, E1, app_assoc.
Qed.

(** ** The invariant *)

Definition exec_id (x : ExecutionRow) : str := e_execution_id (x_execution x).
Definition edit_id (o : EditOperationRow) : str * str := (o_task_id o, o_operation_id o).
Definition approval_key (a : ConnectorApproval) : str * str * str := (a_task_id a, a_run_id a, a_action_hash a).

(** A check that succeeded ran its whole plan on the workspace it was made for. *)
Definition check_proven (e : ConnectorExecution) : Prop :=
  e_kind e = KindCheck -> e_state e = ExSucceeded ->
  e_check_completed e = plan_len e /\ is_some (e_check_workspace_sha256 e) = true
  /\ e_validated_workspace_sha256 e = e_check_workspace_sha256 e.

Record execution_ok (x : ExecutionRow) : Prop := {
  xo_check : execution_check x = true;
  xo_stdout : (e_stdout_cursor (x_execution x) < 2 ^ 63)%Z;
  xo_stderr : (e_stderr_cursor (x_execution x) < 2 ^ 63)%Z;
  xo_progress : (e_check_completed (x_execution x) <= plan_len (x_execution x))%Z;
  xo_proven : check_proven (x_execution x)
}.

Definition edit_ok (o : EditOperationRow) : Prop := is_some (o_result o) = (o_state o ==? EditCompleted).

(** The sequence numbers of a task's events, in the order they were written. *)
Definition task_sequences (evs : list EventRow) (task : str) : list Z :=
  map v_sequence (List.filter (fun e => v_task_id e ==? task) evs).

#[global] Arguments task_sequences : simpl never.

Record wf (db : Db) : Prop := {
  wf_task_ids : NoDup (map t_id (tasks db));
  wf_run_ids : NoDup (map r_id (runs db));
  wf_exec_ids : NoDup (map exec_id (executions db));
  wf_exec_ok : Forall execution_ok (executions db);
  wf_approval_ids : NoDup (map a_id (approvals db));
  wf_approval_keys : NoDup (map approval_key (approvals db));
  wf_result_tasks : NoDup (map s_task_id (results db));
  wf_edit_ids : NoDup (map edit_id (edits db));
  wf_edit_ok : Forall edit_ok (edits db);
  wf_sequences : forall task, task_sequences (events db) task = seqZ 1 (Z.of_nat (length (task_sequences (events db) task)));
  wf_event_tasks : Forall (fun e => v_task_id e ∈ map t_id (tasks db)) (events db);
  wf_guidance : Forall (fun t => (0 <= t_guidance_seen_seq t <= max_sequence db (t_id t))%Z) (tasks db)
}.

Lemma wf_empty : wf Db_empty.
Proof. split; cbn; by try constructor. Qed.

(** The cursor of a task is the number of its events. *)
Lemma max_sequence_length (db : Db) (task : str) :
  task_sequences (events db) task = seqZ 1 (Z.of_nat (length (task_sequences (events db) task))) ->
  max_sequence db task = Z.of_nat (length (task_sequences (events db) task)).
Proof.
  unfold max_sequence, task_sequences. intros Hs.
  assert (Hf : forall l, foldr (fun e acc => if v_task_id e ==? task then Z.max (v_sequence e) acc else acc) 0%Z l
    = foldr Z.max 0%Z (map v_sequence (List.filter (fun e => v_task_id e ==? task) l))).
  { induction l as [|e l IH]; [done | ]. cbn. destruct (v_task_id e ==? task); cbn; by rewrite IH. }
  rewrite Hf, Hs, length_seqZ. clear. set (n := length _).
  assert (Hmax : forall k (m : Z), (0 <= m)%Z -> foldr Z.max 0%Z (seqZ (Z.succ m) (Z.of_nat k)) = (if Nat.eqb k 0 then 0 else m + Z.of_nat k)%Z).
  { induction k as [|k IH]; intros m Hm; [done | ].
    rewrite Nat2Z.inj_succ, seqZ_cons by lia. cbn [foldr]. rewrite (Z.pred_succ (Z.of_nat k)), IH by lia.
    destruct k; cbn [Nat.eqb]; lia. }
  change 1%Z with (Z.succ 0). rewrite (Hmax n 0%Z) by lia. destruct n; cbn [Nat.eqb]; lia.
Qed.

Lemma rows_update_key_kept {A K : Type} (key : A -> K) (t : list A) (sel : A -> bool) (upd : A -> A) :
  (forall row, row ∈ t -> sel row = true -> key (upd row) = key row) -> map key (rows_update sel upd t) = map key t.
Proof.
  intros Hk. unfold rows_update. rewrite map_map. apply map_ext_in. intros row Hr%list_elem_of_In.
  destruct (sel row) eqn:E; auto.
Qed.

(** The guidance watermark of a task. *)
Definition watermark (db : Db) (task : str) : Z := unwrap_or 0%Z (t_guidance_seen_seq <$> task_by_id db task).

(** What almost every transaction leaves alone: claiming guidance moves a watermark,
    reserving adds an execution, deciding approves. *)
Record quiet (db db' : Db) : Prop := {
  q_watermark : forall task, watermark db' task = watermark db task;
  q_executions : length (executions db') = length (executions db);
  q_approved : forall a, a ∈ approvals db' -> a_state a = ApprovalApproved -> a ∈ approvals db
}.

#[export] Instance quiet_preorder : PreOrder quiet.
Proof.
  split; [by intros db; split | ]. intros a b c [W1 E1 A1] [W2 E2 A2]. split; [intros t; by rewrite W2 | by rewrite E2 | auto].
Qed.

Definition advances (db0 db : Db) : Prop := wf db /\ evolves db0 db.
Definition sound (db0 db : Db) : Prop := wf db /\ evolves db0 db /\ quiet db0 db.

Lemma advances_refl (db : Db) : wf db -> advances db db.
Proof. intros Hw. split; [done | reflexivity]. Qed.

Lemma advances_trans (a b c : Db) : advances a b -> advances b c -> advances a c.
Proof. intros [_ Hab] [Hc Hbc]. split; [done | by etransitivity]. Qed.

Lemma sound_advances (db0 db : Db) : sound db0 db -> advances db0 db.
Proof. intros (? & ? & _). by split. Qed.

Lemma sound_refl (db : Db) : wf db -> sound db db.
Proof. intros Hw. split_and!; [done | reflexivity | reflexivity]. Qed.

Lemma sound_trans (a b c : Db) : sound a b -> sound b c -> sound a c.
Proof. intros (_ & Hab & Qab) (Hc & Hbc & Qbc). split_and!; [done | by etransitivity | by etransitivity]. Qed.

(** A statement on tables the invariant does not mention. *)
Lemma sound_same (db0 db db' : Db) :
  sound db0 db -> tasks db' = tasks db -> runs db' = runs db -> results db' = results db -> approvals db' = approvals db ->
  edits db' = edits db -> executions db' = executions db -> events db' = events db -> sound db0 db'.
Proof.
  intros (Hw & He & Hq) Et Er Es Ea Eo Ex Ev. split_and!.
  - destruct Hw. split; unfold max_sequence in *; by rewrite ?Et, ?Er, ?Es, ?Ea, ?Eo, ?Ex, ?Ev.
  - destruct He. split; by rewrite ?Et, ?Er, ?Es, ?Ea, ?Eo, ?Ex, ?Ev.
  - destruct Hq. split; unfold watermark, task_by_id in *; by rewrite ?Et, ?Ea, ?Ex.
Qed.

Ltac sound_tables :=
  match goal with
  | H : sound _ _ |- _ =>
      let w := fresh "w" in let v := fresh "v" in let q := fresh "q" in
      destruct H as (w & v & q); split_and!; [destruct w; split; try done | destruct v; split; try done | destruct q; split; try done]
  | H : advances _ _ |- _ =>
      let w := fresh "w" in let v := fresh "v" in
      destruct H as [w v]; split; [destruct w; split; try done | destruct v; split; try done]
  end.

Lemma advances_tasks (db0 db : Db) (sel : TaskRow -> bool) (upd : TaskRow -> TaskRow) :
  advances db0 db ->
  (forall t, t ∈ tasks db -> sel t = true -> task_kept t (upd t) /\ (t_guidance_seen_seq (upd t) <= max_sequence db (t_id t))%Z) ->
  advances db0 (db <| tasks := rows_update sel upd (tasks db) |>).
Proof.
  intros Hs Hu. assert (Hkey : map t_id (rows_update sel upd (tasks db)) = map t_id (tasks db)).
  { apply rows_update_key_kept. intros t Ht Hsel. by destruct (Hu t Ht Hsel) as [(? & _) _]. }
  sound_tables.
  - by rewrite <- Hkey in wf_task_ids0.
  - cbn. by rewrite Hkey.
  - cbn. apply rows_update_Forall; [ | done]. intros t Ht Hsel Hold. destruct (Hu t Ht Hsel) as [(-> & _ & _ & _ & _ & Hle) Hmax].
    change (max_sequence _ (t_id t)) with (max_sequence db (t_id t)). lia.
  - cbn. etransitivity; [done | ]. apply grows_update; [apply _ | ]. intros t Ht Hsel. by destruct (Hu t Ht Hsel).
Qed.

Lemma sound_task_meta (db0 db : Db) (sel : TaskRow -> bool) (upd : TaskRow -> TaskRow) :
  sound db0 db ->
  (forall t, t_id (upd t) = t_id t /\ t_project_id (upd t) = t_project_id t /\ t_owner_subject_id (upd t) = t_owner_subject_id t
     /\ t_goal (upd t) = t_goal t /\ t_created_at (upd t) = t_created_at t /\ t_guidance_seen_seq (upd t) = t_guidance_seen_seq t) ->
  sound db0 (db <| tasks := rows_update sel upd (tasks db) |>).
Proof.
  intros Hs Hu. assert (Ha : advances db0 (db <| tasks := rows_update sel upd (tasks db) |>)).
  { apply advances_tasks; [by apply sound_advances | ]. intros t Ht _. destruct (Hu t) as (? & ? & ? & ? & ? & Hseen).
    destruct Hs as [[] _]. rewrite Forall_forall in wf_guidance0. specialize (wf_guidance0 t Ht). unfold task_kept. rewrite Hseen.
    split_and!; done || lia. }
  destruct Ha, Hs as (_ & _ & [Qw Qe Qa]). split_and!; [done | done | ]. split; [ | done | done]. intros task. rewrite <- Qw.
  unfold watermark, task_by_id. cbn. clear -Hu. induction (tasks db) as [|t l IH]; [done | ]. cbn.
  destruct (Hu t) as (Eid & _ & _ & _ & _ & Hseen).
  destruct (sel t); rewrite ?Eid; (destruct (t_id t ==? task); [cbn; by rewrite ?Hseen | exact IH]).
Qed.

Lemma sound_insert_task (db0 db : Db) (t : TaskRow) :
  sound db0 db -> is_some (task_by_id db (t_id t)) = false -> t_guidance_seen_seq t = 0%Z ->
  sound db0 (db <| tasks := tasks db ++ [t] |>).
Proof.
  intros Hs Hfresh Hseen.
  assert (Hnew : t_id t ∉ map t_id (tasks db)).
  { intros (t' & Ht' & Hin)%list_elem_of_fmap. unfold task_by_id in Hfresh.
    destruct (find _ (tasks db)) eqn:Ef; [done | ]. pose proof (find_elem_none _ _ _ Ef Hin) as Hne.
    cbn in Hne. rewrite Ht', beq_refl in Hne. done. }
  sound_tables.
  - cbn. rewrite map_app. apply NoDup_app. split_and!; [done | | apply NoDup_singleton].
    intros x Hx Hin. apply list_elem_of_singleton in Hin. by subst.
  - cbn. eapply Forall_impl; [done | ]. intros e Hin. cbn. rewrite map_app. apply elem_of_app. by left.
  - cbn. apply Forall_app. split; [done | ]. constructor; [ | constructor]. rewrite Hseen.
    change (max_sequence _ (t_id t)) with (max_sequence db (t_id t)). rewrite max_sequence_length by done. lia.
  - cbn. etransitivity; [done | ]. apply grows_app, _.
  - intros task. rewrite <- q_watermark0. unfold watermark, task_by_id in *. cbn. rewrite find_app.
    destruct (find (fun t0 => t_id t0 ==? task) (tasks db)); [done | ]. cbn [find]. destruct (t_id t ==? task); [exact Hseen | done].
Qed.

Lemma sound_runs (db0 db : Db) (sel : RunRow -> bool) (upd : RunRow -> RunRow) :
  sound db0 db -> (forall r, run_kept r (upd r)) -> sound db0 (db <| runs := rows_update sel upd (runs db) |>).
Proof.
  intros Hs Hu. sound_tables.
  - cbn. rewrite rows_update_key_kept; [done | ]. intros r _ _. by destruct (Hu r).
  - cbn. etransitivity; [done | ]. apply grows_update; [apply _ | ]. auto.
Qed.

Lemma sound_insert_run (db0 db : Db) (r : RunRow) :
  sound db0 db -> run_exists db (r_id r) = false -> sound db0 (db <| runs := runs db ++ [r] |>).
Proof.
  intros Hs Hfresh. sound_tables.
  - cbn. rewrite map_app. apply NoDup_app. split_and!; [done | | apply NoDup_singleton].
    intros x (r' & -> & Hin)%list_elem_of_fmap Heq. apply list_elem_of_singleton in Heq.
    unfold run_exists in Hfresh. apply not_true_iff_false in Hfresh. apply Hfresh, existsb_exists. exists r'.
    split; [by apply list_elem_of_In | ]. cbn in Heq. rewrite Heq. apply beq_refl.
  - cbn. etransitivity; [done | ]. apply grows_app, _.
Qed.

(** A row whose key no row of the table has. *)
Lemma NoDup_key_app {A K : Type} (key : A -> K) (t : list A) (row : A) :
  NoDup (map key t) -> (forall o, o ∈ t -> key o <> key row) -> NoDup (map key (t ++ [row])).
Proof.
  intros Hn Hfresh. rewrite map_app. apply NoDup_app. split_and!; [done | | apply NoDup_singleton].
  intros x (o & -> & Hin)%list_elem_of_fmap Heq%list_elem_of_singleton. by apply (Hfresh o).
Qed.

Lemma existsb_false_elem {A : Type} (p : A -> bool) (t : list A) (row : A) :
  existsb p t = false -> row ∈ t -> p row = false.
Proof.
  intros He Hr. destruct (p row) eqn:E; [ | done]. rewrite <- He. symmetry. apply existsb_exists.
  exists row. split; [by apply list_elem_of_In | done].
Qed.

Lemma sound_results (db0 db : Db) (sel : ResultRow -> bool) (upd : ResultRow -> ResultRow) :
  sound db0 db -> (forall s, s ∈ results db -> sel s = true -> result_kept s (upd s)) ->
  sound db0 (db <| results := rows_update sel upd (results db) |>).
Proof.
  intros Hs Hu. sound_tables.
  - cbn. rewrite rows_update_key_kept; [done | ]. intros s Hin Hsel. by destruct (Hu s Hin Hsel) as (_ & ? & _).
  - cbn. etransitivity; [done | ]. apply grows_update; [apply _ | done].
Qed.

Lemma sound_insert_result (db0 db : Db) (s : ResultRow) :
  sound db0 db -> result_admissible db s = true -> sound db0 (db <| results := results db ++ [s] |>).
Proof.
  intros Hs [Hadm _]%andb_true_iff. apply negb_true_iff in Hadm. sound_tables.
  - cbn. apply NoDup_key_app; [done | ]. intros o Ho Heq. pose proof (existsb_false_elem _ _ o Hadm Ho) as Hf. cbn in Hf.
    by rewrite Heq, beq_refl, orb_true_r in Hf.
  - cbn. etransitivity; [done | ]. apply grows_app, _.
Qed.

Lemma advances_approvals (db0 db : Db) (sel : ConnectorApproval -> bool) (upd : ConnectorApproval -> ConnectorApproval) :
  advances db0 db -> (forall a, a ∈ approvals db -> sel a = true -> approval_kept a (upd a)) ->
  advances db0 (db <| approvals := rows_update sel upd (approvals db) |>).
Proof.
  intros Hs Hu. sound_tables.
  - cbn. rewrite rows_update_key_kept; [done | ]. intros a Hin Hsel. by destruct (Hu a Hin Hsel).
  - cbn. rewrite rows_update_key_kept; [done | ]. intros a Hin Hsel. destruct (Hu a Hin Hsel) as (_ & E1 & E2 & _ & E3 & _).
    unfold approval_key. congruence.
  - cbn. etransitivity; [done | ]. apply grows_update; [apply _ | done].
Qed.

Lemma sound_approvals (db0 db : Db) (sel : ConnectorApproval -> bool) (upd : ConnectorApproval -> ConnectorApproval) :
  sound db0 db ->
  (forall a, a ∈ approvals db -> sel a = true -> approval_kept a (upd a) /\ a_state (upd a) <> ApprovalApproved) ->
  sound db0 (db <| approvals := rows_update sel upd (approvals db) |>).
Proof.
  intros Hs Hq. destruct (advances_approvals db0 db sel upd (sound_advances _ _ Hs)) as [Hw He].
  { intros a Ha Hsel. by destruct (Hq a Ha Hsel). }
  destruct Hs as (_ & _ & [Qw Qe Qa]). split_and!; [done | done | ]. split; [done | done | ].
  intros a (old & Hold & [[Hsel ->]|[_ ->]])%rows_update_elem Hst; [by destruct (Hq old Hold Hsel) | by apply Qa].
Qed.

Lemma sound_insert_approval (db0 db : Db) (a : ConnectorApproval) :
  sound db0 db -> approval_admissible db a = true -> a_state a <> ApprovalApproved ->
  sound db0 (db <| approvals := approvals db ++ [a] |>).
Proof.
  intros Hs [Hadm _]%andb_true_iff Hst. apply negb_true_iff in Hadm. sound_tables.
  - cbn. apply NoDup_key_app; [done | ]. intros o Ho Heq. pose proof (existsb_false_elem _ _ o Hadm Ho) as Hf. cbn in Hf.
    by rewrite Heq, beq_refl in Hf.
  - cbn. apply NoDup_key_app; [done | ]. intros o Ho Heq. pose proof (existsb_false_elem _ _ o Hadm Ho) as Hf. cbn in Hf.
    injection Heq as E1 E2 E3. by rewrite E1, E2, E3, !beq_refl, orb_true_r in Hf.
  - cbn. etransitivity; [done | ]. apply grows_app, _.
  - cbn. intros o [Ho| ->%list_elem_of_singleton]%elem_of_app Hap; [by apply q_approved0 | done].
Qed.

Lemma sound_edits (db0 db : Db) (sel : EditOperationRow -> bool) (upd : EditOperationRow -> EditOperationRow) :
  sound db0 db -> (forall o, o ∈ edits db -> sel o = true -> edit_ok o -> edit_kept o (upd o) /\ edit_ok (upd o)) ->
  sound db0 (db <| edits := rows_update sel upd (edits db) |>).
Proof.
  intros Hs Hu. assert (Hok : Forall edit_ok (edits db)) by by destruct Hs as [[] _].
  rewrite Forall_forall in Hok. sound_tables.
  - cbn. rewrite rows_update_key_kept; [done | ]. intros o Hin Hsel. destruct (Hu o Hin Hsel (Hok o Hin)) as [(E1 & E2 & _) _].
    unfold edit_id. congruence.
  - cbn. apply rows_update_Forall; [ | done]. intros o Hin Hsel Ho. by apply Hu.
  - cbn. etransitivity; [done | ]. apply grows_update; [apply _ | ]. intros o Hin Hsel. by apply Hu; [ | | apply Hok].
Qed.

Lemma sound_insert_edit (db0 db : Db) (o : EditOperationRow) :
  sound db0 db -> find (edit_key (o_task_id o) (o_operation_id o)) (edits db) = None -> edit_ok o ->
  sound db0 (db <| edits := edits db ++ [o] |>).
Proof.
  intros Hs Hf Ho. sound_tables.
  - cbn. apply NoDup_key_app; [done | ]. intros o' Ho' Heq. pose proof (find_elem_none _ _ _ Hf Ho') as Hne.
    unfold edit_key in Hne. injection Heq as E1 E2. by rewrite E1, E2, !beq_refl in Hne.
  - cbn. apply Forall_app. split; [done | by constructor].
  - cbn. etransitivity; [done | ]. apply grows_app, _.
Qed.

Lemma sound_executions (db0 db : Db) (sel : ExecutionRow -> bool) (upd : ExecutionRow -> ExecutionRow) :
  sound db0 db ->
  (forall x, x ∈ executions db -> sel x = true -> execution_ok x -> execution_kept x (upd x) /\ execution_ok (upd x)) ->
  sound db0 (db <| executions := rows_update sel upd (executions db) |>).
Proof.
  intros Hs Hu. assert (Hok : Forall execution_ok (executions db)) by by destruct Hs as [[] _].
  rewrite Forall_forall in Hok. sound_tables.
  - cbn. rewrite rows_update_key_kept; [done | ]. intros x Hin Hsel. destruct (Hu x Hin Hsel (Hok x Hin)) as [(E & _) _].
    unfold exec_id. by injection E.
  - cbn. apply rows_update_Forall; [ | done]. intros x Hin Hsel Hx. by apply Hu.
  - cbn. etransitivity; [done | ]. apply grows_update; [apply _ | ]. intros x Hin Hsel. by apply Hu; [ | | apply Hok].
  - cbn. unfold rows_update. by rewrite length_map.
Qed.

Lemma advances_insert_execution (db0 db : Db) (x : ExecutionRow) :
  advances db0 db -> execution_admissible db (x_execution x) = true -> execution_ok x ->
  advances db0 (db <| executions := executions db ++ [x] |>).
Proof.
  intros Hs Hadm Hx. apply andb_true_iff in Hadm as [[Hadm _]%andb_true_iff _]. apply negb_true_iff in Hadm. sound_tables.
  - cbn. apply NoDup_key_app; [done | ]. intros o Ho Heq. pose proof (existsb_false_elem _ _ o Hadm Ho) as Hf. cbn in Hf.
    unfold exec_id in Heq. by rewrite Heq, beq_refl in Hf.
  - cbn. apply Forall_app. split; [done | by constructor].
  - cbn. etransitivity; [done | ]. apply grows_app, _.
Qed.

Lemma task_sequences_app (evs : list EventRow) (e : EventRow) (task : str) :
  task_sequences (evs ++ [e]) task = task_sequences evs task ++ (if v_task_id e ==? task then [v_sequence e] else []).
Proof.
  unfold task_sequences. rewrite List.filter_app, map_app. cbn. by destruct (v_task_id e ==? task).
Qed.

(** An event goes in with the number after the last one. *)
Lemma sound_event (db0 db : Db) (e : EventRow) :
  sound db0 db -> event_admissible db e = true -> v_sequence e = (max_sequence db (v_task_id e) + 1)%Z ->
  sound db0 (db <| events := events db ++ [e] |>).
Proof.
  intros Hs Hadm Hseq. apply andb_true_iff in Hadm as [[_ Htask]%andb_true_iff _].
  assert (Hseqs : forall task, task_sequences (events db) task = seqZ 1 (Z.of_nat (length (task_sequences (events db) task))))
    by by destruct Hs as [[] _].
  assert (Hnew : forall task, task_sequences (events db ++ [e]) task
    = seqZ 1 (Z.of_nat (length (task_sequences (events db ++ [e]) task)))).
  { intros task. rewrite !task_sequences_app, length_app. destruct (v_task_id e ==? task) eqn:E; cbn [length];
      [apply beq_true in E; subst task | by rewrite app_nil_r, Nat.add_0_r, <- Hseqs].
    rewrite Nat2Z.inj_add, seqZ_app by lia. rewrite <- Hseqs, Hseq, max_sequence_length by done. f_equal.
    rewrite (seqZ_cons _ (Z.of_nat 1)) by lia. cbn. f_equal. lia. }
  assert (Hmax : forall task, (max_sequence db task <= max_sequence (db <| events := events db ++ [e] |>) task)%Z).
  { intros task. rewrite !max_sequence_length by (cbn; done). cbn. rewrite task_sequences_app, length_app. lia. }
  sound_tables.
  - cbn. apply Forall_app. split; [done | ]. constructor; [ | constructor]. unfold task_by_id in Htask.
    destruct (find _ (tasks db)) as [t|] eqn:Ef; [ | done]. apply find_elem in Ef as [Hin Heq]. apply beq_true in Heq.
    rewrite <- Heq. by apply (list_elem_of_fmap_2 t_id).
  - cbn. eapply Forall_impl; [done | ]. intros t Ht. specialize (Hmax (t_id t)). cbn in *. lia.
  - destruct ev_events0 as [more Hm]. exists (more ++ [e]). cbn. by rewrite Hm, app_assoc.
Qed.

(** ** Reading *)

Lemma load_task_spec (db : Db) (task project subject : str) (n : ConnectorTaskSnapshot) :
  load_task db task project subject = Some n ->
  n_task_id n = task /\ n_event_cursor n = max_sequence db task
  /\ exists t r, task_by_id db task = Some t /\ t_id t = task /\ r ∈ runs db /\ r_id r = n_run_id n /\ r_task_id r = task
     /\ t_project_id t = project
     /\ n_task_status n = effective_task_state (t_status t) (r_status r) (s_decision_status <$> result_of_run db (r_id r)) (is_cancelled db task)
     /\ n_run_status n = effective_run_state (r_status r) (is_cancelled db task).
Proof.
  unfold load_task. destruct (task_by_id db task) as [t|] eqn:Et; [ | done]. cbn [mbind option_bind].
  destruct (negb _) eqn:Eo; [done | ]. destruct (latest_run db task) as [r|] eqn:Er; [ | done]. cbn [mbind option_bind].
  destruct (context_of db (r_id r)); [ | done]. cbn [mbind option_bind]. intros [= <-]. cbn.
  pose proof Et as Et'. apply find_elem in Et' as [_ Hid]. apply beq_true in Hid.
  apply negb_false_iff, andb_true_iff in Eo as [Hp _]. apply beq_true in Hp.
  pose proof (latest_by_spec r_started_at (List.filter (fun r => (r_task_id r ==? task) && is_some (context_of db (r_id r))) (runs db))) as Hl.
  unfold latest_run in Er. rewrite Er in Hl. destruct Hl as [Hin _].
  apply list_elem_of_In, filter_In in Hin as [Hin [Hrt _]%andb_true_iff]. apply beq_true in Hrt. apply list_elem_of_In in Hin.
  split_and!; [done | done | ]. exists t, r. split_and!; done.
Qed.

Lemma load_task_cursor (db : Db) (task project subject : str) (n : ConnectorTaskSnapshot) :
  load_task db task project subject = Some n -> n_event_cursor n = max_sequence db task.
Proof. intros Hl. by destruct (load_task_spec _ _ _ _ _ Hl) as (_ & ? & _). Qed.

Lemma load_task_id (db : Db) (task project subject : str) (n : ConnectorTaskSnapshot) :
  load_task db task project subject = Some n -> n_task_id n = task.
Proof. intros Hl. by destruct (load_task_spec _ _ _ _ _ Hl). Qed.

(** The execution an identifier names is the only row with it. *)
Lemma found_execution (db : Db) (id : str) (e : ConnectorExecution) (x : ExecutionRow) :
  wf db -> load_execution db id = Some e -> x ∈ executions db -> has_id id x = true -> x_execution x = e.
Proof.
  intros [] Hl Hx Hid. unfold load_execution, load_execution_row in Hl. unfold has_id in Hid. apply beq_true in Hid. subst id.
  change (fun y => e_execution_id (x_execution y) ==? e_execution_id (x_execution x)) with (fun y => exec_id y ==? exec_id x) in Hl.
  rewrite (find_unique_key exec_id _ x) in Hl by done. by injection Hl.
Qed.

Lemma load_execution_id (db : Db) (id : str) (e : ConnectorExecution) : load_execution db id = Some e -> e_execution_id e = id.
Proof.
  unfold load_execution, load_execution_row. destruct (find _ _) as [x|] eqn:Ef; [ | done]. intros [= <-].
  apply find_elem in Ef as [_ Hid]. by apply beq_true in Hid.
Qed.

(** ** Statements that keep the tables sound *)

Ltac unfold_statements :=
  unfold touch_task, expire_task_approvals, expire_approval, update_tasks, update_runs, update_approvals, update_results,
    insert_event, insert_result, insert_approval, owner_of, require_task, commit_execution, require_execution,
    require_running, settle_edit, check_shape, id in *.

Ltac sequence_ok :=
  cbn [v_sequence v_task_id];
  first [ reflexivity
        | match goal with
          | H : load_task ?d ?t _ _ = Some ?n |- _ =>
              rewrite (load_task_cursor _ _ _ _ _ H), ?(load_task_id _ _ _ _ _ H); reflexivity
          end ].

(** One statement less: the tables before it are sound, and it keeps them so. *)
Ltac sound_step :=
  lazymatch goal with
  | H : sound ?a ?b |- sound ?a ?b => exact H
  | |- sound ?db ?db => apply sound_refl; assumption
  | |- sound _ (set_field (proj := tasks) (fun _ => rows_update _ _ _) _) => apply sound_task_meta; [ | by intros ?; split_and!]
  | |- sound _ (set_field (proj := tasks) (fun _ => _ ++ _) _) => apply sound_insert_task
  | |- sound _ (set_field (proj := runs) (fun _ => rows_update _ _ _) _) => apply sound_runs; [ | by intros ?; split_and!]
  | |- sound _ (set_field (proj := runs) (fun _ => _ ++ _) _) => apply sound_insert_run
  | |- sound _ (set_field (proj := results) (fun _ => rows_update _ _ _) _) => apply sound_results
  | |- sound _ (set_field (proj := results) (fun _ => _ ++ _) _) => apply sound_insert_result
  | |- sound _ (set_field (proj := approvals) (fun _ => rows_update _ _ _) _) => apply sound_approvals
  | |- sound _ (set_field (proj := approvals) (fun _ => _ ++ _) _) => apply sound_insert_approval
  | |- sound _ (set_field (proj := edits) (fun _ => rows_update _ _ _) _) => apply sound_edits
  | |- sound _ (set_field (proj := edits) (fun _ => _ ++ _) _) => apply sound_insert_edit
  | |- sound _ (set_field (proj := executions) (fun _ => rows_update _ _ _) _) => apply sound_executions
  | |- sound _ (set_field (proj := events) (fun _ => _ ++ _) _) => apply sound_event; [ | | sequence_ok]
  | |- sound _ (set_field (proj := ?p) _ ?b) => apply (sound_same _ b); [ | reflexivity ..]
  end.

Lemma wp_touch_task (db0 db : Db) (task : str) (now : Z) :
  sound db0 db -> tx_wp (touch_task task now) (fun _ => sound db0) db.
Proof. intros Hs. unfold_statements. wp_steps. repeat sound_step. Qed.

(** Expiring changes no consumed or denied approval. *)
Lemma expired_kept (a : ConnectorApproval) :
  a_state a <> ApprovalConsumed -> a_state a <> ApprovalDenied ->
  approval_kept a (a <| a_state := ApprovalExpired |>) /\ a_state (a <| a_state := ApprovalExpired |>) <> ApprovalApproved.
Proof. intros H1 H2. unfold approval_kept. split_and!; try done. intros [?|?]; done. Qed.

Lemma wp_expire_task_approvals (db0 db : Db) (task : str) :
  sound db0 db -> tx_wp (expire_task_approvals task) (fun _ => sound db0) db.
Proof.
  intros Hs. unfold_statements. wp_steps. repeat sound_step. intros a _ Hsel. apply expired_kept; intros Ha;
    by rewrite Ha, andb_false_r in Hsel.
Qed.

Lemma wp_insert_event (db0 db : Db) (fresh task rid : str) (sequence : Z) (kind : str) (payload : Value) (now : Z) :
  sound db0 db -> sequence = (max_sequence db task + 1)%Z ->
  tx_wp (insert_event fresh task rid sequence kind payload now) (fun _ => sound db0) db.
Proof.
  intros Hs ->. unfold_statements. wp_steps. apply sound_event; [done | | done].
  by apply negb_false_iff.
Qed.

Lemma wp_append_execution_event (db0 db : Db) (fresh : str) (e : ConnectorExecution) (s : ConnectorExecutionState) (now : Z) :
  sound db0 db -> tx_wp (append_execution_event fresh e s now) (fun _ => sound db0) db.
Proof. intros Hs. unfold append_execution_event. wp_steps. by apply wp_insert_event. Qed.

(** [eapply] a rule for the next statement and go on from the tables it leaves. *)
Ltac wp_use lem :=
  match goal with
  | H : sound ?d _ |- _ => eapply wp_mono; [eapply (lem d); try eassumption; try reflexivity | cbn beta; intros ? ? ?]
  end.

Lemma wp_interrupt_run (db0 db : Db) (fresh rid task reason : str) (now : Z) :
  sound db0 db -> tx_wp (interrupt_run fresh rid task reason now) (fun _ => sound db0) db.
Proof.
  intros Hs. unfold interrupt_run, update_runs. wp_steps.
  wp_use wp_insert_event. { repeat sound_step. }
  wp_steps. wp_use wp_expire_task_approvals. by apply wp_touch_task.
Qed.

Lemma wp_finalize_task_cancel (db0 db : Db) (fresh task rid : str) (payload : Value) (now : Z) :
  sound db0 db -> tx_wp (finalize_task_cancel fresh task rid payload now) (fun _ => sound db0) db.
Proof.
  intros Hs. unfold finalize_task_cancel, update_runs. wp_steps.
  wp_use wp_insert_event. { repeat sound_step. }
  wp_steps. wp_use wp_expire_task_approvals. by apply wp_touch_task.
Qed.

Lemma wp_require_execution (db0 db : Db) (id_ : str) :
  sound db0 db -> tx_wp (require_execution id_) (fun _ => sound db0) db.
Proof. intros Hs. unfold_statements. by wp_steps. Qed.
