(* ===== verification/ConnectorSound.v ===== *)
(** * ConnectorSound: every operation keeps the Connector's tables sound

    The operations of executions.rs and task_kernel.rs, one by one; then the step
    relation of the store and what holds along its histories. *)
From S2P Require Import Prelude RustStr Lifecycle Sql ConnectorModel ConnectorStore ConnectorTasks ConnectorExecutions ConnectorFacts.

#[global] Arguments as_i64 : simpl never.
#[global] Arguments plan_len : simpl never.

(** ** Executions *)

Lemma wp_update_executions (db0 db : Db) (sel : ExecutionRow -> bool) (upd : ExecutionRow -> ExecutionRow) :
  sound db0 db ->
  (forall x, x ∈ executions db -> sel x = true -> execution_ok x -> execution_check (upd x) = true ->
     execution_kept x (upd x) /\ execution_ok (upd x)) ->
  tx_wp (update_executions sel upd) (fun _ => sound db0) db.
Proof.
  intros Hs Hu. unfold update_executions, id. wp_steps. apply sound_executions; [done | ].
  intros x Hx Hsel Hok. apply Hu; try done. apply negb_false_iff in H. rewrite forallb_forall in H.
  specialize (H x). rewrite <- list_elem_of_In, Hsel in H. by apply H.
Qed.

Lemma active_not_succeeded (s : ConnectorExecutionState) : state_is_active s = true -> s <> ExSucceeded.
Proof. by destruct s. Qed.

(** A change of an active execution that moves no cursor and is no success. *)
Lemma active_update (x x' : ExecutionRow) :
  state_is_active (e_state (x_execution x)) = true -> execution_ok x -> execution_check x' = true ->
  execution_identity (x_execution x') = execution_identity (x_execution x) ->
  e_stdout_cursor (x_execution x') = e_stdout_cursor (x_execution x) ->
  e_stderr_cursor (x_execution x') = e_stderr_cursor (x_execution x) ->
  e_check_completed (x_execution x') = e_check_completed (x_execution x) ->
  e_continuation_delivery_state (x_execution x') = e_continuation_delivery_state (x_execution x) ->
  e_state (x_execution x') <> ExSucceeded ->
  execution_kept x x' /\ execution_ok x'.
Proof.
  intros Ha [] Hc Hi E1 E2 E3 E4 Hs. split.
  - unfold execution_kept. rewrite E1, E2, E3, E4. split_and!; try done; try lia.
    unfold state_is_terminal. by rewrite Ha.
  - split; [done | by rewrite E1 | by rewrite E2 | | intros _ ?; done].
    rewrite E3. unfold plan_len in *. by injection Hi as _ _ _ _ _ _ _ -> _.
Qed.

(** A change that leaves the verdict alone. *)
Lemma verdict_update (x x' : ExecutionRow) :
  execution_ok x -> execution_check x' = true ->
  execution_identity (x_execution x') = execution_identity (x_execution x) ->
  execution_verdict (x_execution x') = execution_verdict (x_execution x) ->
  delivery_kept (e_continuation_delivery_state (x_execution x)) (e_continuation_delivery_state (x_execution x')) ->
  execution_kept x x' /\ execution_ok x'.
Proof.
  intros [] Hc Hi Hv Hd. injection Hv as V1 V2 V3 V4 V5 V6 V7 V8 V9 V10 V11 V12.
  injection Hi as I1 I2 I3 I4 I5 I6 I7 I8 I9. split.
  - unfold execution_kept, execution_identity, execution_verdict. split_and!; try lia; try congruence; done.
  - split; [done | lia | lia | unfold plan_len in *; rewrite I8; lia | ].
    unfold check_proven, plan_len in *. rewrite I2, V1, I8, I9, V12, V9. done.
Qed.

(** The rows an update by identifier touches are the active one that was loaded. *)
Ltac active_row :=
  match goal with
  | Hs : sound _ ?db, Hl : load_execution ?db ?i = Some ?e, Hx : ?x ∈ executions ?db, Hid : has_id ?i ?x = true |- _ =>
      let Ha := fresh "Hactive" in
      assert (Ha : state_is_active (e_state (x_execution x)) = true)
        by (rewrite (found_execution db i e x (proj1 Hs) Hl Hx Hid);
            unfold is_terminal_execution, state_is_terminal, is_active_execution in *;
            first [ by destruct (state_is_active (e_state e))
                  | match goal with Hst : context [e_state e ==? _] |- _ => idtac end;
                    repeat match goal with
                    | Hst : negb (e_state e ==? _) = false |- _ => apply negb_false_iff, beq_true in Hst
                    end; match goal with Hst : e_state e = _ |- _ => by rewrite Hst end ])
  end.

Ltac active_step := intros ? ? ? ? ?; active_row; apply active_update; done.

(** The statements that end an operation. *)
Ltac wp_tail :=
  repeat (cbn beta; lazymatch goal with
    | |- tx_wp (append_execution_event _ _ _ _) _ _ => wp_use wp_append_execution_event
    | |- tx_wp (interrupt_run _ _ _ _ _) _ _ => wp_use wp_interrupt_run
    | |- tx_wp (finalize_task_cancel _ _ _ _ _) _ _ => wp_use wp_finalize_task_cancel
    | |- tx_wp (touch_task _ _) _ _ => wp_use wp_touch_task
    | |- tx_wp (require_execution _) _ _ => wp_use wp_require_execution
    | |- tx_wp (commit_execution _) _ _ => unfold commit_execution
    | |- sound _ _ => assumption
    | _ => wp_step
    end).

Section Executions.
Context `{JsonText}.

Lemma start_execution_sound (db : Db) (fresh id_ : str) (now : Z) :
  wf db -> tx_wp (start_connector_execution fresh id_ now) (fun _ => sound db) db.
Proof.
  intros Hw%sound_refl. unfold start_connector_execution, require_execution, id. wp_steps; [done | ].
  wp_use wp_update_executions. { active_step. }
  wp_tail.
Qed.

Lemma materialize_sound (db : Db) (id_ project subject : str) (now : Z) :
  wf db -> tx_wp (materialize_connector_execution_mcp_task_for_subject id_ project subject now) (fun _ => sound db) db.
Proof.
  intros Hw%sound_refl. unfold materialize_connector_execution_mcp_task_for_subject, require_execution, require_task, id.
  wp_steps; [done | ]. wp_use wp_update_executions; [ | by apply wp_require_execution].
  intros x Hx Hsel Hok Hc. apply andb_true_iff in Hsel as [[_ Ha]%andb_true_iff _]. apply active_update; try done.
  by apply active_not_succeeded.
Qed.

Lemma output_tail_sound (db : Db) (id_ : str) (tail : Value) :
  wf db -> tx_wp (record_connector_mcp_task_output_tail id_ tail) (fun _ => sound db) db.
Proof.
  intros Hw%sound_refl. unfold record_connector_mcp_task_output_tail, serialize_mcp_task_output_tail, require_execution, id.
  wp_steps; [done | ]. wp_use wp_update_executions; [ | by apply wp_require_execution].
  intros x Hx Hsel Hok Hc. apply andb_true_iff in Hsel as [_ Ha]. apply active_update; try done.
  by apply active_not_succeeded.
Qed.

Lemma arm_sound (db : Db) (id_ : str) (now : Z) :
  wf db -> tx_wp (arm_connector_terminal_continuation id_ now) (fun _ => sound db) db.
Proof.
  intros Hw%sound_refl. unfold arm_connector_terminal_continuation, require_execution, id.
  wp_steps; [done | ]. wp_use wp_update_executions; [ | by apply wp_require_execution].
  intros x Hx Hsel Hok Hc. apply andb_true_iff in Hsel as [_ Ha]. apply active_update; try done.
  by apply active_not_succeeded.
Qed.

Lemma claim_continuation_sound (db : Db) (fence : str) :
  wf db -> tx_wp (claim_next_terminal_continuation fence) (fun _ => sound db) db.
Proof.
  intros Hw%sound_refl. unfold claim_next_terminal_continuation, id. wp_steps.
  destruct (sort_by _ _) as [|candidate rest]; [by wp_steps | ]. wp_steps. wp_use wp_update_executions.
  { intros x Hx Hsel Hok Hc. apply andb_true_iff in Hsel as [_ Hr]. apply verdict_update; try done.
    unfold continuation_ready in Hr. apply andb_true_iff in Hr as [[_ Hr]%andb_true_iff _]. apply beq_true in Hr.
    rewrite Hr. by split. }
  wp_steps. wp_use wp_require_execution. by wp_steps.
Qed.

(** The moves of a delivery that the four transitions make. *)
Definition delivery_move (from to : ConnectorTerminalContinuationDeliveryState) (clear_fence : bool) : Prop :=
  (from, to, clear_fence) ∈ [(Claimed, Unclaimed, true); (Claimed, Dispatching, false); (Dispatching, Delivered, true);
                             (Dispatching, DeliveryUnknown, true)].

Lemma transition_sound (db : Db) (id_ fence : str) (expected next : ConnectorTerminalContinuationDeliveryState)
  (clear_fence : bool) :
  wf db -> delivery_move expected next clear_fence ->
  tx_wp (transition_terminal_continuation_delivery id_ fence expected next clear_fence) (fun _ => sound db) db.
Proof.
  intros Hw%sound_refl Hm. unfold transition_terminal_continuation_delivery, require_execution, id. wp_steps.
  wp_use wp_update_executions; [ | wp_steps; by apply wp_require_execution].
  intros x Hx Hsel Hok Hc. apply andb_true_iff in Hsel as [[_ He]%andb_true_iff _]. apply beq_true in He.
  assert (Hd : delivery_kept expected next).
  { unfold delivery_move in Hm. rewrite !elem_of_cons, elem_of_nil in Hm.
    destruct Hm as [[= -> -> _]|[[= -> -> _]|[[= -> -> _]|[[= -> -> _]|[]]]]]; by split; cbn; lia || done. }
  apply verdict_update; try done; destruct clear_fence; try done; by rewrite <- He in Hd.
Qed.

Lemma attach_sound (db : Db) (fresh id_ reference status : str) (now : Z) :
  wf db -> tx_wp (attach_connector_executor fresh id_ reference status now) (fun _ => sound db) db.
Proof.
  intros Hw%sound_refl. unfold attach_connector_executor, require_execution, id. wp_steps.
  - wp_use wp_update_executions. { intros x _ _ Hok Hc. by apply verdict_update. }
    wp_tail.
  - wp_use wp_update_executions.
    { intros x Hx Hid Hok Hc. active_row. apply active_update; try done.
      rewrite (found_execution db id_ a x (proj1 Hw)) in Hactive by done. cbn. unfold attached_state.
      apply active_not_succeeded in Hactive. destruct (e_state a ==? _); [done | ]. by destruct (from_wire status) as [[]|]. }
    wp_tail.
Qed.

Lemma status_failure_sound (db : Db) (id_ code : str) (now : Z) :
  wf db -> tx_wp (record_connector_execution_status_failure id_ code now) (fun _ => sound db) db.
Proof.
  intros Hw%sound_refl. unfold record_connector_execution_status_failure, require_execution, id. wp_steps; [done | ].
  wp_use wp_update_executions.
  { intros x Hx Hid Hok Hc. active_row. apply active_update; try done. by apply active_not_succeeded. }
  wp_tail.
Qed.

Lemma queue_timeout_sound (db : Db) (fresh id_ : str) (now : Z) :
  wf db -> tx_wp (request_connector_queue_timeout fresh id_ now) (fun _ => sound db) db.
Proof.
  intros Hw%sound_refl. unfold request_connector_queue_timeout, require_execution, id. wp_steps; [done | ].
  wp_use wp_update_executions. { active_step. }
  wp_tail.
Qed.

Lemma finish_execution_sound (db : Db) (fresh1 fresh2 id_ : str) (f : ConnectorExecutionFailure) (now : Z) :
  wf db -> tx_wp (finish_connector_execution fresh1 fresh2 id_ f now) (fun _ => sound db) db.
Proof.
  intros Hw%sound_refl. unfold finish_connector_execution, require_execution, id. wp_steps; [done | ].
  destruct (failure_outcome a f) as [[[state source] code] reason] eqn:Ef. wp_steps.
  assert (Hst : state <> ExSucceeded).
  { destruct f; cbn in Ef; [destruct (e_state a ==? _) | | ]; injection Ef as <- _ _ _; done. }
  wp_use wp_update_executions.
  { intros x Hx Hid Hok Hc. rewrite (load_execution_id _ _ _ H0) in Hid. apply negb_false_iff in Hb.
    assert (state_is_active (e_state (x_execution x)) = true) by by rewrite (found_execution db id_ a x (proj1 Hw)).
    unfold finalize_mcp in *. by apply active_update. }
  wp_tail.
Qed.

(** A new execution goes in after the others, and only when none of the task's is open. *)
Definition reserved (db : Db) (task : str) (now : Z) (r : ConnectorExecutionReservation) (db' : Db) : Prop :=
  match r with
  | ReservationExisting _ => db' = db
  | ReservationCreated e =>
      e_task_id e = task /\ e_submitted_at e = now /\ connector_finish_blocker db task = None
      /\ exists db1, advances db db1 /\ sound db1 db' /\ executions db1 = executions db ++ [mkExecutionRow e None None]
         /\ tasks db1 = tasks db /\ approvals db1 = approvals db
  end.

Lemma reserve_spec (db : Db) (fresh execution_id : str) (task : ConnectorTaskSnapshot) (kind operation_id request : str)
  (plan : list str) (recipe : option Value) (sha : option str) (deadline now : Z) :
  wf db ->
  tx_wp (reserve_connector_execution fresh execution_id task kind operation_id request plan recipe sha deadline now)
    (reserved db (n_task_id task) now) db.
Proof.
  intros Hw%advances_refl. unfold reserve_connector_execution, require_task, require_running, id. wp_steps; [done | ].
  set (db1 := db <| executions := _ |>).
  assert (Hs : advances db db1).
  { apply advances_insert_execution; [done | by apply negb_false_iff | ]. split; try done. cbn. unfold plan_len. lia. }
  assert (Hs1 : sound db1 db1) by apply sound_refl, Hs.
  wp_use wp_append_execution_event. wp_steps. wp_use wp_touch_task. wp_steps. unfold reserved. split_and!; try done.
  by exists db1.
Qed.

(** The counters of an observation are [usize] values. *)
Definition observation_typed (ob : ConnectorExecutionObservation) : Prop :=
  (0 <= ob_stdout_cursor ob < 2 ^ 64)%Z /\ (0 <= ob_stderr_cursor ob < 2 ^ 64)%Z
  /\ (forall n, ob_check_completed ob = Some n -> (0 <= n < 2 ^ 64)%Z).

(** A count the database accepts is stored as it is. *)
Lemma as_i64_accepted (n : Z) : (0 <= n < 2 ^ 64)%Z -> (0 <= as_i64 n)%Z -> as_i64 n = n /\ (n < 2 ^ 63)%Z.
Proof.
  intros Hn. unfold as_i64. rewrite Z.mod_small by lia. destruct (Z.ltb_spec n (2 ^ 63)); lia.
Qed.

Lemma check_observation_facts (e : ConnectorExecution) (ob : ConnectorExecutionObservation) (state : ConnectorExecutionState)
  (source : option str) :
  check_execution_observation e ob state source = Ok tt ->
  (forall n, ob_check_completed ob = Some n -> (e_check_completed e <= n <= plan_len e)%Z)
  /\ (state = ExSucceeded -> e_kind e = KindCheck ->
      ob_check_completed ob = Some (plan_len e) /\ is_some (ob_validated_workspace_sha256 ob) = true
      /\ e_check_workspace_sha256 e = ob_validated_workspace_sha256 ob).
Proof.
  unfold check_execution_observation. intros Hc. step_guards Hc. split.
  - intros n Hn. rewrite Hn in *. cbn in *.
    repeat match goal with Hx : Z.ltb _ _ = false |- _ => apply Z.ltb_ge in Hx end. lia.
  - intros -> Hk. match goal with Hx : (ExSucceeded ==? ExSucceeded) && _ && _ = false |- _ => rename Hx into Hs end.
    rewrite Hk, !beq_refl in Hs. cbn [andb] in Hs. apply orb_false_iff in Hs as [[[Hs1 _]%orb_false_iff Hs2]%orb_false_iff Hs3].
    apply negb_false_iff, beq_true in Hs1, Hs3. split_and!; [done | | done]. by apply negb_false_iff in Hs2.
Qed.

(** A cursor and the progress after an observation the database accepts. *)
Lemma observed_cursor (old seen : Z) :
  (1 <= old < 2 ^ 63)%Z -> (0 <= seen < 2 ^ 64)%Z -> (1 <= as_i64 (Z.max old seen))%Z ->
  (old <= as_i64 (Z.max old seen) < 2 ^ 63)%Z.
Proof. intros Ho Hs Hc. destruct (as_i64_accepted (Z.max old seen)) as [-> ?]; lia. Qed.

Lemma observed_progress (old max : Z) (seen : option Z) :
  (old <= max)%Z -> (forall n, seen = Some n -> (0 <= n < 2 ^ 64)%Z /\ (old <= n <= max)%Z) ->
  (0 <= unwrap_or old (as_i64 <$> seen))%Z ->
  unwrap_or old (as_i64 <$> seen) = unwrap_or old seen /\ (old <= unwrap_or old seen <= max)%Z.
Proof.
  intros Hm Hs Hc. destruct seen as [n|]; cbn in *; [ | lia]. destruct (Hs n eq_refl) as [Hn Hb].
  destruct (as_i64_accepted n Hn Hc) as [-> _]. done.
Qed.

Lemma observed_update (x : ExecutionRow) (e : ConnectorExecution) (ob : ConnectorExecutionObservation) (advanced : bool)
  (state : ConnectorExecutionState) (source code reason : option str) (x' : ExecutionRow) :
  x_execution x = e ->
  x' = on_execution (observed_execution ob (Z.max (e_stdout_cursor e) (ob_stdout_cursor ob))
              (Z.max (e_stderr_cursor e) (ob_stderr_cursor ob)) advanced state source code reason) x ->
  observation_typed ob -> state_is_active (e_state e) = true -> check_execution_observation e ob state source = Ok tt ->
  execution_ok x -> execution_check x' = true -> execution_kept x x' /\ execution_ok x'.
Proof.
  intros Ee Ex (To & Te & Tc) Ha [Hp Hs]%check_observation_facts [Oc Os Oe Op _] Hc.
  assert (F1 : e_stdout_cursor (x_execution x') = as_i64 (Z.max (e_stdout_cursor e) (ob_stdout_cursor ob))) by by rewrite Ex.
  assert (F2 : e_stderr_cursor (x_execution x') = as_i64 (Z.max (e_stderr_cursor e) (ob_stderr_cursor ob))) by by rewrite Ex.
  assert (F3 : e_check_completed (x_execution x') = unwrap_or (e_check_completed e) (as_i64 <$> ob_check_completed ob))
    by by rewrite Ex, <- Ee.
  assert (F4 : execution_identity (x_execution x') = execution_identity e) by by rewrite Ex, <- Ee.
  assert (F5 : e_continuation_delivery_state (x_execution x') = e_continuation_delivery_state e) by by rewrite Ex, <- Ee.
  assert (F6 : e_state (x_execution x') = state) by by rewrite Ex.
  assert (F7 : e_validated_workspace_sha256 (x_execution x')
    = if (state ==? ExSucceeded) && (e_kind e ==? KindCheck) then ob_validated_workspace_sha256 ob else None)
    by by rewrite Ex, <- Ee.
  clear Ex. rewrite Ee in *. unfold execution_check in Oc, Hc.
  pose proof Hc as [[[[H1%Z.leb_le H2%Z.leb_le]%andb_true_iff H3%Z.leb_le]%andb_true_iff _]%andb_true_iff _]%andb_true_iff.
  apply andb_true_iff in Oc as [[[[O1%Z.leb_le O2%Z.leb_le]%andb_true_iff _]%andb_true_iff _]%andb_true_iff _].
  rewrite Ee in O1, O2. rewrite F1 in H1. rewrite F2 in H2. rewrite F3 in H3.
  pose proof (observed_cursor _ _ (conj O1 Os) To H1) as L1. pose proof (observed_cursor _ _ (conj O2 Oe) Te H2) as L2.
  destruct (observed_progress _ _ _ Op (fun n E => conj (Tc n E) (Hp n E)) H3) as [E3 L3].
  injection F4 as I1 I2 I3 I4 I5 I6 I7 I8 I9.
  split.
  - unfold execution_kept, execution_identity. rewrite Ee, F1, F2, F3, F5, E3, I1, I2, I3, I4, I5, I6, I7, I8, I9.
    split_and!; try done; try lia. unfold state_is_terminal. by rewrite Ha.
  - split; [done | lia | lia | unfold plan_len in *; rewrite F3, E3, I8; lia | ].
    unfold check_proven, plan_len in *. rewrite I2, I8, I9, F3, F6, F7, E3. intros Hk ->.
    destruct (Hs eq_refl Hk) as (S1 & S2 & S3). rewrite Hk, !beq_refl, S1, S3. done.
Qed.

Lemma observe_sound (db : Db) (fresh1 fresh2 id_ : str) (ob : ConnectorExecutionObservation) :
  wf db -> observation_typed ob -> tx_wp (observe_connector_execution fresh1 fresh2 id_ ob) (fun _ => sound db) db.
Proof.
  intros Hw%sound_refl Ht. unfold observe_connector_execution, require_execution, id. wp_steps; [done | | ].
  - wp_use wp_update_executions.
    { intros x Hx Hid Hok Hc. active_row. apply active_update; try done. by apply active_not_succeeded. }
    wp_tail.
  - destruct (observed_state a ob) as [[[state source] code] reason]. wp_steps.
    wp_use wp_update_executions.
    { intros x Hx Hid Hok Hc. pose proof (found_execution db id_ a x (proj1 Hw) H0 Hx Hid) as Hfound.
      eapply (observed_update x a ob); [exact Hfound | reflexivity | exact Ht | | | exact Hok | exact Hc].
      - unfold is_terminal_execution, state_is_terminal in Hb. by destruct (state_is_active (e_state a)).
      - destruct a0. exact H1. }
    wp_tail.
Qed.

(** The latest execution of a task is one of its rows. *)
Lemma latest_execution_row (db : Db) (task : str) (e : ConnectorExecution) :
  latest_execution db task = Some e ->
  exists x, x ∈ executions db /\ x_execution x = e /\ e_task_id e = task.
Proof.
  unfold latest_execution.
  pose proof (latest_by_spec (fun x => e_submitted_at (x_execution x)) (task_executions db task)) as Hl.
  destruct (latest_by _ _) as [x|]; [ | done]. intros [= <-]. destruct Hl as [Hin _]. exists x.
  unfold task_executions in Hin. apply list_elem_of_In, filter_In in Hin as [Hin Ht].
  split_and!; [by apply list_elem_of_In | done | by apply beq_true].
Qed.

Lemma latest_execution_loads (db : Db) (task : str) (e : ConnectorExecution) :
  wf db -> latest_execution db task = Some e -> load_execution db (e_execution_id e) = Some e.
Proof.
  intros [] (x & Hx & <- & _)%latest_execution_row. unfold load_execution, load_execution_row.
  change (fun y => e_execution_id (x_execution y) ==? e_execution_id (x_execution x)) with (fun y => exec_id y ==? exec_id x).
  by rewrite (find_unique_key exec_id _ x).
Qed.

Lemma cancel_sound (db : Db) (fresh1 fresh2 : str) (task : ConnectorTaskSnapshot) (reason : option str) (now : Z) :
  wf db -> tx_wp (request_connector_execution_cancel fresh1 fresh2 task reason now) (fun _ => sound db) db.
Proof.
  intros Hw%sound_refl. unfold request_connector_execution_cancel, require_task, require_running, id. wp_tail.
  pose proof (latest_execution_loads _ _ _ (proj1 Hw) Ho) as Hl.
  wp_use wp_update_executions.
  { intros x Hx Hid Hok Hc. active_row. apply active_update; try done; cbn;
      by destruct ((e_state c ==? ExAccepted) && is_none (e_executor_reference c)). }
  wp_tail. all: wp_use wp_insert_event; wp_tail.
Qed.

Lemma recover_deliveries_sound (db0 db d : Db) (project : str) :
  sound db0 db -> tx_wp (recover_deliveries d project) (fun _ => sound db0) db.
Proof.
  intros Hs. unfold recover_deliveries. wp_steps. wp_use wp_update_executions.
  { intros x _ Hsel Hok Hc. rewrite !andb_true_iff in Hsel. destruct Hsel as [[[[Hd _] _] _] _]. apply beq_true in Hd.
    apply verdict_update; try done. rewrite Hd. by split. }
  eapply wp_mono; [apply (wp_update_executions db0) | done]; [done | ].
  intros x _ [Hd _]%andb_true_iff Hok Hc. apply beq_true in Hd. apply verdict_update; try done. rewrite Hd.
  split; cbn; [lia | done].
Qed.

Lemma insert_event_executions (db : Db) (fresh task rid : str) (sequence : Z) (kind : str) (payload : Value) (now : Z) :
  tx_wp (insert_event fresh task rid sequence kind payload now) (fun _ db' => executions db' = executions db) db.
Proof. unfold_statements. by wp_steps. Qed.

Lemma interrupt_run_executions (db : Db) (fresh rid task reason : str) (now : Z) :
  tx_wp (interrupt_run fresh rid task reason now) (fun _ db' => executions db' = executions db) db.
Proof. unfold interrupt_run. unfold_statements. by wp_steps. Qed.

Lemma append_event_executions (db : Db) (fresh : str) (e : ConnectorExecution) (s : ConnectorExecutionState) (now : Z) :
  tx_wp (append_execution_event fresh e s now) (fun _ db' => executions db' = executions db) db.
Proof. unfold append_execution_event. wp_steps. apply insert_event_executions. Qed.

(** The columns an interruption writes. *)
Definition interrupted (now : Z) : ExecutionRow -> ExecutionRow := on_execution (fun e => finalize_mcp now
  (e <| e_state := ExInterrupted |> <| e_finished_at := Some now |> <| e_failure_source := Some (lit "runtime") |>
     <| e_failure_code := Some (lit "executor_handle_unverified") |> <| e_terminal_reason := Some (lit "runtime_restarted") |>)).

Lemma interrupt_execution_sound (db0 db : Db) (fresh id_ : str) (now : Z) (x : ExecutionRow) :
  sound db0 db -> x ∈ executions db -> exec_id x = id_ -> state_is_active (e_state (x_execution x)) = true ->
  tx_wp (interrupt_execution fresh id_ now)
    (fun _ db' => sound db0 db' /\ executions db' = rows_update (has_id id_) (interrupted now) (executions db)) db.
Proof.
  intros Hs Hx Hid Ha. unfold interrupt_execution, require_execution, id. wp_steps.
  eapply wp_mono; [apply wp_and; [apply (wp_update_executions db0 db); [done | ] | ] | ].
  - intros y Hy Hsel Hok Hc. unfold finalize_mcp in *. apply active_update; try done.
    rewrite (found_execution db id_ a y (proj1 Hs)) by done.
    assert (Hidx : has_id id_ x = true) by by apply beq_eq.
    rewrite (found_execution db id_ a x (proj1 Hs)) in Ha; done.
  - unfold update_executions, id. wp_steps.
    instantiate (1 := fun _ db' => executions db' = rows_update (has_id id_) (interrupted now) (executions db)). reflexivity.
  - cbn beta. intros _ db1 [Hs1 Hx1]. eapply wp_mono; [apply wp_and; [by apply wp_append_execution_event | apply append_event_executions] | ].
    cbn beta. intros _ db2 [Hs2 Hx2]. split; [done | congruence].
Qed.

(** The executions a restart has still to interrupt are active, each of its own run. *)
Definition recoverable (db : Db) (l : list (str * str * option str)) : Prop :=
  NoDup (map (fun r => fst (fst r)) l)
  /\ forall rid task id_, (rid, task, Some id_) ∈ l ->
     exists x, x ∈ executions db /\ exec_id x = id_ /\ e_run_id (x_execution x) = rid
       /\ state_is_active (e_state (x_execution x)) = true.

Lemma recover_runs_sound (db0 : Db) (fresh : nat -> str) (now : Z) (l : list (str * str * option str)) :
  forall n db, sound db0 db -> recoverable db l -> tx_wp (recover_runs fresh n now l) (fun _ => sound db0) db.
Proof.
  induction l as [|[[rid task] id_] l IH]; intros n db Hs [Hn Hr]; cbn [recover_runs]; [by wp_steps | ].
  cbn in Hn. apply NoDup_cons in Hn as [Hrid Hn]. apply wp_bind.
  assert (Hnext : forall db1, sound db0 db1 ->
    (forall x, x ∈ executions db -> e_run_id (x_execution x) <> rid -> x ∈ executions db1) ->
    tx_wp (recover_runs fresh (S (S n)) now l) (fun _ => sound db0) db1).
  { intros db1 Hs1 Hkeep. apply IH; [done | ]. split; [done | ]. intros rid' task' id' Hin.
    destruct (Hr rid' task' id') as (x & Hx & E1 & E2 & E3); [by apply elem_of_cons; right | ].
    exists x. split_and!; try done. apply Hkeep; [done | ]. intros Heq. apply Hrid. rewrite <- Heq, E2.
    by apply (list_elem_of_fmap_2 (fun r => fst (fst r))) in Hin. }
  assert (Htail : forall db1, sound db0 db1 ->
    (forall x, x ∈ executions db -> e_run_id (x_execution x) <> rid -> x ∈ executions db1) ->
    tx_wp (_ ← interrupt_run (fresh (S n)) rid task (lit "runtime_restarted") now;
           interrupted ← recover_runs fresh (S (S n)) now l; mret ((if is_some id_ then 1 else 0) + interrupted))
      (fun _ => sound db0) db1).
  { intros db1 Hs1 Hkeep. wp_steps.
    eapply wp_mono; [apply wp_and; [by apply wp_interrupt_run | apply interrupt_run_executions] | ].
    cbn beta. intros _ db2 [Hs2 Hx2]. wp_steps. eapply wp_mono; [apply Hnext; [done | ] | intros ? ? ?; by wp_steps].
    by rewrite Hx2. }
  destruct id_ as [id_|]; [ | apply wp_ret; by apply Htail].
  destruct (Hr rid task id_) as (x & Hx & E1 & E2 & E3); [apply list_elem_of_here | ].
  eapply wp_mono; [by apply (interrupt_execution_sound db0 db _ _ _ x) | ]. cbn beta. intros _ db1 [Hs1 Hx1].
  apply Htail; [done | ]. intros y Hy Hne. rewrite Hx1. unfold rows_update. apply list_elem_of_In, in_map_iff.
  exists y. split; [ | by apply list_elem_of_In]. destruct (has_id id_ y) eqn:E; [ | done]. exfalso. apply Hne.
  apply beq_true in E. assert (y = x) as ->; [ | done].
  assert (Hu : NoDup (map exec_id (executions db))) by by destruct Hs as [[] _].
  pose proof (find_unique_key exec_id _ x Hu Hx) as F1. pose proof (find_unique_key exec_id _ y Hu Hy) as F2.
  unfold exec_id in E1, F1, F2. rewrite E in F2. rewrite E1 in F1. congruence.
Qed.

Lemma running_runs_recoverable (db : Db) (project : str) : wf db -> recoverable db (running_runs db project).
Proof.
  intros Hw. unfold running_runs. split.
  - rewrite map_map. cbn. pose proof (wf_run_ids db Hw) as Hids. clear -Hids.
    induction (runs db) as [|r l IH]; [constructor | ]. cbn in *. apply NoDup_cons in Hids as [Hr Hn]. destruct (_ && _); [ | by apply IH]. cbn. apply NoDup_cons. split; [ | by apply IH].
    intros (r' & Heq & Hin)%list_elem_of_fmap. apply Hr. apply list_elem_of_In, filter_In in Hin as [Hin _]. rewrite Heq.
    apply (list_elem_of_fmap_2 r_id). by apply list_elem_of_In.
  - intros rid task id_ Hin. apply list_elem_of_In, in_map_iff in Hin as (r & [= <- <- He] & _).
    match type of He with _ <$> latest_by ?k ?l = _ => pose proof (latest_by_spec k l) as Hl end.
    destruct (latest_by _ _) as [x|]; [ | done]. injection He as <-. destruct Hl as [Hx _].
    apply list_elem_of_In, filter_In in Hx as [Hx [Hrun Ha]%andb_true_iff]. exists x.
    split_and!; [by apply list_elem_of_In | done | by apply beq_true | done].
Qed.

Lemma reconcile_sound (db : Db) (fresh : nat -> str) (project : str) (now : Z) (recover : bool) :
  wf db -> tx_wp (reconcile_connector_executions_inner fresh project now recover) (fun _ => sound db) db.
Proof.
  intros Hw%sound_refl. unfold reconcile_connector_executions_inner, id. wp_steps.
  1: wp_use recover_deliveries_sound; wp_steps.
  all: eapply wp_mono; [apply recover_runs_sound; [done | apply running_runs_recoverable] | intros ? ? ?; by wp_steps].
  - by match goal with H1 : sound _ ?d |- wf ?d => apply H1 end.
  - apply Hw.
Qed.
End Executions.
