(* ===== verification/ConnectorTaskSound.v ===== *)
(** * ConnectorTaskSound: the operations on a task keep the Connector's tables sound *)
From S2P Require Import Prelude RustStr Lifecycle Sql ConnectorModel ConnectorStore ConnectorTasks ConnectorExecutions ConnectorFacts ConnectorSound.

(** The side conditions of a statement: what the guards before it established. *)
Ltac sound_side :=
  match goal with
  | H : negb ?b = false |- ?b = true => apply negb_false_iff; exact H
  | |- _ => assumption
  | |- _ => done
  end.

Ltac task_op :=
  unfold_statements; wp_steps; repeat sound_step; try sound_side.

Lemma binding_sound (db : Db) (fresh : str) (b : ConnectorBinding) :
  wf db -> tx_wp (ensure_connector_binding fresh b) (fun _ => sound db) db.
Proof. intros Hw. unfold ensure_connector_binding. task_op. Qed.

Lemma wp_bind_window (db0 db : Db) (task project subject : str) (b : ConnectorWindowBinding) :
  sound db0 db -> tx_wp (bind_window_context task project subject b) (fun _ => sound db0) db.
Proof. intros Hs. unfold bind_window_context. task_op. Qed.

Lemma wp_bind_optional (db0 db : Db) (task project subject : str) (b : option ConnectorWindowBinding) :
  sound db0 db -> tx_wp (bind_optional task project subject b) (fun _ => sound db0) db.
Proof. intros Hs. unfold bind_optional. destruct b; [by apply wp_bind_window | by wp_steps]. Qed.

(** The window binding that may end a transaction. *)
Ltac bind_tail :=
  wp_use wp_bind_optional; [repeat sound_step; try sound_side | wp_steps; try sound_side].

(** A task without a row has no events. *)
Lemma max_sequence_fresh (db : Db) (task : str) :
  wf db -> is_some (task_by_id db task) = false -> max_sequence db task = 0%Z.
Proof.
  intros Hw Hf. rewrite max_sequence_length by apply (wf_sequences db Hw).
  assert (Hnone : List.filter (fun e => v_task_id e ==? task) (events db) = []); [ | unfold task_sequences; by rewrite Hnone].
  pose proof (wf_event_tasks db Hw) as Hev. rewrite Forall_forall in Hev. apply elem_of_nil_inv.
  intros e [Hin Ht]%list_elem_of_In%filter_In. apply list_elem_of_In in Hin. apply beq_true in Ht. subst task.
  specialize (Hev e Hin). apply list_elem_of_fmap in Hev as (t & Ht & Hin'). unfold task_by_id in Hf.
  destruct (find _ (tasks db)) eqn:Ef; [done | ]. pose proof (find_elem_none _ _ _ Ef Hin') as Hne. cbn in Hne.
  by rewrite Ht, beq_refl in Hne.
Qed.

Lemma start_sound (db : Db) (fresh : str) (task : NewConnectorTask) (b : option ConnectorWindowBinding) :
  wf db -> tx_wp (start_connector_task_transaction fresh task b) (fun _ => sound db) db.
Proof.
  intros Hw%sound_refl. unfold start_connector_task_transaction. unfold_statements. wp_steps.
  apply orb_false_iff in H2 as [H2 _], H3 as [H3 _].
  wp_use wp_bind_optional; [apply sound_event; [ | by apply negb_false_iff | ] | by wp_steps].
  - repeat sound_step; try done.
  - cbn [v_sequence v_task_id]. change (max_sequence _ (nt_task_id task)) with (max_sequence db (nt_task_id task)).
    rewrite max_sequence_fresh; [done | apply Hw | done].
Qed.

Lemma continue_sound (db : Db) (fresh : str) (c : ConnectorTaskContinuation) (b : option ConnectorWindowBinding) :
  wf db -> tx_wp (continue_connector_task_transaction fresh c b) (fun _ => sound db) db.
Proof.
  intros Hw%sound_refl. unfold continue_connector_task_transaction. unfold_statements. wp_steps.
  destruct (final_shape a0 (ct_workspace c)) as [[[[isolated target_root] execution_root] commit] tree]. wp_steps; bind_tail.
Qed.

Lemma append_interrupted_sound (db : Db) (fresh task project subject instruction mode : str) (now : Z)
  (b : option ConnectorWindowBinding) :
  wf db ->
  tx_wp (append_interrupted_connector_instruction_transaction fresh task project subject instruction mode now b)
    (fun _ => sound db) db.
Proof.
  intros Hw%sound_refl. unfold append_interrupted_connector_instruction_transaction. unfold_statements. wp_steps. bind_tail.
Qed.

Lemma append_event_sound (db : Db) (fresh task project subject kind : str) (payload : Value) (now : Z) :
  wf db -> tx_wp (append_connector_task_event fresh task project subject kind payload now) (fun _ => sound db) db.
Proof. intros Hw. unfold append_connector_task_event. task_op. Qed.

Lemma append_guidance_sound (db : Db) (fresh task project subject : str) (payload : Value) (now : Z) :
  wf db -> tx_wp (append_connector_decision_guidance fresh task project subject payload now) (fun _ => sound db) db.
Proof. intros Hw. unfold append_connector_decision_guidance. task_op. Qed.

(** ** Edit operations *)

(** Only the operation that is still pending is settled. *)
Lemma settle_edit_sound (db0 db : Db) (task operation request message : str) (upd : EditOperationRow -> EditOperationRow) :
  sound db0 db ->
  (forall o, o_state o = EditPending -> edit_ok o -> edit_kept o (upd o) /\ edit_ok (upd o)) ->
  tx_wp (settle_edit task operation request upd message) (fun _ => sound db0) db.
Proof.
  intros Hs Hu. unfold settle_edit, id. wp_steps. apply sound_edits; [done | ]. intros o _ Hsel Hok.
  apply andb_true_iff in Hsel as [_ Hp]. apply beq_true in Hp. by apply Hu.
Qed.

Lemma edit_update (o o' : EditOperationRow) :
  o_state o <> EditCompleted -> edit_id o' = edit_id o -> o_request_sha256 o' = o_request_sha256 o -> edit_kept o o'.
Proof. intros Hs [= E1 E2] E3. unfold edit_kept. split_and!; done. Qed.

Lemma complete_edit_sound (db : Db) (task project subject operation request : str) (result : Value) (now : Z) :
  wf db -> tx_wp (complete_connector_edit_operation task project subject operation request result now) (fun _ => sound db) db.
Proof.
  intros Hw%sound_refl. unfold complete_connector_edit_operation, require_task, require_running, id. wp_steps.
  apply settle_edit_sound; [done | ]. intros o Ho _. split; [apply edit_update; by rewrite ?Ho | done].
Qed.

Lemma fail_edit_sound (db : Db) (task operation request : str) (now : Z) :
  wf db -> tx_wp (fail_connector_edit_operation task operation request now) (fun _ => sound db) db.
Proof.
  intros Hw%sound_refl. apply settle_edit_sound; [done | ]. intros o Ho Hok.
  split; [apply edit_update; by rewrite ?Ho | ]. unfold edit_ok in *. by rewrite Ho in Hok.
Qed.

Lemma begin_edit_sound (db : Db) (task project subject operation request : str) (now : Z) :
  wf db -> tx_wp (begin_connector_edit_operation task project subject operation request now) (fun _ => sound db) db.
Proof.
  intros Hw%sound_refl. unfold begin_connector_edit_operation, require_task, require_running, id. wp_steps.
  - done.
  - destruct (o_state e), (o_result e); wp_steps; try done. apply sound_edits; [done | ]. intros o _ Hsel Hok.
    apply andb_true_iff in Hsel as [_ Hf]. apply beq_true in Hf.
    split; [apply edit_update; by rewrite ?Hf | ]. unfold edit_ok in *. by rewrite Hf in Hok.
  - by apply sound_insert_edit.
Qed.

(** ** Results *)

Lemma finish_sound (db : Db) (fresh task project subject : str) (r : NewConnectorResult) (now : Z) :
  wf db -> tx_wp (finish_connector_task fresh task project subject r now) (fun _ => sound db) db.
Proof.
  intros Hw%sound_refl. unfold finish_connector_task, update_runs, update_tasks, require_task, require_running, insert_result, id.
  wp_steps. wp_use wp_insert_event. { rewrite (load_task_cursor _ _ _ _ _ H0), (load_task_id _ _ _ _ _ H0). done. }
  wp_steps. wp_use wp_expire_task_approvals. { repeat sound_step. by apply negb_false_iff. }
  by wp_steps.
Qed.

Lemma release_sound (db : Db) (fresh task project subject : str) (released : bool) (warning : option str) (now : Z) :
  wf db -> tx_wp (record_connector_workspace_release fresh task project subject released warning now) (fun _ => sound db) db.
Proof. intros Hw. unfold record_connector_workspace_release, update_results. task_op. Qed.

Lemma resume_sound (db : Db) (fresh task project actor : str) (now : Z) :
  wf db -> tx_wp (resume_connector_task fresh task project actor now) (fun _ => sound db) db.
Proof. intros Hw. unfold resume_connector_task. task_op. Qed.

Lemma abandon_sound (db : Db) (fresh result_id task project actor : str) (now : Z) :
  wf db -> tx_wp (abandon_interrupted_connector_task fresh result_id task project actor now) (fun _ => sound db) db.
Proof.
  intros Hw%sound_refl. unfold abandon_interrupted_connector_task, update_runs, update_tasks, insert_result, id.
  wp_steps. wp_use wp_insert_event. { repeat sound_step. by apply negb_false_iff. }
  wp_steps. wp_use wp_expire_task_approvals. { repeat sound_step. }
  by wp_steps.
Qed.

(** ** Approvals *)

(** A change of an approval that is neither consumed nor denied. *)
Lemma approval_update (a a' : ConnectorApproval) :
  a_state a <> ApprovalConsumed -> a_state a <> ApprovalDenied -> a_id a' = a_id a -> approval_key a' = approval_key a ->
  a_action_kind a' = a_action_kind a -> approval_kept a a'.
Proof. intros H1 H2 E1 [= E2 E3 E4] E5. unfold approval_kept. split_and!; try done. intros [?|?]; done. Qed.

Ltac approval_step :=
  intros ? _ [_ Hst]%andb_true_iff; apply beq_true in Hst; split; [apply approval_update; by rewrite ?Hst | done].

Lemma gate_sound (db0 db : Db) (fresh : str) (task : ConnectorTaskSnapshot) (task_id kind hash : str) (now expires_at : Z)
  (a : ConnectorApproval) :
  sound db0 db -> (n_event_cursor task = max_sequence db task_id \/ a_state a = ApprovalPending) ->
  tx_wp (gate_approval fresh task task_id kind hash now expires_at a) (fun _ => sound db0) db.
Proof.
  intros Hs Hc. unfold gate_approval, expire_approval, update_approvals, id.
  destruct (a_state a) eqn:Ea; wp_steps; try done.
  all: try (apply sound_approvals; [done | approval_step]).
  all: destruct Hc as [Hc|?]; [ | done]; (wp_use wp_insert_event;
    [apply sound_approvals; [done | approval_step] | by rewrite Hc | ]); wp_steps; wp_use wp_touch_task; by wp_steps.
Qed.

Lemma request_approval_sound (db : Db) (fresh approval_id task project subject kind hash summary : str) (now expires_at : Z) :
  wf db ->
  tx_wp (request_or_consume_connector_approval fresh approval_id task project subject kind hash summary now expires_at)
    (fun _ => sound db) db.
Proof.
  intros Hw%sound_refl. unfold request_or_consume_connector_approval, require_task, require_running, insert_approval, id.
  wp_steps.
  - apply gate_sound; [done | left]. by rewrite (load_task_cursor _ _ _ _ _ H).
  - wp_use wp_insert_event; [repeat sound_step; by try apply negb_false_iff | | ].
    { by rewrite (load_task_cursor _ _ _ _ _ H). }
    wp_steps. wp_use wp_touch_task. wp_steps. apply gate_sound; [done | by right].
Qed.

(** The approval an identifier names is the only row with it. *)
Lemma found_approval (db : Db) (id task : str) (a x : ConnectorApproval) :
  wf db -> load_approval db id task = Some a -> x ∈ approvals db -> a_id x = id -> x = a.
Proof.
  intros Hw Hl Hx Hid. apply find_elem in Hl as [Ha [Hida _]%andb_true_iff]. apply beq_true in Hida.
  pose proof (find_unique_key a_id _ x (wf_approval_ids db Hw) Hx) as F1.
  pose proof (find_unique_key a_id _ a (wf_approval_ids db Hw) Ha) as F2. rewrite Hid in F1. rewrite Hida in F2. congruence.
Qed.

(** The approval that deciding granted. *)
Definition granted (approval_id : str) (approve : bool) (actor : str) (now : Z) (a : ConnectorApproval) : Prop :=
  approve = true /\ a_id a = approval_id /\ a_decided_by a = Some actor /\ a_decided_at a = Some now
  /\ (now < a_expires_at a)%Z.

(** A decision changes one pending approval; what is approved after it was approved
    before, or by it. *)
Definition decided_on (db : Db) (approval_id : str) (approve : bool) (actor : str) (now : Z) (db' : Db) : Prop :=
  exists db1, advances db db1 /\ sound db1 db' /\ executions db1 = executions db /\ tasks db1 = tasks db
  /\ forall a, a ∈ approvals db' -> a_state a = ApprovalApproved ->
     a ∈ approvals db \/ granted approval_id approve actor now a.

Lemma decided_on_quiet (db : Db) (approval_id : str) (approve : bool) (actor : str) (now : Z) (db' : Db) :
  wf db -> sound db db' -> decided_on db approval_id approve actor now db'.
Proof.
  intros Hw Hs. exists db. split_and!; [by apply advances_refl | done | done | done | ]. intros a Ha Hst. left.
  by apply (q_approved _ _ (proj2 (proj2 Hs))).
Qed.

Lemma decide_approval_spec (db : Db) (fresh task project approval_id : str) (approve : bool) (actor : str)
  (reason : option str) (now : Z) :
  wf db ->
  tx_wp (decide_connector_approval fresh task project approval_id approve actor reason now)
    (fun _ => decided_on db approval_id approve actor now) db.
Proof.
  intros Hw. pose proof (sound_refl db Hw) as Hs.
  unfold decide_connector_approval, owner_of, require_task, require_running, update_approvals, id.
  wp_steps; apply negb_false_iff, beq_true in H3.
  - apply decided_on_quiet; [done | ]. apply sound_approvals; [done | ]. intros x Hx Hid%beq_true.
    rewrite (found_approval db approval_id task a1 x Hw) by done. split; [apply approval_update; by rewrite ?H3 | done].
  - set (db1 := db <| approvals := _ |>). apply Z.leb_gt in Hb.
    assert (Ha : advances db db1).
    { apply advances_approvals; [by apply advances_refl | ]. intros x _ [_ Hst]%andb_true_iff. apply beq_true in Hst.
      apply approval_update; by rewrite ?Hst. }
    assert (Hs1 : sound db1 db1) by apply sound_refl, Ha.
    wp_use wp_insert_event. wp_steps. wp_use wp_touch_task. wp_steps. exists db1. split_and!; try done. intros x Hx Hst.
    apply (q_approved db1) in Hx; [ | by apply H5 | done]. apply rows_update_elem in Hx as (old & Hold & [[Hsel ->]|[_ ->]]); [ | by left].
    right. apply andb_true_iff in Hsel as [Hid _]. apply beq_true in Hid.
    rewrite (found_approval db approval_id task a1 old Hw) in * by done. cbn in Hst. unfold granted.
    by destruct approve.
Qed.

(** ** Decisions *)

Lemma begin_decision_sound (db : Db) (task project result_id decision actor : str) (now : Z) :
  wf db -> tx_wp (begin_connector_result_decision task project result_id decision actor now) (fun _ => sound db) db.
Proof.
  intros Hw%sound_refl. unfold begin_connector_result_decision, id. wp_steps.
  destruct (put_intent _ _) as [t inserted]. wp_steps. repeat sound_step.
Qed.

Lemma abort_decision_sound (db : Db) (task result_id : str) :
  wf db -> tx_wp (abort_connector_result_decision task result_id) (fun _ => sound db) db.
Proof. intros Hw%sound_refl. unfold abort_connector_result_decision. wp_steps. repeat sound_step. Qed.

Lemma attention_sound (db : Db) (fresh task project result_id code message : str) (now : Z) :
  wf db ->
  tx_wp (mark_connector_result_decision_needs_attention fresh task project result_id code message now) (fun _ => sound db) db.
Proof.
  intros Hw%sound_refl. unfold mark_connector_result_decision_needs_attention, update_runs, id. wp_steps.
  wp_use wp_insert_event; [repeat sound_step | ]. wp_steps. by apply wp_touch_task.
Qed.

Lemma finalize_decision_sound (db : Db) (fresh task project result_id : str) (warning : option str) (now : Z) :
  wf db -> tx_wp (finalize_connector_result_decision fresh task project result_id warning now) (fun _ => sound db) db.
Proof.
  intros Hw%sound_refl. unfold finalize_connector_result_decision, update_results, update_runs, update_tasks, id. wp_steps.
  destruct a as [i run]. wp_steps. wp_use wp_insert_event.
  { repeat sound_step. intros s _ [_ Hp]%andb_true_iff. apply beq_true in Hp. unfold result_kept. by split_and!. }
  wp_steps. repeat sound_step.
Qed.

(** ** Guidance *)

Lemma max_claimed_spec (l : list EventRow) (m : Z) :
  max_claimed l = Some m -> (exists e, e ∈ l /\ v_sequence e = m) /\ forall e, e ∈ l -> (v_sequence e <= m)%Z.
Proof.
  revert m. induction l as [|e l IH]; intros m; cbn [max_claimed foldr]; [done | ]. intros [= Hm].
  change (foldr _ None l) with (max_claimed l) in Hm. destruct (max_claimed l) as [m'|] eqn:E.
  - destruct (IH m' eq_refl) as [(e' & Hin & He') Hmax]. split.
    + destruct (Z.max_spec (v_sequence e) m') as [[_ Hx]|[_ Hx]].
      * exists e'. split; [by apply elem_of_cons; right | congruence].
      * exists e. split; [apply list_elem_of_here | congruence].
    + intros x [->|Hx]%elem_of_cons; [lia | ]. specialize (Hmax x Hx). lia.
  - destruct l; [ | done]. split; [exists e; split; [apply list_elem_of_here | done] | ].
    intros x Hx%list_elem_of_singleton. subst. lia.
Qed.

Lemma max_sequence_elem (db : Db) (e : EventRow) : e ∈ events db -> (v_sequence e <= max_sequence db (v_task_id e))%Z.
Proof.
  unfold max_sequence. set (k := v_task_id e) at 1. induction (events db) as [|x l IH]; intros Hin; [by apply not_elem_of_nil in Hin | ].
  cbn [foldr]. apply elem_of_cons in Hin as [<-|Hin].
  - subst k. rewrite beq_refl. lia.
  - specialize (IH Hin). destruct (v_task_id x ==? k); lia.
Qed.

Definition before (a b : EventRow) : Prop := (v_sequence a < v_sequence b)%Z.

Lemma filter_sorted {A : Type} (R : A -> A -> Prop) (p : A -> bool) (l : list A) :
  StronglySorted R l -> StronglySorted R (List.filter p l).
Proof.
  induction 1 as [|x l Hs IH Hx]; [constructor | ]. cbn. destruct (p x); [ | done]. constructor; [done | ].
  rewrite Forall_forall in *. intros y [Hy _]%list_elem_of_In%filter_In. apply Hx. by apply list_elem_of_In.
Qed.

Lemma sequences_sorted (l : list EventRow) :
  forall m : Z, map v_sequence l = seqZ m (Z.of_nat (length l)) -> StronglySorted before l /\ Forall (fun e => (m <= v_sequence e)%Z) l.
Proof.
  induction l as [|e l IH]; intros m Hm; [by repeat constructor | ].
  cbn [length] in Hm. rewrite Nat2Z.inj_succ, seqZ_cons in Hm by lia. cbn [map] in Hm. injection Hm as He Hl.
  rewrite Z.pred_succ in Hl. destruct (IH _ Hl) as [Hs Hf].
  split; [constructor; [done | ] | constructor; [lia | ]]; eapply Forall_impl; [exact Hf | | exact Hf | ]; unfold before; cbn; lia.
Qed.

(** The events of a task are in the table in the order of their numbers. *)
Lemma task_events_sorted (db : Db) (task : str) :
  wf db -> StronglySorted before (List.filter (fun e => v_task_id e ==? task) (events db)).
Proof.
  intros Hw. pose proof (wf_sequences db Hw task) as Hs. unfold task_sequences in Hs. rewrite length_map in Hs.
  by apply sequences_sorted in Hs as [? _].
Qed.

Lemma filter_and {A : Type} (p q : A -> bool) (l : list A) :
  List.filter (fun x => p x && q x) l = List.filter q (List.filter p l).
Proof. induction l as [|x l IH]; [done | ]. cbn. destruct (p x); cbn; [destruct (q x) | ]; by rewrite IH. Qed.

Lemma sort_by_sorted_id (l : list EventRow) : StronglySorted before l -> sort_by by_sequence l = l.
Proof.
  induction 1 as [|e l Hs IH He]; [done | ]. change (sort_by by_sequence (e :: l)) with (insert_by by_sequence e (sort_by by_sequence l)). rewrite IH. destruct l as [|e' l]; [done | ]. cbn.
  inversion He as [|? ? Hlt _]; subst. unfold before in Hlt. unfold by_sequence.
  assert (E : Z.leb (v_sequence e) (v_sequence e') = true) by (apply Z.leb_le; lia). by rewrite E.
Qed.

(** The pending guidance is the part of the log above the watermark, in the log's order. *)
Definition guidance_above (evs : list EventRow) (task : str) (seen : Z) : list EventRow :=
  List.filter (fun e => is_guidance task e && Z.ltb seen (v_sequence e)) evs.

Lemma guidance_above_sorted (db : Db) (task : str) (seen : Z) :
  wf db -> StronglySorted before (guidance_above (events db) task seen).
Proof.
  intros Hw. unfold guidance_above, is_guidance. rewrite filter_and, filter_and. do 2 apply filter_sorted.
  by apply task_events_sorted.
Qed.

Lemma pending_guidance_above (db : Db) (task : str) (seen : Z) :
  wf db -> pending_guidance db task seen = guidance_above (events db) task seen.
Proof. intros Hw. by apply sort_by_sorted_id, guidance_above_sorted. Qed.

(** What is above the last event taken is what was not taken. *)
Lemma above_prefix (taken rest : list EventRow) (m : Z) :
  StronglySorted before (taken ++ rest) -> max_claimed taken = Some m ->
  List.filter (fun e => Z.ltb m (v_sequence e)) (taken ++ rest) = rest.
Proof.
  intros Hs [(last & Hlast & <-) Hmax]%max_claimed_spec. rewrite List.filter_app.
  assert (H1 : List.filter (fun e => Z.ltb (v_sequence last) (v_sequence e)) taken = []).
  { apply elem_of_nil_inv. intros e [Hin Hlt]%list_elem_of_In%filter_In. apply list_elem_of_In in Hin. apply Z.ltb_lt in Hlt.
    specialize (Hmax e Hin). lia. }
  rewrite H1. cbn. apply List.forallb_filter_id, forallb_forall. intros e Hin%list_elem_of_In. apply Z.ltb_lt.
  apply StronglySorted_app in Hs as (Hx & _ & _). by apply (Hx last e).
Qed.

Lemma limit_rows_prefix {A : Type} (n : Z) (l : list A) : exists rest, l = limit_rows n l ++ rest.
Proof.
  unfold limit_rows. destruct (Z.ltb n 0); [exists []; by rewrite app_nil_r | ].
  exists (drop (Z.to_nat n) l). by rewrite take_drop.
Qed.

(** What claiming does: the guidance it returns is the oldest that was pending, and
    what stays pending is the rest. *)
Definition claimed_guidance (db : Db) (task : str) (claimed : list EventRow) (db' : Db) : Prop :=
  advances db db' /\ events db' = events db /\ executions db' = executions db /\ approvals db' = approvals db
  /\ (forall other, other <> task -> watermark db' other = watermark db other)
  /\ guidance_above (events db) task (watermark db task)
     = claimed ++ guidance_above (events db') task (watermark db' task).

Lemma claimed_nothing (db : Db) (task : str) (claimed : list EventRow) :
  wf db -> max_claimed claimed = None -> claimed_guidance db task claimed db.
Proof.
  intros Hw Hm. assert (claimed = []) as -> by by destruct claimed.
  unfold claimed_guidance. split_and!; done.
Qed.

(** The watermark after an update of the rows of one task. *)
Lemma watermark_update (db : Db) (t : TaskRow) (sel : TaskRow -> bool) (m : Z) (task : str) :
  wf db -> task_by_id db (t_id t) = Some t -> sel t = true -> (forall x, sel x = true -> t_id x = t_id t) ->
  watermark (db <| tasks := rows_update sel (fun x => x <| t_guidance_seen_seq := Z.max (t_guidance_seen_seq x) m |>) (tasks db) |>) task
  = if t_id t ==? task then Z.max (t_guidance_seen_seq t) m else watermark db task.
Proof.
  intros Hw Ht Hsel Hid. unfold watermark, task_by_id in *. cbn. clear Hw. induction (tasks db) as [|x l IH]; [done | ].
  cbn [rows_update map find] in *.
  assert (Hx : t_id (if sel x then x <| t_guidance_seen_seq := Z.max (t_guidance_seen_seq x) m |> else x) = t_id x) by by destruct (sel x).
  rewrite Hx. destruct (t_id x ==? t_id t) eqn:E.
  - injection Ht as ->. destruct (t_id t ==? task) eqn:Et; [by rewrite Hsel | ].
    apply beq_false in Et. clear -Et Hid. induction l as [|y l IH]; [done | ]. cbn [rows_update map find].
    destruct (sel y) eqn:Ey.
    + apply Hid in Ey. cbn [t_id set_field]. rewrite Ey. destruct (t_id t ==? task) eqn:Et'; [by apply beq_true in Et' | exact IH].
    + destruct (t_id y ==? task); [done | exact IH].
  - destruct (sel x) eqn:Ex; [apply Hid in Ex; by rewrite Ex, beq_refl in E | ].
    destruct (t_id x ==? task) eqn:Et; [ | by apply IH]. apply beq_true in Et. destruct (t_id t ==? task) eqn:Et'; [ | done].
    apply beq_true in Et'. by rewrite Et, Et', beq_refl in E.
Qed.

Lemma guidance_above_max (db : Db) (task : str) (seen : Z) (e : EventRow) :
  e ∈ guidance_above (events db) task seen -> (seen < v_sequence e <= max_sequence db task)%Z.
Proof.
  intros [Hin [Hg Hlt]%andb_true_iff]%list_elem_of_In%filter_In. apply Z.ltb_lt in Hlt. apply list_elem_of_In in Hin.
  apply andb_true_iff in Hg as [Ht _]. apply beq_true in Ht. pose proof (max_sequence_elem db e Hin) as Hm. rewrite Ht in Hm. lia.
Qed.

Lemma guidance_above_trans (evs : list EventRow) (task : str) (seen m : Z) :
  (seen <= m)%Z -> guidance_above evs task m = List.filter (fun e => Z.ltb m (v_sequence e)) (guidance_above evs task seen).
Proof.
  intros Hm. unfold guidance_above. rewrite <- filter_and. apply List.filter_ext. intros e.
  destruct (is_guidance task e); [ | done]. cbn. destruct (Z.ltb_spec m (v_sequence e)), (Z.ltb_spec seen (v_sequence e)); lia || done.
Qed.

Lemma claim_guidance_spec (db : Db) (task project subject : str) (max_guidance : Z) :
  wf db ->
  tx_wp (claim_pending_connector_guidance task project subject max_guidance) (claimed_guidance db task) db.
Proof.
  intros Hw. unfold claim_pending_connector_guidance, require_task, update_tasks, id. wp_steps; [ | by apply claimed_nothing].
  destruct (load_task_spec _ _ _ _ _ H) as (_ & _ & t & _ & Ht & Hid & _ & _ & _ & Hproj & _).
  rewrite Ht in H0. injection H0 as <-. rename z into m.
  assert (Hwm : watermark db task = t_guidance_seen_seq t) by (unfold watermark; by rewrite Ht).
  rewrite pending_guidance_above, <- Hwm in Ho |- * by done. set (pending := guidance_above _ _ _) in *.
  destruct (limit_rows_prefix (as_i64 max_guidance) pending) as [rest Hrest]. set (claimed := limit_rows _ pending) in *.
  assert (Hm : (watermark db task < m <= max_sequence db task)%Z).
  { apply max_claimed_spec in Ho as [(e & He & <-) _]. apply guidance_above_max. fold pending. rewrite Hrest.
    apply elem_of_app. by left. }
  set (sel := fun x => (t_id x ==? task) && (t_project_id x ==? project)).
  assert (Hsel : forall x, sel x = true -> t_id x = t_id t).
  { intros x [Hx _]%andb_true_iff. apply beq_true in Hx. congruence. }
  assert (Hupd := fun other => watermark_update db t sel m other Hw (eq_trans (f_equal _ Hid) Ht)
    (proj2 (andb_true_iff _ _) (conj (proj2 (beq_eq _ _) Hid) (proj2 (beq_eq _ _) Hproj))) Hsel).
  unfold claimed_guidance. cbn [events executions approvals set_field]. split_and!; try done.
  - apply advances_tasks; [by apply advances_refl | ]. intros x Hx Hsx. pose proof (Hsel x Hsx) as Ex.
    assert (x = t) as ->.
    { pose proof (find_unique_key t_id _ x (wf_task_ids db Hw) Hx) as Hu. unfold task_by_id in Ht. rewrite Ex, Hid in Hu. congruence. }
    rewrite Hid. unfold task_kept. cbn. split_and!; try done; lia.
  - intros other Hne. rewrite Hupd. rewrite Hid. destruct (task ==? other) eqn:E; [by apply beq_true in E | done].
  - rewrite Hupd, Hid, beq_refl, <- Hwm, Z.max_r by lia. rewrite (guidance_above_trans _ _ (watermark db task) m) by lia.
    assert (Hr : List.filter (fun e => Z.ltb m (v_sequence e)) pending = rest).
    { rewrite Hrest. apply above_prefix; [ | done]. rewrite <- Hrest. by apply guidance_above_sorted. }
    fold pending. by rewrite Hr.
Qed.
