(* ===== verification/ConnectorLaws.v ===== *)
(** * ConnectorLaws: the Connector store as a state machine, and its laws

    The transactions of task_kernel.rs and executions.rs as one signature of
    operations ([ConnectorOp], indexed by what each replies) with their handler
    ([handle]), the specification every operation meets ([op_post]), and the histories
    of calls on a database.  A call that fails leaves the tables as they are. *)
From S2P Require Import Prelude RustStr Lifecycle Sql ConnectorModel ConnectorStore ConnectorTasks ConnectorExecutions ConnectorFacts ConnectorSound ConnectorTaskSound.

Inductive ConnectorOp : Type -> Type :=
| OpBind (fresh : str) (b : ConnectorBinding) : ConnectorOp unit
| OpStart (fresh : str) (task : NewConnectorTask) (b : option ConnectorWindowBinding) : ConnectorOp ConnectorTaskSnapshot
| OpContinue (fresh : str) (c : ConnectorTaskContinuation) (b : option ConnectorWindowBinding)
    : ConnectorOp (option ConnectorTaskSnapshot * Z * ConnectorTaskMode)
| OpInstructInterrupted (fresh task project subject instruction mode : str) (now : Z) (b : option ConnectorWindowBinding)
    : ConnectorOp Z
| OpAppendEvent (fresh task project subject kind : str) (payload : Value) (now : Z) : ConnectorOp Z
| OpGuide (fresh task project subject : str) (payload : Value) (now : Z) : ConnectorOp Z
| OpClaimGuidance (task project subject : str) (max_guidance : Z) : ConnectorOp (list EventRow)
| OpBeginEdit (task project subject operation request : str) (now : Z) : ConnectorOp ConnectorEditOperationGate
| OpCompleteEdit (task project subject operation request : str) (result : Value) (now : Z) : ConnectorOp unit
| OpFailEdit (task operation request : str) (now : Z) : ConnectorOp unit
| OpFinish (fresh task project subject : str) (r : NewConnectorResult) (now : Z) : ConnectorOp Z
| OpRelease (fresh task project subject : str) (released : bool) (warning : option str) (now : Z) : ConnectorOp Z
| OpResume (fresh task project actor : str) (now : Z) : ConnectorOp (option ConnectorTaskSnapshot)
| OpAbandon (fresh result_id task project actor : str) (now : Z) : ConnectorOp (option ResultRow)
| OpRequestApproval (fresh approval_id task project subject kind hash summary : str) (now expires_at : Z)
    : ConnectorOp ConnectorApprovalGate
| OpDecideApproval (fresh task project approval_id : str) (approve : bool) (actor : str) (reason : option str) (now : Z)
    : ConnectorOp (result (option ConnectorApproval) ConnectorTaskStoreError)
| OpBeginDecision (task project result_id decision actor : str) (now : Z) : ConnectorOp unit
| OpAbortDecision (task result_id : str) : ConnectorOp unit
| OpDecisionAttention (fresh task project result_id code message : str) (now : Z) : ConnectorOp unit
| OpFinalizeDecision (fresh task project result_id : str) (warning : option str) (now : Z) : ConnectorOp (option ResultRow)
| OpReserve (fresh execution_id : str) (task : ConnectorTaskSnapshot) (kind operation_id request : str) (plan : list str)
    (recipe : option Value) (sha : option str) (deadline now : Z) : ConnectorOp ConnectorExecutionReservation
| OpStartExecution (fresh execution : str) (now : Z) : ConnectorOp ConnectorExecution
| OpMaterialize (execution project subject : str) (now : Z) : ConnectorOp ConnectorExecution
| OpOutputTail (execution : str) (tail : Value) : ConnectorOp ConnectorExecution
| OpArm (execution : str) (now : Z) : ConnectorOp ConnectorExecution
| OpClaimContinuation (fence : str) : ConnectorOp (option (ConnectorExecution * str))
| OpReleaseClaim (execution fence : str) : ConnectorOp ConnectorExecution
| OpBeginDispatch (execution fence : str) : ConnectorOp ConnectorExecution
| OpCompleteDelivery (execution fence : str) : ConnectorOp ConnectorExecution
| OpDeliveryUnknown (execution fence : str) : ConnectorOp ConnectorExecution
| OpAttach (fresh execution reference status : str) (now : Z) : ConnectorOp ConnectorExecution
| OpStatusFailure (execution code : str) (now : Z) : ConnectorOp ConnectorExecution
| OpObserve (fresh1 fresh2 execution : str) (ob : ConnectorExecutionObservation) : ConnectorOp ConnectorExecution
| OpCancel (fresh1 fresh2 : str) (task : ConnectorTaskSnapshot) (reason : option str) (now : Z)
    : ConnectorOp (option ConnectorExecution)
| OpQueueTimeout (fresh execution : str) (now : Z) : ConnectorOp ConnectorExecution
| OpFinishExecution (fresh1 fresh2 execution : str) (f : ConnectorExecutionFailure) (now : Z) : ConnectorOp ConnectorExecution
| OpReconcile (fresh : nat -> str) (project : str) (now : Z) (recover : bool) : ConnectorOp (nat * nat).

Create HintDb connector.

Section History.
Context `{JsonText}.

Definition handle {A : Type} (op : ConnectorOp A) : ctx A :=
  match op with
  | OpBind fresh b => ensure_connector_binding fresh b
  | OpStart fresh task b => start_connector_task_transaction fresh task b
  | OpContinue fresh c b => continue_connector_task_transaction fresh c b
  | OpInstructInterrupted fresh task project subject instruction mode now b =>
      append_interrupted_connector_instruction_transaction fresh task project subject instruction mode now b
  | OpAppendEvent fresh task project subject kind payload now =>
      append_connector_task_event fresh task project subject kind payload now
  | OpGuide fresh task project subject payload now =>
      append_connector_decision_guidance fresh task project subject payload now
  | OpClaimGuidance task project subject max_guidance => claim_pending_connector_guidance task project subject max_guidance
  | OpBeginEdit task project subject operation request now =>
      begin_connector_edit_operation task project subject operation request now
  | OpCompleteEdit task project subject operation request result now =>
      complete_connector_edit_operation task project subject operation request result now
  | OpFailEdit task operation request now => fail_connector_edit_operation task operation request now
  | OpFinish fresh task project subject r now => finish_connector_task fresh task project subject r now
  | OpRelease fresh task project subject released warning now =>
      record_connector_workspace_release fresh task project subject released warning now
  | OpResume fresh task project actor now => resume_connector_task fresh task project actor now
  | OpAbandon fresh result_id task project actor now =>
      abandon_interrupted_connector_task fresh result_id task project actor now
  | OpRequestApproval fresh approval_id task project subject kind hash summary now expires_at =>
      request_or_consume_connector_approval fresh approval_id task project subject kind hash summary now expires_at
  | OpDecideApproval fresh task project approval_id approve actor reason now =>
      decide_connector_approval fresh task project approval_id approve actor reason now
  | OpBeginDecision task project result_id decision actor now =>
      begin_connector_result_decision task project result_id decision actor now
  | OpAbortDecision task result_id => abort_connector_result_decision task result_id
  | OpDecisionAttention fresh task project result_id code message now =>
      mark_connector_result_decision_needs_attention fresh task project result_id code message now
  | OpFinalizeDecision fresh task project result_id warning now =>
      finalize_connector_result_decision fresh task project result_id warning now
  | OpReserve fresh execution_id task kind operation_id request plan recipe sha deadline now =>
      reserve_connector_execution fresh execution_id task kind operation_id request plan recipe sha deadline now
  | OpStartExecution fresh execution now => start_connector_execution fresh execution now
  | OpMaterialize execution project subject now =>
      materialize_connector_execution_mcp_task_for_subject execution project subject now
  | OpOutputTail execution tail => record_connector_mcp_task_output_tail execution tail
  | OpArm execution now => arm_connector_terminal_continuation execution now
  | OpClaimContinuation fence => claim_next_terminal_continuation fence
  | OpReleaseClaim execution fence => release_terminal_continuation_claim execution fence
  | OpBeginDispatch execution fence => begin_terminal_continuation_dispatch execution fence
  | OpCompleteDelivery execution fence => complete_terminal_continuation_delivery execution fence
  | OpDeliveryUnknown execution fence => mark_terminal_continuation_delivery_unknown execution fence
  | OpAttach fresh execution reference status now => attach_connector_executor fresh execution reference status now
  | OpStatusFailure execution code now => record_connector_execution_status_failure execution code now
  | OpObserve fresh1 fresh2 execution ob => observe_connector_execution fresh1 fresh2 execution ob
  | OpCancel fresh1 fresh2 task reason now => request_connector_execution_cancel fresh1 fresh2 task reason now
  | OpQueueTimeout fresh execution now => request_connector_queue_timeout fresh execution now
  | OpFinishExecution fresh1 fresh2 execution f now => finish_connector_execution fresh1 fresh2 execution f now
  | OpReconcile fresh project now recover => reconcile_connector_executions_inner fresh project now recover
  end.

(** What an operation establishes when it commits. *)
Definition op_post {A : Type} (op : ConnectorOp A) (db : Db) : A -> Db -> Prop :=
  match op with
  | OpClaimGuidance task _ _ _ => claimed_guidance db task
  | OpReserve _ _ task _ _ _ _ _ _ _ now => reserved db (n_task_id task) now
  | OpDecideApproval _ _ _ approval_id approve actor _ now => fun _ => decided_on db approval_id approve actor now
  | _ => fun _ => sound db
  end.

(** The values of Rust's types an operation may be called with. *)
Definition op_typed {A : Type} (op : ConnectorOp A) : Prop :=
  match op with OpObserve _ _ _ ob => observation_typed ob | _ => True end.

Lemma move_sound (db : Db) (id_ fence : str) :
  wf db ->
  tx_wp (release_terminal_continuation_claim id_ fence) (fun _ => sound db) db
  /\ tx_wp (begin_terminal_continuation_dispatch id_ fence) (fun _ => sound db) db
  /\ tx_wp (complete_terminal_continuation_delivery id_ fence) (fun _ => sound db) db
  /\ tx_wp (mark_terminal_continuation_delivery_unknown id_ fence) (fun _ => sound db) db.
Proof. intros Hw. split_and!; apply transition_sound; try done; unfold delivery_move; set_solver. Qed.

#[local] Hint Resolve binding_sound start_sound continue_sound append_interrupted_sound append_event_sound append_guidance_sound
  claim_guidance_spec begin_edit_sound complete_edit_sound fail_edit_sound finish_sound release_sound resume_sound abandon_sound
  request_approval_sound decide_approval_spec begin_decision_sound abort_decision_sound attention_sound finalize_decision_sound
  : connector.
#[local] Hint Resolve reserve_spec start_execution_sound materialize_sound output_tail_sound arm_sound claim_continuation_sound
  attach_sound status_failure_sound observe_sound cancel_sound queue_timeout_sound finish_execution_sound reconcile_sound
  : connector.

Lemma handle_post {A : Type} (op : ConnectorOp A) (db : Db) :
  wf db -> op_typed op -> tx_wp (handle op) (op_post op db) db.
Proof.
  intros Hw Ht. destruct op; cbn [handle op_post op_typed] in *; auto with connector.
  all: by destruct (move_sound db execution fence Hw) as (? & ? & ? & ?).
Qed.

Lemma reserved_advances (db : Db) (task : str) (now : Z) (r : ConnectorExecutionReservation) (db' : Db) :
  wf db -> reserved db task now r db' -> advances db db'.
Proof.
  intros Hw. destruct r as [e|e]; cbn; [ | intros ->; by apply advances_refl].
  intros (_ & _ & _ & db1 & H1 & H2%sound_advances & _). by eapply advances_trans.
Qed.

Lemma decided_advances (db : Db) (approval_id : str) (approve : bool) (actor : str) (now : Z) (db' : Db) :
  decided_on db approval_id approve actor now db' -> advances db db'.
Proof. intros (db1 & H1 & H2%sound_advances & _). by eapply advances_trans. Qed.

Lemma post_advances {A : Type} (op : ConnectorOp A) (db : Db) (a : A) (db' : Db) :
  wf db -> op_post op db a db' -> advances db db'.
Proof.
  intros Hw. destruct op; cbn [op_post]; try apply sound_advances.
  - by intros [? _].
  - apply decided_advances.
  - by apply reserved_advances.
Qed.

(** ** Histories *)

Inductive Call : Type :=
| Called {A : Type} (op : ConnectorOp A) (r : result A ConnectorTaskStoreError).

(** One call and its answer. *)
Definition answers (c : Call) (db db' : Db) : Prop :=
  match c with Called op r => op_typed op /\ run_tx (handle op) db = (db', r) end.

(** The calls made on a database, in order, and the database they leave. *)
Inductive history (db0 : Db) : list Call -> Db -> Prop :=
| history_nil : history db0 [] db0
| history_snoc (calls : list Call) (db : Db) (c : Call) (db' : Db) :
    history db0 calls db -> answers c db db' -> history db0 (calls ++ [c]) db'.

(** One call: it commits with what its operation establishes, or changes nothing. *)
Lemma call_cases {A : Type} (op : ConnectorOp A) (db db' : Db) (r : result A ConnectorTaskStoreError) :
  wf db -> op_typed op -> run_tx (handle op) db = (db', r) ->
  match r with Ok a => op_post op db a db' | Err _ => db' = db end.
Proof.
  intros Hw Ht. unfold run_tx. destruct (handle op db) as [[a s]|e] eqn:E; intros [= <- <-]; [ | done].
  by apply (handle_post op db Hw Ht).
Qed.

Lemma call_advances {A : Type} (op : ConnectorOp A) (db db' : Db) (r : result A ConnectorTaskStoreError) :
  wf db -> op_typed op -> run_tx (handle op) db = (db', r) -> advances db db'.
Proof.
  intros Hw Ht Hr. pose proof (call_cases op db db' r Hw Ht Hr) as Hc. destruct r as [a|e].
  - by apply post_advances in Hc.
  - subst db'. by apply advances_refl.
Qed.

Lemma history_advances (db0 db : Db) (calls : list Call) : wf db0 -> history db0 calls db -> advances db0 db.
Proof.
  intros Hw. induction 1 as [|calls db [A op r] db' Hh IH [Ht Hr]]; [by apply advances_refl | ].
  eapply advances_trans; [apply IH | by eapply call_advances, Hr; [apply IH | ]].
Qed.

Lemma history_last (db0 db' : Db) (calls : list Call) (c : Call) :
  history db0 (calls ++ [c]) db' -> exists db, history db0 calls db /\ answers c db db'.
Proof.
  intros Hh. inversion Hh as [Hnil|calls' db c' db'' Hm Ha Heq]; subst; [by destruct calls | ].
  apply app_inj_tail in Heq as [-> ->]. by exists db.
Qed.

Lemma history_app (db0 db : Db) (calls1 calls2 : list Call) :
  history db0 (calls1 ++ calls2) db <-> exists db1, history db0 calls1 db1 /\ history db1 calls2 db.
Proof.
  split.
  - revert db. induction calls2 as [|c calls2 IH] using rev_ind; intros db Hh.
    { rewrite app_nil_r in Hh. exists db. split; [done | constructor]. }
    rewrite app_assoc in Hh. apply history_last in Hh as (dbm & Hm & Ha). destruct (IH dbm Hm) as (db1 & H1 & H2).
    exists db1. split; [done | by apply (history_snoc _ _ dbm)].
  - intros (db1 & H1 & H2). induction H2 as [|calls db c db' Hh IH Ha]; [by rewrite app_nil_r | ].
    rewrite app_assoc. by apply (history_snoc _ _ db).
Qed.

(** An event that makes itself impossible happens at most once. *)
Lemma at_most_once (db0 db : Db) (calls : list Call) (event : Call -> bool) (closed : Db -> Prop) :
  wf db0 -> history db0 calls db ->
  (forall d d', wf d -> advances d d' -> closed d -> closed d') ->
  (forall {A : Type} (op : ConnectorOp A) d d' r, wf d -> op_typed op -> run_tx (handle op) d = (d', r) ->
     event (Called op r) = true -> closed d' /\ ~ closed d) ->
  length (List.filter event calls) <= 1 /\ (length (List.filter event calls) = 1 -> closed db).
Proof.
  intros Hw Hh Hkeep Hev. induction Hh as [|calls db [A op r] db' Hh [IH1 IH2] [Ht Hr]]; [split; cbn; lia | ].
  pose proof (history_advances _ _ _ Hw Hh) as [Hwd _]. pose proof (call_advances op db db' r Hwd Ht Hr) as Ha.
  rewrite List.filter_app, length_app. cbn. destruct (event (Called op r)) eqn:E; cbn.
  - destruct (Hev A op db db' r Hwd Ht Hr E) as [Hc Hn].
    destruct (length (List.filter event calls)) as [|[|n]]; [split; [lia | done] | by destruct Hn; apply IH2 | lia].
  - rewrite Nat.add_0_r. split; [done | ]. intros Hl. by apply (Hkeep db), IH2.
Qed.
End History.

(** * What holds along every history of the Connector store

    The event log, the executions and their verdicts, the single open execution of a
    task, approvals, decisions, guidance, edit operations, cancellation and the
    delivery of terminal continuations. *)

(** What a computation establishes, once it has committed. *)
Lemma committed {S E A : Type} {m : tx S E A} {post : A -> S -> Prop} {s : S} :
  tx_wp m post s -> forall a s', run_tx m s = (s', Ok a) -> post a s'.
Proof. intros Hm a s'. unfold run_tx. destruct (m s) as [[a' s1]|e] eqn:Em; [ | done]. intros [= <- <-]. by apply Hm. Qed.

Section Laws.
Context `{JsonText}.

(** ** Rows found by their key *)

Lemma same_key {A K : Type} `{EqDecision K} (key : A -> K) (t : list A) (x y : A) :
  NoDup (map key t) -> x ∈ t -> y ∈ t -> key x = key y -> x = y.
Proof.
  intros Hn Hx Hy He. pose proof (find_unique_key key t x Hn Hx) as F1. pose proof (find_unique_key key t y Hn Hy) as F2.
  rewrite He in F1. congruence.
Qed.

Lemma history_wf (calls : list Call) (db : Db) : history Db_empty calls db -> wf db.
Proof. intros Hh. by destruct (history_advances _ _ _ wf_empty Hh). Qed.

(** ** Approvals *)

(** The gate authorizes with an approved, unexpired approval of the action, and consumes it. *)
Definition authorized_from (db : Db) (task hash : str) (now : Z) (g : ConnectorApprovalGate) (db' : Db) : Prop :=
  match g with
  | GateAuthorized a =>
      exists old, old ∈ approvals db /\ a_state old = ApprovalApproved /\ (now < a_expires_at old)%Z /\ a = consumed now old
      /\ a_task_id old = task /\ a_action_hash old = hash /\ a ∈ approvals db'
  | _ => True
  end.

Lemma request_approval_spec (db : Db) (fresh approval_id task project subject kind hash summary : str) (now expires_at : Z) :
  tx_wp (request_or_consume_connector_approval fresh approval_id task project subject kind hash summary now expires_at)
    (authorized_from db task hash now) db.
Proof.
  unfold request_or_consume_connector_approval. unfold_statements. wp_steps; unfold gate_approval, expire_approval.
  - apply find_elem in Ho as [Hin [[Ht _]%andb_true_iff Hh]%andb_true_iff]. apply beq_true in Ht, Hh.
    destruct (a_state c) eqn:Est; unfold_statements; wp_steps; try done.
    exists c. split_and!; try done; [by apply Z.leb_gt | ]. cbn. apply list_elem_of_In, in_map_iff. exists c.
    split; [ | by apply list_elem_of_In]. by rewrite Est, !beq_refl.
  - cbn [a_state]. unfold_statements. wp_steps; done.
Qed.

(** A call that authorizes the action with this key. *)
Definition authorizes (key : str * str * str) (c : Call) : bool :=
  match c with
  | Called op r =>
      match op in ConnectorOp A return result A ConnectorTaskStoreError -> bool with
      | OpRequestApproval _ _ _ _ _ _ _ _ _ _ =>
          fun r => match r with Ok (GateAuthorized a) => approval_key a ==? key | _ => false end
      | _ => fun _ => false
      end r
  end.

(** A call by which a person granted this approval. *)
Definition grants_approval (a : ConnectorApproval) (c : Call) : Prop :=
  match c with
  | Called op r =>
      match op in ConnectorOp A return result A ConnectorTaskStoreError -> Prop with
      | OpDecideApproval _ _ _ approval_id approve actor _ now =>
          fun r => is_ok r = true /\ granted approval_id approve actor now a
      | _ => fun _ => False
      end r
  end.

(** The action was authorized. *)
Definition spent (key : str * str * str) (db : Db) : Prop :=
  exists a, a ∈ approvals db /\ approval_key a = key /\ a_state a = ApprovalConsumed.

Lemma spent_kept (key : str * str * str) (d d' : Db) : wf d -> advances d d' -> spent key d -> spent key d'.
Proof.
  intros _ [_ [_ _ _ Ha _ _ _]] (a & Hin & Hk & Hs). destruct (grows_elem _ _ _ _ Ha Hin) as (a' & Hin' & Hkept).
  destruct Hkept as (_ & _ & _ & _ & _ & Hsame). rewrite Hsame in * by auto. by exists a.
Qed.

Lemma authorizes_spends (key : str * str * str) {A : Type} (op : ConnectorOp A) (d d' : Db)
  (r : result A ConnectorTaskStoreError) :
  wf d -> op_typed op -> run_tx (handle op) d = (d', r) -> authorizes key (Called op r) = true -> spent key d' /\ ~ spent key d.
Proof.
  intros Hw _ Hr He. destruct op; try done. cbn in He. destruct r as [[| | | |a]|]; try done. apply beq_true in He.
  apply (committed (request_approval_spec d _ _ _ _ _ _ _ _ _ _)) in Hr as (old & Hold & Hst & _ & -> & _ & _ & Hin).
  split; [by exists (consumed now old) | ]. intros (b & Hb & Hkey & Hc).
  assert (b = old) as ->; [ | by rewrite Hst in Hc].
  apply (same_key approval_key (approvals d)); try done; [apply (wf_approval_keys d Hw) | by rewrite Hkey, <- He].
Qed.
(** What is approved after a call was approved before it, or the call granted it. *)
Lemma call_approved {A : Type} (op : ConnectorOp A) (d d' : Db) (r : result A ConnectorTaskStoreError) (a : ConnectorApproval) :
  wf d -> op_typed op -> run_tx (handle op) d = (d', r) -> a ∈ approvals d' -> a_state a = ApprovalApproved ->
  a ∈ approvals d \/ grants_approval a (Called op r).
Proof.
  intros Hw Ht Hr Ha Hst. pose proof (call_cases op d d' r Hw Ht Hr) as Hc.
  destruct r as [v|e]; [ | subst d'; by left].
  destruct op; cbn [op_post] in Hc; try (left; by apply (q_approved _ _ (proj2 (proj2 Hc)))).
  - left. destruct Hc as (_ & _ & _ & Happ & _). by rewrite <- Happ.
  - destruct Hc as (db1 & _ & _ & _ & _ & Hgr). destruct (Hgr a Ha Hst) as [?|Hg]; [by left | by right].
  - left. destruct v as [e|e]; cbn in Hc; [ | by rewrite <- Hc].
    destruct Hc as (_ & _ & _ & db1 & _ & Hs & _ & _ & <-). by apply (q_approved _ _ (proj2 (proj2 Hs))).
Qed.

Lemma approved_was_granted (calls : list Call) (db : Db) (a : ConnectorApproval) :
  history Db_empty calls db -> a ∈ approvals db -> a_state a = ApprovalApproved ->
  exists c, c ∈ calls /\ grants_approval a c.
Proof.
  intros Hh. revert a. induction Hh as [|calls db [A op r] db' Hh IH [Ht Hr]]; intros a Ha Hst; [by apply not_elem_of_nil in Ha | ].
  destruct (call_approved op db db' r a (history_wf _ _ Hh) Ht Hr Ha Hst) as [Hold|Hg].
  - destruct (IH a Hold Hst) as (c & Hc & Hg). exists c. split; [apply elem_of_app; by left | done].
  - exists (Called op r). split; [apply elem_of_app; right; by apply list_elem_of_singleton | done].
Qed.

(** C24: An approval authorizes its action at most once, ever, and only after a person
    granted it.  Along any history of the store from an empty database, for each
    (task, run, action hash) at most one call of [request_or_consume_connector_approval]
    is answered [GateAuthorized]; and where the last call is, the approval it returns
    was granted by an earlier committed [decide_connector_approval] with [approve],
    by the actor and at the time the approval records, both that time and the time of
    the authorization being before the approval's expiry; the approval returned is
    marked consumed and is for the task and action hash of the request. *)
Theorem approval_authorizes_once (calls : list Call) (db : Db) :
  history Db_empty calls db ->
  (forall key, length (List.filter (authorizes key) calls) <= 1)
  /\ (forall before fresh approval_id task project subject kind hash summary now expires_at a,
      calls = before ++ [Called (OpRequestApproval fresh approval_id task project subject kind hash summary now expires_at)
                          (Ok (GateAuthorized a))] ->
      a_task_id a = task /\ a_action_hash a = hash /\ a_state a = ApprovalConsumed /\ (now < a_expires_at a)%Z
      /\ exists c approved, c ∈ before /\ grants_approval approved c /\ a = consumed now approved).
Proof.
  intros Hh. split.
  - intros key. by apply (at_most_once _ _ _ _ _ wf_empty Hh (spent_kept key) (@authorizes_spends key)).
  - intros before fresh approval_id task project subject kind hash summary now expires_at a ->.
    apply history_last in Hh as (d & Hh & _ & Hr). apply (committed (request_approval_spec d _ _ _ _ _ _ _ _ _ _)) in Hr
      as (old & Hold & Hst & Hexp & -> & <- & <- & _).
    split_and!; try done. destruct (approved_was_granted _ _ _ Hh Hold Hst) as (c & Hc & Hg). by exists c, old.
Qed.
(** ** The log and the executions *)

(** The event log of a task is contiguous and append-only.  At every point of every
    history from an empty database, the events of each task carry the sequence numbers
    1, 2, ..., n in the order they were written, every event belongs to a task that
    exists, and a later point of the history has the same events followed by new ones. *)
Lemma connector_event_log (calls1 calls2 : list Call) (db1 db2 : Db) :
  history Db_empty calls1 db1 -> history db1 calls2 db2 ->
  (exists more, events db2 = events db1 ++ more)
  /\ (forall task, task_sequences (events db2) task = seqZ 1 (Z.of_nat (length (task_sequences (events db2) task))))
  /\ (forall e, e ∈ events db2 -> is_some (task_by_id db2 (v_task_id e)) = true)
  /\ (forall task, max_sequence db2 task = Z.of_nat (length (task_sequences (events db2) task))).
Proof.
  intros Hh1 Hh2. pose proof (history_wf _ _ Hh1) as Hw1. destruct (history_advances _ _ _ Hw1 Hh2) as [Hw2 He].
  split_and!; [apply (ev_events _ _ He) | apply (wf_sequences _ Hw2) | | ].
  - intros e Hin. pose proof (wf_event_tasks _ Hw2) as Hf. rewrite Forall_forall in Hf. specialize (Hf e Hin).
    apply list_elem_of_fmap in Hf as (t & Ht & Hin'). unfold task_by_id.
    destruct (find _ (tasks db2)) eqn:Ef; [done | ]. pose proof (find_elem_none _ _ _ Ef Hin') as Hne. cbn in Hne.
    by rewrite Ht, beq_refl in Hne.
  - intros task. apply max_sequence_length, (wf_sequences _ Hw2).
Qed.

(** C27: The verdict of an execution is final and a successful check is proven.  An
    execution present at one point of a history is present at every later point, with
    the same identity (task, run, kind, request hash, check plan, workspace hash);
    its output cursors and its check progress never go back and its progress never
    exceeds its plan; once its state is terminal, the state, finish time, exit code,
    failure, cursors, progress, evidence and workspace provenance never change again,
    whatever is observed, cancelled or recovered after; and a check that succeeded
    completed its whole plan on exactly the workspace it was reserved for. *)
Theorem execution_verdict_final (calls1 calls2 : list Call) (db1 db2 : Db) (x : ExecutionRow) :
  history Db_empty calls1 db1 -> history db1 calls2 db2 -> x ∈ executions db1 ->
  exists x', load_execution_row db2 (exec_id x) = Some x'
  /\ execution_identity (x_execution x') = execution_identity (x_execution x)
  /\ (e_stdout_cursor (x_execution x) <= e_stdout_cursor (x_execution x') < 2 ^ 63)%Z
  /\ (e_stderr_cursor (x_execution x) <= e_stderr_cursor (x_execution x') < 2 ^ 63)%Z
  /\ (e_check_completed (x_execution x) <= e_check_completed (x_execution x') <= plan_len (x_execution x))%Z
  /\ (state_is_terminal (e_state (x_execution x)) = true ->
      execution_verdict (x_execution x') = execution_verdict (x_execution x))
  /\ check_proven (x_execution x').
Proof.
  intros Hh1 Hh2 Hx. destruct (history_advances _ _ _ (history_wf _ _ Hh1) Hh2) as [Hw He].
  destruct (grows_elem _ _ _ _ (ev_executions _ _ He) Hx) as (x' & Hx' & Hid & H1 & H2 & H3 & _ & Hv).
  pose proof (wf_exec_ok _ Hw) as Hok. rewrite Forall_forall in Hok. destruct (Hok x' Hx') as [Oc O1 O2 O3 O4].
  assert (Hplan : plan_len (x_execution x') = plan_len (x_execution x)) by (unfold plan_len; by injection Hid as _ _ _ _ _ _ _ -> _).
  exists x'. split_and!; try done; [ | by rewrite <- Hplan].
  assert (Hids : exec_id x' = exec_id x) by (unfold exec_id; by injection Hid).
  rewrite <- Hids. apply (find_unique_key exec_id); [apply (wf_exec_ids _ Hw) | done].
Qed.

(** ** Delivery of terminal continuations *)

(** A call that started the delivery of this execution's continuation. *)
Definition dispatches (id_ : str) (c : Call) : bool :=
  match c with
  | Called op r =>
      match op in ConnectorOp A return result A ConnectorTaskStoreError -> bool with
      | OpBeginDispatch execution _ => fun r => (execution ==? id_) && is_ok r
      | _ => fun _ => false
      end r
  end.

Definition dispatched (id_ : str) (db : Db) : Prop :=
  exists x, x ∈ executions db /\ exec_id x = id_ /\ 1 <= delivery_rank (e_continuation_delivery_state (x_execution x)).

Lemma dispatched_kept (id_ : str) (d d' : Db) : wf d -> advances d d' -> dispatched id_ d -> dispatched id_ d'.
Proof.
  intros _ [_ He] (x & Hx & Hid & Hr). destruct (grows_elem _ _ _ _ (ev_executions _ _ He) Hx) as (x' & Hx' & Hi & _ & _ & _ & [Hd _] & _).
  exists x'. split_and!; [done | unfold exec_id in *; by injection Hi as -> | lia].
Qed.

(** A dispatch moves the one row of the execution from claimed to dispatching. *)
Lemma begin_dispatch_spec (db : Db) (id_ fence : str) :
  wf db ->
  tx_wp (begin_terminal_continuation_dispatch id_ fence) (fun _ db' => dispatched id_ db' /\ ~ dispatched id_ db) db.
Proof.
  intros Hw. unfold begin_terminal_continuation_dispatch, transition_terminal_continuation_delivery, commit_execution,
    update_executions, require_execution, id. wp_steps.
  destruct (rows_matched_hit _ _ _ H4) as (x & Hx & Hsel). pose proof Hsel as [[Hid Hc]%andb_true_iff _]%andb_true_iff.
  apply beq_true in Hid, Hc. split.
  - eexists. split; [ | split]; [cbn; by apply rows_update_hit | done | cbn; lia].
  - intros (y & Hy & Hidy & Hr). assert (y = x) as ->; [ | rewrite Hc in Hr; cbn in Hr; lia].
    apply (same_key exec_id (executions db)); try done; [apply (wf_exec_ids _ Hw) | unfold exec_id in *; congruence].
Qed.

(** The continuation of a terminal execution is dispatched at most once, across
    claims, releases, failures and restarts of the store: along any history from an
    empty database, at most one [begin_terminal_continuation_dispatch] of an execution
    succeeds; and once one has, the delivery is for ever dispatching, delivered or
    unknown, never open to a claim again. *)
Lemma continuation_dispatched_at_most_once (calls : list Call) (db : Db) (id_ : str) :
  history Db_empty calls db ->
  length (List.filter (dispatches id_) calls) <= 1
  /\ (length (List.filter (dispatches id_) calls) = 1 ->
      exists x, load_execution_row db id_ = Some x /\ continuation_ready x = false
        /\ e_continuation_delivery_state (x_execution x) ∈ [Dispatching; Delivered; DeliveryUnknown]).
Proof.
  intros Hh. destruct (at_most_once _ _ _ (dispatches id_) (dispatched id_) wf_empty Hh (dispatched_kept id_)) as [H1 H2].
  - intros A op d d' r Hw _ Hr He. destruct op; try done. cbn in He. apply andb_true_iff in He as [He Hok].
    apply beq_true in He. subst execution. destruct r as [a|e]; [ | done].
    by apply (committed (begin_dispatch_spec d id_ fence Hw)) in Hr.
  - split; [done | ]. intros Hl. destruct (H2 Hl) as (x & Hx & <- & Hr). exists x. split_and!.
    + apply (find_unique_key exec_id); [apply (wf_exec_ids _ (history_wf _ _ Hh)) | done].
    + unfold continuation_ready. destruct (e_continuation_delivery_state (x_execution x)); cbn in Hr; try lia;
        by rewrite andb_false_r.
    + destruct (e_continuation_delivery_state (x_execution x)); cbn in Hr; try lia; set_solver.
Qed.

(** ** Decisions *)

(** A call that decided the result of this task. *)
Definition decides (task : str) (c : Call) : bool :=
  match c with
  | Called op r =>
      match op in ConnectorOp A return result A ConnectorTaskStoreError -> bool with
      | OpFinalizeDecision _ t _ _ _ _ => fun r => (t ==? task) && is_ok r
      | OpAbandon _ _ t _ _ _ => fun r => (t ==? task) && is_ok r
      | _ => fun _ => false
      end r
  end.

Definition result_decided (task : str) (db : Db) : Prop :=
  exists s, s ∈ results db /\ s_task_id s = task /\ s_decision_status s <> DecisionPending.

Lemma decided_kept (task : str) (d d' : Db) : wf d -> advances d d' -> result_decided task d -> result_decided task d'.
Proof.
  intros _ [_ He] (s & Hs & Ht & Hd). destruct (grows_elem _ _ _ _ (ev_results _ _ He) Hs) as (s' & Hs' & _ & Ht' & _ & _ & _ & _ & _ & Hk).
  destruct (Hk Hd) as (E & _). exists s'. split_and!; [done | congruence | by rewrite E].
Qed.

Lemma decided_pending (d : ConnectorResultDecision) : decided d <> DecisionPending.
Proof. by destruct d. Qed.

(** A decision is finalized on the pending result of the task. *)
Lemma finalize_spec (db : Db) (fresh task project result_id : str) (warning : option str) (now : Z) :
  wf db ->
  tx_wp (finalize_connector_result_decision fresh task project result_id warning now)
    (fun _ db' => result_decided task db' /\ ~ result_decided task db) db.
Proof.
  intros Hw. unfold finalize_connector_result_decision, update_results. unfold_statements. wp_steps.
  destruct a as [i run]. wp_steps. destruct (rows_matched_hit _ _ _ H1) as (s & Hs & Hsel).
  pose proof Hsel as [[Ht _]%andb_true_iff Hp]%andb_true_iff. apply beq_true in Ht, Hp. split.
  - eexists. split; [ | split]; [cbn; by apply rows_update_hit | done | cbn; apply decided_pending].
  - intros (s' & Hs' & Ht' & Hd). apply Hd. replace s' with s; [done | ].
    apply (same_key s_task_id (results db)); try done; [apply (wf_result_tasks _ Hw) | congruence].
Qed.

Lemma abandon_spec (db : Db) (fresh result_id task project actor : str) (now : Z) :
  wf db ->
  tx_wp (abandon_interrupted_connector_task fresh result_id task project actor now)
    (fun _ db' => result_decided task db' /\ ~ result_decided task db) db.
Proof.
  intros Hw. unfold abandon_interrupted_connector_task. unfold_statements. wp_steps.
  destruct (is_some (load_result db task)) eqn:El; [done | ]. split.
  - eexists. split; [ | split]; [cbn; apply elem_of_app; right; by apply list_elem_of_singleton | done | done].
  - intros (s' & Hs' & Ht' & _). unfold load_result in El. destruct (find _ (results db)) eqn:Ef; [done | ].
    pose proof (find_elem_none _ _ _ Ef Hs') as Hne. cbn in Hne. by rewrite Ht', beq_refl in Hne.
Qed.

(** The result of a task is decided once and for all.  Along any history from an
    empty database, at most one call decides a task's result, whether it finalizes an
    accepted or rejected decision or abandons an interrupted task; and a result decided
    at one point is, at every later point, still there with the same content and the
    same decision, decider and decision time. *)
Lemma result_decided_once (calls1 calls2 : list Call) (db1 db2 : Db) (task : str) :
  history Db_empty calls1 db1 -> history db1 calls2 db2 ->
  length (List.filter (decides task) (calls1 ++ calls2)) <= 1
  /\ (forall s, load_result db1 task = Some s -> s_decision_status s <> DecisionPending ->
      exists s', load_result db2 task = Some s' /\ s_id s' = s_id s /\ s_patch_sha256 s' = s_patch_sha256 s
        /\ s_changed_paths s' = s_changed_paths s /\ s_validation s' = s_validation s
        /\ s_decision_status s' = s_decision_status s /\ s_decided_by s' = s_decided_by s
        /\ s_decided_at s' = s_decided_at s).
Proof.
  intros Hh1 Hh2. split.
  - assert (Hh : history Db_empty (calls1 ++ calls2) db2) by (apply history_app; by exists db1).
    apply (at_most_once _ _ _ (decides task) (result_decided task) wf_empty Hh (decided_kept task)).
    intros A op d d' r Hw _ Hr He. destruct op; try done; cbn in He; apply andb_true_iff in He as [He Hok];
      apply beq_true in He; subst; (destruct r as [a|e]; [ | done]).
    + by apply (committed (abandon_spec d _ _ _ _ _ _ Hw)) in Hr.
    + by apply (committed (finalize_spec d _ _ _ _ _ _ Hw)) in Hr.
  - intros s [Hs Ht]%find_elem Hd. apply beq_true in Ht.
    destruct (history_advances _ _ _ (history_wf _ _ Hh1) Hh2) as [Hw He].
    destruct (grows_elem _ _ _ _ (ev_results _ _ He) Hs) as (s' & Hs' & E1 & E2 & _ & _ & E3 & E4 & E5 & Hk).
    destruct (Hk Hd) as (K1 & K2 & K3). exists s'. split_and!; try done. unfold load_result. rewrite <- Ht, <- E2.
    apply (find_unique_key s_task_id); [apply (wf_result_tasks _ Hw) | done].
Qed.

(** ** Edit operations *)

(** The operation has this result. *)
Definition edit_done (task operation request : str) (v : Value) (db : Db) : Prop :=
  exists o, o ∈ edits db /\ edit_id o = (task, operation) /\ o_request_sha256 o = request /\ o_state o = EditCompleted
  /\ o_result o = Some v.

Lemma edit_done_kept (task operation request : str) (v : Value) (d d' : Db) :
  advances d d' -> edit_done task operation request v d -> edit_done task operation request v d'.
Proof.
  intros [_ He] (o & Ho & Hid & Hr & Hs & Hv). destruct (grows_elem _ _ _ _ (ev_edits _ _ He) Ho) as (o' & Ho' & _ & _ & _ & Hk).
  rewrite (Hk Hs) in Ho'. by exists o.
Qed.

Lemma complete_edit_spec (db : Db) (task project subject operation request : str) (v : Value) (now : Z) :
  tx_wp (complete_connector_edit_operation task project subject operation request v now)
    (fun _ => edit_done task operation request v) db.
Proof.
  unfold complete_connector_edit_operation. unfold_statements. wp_steps.
  destruct (rows_matched_hit _ _ _ H2) as (o & Ho & Hsel).
  pose proof Hsel as [[[H3 H4]%andb_true_iff H5]%andb_true_iff _]%andb_true_iff. apply beq_true in H3, H4, H5. subst.
  eexists. split_and!; [cbn; by apply rows_update_hit | done ..].
Qed.

Lemma begin_edit_spec (db : Db) (task project subject operation request request0 : str) (v : Value) (now : Z) :
  wf db -> edit_done task operation request0 v db ->
  tx_wp (begin_connector_edit_operation task project subject operation request now)
    (fun g db' => db' = db /\ g = if request0 ==? request then EditReplay v else EditConflict) db.
Proof.
  intros Hw (o & Ho & [= Et Eo] & Er & Es & Ev). unfold begin_connector_edit_operation. unfold_statements. wp_steps.
  all: assert (Hf : find (edit_key task operation) (edits db) = Some o) by
    (apply find_only; [done | subst; unfold edit_key; by rewrite !beq_refl | ]; intros o' Ho' [E1 E2]%andb_true_iff;
     apply beq_true in E1, E2; apply (same_key edit_id (edits db)); try done; [apply (wf_edit_ids _ Hw) | unfold edit_id; congruence]).
  all: rewrite Ho0 in Hf; try done; injection Hf as ->.
  - rewrite Er in Hb. apply negb_true_iff in Hb. by rewrite Hb.
  - rewrite Er in Hb. apply negb_false_iff in Hb. rewrite Es, Ev, Hb. by wp_steps.
Qed.

(** A completed edit operation is never run again.  Once an edit operation has been
    completed with a result, every later [begin_connector_edit_operation] of the same
    task and operation id that is answered at all is answered with that same result as
    a replay when it carries the same request hash, and with a conflict when it carries
    another one, and changes nothing; in particular it is never started a second time. *)
Lemma edit_operation_replayed (calls1 calls2 : list Call) (db db' : Db) (task project subject operation request : str)
  (v : Value) (now : Z) (project2 subject2 request2 : str) (now2 : Z) (g : ConnectorEditOperationGate) :
  history Db_empty
    (calls1 ++ [Called (OpCompleteEdit task project subject operation request v now) (Ok tt)] ++ calls2) db ->
  answers (Called (OpBeginEdit task project2 subject2 operation request2 now2) (Ok g)) db db' ->
  db' = db /\ g = if request ==? request2 then EditReplay v else EditConflict.
Proof.
  intros Hh [_ Hr]. rewrite app_assoc in Hh. apply history_app in Hh as (d & Hh1 & Hh2).
  pose proof (history_wf _ _ Hh1) as Hwd. apply history_last in Hh1 as (d0 & _ & _ & Hc).
  apply (committed (complete_edit_spec d0 _ _ _ _ _ _ _)) in Hc.
  pose proof (history_advances _ _ _ Hwd Hh2) as Ha. apply (edit_done_kept _ _ _ _ _ _ Ha) in Hc.
  by apply (committed (begin_edit_spec db _ _ _ _ _ _ _ _ (proj1 Ha) Hc)) in Hr.
Qed.
End Laws.
