(* ===== verification/ConnectorOrder.v ===== *)
(** * ConnectorOrder: cancellation, guidance and the open execution of a task

    What the order of the calls on the Connector store guarantees: a cancelled task
    accepts no more work, guidance is delivered once each and in order, and a task has
    at most one open execution. *)
From S2P Require Import Prelude RustStr Lifecycle Sql ConnectorModel ConnectorStore ConnectorTasks ConnectorExecutions ConnectorFacts ConnectorSound ConnectorTaskSound ConnectorLaws.

Section Order.
Context `{JsonText}.

(** ** Cancellation *)

(** The task an operation asks to work on. *)
Definition works_on {A : Type} (op : ConnectorOp A) : option str :=
  match op with
  | OpContinue _ c _ => Some (ct_task_id c)
  | OpInstructInterrupted _ task _ _ _ _ _ _ | OpAppendEvent _ task _ _ _ _ _ | OpBeginEdit task _ _ _ _ _
  | OpCompleteEdit task _ _ _ _ _ _ | OpFinish _ task _ _ _ _ | OpResume _ task _ _ _
  | OpRequestApproval _ _ task _ _ _ _ _ _ _ | OpDecideApproval _ task _ _ _ _ _ _ | OpRelease _ task _ _ _ _ _ => Some task
  | OpReserve _ _ task _ _ _ _ _ _ _ _ => Some (n_task_id task)
  | _ => None
  end.

Lemma cancelled_task (db : Db) (task project subject : str) (n : ConnectorTaskSnapshot) :
  is_cancelled db task = true -> load_task db task project subject = Some n ->
  n_task_status n = StCancelled /\ n_run_status n = RsCancelled.
Proof.
  intros Hc Hl. destruct (load_task_spec _ _ _ _ _ Hl) as (_ & _ & t & r & _ & _ & _ & _ & _ & _ & -> & ->). by rewrite Hc.
Qed.

Lemma cancelled_rejects {A : Type} (op : ConnectorOp A) (task : str) (db : Db) :
  works_on op = Some task -> is_cancelled db task = true -> tx_wp (handle op) (fun _ _ => False) db.
Proof.
  intros Hw Hc. destruct op; try done; injection Hw as <-; cbn [handle].
  all: unfold continue_connector_task_transaction, append_interrupted_connector_instruction_transaction,
    append_connector_task_event, begin_connector_edit_operation, complete_connector_edit_operation, finish_connector_task,
    resume_connector_task, request_or_consume_connector_approval, decide_connector_approval,
    record_connector_workspace_release, reserve_connector_execution, owner_of, require_task, id; wp_steps.
  all: match goal with
       | Hl : load_task _ _ _ _ = Some _ |- _ => destruct (cancelled_task _ _ _ _ _ Hc Hl) as [Ets Ers]
       end; unfold require_running; rewrite ?Ets, ?Ers in *; by wp_steps.
Qed.

(** A cancelled task accepts no more work.  Once the log of a task has a
    [task_cancelled] event, then at every later point of the history every reading of
    the task shows it cancelled and its run cancelled, and every operation that works
    on the task (continuing or instructing it, appending events, editing, requesting or
    deciding approvals, reserving an execution, finishing, releasing, resuming) returns
    an error and changes nothing. *)
Lemma cancelled_task_accepts_no_work (calls1 calls2 : list Call) (db1 db2 : Db) (task : str) :
  history Db_empty calls1 db1 -> is_cancelled db1 task = true -> history db1 calls2 db2 ->
  (forall project subject n, load_task db2 task project subject = Some n ->
     n_task_status n = StCancelled /\ n_run_status n = RsCancelled)
  /\ (forall (A : Type) (op : ConnectorOp A) (db' : Db) (r : result A ConnectorTaskStoreError),
     works_on op = Some task -> answers (Called op r) db2 db' -> is_ok r = false /\ db' = db2).
Proof.
  intros Hh1 Hc Hh2. destruct (history_advances _ _ _ (history_wf _ _ Hh1) Hh2) as [_ He].
  assert (Hc2 : is_cancelled db2 task = true).
  { destruct (ev_events _ _ He) as [more Hm]. unfold is_cancelled in *. by rewrite Hm, existsb_app, Hc. }
  split; [intros project subject n; by apply cancelled_task | ].
  intros A op db' r Hw [_ Hr]. pose proof (committed (cancelled_rejects op task db2 Hw Hc2)) as Hf.
  destruct r as [a|e]; [by destruct (Hf _ _ Hr) | ]. split; [done | ]. unfold run_tx in Hr.
  by destruct (handle op db2) as [[? ?]|?]; injection Hr.
Qed.

(** ** Guidance *)

(** The guidance this call delivered to the task. *)
Definition delivered_by (task : str) (c : Call) : list EventRow :=
  match c with
  | Called op r =>
      match op in ConnectorOp A return result A ConnectorTaskStoreError -> list EventRow with
      | OpClaimGuidance t _ _ _ => fun r => match r with Ok l => if t ==? task then l else [] | Err _ => [] end
      | _ => fun _ => []
      end r
  end.

Definition delivered (task : str) (calls : list Call) : list EventRow := concat (map (delivered_by task) calls).

(** All the guidance of a task, in the order of the log. *)
Definition guidance_log (db : Db) (task : str) : list EventRow := List.filter (is_guidance task) (events db).

(** The events a call adds come after the watermark. *)
Lemma new_events_above (db db' : Db) (more : list EventRow) (e : EventRow) :
  wf db -> wf db' -> events db' = events db ++ more -> e ∈ more -> (max_sequence db (v_task_id e) < v_sequence e)%Z.
Proof.
  intros Hw Hw' Hev He. set (task := v_task_id e). pose proof (task_events_sorted db' task Hw') as Hs.
  rewrite Hev, List.filter_app in Hs. apply StronglySorted_app in Hs as (Hlt & _ & _).
  rewrite max_sequence_length by apply (wf_sequences _ Hw).
  assert (Hin : e ∈ List.filter (fun e => v_task_id e ==? task) more).
  { apply list_elem_of_In, filter_In. split; [by apply list_elem_of_In | apply beq_refl]. }
  pose proof (wf_sequences _ Hw task) as Hseq. destruct (task_sequences (events db) task) as [|z l] eqn:Et.
  - pose proof (wf_sequences _ Hw' task) as Hseq'. cbn.
    assert (Hin' : v_sequence e ∈ task_sequences (events db') task).
    { unfold task_sequences. apply (list_elem_of_fmap_2 v_sequence). rewrite Hev, List.filter_app. apply elem_of_app. by right. }
    rewrite Hseq' in Hin'. apply elem_of_seqZ in Hin'. lia.
  - assert (Hlast : Z.of_nat (length (z :: l)) ∈ task_sequences (events db) task).
    { rewrite Et. remember (Z.of_nat (length (z :: l))) as n. rewrite Hseq. apply elem_of_seqZ. cbn [length] in *. lia. }
    apply list_elem_of_fmap in Hlast as (last & -> & Hlast). by apply (Hlt last e).
Qed.

Lemma watermark_bound (db : Db) (task : str) : wf db -> (0 <= watermark db task <= max_sequence db task)%Z.
Proof.
  intros Hw. unfold watermark. destruct (task_by_id db task) as [t|] eqn:Et; cbn.
  - apply find_elem in Et as [Hin Hid]. apply beq_true in Hid. subst task.
    pose proof (wf_guidance _ Hw) as Hg. rewrite Forall_forall in Hg. apply (Hg t Hin).
  - rewrite max_sequence_length by apply (wf_sequences _ Hw). lia.
Qed.

(** A call that moves no watermark adds its guidance to what is pending. *)
Lemma quiet_guidance (db db' : Db) (task : str) (d : list EventRow) :
  wf db -> advances db db' -> watermark db' task = watermark db task ->
  d ++ guidance_above (events db) task (watermark db task) = guidance_log db task ->
  d ++ guidance_above (events db') task (watermark db' task) = guidance_log db' task.
Proof.
  intros Hw [Hw' He] Hwm Hd. destruct (ev_events _ _ He) as [more Hm]. rewrite Hwm. unfold guidance_log, guidance_above in *.
  rewrite Hm, !List.filter_app, app_assoc, Hd. f_equal. apply filter_ext_in. intros e Hin%list_elem_of_In.
  destruct (is_guidance task e) eqn:Eg; [ | done]. cbn. apply andb_true_iff in Eg as [Et _]. apply beq_true in Et.
  pose proof (new_events_above db db' more e Hw Hw' Hm Hin) as Habove. pose proof (watermark_bound db task Hw).
  rewrite Et in Habove. apply Z.ltb_lt. lia.
Qed.

(** Only claiming moves a watermark. *)
Lemma post_watermark {A : Type} (op : ConnectorOp A) (db : Db) (a : A) (db' : Db) (task : str) :
  op_post op db a db' -> match op with OpClaimGuidance t _ _ _ => t <> task | _ => True end ->
  watermark db' task = watermark db task.
Proof.
  intros Hp. destruct op; cbn [op_post] in Hp; intros Hne; try (by apply (q_watermark _ _ (proj2 (proj2 Hp)))).
  - destruct Hp as (_ & _ & _ & _ & Hother & _). by apply Hother.
  - destruct Hp as (db1 & _ & Hs & _ & Ht & _). rewrite (q_watermark _ _ (proj2 (proj2 Hs))).
    unfold watermark, task_by_id. by rewrite Ht.
  - destruct a as [e|e]; cbn in Hp; [ | by rewrite Hp]. destruct Hp as (_ & _ & _ & db1 & _ & Hs & _ & Ht & _).
    rewrite (q_watermark _ _ (proj2 (proj2 Hs))). unfold watermark, task_by_id. by rewrite Ht.
Qed.

Lemma call_guidance (c : Call) (db db' : Db) (task : str) (d : list EventRow) :
  wf db -> answers c db db' ->
  d ++ guidance_above (events db) task (watermark db task) = guidance_log db task ->
  (d ++ delivered_by task c) ++ guidance_above (events db') task (watermark db' task) = guidance_log db' task.
Proof.
  intros Hw Ha Hd. destruct c as [A op r], Ha as [Ht Hr]. pose proof (call_cases op db db' r Hw Ht Hr) as Hc.
  pose proof (call_advances op db db' r Hw Ht Hr) as Hadv. destruct r as [a|e].
  - destruct op; cbn [delivered_by]; rewrite ?app_nil_r; try (by apply (quiet_guidance db); [ | | eapply post_watermark | ]).
    destruct (task0 ==? task) eqn:E.
    + apply beq_true in E. subst task0. destruct Hc as (_ & Hev & _ & _ & _ & Hpend).
      unfold guidance_log in *. rewrite Hev in *. by rewrite <- app_assoc, <- Hpend.
    + apply beq_false in E. rewrite app_nil_r. apply (quiet_guidance db); try done.
      by apply (post_watermark (OpClaimGuidance task0 project subject max_guidance) db a).
  - subst db'. assert (Hnil : delivered_by task (Called op (Err e)) = []) by by destruct op. by rewrite Hnil, app_nil_r.
Qed.

(** C26: Guidance is delivered exactly once and in order.  Along any history from an
    empty database, the guidance that the calls of [claim_pending_connector_guidance]
    returned for a task, one answer after the other, followed by the guidance still
    pending above the task's watermark, is precisely the guidance written to the task's
    log, in the order of its sequence numbers: none is lost, repeated or reordered,
    whatever limits the claims had and whatever other calls came between them. *)
Theorem guidance_delivered_once_in_order (calls : list Call) (db : Db) (task : str) :
  history Db_empty calls db ->
  delivered task calls ++ pending_guidance db task (watermark db task) = guidance_log db task
  /\ StronglySorted (fun a b => (v_sequence a < v_sequence b)%Z) (delivered task calls ++ pending_guidance db task (watermark db task)).
Proof.
  intros Hh. pose proof (history_wf _ _ Hh) as Hw.
  assert (Heq : delivered task calls ++ pending_guidance db task (watermark db task) = guidance_log db task).
  { rewrite pending_guidance_above by done. clear Hw.
    induction Hh as [|calls db c db' Hh IH Ha]; [done | ]. unfold delivered. rewrite map_app, concat_app. cbn [map concat].
    rewrite app_nil_r. apply (call_guidance c db); [by apply (history_wf calls) | done | done]. }
  split; [done | ]. rewrite Heq. unfold guidance_log, is_guidance. rewrite filter_and. by apply filter_sorted, task_events_sorted.
Qed.

(** ** The open execution of a task *)

(** The times the reservations were made at. *)
Definition reserved_at (c : Call) : list Z :=
  match c with
  | Called op _ => match op with OpReserve _ _ _ _ _ _ _ _ _ _ now => [now] | _ => [] end
  end.

Definition reservation_times (calls : list Call) : list Z := concat (map reserved_at calls).

(** The latest rows of two tables that correspond. *)
Lemma latest_by_kept {A : Type} (R : A -> A -> Prop) (key : A -> Z) (t t' : list A) :
  (forall x y, R x y -> key y = key x) -> Forall2 R t t' -> option_Forall2 R (latest_by key t) (latest_by key t').
Proof.
  intros Hk. revert t'. induction t as [|x t IH] using rev_ind; intros t' Hf.
  - apply Forall2_nil_inv_l in Hf as ->. constructor.
  - apply Forall2_app_inv_l in Hf as (u & v & Hu & Hv & ->). apply Forall2_cons_inv_l in Hv as (y & v' & Hxy & Hnil & ->).
    apply Forall2_nil_inv_l in Hnil as ->. rewrite !latest_by_step. specialize (IH u Hu).
    inversion IH as [b b' Hb E1 E2|E1 E2]; [ | by constructor].
    rewrite (Hk _ _ Hb), (Hk _ _ Hxy). destruct (Z.leb (key b) (key x)); by constructor.
Qed.

Lemma filter_kept {A : Type} (R : A -> A -> Prop) (p : A -> bool) (t t' : list A) :
  (forall x y, R x y -> p y = p x) -> Forall2 R t t' -> Forall2 R (List.filter p t) (List.filter p t').
Proof.
  intros Hp. induction 1 as [|x y t t' Hxy Hf IH]; [constructor | ]. cbn. rewrite (Hp _ _ Hxy). destruct (p x); [by constructor | done].
Qed.

(** Every open execution is the latest of its task. *)
Definition open_is_latest (db : Db) : Prop :=
  forall x, x ∈ executions db -> blocks_finish (x_execution x) = true ->
  latest_by (fun x => e_submitted_at (x_execution x)) (task_executions db (e_task_id (x_execution x))) = Some x.

Lemma blocks_kept (x x' : ExecutionRow) :
  execution_kept x x' -> blocks_finish (x_execution x') = true -> blocks_finish (x_execution x) = true.
Proof.
  intros (_ & _ & _ & _ & _ & Hv). unfold blocks_finish, state_blocks_finish, state_is_terminal in *.
  destruct (state_is_active (e_state (x_execution x))) eqn:Ea; [done | ]. specialize (Hv eq_refl). injection Hv as -> _. by rewrite Ea.
Qed.

(** Where nothing is reserved, the executions correspond one to one. *)
Lemma sound_executions_kept (db db' : Db) : sound db db' -> Forall2 execution_kept (executions db) (executions db').
Proof.
  intros (_ & He & Hq). destruct (ev_executions _ _ He) as (t1 & t2 & Et & Hf).
  pose proof (q_executions _ _ Hq) as Hl. rewrite Et, length_app, (Forall2_length _ _ _ Hf) in Hl.
  assert (t2 = []) as -> by (by destruct t2; [ | cbn in Hl; lia]). by rewrite Et, app_nil_r.
Qed.

Lemma latest_row_elem (db : Db) (task : str) (z : ExecutionRow) :
  latest_by (fun x => e_submitted_at (x_execution x)) (task_executions db task) = Some z -> z ∈ executions db.
Proof.
  intros Hz. pose proof (latest_by_spec (fun x => e_submitted_at (x_execution x)) (task_executions db task)) as Hspec.
  rewrite Hz in Hspec. destruct Hspec as [Hin _]. apply list_elem_of_In, filter_In in Hin as [Hin _]. by apply list_elem_of_In.
Qed.

(** Calls that reserve nothing keep the open executions latest. *)
Lemma open_quiet (db db' : Db) : sound db db' -> open_is_latest db -> open_is_latest db'.
Proof.
  intros Hs Ho y Hy Hb. pose proof (sound_executions_kept _ _ Hs) as Hf. destruct Hs as [Hw' _].
  pose proof Hy as [i Hi]%list_elem_of_lookup. destruct (Forall2_lookup_r _ _ _ _ _ Hf Hi) as (x & Hx & Hk).
  specialize (Ho x (list_elem_of_lookup_2 _ _ _ Hx) (blocks_kept _ _ Hk Hb)).
  assert (Htask : e_task_id (x_execution y) = e_task_id (x_execution x)) by (destruct Hk as (Hi' & _); by injection Hi').
  assert (Hft : Forall2 execution_kept (task_executions db (e_task_id (x_execution x))) (task_executions db' (e_task_id (x_execution x)))).
  { apply filter_kept; [ | done]. intros a b (Hab & _). by injection Hab as _ _ -> _. }
  apply (latest_by_kept execution_kept (fun x => e_submitted_at (x_execution x))) in Hft;
    [ | intros a b (Hab & _); by injection Hab as _ _ _ _ -> _].
  rewrite Ho in Hft. inversion Hft as [? z Hz E1 E2|]; subst. rewrite Htask. symmetry in E2. rewrite E2. f_equal.
  apply latest_row_elem in E2. apply (same_key exec_id (executions db')); [apply (wf_exec_ids _ Hw') | done | done | ].
  destruct Hz as (Hzi & _), Hk as (Hki & _). unfold exec_id. injection Hzi as -> _. by injection Hki as -> _.
Qed.

(** A reservation puts the new execution last, when its time is not behind the others. *)
Lemma open_reserved (db db1 : Db) (e : ConnectorExecution) :
  open_is_latest db -> connector_finish_blocker db (e_task_id e) = None ->
  (forall x, x ∈ executions db -> (e_submitted_at (x_execution x) <= e_submitted_at e)%Z) ->
  executions db1 = executions db ++ [mkExecutionRow e None None] -> open_is_latest db1.
Proof.
  intros Ho Hblock Htime He x Hx Hb. unfold task_executions. rewrite He in *. rewrite List.filter_app. cbn [List.filter].
  apply elem_of_app in Hx as [Hx| ->%list_elem_of_singleton].
  - specialize (Ho x Hx Hb). cbn [x_execution]. destruct (e_task_id e ==? e_task_id (x_execution x)) eqn:E.
    + apply beq_true in E. unfold connector_finish_blocker, latest_execution in Hblock. rewrite E, Ho in Hblock. cbn in Hblock.
      by rewrite Hb in Hblock.
    + rewrite app_nil_r. exact Ho.
  - cbn [x_execution]. rewrite beq_refl, latest_by_step. cbn [x_execution].
    fold (task_executions db (e_task_id e)). destruct (latest_by _ (task_executions db (e_task_id e))) as [b|] eqn:El; [ | done].
    apply latest_row_elem in El. specialize (Htime b El). by apply Z.leb_le in Htime as ->.
Qed.

Definition submitted_in (times : list Z) (db : Db) : Prop :=
  forall x, x ∈ executions db -> e_submitted_at (x_execution x) ∈ times.

Lemma submitted_quiet (times more : list Z) (db db' : Db) : sound db db' -> submitted_in times db -> submitted_in (times ++ more) db'.
Proof.
  intros Hs Ht y Hy. pose proof (sound_executions_kept _ _ Hs) as Hf. apply list_elem_of_lookup in Hy as [i Hi].
  destruct (Forall2_lookup_r _ _ _ _ _ Hf Hi) as (x & Hx & Hid & _). injection Hid as _ _ _ _ -> _. apply elem_of_app. left.
  by apply Ht, (list_elem_of_lookup_2 _ i).
Qed.

(** One call of a history whose clock does not go back. *)
Lemma open_step (times : list Z) (c : Call) (db db' : Db) :
  wf db -> answers c db db' -> (forall t now, t ∈ times -> now ∈ reserved_at c -> (t <= now)%Z) ->
  open_is_latest db -> submitted_in times db -> open_is_latest db' /\ submitted_in (times ++ reserved_at c) db'.
Proof.
  intros Hw Ha Hclock Ho Hsub. destruct c as [A op r], Ha as [Ht Hr]. pose proof (call_cases op db db' r Hw Ht Hr) as Hc.
  assert (Hquiet : sound db db' -> open_is_latest db' /\ submitted_in (times ++ reserved_at (Called op r)) db').
  { intros Hs. split; [by apply (open_quiet db) | by apply (submitted_quiet _ _ db)]. }
  destruct r as [a|e]; [ | subst db'; by apply Hquiet, sound_refl].
  destruct op; try (by apply Hquiet); cbn [op_post] in Hc.
  - destruct Hc as ([Hw' _] & _ & He & _). split; [intros x; unfold task_executions; rewrite He; apply Ho | ].
    intros x Hx. rewrite He in Hx. apply elem_of_app. left. by apply Hsub.
  - destruct Hc as (db1 & [Hw1 _] & Hs & He & _). split.
    + apply (open_quiet db1); [done | ]. intros x. unfold task_executions. rewrite He. apply Ho.
    + apply (submitted_quiet _ _ db1); [done | ]. intros x. rewrite He. apply Hsub.
  - destruct a as [e|e]; cbn in Hc; [ | subst db'; by apply Hquiet, sound_refl].
    destruct Hc as (Et & Es & Hblock & db1 & _ & Hs & He & _). cbn [reserved_at] in *. split.
    + apply (open_quiet db1); [done | ]. apply (open_reserved db db1 e); [done | by rewrite Et | | done].
      intros x Hx. rewrite Es. apply Hclock; [by apply Hsub | by apply list_elem_of_singleton].
    + rewrite <- (app_nil_r (times ++ [now])). apply (submitted_quiet _ _ db1); [done | ]. intros x Hx. rewrite He in Hx.
      apply elem_of_app in Hx as [Hx| ->%list_elem_of_singleton]; apply elem_of_app; [left; by apply Hsub | right].
      apply list_elem_of_singleton. by cbn.
Qed.

(** C25: A task has at most one open execution.  Along any history from an empty database
    in which the times given to the reservations do not decrease, two executions of the
    same task that are still active or of unknown outcome are the same execution, and
    it is the one the finish blocker and the next reservation see: a second execution
    is never admitted while one is open. *)
Theorem one_open_execution (calls : list Call) (db : Db) :
  history Db_empty calls db -> StronglySorted Z.le (reservation_times calls) ->
  forall x y, x ∈ executions db -> y ∈ executions db ->
    e_task_id (x_execution x) = e_task_id (x_execution y) ->
    blocks_finish (x_execution x) = true -> blocks_finish (x_execution y) = true ->
    x = y /\ connector_finish_blocker db (e_task_id (x_execution x)) = Some (x_execution x).
Proof.
  intros Hh Hsorted.
  assert (Hinv : open_is_latest db /\ submitted_in (reservation_times calls) db).
  { induction Hh as [|calls db c db' Hh IH Ha]; [split; intros x Hx; by apply not_elem_of_nil in Hx | ].
    unfold reservation_times in *. rewrite map_app, concat_app in *. cbn [map concat] in *. rewrite app_nil_r in *.
    apply StronglySorted_app in Hsorted as (Hle & Hs1 & _). destruct (IH Hs1) as [Ho Hsub].
    by apply (open_step _ c db); [apply (history_wf calls) | | | | ]. }
  destruct Hinv as [Ho _]. intros x y Hx Hy Ht Hbx Hby. pose proof (Ho x Hx Hbx) as Lx. pose proof (Ho y Hy Hby) as Ly.
  rewrite Ht, Ly in Lx. injection Lx as ->. split; [done | ]. unfold connector_finish_blocker, latest_execution.
  rewrite Ly. cbn. by rewrite Hbx.
Qed.
End Order.
