(* ===== verification/ConnectorExamples.v ===== *)
(** * ConnectorExamples: histories of the Connector store that run

    [play] executes a list of operations and records their answers; the scenarios
    below take a task through guidance, approval, edit, execution, delivery, result
    and decision, or through its cancellation, and the laws are applied to them. *)
From S2P Require Import Prelude RustStr Lifecycle Sql ConnectorModel ConnectorStore ConnectorTasks ConnectorExecutions ConnectorFacts ConnectorSound ConnectorTaskSound ConnectorLaws ConnectorOrder.

Definition Ask : Type := { A : Type & ConnectorOp A }.
Definition ask {A : Type} (op : ConnectorOp A) : Ask := existT A op.

Section Play.
Context `{JsonText}.

Fixpoint play (asks : list Ask) (db : Db) : list Call * Db :=
  match asks with
  | [] => ([], db)
  | existT _ op :: asks =>
      let '(db1, r) := run_tx (handle op) db in
      let '(calls, db2) := play asks db1 in
      (Called op r :: calls, db2)
  end.

Lemma play_history (asks : list Ask) (db : Db) :
  Forall (fun a => op_typed (projT2 a)) asks -> history db (fst (play asks db)) (snd (play asks db)).
Proof.
  revert db. induction asks as [|[A op] asks IH]; intros db Hf; [constructor | ]. inversion Hf as [|? ? Ht Hf']; subst.
  cbn [play]. destruct (run_tx (handle op) db) as [db1 r] eqn:Er. specialize (IH db1 Hf').
  destruct (play asks db1) as [calls db2]. cbn in *. change (Called op r :: calls) with ([Called op r] ++ calls).
  apply history_app. exists db1. split; [ | done]. change [Called op r] with ([] ++ [Called op r]).
  apply (history_snoc _ _ db); [constructor | done].
Qed.
End Play.

#[local] Instance no_json_text : JsonText := fun _ => [].

Definition ex_project : str := lit "p1".
Definition ex_subject : str := lit "s1".
Definition ex_task : str := lit "t1".
Definition ex_run : str := lit "r1".
Definition ex_hash : str := lit "h1".

Definition ex_new_task : NewConnectorTask :=
  mkNewTask ex_task ex_run ex_project (lit "w1") ex_subject (lit "goal") (lit "read_only") (lit "runner") (lit "runner")
    (lit "/src") (lit "/src") None None false 10.

Definition ex_opening : list Ask :=
  [ask (OpBind (lit "g1") (mkBinding ex_project (lit "Project") (lit "w1") (lit "runner") ex_subject (lit "full") 5));
   ask (OpStart (lit "v1") ex_new_task None)].

(** The snapshot the calls on executions are made with. *)
Definition ex_snapshot (db : Db) : ConnectorTaskSnapshot :=
  match load_task db ex_task ex_project ex_subject with
  | Some n => n
  | None => mkTaskSnapshot [] [] [] [] [] [] ModeNormal TaskActive StActive RunRunning RsRunning 0 [] [] [] [] None None false 0 0
  end.

Definition ex_start : Db := snd (play ex_opening Db_empty).

Definition ex_work : list Ask := ex_opening ++
  [ask (OpGuide (lit "v2") ex_task ex_project ex_subject (VString (lit "first")) 11);
   ask (OpGuide (lit "v3") ex_task ex_project ex_subject (VString (lit "second")) 12);
   ask (OpClaimGuidance ex_task ex_project ex_subject 1);
   ask (OpBeginEdit ex_task ex_project ex_subject (lit "o1") ex_hash 13);
   ask (OpCompleteEdit ex_task ex_project ex_subject (lit "o1") ex_hash (VString (lit "done")) 14);
   ask (OpRequestApproval (lit "v4") (lit "a1") ex_task ex_project ex_subject (lit "shell") ex_hash (lit "run it") 15 100);
   ask (OpDecideApproval (lit "v5") ex_task ex_project (lit "a1") true (lit "alice") None 16);
   ask (OpRequestApproval (lit "v6") (lit "a2") ex_task ex_project ex_subject (lit "shell") ex_hash (lit "run it") 17 100)].

Definition ex_execute : list Ask :=
  [ask (OpReserve (lit "v7") (lit "x1") (ex_snapshot ex_start) (lit "command") (lit "o2") ex_hash [] None None 50 20);
   ask (OpArm (lit "x1") 21);
   ask (OpFinishExecution (lit "v8") (lit "v9") (lit "x1") (FailSubmission (lit "offline")) 22);
   ask (OpClaimContinuation (lit "fence"));
   ask (OpBeginDispatch (lit "x1") (lit "fence"));
   ask (OpReserve (lit "va") (lit "x2") (ex_snapshot ex_start) (lit "command") (lit "o3") ex_hash [] None None 60 30);
   ask (OpReserve (lit "vb") (lit "x3") (ex_snapshot ex_start) (lit "command") (lit "o4") ex_hash [] None None 60 31)].

Definition ex_decide : list Ask :=
  [ask (OpFinish (lit "vc") ex_task ex_project ex_subject
          (mkNewResult (lit "res1") (lit "summary") None None 0 [] (VObject []) []) 40);
   ask (OpBeginDecision ex_task ex_project (lit "res1") (lit "accepted") (lit "alice") 41);
   ask (OpFinalizeDecision (lit "vd") ex_task ex_project (lit "res1") None 42)].

Definition ex_cancel : list Ask := ex_opening ++ [ask (OpCancel (lit "v2") (lit "v3") (ex_snapshot ex_start) None 20)].

Definition ex_calls (asks : list Ask) : list Call := fst (play asks Db_empty).
Definition ex_db (asks : list Ask) : Db := snd (play asks Db_empty).

Lemma ex_history (asks : list Ask) : Forall (fun a => op_typed (projT2 a)) asks -> history Db_empty (ex_calls asks) (ex_db asks).
Proof. apply play_history. Qed.

Lemma ex_history_from (asks1 asks2 : list Ask) :
  Forall (fun a => op_typed (projT2 a)) asks2 ->
  history (ex_db asks1) (fst (play asks2 (ex_db asks1))) (snd (play asks2 (ex_db asks1))).
Proof. apply play_history. Qed.

Ltac typed_asks := repeat (first [apply Forall_nil; exact I | apply Forall_cons; split; [exact I | ]]).

Definition ex_approved : ConnectorApproval :=
  mkApproval (lit "a1") ex_task ex_run (lit "shell") ex_hash (lit "run it") ApprovalApproved 15 100 (Some (lit "alice")) (Some 16%Z)
    None None.

Lemma approval_authorizes_once_witness :
  length (List.filter (authorizes (ex_task, ex_run, ex_hash)) (ex_calls ex_work)) <= 1
  /\ exists c approved, c ∈ removelast (ex_calls ex_work) /\ grants_approval approved c
     /\ consumed 17 ex_approved = consumed 17 approved.
Proof.
  assert (Hh : history Db_empty (ex_calls ex_work) (ex_db ex_work)) by (apply ex_history; typed_asks).
  destruct (approval_authorizes_once (ex_calls ex_work) (ex_db ex_work) Hh) as [H1 H2]. split; [apply H1 | ].
  apply (H2 (removelast (ex_calls ex_work)) (lit "v6") (lit "a2") ex_task ex_project ex_subject (lit "shell") ex_hash
    (lit "run it") 17%Z 100%Z (consumed 17 ex_approved)). vm_compute. reflexivity.
Defined.

Lemma connector_event_log_witness :
  task_sequences (events (snd (play ex_execute (ex_db ex_work)))) ex_task
  = seqZ 1 (Z.of_nat (length (task_sequences (events (snd (play ex_execute (ex_db ex_work)))) ex_task))).
Proof.
  apply (connector_event_log (ex_calls ex_work) (fst (play ex_execute (ex_db ex_work))) (ex_db ex_work));
    [apply ex_history; typed_asks | apply ex_history_from; typed_asks].
Defined.

Definition ex_row (db : Db) (id : str) : ExecutionRow :=
  match load_execution_row db id with
  | Some x => x
  | None => new_execution id KindCommand (ex_snapshot db) [] [] [] None None 0 0
  end.

(** The execution fails; later calls, among them a second failure, leave its verdict. *)
Lemma execution_verdict_final_witness :
  exists x', load_execution_row (snd (play ex_decide (ex_db (ex_work ++ ex_execute)))) (lit "x1") = Some x'
  /\ execution_verdict (x_execution x') = execution_verdict (x_execution (ex_row (ex_db (ex_work ++ ex_execute)) (lit "x1"))).
Proof.
  destruct (execution_verdict_final (ex_calls (ex_work ++ ex_execute)) (fst (play ex_decide (ex_db (ex_work ++ ex_execute))))
    (ex_db (ex_work ++ ex_execute)) (snd (play ex_decide (ex_db (ex_work ++ ex_execute))))
    (ex_row (ex_db (ex_work ++ ex_execute)) (lit "x1"))) as (x' & Hl & _ & _ & _ & _ & Hv & _).
  - apply ex_history. typed_asks.
  - apply ex_history_from. typed_asks.
  - apply (find_elem (fun x => e_execution_id (x_execution x) ==? lit "x1")). vm_compute. reflexivity.
  - exists x'. split; [exact Hl | apply Hv; vm_compute; reflexivity].
Defined.

Lemma continuation_dispatched_at_most_once_witness :
  exists x, load_execution_row (ex_db (ex_work ++ ex_execute)) (lit "x1") = Some x /\ continuation_ready x = false.
Proof.
  destruct (continuation_dispatched_at_most_once (ex_calls (ex_work ++ ex_execute)) (ex_db (ex_work ++ ex_execute)) (lit "x1"))
    as [_ H2]; [apply ex_history; typed_asks | ].
  destruct H2 as (x & Hl & Hr & _); [vm_compute; reflexivity | ]. exists x. split; assumption.
Defined.

Definition ex_accepted : ResultRow :=
  mkResult (lit "res1") ex_task ex_run (lit "summary") None None 0 [] (VObject []) [] DecisionAccepted (Some (lit "alice"))
    (Some 42%Z) None 40.

(** A result accepted once is not decided again. *)
Lemma result_decided_once_witness :
  length (List.filter (decides ex_task) (ex_calls (ex_opening ++ ex_decide) ++ fst (play ex_decide (ex_db (ex_opening ++ ex_decide))))) <= 1
  /\ exists s', load_result (snd (play ex_decide (ex_db (ex_opening ++ ex_decide)))) ex_task = Some s'
      /\ s_decision_status s' = DecisionAccepted.
Proof.
  destruct (result_decided_once (ex_calls (ex_opening ++ ex_decide)) (fst (play ex_decide (ex_db (ex_opening ++ ex_decide))))
    (ex_db (ex_opening ++ ex_decide)) (snd (play ex_decide (ex_db (ex_opening ++ ex_decide)))) ex_task) as [H1 H2];
    [apply ex_history; typed_asks | apply ex_history_from; typed_asks | ].
  split; [exact H1 | ]. destruct (H2 ex_accepted) as (s' & Hl & _ & _ & _ & _ & Hd & _);
    [vm_compute; reflexivity | discriminate | ].
  exists s'. split; assumption.
Defined.

Definition ex_edit : list Ask := ex_opening ++
  [ask (OpBeginEdit ex_task ex_project ex_subject (lit "o1") ex_hash 13)].

Lemma edit_operation_replayed_witness :
  EditReplay (VString (lit "done")) = if ex_hash ==? ex_hash then EditReplay (VString (lit "done")) else EditConflict.
Proof.
  refine (proj2 (edit_operation_replayed (ex_calls ex_edit) [] _
    (ex_db (ex_edit ++ [ask (OpCompleteEdit ex_task ex_project ex_subject (lit "o1") ex_hash (VString (lit "done")) 14)]))
    ex_task ex_project ex_subject (lit "o1") ex_hash (VString (lit "done")) 14 ex_project ex_subject ex_hash 15 _
    (ex_history (ex_edit ++ [ask (OpCompleteEdit ex_task ex_project ex_subject (lit "o1") ex_hash (VString (lit "done")) 14)]) _) _)).
  - typed_asks.
  - split; [exact I | vm_compute; reflexivity].
Defined.

Lemma cancelled_task_accepts_no_work_witness :
  fst (run_tx (handle (OpResume (lit "v9") ex_task ex_project (lit "alice") 30)) (ex_db ex_cancel)) = ex_db ex_cancel.
Proof.
  destruct (cancelled_task_accepts_no_work (ex_calls ex_cancel) [] (ex_db ex_cancel) (ex_db ex_cancel) ex_task) as [_ H2];
    [apply ex_history; typed_asks | vm_compute; reflexivity | constructor | ].
  apply (H2 _ (OpResume (lit "v9") ex_task ex_project (lit "alice") 30) _
    (snd (run_tx (handle (OpResume (lit "v9") ex_task ex_project (lit "alice") 30)) (ex_db ex_cancel)))); [reflexivity | ].
  split; [exact I | ]. destruct (run_tx _ _). reflexivity.
Defined.

(** The first claim took the first guidance; the second is pending. *)
Lemma guidance_delivered_once_in_order_witness :
  delivered ex_task (ex_calls ex_work) ++ pending_guidance (ex_db ex_work) ex_task (watermark (ex_db ex_work) ex_task)
  = guidance_log (ex_db ex_work) ex_task.
Proof. apply (guidance_delivered_once_in_order (ex_calls ex_work) (ex_db ex_work)). apply ex_history. typed_asks. Defined.

Definition ex_open : ExecutionRow := ex_row (ex_db (ex_work ++ ex_execute)) (lit "x2").

Lemma one_open_execution_witness :
  connector_finish_blocker (ex_db (ex_work ++ ex_execute)) (e_task_id (x_execution ex_open)) = Some (x_execution ex_open).
Proof.
  assert (Hin : ex_open ∈ executions (ex_db (ex_work ++ ex_execute))).
  { apply (find_elem (fun x => e_execution_id (x_execution x) ==? lit "x2")). vm_compute. reflexivity. }
  assert (Hb : blocks_finish (x_execution ex_open) = true) by (vm_compute; reflexivity).
  refine (proj2 (one_open_execution (ex_calls (ex_work ++ ex_execute)) (ex_db (ex_work ++ ex_execute)) _ _
    ex_open ex_open Hin Hin eq_refl Hb Hb)).
  - apply ex_history. typed_asks.
  - vm_compute. repeat constructor; discriminate.
Defined.
