(* ===== verification/AuthModel.v ===== *)
(** * AuthModel: credentials as the store keeps them

    The records of models.rs for users, API keys, account credentials, pairing codes and
    the OAuth2 clients, authorization codes, access and refresh tokens, the tables that
    hold them (schema.rs), the [AuthContext] a verified credential yields, and the checks
    of oauth.rs on owners and subjects.  A table is the list of its rows ([Sql]). *)
From S2P Require Import Prelude RustStr Policy Sql.

(** What a store method fails with: a check of its own or an error of SQLite (a broken
    key, CHECK or foreign key). *)
Inductive StoreError : Type :=
| Invalid (message : str)
| Sqlite.

#[export] Instance StoreError_eq_dec : EqDecision StoreError.
Proof. solve_decision. Defined.

(** ** Splitting scope texts *)

Definition is_ascii_whitespace (c : char) : bool :=
  (N.eqb c 32 || N.eqb c 9 || N.eqb c 10 || N.eqb c 12 || N.eqb c 13)%bool.
Definition words (p : char -> bool) (s : str) : list str :=
  List.filter (fun w => negb (is_empty w)) (split_on p s).
Definition split_whitespace (s : str) : list str := words is_whitespace s.
Definition split_ascii_whitespace (s : str) : list str := words is_ascii_whitespace s.

(** ** Records (models.rs) *)

Record UserRecord : Type := mkUser {
  us_id : str;
  us_username : str;
  us_created_at : Z;
  us_disabled : Z;
  us_display_name : option str;
  us_role : str;
  us_disabled_at : option Z;
  us_updated_at : option Z
}.

#[export] Instance eta_mkUser : Eta UserRecord := fun x =>
  mkUser (us_id x) (us_username x) (us_created_at x) (us_disabled x) (us_display_name x) (us_role x)
    (us_disabled_at x) (us_updated_at x).

Record ApiKeyRecord : Type := mkApiKey {
  ak_id : str;
  ak_user_id : str;
  ak_name : str;
  ak_key_prefix : str;
  ak_created_at : Z;
  ak_last_used_at : option Z;
  ak_revoked_at : option Z;
  ak_scopes : str;
  ak_expires_at : option Z;
  ak_kind_column : str;
  ak_allowed_client_id : option str
}.

#[export] Instance eta_mkApiKey : Eta ApiKeyRecord := fun x =>
  mkApiKey (ak_id x) (ak_user_id x) (ak_name x) (ak_key_prefix x) (ak_created_at x) (ak_last_used_at x)
    (ak_revoked_at x) (ak_scopes x) (ak_expires_at x) (ak_kind_column x) (ak_allowed_client_id x).

(** A row of [api_keys]: the record and the column [row_to_api_key] does not read. *)
Record ApiKeyRow : Type := mkApiKeyRow {
  kr_key : ApiKeyRecord;
  kr_hash : str
}.

#[export] Instance eta_mkApiKeyRow : Eta ApiKeyRow := fun x =>
  mkApiKeyRow (kr_key x) (kr_hash x).

Record AccountCredentialRecord : Type := mkCredential {
  cr_id : str;
  cr_user_id : str;
  cr_credential_prefix : str;
  cr_created_at : Z;
  cr_last_used_at : option Z;
  cr_revoked_at : option Z
}.

#[export] Instance eta_mkCredential : Eta AccountCredentialRecord := fun x =>
  mkCredential (cr_id x) (cr_user_id x) (cr_credential_prefix x) (cr_created_at x) (cr_last_used_at x)
    (cr_revoked_at x).

(** A row of [account_credentials]. *)
Record AccountCredentialRow : Type := mkCredentialRow {
  cw_credential : AccountCredentialRecord;
  cw_hash : str
}.

#[export] Instance eta_mkCredentialRow : Eta AccountCredentialRow := fun x =>
  mkCredentialRow (cw_credential x) (cw_hash x).

Record PairingCodeRecord : Type := mkPairing {
  pc_id : str;
  pc_code_hash : str;
  pc_user_id : str;
  pc_username : str;
  pc_client_id : str;
  pc_created_at : Z;
  pc_expires_at : Z;
  pc_used_at : option Z;
  pc_user_token_name : option str;
  pc_agent_token_name : option str
}.

#[export] Instance eta_mkPairing : Eta PairingCodeRecord := fun x =>
  mkPairing (pc_id x) (pc_code_hash x) (pc_user_id x) (pc_username x) (pc_client_id x) (pc_created_at x)
    (pc_expires_at x) (pc_used_at x) (pc_user_token_name x) (pc_agent_token_name x).

Record OAuthClientRecord : Type := mkClient {
  oc_id : str;
  oc_client_id : str;
  oc_client_secret_hash : str;
  oc_name : str;
  oc_owner_user_id : option str;
  oc_owner_project_grant_id : option str;
  oc_owner_shared_key_hash : option str;
  oc_redirect_uris : str;
  oc_allowed_scopes : str;
  oc_created_at : Z;
  oc_revoked_at : option Z
}.

#[export] Instance eta_mkClient : Eta OAuthClientRecord := fun x =>
  mkClient (oc_id x) (oc_client_id x) (oc_client_secret_hash x) (oc_name x) (oc_owner_user_id x)
    (oc_owner_project_grant_id x) (oc_owner_shared_key_hash x) (oc_redirect_uris x) (oc_allowed_scopes x)
    (oc_created_at x) (oc_revoked_at x).

Record OAuthAuthorizationCodeRecord : Type := mkCode {
  ac_id : str;
  ac_code_hash : str;
  ac_client_id : str;
  ac_subject_kind : str;
  ac_subject_id : str;
  ac_user_id : option str;
  ac_redirect_uri : str;
  ac_scopes : str;
  ac_code_challenge : option str;
  ac_code_challenge_method : option str;
  ac_resource : option str;
  ac_shared_key_hash : option str;
  ac_created_at : Z;
  ac_expires_at : Z;
  ac_used_at : option Z;
  ac_revoked_at : option Z
}.

#[export] Instance eta_mkCode : Eta OAuthAuthorizationCodeRecord := fun x =>
  mkCode (ac_id x) (ac_code_hash x) (ac_client_id x) (ac_subject_kind x) (ac_subject_id x) (ac_user_id x)
    (ac_redirect_uri x) (ac_scopes x) (ac_code_challenge x) (ac_code_challenge_method x) (ac_resource x)
    (ac_shared_key_hash x) (ac_created_at x) (ac_expires_at x) (ac_used_at x) (ac_revoked_at x).

Record OAuthAccessTokenRecord : Type := mkAccess {
  at_id : str;
  at_token_hash : str;
  at_client_id : str;
  at_subject_kind : str;
  at_subject_id : str;
  at_user_id : option str;
  at_scopes : str;
  at_resource : option str;
  at_shared_key_hash : option str;
  at_created_at : Z;
  at_expires_at : Z;
  at_revoked_at : option Z;
  at_last_used_at : option Z
}.

#[export] Instance eta_mkAccess : Eta OAuthAccessTokenRecord := fun x =>
  mkAccess (at_id x) (at_token_hash x) (at_client_id x) (at_subject_kind x) (at_subject_id x) (at_user_id x)
    (at_scopes x) (at_resource x) (at_shared_key_hash x) (at_created_at x) (at_expires_at x) (at_revoked_at x)
    (at_last_used_at x).

Record OAuthRefreshTokenRecord : Type := mkRefresh {
  rt_id : str;
  rt_token_hash : str;
  rt_client_id : str;
  rt_subject_kind : str;
  rt_subject_id : str;
  rt_user_id : option str;
  rt_scopes : str;
  rt_resource : option str;
  rt_shared_key_hash : option str;
  rt_created_at : Z;
  rt_expires_at : Z;
  rt_revoked_at : option Z;
  rt_last_used_at : option Z;
  rt_rotated_from_id : option str
}.

#[export] Instance eta_mkRefresh : Eta OAuthRefreshTokenRecord := fun x =>
  mkRefresh (rt_id x) (rt_token_hash x) (rt_client_id x) (rt_subject_kind x) (rt_subject_id x) (rt_user_id x)
    (rt_scopes x) (rt_resource x) (rt_shared_key_hash x) (rt_created_at x) (rt_expires_at x) (rt_revoked_at x)
    (rt_last_used_at x) (rt_rotated_from_id x).

(** ** Methods of the records *)

Definition user_is_disabled (u : UserRecord) : bool := negb (Z.eqb (us_disabled u) 0) || is_some (us_disabled_at u).

Definition TOKEN_KIND_USER : str := lit "user".
Definition TOKEN_KIND_AGENT : str := lit "agent".
Definition ak_scopes_vec (k : ApiKeyRecord) : list str := split_whitespace (ak_scopes k).
Definition ak_is_expired (k : ApiKeyRecord) (now : Z) : bool := is_some_and (fun e => Z.leb e now) (ak_expires_at k).
Definition ak_kind (k : ApiKeyRecord) : str := if is_empty (ak_kind_column k) then TOKEN_KIND_USER else ak_kind_column k.
Definition ak_is_agent_token (k : ApiKeyRecord) : bool := ak_kind k ==? TOKEN_KIND_AGENT.

Definition at_is_expired (t : OAuthAccessTokenRecord) (now : Z) : bool := Z.leb (at_expires_at t) now.
Definition at_scopes_vec (t : OAuthAccessTokenRecord) : list str := split_whitespace (at_scopes t).
Definition rt_is_expired (t : OAuthRefreshTokenRecord) (now : Z) : bool := Z.leb (rt_expires_at t) now.

Definition is_managed_user_owned (c : OAuthClientRecord) : bool :=
  is_some (oc_owner_user_id c) && is_none (oc_owner_project_grant_id c) && is_none (oc_owner_shared_key_hash c).
Definition is_project_grant_owned (c : OAuthClientRecord) : bool :=
  is_none (oc_owner_user_id c) && is_some (oc_owner_project_grant_id c) && is_none (oc_owner_shared_key_hash c).
Definition is_shared_key_owned (c : OAuthClientRecord) : bool :=
  is_none (oc_owner_user_id c) && is_none (oc_owner_project_grant_id c) && is_some (oc_owner_shared_key_hash c).
Definition allowed_scopes_vec (c : OAuthClientRecord) : list str := split_whitespace (oc_allowed_scopes c).
Definition redirect_uris_vec (c : OAuthClientRecord) : list str :=
  List.filter (fun s => negb (is_empty s)) (map trim (str_lines (oc_redirect_uris c))).

(** ** Contexts (auth/context.rs) *)

Inductive AuthKind : Type :=
| KBootstrap
| KApiToken
| KAgentToken
| KAccountCredential
| KOAuth2Token
| KSharedKey
| KProjectCredential
| KOpenAnonymous.

#[export] Instance AuthKind_eq_dec : EqDecision AuthKind.
Proof. solve_decision. Defined.

Record AuthContext : Type := mkContext {
  cx_kind : AuthKind;
  cx_user_id : option str;
  cx_username : option str;
  cx_api_key_id : option str;
  cx_role : option str;
  cx_scopes : list str;
  cx_is_bootstrap : bool;
  cx_token_kind : option str;
  cx_allowed_client_id : option str;
  cx_shared_key_hash : option str;
  cx_project_grant_id : option str
}.

#[export] Instance eta_mkContext : Eta AuthContext := fun x =>
  mkContext (cx_kind x) (cx_user_id x) (cx_username x) (cx_api_key_id x) (cx_role x) (cx_scopes x)
    (cx_is_bootstrap x) (cx_token_kind x) (cx_allowed_client_id x) (cx_shared_key_hash x) (cx_project_grant_id x).

Definition auth_context_new (kind : AuthKind) : AuthContext :=
  mkContext kind None None None None [] false None None None None.

Definition SCOPE_ADMIN : str := lit "admin".

Definition has_scope (ctx : AuthContext) (scope : str) : bool :=
  cx_is_bootstrap ctx || existsb (fun granted => (granted ==? scope) || (granted ==? SCOPE_ADMIN)) (cx_scopes ctx).

Definition bootstrap_context : AuthContext :=
  auth_context_new KBootstrap
    <| cx_role := Some (lit "admin") |> <| cx_scopes := [SCOPE_ADMIN] |> <| cx_is_bootstrap := true |>.

(** ** Checks on owners and subjects (oauth.rs) *)

Definition blank (s : str) : bool := is_empty (trim s).

Definition validate_shared_key_owner_hash (value : str) : result unit StoreError :=
  if Z.eqb (str_len value) 64
     && forallb (fun byte => is_ascii_hexdigit byte && negb (is_ascii_uppercase byte)) (as_bytes value)
  then Ok tt
  else Err (Invalid (lit "OAuth shared-key owner hash must be 64 lowercase hex characters")).

Definition one_owner_error : StoreError :=
  Invalid (lit "OAuth client must have exactly one managed-user, project-grant, or shared-key owner").

Definition validate_oauth_client_owner (r : OAuthClientRecord) : result unit StoreError :=
  match oc_owner_user_id r, oc_owner_project_grant_id r, oc_owner_shared_key_hash r with
  | Some user_id, None, None => if negb (blank user_id) then Ok tt else Err one_owner_error
  | None, Some grant_id, None => map_err Invalid (Authority.validate_project_grant_id grant_id)
  | None, None, Some shared_key_hash => validate_shared_key_owner_hash shared_key_hash
  | _, _, _ => Err one_owner_error
  end.

Definition validate_oauth_subject (subject_kind subject_id : str) (user_id shared_key_hash : option str)
  : result unit StoreError :=
  check? (if subject_kind ==? lit "managed_user" then
            let? user_id := ok_or (opt_filter (fun v => negb (blank v)) user_id)
                              (Invalid (lit "managed_user OAuth subject requires user_id")) in
            bail? subject_id !=? user_id with Invalid (lit "managed_user OAuth subject_id must match user_id") ;;
            Ok tt
          else if subject_kind ==? lit "shared_key" then
            bail? is_some user_id with Invalid (lit "shared_key OAuth subject must not include user_id") ;;
            let? shared_key_hash := ok_or (opt_filter (fun v => negb (blank v)) shared_key_hash)
                                      (Invalid (lit "shared_key OAuth subject requires shared_key_hash")) in
            bail? subject_id !=? shared_key_hash
              with Invalid (lit "shared_key OAuth subject_id must match shared_key_hash") ;;
            Ok tt
          else if subject_kind ==? Authority.PROJECT_SHARE_OAUTH_SUBJECT_KIND then
            bail? is_some user_id with Invalid (lit "project_share OAuth subject must not include user_id") ;;
            bail? is_some shared_key_hash
              with Invalid (lit "project_share OAuth subject must not include shared_key_hash") ;;
            check? map_err Invalid (Authority.parse_project_share_subject_id subject_id) ;;
            Ok tt
          else Err (Invalid (lit "unknown OAuth subject_kind: " ++ subject_kind))) ;;
  bail? blank subject_id with Invalid (lit "OAuth subject_id must not be empty") ;;
  Ok tt.

Definition validate_oauth_authorization_code_subject (r : OAuthAuthorizationCodeRecord) : result unit StoreError :=
  validate_oauth_subject (ac_subject_kind r) (ac_subject_id r) (ac_user_id r) (ac_shared_key_hash r).
Definition validate_oauth_access_token_subject (r : OAuthAccessTokenRecord) : result unit StoreError :=
  validate_oauth_subject (at_subject_kind r) (at_subject_id r) (at_user_id r) (at_shared_key_hash r).
Definition validate_oauth_refresh_token_subject (r : OAuthRefreshTokenRecord) : result unit StoreError :=
  validate_oauth_subject (rt_subject_kind r) (rt_subject_id r) (rt_user_id r) (rt_shared_key_hash r).

Definition validate_oauth_subjects_match (left_kind left_id right_kind right_id : str) : result unit StoreError :=
  bail? (left_kind !=? right_kind) || (left_id !=? right_id) with Invalid (lit "OAuth token subjects must match") ;;
  Ok tt.

(** ** Tables *)

(** A first-party authorize session (managed_authorize.rs), kept in memory under the hash of its id. *)
Record AuthorizeSession : Type := mkSession {
  se_user_id : str;
  se_expires_at : Z
}.

#[export] Instance eta_mkSession : Eta AuthorizeSession := fun x =>
  mkSession (se_user_id x) (se_expires_at x).

(** The credential tables of the database, and the sessions of [AuthorizeSessionStore]. *)
Record AuthDb : Type := mkAuthDb {
  users : list UserRecord;
  api_keys : list ApiKeyRow;
  account_credentials : list AccountCredentialRow;
  pairing_codes : list PairingCodeRecord;
  oauth_clients : list OAuthClientRecord;
  oauth_codes : list OAuthAuthorizationCodeRecord;
  oauth_access : list OAuthAccessTokenRecord;
  oauth_refresh : list OAuthRefreshTokenRecord;
  authorize_sessions : gmap str AuthorizeSession
}.

#[export] Instance eta_mkAuthDb : Eta AuthDb := fun x =>
  mkAuthDb (users x) (api_keys x) (account_credentials x) (pairing_codes x) (oauth_clients x) (oauth_codes x)
    (oauth_access x) (oauth_refresh x) (authorize_sessions x).

Definition AuthDb_empty : AuthDb := mkAuthDb [] [] [] [] [] [] [] [] ∅.
