(* ===== verification/AuthStore.v ===== *)
(** * AuthStore: the statements of accounts.rs and oauth.rs

    Every section that holds the connection's lock once is one transaction here.  The
    store's methods that take the lock more than once (an update, then a read) are
    programs over these transactions, below. *)
From S2P Require Import Prelude RustStr Policy Sql AuthModel.

Abbreviation atx := (tx AuthDb StoreError).

Definition has_key {A : Type} (key : A -> str) (t : list A) (v : str) : bool := existsb (fun r => key r ==? v) t.

(** [INSERT]: refused when a key, a CHECK or a foreign key would break. *)
Definition insert_row (allowed : AuthDb -> bool) (add : AuthDb -> AuthDb) : atx unit :=
  ok ← gets allowed;
  _ ← reject (negb ok) Sqlite;
  modify add.

(** [SELECT ... WHERE key = v] on a unique key. *)
Definition select_one {A : Type} (table : AuthDb -> list A) (sel : A -> bool) : atx (option A) :=
  gets (fun db => find sel (table db)).

(** [UPDATE ... WHERE], with the number of rows it changed. *)
Definition update_rows {A : Type} (table : AuthDb -> list A) (store : list A -> AuthDb -> AuthDb) (sel : A -> bool)
  (upd : A -> A) : atx nat :=
  n ← gets (fun db => rows_matched sel (table db));
  _ ← modify (fun db => store (rows_update sel upd (table db)) db);
  mret n.

(** [ORDER BY created_at DESC], equal times in rowid order. *)
Definition newest_first {A : Type} (created : A -> Z) (t : list A) : list A :=
  sort_by (fun a b => Z.leb (created b) (created a)) t.

Definition user_exists (db : AuthDb) (id : str) : bool := has_key us_id (users db) id.
Definition user_ref (db : AuthDb) (id : option str) : bool := is_none_or (user_exists db) id.
Definition client_exists (db : AuthDb) (client_id : str) : bool := has_key oc_client_id (oauth_clients db) client_id.

(** ** Users (accounts.rs) *)

Definition get_user_by_username (username : str) : atx (option UserRecord) :=
  select_one users (fun u => us_username u ==? username).
Definition create_user (u : UserRecord) : atx unit :=
  insert_row (fun db => negb (has_key us_id (users db) (us_id u)) && negb (has_key us_username (users db) (us_username u)))
    (fun db => db <| users := users db ++ [u] |>).
Definition list_users : atx (list UserRecord) :=
  gets (fun db => sort_by (fun a b => str_leb (us_username a) (us_username b)) (users db)).
Definition get_user_by_id (id : str) : atx (option UserRecord) := select_one users (fun u => us_id u ==? id).
(** The statement of [set_user_disabled]. *)
Definition set_user_disabled_statement (id : str) (disabled : bool) (ts : Z) : atx unit :=
  _ ← update_rows users (fun t db => db <| users := t |>) (fun u => us_id u ==? id)
        (fun u => u <| us_disabled := if disabled then 1%Z else 0%Z |>
                    <| us_disabled_at := if disabled then or_else (us_disabled_at u) (Some ts) else None |>
                    <| us_updated_at := Some ts |>);
  mret tt.

(** ** API keys *)

Definition get_api_key_by_hash (hash : str) : atx (option ApiKeyRecord) :=
  row ← select_one api_keys (fun k => (kr_hash k ==? hash) && is_none (ak_revoked_at (kr_key k)));
  mret (kr_key <$> row).
Definition insert_api_key (k : ApiKeyRecord) (key_hash : str) : atx unit :=
  insert_row (fun db => negb (has_key (fun r => ak_id (kr_key r)) (api_keys db) (ak_id k))
                        && negb (has_key kr_hash (api_keys db) key_hash) && user_exists db (ak_user_id k))
    (fun db => db <| api_keys := api_keys db ++ [mkApiKeyRow k key_hash] |>).
Definition list_api_keys_by_user (user_id : str) : atx (list ApiKeyRecord) :=
  gets (fun db => newest_first ak_created_at
                    (List.filter (fun k => ak_user_id k ==? user_id) (map kr_key (api_keys db)))).
Definition list_agent_api_keys_by_user (user_id : str) : atx (list ApiKeyRecord) :=
  gets (fun db => newest_first ak_created_at
                    (List.filter (fun k => (ak_user_id k ==? user_id) && (ak_kind_column k ==? TOKEN_KIND_AGENT))
                       (map kr_key (api_keys db)))).
Definition get_api_key_by_id (id : str) : atx (option ApiKeyRecord) :=
  row ← select_one api_keys (fun k => ak_id (kr_key k) ==? id);
  mret (kr_key <$> row).
Definition on_key (f : ApiKeyRecord -> ApiKeyRecord) (r : ApiKeyRow) : ApiKeyRow := r <| kr_key := f (kr_key r) |>.
(** The statement of [revoke_api_key]. *)
Definition revoke_api_key_statement (id : str) (ts : Z) : atx unit :=
  _ ← update_rows api_keys (fun t db => db <| api_keys := t |>) (fun k => ak_id (kr_key k) ==? id)
        (on_key (fun k => k <| ak_revoked_at := or_else (ak_revoked_at k) (Some ts) |>));
  mret tt.
Definition update_api_key_last_used (id : str) (ts : Z) : atx unit :=
  _ ← update_rows api_keys (fun t db => db <| api_keys := t |>) (fun k => ak_id (kr_key k) ==? id)
        (on_key (fun k => k <| ak_last_used_at := Some ts |>));
  mret tt.

(** ** Account credentials *)

Definition insert_account_credential (c : AccountCredentialRecord) (hash : str) : atx unit :=
  insert_row (fun db => negb (has_key (fun r => cr_id (cw_credential r)) (account_credentials db) (cr_id c))
                        && negb (has_key cw_hash (account_credentials db) hash) && user_exists db (cr_user_id c))
    (fun db => db <| account_credentials := account_credentials db ++ [mkCredentialRow c hash] |>).
Definition get_account_credential_by_hash (hash : str) : atx (option AccountCredentialRecord) :=
  row ← select_one account_credentials (fun c => (cw_hash c ==? hash) && is_none (cr_revoked_at (cw_credential c)));
  mret (cw_credential <$> row).
Definition on_credential (f : AccountCredentialRecord -> AccountCredentialRecord) (r : AccountCredentialRow)
  : AccountCredentialRow := r <| cw_credential := f (cw_credential r) |>.
Definition update_account_credential_last_used (id : str) (ts : Z) : atx unit :=
  _ ← update_rows account_credentials (fun t db => db <| account_credentials := t |>)
        (fun c => cr_id (cw_credential c) ==? id) (on_credential (fun c => c <| cr_last_used_at := Some ts |>));
  mret tt.
(** The two statements of [revoke_account_credential]. *)
Definition revoke_account_credential_statement (id : str) (ts : Z) : atx unit :=
  _ ← update_rows account_credentials (fun t db => db <| account_credentials := t |>)
        (fun c => cr_id (cw_credential c) ==? id)
        (on_credential (fun c => c <| cr_revoked_at := or_else (cr_revoked_at c) (Some ts) |>));
  mret tt.
Definition get_account_credential_by_id (id : str) : atx (option AccountCredentialRecord) :=
  row ← select_one account_credentials (fun c => cr_id (cw_credential c) ==? id);
  mret (cw_credential <$> row).
Definition list_account_credentials_by_user (user_id : str) : atx (list AccountCredentialRecord) :=
  gets (fun db => newest_first cr_created_at
                    (List.filter (fun c => cr_user_id c ==? user_id) (map cw_credential (account_credentials db)))).

(** ** Pairing codes *)

Inductive PairingConsumeResult : Type :=
| PairingNotFound
| PairingConsumed (record : PairingCodeRecord)
| PairingAlreadyUsed (record : PairingCodeRecord)
| PairingExpired (record : PairingCodeRecord)
| PairingClientMismatch (record : PairingCodeRecord).

Definition insert_pairing_code (p : PairingCodeRecord) : atx unit :=
  insert_row (fun db => negb (has_key pc_id (pairing_codes db) (pc_id p))
                        && negb (has_key pc_code_hash (pairing_codes db) (pc_code_hash p)) && user_exists db (pc_user_id p))
    (fun db => db <| pairing_codes := pairing_codes db ++ [p] |>).
Definition get_pairing_code_by_hash (hash : str) : atx (option PairingCodeRecord) :=
  select_one pairing_codes (fun p => pc_code_hash p ==? hash).
Definition consume_pairing_code (code_hash client_id : str) (now : Z) : atx PairingConsumeResult :=
  found ← select_one pairing_codes (fun p => pc_code_hash p ==? code_hash);
  match found with
  | None => mret PairingNotFound
  | Some record =>
      if is_some (pc_used_at record) then mret (PairingAlreadyUsed record)
      else if Z.leb (pc_expires_at record) now then mret (PairingExpired record)
      else if negb (is_empty (pc_client_id record)) && (pc_client_id record !=? client_id)
           then mret (PairingClientMismatch record)
      else
        changed ← update_rows pairing_codes (fun t db => db <| pairing_codes := t |>)
          (fun p => (pc_id p ==? pc_id record) && is_none (pc_used_at p) && Z.ltb now (pc_expires_at p)
                    && ((pc_client_id p ==? client_id) || is_empty (pc_client_id p)))
          (fun p => p <| pc_used_at := Some now |> <| pc_client_id := client_id |>);
        if Nat.eqb changed 1
        then mret (PairingConsumed (record <| pc_used_at := Some now |> <| pc_client_id := client_id |>))
        else mret (PairingAlreadyUsed record)
  end.

(** ** OAuth2 clients (oauth.rs) *)

Definition owner_check (c : OAuthClientRecord) : bool :=
  is_managed_user_owned c || is_project_grant_owned c || is_shared_key_owned c.

Definition insert_oauth_client (c : OAuthClientRecord) : atx unit :=
  _ ← lift (validate_oauth_client_owner c);
  insert_row (fun db => negb (has_key oc_id (oauth_clients db) (oc_id c))
                        && negb (has_key oc_client_id (oauth_clients db) (oc_client_id c))
                        && owner_check c && user_ref db (oc_owner_user_id c))
    (fun db => db <| oauth_clients := oauth_clients db ++ [c] |>).
Definition get_oauth_client_by_client_id (client_id : str) : atx (option OAuthClientRecord) :=
  select_one oauth_clients (fun c => (oc_client_id c ==? client_id) && is_none (oc_revoked_at c)).
Definition get_oauth_client_name_by_client_id (client_id : str) : atx (option str) :=
  row ← select_one oauth_clients (fun c => oc_client_id c ==? client_id);
  mret (oc_name <$> row).
Definition get_oauth_client_by_id (id : str) : atx (option OAuthClientRecord) :=
  select_one oauth_clients (fun c => oc_id c ==? id).

Definition stamp_client (ts : Z) (c : OAuthClientRecord) : OAuthClientRecord :=
  c <| oc_revoked_at := or_else (oc_revoked_at c) (Some ts) |>.
Definition stamp_code (ts : Z) (c : OAuthAuthorizationCodeRecord) : OAuthAuthorizationCodeRecord :=
  c <| ac_revoked_at := or_else (ac_revoked_at c) (Some ts) |>.
Definition stamp_access (ts : Z) (t : OAuthAccessTokenRecord) : OAuthAccessTokenRecord :=
  t <| at_revoked_at := or_else (at_revoked_at t) (Some ts) |>.
Definition stamp_refresh (ts : Z) (t : OAuthRefreshTokenRecord) : OAuthRefreshTokenRecord :=
  t <| rt_revoked_at := or_else (rt_revoked_at t) (Some ts) |>.

Abbreviation update_clients := (update_rows oauth_clients (fun t db => db <| oauth_clients := t |>)).
Abbreviation update_codes := (update_rows oauth_codes (fun t db => db <| oauth_codes := t |>)).
Abbreviation update_access := (update_rows oauth_access (fun t db => db <| oauth_access := t |>)).
Abbreviation update_refresh := (update_rows oauth_refresh (fun t db => db <| oauth_refresh := t |>)).

Definition revoke_oauth_client (id : str) (ts : Z) : atx unit :=
  _ ← update_clients (fun c => oc_id c ==? id) (stamp_client ts);
  mret tt.
Definition list_oauth_clients : atx (list OAuthClientRecord) :=
  gets (fun db => newest_first oc_created_at (oauth_clients db)).

Definition update_oauth_client_allowed_scopes_and_revoke_grants (client_id expected_allowed_scopes allowed_scopes : str)
  (ts : Z) : atx (option (bool * nat * nat * nat)) :=
  let changed := expected_allowed_scopes !=? allowed_scopes in
  before ← gets (fun db => db);
  updated ← update_clients
    (fun c => (oc_client_id c ==? client_id) && (oc_allowed_scopes c ==? expected_allowed_scopes) && is_none (oc_revoked_at c))
    (fun c => c <| oc_allowed_scopes := allowed_scopes |>);
  if negb (Nat.eqb updated 1) then _ ← modify (fun _ => before); mret None
  else if negb changed then mret (Some (false, 0, 0, 0))
  else
    access_tokens ← update_access (fun t => (at_client_id t ==? client_id) && is_none (at_revoked_at t))
      (fun t => t <| at_revoked_at := Some ts |>);
    refresh_tokens ← update_refresh (fun t => (rt_client_id t ==? client_id) && is_none (rt_revoked_at t))
      (fun t => t <| rt_revoked_at := Some ts |>);
    authorization_codes ← update_codes (fun c => (ac_client_id c ==? client_id) && is_none (ac_revoked_at c))
      (fun c => c <| ac_revoked_at := Some ts |>);
    mret (Some (true, access_tokens, refresh_tokens, authorization_codes)).

Definition revoke_oauth_client_by_client_id (client_id : str) (ts : Z) : atx bool :=
  updated ← update_clients (fun c => oc_client_id c ==? client_id) (stamp_client ts);
  mret (Nat.ltb 0 updated).
Definition revoke_oauth_access_tokens_for_client (client_id : str) (ts : Z) : atx nat :=
  update_access (fun t => at_client_id t ==? client_id) (stamp_access ts).
Definition revoke_oauth_refresh_tokens_for_client (client_id : str) (ts : Z) : atx nat :=
  update_refresh (fun t => rt_client_id t ==? client_id) (stamp_refresh ts).
Definition revoke_oauth_authorization_codes_for_client (client_id : str) (ts : Z) : atx nat :=
  update_codes (fun c => ac_client_id c ==? client_id) (stamp_code ts).

(** ** Authorization codes *)

(** [code_hash] is the column's value; the endpoints pass the record's own. *)
Definition insert_oauth_authorization_code (r : OAuthAuthorizationCodeRecord) (code_hash : str) : atx unit :=
  _ ← lift (validate_oauth_authorization_code_subject r);
  insert_row (fun db => negb (has_key ac_id (oauth_codes db) (ac_id r))
                        && negb (has_key ac_code_hash (oauth_codes db) code_hash)
                        && client_exists db (ac_client_id r) && user_ref db (ac_user_id r))
    (fun db => db <| oauth_codes := oauth_codes db ++ [r <| ac_code_hash := code_hash |>] |>).
Definition get_oauth_authorization_code_by_hash (code_hash : str) : atx (option OAuthAuthorizationCodeRecord) :=
  select_one oauth_codes (fun c => (ac_code_hash c ==? code_hash) && is_none (ac_revoked_at c)).
(** The code [consume] and [exchange] may take: known, not revoked, not used, not expired. *)
Definition redeemable (code_hash : str) (now : Z) (c : OAuthAuthorizationCodeRecord) : bool :=
  (ac_code_hash c ==? code_hash) && is_none (ac_revoked_at c) && is_none (ac_used_at c) && Z.ltb now (ac_expires_at c).
(** The statement of [consume_oauth_authorization_code_by_hash]. *)
Definition consume_code_statement (code_hash : str) (now : Z) : atx nat :=
  update_codes (redeemable code_hash now) (fun c => c <| ac_used_at := Some now |>).
Definition get_oauth_authorization_code_by_hash_for_consume (code_hash : str) : atx (option OAuthAuthorizationCodeRecord) :=
  select_one oauth_codes (fun c => ac_code_hash c ==? code_hash).
Definition revoke_oauth_authorization_code (id : str) (ts : Z) : atx unit :=
  _ ← update_codes (fun c => ac_id c ==? id) (stamp_code ts);
  mret tt.

(** ** Access and refresh tokens *)

Definition insert_access_row (r : OAuthAccessTokenRecord) : atx unit :=
  insert_row (fun db => negb (has_key at_id (oauth_access db) (at_id r))
                        && negb (has_key at_token_hash (oauth_access db) (at_token_hash r))
                        && client_exists db (at_client_id r) && user_ref db (at_user_id r))
    (fun db => db <| oauth_access := oauth_access db ++ [r] |>).
Definition insert_refresh_row (r : OAuthRefreshTokenRecord) : atx unit :=
  insert_row (fun db => negb (has_key rt_id (oauth_refresh db) (rt_id r))
                        && negb (has_key rt_token_hash (oauth_refresh db) (rt_token_hash r))
                        && client_exists db (rt_client_id r) && user_ref db (rt_user_id r))
    (fun db => db <| oauth_refresh := oauth_refresh db ++ [r] |>).

Definition insert_oauth_access_token (r : OAuthAccessTokenRecord) : atx unit :=
  _ ← lift (validate_oauth_access_token_subject r);
  insert_access_row r.
Definition get_oauth_access_token_by_hash (token_hash : str) : atx (option OAuthAccessTokenRecord) :=
  select_one oauth_access (fun t => (at_token_hash t ==? token_hash) && is_none (at_revoked_at t)).
Definition update_oauth_access_token_last_used (id : str) (ts : Z) : atx unit :=
  _ ← update_access (fun t => at_id t ==? id) (fun t => t <| at_last_used_at := Some ts |>);
  mret tt.
Definition revoke_oauth_access_token (id : str) (ts : Z) : atx unit :=
  _ ← update_access (fun t => at_id t ==? id) (stamp_access ts);
  mret tt.
Definition revoke_oauth_access_token_by_hash_for_client (token_hash client_id : str) (ts : Z) : atx bool :=
  updated ← update_access (fun t => (at_token_hash t ==? token_hash) && (at_client_id t ==? client_id)) (stamp_access ts);
  mret (Nat.ltb 0 updated).

Definition insert_oauth_refresh_token (r : OAuthRefreshTokenRecord) : atx unit :=
  _ ← lift (validate_oauth_refresh_token_subject r);
  insert_refresh_row r.
Definition get_oauth_refresh_token_by_hash (token_hash : str) : atx (option OAuthRefreshTokenRecord) :=
  select_one oauth_refresh (fun t => (rt_token_hash t ==? token_hash) && is_none (rt_revoked_at t)).
Definition update_oauth_refresh_token_last_used (id : str) (ts : Z) : atx unit :=
  _ ← update_refresh (fun t => rt_id t ==? id) (fun t => t <| rt_last_used_at := Some ts |>);
  mret tt.
Definition revoke_oauth_refresh_token (id : str) (ts : Z) : atx unit :=
  _ ← update_refresh (fun t => rt_id t ==? id) (stamp_refresh ts);
  mret tt.
Definition revoke_oauth_refresh_token_by_hash_for_client (token_hash client_id : str) (ts : Z) : atx bool :=
  updated ← update_refresh (fun t => (rt_token_hash t ==? token_hash) && (rt_client_id t ==? client_id)) (stamp_refresh ts);
  mret (Nat.ltb 0 updated).
Definition get_oauth_refresh_token_by_hash_for_rotate (token_hash : str) : atx (option OAuthRefreshTokenRecord) :=
  select_one oauth_refresh (fun t => rt_token_hash t ==? token_hash).

(** The checks [exchange] and [rotate] make on the pair of tokens they insert. *)
Definition validate_token_pair (a : OAuthAccessTokenRecord) (r : OAuthRefreshTokenRecord) : result unit StoreError :=
  check? validate_oauth_access_token_subject a ;;
  check? validate_oauth_refresh_token_subject r ;;
  validate_oauth_subjects_match (at_subject_kind a) (at_subject_id a) (rt_subject_kind r) (rt_subject_id r).

(** The transaction of [exchange_oauth_authorization_code_for_tokens]: [false] when the
    code cannot be taken. *)
Definition exchange_transaction (code_hash : str) (now : Z) (a : OAuthAccessTokenRecord) (r : OAuthRefreshTokenRecord)
  : atx bool :=
  _ ← lift (validate_token_pair a r);
  changed ← update_codes (redeemable code_hash now) (fun c => c <| ac_used_at := Some now |>);
  if Nat.eqb changed 0 then mret false
  else
    found ← select_one oauth_codes (fun c => ac_code_hash c ==? code_hash);
    code_record ← or_fail found (Invalid (lit "consumed OAuth authorization code disappeared"));
    _ ← lift (validate_oauth_authorization_code_subject code_record);
    _ ← lift (validate_oauth_subjects_match (ac_subject_kind code_record) (ac_subject_id code_record)
                (at_subject_kind a) (at_subject_id a));
    _ ← insert_access_row a;
    _ ← insert_refresh_row r;
    mret true.

Inductive RotateResult : Type :=
| Rotated (old : OAuthRefreshTokenRecord)
| RotateNotFound
| RotateRevoked
| RotateExpired
| RotateClientMismatch.

Definition rotate_oauth_refresh_token (refresh_token_hash client_id : str) (now : Z) (a : OAuthAccessTokenRecord)
  (r : OAuthRefreshTokenRecord) : atx RotateResult :=
  _ ← lift (validate_token_pair a r);
  found ← select_one oauth_refresh (fun t => rt_token_hash t ==? refresh_token_hash);
  match found with
  | None => mret RotateNotFound
  | Some old =>
      if is_some (rt_revoked_at old) then mret RotateRevoked
      else if Z.leb (rt_expires_at old) now then mret RotateExpired
      else if rt_client_id old !=? client_id then mret RotateClientMismatch
      else
        _ ← lift (validate_oauth_refresh_token_subject old);
        _ ← lift (validate_oauth_subjects_match (rt_subject_kind old) (rt_subject_id old)
                    (at_subject_kind a) (at_subject_id a));
        changed ← update_refresh
          (fun t => (rt_id t ==? rt_id old) && is_none (rt_revoked_at t) && Z.ltb now (rt_expires_at t))
          (fun t => t <| rt_revoked_at := Some now |> <| rt_last_used_at := Some now |>);
        if Nat.eqb changed 0 then mret RotateNotFound
        else
          _ ← insert_access_row a;
          _ ← insert_refresh_row r;
          mret (Rotated (old <| rt_revoked_at := Some now |> <| rt_last_used_at := Some now |>))
  end.

(** ** Authorize sessions (managed_authorize.rs) *)

Definition AUTHORIZE_SESSION_TTL_SECS : Z := 600.

(** [create_session]: expired sessions go, the new one is kept under the hash of its id. *)
Definition create_session (hash user_id : str) (now : Z) : atx unit :=
  modify (fun db => db <| authorize_sessions :=
    <[hash := mkSession user_id (as_i64 (now + AUTHORIZE_SESSION_TTL_SECS))]>
      (filter (fun kv => Z.ltb now (se_expires_at kv.2) = true) (authorize_sessions db)) |>).
(** [get_session] on the hash of a non-empty id. *)
Definition get_session (hash : str) (now : Z) : atx (option AuthorizeSession) :=
  session ← gets (fun db => authorize_sessions db !! hash);
  match session with
  | Some s =>
      if Z.ltb now (se_expires_at s) then mret (Some s)
      else _ ← modify (fun db => db <| authorize_sessions := delete hash (authorize_sessions db) |>); mret None
  | None => mret None
  end.

(** ** Purging (schema.rs) *)

Definition rows_delete {A : Type} (sel : A -> bool) (t : list A) : list A := List.filter (fun row => negb (sel row)) t.

Definition stale_code (now : Z) (c : OAuthAuthorizationCodeRecord) : bool :=
  Z.leb (ac_expires_at c) now || is_some (ac_used_at c) || is_some (ac_revoked_at c).
Definition stale_access (now : Z) (t : OAuthAccessTokenRecord) : bool :=
  Z.leb (at_expires_at t) now || is_some (at_revoked_at t).
Definition stale_refresh (now : Z) (t : OAuthRefreshTokenRecord) : bool :=
  Z.leb (rt_expires_at t) now || is_some (rt_revoked_at t).
Definition stale_pairing (now : Z) (p : PairingCodeRecord) : bool :=
  Z.leb (pc_expires_at p) now || is_some (pc_used_at p).
Definition stale_key (now : Z) (k : ApiKeyRow) : bool :=
  is_some (ak_revoked_at (kr_key k)) || is_some_and (fun e => Z.leb e now) (ak_expires_at (kr_key k)).
Definition stale_credential (c : AccountCredentialRow) : bool := is_some (cr_revoked_at (cw_credential c)).

(** [DELETE ... WHERE], with the number of rows it deleted. *)
Definition delete_rows {A : Type} (table : AuthDb -> list A) (store : list A -> AuthDb -> AuthDb) (sel : A -> bool) : atx nat :=
  n ← gets (fun db => rows_matched sel (table db));
  _ ← modify (fun db => store (rows_delete sel (table db)) db);
  mret n.

(** Run when the database is opened, before it is handed out. *)
Definition purge_stale_auth_rows (now : Z) : atx nat :=
  codes ← delete_rows oauth_codes (fun t db => db <| oauth_codes := t |>) (stale_code now);
  access ← delete_rows oauth_access (fun t db => db <| oauth_access := t |>) (stale_access now);
  refresh ← delete_rows oauth_refresh (fun t db => db <| oauth_refresh := t |>) (stale_refresh now);
  pairing ← delete_rows pairing_codes (fun t db => db <| pairing_codes := t |>) (stale_pairing now);
  keys ← delete_rows api_keys (fun t db => db <| api_keys := t |>) (stale_key now);
  credentials ← delete_rows account_credentials (fun t db => db <| account_credentials := t |>) stale_credential;
  mret (codes + access + refresh + pairing + keys + credentials).

(** * Requests as programs over the credential store

    The store's transactions as one signature ([AuthOp], indexed by what each replies)
    with their handler, and request handlers as programs ([prog]) that call them one at a
    time.  Between two calls of a request the calls of other requests may run: a system of
    requests is stepped by a schedule that says which request makes the next call. *)

Inductive AuthOp : Type -> Type :=
| GetUserByUsername (username : str) : AuthOp (option UserRecord)
| CreateUser (u : UserRecord) : AuthOp unit
| ListUsers : AuthOp (list UserRecord)
| GetUserById (id : str) : AuthOp (option UserRecord)
| SetUserDisabled (id : str) (disabled : bool) (ts : Z) : AuthOp unit
| GetApiKeyByHash (hash : str) : AuthOp (option ApiKeyRecord)
| InsertApiKey (k : ApiKeyRecord) (hash : str) : AuthOp unit
| ListApiKeys (user_id : str) : AuthOp (list ApiKeyRecord)
| ListAgentApiKeys (user_id : str) : AuthOp (list ApiKeyRecord)
| GetApiKeyById (id : str) : AuthOp (option ApiKeyRecord)
| RevokeApiKey (id : str) (ts : Z) : AuthOp unit
| TouchApiKey (id : str) (ts : Z) : AuthOp unit
| InsertCredential (c : AccountCredentialRecord) (hash : str) : AuthOp unit
| GetCredentialByHash (hash : str) : AuthOp (option AccountCredentialRecord)
| TouchCredential (id : str) (ts : Z) : AuthOp unit
| RevokeCredential (id : str) (ts : Z) : AuthOp unit
| GetCredentialById (id : str) : AuthOp (option AccountCredentialRecord)
| ListCredentials (user_id : str) : AuthOp (list AccountCredentialRecord)
| InsertPairing (p : PairingCodeRecord) : AuthOp unit
| GetPairing (hash : str) : AuthOp (option PairingCodeRecord)
| ConsumePairing (hash client_id : str) (now : Z) : AuthOp PairingConsumeResult
| InsertClient (c : OAuthClientRecord) : AuthOp unit
| GetClient (client_id : str) : AuthOp (option OAuthClientRecord)
| GetClientName (client_id : str) : AuthOp (option str)
| GetClientById (id : str) : AuthOp (option OAuthClientRecord)
| RevokeClientById (id : str) (ts : Z) : AuthOp unit
| ListClients : AuthOp (list OAuthClientRecord)
| UpdateClientScopes (client_id expected allowed : str) (ts : Z) : AuthOp (option (bool * nat * nat * nat))
| RevokeClient (client_id : str) (ts : Z) : AuthOp bool
| RevokeClientAccess (client_id : str) (ts : Z) : AuthOp nat
| RevokeClientRefresh (client_id : str) (ts : Z) : AuthOp nat
| RevokeClientCodes (client_id : str) (ts : Z) : AuthOp nat
| InsertCode (r : OAuthAuthorizationCodeRecord) (hash : str) : AuthOp unit
| GetCode (hash : str) : AuthOp (option OAuthAuthorizationCodeRecord)
| ConsumeCode (hash : str) (now : Z) : AuthOp nat
| GetCodeForConsume (hash : str) : AuthOp (option OAuthAuthorizationCodeRecord)
| RevokeCode (id : str) (ts : Z) : AuthOp unit
| ExchangeCode (hash : str) (now : Z) (a : OAuthAccessTokenRecord) (r : OAuthRefreshTokenRecord) : AuthOp bool
| InsertAccess (r : OAuthAccessTokenRecord) : AuthOp unit
| GetAccess (hash : str) : AuthOp (option OAuthAccessTokenRecord)
| TouchAccess (id : str) (ts : Z) : AuthOp unit
| RevokeAccess (id : str) (ts : Z) : AuthOp unit
| RevokeAccessByHash (hash client_id : str) (ts : Z) : AuthOp bool
| InsertRefresh (r : OAuthRefreshTokenRecord) : AuthOp unit
| GetRefresh (hash : str) : AuthOp (option OAuthRefreshTokenRecord)
| TouchRefresh (id : str) (ts : Z) : AuthOp unit
| RevokeRefresh (id : str) (ts : Z) : AuthOp unit
| RevokeRefreshByHash (hash client_id : str) (ts : Z) : AuthOp bool
| GetRefreshForRotate (hash : str) : AuthOp (option OAuthRefreshTokenRecord)
| RotateRefresh (hash client_id : str) (now : Z) (a : OAuthAccessTokenRecord) (r : OAuthRefreshTokenRecord) : AuthOp RotateResult
| CreateSession (hash user_id : str) (now : Z) : AuthOp unit
| GetSession (hash : str) (now : Z) : AuthOp (option AuthorizeSession).

Definition perform {A : Type} (op : AuthOp A) : atx A :=
  match op with
  | GetUserByUsername username => get_user_by_username username
  | CreateUser u => create_user u
  | ListUsers => list_users
  | GetUserById id => get_user_by_id id
  | SetUserDisabled id disabled ts => set_user_disabled_statement id disabled ts
  | GetApiKeyByHash hash => get_api_key_by_hash hash
  | InsertApiKey k hash => insert_api_key k hash
  | ListApiKeys user_id => list_api_keys_by_user user_id
  | ListAgentApiKeys user_id => list_agent_api_keys_by_user user_id
  | GetApiKeyById id => get_api_key_by_id id
  | RevokeApiKey id ts => revoke_api_key_statement id ts
  | TouchApiKey id ts => update_api_key_last_used id ts
  | InsertCredential c hash => insert_account_credential c hash
  | GetCredentialByHash hash => get_account_credential_by_hash hash
  | TouchCredential id ts => update_account_credential_last_used id ts
  | RevokeCredential id ts => revoke_account_credential_statement id ts
  | GetCredentialById id => get_account_credential_by_id id
  | ListCredentials user_id => list_account_credentials_by_user user_id
  | InsertPairing p => insert_pairing_code p
  | GetPairing hash => get_pairing_code_by_hash hash
  | ConsumePairing hash client_id now => consume_pairing_code hash client_id now
  | InsertClient c => insert_oauth_client c
  | GetClient client_id => get_oauth_client_by_client_id client_id
  | GetClientName client_id => get_oauth_client_name_by_client_id client_id
  | GetClientById id => get_oauth_client_by_id id
  | RevokeClientById id ts => revoke_oauth_client id ts
  | ListClients => list_oauth_clients
  | UpdateClientScopes client_id expected allowed ts => update_oauth_client_allowed_scopes_and_revoke_grants client_id expected allowed ts
  | RevokeClient client_id ts => revoke_oauth_client_by_client_id client_id ts
  | RevokeClientAccess client_id ts => revoke_oauth_access_tokens_for_client client_id ts
  | RevokeClientRefresh client_id ts => revoke_oauth_refresh_tokens_for_client client_id ts
  | RevokeClientCodes client_id ts => revoke_oauth_authorization_codes_for_client client_id ts
  | InsertCode r hash => insert_oauth_authorization_code r hash
  | GetCode hash => get_oauth_authorization_code_by_hash hash
  | ConsumeCode hash now => consume_code_statement hash now
  | GetCodeForConsume hash => get_oauth_authorization_code_by_hash_for_consume hash
  | RevokeCode id ts => revoke_oauth_authorization_code id ts
  | ExchangeCode hash now a r => exchange_transaction hash now a r
  | InsertAccess r => insert_oauth_access_token r
  | GetAccess hash => get_oauth_access_token_by_hash hash
  | TouchAccess id ts => update_oauth_access_token_last_used id ts
  | RevokeAccess id ts => revoke_oauth_access_token id ts
  | RevokeAccessByHash hash client_id ts => revoke_oauth_access_token_by_hash_for_client hash client_id ts
  | InsertRefresh r => insert_oauth_refresh_token r
  | GetRefresh hash => get_oauth_refresh_token_by_hash hash
  | TouchRefresh id ts => update_oauth_refresh_token_last_used id ts
  | RevokeRefresh id ts => revoke_oauth_refresh_token id ts
  | RevokeRefreshByHash hash client_id ts => revoke_oauth_refresh_token_by_hash_for_client hash client_id ts
  | GetRefreshForRotate hash => get_oauth_refresh_token_by_hash_for_rotate hash
  | RotateRefresh hash client_id now a r => rotate_oauth_refresh_token hash client_id now a r
  | CreateSession hash user_id now => create_session hash user_id now
  | GetSession hash now => get_session hash now
  end.

(** One call: it commits, or leaves the tables as they are. *)
Definition call {A : Type} (op : AuthOp A) (db : AuthDb) : AuthDb * result A StoreError := run_tx (perform op) db.

(** ** Programs *)

Inductive prog (A : Type) : Type :=
| Ret (a : A)
| Do {B : Type} (op : AuthOp B) (k : result B StoreError -> prog A).
Arguments Ret {A} a.
Arguments Do {A B} op k.

#[export] Instance prog_ret : MRet prog := @Ret.
#[export] Instance prog_bind : MBind prog := fun A B f =>
  fix bind (p : prog A) : prog B :=
    match p with
    | Ret a => f a
    | Do op k => Do op (fun r => bind (k r))
    end.

(** [op()] with its [Result]; [op()?]. *)
Definition ask {A : Type} (op : AuthOp A) : prog (result A StoreError) := Do op Ret.
Definition try_ask {A B : Type} (op : AuthOp A) (k : A -> prog (result B StoreError)) : prog (result B StoreError) :=
  Do op (fun r => match r with Ok a => k a | Err e => Ret (Err e) end).

(** A program run alone. *)
Fixpoint run_prog {A : Type} (p : prog A) (db : AuthDb) : AuthDb * A :=
  match p with
  | Ret a => (db, a)
  | Do op k => let '(db', r) := call op db in run_prog (k r) db'
  end.

(** ** The store's methods that take the lock twice *)

Definition set_user_disabled (id : str) (disabled : bool) (ts : Z) : prog (result (option UserRecord) StoreError) :=
  try_ask (SetUserDisabled id disabled ts) (fun _ => ask (GetUserById id)).
Definition revoke_api_key (id : str) (ts : Z) : prog (result (option ApiKeyRecord) StoreError) :=
  try_ask (RevokeApiKey id ts) (fun _ => ask (GetApiKeyById id)).
Definition revoke_account_credential (id : str) (ts : Z) : prog (result (option AccountCredentialRecord) StoreError) :=
  try_ask (RevokeCredential id ts) (fun _ => ask (GetCredentialById id)).
Definition consume_oauth_authorization_code_by_hash (code_hash : str) (now : Z)
  : prog (result (option OAuthAuthorizationCodeRecord) StoreError) :=
  try_ask (ConsumeCode code_hash now) (fun changed =>
    if Nat.eqb changed 0 then Ret (Ok None) else ask (GetCodeForConsume code_hash)).
Definition exchange_oauth_authorization_code_for_tokens (code_hash : str) (now : Z) (a : OAuthAccessTokenRecord)
  (r : OAuthRefreshTokenRecord) : prog (result (option OAuthAuthorizationCodeRecord) StoreError) :=
  try_ask (ExchangeCode code_hash now a r) (fun exchanged =>
    if exchanged then ask (GetCodeForConsume code_hash) else Ret (Ok None)).

(** ** Systems of requests *)

(** A call one request made and its answer. *)
Inductive Event : Type :=
| Called (request : nat) {A : Type} (op : AuthOp A) (r : result A StoreError).

Definition event_request (e : Event) : nat := match e with Called i _ _ => i end.

(** The store and the calls made on it so far. *)
Record World : Type := mkWorld {
  w_db : AuthDb;
  w_log : list Event
}.

(** A call of request [i]. *)
Definition w_call {A : Type} (i : nat) (op : AuthOp A) (w : World) : World * result A StoreError :=
  let '(db', r) := call op (w_db w) in (mkWorld db' (w_log w ++ [Called i op r]), r).

Record System (A : Type) : Type := mkSystem {
  y_world : World;
  y_requests : list (prog A)
}.
Arguments mkSystem {A} _ _.
Arguments y_world {A} _.
Arguments y_requests {A} _.

Definition start {A : Type} (db : AuthDb) (requests : list (prog A)) : System A := mkSystem (mkWorld db []) requests.

(** Request [i] makes its next call; nothing happens when it has finished. *)
Definition sys_step {A : Type} (s : System A) (i : nat) : System A :=
  match y_requests s !! i with
  | Some (Do op k) => let '(w', r) := w_call i op (y_world s) in mkSystem w' (<[i := k r]> (y_requests s))
  | _ => s
  end.

Definition run_schedule {A : Type} (s : System A) (schedule : list nat) : System A := fold_left sys_step schedule s.

(** What request [i] answered. *)
Definition answered {A : Type} (s : System A) (i : nat) (a : A) : Prop := y_requests s !! i = Some (Ret a).
