(* ===== verification/OAuthScopes.v ===== *)
(** * OAuthScopes: the scope registry and the scopes a client may be granted

    scope_registry.rs and the scope checks of clients.rs and project_share.rs: which
    scopes exist, which of the requested ones an authorization grants, and which ones a
    client may be registered with.  A [HashSet] of scopes is the list it is collected
    from, asked only for membership. *)
From S2P Require Import Prelude RustStr Policy Sql AuthModel.

(** ** Scopes (authority.rs) *)

Definition SCOPE_RUNTIME_READ : str := lit "runtime:read".
Definition SCOPE_RUNNER_MANAGE : str := lit "runner:manage".
Definition SCOPE_SESSION_COLLABORATE : str := lit "session:collaborate".
Definition SCOPE_PROJECT_READ : str := lit "project:read".
Definition SCOPE_PROJECT_WRITE : str := lit "project:write".
Definition SCOPE_MEMORY_READ : str := lit "memory:read".
Definition SCOPE_MEMORY_MANAGE : str := lit "memory:manage".
Definition SCOPE_COMMUNICATION_READ : str := lit "communication:read".
Definition SCOPE_COMMUNICATION_MANAGE : str := lit "communication:manage".
Definition SCOPE_JOB_RUN : str := lit "job:run".
Definition SCOPE_JOB_DETACH : str := lit "job:detach".
Definition SCOPE_COMPUTER_READ : str := lit "computer:read".
Definition SCOPE_COMPUTER_CONTROL : str := lit "computer:control".
Definition SCOPE_COMPUTER_LAUNCH : str := lit "computer:launch".
Definition SCOPE_COMPUTER_DISPLAY_READ : str := lit "computer:display_read".
Definition SCOPE_COMPUTER_POINTER_CONTROL : str := lit "computer:pointer_control".
Definition SCOPE_COMPUTER_CLIPBOARD_READ : str := lit "computer:clipboard_read".
Definition SCOPE_COMPUTER_CLIPBOARD_WRITE : str := lit "computer:clipboard_write".
Definition SCOPE_MCP_LOCAL : str := lit "mcp:local".
Definition SCOPE_PLUGIN_INSPECT : str := lit "plugin:inspect".
Definition SCOPE_PLUGIN_INVOKE : str := lit "plugin:invoke".
Definition SCOPE_PLUGIN_MANAGE : str := lit "plugin:manage".
Definition SCOPE_SSH_LOCAL : str := lit "ssh:local".
Definition SCOPE_CODING_AGENT_RUN : str := lit "coding_agent:run".
Definition SCOPE_ACCOUNT_MANAGE : str := lit "account:manage".

(** ** The registry (scope_registry.rs) *)

Definition OAUTH_SCOPES_SUPPORTED : list str :=
  [SCOPE_RUNTIME_READ; SCOPE_RUNNER_MANAGE; SCOPE_SESSION_COLLABORATE; SCOPE_COMMUNICATION_READ;
   SCOPE_COMMUNICATION_MANAGE; SCOPE_PROJECT_READ; SCOPE_PROJECT_WRITE; SCOPE_MEMORY_READ; SCOPE_MEMORY_MANAGE;
   SCOPE_JOB_RUN; SCOPE_JOB_DETACH; SCOPE_COMPUTER_READ; SCOPE_COMPUTER_CONTROL; SCOPE_COMPUTER_LAUNCH;
   SCOPE_COMPUTER_DISPLAY_READ; SCOPE_COMPUTER_POINTER_CONTROL; SCOPE_COMPUTER_CLIPBOARD_READ;
   SCOPE_COMPUTER_CLIPBOARD_WRITE; SCOPE_MCP_LOCAL; SCOPE_PLUGIN_INSPECT; SCOPE_PLUGIN_INVOKE; SCOPE_PLUGIN_MANAGE;
   SCOPE_SSH_LOCAL; SCOPE_CODING_AGENT_RUN; SCOPE_ACCOUNT_MANAGE].

Definition OAUTH_OFFLINE_ACCESS_SCOPE : str := lit "offline_access".

Definition oauth_discovery_scopes_supported : list str := OAUTH_SCOPES_SUPPORTED ++ [OAUTH_OFFLINE_ACCESS_SCOPE].

Inductive OAuthAuthorizeError : Type :=
| InvalidRequest (message : str)
| InvalidScope (message : str)
| UnsupportedResource.

#[export] Instance OAuthAuthorizeError_eq_dec : EqDecision OAuthAuthorizeError.
Proof. solve_decision. Defined.

Definition space : str := lit " ".

(** The loop over the requested scopes: the first one that may not be granted ends it. *)
Fixpoint check_requested (client_allowed scopes : list str) : result unit OAuthAuthorizeError :=
  match scopes with
  | [] => Ok tt
  | scope :: rest =>
      bail? (if one_of scope OAUTH_SCOPES_SUPPORTED then negb (one_of scope client_allowed)
             else scope !=? OAUTH_OFFLINE_ACCESS_SCOPE)
        with InvalidScope (lit "invalid scope") ;;
      check_requested client_allowed rest
  end.

Definition normalize_oauth_scopes (requested : option str) (client_allowed : str) : result str OAuthAuthorizeError :=
  let client_allowed := split_ascii_whitespace client_allowed in
  let requested_scopes := split_ascii_whitespace (unwrap_or [] requested) in
  let? normalized :=
    (if negb (is_empty requested_scopes) then
       check? check_requested client_allowed requested_scopes ;;
       Ok (List.filter (fun scope => one_of scope requested_scopes) OAUTH_SCOPES_SUPPORTED
           ++ (if one_of OAUTH_OFFLINE_ACCESS_SCOPE requested_scopes then [OAUTH_OFFLINE_ACCESS_SCOPE] else []))
     else Ok (List.filter (fun scope => one_of scope client_allowed) OAUTH_SCOPES_SUPPORTED)) in
  bail? is_empty normalized with InvalidScope (lit "empty scope") ;;
  Ok (join space normalized).

(** ** Scopes of registered clients (clients.rs) *)

Definition LEGACY_DEFAULT_CLIENT_ALLOWED_SCOPES : list str :=
  [lit "runtime:read"; lit "project:read"; lit "project:write"; lit "job:run"; lit "computer:read";
   lit "computer:control"; lit "account:manage"].

Definition normalize_client_allowed_scopes (input : option (list str)) : result (list str) str :=
  let provided := List.filter (fun s => negb (blank s)) (unwrap_or [] input) in
  if is_empty provided then Ok LEGACY_DEFAULT_CLIENT_ALLOWED_SCOPES
  else match find (fun scope => negb (one_of scope OAUTH_SCOPES_SUPPORTED)) provided with
       | Some scope => Err (lit "unknown scope '" ++ scope ++ lit "'")
       | None => Ok (List.filter (fun scope => one_of scope provided) OAUTH_SCOPES_SUPPORTED)
       end.

(** ** The ceiling of project shares (auth/project_share.rs, oauth_http/project_share.rs) *)

Definition PROJECT_SHARE_OAUTH_SCOPES : list str :=
  [SCOPE_RUNTIME_READ; SCOPE_SESSION_COLLABORATE; SCOPE_PROJECT_READ; SCOPE_PROJECT_WRITE; SCOPE_JOB_RUN].

Definition project_share_scopes_are_bounded (scopes : str) : bool :=
  forallb (fun scope => one_of scope PROJECT_SHARE_OAUTH_SCOPES || (scope ==? lit "offline_access"))
    (split_ascii_whitespace scopes).

Definition PROJECT_SHARE_OAUTH_INVALID_SCOPE_MESSAGE : str :=
  lit "project share tokens are limited to runtime:read, session:collaborate, project:read, project:write, job:run".

Definition normalize_project_share_oauth_scopes (requested : option str) (client_allowed : str)
  : result str OAuthAuthorizeError :=
  let? normalized := normalize_oauth_scopes requested client_allowed in
  bail? existsb (fun scope => (scope !=? OAUTH_OFFLINE_ACCESS_SCOPE) && negb (one_of scope PROJECT_SHARE_OAUTH_SCOPES))
          (split_ascii_whitespace normalized)
    with InvalidScope PROJECT_SHARE_OAUTH_INVALID_SCOPE_MESSAGE ;;
  Ok normalized.

(** ** Words *)

Lemma split_on_word (p : char -> bool) (w : str) : forallb (fun c => negb (p c)) w = true -> split_on p w = [w].
Proof.
  induction w as [|c w IH]; [done | ]. cbn. intros [Hc Hw]%andb_true_iff. apply negb_true_iff in Hc. by rewrite Hc, IH.
Qed.

(** A text a scope list is joined into: one word per scope. *)
Definition scope_word (w : str) : bool := negb (is_empty w) && forallb (fun c => negb (is_whitespace c)) w.

Lemma ascii_whitespace_sub (c : char) : is_ascii_whitespace c = true -> is_whitespace c = true.
Proof. unfold is_ascii_whitespace. rewrite !orb_true_iff, !N.eqb_eq. by intros [[[[-> | ->] | ->] | ->] | ->]. Qed.

Lemma scope_word_plain (p : char -> bool) (w : str) :
  (forall c, p c = true -> is_whitespace c = true) -> scope_word w = true ->
  is_empty w = false /\ split_on p w = [w].
Proof.
  unfold scope_word. intros Hp [Hne Hw]%andb_true_iff. split; [by apply negb_true_iff | ]. apply split_on_word.
  rewrite forallb_forall in *. intros c Hc. specialize (Hw c Hc). apply negb_true_iff in Hw. apply negb_true_iff.
  apply not_true_iff_false. intros Ht%Hp. congruence.
Qed.

(** Splitting what [join] made gives the words back. *)
Lemma words_join (p : char -> bool) (ws : list str) :
  p 32%N = true -> (forall c, p c = true -> is_whitespace c = true) -> forallb scope_word ws = true ->
  words p (join space ws) = ws.
Proof.
  intros H32 Hp. unfold words. induction ws as [|w ws IH]; [done | ]. cbn [forallb]. intros [Hw Hws]%andb_true_iff.
  destruct (scope_word_plain p w Hp Hw) as [Hne Hsp]. destruct ws as [|w2 ws].
  - cbn [join]. rewrite Hsp. cbn. by rewrite Hne.
  - change (join space (w :: w2 :: ws)) with (w ++ 32%N :: join space (w2 :: ws)).
    rewrite SensitivePaths.split_on_app by done. rewrite Hsp. cbn [app List.filter]. rewrite Hne. cbn [negb]. by rewrite IH.
Qed.

Lemma split_ascii_join (ws : list str) : forallb scope_word ws = true -> split_ascii_whitespace (join space ws) = ws.
Proof. apply words_join; [done | apply ascii_whitespace_sub]. Qed.
Lemma split_join (ws : list str) : forallb scope_word ws = true -> split_whitespace (join space ws) = ws.
Proof. by apply words_join. Qed.

(** ** What an authorization grants *)

(** The scopes of the result, in the order of the registry. *)
Definition granted (requested allowed : list str) : list str :=
  if is_empty requested then List.filter (fun scope => one_of scope allowed) OAUTH_SCOPES_SUPPORTED
  else List.filter (fun scope => one_of scope requested) oauth_discovery_scopes_supported.

(** What a request may name. *)
Definition grantable (allowed : list str) (scope : str) : Prop :=
  (scope ∈ OAUTH_SCOPES_SUPPORTED /\ scope ∈ allowed) \/ scope = OAUTH_OFFLINE_ACCESS_SCOPE.

Lemma registry_words : forallb scope_word oauth_discovery_scopes_supported = true.
Proof. by vm_compute. Qed.
Lemma registry_nodup : NoDup oauth_discovery_scopes_supported.
Proof. apply (bool_decide_unpack _). by vm_compute. Qed.
Lemma offline_unregistered : one_of OAUTH_OFFLINE_ACCESS_SCOPE OAUTH_SCOPES_SUPPORTED = false.
Proof. by vm_compute. Qed.

Lemma filter_words (p : str -> bool) (l : list str) : forallb scope_word l = true -> forallb scope_word (List.filter p l) = true.
Proof. rewrite !forallb_forall. intros H w [Hw _]%filter_In. auto. Qed.

Lemma granted_words (requested allowed : list str) : forallb scope_word (granted requested allowed) = true.
Proof.
  unfold granted. pose proof registry_words as H. destruct (is_empty requested); apply filter_words; [ | done].
  unfold oauth_discovery_scopes_supported in H. rewrite forallb_app in H. by apply andb_true_iff in H as [H _].
Qed.

Lemma check_requested_spec (allowed scopes : list str) :
  check_requested allowed scopes = Ok tt <-> Forall (grantable allowed) scopes.
Proof.
  induction scopes as [|s scopes IH]; cbn [check_requested]; [by split; [constructor | ] | ].
  rewrite Forall_cons. unfold grantable at 1. destruct (one_of s OAUTH_SCOPES_SUPPORTED) eqn:Er.
  - destruct (one_of s allowed) eqn:Ea; cbn [negb].
    + rewrite IH. apply one_of_spec in Er, Ea. naive_solver.
    + split; [done | ]. intros [[[_ Ha%one_of_spec] | ->] _]; [congruence | ]. by rewrite offline_unregistered in Er.
  - destruct (beq s OAUTH_OFFLINE_ACCESS_SCOPE) eqn:Eo; cbn [negb].
    + apply beq_true in Eo. rewrite IH. naive_solver.
    + split; [done | ]. apply beq_false in Eo. intros [[[Hr%one_of_spec _] | ->] _]; congruence.
Qed.

Lemma check_requested_unit (allowed scopes : list str) :
  check_requested allowed scopes = Ok tt \/ check_requested allowed scopes = Err (InvalidScope (lit "invalid scope")).
Proof. induction scopes as [|s scopes IH]; cbn [check_requested]; [by left | ]. destruct (if one_of s _ then _ else _); auto. Qed.

(** The text is the granted scopes joined, when the request names only what it may. *)
Lemma normalize_granted (requested : option str) (client_allowed : str) :
  let asked := split_ascii_whitespace (unwrap_or [] requested) in
  let allowed := split_ascii_whitespace client_allowed in
  normalize_oauth_scopes requested client_allowed
  = (check? check_requested allowed asked ;;
     bail? is_empty (granted asked allowed) with InvalidScope (lit "empty scope") ;;
     Ok (join space (granted asked allowed))).
Proof.
  unfold normalize_oauth_scopes, granted, oauth_discovery_scopes_supported. cbv zeta.
  generalize (split_ascii_whitespace (unwrap_or [] requested)), (split_ascii_whitespace client_allowed).
  intros [|a asked] allowed; cbn [is_empty negb check_requested result_bind]; [reflexivity | ].
  rewrite List.filter_app. cbn [List.filter]. match goal with |- context [if ?b then Err _ else _] => destruct b end; [reflexivity | ].
  destruct (check_requested allowed asked) as [[]|]; cbn [result_bind]; reflexivity.
Qed.

(** Every scope of a grant is one a request may name. *)
Lemma granted_elem (asked allowed : list str) (scope : str) :
  Forall (grantable allowed) asked ->
  scope ∈ granted asked allowed
  <-> (scope ∈ OAUTH_SCOPES_SUPPORTED /\ scope ∈ allowed /\ (asked = [] \/ scope ∈ asked))
      \/ (scope = OAUTH_OFFLINE_ACCESS_SCOPE /\ scope ∈ asked).
Proof.
  intros Hf. unfold granted, oauth_discovery_scopes_supported. destruct asked as [|a asked]; cbn [is_empty].
  - rewrite list_elem_of_In, filter_In, <- list_elem_of_In, one_of_spec. split; [naive_solver | ].
    intros [(? & ? & _) | [_ H%not_elem_of_nil]]; done.
  - set (l := a :: asked) in *. rewrite list_elem_of_In, filter_In, <- list_elem_of_In, one_of_spec, elem_of_app, list_elem_of_singleton.
    rewrite Forall_forall in Hf. split.
    + intros [[Hr | ->] Hl]; [left | by right]. split; [done | ]. split; [ | by right].
      destruct (Hf scope Hl) as [[_ Ha] | ->]; [done | ]. apply one_of_spec in Hr. by rewrite offline_unregistered in Hr.
    + intros [(Hr & Ha & [? | Hl]) | [-> Hl]]; [done | by split; [left | ] | by split; [right | ]].
Qed.

Lemma granted_sublist (asked allowed : list str) : sublist (granted asked allowed) oauth_discovery_scopes_supported.
Proof.
  assert (Hs : forall (p : str -> bool) l, sublist (List.filter p l) l).
  { intros p. induction l as [|x l IH]; cbn; [constructor | ]. destruct (p x); by constructor. }
  unfold granted. destruct (is_empty asked); [ | apply Hs]. unfold oauth_discovery_scopes_supported.
  transitivity OAUTH_SCOPES_SUPPORTED; [apply Hs | apply sublist_inserts_r; reflexivity].
Qed.

(** Asking for what was granted grants it again. *)
Lemma granted_again (asked allowed : list str) :
  Forall (grantable allowed) asked -> granted asked allowed <> [] ->
  Forall (grantable allowed) (granted asked allowed) /\ granted (granted asked allowed) allowed = granted asked allowed.
Proof.
  intros Hf Hne. split.
  - rewrite Forall_forall. intros s [(Hr & Ha & _) | [-> _]]%granted_elem; [by left | by right | done].
  - unfold granted at 1. destruct (granted asked allowed) as [|g l] eqn:E; [done | ]. cbn [is_empty].
    rewrite <- E. unfold granted. destruct (is_empty asked).
    + unfold oauth_discovery_scopes_supported. rewrite List.filter_app.
      rewrite (filter_ext_in _ (fun scope => one_of scope allowed)).
      * cbn [List.filter]. replace (one_of OAUTH_OFFLINE_ACCESS_SCOPE _) with false; [by rewrite app_nil_r | ].
        symmetry. apply not_true_iff_false. rewrite one_of_spec, list_elem_of_In, filter_In, <- list_elem_of_In.
        intros [Hr%one_of_spec _]. by rewrite offline_unregistered in Hr.
      * intros s Hs. apply eq_iff_eq_true. rewrite !one_of_spec, list_elem_of_In, filter_In, one_of_spec. naive_solver.
    + apply filter_ext_in. intros s Hs. apply eq_iff_eq_true. rewrite !one_of_spec, list_elem_of_In, filter_In, one_of_spec.
      naive_solver.
Qed.

(** A grant's text is its words joined, and they are registered. *)
Lemma normalize_words (requested : option str) (client_allowed text : str) :
  normalize_oauth_scopes requested client_allowed = Ok text ->
  forallb scope_word (split_whitespace text) = true /\ sublist (split_whitespace text) oauth_discovery_scopes_supported.
Proof.
  rewrite normalize_granted. cbv zeta.
  destruct (check_requested _ _); cbn [result_bind]; [ | done]. destruct (is_empty (granted _ _)); [done | ]. intros [= <-].
  rewrite split_join by apply granted_words. split; [apply granted_words | apply granted_sublist].
Qed.

(** And allowed to the client, apart from [offline_access]. *)
Lemma normalize_allowed (requested : option str) (client_allowed text scope : str) :
  normalize_oauth_scopes requested client_allowed = Ok text -> scope ∈ split_whitespace text ->
  scope = OAUTH_OFFLINE_ACCESS_SCOPE \/ scope ∈ split_ascii_whitespace client_allowed.
Proof.
  rewrite normalize_granted. cbv zeta. destruct (check_requested_unit (split_ascii_whitespace client_allowed)
    (split_ascii_whitespace (unwrap_or [] requested))) as [Hc | Hc]; rewrite Hc; cbn [result_bind]; [ | done].
  destruct (is_empty (granted _ _)); [done | ]. intros [= <-]. rewrite split_join by apply granted_words.
  apply check_requested_spec in Hc. rewrite granted_elem by done. naive_solver.
Qed.

(** An authorization grants exactly the scopes the request names, or all the client
    may have when it names none.  The text is produced when every scope asked for is
    registered and allowed to the client, or is [offline_access], and something is left to
    grant; its words are then distinct, in the order of the registry, each granted scope
    is one of the client's (or [offline_access], when asked for), and asking again for
    what was granted yields the same text. *)
Lemma scopes_normalized (requested : option str) (client_allowed : str) :
  let asked := split_ascii_whitespace (unwrap_or [] requested) in
  let allowed := split_ascii_whitespace client_allowed in
  match normalize_oauth_scopes requested client_allowed with
  | Ok text =>
      Forall (grantable allowed) asked
      /\ split_whitespace text = split_ascii_whitespace text
      /\ NoDup (split_whitespace text)
      /\ sublist (split_whitespace text) oauth_discovery_scopes_supported
      /\ (forall scope, scope ∈ split_whitespace text
            <-> (scope ∈ OAUTH_SCOPES_SUPPORTED /\ scope ∈ allowed /\ (asked = [] \/ scope ∈ asked))
                \/ (scope = OAUTH_OFFLINE_ACCESS_SCOPE /\ scope ∈ asked))
      /\ normalize_oauth_scopes (Some text) client_allowed = Ok text
  | Err e =>
      (e = InvalidScope (lit "invalid scope") /\ ~ Forall (grantable allowed) asked)
      \/ (e = InvalidScope (lit "empty scope") /\ asked = []
          /\ forall scope, scope ∈ OAUTH_SCOPES_SUPPORTED -> scope ∉ allowed)
  end.
Proof.
  intros asked allowed. rewrite normalize_granted. fold asked allowed.
  destruct (check_requested_unit allowed asked) as [Hc | Hc]; rewrite Hc; cbn [result_bind].
  - apply check_requested_spec in Hc. destruct (granted asked allowed) as [|g l] eqn:Eg; cbn [is_empty]; [right | ].
    + assert (Hno : forall scope, scope ∉ granted asked allowed) by (rewrite Eg; set_solver).
      assert (Hasked : asked = []).
      { destruct asked as [|a asked']; [done | ]. destruct (Hno a). apply granted_elem; [done | ].
        apply Forall_cons in Hc as [[[Hr Ha] | ->] _]; [left; split_and!; [done | done | right; set_solver] | right; set_solver]. }
      split; [done | ]. split; [done | ]. intros scope Hr Ha. apply (Hno scope), granted_elem; [done | ]. auto.
    + assert (Hne : granted asked allowed <> []) by congruence. rewrite <- Eg.
      pose proof (granted_words asked allowed) as Hw. rewrite split_join, split_ascii_join by done.
      destruct (granted_again asked allowed Hc Hne) as [Hg1 Hg2]. split_and!; [done | done | | apply granted_sublist | | ].
      * apply (sublist_NoDup _ _ registry_nodup), granted_sublist.
      * intros scope. by apply granted_elem.
      * rewrite normalize_granted. cbn [unwrap_or]. rewrite split_ascii_join by done. fold allowed.
        apply check_requested_spec in Hg1. rewrite Hg1. cbn [result_bind]. rewrite Hg2, Eg. done.
  - left. split; [done | ]. intros Hf%check_requested_spec. congruence.
Qed.
