(* ===== verification/OAuthHttp.v ===== *)
(** * OAuthHttp: token, revocation and verification endpoints

    token.rs, revoke.rs and auth/tokens.rs: the handlers as programs over the credential
    store.  Requests come as the handlers see them (headers, payload); clock readings and
    generated secrets are arguments.  SHA-256, Base64, URL and form parsing are the
    parameters of [AuthEnv]. *)
From S2P Require Import Prelude RustStr Policy Sql AuthModel AuthStore OAuthScopes.

(** ** What the handlers take from other crates *)

(** The parts of a [url::Url] the handlers read. *)
Record Url : Type := mkUrl {
  url_scheme : str;
  url_username : str;
  url_password : option str;
  url_host_str : option str;
  url_port : option Z;
  url_path : str;
  url_query : option str;
  url_fragment : option str
}.

Record TokenRequest : Type := mkTokenRequest {
  tq_grant_type : option str;
  tq_code : option str;
  tq_redirect_uri : option str;
  tq_client_id : option str;
  tq_client_secret : option str;
  tq_code_verifier : option str;
  tq_refresh_token : option str;
  tq_scope : option str;
  tq_resource : option str
}.

Record RevokeRequest : Type := mkRevokeRequest {
  vq_token : option str;
  vq_token_type_hint : option str;
  vq_client_id : option str;
  vq_client_secret : option str
}.

Class AuthEnv : Type := {
  (** [Sha256::digest] *)
  sha256 : list N -> list N;
  (** [URL_SAFE_NO_PAD.encode] *)
  base64_url_no_pad : list N -> str;
  (** [url::Url::parse] *)
  url_parse : str -> option Url;
  (** [Url::parse(uri)?], then [query_pairs_mut().append_pair] for each pair *)
  url_with_pairs : str -> list (str * str) -> option str;
  (** [form_urlencoded::parse] and [form_urlencoded::Serializer] *)
  form_pairs : list N -> list (str * str);
  form_serialize : list (str * str) -> str;
  (** [serde_urlencoded::from_bytes] *)
  token_form : list N -> result TokenRequest str;
  revoke_form : list N -> result RevokeRequest str;
  (** whether [HeaderValue::from_str] accepts a text *)
  header_value : str -> bool
}.

(** ** Configuration (config.rs) *)

Record Config : Type := mkConfig {
  cf_token : option str;
  cf_issuer : option str;
  cf_enabled : bool;
  cf_access_token_ttl_secs : Z;
  cf_refresh_token_ttl_secs : Z;
  cf_authorization_code_ttl_secs : Z;
  cf_require_pkce : bool;
  cf_shared_key_bridge_enabled : bool;
  cf_project_share_grant_id : option str;
  cf_project_share_session_id : option str
}.

(** Byte comparison that reads every byte of the longer text. *)
Definition constant_time_eq (a b : list N) : bool :=
  let max_len := Nat.max (length a) (length b) in
  N.eqb (fold_left (fun diff i => N.lor diff (N.lxor (nth i a 0%N) (nth i b 0%N))) (seq 0 max_len)
           (N.lxor (N.of_nat (length a)) (N.of_nat (length b)))) 0.

Definition is_auth_enabled (config : Config) : bool := is_some (cf_token config).
Definition validate_token (config : Config) (token : str) : bool :=
  is_some_and (fun t => constant_time_eq (as_bytes t) (as_bytes token)) (cf_token config).

Definition configured_project_share_subject (config : Config) : result (option str) str :=
  match cf_project_share_grant_id config, cf_project_share_session_id config with
  | None, None => Ok None
  | Some grant_id, Some session_id =>
      let? subject := Authority.project_share_subject_id grant_id session_id in Ok (Some subject)
  | _, _ => Err (lit "project-share OAuth configuration is incomplete")
  end.

Definition validate_project_share_grant_subject (config : Config) (subject_kind subject_id : str) : result unit str :=
  if subject_kind !=? Authority.PROJECT_SHARE_OAUTH_SUBJECT_KIND then Ok tt
  else
    let? configured := configured_project_share_subject config in
    let? expected := ok_or configured (lit "project-share OAuth session is not active") in
    bail? expected !=? subject_id with lit "project-share OAuth session is no longer active" ;;
    Ok tt.

(** ** Tokens (auth/pat.rs) *)

Definition hex_digit (n : N) : char := if (n <? 10)%N then (48 + n)%N else (87 + n)%N.
Definition to_hex (bytes : list N) : str := flat_map (fun b => [hex_digit (b / 16)%N; hex_digit (b mod 16)%N]) bytes.

(** The generated tokens: a fixed prefix and 64 random hexadecimal digits. *)
Definition generate_oauth_client_id (random : str) : str := lit "wc_client_" ++ random.
Definition generate_oauth_client_secret (random : str) : str := lit "wc_csec_" ++ random.
Definition generate_oauth_authorization_code (random : str) : str := lit "wc_oac_" ++ random.
Definition generate_oauth_access_token (random : str) : str := lit "wc_oat_" ++ random.
Definition generate_oauth_refresh_token (random : str) : str := lit "wc_ort_" ++ random.

(** ** Requests and responses *)

Record HttpRequest : Type := mkHttpRequest {
  hq_content_type : option str;
  hq_content_length : option str;
  hq_payload : result (list N) str
}.

Inductive Response : Type :=
| OAuthErrorBody (status : Z) (error description : str)
| ErrorBody (status : Z) (error : str)
| TokenBody (access_token : str) (expires_in : Z) (refresh_token : str) (scope : option str)
| EmptyBody
| Redirect (location : str)
| LoginPage (status : Z) (return_to : str) (error : option str)
| SignedIn (session_id location : str)
| ConsentPage (client : OAuthClientRecord) (redirect_uri : str) (scopes : list str) (resource : option str)
| ProjectPage (status : Z) (error : option str)
| BridgePage (status : Z) (error : option str)
| ClientCreated (client : OAuthClientRecord) (client_secret : str)
| ClientList (clients : list OAuthClientRecord)
| ClientScopes (changed : bool) (access_tokens refresh_tokens authorization_codes : nat)
| ClientRevoked
| ClientReused (client_id allowed_scopes : str) (scope_ceiling_changed : bool)
| Credential (verdict : result (option AuthContext) unit)
| Panic.

Definition BAD_REQUEST : Z := 400.
Definition UNAUTHORIZED : Z := 401.
Definition FORBIDDEN : Z := 403.
Definition NOT_FOUND : Z := 404.
Definition CONFLICT : Z := 409.
Definition PAYLOAD_TOO_LARGE : Z := 413.
Definition UNSUPPORTED_MEDIA_TYPE : Z := 415.
Definition INTERNAL_SERVER_ERROR : Z := 500.
Definition SERVICE_UNAVAILABLE : Z := 503.

Definition invalid_grant (description : str) : Response := OAuthErrorBody BAD_REQUEST (lit "invalid_grant") description.
Definition invalid_request (description : str) : Response := OAuthErrorBody BAD_REQUEST (lit "invalid_request") description.
Definition invalid_client (description : str) : Response := OAuthErrorBody UNAUTHORIZED (lit "invalid_client") description.
Definition server_error (description : str) : Response := OAuthErrorBody INTERNAL_SERVER_ERROR (lit "server_error") description.

Notation "'stop!' b 'with' e ;; k" := (if b then Ret e else k)
  (at level 10, b at level 99, e at level 99, k at level 200) : rust_scope.
Notation "'need!' x := o 'else' e ;; k" := (match o with Some x => k | None => Ret e end)
  (at level 10, x name, o at level 99, e at level 99, k at level 200) : rust_scope.
Notation "'call!' x := op ;; k" := (Do op (fun x => k))
  (at level 10, x name, op at level 99, k at level 200) : rust_scope.

(** [Some(v) if !v.is_empty()] *)
Definition nonempty (o : option str) : option str := opt_filter (fun s => negb (is_empty s)) o.

(** [str::parse::<usize>] *)
Definition digits_value (s : str) : N := fold_left (fun acc c => (acc * 10 + (c - 48))%N) s 0%N.
Definition parse_usize (s : str) : option Z :=
  let digits := match s with c :: rest => if N.eqb c 43 then rest else s | [] => [] end in
  if is_empty digits || negb (forallb is_ascii_digit digits) then None
  else let v := Z.of_N (digits_value digits) in if Z.leb v USIZE_MAX then Some v else None.

Definition MAX_OAUTH_TOKEN_FORM_BYTES : Z := 16 * 1024.
Definition FORM_TYPE : str := lit "application/x-www-form-urlencoded".

(** The checks both form endpoints make before they read their parameters: the
    configuration and the body's bytes. *)
Definition form_body (config : option Config) (req : HttpRequest) : result (Config * list N) Response :=
  let? config := ok_or config (server_error (lit "no config")) in
  bail? negb (cf_enabled config)
    with OAuthErrorBody SERVICE_UNAVAILABLE (lit "server_error") (lit "OAuth2 is not enabled") ;;
  bail? negb (is_some_and (fun ct => (to_ascii_lowercase ct ==? FORM_TYPE)
                                     || starts_with (FORM_TYPE ++ lit ";") (to_ascii_lowercase ct)) (hq_content_type req))
    with OAuthErrorBody UNSUPPORTED_MEDIA_TYPE (lit "invalid_request")
           (lit "content-type must be application/x-www-form-urlencoded") ;;
  bail? is_some_and (fun len => Z.ltb MAX_OAUTH_TOKEN_FORM_BYTES len) (hq_content_length req ≫= parse_usize)
    with OAuthErrorBody PAYLOAD_TOO_LARGE (lit "invalid_request") (lit "request body too large") ;;
  let? body := map_err (fun e => invalid_request (lit "failed to read request body: " ++ e)) (hq_payload req) in
  bail? Z.ltb MAX_OAUTH_TOKEN_FORM_BYTES (Z.of_nat (length body))
    with OAuthErrorBody PAYLOAD_TOO_LARGE (lit "invalid_request") (lit "request body too large") ;;
  Ok (config, body).

Section Endpoints.
Context `{AuthEnv}.

Definition hash_token (token : str) : str := to_hex (sha256 (as_bytes token)).

(** ** Client authentication (auth/mod.rs) *)

Definition verify_oauth_client_secret (client_id plaintext_secret : str) : prog (result bool StoreError) :=
  try_ask (GetClient client_id) (fun client =>
    match client with
    | None => Ret (Ok false)
    | Some client =>
        Ret (Ok (constant_time_eq (as_bytes (hash_token plaintext_secret)) (as_bytes (oc_client_secret_hash client))))
    end).

(** ** Resource indicators (managed_authorize.rs) *)

Fixpoint drop_slashes (s : str) : str :=
  match s with
  | c :: rest => if N.eqb c 47 then drop_slashes rest else s
  | [] => []
  end.

Definition normalize_oauth_resource_indicator (resource : str) : result str OAuthAuthorizeError :=
  let resource := trim resource in
  bail? is_empty resource with UnsupportedResource ;;
  let? parsed := ok_or (url_parse resource) UnsupportedResource in
  bail? negb (one_of (url_scheme parsed) [lit "http"; lit "https"]) with UnsupportedResource ;;
  bail? is_none (url_host_str parsed) || negb (is_empty (url_username parsed)) || is_some (url_password parsed)
        || is_some (url_query parsed) || is_some (url_fragment parsed)
    with UnsupportedResource ;;
  let? host := ok_or (url_host_str parsed) UnsupportedResource in
  let port := match url_port parsed with Some p => lit ":" ++ fmt_Z p | None => [] end in
  let path := if url_path parsed ==? lit "/" then [] else rev (drop_slashes (rev (url_path parsed))) in
  Ok (url_scheme parsed ++ lit "://" ++ host ++ port ++ path).

Definition allowed_oauth_resource_indicators (config : Config) : list str :=
  match cf_issuer config with
  | None => []
  | Some base =>
      match normalize_oauth_resource_indicator base with
      | Ok base => [base; base ++ lit "/mcp"]
      | Err _ => []
      end
  end.

Definition validate_authorize_resource (resource : option str) (config : Config)
  : result (option str) OAuthAuthorizeError :=
  match resource with
  | None => Ok None
  | Some resource =>
      let? normalized := normalize_oauth_resource_indicator resource in
      if one_of normalized (allowed_oauth_resource_indicators config) then Ok (Some normalized)
      else Err UnsupportedResource
  end.

(** ** The token endpoint (token.rs) *)

Definition verify_pkce_s256 (verifier challenge : str) : bool :=
  constant_time_eq (as_bytes (base64_url_no_pad (sha256 (as_bytes verifier)))) (as_bytes challenge).

Definition resolve_token_resource (config : Config) (requested authorized : option str) : result (option str) unit :=
  match requested with
  | None => Ok authorized
  | Some requested =>
      let? normalized := map_err (fun _ => tt) (validate_authorize_resource (Some requested) config) in
      bail? is_some_and (fun authorized => normalized !=? Some authorized) authorized with tt ;;
      Ok normalized
  end.

(** What a token request generates. *)
Record TokenGen : Type := mkTokenGen {
  tg_access_random : str;
  tg_refresh_random : str;
  tg_access_id : str;
  tg_refresh_id : str
}.

(** A project-share grant belongs to the client that owns the project grant. *)
Definition share_owner_matches (client : OAuthClientRecord) (subject_id : str) : bool :=
  match Authority.parse_project_share_subject_id subject_id with
  | Ok (grant_id, _) => is_project_grant_owned client && (oc_owner_project_grant_id client ==? Some grant_id)
  | Err _ => false
  end.

(** [let _ = db.consume...; oauth_error(...); return] *)
Definition burn_code (code_hash : str) (now : Z) (response : Response) : prog Response :=
  consume_oauth_authorization_code_by_hash code_hash now ≫= fun _ => Ret response.

(** The PKCE check of the token endpoint: what to answer when it fails. *)
Definition pkce_error (config : Config) (code : OAuthAuthorizationCodeRecord) (code_verifier : option str)
  : option Response :=
  match ac_code_challenge code with
  | Some challenge =>
      match nonempty code_verifier with
      | None => Some (invalid_grant (lit "missing code_verifier for PKCE"))
      | Some verifier =>
          if ac_code_challenge_method code !=? Some (lit "S256")
          then Some (invalid_grant (lit "unsupported code_challenge_method; only S256 is supported"))
          else if verify_pkce_s256 verifier challenge then None
          else Some (invalid_grant (lit "PKCE verification failed"))
      end
  | None =>
      if cf_require_pkce config
      then Some (invalid_grant (lit "PKCE is required but no code_challenge was provided during authorization"))
      else None
  end.

Definition token_body (config : Config) (access refresh scopes : str) : Response :=
  TokenBody access (cf_access_token_ttl_secs config) refresh (if is_empty scopes then None else Some scopes).

Definition handle_authorization_code_grant (config : Config) (client : OAuthClientRecord) (form : TokenRequest)
  (now : Z) (g : TokenGen) : prog Response :=
  need! plaintext_code := nonempty (tq_code form) else invalid_request (lit "missing code") ;;
  need! redirect_uri := nonempty (tq_redirect_uri form) else invalid_request (lit "missing redirect_uri") ;;
  let code_hash := hash_token plaintext_code in
  call! looked_up := GetCode code_hash ;;
  match looked_up with
  | Err _ => Ret (server_error (lit "internal error"))
  | Ok None => Ret (invalid_grant (lit "authorization code is invalid, expired, or already used"))
  | Ok (Some code_record) =>
      if negb (is_ok (validate_project_share_grant_subject config (ac_subject_kind code_record) (ac_subject_id code_record)))
      then burn_code code_hash now (invalid_grant (lit "authorization grant is no longer active"))
      else if (ac_subject_kind code_record ==? Authority.PROJECT_SHARE_OAUTH_SUBJECT_KIND)
              && negb (share_owner_matches client (ac_subject_id code_record))
      then burn_code code_hash now (invalid_grant (lit "authorization grant does not belong to this client"))
      else if ac_client_id code_record !=? oc_client_id client
      then burn_code code_hash now (invalid_grant (lit "authorization code was not issued to this client"))
      else if ac_redirect_uri code_record !=? redirect_uri
      then burn_code code_hash now (invalid_grant (lit "redirect_uri does not match"))
      else match pkce_error config code_record (tq_code_verifier form) with
      | Some response => burn_code code_hash now response
      | None =>
          match resolve_token_resource config (tq_resource form) (ac_resource code_record) with
          | Err _ => burn_code code_hash now
                       (OAuthErrorBody BAD_REQUEST (lit "invalid_target") (lit "resource does not match authorization grant"))
          | Ok token_resource =>
              let access_token := generate_oauth_access_token (tg_access_random g) in
              let refresh_token := generate_oauth_refresh_token (tg_refresh_random g) in
              let at_record := mkAccess (tg_access_id g) (hash_token access_token) (oc_client_id client)
                (ac_subject_kind code_record) (ac_subject_id code_record) (ac_user_id code_record) (ac_scopes code_record)
                token_resource (ac_shared_key_hash code_record) now (as_i64 (now + cf_access_token_ttl_secs config)) None None in
              let rt_record := mkRefresh (tg_refresh_id g) (hash_token refresh_token) (oc_client_id client)
                (ac_subject_kind code_record) (ac_subject_id code_record) (ac_user_id code_record) (ac_scopes code_record)
                token_resource (ac_shared_key_hash code_record) now (as_i64 (now + cf_refresh_token_ttl_secs config))
                None None None in
              exchanged ← exchange_oauth_authorization_code_for_tokens code_hash now at_record rt_record;
              Ret match exchanged with
                  | Ok (Some code_record) => token_body config access_token refresh_token (ac_scopes code_record)
                  | Ok None => invalid_grant (lit "authorization code is invalid, expired, or already used")
                  | Err _ => server_error (lit "internal error")
                  end
          end
      end
  end.

Definition handle_refresh_token_grant (config : Config) (client : OAuthClientRecord) (form : TokenRequest)
  (now : Z) (g : TokenGen) : prog Response :=
  need! plaintext_rt := nonempty (tq_refresh_token form) else invalid_request (lit "missing refresh_token") ;;
  let rt_hash := hash_token plaintext_rt in
  let new_access_token := generate_oauth_access_token (tg_access_random g) in
  let new_refresh_token := generate_oauth_refresh_token (tg_refresh_random g) in
  call! looked_up := GetRefresh rt_hash ;;
  match looked_up with
  | Err _ => Ret (server_error (lit "internal error"))
  | Ok None =>
      call! full := GetRefreshForRotate rt_hash ;;
      Ret match full with
          | Ok (Some rt) =>
              if is_some (rt_revoked_at rt) then invalid_grant (lit "refresh token has been revoked")
              else if rt_is_expired rt now then invalid_grant (lit "refresh token has expired")
              else invalid_grant (lit "refresh token client_id mismatch")
          | _ => invalid_grant (lit "refresh token is invalid")
          end
  | Ok (Some old) =>
      stop! negb (is_ok (validate_project_share_grant_subject config (rt_subject_kind old) (rt_subject_id old)))
        with invalid_grant (lit "refresh token is no longer active") ;;
      stop! (rt_subject_kind old ==? Authority.PROJECT_SHARE_OAUTH_SUBJECT_KIND)
            && negb (share_owner_matches client (rt_subject_id old))
        with invalid_grant (lit "refresh token does not belong to this client") ;;
      match resolve_token_resource config (tq_resource form) (rt_resource old) with
      | Err _ => Ret (OAuthErrorBody BAD_REQUEST (lit "invalid_target") (lit "resource does not match refresh token"))
      | Ok token_resource =>
          let at_record := mkAccess (tg_access_id g) (hash_token new_access_token) (oc_client_id client)
            (rt_subject_kind old) (rt_subject_id old) (rt_user_id old) (rt_scopes old)
            token_resource (rt_shared_key_hash old) now (as_i64 (now + cf_access_token_ttl_secs config)) None None in
          let new_rt_record := mkRefresh (tg_refresh_id g) (hash_token new_refresh_token) (oc_client_id client)
            (rt_subject_kind old) (rt_subject_id old) (rt_user_id old) (rt_scopes old)
            token_resource (rt_shared_key_hash old) now (as_i64 (now + cf_refresh_token_ttl_secs config))
            None None (Some (rt_id old)) in
          call! rotated := RotateRefresh rt_hash (oc_client_id client) now at_record new_rt_record ;;
          Ret match rotated with
              | Ok (Rotated old_rt) => token_body config new_access_token new_refresh_token (rt_scopes old_rt)
              | Ok RotateNotFound => invalid_grant (lit "refresh token is invalid")
              | Ok RotateRevoked => invalid_grant (lit "refresh token has been revoked")
              | Ok RotateExpired => invalid_grant (lit "refresh token has expired")
              | Ok RotateClientMismatch => invalid_grant (lit "refresh token does not belong to this client")
              | Err _ => server_error (lit "internal error")
              end
      end
  end.

Definition AUTHORIZATION_CODE : str := lit "authorization_code".
Definition REFRESH_TOKEN : str := lit "refresh_token".

Definition oauth_token (config : option Config) (db_available : bool) (req : HttpRequest) (now : Z) (g : TokenGen)
  : prog Response :=
  match form_body config req with
  | Err response => Ret response
  | Ok (config, body) =>
      match token_form body with
      | Err e => Ret (invalid_request (lit "invalid form body: " ++ e))
      | Ok form =>
          need! grant_type := tq_grant_type form else invalid_request (lit "missing grant_type") ;;
          stop! negb (one_of grant_type [AUTHORIZATION_CODE; REFRESH_TOKEN])
            with OAuthErrorBody BAD_REQUEST (lit "unsupported_grant_type")
                   (lit "only authorization_code and refresh_token grants are supported") ;;
          stop! (grant_type ==? REFRESH_TOKEN) && is_some (tq_scope form)
            with invalid_request (lit "scope narrowing is not supported for refresh_token grant yet") ;;
          need! client_id := nonempty (tq_client_id form) else invalid_request (lit "missing client_id") ;;
          need! client_secret := nonempty (tq_client_secret form) else invalid_client (lit "missing client_secret") ;;
          stop! negb db_available with server_error (lit "DB not available") ;;
          secret_ok ← verify_oauth_client_secret client_id client_secret;
          match secret_ok with
          | Err _ => Ret (server_error (lit "internal error"))
          | Ok false => Ret (invalid_client (lit "client authentication failed"))
          | Ok true =>
              call! client := GetClient client_id ;;
              match client with
              | Ok (Some client) =>
                  if grant_type ==? AUTHORIZATION_CODE then handle_authorization_code_grant config client form now g
                  else handle_refresh_token_grant config client form now g
              | _ => Ret (invalid_client (lit "client authentication failed"))
              end
          end
      end
  end.

(** ** The revocation endpoint (revoke.rs) *)

Definition oauth_revoke (config : option Config) (db_available : bool) (req : HttpRequest) (now : Z) : prog Response :=
  match form_body config req with
  | Err response => Ret response
  | Ok (config, body) =>
      match revoke_form body with
      | Err e => Ret (invalid_request (lit "invalid form body: " ++ e))
      | Ok form =>
          need! plaintext_token := nonempty (vq_token form) else invalid_request (lit "missing token") ;;
          need! client_id := nonempty (vq_client_id form) else invalid_request (lit "missing client_id") ;;
          need! client_secret := nonempty (vq_client_secret form) else invalid_client (lit "missing client_secret") ;;
          stop! negb db_available with server_error (lit "DB not available") ;;
          secret_ok ← verify_oauth_client_secret client_id client_secret;
          match secret_ok with
          | Err _ => Ret (server_error (lit "internal error"))
          | Ok false => Ret (invalid_client (lit "client authentication failed"))
          | Ok true =>
              call! client := GetClient client_id ;;
              match client with
              | Ok (Some _) =>
                  let token_hash := hash_token plaintext_token in
                  let hint := unwrap_or [] (vq_token_type_hint form) in
                  if hint ==? lit "access_token" then
                    call! _r := RevokeAccessByHash token_hash client_id now ;; Ret EmptyBody
                  else if hint ==? lit "refresh_token" then
                    call! _r := RevokeRefreshByHash token_hash client_id now ;; Ret EmptyBody
                  else
                    call! _r := RevokeAccessByHash token_hash client_id now ;;
                    call! _s := RevokeRefreshByHash token_hash client_id now ;;
                    Ret EmptyBody
              | _ => Ret (invalid_client (lit "client authentication failed"))
              end
          end
      end
  end.

(** ** Verification of bearer tokens (auth/tokens.rs) *)

Abbreviation verdict := (result (option AuthContext) str).

(** [db.get_user_by_id(id).ok().flatten()] *)
Definition found {A : Type} (r : result (option A) StoreError) : option A :=
  match r with Ok o => o | Err _ => None end.

Definition pat_verify (config : Config) (db_available : bool) (token : str) (now : Z) : prog verdict :=
  if negb (is_auth_enabled config) then Ret (Ok (Some bootstrap_context))
  else if validate_token config token then Ret (Ok (Some bootstrap_context))
  else if negb db_available then Ret (Ok None)
  else
    let token_hash := hash_token token in
    call! api_key := GetApiKeyByHash token_hash ;;
    match found api_key with
    | Some api_key =>
        call! user := GetUserById (ak_user_id api_key) ;;
        match found user with
        | None => Ret (Err (lit "user not found"))
        | Some user =>
            if user_is_disabled user then Ret (Err (lit "user is disabled"))
            else if ak_is_expired api_key now then Ret (Err (lit "token expired"))
            else
              call! _touched := TouchApiKey (ak_id api_key) now ;;
              Ret (Ok (Some (auth_context_new (if ak_is_agent_token api_key then KAgentToken else KApiToken)
                <| cx_user_id := Some (us_id user) |> <| cx_username := Some (us_username user) |>
                <| cx_api_key_id := Some (ak_id api_key) |> <| cx_role := Some (us_role user) |>
                <| cx_scopes := ak_scopes_vec api_key |> <| cx_token_kind := Some (ak_kind api_key) |>
                <| cx_allowed_client_id := ak_allowed_client_id api_key |>)))
        end
    | None =>
        call! credential := GetCredentialByHash token_hash ;;
        match found credential with
        | Some credential =>
            call! user := GetUserById (cr_user_id credential) ;;
            match found user with
            | None => Ret (Err (lit "user not found"))
            | Some user =>
                if user_is_disabled user then Ret (Err (lit "user is disabled"))
                else
                  call! _touched := TouchCredential (cr_id credential) now ;;
                  Ret (Ok (Some (auth_context_new KAccountCredential
                    <| cx_user_id := Some (us_id user) |> <| cx_username := Some (us_username user) |>
                    <| cx_role := Some (us_role user) |> <| cx_scopes := [SCOPE_ACCOUNT_MANAGE] |>
                    <| cx_token_kind := Some (lit "account") |>)))
            end
        | None => Ret (Ok None)
        end
    end.

Definition OAUTH2_ACCESS_TOKEN_PREFIX : str := lit "wc_oat_".
Definition PROJECT_SHARE_OAUTH_TOKEN_KIND : str := lit "oauth2_project".

(** The context of an access token that passed the checks on itself and its client. *)
Definition oauth2_context (config : Config) (at_record : OAuthAccessTokenRecord) (client : OAuthClientRecord)
  (finish : AuthContext -> prog verdict) : prog verdict :=
  let base := auth_context_new KOAuth2Token <| cx_api_key_id := Some (at_id at_record) |>
                <| cx_scopes := at_scopes_vec at_record |> <| cx_allowed_client_id := Some (at_client_id at_record) |> in
  if at_subject_kind at_record ==? lit "managed_user" then
    match nonempty (at_user_id at_record) with
    | None => Ret (Err (lit "managed-user OAuth2 token missing user_id"))
    | Some user_id =>
        stop! at_subject_id at_record !=? user_id
          with Err (lit "managed-user OAuth2 subject_id does not match user_id") ;;
        call! user := GetUserById user_id ;;
        match found user with
        | None => Ret (Err (lit "user not found"))
        | Some user =>
            stop! user_is_disabled user with Err (lit "user is disabled") ;;
            finish (base <| cx_user_id := Some (us_id user) |> <| cx_username := Some (us_username user) |>
                      <| cx_role := Some (us_role user) |> <| cx_token_kind := Some (lit "oauth2") |>)
        end
    end
  else if at_subject_kind at_record ==? lit "shared_key" then
    stop! is_some (at_user_id at_record) with Err (lit "shared-key OAuth2 token must not include user_id") ;;
    match nonempty (at_shared_key_hash at_record) with
    | None => Ret (Err (lit "shared-key OAuth2 token missing shared_key_hash"))
    | Some shared_key_hash =>
        stop! at_subject_id at_record !=? shared_key_hash
          with Err (lit "shared-key OAuth2 subject_id does not match shared_key_hash") ;;
        finish (base <| cx_role := Some (lit "shared-key") |> <| cx_token_kind := Some (lit "oauth2_shared_key") |>
                  <| cx_shared_key_hash := Some shared_key_hash |>)
    end
  else if at_subject_kind at_record ==? Authority.PROJECT_SHARE_OAUTH_SUBJECT_KIND then
    stop! is_some (at_user_id at_record) || is_some (at_shared_key_hash at_record)
      with Err (lit "project-share OAuth2 token carries invalid identity fields") ;;
    match validate_project_share_grant_subject config (at_subject_kind at_record) (at_subject_id at_record) with
    | Err e => Ret (Err e)
    | Ok _ =>
        stop! negb (project_share_scopes_are_bounded (at_scopes at_record))
          with Err (lit "project-share OAuth2 token exceeds Connector scope ceiling") ;;
        match Authority.parse_project_share_subject_id (at_subject_id at_record) with
        | Err e => Ret (Err e)
        | Ok (grant_id, _) =>
            stop! negb (is_project_grant_owned client) || (oc_owner_project_grant_id client !=? Some grant_id)
              with Err (lit "project-share OAuth2 client does not match project grant") ;;
            finish (base <| cx_role := Some (lit "project") |> <| cx_token_kind := Some PROJECT_SHARE_OAUTH_TOKEN_KIND |>
                      <| cx_project_grant_id := Some grant_id |>)
        end
    end
  else Ret (Err (lit "unsupported OAuth2 subject")).

Definition oauth2_verify (config : Config) (db_available : bool) (token : str) (now : Z) : prog verdict :=
  if negb (starts_with OAUTH2_ACCESS_TOKEN_PREFIX token) then Ret (Ok None)
  else if negb (cf_enabled config) then Ret (Ok None)
  else if negb db_available then Ret (Ok None)
  else
    call! looked_up := GetAccess (hash_token token) ;;
    match looked_up with
    | Err _ => Ret (Err (lit "internal error"))
    | Ok None => Ret (Err (lit "invalid or revoked OAuth2 access token"))
    | Ok (Some at_record) =>
        stop! at_is_expired at_record now with Err (lit "expired OAuth2 access token") ;;
        call! client := GetClient (at_client_id at_record) ;;
        match client with
        | Err _ => Ret (Err (lit "internal error"))
        | Ok None => Ret (Err (lit "OAuth2 client is revoked"))
        | Ok (Some client) =>
            oauth2_context config at_record client (fun ctx =>
              call! _touched := TouchAccess (at_id at_record) now ;;
              Ret (Ok (Some ctx)))
        end
    end.

(** The verifiers in order; [Err] of one is [AuthError::InvalidToken]. *)
Definition authenticate (config : Config) (db_available : bool) (token : str) (pat_now oauth_now : Z)
  : prog (result (option AuthContext) unit) :=
  first ← pat_verify config db_available token pat_now;
  match first with
  | Ok (Some ctx) => Ret (Ok (Some ctx))
  | Err _ => Ret (Err tt)
  | Ok None =>
      second ← oauth2_verify config db_available token oauth_now;
      Ret match second with
          | Ok (Some ctx) => Ok (Some ctx)
          | Ok None => Ok None
          | Err _ => Err tt
          end
  end.

(** A request that carries a bearer token, up to its authentication. *)
Definition bearer_request (config : Config) (db_available : bool) (token : str) (pat_now oauth_now : Z) : prog Response :=
  verdict ← authenticate config db_available token pat_now oauth_now;
  Ret (Credential verdict).

End Endpoints.
