(* ===== verification/AuthFacts.v ===== *)
(** * AuthFacts: how the credential tables evolve, and reasoning about requests

    The invariant of the tables ([auth_wf]), what any call may change ([auth_evolves]:
    rows are only added, a grant keeps what it was issued with, and a mark of use or
    revocation is never taken back), and the rule for requests that run among others: a
    request's postcondition holds under every schedule when each of its calls is verified
    for every state other calls may have led to. *)
From S2P Require Import Prelude RustStr Policy Sql AuthModel AuthStore.

(** ** Rows *)

(** A mark that is set stays as it is. *)
Definition stamped (o o' : option Z) : Prop := o = None \/ o' = o.

#[export] Instance stamped_preorder : PreOrder stamped.
Proof. split; [by right | ]. intros o o' o'' [-> | ->]; [by left | done]. Qed.

Lemma stamped_some (o : option Z) (t : Z) : stamped (Some t) o -> o = Some t.
Proof. by intros [? | ->]. Qed.
Lemma stamped_none (o o' : option Z) : stamped o o' -> o' = None -> o = None.
Proof. intros [-> | ->]; done. Qed.
Lemma stamped_is_some (o o' : option Z) : stamped o o' -> is_some o = true -> is_some o' = true.
Proof. intros [-> | ->]; done. Qed.
Lemma stamped_coalesce (o : option Z) (t : Z) : stamped o (or_else o (Some t)).
Proof. destruct o; [by right | by left]. Qed.

Lemma stamped_fresh (o o' : option Z) : is_none o = true -> stamped o o'.
Proof. by destruct o; [ | left]. Qed.

(** What a row was issued with. *)
Definition user_identity (u : UserRecord) : UserRecord :=
  u <| us_disabled := 0%Z |> <| us_disabled_at := None |> <| us_updated_at := None |>.
Definition key_grant (k : ApiKeyRow) : ApiKeyRow :=
  on_key (fun r => r <| ak_revoked_at := None |> <| ak_last_used_at := None |>) k.
Definition credential_grant (c : AccountCredentialRow) : AccountCredentialRow :=
  on_credential (fun r => r <| cr_revoked_at := None |> <| cr_last_used_at := None |>) c.
Definition pairing_grant (p : PairingCodeRecord) : PairingCodeRecord :=
  p <| pc_used_at := None |> <| pc_client_id := [] |>.
Definition client_identity (c : OAuthClientRecord) : OAuthClientRecord :=
  c <| oc_allowed_scopes := [] |> <| oc_revoked_at := None |>.
Definition code_grant (c : OAuthAuthorizationCodeRecord) : OAuthAuthorizationCodeRecord :=
  c <| ac_used_at := None |> <| ac_revoked_at := None |>.
Definition access_grant (t : OAuthAccessTokenRecord) : OAuthAccessTokenRecord :=
  t <| at_revoked_at := None |> <| at_last_used_at := None |>.
Definition refresh_grant (t : OAuthRefreshTokenRecord) : OAuthRefreshTokenRecord :=
  t <| rt_revoked_at := None |> <| rt_last_used_at := None |>.

Definition user_kept (u u' : UserRecord) : Prop := user_identity u' = user_identity u.
Definition key_kept (k k' : ApiKeyRow) : Prop :=
  key_grant k' = key_grant k /\ stamped (ak_revoked_at (kr_key k)) (ak_revoked_at (kr_key k')).
Definition credential_kept (c c' : AccountCredentialRow) : Prop :=
  credential_grant c' = credential_grant c /\ stamped (cr_revoked_at (cw_credential c)) (cr_revoked_at (cw_credential c')).
Definition pairing_kept (p p' : PairingCodeRecord) : Prop :=
  pairing_grant p' = pairing_grant p /\ stamped (pc_used_at p) (pc_used_at p').
Definition client_kept (c c' : OAuthClientRecord) : Prop :=
  client_identity c' = client_identity c /\ stamped (oc_revoked_at c) (oc_revoked_at c').
Definition code_kept (c c' : OAuthAuthorizationCodeRecord) : Prop :=
  code_grant c' = code_grant c /\ stamped (ac_used_at c) (ac_used_at c') /\ stamped (ac_revoked_at c) (ac_revoked_at c').
Definition access_kept (t t' : OAuthAccessTokenRecord) : Prop :=
  access_grant t' = access_grant t /\ stamped (at_revoked_at t) (at_revoked_at t').
Definition refresh_kept (t t' : OAuthRefreshTokenRecord) : Prop :=
  refresh_grant t' = refresh_grant t /\ stamped (rt_revoked_at t) (rt_revoked_at t').

Ltac kept_preorder :=
  split; [intros ?; split_and?; reflexivity | intros ? ? ?; intros; destruct_and?; split_and?; by etransitivity].
#[export] Instance user_kept_preorder : PreOrder user_kept.
Proof. split; [done | ]. intros u u' u'' H1 H2. unfold user_kept in *. congruence. Qed.
#[export] Instance key_kept_preorder : PreOrder key_kept.
Proof. unfold key_kept. kept_preorder. Qed.
#[export] Instance credential_kept_preorder : PreOrder credential_kept.
Proof. unfold credential_kept. kept_preorder. Qed.
#[export] Instance pairing_kept_preorder : PreOrder pairing_kept.
Proof. unfold pairing_kept. kept_preorder. Qed.
#[export] Instance client_kept_preorder : PreOrder client_kept.
Proof. unfold client_kept. kept_preorder. Qed.
#[export] Instance code_kept_preorder : PreOrder code_kept.
Proof. unfold code_kept. kept_preorder. Qed.
#[export] Instance access_kept_preorder : PreOrder access_kept.
Proof. unfold access_kept. kept_preorder. Qed.
#[export] Instance refresh_kept_preorder : PreOrder refresh_kept.
Proof. unfold refresh_kept. kept_preorder. Qed.

(** ** Tables *)

Record auth_wf (db : AuthDb) : Prop := {
  wf_user_id : keyed us_id (users db);
  wf_user_name : keyed us_username (users db);
  wf_key_id : keyed (fun k => ak_id (kr_key k)) (api_keys db);
  wf_key_hash : keyed kr_hash (api_keys db);
  wf_credential_id : keyed (fun c => cr_id (cw_credential c)) (account_credentials db);
  wf_credential_hash : keyed cw_hash (account_credentials db);
  wf_pairing_id : keyed pc_id (pairing_codes db);
  wf_pairing_hash : keyed pc_code_hash (pairing_codes db);
  wf_client_row : keyed oc_id (oauth_clients db);
  wf_client_id : keyed oc_client_id (oauth_clients db);
  wf_code_id : keyed ac_id (oauth_codes db);
  wf_code_hash : keyed ac_code_hash (oauth_codes db);
  wf_access_id : keyed at_id (oauth_access db);
  wf_access_hash : keyed at_token_hash (oauth_access db);
  wf_refresh_id : keyed rt_id (oauth_refresh db);
  wf_refresh_hash : keyed rt_token_hash (oauth_refresh db)
}.

Record auth_evolves (db db' : AuthDb) : Prop := {
  ev_users : grows user_kept (users db) (users db');
  ev_keys : grows key_kept (api_keys db) (api_keys db');
  ev_credentials : grows credential_kept (account_credentials db) (account_credentials db');
  ev_pairing : grows pairing_kept (pairing_codes db) (pairing_codes db');
  ev_clients : grows client_kept (oauth_clients db) (oauth_clients db');
  ev_codes : grows code_kept (oauth_codes db) (oauth_codes db');
  ev_access : grows access_kept (oauth_access db) (oauth_access db');
  ev_refresh : grows refresh_kept (oauth_refresh db) (oauth_refresh db')
}.

Definition moves (db db' : AuthDb) : Prop := auth_wf db' /\ auth_evolves db db'.

#[export] Instance auth_evolves_preorder : PreOrder auth_evolves.
Proof. split; [intros db; constructor; reflexivity | ]. intros a b c [] []. by constructor; etransitivity. Qed.

Lemma moves_refl (db : AuthDb) : auth_wf db -> moves db db.
Proof. done. Qed.
Lemma moves_trans (a b c : AuthDb) : moves a b -> moves b c -> moves a c.
Proof. intros [_ H1] [Hw H2]. split; [done | by etransitivity]. Qed.

(** ** Calls *)

Section Calls.
Implicit Types db d : AuthDb.

(** Executing statements one by one from a state reached from [d]. *)
Lemma update_wp {A B : Type} (table : AuthDb -> list A) (store : list A -> AuthDb -> AuthDb) (sel : A -> bool) (upd : A -> A)
  (k : nat -> atx B) (post : B -> AuthDb -> Prop) db :
  tx_wp (k (rows_matched sel (table db))) post (store (rows_update sel upd (table db)) db) ->
  tx_wp (update_rows table store sel upd ≫= k) post db.
Proof. intros Hk. unfold update_rows. by repeat (wp_step; cbn beta). Qed.

Lemma insert_wp {B : Type} (allowed : AuthDb -> bool) (add : AuthDb -> AuthDb) (k : unit -> atx B) (post : B -> AuthDb -> Prop) db :
  (allowed db = true -> tx_wp (k tt) post (add db)) -> tx_wp (insert_row allowed add ≫= k) post db.
Proof.
  intros Hk. unfold insert_row. repeat (wp_step; cbn beta). match goal with Hb : negb _ = false |- _ => apply negb_false_iff in Hb end. auto.
Qed.

Lemma select_wp {A B : Type} (table : AuthDb -> list A) (sel : A -> bool) (k : option A -> atx B) (post : B -> AuthDb -> Prop) db :
  tx_wp (k (find sel (table db))) post db -> tx_wp (select_one table sel ≫= k) post db.
Proof. intros Hk. unfold select_one. by repeat (wp_step; cbn beta). Qed.

Lemma wp_tail {B : Type} (m : atx B) (post : B -> AuthDb -> Prop) db : tx_wp (m ≫= mret) post db -> tx_wp m post db.
Proof. intros Hm b s' Hb. apply Hm. unfold mbind, tx_bind. by rewrite Hb. Qed.
End Calls.

(** One statement of a method. *)
Ltac auth_step :=
  lazymatch goal with
  | |- tx_wp (update_rows _ _ _ _ ≫= _) _ _ => apply update_wp
  | |- tx_wp (insert_row _ _ ≫= _) _ _ => apply insert_wp; intros ?
  | |- tx_wp (select_one _ _ ≫= _) _ _ => apply select_wp
  | |- tx_wp (update_rows _ _ _ _) _ _ => apply wp_tail
  | |- tx_wp (insert_row _ _) _ _ => apply wp_tail
  | |- tx_wp (select_one _ _) _ _ => apply wp_tail
  | _ => wp_step
  end; cbn beta.
Ltac auth_steps := repeat auth_step.

(** A row after a statement whose condition it met. *)
Ltac kept_row :=
  unfold redeemable in *; split_andb; repeat split; cbn;
  first [reflexivity | apply stamped_coalesce | by apply stamped_fresh | by auto].

(** A table after the statements of a method, from how it was before them. *)
Ltac moved_table :=
  first
    [ assumption
    | reflexivity
    | apply keyed_snoc; [assumption | moved_table]
    | apply keyed_update; [intros ? ?; reflexivity | moved_table]
    | apply grows_then_app; [apply _ | moved_table]
    | apply grows_then_update; [apply _ | intros ? _ ?; kept_row | moved_table] ].
(** After the statements of a method that began in a state satisfying [auth_wf]. *)
Ltac moved :=
  lazymatch goal with
  | Hw : auth_wf _ |- moves _ _ => split; [destruct Hw | ]; constructor; cbn in *; unfold has_key in *; split_andb; moved_table
  end.

Create HintDb auth_ops.
#[export] Hint Unfold get_user_by_username create_user list_users get_user_by_id set_user_disabled_statement
  get_api_key_by_hash insert_api_key list_api_keys_by_user list_agent_api_keys_by_user get_api_key_by_id
  revoke_api_key_statement update_api_key_last_used insert_account_credential get_account_credential_by_hash
  update_account_credential_last_used revoke_account_credential_statement get_account_credential_by_id
  list_account_credentials_by_user insert_pairing_code get_pairing_code_by_hash consume_pairing_code : auth_ops.
#[export] Hint Unfold insert_oauth_client get_oauth_client_by_client_id get_oauth_client_name_by_client_id
  get_oauth_client_by_id revoke_oauth_client list_oauth_clients update_oauth_client_allowed_scopes_and_revoke_grants
  revoke_oauth_client_by_client_id revoke_oauth_access_tokens_for_client revoke_oauth_refresh_tokens_for_client
  revoke_oauth_authorization_codes_for_client insert_oauth_authorization_code get_oauth_authorization_code_by_hash
  consume_code_statement get_oauth_authorization_code_by_hash_for_consume revoke_oauth_authorization_code
  insert_access_row insert_refresh_row insert_oauth_access_token get_oauth_access_token_by_hash
  update_oauth_access_token_last_used revoke_oauth_access_token revoke_oauth_access_token_by_hash_for_client
  insert_oauth_refresh_token get_oauth_refresh_token_by_hash update_oauth_refresh_token_last_used
  revoke_oauth_refresh_token revoke_oauth_refresh_token_by_hash_for_client get_oauth_refresh_token_by_hash_for_rotate
  exchange_transaction rotate_oauth_refresh_token create_session get_session : auth_ops.

(** Every call keeps the invariant and only adds rows, uses or revocations. *)
Lemma perform_moves {A : Type} (op : AuthOp A) (db : AuthDb) : auth_wf db -> tx_wp (perform op) (fun _ => moves db) db.
Proof.
  intros Hw. destruct op; cbn [perform]; autounfold with auth_ops; auth_steps; try by apply moves_refl.
  all: try moved.
Qed.

(** * Requests among other requests

    [guards i p post w]: whatever calls other requests make between those of request [i],
    the program [p] of request [i] started in [w] answers only with [post].  One rule per
    construct of programs, the theorem that it holds of every schedule, and the law that
    an event that makes itself impossible happens at most once in a system's log. *)

(** ** Steps *)

(** A call of a request of [P]. *)
Definition steps_of (P : nat -> Prop) (w w' : World) : Prop :=
  exists j (A : Type) (op : AuthOp A), P j /\ w' = fst (w_call j op w).

(** What may happen between two calls of request [i]. *)
Definition others (i : nat) : World -> World -> Prop := rtc (steps_of (fun j => j <> i)).
Definition reaches : World -> World -> Prop := rtc (steps_of (fun _ => True)).

Definition w_wf (w : World) : Prop := auth_wf (w_db w).
Definition w_moves (w w' : World) : Prop :=
  moves (w_db w) (w_db w') /\ forall e, e ∈ w_log w -> e ∈ w_log w'.

Lemma call_moves {A : Type} (op : AuthOp A) (db : AuthDb) : auth_wf db -> moves db (fst (call op db)).
Proof. intros Hw. unfold call. apply run_tx_wp; [by apply moves_refl | by apply perform_moves]. Qed.

Lemma w_call_eq {A : Type} (i : nat) (op : AuthOp A) (w : World) :
  w_call i op w = (mkWorld (fst (call op (w_db w))) (w_log w ++ [Called i op (snd (call op (w_db w)))]), snd (call op (w_db w))).
Proof. unfold w_call. by destruct (call op (w_db w)). Qed.

Lemma steps_log (P : nat -> Prop) (w w' : World) (e : Event) : rtc (steps_of P) w w' -> e ∈ w_log w -> e ∈ w_log w'.
Proof.
  intros Hs He. induction Hs as [|w w1 w2 (j & A & op & _ & ->) _ IH]; [done | ]. apply IH. rewrite w_call_eq. cbn.
  by apply elem_of_app; left.
Qed.

Lemma steps_moves (P : nat -> Prop) (w w' : World) : w_wf w -> rtc (steps_of P) w w' -> w_moves w w'.
Proof.
  intros Hw Hs. split; [ | intros e; by apply (steps_log P)].
  induction Hs as [w|w w1 w2 (j & A & op & _ & ->) Hs IH]; [by apply moves_refl | ].
  rewrite w_call_eq in *. cbn in *. pose proof (call_moves op (w_db w) Hw) as Hm.
  eapply moves_trans; [exact Hm | ]. apply IH. by destruct Hm.
Qed.

Lemma w_moves_trans (w1 w2 w3 : World) : w_moves w1 w2 -> w_moves w2 w3 -> w_moves w1 w3.
Proof. intros [H1 H1'] [H2 H2']. split; [by eapply moves_trans | auto]. Qed.

Lemma w_moves_wf (w w' : World) : w_moves w w' -> w_wf w'.
Proof. by intros [[] _]. Qed.

Lemma others_moves (i : nat) (w w' : World) : w_wf w -> others i w w' -> w_moves w w'.
Proof. apply steps_moves. Qed.

Lemma others_reaches (i : nat) (w w' : World) : others i w w' -> reaches w w'.
Proof. intros Hs. induction Hs as [|w w1 w2 (j & A & op & _ & ->) _ IH]; [done | ]. eapply rtc_l, IH. by exists j, A, op. Qed.

(** ** Guarantees *)

Fixpoint guards {A : Type} (i : nat) (p : prog A) (post : A -> World -> Prop) (w : World) : Prop :=
  match p with
  | Ret a => forall w', others i w w' -> post a w'
  | Do op k => forall w', others i w w' -> let '(w2, r) := w_call i op w' in guards i (k r) post w2
  end.
#[global] Arguments guards : simpl never.

Section Rules.
Context {A : Type} (i : nat).
Implicit Types (post : A -> World -> Prop) (w : World).

Lemma guards_ret (a : A) post w : (forall w', others i w w' -> post a w') -> guards i (Ret a) post w.
Proof. done. Qed.

(** A call: the state it is made in was reached by calls of other requests. *)
Lemma guards_do {B : Type} (op : AuthOp B) (k : result B StoreError -> prog A) post w :
  w_wf w ->
  (forall w1 w2 r, w_moves w w1 -> w_wf w1 -> call op (w_db w1) = (w_db w2, r) -> w_moves w1 w2 ->
     w_log w2 = w_log w1 ++ [Called i op r] -> guards i (k r) post w2) ->
  guards i (Do op k) post w.
Proof.
  intros Hw Hk w1 Ho. rewrite w_call_eq. destruct (call op (w_db w1)) as [db2 r] eqn:Ec. cbn.
  pose proof (others_moves i w w1 Hw Ho) as Hm. assert (Hw1 : w_wf w1) by (by eapply w_moves_wf).
  apply (Hk w1); [done | done | done | | done]. pose proof (call_moves op (w_db w1) Hw1) as Hc. rewrite Ec in Hc.
  split; [done | ]. intros e He. cbn. by apply elem_of_app; left.
Qed.

(** A call whose answer does not matter. *)
Lemma guards_do_any {B : Type} (op : AuthOp B) (k : result B StoreError -> prog A) post w :
  (forall r w2, guards i (k r) post w2) -> guards i (Do op k) post w.
Proof. intros Hk w1 Ho. rewrite w_call_eq. apply Hk. Qed.

Lemma guards_env (p : prog A) post w w' : others i w w' -> guards i p post w -> guards i p post w'.
Proof. intros Ho Hg. destruct p; unfold guards in *; fold @guards in *; intros w1 Ho1; apply Hg; by etransitivity. Qed.

Lemma guards_mono (p : prog A) post post' w :
  (forall a w', post a w' -> post' a w') -> guards i p post w -> guards i p post' w.
Proof.
  intros Hp. revert w. induction p as [a|B op k IH]; intros w Hg w1 Ho; [by apply Hp, Hg | ].
  specialize (Hg w1 Ho). rewrite w_call_eq in *. by apply IH.
Qed.

(** A request only moves the tables forward. *)
Lemma guards_moves (p : prog A) post w :
  w_wf w -> guards i p post w -> guards i p (fun a w' => w_moves w w' /\ post a w') w.
Proof.
  intros Hw. assert (H0 : w_moves w w) by (split; [by apply moves_refl | done]). revert Hw H0.
  generalize w at 1 2 5. intros w0 Hw0. revert w. induction p as [a|B op k IH]; intros w H0 Hg w1 Ho.
  - split; [ | by apply Hg]. eapply w_moves_trans, others_moves; [done | by eapply w_moves_wf | done].
  - specialize (Hg w1 Ho). rewrite w_call_eq in *. apply IH; [ | done].
    assert (Hm1 : w_moves w0 w1) by (eapply w_moves_trans, others_moves; [done | by eapply w_moves_wf | done]).
    eapply w_moves_trans; [done | ]. split; [apply call_moves; by eapply w_moves_wf | ].
    intros e He. cbn. by apply elem_of_app; left.
Qed.

Lemma guards_any (p : prog A) w : w_wf w -> guards i p (fun _ w' => w_moves w w') w.
Proof.
  intros Hw. eapply guards_mono, (guards_moves p (fun _ _ => True)); [by intros a w' [? _] | done | ].
  clear Hw. revert w. induction p as [a|B op k IH]; intros w; [done | ]. apply guards_do_any. intros r w2. apply IH.
Qed.

Lemma guards_bind {B : Type} (p : prog B) (f : B -> prog A) post w :
  guards i p (fun b w' => guards i (f b) post w') w -> guards i (p ≫= f) post w.
Proof.
  revert w. induction p as [b|C op k IH]; intros w Hg; [by apply (Hg w) | ].
  intros w1 Ho. specialize (Hg w1 Ho). rewrite w_call_eq in *. by apply IH.
Qed.
End Rules.

(** ** Schedules *)

Section Schedules.
Context {A : Type}.
Implicit Types (s : System A) (i : nat).

Lemma schedule_snoc s (sched : list nat) (j : nat) : run_schedule s (sched ++ [j]) = sys_step (run_schedule s sched) j.
Proof. unfold run_schedule. by rewrite fold_left_app. Qed.

Lemma schedule_app s (sched1 sched2 : list nat) : run_schedule s (sched1 ++ sched2) = run_schedule (run_schedule s sched1) sched2.
Proof. apply fold_left_app. Qed.

Lemma step_reaches s (j : nat) : reaches (y_world s) (y_world (sys_step s j)).
Proof.
  unfold sys_step. destruct (y_requests s !! j) as [[a|B op k]|]; try apply rtc_refl.
  destruct (w_call j op (y_world s)) as [w' r] eqn:Ec. cbn. apply rtc_once. exists j, B, op. by rewrite Ec.
Qed.

Lemma schedule_reaches s (sched : list nat) : reaches (y_world s) (y_world (run_schedule s sched)).
Proof.
  induction sched as [|j sched IH] using rev_ind; [apply rtc_refl | ]. rewrite schedule_snoc.
  etransitivity; [exact IH | apply step_reaches].
Qed.

(** A request that is not scheduled is where it was. *)
Lemma schedule_waits s (sched : list nat) i : i ∉ sched -> y_requests (run_schedule s sched) !! i = y_requests s !! i.
Proof.
  induction sched as [|j sched IH] using rev_ind; [done | ]. rewrite elem_of_app, list_elem_of_singleton. intros Hn.
  rewrite schedule_snoc, <- IH by tauto. unfold sys_step.
  destruct (y_requests (run_schedule s sched) !! j) as [[a|B op k]|]; try done.
  destruct (w_call j op _) as [w' r]. cbn. apply list_lookup_insert_ne. intros ->. tauto.
Qed.

Lemma schedule_moves s (sched : list nat) : w_wf (y_world s) -> w_moves (y_world s) (y_world (run_schedule s sched)).
Proof. intros Hw. eapply steps_moves, schedule_reaches. done. Qed.

(** What is guaranteed of a request holds under every schedule. *)
Lemma schedule_guards s (sched : list nat) i (p : prog A) (post : A -> World -> Prop) :
  y_requests s !! i = Some p -> guards i p post (y_world s) ->
  exists p', y_requests (run_schedule s sched) !! i = Some p' /\ guards i p' post (y_world (run_schedule s sched)).
Proof.
  intros Hp Hg. induction sched as [|j sched IH] using rev_ind; [by exists p | ]. rewrite schedule_snoc.
  destruct IH as (p' & Hp' & Hg'). generalize dependent (run_schedule s sched). intros s' Hp' Hg'. unfold sys_step.
  destruct (decide (j = i)) as [->|Hne].
  - rewrite Hp'. destruct p' as [a|B op k]; [by exists (Ret a) | ]. specialize (Hg' (y_world s') (rtc_refl _ _)).
    destruct (w_call i op (y_world s')) as [w' r]. exists (k r). cbn. rewrite list_lookup_insert_eq; [done | ].
    by eapply lookup_lt_Some.
  - destruct (y_requests s' !! j) as [[a|B op k]|]; [by exists p' | | by exists p'].
    destruct (w_call j op (y_world s')) as [w' r] eqn:Ec. exists p'. cbn. rewrite list_lookup_insert_ne by done.
    split; [done | ]. eapply guards_env, Hg'. apply rtc_once. exists j, B, op. by rewrite Ec.
Qed.

Lemma schedule_answer s (sched : list nat) i (p : prog A) (post : A -> World -> Prop) (a : A) :
  y_requests s !! i = Some p -> guards i p post (y_world s) -> answered (run_schedule s sched) i a ->
  post a (y_world (run_schedule s sched)).
Proof.
  intros Hp Hg Ha. destruct (schedule_guards s sched i p post Hp Hg) as (p' & Hp' & Hg'). unfold answered in Ha.
  rewrite Ha in Hp'. injection Hp' as <-. by apply (Hg' _), rtc_refl.
Qed.

(** An event that makes itself impossible happens at most once. *)
Lemma fires_once (w w' : World) (fires : Event -> bool) (closed : AuthDb -> Prop) :
  w_wf w -> reaches w w' -> w_log w = [] ->
  (forall d d', auth_wf d -> moves d d' -> closed d -> closed d') ->
  (forall j (B : Type) (op : AuthOp B) d d' r, auth_wf d -> call op d = (d', r) -> fires (Called j op r) = true ->
     closed d' /\ ~ closed d) ->
  length (List.filter fires (w_log w')) <= 1 /\ (length (List.filter fires (w_log w')) = 1 -> closed (w_db w')).
Proof.
  intros Hw Hr Hnil Hkeep Hfire. apply rtc_nsteps in Hr as [n Hr]. revert w' Hr. induction n as [|n IH]; intros w' Hr.
  { inversion Hr; subst. rewrite Hnil. cbn. lia. }
  apply nsteps_inv_r in Hr as (w1 & Hr & j & B & op & _ & ->). destruct (IH w1 Hr) as [IH1 IH2].
  assert (Hw1 : w_wf w1) by (eapply w_moves_wf, (steps_moves _ w w1 Hw), rtc_nsteps; eauto).
  rewrite w_call_eq. cbn. destruct (call op (w_db w1)) as [d r] eqn:Ec. cbn.
  pose proof (call_moves op (w_db w1) Hw1) as Hm. rewrite Ec in Hm. cbn in Hm.
  rewrite List.filter_app, length_app. cbn. destruct (fires (Called j op r)) eqn:Ef; cbn.
  - destruct (Hfire j B op (w_db w1) d r Hw1 Ec Ef) as [Hc Hn].
    destruct (length (List.filter fires (w_log w1))) as [|[|m]]; [split; [lia | done] | by destruct Hn; apply IH2 | lia].
  - rewrite Nat.add_0_r. split; [done | ]. intros Hl. by apply (Hkeep (w_db w1)), IH2.
Qed.

(** So two requests cannot both have made it happen. *)
Lemma fires_one_request (log : list Event) (fires : Event -> bool) (e e' : Event) :
  length (List.filter fires log) <= 1 -> e ∈ log -> e' ∈ log -> fires e = true -> fires e' = true ->
  event_request e = event_request e'.
Proof.
  intros Hl He He' Hf Hf'. assert (H1 : In e (List.filter fires log)) by (apply filter_In; rewrite <- list_elem_of_In; auto).
  assert (H2 : In e' (List.filter fires log)) by (apply filter_In; rewrite <- list_elem_of_In; auto).
  destruct (List.filter fires log) as [|x [|y l]]; cbn in *; [done | | lia]. by destruct H1 as [->|[]], H2 as [->|[]].
Qed.
End Schedules.

(** ** Invariants of systems *)

(** Every call of [p] as request [i] keeps [I], in any state with [I] that other requests
    may have led to. *)
Fixpoint obeys {A : Type} (I : World -> Prop) (i : nat) (p : prog A) (w : World) : Prop :=
  match p with
  | Ret _ => True
  | Do op k => forall w1, others i w w1 -> I w1 -> let '(w2, r) := w_call i op w1 in I w2 /\ obeys I i (k r) w2
  end.
#[global] Arguments obeys : simpl never.

(** Every call of [p] is one of [ok], whatever it is answered. *)
Fixpoint all_calls {A : Type} (ok : forall B : Type, AuthOp B -> Prop) (p : prog A) : Prop :=
  match p with
  | Ret _ => True
  | @Do _ B op k => ok B op /\ forall r, all_calls ok (k r)
  end.

(** A call that keeps [I] wherever it is made. *)
Definition neutral (I : World -> Prop) (i : nat) (B : Type) (op : AuthOp B) : Prop :=
  forall w, w_wf w -> I w -> I (fst (w_call i op w)).

Section Invariants.
Context {A : Type} (I : World -> Prop) (i : nat).
Implicit Types w : World.

Lemma obeys_ret (a : A) w : obeys I i (Ret a) w.
Proof. done. Qed.

Lemma obeys_do {B : Type} (op : AuthOp B) (k : result B StoreError -> prog A) w :
  w_wf w ->
  (forall w1 w2 r, w_moves w w1 -> w_wf w1 -> I w1 -> call op (w_db w1) = (w_db w2, r) -> w_moves w1 w2 ->
     w_log w2 = w_log w1 ++ [Called i op r] -> I w2 /\ obeys I i (k r) w2) ->
  obeys I i (Do op k) w.
Proof.
  intros Hw Hk w1 Ho HI. rewrite w_call_eq. pose proof (others_moves i w w1 Hw Ho) as Hm.
  assert (Hw1 : w_wf w1) by (by eapply w_moves_wf). pose proof (call_moves op (w_db w1) Hw1) as Hc.
  destruct (call op (w_db w1)) as [db2 r] eqn:Ec. cbn in *. apply (Hk w1); try done.
  split; [done | ]. intros e He. cbn. by apply elem_of_app; left.
Qed.

(** A neutral call. *)
Lemma obeys_neutral {B : Type} (op : AuthOp B) (k : result B StoreError -> prog A) w :
  w_wf w -> neutral I i B op ->
  (forall w1 w2 r, w_moves w w1 -> w_wf w1 -> I w1 -> call op (w_db w1) = (w_db w2, r) -> w_moves w1 w2 ->
     w_log w2 = w_log w1 ++ [Called i op r] -> I w2 -> obeys I i (k r) w2) ->
  obeys I i (Do op k) w.
Proof.
  intros Hw Hn Hk. apply obeys_do; [done | ]. intros w1 w2 r Hm Hw1 HI Hc Hm2 Hl.
  assert (HI2 : I w2).
  { specialize (Hn w1 Hw1 HI). rewrite w_call_eq, Hc in Hn. cbn in Hn. destruct w2. cbn in *. by rewrite Hl. }
  split; [done | ]. by apply (Hk w1).
Qed.

Lemma obeys_env (p : prog A) w w' : others i w w' -> obeys I i p w -> obeys I i p w'.
Proof. intros Ho Hg. destruct p; [done | ]. intros w1 Ho1. apply Hg. by etransitivity. Qed.

Lemma obeys_calls (p : prog A) w : w_wf w -> all_calls (neutral I i) p -> obeys I i p w.
Proof.
  revert w. induction p as [a|B op k IH]; intros w Hw; [done | ]. intros [Hn Hk]. apply obeys_neutral; [done | done | ].
  intros w1 w2 r Hm Hw1 HI Hc Hm2 Hl _. apply IH; [by eapply w_moves_wf | apply Hk].
Qed.

(** Composition: what the first program's answer says may be used for the second. *)
Lemma obeys_bind {B : Type} (p : prog B) (f : B -> prog A) w :
  obeys I i p w -> guards i p (fun b w' => obeys I i (f b) w') w -> obeys I i (p ≫= f) w.
Proof.
  revert w. induction p as [b|C op k IH]; intros w Hp Hg; [by apply (Hg w) | ].
  intros w1 Ho HI. specialize (Hp w1 Ho HI). specialize (Hg w1 Ho). rewrite w_call_eq in *. destruct Hp as [HI2 Hp].
  split; [done | by apply IH].
Qed.

Lemma obeys_bind_any {B : Type} (p : prog B) (f : B -> prog A) w :
  w_wf w -> obeys I i p w -> (forall b w', w_moves w w' -> obeys I i (f b) w') -> obeys I i (p ≫= f) w.
Proof. intros Hw Hp Hf. apply obeys_bind; [done | ]. eapply guards_mono, guards_any; [ | done]. auto. Qed.
End Invariants.

(** When every request keeps to [I], so does the system. *)
Lemma schedule_invariant {A : Type} (I : World -> Prop) (s : System A) (sched : list nat) :
  I (y_world s) -> (forall i p, y_requests s !! i = Some p -> obeys I i p (y_world s)) ->
  I (y_world (run_schedule s sched)).
Proof.
  intros HI Hob. enough (Hall : I (y_world (run_schedule s sched)) /\ forall i p,
    y_requests (run_schedule s sched) !! i = Some p -> obeys I i p (y_world (run_schedule s sched))) by apply Hall.
  induction sched as [|j sched IH] using rev_ind; [done | ]. rewrite schedule_snoc.
  generalize dependent (run_schedule s sched). clear s HI Hob. intros s [HI Hob]. unfold sys_step.
  destruct (y_requests s !! j) as [[a|B op k]|] eqn:Ej; try done.
  pose proof (Hob j _ Ej (y_world s) (rtc_refl _ _) HI) as Hj.
  destruct (w_call j op (y_world s)) as [w' r] eqn:Ec. cbn. destruct Hj as [HI' Hk]. split; [done | ]. intros i p Hi.
  destruct (decide (i = j)) as [->|Hne].
  - rewrite list_lookup_insert_eq in Hi by (by eapply lookup_lt_Some). by injection Hi as <-.
  - rewrite list_lookup_insert_ne in Hi by done. eapply obeys_env; [ | by apply Hob].
    apply rtc_once. exists j, B, op. by rewrite Ec.
Qed.

Lemma all_calls_bind {A B : Type} (ok : forall C : Type, AuthOp C -> Prop) (p : prog B) (f : B -> prog A) :
  all_calls ok p -> (forall b, all_calls ok (f b)) -> all_calls ok (p ≫= f).
Proof. intros Hp Hf. induction p as [b|C op k IH]; [apply Hf | ]. destruct Hp as [Ho Hk]. split; [done | ]. intros r. by apply IH. Qed.

Lemma all_calls_mono {A : Type} (ok ok' : forall C : Type, AuthOp C -> Prop) (p : prog A) :
  (forall C op, ok C op -> ok' C op) -> all_calls ok p -> all_calls ok' p.
Proof. intros Hi. induction p as [b|C op k IH]; [done | ]. intros [Ho Hk]. split; [by apply Hi | ]. intros r. by apply IH. Qed.

(** The calls of a program, read off its text. *)
Ltac each_call :=
  repeat first
    [ exact I
    | progress cbv beta zeta
    | lazymatch goal with
      | |- all_calls _ (Ret _) => exact I
      | |- all_calls _ (Do _ _) => split; [ | intros ?]
      | |- all_calls _ (_ ≫= _) => apply all_calls_bind; [ | intros ?]
      | |- all_calls _ (match ?x with _ => _ end) => destruct x
      end ].
