(* ===== verification/OAuthFacts.v ===== *)
(** * OAuthFacts: what the token, revocation and verification endpoints guarantee

    The effect of the transactions the endpoints use, and for each endpoint what an
    answer says of the tables, whatever other requests did meanwhile. *)
From S2P Require Import Prelude RustStr Policy Sql AuthModel AuthStore OAuthScopes OAuthHttp AuthFacts.

(** ** Comparison *)

Lemma fold_lor_zero {B : Type} (f : B -> N) (l : list B) (init : N) :
  fold_left (fun diff x => N.lor diff (f x)) l init = 0%N <-> init = 0%N /\ Forall (fun x => f x = 0%N) l.
Proof.
  revert init. induction l as [|x l IH]; intros init; cbn [fold_left]; [by split; [ | intros [? _]] | ].
  rewrite IH, Forall_cons, N.lor_eq_0_iff. tauto.
Qed.

(** The comparison is equality. *)
Lemma constant_time_eq_bytes (a b : list N) : constant_time_eq a b = true <-> a = b.
Proof.
  unfold constant_time_eq. rewrite N.eqb_eq, fold_lor_zero. split.
  - intros [Hl%N.lxor_eq Hf]. apply Nat2N.inj in Hl. apply (nth_ext _ _ 0%N 0%N Hl). intros n Hn.
    rewrite Forall_forall in Hf. apply N.lxor_eq, Hf. apply list_elem_of_In, in_seq. lia.
  - intros ->. split; [apply N.lxor_nilpotent | ]. apply Forall_forall. intros x _. apply N.lxor_nilpotent.
Qed.

(** ** Transactions *)

Section Store.
Implicit Types db : AuthDb.

Lemma call_ok {A : Type} (op : AuthOp A) db db' (a : A) (post : A -> AuthDb -> Prop) :
  call op db = (db', Ok a) -> tx_wp (perform op) post db -> post a db'.
Proof. unfold call, run_tx. destruct (perform op db) as [[a' s]|e] eqn:E; [ | done]. intros [= <- <-] Hp. by apply Hp. Qed.

Lemma call_err {A : Type} (op : AuthOp A) db db' (e : StoreError) : call op db = (db', Err e) -> db' = db.
Proof. unfold call, run_tx. destruct (perform op db) as [[a' s]|e'] eqn:E; [done | ]. by intros [= <- _]. Qed.

Lemma moves_code db db' (c : OAuthAuthorizationCodeRecord) :
  moves db db' -> c ∈ oauth_codes db -> exists c', c' ∈ oauth_codes db' /\ code_kept c c'.
Proof. intros [_ []]. by apply grows_elem. Qed.
Lemma moves_access db db' (t : OAuthAccessTokenRecord) :
  moves db db' -> t ∈ oauth_access db -> exists t', t' ∈ oauth_access db' /\ access_kept t t'.
Proof. intros [_ []]. by apply grows_elem. Qed.
Lemma moves_refresh db db' (t : OAuthRefreshTokenRecord) :
  moves db db' -> t ∈ oauth_refresh db -> exists t', t' ∈ oauth_refresh db' /\ refresh_kept t t'.
Proof. intros [_ []]. by apply grows_elem. Qed.
Lemma moves_client db db' (c : OAuthClientRecord) :
  moves db db' -> c ∈ oauth_clients db -> exists c', c' ∈ oauth_clients db' /\ client_kept c c'.
Proof. intros [_ []]. by apply grows_elem. Qed.
Lemma moves_user db db' (u : UserRecord) :
  moves db db' -> u ∈ users db -> exists u', u' ∈ users db' /\ user_kept u u'.
Proof. intros [_ []]. by apply grows_elem. Qed.

(** What a table says of a key when no row with it is marked. *)
Definition client_live (client_id : str) db : Prop :=
  forall c, c ∈ oauth_clients db -> oc_client_id c = client_id -> oc_revoked_at c = None.
Definition code_live (h : str) db : Prop :=
  forall c, c ∈ oauth_codes db -> ac_code_hash c = h -> ac_used_at c = None /\ ac_revoked_at c = None.
Definition access_live (h : str) db : Prop :=
  forall t, t ∈ oauth_access db -> at_token_hash t = h -> at_revoked_at t = None.
Definition refresh_live (h : str) db : Prop :=
  forall t, t ∈ oauth_refresh db -> rt_token_hash t = h -> rt_revoked_at t = None.

(** A row that is unmarked now was unmarked before. *)
Lemma client_live_back (client_id : str) db db' : moves db db' -> client_live client_id db' -> client_live client_id db.
Proof.
  intros Hm Hl c Hin Hid. destruct (moves_client _ _ _ Hm Hin) as (c' & Hin' & Hk & Hs). eapply stamped_none; [done | ].
  apply Hl; [done | ]. destruct c, c'. injection Hk as. cbn in *. congruence.
Qed.
Lemma code_live_back (h : str) db db' : moves db db' -> code_live h db' -> code_live h db.
Proof.
  intros Hm Hl c Hin Hid. destruct (moves_code _ _ _ Hm Hin) as (c' & Hin' & Hk & Hs & Hs').
  destruct (Hl c') as [Hu Hr]; [done | destruct c, c'; injection Hk as; cbn in *; congruence | ].
  split; by eapply stamped_none.
Qed.
Lemma access_live_back (h : str) db db' : moves db db' -> access_live h db' -> access_live h db.
Proof.
  intros Hm Hl t Hin Hid. destruct (moves_access _ _ _ Hm Hin) as (t' & Hin' & Hk & Hs). eapply stamped_none; [done | ].
  apply Hl; [done | ]. destruct t, t'. injection Hk as. cbn in *. congruence.
Qed.
Lemma refresh_live_back (h : str) db db' : moves db db' -> refresh_live h db' -> refresh_live h db.
Proof.
  intros Hm Hl t Hin Hid. destruct (moves_refresh _ _ _ Hm Hin) as (t' & Hin' & Hk & Hs). eapply stamped_none; [done | ].
  apply Hl; [done | ]. destruct t, t'. injection Hk as. cbn in *. congruence.
Qed.

(** One row with the key decides. *)
Lemma client_live_one (c : OAuthClientRecord) db :
  auth_wf db -> c ∈ oauth_clients db -> oc_revoked_at c = None -> client_live (oc_client_id c) db.
Proof.
  intros Hw Hin Hr c' Hin' Hid. replace c' with c; [done | ].
  apply (keyed_unique oc_client_id (oauth_clients db)); [apply Hw | done | done | congruence].
Qed.
Lemma code_live_one (c : OAuthAuthorizationCodeRecord) db :
  auth_wf db -> c ∈ oauth_codes db -> ac_used_at c = None -> ac_revoked_at c = None -> code_live (ac_code_hash c) db.
Proof.
  intros Hw Hin Hu Hr c' Hin' Hid. replace c' with c; [done | ].
  apply (keyed_unique ac_code_hash (oauth_codes db)); [apply Hw | done | done | congruence].
Qed.
Lemma access_live_one (t : OAuthAccessTokenRecord) db :
  auth_wf db -> t ∈ oauth_access db -> at_revoked_at t = None -> access_live (at_token_hash t) db.
Proof.
  intros Hw Hin Hr t' Hin' Hid. replace t' with t; [done | ].
  apply (keyed_unique at_token_hash (oauth_access db)); [apply Hw | done | done | congruence].
Qed.
Lemma refresh_live_one (t : OAuthRefreshTokenRecord) db :
  auth_wf db -> t ∈ oauth_refresh db -> rt_revoked_at t = None -> refresh_live (rt_token_hash t) db.
Proof.
  intros Hw Hin Hr t' Hin' Hid. replace t' with t; [done | ].
  apply (keyed_unique rt_token_hash (oauth_refresh db)); [apply Hw | done | done | congruence].
Qed.
Lemma redeemable_live (h : str) (now : Z) db (c : OAuthAuthorizationCodeRecord) :
  auth_wf db -> c ∈ oauth_codes db -> redeemable h now c = true -> code_live h db.
Proof.
  intros Hw Hin Hr. unfold redeemable in Hr. split_andb.
  match goal with Hh : ac_code_hash c = h |- _ => rewrite <- Hh end.
  apply code_live_one; [done | done | by destruct (ac_used_at c) | by destruct (ac_revoked_at c)].
Qed.

(** A code that is taken: it was redeemable, it is now marked, and the pair is stored. *)
Lemma exchange_effect db db' (h : str) (now : Z) (a : OAuthAccessTokenRecord) (r : OAuthRefreshTokenRecord) :
  auth_wf db -> call (ExchangeCode h now a r) db = (db', Ok true) ->
  exists c, c ∈ oauth_codes db /\ redeemable h now c = true
    /\ (c <| ac_used_at := Some now |>) ∈ oauth_codes db' /\ a ∈ oauth_access db' /\ r ∈ oauth_refresh db'.
Proof.
  intros Hw Hc.
  set (post := fun (b : bool) (db' : AuthDb) => b = true -> exists c, c ∈ oauth_codes db /\ redeemable h now c = true
    /\ (c <| ac_used_at := Some now |>) ∈ oauth_codes db' /\ a ∈ oauth_access db' /\ r ∈ oauth_refresh db').
  refine (call_ok _ _ _ _ post Hc _ eq_refl). clear Hc.
  cbn [perform]. unfold exchange_transaction, insert_access_row, insert_refresh_row. auth_steps; [done | ]. intros _.
  destruct (rows_matched (redeemable h now) (oauth_codes db)) as [|n] eqn:Em; [done | ].
  destruct (rows_matched_hit (oauth_codes db) (redeemable h now) n) as (c & Hin & Hr); [by rewrite Em, Nat.eqb_refl | ].
  exists c. cbn. split_and!; [done | done | | by apply elem_of_app; right; apply list_elem_of_here | by apply elem_of_app; right; apply list_elem_of_here].
  apply (rows_update_hit _ _ (fun c => c <| ac_used_at := Some now |>)); done.
Qed.

Lemma exchange_refused db db' (h : str) (now : Z) (a : OAuthAccessTokenRecord) (r : OAuthRefreshTokenRecord) :
  call (ExchangeCode h now a r) db = (db', Ok false) -> forall c, c ∈ oauth_codes db -> redeemable h now c = false.
Proof.
  intros Hc.
  set (post := fun (b : bool) (_ : AuthDb) => b = false -> forall c, c ∈ oauth_codes db -> redeemable h now c = false).
  refine (call_ok _ _ _ _ post Hc _ eq_refl). clear Hc.
  cbn [perform]. unfold exchange_transaction, insert_access_row, insert_refresh_row. auth_steps; [ | done]. intros _.
  apply rows_matched_none. by apply Nat.eqb_eq.
Qed.

(** A rotation: the old token was live and this client's, it is now revoked, and the pair is stored. *)
Lemma rotate_effect db db' (h client_id : str) (now : Z) (a : OAuthAccessTokenRecord) (r old' : OAuthRefreshTokenRecord) :
  auth_wf db -> call (RotateRefresh h client_id now a r) db = (db', Ok (Rotated old')) ->
  exists old, old ∈ oauth_refresh db /\ rt_token_hash old = h /\ rt_revoked_at old = None /\ (now < rt_expires_at old)%Z
    /\ rt_client_id old = client_id /\ old' = old <| rt_revoked_at := Some now |> <| rt_last_used_at := Some now |>
    /\ old' ∈ oauth_refresh db' /\ a ∈ oauth_access db' /\ r ∈ oauth_refresh db'.
Proof.
  intros Hw Hc.
  set (post := fun (x : RotateResult) (db' : AuthDb) => match x with Rotated old' =>
    exists old, old ∈ oauth_refresh db /\ rt_token_hash old = h /\ rt_revoked_at old = None /\ (now < rt_expires_at old)%Z
    /\ rt_client_id old = client_id /\ old' = old <| rt_revoked_at := Some now |> <| rt_last_used_at := Some now |>
    /\ old' ∈ oauth_refresh db' /\ a ∈ oauth_access db' /\ r ∈ oauth_refresh db' | _ => True end).
  apply (call_ok _ _ _ _ post Hc). clear Hc. cbn [perform].
  unfold rotate_oauth_refresh_token, insert_access_row, insert_refresh_row. auth_steps; try exact I.
  apply find_elem in Ho as [Hin Hh%beq_true]. split_andb. cbn [post].
  assert (Hrev : rt_revoked_at o = None) by (destruct (rt_revoked_at o); [done | done]).
  exists o. cbn. split_and!; try done; [by apply Z.leb_gt | | by apply elem_of_app; right; apply list_elem_of_here | by apply elem_of_app; right; apply list_elem_of_here].
  apply elem_of_app. left.
  apply (rows_update_hit _ _ (fun t => t <| rt_revoked_at := Some now |> <| rt_last_used_at := Some now |>)); [done | ].
  rewrite beq_refl, Hrev. cbn. apply Z.ltb_lt. by apply Z.leb_gt.
Qed.
End Store.

(** ** Events that happen once *)

(** The code with this hash was taken. *)
Definition redeems (h : str) (e : Event) : bool :=
  match e with
  | Called _ op r =>
      match op in AuthOp A return result A StoreError -> bool with
      | ConsumeCode h' _ => fun r => match r with Ok (S _) => h' ==? h | _ => false end
      | ExchangeCode h' _ _ _ => fun r => match r with Ok true => h' ==? h | _ => false end
      | _ => fun _ => false
      end r
  end.

(** The refresh token with this hash was rotated. *)
Definition rotates (h : str) (e : Event) : bool :=
  match e with
  | Called _ op r =>
      match op in AuthOp A return result A StoreError -> bool with
      | RotateRefresh h' _ _ _ _ => fun r => match r with Ok (Rotated _) => h' ==? h | _ => false end
      | _ => fun _ => false
      end r
  end.

(** The pairing code with this hash was consumed. *)
Definition enrolls (h : str) (e : Event) : bool :=
  match e with
  | Called _ op r =>
      match op in AuthOp A return result A StoreError -> bool with
      | ConsumePairing h' _ _ => fun r => match r with Ok (PairingConsumed _) => h' ==? h | _ => false end
      | _ => fun _ => false
      end r
  end.

Definition code_spent (h : str) (db : AuthDb) : Prop :=
  exists c, c ∈ oauth_codes db /\ ac_code_hash c = h /\ is_some (ac_used_at c) = true.
Definition refresh_spent (h : str) (db : AuthDb) : Prop :=
  exists t, t ∈ oauth_refresh db /\ rt_token_hash t = h /\ is_some (rt_revoked_at t) = true.
Definition pairing_spent (h : str) (db : AuthDb) : Prop :=
  exists p, p ∈ pairing_codes db /\ pc_code_hash p = h /\ is_some (pc_used_at p) = true.

(** What a kept row keeps. *)
Lemma code_kept_fields (c c' : OAuthAuthorizationCodeRecord) : code_kept c c' ->
  ac_id c' = ac_id c /\ ac_code_hash c' = ac_code_hash c /\ ac_client_id c' = ac_client_id c
  /\ ac_subject_kind c' = ac_subject_kind c /\ ac_subject_id c' = ac_subject_id c /\ ac_user_id c' = ac_user_id c
  /\ ac_redirect_uri c' = ac_redirect_uri c /\ ac_scopes c' = ac_scopes c /\ ac_code_challenge c' = ac_code_challenge c
  /\ ac_code_challenge_method c' = ac_code_challenge_method c /\ ac_resource c' = ac_resource c
  /\ ac_shared_key_hash c' = ac_shared_key_hash c /\ ac_expires_at c' = ac_expires_at c.
Proof. destruct c, c'. intros [[=] _]. cbn. by split_and!. Qed.
Lemma access_kept_fields (t t' : OAuthAccessTokenRecord) : access_kept t t' ->
  at_id t' = at_id t /\ at_token_hash t' = at_token_hash t /\ at_client_id t' = at_client_id t
  /\ at_scopes t' = at_scopes t /\ at_expires_at t' = at_expires_at t.
Proof. destruct t, t'. intros [[=] _]. cbn. by split_and!. Qed.
Lemma refresh_kept_fields (t t' : OAuthRefreshTokenRecord) : refresh_kept t t' ->
  rt_id t' = rt_id t /\ rt_token_hash t' = rt_token_hash t /\ rt_client_id t' = rt_client_id t
  /\ rt_subject_kind t' = rt_subject_kind t /\ rt_subject_id t' = rt_subject_id t /\ rt_user_id t' = rt_user_id t
  /\ rt_scopes t' = rt_scopes t /\ rt_resource t' = rt_resource t /\ rt_shared_key_hash t' = rt_shared_key_hash t
  /\ rt_expires_at t' = rt_expires_at t.
Proof. destruct t, t'. intros [[=] _]. cbn. by split_and!. Qed.
Lemma client_kept_fields (c c' : OAuthClientRecord) : client_kept c c' ->
  oc_client_id c' = oc_client_id c /\ oc_client_secret_hash c' = oc_client_secret_hash c /\ oc_redirect_uris c' = oc_redirect_uris c.
Proof. destruct c, c'. intros [[=] _]. cbn. by split_and!. Qed.

Lemma code_spent_stays (h : str) (d d' : AuthDb) : moves d d' -> code_spent h d -> code_spent h d'.
Proof.
  intros Hm (c & Hin & Hh & Hu). destruct (moves_code d d' c Hm Hin) as (c' & Hin' & Hk). exists c'.
  destruct (code_kept_fields c c' Hk) as (_ & Hh' & _). destruct Hk as (_ & Hs & _).
  split_and!; [done | congruence | by eapply stamped_is_some].
Qed.
Lemma refresh_spent_stays (h : str) (d d' : AuthDb) : moves d d' -> refresh_spent h d -> refresh_spent h d'.
Proof.
  intros Hm (c & Hin & Hh & Hu). destruct (moves_refresh d d' c Hm Hin) as (c' & Hin' & Hk). exists c'.
  destruct (refresh_kept_fields c c' Hk) as (_ & Hh' & _). destruct Hk as (_ & Hs).
  split_and!; [done | congruence | by eapply stamped_is_some].
Qed.
Lemma pairing_spent_stays (h : str) (d d' : AuthDb) : moves d d' -> pairing_spent h d -> pairing_spent h d'.
Proof.
  intros [_ [? ? ? Hp _ _ _ _]] (p & Hin & Hh & Hu). destruct (grows_elem _ _ _ _ Hp Hin) as (p' & Hin' & Hk & Hs).
  exists p'. split_and!; [done | | by eapply stamped_is_some]. destruct p, p'. injection Hk as. cbn in *. congruence.
Qed.

(** A redeemable code with an unspent hash becomes spent. *)
Lemma redeemable_unspent (h : str) (now : Z) (d : AuthDb) (c : OAuthAuthorizationCodeRecord) :
  auth_wf d -> c ∈ oauth_codes d -> redeemable h now c = true -> ~ code_spent h d.
Proof.
  intros Hw Hin Hr (c' & Hin' & Hh & Hu). unfold redeemable in Hr. split_andb.
  assert (c' = c) as -> by (apply (keyed_unique ac_code_hash (oauth_codes d)); [apply Hw | done | done | congruence]).
  by destruct (ac_used_at c).
Qed.

Lemma redeem_closes (h : str) (j : nat) {B : Type} (op : AuthOp B) (d d' : AuthDb) (r : result B StoreError) :
  auth_wf d -> call op d = (d', r) -> redeems h (Called j op r) = true -> code_spent h d' /\ ~ code_spent h d.
Proof.
  intros Hw Hc Hf. destruct op; cbn in Hf; try done.
  - destruct r as [[|n]|e]; try done. apply beq_true in Hf as ->. unfold call, run_tx in Hc. cbn in Hc.
    injection Hc as <- Hn. destruct (rows_matched_hit (oauth_codes d) (redeemable h now) n) as (c & Hin & Hr).
    { rewrite Hn. by rewrite Nat.eqb_refl. }
    split; [ | by apply (redeemable_unspent h now d c)].
    exists (c <| ac_used_at := Some now |>). cbn. split_and!; [ | | done].
    + apply (rows_update_hit _ _ (fun c => c <| ac_used_at := Some now |>)); done.
    + unfold redeemable in Hr. by split_andb.
  - destruct r as [[]|e]; try done. apply beq_true in Hf as ->. apply exchange_effect in Hc as (c & Hin & Hr & Hin' & _); [ | done].
    split; [ | by apply (redeemable_unspent h now d c)]. exists (c <| ac_used_at := Some now |>). cbn. split_and!; [done | | done].
    unfold redeemable in Hr. by split_andb.
Qed.

Lemma rotate_closes (h : str) (j : nat) {B : Type} (op : AuthOp B) (d d' : AuthDb) (r : result B StoreError) :
  auth_wf d -> call op d = (d', r) -> rotates h (Called j op r) = true -> refresh_spent h d' /\ ~ refresh_spent h d.
Proof.
  intros Hw Hc Hf. destruct op; cbn in Hf; try done. destruct r as [[]|e]; try done. apply beq_true in Hf as ->.
  apply rotate_effect in Hc as (t & Hin & Hh & Hr & _ & _ & -> & Hin' & _); [ | done]. split.
  - by eexists; split; [exact Hin' | ].
  - intros (t' & Hin2 & Hh2 & Hr2).
    assert (t' = t) as -> by (apply (keyed_unique rt_token_hash (oauth_refresh d)); [apply Hw | done | done | congruence]).
    by rewrite Hr in Hr2.
Qed.

Lemma pairing_effect (d d' : AuthDb) (h client_id : str) (now : Z) (p' : PairingCodeRecord) :
  call (ConsumePairing h client_id now) d = (d', Ok (PairingConsumed p')) ->
  exists p, p ∈ pairing_codes d /\ pc_code_hash p = h /\ pc_used_at p = None /\ (now < pc_expires_at p)%Z
    /\ (pc_client_id p = [] \/ pc_client_id p = client_id)
    /\ p' = p <| pc_used_at := Some now |> <| pc_client_id := client_id |> /\ p' ∈ pairing_codes d'.
Proof.
  intros Hc.
  set (post := fun (x : PairingConsumeResult) (d' : AuthDb) => match x with PairingConsumed p' =>
    exists p, p ∈ pairing_codes d /\ pc_code_hash p = h /\ pc_used_at p = None /\ (now < pc_expires_at p)%Z
    /\ (pc_client_id p = [] \/ pc_client_id p = client_id)
    /\ p' = p <| pc_used_at := Some now |> <| pc_client_id := client_id |> /\ p' ∈ pairing_codes d' | _ => True end).
  apply (call_ok _ _ _ _ post Hc). clear Hc. cbn [perform]. unfold consume_pairing_code. auth_steps; try exact I.
  apply find_elem in Ho as [Hin Hh%beq_true].
  match goal with p : PairingCodeRecord |- _ => rename p into p0 end.
  assert (Hu : pc_used_at p0 = None) by (by destruct (pc_used_at p0)).
  assert (Hcl : pc_client_id p0 = [] \/ pc_client_id p0 = client_id).
  { destruct (pc_client_id p0) eqn:E; [by left | right]. cbn in *. split_andb. congruence. }
  exists p0. cbn. split_and!; try done; [by apply Z.leb_gt | ].
  apply (rows_update_hit _ _ (fun p => p <| pc_used_at := Some now |> <| pc_client_id := client_id |>)); [done | ].
  rewrite beq_refl, Hu. cbn. apply andb_true_iff. split; [apply Z.ltb_lt; by apply Z.leb_gt | ].
  destruct Hcl as [-> | ->]; [by rewrite orb_true_r | by rewrite beq_refl].
Qed.

Lemma enroll_closes (h : str) (j : nat) {B : Type} (op : AuthOp B) (d d' : AuthDb) (r : result B StoreError) :
  auth_wf d -> call op d = (d', r) -> enrolls h (Called j op r) = true -> pairing_spent h d' /\ ~ pairing_spent h d.
Proof.
  intros Hw Hc Hf. destruct op; cbn in Hf; try done. destruct r as [[]|e]; try done. apply beq_true in Hf as ->.
  apply pairing_effect in Hc as (p & Hin & Hh & Hr & _ & _ & -> & Hin'). split.
  - by eexists; split; [exact Hin' | ].
  - intros (p' & Hin2 & Hh2 & Hr2).
    assert (p' = p) as -> by (apply (keyed_unique pc_code_hash (pairing_codes d)); [apply Hw | done | done | congruence]).
    by rewrite Hr in Hr2.
Qed.

(** ** Endpoints *)

(** One construct of a request's program.  The state before a call is [w1], the state
    after it [w2]. *)
Ltac g_call :=
  let w1 := fresh "w1" in let w2 := fresh "w2" in let r := fresh "r" in let Hm := fresh "Hm" in let Hw1 := fresh "Hw1" in
  let Hc := fresh "Hc" in let Hm2 := fresh "Hm2" in let Hl := fresh "Hl" in
  apply guards_do; [assumption | intros w1 w2 r Hm Hw1 Hc Hm2 Hl].
Ltac g_step :=
  lazymatch goal with
  | |- guards _ (if ?b then _ else _) _ _ => let Hb := fresh "Hb" in destruct b eqn:Hb
  | |- guards _ (match ?o with Some _ => _ | None => _ end) _ _ => let Ho := fresh "Ho" in destruct o eqn:Ho
  | |- guards _ (match ?o with Ok _ => _ | Err _ => _ end) _ _ => let Ho := fresh "Ho" in destruct o eqn:Ho
  | |- guards _ (match ?o with (_, _) => _ end) _ _ => destruct o
  end.
(** Answers a postcondition says nothing of. *)
Ltac g_quiet := try (apply guards_ret; intros ? _; exact I).

Section Guarantees.
Context `{AuthEnv}.
Implicit Types (w : World) (db : AuthDb).

Lemma select_call_client (client_id : str) db db' (r : result (option OAuthClientRecord) StoreError) :
  call (GetClient client_id) db = (db', r) ->
  db' = db /\ exists o, r = Ok o /\ match o with
    | Some c => c ∈ oauth_clients db /\ oc_client_id c = client_id /\ oc_revoked_at c = None
    | None => forall c, c ∈ oauth_clients db -> oc_client_id c = client_id -> oc_revoked_at c <> None
    end.
Proof.
  unfold call, run_tx. cbn. intros [= <- <-]. split; [done | ]. eexists. split; [done | ].
  match goal with |- context [find ?p ?t] => destruct (find p t) as [c|] eqn:E end.
  - apply find_elem in E as [Hin Hc]. split_andb. by destruct (oc_revoked_at c).
  - intros c Hin Hid Hr. apply (find_elem_none _ _ c) in E; [ | done]. cbv beta in E. by rewrite Hid, beq_refl, Hr in E.
Qed.

Lemma select_call_code (h : str) db db' (r : result (option OAuthAuthorizationCodeRecord) StoreError) :
  call (GetCode h) db = (db', r) ->
  db' = db /\ exists o, r = Ok o /\ match o with
    | Some c => c ∈ oauth_codes db /\ ac_code_hash c = h /\ ac_revoked_at c = None | None => True end.
Proof.
  unfold call, run_tx. cbn. intros [= <- <-]. split; [done | ]. eexists. split; [done | ].
  match goal with |- context [find ?p ?t] => destruct (find p t) as [c|] eqn:E end; [ | done].
  apply find_elem in E as [Hin Hc]. split_andb. by destruct (ac_revoked_at c).
Qed.

Lemma select_call_consumed (h : str) db db' (r : result (option OAuthAuthorizationCodeRecord) StoreError) :
  call (GetCodeForConsume h) db = (db', r) ->
  db' = db /\ exists o, r = Ok o /\ match o with Some c => c ∈ oauth_codes db /\ ac_code_hash c = h | None => True end.
Proof.
  unfold call, run_tx. cbn. intros [= <- <-]. split; [done | ]. eexists. split; [done | ].
  match goal with |- context [find ?p ?t] => destruct (find p t) as [c|] eqn:E end; [ | done].
  apply find_elem in E as [Hin Hc%beq_true]. done.
Qed.

Lemma select_call_refresh (h : str) db db' (r : result (option OAuthRefreshTokenRecord) StoreError) :
  call (GetRefresh h) db = (db', r) ->
  db' = db /\ exists o, r = Ok o /\ match o with
    | Some c => c ∈ oauth_refresh db /\ rt_token_hash c = h /\ rt_revoked_at c = None | None => True end.
Proof.
  unfold call, run_tx. cbn. intros [= <- <-]. split; [done | ]. eexists. split; [done | ].
  match goal with |- context [find ?p ?t] => destruct (find p t) as [c|] eqn:E end; [ | done].
  apply find_elem in E as [Hin Hc]. split_andb. by destruct (rt_revoked_at c).
Qed.

Lemma select_call_access (h : str) db db' (r : result (option OAuthAccessTokenRecord) StoreError) :
  call (GetAccess h) db = (db', r) ->
  db' = db /\ exists o, r = Ok o /\ match o with
    | Some c => c ∈ oauth_access db /\ at_token_hash c = h /\ at_revoked_at c = None | None => True end.
Proof.
  unfold call, run_tx. cbn. intros [= <- <-]. split; [done | ]. eexists. split; [done | ].
  match goal with |- context [find ?p ?t] => destruct (find p t) as [c|] eqn:E end; [ | done].
  apply find_elem in E as [Hin Hc]. split_andb. by destruct (at_revoked_at c).
Qed.

Lemma select_call_user (id : str) db db' (r : result (option UserRecord) StoreError) :
  call (GetUserById id) db = (db', r) ->
  db' = db /\ exists o, r = Ok o /\ match o with Some u => u ∈ users db /\ us_id u = id | None => True end.
Proof.
  unfold call, run_tx. cbn. intros [= <- <-]. split; [done | ]. eexists. split; [done | ].
  match goal with |- context [find ?p ?t] => destruct (find p t) as [c|] eqn:E end; [ | done].
  apply find_elem in E as [Hin Hc%beq_true]. done.
Qed.

(** The client that proved it knows its secret. *)
Definition authenticated (client_id secret : str) (db : AuthDb) : Prop :=
  exists c, c ∈ oauth_clients db /\ oc_client_id c = client_id /\ as_bytes (oc_client_secret_hash c) = as_bytes (hash_token secret).

Lemma authenticated_stays (client_id secret : str) db db' :
  moves db db' -> authenticated client_id secret db -> authenticated client_id secret db'.
Proof.
  intros Hm (c & Hin & Hid & Hs). destruct (moves_client db db' c Hm Hin) as (c' & Hin' & Hk).
  destruct (client_kept_fields c c' Hk) as (H1 & H2 & _). exists c'. by rewrite H1, H2.
Qed.

Lemma secret_guards (i : nat) (client_id secret : str) w :
  w_wf w ->
  guards i (verify_oauth_client_secret client_id secret)
    (fun r w' => w_moves w w' /\ (r = Ok true -> authenticated client_id secret (w_db w') /\ client_live client_id (w_db w))) w.
Proof.
  intros Hw. unfold verify_oauth_client_secret, try_ask. g_call.
  apply select_call_client in Hc as (Hdb & o & -> & Ho). assert (Hmw : w_moves w w2) by (by eapply w_moves_trans).
  destruct o as [c|]; apply guards_ret; intros w' Hw'%others_moves; try by eapply w_moves_wf.
  - split; [by eapply w_moves_trans | ]. intros [= Heq%constant_time_eq_bytes]. destruct Hw' as [Hw' _]. destruct Hm2 as [Hm2 _].
    destruct Ho as (Hin & Hid & Hr). split.
    + apply (authenticated_stays _ _ (w_db w1)); [by eapply moves_trans | ]. by exists c.
    + destruct Hm as [Hm _]. eapply client_live_back; [done | ]. rewrite <- Hid. by apply client_live_one.
  - split; [by eapply w_moves_trans | done].
Qed.

Lemma burn_guards (i : nat) (h : str) (now : Z) (response : Response) (post : Response -> World -> Prop) w :
  (forall w', post response w') -> guards i (burn_code h now response) post w.
Proof.
  intros Hp. unfold burn_code, consume_oauth_authorization_code_by_hash, try_ask, ask. apply guards_bind, guards_do_any.
  intros [[|n]|e] w2; cbn [Nat.eqb]; [ | apply guards_do_any; intros r w3 | ]; apply guards_ret; intros w' _; apply guards_ret; intros; apply Hp.
Qed.

(** The pair of tokens a grant stores. *)
Definition pair_issued (config : Config) (now : Z) (client_id kind subject : str) (user shared : option str) (scopes : str)
  (resource parent : option str) (access refresh : str) (db : AuthDb) : Prop :=
  exists a r, a ∈ oauth_access db /\ r ∈ oauth_refresh db
    /\ access_grant a = mkAccess (at_id a) (hash_token access) client_id kind subject user scopes resource shared now
         (as_i64 (now + cf_access_token_ttl_secs config)) None None
    /\ refresh_grant r = mkRefresh (rt_id r) (hash_token refresh) client_id kind subject user scopes resource shared now
         (as_i64 (now + cf_refresh_token_ttl_secs config)) None None parent.

Lemma pair_issued_stays (config : Config) (now : Z) (client_id kind subject : str) (user shared : option str) (scopes : str)
  (resource parent : option str) (access refresh : str) db db' :
  moves db db' ->
  pair_issued config now client_id kind subject user shared scopes resource parent access refresh db ->
  pair_issued config now client_id kind subject user shared scopes resource parent access refresh db'.
Proof.
  intros Hm (a & r & Ha & Hr & Hga & Hgr). destruct (moves_access _ _ a Hm Ha) as (a' & Ha' & Hka).
  destruct (moves_refresh _ _ r Hm Hr) as (r' & Hr' & Hkr). exists a', r'.
  destruct (access_kept_fields _ _ Hka) as (-> & _). destruct (refresh_kept_fields _ _ Hkr) as (-> & _).
  destruct Hka as [-> _], Hkr as [-> _]. done.
Qed.

(** A code taken by a request of [client_id] that may take it. *)
Definition code_redeemed (config : Config) (client_id : str) (form : TokenRequest) (now : Z) (access refresh : str)
  (scope : option str) (db : AuthDb) : Prop :=
  exists code text uri resource, tq_code form = Some text /\ tq_redirect_uri form = Some uri
    /\ code ∈ oauth_codes db /\ ac_code_hash code = hash_token text /\ ac_client_id code = client_id
    /\ ac_redirect_uri code = uri /\ ac_used_at code = Some now /\ (now < ac_expires_at code)%Z
    /\ (forall challenge, ac_code_challenge code = Some challenge -> exists verifier, tq_code_verifier form = Some verifier
          /\ as_bytes (base64_url_no_pad (sha256 (as_bytes verifier))) = as_bytes challenge)
    /\ (ac_code_challenge code = None -> cf_require_pkce config = false)
    /\ resolve_token_resource config (tq_resource form) (ac_resource code) = Ok resource
    /\ scope = (if is_empty (ac_scopes code) then None else Some (ac_scopes code))
    /\ pair_issued config now client_id (ac_subject_kind code) (ac_subject_id code) (ac_user_id code)
         (ac_shared_key_hash code) (ac_scopes code) resource None access refresh db.

Lemma code_redeemed_stays (config : Config) (client_id : str) (form : TokenRequest) (now : Z) (access refresh : str)
  (scope : option str) db db' :
  moves db db' -> code_redeemed config client_id form now access refresh scope db ->
  code_redeemed config client_id form now access refresh scope db'.
Proof.
  intros Hm (code & text & uri & resource & Ht & Hu & Hin & Hh & Hcl & Hru & Hus & Hex & Hp1 & Hp2 & Hr & Hs & Hp).
  destruct (moves_code _ _ code Hm Hin) as (code' & Hin' & Hk).
  destruct (code_kept_fields _ _ Hk) as (Fi & Fh & Fc & Fk & Fs & Fu & Fr & Fsc & Fch & Fm & Fre & Fsh & Fe).
  destruct Hk as (_ & Husd & _). exists code', text, uri, resource.
  rewrite Fh, Fc, Fk, Fs, Fu, Fr, Fsc, Fch, Fre, Fsh, Fe. split_and!; try done.
  - rewrite Hus in Husd. by apply stamped_some.
  - by apply (pair_issued_stays _ _ _ _ _ _ _ _ _ _ _ _ db).
Qed.

(** What an answer of the authorization-code grant says. *)
Definition code_answer (i : nat) (config : Config) (client_id : str) (form : TokenRequest) (now : Z) (w0 : World) (resp : Response)
  (w : World) : Prop :=
  match resp with
  | TokenBody access _ refresh scope =>
      code_redeemed config client_id form now access refresh scope (w_db w)
      /\ exists e text, e ∈ w_log w /\ event_request e = i /\ tq_code form = Some text /\ redeems (hash_token text) e = true
           /\ code_live (hash_token text) (w_db w0)
  | _ => True
  end.

Lemma nonempty_some (o : option str) (s : str) : nonempty o = Some s -> o = Some s.
Proof. destruct o as [[|c t]|]; cbn; [done | by intros [= <-] | done]. Qed.

Lemma pkce_passed (config : Config) (code : OAuthAuthorizationCodeRecord) (verifier : option str) :
  pkce_error config code verifier = None ->
  (forall challenge, ac_code_challenge code = Some challenge -> exists v, verifier = Some v
     /\ as_bytes (base64_url_no_pad (sha256 (as_bytes v))) = as_bytes challenge)
  /\ (ac_code_challenge code = None -> cf_require_pkce config = false).
Proof.
  unfold pkce_error. destruct (ac_code_challenge code) as [ch|].
  - destruct (nonempty verifier) as [v|] eqn:Ev; [ | done]. apply nonempty_some in Ev as ->.
    destruct (negb _); [done | ]. destruct (verify_pkce_s256 v ch) eqn:Ep; [ | done]. intros _.
    split; [ | done]. intros c [= <-]. exists v. split; [done | by apply constant_time_eq_bytes].
  - destruct (cf_require_pkce config); [done | ]. done.
Qed.

Lemma pkce_failed (config : Config) (code : OAuthAuthorizationCodeRecord) (verifier : option str) (resp : Response) :
  pkce_error config code verifier = Some resp -> exists description, resp = invalid_grant description.
Proof. unfold pkce_error. repeat case_match; intros [= <-]; eauto. Qed.

(** The last calls of the grant: the exchange, then a read of the code it took. *)
Lemma exchange_guards (i : nat) (h : str) (now : Z) (a : OAuthAccessTokenRecord) (r : OAuthRefreshTokenRecord) w :
  w_wf w ->
  guards i (exchange_oauth_authorization_code_for_tokens h now a r) (fun x w' => match x with
    | Ok (Some code) => w_moves w w' /\ code_live h (w_db w) /\ exists c c' a' r', redeemable h now c = true /\ code_kept (c <| ac_used_at := Some now |>) c'
        /\ c' ∈ oauth_codes (w_db w') /\ ac_scopes code = ac_scopes c'
        /\ a' ∈ oauth_access (w_db w') /\ access_kept a a' /\ r' ∈ oauth_refresh (w_db w') /\ refresh_kept r r'
        /\ exists e, e ∈ w_log w' /\ event_request e = i /\ redeems h e = true
    | _ => True end) w.
Proof.
  intros Hw. unfold exchange_oauth_authorization_code_for_tokens, try_ask, ask. g_call.
  destruct r0 as [[]|e]; g_quiet. apply exchange_effect in Hc as (c & Hin0 & Hr & Hin & Ha & Hrf); [ | done].
  assert (Hlive : code_live h (w_db w)).
  { destruct Hm as [Hm _]. eapply code_live_back; [done | ]. by apply (redeemable_live h now _ c). }
  assert (Hw2 : w_wf w2) by (by eapply w_moves_wf).
  apply guards_do; [done | intros w3 w4 r1 Hm3 Hw3 Hc Hm4 _]. apply select_call_consumed in Hc as (_ & o & -> & Ho).
  destruct o as [code|]; g_quiet. destruct Ho as [Hcode Hh].
  apply guards_ret. intros w5 Hm5%others_moves; [ | by eapply w_moves_wf].
  assert (Hm35 : w_moves w3 w5) by (by eapply w_moves_trans).
  assert (Hm25 : w_moves w2 w5) by (by eapply w_moves_trans).
  split; [by do 2 (eapply w_moves_trans; [eassumption | ]) | ]. split; [done | ].
  destruct Hm3 as [Hm3 _], Hm35 as [Hm35 _], Hm25 as [Hm25 Hlog].
  destruct (moves_code _ _ _ Hm3 Hin) as (c3 & Hin3 & Hk3). destruct (code_kept_fields _ _ Hk3) as (_ & Hh3 & _).
  assert (c3 = code) as ->.
  { apply (keyed_unique ac_code_hash (oauth_codes (w_db w3))); [apply Hw3 | done | done | ]. rewrite Hh3, Hh. cbn.
    unfold redeemable in Hr. by split_andb. }
  destruct (moves_code _ _ _ Hm35 Hcode) as (c5 & Hin5 & Hk5). destruct (moves_access _ _ _ Hm25 Ha) as (a' & Ha' & Hka).
  destruct (moves_refresh _ _ _ Hm25 Hrf) as (r' & Hr' & Hkr). exists c, c5, a', r'.
  destruct (code_kept_fields _ _ Hk5) as (_ & _ & _ & _ & _ & _ & _ & Hsc & _).
  split_and!; try done; [by etransitivity | ].
  exists (Called i (ExchangeCode h now a r) (Ok true)). cbn. rewrite beq_refl. split_and!; [ | done | done].
  apply Hlog. rewrite Hl. by apply elem_of_app; right; apply list_elem_of_here.
Qed.

Lemma code_grant_guards (i : nat) (config : Config) (client : OAuthClientRecord) (form : TokenRequest) (now : Z) (g : TokenGen) w :
  w_wf w -> guards i (handle_authorization_code_grant config client form now g)
              (code_answer i config (oc_client_id client) form now w) w.
Proof.
  intros Hw. unfold handle_authorization_code_grant. do 2 (g_step; g_quiet).
  match goal with H : nonempty (tq_code form) = Some ?t |- _ => rename t into text; apply nonempty_some in H end.
  match goal with H : nonempty (tq_redirect_uri form) = Some ?t |- _ => rename t into uri; apply nonempty_some in H end.
  g_call. apply select_call_code in Hc as (Hdb & o & -> & Hcode). destruct o as [code|]; g_quiet.
  do 4 (g_step; [by apply burn_guards | ]). g_step; [by apply pkce_failed in Ho1 as [d ->]; apply burn_guards | ].
  g_step; [ | by apply burn_guards]. apply guards_bind. assert (Hw2 : w_wf w2) by (by eapply w_moves_wf).
  eapply guards_mono, exchange_guards; [ | done]. intros x w5 Hx. apply guards_ret. intros w6 Hm6.
  destruct x as [[code5|]|e]; try exact I. destruct Hx as (Hm5 & Hlive & c & c' & a' & r' & Hr & Hk & Hin & Hsc & Ha & Hka & Hrf & Hkr & e & He & Hi & Hf).
  apply others_moves in Hm6 as [Hm6 Hlog6]; [ | by eapply w_moves_wf]. split.
  2: { exists e, text. split_and!; auto. destruct Hm as [Hm _], Hm2 as [Hm2 _]. by eapply code_live_back; [eapply moves_trans | ]. }
  apply (code_redeemed_stays _ _ _ _ _ _ _ (w_db w5)); [done | ]. destruct Hcode as (Hcin & Hch & _).
  destruct Hm5 as [Hm5 _]. assert (Hm15 : moves (w_db w1) (w_db w5)) by (destruct Hm2 as [? _]; by eapply moves_trans).
  destruct (moves_code _ _ _ Hm15 Hcin) as (code' & Hcin' & Hkc). destruct (code_kept_fields _ _ Hk) as (_ & Hh' & _ & _ & _ & _ & _ & _ & _ & _ & _ & _ & Hex).
  destruct (code_kept_fields _ _ Hkc) as (Fi & Fh & Fc & Fk & Fs & Fu & Fr & Fsc & Fch & Fm & Fre & Fsh & Fe).
  unfold redeemable in Hr. cbn in Hh', Hex. split_andb.
  assert (code' = c') as ->.
  { apply (keyed_unique ac_code_hash (oauth_codes (w_db w5))); [by destruct Hm5 as [[] _] | done | done | congruence]. }
  destruct (pkce_passed _ _ _ Ho1) as [Hp1 Hp2]. exists c', text, uri, value.
  rewrite Fh, Fc, Fk, Fs, Fu, Fr, Fsc, Fch, Fre, Fsh. split_and!; try done.
  - destruct Hk as (_ & Hus & _). by apply stamped_some.
  - rewrite Hex. by apply Z.ltb_lt.
  - by rewrite Hsc, Fsc.
  - exists a', r'. destruct (access_kept_fields _ _ Hka) as (-> & _). destruct (refresh_kept_fields _ _ Hkr) as (-> & _).
    destruct Hka as [-> _], Hkr as [-> _]. done.
Qed.
(** A refresh token rotated by a request of [client_id]. *)
Definition refresh_rotated (config : Config) (client_id : str) (form : TokenRequest) (now : Z) (access refresh : str)
  (scope : option str) (db : AuthDb) : Prop :=
  exists old text resource, tq_refresh_token form = Some text
    /\ old ∈ oauth_refresh db /\ rt_token_hash old = hash_token text /\ rt_client_id old = client_id
    /\ rt_revoked_at old = Some now /\ (now < rt_expires_at old)%Z
    /\ resolve_token_resource config (tq_resource form) (rt_resource old) = Ok resource
    /\ scope = (if is_empty (rt_scopes old) then None else Some (rt_scopes old))
    /\ pair_issued config now client_id (rt_subject_kind old) (rt_subject_id old) (rt_user_id old)
         (rt_shared_key_hash old) (rt_scopes old) resource (Some (rt_id old)) access refresh db.

Lemma refresh_rotated_stays (config : Config) (client_id : str) (form : TokenRequest) (now : Z) (access refresh : str)
  (scope : option str) db db' :
  moves db db' -> refresh_rotated config client_id form now access refresh scope db ->
  refresh_rotated config client_id form now access refresh scope db'.
Proof.
  intros Hm (old & text & resource & Ht & Hin & Hh & Hcl & Hrv & Hex & Hr & Hs & Hp).
  destruct (moves_refresh _ _ old Hm Hin) as (old' & Hin' & Hk).
  destruct (refresh_kept_fields _ _ Hk) as (Fi & Fh & Fc & Fk & Fs & Fu & Fsc & Fre & Fsh & Fe).
  destruct Hk as (_ & Hrev). exists old', text, resource. rewrite Fi, Fh, Fc, Fk, Fs, Fu, Fsc, Fre, Fsh, Fe. split_and!; try done.
  - rewrite Hrv in Hrev. by apply stamped_some.
  - by apply (pair_issued_stays _ _ _ _ _ _ _ _ _ _ _ _ db).
Qed.

(** What an answer of the refresh grant says. *)
Definition refresh_answer (i : nat) (config : Config) (client_id : str) (form : TokenRequest) (now : Z) (w0 : World)
  (resp : Response) (w : World) : Prop :=
  match resp with
  | TokenBody access _ refresh scope =>
      refresh_rotated config client_id form now access refresh scope (w_db w)
      /\ exists e text, e ∈ w_log w /\ event_request e = i /\ tq_refresh_token form = Some text
           /\ rotates (hash_token text) e = true /\ refresh_live (hash_token text) (w_db w0)
  | _ => True
  end.

Lemma refresh_grant_guards (i : nat) (config : Config) (client : OAuthClientRecord) (form : TokenRequest) (now : Z) (g : TokenGen) w :
  w_wf w -> guards i (handle_refresh_token_grant config client form now g)
              (refresh_answer i config (oc_client_id client) form now w) w.
Proof.
  intros Hw. unfold handle_refresh_token_grant. g_step; g_quiet.
  match goal with H : nonempty (tq_refresh_token form) = Some ?t |- _ => rename t into text; apply nonempty_some in H end.
  g_call. apply select_call_refresh in Hc as (Hdb & o & -> & Hold). assert (Hw2 : w_wf w2) by (by eapply w_moves_wf).
  destruct o as [old|]; [ | apply guards_do_any; intros [[rt|]|e] w3; [repeat case_match | | ]; g_quiet].
  do 2 (g_step; g_quiet). g_step; g_quiet.
  apply guards_do; [done | intros w3 w4 r3 Hm3 Hw3 Hc Hm4 Hl4]. apply guards_ret. intros w5 Hm5.
  destruct r3 as [[old'| | | |]|e]; try exact I.
  apply rotate_effect in Hc as (old3 & Hin3 & Hh3 & Hrv & Hex & Hcl & -> & Hin4 & Ha & Hr); [ | done].
  apply others_moves in Hm5 as [Hm5 Hlog5]; [ | by eapply w_moves_wf]. destruct Hold as (Hin & Hh & _).
  assert (Hk : refresh_kept old old3).
  { assert (Hm13 : moves (w_db w1) (w_db w3)) by (destruct Hm2 as [? _], Hm3 as [? _]; by eapply moves_trans).
    destruct (moves_refresh _ _ _ Hm13 Hin) as (old2 & Hin2 & Hk2). destruct (refresh_kept_fields _ _ Hk2) as (_ & Hh2 & _).
    replace old3 with old2; [done | ].
    apply (keyed_unique rt_token_hash (oauth_refresh (w_db w3))); [apply Hw3 | done | done | congruence]. }
  destruct (refresh_kept_fields _ _ Hk) as (Fi & Fh & Fc & Fk & Fs & Fu & Fsc & Fre & Fsh & Fe). split.
  - apply (refresh_rotated_stays _ _ _ _ _ _ _ (w_db w4)); [done | ].
    exists (old3 <| rt_revoked_at := Some now |> <| rt_last_used_at := Some now |>), text, value. cbn.
    rewrite Fi, Fk, Fs, Fu, Fsc, Fre, Fsh. split_and!; try done. by eexists _, _; split_and!.
  - exists (Called i (RotateRefresh (hash_token text) (oc_client_id client) now
      (mkAccess (tg_access_id g) (hash_token (generate_oauth_access_token (tg_access_random g))) (oc_client_id client)
        (rt_subject_kind old) (rt_subject_id old) (rt_user_id old) (rt_scopes old) value (rt_shared_key_hash old) now
        (as_i64 (now + cf_access_token_ttl_secs config)) None None)
      (mkRefresh (tg_refresh_id g) (hash_token (generate_oauth_refresh_token (tg_refresh_random g))) (oc_client_id client)
        (rt_subject_kind old) (rt_subject_id old) (rt_user_id old) (rt_scopes old) value (rt_shared_key_hash old) now
        (as_i64 (now + cf_refresh_token_ttl_secs config)) None None (Some (rt_id old))))
      (Ok (Rotated (old3 <| rt_revoked_at := Some now |> <| rt_last_used_at := Some now |>)))), text.
    split_and!; [ | done | done | cbn; by rewrite beq_refl | ].
    + apply Hlog5. rewrite Hl4. by apply elem_of_app; right; apply list_elem_of_here.
    + destruct Hm as [Hm _], Hm2 as [Hm2 _], Hm3 as [Hm3 _]. apply (refresh_live_back _ _ (w_db w3)).
      * by eapply moves_trans; [ | eapply moves_trans].
      * rewrite <- Hh3. by apply refresh_live_one.
Qed.

(** What an answer of the token endpoint says: tokens go to an authenticated client, for a
    code it redeems or a refresh token it rotates. *)
Definition token_answer (i : nat) (config : Config) (form : TokenRequest) (now : Z) (w0 : World) (resp : Response) (w : World)
  : Prop :=
  match resp with
  | TokenBody access expires refresh scope =>
      exists client_id secret, tq_client_id form = Some client_id /\ tq_client_secret form = Some secret
        /\ authenticated client_id secret (w_db w) /\ client_live client_id (w_db w0)
        /\ ((tq_grant_type form = Some AUTHORIZATION_CODE /\ code_answer i config client_id form now w0 resp w)
            \/ (tq_grant_type form = Some REFRESH_TOKEN /\ refresh_answer i config client_id form now w0 resp w))
  | _ => True
  end.

Lemma token_guards (i : nat) (config : Config) (db_available : bool) (req : HttpRequest) (now : Z) (g : TokenGen)
  (body : list N) (form : TokenRequest) w :
  w_wf w -> form_body (Some config) req = Ok (config, body) -> token_form body = Ok form ->
  guards i (oauth_token (Some config) db_available req now g) (token_answer i config form now w) w.
Proof.
  intros Hw Hb Hf. unfold oauth_token. rewrite Hb, Hf. do 6 (g_step; g_quiet).
  match goal with H0 : tq_grant_type _ = Some ?t, H1 : nonempty (tq_client_id _) = Some ?c, H2 : nonempty (tq_client_secret _) = Some ?s |- _ =>
    rename t into grant_type, c into client_id, s into secret, H0 into Hgt; apply nonempty_some in H1; apply nonempty_some in H2 end. apply guards_bind. eapply guards_mono, secret_guards; [ | done]. intros [[]|e] w1 [Hm1 Hauth]; g_quiet.
  destruct (Hauth eq_refl) as [Hauth1 Hlive]. clear Hauth. rename Hauth1 into Hauth. assert (Hw1 : w_wf w1) by (by eapply w_moves_wf).
  apply guards_do; [done | intros w2 w3 r Hm2 Hw2 Hc Hm3 _]. apply select_call_client in Hc as (_ & o & -> & Ho').
  destruct o as [client|]; g_quiet. assert (Hm03 : w_moves w w3) by (by do 2 (eapply w_moves_trans; [eassumption | ])). destruct Ho' as (_ & Hid & _). assert (Hw3 : w_wf w3) by (by eapply w_moves_wf).
  assert (Hauth3 : authenticated client_id secret (w_db w3)).
  { destruct Hm2 as [Hm2 _], Hm3 as [Hm3 _]. by eapply authenticated_stays, Hauth; eapply moves_trans. }
  assert (Hend : forall resp w5, w_moves w3 w5 ->
    (tq_grant_type form = Some AUTHORIZATION_CODE /\ code_answer i config client_id form now w3 resp w5)
    \/ (tq_grant_type form = Some REFRESH_TOKEN /\ refresh_answer i config client_id form now w3 resp w5) ->
    token_answer i config form now w resp w5).
  { intros resp w5 [Hm5 _] Hor. destruct resp; try exact I. exists client_id, secret. split_and!; try done.
    - by apply (authenticated_stays _ _ (w_db w3)).
    - destruct Hm03 as [Hm03 _], Hor as [(Hgr & Hcr & e & text & ? & ? & ? & ? & ?) | (Hgr & Hcr & e & text & ? & ? & ? & ? & ?)]; [left | right].
      + split; [done | ]. split; [done | ]. exists e, text. split_and!; try done. by eapply code_live_back.
      + split; [done | ]. split; [done | ]. exists e, text. split_and!; try done. by eapply refresh_live_back. }
  rewrite <- Hid in Hend. g_step.
  - eapply guards_mono, guards_moves, code_grant_guards; [ | done | done]. intros resp w5 [Hm5 Ha]. apply Hend; [done | left].
    apply beq_true in Hb3. by rewrite Hgt, Hb3.
  - eapply guards_mono, guards_moves, refresh_grant_guards; [ | done | done]. intros resp w5 [Hm5 Ha]. apply Hend; [done | right].
    rewrite Hgt. split; [ | done]. f_equal. apply beq_false in Hb3. split_andb.
    match goal with H : one_of grant_type _ = true |- _ => apply one_of_spec in H; set_solver end.
Qed.
(** *** Bearer tokens *)

Lemma pat_guards (i : nat) (config : Config) (db_available : bool) (token : str) (now : Z) w :
  guards i (pat_verify config db_available token now)
    (fun v _ => match v with Ok (Some ctx) => cx_kind ctx <> KOAuth2Token | _ => True end) w.
Proof.
  unfold pat_verify. do 3 (g_step; [by apply guards_ret | ]). apply guards_do_any. intros k w1. g_step.
  - apply guards_do_any. intros u w2. g_step; g_quiet. do 2 (g_step; g_quiet). apply guards_do_any. intros _ w3.
    apply guards_ret. intros w' _. cbn. by destruct (ak_is_agent_token a).
  - apply guards_do_any. intros c w2. g_step; g_quiet. apply guards_do_any. intros u w3. g_step; g_quiet. g_step; g_quiet.
    apply guards_do_any. intros _ w4. by apply guards_ret.
Qed.

(** Whose token it is. *)
Definition acts_for (config : Config) (ctx : AuthContext) (t : OAuthAccessTokenRecord) : Prop :=
  (at_subject_kind t = lit "managed_user" /\ at_user_id t = Some (at_subject_id t) /\ cx_user_id ctx = Some (at_subject_id t)
   /\ cx_shared_key_hash ctx = None /\ cx_project_grant_id ctx = None)
  \/ (at_subject_kind t = lit "shared_key" /\ at_shared_key_hash t = Some (at_subject_id t) /\ cx_user_id ctx = None
      /\ cx_shared_key_hash ctx = Some (at_subject_id t) /\ cx_project_grant_id ctx = None)
  \/ (at_subject_kind t = Authority.PROJECT_SHARE_OAUTH_SUBJECT_KIND
      /\ configured_project_share_subject config = Ok (Some (at_subject_id t)) /\ cx_user_id ctx = None
      /\ cx_shared_key_hash ctx = None /\ project_share_scopes_are_bounded (at_scopes t) = true
      /\ exists grant session, Authority.parse_project_share_subject_id (at_subject_id t) = Ok (grant, session)
           /\ cx_project_grant_id ctx = Some grant).

(** A live token of a live client, and the context it yields; [w0] is when the request began. *)
Definition bearer_context (config : Config) (token : str) (now : Z) (w0 : World) (ctx : AuthContext) (db : AuthDb) : Prop :=
  exists t, t ∈ oauth_access db /\ at_token_hash t = hash_token token /\ (now < at_expires_at t)%Z
    /\ access_live (hash_token token) (w_db w0) /\ client_live (at_client_id t) (w_db w0)
    /\ cx_kind ctx = KOAuth2Token /\ cx_is_bootstrap ctx = false /\ cx_scopes ctx = split_whitespace (at_scopes t)
    /\ cx_api_key_id ctx = Some (at_id t) /\ cx_allowed_client_id ctx = Some (at_client_id t) /\ acts_for config ctx t.

Lemma acts_for_kept (config : Config) (ctx : AuthContext) (t t' : OAuthAccessTokenRecord) :
  access_kept t t' -> acts_for config ctx t -> acts_for config ctx t'.
Proof. intros [Hg _]. unfold acts_for. destruct t, t'. cbn in Hg. injection Hg as. cbn. subst. done. Qed.

Lemma bearer_context_stays (config : Config) (token : str) (now : Z) (w0 : World) (ctx : AuthContext) db db' :
  moves db db' -> bearer_context config token now w0 ctx db -> bearer_context config token now w0 ctx db'.
Proof.
  intros Hm (t & Hin & Hh & Hex & Hl & Hc & Hk1 & Hk2 & Hs & Hid & Hal & Hf).
  destruct (moves_access _ _ t Hm Hin) as (t' & Hin' & Hk). destruct (access_kept_fields _ _ Hk) as (Fi & Fh & Fc & Fs & Fe).
  exists t'. rewrite Fi, Fh, Fc, Fs, Fe. split_and!; try done. by eapply acts_for_kept.
Qed.
(** What [oauth2_context] hands on. *)
Definition context_of_token (config : Config) (t : OAuthAccessTokenRecord) (ctx : AuthContext) : Prop :=
  cx_kind ctx = KOAuth2Token /\ cx_is_bootstrap ctx = false /\ cx_scopes ctx = split_whitespace (at_scopes t)
  /\ cx_api_key_id ctx = Some (at_id t) /\ cx_allowed_client_id ctx = Some (at_client_id t) /\ acts_for config ctx t.

Lemma context_guards (i : nat) (config : Config) (t : OAuthAccessTokenRecord) (client : OAuthClientRecord)
  (finish : AuthContext -> prog (result (option AuthContext) str)) (post : result (option AuthContext) str -> World -> Prop) w :
  w_wf w -> (forall e w', post (Err e) w') ->
  (forall ctx w', context_of_token config t ctx -> w_moves w w' -> guards i (finish ctx) post w') ->
  guards i (oauth2_context config t client finish) post w.
Proof.
  intros Hw Herr Hfin. assert (Hrefl : w_moves w w) by (split; [by apply moves_refl | done]).
  assert (Hstop : forall e w', guards i (Ret (Err e)) post w') by (intros; apply guards_ret; intros; apply Herr).
  unfold oauth2_context. g_step; [ | g_step; [ | g_step; [ | apply Hstop]]].
  - g_step; [ | apply Hstop]. rename Ho into Hu. apply nonempty_some in Hu. g_step; [apply Hstop | ]. g_call.
    apply select_call_user in Hc as (_ & o & -> & Ho). destruct o as [u|]; cbn [found]; [ | apply Hstop].
    g_step; [apply Hstop | ]. apply Hfin; [ | by eapply w_moves_trans]. split_andb. destruct Ho as [_ Hid].
    unfold context_of_token. cbn. split_and!; try done. left. cbn. rewrite Hid, Hu. by split_and!; try congruence.
  - g_step; [apply Hstop | ]. g_step; [ | apply Hstop]. apply nonempty_some in Ho as Hk. g_step; [apply Hstop | ].
    apply Hfin; [ | done]. split_andb. unfold context_of_token. cbn. split_and!; try done. right; left. cbn.
    split_and!; try done; congruence.
  - g_step; [apply Hstop | ]. g_step; [ | apply Hstop]. g_step; [apply Hstop | ]. g_step; [ | apply Hstop]. g_step.
    g_step; [apply Hstop | ]. apply Hfin; [ | done]. split_andb. unfold context_of_token. cbn. split_and!; try done.
    right; right. cbn. split_and!; try done; [ | by eauto].
    unfold validate_project_share_grant_subject in *.
    match goal with Hk : at_subject_kind t = _, Hv : _ = Ok _ |- _ => rewrite Hk in Hv; rewrite beq_refl in Hv; cbn [negb] in Hv end.
    destruct (configured_project_share_subject config) as [[subject|]|]; cbn in *; try done.
    match goal with Hv : context [negb (beq ?a ?b)] |- _ => destruct (beq a b) eqn:Eq; [ | done] end.
    apply beq_true in Eq. by subst.
Qed.

Lemma oauth2_guards (i : nat) (config : Config) (db_available : bool) (token : str) (now : Z) w :
  w_wf w ->
  guards i (oauth2_verify config db_available token now)
    (fun v w' => match v with Ok (Some ctx) => bearer_context config token now w ctx (w_db w') | _ => True end) w.
Proof.
  intros Hw. unfold oauth2_verify. do 3 (g_step; g_quiet). g_call. apply select_call_access in Hc as (_ & o & -> & Ho).
  destruct o as [t|]; g_quiet. destruct Ho as (Hin & Hh & Hlive). g_step; g_quiet. assert (Hw2 : w_wf w2) by (by eapply w_moves_wf).
  apply guards_do; [done | intros w3 w4 r3 Hm3 Hw3 Hc Hm4 _]. apply select_call_client in Hc as (_ & o & -> & Ho).
  destruct o as [client|]; g_quiet. destruct Ho as (Hcin & Hcid & Hclive). assert (Hw4 : w_wf w4) by (by eapply w_moves_wf).
  apply context_guards; [done | done | ]. intros ctx w5 Hctx Hm5. apply guards_do; [by eapply w_moves_wf | ].
  intros w6 w7 r6 Hm6 Hw6 _ Hm7 _. apply guards_ret. intros w8 Hm8%others_moves; [ | by eapply w_moves_wf].
  assert (Hw13 : w_moves w w3) by (eapply w_moves_trans; [exact Hm | by eapply w_moves_trans]).
  assert (Hm28 : w_moves w1 w8) by (do 6 (eapply w_moves_trans; [eassumption | ]); done).
  destruct Hm28 as [Hm28 _], Hw13 as [Hm13 _], Hm as [Hm _].
  apply (bearer_context_stays _ _ _ _ _ (w_db w1)); [done | ]. exists t. destruct Hctx as (? & ? & ? & ? & ? & ?).
  split_and!; try done.
  - unfold at_is_expired in *. by apply Z.leb_gt.
  - apply (access_live_back _ _ (w_db w1)); [done | ]. rewrite <- Hh. by apply access_live_one.
  - apply (client_live_back _ _ (w_db w3)); [done | ]. rewrite <- Hcid. by apply client_live_one.
Qed.

(** What a bearer request is accepted as. *)
Definition bearer_answer (config : Config) (token : str) (now : Z) (w0 : World) (resp : Response) (w : World) : Prop :=
  match resp with
  | Credential (Ok (Some ctx)) => cx_kind ctx = KOAuth2Token -> bearer_context config token now w0 ctx (w_db w)
  | _ => True
  end.

Lemma bearer_guards (i : nat) (config : Config) (db_available : bool) (token : str) (pat_now now : Z) w :
  w_wf w -> guards i (bearer_request config db_available token pat_now now) (bearer_answer config token now w) w.
Proof.
  intros Hw. unfold bearer_request, authenticate. do 2 apply guards_bind.
  eapply guards_mono, guards_moves, pat_guards; [ | done]. intros v w1 [Hm1 Hv]. destruct v as [[ctx|]|e].
  - apply guards_ret. intros w2 _. apply guards_ret. intros w3 _ Hk. by destruct Hv.
  - assert (Hw1 : w_wf w1) by (by eapply w_moves_wf). apply guards_bind. eapply guards_mono, guards_moves, oauth2_guards; [ | done | done].
    intros v w2 [Hm2 Hv2]. apply guards_ret. intros w3 Hm3. apply guards_ret. intros w4 Hm4.
    apply others_moves in Hm3 as Hm3'; [ | by eapply w_moves_wf]. apply others_moves in Hm4 as Hm4'; [ | by eapply w_moves_wf].
    destruct v as [[ctx|]|e]; try exact I. intros _. destruct Hm3' as [Hm3' _], Hm4' as [Hm4' _].
    apply (bearer_context_stays _ _ _ _ _ (w_db w2)); [by eapply moves_trans | ].
    destruct Hv2 as (t & Hin & Hh & Hex & Hl & Hc & ? & ? & ? & ? & ? & ?). exists t. destruct Hm1 as [Hm1 _]. split_and!; try done.
    + by eapply access_live_back.
    + by eapply client_live_back.
  - by do 2 (apply guards_ret; intros).
Qed.
(** *** Revocation *)

Definition access_revoked (h : str) (db : AuthDb) : Prop :=
  exists t, t ∈ oauth_access db /\ at_token_hash t = h /\ is_some (at_revoked_at t) = true.

Lemma access_revoked_stays (h : str) db db' : moves db db' -> access_revoked h db -> access_revoked h db'.
Proof.
  intros Hm (t & Hin & Hh & Hr). destruct (moves_access _ _ t Hm Hin) as (t' & Hin' & Hk). exists t'.
  destruct (access_kept_fields _ _ Hk) as (_ & Hh' & _). destruct Hk as [_ Hs].
  split_and!; [done | congruence | by eapply stamped_is_some].
Qed.

Lemma revoke_access_effect (h client_id : str) (ts : Z) db db' (r : result bool StoreError) (t : OAuthAccessTokenRecord) :
  call (RevokeAccessByHash h client_id ts) db = (db', r) -> t ∈ oauth_access db -> at_token_hash t = h ->
  at_client_id t = client_id -> access_revoked h db'.
Proof.
  unfold call, run_tx. cbn. intros [= <- _] Hin Hh Hc. exists (stamp_access ts t). cbn. split_and!; [ | done | by destruct (at_revoked_at t)].
  apply rows_update_hit; [done | ]. by rewrite Hh, Hc, !beq_refl.
Qed.

Lemma revoke_refresh_effect (h client_id : str) (ts : Z) db db' (r : result bool StoreError) (t : OAuthRefreshTokenRecord) :
  call (RevokeRefreshByHash h client_id ts) db = (db', r) -> t ∈ oauth_refresh db -> rt_token_hash t = h ->
  rt_client_id t = client_id -> refresh_spent h db'.
Proof.
  unfold call, run_tx. cbn. intros [= <- _] Hin Hh Hc. exists (stamp_refresh ts t). cbn. split_and!; [ | done | by destruct (rt_revoked_at t)].
  apply rows_update_hit; [done | ]. by rewrite Hh, Hc, !beq_refl.
Qed.

(** The tokens of a client with a given hash that [w0] held are revoked in [db]. *)
Definition access_retired (h client_id : str) (w0 : World) (db : AuthDb) : Prop :=
  forall t, t ∈ oauth_access (w_db w0) -> at_token_hash t = h -> at_client_id t = client_id -> access_revoked h db.
Definition refresh_retired (h client_id : str) (w0 : World) (db : AuthDb) : Prop :=
  forall t, t ∈ oauth_refresh (w_db w0) -> rt_token_hash t = h -> rt_client_id t = client_id -> refresh_spent h db.

Definition revoke_answer (form : RevokeRequest) (w0 : World) (resp : Response) (w : World) : Prop :=
  match resp with
  | EmptyBody =>
      exists token client_id secret, vq_token form = Some token /\ vq_client_id form = Some client_id
        /\ vq_client_secret form = Some secret /\ authenticated client_id secret (w_db w)
        /\ (vq_token_type_hint form <> Some (lit "refresh_token") -> access_retired (hash_token token) client_id w0 (w_db w))
        /\ (vq_token_type_hint form <> Some (lit "access_token") -> refresh_retired (hash_token token) client_id w0 (w_db w))
  | _ => True
  end.

(** A call that revokes by hash, in a state reached from [w0]. *)
Lemma retire_access (i : nat) (h client_id : str) (ts : Z) (w0 w : World) (k : result bool StoreError -> prog Response)
  (post : Response -> World -> Prop) :
  w_wf w0 -> w_moves w0 w ->
  (forall r w', w_moves w w' -> access_retired h client_id w0 (w_db w') -> guards i (k r) post w') ->
  guards i (Do (RevokeAccessByHash h client_id ts) k) post w.
Proof.
  intros Hw0 Hm0 Hk. apply guards_do; [by eapply w_moves_wf | ]. intros w1 w2 r Hm1 Hw1 Hc Hm2 _.
  apply Hk; [by eapply w_moves_trans | ]. intros t Hin Hh Hcl.
  assert (Hm01 : moves (w_db w0) (w_db w1)) by (destruct Hm0 as [? _], Hm1 as [? _]; by eapply moves_trans).
  destruct (moves_access _ _ _ Hm01 Hin) as (t1 & Hin1 & Hkt). destruct (access_kept_fields _ _ Hkt) as (_ & Hh1 & Hc1 & _).
  apply (revoke_access_effect _ _ _ _ _ _ t1 Hc); [done | congruence | congruence].
Qed.

Lemma retire_refresh (i : nat) (h client_id : str) (ts : Z) (w0 w : World) (k : result bool StoreError -> prog Response)
  (post : Response -> World -> Prop) :
  w_wf w0 -> w_moves w0 w ->
  (forall r w', w_moves w w' -> refresh_retired h client_id w0 (w_db w') -> guards i (k r) post w') ->
  guards i (Do (RevokeRefreshByHash h client_id ts) k) post w.
Proof.
  intros Hw0 Hm0 Hk. apply guards_do; [by eapply w_moves_wf | ]. intros w1 w2 r Hm1 Hw1 Hc Hm2 _.
  apply Hk; [by eapply w_moves_trans | ]. intros t Hin Hh Hcl.
  assert (Hm01 : moves (w_db w0) (w_db w1)) by (destruct Hm0 as [? _], Hm1 as [? _]; by eapply moves_trans).
  destruct (moves_refresh _ _ _ Hm01 Hin) as (t1 & Hin1 & Hkt). destruct (refresh_kept_fields _ _ Hkt) as (_ & Hh1 & Hc1 & _).
  apply (revoke_refresh_effect _ _ _ _ _ _ t1 Hc); [done | congruence | congruence].
Qed.

Lemma access_retired_stays (h client_id : str) (w0 : World) db db' :
  moves db db' -> access_retired h client_id w0 db -> access_retired h client_id w0 db'.
Proof. intros Hm Hr t Hin Hh Hc. eapply access_revoked_stays; [done | by eapply Hr]. Qed.
Lemma refresh_retired_stays (h client_id : str) (w0 : World) db db' :
  moves db db' -> refresh_retired h client_id w0 db -> refresh_retired h client_id w0 db'.
Proof. intros Hm Hr t Hin Hh Hc. eapply refresh_spent_stays; [done | by eapply Hr]. Qed.

Lemma revoke_guards (i : nat) (config : Config) (db_available : bool) (req : HttpRequest) (now : Z)
  (body : list N) (form : RevokeRequest) w :
  w_wf w -> form_body (Some config) req = Ok (config, body) -> revoke_form body = Ok form ->
  guards i (oauth_revoke (Some config) db_available req now) (revoke_answer form w) w.
Proof.
  intros Hw Hb Hf. unfold oauth_revoke. rewrite Hb, Hf. do 4 (g_step; g_quiet).
  match goal with H0 : nonempty (vq_token _) = Some ?t, H1 : nonempty (vq_client_id _) = Some ?c, H2 : nonempty (vq_client_secret _) = Some ?s |- _ =>
    rename t into token, c into client_id, s into secret; apply nonempty_some in H0; apply nonempty_some in H1; apply nonempty_some in H2 end.
  apply guards_bind. eapply guards_mono, secret_guards; [ | done]. intros [[]|e] w1 [Hm1 Hauth]; g_quiet. destruct (Hauth eq_refl) as [Hauth1 _]. clear Hauth. rename Hauth1 into Hauth.
  apply guards_do; [by eapply w_moves_wf | intros w2 w3 r Hm2 Hw2 Hc Hm3 _]. apply select_call_client in Hc as (_ & o & -> & _).
  destruct o as [client|]; g_quiet. assert (Hm13 : w_moves w1 w3) by (by eapply w_moves_trans).
  assert (Hm03 : w_moves w w3) by (by eapply w_moves_trans).
  assert (Hend : forall w5 w6, w_moves w3 w5 -> others i w5 w6 ->
    (vq_token_type_hint form <> Some (lit "refresh_token") -> access_retired (hash_token token) client_id w (w_db w5)) ->
    (vq_token_type_hint form <> Some (lit "access_token") -> refresh_retired (hash_token token) client_id w (w_db w5)) ->
    revoke_answer form w EmptyBody w6).
  { intros w5 w6 Hm5 Ho6 Ha Hr. apply others_moves in Ho6 as [Hm6 _]; [ | by eapply w_moves_wf]. exists token, client_id, secret.
    split_and!; try done; [ | by intros; eapply access_retired_stays; [ | auto] | by intros; eapply refresh_retired_stays; [ | auto]].
    apply (authenticated_stays _ _ (w_db w5)); [done | ]. destruct Hm13 as [? _], Hm5 as [? _].
    eapply authenticated_stays; [done | ]. by eapply authenticated_stays. }
  assert (Hhint : forall kind : str, kind <> [] -> unwrap_or [] (vq_token_type_hint form) = kind -> vq_token_type_hint form = Some kind).
  { intros kind Hk. destruct (vq_token_type_hint form); cbn; congruence. }
  g_step; [apply beq_true, Hhint in Hb1; [ | done] | g_step; [apply beq_true, Hhint in Hb2; [ | done] | ]].
  - apply (retire_access i _ _ _ w); [done | done | ]. intros r w5 Hm5 Ha. apply guards_ret. intros w6 Ho6.
    apply (Hend w5 w6); [done | done | by intros _ | by rewrite Hb1; intros []].
  - apply (retire_refresh i _ _ _ w); [done | done | ]. intros r w5 Hm5 Ha. apply guards_ret. intros w6 Ho6.
    apply (Hend w5 w6); [done | done | by rewrite Hb2; intros [] | by intros _].
  - apply (retire_access i _ _ _ w); [done | done | ]. intros r w5 Hm5 Ha. apply (retire_refresh i _ _ _ w); [done | by eapply w_moves_trans | ].
    intros r' w6 Hm6 Hr. apply guards_ret. intros w7 Ho7. apply (Hend w6 w7); [by eapply w_moves_trans | done | | by intros _].
    intros _. destruct Hm6 as [? _]. by eapply access_retired_stays.
Qed.
End Guarantees.
