(* ===== verification/OAuthAuthorize.v ===== *)
(** * OAuthAuthorize: the authorization endpoint and the management of clients

    managed_authorize.rs and project_share.rs: the authorize query, the login form and its
    session, the consent decision, and the three ways an authorization code is issued to
    a user or a project share.  Pages are the status and message they show. *)
From S2P Require Import Prelude RustStr Policy Sql AuthModel AuthStore OAuthScopes OAuthHttp.

(** What the handlers read of a request: the query, the [Authorization] and [Cookie]
    headers when they are text, and the body. *)
Record PageRequest : Type := mkPageRequest {
  pq_query : option str;
  pq_authorization : option str;
  pq_cookie : option str;
  pq_payload : result (list N) str
}.

Record OAuthAuthorizeRequest : Type := mkAuthorizeRequest {
  zq_response_type : str;
  zq_client_id : str;
  zq_redirect_uri : str;
  zq_scope : option str;
  zq_state : option str;
  zq_code_challenge : str;
  zq_code_challenge_method : str;
  zq_resource : option str
}.

(** What an issued code is generated from. *)
Record CodeGen : Type := mkCodeGen {
  cg_random : str;
  cg_id : str
}.

Definition oauth_authorize_direct_error : Z -> str -> str -> Response := OAuthErrorBody.
Definition invalid_authorize (description : str) : Response :=
  oauth_authorize_direct_error BAD_REQUEST (lit "invalid_request") description.
Definition internal_error : Response :=
  oauth_authorize_direct_error INTERNAL_SERVER_ERROR (lit "server_error") (lit "internal error").

(** ** Query parameters *)

(** [slot.replace(value).is_some()] over the pairs with one name. *)
Fixpoint unique_param (name : str) (slot : option str) (pairs : list (str * str))
  : result (option str) OAuthAuthorizeError :=
  match pairs with
  | [] => Ok slot
  | (key, value) :: rest =>
      if key !=? name then unique_param name slot rest
      else if is_some slot then Err (InvalidRequest (lit "duplicate parameter"))
      else unique_param name (Some value) rest
  end.

Definition AUTHORIZE_PARAMS : list str :=
  [lit "response_type"; lit "client_id"; lit "redirect_uri"; lit "scope"; lit "state"; lit "code_challenge";
   lit "code_challenge_method"; lit "resource"].

(** The eight slots the loop fills, by name. *)
Fixpoint authorize_slots (slots : list (str * str)) (pairs : list (str * str))
  : result (list (str * str)) OAuthAuthorizeError :=
  match pairs with
  | [] => Ok slots
  | (key, value) :: rest =>
      if negb (one_of key AUTHORIZE_PARAMS) then authorize_slots slots rest
      else if existsb (fun s => fst s ==? key) slots then Err (InvalidRequest (lit "duplicate parameter"))
      else authorize_slots (slots ++ [(key, value)]) rest
  end.

Definition slot (slots : list (str * str)) (name : str) : option str := snd <$> find (fun s => fst s ==? name) slots.
Definition required (slots : list (str * str)) (name message : str) : result str OAuthAuthorizeError :=
  ok_or (slot slots name) (InvalidRequest message).

Definition MISSING_RESPONSE_TYPE : str := lit "missing response_type".
Definition MISSING_CODE_CHALLENGE : str := lit "missing code_challenge".
Definition MISSING_CODE_CHALLENGE_METHOD : str := lit "missing code_challenge_method".

Definition is_redirectable_missing_authorize_param (error : OAuthAuthorizeError) : bool :=
  match error with
  | InvalidRequest m => one_of m [MISSING_RESPONSE_TYPE; MISSING_CODE_CHALLENGE; MISSING_CODE_CHALLENGE_METHOD]
  | _ => false
  end.

(** ** Sessions, return paths and form fields *)

Definition AUTHORIZE_SESSION_COOKIE : str := lit "webcodex_authorize_session".

(** The first non-empty value of the session cookie. *)
Fixpoint session_cookie (prefix : str) (pairs : list str) : option str :=
  match pairs with
  | [] => None
  | cookie :: rest =>
      match strip_prefix prefix (trim cookie) with
      | Some value => if negb (blank value) then Some (trim value) else session_cookie prefix rest
      | None => session_cookie prefix rest
      end
  end.

Definition authorize_session_id_from_request (req : PageRequest) : option str :=
  pq_cookie req ≫= fun header => session_cookie (AUTHORIZE_SESSION_COOKIE ++ lit "=") (split_char 59 header).

Definition generate_authorize_session_id (random : str) : str := lit "wc_authsess_" ++ random.

Definition AUTHORIZE_PATH : str := lit "/oauth/authorize".

Definition validate_authorize_return_to (return_to : str) : bool :=
  starts_with (lit "/") return_to
  && negb (starts_with (lit "//") return_to || starts_with [47%N; 92%N] return_to)
  && (rev (drop_slashes (rev (unwrap_or [] (hd_error (split_char 63 return_to))))) ==? AUTHORIZE_PATH).

Definition form_field (pairs : list (str * str)) (name : str) : option str :=
  snd <$> find (fun kv => fst kv ==? name) pairs.

Definition bearer_token (req : PageRequest) : option str := pq_authorization req ≫= strip_prefix (lit "Bearer ").

Definition is_authorize_identity_allowed (ctx : AuthContext) : bool :=
  match cx_kind ctx with KBootstrap | KApiToken => true | _ => false end.

Section Authorize.
Context `{AuthEnv}.

Definition parse_authorize_query (query : str) : result OAuthAuthorizeRequest OAuthAuthorizeError :=
  let? slots := authorize_slots [] (form_pairs (as_bytes query)) in
  let? response_type := required slots (lit "response_type") MISSING_RESPONSE_TYPE in
  let? client_id := required slots (lit "client_id") (lit "missing client_id") in
  let? redirect_uri := required slots (lit "redirect_uri") (lit "missing redirect_uri") in
  let? code_challenge := required slots (lit "code_challenge") MISSING_CODE_CHALLENGE in
  let? code_challenge_method := required slots (lit "code_challenge_method") MISSING_CODE_CHALLENGE_METHOD in
  Ok (mkAuthorizeRequest response_type client_id redirect_uri (slot slots (lit "scope")) (slot slots (lit "state"))
        code_challenge code_challenge_method (slot slots (lit "resource"))).

Definition decoded_authorize_param (query name : str) : result (option str) OAuthAuthorizeError :=
  unique_param name None (form_pairs (as_bytes query)).

Definition parse_form_body (req : PageRequest) : option (list (str * str)) :=
  match pq_payload req with
  | Ok body => if Nat.ltb (16 * 1024) (length body) then None else Some (form_pairs body)
  | Err _ => None
  end.

(** ** Redirects *)

Definition authorization_response_issuer (config : Config) : option str :=
  cf_issuer config ≫= fun issuer =>
  url_parse issuer ≫= fun parsed =>
  if (url_scheme parsed !=? lit "https") || is_none (url_host_str parsed) || negb (is_empty (url_username parsed))
     || is_some (url_password parsed) || is_some (url_query parsed) || is_some (url_fragment parsed)
  then None else Some issuer.

Definition with_location (location : option str) : Response :=
  match location with
  | Some location => if header_value location then Redirect location else invalid_authorize (lit "invalid redirect_uri")
  | None => invalid_authorize (lit "invalid redirect_uri")
  end.

(** [append_authorize_error_params] and [append_authorize_success_params]. *)
Definition append_params (redirect_uri name value : str) (state issuer : option str) : option str :=
  url_with_pairs redirect_uri
    ((name, value) :: (match state with Some s => [(lit "state", s)] | None => [] end)
     ++ (match issuer with Some i => [(lit "iss", i)] | None => [] end)).

Definition redirect_with_oauth_error (config : Config) (redirect_uri error : str) (state : option str) : Response :=
  with_location (append_params redirect_uri (lit "error") error state (authorization_response_issuer config)).
Definition redirect_with_authorization_code (config : Config) (redirect_uri code : str) (state : option str) : Response :=
  with_location (append_params redirect_uri (lit "code") code state (authorization_response_issuer config)).

(** ** Issuing a code *)

(** The end of the three handlers that issue a code: the record, its insertion and the redirect. *)
Definition issue_code (config : Config) (client : OAuthClientRecord) (parsed : OAuthAuthorizeRequest) (kind subject : str)
  (user shared : option str) (scopes : str) (resource : option str) (now : Z) (g : CodeGen) : prog Response :=
  let plaintext_code := generate_oauth_authorization_code (cg_random g) in
  let record := mkCode (cg_id g) (hash_token plaintext_code) (oc_client_id client) kind subject user
    (zq_redirect_uri parsed) scopes (Some (zq_code_challenge parsed)) (Some (lit "S256")) resource shared now
    (as_i64 (now + cf_authorization_code_ttl_secs config)) None None in
  call! inserted := InsertCode record (ac_code_hash record) ;;
  Ret (if is_ok inserted then redirect_with_authorization_code config (zq_redirect_uri parsed) plaintext_code (zq_state parsed)
       else internal_error).

(** The checks on the response type and the PKCE parameters. *)
Definition flow_error (parsed : OAuthAuthorizeRequest) : option str :=
  if zq_response_type parsed !=? lit "code" then Some (lit "unsupported_response_type")
  else if is_empty (zq_code_challenge parsed) || (zq_code_challenge_method parsed !=? lit "S256")
  then Some (lit "invalid_request")
  else None.

Definition MANAGED_USER : str := lit "managed_user".

(** The checks of a request for a known client, and the code for its user. *)
Definition issue_for_user (config : Config) (client : OAuthClientRecord) (parsed : OAuthAuthorizeRequest) (user_id : str)
  (now : Z) (g : CodeGen) : prog Response :=
  let refuse error := Ret (redirect_with_oauth_error config (zq_redirect_uri parsed) error (zq_state parsed)) in
  match flow_error parsed with
  | Some error => refuse error
  | None =>
      match normalize_oauth_scopes (zq_scope parsed) (oc_allowed_scopes client) with
      | Err _ => refuse (lit "invalid_scope")
      | Ok scopes =>
          match validate_authorize_resource (zq_resource parsed) config with
          | Err _ => refuse (lit "invalid_target")
          | Ok resource =>
              issue_code config client parsed MANAGED_USER user_id (Some user_id) None scopes resource now g
          end
      end
  end.

Definition redirect_registered (client : OAuthClientRecord) (redirect_uri : str) : bool :=
  one_of redirect_uri (redirect_uris_vec client).

(** The client and the redirect URI of a request, also when another parameter is missing. *)
Definition authorize_target (query : str) (parsed : result OAuthAuthorizeRequest OAuthAuthorizeError)
  : result (str * str) Response :=
  let param name missing :=
    match decoded_authorize_param query name with
    | Ok (Some value) => if is_empty value then Err (invalid_authorize missing) else Ok value
    | Ok None => Err (invalid_authorize missing)
    | Err _ => Err (invalid_authorize (lit "duplicate parameter"))
    end in
  match parsed with
  | Ok parsed => Ok (zq_client_id parsed, zq_redirect_uri parsed)
  | Err error =>
      if is_redirectable_missing_authorize_param error then
        let? client_id := param (lit "client_id") (lit "missing client_id") in
        let? redirect_uri := param (lit "redirect_uri") (lit "missing redirect_uri") in
        Ok (client_id, redirect_uri)
      else Err (invalid_authorize (lit "invalid authorization request"))
  end.

Definition authorize_issue_with_context (config : Config) (user_id query : str) (now : Z) (g : CodeGen) : prog Response :=
  let parsed := parse_authorize_query query in
  match authorize_target query parsed with
  | Err response => Ret response
  | Ok (client_id, redirect_uri) =>
      stop! is_empty client_id with invalid_authorize (lit "missing client_id") ;;
      call! looked_up := GetClient client_id ;;
      match looked_up with
      | Err _ => Ret internal_error
      | Ok None => Ret (invalid_authorize (lit "invalid client_id"))
      | Ok (Some client) =>
          stop! is_empty redirect_uri with invalid_authorize (lit "missing redirect_uri") ;;
          stop! negb (redirect_registered client redirect_uri) with invalid_authorize (lit "redirect_uri mismatch") ;;
          match decoded_authorize_param query (lit "state") with
          | Err _ => Ret (invalid_authorize (lit "duplicate parameter"))
          | Ok state =>
              match parsed with
              | Err error =>
                  Ret (if is_redirectable_missing_authorize_param error
                       then redirect_with_oauth_error config redirect_uri (lit "invalid_request") state
                       else invalid_authorize (lit "invalid authorization request"))
              | Ok parsed => issue_for_user config client parsed user_id now g
              end
          end
      end
  end.

Definition login_error (status : Z) (message : str) : Response := LoginPage status AUTHORIZE_PATH (Some message).

Definition authorize_render_consent (config : Config) (query : str) : prog Response :=
  match parse_authorize_query query with
  | Err _ => Ret (login_error BAD_REQUEST (lit "invalid authorization request"))
  | Ok parsed =>
      call! looked_up := GetClient (zq_client_id parsed) ;;
      match looked_up with
      | Ok (Some client) =>
          stop! negb (redirect_registered client (zq_redirect_uri parsed))
            with login_error BAD_REQUEST (lit "redirect_uri mismatch") ;;
          match normalize_oauth_scopes (zq_scope parsed) (oc_allowed_scopes client) with
          | Err _ => Ret (login_error BAD_REQUEST (lit "invalid scope"))
          | Ok scopes =>
              Ret match validate_authorize_resource (zq_resource parsed) config with
                  | Err _ => redirect_with_oauth_error config (zq_redirect_uri parsed) (lit "invalid_target") (zq_state parsed)
                  | Ok resource => ConsentPage client (zq_redirect_uri parsed) (split_whitespace scopes) resource
                  end
          end
      | _ => Ret (login_error BAD_REQUEST (lit "invalid client_id"))
      end
  end.

(** [get_session]: no session has an empty id. *)
Definition find_session (id : str) (now : Z) (k : option AuthorizeSession -> prog Response) : prog Response :=
  if is_empty id then k None else call! session := GetSession (hash_token id) now ;; k (found session).

(** The clock readings of one authorization request. *)
Record AuthorizeClock : Type := mkAuthorizeClock {
  ck_pat : Z;
  ck_oauth : Z;
  ck_session : Z;
  ck_issue : Z
}.

(** ** Login and consent *)

Definition oauth_authorize_login (config : option Config) (db_available sessions_available : bool) (req : PageRequest)
  (ck : AuthorizeClock) (session_random : str) : prog Response :=
  need! config := config else ErrorBody INTERNAL_SERVER_ERROR (lit "no config") ;;
  stop! negb (cf_enabled config) with ErrorBody NOT_FOUND (lit "OAuth2 is not enabled") ;;
  stop! negb sessions_available with ErrorBody INTERNAL_SERVER_ERROR (lit "no session store") ;;
  need! pairs := parse_form_body req else login_error BAD_REQUEST (lit "invalid request body") ;;
  let return_to := unwrap_or AUTHORIZE_PATH (form_field pairs (lit "return_to")) in
  stop! negb (validate_authorize_return_to return_to) with login_error BAD_REQUEST (lit "invalid return destination") ;;
  need! token := nonempty (form_field pairs (lit "token"))
    else LoginPage UNAUTHORIZED return_to (Some (lit "a WebCodex token is required")) ;;
  verdict ← authenticate config db_available token (ck_pat ck) (ck_oauth ck);
  match verdict with
  | Ok (Some ctx) =>
      stop! negb (is_authorize_identity_allowed ctx)
        with LoginPage FORBIDDEN return_to (Some (lit "this token kind cannot authorize OAuth clients")) ;;
      need! user_id := cx_user_id ctx
        else LoginPage UNAUTHORIZED return_to
               (Some (lit "bootstrap login is not supported for OAuth authorize; use a PAT")) ;;
      let session_id := generate_authorize_session_id session_random in
      call! _created := CreateSession (hash_token session_id) user_id (ck_session ck) ;;
      Ret (if header_value return_to then SignedIn session_id return_to else Panic)
  | _ => Ret (LoginPage UNAUTHORIZED return_to (Some (lit "invalid token")))
  end.

(** The query of the hidden fields, without the fields named. *)
Definition resubmitted (omit : list str) (pairs : list (str * str)) : str :=
  form_serialize (List.filter (fun kv => negb (one_of (fst kv) omit)) pairs).

Definition SESSION_EXPIRED : str := lit "session expired; please sign in again".

Definition oauth_authorize_consent (config : option Config) (db_available sessions_available : bool) (req : PageRequest)
  (ck : AuthorizeClock) (g : CodeGen) : prog Response :=
  need! config := config else ErrorBody INTERNAL_SERVER_ERROR (lit "no config") ;;
  stop! negb (cf_enabled config) with ErrorBody NOT_FOUND (lit "OAuth2 is not enabled") ;;
  stop! negb db_available with ErrorBody INTERNAL_SERVER_ERROR (lit "DB not available") ;;
  stop! negb sessions_available with ErrorBody INTERNAL_SERVER_ERROR (lit "no session store") ;;
  need! session_id := authorize_session_id_from_request req else login_error UNAUTHORIZED SESSION_EXPIRED ;;
  find_session session_id (ck_session ck) (fun session =>
    need! session := session else login_error UNAUTHORIZED SESSION_EXPIRED ;;
    need! pairs := parse_form_body req else ErrorBody BAD_REQUEST (lit "invalid request body") ;;
    let is_allow := unwrap_or [] (form_field pairs (lit "decision")) ==? lit "allow" in
    match parse_authorize_query (resubmitted [lit "decision"] pairs) with
    | Err _ => Ret (ErrorBody BAD_REQUEST (lit "invalid authorization request"))
    | Ok parsed =>
        call! looked_up := GetClient (zq_client_id parsed) ;;
        match looked_up with
        | Ok (Some client) =>
            stop! negb (redirect_registered client (zq_redirect_uri parsed))
              with ErrorBody BAD_REQUEST (lit "redirect_uri mismatch") ;;
            if is_allow then issue_for_user config client parsed (se_user_id session) (ck_issue ck) g
            else Ret (redirect_with_oauth_error config (zq_redirect_uri parsed) (lit "access_denied") (zq_state parsed))
        | _ => Ret (ErrorBody BAD_REQUEST (lit "invalid client_id"))
        end
    end).

(** ** Project shares (project_share.rs) *)

Record ProjectShareAuthorizeValidated : Type := mkShareValidated {
  pv_parsed : OAuthAuthorizeRequest;
  pv_client : OAuthClientRecord;
  pv_scopes : str;
  pv_resource : option str
}.

(** The checks of [validate_project_share_authorize_request] once the client is known. *)
Definition project_share_checks (config : Config) (parsed : OAuthAuthorizeRequest) (client : OAuthClientRecord)
  : result ProjectShareAuthorizeValidated Response :=
  let refuse error := redirect_with_oauth_error config (zq_redirect_uri parsed) error (zq_state parsed) in
  let? configured_grant_id := ok_or (cf_project_share_grant_id config)
    (oauth_authorize_direct_error INTERNAL_SERVER_ERROR (lit "server_error")
       (lit "project share OAuth configuration is incomplete")) in
  bail? (oc_owner_project_grant_id client !=? Some configured_grant_id) || negb (is_project_grant_owned client)
    with invalid_authorize (lit "invalid client_id") ;;
  bail? negb (redirect_registered client (zq_redirect_uri parsed)) with invalid_authorize (lit "redirect_uri mismatch") ;;
  check? match flow_error parsed with Some error => Err (refuse error) | None => Ok tt end ;;
  let? scopes := map_err (fun _ => refuse (lit "invalid_scope"))
                   (normalize_project_share_oauth_scopes (zq_scope parsed) (oc_allowed_scopes client)) in
  bail? negb (project_share_scopes_are_bounded scopes)
    with oauth_authorize_direct_error INTERNAL_SERVER_ERROR (lit "server_error")
           (lit "project share scope ceiling was violated") ;;
  let? resource := map_err (fun _ => refuse (lit "invalid_target")) (validate_authorize_resource (zq_resource parsed) config) in
  Ok (mkShareValidated parsed client scopes resource).

Definition validate_project_share_authorize_request (config : Config) (query : str)
  : prog (result ProjectShareAuthorizeValidated Response) :=
  match parse_authorize_query query with
  | Err _ => Ret (Err (invalid_authorize (lit "invalid authorization request")))
  | Ok parsed =>
      call! looked_up := GetClient (zq_client_id parsed) ;;
      Ret match looked_up with
          | Err _ => Err internal_error
          | Ok None => Err (invalid_authorize (lit "invalid client_id"))
          | Ok (Some client) => project_share_checks config parsed client
          end
  end.

Definition render_project_share_authorize_form (error : option str) : Response :=
  ProjectPage (if is_some error then UNAUTHORIZED else 200%Z) error.

Definition issue_project_share_authorization_code (config : Config) (v : ProjectShareAuthorizeValidated) (now : Z) (g : CodeGen)
  : prog Response :=
  match configured_project_share_subject config with
  | Ok (Some subject_id) =>
      issue_code config (pv_client v) (pv_parsed v) Authority.PROJECT_SHARE_OAUTH_SUBJECT_KIND subject_id None None
        (pv_scopes v) (pv_resource v) now g
  | _ => Ret (oauth_authorize_direct_error INTERNAL_SERVER_ERROR (lit "server_error")
                (lit "project share OAuth session is not active"))
  end.

(** The submitted project credential: the Connector runtime's answer to it, or none when
    there is no runtime. *)
Definition oauth_authorize_project (config : option Config) (db_available : bool) (req : PageRequest)
  (runtime : option (str -> option AuthContext)) (now : Z) (g : CodeGen) : prog Response :=
  need! config := config else oauth_authorize_direct_error INTERNAL_SERVER_ERROR (lit "server_error") (lit "no config") ;;
  stop! negb (cf_enabled config) || negb (match configured_project_share_subject config with Ok (Some _) => true | _ => false end)
    with oauth_authorize_direct_error NOT_FOUND (lit "invalid_request") (lit "project share OAuth is not enabled") ;;
  stop! negb db_available
    with oauth_authorize_direct_error INTERNAL_SERVER_ERROR (lit "server_error") (lit "DB not available") ;;
  need! pairs := parse_form_body req else invalid_authorize (lit "invalid request body") ;;
  validated ← validate_project_share_authorize_request config (resubmitted [lit "project_credential"] pairs);
  match validated with
  | Err response => Ret response
  | Ok validated =>
      let submitted := unwrap_or [] (form_field pairs (lit "project_credential")) in
      need! runtime := runtime else oauth_authorize_direct_error INTERNAL_SERVER_ERROR (lit "server_error")
        (lit "project Connector runtime is unavailable") ;;
      if is_some_and (fun grant_id => cf_project_share_grant_id config ==? Some grant_id)
           (runtime submitted ≫= cx_project_grant_id)
      then issue_project_share_authorization_code config validated now g
      else Ret (render_project_share_authorize_form (Some (lit "invalid project share credential")))
  end.

End Authorize.

(** * Management of OAuth2 clients

    clients.rs: registration, listing, scope changes and revocation of the clients a user
    owns.  The JSON body of a request comes parsed; [auth] is the context the middleware
    established, if any. *)

Definition MAX_CLIENT_NAME_LEN : nat := 128.
Definition MAX_CLIENT_REDIRECT_URIS : nat := 16.

Record CreateOAuthClientRequest : Type := mkCreateClient {
  nq_name : option str;
  nq_redirect_uris : option (list str);
  nq_allowed_scopes : option (list str)
}.

Record UpdateOAuthClientScopesRequest : Type := mkUpdateScopes {
  uq_client_id : str;
  uq_allowed_scopes : list str
}.

(** What a registration generates. *)
Record ClientGen : Type := mkClientGen {
  ng_secret_random : str;
  ng_id : str;
  ng_client_random : str
}.

Definition auth_can_manage_managed_oauth_client (auth : AuthContext) (client : OAuthClientRecord) : bool :=
  is_managed_user_owned client && (cx_is_bootstrap auth || (cx_user_id auth ==? oc_owner_user_id client)).

(** The checks every management handler begins with. *)
Definition managing (auth : option AuthContext) (db_available : bool) (k : AuthContext -> prog Response) : prog Response :=
  need! auth := auth else ErrorBody UNAUTHORIZED (lit "authenticated user required") ;;
  stop! negb (is_authorize_identity_allowed auth)
    with ErrorBody FORBIDDEN (lit "OAuth2 access tokens cannot manage OAuth clients") ;;
  stop! negb db_available with ErrorBody INTERNAL_SERVER_ERROR (lit "DB not available") ;;
  k auth.

Definition bad_request (message : str) : Response := ErrorBody BAD_REQUEST message.
Definition LOOPBACK_HOSTS : list str := [lit "localhost"; lit "127.0.0.1"; lit "::1"; lit "[::1]"].

Section Clients.
Context `{AuthEnv}.

Definition validate_redirect_uri (uri : str) : result unit str :=
  let trimmed := trim uri in
  bail? is_empty trimmed with lit "redirect_uri cannot be empty" ;;
  let? parsed := ok_or (url_parse trimmed) (lit "redirect_uri is not a valid URL") in
  bail? negb (is_empty (url_username parsed)) || is_some (url_password parsed)
    with lit "redirect_uri must not contain userinfo" ;;
  bail? is_some (url_fragment parsed) with lit "redirect_uri must not contain a fragment" ;;
  let scheme := to_ascii_lowercase (url_scheme parsed) in
  bail? (scheme !=? lit "http") && (scheme !=? lit "https") with lit "redirect_uri must use http or https" ;;
  let host := unwrap_or [] (url_host_str parsed) in
  bail? (scheme ==? lit "http") && negb (one_of host LOOPBACK_HOSTS)
    with lit "http redirect_uri is only allowed for localhost/127.0.0.1; use https for other hosts" ;;
  bail? is_empty host with lit "redirect_uri must have a host" ;;
  Ok tt.

(** The loop over the submitted URIs: each trimmed and validated, the first of equal ones kept. *)
Fixpoint collect_redirect_uris (kept uris : list str) : result (list str) str :=
  match uris with
  | [] => Ok kept
  | uri :: rest =>
      check? validate_redirect_uri (trim uri) ;;
      collect_redirect_uris (if one_of (trim uri) kept then kept else kept ++ [trim uri]) rest
  end.

Definition newline : str := [LF].

(** The checks on a registration's body: the name, the redirect URIs and the scopes it stores. *)
Definition client_registration (body : CreateOAuthClientRequest) : result (str * str * str) str :=
  let name := trim (unwrap_or [] (nq_name body)) in
  bail? is_empty name with lit "name is required" ;;
  bail? Nat.ltb MAX_CLIENT_NAME_LEN (length name) with lit "name is too long; maximum is 128 characters" ;;
  let redirect_uris := unwrap_or [] (nq_redirect_uris body) in
  bail? is_empty redirect_uris with lit "redirect_uris must be a non-empty array" ;;
  bail? Nat.ltb MAX_CLIENT_REDIRECT_URIS (length redirect_uris) with lit "too many redirect_uris; maximum is 16" ;;
  let? trimmed_uris := collect_redirect_uris [] redirect_uris in
  let? allowed_scopes := normalize_client_allowed_scopes (nq_allowed_scopes body) in
  Ok (name, join newline trimmed_uris, join space allowed_scopes).

(** The owner of a new client: the caller, or for bootstrap the last user of the list. *)
Definition client_owner (auth : AuthContext) (k : str -> prog Response) : prog Response :=
  match cx_user_id auth with
  | Some id => k id
  | None =>
      call! listed := ListUsers ;;
      match listed with
      | Ok us => match last us with
                 | Some u => k (us_id u)
                 | None => Ret (bad_request (lit "no registered users; create a user or use a PAT to create OAuth clients"))
                 end
      | Err _ => Ret (bad_request (lit "no registered users; create a user or use a PAT to create OAuth clients"))
      end
  end.

Definition oauth_clients_create (auth : option AuthContext) (db_available : bool) (body : result CreateOAuthClientRequest str)
  (now : Z) (g : ClientGen) : prog Response :=
  managing auth db_available (fun auth =>
    match body with
    | Err _ => Ret (bad_request (lit "invalid request body"))
    | Ok body =>
        match client_registration body with
        | Err message => Ret (bad_request message)
        | Ok (name, redirect_uris, allowed_scopes) =>
            client_owner auth (fun owner_user_id =>
              let plaintext_secret := generate_oauth_client_secret (ng_secret_random g) in
              let record := mkClient (ng_id g) (generate_oauth_client_id (ng_client_random g)) (hash_token plaintext_secret)
                name (Some owner_user_id) None None redirect_uris allowed_scopes now None in
              call! inserted := InsertClient record ;;
              Ret (if is_ok inserted then ClientCreated record plaintext_secret
                   else ErrorBody INTERNAL_SERVER_ERROR (lit "failed to create client")))
        end
    end).

Definition oauth_clients_list (auth : option AuthContext) (db_available : bool) : prog Response :=
  managing auth db_available (fun auth =>
    call! clients := ListClients ;;
    Ret match clients with
        | Err _ => ErrorBody INTERNAL_SERVER_ERROR (lit "failed to list clients")
        | Ok clients => ClientList (List.filter (auth_can_manage_managed_oauth_client auth) clients)
        end).

Definition client_not_found : Response := ErrorBody NOT_FOUND (lit "OAuth client not found").
Definition failed_to_revoke : Response := ErrorBody INTERNAL_SERVER_ERROR (lit "failed to revoke client").

Definition oauth_clients_update_scopes (auth : option AuthContext) (db_available : bool)
  (body : result UpdateOAuthClientScopesRequest str) (now : Z) : prog Response :=
  managing auth db_available (fun auth =>
    match body with
    | Err _ => Ret (bad_request (lit "invalid request body"))
    | Ok body =>
        let client_id := trim (uq_client_id body) in
        stop! is_empty client_id with bad_request (lit "client_id is required") ;;
        stop! negb (existsb (fun scope => negb (blank scope)) (uq_allowed_scopes body))
          with bad_request (lit "allowed_scopes must be a non-empty array") ;;
        match normalize_client_allowed_scopes (Some (uq_allowed_scopes body)) with
        | Err message => Ret (bad_request message)
        | Ok allowed_scopes =>
            call! current := GetClient client_id ;;
            match current with
            | Err _ => Ret (ErrorBody INTERNAL_SERVER_ERROR (lit "failed to read client"))
            | Ok None => Ret client_not_found
            | Ok (Some current) =>
                stop! negb (auth_can_manage_managed_oauth_client auth current) with client_not_found ;;
                call! updated := UpdateClientScopes client_id (oc_allowed_scopes current) (join space allowed_scopes) now ;;
                Ret match updated with
                    | Ok (Some (changed, access_tokens, refresh_tokens, authorization_codes)) =>
                        ClientScopes changed access_tokens refresh_tokens authorization_codes
                    | Ok None => ErrorBody CONFLICT (lit "OAuth client changed or is no longer active")
                    | Err _ => ErrorBody INTERNAL_SERVER_ERROR (lit "failed to update client scopes")
                    end
            end
        end
    end).

(** [body] is the [client_id] of a [RevokeOAuthClientRequest]. *)
Definition oauth_clients_revoke (auth : option AuthContext) (db_available : bool) (body : result str str) (now : Z)
  : prog Response :=
  managing auth db_available (fun auth =>
    match body with
    | Err _ => Ret (bad_request (lit "invalid request body"))
    | Ok client_id =>
        let client_id := trim client_id in
        stop! is_empty client_id with bad_request (lit "client_id is required") ;;
        call! current := GetClient client_id ;;
        match current with
        | Err _ => Ret (ErrorBody INTERNAL_SERVER_ERROR (lit "failed to read client"))
        | Ok current =>
            stop! is_some_and (fun client => negb (auth_can_manage_managed_oauth_client auth client)) current
              with client_not_found ;;
            call! r1 := RevokeClient client_id now ;;
            stop! negb (is_ok r1) with failed_to_revoke ;;
            call! r2 := RevokeClientAccess client_id now ;;
            stop! negb (is_ok r2) with failed_to_revoke ;;
            call! r3 := RevokeClientRefresh client_id now ;;
            stop! negb (is_ok r3) with failed_to_revoke ;;
            call! r4 := RevokeClientCodes client_id now ;;
            stop! negb (is_ok r4) with failed_to_revoke ;;
            Ret ClientRevoked
        end
    end).

End Clients.
