(* ===== verification/OAuthBridge.v ===== *)
(** * OAuthBridge: OAuth2 for shared keys, and the authorization endpoint's dispatch

    shared_key_bridge.rs: the scope ceilings of clients a shared-key group owns, the
    Computer permissions a person selects, the bridge's authorization form, and the
    provisioning of a group's client; then [oauth_authorize], which picks the bridge, the
    project share or the user's own flow.  What the Runner registry answers when it is
    asked (whether the group is connected, and the features of its Runners) is an
    argument. *)
From S2P Require Import Prelude RustStr Policy Sql Capabilities AuthModel AuthStore OAuthScopes OAuthHttp OAuthAuthorize.

Definition OAUTH_BRIDGE_INVALID_SCOPE_MESSAGE : str :=
  lit "bridge tokens exceed the ordinary shared-key OAuth scope ceiling".

Definition SHARED_KEY_OAUTH_OPTIONAL_COMPUTER_SCOPES : list str :=
  [SCOPE_COMPUTER_LAUNCH; SCOPE_COMPUTER_DISPLAY_READ; SCOPE_COMPUTER_POINTER_CONTROL; SCOPE_COMPUTER_CLIPBOARD_READ;
   SCOPE_COMPUTER_CLIPBOARD_WRITE].

Definition SHARED_KEY_OAUTH_COMPUTER_ENABLED_SCOPES : list str :=
  [SCOPE_RUNTIME_READ; SCOPE_RUNNER_MANAGE; SCOPE_SESSION_COLLABORATE; SCOPE_PROJECT_READ; SCOPE_PROJECT_WRITE;
   SCOPE_MEMORY_READ; SCOPE_MEMORY_MANAGE; SCOPE_COMMUNICATION_READ; SCOPE_COMMUNICATION_MANAGE; SCOPE_JOB_RUN;
   SCOPE_COMPUTER_READ; SCOPE_COMPUTER_CONTROL; SCOPE_COMPUTER_LAUNCH; SCOPE_COMPUTER_DISPLAY_READ;
   SCOPE_COMPUTER_POINTER_CONTROL; SCOPE_COMPUTER_CLIPBOARD_READ; SCOPE_COMPUTER_CLIPBOARD_WRITE].

(** auth/shared_key.rs *)
Definition DIRECT_SHARED_KEY_MODEL_SCOPES : list str :=
  [SCOPE_RUNTIME_READ; SCOPE_RUNNER_MANAGE; SCOPE_SESSION_COLLABORATE; SCOPE_PROJECT_READ; SCOPE_PROJECT_WRITE;
   SCOPE_MEMORY_READ; SCOPE_MEMORY_MANAGE; SCOPE_COMMUNICATION_READ; SCOPE_COMMUNICATION_MANAGE; SCOPE_JOB_RUN;
   SCOPE_COMPUTER_READ; SCOPE_COMPUTER_CONTROL].

Record BridgePermissionSpec : Type := mkPermission {
  bp_id : str;
  bp_scopes : list str;
  bp_request_scopes : list str
}.

Definition BRIDGE_PERMISSION_SPECS : list BridgePermissionSpec :=
  [mkPermission (lit "launch") [SCOPE_COMPUTER_LAUNCH] [SCOPE_COMPUTER_READ; SCOPE_COMPUTER_LAUNCH];
   mkPermission (lit "display") [SCOPE_COMPUTER_DISPLAY_READ] [SCOPE_COMPUTER_READ; SCOPE_COMPUTER_DISPLAY_READ];
   mkPermission (lit "pointer") [SCOPE_COMPUTER_DISPLAY_READ; SCOPE_COMPUTER_POINTER_CONTROL]
     [SCOPE_COMPUTER_READ; SCOPE_COMPUTER_CONTROL; SCOPE_COMPUTER_DISPLAY_READ; SCOPE_COMPUTER_POINTER_CONTROL];
   mkPermission (lit "clipboard_read") [SCOPE_COMPUTER_CLIPBOARD_READ] [SCOPE_COMPUTER_READ; SCOPE_COMPUTER_CLIPBOARD_READ];
   mkPermission (lit "clipboard_write") [SCOPE_COMPUTER_CLIPBOARD_WRITE]
     [SCOPE_COMPUTER_CONTROL; SCOPE_COMPUTER_CLIPBOARD_WRITE]].

Definition bridge_oauth_scopes : list str := DIRECT_SHARED_KEY_MODEL_SCOPES.

Definition bridge_permission_spec (id : str) : option BridgePermissionSpec :=
  find (fun permission => bp_id permission ==? id) BRIDGE_PERMISSION_SPECS.

(** ** Scope ceilings *)

(** [iter().collect::<HashSet<_>>().len() == len()] *)
Definition bridge_scope_list_is_unique (scopes : list str) : bool := bool_decide (NoDup scopes).

Definition bridge_baseline_scope_ceiling_is_valid (scopes : list str) : bool :=
  negb (is_empty scopes) && bridge_scope_list_is_unique scopes
  && forallb (fun scope => one_of scope bridge_oauth_scopes) scopes.

Definition bridge_computer_scope_ceiling_is_valid (scopes : list str) : bool :=
  if is_empty scopes || negb (bridge_scope_list_is_unique scopes) then false
  else if existsb (fun scope => negb (one_of scope bridge_oauth_scopes)
                                && negb (one_of scope SHARED_KEY_OAUTH_OPTIONAL_COMPUTER_SCOPES)) scopes then false
  else existsb (fun scope => one_of scope bridge_oauth_scopes) scopes
       && forallb (fun needed => one_of needed scopes) SHARED_KEY_OAUTH_OPTIONAL_COMPUTER_SCOPES.

Definition bridge_computer_enabled_scope_ceiling (scopes : list str) : option (list str) :=
  if bridge_computer_scope_ceiling_is_valid scopes then Some scopes
  else if negb (bridge_baseline_scope_ceiling_is_valid scopes) then None
  else Some (scopes ++ SHARED_KEY_OAUTH_OPTIONAL_COMPUTER_SCOPES).

Definition OPTIONAL_CLASS_SCOPES : list str :=
  [SCOPE_MCP_LOCAL; SCOPE_PLUGIN_INSPECT; SCOPE_PLUGIN_INVOKE; SCOPE_SSH_LOCAL; SCOPE_CODING_AGENT_RUN].

Definition bridge_scope_ceiling_without_optional_class_scopes (scopes : list str) : option (list str) :=
  if negb (bridge_scope_list_is_unique scopes) then None
  else Some (List.filter (fun scope => negb (one_of scope OPTIONAL_CLASS_SCOPES)) scopes).

Definition bridge_scope_ceiling_is_valid (scopes : list str) : bool :=
  is_some_and (fun base => bridge_baseline_scope_ceiling_is_valid base || bridge_computer_scope_ceiling_is_valid base)
    (bridge_scope_ceiling_without_optional_class_scopes scopes).

Record BridgeOptions : Type := mkBridgeOptions {
  bo_computer_permissions : bool;
  bo_local_mcp : bool;
  bo_local_plugins : bool;
  bo_local_ssh : bool;
  bo_coding_agent : bool
}.

(** The scopes of the optional classes that are switched on. *)
Definition option_scopes (o : BridgeOptions) : list str :=
  (if bo_local_mcp o then [SCOPE_MCP_LOCAL] else [])
  ++ (if bo_local_plugins o then [SCOPE_PLUGIN_INSPECT; SCOPE_PLUGIN_INVOKE] else [])
  ++ (if bo_local_ssh o then [SCOPE_SSH_LOCAL] else [])
  ++ (if bo_coding_agent o then [SCOPE_CODING_AGENT_RUN] else []).

Definition bridge_scope_ceiling_with_options (scopes : list str) (o : BridgeOptions) : option (list str) :=
  bridge_scope_ceiling_without_optional_class_scopes scopes ≫= fun base =>
  (if bo_computer_permissions o then bridge_computer_enabled_scope_ceiling base
   else if bridge_baseline_scope_ceiling_is_valid base then Some base else None) ≫= fun desired =>
  Some (desired ++ option_scopes o).

Definition bridge_scope_profile_error (o : BridgeOptions) : str :=
  match o with
  | mkBridgeOptions true false false false false => lit "persisted OAuth scope ceiling is not valid for Computer opt-in"
  | mkBridgeOptions false true false false false => lit "persisted OAuth scope ceiling is not valid for local MCP opt-in"
  | mkBridgeOptions false false true false false => lit "persisted OAuth scope ceiling is not valid for local Plugin opt-in"
  | mkBridgeOptions false false false true false => lit "persisted OAuth scope ceiling is not valid for local SSH opt-in"
  | mkBridgeOptions false false false false true => lit "persisted OAuth scope ceiling is not valid for coding-agent opt-in"
  | _ => lit "persisted OAuth scope ceiling is not valid for the requested explicit permission profile"
  end.

(** ** What a client's ceiling includes *)

Definition bridge_client_is_computer_enabled (client : OAuthClientRecord) : bool :=
  is_shared_key_owned client
  && is_some_and bridge_computer_scope_ceiling_is_valid
       (bridge_scope_ceiling_without_optional_class_scopes (allowed_scopes_vec client)).
Definition bridge_client_has_local_mcp_scope (client : OAuthClientRecord) : bool :=
  one_of SCOPE_MCP_LOCAL (allowed_scopes_vec client).
Definition bridge_client_has_local_plugin_scopes (client : OAuthClientRecord) : bool :=
  one_of SCOPE_PLUGIN_INSPECT (allowed_scopes_vec client) && one_of SCOPE_PLUGIN_INVOKE (allowed_scopes_vec client).
Definition bridge_client_has_local_ssh_scope (client : OAuthClientRecord) : bool :=
  one_of SCOPE_SSH_LOCAL (allowed_scopes_vec client).
Definition bridge_client_has_coding_agent_scope (client : OAuthClientRecord) : bool :=
  one_of SCOPE_CODING_AGENT_RUN (allowed_scopes_vec client).
Definition bridge_client_has_optional_computer_scope (client : OAuthClientRecord) : bool :=
  existsb (fun scope => one_of scope SHARED_KEY_OAUTH_OPTIONAL_COMPUTER_SCOPES) (allowed_scopes_vec client).
Definition bridge_client_scopes_are_current (client : OAuthClientRecord) : bool :=
  bridge_scope_ceiling_is_valid (allowed_scopes_vec client).

Definition normalize_bridge_oauth_scopes (requested : option str) (client_allowed : str) : result str OAuthAuthorizeError :=
  let? normalized := normalize_oauth_scopes requested client_allowed in
  bail? existsb (fun scope => negb (one_of scope (OAUTH_OFFLINE_ACCESS_SCOPE :: OPTIONAL_CLASS_SCOPES))
                              && negb (one_of scope SHARED_KEY_OAUTH_COMPUTER_ENABLED_SCOPES))
          (split_whitespace normalized)
    with InvalidScope OAUTH_BRIDGE_INVALID_SCOPE_MESSAGE ;;
  Ok normalized.

(** ** Requests for a bridge client *)

Record BridgeAuthorizeValidated : Type := mkBridgeValidated {
  bv_parsed : OAuthAuthorizeRequest;
  bv_client : OAuthClientRecord;
  bv_requestable_scopes : str;
  bv_resource : option str;
  bv_computer_permissions_enabled : bool
}.

Definition requested_scope_contains (v : BridgeAuthorizeValidated) (scope : str) : bool :=
  one_of scope (split_whitespace (bv_requestable_scopes v)).

Definition bridge_permission_capable (permission_id : str) (features : RunnerFeatureSet) : bool :=
  if permission_id ==? lit "launch"
  then supports features ComputerApplicationDiscovery && supports features ComputerApplicationLaunch
  else if permission_id ==? lit "display" then supports features ComputerDisplayObserve
  else if permission_id ==? lit "pointer"
  then supports features ComputerDisplayObserve && supports features ComputerPointerControl
  else if permission_id ==? lit "clipboard_read" then supports features ComputerClipboardRead
  else if permission_id ==? lit "clipboard_write" then supports features ComputerClipboardWrite
  else false.

(** The permissions the form offers, by id; [runners] are the feature sets of the group's
    connected Runners, none without a registry or an owning group. *)
Definition available_permissions (v : BridgeAuthorizeValidated) (runners : list RunnerFeatureSet) : list str :=
  if negb (bv_computer_permissions_enabled v) then []
  else map bp_id (List.filter (fun permission =>
         forallb (requested_scope_contains v) (bp_request_scopes permission)
         && existsb (bridge_permission_capable (bp_id permission)) runners) BRIDGE_PERMISSION_SPECS).

(** The optional scopes of the selected permissions. *)
Fixpoint selected_optional_scopes (v : BridgeAuthorizeValidated) (seen selected : list str) : result (list str) str :=
  match selected with
  | [] => Ok []
  | permission_id :: rest =>
      bail? one_of permission_id seen with lit "duplicate Computer permission selection" ;;
      let? permission := ok_or (bridge_permission_spec permission_id) (lit "invalid Computer permission selection") in
      bail? negb (bv_computer_permissions_enabled v)
        with lit "Computer permissions are not enabled for this OAuth client" ;;
      bail? negb (forallb (requested_scope_contains v) (bp_request_scopes permission))
        with lit "Computer permission was not fully requested by this OAuth request" ;;
      let? more := selected_optional_scopes v (permission_id :: seen) rest in
      Ok (bp_scopes permission ++ more)
  end.

Definition selected_bridge_grant_scopes (v : BridgeAuthorizeValidated) (selected : list str) : result str str :=
  let? optional_scopes := selected_optional_scopes v [] selected in
  Ok (join space (List.filter (fun scope =>
        (scope ==? OAUTH_OFFLINE_ACCESS_SCOPE) || one_of scope bridge_oauth_scopes || one_of scope OPTIONAL_CLASS_SCOPES
        || one_of scope optional_scopes) (split_whitespace (bv_requestable_scopes v)))).

(** What the ceiling of a client lets a request name. *)
Definition within_client_ceiling (client : OAuthClientRecord) (computer : bool) (scope : str) : bool :=
  (scope ==? OAUTH_OFFLINE_ACCESS_SCOPE)
  || ((scope ==? SCOPE_MCP_LOCAL) && is_shared_key_owned client && bridge_client_has_local_mcp_scope client)
  || (one_of scope [SCOPE_PLUGIN_INSPECT; SCOPE_PLUGIN_INVOKE] && is_shared_key_owned client
      && bridge_client_has_local_plugin_scopes client)
  || ((scope ==? SCOPE_SSH_LOCAL) && is_shared_key_owned client && bridge_client_has_local_ssh_scope client)
  || ((scope ==? SCOPE_CODING_AGENT_RUN) && is_shared_key_owned client && bridge_client_has_coding_agent_scope client)
  || one_of scope (if computer then SHARED_KEY_OAUTH_COMPUTER_ENABLED_SCOPES else bridge_oauth_scopes).

Definition is_managed_credential_like (value : str) : bool := starts_with (lit "wc_") value.

Section Bridge.
Context `{AuthEnv}.

Definition shared_key_hash_of (token : str) : str := to_hex (sha256 (as_bytes (trim token))).

Definition bridge_shared_key_hash (value : str) : result str str :=
  let value := trim value in
  bail? is_empty value with lit "a shared key is required" ;;
  bail? is_managed_credential_like value with lit "managed credentials cannot be used as shared keys" ;;
  Ok (shared_key_hash_of value).

Definition is_shared_key_bridge_query (query : str) : result bool OAuthAuthorizeError :=
  let? bridge := decoded_authorize_param query (lit "bridge") in
  match bridge with
  | Some value => if value ==? lit "shared_key" then Ok true else Err (InvalidRequest (lit "unsupported bridge"))
  | None => Ok false
  end.

(** The checks of [validate_bridge_authorize_request] once the client is known. *)
Definition bridge_checks (config : Config) (parsed : OAuthAuthorizeRequest) (client : OAuthClientRecord)
  : result BridgeAuthorizeValidated Response :=
  let refuse error := redirect_with_oauth_error config (zq_redirect_uri parsed) error (zq_state parsed) in
  bail? is_empty (zq_redirect_uri parsed) with invalid_authorize (lit "missing redirect_uri") ;;
  bail? negb (redirect_registered client (zq_redirect_uri parsed)) with invalid_authorize (lit "redirect_uri mismatch") ;;
  check? match flow_error parsed with Some error => Err (refuse error) | None => Ok tt end ;;
  let? requestable_scopes := map_err (fun _ => refuse (lit "invalid_scope"))
                               (normalize_bridge_oauth_scopes (zq_scope parsed) (oc_allowed_scopes client)) in
  let computer := bridge_client_is_computer_enabled client in
  bail? existsb (fun scope => negb (within_client_ceiling client computer scope)) (split_whitespace requestable_scopes)
    with refuse (lit "invalid_scope") ;;
  let? resource := map_err (fun _ => refuse (lit "invalid_target")) (validate_authorize_resource (zq_resource parsed) config) in
  Ok (mkBridgeValidated parsed client requestable_scopes resource computer).

Definition validate_bridge_authorize_request (config : Config) (query : str) : prog (result BridgeAuthorizeValidated Response) :=
  match parse_authorize_query query with
  | Err _ => Ret (Err (invalid_authorize (lit "invalid authorization request")))
  | Ok parsed =>
      stop! is_empty (zq_client_id parsed) with Err (invalid_authorize (lit "missing client_id")) ;;
      call! looked_up := GetClient (zq_client_id parsed) ;;
      Ret match looked_up with
          | Err _ => Err internal_error
          | Ok None => Err (invalid_authorize (lit "invalid client_id"))
          | Ok (Some client) => bridge_checks config parsed client
          end
  end.

Definition render_bridge_authorize_form (error : option str) : Response :=
  BridgePage (if is_some error then BAD_REQUEST else 200%Z) error.

Definition issue_bridge_authorization_code (config : Config) (v : BridgeAuthorizeValidated) (shared_key_hash granted_scopes : str)
  (now : Z) (g : CodeGen) : prog Response :=
  issue_code config (bv_client v) (bv_parsed v) (lit "shared_key") shared_key_hash None (Some shared_key_hash) granted_scopes
    (bv_resource v) now g.

(** What the Runner registry answers about the group of a client's owner. *)
Record GroupView : Type := mkGroupView {
  gv_connected : bool;
  gv_features : list RunnerFeatureSet
}.

(** The features of the owner's Runners, as [bridge_permission_views] asks for them. *)
Definition owner_features (registry : option GroupView) (client : OAuthClientRecord) : list RunnerFeatureSet :=
  match registry, oc_owner_shared_key_hash client with
  | Some view, Some _ => gv_features view
  | _, _ => []
  end.

(** The check that the submitted key is the owner's and that its group is connected. *)
Definition bridge_owner_error (registry : option GroupView) (client : OAuthClientRecord) (shared_key_hash : str)
  : option Response :=
  match oc_owner_shared_key_hash client with
  | None => None
  | Some owner_hash =>
      if negb (constant_time_eq (as_bytes shared_key_hash) (as_bytes owner_hash))
      then Some (render_bridge_authorize_form (Some (lit "shared key is not valid for this OAuth client")))
      else match registry with
           | None => Some (oauth_authorize_direct_error INTERNAL_SERVER_ERROR (lit "server_error")
                             (lit "Runner registry unavailable"))
           | Some view =>
               if gv_connected view then None
               else Some (render_bridge_authorize_form (Some (lit "shared-key Runner group is no longer connected")))
           end
  end.

Definition BRIDGE_CAPABILITY_CHANGED : str :=
  lit "connected Runner capability changed or the selected Computer permission is no longer available for this OAuth request".

(** The decision of [oauth_authorize_bridge] on a validated request. *)
Definition bridge_decision (config : Config) (registry : option GroupView) (v : BridgeAuthorizeValidated) (submitted : str)
  (selected : list str) (now : Z) (g : CodeGen) : prog Response :=
  let again message := Ret (render_bridge_authorize_form (Some message)) in
  match bridge_shared_key_hash submitted with
  | Err message => again message
  | Ok shared_key_hash =>
      match bridge_owner_error registry (bv_client v) shared_key_hash with
      | Some response => Ret response
      | None =>
          match selected_bridge_grant_scopes v selected with
          | Err message => again message
          | Ok granted_scopes =>
              if negb (is_empty selected)
                 && existsb (fun id => negb (one_of id (available_permissions v (owner_features registry (bv_client v))))) selected
              then again BRIDGE_CAPABILITY_CHANGED
              else issue_bridge_authorization_code config v shared_key_hash granted_scopes now g
          end
      end
  end.

Definition oauth_authorize_bridge (config : option Config) (db_available : bool) (req : PageRequest)
  (registry : option GroupView) (now : Z) (g : CodeGen) : prog Response :=
  need! config := config else oauth_authorize_direct_error INTERNAL_SERVER_ERROR (lit "server_error") (lit "no config") ;;
  stop! negb (cf_enabled config)
    with oauth_authorize_direct_error NOT_FOUND (lit "invalid_request") (lit "OAuth2 is not enabled") ;;
  stop! negb (cf_shared_key_bridge_enabled config)
    with oauth_authorize_direct_error NOT_FOUND (lit "invalid_request") (lit "shared-key OAuth bridge is not enabled") ;;
  stop! negb db_available
    with oauth_authorize_direct_error INTERNAL_SERVER_ERROR (lit "server_error") (lit "DB not available") ;;
  need! pairs := parse_form_body req else invalid_authorize (lit "invalid request body") ;;
  let selected := map snd (List.filter (fun kv => fst kv ==? lit "computer_permission") pairs) in
  let query := resubmitted [lit "shared_key"; lit "computer_permission"] pairs in
  match is_shared_key_bridge_query query with
  | Ok true =>
      validated ← validate_bridge_authorize_request config query;
      match validated with
      | Err response => Ret response
      | Ok v => bridge_decision config registry v (unwrap_or [] (form_field pairs (lit "shared_key"))) selected now g
      end
  | _ => Ret (invalid_authorize (lit "unsupported bridge"))
  end.

(** ** Provisioning *)

Record ProvisionSharedKeyOAuthClientRequest : Type := mkProvision {
  sq_redirect_uri : str;
  sq_client_id : option str;
  sq_previous_allowed_scopes : option (list str);
  sq_options : BridgeOptions
}.

Definition conflict (message : str) : Response := ErrorBody CONFLICT message.

(** The first optional class a list of scopes has that the request does not ask for. *)
Definition unrequested_class (o : BridgeOptions) (computer mcp plugins ssh coding : bool) : option nat :=
  if negb (bo_computer_permissions o) && computer then Some 0
  else if negb (bo_local_mcp o) && mcp then Some 1
  else if negb (bo_local_plugins o) && plugins then Some 2
  else if negb (bo_local_ssh o) && ssh then Some 3
  else if negb (bo_coding_agent o) && coding then Some 4
  else None.

Definition CLIENT_CLASS_MESSAGES : list str :=
  [lit "OAuth client has optional Computer permissions enabled; reconnect with --oauth-computer-permissions to reuse this client";
   lit "OAuth client has local MCP authority enabled; reconnect with --oauth-local-mcp to reuse this client";
   lit "OAuth client has local Plugin authority enabled; reconnect with --oauth-local-plugins to reuse this client";
   lit "OAuth client has local SSH authority enabled; reconnect with --oauth-local-ssh to reuse this client";
   lit "OAuth client has coding-agent authority enabled; reconnect with --oauth-coding-agent to reuse this client"].
Definition PROFILE_CLASS_MESSAGES : list str :=
  [lit "persisted OAuth profile is Computer-enabled; reconnect with --oauth-computer-permissions";
   lit "persisted OAuth profile has local MCP authority enabled; reconnect with --oauth-local-mcp";
   lit "persisted OAuth profile has local Plugin authority enabled; reconnect with --oauth-local-plugins";
   lit "persisted OAuth profile has local SSH authority enabled; reconnect with --oauth-local-ssh";
   lit "persisted OAuth profile has coding-agent authority enabled; reconnect with --oauth-coding-agent"].
Definition class_conflict (messages : list str) (class : option nat) : result unit Response :=
  match class with Some n => Err (conflict (nth n messages [])) | None => Ok tt end.

(** The checks on a client that is to be reused, and the scopes it will have. *)
Definition reuse_checks (client : OAuthClientRecord) (shared_key_hash redirect_uri : str) (o : BridgeOptions)
  : result str Response :=
  bail? negb (is_shared_key_owned client) || (oc_owner_shared_key_hash client !=? Some shared_key_hash)
    with ErrorBody FORBIDDEN (lit "OAuth client belongs to a different shared-key group") ;;
  bail? redirect_uris_vec client !=? [redirect_uri] with conflict (lit "OAuth client redirect URI does not match") ;;
  bail? negb (bridge_client_scopes_are_current client)
    with conflict (lit "persisted OAuth client exceeds the current ordinary shared-key OAuth scope ceiling") ;;
  check? class_conflict CLIENT_CLASS_MESSAGES
           (unrequested_class o (bridge_client_has_optional_computer_scope client) (bridge_client_has_local_mcp_scope client)
              (bridge_client_has_local_plugin_scopes client) (bridge_client_has_local_ssh_scope client)
              (bridge_client_has_coding_agent_scope client)) ;;
  let current_scopes := allowed_scopes_vec client in
  let? desired := ok_or (bridge_scope_ceiling_with_options current_scopes o) (conflict (bridge_scope_profile_error o)) in
  Ok (if desired ==? current_scopes then oc_allowed_scopes client else join space desired).

(** The scopes of a new client. *)
Definition provision_scopes (body : ProvisionSharedKeyOAuthClientRequest) : result (list str) Response :=
  let o := sq_options body in
  let base_scopes := unwrap_or bridge_oauth_scopes (sq_previous_allowed_scopes body) in
  check? class_conflict PROFILE_CLASS_MESSAGES
           (unrequested_class o (existsb (fun scope => one_of scope SHARED_KEY_OAUTH_OPTIONAL_COMPUTER_SCOPES) base_scopes)
              (one_of SCOPE_MCP_LOCAL base_scopes)
              (existsb (fun scope => one_of scope [SCOPE_PLUGIN_INSPECT; SCOPE_PLUGIN_INVOKE]) base_scopes)
              (one_of SCOPE_SSH_LOCAL base_scopes) (one_of SCOPE_CODING_AGENT_RUN base_scopes)) ;;
  ok_or (bridge_scope_ceiling_with_options base_scopes o) (conflict (bridge_scope_profile_error o)).

Definition create_bridge_client (body : ProvisionSharedKeyOAuthClientRequest) (shared_key_hash redirect_uri : str) (now : Z)
  (g : ClientGen) : prog Response :=
  match provision_scopes body with
  | Err response => Ret response
  | Ok create_scopes =>
      let plaintext_secret := generate_oauth_client_secret (ng_secret_random g) in
      let record := mkClient (ng_id g) (generate_oauth_client_id (ng_client_random g)) (hash_token plaintext_secret)
        (lit "WebCodex hosted shared-key bridge") None None (Some shared_key_hash) redirect_uri (join space create_scopes) now None in
      call! inserted := InsertClient record ;;
      Ret (if is_ok inserted then ClientCreated record plaintext_secret
           else ErrorBody INTERNAL_SERVER_ERROR (lit "failed to create OAuth client"))
  end.

Definition oauth_shared_key_client_provision (config : option Config) (auth : option AuthContext) (db_available : bool)
  (registry : option GroupView) (body : result ProvisionSharedKeyOAuthClientRequest str) (now : Z) (g : ClientGen)
  : prog Response :=
  need! config := config else ErrorBody INTERNAL_SERVER_ERROR (lit "no config") ;;
  stop! negb (cf_enabled config) || negb (cf_shared_key_bridge_enabled config)
    with ErrorBody NOT_FOUND (lit "shared-key OAuth bridge is not enabled") ;;
  need! auth := auth else ErrorBody UNAUTHORIZED (lit "direct shared key required") ;;
  stop! bool_decide (cx_kind auth <> KSharedKey) with ErrorBody FORBIDDEN (lit "direct shared key required") ;;
  need! shared_key_hash := cx_shared_key_hash auth
    else ErrorBody FORBIDDEN (lit "direct shared key identity is unavailable") ;;
  stop! negb db_available with ErrorBody INTERNAL_SERVER_ERROR (lit "DB not available") ;;
  need! registry := registry else ErrorBody INTERNAL_SERVER_ERROR (lit "Runner registry unavailable") ;;
  stop! negb (gv_connected registry) with conflict (lit "shared-key Runner group is not connected") ;;
  match body with
  | Err _ => Ret (bad_request (lit "invalid request body"))
  | Ok body =>
      let redirect_uri := trim (sq_redirect_uri body) in
      match validate_redirect_uri redirect_uri with
      | Err error => Ret (bad_request error)
      | Ok _ =>
          match opt_filter (fun value => negb (blank value)) (sq_client_id body) with
          | None => create_bridge_client body shared_key_hash redirect_uri now g
          | Some client_id =>
              call! looked_up := GetClient client_id ;;
              match looked_up with
              | Err _ => Ret (ErrorBody INTERNAL_SERVER_ERROR (lit "failed to read existing OAuth client"))
              | Ok None => create_bridge_client body shared_key_hash redirect_uri now g
              | Ok (Some client) =>
                  match reuse_checks client shared_key_hash redirect_uri (sq_options body) with
                  | Err response => Ret response
                  | Ok desired_scopes =>
                      call! updated := UpdateClientScopes (oc_client_id client) (oc_allowed_scopes client) desired_scopes now ;;
                      Ret match updated with
                          | Ok (Some (changed, _, _, _)) => ClientReused (oc_client_id client) desired_scopes changed
                          | Ok None => conflict
                              (lit "OAuth client changed while reconnecting; retry the explicit connect operation")
                          | Err _ => ErrorBody INTERNAL_SERVER_ERROR (lit "failed to update OAuth client scope ceiling")
                          end
                  end
              end
          end
      end
  end.

(** ** The authorization endpoint (managed_authorize.rs) *)

Definition authorize_as_user (config : Config) (req : PageRequest) (query : str) (ck : AuthorizeClock) (g : CodeGen)
  : prog Response :=
  let login := Ret (LoginPage 200 (if is_empty query then AUTHORIZE_PATH else AUTHORIZE_PATH ++ lit "?" ++ query) None) in
  match bearer_token req with
  | Some token =>
      verdict ← authenticate config true token (ck_pat ck) (ck_oauth ck);
      match verdict with
      | Ok (Some ctx) =>
          match (if is_authorize_identity_allowed ctx then cx_user_id ctx else None) with
          | Some user_id => authorize_issue_with_context config user_id query (ck_issue ck) g
          | None => Ret (oauth_authorize_direct_error FORBIDDEN (lit "invalid_request")
                           (lit "authorization endpoint requires first-party user authentication"))
          end
      | _ => Ret (oauth_authorize_direct_error UNAUTHORIZED (lit "invalid_request") (lit "invalid token"))
      end
  | None =>
      match authorize_session_id_from_request req with
      | Some session_id =>
          find_session session_id (ck_session ck) (fun session =>
            if is_some session then authorize_render_consent config query else login)
      | None => login
      end
  end.

Definition oauth_authorize (config : option Config) (db_available sessions_available : bool) (req : PageRequest)
  (ck : AuthorizeClock) (g : CodeGen) : prog Response :=
  need! config := config else oauth_authorize_direct_error INTERNAL_SERVER_ERROR (lit "server_error") (lit "no config") ;;
  stop! negb (cf_enabled config)
    with oauth_authorize_direct_error NOT_FOUND (lit "invalid_request") (lit "OAuth2 is not enabled") ;;
  stop! negb db_available
    with oauth_authorize_direct_error INTERNAL_SERVER_ERROR (lit "server_error") (lit "DB not available") ;;
  stop! negb sessions_available
    with oauth_authorize_direct_error INTERNAL_SERVER_ERROR (lit "server_error") (lit "no session store") ;;
  let query := unwrap_or [] (pq_query req) in
  match is_shared_key_bridge_query query with
  | Err _ => Ret (invalid_authorize (lit "unsupported bridge"))
  | Ok true =>
      stop! negb (cf_shared_key_bridge_enabled config)
        with oauth_authorize_direct_error NOT_FOUND (lit "invalid_request") (lit "shared-key OAuth bridge is not enabled") ;;
      validated ← validate_bridge_authorize_request config query;
      Ret match validated with Err response => response | Ok _ => render_bridge_authorize_form None end
  | Ok false =>
      match configured_project_share_subject config with
      | Err _ => Ret (oauth_authorize_direct_error INTERNAL_SERVER_ERROR (lit "server_error")
                        (lit "project share OAuth configuration is incomplete"))
      | Ok (Some _) =>
          validated ← validate_project_share_authorize_request config query;
          Ret match validated with Err response => response | Ok _ => render_project_share_authorize_form None end
      | Ok None => authorize_as_user config req query ck g
      end
  end.

End Bridge.
