(* ===== verification/OAuthGrants.v ===== *)
(** * OAuthGrants: where codes and tokens come from

    The endpoints as one type of requests, and the invariant of the grant tables that every
    set of endpoint requests keeps under every schedule: a code is for a registered
    redirect URI, demands PKCE and names registered scopes only, and every access or
    refresh token carries the subject and the scopes of a code that was redeemed. *)
From S2P Require Import Prelude RustStr Policy Sql Capabilities AuthModel AuthStore OAuthScopes OAuthHttp AuthFacts OAuthFacts OAuthAuthorize OAuthBridge.

(** ** What a call adds *)

Definition added_code {A : Type} (op : AuthOp A) (a : A) (c : OAuthAuthorizationCodeRecord) : Prop :=
  match op in AuthOp B return B -> Prop with
  | InsertCode r h => fun _ => c = r <| ac_code_hash := h |>
  | _ => fun _ => False
  end a.

Definition added_access {A : Type} (op : AuthOp A) (a : A) (t : OAuthAccessTokenRecord) : Prop :=
  match op in AuthOp B return B -> Prop with
  | InsertAccess r => fun _ => t = r
  | ExchangeCode _ _ r _ => fun taken => taken = true /\ t = r
  | RotateRefresh _ _ _ r _ => fun x => match x with Rotated _ => t = r | _ => False end
  | _ => fun _ => False
  end a.

Definition added_refresh {A : Type} (op : AuthOp A) (a : A) (t : OAuthRefreshTokenRecord) : Prop :=
  match op in AuthOp B return B -> Prop with
  | InsertRefresh r => fun _ => t = r
  | ExchangeCode _ _ _ r => fun taken => taken = true /\ t = r
  | RotateRefresh _ _ _ _ r => fun x => match x with Rotated _ => t = r | _ => False end
  | _ => fun _ => False
  end a.

Ltac sourced_table :=
  first
    [ apply sourced_refl; apply _
    | apply sourced_snoc; [done | sourced_table]
    | apply sourced_update; [apply _ | intros ? _ ?; kept_row | sourced_table] ].

Lemma perform_sources {A : Type} (op : AuthOp A) (db : AuthDb) :
  tx_wp (perform op) (fun a db' =>
    sourced code_kept (added_code op a) (oauth_codes db) (oauth_codes db')
    /\ sourced access_kept (added_access op a) (oauth_access db) (oauth_access db')
    /\ sourced refresh_kept (added_refresh op a) (oauth_refresh db) (oauth_refresh db')) db.
Proof.
  destruct op; cbn [perform]; autounfold with auth_ops; auth_steps; cbn; split_and!; sourced_table.
Qed.

Lemma call_sources {A : Type} (op : AuthOp A) (db db' : AuthDb) (r : result A StoreError) :
  call op db = (db', r) ->
  sourced code_kept (fun c => exists a, r = Ok a /\ added_code op a c) (oauth_codes db) (oauth_codes db')
  /\ sourced access_kept (fun t => exists a, r = Ok a /\ added_access op a t) (oauth_access db) (oauth_access db')
  /\ sourced refresh_kept (fun t => exists a, r = Ok a /\ added_refresh op a t) (oauth_refresh db) (oauth_refresh db').
Proof.
  intros Hc. destruct r as [a|e].
  - destruct (call_ok op db db' a _ Hc (perform_sources op db)) as (H1 & H2 & H3).
    split_and!; intros row Hr; [destruct (H1 row Hr) | destruct (H2 row Hr) | destruct (H3 row Hr)]; eauto.
  - apply call_err in Hc as ->. split_and!; apply sourced_refl; apply _.
Qed.

(** ** The invariant *)

(** A code as the endpoints issue it. *)
Definition code_ok (db : AuthDb) (c : OAuthAuthorizationCodeRecord) : Prop :=
  (exists client, client ∈ oauth_clients db /\ oc_client_id client = ac_client_id c
     /\ ac_redirect_uri c ∈ redirect_uris_vec client)
  /\ (exists challenge, ac_code_challenge c = Some challenge /\ challenge <> [])
  /\ ac_code_challenge_method c = Some (lit "S256")
  /\ (forall scope, scope ∈ split_whitespace (ac_scopes c) -> scope ∈ oauth_discovery_scopes_supported)
  /\ validate_oauth_authorization_code_subject c = Ok tt.

(** The grant of a code that was redeemed. *)
Definition redeemed_grant (db : AuthDb) (client_id kind subject : str) (user : option str) (scopes : str) (shared : option str)
  : Prop :=
  exists c, c ∈ oauth_codes db /\ is_some (ac_used_at c) = true /\ ac_client_id c = client_id /\ ac_subject_kind c = kind
    /\ ac_subject_id c = subject /\ ac_user_id c = user /\ ac_scopes c = scopes /\ ac_shared_key_hash c = shared.

Definition access_ok (db : AuthDb) (t : OAuthAccessTokenRecord) : Prop :=
  redeemed_grant db (at_client_id t) (at_subject_kind t) (at_subject_id t) (at_user_id t) (at_scopes t) (at_shared_key_hash t).
Definition refresh_ok (db : AuthDb) (t : OAuthRefreshTokenRecord) : Prop :=
  redeemed_grant db (rt_client_id t) (rt_subject_kind t) (rt_subject_id t) (rt_user_id t) (rt_scopes t) (rt_shared_key_hash t).

Record grants_ok (db : AuthDb) : Prop := {
  go_codes : forall c, c ∈ oauth_codes db -> code_ok db c;
  go_access : forall t, t ∈ oauth_access db -> access_ok db t;
  go_refresh : forall t, t ∈ oauth_refresh db -> refresh_ok db t
}.

Definition grants_inv (w : World) : Prop := grants_ok (w_db w).

Lemma code_ok_kept (db db' : AuthDb) (c c' : OAuthAuthorizationCodeRecord) :
  moves db db' -> code_kept c c' -> code_ok db c -> code_ok db' c'.
Proof.
  intros Hm [Hg _] ((client & Hin & Hid & Hr) & Hrest). split.
  - destruct (moves_client _ _ _ Hm Hin) as (client' & Hin' & Hk). destruct (client_kept_fields _ _ Hk) as (Hid' & _ & Hur).
    exists client'. unfold redirect_uris_vec in *. rewrite Hid', Hur. destruct c, c'. injection Hg as. cbn in *. subst. done.
  - destruct c, c'. injection Hg as. cbn in *. subst. done.
Qed.

Lemma redeemed_grant_stays (db db' : AuthDb) (client_id kind subject : str) (user : option str) (scopes : str) (shared : option str) :
  moves db db' -> redeemed_grant db client_id kind subject user scopes shared ->
  redeemed_grant db' client_id kind subject user scopes shared.
Proof.
  intros Hm (c & Hin & Hu & Hf). destruct (moves_code _ _ _ Hm Hin) as (c' & Hin' & Hg & Hs & _). exists c'.
  split; [done | ]. split; [by eapply stamped_is_some | ]. destruct c, c'. injection Hg as. cbn in *. subst. done.
Qed.

Lemma access_ok_kept (db db' : AuthDb) (t t' : OAuthAccessTokenRecord) :
  moves db db' -> access_kept t t' -> access_ok db t -> access_ok db' t'.
Proof.
  intros Hm [Hg _] Ht. apply (redeemed_grant_stays _ _ _ _ _ _ _ _ Hm) in Ht. destruct t, t'. injection Hg as. cbn in *. subst. done.
Qed.
Lemma refresh_ok_kept (db db' : AuthDb) (t t' : OAuthRefreshTokenRecord) :
  moves db db' -> refresh_kept t t' -> refresh_ok db t -> refresh_ok db' t'.
Proof.
  intros Hm [Hg _] Ht. apply (redeemed_grant_stays _ _ _ _ _ _ _ _ Hm) in Ht. destruct t, t'. injection Hg as. cbn in *. subst. done.
Qed.

(** A call keeps the invariant when what it adds is in order. *)
Lemma grants_call {A : Type} (op : AuthOp A) (db db' : AuthDb) (r : result A StoreError) :
  moves db db' -> call op db = (db', r) -> grants_ok db ->
  (forall a c, r = Ok a -> added_code op a c -> code_ok db' c) ->
  (forall a t, r = Ok a -> added_access op a t -> access_ok db' t) ->
  (forall a t, r = Ok a -> added_refresh op a t -> refresh_ok db' t) -> grants_ok db'.
Proof.
  intros Hm Hc [G1 G2 G3] A1 A2 A3. destruct (call_sources op db db' r Hc) as (S1 & S2 & S3). constructor.
  - intros c Hin. destruct (S1 c Hin) as [(c0 & Hin0 & Hk) | (a & Hr & Ha)]; [ | by eapply A1]. eapply code_ok_kept; [done | done | auto].
  - intros t Hin. destruct (S2 t Hin) as [(t0 & Hin0 & Hk) | (a & Hr & Ha)]; [ | by eapply A2]. eapply access_ok_kept; [done | done | auto].
  - intros t Hin. destruct (S3 t Hin) as [(t0 & Hin0 & Hk) | (a & Hr & Ha)]; [ | by eapply A3]. eapply refresh_ok_kept; [done | done | auto].
Qed.

(** The calls that add no code and no token. *)
Definition issues (B : Type) (op : AuthOp B) : bool :=
  match op with
  | InsertCode _ _ | InsertAccess _ | InsertRefresh _ | ExchangeCode _ _ _ _ | RotateRefresh _ _ _ _ _ => true
  | _ => false
  end.
Definition no_issue (B : Type) (op : AuthOp B) : Prop := issues B op = false.

Lemma no_issue_neutral (i : nat) (B : Type) (op : AuthOp B) : no_issue B op -> neutral grants_inv i B op.
Proof.
  intros Hn w Hw HI. rewrite w_call_eq. unfold grants_inv in *. cbn. pose proof (call_moves op (w_db w) Hw) as Hm.
  destruct (call op (w_db w)) as [db' r] eqn:Ec. cbn in *. apply (grants_call op (w_db w) db' r Hm Ec HI);
    intros a x _ Ha; destruct op; done.
Qed.

Lemma no_issue_obeys {A : Type} (i : nat) (p : prog A) (w : World) : w_wf w -> all_calls no_issue p -> obeys grants_inv i p w.
Proof. intros Hw Hc. apply obeys_calls; [done | ]. eapply all_calls_mono, Hc. intros C op. apply no_issue_neutral. Qed.

(** ** Issuing *)

Definition registered_words (text : str) : Prop :=
  forall scope, scope ∈ split_whitespace text -> scope ∈ oauth_discovery_scopes_supported.

Lemma normalize_registered (requested : option str) (allowed text : str) :
  normalize_oauth_scopes requested allowed = Ok text -> registered_words text.
Proof. intros [_ Hs]%normalize_words scope Hin. by eapply elem_of_sublist. Qed.

Lemma flow_error_none (parsed : OAuthAuthorizeRequest) :
  flow_error parsed = None ->
  zq_response_type parsed = lit "code" /\ zq_code_challenge parsed <> [] /\ zq_code_challenge_method parsed = lit "S256".
Proof.
  unfold flow_error. destruct (negb (_ ==? lit "code")) eqn:E1; [done | ]. destruct (_ || _) eqn:E2; [done | ]. intros _.
  split_andb. split_and!; [done | | done]. by destruct (zq_code_challenge parsed).
Qed.

Lemma insert_code_valid (r : OAuthAuthorizationCodeRecord) (h : str) (db db' : AuthDb) (a : unit) :
  call (InsertCode r h) db = (db', Ok a) -> validate_oauth_authorization_code_subject r = Ok tt.
Proof.
  intros Hc. apply (call_ok _ _ _ _ (fun _ _ => validate_oauth_authorization_code_subject r = Ok tt) Hc). cbn [perform].
  unfold insert_oauth_authorization_code. auth_steps. by match goal with u : unit |- _ => destruct u end.
Qed.

(** One construct of a program, for [obeys]. *)
Ltac o_step :=
  lazymatch goal with
  | |- obeys _ _ (if ?b then _ else _) _ => let Hb := fresh "Hb" in destruct b eqn:Hb
  | |- obeys _ _ (match ?o with Some _ => _ | None => _ end) _ => let Ho := fresh "Ho" in destruct o eqn:Ho
  | |- obeys _ _ (match ?o with Ok _ => _ | Err _ => _ end) _ => let Ho := fresh "Ho" in destruct o eqn:Ho
  | |- obeys _ _ (match ?o with (_, _) => _ end) _ => destruct o
  end.
Ltac o_quiet := try apply obeys_ret.
(** A call that issues nothing; the state before it is [w1], after it [w2]. *)
Ltac o_call :=
  let w1 := fresh "w1" in let w2 := fresh "w2" in let r := fresh "r" in let Hm := fresh "Hm" in let Hw1 := fresh "Hw1" in
  let HI := fresh "HI" in let Hc := fresh "Hc" in let Hm2 := fresh "Hm2" in
  apply obeys_neutral; [assumption | by apply no_issue_neutral | intros w1 w2 r Hm Hw1 HI Hc Hm2 _ _].

Section Endpoints.
Context `{AuthEnv}.
Implicit Types w : World.

Lemma issue_code_obeys (i : nat) (config : Config) (client : OAuthClientRecord) (parsed : OAuthAuthorizeRequest)
  (kind subject : str) (user shared : option str) (scopes : str) (resource : option str) (now : Z) (g : CodeGen) (w0 w : World) :
  w_moves w0 w -> client ∈ oauth_clients (w_db w0) -> redirect_registered client (zq_redirect_uri parsed) = true ->
  flow_error parsed = None -> registered_words scopes ->
  obeys grants_inv i (issue_code config client parsed kind subject user shared scopes resource now g) w.
Proof.
  intros Hm0 Hin Hr Hf Hs. unfold issue_code. apply obeys_do; [by eapply w_moves_wf | ].
  intros w1 w2 r Hm1 Hw1 HI Hc Hm2 _. split; [ | done]. destruct (flow_error_none _ Hf) as (_ & Hne & _).
  assert (Hm02 : moves (w_db w0) (w_db w2)) by (destruct Hm0 as [? _], Hm1 as [? _], Hm2 as [? _]; by do 2 (eapply moves_trans; [eassumption | ])).
  destruct Hm2 as [Hm2 _]. apply (grants_call _ _ _ _ Hm2 Hc HI); [ | done | done]. intros a c -> ->.
  apply insert_code_valid in Hc. destruct (moves_client _ _ _ Hm02 Hin) as (client' & Hin' & Hk).
  destruct (client_kept_fields _ _ Hk) as (Hid & _ & Hu). apply one_of_spec in Hr.
  split_and!; try done; [ | by exists (zq_code_challenge parsed)].
  exists client'. split_and!; [done | done | ]. unfold redirect_uris_vec in *. by rewrite Hu.
Qed.

(** ** The token endpoint *)

Lemma quiet_burn (h : str) (now : Z) (response : Response) : all_calls no_issue (burn_code h now response).
Proof. unfold burn_code, consume_oauth_authorization_code_by_hash, try_ask, ask. by each_call. Qed.
Lemma quiet_secret (client_id secret : str) : all_calls no_issue (verify_oauth_client_secret client_id secret).
Proof. unfold verify_oauth_client_secret, try_ask. by each_call. Qed.
Lemma quiet_authenticate (config : Config) (db_available : bool) (token : str) (pat_now now : Z) :
  all_calls no_issue (authenticate config db_available token pat_now now).
Proof. unfold authenticate, pat_verify, oauth2_verify, oauth2_context. by each_call. Qed.

Lemma code_grant_obeys (i : nat) (config : Config) (client : OAuthClientRecord) (form : TokenRequest) (now : Z) (g : TokenGen) w :
  w_wf w -> obeys grants_inv i (handle_authorization_code_grant config client form now g) w.
Proof.
  intros Hw. unfold handle_authorization_code_grant. do 2 (o_step; o_quiet). o_call.
  apply select_call_code in Hc as (_ & o & -> & Hcode). destruct o as [code|]; o_quiet.
  assert (Hw2 : w_wf w2) by (by eapply w_moves_wf). destruct Hcode as (Hin & Hh & _).
  do 4 (o_step; [by apply no_issue_obeys, quiet_burn | ]). o_step; [by apply no_issue_obeys, quiet_burn | ].
  o_step; [ | by apply no_issue_obeys, quiet_burn].
  apply obeys_bind_any; [done | | intros b w' _; apply obeys_ret].
  unfold exchange_oauth_authorization_code_for_tokens, try_ask, ask. apply obeys_do; [done | ].
  intros w3 w4 r Hm3 Hw3 HI3 Hc Hm4 _. split; [ | apply no_issue_obeys; [by eapply w_moves_wf | destruct r as [[]|]; by each_call]].
  destruct Hm4 as [Hm4 _]. assert (Hgrant : r = Ok true -> redeemed_grant (w_db w4) (oc_client_id client) (ac_subject_kind code)
    (ac_subject_id code) (ac_user_id code) (ac_scopes code) (ac_shared_key_hash code)).
  { intros ->. apply exchange_effect in Hc as (c & Hc3 & Hr & Hc4 & _); [ | done].
    assert (Hm13 : moves (w_db w1) (w_db w3)) by (destruct Hm2 as [? _], Hm3 as [? _]; by eapply moves_trans).
    destruct (moves_code _ _ _ Hm13 Hin) as (c' & Hc' & Hk). destruct (code_kept_fields _ _ Hk) as (_ & Fh & Fc & Fk & Fs & Fu & _ & Fsc & _ & _ & _ & Fsh & _).
    unfold redeemable in Hr. split_andb.
    assert (c' = c) as -> by (apply (keyed_unique ac_code_hash (oauth_codes (w_db w3))); [apply Hw3 | done | done | congruence]).
    eexists. split; [exact Hc4 | ]. cbn. rewrite Fc, Fk, Fs, Fu, Fsc, Fsh. by split_and!. }
  apply (grants_call _ _ _ _ Hm4 Hc HI3); [done | | ]; intros a t -> [-> ->]; by apply Hgrant.
Qed.

Lemma refresh_grant_obeys (i : nat) (config : Config) (client : OAuthClientRecord) (form : TokenRequest) (now : Z) (g : TokenGen) w :
  w_wf w -> obeys grants_inv i (handle_refresh_token_grant config client form now g) w.
Proof.
  intros Hw. unfold handle_refresh_token_grant. o_step; o_quiet. o_call.
  apply select_call_refresh in Hc as (_ & o & -> & Hold). assert (Hw2 : w_wf w2) by (by eapply w_moves_wf).
  destruct o as [old|]; [ | apply no_issue_obeys; [done | by each_call]]. destruct Hold as (Hin & Hh & _).
  do 2 (o_step; o_quiet). o_step; o_quiet. apply obeys_do; [done | ].
  intros w3 w4 r Hm3 Hw3 HI3 Hc Hm4 _. split; [ | done]. destruct Hm4 as [Hm4 _].
  assert (Hgrant : (exists x, r = Ok (Rotated x)) -> redeemed_grant (w_db w4) (oc_client_id client) (rt_subject_kind old)
    (rt_subject_id old) (rt_user_id old) (rt_scopes old) (rt_shared_key_hash old)).
  { intros [x ->]. apply rotate_effect in Hc as (old3 & Hin3 & Hh3 & _ & _ & Hcl & _); [ | done].
    assert (Hm13 : moves (w_db w1) (w_db w3)) by (destruct Hm2 as [? _], Hm3 as [? _]; by eapply moves_trans).
    destruct (moves_refresh _ _ _ Hm13 Hin) as (old' & Hin' & Hk). destruct (refresh_kept_fields _ _ Hk) as (_ & Fh & Fc & _).
    assert (old' = old3) as -> by (apply (keyed_unique rt_token_hash (oauth_refresh (w_db w3))); [apply Hw3 | done | done | congruence]).
    apply (redeemed_grant_stays (w_db w3)); [done | ]. rewrite <- Hcl, Fc. apply (redeemed_grant_stays (w_db w1)); [done | ].
    by apply HI. }
  apply (grants_call _ _ _ _ Hm4 Hc HI3); [done | | ]; intros [x| | | |] t Hr Ha; try done; cbn in Ha; subst t;
    apply Hgrant; eauto.
Qed.

Lemma token_obeys (i : nat) (config : option Config) (db_available : bool) (req : HttpRequest) (now : Z) (g : TokenGen) w :
  w_wf w -> obeys grants_inv i (oauth_token config db_available req now g) w.
Proof.
  intros Hw. unfold oauth_token. o_step; o_quiet. o_step. o_step; o_quiet. do 6 (o_step; o_quiet).
  apply obeys_bind_any; [done | by apply no_issue_obeys, quiet_secret | ]. intros b w' Hm. assert (Hw' : w_wf w') by (by eapply w_moves_wf).
  destruct b as [[]|]; o_quiet. o_call. assert (Hw2 : w_wf w2) by (by eapply w_moves_wf).
  destruct r as [[client|]|]; o_quiet. o_step; [by apply code_grant_obeys | by apply refresh_grant_obeys].
Qed.

(** ** The authorization endpoints *)

Lemma issue_for_user_obeys (i : nat) (config : Config) (client : OAuthClientRecord) (parsed : OAuthAuthorizeRequest)
  (user_id : str) (now : Z) (g : CodeGen) (w0 w : World) :
  w_moves w0 w -> client ∈ oauth_clients (w_db w0) -> redirect_registered client (zq_redirect_uri parsed) = true ->
  obeys grants_inv i (issue_for_user config client parsed user_id now g) w.
Proof.
  intros Hm Hin Hr. unfold issue_for_user. do 3 (o_step; o_quiet).
  apply (issue_code_obeys i _ _ _ _ _ _ _ _ _ _ _ w0); [done | done | done | done | by eapply normalize_registered].
Qed.

Lemma target_redirect (query : str) (parsed : OAuthAuthorizeRequest) (client_id redirect_uri : str) :
  authorize_target query (Ok parsed) = Ok (client_id, redirect_uri) ->
  client_id = zq_client_id parsed /\ redirect_uri = zq_redirect_uri parsed.
Proof. by intros [= <- <-]. Qed.

Lemma authorize_issue_obeys (i : nat) (config : Config) (user_id query : str) (now : Z) (g : CodeGen) w :
  w_wf w -> obeys grants_inv i (authorize_issue_with_context config user_id query now g) w.
Proof.
  intros Hw. unfold authorize_issue_with_context. cbv zeta. destruct (authorize_target _ _) as [[client_id uri]|] eqn:Et; o_quiet.
  o_step; o_quiet. o_call. apply select_call_client in Hc as (Hdb & o & -> & Hfound). destruct o as [client|]; o_quiet.
  do 2 (o_step; o_quiet). o_step; o_quiet. destruct (parse_authorize_query query) as [parsed|] eqn:Ep; o_quiet.
  apply target_redirect in Et as [-> ->]. apply (issue_for_user_obeys i _ _ _ _ _ _ w1); [done | by destruct Hfound | ].
  match goal with Hb : negb (redirect_registered _ _) = false |- _ => by apply negb_false_iff in Hb end.
Qed.

Lemma quiet_consent_page (config : Config) (query : str) : all_calls no_issue (authorize_render_consent config query).
Proof. unfold authorize_render_consent. by each_call. Qed.

Lemma find_session_obeys (i : nat) (id : str) (now : Z) (k : option AuthorizeSession -> prog Response) w :
  w_wf w -> (forall s w', w_wf w' -> obeys grants_inv i (k s) w') -> obeys grants_inv i (find_session id now k) w.
Proof. intros Hw Hk. unfold find_session. o_step; [by apply Hk | ]. o_call. apply Hk. by eapply w_moves_wf. Qed.

Lemma consent_obeys (i : nat) (config : option Config) (db_available sessions_available : bool) (req : PageRequest)
  (ck : AuthorizeClock) (g : CodeGen) w :
  w_wf w -> obeys grants_inv i (oauth_authorize_consent config db_available sessions_available req ck g) w.
Proof.
  intros Hw. unfold oauth_authorize_consent. do 5 (o_step; o_quiet). apply find_session_obeys; [done | ]. clear w Hw.
  intros s w Hw. do 2 (o_step; o_quiet). cbv zeta. o_step; o_quiet. o_call.
  apply select_call_client in Hc as (Hdb & o & -> & Hfound). destruct o as [client|]; o_quiet. do 2 (o_step; o_quiet).
  apply (issue_for_user_obeys i _ _ _ _ _ _ w1); [done | by destruct Hfound | ].
  match goal with Hb : negb (redirect_registered _ _) = false |- _ => by apply negb_false_iff in Hb end.
Qed.

Lemma quiet_login (config : option Config) (db_available sessions_available : bool) (req : PageRequest) (ck : AuthorizeClock)
  (random : str) : all_calls no_issue (oauth_authorize_login config db_available sessions_available req ck random).
Proof. unfold oauth_authorize_login. each_call; try done. apply quiet_authenticate. Qed.

(** *** Project shares *)

Lemma project_share_valid (config : Config) (parsed : OAuthAuthorizeRequest) (client : OAuthClientRecord)
  (v : ProjectShareAuthorizeValidated) :
  project_share_checks config parsed client = Ok v ->
  pv_client v = client /\ pv_parsed v = parsed /\ redirect_registered client (zq_redirect_uri parsed) = true
  /\ flow_error parsed = None /\ registered_words (pv_scopes v) /\ project_share_scopes_are_bounded (pv_scopes v) = true
  /\ is_project_grant_owned client = true /\ oc_owner_project_grant_id client = cf_project_share_grant_id config.
Proof.
  unfold project_share_checks. cbv zeta. destruct (cf_project_share_grant_id config) as [gid|] eqn:Eg; cbn [ok_or result_bind]; [ | done].
  destruct (_ || negb (is_project_grant_owned client)) eqn:E1; cbn [result_bind]; [done | ].
  destruct (negb (redirect_registered _ _)) eqn:E2; cbn [result_bind]; [done | ].
  destruct (flow_error parsed) as [e|] eqn:E3; cbn [result_bind]; [done | ].
  destruct (normalize_project_share_oauth_scopes _ _) as [scopes|] eqn:E4; cbn [map_err result_bind]; [ | done].
  destruct (negb (project_share_scopes_are_bounded scopes)) eqn:E5; cbn [result_bind]; [done | ].
  destruct (validate_authorize_resource _ _) as [resource|]; cbn [map_err result_bind]; [ | done]. intros [= <-]. cbn.
  split_andb. split_and!; try done. unfold normalize_project_share_oauth_scopes in E4.
  destruct (normalize_oauth_scopes _ _) as [n|] eqn:En; cbn [result_bind] in E4; [ | done].
  destruct (existsb _ _); [done | ]. injection E4 as <-. by eapply normalize_registered.
Qed.

Lemma project_share_guards (i : nat) (config : Config) (query : str) w :
  w_wf w ->
  guards i (validate_project_share_authorize_request config query) (fun r w' => match r with
    | Ok v => exists w0, w_moves w0 w' /\ pv_client v ∈ oauth_clients (w_db w0)
        /\ project_share_checks config (pv_parsed v) (pv_client v) = Ok v
    | Err _ => True end) w.
Proof.
  intros Hw. unfold validate_project_share_authorize_request. destruct (parse_authorize_query query) as [parsed|]; g_quiet. g_call.
  apply select_call_client in Hc as (_ & o & -> & Hfound). apply guards_ret. intros w' Hm'. destruct o as [client|]; [ | exact I].
  destruct (project_share_checks config parsed client) as [v|] eqn:Ev; [ | exact I].
  apply others_moves in Hm'; [ | by eapply w_moves_wf]. exists w1. destruct (project_share_valid _ _ _ _ Ev) as (-> & -> & _).
  split_and!; [by eapply w_moves_trans | by destruct Hfound | done].
Qed.

Lemma quiet_project_validation (config : Config) (query : str) : all_calls no_issue (validate_project_share_authorize_request config query).
Proof. unfold validate_project_share_authorize_request. by each_call. Qed.

Lemma project_obeys (i : nat) (config : option Config) (db_available : bool) (req : PageRequest)
  (runtime : option (str -> option AuthContext)) (now : Z) (g : CodeGen) w :
  w_wf w -> obeys grants_inv i (oauth_authorize_project config db_available req runtime now g) w.
Proof.
  intros Hw. unfold oauth_authorize_project. do 4 (o_step; o_quiet).
  apply obeys_bind; [by apply no_issue_obeys, quiet_project_validation | ]. eapply guards_mono, project_share_guards; [ | done].
  intros [v|] w' Hv; o_quiet. destruct Hv as (w0 & Hm & Hin & Hv). destruct (project_share_valid _ _ _ _ Hv) as (_ & _ & Hr & Hf & Hs & _).
  do 2 (o_step; o_quiet). unfold issue_project_share_authorization_code. destruct (configured_project_share_subject _) as [[s|]|]; o_quiet.
  by apply (issue_code_obeys i _ _ _ _ _ _ _ _ _ _ _ w0).
Qed.

(** *** The shared-key bridge *)

Lemma bridge_valid (config : Config) (parsed : OAuthAuthorizeRequest) (client : OAuthClientRecord) (v : BridgeAuthorizeValidated) :
  bridge_checks config parsed client = Ok v ->
  bv_client v = client /\ bv_parsed v = parsed /\ redirect_registered client (zq_redirect_uri parsed) = true
  /\ flow_error parsed = None
  /\ normalize_oauth_scopes (zq_scope parsed) (oc_allowed_scopes client) = Ok (bv_requestable_scopes v)
  /\ bv_computer_permissions_enabled v = bridge_client_is_computer_enabled client
  /\ forallb (within_client_ceiling client (bv_computer_permissions_enabled v)) (split_whitespace (bv_requestable_scopes v)) = true.
Proof.
  unfold bridge_checks. cbv zeta. destruct (is_empty (zq_redirect_uri parsed)); cbn [result_bind]; [done | ].
  destruct (negb (redirect_registered _ _)) eqn:E2; cbn [result_bind]; [done | ].
  destruct (flow_error parsed) as [e|] eqn:E3; cbn [result_bind]; [done | ].
  destruct (normalize_bridge_oauth_scopes _ _) as [scopes|] eqn:E4; cbn [map_err result_bind]; [ | done].
  destruct (existsb _ _) eqn:E5; cbn [result_bind]; [done | ].
  destruct (validate_authorize_resource _ _) as [resource|]; cbn [map_err result_bind]; [ | done]. intros [= <-].
  cbn [bv_client bv_parsed bv_requestable_scopes bv_computer_permissions_enabled]. split_andb. split_and!; try done.
  - unfold normalize_bridge_oauth_scopes in E4. destruct (normalize_oauth_scopes _ _) as [n|]; cbn [result_bind] in E4; [ | done].
    destruct (existsb _ _) in E4; [done | ]. by injection E4 as <-.
  - apply forallb_forall. intros s Hs. apply not_false_iff_true. intros Hf. apply not_true_iff_false in E5. apply E5, existsb_exists.
    exists s. by rewrite Hf.
Qed.

Lemma bridge_guards (i : nat) (config : Config) (query : str) w :
  w_wf w ->
  guards i (validate_bridge_authorize_request config query) (fun r w' => match r with
    | Ok v => exists w0, w_moves w0 w' /\ bv_client v ∈ oauth_clients (w_db w0)
        /\ bridge_checks config (bv_parsed v) (bv_client v) = Ok v
    | Err _ => True end) w.
Proof.
  intros Hw. unfold validate_bridge_authorize_request. destruct (parse_authorize_query query) as [parsed|]; g_quiet.
  g_step; g_quiet. g_call. apply select_call_client in Hc as (_ & o & -> & Hfound). apply guards_ret. intros w' Hm'.
  destruct o as [client|]; [ | exact I]. destruct (bridge_checks config parsed client) as [v|] eqn:Ev; [ | exact I].
  apply others_moves in Hm'; [ | by eapply w_moves_wf]. exists w1. destruct (bridge_valid _ _ _ _ Ev) as (-> & -> & _).
  split_and!; [by eapply w_moves_trans | by destruct Hfound | done].
Qed.

Lemma quiet_bridge_validation (config : Config) (query : str) : all_calls no_issue (validate_bridge_authorize_request config query).
Proof. unfold validate_bridge_authorize_request. by each_call. Qed.

(** The granted scopes are some of the requested ones. *)
Lemma selected_words (v : BridgeAuthorizeValidated) (selected : list str) (text : str) :
  forallb scope_word (split_whitespace (bv_requestable_scopes v)) = true -> selected_bridge_grant_scopes v selected = Ok text ->
  exists optional, selected_optional_scopes v [] selected = Ok optional
  /\ split_whitespace text = List.filter (fun scope =>
        (scope ==? OAUTH_OFFLINE_ACCESS_SCOPE) || one_of scope bridge_oauth_scopes || one_of scope OPTIONAL_CLASS_SCOPES
        || one_of scope optional) (split_whitespace (bv_requestable_scopes v)).
Proof.
  intros Hw. unfold selected_bridge_grant_scopes. destruct (selected_optional_scopes v [] selected) as [optional|]; cbn [result_bind]; [ | done].
  intros [= <-]. exists optional. split; [done | ]. apply split_join, filter_words, Hw.
Qed.

Lemma bridge_obeys (i : nat) (config : option Config) (db_available : bool) (req : PageRequest) (registry : option GroupView)
  (now : Z) (g : CodeGen) w : w_wf w -> obeys grants_inv i (oauth_authorize_bridge config db_available req registry now g) w.
Proof.
  intros Hw. unfold oauth_authorize_bridge. do 5 (o_step; o_quiet). cbv zeta.
  destruct (is_shared_key_bridge_query _) as [[]|]; o_quiet.
  apply obeys_bind; [by apply no_issue_obeys, quiet_bridge_validation | ]. eapply guards_mono, bridge_guards; [ | done].
  intros [v|] w' Hv; o_quiet. destruct Hv as (w0 & Hm & Hin & Hv). destruct (bridge_valid _ _ _ _ Hv) as (_ & _ & Hr & Hf & Hs & _).
  unfold bridge_decision. cbv zeta. do 4 (o_step; o_quiet).
  apply (issue_code_obeys i _ _ _ _ _ _ _ _ _ _ _ w0); try done. apply normalize_words in Hs as [Hwd Hsub].
  match goal with Hg : selected_bridge_grant_scopes _ _ = Ok _ |- _ => destruct (selected_words _ _ _ Hwd Hg) as (optional & _ & Heq) end.
  intros scope. unfold registered_words. rewrite Heq, list_elem_of_In, filter_In, <- list_elem_of_In. intros [Hel _]. by eapply elem_of_sublist.
Qed.

Lemma authorize_obeys (i : nat) (config : option Config) (db_available sessions_available : bool) (req : PageRequest)
  (ck : AuthorizeClock) (g : CodeGen) w :
  w_wf w -> obeys grants_inv i (oauth_authorize config db_available sessions_available req ck g) w.
Proof.
  intros Hw. unfold oauth_authorize. do 4 (o_step; o_quiet). cbv zeta. destruct (is_shared_key_bridge_query _) as [[]|]; o_quiet.
  - o_step; o_quiet. apply no_issue_obeys; [done | ]. each_call. apply quiet_bridge_validation.
  - destruct (configured_project_share_subject _) as [[s|]|]; o_quiet.
    + apply no_issue_obeys; [done | ]. each_call. apply quiet_project_validation.
    + unfold authorize_as_user. cbv zeta. o_step.
      * apply obeys_bind_any; [done | by apply no_issue_obeys, quiet_authenticate | ]. intros b w' Hm.
        assert (Hw' : w_wf w') by (by eapply w_moves_wf). destruct b as [[ctx|]|]; o_quiet.
        destruct (if is_authorize_identity_allowed ctx then _ else _); o_quiet. by apply authorize_issue_obeys.
      * o_step; o_quiet. apply find_session_obeys; [done | ]. intros s w' Hw'. o_step; o_quiet.
        apply no_issue_obeys; [done | ]. apply quiet_consent_page.
Qed.
End Endpoints.

(** ** All endpoints *)

Section System.
Context `{AuthEnv}.

Inductive Endpoint : Type :=
| TokenEndpoint (config : option Config) (db_available : bool) (req : HttpRequest) (now : Z) (g : TokenGen)
| RevokeEndpoint (config : option Config) (db_available : bool) (req : HttpRequest) (now : Z)
| BearerEndpoint (config : Config) (db_available : bool) (token : str) (pat_now now : Z)
| AuthorizeEndpoint (config : option Config) (db_available sessions : bool) (req : PageRequest) (ck : AuthorizeClock) (g : CodeGen)
| LoginEndpoint (config : option Config) (db_available sessions : bool) (req : PageRequest) (ck : AuthorizeClock) (random : str)
| ConsentEndpoint (config : option Config) (db_available sessions : bool) (req : PageRequest) (ck : AuthorizeClock) (g : CodeGen)
| ProjectEndpoint (config : option Config) (db_available : bool) (req : PageRequest) (runtime : option (str -> option AuthContext))
    (now : Z) (g : CodeGen)
| BridgeEndpoint (config : option Config) (db_available : bool) (req : PageRequest) (registry : option GroupView) (now : Z) (g : CodeGen)
| ProvisionEndpoint (config : option Config) (auth : option AuthContext) (db_available : bool) (registry : option GroupView)
    (body : result ProvisionSharedKeyOAuthClientRequest str) (now : Z) (g : ClientGen)
| CreateClientEndpoint (auth : option AuthContext) (db_available : bool) (body : result CreateOAuthClientRequest str) (now : Z)
    (g : ClientGen)
| ListClientsEndpoint (auth : option AuthContext) (db_available : bool)
| UpdateScopesEndpoint (auth : option AuthContext) (db_available : bool) (body : result UpdateOAuthClientScopesRequest str) (now : Z)
| RevokeClientEndpoint (auth : option AuthContext) (db_available : bool) (body : result str str) (now : Z).

(** The handler of an endpoint. *)
Definition serve (e : Endpoint) : prog Response :=
  match e with
  | TokenEndpoint config av req now g => oauth_token config av req now g
  | RevokeEndpoint config av req now => oauth_revoke config av req now
  | BearerEndpoint config av token pat_now now => bearer_request config av token pat_now now
  | AuthorizeEndpoint config av sessions req ck g => oauth_authorize config av sessions req ck g
  | LoginEndpoint config av sessions req ck random => oauth_authorize_login config av sessions req ck random
  | ConsentEndpoint config av sessions req ck g => oauth_authorize_consent config av sessions req ck g
  | ProjectEndpoint config av req runtime now g => oauth_authorize_project config av req runtime now g
  | BridgeEndpoint config av req registry now g => oauth_authorize_bridge config av req registry now g
  | ProvisionEndpoint config auth av registry body now g => oauth_shared_key_client_provision config auth av registry body now g
  | CreateClientEndpoint auth av body now g => oauth_clients_create auth av body now g
  | ListClientsEndpoint auth av => oauth_clients_list auth av
  | UpdateScopesEndpoint auth av body now => oauth_clients_update_scopes auth av body now
  | RevokeClientEndpoint auth av body now => oauth_clients_revoke auth av body now
  end.

Lemma serve_obeys (e : Endpoint) (i : nat) (w : World) : w_wf w -> obeys grants_inv i (serve e) w.
Proof.
  intros Hw. destruct e; cbn [serve].
  - by apply token_obeys.
  - apply no_issue_obeys; [done | ]. unfold oauth_revoke. each_call; try done. apply quiet_secret.
  - apply no_issue_obeys; [done | ]. unfold bearer_request. each_call. apply quiet_authenticate.
  - by apply authorize_obeys.
  - apply no_issue_obeys, quiet_login. done.
  - by apply consent_obeys.
  - by apply project_obeys.
  - by apply bridge_obeys.
  - apply no_issue_obeys; [done | ]. unfold oauth_shared_key_client_provision, create_bridge_client. by each_call.
  - apply no_issue_obeys; [done | ]. unfold oauth_clients_create, managing, client_owner. by each_call.
  - apply no_issue_obeys; [done | ]. unfold oauth_clients_list, managing. by each_call.
  - apply no_issue_obeys; [done | ]. unfold oauth_clients_update_scopes, managing. by each_call.
  - apply no_issue_obeys; [done | ]. unfold oauth_clients_revoke, managing. by each_call.
Qed.

(** C19: whatever endpoint requests run, in whatever order their calls interleave, the grant
    tables stay traceable: every authorization code belongs to a client with that redirect
    URI registered, demands an S256 proof, names only scopes of the registry and has a
    consistent subject, and every access and refresh token ever stored carries the client,
    subject and scopes of a code that was redeemed. *)
Theorem grants_traceable (db : AuthDb) (endpoints : list Endpoint) (sched : list nat) :
  auth_wf db -> grants_ok db -> grants_ok (w_db (y_world (run_schedule (start db (map serve endpoints)) sched))).
Proof.
  intros Hw Hg. apply (schedule_invariant grants_inv); [done | ]. intros i p Hp. cbn in *.
  rewrite list_lookup_fmap in Hp. destruct (endpoints !! i) as [e|]; [ | done]. injection Hp as <-. by apply serve_obeys.
Qed.
End System.
