(* ===== verification/OAuthIdentity.v ===== *)
(** * OAuthIdentity: whom a user's authorization code speaks for

    A correspondence between calls of the log: a code is issued for a user only when some
    authorization or sign-in request showed an API key of that user that had not expired at
    the time of that request, while the user was enabled. *)
From S2P Require Import Prelude RustStr Policy Sql Capabilities AuthModel AuthStore OAuthScopes OAuthHttp AuthFacts OAuthFacts OAuthAuthorize OAuthBridge OAuthGrants.

Section Identity.
Context `{AuthEnv} (endpoints : list Endpoint).
Implicit Types w : World.

(** The key an authorization or sign-in request shows, and the time at which the request
    looks it up. *)
Definition shown_key (e : Endpoint) : option (str * Z) :=
  match e with
  | AuthorizeEndpoint _ _ _ req ck _ => (fun token => (token, ck_pat ck)) <$> bearer_token req
  | LoginEndpoint _ _ _ req ck _ =>
      pairs ← parse_form_body req; token ← nonempty (form_field pairs (lit "token")); Some (token, ck_pat ck)
  | _ => None
  end.

(** Request [i] shows the key [token] at time [now]. *)
Definition shows (i : nat) (token : str) (now : Z) : Prop :=
  exists e, endpoints !! i = Some e /\ shown_key e = Some (token, now).

(** A request was answered that the key it showed, unexpired at its time, is that of the
    enabled user [user_id]. *)
Definition user_authenticated (log : list Event) (user_id : str) : Prop :=
  exists (i : nat) (token : str) (now : Z) (k : ApiKeyRecord) (u : UserRecord),
    shows i token now
    /\ Called i (GetApiKeyByHash (hash_token token)) (Ok (Some k)) ∈ log
    /\ Called i (GetUserById (ak_user_id k)) (Ok (Some u)) ∈ log
    /\ us_id u = user_id /\ user_is_disabled u = false /\ ak_is_expired k now = false /\ ak_is_agent_token k = false.

(** The user a code was issued for by this call. *)
Definition issued_user (e : Event) : option str :=
  match e with
  | Called _ op r =>
      match op in AuthOp A return result A StoreError -> option str with
      | InsertCode c _ => fun r => if is_ok r && (ac_subject_kind c ==? MANAGED_USER) then Some (ac_subject_id c) else None
      | _ => fun _ => None
      end r
  end.

Record identity_inv (w : World) : Prop := {
  id_codes : forall e u, e ∈ w_log w -> issued_user e = Some u -> user_authenticated (w_log w) u;
  id_sessions : forall h s, authorize_sessions (w_db w) !! h = Some s -> user_authenticated (w_log w) (se_user_id s)
}.

Lemma user_authenticated_mono (log log' : list Event) (u : str) :
  (forall e, e ∈ log -> e ∈ log') -> user_authenticated log u -> user_authenticated log' u.
Proof. intros Hl (i & t & now & k & x & Hs & H1 & H2 & H3). exists i, t, now, k, x. auto. Qed.

(** ** Quiet calls *)

Definition names_user (B : Type) (op : AuthOp B) : bool :=
  match op with InsertCode _ _ | CreateSession _ _ _ => true | _ => false end.
Definition no_user (B : Type) (op : AuthOp B) : Prop := names_user B op = false.

(** Sessions only come from [create_session]. *)
Lemma perform_sessions {A : Type} (op : AuthOp A) (db : AuthDb) :
  names_user A op = false ->
  tx_wp (perform op) (fun _ db' => authorize_sessions db' ⊆ authorize_sessions db) db.
Proof.
  intros Hn. destruct op; try done; cbn [perform]; autounfold with auth_ops; auth_steps; cbn; try done.
  apply delete_subseteq.
Qed.

Lemma call_sessions {A : Type} (op : AuthOp A) (db : AuthDb) :
  names_user A op = false -> authorize_sessions (fst (call op db)) ⊆ authorize_sessions db.
Proof. intros Hn. unfold call. apply run_tx_wp; [done | by apply perform_sessions]. Qed.

Lemma no_user_neutral (i : nat) (B : Type) (op : AuthOp B) : no_user B op -> neutral identity_inv i B op.
Proof.
  intros Hn w Hw [H1 H2]. pose proof (call_sessions op (w_db w) Hn) as Hs. rewrite w_call_eq. cbn.
  assert (Hl : forall e, e ∈ w_log w -> e ∈ w_log w ++ [Called i op (call op (w_db w)).2]) by (intros; by apply elem_of_app; left).
  constructor; cbn.
  - intros e u [He | ->%list_elem_of_singleton]%elem_of_app Hi; [eapply user_authenticated_mono; eauto | ]. by destruct op.
  - intros h s Hh. eapply user_authenticated_mono; [done | ]. by eapply H2, lookup_weaken.
Qed.

Lemma no_user_obeys {A : Type} (i : nat) (p : prog A) (w : World) : w_wf w -> all_calls no_user p -> obeys identity_inv i p w.
Proof. intros Hw Hc. apply obeys_calls; [done | ]. eapply all_calls_mono, Hc. intros C op. apply no_user_neutral. Qed.

(** ** Authentication *)

(** A first-party context of a user comes from the user's key. *)
Definition first_party (v : option AuthContext) (w : World) : Prop :=
  forall ctx u, v = Some ctx -> is_authorize_identity_allowed ctx = true -> cx_user_id ctx = Some u -> user_authenticated (w_log w) u.

Lemma w_moves_log w w' e : w_moves w w' -> e ∈ w_log w -> e ∈ w_log w'.
Proof. intros [_ Hl]. apply Hl. Qed.

Lemma pat_first_party (i : nat) (config : Config) (db_available : bool) (token : str) (now : Z) w :
  w_wf w -> shows i token now ->
  guards i (pat_verify config db_available token now)
    (fun v w' => match v with Ok o => first_party o w' | Err _ => True end) w.
Proof.
  intros Hw Hshow. assert (Hnone : forall w', first_party None w') by (by intros w' ctx u).
  assert (Hboot : forall w', first_party (Some bootstrap_context) w') by (intros w' ctx u [= <-] _; done).
  unfold pat_verify. do 3 (g_step; [by apply guards_ret | ]). g_call. assert (Hw2 : w_wf w2) by (by eapply w_moves_wf).
  destruct r as [[k|]|e]; cbn [found].
  - apply guards_do; [done | intros w3 w4 r Hm3 Hw3 Hc3 Hm4 Hl4]. apply select_call_user in Hc3 as (_ & o & -> & Hu).
    destruct o as [u|]; cbn [found]; g_quiet. do 2 (g_step; g_quiet). apply guards_do; [by eapply w_moves_wf | ].
    intros w5 w6 r Hm5 _ _ Hm6 _. apply guards_ret. intros w7 Hm7%others_moves; [ | by eapply w_moves_wf].
    intros ctx x [= <-] Hal Hx. cbn in Hx, Hal. destruct (ak_is_agent_token k) eqn:Ea; [done | ]. injection Hx as <-.
    exists i, token, now, k, u. split_and!; try done.
    + do 5 (eapply w_moves_log; [eassumption | ]). rewrite Hl. by apply elem_of_app; right; apply list_elem_of_here.
    + do 3 (eapply w_moves_log; [eassumption | ]). rewrite Hl4. by apply elem_of_app; right; apply list_elem_of_here.
  - apply guards_do_any. intros c w3. g_step; [ | by apply guards_ret]. apply guards_do_any. intros u w4. g_step; g_quiet.
    g_step; g_quiet. apply guards_do_any. intros _ w5. by apply guards_ret; intros w6 _ ctx x [= <-] Hal.
  - apply guards_do_any. intros c w3. g_step; [ | by apply guards_ret]. apply guards_do_any. intros u w4. g_step; g_quiet.
    g_step; g_quiet. apply guards_do_any. intros _ w5. by apply guards_ret; intros w6 _ ctx x [= <-] Hal.
Qed.

Lemma first_party_stays (v : option AuthContext) w w' : w_moves w w' -> first_party v w -> first_party v w'.
Proof. intros [_ Hl] Hf ctx u Hv Ha Hu. eapply user_authenticated_mono, Hf; eauto. Qed.

Lemma authenticate_first_party (i : nat) (config : Config) (db_available : bool) (token : str) (pat_now now : Z) w :
  w_wf w -> shows i token pat_now ->
  guards i (authenticate config db_available token pat_now now)
    (fun v w' => w_wf w' /\ match v with Ok o => first_party o w' | Err _ => True end) w.
Proof.
  intros Hw Hshow. unfold authenticate. apply guards_bind. eapply guards_mono, guards_moves, pat_first_party; [ | done | done | done].
  intros v w1 [Hm1 Hv]. assert (Hw1 : w_wf w1) by (by eapply w_moves_wf). destruct v as [[ctx|]|e].
  - apply guards_ret. intros w2 Hm2%others_moves; [ | done]. split; [by eapply w_moves_wf | by eapply first_party_stays].
  - apply guards_bind. eapply guards_mono, guards_moves, oauth2_guards; [ | done | done]. intros v w2 [Hm2 Hv2]. apply guards_ret.
    intros w3 Hm3%others_moves; [ | by eapply w_moves_wf]. split; [by eapply w_moves_wf | ]. destruct v as [[ctx|]|]; try done.
    intros ctx' u [= <-] Ha. destruct Hv2 as (t & _ & _ & _ & _ & _ & Hk & _). unfold is_authorize_identity_allowed in Ha. by rewrite Hk in Ha.
  - apply guards_ret. intros w2 Hm2%others_moves; [ | done]. split; [by eapply w_moves_wf | done].
Qed.

Lemma quiet_user_authenticate (config : Config) (db_available : bool) (token : str) (pat_now now : Z) :
  all_calls no_user (authenticate config db_available token pat_now now).
Proof. unfold authenticate, pat_verify, oauth2_verify, oauth2_context. by each_call. Qed.

(** ** Issuing *)

Lemma issue_code_identity (i : nat) (config : Config) (client : OAuthClientRecord) (parsed : OAuthAuthorizeRequest)
  (kind subject : str) (user shared : option str) (scopes : str) (resource : option str) (now : Z) (g : CodeGen) w :
  w_wf w -> (kind = MANAGED_USER -> user_authenticated (w_log w) subject) ->
  obeys identity_inv i (issue_code config client parsed kind subject user shared scopes resource now g) w.
Proof.
  intros Hw Hu. unfold issue_code. apply obeys_do; [done | ]. intros w1 w2 r Hm Hw1 [H1 H2] Hc [_ Hm2] Hl. split; [ | done].
  assert (Hs : authorize_sessions (w_db w2) = authorize_sessions (w_db w1)).
  { destruct r as [[]|e]; [ | by apply call_err in Hc as ->].
    apply (call_ok _ _ _ _ (fun _ db' => authorize_sessions db' = authorize_sessions (w_db w1)) Hc). cbn [perform].
    unfold insert_oauth_authorization_code. by auth_steps. }
  constructor.
  - intros e u He Hi. rewrite Hl in He. apply elem_of_app in He as [He | ->%list_elem_of_singleton].
    + eapply user_authenticated_mono; eauto.
    + cbn in Hi. destruct (is_ok r); [ | done]. cbn [andb] in Hi. destruct (kind ==? MANAGED_USER) eqn:Ek; [ | done].
      injection Hi as <-. apply beq_true in Ek. eapply user_authenticated_mono; [ | by apply Hu].
      intros e He. apply Hm2. by eapply w_moves_log.
  - rewrite Hs. intros h s Hh. eapply user_authenticated_mono; eauto.
Qed.

Lemma issue_for_user_identity (i : nat) (config : Config) (client : OAuthClientRecord) (parsed : OAuthAuthorizeRequest)
  (user_id : str) (now : Z) (g : CodeGen) w :
  w_wf w -> user_authenticated (w_log w) user_id -> obeys identity_inv i (issue_for_user config client parsed user_id now g) w.
Proof. intros Hw Hu. unfold issue_for_user. do 3 (o_step; o_quiet). by apply issue_code_identity. Qed.

(** A call that names no user. *)
Ltac i_call :=
  let w1 := fresh "w1" in let w2 := fresh "w2" in let r := fresh "r" in let Hm := fresh "Hm" in let Hw1 := fresh "Hw1" in
  let HI := fresh "HI" in let Hc := fresh "Hc" in let Hm2 := fresh "Hm2" in
  apply obeys_neutral; [assumption | by apply no_user_neutral | intros w1 w2 r Hm Hw1 HI Hc Hm2 _ _].

Lemma authorize_issue_identity (i : nat) (config : Config) (user_id query : str) (now : Z) (g : CodeGen) w :
  w_wf w -> user_authenticated (w_log w) user_id ->
  obeys identity_inv i (authorize_issue_with_context config user_id query now g) w.
Proof.
  intros Hw Hu. unfold authorize_issue_with_context. cbv zeta. destruct (authorize_target _ _) as [[client_id uri]|]; o_quiet.
  o_step; o_quiet. i_call. assert (Hm02 : w_moves w w2) by (by eapply w_moves_trans). destruct r as [[client|]|]; o_quiet.
  do 2 (o_step; o_quiet). o_step; o_quiet. destruct (parse_authorize_query query); o_quiet.
  apply issue_for_user_identity; [by eapply w_moves_wf | ]. eapply user_authenticated_mono, Hu. intros e. by apply w_moves_log.
Qed.

Lemma find_session_identity (i : nat) (id : str) (now : Z) (k : option AuthorizeSession -> prog Response) w :
  w_wf w ->
  (forall s w', w_wf w' -> (forall x, s = Some x -> user_authenticated (w_log w') (se_user_id x)) -> obeys identity_inv i (k s) w') ->
  obeys identity_inv i (find_session id now k) w.
Proof.
  intros Hw Hk. unfold find_session. o_step; [by apply Hk | ]. i_call. apply Hk; [by eapply w_moves_wf | ]. intros x Hx.
  destruct r as [[s|]|e]; cbn [found] in Hx; try done. injection Hx as ->.
  assert (Hin : authorize_sessions (w_db w1) !! hash_token id = Some x).
  { set (post := fun (o : option AuthorizeSession) (_ : AuthDb) => o = Some x -> authorize_sessions (w_db w1) !! hash_token id = Some x).
    refine (call_ok _ _ _ _ post Hc _ eq_refl). cbn [perform]. unfold get_session. auth_steps; subst post; cbn; congruence. }
  eapply user_authenticated_mono, (id_sessions _ HI), Hin. intros e. by apply w_moves_log.
Qed.

Lemma login_identity (i : nat) (config : option Config) (db_available sessions : bool) (req : PageRequest) (ck : AuthorizeClock)
  (random : str) w :
  w_wf w -> endpoints !! i = Some (LoginEndpoint config db_available sessions req ck random) ->
  obeys identity_inv i (oauth_authorize_login config db_available sessions req ck random) w.
Proof.
  intros Hw Hep. unfold oauth_authorize_login. do 4 (o_step; o_quiet). cbv zeta. do 2 (o_step; o_quiet).
  apply obeys_bind; [by apply no_user_obeys, quiet_user_authenticate | ]. eapply guards_mono, authenticate_first_party; [ | done | ].
  2: { eexists. split; [exact Hep | ]. cbn. by repeat match goal with Hx : _ = Some _ |- _ => rewrite Hx; clear Hx; cbn end. }
  intros v w1 [Hw1 Hv]. destruct v as [[ctx|]|]; o_quiet. do 2 (o_step; o_quiet). apply obeys_do; [done | ].
  intros w2 w3 r Hm Hw2 [H1 H2] Hc [_ Hm3] Hl. split; [ | done].
  match goal with Hx : cx_user_id ctx = Some ?u |- _ => rename u into user_id; rename Hx into Hu end.
  assert (Ha : user_authenticated (w_log w3) user_id).
  { eapply user_authenticated_mono, (Hv ctx user_id); [ | done | by apply negb_false_iff | done].
    intros e He. apply Hm3. by eapply w_moves_log. }
  constructor.
  - intros e u He Hi. rewrite Hl in He. apply elem_of_app in He as [He | ->%list_elem_of_singleton]; [ | done].
    eapply user_authenticated_mono; eauto.
  - unfold call, run_tx in Hc. cbn in Hc. injection Hc as Hdb _. rewrite <- Hdb. cbn. intros h s.
    rewrite lookup_insert_Some. intros [[<- <-] | [_ Hh]]; [done | ]. apply map_lookup_filter_Some in Hh as [Hh _].
    eapply user_authenticated_mono; eauto.
Qed.

Lemma consent_identity (i : nat) (config : option Config) (db_available sessions : bool) (req : PageRequest) (ck : AuthorizeClock)
  (g : CodeGen) w : w_wf w -> obeys identity_inv i (oauth_authorize_consent config db_available sessions req ck g) w.
Proof.
  intros Hw. unfold oauth_authorize_consent. do 5 (o_step; o_quiet). apply find_session_identity; [done | ]. clear w Hw.
  intros s w Hw Hs. o_step; o_quiet. specialize (Hs _ eq_refl). o_step; o_quiet. cbv zeta. o_step; o_quiet. i_call.
  assert (Hm02 : w_moves w w2) by (by eapply w_moves_trans). destruct r as [[client|]|]; o_quiet. do 2 (o_step; o_quiet).
  apply issue_for_user_identity; [by eapply w_moves_wf | ]. eapply user_authenticated_mono, Hs. intros e. by apply w_moves_log.
Qed.

Lemma project_identity (i : nat) (config : option Config) (db_available : bool) (req : PageRequest)
  (runtime : option (str -> option AuthContext)) (now : Z) (g : CodeGen) w :
  w_wf w -> obeys identity_inv i (oauth_authorize_project config db_available req runtime now g) w.
Proof.
  intros Hw. unfold oauth_authorize_project. do 4 (o_step; o_quiet).
  apply obeys_bind_any; [done | apply no_user_obeys; [done | unfold validate_project_share_authorize_request; by each_call] | ].
  intros [v|] w' Hm; o_quiet. do 2 (o_step; o_quiet). unfold issue_project_share_authorization_code.
  destruct (configured_project_share_subject _) as [[s|]|]; o_quiet. apply issue_code_identity; [by eapply w_moves_wf | done].
Qed.

Lemma bridge_identity (i : nat) (config : option Config) (db_available : bool) (req : PageRequest) (registry : option GroupView)
  (now : Z) (g : CodeGen) w : w_wf w -> obeys identity_inv i (oauth_authorize_bridge config db_available req registry now g) w.
Proof.
  intros Hw. unfold oauth_authorize_bridge. do 5 (o_step; o_quiet). cbv zeta.
  destruct (is_shared_key_bridge_query _) as [[]|]; o_quiet.
  apply obeys_bind_any; [done | apply no_user_obeys; [done | unfold validate_bridge_authorize_request; by each_call] | ].
  intros [v|] w' Hm; o_quiet. unfold bridge_decision. cbv zeta. do 4 (o_step; o_quiet).
  apply issue_code_identity; [by eapply w_moves_wf | done].
Qed.

Lemma authorize_identity (i : nat) (config : option Config) (db_available sessions : bool) (req : PageRequest)
  (ck : AuthorizeClock) (g : CodeGen) w :
  w_wf w -> endpoints !! i = Some (AuthorizeEndpoint config db_available sessions req ck g) ->
  obeys identity_inv i (oauth_authorize config db_available sessions req ck g) w.
Proof.
  intros Hw Hep. unfold oauth_authorize. do 4 (o_step; o_quiet). cbv zeta. destruct (is_shared_key_bridge_query _) as [[]|]; o_quiet.
  - o_step; o_quiet. apply no_user_obeys; [done | ]. unfold validate_bridge_authorize_request. by each_call.
  - destruct (configured_project_share_subject _) as [[s|]|]; o_quiet.
    + apply no_user_obeys; [done | ]. unfold validate_project_share_authorize_request. by each_call.
    + unfold authorize_as_user. cbv zeta. o_step.
      * apply obeys_bind; [by apply no_user_obeys, quiet_user_authenticate | ]. eapply guards_mono, authenticate_first_party; [ | done | ].
        2: { eexists. split; [exact Hep | ]. cbn. by match goal with Hx : bearer_token req = Some _ |- _ => rewrite Hx end. }
        intros v w1 [Hw1 Hv]. destruct v as [[ctx|]|]; o_quiet. destruct (is_authorize_identity_allowed ctx) eqn:Ea; o_quiet.
        o_step; o_quiet. apply authorize_issue_identity; [done | ]. by apply (Hv ctx).
      * o_step; o_quiet. apply find_session_identity; [done | ]. intros s w' Hw' _. o_step; o_quiet.
        apply no_user_obeys; [done | ]. unfold authorize_render_consent. by each_call.
Qed.

Lemma serve_identity (e : Endpoint) (i : nat) w : w_wf w -> endpoints !! i = Some e -> obeys identity_inv i (serve e) w.
Proof.
  intros Hw Hep. destruct e; cbn [serve];
    try by (apply no_user_obeys; [done | ]; unfold oauth_revoke, verify_oauth_client_secret, try_ask, bearer_request,
      oauth_shared_key_client_provision, create_bridge_client, oauth_clients_create, oauth_clients_list,
      oauth_clients_update_scopes, oauth_clients_revoke, managing, client_owner; each_call; first [done | apply quiet_user_authenticate]).
  - apply no_user_obeys; [done | ]. unfold oauth_token, verify_oauth_client_secret, handle_authorization_code_grant,
      handle_refresh_token_grant, burn_code, consume_oauth_authorization_code_by_hash,
      exchange_oauth_authorization_code_for_tokens, try_ask, ask. by each_call.
  - by apply authorize_identity.
  - by apply login_identity.
  - by apply consent_identity.
  - by apply project_identity.
  - by apply bridge_identity.
Qed.

(** C18: a code that speaks for a user was authorized by that user.  In every interleaving
    of endpoint requests that begins without sign-in sessions, whenever the log shows a
    code issued for a managed user it also shows an authorization or sign-in request whose
    own bearer key was looked up and found to be a key of that user, not an agent's, that
    had not expired at the time of that request, while the user was enabled. *)
Theorem user_code_authenticated (db : AuthDb) (sched : list nat) (e : Event) (user_id : str) :
  auth_wf db -> authorize_sessions db = ∅ ->
  e ∈ w_log (y_world (run_schedule (start db (map serve endpoints)) sched)) -> issued_user e = Some user_id ->
  user_authenticated (w_log (y_world (run_schedule (start db (map serve endpoints)) sched))) user_id.
Proof.
  intros Hw Hs. apply id_codes, (schedule_invariant identity_inv).
  - constructor; cbn; [by intros ? ? ?%not_elem_of_nil | ]. intros h s. by rewrite Hs, lookup_empty.
  - intros i p Hp. cbn in *. rewrite list_lookup_fmap in Hp. destruct (endpoints !! i) as [x|] eqn:Ex; [ | done].
    injection Hp as <-. by apply serve_identity.
Qed.
End Identity.
