(* ===== verification/OAuthLaws.v ===== *)
(** * OAuthLaws: what holds of OAuth2 requests under every schedule

    Single use of codes and refresh tokens, what a token answer and an accepted bearer
    token mean, and the finality of revocations and scope changes: of a request that has
    not begun when the revocation is answered, whatever other requests do. *)
From S2P Require Import Prelude RustStr Policy Sql AuthModel AuthStore OAuthScopes OAuthHttp AuthFacts OAuthFacts OAuthAuthorize.

(** ** Dead grants *)

(** The grants of a client that [w0] held cannot be used in [db]. *)
Record grants_dead (client_id : str) (w0 : World) (db : AuthDb) : Prop := {
  dead_access : forall t, t ∈ oauth_access (w_db w0) -> at_client_id t = client_id -> ~ access_live (at_token_hash t) db;
  dead_refresh : forall t, t ∈ oauth_refresh (w_db w0) -> rt_client_id t = client_id -> ~ refresh_live (rt_token_hash t) db;
  dead_codes : forall c, c ∈ oauth_codes (w_db w0) -> ac_client_id c = client_id -> ~ code_live (ac_code_hash c) db
}.

Lemma access_marked (db : AuthDb) (t t' : OAuthAccessTokenRecord) :
  access_kept t t' -> t' ∈ oauth_access db -> is_some (at_revoked_at t') = true -> ~ access_live (at_token_hash t) db.
Proof. intros Hk Hin Hr Hl. rewrite (Hl t' Hin) in Hr; [done | ]. by destruct (access_kept_fields _ _ Hk) as (_ & ? & _). Qed.
Lemma refresh_marked (db : AuthDb) (t t' : OAuthRefreshTokenRecord) :
  refresh_kept t t' -> t' ∈ oauth_refresh db -> is_some (rt_revoked_at t') = true -> ~ refresh_live (rt_token_hash t) db.
Proof. intros Hk Hin Hr Hl. rewrite (Hl t' Hin) in Hr; [done | ]. by destruct (refresh_kept_fields _ _ Hk) as (_ & ? & _). Qed.
Lemma code_marked (db : AuthDb) (c c' : OAuthAuthorizationCodeRecord) :
  code_kept c c' -> c' ∈ oauth_codes db -> is_some (ac_revoked_at c') = true -> ~ code_live (ac_code_hash c) db.
Proof.
  intros Hk Hin Hr Hl. destruct (Hl c' Hin) as [_ Hn]; [by destruct (code_kept_fields _ _ Hk) as (_ & ? & _) | ]. by rewrite Hn in Hr.
Qed.

(** ** Statements that revoke *)

Lemma revoke_client_effect (client_id : str) (ts : Z) (db db' : AuthDb) (r : result bool StoreError) (c : OAuthClientRecord) :
  call (RevokeClient client_id ts) db = (db', r) -> c ∈ oauth_clients db -> oc_client_id c = client_id -> ~ client_live client_id db'.
Proof.
  unfold call, run_tx. cbn. intros [= <- _] Hin Hid Hl.
  assert (Hn : oc_revoked_at (stamp_client ts c) = None).
  { apply Hl; [ | done]. cbn. apply rows_update_hit; [done | ]. by rewrite Hid, beq_refl. }
  cbn in Hn. by destruct (oc_revoked_at c).
Qed.

Lemma revoke_client_access_effect (client_id : str) (ts : Z) (db db' : AuthDb) (r : result nat StoreError)
  (t : OAuthAccessTokenRecord) :
  call (RevokeClientAccess client_id ts) db = (db', r) -> t ∈ oauth_access db -> at_client_id t = client_id ->
  ~ access_live (at_token_hash t) db'.
Proof.
  unfold call, run_tx. cbn. intros [= <- _] Hin Hid. apply (access_marked _ t (stamp_access ts t)).
  - split; [done | apply stamped_coalesce].
  - cbn. apply rows_update_hit; [done | ]. by rewrite Hid, beq_refl.
  - cbn. by destruct (at_revoked_at t).
Qed.

Lemma revoke_client_refresh_effect (client_id : str) (ts : Z) (db db' : AuthDb) (r : result nat StoreError)
  (t : OAuthRefreshTokenRecord) :
  call (RevokeClientRefresh client_id ts) db = (db', r) -> t ∈ oauth_refresh db -> rt_client_id t = client_id ->
  ~ refresh_live (rt_token_hash t) db'.
Proof.
  unfold call, run_tx. cbn. intros [= <- _] Hin Hid. apply (refresh_marked _ t (stamp_refresh ts t)).
  - split; [done | apply stamped_coalesce].
  - cbn. apply rows_update_hit; [done | ]. by rewrite Hid, beq_refl.
  - cbn. by destruct (rt_revoked_at t).
Qed.

Lemma revoke_client_codes_effect (client_id : str) (ts : Z) (db db' : AuthDb) (r : result nat StoreError)
  (c : OAuthAuthorizationCodeRecord) :
  call (RevokeClientCodes client_id ts) db = (db', r) -> c ∈ oauth_codes db -> ac_client_id c = client_id ->
  ~ code_live (ac_code_hash c) db'.
Proof.
  unfold call, run_tx. cbn. intros [= <- _] Hin Hid. apply (code_marked _ c (stamp_code ts c)).
  - split; [done | ]. split; [by right | apply stamped_coalesce].
  - cbn. apply rows_update_hit; [done | ]. by rewrite Hid, beq_refl.
  - cbn. by destruct (ac_revoked_at c).
Qed.

(** The rows of a table after [UPDATE ... SET revoked_at = ts WHERE ... AND revoked_at IS NULL]. *)
Lemma marked_row {A : Type} (t : list A) (sel : A -> bool) (mark : A -> option Z) (upd : A -> A) (row : A) :
  (forall x, is_some (mark (upd x)) = true) -> row ∈ t -> sel row = true ->
  exists row', row' ∈ rows_update (fun x => sel x && is_none (mark x)) upd t /\ is_some (mark row') = true
    /\ (row' = row \/ (row' = upd row /\ mark row = None)).
Proof.
  intros Hu Hin Hs. destruct (mark row) as [m|] eqn:Em.
  - exists row. split_and!; [ | by rewrite Em | by left]. unfold rows_update. apply list_elem_of_In, in_map_iff. exists row.
    rewrite Hs, Em. cbn. split; [done | by apply list_elem_of_In].
  - exists (upd row). split_and!; [ | done | by right]. apply rows_update_hit; [done | ]. by rewrite Hs, Em.
Qed.

Lemma scope_change_effect (client_id expected allowed : str) (ts : Z) (db db' : AuthDb) (n1 n2 n3 : nat) (w : World) :
  call (UpdateClientScopes client_id expected allowed ts) db = (db', Ok (Some (true, n1, n2, n3))) -> w_db w = db ->
  grants_dead client_id w db'.
Proof.
  intros Hc <-.
  set (post := fun (x : option (bool * nat * nat * nat)) (d' : AuthDb) =>
    match x with Some (true, _, _, _) => grants_dead client_id w d' | _ => True end).
  apply (call_ok _ _ _ _ post Hc). clear Hc. cbn [perform]. unfold update_oauth_client_allowed_scopes_and_revoke_grants.
  auth_steps; try exact I. subst post. cbn. constructor; cbn.
  - intros t Hin Hid.
    destruct (marked_row (oauth_access (w_db w)) (fun t => at_client_id t ==? client_id) at_revoked_at
                (fun t => t <| at_revoked_at := Some ts |>) t) as (t' & Hin' & Hr & Hor); [done | done | by rewrite Hid, beq_refl | ].
    apply (access_marked _ t t'); [ | done | done]. destruct Hor as [-> | [-> Hn]]; [done | ]. split; [done | by left].
  - intros t Hin Hid.
    destruct (marked_row (oauth_refresh (w_db w)) (fun t => rt_client_id t ==? client_id) rt_revoked_at
                (fun t => t <| rt_revoked_at := Some ts |>) t) as (t' & Hin' & Hr & Hor); [done | done | by rewrite Hid, beq_refl | ].
    apply (refresh_marked _ t t'); [ | done | done]. destruct Hor as [-> | [-> Hn]]; [done | ]. split; [done | by left].
  - intros c Hin Hid.
    destruct (marked_row (oauth_codes (w_db w)) (fun c => ac_client_id c ==? client_id) ac_revoked_at
                (fun c => c <| ac_revoked_at := Some ts |>) c) as (c' & Hin' & Hr & Hor); [done | done | by rewrite Hid, beq_refl | ].
    apply (code_marked _ c c'); [ | done | done]. destruct Hor as [-> | [-> Hn]]; [done | ]. split; [done | ]. split; [by right | by left].
Qed.

Lemma grants_dead_stays (client_id : str) (w0 : World) (db db' : AuthDb) :
  moves db db' -> grants_dead client_id w0 db -> grants_dead client_id w0 db'.
Proof.
  intros Hm [H1 H2 H3]. constructor.
  - intros t Hin Hid Hl. eapply H1; [done | done | by eapply access_live_back].
  - intros t Hin Hid Hl. eapply H2; [done | done | by eapply refresh_live_back].
  - intros c Hin Hid Hl. eapply H3; [done | done | by eapply code_live_back].
Qed.

(** The grants that were there earlier are among those that are there now. *)
Lemma grants_dead_earlier (client_id : str) (w0 w1 : World) (db : AuthDb) :
  w_moves w0 w1 -> grants_dead client_id w1 db -> grants_dead client_id w0 db.
Proof.
  intros [Hm _] [H1 H2 H3]. constructor.
  - intros t Hin Hid. destruct (moves_access _ _ _ Hm Hin) as (t' & Hin' & Hk). destruct (access_kept_fields _ _ Hk) as (_ & <- & Hc & _).
    apply H1; [done | congruence].
  - intros t Hin Hid. destruct (moves_refresh _ _ _ Hm Hin) as (t' & Hin' & Hk). destruct (refresh_kept_fields _ _ Hk) as (_ & <- & Hc & _).
    apply H2; [done | congruence].
  - intros c Hin Hid. destruct (moves_code _ _ _ Hm Hin) as (c' & Hin' & Hk). destruct (code_kept_fields _ _ Hk) as (_ & <- & Hc & _).
    apply H3; [done | congruence].
Qed.

Section Laws.
Context `{AuthEnv}.
Implicit Types (w : World) (s : System Response).

(** ** Managing clients *)

(** What it means that a client's revocation or scope change was answered. *)
Definition revoke_client_answer (client_id : str) (w0 : World) (resp : Response) (w : World) : Prop :=
  match resp with
  | ClientRevoked =>
      grants_dead client_id w0 (w_db w)
      /\ forall c, c ∈ oauth_clients (w_db w0) -> oc_client_id c = client_id -> ~ client_live client_id (w_db w)
  | _ => True
  end.
Definition scopes_answer (client_id : str) (w0 : World) (resp : Response) (w : World) : Prop :=
  match resp with ClientScopes true _ _ _ => grants_dead client_id w0 (w_db w) | _ => True end.

Lemma managing_guards (i : nat) (auth : option AuthContext) (db_available : bool) (k : AuthContext -> prog Response)
  (post : Response -> World -> Prop) w :
  (forall status error w', post (ErrorBody status error) w') -> (forall a, guards i (k a) post w) ->
  guards i (managing auth db_available k) post w.
Proof. intros He Hk. unfold managing. g_step; [ | by apply guards_ret]. do 2 (g_step; [by apply guards_ret | ]). apply Hk. Qed.

Lemma revoke_client_guards (i : nat) (auth : option AuthContext) (db_available : bool) (body : str) (now : Z) w :
  w_wf w -> guards i (oauth_clients_revoke auth db_available (Ok body) now) (revoke_client_answer (trim body) w) w.
Proof.
  intros Hw. unfold oauth_clients_revoke. apply managing_guards; [done | ]. intros a. cbv zeta. g_step; g_quiet. g_call.
  assert (M2 : w_moves w w2) by (by eapply w_moves_trans). clear Hm Hc Hm2 Hl. destruct r as [current|]; g_quiet. g_step; g_quiet.
  apply guards_do; [by eapply w_moves_wf | intros w3 w4 r3 Hm3 Hw3 Hc3 Hm4 _]. g_step; g_quiet.
  assert (M3 : w_moves w w3) by (by eapply w_moves_trans). assert (M4 : w_moves w w4) by (by eapply w_moves_trans).
  apply guards_do; [by eapply w_moves_wf | intros w5 w6 r5 Hm5 Hw5 Hc5 Hm6 _]. g_step; g_quiet.
  assert (M5 : w_moves w w5) by (by eapply w_moves_trans). assert (M6 : w_moves w w6) by (by eapply w_moves_trans).
  apply guards_do; [by eapply w_moves_wf | intros w7 w8 r7 Hm7 Hw7 Hc7 Hm8 _]. g_step; g_quiet.
  assert (M7 : w_moves w w7) by (by eapply w_moves_trans). assert (M8 : w_moves w w8) by (by eapply w_moves_trans).
  apply guards_do; [by eapply w_moves_wf | intros w9 w10 r9 Hm9 Hw9 Hc9 Hm10 _]. g_step; g_quiet.
  assert (M9 : w_moves w w9) by (by eapply w_moves_trans).
  apply guards_ret. intros w11 Hm11%others_moves; [ | by eapply w_moves_wf].
  assert (T10 : w_moves w10 w11) by done. assert (T8 : w_moves w8 w11) by (by do 2 (eapply w_moves_trans; [eassumption | ])).
  assert (T6 : w_moves w6 w11) by (by do 2 (eapply w_moves_trans; [eassumption | ])).
  assert (T4 : w_moves w4 w11) by (by do 2 (eapply w_moves_trans; [eassumption | ])).
  destruct T10 as [T10 _], T8 as [T8 _], T6 as [T6 _], T4 as [T4 _], M3 as [M3 _], M5 as [M5 _], M7 as [M7 _], M9 as [M9 _].
  split; [constructor | ].
  - intros t Hin Hid Hl. destruct (moves_access _ _ _ M5 Hin) as (t' & Hin' & Hk). destruct (access_kept_fields _ _ Hk) as (_ & Hh & Hcl & _).
    apply (revoke_client_access_effect _ _ _ _ _ t' Hc5); [done | congruence | ]. rewrite Hh. by eapply access_live_back.
  - intros t Hin Hid Hl. destruct (moves_refresh _ _ _ M7 Hin) as (t' & Hin' & Hk). destruct (refresh_kept_fields _ _ Hk) as (_ & Hh & Hcl & _).
    apply (revoke_client_refresh_effect _ _ _ _ _ t' Hc7); [done | congruence | ]. rewrite Hh. by eapply refresh_live_back.
  - intros c Hin Hid Hl. destruct (moves_code _ _ _ M9 Hin) as (c' & Hin' & Hk). destruct (code_kept_fields _ _ Hk) as (_ & Hh & Hcl & _).
    apply (revoke_client_codes_effect _ _ _ _ _ c' Hc9); [done | congruence | ]. rewrite Hh. by eapply code_live_back.
  - intros c Hin Hid Hl. destruct (moves_client _ _ _ M3 Hin) as (c' & Hin' & Hk). destruct (client_kept_fields _ _ Hk) as (Hid' & _).
    apply (revoke_client_effect _ _ _ _ _ c' Hc3); [done | congruence | ]. by eapply client_live_back.
Qed.

Lemma update_scopes_guards (i : nat) (auth : option AuthContext) (db_available : bool) (body : UpdateOAuthClientScopesRequest)
  (now : Z) w :
  w_wf w -> guards i (oauth_clients_update_scopes auth db_available (Ok body) now) (scopes_answer (trim (uq_client_id body)) w) w.
Proof.
  intros Hw. unfold oauth_clients_update_scopes. apply managing_guards; [done | ]. intros a. cbv zeta. do 2 (g_step; g_quiet).
  g_step; g_quiet. g_call. destruct r as [[current|]|]; g_quiet. g_step; g_quiet.
  assert (M2 : w_moves w w2) by (by eapply w_moves_trans). clear Hm Hc Hm2 Hl.
  apply guards_do; [by eapply w_moves_wf | intros w3 w4 r3 Hm3 Hw3 Hc3 Hm4 _]. apply guards_ret. intros w5 Hm5.
  apply others_moves in Hm5 as [Hm5 _]; [ | by eapply w_moves_wf].
  destruct r3 as [[[[[[] n1] n2] n3]|]|]; try exact I. cbn. apply (grants_dead_stays _ _ (w_db w4)); [done | ].
  apply (grants_dead_earlier _ _ w3); [by eapply w_moves_trans | ]. by eapply scope_change_effect.
Qed.

(** ** Requests by what they ask *)

(** A token request with a well-formed form. *)
Definition token_request (p : prog Response) (config : Config) (form : TokenRequest) (now : Z) : Prop :=
  exists db_available req g body, p = oauth_token (Some config) db_available req now g
    /\ form_body (Some config) req = Ok (config, body) /\ token_form body = Ok form.

(** A revocation request with a well-formed form. *)
Definition revoke_request (p : prog Response) (config : Config) (form : RevokeRequest) (now : Z) : Prop :=
  exists db_available req body, p = oauth_revoke (Some config) db_available req now
    /\ form_body (Some config) req = Ok (config, body) /\ revoke_form body = Ok form.

(** What a token request presents: its grant type and the code or the refresh token. *)
Definition presented (form : TokenRequest) : option (str * str) :=
  match tq_grant_type form with
  | Some grant_type =>
      if grant_type ==? AUTHORIZATION_CODE then pair grant_type <$> tq_code form else pair grant_type <$> tq_refresh_token form
  | None => None
  end.

Definition is_tokens (resp : Response) : bool := match resp with TokenBody _ _ _ _ => true | _ => false end.

Lemma token_answered s (sched : list nat) (i : nat) (p : prog Response) (config : Config) (form : TokenRequest) (now : Z)
  (resp : Response) :
  w_wf (y_world s) -> y_requests s !! i = Some p -> token_request p config form now ->
  answered (run_schedule s sched) i resp -> token_answer i config form now (y_world s) resp (y_world (run_schedule s sched)).
Proof.
  intros Hw Hp (av & req & g & body & -> & Hb & Hf). apply (schedule_answer s sched i _ _ resp Hp). by eapply token_guards.
Qed.

Lemma bearer_answered s (sched : list nat) (i : nat) (config : Config) (db_available : bool) (token : str) (pat_now now : Z)
  (ctx : AuthContext) :
  w_wf (y_world s) -> y_requests s !! i = Some (bearer_request config db_available token pat_now now) ->
  answered (run_schedule s sched) i (Credential (Ok (Some ctx))) -> cx_kind ctx = KOAuth2Token ->
  bearer_context config token now (y_world s) ctx (w_db (y_world (run_schedule s sched))).
Proof. intros Hw Hp Ha. by apply (schedule_answer s sched i _ _ _ Hp (bearer_guards i _ _ _ _ _ _ Hw) Ha). Qed.

(** The event behind a token answer. *)
Lemma token_event (i : nat) (config : Config) (form : TokenRequest) (now : Z) (w0 w : World) (resp : Response) (text : str) :
  token_answer i config form now w0 resp w -> is_tokens resp = true ->
  (presented form = Some (AUTHORIZATION_CODE, text) ->
     exists e, e ∈ w_log w /\ event_request e = i /\ redeems (hash_token text) e = true /\ code_live (hash_token text) (w_db w0))
  /\ (presented form = Some (REFRESH_TOKEN, text) ->
     exists e, e ∈ w_log w /\ event_request e = i /\ rotates (hash_token text) e = true /\ refresh_live (hash_token text) (w_db w0)).
Proof.
  destruct resp; try done. intros (client_id & secret & _ & _ & _ & _ & Hor) _. unfold presented.
  destruct Hor as [(-> & _ & e & t & He & Hi & Ht & Hr & Hl) | (-> & _ & e & t & He & Hi & Ht & Hr & Hl)]; cbn; rewrite Ht; cbn;
    (split; intros [= <-]); by exists e.
Qed.

(** ** Laws *)

(** C16: an authorization code or a refresh token buys at most one pair of tokens.  Of all the
    token requests that present it, started in any number and interleaved in any way with
    each other and with any other requests, at most one is answered with tokens. *)
Theorem grant_used_once (db : AuthDb) (requests : list (prog Response)) (sched : list nat) (i j : nat) (pi pj : prog Response)
  (config_i config_j : Config) (form_i form_j : TokenRequest) (now_i now_j : Z) (grant : str * str) (resp_i resp_j : Response) :
  auth_wf db -> requests !! i = Some pi -> requests !! j = Some pj ->
  token_request pi config_i form_i now_i -> token_request pj config_j form_j now_j ->
  presented form_i = Some grant -> presented form_j = Some grant ->
  answered (run_schedule (start db requests) sched) i resp_i -> answered (run_schedule (start db requests) sched) j resp_j ->
  is_tokens resp_i = true -> is_tokens resp_j = true -> i = j.
Proof.
  intros Hw Hi Hj Ri Rj Pi Pj Ai Aj Ti Tj. set (s := start db requests) in *. assert (Hws : w_wf (y_world s)) by done.
  pose proof (token_answered s sched i pi _ _ _ _ Hws Hi Ri Ai) as Ei. pose proof (token_answered s sched j pj _ _ _ _ Hws Hj Rj Aj) as Ej.
  assert (Hg : grant.1 = AUTHORIZATION_CODE \/ grant.1 = REFRESH_TOKEN).
  { destruct resp_i; try done. destruct Ei as (? & ? & _ & _ & _ & _ & Hor). unfold presented in Pi.
    destruct Hor as [(Hgt & _ & _ & t & _ & _ & Ht & _) | (Hgt & _ & _ & t & _ & _ & Ht & _)]; rewrite Hgt in Pi; cbn in Pi;
      rewrite Ht in Pi; injection Pi as <-; auto. }
  destruct grant as [kind text]. cbn in Hg. pose proof (schedule_reaches s sched) as Hr. destruct Hg as [-> | ->].
  - destruct (token_event _ _ _ _ _ _ _ text Ei Ti) as [(e & He & <- & Hf & _) _]; [done | ].
    destruct (token_event _ _ _ _ _ _ _ text Ej Tj) as [(e' & He' & <- & Hf' & _) _]; [done | ].
    eapply (fires_one_request _ (redeems (hash_token text))); try done.
    apply (fires_once (y_world s) _ _ (code_spent (hash_token text))); try done.
    + intros d d' _. apply code_spent_stays.
    + intros k B op d d' r. apply redeem_closes.
  - destruct (token_event _ _ _ _ _ _ _ text Ei Ti) as [_ (e & He & <- & Hf & _)]; [done | ].
    destruct (token_event _ _ _ _ _ _ _ text Ej Tj) as [_ (e' & He' & <- & Hf' & _)]; [done | ].
    eapply (fires_one_request _ (rotates (hash_token text))); try done.
    apply (fires_once (y_world s) _ _ (refresh_spent (hash_token text))); try done.
    + intros d d' _. apply refresh_spent_stays.
    + intros k B op d d' r. apply rotate_closes.
Qed.

(** C17: tokens are given out only as they should be.  When a token request is answered with
    tokens, under any schedule: its client is registered, was not revoked when the request
    began and knows its secret; and either the request redeemed an unused, unexpired code
    of that client with the matching redirect URI and proof key, or it rotated a live
    refresh token of that client; the stored pair inherits the subject and scopes of the
    code or of the old token and expires as configured. *)
Theorem token_sound (s : System Response) (sched : list nat) (i : nat) (p : prog Response) (config : Config) (form : TokenRequest)
  (now expires : Z) (access refresh : str) (scope : option str) :
  w_wf (y_world s) -> y_requests s !! i = Some p -> token_request p config form now ->
  answered (run_schedule s sched) i (TokenBody access expires refresh scope) ->
  exists client_id secret, tq_client_id form = Some client_id /\ tq_client_secret form = Some secret
    /\ authenticated client_id secret (w_db (y_world (run_schedule s sched))) /\ client_live client_id (w_db (y_world s))
    /\ (code_redeemed config client_id form now access refresh scope (w_db (y_world (run_schedule s sched)))
        \/ refresh_rotated config client_id form now access refresh scope (w_db (y_world (run_schedule s sched)))).
Proof.
  intros Hw Hp Hr Ha. destruct (token_answered s sched i p _ _ _ _ Hw Hp Hr Ha) as (client_id & secret & H1 & H2 & H3 & H4 & Hor).
  exists client_id, secret. split_and!; try done. destruct Hor as [(_ & Hc & _) | (_ & Hc & _)]; auto.
Qed.

(** C20: a bearer token is accepted as an OAuth2 token only when it is one: a stored access
    token with its hash that has not expired, that was not revoked when the request began
    and whose client was not revoked then; the context has exactly the token's scopes, is
    never a bootstrap context, and acts for the token's subject and nobody else. *)
Theorem bearer_sound (s : System Response) (sched : list nat) (i : nat) (config : Config) (db_available : bool) (token : str)
  (pat_now now : Z) (ctx : AuthContext) :
  w_wf (y_world s) -> y_requests s !! i = Some (bearer_request config db_available token pat_now now) ->
  answered (run_schedule s sched) i (Credential (Ok (Some ctx))) -> cx_kind ctx = KOAuth2Token ->
  exists t, t ∈ oauth_access (w_db (y_world (run_schedule s sched))) /\ at_token_hash t = hash_token token
    /\ (now < at_expires_at t)%Z /\ access_live (hash_token token) (w_db (y_world s))
    /\ client_live (at_client_id t) (w_db (y_world s)) /\ cx_is_bootstrap ctx = false
    /\ cx_scopes ctx = split_whitespace (at_scopes t) /\ acts_for config ctx t.
Proof.
  intros Hw Hp Ha Hk. destruct (bearer_answered s sched i _ _ _ _ _ _ Hw Hp Ha Hk) as (t & H1 & H2 & H3 & H4 & H5 & _ & H6 & H7 & _ & _ & H8).
  exists t. by split_and!.
Qed.

(** Revocation of a token, when the store carries out the UPDATE: the handler ignores an
    error of it and answers all the same.  Once a revocation request for a token a client
    held has been answered, no request that begins afterwards is accepted with the token: a bearer
    request gets no OAuth2 context from it (unless the hint said it is a refresh token),
    a refresh request gets no tokens for it (unless the hint said it is an access token). *)
Lemma revocation_final (s : System Response) (sched1 sched2 : list nat) (i j : nat) (p : prog Response) (config : Config)
  (form : RevokeRequest) (now : Z) (token client_id : str) :
  w_wf (y_world s) -> y_requests s !! i = Some p -> revoke_request p config form now ->
  vq_token form = Some token -> vq_client_id form = Some client_id ->
  let s1 := run_schedule s sched1 in
  answered s1 i EmptyBody ->
  (forall t config' db_available pat_now now' ctx,
     t ∈ oauth_access (w_db (y_world s)) -> at_token_hash t = hash_token token -> at_client_id t = client_id ->
     vq_token_type_hint form <> Some (lit "refresh_token") ->
     y_requests s1 !! j = Some (bearer_request config' db_available token pat_now now') ->
     answered (run_schedule s1 sched2) j (Credential (Ok (Some ctx))) -> cx_kind ctx <> KOAuth2Token)
  /\ (forall t config' form' now' resp q,
     t ∈ oauth_refresh (w_db (y_world s)) -> rt_token_hash t = hash_token token -> rt_client_id t = client_id ->
     vq_token_type_hint form <> Some (lit "access_token") ->
     y_requests s1 !! j = Some q -> token_request q config' form' now' -> presented form' = Some (REFRESH_TOKEN, token) ->
     answered (run_schedule s1 sched2) j resp -> is_tokens resp = false).
Proof.
  intros Hw Hp (av & req & body & -> & Hb & Hf) Ht Hc s1 Ha.
  pose proof (schedule_answer s sched1 i _ _ _ Hp (revoke_guards i _ _ _ _ _ _ _ Hw Hb Hf) Ha) as (tk & cid & sec & Ht' & Hc' & _ & _ & Hacc & Href).
  rewrite Ht in Ht'. rewrite Hc in Hc'. injection Ht' as <-. injection Hc' as <-.
  assert (Hw1 : w_wf (y_world s1)) by (eapply w_moves_wf, schedule_moves; done). split.
  - intros t config' av' pn n' ctx Hin Hh Hcl Hhint Hq Hans Hk.
    destruct (bearer_answered s1 sched2 j _ _ _ _ _ _ Hw1 Hq Hans Hk) as (_ & _ & _ & _ & Hl & _).
    destruct (Hacc Hhint t Hin Hh Hcl) as (t' & Hin' & Hh' & Hr). by rewrite (Hl t' Hin' Hh') in Hr.
  - intros t config' form' n' resp q Hin Hh Hcl Hhint Hq Hreq Hpr Hans. apply not_true_iff_false. intros Htok.
    pose proof (token_answered s1 sched2 j q _ _ _ _ Hw1 Hq Hreq Hans) as He.
    destruct (token_event _ _ _ _ _ _ _ token He Htok) as [_ (e & _ & _ & _ & Hl)]; [done | ].
    destruct (Href Hhint t Hin Hh Hcl) as (t' & Hin' & Hh' & Hr). by rewrite (Hl t' Hin' Hh') in Hr.
Qed.

(** No request [j] that begins in [s1] can use a grant the client had in [w0]. *)
Record old_grants_refused (client_id : str) (w0 : World) (s1 : System Response) (sched2 : list nat) (j : nat) : Prop := {
  refuses_access : forall t config token db_available pat_now now ctx,
    t ∈ oauth_access (w_db w0) -> at_client_id t = client_id -> at_token_hash t = hash_token token ->
    y_requests s1 !! j = Some (bearer_request config db_available token pat_now now) ->
    answered (run_schedule s1 sched2) j (Credential (Ok (Some ctx))) -> cx_kind ctx <> KOAuth2Token;
  refuses_refresh : forall t config form token now resp q,
    t ∈ oauth_refresh (w_db w0) -> rt_client_id t = client_id -> rt_token_hash t = hash_token token ->
    y_requests s1 !! j = Some q -> token_request q config form now -> presented form = Some (REFRESH_TOKEN, token) ->
    answered (run_schedule s1 sched2) j resp -> is_tokens resp = false;
  refuses_code : forall c config form text now resp q,
    c ∈ oauth_codes (w_db w0) -> ac_client_id c = client_id -> ac_code_hash c = hash_token text ->
    y_requests s1 !! j = Some q -> token_request q config form now -> presented form = Some (AUTHORIZATION_CODE, text) ->
    answered (run_schedule s1 sched2) j resp -> is_tokens resp = false
}.

Lemma dead_refused (client_id : str) (w0 : World) (s1 : System Response) (sched2 : list nat) (j : nat) :
  w_wf (y_world s1) -> grants_dead client_id w0 (w_db (y_world s1)) -> old_grants_refused client_id w0 s1 sched2 j.
Proof.
  intros Hw1 [D1 D2 D3]. constructor.
  - intros t config token av pn n ctx Hin Hcl Hh Hq Hans Hk.
    destruct (bearer_answered s1 sched2 j _ _ _ _ _ _ Hw1 Hq Hans Hk) as (_ & _ & _ & _ & Hl & _).
    apply (D1 t Hin Hcl). by rewrite Hh.
  - intros t config form token n resp q Hin Hcl Hh Hq Hreq Hpr Hans. apply not_true_iff_false. intros Htok.
    pose proof (token_answered s1 sched2 j q _ _ _ _ Hw1 Hq Hreq Hans) as He.
    destruct (token_event _ _ _ _ _ _ _ token He Htok) as [_ (e & _ & _ & _ & Hl)]; [done | ]. apply (D2 t Hin Hcl). by rewrite Hh.
  - intros c config form text n resp q Hin Hcl Hh Hq Hreq Hpr Hans. apply not_true_iff_false. intros Htok.
    pose proof (token_answered s1 sched2 j q _ _ _ _ Hw1 Hq Hreq Hans) as He.
    destruct (token_event _ _ _ _ _ _ _ text He Htok) as [(e & _ & _ & _ & Hl) _]; [done | ]. apply (D3 c Hin Hcl). by rewrite Hh.
Qed.

(** A change of a client's scopes ends the grants it had.  Once the change has been
    answered as made, no request that begins afterwards can use an access token, a refresh
    token or an authorization code that the client had when the change was requested. *)
Lemma scope_change_final (s : System Response) (sched1 sched2 : list nat) (i j : nat) (auth : option AuthContext)
  (db_available : bool) (body : UpdateOAuthClientScopesRequest) (now : Z) (n1 n2 n3 : nat) :
  w_wf (y_world s) -> y_requests s !! i = Some (oauth_clients_update_scopes auth db_available (Ok body) now) ->
  answered (run_schedule s sched1) i (ClientScopes true n1 n2 n3) ->
  old_grants_refused (trim (uq_client_id body)) (y_world s) (run_schedule s sched1) sched2 j.
Proof.
  intros Hw Hp Ha. pose proof (schedule_answer s sched1 i _ _ _ Hp (update_scopes_guards i _ _ _ _ _ Hw) Ha) as Hd.
  apply dead_refused; [ | done]. eapply w_moves_wf, schedule_moves; done.
Qed.

(** C21: a revoked client stays out.  Once the revocation of a registered client has been
    answered with success (which the handler does only after all four updates succeeded), a
    request that begins afterwards gets no tokens in the client's name and no OAuth2 context
    from any of its access tokens, not even from tokens that requests already under way
    still store, however its calls interleave with others; and no code, access token or
    refresh token granted before can be used. *)
Theorem client_revocation_final (s : System Response) (sched1 sched2 : list nat) (i j : nat) (auth : option AuthContext)
  (db_available : bool) (body : str) (now : Z) (client : OAuthClientRecord) :
  w_wf (y_world s) -> y_requests s !! i = Some (oauth_clients_revoke auth db_available (Ok body) now) ->
  client ∈ oauth_clients (w_db (y_world s)) -> oc_client_id client = trim body ->
  let s1 := run_schedule s sched1 in
  answered s1 i ClientRevoked ->
  (forall config form now' resp q, y_requests s1 !! j = Some q -> token_request q config form now' ->
     tq_client_id form = Some (trim body) -> answered (run_schedule s1 sched2) j resp -> is_tokens resp = false)
  /\ (forall config av token pat_now now' ctx, y_requests s1 !! j = Some (bearer_request config av token pat_now now') ->
     answered (run_schedule s1 sched2) j (Credential (Ok (Some ctx))) -> cx_kind ctx = KOAuth2Token ->
     cx_allowed_client_id ctx <> Some (trim body))
  /\ old_grants_refused (trim body) (y_world s) s1 sched2 j.
Proof.
  intros Hw Hp Hin Hid s1 Ha.
  destruct (schedule_answer s sched1 i _ _ _ Hp (revoke_client_guards i _ _ _ _ _ Hw) Ha) as [Hd Hl]. specialize (Hl client Hin Hid).
  assert (Hw1 : w_wf (y_world s1)) by (eapply w_moves_wf, schedule_moves; done). split_and!.
  - intros config form n' resp q Hq Hreq Hcl Hans. apply not_true_iff_false. intros Htok.
    pose proof (token_answered s1 sched2 j q _ _ _ _ Hw1 Hq Hreq Hans) as He. destruct resp; try done.
    destruct He as (cid & sec & Hcid & _ & _ & Hlive & _). rewrite Hcl in Hcid. by injection Hcid as <-.
  - intros config av token pn n' ctx Hq Hans Hk Hal.
    destruct (bearer_answered s1 sched2 j _ _ _ _ _ _ Hw1 Hq Hans Hk) as (t & _ & _ & _ & _ & Hlive & _ & _ & _ & _ & Hal' & _).
    rewrite Hal in Hal'. injection Hal' as Heq. by rewrite <- Heq in Hlive.
  - by apply dead_refused.
Qed.
End Laws.
