(* ===== verification/OAuthFlow.v ===== *)
(** * OAuthFlow: a granted request gets what it asked for

    The other half of soundness: a client that presents a good code is answered with
    tokens, and the access token it gets is accepted until it expires. *)
From S2P Require Import Prelude RustStr Policy Sql AuthModel AuthStore OAuthScopes OAuthHttp AuthFacts OAuthFacts OAuthLaws.

(** ** Statements that find their row *)

Section Calls.
Implicit Types db : AuthDb.

Lemma call_client db (c : OAuthClientRecord) :
  auth_wf db -> c ∈ oauth_clients db -> oc_revoked_at c = None -> call (GetClient (oc_client_id c)) db = (db, Ok (Some c)).
Proof.
  intros Hw Hin Hr. unfold call, run_tx. cbn. rewrite (keyed_find oc_client_id (oauth_clients db) c); [done | apply Hw | done | | ].
  - by rewrite beq_refl, Hr.
  - intros r Hb. by split_andb.
Qed.

Lemma call_code db (c : OAuthAuthorizationCodeRecord) :
  auth_wf db -> c ∈ oauth_codes db -> ac_revoked_at c = None -> call (GetCode (ac_code_hash c)) db = (db, Ok (Some c)).
Proof.
  intros Hw Hin Hr. unfold call, run_tx. cbn. rewrite (keyed_find ac_code_hash (oauth_codes db) c); [done | apply Hw | done | | ].
  - by rewrite beq_refl, Hr.
  - intros r Hb. by split_andb.
Qed.

Lemma call_consumed db (c : OAuthAuthorizationCodeRecord) :
  auth_wf db -> c ∈ oauth_codes db -> call (GetCodeForConsume (ac_code_hash c)) db = (db, Ok (Some c)).
Proof.
  intros Hw Hin. unfold call, run_tx. cbn. rewrite (keyed_find ac_code_hash (oauth_codes db) c); [done | apply Hw | done | | ].
  - by rewrite beq_refl.
  - intros r Hb. by apply beq_true.
Qed.

Lemma call_access db (t : OAuthAccessTokenRecord) :
  auth_wf db -> t ∈ oauth_access db -> at_revoked_at t = None -> call (GetAccess (at_token_hash t)) db = (db, Ok (Some t)).
Proof.
  intros Hw Hin Hr. unfold call, run_tx. cbn. rewrite (keyed_find at_token_hash (oauth_access db) t); [done | apply Hw | done | | ].
  - by rewrite beq_refl, Hr.
  - intros r Hb. by split_andb.
Qed.

Lemma call_user db (u : UserRecord) : auth_wf db -> u ∈ users db -> call (GetUserById (us_id u)) db = (db, Ok (Some u)).
Proof.
  intros Hw Hin. unfold call, run_tx. cbn. rewrite (keyed_find us_id (users db) u); [done | apply Hw | done | | ].
  - by rewrite beq_refl.
  - intros r Hb. by apply beq_true.
Qed.

(** A hash that no key and no credential has. *)
Lemma call_no_key db (h : str) :
  has_key kr_hash (api_keys db) h = false -> call (GetApiKeyByHash h) db = (db, Ok None).
Proof.
  intros Hn. unfold call, run_tx. cbn. unfold get_api_key_by_hash, select_one, mbind, tx_bind, gets.
  match goal with |- context [find ?p ?t] => destruct (find p t) as [k|] eqn:E end; [ | done].
  apply find_elem in E as [Hin Hb]. split_andb. unfold has_key in Hn. apply not_true_iff_false in Hn. destruct Hn.
  apply existsb_exists. exists k. split; [by apply list_elem_of_In | ]. subst h. apply beq_refl.
Qed.
Lemma call_no_credential db (h : str) :
  has_key cw_hash (account_credentials db) h = false -> call (GetCredentialByHash h) db = (db, Ok None).
Proof.
  intros Hn. unfold call, run_tx. cbn. unfold get_account_credential_by_hash, select_one, mbind, tx_bind, gets.
  match goal with |- context [find ?p ?t] => destruct (find p t) as [k|] eqn:E end; [ | done].
  apply find_elem in E as [Hin Hb]. split_andb. unfold has_key in Hn. apply not_true_iff_false in Hn. destruct Hn.
  apply existsb_exists. exists k. split; [by apply list_elem_of_In | ]. subst h. apply beq_refl.
Qed.

Lemma insert_row_ok (allowed : AuthDb -> bool) (add : AuthDb -> AuthDb) db :
  allowed db = true -> insert_row allowed add db = Ok (tt, add db).
Proof. intros Ha. unfold insert_row, mbind, tx_bind, gets, reject, modify. by rewrite Ha. Qed.

(** The exchange of a good code for tokens with fresh ids and hashes. *)
Definition fresh_pair db (a : OAuthAccessTokenRecord) (r : OAuthRefreshTokenRecord) : Prop :=
  has_key at_id (oauth_access db) (at_id a) = false /\ has_key at_token_hash (oauth_access db) (at_token_hash a) = false
  /\ has_key rt_id (oauth_refresh db) (rt_id r) = false /\ has_key rt_token_hash (oauth_refresh db) (rt_token_hash r) = false
  /\ client_exists db (at_client_id a) = true /\ client_exists db (rt_client_id r) = true
  /\ user_ref db (at_user_id a) = true /\ user_ref db (rt_user_id r) = true.

Lemma call_exchange db (code : OAuthAuthorizationCodeRecord) (now : Z) (a : OAuthAccessTokenRecord) (r : OAuthRefreshTokenRecord) :
  auth_wf db -> code ∈ oauth_codes db -> redeemable (ac_code_hash code) now code = true ->
  validate_oauth_authorization_code_subject code = Ok tt -> validate_token_pair a r = Ok tt ->
  at_subject_kind a = ac_subject_kind code -> at_subject_id a = ac_subject_id code -> fresh_pair db a r ->
  exists db', call (ExchangeCode (ac_code_hash code) now a r) db = (db', Ok true) /\ (code <| ac_used_at := Some now |>) ∈ oauth_codes db'
    /\ a ∈ oauth_access db' /\ users db' = users db /\ oauth_clients db' = oauth_clients db /\ api_keys db' = api_keys db
    /\ account_credentials db' = account_credentials db.
Proof.
  intros Hw Hin Hr Hv Hp Hk Hs (F1 & F2 & F3 & F4 & F5 & F6 & F7 & F8).
  set (upd := fun c : OAuthAuthorizationCodeRecord => c <| ac_used_at := Some now |>).
  set (codes := rows_update (redeemable (ac_code_hash code) now) upd (oauth_codes db)).
  assert (Hin' : upd code ∈ codes) by (by apply rows_update_hit).
  assert (Hm : rows_matched (redeemable (ac_code_hash code) now) (oauth_codes db) = 1).
  { apply (keyed_matched ac_code_hash _ code); [apply Hw | done | done | ]. intros c Hc. unfold redeemable in Hc. by split_andb. }
  assert (Hf : find (fun c => ac_code_hash c ==? ac_code_hash code) codes = Some (upd code)).
  { apply (keyed_find ac_code_hash); [apply keyed_update; [done | apply Hw] | done | cbn; by rewrite beq_refl | ].
    intros c Hc. by apply beq_true in Hc. }
  exists (db <| oauth_codes := codes |> <| oauth_access := oauth_access db ++ [a] |> <| oauth_refresh := oauth_refresh db ++ [r] |>).
  split_and!; try done; [ | by apply elem_of_app; right; apply list_elem_of_here].
  unfold call, run_tx. cbn [perform]. unfold exchange_transaction, mbind, tx_bind, lift. rewrite Hp. cbn [mret tx_ret].
  unfold update_rows, mbind, tx_bind, gets, modify. cbn [mret tx_ret]. rewrite Hm. cbn [Nat.eqb].
  unfold select_one, gets, or_fail. cbn [oauth_codes]. fold upd. fold codes.
  change (oauth_codes (db <| oauth_codes := codes |>)) with codes. rewrite Hf. cbn [mret tx_ret].
  change (validate_oauth_authorization_code_subject (upd code)) with (validate_oauth_authorization_code_subject code). rewrite Hv.
  cbn [mret tx_ret]. unfold validate_oauth_subjects_match. cbn [ac_subject_kind ac_subject_id]. rewrite Hk, Hs.
  change (ac_subject_kind (upd code)) with (ac_subject_kind code). change (ac_subject_id (upd code)) with (ac_subject_id code).
  rewrite !beq_refl. cbn [negb orb mret tx_ret]. unfold insert_access_row, insert_refresh_row.
  rewrite !insert_row_ok; [done | | ].
  - transitivity (negb (has_key rt_id (oauth_refresh db) (rt_id r)) && negb (has_key rt_token_hash (oauth_refresh db) (rt_token_hash r))
      && client_exists db (rt_client_id r) && user_ref db (rt_user_id r)); [reflexivity | by rewrite F3, F4, F6, F8].
  - transitivity (negb (has_key at_id (oauth_access db) (at_id a)) && negb (has_key at_token_hash (oauth_access db) (at_token_hash a))
      && client_exists db (at_client_id a) && user_ref db (at_user_id a)); [reflexivity | by rewrite F1, F2, F5, F7].
Qed.
End Calls.

Section Flow.
Context `{AuthEnv}.

Lemma constant_time_refl (l : list N) : constant_time_eq l l = true.
Proof. by apply constant_time_eq_bytes. Qed.

Lemma nonempty_ne (s : str) : s <> [] -> nonempty (Some s) = Some s.
Proof. by destruct s. Qed.

(** A program whose next call has a known answer. *)
Lemma run_do {A B : Type} (op : AuthOp B) (k : result B StoreError -> prog A) (db db' : AuthDb) (r : result B StoreError) :
  call op db = (db', r) -> run_prog (Do op k) db = run_prog (k r) db'.
Proof. intros Hc. cbn. by rewrite Hc. Qed.
Lemma run_bind {A B : Type} (p : prog B) (f : B -> prog A) (db db' : AuthDb) (b : B) :
  run_prog p db = (db', b) -> run_prog (p ≫= f) db = run_prog (f b) db'.
Proof.
  revert db. induction p as [b'|C op k IH]; intros db; [by intros [= <- <-] | ]. cbn.
  destruct (call op db) as [db1 r]. apply IH.
Qed.

Lemma run_secret (db : AuthDb) (c : OAuthClientRecord) (secret : str) :
  auth_wf db -> c ∈ oauth_clients db -> oc_revoked_at c = None -> oc_client_secret_hash c = hash_token secret ->
  run_prog (verify_oauth_client_secret (oc_client_id c) secret) db = (db, Ok true).
Proof.
  intros Hw Hin Hr Hs. unfold verify_oauth_client_secret, try_ask. rewrite (run_do _ _ _ _ _ (call_client db c Hw Hin Hr)).
  cbn [run_prog]. by rewrite Hs, constant_time_refl.
Qed.

(** The pair the grant stores for a code. *)
Definition access_of (config : Config) (client_id : str) (code : OAuthAuthorizationCodeRecord) (resource : option str) (now : Z)
  (g : TokenGen) : OAuthAccessTokenRecord :=
  mkAccess (tg_access_id g) (hash_token (generate_oauth_access_token (tg_access_random g))) client_id
    (ac_subject_kind code) (ac_subject_id code) (ac_user_id code) (ac_scopes code) resource (ac_shared_key_hash code) now
    (as_i64 (now + cf_access_token_ttl_secs config)) None None.
Definition refresh_of (config : Config) (client_id : str) (code : OAuthAuthorizationCodeRecord) (resource : option str) (now : Z)
  (g : TokenGen) : OAuthRefreshTokenRecord :=
  mkRefresh (tg_refresh_id g) (hash_token (generate_oauth_refresh_token (tg_refresh_random g))) client_id
    (ac_subject_kind code) (ac_subject_id code) (ac_user_id code) (ac_scopes code) resource (ac_shared_key_hash code) now
    (as_i64 (now + cf_refresh_token_ttl_secs config)) None None None.

(** A request for a code of a user that has everything the code demands. *)
Record good_request (config : Config) (form : TokenRequest) (client : OAuthClientRecord) (code : OAuthAuthorizationCodeRecord)
  (user : UserRecord) (text verifier : str) (resource : option str) (now : Z) (g : TokenGen) (db : AuthDb) : Prop := {
  gr_grant : tq_grant_type form = Some AUTHORIZATION_CODE;
  gr_code : tq_code form = Some text /\ text <> [] /\ ac_code_hash code = hash_token text;
  gr_uri : tq_redirect_uri form = Some (ac_redirect_uri code) /\ ac_redirect_uri code <> [];
  gr_client : tq_client_id form = Some (oc_client_id client) /\ oc_client_id client <> [] /\ ac_client_id code = oc_client_id client;
  gr_secret : exists secret, tq_client_secret form = Some secret /\ secret <> [] /\ oc_client_secret_hash client = hash_token secret;
  gr_proof : tq_code_verifier form = Some verifier /\ verifier <> []
    /\ ac_code_challenge code = Some (base64_url_no_pad (sha256 (as_bytes verifier))) /\ ac_code_challenge_method code = Some (lit "S256");
  gr_resource : resolve_token_resource config (tq_resource form) (ac_resource code) = Ok resource;
  gr_rows : client ∈ oauth_clients db /\ oc_revoked_at client = None /\ code ∈ oauth_codes db
    /\ redeemable (ac_code_hash code) now code = true /\ user ∈ users db;
  gr_subject : ac_subject_kind code = lit "managed_user" /\ ac_subject_id code = us_id user /\ ac_user_id code = Some (us_id user)
    /\ blank (us_id user) = false /\ user_is_disabled user = false;
  gr_fresh : fresh_pair db (access_of config (oc_client_id client) code resource now g) (refresh_of config (oc_client_id client) code resource now g)
}.

Lemma managed_valid (user_id : str) (shared : option str) :
  blank user_id = false -> validate_oauth_subject (lit "managed_user") user_id (Some user_id) shared = Ok tt.
Proof. intros Hb. unfold validate_oauth_subject. rewrite beq_refl. cbn [opt_filter]. rewrite Hb. cbn. by rewrite beq_refl. Qed.

(** The tables after a good request. *)
Definition granted_db (config : Config) (client : OAuthClientRecord) (code : OAuthAuthorizationCodeRecord) (resource : option str)
  (now : Z) (g : TokenGen) (db db' : AuthDb) : Prop :=
  auth_wf db' /\ access_of config (oc_client_id client) code resource now g ∈ oauth_access db'
  /\ users db' = users db /\ oauth_clients db' = oauth_clients db /\ api_keys db' = api_keys db
  /\ account_credentials db' = account_credentials db.

Lemma code_grant_runs (config : Config) (form : TokenRequest) (client : OAuthClientRecord) (code : OAuthAuthorizationCodeRecord)
  (user : UserRecord) (text verifier : str) (resource : option str) (now : Z) (g : TokenGen) (db : AuthDb) :
  auth_wf db -> good_request config form client code user text verifier resource now g db ->
  exists db', run_prog (handle_authorization_code_grant config client form now g) db
    = (db', token_body config (generate_oauth_access_token (tg_access_random g)) (generate_oauth_refresh_token (tg_refresh_random g))
              (ac_scopes code))
    /\ granted_db config client code resource now g db db'.
Proof.
  intros Hw [_ (Hc1 & Hc2 & Hc3) (Hu1 & Hu2) (_ & _ & Hcl) _ (Hp1 & Hp2 & Hp3 & Hp4) Hres (R1 & R2 & R3 & R4 & R5) (S1 & S2 & S3 & S4 & S5) Hf].
  assert (Hv : validate_oauth_authorization_code_subject code = Ok tt).
  { unfold validate_oauth_authorization_code_subject. rewrite S1, S2, S3. by apply managed_valid. }
  destruct (call_exchange db code now (access_of config (oc_client_id client) code resource now g) (refresh_of config (oc_client_id client) code resource now g))
    as (db' & Hex & Hin' & Ha & E1 & E2 & E3 & E4); try done.
  { unfold validate_token_pair, validate_oauth_access_token_subject, validate_oauth_refresh_token_subject.
    cbn [access_of refresh_of at_subject_kind at_subject_id at_user_id at_shared_key_hash rt_subject_kind rt_subject_id rt_user_id rt_shared_key_hash].
    unfold validate_oauth_authorization_code_subject in Hv. rewrite Hv. cbn [result_bind]. unfold validate_oauth_subjects_match.
    by rewrite !beq_refl. }
  assert (Hw' : auth_wf db').
  { pose proof (call_moves (ExchangeCode (ac_code_hash code) now (access_of config (oc_client_id client) code resource now g)
      (refresh_of config (oc_client_id client) code resource now g)) db Hw) as [Hm _]. by rewrite Hex in Hm. }
  exists db'. split; [ | by split_and!]. unfold handle_authorization_code_grant. rewrite Hc1, nonempty_ne, Hu1, nonempty_ne by done.
  rewrite <- Hc3. assert (Hrev : ac_revoked_at code = None).
  { unfold redeemable in R4. split_andb. by destruct (ac_revoked_at code). }
  rewrite (run_do _ _ _ _ _ (call_code db code Hw R3 Hrev)). unfold validate_project_share_grant_subject. rewrite S1.
  assert (Hk : (lit "managed_user" ==? Authority.PROJECT_SHARE_OAUTH_SUBJECT_KIND) = false) by (by vm_compute).
  rewrite Hk. cbn [negb is_ok andb]. rewrite Hcl, !beq_refl. cbn [negb]. unfold pkce_error.
  rewrite Hp3, Hp1, nonempty_ne, Hp4, beq_refl by done. cbn [negb].
  unfold verify_pkce_s256. rewrite constant_time_refl. rewrite Hres. cbv zeta.
  rewrite <- S1. fold (access_of config (oc_client_id client) code resource now g). fold (refresh_of config (oc_client_id client) code resource now g).
  assert (Hcons : call (GetCodeForConsume (ac_code_hash code)) db' = (db', Ok (Some (code <| ac_used_at := Some now |>))))
    by (by apply (call_consumed db' _ Hw' Hin')).
  erewrite run_bind; [ | unfold exchange_oauth_authorization_code_for_tokens, try_ask, ask; rewrite (run_do _ _ _ _ _ Hex);
    rewrite (run_do _ _ _ _ _ Hcons); reflexivity]. done.
Qed.

Lemma run_pat_none (config : Config) (token : str) (now : Z) (db : AuthDb) :
  is_auth_enabled config = true -> validate_token config token = false -> has_key kr_hash (api_keys db) (hash_token token) = false ->
  has_key cw_hash (account_credentials db) (hash_token token) = false -> run_prog (pat_verify config true token now) db = (db, Ok None).
Proof.
  intros Ha Hv Hk Hc. unfold pat_verify. rewrite Ha, Hv. cbn [negb]. rewrite (run_do _ _ _ _ _ (call_no_key db _ Hk)). cbn [found].
  by rewrite (run_do _ _ _ _ _ (call_no_credential db _ Hc)).
Qed.

Lemma run_oauth2_user (config : Config) (token : str) (now : Z) (db : AuthDb) (t : OAuthAccessTokenRecord) (client : OAuthClientRecord)
  (user : UserRecord) :
  auth_wf db -> cf_enabled config = true -> starts_with OAUTH2_ACCESS_TOKEN_PREFIX token = true ->
  t ∈ oauth_access db -> at_token_hash t = hash_token token -> at_revoked_at t = None -> (now < at_expires_at t)%Z ->
  client ∈ oauth_clients db -> oc_client_id client = at_client_id t -> oc_revoked_at client = None ->
  at_subject_kind t = lit "managed_user" -> at_subject_id t = us_id user -> at_user_id t = Some (us_id user) -> us_id user <> [] ->
  user ∈ users db -> user_is_disabled user = false ->
  exists db' ctx, run_prog (oauth2_verify config true token now) db = (db', Ok (Some ctx))
    /\ cx_kind ctx = KOAuth2Token /\ cx_user_id ctx = Some (us_id user) /\ cx_scopes ctx = split_whitespace (at_scopes t)
    /\ cx_allowed_client_id ctx = Some (at_client_id t).
Proof.
  intros Hw Hen Hpre Hin Hh Hr Hex Hcin Hcid Hcr Sk Ss Su Hne Huin Hdis. unfold oauth2_verify. rewrite Hpre, Hen. cbn [negb].
  rewrite <- Hh, (run_do _ _ _ _ _ (call_access db t Hw Hin Hr)). unfold at_is_expired. apply Z.leb_gt in Hex. rewrite Hex.
  rewrite <- Hcid, (run_do _ _ _ _ _ (call_client db client Hw Hcin Hcr)). unfold oauth2_context. rewrite Sk, beq_refl, Su, nonempty_ne by done.
  rewrite Ss, beq_refl. cbn [negb]. rewrite (run_do _ _ _ _ _ (call_user db user Hw Huin)). cbn [found]. rewrite Hdis.
  destruct (call (TouchAccess (at_id t) now) db) as [db' r] eqn:Et. exists db'. eexists. split; [by rewrite (run_do _ _ _ _ _ Et) | ]. by rewrite Hcid.
Qed.

(** ** Uses of tokens

    A bearer request looks rows up and notes when they were last used. *)

Definition is_use (B : Type) (op : AuthOp B) : bool :=
  match op with
  | GetApiKeyByHash _ | GetUserById _ | TouchApiKey _ _ | GetCredentialByHash _ | TouchCredential _ _
  | GetAccess _ | GetClient _ | TouchAccess _ _ => true
  | _ => false
  end.

Definition access_state (t : OAuthAccessTokenRecord) : str * option Z := (at_token_hash t, at_revoked_at t).

(** What acceptance of a token depends on is as it was. *)
Record same_grants (db db' : AuthDb) : Prop := {
  sg_users : users db' = users db;
  sg_clients : oauth_clients db' = oauth_clients db;
  sg_keys : map kr_hash (api_keys db') = map kr_hash (api_keys db);
  sg_credentials : map cw_hash (account_credentials db') = map cw_hash (account_credentials db);
  sg_access : map access_state (oauth_access db') = map access_state (oauth_access db)
}.

#[local] Instance same_grants_preorder : PreOrder same_grants.
Proof.
  split; [by constructor | ]. intros a b c [] []. constructor; congruence.
Qed.

Lemma use_same_grants {A : Type} (op : AuthOp A) (db : AuthDb) : is_use A op = true -> same_grants db (fst (call op db)).
Proof.
  intros Hu. unfold call. apply run_tx_wp; [reflexivity | ].
  destruct op; try done; cbn [perform]; autounfold with auth_ops; auth_steps; try reflexivity;
    constructor; cbn; try reflexivity; by apply rows_update_key.
Qed.

Lemma bearer_is_use (config : Config) (av : bool) (token : str) (pat_now now : Z) :
  all_calls (fun B op => is_use B op = true) (bearer_request config av token pat_now now).
Proof. unfold bearer_request, authenticate, pat_verify, oauth2_verify, oauth2_context. each_call; done. Qed.

(** Bearer requests, each with its configuration, token and clocks. *)
Definition bearer_uses (uses : list (Config * bool * str * Z * Z)) : list (prog Response) :=
  map (fun '(config, av, token, pat_now, now) => bearer_request config av token pat_now now) uses.

Lemma uses_keep_grants (uses : list (Config * bool * str * Z * Z)) (sched : list nat) (db : AuthDb) :
  auth_wf db -> same_grants db (w_db (y_world (run_schedule (start db (bearer_uses uses)) sched))).
Proof.
  intros Hw. apply (schedule_invariant (fun w => same_grants db (w_db w))); [reflexivity | ]. intros i p Hi.
  apply obeys_calls; [done | ]. cbn in Hi. unfold bearer_uses in Hi.
  apply list_lookup_fmap_Some in Hi as ([[[[c av] t] pn] n] & -> & _).
  eapply all_calls_mono, bearer_is_use. intros B op Hu w _ HI. rewrite w_call_eq. cbn.
  etransitivity; [exact HI | by apply use_same_grants].
Qed.

Lemma has_key_map {A : Type} (key : A -> str) (l l' : list A) (v : str) :
  map key l' = map key l -> has_key key l' v = has_key key l v.
Proof.
  intros Hm. assert (Hx : forall l, has_key key l v = existsb (fun k => k ==? v) (map key l)).
  { clear. intros l. unfold has_key. induction l as [|x l IH]; [done | ]. cbn. by rewrite IH. }
  by rewrite !Hx, Hm.
Qed.

(** A bearer request with the token is accepted as the code's user, with the code's scopes
    and for its client. *)
Definition accepted_as (config : Config) (token : str) (pat_now now : Z) (client : OAuthClientRecord)
  (code : OAuthAuthorizationCodeRecord) (user : UserRecord) (db : AuthDb) : Prop :=
  exists db' ctx, run_prog (bearer_request config true token pat_now now) db = (db', Credential (Ok (Some ctx)))
    /\ cx_kind ctx = KOAuth2Token /\ cx_user_id ctx = Some (us_id user)
    /\ cx_scopes ctx = split_whitespace (ac_scopes code) /\ cx_allowed_client_id ctx = Some (oc_client_id client).

(** The access token of a grant, in any later database that still has it unrevoked. *)
Lemma granted_token_accepted (config config' : Config) (client client' : OAuthClientRecord) (code : OAuthAuthorizationCodeRecord)
  (user : UserRecord) (resource : option str) (now pat_now now' : Z) (g : TokenGen) (db db' db2 : AuthDb) :
  let access := generate_oauth_access_token (tg_access_random g) in
  granted_db config client code resource now g db db' -> moves db' db2 ->
  ac_subject_kind code = lit "managed_user" -> ac_subject_id code = us_id user -> ac_user_id code = Some (us_id user) ->
  us_id user <> [] ->
  cf_enabled config' = true -> is_auth_enabled config' = true -> validate_token config' access = false ->
  has_key kr_hash (api_keys db2) (hash_token access) = false ->
  has_key cw_hash (account_credentials db2) (hash_token access) = false ->
  (forall t, t ∈ oauth_access db2 -> at_token_hash t = hash_token access -> at_revoked_at t = None) ->
  client' ∈ oauth_clients db2 -> oc_client_id client' = oc_client_id client -> oc_revoked_at client' = None ->
  user ∈ users db2 -> user_is_disabled user = false ->
  (now' < as_i64 (now + cf_access_token_ttl_secs config))%Z ->
  accepted_as config' access pat_now now' client code user db2.
Proof.
  intros access (Hw' & Ha & _) [Hw2 Hev] S1 S2 S3 S4 Hen Hau Hvt Hk Hcr Hlive Hc1 Hc2 Hc3 Hu1 Hu2 Hnow.
  destruct (grows_elem _ _ _ _ (ev_access _ _ Hev) Ha) as (t & Hin & Hgr & _). unfold access_grant in Hgr. cbn in Hgr.
  injection Hgr as G1 G2 G3 G4 G5 G6 G7 G8 G9 G10 G11.
  destruct (run_oauth2_user config' access now' db2 t client' user) as (db3 & ctx & Hr2 & K1 & K2 & K3 & K4); try done; try congruence.
  - by apply Hlive.
  - assert (Hpat : run_prog (pat_verify config' true access pat_now) db2 = (db2, Ok None)) by (by apply run_pat_none).
    assert (Hauth : run_prog (authenticate config' true access pat_now now') db2 = (db3, Ok (Some ctx)))
      by (unfold authenticate; rewrite (run_bind _ _ _ _ _ Hpat); by rewrite (run_bind _ _ _ _ _ Hr2)).
    exists db3, ctx. split; [unfold bearer_request; by rewrite (run_bind _ _ _ _ _ Hauth) | ].
    split_and!; [done | done | congruence | congruence].
Qed.

(** The same after nothing but uses of tokens. *)
Lemma used_token_accepted (config config' : Config) (client : OAuthClientRecord) (code : OAuthAuthorizationCodeRecord)
  (user : UserRecord) (resource : option str) (now pat_now now' : Z) (g : TokenGen) (db db' : AuthDb)
  (uses : list (Config * bool * str * Z * Z)) (sched : list nat) :
  let access := generate_oauth_access_token (tg_access_random g) in
  granted_db config client code resource now g db db' ->
  ac_subject_kind code = lit "managed_user" -> ac_subject_id code = us_id user -> ac_user_id code = Some (us_id user) ->
  us_id user <> [] -> user ∈ users db -> user_is_disabled user = false ->
  client ∈ oauth_clients db -> oc_revoked_at client = None ->
  cf_enabled config' = true -> is_auth_enabled config' = true -> validate_token config' access = false ->
  has_key kr_hash (api_keys db) (hash_token access) = false ->
  has_key cw_hash (account_credentials db) (hash_token access) = false ->
  (now' < as_i64 (now + cf_access_token_ttl_secs config))%Z ->
  accepted_as config' access pat_now now' client code user
    (w_db (y_world (run_schedule (start db' (bearer_uses uses)) sched))).
Proof.
  intros access Hg S1 S2 S3 S4 Hu1 Hu2 Hc1 Hc3 Hen Hau Hvt Hk Hcr Hnow. pose proof Hg as (Hw' & Ha & E1 & E2 & E3 & E4).
  destruct (uses_keep_grants uses sched db' Hw') as [U1 U2 U3 U4 U5].
  eapply (granted_token_accepted config config' client client code user resource now pat_now now' g db db' _ Hg); try done.
  - by apply (schedule_moves (start db' (bearer_uses uses)) sched).
  - by rewrite (has_key_map _ _ _ _ U3), E3.
  - by rewrite (has_key_map _ _ _ _ U4), E4.
  - intros t Ht Hh.
    assert (Hm : access_state t ∈ map access_state (oauth_access db')) by (rewrite <- U5; by apply list_elem_of_fmap_2).
    apply list_elem_of_fmap in Hm as (t' & Hs & Hin). injection Hs as Hs1 Hs2. rewrite Hs2.
    rewrite (keyed_unique at_token_hash (oauth_access db') t' _ (wf_access_hash _ Hw') Hin Ha); [done | ].
    rewrite <- Hs1. by rewrite Hh.
  - by rewrite U2, E2.
  - by rewrite U1, E1.
Qed.

(** C22: the flow completes.  A token request that runs undisturbed with a good code of an
    enabled user (unused, unexpired, with its proof key, redirect URI, an admissible
    resource if one is named, the client's secret, and freshly generated token ids) is
    answered with exactly the generated access and refresh token, the configured lifetime
    and the code's scopes.  The access token then keeps working until it expires: a bearer
    request with it (its calls running undisturbed) is accepted as that user, with exactly
    those scopes and that client, after any number of bearer requests, with this token
    among them, in any interleaving; and after any further requests whatever, as long as
    they left the token and the client unrevoked and the user enabled.  (Nor may the
    token's hash be that of an API key or an account credential.) *)
Theorem granted_code_works (config : Config) (req : HttpRequest) (body : list N) (form : TokenRequest)
  (client : OAuthClientRecord) (code : OAuthAuthorizationCodeRecord) (user : UserRecord) (text verifier : str)
  (resource : option str) (now : Z) (g : TokenGen) (db : AuthDb) :
  let access := generate_oauth_access_token (tg_access_random g) in
  auth_wf db -> form_body (Some config) req = Ok (config, body) -> token_form body = Ok form ->
  good_request config form client code user text verifier resource now g db ->
  exists db',
    run_prog (oauth_token (Some config) true req now g) db
      = (db', TokenBody access (cf_access_token_ttl_secs config) (generate_oauth_refresh_token (tg_refresh_random g))
                (if is_empty (ac_scopes code) then None else Some (ac_scopes code)))
    /\ (forall (uses : list (Config * bool * str * Z * Z)) (sched : list nat) (config' : Config) (pat_now now' : Z),
          cf_enabled config' = true -> is_auth_enabled config' = true -> validate_token config' access = false ->
          has_key kr_hash (api_keys db) (hash_token access) = false ->
          has_key cw_hash (account_credentials db) (hash_token access) = false ->
          (now' < as_i64 (now + cf_access_token_ttl_secs config))%Z ->
          accepted_as config' access pat_now now' client code user
            (w_db (y_world (run_schedule (start db' (bearer_uses uses)) sched))))
    /\ forall (requests : list (prog Response)) (sched : list nat) (config' : Config) (client' : OAuthClientRecord)
         (user' : UserRecord) (pat_now now' : Z),
       let db2 := w_db (y_world (run_schedule (start db' requests) sched)) in
       cf_enabled config' = true -> is_auth_enabled config' = true -> validate_token config' access = false ->
       has_key kr_hash (api_keys db2) (hash_token access) = false ->
       has_key cw_hash (account_credentials db2) (hash_token access) = false ->
       (forall t, t ∈ oauth_access db2 -> at_token_hash t = hash_token access -> at_revoked_at t = None) ->
       client' ∈ oauth_clients db2 -> oc_client_id client' = oc_client_id client -> oc_revoked_at client' = None ->
       user' ∈ users db2 -> us_id user' = us_id user -> user_is_disabled user' = false ->
       (now' < as_i64 (now + cf_access_token_ttl_secs config))%Z ->
       accepted_as config' access pat_now now' client code user db2.
Proof.
  intros access Hw Hb Hform Hgood.
  destruct (code_grant_runs config form client code user text verifier resource now g db Hw Hgood) as (db' & Hrun & Hg).
  exists db'. destruct Hgood as [G1 _ _ (G3 & G3' & _) (secret & G4 & G4' & G4'') _ _ (R1 & R2 & _ & _ & R5) (S1 & S2 & S3 & S4 & S5) _].
  assert (Hne : us_id user <> []) by (intros Hnil; by rewrite Hnil in S4). split_and!.
  - unfold oauth_token. rewrite Hb, Hform, G1. rewrite G3, nonempty_ne, G4, nonempty_ne by done. cbn [negb].
    assert (Hone : one_of AUTHORIZATION_CODE [AUTHORIZATION_CODE; REFRESH_TOKEN] = true) by (by vm_compute).
    assert (Hnr : (AUTHORIZATION_CODE ==? REFRESH_TOKEN) = false) by (by vm_compute). rewrite Hone, Hnr. cbn [negb andb].
    rewrite (run_bind _ _ _ _ _ (run_secret db client secret Hw R1 R2 G4'')). rewrite (run_do _ _ _ _ _ (call_client db client Hw R1 R2)).
    by rewrite beq_refl, Hrun.
  - intros uses sched config' pat_now now' Hen Hau Hvt Hk Hcr Hnow. by eapply (used_token_accepted config config' client code user).
  - intros requests sched config' client' user' pat_now now' db2 Hen Hau Hvt Hk Hcr Hlive Hc1 Hc2 Hc3 Hu1 Huid Hu2 Hnow.
    unfold accepted_as. rewrite <- Huid in *.
    eapply (granted_token_accepted config config' client client'); try done.
    apply (schedule_moves (start db' requests) sched). apply Hg.
Qed.
End Flow.
