(* ===== verification/OAuthPurge.v ===== *)
(** * OAuthPurge: deleting stale rows changes no decision

    [purge_stale_auth_rows] deletes what has expired or been used or revoked.  From the
    time it ran on, the same bearer tokens are accepted, with the same contexts, and the
    same codes and refresh tokens can be taken. *)
From S2P Require Import Prelude RustStr Policy Sql AuthModel AuthStore OAuthScopes OAuthHttp AuthFacts OAuthFacts OAuthLaws OAuthFlow.

(** ** Rows that are left *)

Lemma rows_delete_elem {A : Type} (stale : A -> bool) (t : list A) (row : A) :
  row ∈ rows_delete stale t <-> row ∈ t /\ stale row = false.
Proof. unfold rows_delete. by rewrite list_elem_of_In, filter_In, negb_true_iff, <- list_elem_of_In. Qed.

(** Of the rows selected, all are left or the first was stale. *)
Lemma find_delete {A : Type} (stale sel : A -> bool) (t : list A) :
  (forall row, sel row = true -> stale row = false) -> find sel (rows_delete stale t) = find sel t.
Proof.
  intros Hs. unfold rows_delete. induction t as [|x t IH]; [done | ]. cbn. destruct (sel x) eqn:Ex.
  - rewrite (Hs x Ex). cbn. by rewrite Ex.
  - destruct (stale x); cbn; [done | ]. by rewrite Ex.
Qed.

Lemma find_delete_keyed {A K : Type} `{EqDecision K} (key : A -> K) (stale sel : A -> bool) (t : list A) :
  keyed key t -> (forall x y, sel x = true -> sel y = true -> key x = key y) ->
  find sel (rows_delete stale t) = opt_filter (fun row => negb (stale row)) (find sel t).
Proof.
  intros Hk Hu. destruct (find sel t) as [x|] eqn:E; cbn.
  - apply find_elem in E as [Hin Hx]. destruct (stale x) eqn:Es; cbn.
    + destruct (find sel (rows_delete stale t)) as [y|] eqn:Ey; [ | done]. apply find_elem in Ey as [Hy%rows_delete_elem Hsy].
      replace y with x in Hy; [destruct Hy; congruence | ]. apply (keyed_unique key t); [done | done | by destruct Hy | by apply Hu].
    + destruct (find sel (rows_delete stale t)) as [y|] eqn:Ey.
      * apply find_elem in Ey as [Hy%rows_delete_elem Hsy]. f_equal. symmetry. apply (keyed_unique key t); [done | done | by destruct Hy | by apply Hu].
      * apply (find_elem_none _ _ x) in Ey; [congruence | ]. by apply rows_delete_elem.
  - destruct (find sel (rows_delete stale t)) as [y|] eqn:Ey; [ | done]. apply find_elem in Ey as [Hy%rows_delete_elem Hsy].
    apply (find_elem_none _ _ y) in E; [congruence | by destruct Hy].
Qed.

(** The tables after a purge. *)
Definition purged (now : Z) (db : AuthDb) : AuthDb := fst (run_tx (purge_stale_auth_rows now) db).

Lemma purged_eq (now : Z) (db : AuthDb) :
  purged now db = mkAuthDb (users db) (rows_delete (stale_key now) (api_keys db))
    (rows_delete stale_credential (account_credentials db)) (rows_delete (stale_pairing now) (pairing_codes db)) (oauth_clients db)
    (rows_delete (stale_code now) (oauth_codes db)) (rows_delete (stale_access now) (oauth_access db))
    (rows_delete (stale_refresh now) (oauth_refresh db)) (authorize_sessions db).
Proof. done. Qed.

(** ** Lookups *)

Section Lookups.
Implicit Types (db : AuthDb) (h : str).

Definition key_found h db : option ApiKeyRecord :=
  kr_key <$> find (fun k => (kr_hash k ==? h) && is_none (ak_revoked_at (kr_key k))) (api_keys db).
Definition credential_found h db : option AccountCredentialRecord :=
  cw_credential <$> find (fun c => (cw_hash c ==? h) && is_none (cr_revoked_at (cw_credential c))) (account_credentials db).
Definition access_found h db : option OAuthAccessTokenRecord :=
  find (fun t => (at_token_hash t ==? h) && is_none (at_revoked_at t)) (oauth_access db).
Definition client_found (client_id : str) db : option OAuthClientRecord :=
  find (fun c => (oc_client_id c ==? client_id) && is_none (oc_revoked_at c)) (oauth_clients db).
Definition user_found (id : str) db : option UserRecord := find (fun u => us_id u ==? id) (users db).

Lemma call_key_found h db : call (GetApiKeyByHash h) db = (db, Ok (key_found h db)).
Proof. done. Qed.
Lemma call_credential_found h db : call (GetCredentialByHash h) db = (db, Ok (credential_found h db)).
Proof. done. Qed.
Lemma call_access_found h db : call (GetAccess h) db = (db, Ok (access_found h db)).
Proof. done. Qed.
Lemma call_client_found (client_id : str) db : call (GetClient client_id) db = (db, Ok (client_found client_id db)).
Proof. done. Qed.
Lemma call_user_found (id : str) db : call (GetUserById id) db = (db, Ok (user_found id db)).
Proof. done. Qed.

(** What a purge does to them. *)
Lemma key_found_purged (now : Z) h db :
  auth_wf db -> key_found h (purged now db) = opt_filter (fun k => negb (ak_is_expired k now)) (key_found h db).
Proof.
  intros Hw. rewrite purged_eq. unfold key_found. cbn [api_keys].
  rewrite (find_delete_keyed kr_hash); [ | apply Hw | intros x y Hx Hy; split_andb; congruence].
  destruct (find _ (api_keys db)) as [k|] eqn:E; [ | done]. cbn. apply find_elem in E as [_ Hk]. split_andb.
  unfold stale_key, ak_is_expired. destruct (ak_revoked_at (kr_key k)); [done | ]. cbn.
  by destruct (is_some_and _ (ak_expires_at (kr_key k))).
Qed.
Lemma credential_found_purged (now : Z) h db : credential_found h (purged now db) = credential_found h db.
Proof.
  rewrite purged_eq. unfold credential_found. cbn [account_credentials]. f_equal. apply find_delete. intros c Hc. split_andb.
  unfold stale_credential. by destruct (cr_revoked_at (cw_credential c)).
Qed.
Lemma access_found_purged (now : Z) h db :
  auth_wf db -> access_found h (purged now db) = opt_filter (fun t => negb (at_is_expired t now)) (access_found h db).
Proof.
  intros Hw. rewrite purged_eq. unfold access_found. cbn [oauth_access].
  rewrite (find_delete_keyed at_token_hash); [ | apply Hw | intros x y Hx Hy; split_andb; congruence].
  destruct (find _ (oauth_access db)) as [t|] eqn:E; [ | done]. cbn. apply find_elem in E as [_ Ht]. split_andb.
  unfold stale_access, at_is_expired. destruct (at_revoked_at t); [done | ]. cbn. by rewrite orb_false_r.
Qed.
Lemma client_found_purged (now : Z) (client_id : str) db : client_found client_id (purged now db) = client_found client_id db.
Proof. done. Qed.
Lemma user_found_purged (now : Z) (id : str) db : user_found id (purged now db) = user_found id db.
Proof. done. Qed.
End Lookups.

Section Purge.
Context `{AuthEnv}.

Definition context_of {E : Type} (v : result (option AuthContext) E) : option AuthContext :=
  match v with Ok (Some ctx) => Some ctx | _ => None end.

(** The context a request is accepted with. *)
Definition accepted (r : Response) : option AuthContext := match r with Credential v => context_of v | _ => None end.

(** What a program run alone answers. *)
Definition outcome {A : Type} (p : prog A) (db : AuthDb) : A := snd (run_prog p db).

Lemma outcome_do {A B : Type} (op : AuthOp B) (k : result B StoreError -> prog A) (db db' : AuthDb) (r : result B StoreError) :
  call op db = (db', r) -> outcome (Do op k) db = outcome (k r) db'.
Proof. intros Hc. unfold outcome. by rewrite (run_do _ _ _ _ _ Hc). Qed.

Lemma oauth2_outcome_purged (config : Config) (db_available : bool) (token : str) (now now' : Z) (db : AuthDb) :
  auth_wf db -> (now <= now')%Z ->
  context_of (outcome (oauth2_verify config db_available token now') (purged now db))
  = context_of (outcome (oauth2_verify config db_available token now') db).
Proof.
  intros Hw Hle. unfold oauth2_verify. destruct (negb (starts_with _ _)); [done | ]. destruct (negb (cf_enabled _)); [done | ].
  destruct (negb db_available); [done | ]. rewrite !(outcome_do _ _ _ _ _ (call_access_found _ _)), access_found_purged by done.
  destruct (access_found (hash_token token) db) as [t|]; [ | done]. cbn [opt_filter].
  destruct (at_is_expired t now') eqn:Ex'.
  - destruct (at_is_expired t now); [done | ]. cbn [negb]. by rewrite Ex'.
  - destruct (at_is_expired t now) eqn:Ex; [unfold at_is_expired in *; apply Z.leb_le in Ex; apply Z.leb_gt in Ex'; lia | ]. cbn [negb].
    rewrite Ex'. rewrite !(outcome_do _ _ _ _ _ (call_client_found _ _)), client_found_purged.
    destruct (client_found (at_client_id t) db) as [client|]; [ | done]. unfold oauth2_context. cbv zeta.
    destruct (at_subject_kind t ==? lit "managed_user").
    + destruct (nonempty (at_user_id t)) as [uid|]; [ | done]. destruct (at_subject_id t !=? uid); [done | ].
      rewrite !(outcome_do _ _ _ _ _ (call_user_found _ _)), user_found_purged. cbn [found]. destruct (user_found uid db) as [u|]; [ | done].
      by destruct (user_is_disabled u).
    + destruct (at_subject_kind t ==? lit "shared_key").
      * destruct (is_some (at_user_id t)); [done | ]. destruct (nonempty (at_shared_key_hash t)) as [sk|]; [ | done]. by destruct (at_subject_id t !=? sk).
      * destruct (at_subject_kind t ==? _); [ | done]. destruct (_ || _); [done | ].
        destruct (validate_project_share_grant_subject _ _ _); [ | done]. destruct (negb (project_share_scopes_are_bounded _)); [done | ].
        destruct (Authority.parse_project_share_subject_id _) as [[gid sid]|]; [ | done]. by destruct (_ || _).
Qed.

(** A hash of the expired key of a user is not also that of another credential. *)
Definition one_credential (h : str) (db : AuthDb) : Prop :=
  is_some (key_found h db) = true -> credential_found h db = None /\ access_found h db = None.

Lemma outcome_bind {A B : Type} (p : prog B) (f : B -> prog A) (db : AuthDb) :
  outcome (p ≫= f) db = outcome (f (outcome p db)) (fst (run_prog p db)).
Proof. unfold outcome. destruct (run_prog p db) as [db' b] eqn:E. by rewrite (run_bind _ _ _ _ _ E). Qed.

(** The first verifier on both tables: it answers the same, or it found a key that has
    expired and is now gone. *)
Lemma pat_outcome_purged (config : Config) (db_available : bool) (token : str) (now now' : Z) (db : AuthDb) :
  auth_wf db -> (now <= now')%Z -> one_credential (hash_token token) db ->
  let p := pat_verify config db_available token now' in
  (outcome p (purged now db) = outcome p db
   /\ (outcome p db = Ok None -> fst (run_prog p (purged now db)) = purged now db /\ fst (run_prog p db) = db))
  \/ (is_some (key_found (hash_token token) db) = true /\ (exists e, outcome p db = Err e)
      /\ run_prog p (purged now db) = (purged now db, Ok None)).
Proof.
  intros Hw Hle Hone p. subst p. unfold pat_verify. destruct (negb (is_auth_enabled config)); [by left | ].
  destruct (validate_token config token); [by left | ]. destruct (negb db_available); [by left | ].
  rewrite !(run_do _ _ _ _ _ (call_key_found _ _)), !(outcome_do _ _ _ _ _ (call_key_found _ _)), key_found_purged by done. cbn [found].
  unfold one_credential in Hone. destruct (key_found (hash_token token) db) as [k|]; cbn [opt_filter].
  - destruct (Hone eq_refl) as [Hc _]. destruct (ak_is_expired k now) eqn:Ex; cbn [negb found].
    + right. split; [done | ]. assert (Ex' : ak_is_expired k now' = true).
      { unfold ak_is_expired in *. destruct (ak_expires_at k); [ | done]. cbn in *. apply Z.leb_le in Ex. apply Z.leb_le. lia. }
      rewrite !(outcome_do _ _ _ _ _ (call_user_found _ _)), !(run_do _ _ _ _ _ (call_credential_found _ _)).
      rewrite credential_found_purged, Hc. cbn [found]. split; [ | done].
      destruct (user_found (ak_user_id k) db) as [u|]; cbn [found]; [ | by eexists]. rewrite Ex'. destruct (user_is_disabled u); by eexists.
    + left. rewrite !(run_do _ _ _ _ _ (call_user_found _ _)), !(outcome_do _ _ _ _ _ (call_user_found _ _)), user_found_purged. cbn [found].
      destruct (user_found (ak_user_id k) db) as [u|]; [ | done]. destruct (user_is_disabled u); [done | ]. by destruct (ak_is_expired k now').
  - left. rewrite !(run_do _ _ _ _ _ (call_credential_found _ _)), !(outcome_do _ _ _ _ _ (call_credential_found _ _)).
    rewrite credential_found_purged. cbn [found]. destruct (credential_found (hash_token token) db) as [c|]; [ | done].
    rewrite !(run_do _ _ _ _ _ (call_user_found _ _)), !(outcome_do _ _ _ _ _ (call_user_found _ _)), user_found_purged. cbn [found].
    destruct (user_found (cr_user_id c) db) as [u|]; [ | done]. by destruct (user_is_disabled u).
Qed.

Lemma unknown_access (config : Config) (db_available : bool) (token : str) (now : Z) (db : AuthDb) :
  access_found (hash_token token) db = None -> context_of (outcome (oauth2_verify config db_available token now) db) = None.
Proof.
  intros Ha. unfold oauth2_verify. destruct (negb (starts_with _ _)); [done | ]. destruct (negb (cf_enabled _)); [done | ].
  destruct (negb db_available); [done | ]. by rewrite (outcome_do _ _ _ _ _ (call_access_found _ _)), Ha.
Qed.

(** Deleting stale rows is invisible.  After a purge at [now], at every later time, a
    bearer token is accepted exactly when it would have been accepted without the purge,
    and with the same context; and the codes and refresh tokens that can still be taken
    are the same. *)
Lemma purge_harmless (config : Config) (db_available : bool) (token : str) (now pat_now oauth_now : Z) (db : AuthDb) :
  auth_wf db -> (now <= pat_now)%Z -> (now <= oauth_now)%Z -> one_credential (hash_token token) db ->
  accepted (outcome (bearer_request config db_available token pat_now oauth_now) (purged now db))
  = accepted (outcome (bearer_request config db_available token pat_now oauth_now) db)
  /\ (forall h c, redeemable h oauth_now c = true -> c ∈ oauth_codes (purged now db) <-> c ∈ oauth_codes db)
  /\ (forall t, rt_revoked_at t = None -> rt_is_expired t oauth_now = false ->
        t ∈ oauth_refresh (purged now db) <-> t ∈ oauth_refresh db).
Proof.
  intros Hw Hp Ho Hone. split_and!.
  - unfold bearer_request. rewrite !outcome_bind. cbn [outcome run_prog snd accepted]. unfold authenticate. rewrite !outcome_bind.
    destruct (pat_outcome_purged config db_available token now pat_now db Hw Hp Hone) as [[Heq Hsame] | (Hk & [e He] & Hrun)].
    + rewrite Heq. destruct (outcome (pat_verify config db_available token pat_now) db) as [[ctx|]|e] eqn:Eo; [done | | done].
      destruct (Hsame eq_refl) as [-> ->]. rewrite !outcome_bind.
      pose proof (oauth2_outcome_purged config db_available token now oauth_now db Hw Ho) as H2.
      cbn [outcome run_prog snd]. destruct (outcome (oauth2_verify _ _ _ _) (purged now db)) as [[c1|]|], (outcome (oauth2_verify _ _ _ _) db) as [[c2|]|]; cbn in *; congruence.
    + destruct (Hone Hk) as [_ Ha]. rewrite He. cbn [outcome run_prog snd context_of].
      replace (outcome (pat_verify config db_available token pat_now) (purged now db)) with (@Ok (option AuthContext) str None)
        by (unfold outcome; by rewrite Hrun). rewrite Hrun. cbn [fst]. rewrite outcome_bind. cbn [outcome run_prog snd].
      pose proof (unknown_access config db_available token oauth_now (purged now db)) as H2. rewrite access_found_purged, Ha in H2 by done.
      specialize (H2 eq_refl). by destruct (outcome (oauth2_verify _ _ _ _) (purged now db)) as [[c1|]|].
  - intros h c Hr. rewrite purged_eq. cbn [oauth_codes]. rewrite rows_delete_elem. split; [by intros [] | ]. intros Hin. split; [done | ].
    unfold redeemable in Hr. split_andb. unfold stale_code. destruct (ac_used_at c), (ac_revoked_at c); try done. cbn.
    rewrite !orb_false_r. match goal with Hlt : Z.ltb _ _ = true |- _ => apply Z.ltb_lt in Hlt end. apply Z.leb_gt. lia.
  - intros t Hr Hx. rewrite purged_eq. cbn [oauth_refresh]. rewrite rows_delete_elem. split; [by intros [] | ]. intros Hin. split; [done | ].
    unfold stale_refresh. rewrite Hr. cbn. rewrite orb_false_r. unfold rt_is_expired in Hx. apply Z.leb_gt in Hx. apply Z.leb_gt. lia.
Qed.
End Purge.
