(* ===== verification/OAuthCeiling.v ===== *)
(** * OAuthCeiling: how far a shared-key client's authority goes

    The scope ceilings of shared_key_bridge.rs: what provisioning gives a client, that
    doing it again changes nothing, and what of its ceiling a person's decision grants. *)
From S2P Require Import Prelude RustStr Policy Sql Capabilities AuthModel AuthStore OAuthScopes OAuthHttp AuthFacts OAuthFacts OAuthAuthorize OAuthBridge OAuthGrants.

(** ** Lists of scopes *)

Lemma unique_spec (scopes : list str) : bridge_scope_list_is_unique scopes = true <-> NoDup scopes.
Proof. apply bool_decide_eq_true. Qed.

Lemma filter_all {A : Type} (p : A -> bool) (l : list A) : (forall x, x ∈ l -> p x = true) -> List.filter p l = l.
Proof.
  induction l as [|x l IH]; [done | ]. intros Hp. cbn. rewrite (Hp x) by apply list_elem_of_here. f_equal. apply IH.
  intros y Hy. apply Hp. by apply elem_of_cons; right.
Qed.
Lemma filter_nothing {A : Type} (p : A -> bool) (l : list A) : (forall x, x ∈ l -> p x = false) -> List.filter p l = [].
Proof.
  induction l as [|x l IH]; [done | ]. intros Hp. cbn. rewrite (Hp x) by apply list_elem_of_here. apply IH.
  intros y Hy. apply Hp. by apply elem_of_cons; right.
Qed.
Lemma elem_filter {A : Type} (p : A -> bool) (l : list A) (x : A) : x ∈ List.filter p l <-> x ∈ l /\ p x = true.
Proof. by rewrite list_elem_of_In, filter_In, <- list_elem_of_In. Qed.

(** Two closed lists of scopes with nothing in common. *)
Definition disjoint_lists (l1 l2 : list str) : bool := forallb (fun s => negb (one_of s l2)) l1.
Lemma disjoint_lists_spec (l1 l2 : list str) (s : str) : disjoint_lists l1 l2 = true -> s ∈ l1 -> s ∉ l2.
Proof.
  unfold disjoint_lists. rewrite forallb_forall. intros Hf Hin Hin2. apply one_of_spec in Hin2.
  apply list_elem_of_In in Hin. specialize (Hf s Hin). by rewrite Hin2 in Hf.
Qed.

Lemma baseline_optional : disjoint_lists bridge_oauth_scopes SHARED_KEY_OAUTH_OPTIONAL_COMPUTER_SCOPES = true.
Proof. by vm_compute. Qed.
Lemma baseline_class : disjoint_lists bridge_oauth_scopes OPTIONAL_CLASS_SCOPES = true.
Proof. by vm_compute. Qed.
Lemma computer_class : disjoint_lists SHARED_KEY_OAUTH_OPTIONAL_COMPUTER_SCOPES OPTIONAL_CLASS_SCOPES = true.
Proof. by vm_compute. Qed.
Lemma optional_nodup : NoDup SHARED_KEY_OAUTH_OPTIONAL_COMPUTER_SCOPES.
Proof. apply (bool_decide_unpack _). by vm_compute. Qed.

Lemma option_scopes_class (o : BridgeOptions) (s : str) : s ∈ option_scopes o -> s ∈ OPTIONAL_CLASS_SCOPES.
Proof. unfold option_scopes, OPTIONAL_CLASS_SCOPES. destruct o as [c [] [] [] []]; cbn [bo_local_mcp bo_local_plugins bo_local_ssh bo_coding_agent]; set_solver. Qed.
Lemma option_scopes_nodup (o : BridgeOptions) : NoDup (option_scopes o).
Proof. destruct o as [c [] [] [] []]; apply (bool_decide_unpack _); by vm_compute. Qed.

(** ** Ceilings *)

Lemma baseline_spec (scopes : list str) :
  bridge_baseline_scope_ceiling_is_valid scopes = true <->
  scopes <> [] /\ NoDup scopes /\ forall s, s ∈ scopes -> s ∈ bridge_oauth_scopes.
Proof.
  unfold bridge_baseline_scope_ceiling_is_valid. rewrite !andb_true_iff, unique_spec, forallb_forall. split.
  - intros [[He Hn] Hf]. split_and!; [by destruct scopes | done | ]. intros s Hs. apply one_of_spec, Hf. by apply list_elem_of_In.
  - intros (He & Hn & Hf). split_and!; [by destruct scopes | done | ]. intros s Hs. apply one_of_spec, Hf. by apply list_elem_of_In.
Qed.

Lemma computer_spec (scopes : list str) :
  bridge_computer_scope_ceiling_is_valid scopes = true <->
  NoDup scopes /\ (forall s, s ∈ scopes -> s ∈ bridge_oauth_scopes \/ s ∈ SHARED_KEY_OAUTH_OPTIONAL_COMPUTER_SCOPES)
  /\ (exists s, s ∈ scopes /\ s ∈ bridge_oauth_scopes) /\ forall s, s ∈ SHARED_KEY_OAUTH_OPTIONAL_COMPUTER_SCOPES -> s ∈ scopes.
Proof.
  unfold bridge_computer_scope_ceiling_is_valid. rewrite <- unique_spec.
  set (p := fun scope => negb (one_of scope bridge_oauth_scopes) && negb (one_of scope SHARED_KEY_OAUTH_OPTIONAL_COMPUTER_SCOPES)).
  assert (Hp : existsb p scopes = false <-> forall s, s ∈ scopes -> s ∈ bridge_oauth_scopes \/ s ∈ SHARED_KEY_OAUTH_OPTIONAL_COMPUTER_SCOPES).
  { rewrite <- not_true_iff_false, existsb_exists. unfold p. split.
    - intros Hn s Hs. rewrite <- !one_of_spec. destruct (one_of s bridge_oauth_scopes) eqn:E1; [by left | right].
      apply not_false_iff_true. intros E2. apply Hn. exists s. rewrite E1, E2. split; [by apply list_elem_of_In | done].
    - intros Hall (s & Hs%list_elem_of_In & Hb). apply andb_true_iff in Hb as [B1%negb_true_iff B2%negb_true_iff].
      destruct (Hall s Hs) as [H1%one_of_spec | H1%one_of_spec]; congruence. }
  destruct (is_empty scopes) eqn:Ee; cbn [orb].
  { destruct scopes; [ | done]. split; [done | ]. intros (_ & _ & (s & Hs%not_elem_of_nil & _) & _). done. }
  destruct (bridge_scope_list_is_unique scopes); cbn [negb]; [ | naive_solver].
  destruct (existsb p scopes) eqn:E; [split; [done | ]; intros (_ & Hall & _); apply Hp in Hall; congruence | ].
  rewrite andb_true_iff, existsb_exists, forallb_forall. split.
  - intros [(s & Hs%list_elem_of_In & Hb%one_of_spec) Hf]. split_and!; [done | by apply Hp | by exists s | ].
    intros r Hr%list_elem_of_In. by apply one_of_spec, Hf.
  - intros (_ & _ & (s & Hs & Hb) & Hf). split.
    + exists s. split; [by apply list_elem_of_In | by apply one_of_spec].
    + intros r Hr. apply one_of_spec, Hf. by apply list_elem_of_In.
Qed.

(** A list with the scopes of the optional classes appended, and taken off again. *)
Lemma without_options (base : list str) (o : BridgeOptions) :
  NoDup base -> (forall s, s ∈ base -> s ∉ OPTIONAL_CLASS_SCOPES) ->
  bridge_scope_ceiling_without_optional_class_scopes (base ++ option_scopes o) = Some base.
Proof.
  intros Hn Hd. unfold bridge_scope_ceiling_without_optional_class_scopes.
  assert (Hu : bridge_scope_list_is_unique (base ++ option_scopes o) = true).
  { apply unique_spec, NoDup_app. split_and!; [done | | apply option_scopes_nodup]. intros s Hs Ho%option_scopes_class. by apply (Hd s). }
  rewrite Hu. cbn [negb]. f_equal. rewrite List.filter_app, filter_all, filter_nothing; [by rewrite app_nil_r | | ].
  - intros s Hs%option_scopes_class. apply one_of_spec in Hs. by rewrite Hs.
  - intros s Hs. apply negb_true_iff, not_true_iff_false. rewrite one_of_spec. by apply Hd.
Qed.

Lemma without_spec (scopes base : list str) :
  bridge_scope_ceiling_without_optional_class_scopes scopes = Some base ->
  NoDup base /\ forall s, s ∈ base <-> s ∈ scopes /\ s ∉ OPTIONAL_CLASS_SCOPES.
Proof.
  unfold bridge_scope_ceiling_without_optional_class_scopes. destruct (bridge_scope_list_is_unique scopes) eqn:Eu; cbn [negb]; [ | done].
  intros [= <-]. apply unique_spec in Eu. split.
  - clear -Eu. induction Eu as [|x l Hx Hn IH]; cbn; [constructor | ]. destruct (negb _); [ | done]. constructor; [ | done].
    by intros [Hin _]%elem_filter.
  - intros s. rewrite elem_filter. cbv beta. rewrite <- (one_of_spec s OPTIONAL_CLASS_SCOPES).
    change (s ∈ scopes /\ negb (one_of s OPTIONAL_CLASS_SCOPES) = true <-> s ∈ scopes /\ one_of s OPTIONAL_CLASS_SCOPES <> true).
    by destruct (one_of s OPTIONAL_CLASS_SCOPES); cbn [negb]; intuition.
Qed.

(** The base of the ceiling with or without the Computer permissions. *)
Definition chosen_base (computer : bool) (base : list str) : option (list str) :=
  if computer then bridge_computer_enabled_scope_ceiling base
  else if bridge_baseline_scope_ceiling_is_valid base then Some base else None.

Lemma with_options_eq (scopes : list str) (o : BridgeOptions) :
  bridge_scope_ceiling_with_options scopes o
  = (bridge_scope_ceiling_without_optional_class_scopes scopes ≫= fun base =>
     chosen_base (bo_computer_permissions o) base ≫= fun d => Some (d ++ option_scopes o)).
Proof. done. Qed.

Lemma computer_no_class (d : list str) : bridge_computer_scope_ceiling_is_valid d = true -> forall s, s ∈ d -> s ∉ OPTIONAL_CLASS_SCOPES.
Proof.
  intros (_ & Hall & _)%computer_spec s Hs. destruct (Hall s Hs) as [Hb | Hb]; eapply disjoint_lists_spec; try done.
  - apply baseline_class.
  - apply computer_class.
Qed.
Lemma baseline_no_class (d : list str) : bridge_baseline_scope_ceiling_is_valid d = true -> forall s, s ∈ d -> s ∉ OPTIONAL_CLASS_SCOPES.
Proof. intros (_ & _ & Hall)%baseline_spec s Hs%Hall. by eapply disjoint_lists_spec; [apply baseline_class | ]. Qed.

(** It is a valid ceiling, it has all of the base, and choosing again changes nothing. *)
Lemma chosen_spec (computer : bool) (base d : list str) :
  chosen_base computer base = Some d ->
  NoDup d /\ (forall s, s ∈ d -> s ∉ OPTIONAL_CLASS_SCOPES)
  /\ (bridge_baseline_scope_ceiling_is_valid d = true \/ bridge_computer_scope_ceiling_is_valid d = true)
  /\ (forall s, s ∈ d <-> s ∈ base \/ (computer = true /\ s ∈ SHARED_KEY_OAUTH_OPTIONAL_COMPUTER_SCOPES))
  /\ chosen_base computer d = Some d.
Proof.
  unfold chosen_base, bridge_computer_enabled_scope_ceiling. destruct computer.
  - destruct (bridge_computer_scope_ceiling_is_valid base) eqn:Ec.
    + intros [= <-]. rewrite Ec. pose proof (computer_no_class _ Ec). apply computer_spec in Ec as Hs. destruct Hs as (Hn & Hall & _ & Hopt).
      split_and!; auto. intros s. split; [by left | ]. intros [? | [_ ?]]; auto.
    + destruct (bridge_baseline_scope_ceiling_is_valid base) eqn:Eb; cbn [negb]; [ | done]. intros [= <-].
      apply baseline_spec in Eb as (Hne & Hn & Hall).
      assert (Hv : bridge_computer_scope_ceiling_is_valid (base ++ SHARED_KEY_OAUTH_OPTIONAL_COMPUTER_SCOPES) = true).
      { apply computer_spec. split_and!.
        - apply NoDup_app. split_and!; [done | | apply optional_nodup]. intros s Hs%Hall. by eapply disjoint_lists_spec; [apply baseline_optional | ].
        - intros s [Hs | Hs]%elem_of_app; auto.
        - destruct base as [|b base]; [done | ]. exists b. split; [by apply elem_of_app; left; apply list_elem_of_here | apply Hall, list_elem_of_here].
        - intros s Hs. by apply elem_of_app; right. }
      rewrite Hv. pose proof (computer_no_class _ Hv). apply computer_spec in Hv as Hs. destruct Hs as (Hn' & _).
      split_and!; auto. intros s. rewrite elem_of_app. naive_solver.
  - destruct (bridge_baseline_scope_ceiling_is_valid base) eqn:Eb; [ | done]. intros [= <-]. rewrite Eb.
    pose proof (baseline_no_class _ Eb). apply baseline_spec in Eb as Hs. destruct Hs as (_ & Hn & _). split_and!; auto. naive_solver.
Qed.

(** Provisioning a shared-key client gives it exactly what was asked for.  The ceiling
    computed from its earlier scopes and the chosen options is one the bridge accepts; its
    scopes are the earlier ones outside the optional classes, the Computer scopes when
    they were opted into, and the scopes of the classes that were opted into; and
    provisioning again with the same options leaves it as it is. *)
Lemma bridge_ceiling_exact (scopes desired : list str) (o : BridgeOptions) :
  bridge_scope_ceiling_with_options scopes o = Some desired ->
  bridge_scope_ceiling_is_valid desired = true /\ NoDup desired
  /\ (forall s, s ∈ desired <-> (s ∈ scopes /\ s ∉ OPTIONAL_CLASS_SCOPES)
        \/ (bo_computer_permissions o = true /\ s ∈ SHARED_KEY_OAUTH_OPTIONAL_COMPUTER_SCOPES) \/ s ∈ option_scopes o)
  /\ bridge_scope_ceiling_with_options desired o = Some desired.
Proof.
  rewrite !with_options_eq. destruct (bridge_scope_ceiling_without_optional_class_scopes scopes) as [base|] eqn:Ew; cbn; [ | done].
  destruct (chosen_base _ base) as [d|] eqn:Ed; cbn; [ | done]. intros [= <-].
  destruct (chosen_spec _ _ _ Ed) as (Hn & Hcl & Hv & Hel & Hagain). destruct (without_spec _ _ Ew) as [_ Hbase].
  pose proof (without_options d o Hn Hcl) as Hwo. split_and!.
  - unfold bridge_scope_ceiling_is_valid. rewrite Hwo. cbn. destruct Hv as [-> | ->]; [done | by rewrite orb_true_r].
  - apply NoDup_app. split_and!; [done | | apply option_scopes_nodup]. intros s Hs Ho%option_scopes_class. by apply (Hcl s).
  - intros s. rewrite elem_of_app, Hel, Hbase. tauto.
  - rewrite Hwo. cbn. by rewrite Hagain.
Qed.

(** ** What a decision grants *)



Section Bounded.
Context `{AuthEnv}.


End Bounded.
