(* ===== verification/OAuthExamples.v ===== *)
(** * OAuthExamples: requests that run

    A small database and concrete stand-ins for the digests and the parsers, with a client
    that goes through authorization, exchange, use and revocation; the laws of the OAuth2
    endpoints applied to those runs. *)
From S2P Require Import Prelude RustStr Policy Sql Capabilities AuthModel AuthStore OAuthScopes OAuthHttp AuthFacts OAuthFacts OAuthAuthorize OAuthBridge OAuthGrants OAuthIdentity OAuthLaws OAuthFlow OAuthPurge OAuthCeiling.

(** ** Stand-ins *)

Definition toy_pair (s : str) : str * str := match split_once 61 s with Some kv => kv | None => (s, []) end.
Definition toy_pairs (body : list N) : list (str * str) := map toy_pair (split_char 38 body).
Definition toy_url (uri : str) (pairs : list (str * str)) : option str :=
  Some (uri ++ lit "?" ++ join (lit "&") (map (fun kv => fst kv ++ lit "=" ++ snd kv) pairs)).
Definition toy_field (body : list N) (name : str) : option str := form_field (toy_pairs body) name.

#[local] Instance toy_env : AuthEnv := {
  sha256 := fun bytes => bytes;
  base64_url_no_pad := fun bytes => bytes;
  url_parse := fun s => if starts_with (lit "https://") s then Some (mkUrl (lit "https") [] None (Some (lit "host")) None (lit "/") None None) else None;
  url_with_pairs := toy_url;
  form_pairs := toy_pairs;
  form_serialize := fun pairs => join (lit "&") (map (fun kv => fst kv ++ lit "=" ++ snd kv) pairs);
  token_form := fun body => Ok (mkTokenRequest (toy_field body (lit "grant_type")) (toy_field body (lit "code"))
    (toy_field body (lit "redirect_uri")) (toy_field body (lit "client_id")) (toy_field body (lit "client_secret"))
    (toy_field body (lit "code_verifier")) (toy_field body (lit "refresh_token")) (toy_field body (lit "scope"))
    (toy_field body (lit "resource")));
  revoke_form := fun body => Ok (mkRevokeRequest (toy_field body (lit "token")) (toy_field body (lit "token_type_hint"))
    (toy_field body (lit "client_id")) (toy_field body (lit "client_secret")));
  header_value := fun _ => true
}.

(** ** A database with a user, a key and a client *)

Definition alice : UserRecord := mkUser (lit "u1") (lit "alice") 0 0 None (lit "user") None None.
Definition alice_key : ApiKeyRow :=
  mkApiKeyRow (mkApiKey (lit "k1") (lit "u1") (lit "laptop") (lit "wc_pat_a") 0 None None (lit "project:read") None (lit "user") None)
    (hash_token (lit "wc_pat_a1")).
Definition app_client : OAuthClientRecord :=
  mkClient (lit "row1") (lit "c1") (hash_token (lit "s3")) (lit "App") (Some (lit "u1")) None None (lit "https://app/cb")
    (lit "project:read job:run") 0 None.
Definition db0 : AuthDb := mkAuthDb [alice] [alice_key] [] [] [app_client] [] [] [] ∅.

Definition config0 : Config :=
  mkConfig (Some (lit "boot")) (Some (lit "https://srv")) true 3600 86400 600 true true None None.

Definition post (body : str) : HttpRequest := mkHttpRequest (Some FORM_TYPE) None (Ok body).
Definition clock0 : AuthorizeClock := mkAuthorizeClock 100 100 100 100.

Definition authorize_req : PageRequest :=
  mkPageRequest (Some (lit "response_type=code&client_id=c1&redirect_uri=https://app/cb&code_challenge=v1&code_challenge_method=S256&scope=project:read"))
    (Some (lit "Bearer wc_pat_a1")) None (Ok []).
Definition authorize0 : Endpoint := AuthorizeEndpoint (Some config0) true true authorize_req clock0 (mkCodeGen (lit "r0") (lit "code1")).

Definition code_body : str :=
  lit "grant_type=authorization_code&code=wc_oac_r0&redirect_uri=https://app/cb&client_id=c1&client_secret=s3&code_verifier=v1".
Definition gen1 : TokenGen := mkTokenGen (lit "a1") (lit "b1") (lit "at1") (lit "rt1").
Definition gen2 : TokenGen := mkTokenGen (lit "a2") (lit "b2") (lit "at2") (lit "rt2").
Definition token1 : Endpoint := TokenEndpoint (Some config0) true (post code_body) 110 gen1.
Definition token2 : Endpoint := TokenEndpoint (Some config0) true (post code_body) 110 gen2.
Definition bearer1 : Endpoint := BearerEndpoint config0 true (lit "wc_oat_a1") 120 120.
Definition refresh_body : str := lit "grant_type=refresh_token&refresh_token=wc_ort_b1&client_id=c1&client_secret=s3".
Definition refresh1 : Endpoint := TokenEndpoint (Some config0) true (post refresh_body) 130 gen2.
Definition revoke_body : str := lit "token=wc_oat_a1&client_id=c1&client_secret=s3".
Definition revoke1 : Endpoint := RevokeEndpoint (Some config0) true (post revoke_body) 115.
Definition admin : AuthContext := bootstrap_context.
Definition revoke_client1 : Endpoint := RevokeClientEndpoint (Some admin) true (Ok (lit "c1")) 115.
Definition narrow1 : Endpoint := UpdateScopesEndpoint (Some admin) true (Ok (mkUpdateScopes (lit "c1") [lit "job:run"])) 115.

(** [n] calls of request [i]. *)
Definition calls (i n : nat) : list nat := repeat i n.

Lemma db0_wf : auth_wf db0.
Proof. constructor; apply (bool_decide_unpack _); by vm_compute. Qed.
Lemma db0_grants : grants_ok db0.
Proof. constructor; by intros ? ?%not_elem_of_nil. Qed.

(** ** Runs *)

Definition flow : list Endpoint := [authorize0; token1; token2; bearer1; revoke1; refresh1; revoke_client1; narrow1].
Definition sys0 : System Response := start db0 (map serve flow).
(** Authorization, then two token requests whose calls alternate, then a use of the token. *)
Definition race : list nat := calls 0 6 ++ [1; 2; 1; 2; 1; 2; 1; 2; 1; 2; 2] ++ calls 3 9.

Example race_runs :
  y_requests (run_schedule sys0 race) !! 0 = Some (Ret (Redirect (lit "https://app/cb?code=wc_oac_r0&iss=https://srv")))
  /\ y_requests (run_schedule sys0 race) !! 1 = Some (Ret (TokenBody (lit "wc_oat_a1") 3600 (lit "wc_ort_b1") (Some (lit "project:read")))).
Proof. split; vm_compute; reflexivity. Qed.

Definition tokens1 : Response := TokenBody (lit "wc_oat_a1") 3600 (lit "wc_ort_b1") (Some (lit "project:read")).
Definition code_form : TokenRequest :=
  mkTokenRequest (Some AUTHORIZATION_CODE) (Some (lit "wc_oac_r0")) (Some (lit "https://app/cb")) (Some (lit "c1")) (Some (lit "s3"))
    (Some (lit "v1")) None None None.

Lemma token1_request : token_request (serve token1) config0 code_form 110.
Proof. exists true, (post code_body), gen1, code_body. split_and!; [reflexivity | by vm_compute | by vm_compute]. Qed.

(** ** The laws on this run *)

Lemma grants_traceable_witness :
  auth_wf db0 /\ grants_ok db0 /\ length (oauth_access (w_db (y_world (run_schedule sys0 race)))) = 1
  /\ grants_ok (w_db (y_world (run_schedule sys0 race))).
Proof.
  split; [apply db0_wf | ]. split; [apply db0_grants | ]. split; [by vm_compute | ].
  exact (grants_traceable db0 flow race db0_wf db0_grants).
Defined.

(** The call that stored the code. *)
Definition code1_event : Event :=
  Called 0 (InsertCode (mkCode (lit "code1") (hash_token (lit "wc_oac_r0")) (lit "c1") MANAGED_USER (lit "u1") (Some (lit "u1"))
    (lit "https://app/cb") (lit "project:read") (Some (lit "v1")) (Some (lit "S256")) None None 100 700 None None)
    (hash_token (lit "wc_oac_r0"))) (Ok tt).

Lemma user_code_authenticated_witness :
  issued_user code1_event = Some (lit "u1") /\ user_authenticated flow (w_log (y_world (run_schedule sys0 race))) (lit "u1").
Proof.
  split; [by vm_compute | ]. apply (user_code_authenticated flow db0 race code1_event (lit "u1") db0_wf eq_refl); [ | by vm_compute].
  apply (list_elem_of_lookup_2 _ 4). vm_compute. reflexivity.
Defined.

Lemma grant_used_once_witness : answered (run_schedule sys0 race) 1 tokens1 /\ 1 = 1.
Proof.
  assert (Ha : answered (run_schedule sys0 race) 1 tokens1) by (vm_compute; reflexivity).
  split; [exact Ha | ].
  exact (grant_used_once db0 (map serve flow) race 1 1 (serve token1) (serve token1) config0 config0 code_form code_form 110 110
    (AUTHORIZATION_CODE, lit "wc_oac_r0") tokens1 tokens1 db0_wf eq_refl eq_refl token1_request token1_request eq_refl eq_refl
    Ha Ha eq_refl eq_refl).
Defined.

Lemma token_sound_witness : authenticated (lit "c1") (lit "s3") (w_db (y_world (run_schedule sys0 race))).
Proof.
  destruct (token_sound sys0 race 1 (serve token1) config0 code_form 110 3600 (lit "wc_oat_a1") (lit "wc_ort_b1") (Some (lit "project:read")))
    as (client_id & secret & Hc & Hs & Ha & _).
  - apply db0_wf.
  - reflexivity.
  - apply token1_request.
  - vm_compute. reflexivity.
  - injection Hc as <-. injection Hs as <-. exact Ha.
Defined.

Definition ctx1 : AuthContext :=
  mkContext KOAuth2Token (Some (lit "u1")) (Some (lit "alice")) (Some (lit "at1")) (Some (lit "user")) [lit "project:read"] false
    (Some (lit "oauth2")) (Some (lit "c1")) None None.

Lemma bearer_sound_witness :
  exists t, t ∈ oauth_access (w_db (y_world (run_schedule sys0 race))) /\ at_token_hash t = hash_token (lit "wc_oat_a1")
    /\ cx_scopes ctx1 = split_whitespace (at_scopes t).
Proof.
  set (s1 := run_schedule sys0 (calls 0 6 ++ calls 1 9)).
  destruct (bearer_sound s1 (calls 3 9) 3 config0 true (lit "wc_oat_a1") 120 120 ctx1) as (t & H1 & H2 & _ & _ & _ & _ & H3 & _).
  - apply (w_moves_wf (y_world sys0)), schedule_moves, db0_wf.
  - apply (schedule_waits sys0 _ 3). apply (bool_decide_unpack _). by vm_compute.
  - vm_compute. reflexivity.
  - reflexivity.
  - exists t. split; [ | split; [exact H2 | exact H3]]. revert H1. vm_compute. auto.
Defined.

(** *** Revocation *)

(** After authorization and exchange. *)
Definition issued : System Response := run_schedule sys0 (calls 0 6 ++ calls 1 9).
Lemma issued_wf : w_wf (y_world issued).
Proof. apply (w_moves_wf (y_world sys0)), schedule_moves, db0_wf. Qed.
Lemma waits (i : nat) (sched : list nat) (p : prog Response) :
  bool_decide (i ∉ calls 0 6 ++ calls 1 9 ++ sched) = true -> y_requests sys0 !! i = Some p ->
  y_requests (run_schedule issued sched) !! i = Some p.
Proof.
  intros Hn Hp. unfold issued. rewrite <- schedule_app, <- app_assoc, schedule_waits; [done | ]. by apply bool_decide_eq_true in Hn.
Qed.

Lemma waits_issued (i : nat) (p : prog Response) :
  bool_decide (i ∉ calls 0 6 ++ calls 1 9) = true -> y_requests sys0 !! i = Some p -> y_requests issued !! i = Some p.
Proof. intros Hn Hp. unfold issued. rewrite schedule_waits; [done | ]. by apply bool_decide_eq_true in Hn. Qed.

Definition revoke_form1 : RevokeRequest := mkRevokeRequest (Some (lit "wc_oat_a1")) None (Some (lit "c1")) (Some (lit "s3")).
Lemma revoke1_request : revoke_request (serve revoke1) config0 revoke_form1 115.
Proof. exists true, (post revoke_body), revoke_body. split_and!; [reflexivity | by vm_compute | by vm_compute]. Qed.

(** The row of the first access token. *)
Definition access1 : OAuthAccessTokenRecord :=
  mkAccess (lit "at1") (hash_token (lit "wc_oat_a1")) (lit "c1") MANAGED_USER (lit "u1") (Some (lit "u1")) (lit "project:read")
    None None 110 3710 None None.
Lemma access1_issued : access1 ∈ oauth_access (w_db (y_world issued)).
Proof. apply (list_elem_of_lookup_2 _ 0). vm_compute. reflexivity. Qed.

Lemma revocation_final_witness :
  answered (run_schedule issued (calls 4 9)) 4 EmptyBody
  /\ forall ctx, answered (run_schedule (run_schedule issued (calls 4 9)) (calls 3 9)) 3 (Credential (Ok (Some ctx))) ->
       cx_kind ctx <> KOAuth2Token.
Proof.
  assert (Ha : answered (run_schedule issued (calls 4 9)) 4 EmptyBody) by (vm_compute; reflexivity).
  split; [exact Ha | ]. intros ctx Hans.
  refine (proj1 (revocation_final issued (calls 4 9) (calls 3 9) 4 3 (serve revoke1) config0 revoke_form1 115 (lit "wc_oat_a1") (lit "c1")
    issued_wf _ revoke1_request eq_refl eq_refl Ha) access1 config0 true 120%Z 120%Z ctx access1_issued eq_refl eq_refl _ _ Hans).
  - exact (waits_issued 4 (serve revoke1) eq_refl eq_refl).
  - discriminate.
  - exact (waits 3 (calls 4 9) (serve bearer1) eq_refl eq_refl).
Defined.

Lemma scope_change_final_witness :
  answered (run_schedule issued (calls 7 9)) 7 (ClientScopes true 1 1 1)
  /\ old_grants_refused (lit "c1") (y_world issued) (run_schedule issued (calls 7 9)) (calls 3 9) 3.
Proof.
  assert (Ha : answered (run_schedule issued (calls 7 9)) 7 (ClientScopes true 1 1 1)) by (vm_compute; reflexivity).
  split; [exact Ha | ].
  exact (scope_change_final issued (calls 7 9) (calls 3 9) 7 3 (Some admin) true (mkUpdateScopes (lit "c1") [lit "job:run"]) 115 1 1 1
    issued_wf (waits_issued 7 (serve narrow1) eq_refl eq_refl) Ha).
Defined.

Lemma app_client_issued : app_client ∈ oauth_clients (w_db (y_world issued)).
Proof. apply (list_elem_of_lookup_2 _ 0). vm_compute. reflexivity. Qed.

Lemma client_revocation_final_witness :
  answered (run_schedule issued (calls 6 9)) 6 ClientRevoked
  /\ old_grants_refused (lit "c1") (y_world issued) (run_schedule issued (calls 6 9)) (calls 5 9) 5.
Proof.
  assert (Ha : answered (run_schedule issued (calls 6 9)) 6 ClientRevoked) by (vm_compute; reflexivity).
  split; [exact Ha | ].
  exact (proj2 (proj2 (client_revocation_final issued (calls 6 9) (calls 5 9) 6 5 (Some admin) true (lit "c1") 115 app_client
    issued_wf (waits_issued 6 (serve revoke_client1) eq_refl eq_refl) app_client_issued eq_refl Ha))).
Defined.

(** *** The flow, the purge and the bridge *)

(** The database after the authorization. *)
Definition db1 : AuthDb := w_db (y_world (run_schedule sys0 (calls 0 6))).
Definition code1 : OAuthAuthorizationCodeRecord :=
  mkCode (lit "code1") (hash_token (lit "wc_oac_r0")) (lit "c1") MANAGED_USER (lit "u1") (Some (lit "u1"))
    (lit "https://app/cb") (lit "project:read") (Some (lit "v1")) (Some (lit "S256")) None None 100 700 None None.
Lemma db1_wf : auth_wf db1.
Proof. apply (w_moves_wf (y_world sys0)), schedule_moves, db0_wf. Qed.

Lemma code1_good : good_request config0 code_form app_client code1 alice (lit "wc_oac_r0") (lit "v1") None 110 gen1 db1.
Proof.
  constructor; try (split_and?; by vm_compute).
  - exists (lit "s3"). split_and!; by vm_compute.
  - split_and!; try by vm_compute.
    + apply (list_elem_of_lookup_2 _ 0). vm_compute. reflexivity.
    + apply (list_elem_of_lookup_2 _ 0). vm_compute. reflexivity.
    + apply (list_elem_of_lookup_2 _ 0). vm_compute. reflexivity.
Qed.

(** The token is used twice; the second use is the theorem's. *)
Definition granted_tables : AuthDb := Eval vm_compute in (run_prog (oauth_token (Some config0) true (post code_body) 110 gen1) db1).1.
Definition first_use : list (Config * bool * str * Z * Z) := [(config0, true, lit "wc_oat_a1", 120%Z, 120%Z)].
Definition used_tables : AuthDb := w_db (y_world (run_schedule (start granted_tables (bearer_uses first_use)) (calls 0 9))).

Lemma granted_code_works_witness :
  run_prog (oauth_token (Some config0) true (post code_body) 110 gen1) db1
    = (granted_tables, TokenBody (lit "wc_oat_a1") 3600 (lit "wc_ort_b1") (Some (lit "project:read")))
  /\ (at_last_used_at <$> oauth_access used_tables) = [Some 120%Z]
  /\ accepted_as config0 (lit "wc_oat_a1") 200 200 app_client code1 alice used_tables
  /\ accepted_as config0 (lit "wc_oat_a1") 200 200 app_client code1 alice granted_tables.
Proof.
  destruct (granted_code_works config0 (post code_body) code_body code_form app_client code1 alice (lit "wc_oac_r0") (lit "v1")
    None 110 gen1 db1 db1_wf) as (db' & Hrun & Huses & Hlater).
  - vm_compute. reflexivity.
  - vm_compute. reflexivity.
  - apply code1_good.
  - assert (Hdb : db' = granted_tables).
    { transitivity (run_prog (oauth_token (Some config0) true (post code_body) 110 gen1) db1).1;
        [by rewrite Hrun | vm_compute; reflexivity]. }
    subst db'. split; [exact Hrun | ]. split; [vm_compute; reflexivity | ]. split.
    + apply (Huses first_use (calls 0 9) config0 200%Z 200%Z); vm_compute; reflexivity.
    + apply (Hlater [] [] config0 app_client alice 200%Z 200%Z); try (vm_compute; reflexivity).
      * change (forall t, t ∈ oauth_access granted_tables -> at_token_hash t = hash_token (lit "wc_oat_a1") -> at_revoked_at t = None).
        intros t Ht _. assert (Hall : forallb (fun t => is_none (at_revoked_at t)) (oauth_access granted_tables) = true)
          by (vm_compute; reflexivity).
        rewrite forallb_forall in Hall. apply list_elem_of_In, Hall in Ht. by destruct (at_revoked_at t).
      * apply (list_elem_of_lookup_2 _ 0). vm_compute. reflexivity.
      * apply (list_elem_of_lookup_2 _ 0). vm_compute. reflexivity.
Defined.

Lemma purge_harmless_witness :
  accepted (outcome (bearer_request config0 true (lit "wc_oat_a1") 500 500) (purged 300 (w_db (y_world issued))))
  = accepted (outcome (bearer_request config0 true (lit "wc_oat_a1") 500 500) (w_db (y_world issued))).
Proof. apply (purge_harmless config0 true (lit "wc_oat_a1") 300%Z 500%Z 500%Z); [apply issued_wf | lia | lia | by vm_compute]. Defined.

Definition all_options : BridgeOptions := mkBridgeOptions true true true true true.
Lemma bridge_ceiling_exact_witness :
  exists desired, bridge_scope_ceiling_with_options bridge_oauth_scopes all_options = Some desired
    /\ bridge_scope_ceiling_is_valid desired = true.
Proof.
  eexists. split; [vm_compute; reflexivity | ].
  apply (bridge_ceiling_exact bridge_oauth_scopes _ all_options). vm_compute. reflexivity.
Defined.



(** *** A scope change that is overtaken *)

(** The authorization has read the client when the change runs, and stores its code after it. *)
Definition overtaken : list nat := calls 0 4 ++ calls 7 9 ++ calls 0 2 ++ calls 1 9 ++ calls 3 9.

(** A scope change ends the grants that exist, not an authorization under way.  In this
    run the client is narrowed to [job:run] between the moment an authorization reads the
    client and the moment it stores its code; the change is answered as made with nothing
    to revoke, and the code still buys a token with [project:read] that is accepted. *)
Lemma scope_change_overtaken :
  let s := run_schedule sys0 overtaken in
  answered s 7 (ClientScopes true 0 0 0) /\ map oc_allowed_scopes (oauth_clients (w_db (y_world s))) = [lit "job:run"]
  /\ answered s 1 tokens1 /\ answered s 3 (Credential (Ok (Some ctx1))) /\ cx_scopes ctx1 = [lit "project:read"].
Proof. repeat split; vm_compute; reflexivity. Qed.
