(* ===== verification/AgentModel.v ===== *)
(** * AgentModel: the tables of Agent collaboration

    The states of communication.rs, agent_wake.rs, agent_task.rs, agent_attention.rs and
    goal.rs, the rows of their tables and the constraints of their schemas.  A column
    whose CHECK lists the texts of a state holds that state, a column that holds JSON
    holds the value, and 0/1 columns are booleans. *)
From S2P Require Import Prelude RustStr Sql ConnectorModel CodingAgent.

(** ** States *)

Inductive AgentEndpointLifecycle : Type := EndpointAttached | EndpointDetached | EndpointExpired.
Inductive ConversationLifecycle : Type := ConversationOpen | ConversationClosed.
Inductive MessageDeliveryState : Type := DeliveryQueued | DeliveryConsumed.
Inductive ParticipantKind : Type := HumanParticipant | AgentParticipant.
Inductive WakeTrigger : Type := InboxChanged | AgentTaskAttemptTrigger | AttentionEvent.
Inductive AgentWakeState : Type :=
  WakePending | WakeClaimed | WakePrepared | WakeDelivered | WakeDeliveryUnknown | WakeConsumed | WakeRetired.
Inductive AgentWakeAttemptState : Type :=
  WaClaimed | WaPrepared | WaDelivered | WaDeliveryUnknown | WaRevoked | WaConsumed.
Inductive AgentTaskState : Type := TaskReady | TaskActive | TaskSucceeded | TaskFailed.
Inductive AgentTaskAttemptState : Type := AttemptActive | AttemptExpired | AttemptSucceeded | AttemptFailed.
Inductive AgentTaskCodingRunDispatchState : Type :=
  DispatchPrepared | DispatchNotStarted | DispatchOutcomeUnknown | DispatchBound | DispatchTerminal.
Inductive AgentTaskExecutionKind : Type := ByCodingAgentRun | ByAgentEndpoint.
Inductive AgentTaskExecutionStatus : Type :=
  StatusNotStarted | StatusActive | StatusWaitingPermission | StatusOutcomeUnknown | StatusTerminal.
Inductive AgentTaskExecutionRecoveryKind : Type := RecoverNone | RecoverObserve | RecoverReconcile.
Inductive GoalLifecycle : Type := GoalActive | GoalCompleted | GoalCancelled.
Inductive GoalCorrelationKind : Type := CorrelatesAgentTask | CorrelatesWorkflowSession.

#[export] Instance endpoint_lifecycle_eq_dec : EqDecision AgentEndpointLifecycle.
Proof. solve_decision. Defined.
#[export] Instance conversation_lifecycle_eq_dec : EqDecision ConversationLifecycle.
Proof. solve_decision. Defined.
#[export] Instance message_delivery_state_eq_dec : EqDecision MessageDeliveryState.
Proof. solve_decision. Defined.
#[export] Instance participant_kind_eq_dec : EqDecision ParticipantKind.
Proof. solve_decision. Defined.
#[export] Instance wake_trigger_eq_dec : EqDecision WakeTrigger.
Proof. solve_decision. Defined.
#[export] Instance wake_state_eq_dec : EqDecision AgentWakeState.
Proof. solve_decision. Defined.
#[export] Instance wake_attempt_state_eq_dec : EqDecision AgentWakeAttemptState.
Proof. solve_decision. Defined.
#[export] Instance agent_task_state_eq_dec : EqDecision AgentTaskState.
Proof. solve_decision. Defined.
#[export] Instance task_attempt_state_eq_dec : EqDecision AgentTaskAttemptState.
Proof. solve_decision. Defined.
#[export] Instance coding_dispatch_eq_dec : EqDecision AgentTaskCodingRunDispatchState.
Proof. solve_decision. Defined.
#[export] Instance execution_status_eq_dec : EqDecision AgentTaskExecutionStatus.
Proof. solve_decision. Defined.
#[export] Instance goal_lifecycle_eq_dec : EqDecision GoalLifecycle.
Proof. solve_decision. Defined.
#[export] Instance correlation_kind_eq_dec : EqDecision GoalCorrelationKind.
Proof. solve_decision. Defined.

Definition task_terminal (s : AgentTaskState) : bool :=
  match s with TaskSucceeded | TaskFailed => true | TaskReady | TaskActive => false end.
Definition agent_task_state_as_str (s : AgentTaskState) : str :=
  match s with
  | TaskReady => lit "ready" | TaskActive => lit "active" | TaskSucceeded => lit "succeeded" | TaskFailed => lit "failed"
  end.
Definition agent_task_state_from_db (value : str) : option AgentTaskState :=
  if value ==? lit "ready" then Some TaskReady
  else if value ==? lit "active" then Some TaskActive
  else if value ==? lit "succeeded" then Some TaskSucceeded
  else if value ==? lit "failed" then Some TaskFailed
  else None.
Definition blocks_replacement (s : AgentTaskCodingRunDispatchState) : bool :=
  match s with DispatchOutcomeUnknown | DispatchBound => true | _ => false end.
Definition goal_terminal (l : GoalLifecycle) : bool :=
  match l with GoalCompleted | GoalCancelled => true | GoalActive => false end.
Definition goal_lifecycle_as_str (l : GoalLifecycle) : str :=
  match l with GoalActive => lit "active" | GoalCompleted => lit "completed" | GoalCancelled => lit "cancelled" end.
Definition correlation_kind_as_str (k : GoalCorrelationKind) : str :=
  match k with CorrelatesAgentTask => lit "agent_task" | CorrelatesWorkflowSession => lit "workflow_session" end.
Definition wake_state_as_str (s : AgentWakeState) : str :=
  match s with
  | WakePending => lit "pending" | WakeClaimed => lit "claimed" | WakePrepared => lit "prepared"
  | WakeDelivered => lit "delivered" | WakeDeliveryUnknown => lit "delivery_unknown"
  | WakeConsumed => lit "consumed" | WakeRetired => lit "retired"
  end.
Definition wake_state_from_db (value : str) : option AgentWakeState :=
  if value ==? lit "pending" then Some WakePending
  else if value ==? lit "claimed" then Some WakeClaimed
  else if value ==? lit "prepared" then Some WakePrepared
  else if value ==? lit "delivered" then Some WakeDelivered
  else if value ==? lit "delivery_unknown" then Some WakeDeliveryUnknown
  else if value ==? lit "consumed" then Some WakeConsumed
  else if value ==? lit "retired" then Some WakeRetired
  else None.

(** [state IN ('pending', 'claimed')]: the dispatch fence is not crossed. *)
Definition queueable (s : AgentWakeState) : bool :=
  match s with WakePending | WakeClaimed => true | _ => false end.
(** [state IN ('prepared', 'delivered', 'delivery_unknown')]. *)
Definition dispatched (s : AgentWakeState) : bool :=
  match s with WakePrepared | WakeDelivered | WakeDeliveryUnknown => true | _ => false end.
(** [state IN ('consumed', 'retired')]. *)
Definition resolved (s : AgentWakeState) : bool :=
  match s with WakeConsumed | WakeRetired => true | _ => false end.

(** ** Rows *)

(** [wc_agent_identities]. *)
Record AgentIdentityRow : Type := mkIdentity {
  ai_agent_id : str;
  ai_owner_principal_kind : str;
  ai_owner_principal_digest : str;
  ai_handle : str;
  ai_display_name : str;
  ai_description : str;
  ai_specialty_labels : list str;
  ai_profile_revision : Z;
  ai_created_at : Z;
  ai_updated_at : Z;
  ai_current_controller_generation : Z
}.

#[export] Instance eta_mkIdentity : Eta AgentIdentityRow := fun x =>
  mkIdentity (ai_agent_id x) (ai_owner_principal_kind x) (ai_owner_principal_digest x) (ai_handle x)
    (ai_display_name x) (ai_description x) (ai_specialty_labels x) (ai_profile_revision x) (ai_created_at x)
    (ai_updated_at x) (ai_current_controller_generation x).

(** [wc_agent_endpoints]. *)
Record AgentEndpointRow : Type := mkEndpoint {
  ep_endpoint_id : str;
  ep_agent_id : str;
  ep_attachment_principal_kind : str;
  ep_attachment_principal_digest : str;
  ep_host : str;
  ep_client_attachment_id : option str;
  ep_wake_capable : bool;
  ep_mcp_app_recovery_fingerprint : option str;
  ep_mcp_app_client_window_key : option str;
  ep_controller_generation : Z;
  ep_lifecycle : AgentEndpointLifecycle;
  ep_attached_at : Z;
  ep_last_seen_at : Z;
  ep_lease_expires_at : Z;
  ep_expired_at : option Z;
  ep_detached_at : option Z
}.

#[export] Instance eta_mkEndpoint : Eta AgentEndpointRow := fun x =>
  mkEndpoint (ep_endpoint_id x) (ep_agent_id x) (ep_attachment_principal_kind x) (ep_attachment_principal_digest
    x) (ep_host x) (ep_client_attachment_id x) (ep_wake_capable x) (ep_mcp_app_recovery_fingerprint x)
    (ep_mcp_app_client_window_key x) (ep_controller_generation x) (ep_lifecycle x) (ep_attached_at x)
    (ep_last_seen_at x) (ep_lease_expires_at x) (ep_expired_at x) (ep_detached_at x).

(** [wc_conversations]. *)
Record ConversationRow : Type := mkConversation {
  cv_conversation_id : str;
  cv_title : option str;
  cv_lifecycle : ConversationLifecycle;
  cv_next_seq : Z;
  cv_created_by_principal_kind : str;
  cv_created_by_principal_digest : str;
  cv_created_at : Z;
  cv_updated_at : Z;
  cv_closed_at : option Z
}.

#[export] Instance eta_mkConversation : Eta ConversationRow := fun x =>
  mkConversation (cv_conversation_id x) (cv_title x) (cv_lifecycle x) (cv_next_seq x)
    (cv_created_by_principal_kind x) (cv_created_by_principal_digest x) (cv_created_at x) (cv_updated_at x)
    (cv_closed_at x).

(** [wc_conversation_participants]. *)
Record ParticipantRow : Type := mkParticipant {
  pt_participant_id : str;
  pt_conversation_id : str;
  pt_kind : ParticipantKind;
  pt_agent_id : option str;
  pt_principal_kind : option str;
  pt_principal_digest : option str;
  pt_joined_at : Z
}.

#[export] Instance eta_mkParticipant : Eta ParticipantRow := fun x =>
  mkParticipant (pt_participant_id x) (pt_conversation_id x) (pt_kind x) (pt_agent_id x) (pt_principal_kind x)
    (pt_principal_digest x) (pt_joined_at x).

(** [wc_conversation_messages]. *)
Record MessageRow : Type := mkMessage {
  ms_message_id : str;
  ms_conversation_id : str;
  ms_seq : Z;
  ms_author_participant_id : str;
  ms_body : str;
  ms_reply_to : option str;
  ms_created_at : Z
}.

#[export] Instance eta_mkMessage : Eta MessageRow := fun x =>
  mkMessage (ms_message_id x) (ms_conversation_id x) (ms_seq x) (ms_author_participant_id x) (ms_body x)
    (ms_reply_to x) (ms_created_at x).

(** [wc_agent_deliveries]. *)
Record DeliveryRow : Type := mkDelivery {
  dl_delivery_order : Z;
  dl_delivery_id : str;
  dl_message_id : str;
  dl_conversation_id : str;
  dl_message_seq : Z;
  dl_recipient_agent_id : str;
  dl_state : MessageDeliveryState;
  dl_created_at : Z;
  dl_consumed_at : option Z;
  dl_consumed_by_endpoint_id : option str
}.

#[export] Instance eta_mkDelivery : Eta DeliveryRow := fun x =>
  mkDelivery (dl_delivery_order x) (dl_delivery_id x) (dl_message_id x) (dl_conversation_id x) (dl_message_seq
    x) (dl_recipient_agent_id x) (dl_state x) (dl_created_at x) (dl_consumed_at x) (dl_consumed_by_endpoint_id x).

(** [wc_communication_idempotency] and [wc_goal_idempotency]. *)
Record IdempotencyRow : Type := mkIdempotency {
  ik_principal_digest : str;
  ik_operation : str;
  ik_key_hash : str;
  ik_request_hash : str;
  ik_resource_id : str;
  ik_created_at : Z
}.

#[export] Instance eta_mkIdempotency : Eta IdempotencyRow := fun x =>
  mkIdempotency (ik_principal_digest x) (ik_operation x) (ik_key_hash x) (ik_request_hash x) (ik_resource_id x)
    (ik_created_at x).

(** [wc_agent_wakes]: the record [load_wake] reads has every column. *)
Record AgentWakeRecord : Type := mkWake {
  wk_wake_id : str;
  wk_target_agent_id : str;
  wk_trigger_kind : WakeTrigger;
  wk_first_triggering_delivery_id : option str;
  wk_latest_triggering_delivery_id : option str;
  wk_latest_conversation_id : option str;
  wk_latest_message_id : option str;
  wk_inbox_high_watermark : option Z;
  wk_queued_delivery_count_snapshot : option Z;
  wk_source_task_id : option str;
  wk_source_task_attempt_id : option str;
  wk_source_event_id : option str;
  wk_state : AgentWakeState;
  wk_revision : Z;
  wk_created_at : Z;
  wk_updated_at : Z;
  wk_claimed_attempt_id : option str;
  wk_claimed_endpoint_id : option str;
  wk_claimed_controller_generation : option Z;
  wk_claim_lease_expires_at : option Z;
  wk_consumed_at : option Z;
  wk_consumed_by_endpoint_id : option str;
  wk_consumed_controller_generation : option Z
}.

#[export] Instance eta_mkWake : Eta AgentWakeRecord := fun x =>
  mkWake (wk_wake_id x) (wk_target_agent_id x) (wk_trigger_kind x) (wk_first_triggering_delivery_id x)
    (wk_latest_triggering_delivery_id x) (wk_latest_conversation_id x) (wk_latest_message_id x)
    (wk_inbox_high_watermark x) (wk_queued_delivery_count_snapshot x) (wk_source_task_id x)
    (wk_source_task_attempt_id x) (wk_source_event_id x) (wk_state x) (wk_revision x) (wk_created_at x)
    (wk_updated_at x) (wk_claimed_attempt_id x) (wk_claimed_endpoint_id x) (wk_claimed_controller_generation x)
    (wk_claim_lease_expires_at x) (wk_consumed_at x) (wk_consumed_by_endpoint_id x)
    (wk_consumed_controller_generation x).

(** [wc_agent_wake_attempts]. *)
Record WakeAttemptRow : Type := mkWakeAttempt {
  wa_attempt_id : str;
  wa_wake_id : str;
  wa_endpoint_id : str;
  wa_controller_generation : Z;
  wa_adapter_kind : str;
  wa_state : AgentWakeAttemptState;
  wa_claim_fence_hash : str;
  wa_consume_token_hash : str;
  wa_claimed_at : Z;
  wa_claim_lease_expires_at : Z;
  wa_prepared_at : option Z;
  wa_delivered_at : option Z;
  wa_delivery_unknown_at : option Z;
  wa_revoked_at : option Z;
  wa_consumed_at : option Z
}.

#[export] Instance eta_mkWakeAttempt : Eta WakeAttemptRow := fun x =>
  mkWakeAttempt (wa_attempt_id x) (wa_wake_id x) (wa_endpoint_id x) (wa_controller_generation x)
    (wa_adapter_kind x) (wa_state x) (wa_claim_fence_hash x) (wa_consume_token_hash x) (wa_claimed_at x)
    (wa_claim_lease_expires_at x) (wa_prepared_at x) (wa_delivered_at x) (wa_delivery_unknown_at x) (wa_revoked_at
    x) (wa_consumed_at x).

(** [wc_agent_tasks]. *)
Record AgentTaskRow : Type := mkAgentTask {
  tk_task_id : str;
  tk_owner_principal_kind : str;
  tk_owner_principal_digest : str;
  tk_assignee_agent_id : option str;
  tk_title : str;
  tk_instruction : str;
  tk_source_conversation_id : option str;
  tk_source_message_id : option str;
  tk_referenced_project_id : option str;
  tk_state : AgentTaskState;
  tk_latest_attempt_id : option str;
  tk_terminal_attempt_id : option str;
  tk_created_at : Z;
  tk_updated_at : Z;
  tk_terminal_at : option Z
}.

#[export] Instance eta_mkAgentTask : Eta AgentTaskRow := fun x =>
  mkAgentTask (tk_task_id x) (tk_owner_principal_kind x) (tk_owner_principal_digest x) (tk_assignee_agent_id x)
    (tk_title x) (tk_instruction x) (tk_source_conversation_id x) (tk_source_message_id x)
    (tk_referenced_project_id x) (tk_state x) (tk_latest_attempt_id x) (tk_terminal_attempt_id x) (tk_created_at
    x) (tk_updated_at x) (tk_terminal_at x).

(** [wc_agent_task_attempts]. *)
Record StoredAttempt : Type := mkStoredAttempt {
  ta_attempt_id : str;
  ta_task_id : str;
  ta_attempt_number : Z;
  ta_assignee_agent_id : str;
  ta_state : AgentTaskAttemptState;
  ta_lease_expires_at : Z;
  ta_attempt_fence : str;
  ta_attempt_controller_generation : Z;
  ta_created_at : Z;
  ta_started_at : Z;
  ta_terminal_at : option Z;
  ta_terminal_result : option str;
  ta_terminal_reason : option str
}.

#[export] Instance eta_mkStoredAttempt : Eta StoredAttempt := fun x =>
  mkStoredAttempt (ta_attempt_id x) (ta_task_id x) (ta_attempt_number x) (ta_assignee_agent_id x) (ta_state x)
    (ta_lease_expires_at x) (ta_attempt_fence x) (ta_attempt_controller_generation x) (ta_created_at x)
    (ta_started_at x) (ta_terminal_at x) (ta_terminal_result x) (ta_terminal_reason x).

(** [wc_agent_task_coding_runs]. *)
Record AgentTaskCodingRunBindingRecord : Type := mkBinding {
  cb_task_id : str;
  cb_attempt_id : str;
  cb_run_id : str;
  cb_runtime_project_id : str;
  cb_provider_id : str;
  cb_provider_instance_id : str;
  cb_authority_fingerprint : str;
  cb_coding_agent_intent_fingerprint : str;
  cb_binding_intent_fingerprint : str;
  cb_dispatch_state : AgentTaskCodingRunDispatchState;
  cb_last_observed_run_state : option CodingAgentRunState;
  cb_last_observed_execution_state : option CodingAgentExecutionState;
  cb_last_observation_revision : option Z;
  cb_terminal_stop_reason : option str;
  cb_terminal_error_code : option str;
  cb_terminal_message : option str;
  cb_completed_at_unix : option Z;
  cb_created_at : Z;
  cb_updated_at : Z;
  cb_terminal_at : option Z
}.

#[export] Instance eta_mkBinding : Eta AgentTaskCodingRunBindingRecord := fun x =>
  mkBinding (cb_task_id x) (cb_attempt_id x) (cb_run_id x) (cb_runtime_project_id x) (cb_provider_id x)
    (cb_provider_instance_id x) (cb_authority_fingerprint x) (cb_coding_agent_intent_fingerprint x)
    (cb_binding_intent_fingerprint x) (cb_dispatch_state x) (cb_last_observed_run_state x)
    (cb_last_observed_execution_state x) (cb_last_observation_revision x) (cb_terminal_stop_reason x)
    (cb_terminal_error_code x) (cb_terminal_message x) (cb_completed_at_unix x) (cb_created_at x) (cb_updated_at
    x) (cb_terminal_at x).

(** [wc_agent_task_endpoint_executions]. *)
Record EndpointExecutionRow : Type := mkEndpointExecution {
  ee_task_id : str;
  ee_attempt_id : str;
  ee_wake_id : str;
  ee_start_identity_fingerprint : str;
  ee_endpoint_id : option str;
  ee_endpoint_controller_generation : option Z;
  ee_created_at : Z;
  ee_updated_at : Z
}.

#[export] Instance eta_mkEndpointExecution : Eta EndpointExecutionRow := fun x =>
  mkEndpointExecution (ee_task_id x) (ee_attempt_id x) (ee_wake_id x) (ee_start_identity_fingerprint x)
    (ee_endpoint_id x) (ee_endpoint_controller_generation x) (ee_created_at x) (ee_updated_at x).

(** [wc_agent_attention_events]. *)
Record AgentAttentionEventRecord : Type := mkAttention {
  av_event_id : str;
  av_kind : str;
  av_owner_principal_kind : str;
  av_owner_principal_digest : str;
  av_target_agent_id : str;
  av_goal_id : str;
  av_task_id : str;
  av_task_attempt_id : str;
  av_terminal_task_state : AgentTaskState;
  av_created_at : Z
}.

#[export] Instance eta_mkAttention : Eta AgentAttentionEventRecord := fun x =>
  mkAttention (av_event_id x) (av_kind x) (av_owner_principal_kind x) (av_owner_principal_digest x)
    (av_target_agent_id x) (av_goal_id x) (av_task_id x) (av_task_attempt_id x) (av_terminal_task_state x)
    (av_created_at x).

(** [wc_goals]. *)
Record GoalRow : Type := mkGoal {
  go_goal_id : str;
  go_owner_principal_kind : str;
  go_owner_principal_digest : str;
  go_title : str;
  go_objective : str;
  go_lifecycle : GoalLifecycle;
  go_revision : Z;
  go_created_at : Z;
  go_updated_at : Z;
  go_terminal_at : option Z;
  go_terminal_reason : option str
}.

#[export] Instance eta_mkGoal : Eta GoalRow := fun x =>
  mkGoal (go_goal_id x) (go_owner_principal_kind x) (go_owner_principal_digest x) (go_title x) (go_objective x)
    (go_lifecycle x) (go_revision x) (go_created_at x) (go_updated_at x) (go_terminal_at x) (go_terminal_reason x).

(** [wc_goal_correlations]. *)
Record CorrelationRow : Type := mkCorrelation {
  gc_goal_id : str;
  gc_kind : GoalCorrelationKind;
  gc_reference_id : str;
  gc_created_at : Z
}.

#[export] Instance eta_mkCorrelation : Eta CorrelationRow := fun x =>
  mkCorrelation (gc_goal_id x) (gc_kind x) (gc_reference_id x) (gc_created_at x).

(** The tables of Agent collaboration. *)
Record AgentDb : Type := mkAgentDb {
  identities : list AgentIdentityRow;
  endpoints : list AgentEndpointRow;
  conversations : list ConversationRow;
  participants : list ParticipantRow;
  messages : list MessageRow;
  deliveries : list DeliveryRow;
  comm_idempotency : list IdempotencyRow;
  wakes : list AgentWakeRecord;
  wake_attempts : list WakeAttemptRow;
  agent_tasks : list AgentTaskRow;
  task_attempts : list StoredAttempt;
  coding_runs : list AgentTaskCodingRunBindingRecord;
  endpoint_executions : list EndpointExecutionRow;
  attention_events : list AgentAttentionEventRecord;
  goals : list GoalRow;
  goal_correlations : list CorrelationRow;
  goal_idempotency : list IdempotencyRow
}.

#[export] Instance eta_mkAgentDb : Eta AgentDb := fun x =>
  mkAgentDb (identities x) (endpoints x) (conversations x) (participants x) (messages x) (deliveries x)
    (comm_idempotency x) (wakes x) (wake_attempts x) (agent_tasks x) (task_attempts x) (coding_runs x)
    (endpoint_executions x) (attention_events x) (goals x) (goal_correlations x) (goal_idempotency x).
Definition AgentDb_empty : AgentDb := mkAgentDb [] [] [] [] [] [] [] [] [] [] [] [] [] [] [] [] [].

(** ** Constraints *)

Fixpoint distinct {K : Type} `{EqDecision K} (l : list K) : bool :=
  match l with
  | [] => true
  | k :: l => negb (existsb (fun k' => k' ==? k) l) && distinct l
  end.

(** [PRIMARY KEY] and [UNIQUE]; a NULL key, and a row outside a partial index, has none. *)
Definition unique {A K : Type} `{EqDecision K} (key : A -> option K) (t : list A) : bool := distinct (omap key t).
(** [FOREIGN KEY ... REFERENCES t(key)]. *)
Definition refers {A : Type} (key : A -> str) (t : list A) (v : str) : bool := existsb (fun r => key r ==? v) t.
Definition may_refer {A : Type} (key : A -> str) (t : list A) (v : option str) : bool := is_none_or (refers key t) v.

Definition identities_own (t : list AgentIdentityRow) : bool :=
  unique (fun r => Some (ai_agent_id r)) t
  && forallb (fun r => Z.leb 1 (ai_profile_revision r) && Z.leb 0 (ai_current_controller_generation r)) t.
Definition identities_ok (db : AgentDb) : bool :=
  identities_own (identities db).

Definition endpoint_check (r : AgentEndpointRow) : bool :=
  is_none_or (fun f => Z.eqb (Z.of_nat (length f)) 64) (ep_mcp_app_recovery_fingerprint r)
  && is_none_or (fun k => Z.eqb (Z.of_nat (length k)) 64) (ep_mcp_app_client_window_key r)
  && Z.leb 0 (ep_controller_generation r)
  && match ep_lifecycle r with
     | EndpointAttached => is_none (ep_expired_at r) && is_none (ep_detached_at r)
     | EndpointExpired => is_some (ep_expired_at r)
     | EndpointDetached => is_some (ep_detached_at r)
     end.
Definition endpoints_own (t : list AgentEndpointRow) : bool :=
  unique (fun r => Some (ep_endpoint_id r)) t
  && unique (fun r => if ep_lifecycle r ==? EndpointAttached then Some (ep_agent_id r) else None) t
  && forallb endpoint_check t.
Definition endpoints_ok (db : AgentDb) : bool :=
  endpoints_own (endpoints db)
  && forallb (fun r => refers ai_agent_id (identities db) (ep_agent_id r)) (endpoints db).

Definition conversations_own (t : list ConversationRow) : bool :=
  unique (fun r => Some (cv_conversation_id r)) t
  && forallb (fun r => Z.leb 1 (cv_next_seq r)) t.
Definition conversations_ok (db : AgentDb) : bool :=
  conversations_own (conversations db).

Definition participant_check (r : ParticipantRow) : bool :=
  match pt_kind r with
  | AgentParticipant => is_some (pt_agent_id r) && is_none (pt_principal_kind r) && is_none (pt_principal_digest r)
  | HumanParticipant => is_none (pt_agent_id r) && is_some (pt_principal_kind r) && is_some (pt_principal_digest r)
  end.
Definition participants_own (t : list ParticipantRow) : bool :=
  unique (fun r => Some (pt_participant_id r)) t
  && unique (fun r => match pt_kind r, pt_agent_id r with
                      | AgentParticipant, Some agent => Some (pt_conversation_id r, agent)
                      | _, _ => None
                      end) t
  && unique (fun r => match pt_kind r, pt_principal_digest r with
                      | HumanParticipant, Some digest => Some (pt_conversation_id r, digest)
                      | _, _ => None
                      end) t
  && forallb participant_check t.
Definition participants_ok (db : AgentDb) : bool :=
  participants_own (participants db)
  && forallb (fun r => refers cv_conversation_id (conversations db) (pt_conversation_id r)
                       && may_refer ai_agent_id (identities db) (pt_agent_id r)) (participants db).

Definition message_in (db : AgentDb) (conversation_id message_id : str) : bool :=
  existsb (fun m => (ms_conversation_id m ==? conversation_id) && (ms_message_id m ==? message_id)) (messages db).
Definition messages_own (t : list MessageRow) : bool :=
  unique (fun r => Some (ms_message_id r)) t
  && unique (fun r => Some (ms_conversation_id r, ms_seq r)) t
  && forallb (fun r => Z.leb 1 (ms_seq r)) t.
Definition messages_ok (db : AgentDb) : bool :=
  messages_own (messages db)
  && forallb (fun r => refers cv_conversation_id (conversations db) (ms_conversation_id r)
                       && refers pt_participant_id (participants db) (ms_author_participant_id r)
                       && is_none_or (message_in db (ms_conversation_id r)) (ms_reply_to r)) (messages db).

Definition deliveries_own (t : list DeliveryRow) : bool :=
  unique (fun r => Some (dl_delivery_order r)) t
  && unique (fun r => Some (dl_delivery_id r)) t
  && unique (fun r => Some (dl_message_id r, dl_recipient_agent_id r)) t
  && forallb (fun r => Z.leb 1 (dl_message_seq r)) t.
Definition deliveries_ok (db : AgentDb) : bool :=
  deliveries_own (deliveries db)
  && forallb (fun r => message_in db (dl_conversation_id r) (dl_message_id r)
                       && refers ai_agent_id (identities db) (dl_recipient_agent_id r)
                       && may_refer ep_endpoint_id (endpoints db) (dl_consumed_by_endpoint_id r)) (deliveries db).

Definition idempotency_key_of (r : IdempotencyRow) : option (str * str * str) :=
  Some (ik_principal_digest r, ik_operation r, ik_key_hash r).
Definition comm_idempotency_own (t : list IdempotencyRow) : bool :=
  unique idempotency_key_of t.
Definition comm_idempotency_ok (db : AgentDb) : bool :=
  comm_idempotency_own (comm_idempotency db).

Definition no_claim (w : AgentWakeRecord) : bool :=
  is_none (wk_claimed_attempt_id w) && is_none (wk_claimed_endpoint_id w)
  && is_none (wk_claimed_controller_generation w) && is_none (wk_claim_lease_expires_at w).
Definition no_inbox_source (w : AgentWakeRecord) : bool :=
  is_none (wk_first_triggering_delivery_id w) && is_none (wk_latest_triggering_delivery_id w)
  && is_none (wk_latest_conversation_id w) && is_none (wk_latest_message_id w)
  && is_none (wk_inbox_high_watermark w) && is_none (wk_queued_delivery_count_snapshot w).
Definition wake_check (w : AgentWakeRecord) : bool :=
  is_none_or (Z.leb 1) (wk_inbox_high_watermark w)
  && is_none_or (Z.leb 1) (wk_queued_delivery_count_snapshot w)
  && Z.leb 1 (wk_revision w)
  && match wk_trigger_kind w with
     | InboxChanged =>
         is_some (wk_first_triggering_delivery_id w) && is_some (wk_latest_triggering_delivery_id w)
         && is_some (wk_latest_conversation_id w) && is_some (wk_latest_message_id w)
         && is_some (wk_inbox_high_watermark w) && is_some (wk_queued_delivery_count_snapshot w)
         && is_none (wk_source_task_id w) && is_none (wk_source_task_attempt_id w) && is_none (wk_source_event_id w)
     | AgentTaskAttemptTrigger =>
         no_inbox_source w
         && is_some (wk_source_task_id w) && is_some (wk_source_task_attempt_id w) && is_none (wk_source_event_id w)
     | AttentionEvent =>
         no_inbox_source w
         && is_none (wk_source_task_id w) && is_none (wk_source_task_attempt_id w) && is_some (wk_source_event_id w)
     end
  && match wk_state w with WakePending | WakeRetired => no_claim w | _ => true end
  && ((wk_state w !=? WakeConsumed)
      || (is_some (wk_consumed_at w) && is_some (wk_consumed_by_endpoint_id w)
          && is_some (wk_consumed_controller_generation w))).
Definition wakes_own (t : list AgentWakeRecord) : bool :=
  unique (fun w => Some (wk_wake_id w)) t
  && unique (fun w => if (wk_trigger_kind w ==? InboxChanged) && queueable (wk_state w)
                      then Some (wk_target_agent_id w) else None) t
  && unique (fun w => if wk_trigger_kind w ==? AgentTaskAttemptTrigger then wk_source_task_attempt_id w else None) t
  && unique (fun w => if wk_trigger_kind w ==? AttentionEvent then wk_source_event_id w else None) t
  && unique (fun w => if dispatched (wk_state w) then Some (wk_target_agent_id w) else None) t
  && forallb wake_check t.
Definition wakes_ok (db : AgentDb) : bool :=
  wakes_own (wakes db)
  && forallb (fun w => refers ai_agent_id (identities db) (wk_target_agent_id w)
                       && may_refer dl_delivery_id (deliveries db) (wk_first_triggering_delivery_id w)
                       && may_refer dl_delivery_id (deliveries db) (wk_latest_triggering_delivery_id w)
                       && may_refer cv_conversation_id (conversations db) (wk_latest_conversation_id w)
                       && may_refer ms_message_id (messages db) (wk_latest_message_id w)
                       && may_refer tk_task_id (agent_tasks db) (wk_source_task_id w)
                       && may_refer ta_attempt_id (task_attempts db) (wk_source_task_attempt_id w)
                       && may_refer ep_endpoint_id (endpoints db) (wk_claimed_endpoint_id w)
                       && may_refer ep_endpoint_id (endpoints db) (wk_consumed_by_endpoint_id w)) (wakes db).

Definition wake_attempts_own (t : list WakeAttemptRow) : bool :=
  unique (fun r => Some (wa_attempt_id r)) t
  && forallb (fun r => Z.leb 1 (wa_controller_generation r)) t.
Definition wake_attempts_ok (db : AgentDb) : bool :=
  wake_attempts_own (wake_attempts db)
  && forallb (fun r => refers wk_wake_id (wakes db) (wa_wake_id r)
                       && refers ep_endpoint_id (endpoints db) (wa_endpoint_id r)) (wake_attempts db).

Definition task_check (t : AgentTaskRow) : bool :=
  if task_terminal (tk_state t) then is_some (tk_terminal_attempt_id t) && is_some (tk_terminal_at t)
  else is_none (tk_terminal_attempt_id t) && is_none (tk_terminal_at t).
Definition agent_tasks_own (t : list AgentTaskRow) : bool :=
  unique (fun t => Some (tk_task_id t)) t
  && forallb task_check t.
Definition agent_tasks_ok (db : AgentDb) : bool :=
  agent_tasks_own (agent_tasks db)
  && forallb (fun t => may_refer ai_agent_id (identities db) (tk_assignee_agent_id t)
                       && may_refer cv_conversation_id (conversations db) (tk_source_conversation_id t)
                       && may_refer ms_message_id (messages db) (tk_source_message_id t)) (agent_tasks db).

Definition task_attempt_check (a : StoredAttempt) : bool :=
  Z.leb 1 (ta_attempt_number a) && Z.leb 1 (ta_attempt_controller_generation a)
  && (if ta_state a ==? AttemptActive then is_none (ta_terminal_at a) else is_some (ta_terminal_at a)).
Definition task_attempts_own (t : list StoredAttempt) : bool :=
  unique (fun a => Some (ta_attempt_id a)) t
  && unique (fun a => Some (ta_attempt_fence a)) t
  && unique (fun a => Some (ta_task_id a, ta_attempt_number a)) t
  && unique (fun a => if ta_state a ==? AttemptActive then Some (ta_task_id a) else None) t
  && forallb task_attempt_check t.
Definition task_attempts_ok (db : AgentDb) : bool :=
  task_attempts_own (task_attempts db)
  && forallb (fun a => refers tk_task_id (agent_tasks db) (ta_task_id a)
                       && refers ai_agent_id (identities db) (ta_assignee_agent_id a)) (task_attempts db).

Definition coding_runs_own (t : list AgentTaskCodingRunBindingRecord) : bool :=
  unique (fun r => Some (cb_attempt_id r)) t
  && unique (fun r => Some (cb_run_id r)) t.
Definition coding_runs_ok (db : AgentDb) : bool :=
  coding_runs_own (coding_runs db)
  && forallb (fun r => refers tk_task_id (agent_tasks db) (cb_task_id r)
                       && refers ta_attempt_id (task_attempts db) (cb_attempt_id r)) (coding_runs db).

Definition endpoint_execution_check (e : EndpointExecutionRow) : bool :=
  Z.eqb (Z.of_nat (length (ee_start_identity_fingerprint e))) 64
  && match ee_endpoint_id e, ee_endpoint_controller_generation e with
     | None, None => true
     | Some _, Some generation => Z.leb 1 generation
     | _, _ => false
     end.
Definition endpoint_executions_own (t : list EndpointExecutionRow) : bool :=
  unique (fun e => Some (ee_attempt_id e)) t
  && unique (fun e => Some (ee_wake_id e)) t
  && unique (fun e => Some (ee_task_id e, ee_attempt_id e)) t
  && forallb endpoint_execution_check t.
Definition endpoint_executions_ok (db : AgentDb) : bool :=
  endpoint_executions_own (endpoint_executions db)
  && forallb (fun e => refers tk_task_id (agent_tasks db) (ee_task_id e)
                       && refers ta_attempt_id (task_attempts db) (ee_attempt_id e)
                       && refers wk_wake_id (wakes db) (ee_wake_id e)
                       && may_refer ep_endpoint_id (endpoints db) (ee_endpoint_id e)) (endpoint_executions db).

Definition AGENT_ATTENTION_EVENT_KIND_AGENT_TASK_TERMINAL : str := lit "agent_task_terminal".
Definition attention_events_own (t : list AgentAttentionEventRecord) : bool :=
  unique (fun e => Some (av_event_id e)) t
  && unique (fun e => Some (av_kind e, av_goal_id e, av_task_attempt_id e)) t
  && forallb (fun e => (av_kind e ==? AGENT_ATTENTION_EVENT_KIND_AGENT_TASK_TERMINAL)
                       && task_terminal (av_terminal_task_state e)) t.
Definition attention_events_ok (db : AgentDb) : bool :=
  attention_events_own (attention_events db)
  && forallb (fun e => refers ai_agent_id (identities db) (av_target_agent_id e)
                       && refers go_goal_id (goals db) (av_goal_id e)
                       && refers tk_task_id (agent_tasks db) (av_task_id e)
                       && refers ta_attempt_id (task_attempts db) (av_task_attempt_id e)) (attention_events db).

Definition goal_check (g : GoalRow) : bool :=
  Z.leb 1 (go_revision g)
  && (if goal_terminal (go_lifecycle g) then is_some (go_terminal_at g)
      else is_none (go_terminal_at g) && is_none (go_terminal_reason g)).
Definition goals_own (t : list GoalRow) : bool :=
  unique (fun g => Some (go_goal_id g)) t
  && forallb goal_check t.
Definition goals_ok (db : AgentDb) : bool :=
  goals_own (goals db).
Definition correlations_own (t : list CorrelationRow) : bool :=
  unique (fun c => Some (gc_goal_id c, gc_kind c, gc_reference_id c)) t.
Definition correlations_ok (db : AgentDb) : bool :=
  correlations_own (goal_correlations db)
  && forallb (fun c => refers go_goal_id (goals db) (gc_goal_id c)) (goal_correlations db).
Definition goal_idempotency_own (t : list IdempotencyRow) : bool :=
  unique idempotency_key_of t.
Definition goal_idempotency_ok (db : AgentDb) : bool :=
  goal_idempotency_own (goal_idempotency db).

(** ** Tables: their rows and what SQLite checks when a statement writes them *)

Record Table (A : Type) : Type := mkTable {
  tget : AgentDb -> list A;
  tset : list A -> AgentDb -> AgentDb;
  tok : AgentDb -> bool
}.
Arguments mkTable {A} tget tset tok.
Arguments tget {A} t db.
Arguments tset {A} t rows db.
Arguments tok {A} t db.

Definition wc_agent_identities := mkTable identities (fun l db => db <| identities := l |>) identities_ok.
Definition wc_agent_endpoints := mkTable endpoints (fun l db => db <| endpoints := l |>) endpoints_ok.
Definition wc_conversations := mkTable conversations (fun l db => db <| conversations := l |>) conversations_ok.
Definition wc_conversation_participants := mkTable participants (fun l db => db <| participants := l |>) participants_ok.
Definition wc_conversation_messages := mkTable messages (fun l db => db <| messages := l |>) messages_ok.
Definition wc_agent_deliveries := mkTable deliveries (fun l db => db <| deliveries := l |>) deliveries_ok.
Definition wc_communication_idempotency :=
  mkTable comm_idempotency (fun l db => db <| comm_idempotency := l |>) comm_idempotency_ok.
Definition wc_agent_wakes := mkTable wakes (fun l db => db <| wakes := l |>) wakes_ok.
Definition wc_agent_wake_attempts := mkTable wake_attempts (fun l db => db <| wake_attempts := l |>) wake_attempts_ok.
Definition wc_agent_tasks := mkTable agent_tasks (fun l db => db <| agent_tasks := l |>) agent_tasks_ok.
Definition wc_agent_task_attempts := mkTable task_attempts (fun l db => db <| task_attempts := l |>) task_attempts_ok.
Definition wc_agent_task_coding_runs := mkTable coding_runs (fun l db => db <| coding_runs := l |>) coding_runs_ok.
Definition wc_agent_task_endpoint_executions :=
  mkTable endpoint_executions (fun l db => db <| endpoint_executions := l |>) endpoint_executions_ok.
Definition wc_agent_attention_events :=
  mkTable attention_events (fun l db => db <| attention_events := l |>) attention_events_ok.
Definition wc_goals := mkTable goals (fun l db => db <| goals := l |>) goals_ok.
Definition wc_goal_correlations := mkTable goal_correlations (fun l db => db <| goal_correlations := l |>) correlations_ok.
Definition wc_goal_idempotency := mkTable goal_idempotency (fun l db => db <| goal_idempotency := l |>) goal_idempotency_ok.
