(* ===== verification/AgentStore.v ===== *)
(** * AgentStore: what the operations of Agent collaboration share

    The errors, the validation of inputs, the statements, the idempotency records and the
    checks of ownership and of the current Endpoint (communication.rs).  Every reading of
    the clock and every generated id is an input: an operation names them by the order in
    which it takes them.  [expect] panics when its row is missing; the panic rolls back the
    transaction and is an error of its own here. *)
From S2P Require Import Prelude RustStr Sql ConnectorModel CodingAgent AgentModel.

(** ** Errors and principals *)

Record CommunicationStoreError : Type := mkCommError {
  ce_code : str;
  ce_message : str;
  ce_current_profile_revision : option Z
}.

Record GoalStoreError : Type := mkGoalError {
  ge_code : str;
  ge_message : str;
  ge_current_revision : option Z
}.

Record CommunicationPrincipal : Type := mkPrincipal {
  pr_kind : str;
  pr_digest : str
}.

Definition comm_error (code message : str) : CommunicationStoreError := mkCommError code message None.
Definition profile_changed (current : Z) : CommunicationStoreError :=
  mkCommError (lit "agent_profile_changed")
    (lit "Agent profile changed; current profile revision is " ++ fmt_Z current) (Some current).
Definition goal_error (code message : str) : GoalStoreError := mkGoalError code message None.
Definition revision_changed (current : Z) : GoalStoreError :=
  mkGoalError (lit "goal_revision_changed")
    (lit "Goal changed; current authoritative revision is " ++ fmt_Z current) (Some current).

(** What a failed statement, and a panic, end a call with. *)
Class StoreErr (E : Type) : Type := { unavailable : E; panicked : E }.
#[export] Instance comm_store_err : StoreErr CommunicationStoreError := {|
  unavailable := comm_error (lit "communication_store_unavailable") (lit "Durable communication store is unavailable");
  panicked := comm_error (lit "panic") []
|}.
#[export] Instance goal_store_err : StoreErr GoalStoreError := {|
  unavailable := goal_error (lit "goal_store_unavailable") (lit "Durable Goal store is unavailable");
  panicked := goal_error (lit "panic") []
|}.

(** ** Code that is not part of the program: SHA-256, the clock and random UUIDs *)

(** [digest_text(domain, value)]. *)
Class AgentDigest : Type := digest_text : str -> str -> str.

Record Env : Type := mkEnv {
  now_unix_ms : nat -> Z;
  uuid : nat -> str
}.
Definition new_id (prefix : str) (env : Env) (draw : nat) : str := prefix ++ uuid env draw.

(** ** Limits and prefixes *)

Definition DURABLE_AGENT_ID_PREFIX : str := lit "wc_dagent_".
Definition AGENT_ENDPOINT_ID_PREFIX : str := lit "wc_endpoint_".
Definition CONVERSATION_ID_PREFIX : str := lit "wc_conv_".
Definition CONVERSATION_PARTICIPANT_ID_PREFIX : str := lit "wc_participant_".
Definition CONVERSATION_MESSAGE_ID_PREFIX : str := lit "wc_cmsg_".
Definition AGENT_DELIVERY_ID_PREFIX : str := lit "wc_delivery_".
Definition MCP_APP_RECOVERY_FINGERPRINT_HEX_LEN : Z := 64.
Definition MCP_APP_CLIENT_WINDOW_KEY_HEX_LEN : Z := 64.
Definition COMMUNICATION_PRINCIPAL_DIGEST_PREFIX : str := lit "wc_commprincipal_".
Definition MAX_AGENT_HANDLE_CHARS : Z := 64.
Definition MAX_AGENT_DISPLAY_NAME_CHARS : Z := 128.
Definition MAX_AGENT_DESCRIPTION_BYTES : Z := 2048.
Definition MAX_AGENT_SPECIALTY_LABELS : Z := 16.
Definition MAX_AGENT_SPECIALTY_LABEL_CHARS : Z := 64.
Definition MAX_ENDPOINT_HOST_CHARS : Z := 64.
Definition MAX_ENDPOINT_ATTACHMENT_CHARS : Z := 128.
Definition MAX_CONVERSATION_TITLE_CHARS : Z := 200.
Definition MAX_CONVERSATION_AGENT_PARTICIPANTS : Z := 16.
Definition MAX_CONVERSATION_MESSAGE_BYTES : Z := 4096.
Definition MAX_COMMUNICATION_IDEMPOTENCY_KEY_CHARS : Z := 128.
Definition MAX_COMMUNICATION_LIST_LIMIT : Z := 100.
Definition MAX_DELIVERY_CONSUME_ITEMS : Z := 100.
Definition MAX_COMMUNICATION_PRINCIPAL_KIND_CHARS : Z := 64.
Definition DEFAULT_ENDPOINT_LEASE_MS : Z := 120000.
Definition MAX_DURABLE_AGENTS : Z := 4096.
Definition MAX_CONVERSATIONS : Z := 8192.
Definition MAX_MESSAGES_PER_CONVERSATION : Z := 100000.
Definition MAX_WAKE_REPLY_OPERATION_INDEX : Z := 31.

Definition chars (s : str) : Z := Z.of_nat (length s).

(** ** Validation *)

Abbreviation checked A := (result A CommunicationStoreError).

Definition is_lower_hex_byte (byte : N) : bool := is_ascii_digit byte || ((97 <=? byte)%N && (byte <=? 102)%N).
Definition lower_hex_of_len (n : Z) (s : str) : bool :=
  Z.eqb (str_len s) n && forallb is_lower_hex_byte (as_bytes s).

Definition validate_id (value prefix code : str) : checked unit :=
  match strip_prefix prefix value with
  | Some suffix =>
      if lower_hex_of_len 32 suffix then Ok tt else Err (comm_error code (lit "Invalid canonical id: " ++ value))
  | None => Err (comm_error code (lit "Invalid canonical id: " ++ value))
  end.

Definition validate_digest_id (value prefix code : str) : checked unit :=
  match strip_prefix prefix value with
  | Some suffix =>
      if lower_hex_of_len 64 suffix then Ok tt else Err (comm_error code (lit "Communication principal digest is invalid"))
  | None => Err (comm_error code (lit "Communication principal digest is invalid"))
  end.

(** Letters, digits and [_ - : .]. *)
Definition is_kind_char (c : char) : bool :=
  is_ascii_alphanumeric c || (c ==? 95%N) || (c ==? 45%N) || (c ==? 58%N) || (c ==? 46%N).

Definition validate_communication_principal (principal : CommunicationPrincipal) : checked unit :=
  let kind := trim (pr_kind principal) in
  bail? is_empty kind || Z.ltb MAX_COMMUNICATION_PRINCIPAL_KIND_CHARS (chars kind) || negb (forallb is_kind_char kind)
    with comm_error (lit "invalid_communication_principal") (lit "Communication principal kind is invalid");;
  validate_digest_id (pr_digest principal) COMMUNICATION_PRINCIPAL_DIGEST_PREFIX (lit "invalid_communication_principal").

Definition validate_nonempty_chars (value : str) (max_chars : Z) (code label : str) : checked str :=
  let value := trim value in
  bail? is_empty value || Z.ltb max_chars (chars value)
    with comm_error code (label ++ lit " must contain 1..=" ++ fmt_Z max_chars ++ lit " characters");;
  Ok value.

Definition validate_optional_chars (value : option str) (max_chars : Z) (code label : str) : checked (option str) :=
  match value with
  | None => Ok None
  | Some value =>
      let value := trim value in
      if is_empty value then Ok None
      else bail? Z.ltb max_chars (chars value)
             with comm_error code (label ++ lit " must contain at most " ++ fmt_Z max_chars ++ lit " characters");;
           Ok (Some value)
  end.

Definition validate_handle (value : str) : checked str :=
  let value := trim value in
  bail? is_empty value || Z.ltb MAX_AGENT_HANDLE_CHARS (chars value)
        || negb (forallb (fun c => is_ascii_alphanumeric c || (c ==? 46%N) || (c ==? 95%N) || (c ==? 45%N)) value)
    with comm_error (lit "invalid_agent_handle")
           (lit "Agent handle must use 1..=" ++ fmt_Z MAX_AGENT_HANDLE_CHARS ++ lit " ASCII letters, digits, '.', '_' or '-'");;
  Ok value.

Definition validate_display_name (value : str) : checked str :=
  validate_nonempty_chars value MAX_AGENT_DISPLAY_NAME_CHARS (lit "invalid_agent_display_name") (lit "Agent display_name").

Definition validate_description (value : str) : checked str :=
  let value := trim value in
  bail? Z.ltb MAX_AGENT_DESCRIPTION_BYTES (str_len value)
    with comm_error (lit "invalid_agent_description")
           (lit "Agent description exceeds " ++ fmt_Z MAX_AGENT_DESCRIPTION_BYTES ++ lit " UTF-8 bytes");;
  Ok value.

Definition validate_message_body (value : str) : checked str :=
  let value := trim value in
  bail? is_empty value || Z.ltb MAX_CONVERSATION_MESSAGE_BYTES (str_len value)
    with comm_error (lit "invalid_conversation_message_body")
           (lit "Conversation Message body must contain 1..=" ++ fmt_Z MAX_CONVERSATION_MESSAGE_BYTES ++ lit " UTF-8 bytes");;
  Ok value.

Definition validate_idempotency_key (value : str) : checked str :=
  validate_nonempty_chars value MAX_COMMUNICATION_IDEMPOTENCY_KEY_CHARS (lit "invalid_communication_idempotency_key")
    (lit "idempotency_key").

Definition bounded_limit (limit : Z) : checked Z :=
  bail? Z.eqb limit 0 || Z.ltb MAX_COMMUNICATION_LIST_LIMIT limit
    with comm_error (lit "invalid_communication_list_limit")
           (lit "limit must be within 1..=" ++ fmt_Z MAX_COMMUNICATION_LIST_LIMIT);;
  Ok limit.

Definition validate_mcp_app_recovery_fingerprint (fingerprint : str) : checked unit :=
  bail? negb (lower_hex_of_len MCP_APP_RECOVERY_FINGERPRINT_HEX_LEN fingerprint)
    with comm_error (lit "invalid_mcp_app_recovery_fingerprint")
           (lit "MCP App recovery fingerprint must be 64 lowercase hexadecimal characters");;
  Ok tt.
Definition validate_mcp_app_client_window_key (window_key : str) : checked unit :=
  bail? negb (lower_hex_of_len MCP_APP_CLIENT_WINDOW_KEY_HEX_LEN window_key)
    with comm_error (lit "invalid_mcp_app_client_window_key")
           (lit "MCP App ClientWindow key must be 64 lowercase hexadecimal characters");;
  Ok tt.
Definition validate_optional {A B : Type} (validate : A -> checked B) (value : option A) : checked unit :=
  match value with Some v => check? validate v;; Ok tt | None => Ok tt end.

(** A [BTreeSet] built by insertion, as its sorted list. *)
Fixpoint btree_insert (s : str) (l : list str) : list str :=
  match l with
  | [] => [s]
  | x :: l' => if x ==? s then l else if str_leb s x then s :: l else x :: btree_insert s l'
  end.

Fixpoint canonical_set (canonical : str -> checked str) (values set : list str) : checked (list str) :=
  match values with
  | [] => Ok set
  | value :: values => let? value := canonical value in canonical_set canonical values (btree_insert value set)
  end.

Definition trimmed_id (prefix code value : str) : checked str :=
  let value := trim value in
  check? validate_id value prefix code;;
  Ok value.

Definition canonicalize_agent_ids (values : list str) (require_nonempty : bool) : checked (list str) :=
  bail? Z.ltb MAX_CONVERSATION_AGENT_PARTICIPANTS (Z.of_nat (length values))
    with comm_error (lit "conversation_participant_limit_exceeded")
           (lit "A Conversation supports at most " ++ fmt_Z MAX_CONVERSATION_AGENT_PARTICIPANTS ++ lit " Agent participants");;
  let? canonical := canonical_set (trimmed_id DURABLE_AGENT_ID_PREFIX (lit "invalid_agent_id")) values [] in
  bail? require_nonempty && is_empty canonical
    with comm_error (lit "conversation_agent_participant_required")
           (lit "A Conversation requires at least one Agent participant");;
  Ok canonical.

Definition canonicalize_delivery_ids (values : list str) : checked (list str) :=
  bail? is_empty values || Z.ltb MAX_DELIVERY_CONSUME_ITEMS (Z.of_nat (length values))
    with comm_error (lit "invalid_delivery_ids")
           (lit "delivery_ids must contain 1..=" ++ fmt_Z MAX_DELIVERY_CONSUME_ITEMS ++ lit " values");;
  canonical_set (trimmed_id AGENT_DELIVERY_ID_PREFIX (lit "invalid_delivery_id")) values [].

Definition canonical_label (label : str) : checked str :=
  let label := trim label in
  bail? is_empty label || Z.ltb MAX_AGENT_SPECIALTY_LABEL_CHARS (chars label)
    with comm_error (lit "invalid_agent_specialty_label")
           (lit "Agent specialty labels must contain 1..=" ++ fmt_Z MAX_AGENT_SPECIALTY_LABEL_CHARS ++ lit " characters");;
  Ok label.
Definition canonicalize_specialty_labels (labels : list str) : checked (list str) :=
  bail? Z.ltb MAX_AGENT_SPECIALTY_LABELS (Z.of_nat (length labels))
    with comm_error (lit "agent_specialty_label_limit_exceeded")
           (lit "Agent Card supports at most " ++ fmt_Z MAX_AGENT_SPECIALTY_LABELS ++ lit " specialty labels");;
  canonical_set canonical_label labels [].

(** ** Statements *)

Abbreviation ctx := (tx AgentDb CommunicationStoreError).

Section Statements.
Context {E : Type} `{!StoreErr E}.

(** A statement that writes a table is undone, and fails, when a constraint would break. *)
Definition write_table {A : Type} (t : Table A) (rows : AgentDb -> list A) : tx AgentDb E unit := fun db =>
  let db' := tset t (rows db) db in
  if tok t db' then Ok (tt, db') else Err unavailable.

Definition execute_insert {A : Type} (t : Table A) (row : A) : tx AgentDb E unit :=
  write_table t (fun db => tget t db ++ [row]).

(** [UPDATE t SET upd WHERE sel], whose conditions may read other tables. *)
Definition execute_update {A : Type} (t : Table A) (sel : AgentDb -> A -> bool) (upd : A -> A) : tx AgentDb E nat :=
  changed ← gets (fun db => rows_matched (sel db) (tget t db));
  _ ← write_table t (fun db => rows_update (sel db) upd (tget t db));
  mret changed.

(** [query_row(...).optional()] on a unique key, and [SELECT EXISTS]. *)
Definition select_row {A : Type} (t : Table A) (sel : A -> bool) : tx AgentDb E (option A) :=
  gets (fun db => find sel (tget t db)).
Definition exists_row {A : Type} (t : Table A) (sel : A -> bool) : tx AgentDb E bool :=
  gets (fun db => existsb sel (tget t db)).
Definition count_rows {A : Type} (t : Table A) (sel : A -> bool) : tx AgentDb E Z :=
  gets (fun db => Z.of_nat (rows_matched sel (tget t db))).
(** [query_row] whose row must be there. *)
Definition query_row {A : Type} (t : Table A) (sel : A -> bool) : tx AgentDb E A :=
  row ← select_row t sel;
  or_fail row unavailable.
Definition expect {A : Type} (o : option A) : tx AgentDb E A := or_fail o panicked.

(** [for x in l { body }]. *)
Fixpoint for_each {A : Type} (l : list A) (body : nat -> A -> tx AgentDb E unit) (i : nat) : tx AgentDb E unit :=
  match l with
  | [] => mret tt
  | x :: l =>
      _ ← body i x;
      for_each l body (S i)
  end.
End Statements.

(** [ORDER BY key1, key2] on an integer and a text column. *)
Definition by_key {A : Type} (k1 : A -> Z) (k2 : A -> str) (a b : A) : bool :=
  Z.ltb (k1 a) (k1 b) || (Z.eqb (k1 a) (k1 b) && str_leb (k2 a) (k2 b)).
(** [SELECT ... WHERE sel ORDER BY le LIMIT 1]. *)
Definition first_row {A : Type} (le : A -> A -> bool) (sel : A -> bool) (t : list A) : option A :=
  head (sort_by le (List.filter sel t)).
(** [LIMIT limit OFFSET offset]; a negative limit, and a negative offset, have no effect. *)
Definition page {A : Type} (limit offset : Z) (l : list A) : list A :=
  limit_rows limit (drop (Z.to_nat (as_i64 offset)) l).

Definition owned_by (principal : CommunicationPrincipal) (kind digest : str) : bool :=
  (kind ==? pr_kind principal) && (digest ==? pr_digest principal).

(** ** Idempotency records *)

Section Idempotency.
Context `{!AgentDigest}.

Definition key_matches (domain : str) (principal : CommunicationPrincipal) (operation idempotency_key : str)
  (r : IdempotencyRow) : bool :=
  (ik_principal_digest r ==? pr_digest principal) && (ik_operation r ==? operation)
  && (ik_key_hash r ==? digest_text domain idempotency_key).

Definition COMMUNICATION_KEY_DOMAIN : str := lit "webcodex.communication.idempotency-key.v1".

Definition lookup_idempotent_resource (principal : CommunicationPrincipal) (operation idempotency_key request_hash : str)
  : ctx (option str) :=
  existing ← select_row wc_communication_idempotency (key_matches COMMUNICATION_KEY_DOMAIN principal operation idempotency_key);
  match existing with
  | None => mret None
  | Some r =>
      if ik_request_hash r ==? request_hash then mret (Some (ik_resource_id r))
      else fail (comm_error (lit "communication_idempotency_conflict")
                   (lit "Idempotency key was already used with a different request"))
  end.

Definition record_idempotent_resource (principal : CommunicationPrincipal)
  (operation idempotency_key request_hash resource_id : str) (now : Z) : ctx unit :=
  execute_insert wc_communication_idempotency
    (mkIdempotency (pr_digest principal) operation (digest_text COMMUNICATION_KEY_DOMAIN idempotency_key) request_hash
       resource_id now).

(** [digest_json]. *)
Definition digest_json `{!JsonText} (value : Value) : str :=
  digest_text (lit "webcodex.communication.request.v1") (json_to_string value).
End Idempotency.

(** ** Agents and Endpoints *)

Record DurableAgentIdentity : Type := mkDurableAgent {
  da_agent_id : str;
  da_handle : str;
  da_display_name : str;
  da_description : str;
  da_specialty_labels : list str;
  da_profile_revision : Z;
  da_created_at : Z;
  da_updated_at : Z;
  da_current_controller_generation : Z;
  da_active_endpoint_count : Z;
  da_queued_delivery_count : Z;
  da_unresolved_wake_count : Z;
  da_latest_wake_id : option str;
  da_latest_wake_state : option str
}.

Record AgentEndpointRecord : Type := mkEndpointRecord {
  er_endpoint_id : str;
  er_agent_id : str;
  er_host : str;
  er_client_attachment_id : option str;
  er_wake_capable : bool;
  er_controller_generation : Z;
  er_lifecycle : AgentEndpointLifecycle;
  er_attached_at : Z;
  er_last_seen_at : Z;
  er_lease_expires_at : Z;
  er_expired_at : option Z;
  er_detached_at : option Z
}.

(** [ORDER BY created_at_unix_ms DESC, wake_id DESC LIMIT 1]. *)
Definition latest_wake (agent_id : str) (db : AgentDb) : option AgentWakeRecord :=
  first_row (fun a b => by_key wk_created_at wk_wake_id b a) (fun w => wk_target_agent_id w ==? agent_id) (wakes db).

Definition row_to_agent (now : Z) (db : AgentDb) (a : AgentIdentityRow) : DurableAgentIdentity :=
  mkDurableAgent (ai_agent_id a) (ai_handle a) (ai_display_name a) (ai_description a) (ai_specialty_labels a)
    (ai_profile_revision a) (ai_created_at a) (ai_updated_at a) (ai_current_controller_generation a)
    (Z.of_nat (rows_matched (fun e => (ep_agent_id e ==? ai_agent_id a) && (ep_lifecycle e ==? EndpointAttached)
                                      && Z.eqb (ep_controller_generation e) (ai_current_controller_generation a)
                                      && Z.ltb now (ep_lease_expires_at e)) (endpoints db)))
    (Z.of_nat (rows_matched (fun d => (dl_recipient_agent_id d ==? ai_agent_id a) && (dl_state d ==? DeliveryQueued))
                 (deliveries db)))
    (Z.of_nat (rows_matched (fun w => (wk_target_agent_id w ==? ai_agent_id a) && negb (resolved (wk_state w))) (wakes db)))
    (wk_wake_id <$> latest_wake (ai_agent_id a) db)
    ((fun w => wake_state_as_str (wk_state w)) <$> latest_wake (ai_agent_id a) db).

Definition load_agent (agent_id : str) (now : Z) : ctx (option DurableAgentIdentity) :=
  gets (fun db => row_to_agent now db <$> find (fun a => ai_agent_id a ==? agent_id) (identities db)).

Definition row_to_endpoint (e : AgentEndpointRow) : AgentEndpointRecord :=
  mkEndpointRecord (ep_endpoint_id e) (ep_agent_id e) (ep_host e) (ep_client_attachment_id e) (ep_wake_capable e)
    (ep_controller_generation e) (ep_lifecycle e) (ep_attached_at e) (ep_last_seen_at e) (ep_lease_expires_at e)
    (ep_expired_at e) (ep_detached_at e).

Definition load_endpoint (endpoint_id : str) : ctx (option AgentEndpointRecord) :=
  row ← select_row wc_agent_endpoints (fun e => ep_endpoint_id e ==? endpoint_id);
  mret (row_to_endpoint <$> row).

Definition load_endpoint_for_principal (principal : CommunicationPrincipal) (endpoint_id : str)
  : ctx (option AgentEndpointRecord) :=
  row ← select_row wc_agent_endpoints
          (fun e => (ep_endpoint_id e ==? endpoint_id)
                    && owned_by principal (ep_attachment_principal_kind e) (ep_attachment_principal_digest e));
  mret (row_to_endpoint <$> row).

Definition require_agent_owner (principal : CommunicationPrincipal) (agent_id : str) : ctx unit :=
  _ ← lift (validate_id agent_id DURABLE_AGENT_ID_PREFIX (lit "invalid_agent_id"));
  owned ← exists_row wc_agent_identities
            (fun a => (ai_agent_id a ==? agent_id)
                      && owned_by principal (ai_owner_principal_kind a) (ai_owner_principal_digest a));
  reject (negb owned) (comm_error (lit "agent_not_found") (lit "Agent identity does not exist")).

(** [SELECT current_controller_generation FROM wc_agent_identities WHERE agent_id = ?1]. *)
Definition current_generation (agent_id : str) : ctx Z :=
  a ← query_row wc_agent_identities (fun a => ai_agent_id a ==? agent_id);
  mret (ai_current_controller_generation a).

Definition require_current_endpoint (principal : CommunicationPrincipal) (agent_id endpoint_id : str)
  (expected_controller_generation : option Z) (now : Z) : ctx AgentEndpointRecord :=
  _ ← lift (validate_id agent_id DURABLE_AGENT_ID_PREFIX (lit "invalid_agent_id"));
  _ ← lift (validate_id endpoint_id AGENT_ENDPOINT_ID_PREFIX (lit "invalid_endpoint_id"));
  _ ← reject (is_some_and (fun g => Z.ltb g 1) expected_controller_generation)
        (comm_error (lit "invalid_controller_generation") (lit "expected_controller_generation must be at least 1"));
  found ← load_endpoint_for_principal principal endpoint_id;
  row ← or_fail found (comm_error (lit "endpoint_not_found") (lit "Agent Endpoint does not exist"));
  _ ← reject (er_agent_id row !=? agent_id)
        (comm_error (lit "endpoint_agent_mismatch") (lit "Agent Endpoint is attached to a different Agent"));
  _ ← match er_lifecycle row with
      | EndpointDetached => fail (comm_error (lit "endpoint_detached") (lit "Agent Endpoint is detached"))
      | EndpointExpired => fail (comm_error (lit "endpoint_expired") (lit "Agent Endpoint is expired or stale"))
      | EndpointAttached => mret tt
      end;
  _ ← reject (Z.leb (er_lease_expires_at row) now)
        (comm_error (lit "endpoint_expired") (lit "Agent Endpoint lease has expired"));
  current ← current_generation agent_id;
  _ ← reject (negb (Z.eqb (er_controller_generation row) current)
              || is_some_and (fun g => negb (Z.eqb g (er_controller_generation row))) expected_controller_generation)
        (comm_error (lit "endpoint_generation_stale") (lit "Agent Endpoint controller generation is stale"));
  mret row.
