(* ===== verification/AgentCore.v ===== *)
(** * AgentCore: the statements AgentTasks and Wakes share

    The records of agent_task.rs as they are read, the check that a caller controls the
    current Attempt, and the statements that expire an Attempt, replace its controller
    and retire the Wake of an execution that was not dispatched. *)
From S2P Require Import Prelude RustStr Sql ConnectorModel CodingAgent AgentModel AgentStore.

Definition AGENT_TASK_ID_PREFIX : str := lit "wc_agent_task_".
Definition AGENT_TASK_ATTEMPT_ID_PREFIX : str := lit "wc_agent_task_attempt_".
Definition AGENT_TASK_ATTEMPT_FENCE_PREFIX : str := lit "wc_agent_task_fence_".
Definition DEFAULT_AGENT_TASK_ATTEMPT_LEASE_MS : Z := 60000.
Definition AGENT_TASK_ENDPOINT_TAKEOVER_LEASE_MS : Z := 30 * 60000.

(** ** Records *)

Record AgentTaskEndpointExecutionRecord : Type := mkExecutionRecord {
  xe_task_id : str;
  xe_attempt_id : str;
  xe_wake_id : str;
  xe_wake_state : AgentWakeState;
  xe_endpoint_id : option str;
  xe_endpoint_controller_generation : option Z;
  xe_created_at : Z;
  xe_updated_at : Z
}.

Record AgentTaskAttemptRecord : Type := mkAttemptRecord {
  tr_attempt_id : str;
  tr_task_id : str;
  tr_attempt_number : Z;
  tr_assignee_agent_id : str;
  tr_state : AgentTaskAttemptState;
  tr_lease_expires_at : Z;
  tr_lease_active : bool;
  tr_attempt_controller_generation : Z;
  tr_created_at : Z;
  tr_started_at : Z;
  tr_terminal_at : option Z;
  tr_terminal_result : option str;
  tr_terminal_reason : option str
}.

Record AgentTaskSummary : Type := mkTaskSummary {
  su_task_id : str;
  su_assignee_agent_id : option str;
  su_title : str;
  su_source_conversation_id : option str;
  su_source_message_id : option str;
  su_referenced_project_id : option str;
  su_state : AgentTaskState;
  su_created_at : Z;
  su_updated_at : Z;
  su_terminal_at : option Z;
  su_latest_attempt : option AgentTaskAttemptRecord;
  su_execution_bound : bool;
  su_execution_kind : option AgentTaskExecutionKind;
  su_execution_status : option AgentTaskExecutionStatus;
  su_recovery_kind : AgentTaskExecutionRecoveryKind
}.

Record AgentTaskDetail : Type := mkTaskDetail {
  td_summary : AgentTaskSummary;
  td_instruction : str
}.


Definition binding_execution_status (b : AgentTaskCodingRunBindingRecord) : AgentTaskExecutionStatus :=
  match cb_dispatch_state b with
  | DispatchPrepared | DispatchNotStarted => StatusNotStarted
  | DispatchOutcomeUnknown => StatusOutcomeUnknown
  | DispatchTerminal => StatusTerminal
  | DispatchBound =>
      match cb_last_observed_run_state b with
      | Some RunWaitingPermission => StatusWaitingPermission
      | Some RunLost => StatusOutcomeUnknown
      | Some (RunCompleted | RunFailed | RunCancelled) => StatusTerminal
      | _ => StatusActive
      end
  end.

Definition binding_recovery_kind (b : AgentTaskCodingRunBindingRecord) : AgentTaskExecutionRecoveryKind :=
  match cb_dispatch_state b with
  | DispatchPrepared | DispatchNotStarted | DispatchTerminal => RecoverNone
  | DispatchOutcomeUnknown => RecoverReconcile
  | DispatchBound =>
      match binding_execution_status b with
      | StatusActive | StatusWaitingPermission => RecoverObserve
      | StatusOutcomeUnknown | StatusTerminal => RecoverReconcile
      | StatusNotStarted => RecoverNone
      end
  end.

Definition endpoint_execution_status (e : AgentTaskEndpointExecutionRecord) : AgentTaskExecutionStatus :=
  match xe_wake_state e with
  | WakePending | WakeClaimed => StatusNotStarted
  | WakePrepared | WakeDelivered | WakeConsumed => StatusActive
  | WakeDeliveryUnknown => StatusOutcomeUnknown
  | WakeRetired => StatusTerminal
  end.

Definition attempt_effective_state (a : StoredAttempt) (now : Z) : AgentTaskAttemptState :=
  if (ta_state a ==? AttemptActive) && Z.leb (ta_lease_expires_at a) now then AttemptExpired else ta_state a.

Definition attempt_record (a : StoredAttempt) (now : Z) : AgentTaskAttemptRecord :=
  let state := attempt_effective_state a now in
  mkAttemptRecord (ta_attempt_id a) (ta_task_id a) (ta_attempt_number a) (ta_assignee_agent_id a) state
    (ta_lease_expires_at a) (state ==? AttemptActive) (ta_attempt_controller_generation a) (ta_created_at a)
    (ta_started_at a) (ta_terminal_at a) (ta_terminal_result a) (ta_terminal_reason a).

Record StoredTask : Type := mkStoredTask {
  sk_task_id : str;
  sk_assignee_agent_id : option str;
  sk_title : str;
  sk_instruction : str;
  sk_source_conversation_id : option str;
  sk_source_message_id : option str;
  sk_referenced_project_id : option str;
  sk_stored_state : AgentTaskState;
  sk_created_at : Z;
  sk_updated_at : Z;
  sk_terminal_at : option Z;
  sk_latest_attempt : option StoredAttempt;
  sk_latest_coding_run : option AgentTaskCodingRunBindingRecord;
  sk_latest_endpoint_execution : option AgentTaskEndpointExecutionRecord
}.

#[export] Instance eta_mkStoredTask : Eta StoredTask := fun x =>
  mkStoredTask (sk_task_id x) (sk_assignee_agent_id x) (sk_title x) (sk_instruction x)
    (sk_source_conversation_id x) (sk_source_message_id x) (sk_referenced_project_id x) (sk_stored_state x)
    (sk_created_at x) (sk_updated_at x) (sk_terminal_at x) (sk_latest_attempt x) (sk_latest_coding_run x)
    (sk_latest_endpoint_execution x).

Definition run_blocks_replacement (run : option AgentTaskCodingRunBindingRecord) : bool :=
  is_some_and (fun b => blocks_replacement (cb_dispatch_state b)) run.

Definition task_effective_state (t : StoredTask) (now : Z) : AgentTaskState :=
  if (sk_stored_state t ==? TaskActive)
     && is_some_and (fun a => attempt_effective_state a now ==? AttemptExpired) (sk_latest_attempt t)
     && negb (run_blocks_replacement (sk_latest_coding_run t))
  then TaskReady else sk_stored_state t.

Definition task_summary (t : StoredTask) (now : Z) : AgentTaskSummary :=
  let attempt_terminal := is_some_and (fun a => attempt_effective_state a now !=? AttemptActive) (sk_latest_attempt t) in
  let endpoint_status := (fun e => if attempt_terminal then StatusTerminal else endpoint_execution_status e)
                           <$> sk_latest_endpoint_execution t in
  mkTaskSummary (sk_task_id t) (sk_assignee_agent_id t) (sk_title t) (sk_source_conversation_id t)
    (sk_source_message_id t) (sk_referenced_project_id t) (task_effective_state t now) (sk_created_at t)
    (sk_updated_at t) (sk_terminal_at t) ((fun a => attempt_record a now) <$> sk_latest_attempt t)
    (is_some (sk_latest_coding_run t) || is_some (sk_latest_endpoint_execution t))
    (if is_some (sk_latest_coding_run t) then Some ByCodingAgentRun
     else if is_some (sk_latest_endpoint_execution t) then Some ByAgentEndpoint else None)
    (or_else (binding_execution_status <$> sk_latest_coding_run t) endpoint_status)
    (unwrap_or RecoverNone (binding_recovery_kind <$> sk_latest_coding_run t)).

Definition task_detail (t : StoredTask) (now : Z) : AgentTaskDetail :=
  mkTaskDetail (task_summary t now) (sk_instruction t).

Definition task_terminal_error : CommunicationStoreError :=
  comm_error (lit "agent_task_terminal") (lit "AgentTask is terminal and cannot start or mutate execution ownership").

(** ** Reads *)

Definition load_attempt_for_task (task_id attempt_id : str) : ctx (option StoredAttempt) :=
  _ ← lift (validate_id attempt_id AGENT_TASK_ATTEMPT_ID_PREFIX (lit "invalid_agent_task_attempt_id"));
  select_row wc_agent_task_attempts (fun a => (ta_attempt_id a ==? attempt_id) && (ta_task_id a ==? task_id)).

(** The execution of an Attempt with the state of its Wake. *)
Definition execution_record (db : AgentDb) (e : EndpointExecutionRow) : option AgentTaskEndpointExecutionRecord :=
  (fun w => mkExecutionRecord (ee_task_id e) (ee_attempt_id e) (ee_wake_id e) (wk_state w) (ee_endpoint_id e)
              (ee_endpoint_controller_generation e) (ee_created_at e) (ee_updated_at e))
    <$> find (fun w => wk_wake_id w ==? ee_wake_id e) (wakes db).
Definition load_endpoint_execution_for_attempt (task_id attempt_id : str) : ctx (option AgentTaskEndpointExecutionRecord) :=
  gets (fun db => find (fun e => (ee_task_id e ==? task_id) && (ee_attempt_id e ==? attempt_id)) (endpoint_executions db)
                  ≫= execution_record db).

Definition load_coding_run_binding_for_attempt (task_id attempt_id : str) : ctx (option AgentTaskCodingRunBindingRecord) :=
  select_row wc_agent_task_coding_runs (fun r => (cb_task_id r ==? task_id) && (cb_attempt_id r ==? attempt_id)).

Definition load_owned_task (principal : CommunicationPrincipal) (task_id : str) : ctx StoredTask :=
  _ ← lift (validate_id task_id AGENT_TASK_ID_PREFIX (lit "invalid_agent_task_id"));
  found ← select_row wc_agent_tasks
            (fun t => (tk_task_id t ==? task_id) && owned_by principal (tk_owner_principal_kind t) (tk_owner_principal_digest t));
  row ← or_fail found (comm_error (lit "agent_task_not_found") (lit "AgentTask does not exist"));
  let stored := mkStoredTask (tk_task_id row) (tk_assignee_agent_id row) (tk_title row) (tk_instruction row)
                  (tk_source_conversation_id row) (tk_source_message_id row) (tk_referenced_project_id row)
                  (tk_state row) (tk_created_at row) (tk_updated_at row) (tk_terminal_at row) in
  match tk_latest_attempt_id row with
  | None => mret (stored None None None)
  | Some attempt_id =>
      found ← load_attempt_for_task task_id attempt_id;
      latest_attempt ← or_fail found (comm_error (lit "agent_task_storage_invariant") (lit "AgentTask latest Attempt is missing"));
      latest_coding_run ← load_coding_run_binding_for_attempt task_id (ta_attempt_id latest_attempt);
      latest_endpoint_execution ← load_endpoint_execution_for_attempt task_id (ta_attempt_id latest_attempt);
      mret (stored (Some latest_attempt) latest_coding_run latest_endpoint_execution)
  end.

(** ** The current Attempt *)

Definition stale_attempt (message : str) : CommunicationStoreError := comm_error (lit "agent_task_attempt_stale") message.
Definition attempt_not_found (message : str) : CommunicationStoreError :=
  comm_error (lit "agent_task_attempt_not_found") message.

Definition require_current_attempt (task : StoredTask) (attempt_id assignee_agent_id attempt_fence : str)
  (attempt_controller_generation now : Z) : ctx StoredAttempt :=
  _ ← reject (task_terminal (sk_stored_state task)) task_terminal_error;
  _ ← reject ((ta_attempt_id <$> sk_latest_attempt task) !=? Some attempt_id)
        (stale_attempt (lit "AgentTaskAttempt is not the latest authoritative Attempt"));
  _ ← reject (sk_assignee_agent_id task !=? Some assignee_agent_id)
        (comm_error (lit "agent_task_assignee_mismatch")
           (lit "AgentTask current assignee does not match the Attempt caller assertion"));
  found ← load_attempt_for_task (sk_task_id task) attempt_id;
  attempt ← or_fail found (attempt_not_found (lit "AgentTaskAttempt does not exist"));
  _ ← reject ((ta_assignee_agent_id attempt !=? assignee_agent_id) || (ta_attempt_fence attempt !=? attempt_fence)
              || negb (Z.eqb (ta_attempt_controller_generation attempt) attempt_controller_generation))
        (stale_attempt (lit "AgentTaskAttempt fence, assignee, or controller generation is stale"));
  _ ← reject ((ta_state attempt !=? AttemptActive) || Z.leb (ta_lease_expires_at attempt) now)
        (stale_attempt (lit "AgentTaskAttempt is terminal, superseded, or its lease has expired"));
  mret attempt.

Definition touch_task (task_id : str) (now : Z) : ctx unit :=
  _ ← execute_update wc_agent_tasks (fun _ t => tk_task_id t ==? task_id)
        (fun t => t <| tk_updated_at := Z.max (tk_updated_at t) now |>);
  mret tt.

Definition replace_agent_task_attempt_controller_in_transaction (principal : CommunicationPrincipal)
  (task_id attempt_id assignee_agent_id attempt_fence : str) (expected_controller_generation now : Z)
  : ctx AgentTaskAttemptRecord :=
  task ← load_owned_task principal task_id;
  attempt ← require_current_attempt task attempt_id assignee_agent_id attempt_fence expected_controller_generation now;
  let next_generation := i64_sat_add (ta_attempt_controller_generation attempt) 1 in
  _ ← execute_update wc_agent_task_attempts (fun _ a => ta_attempt_id a ==? attempt_id)
        (fun a => a <| ta_attempt_controller_generation := next_generation |>);
  _ ← touch_task task_id now;
  found ← load_attempt_for_task task_id attempt_id;
  attempt ← or_fail found (attempt_not_found (lit "AgentTaskAttempt disappeared after controller replacement"));
  mret (attempt_record attempt now).

(** ** The end of an Attempt *)

Definition blocking_execution_error (binding : option AgentTaskCodingRunBindingRecord) : option CommunicationStoreError :=
  match opt_filter (fun b => blocks_replacement (cb_dispatch_state b)) binding with
  | None => None
  | Some b =>
      if (cb_dispatch_state b ==? DispatchOutcomeUnknown) || (cb_last_observed_run_state b ==? Some RunLost)
      then Some (comm_error (lit "agent_task_execution_outcome_unknown")
                   (lit "AgentTask has a CodingAgent execution whose outcome is unresolved; reconcile the exact bound Run before replacement"))
      else Some (comm_error (lit "agent_task_execution_active")
                   (lit "AgentTask has a bound CodingAgent execution that must be reconciled before replacement"))
  end.

Definition clear_claim (w : AgentWakeRecord) : AgentWakeRecord :=
  w <| wk_claimed_attempt_id := None |> <| wk_claimed_endpoint_id := None |>
    <| wk_claimed_controller_generation := None |> <| wk_claim_lease_expires_at := None |>.
(** [state = s, revision = revision + 1, updated_at = MAX(updated_at, now)]. *)
Definition move_wake (s : AgentWakeState) (now : Z) (w : AgentWakeRecord) : AgentWakeRecord :=
  w <| wk_state := s |> <| wk_revision := (wk_revision w + 1)%Z |> <| wk_updated_at := Z.max (wk_updated_at w) now |>.
Definition unclaim_wake (s : AgentWakeState) (now : Z) (w : AgentWakeRecord) : AgentWakeRecord :=
  clear_claim (move_wake s now w).
Definition revoke_attempt (now : Z) (a : WakeAttemptRow) : WakeAttemptRow :=
  a <| wa_state := WaRevoked |> <| wa_revoked_at := coalesce (wa_revoked_at a) (Some now) |>.
Definition clear_carrier (now : Z) (e : EndpointExecutionRow) : EndpointExecutionRow :=
  e <| ee_endpoint_id := None |> <| ee_endpoint_controller_generation := None |>
    <| ee_updated_at := Z.max (ee_updated_at e) now |>.

(** [wake_id IN (SELECT wake_id FROM wc_agent_wakes WHERE sel)]. *)
Definition wake_in (db : AgentDb) (sel : AgentWakeRecord -> bool) (wake_id : str) : bool :=
  existsb (fun w => (wk_wake_id w ==? wake_id) && sel w) (wakes db).

Definition retire_pre_dispatch_endpoint_execution_for_attempt (attempt_id : str) (now : Z) : ctx unit :=
  _ ← execute_update wc_agent_wake_attempts
        (fun db a => (wa_state a ==? WaClaimed)
                     && wake_in db (fun w => existsb (fun e => (ee_wake_id e ==? wk_wake_id w) && (ee_attempt_id e ==? attempt_id))
                                                (endpoint_executions db)
                                             && (wk_trigger_kind w ==? AgentTaskAttemptTrigger)
                                             && (wk_state w ==? WakeClaimed)) (wa_wake_id a))
        (revoke_attempt now);
  _ ← execute_update wc_agent_task_endpoint_executions
        (fun db e => (ee_attempt_id e ==? attempt_id)
                     && wake_in db (fun w => (wk_trigger_kind w ==? AgentTaskAttemptTrigger) && queueable (wk_state w)) (ee_wake_id e))
        (clear_carrier now);
  _ ← execute_update wc_agent_wakes
        (fun _ w => (wk_trigger_kind w ==? AgentTaskAttemptTrigger) && (wk_source_task_attempt_id w ==? Some attempt_id)
                    && queueable (wk_state w))
        (unclaim_wake WakeRetired now);
  mret tt.

Definition materialize_expired_latest_attempt (task : StoredTask) (now : Z) : ctx StoredTask :=
  match sk_latest_attempt task with
  | None => mret task
  | Some attempt =>
      if (ta_state attempt !=? AttemptActive) || Z.ltb now (ta_lease_expires_at attempt) then mret task
      else
        _ ← execute_update wc_agent_task_attempts
              (fun _ a => (ta_attempt_id a ==? ta_attempt_id attempt) && (ta_state a ==? AttemptActive))
              (fun a => a <| ta_state := AttemptExpired |> <| ta_terminal_at := Some now |>);
        let blocked := run_blocks_replacement (sk_latest_coding_run task) in
        _ ← when (negb blocked)
              (_ ← execute_update wc_agent_tasks (fun _ t => (tk_task_id t ==? sk_task_id task) && (tk_state t ==? TaskActive))
                     (fun t => t <| tk_state := TaskReady |> <| tk_updated_at := Z.max (tk_updated_at t) now |>);
               mret tt);
        _ ← retire_pre_dispatch_endpoint_execution_for_attempt (ta_attempt_id attempt) now;
        mret (task <| sk_stored_state := if blocked then sk_stored_state task else TaskReady |>
                   <| sk_latest_attempt := Some (attempt <| ta_state := AttemptExpired |> <| ta_terminal_at := Some now |>) |>
                   <| sk_updated_at := Z.max (sk_updated_at task) now |>)
  end.

Definition validate_attempt_mutation_inputs (principal : CommunicationPrincipal)
  (task_id attempt_id assignee_agent_id attempt_fence : str) (attempt_controller_generation : Z) : checked unit :=
  check? validate_communication_principal principal;;
  check? validate_id task_id AGENT_TASK_ID_PREFIX (lit "invalid_agent_task_id");;
  check? validate_id attempt_id AGENT_TASK_ATTEMPT_ID_PREFIX (lit "invalid_agent_task_attempt_id");;
  check? validate_id assignee_agent_id DURABLE_AGENT_ID_PREFIX (lit "invalid_agent_id");;
  check? validate_id attempt_fence AGENT_TASK_ATTEMPT_FENCE_PREFIX (lit "invalid_agent_task_attempt_fence");;
  bail? Z.ltb attempt_controller_generation 1
    with comm_error (lit "invalid_agent_task_attempt_controller_generation")
           (lit "attempt_controller_generation must be at least 1");;
  Ok tt.

(** * Wakes, their Attempts and the attention of a terminal task

    The statements of agent_wake.rs and agent_attention.rs that the operations share: a
    Wake for a queued delivery, the loss of an Endpoint, the release of expired claims,
    the carrier of an AgentTask's Wake, the exact claim a caller must hold, and the
    envelope a Host receives. *)

Definition AGENT_WAKE_ID_PREFIX : str := lit "wc_wake_".
Definition AGENT_WAKE_ATTEMPT_ID_PREFIX : str := lit "wc_wake_attempt_".
Definition AGENT_WAKE_CLAIM_FENCE_PREFIX : str := lit "wc_wake_claim_".
Definition AGENT_WAKE_CONSUME_TOKEN_PREFIX : str := lit "wc_wake_consume_".
Definition DEFAULT_WAKE_CLAIM_LEASE_MS : Z := 30000.
Definition MAX_ADAPTER_KIND_CHARS : Z := 64.
Definition AGENT_ATTENTION_EVENT_ID_PREFIX : str := lit "wc_attention_event_".
Definition MAX_GOAL_CORRELATIONS : Z := 64.

Definition CLAIM_FENCE_DOMAIN : str := lit "webcodex.agent-wake.claim-fence.v1".
Definition CONSUME_TOKEN_DOMAIN : str := lit "webcodex.agent-wake.consume-token.v1".

(** A Wake as every [INSERT] writes it: pending, unclaimed, its first revision. *)
Definition new_wake (wake_id target_agent_id : str) (trigger : WakeTrigger)
  (first latest conversation message : option str) (watermark queued : option Z)
  (task attempt event : option str) (now : Z) : AgentWakeRecord :=
  mkWake wake_id target_agent_id trigger first latest conversation message watermark queued task attempt event
    WakePending 1 now now None None None None None None None.

Definition load_wake (wake_id : str) : ctx (option AgentWakeRecord) :=
  select_row wc_agent_wakes (fun w => wk_wake_id w ==? wake_id).

Definition load_attempt (attempt_id : str) : ctx (option WakeAttemptRow) :=
  select_row wc_agent_wake_attempts (fun a => wa_attempt_id a ==? attempt_id).

(** ** Attention events (agent_attention.rs) *)

Definition attention_goals (principal : CommunicationPrincipal) (task_id : str) (db : AgentDb) : list str :=
  limit_rows (MAX_GOAL_CORRELATIONS + 1)
    (sort_by str_leb
       (flat_map (fun c => if (gc_kind c ==? CorrelatesAgentTask) && (gc_reference_id c ==? task_id)
                           then map go_goal_id
                                  (List.filter (fun g => (go_goal_id g ==? gc_goal_id c)
                                                         && owned_by principal (go_owner_principal_kind g) (go_owner_principal_digest g)
                                                         && (go_lifecycle g ==? GoalActive)) (goals db))
                           else []) (goal_correlations db))).

Definition create_agent_task_terminal_attention_in_transaction (env : Env) (principal : CommunicationPrincipal)
  (task_id task_attempt_id target_agent_id : str) (terminal_task_state : AgentTaskState) (now : Z) : ctx nat :=
  _ ← reject (negb (task_terminal terminal_task_state))
        (comm_error (lit "agent_attention_event_invariant")
           (lit "Terminal Agent attention can only be created for a terminal AgentTask"));
  goal_ids ← gets (attention_goals principal task_id);
  _ ← reject (Z.ltb MAX_GOAL_CORRELATIONS (Z.of_nat (length goal_ids)))
        (comm_error (lit "agent_attention_goal_capacity_exceeded")
           (lit "One AgentTask may produce attention for at most " ++ fmt_Z MAX_GOAL_CORRELATIONS ++ lit " active Goals"));
  _ ← for_each goal_ids (fun i goal_id =>
        let event_id := new_id AGENT_ATTENTION_EVENT_ID_PREFIX env (2 * i) in
        _ ← execute_insert wc_agent_attention_events
              (mkAttention event_id AGENT_ATTENTION_EVENT_KIND_AGENT_TASK_TERMINAL (pr_kind principal) (pr_digest principal)
                 target_agent_id goal_id task_id task_attempt_id terminal_task_state now);
        execute_insert wc_agent_wakes
          (new_wake (new_id AGENT_WAKE_ID_PREFIX env (2 * i + 1)) target_agent_id AttentionEvent
             None None None None None None None None (Some event_id) now)) 0;
  mret (length goal_ids).

Definition attention_source_ok (principal : CommunicationPrincipal) (target_agent_id : str) (db : AgentDb)
  (e : AgentAttentionEventRecord) : bool :=
  (av_kind e ==? AGENT_ATTENTION_EVENT_KIND_AGENT_TASK_TERMINAL)
  && owned_by principal (av_owner_principal_kind e) (av_owner_principal_digest e)
  && (av_target_agent_id e ==? target_agent_id)
  && task_terminal (av_terminal_task_state e)
  && existsb (fun g => (go_goal_id g ==? av_goal_id e) && owned_by principal (go_owner_principal_kind g) (go_owner_principal_digest g))
       (goals db)
  && existsb (fun t => (tk_task_id t ==? av_task_id e) && owned_by principal (tk_owner_principal_kind t) (tk_owner_principal_digest t)
                       && (tk_assignee_agent_id t ==? Some target_agent_id)
                       && (tk_latest_attempt_id t ==? Some (av_task_attempt_id e))
                       && (tk_terminal_attempt_id t ==? Some (av_task_attempt_id e))
                       && (tk_state t ==? av_terminal_task_state e)) (agent_tasks db)
  && existsb (fun a => (ta_attempt_id a ==? av_task_attempt_id e) && (ta_task_id a ==? av_task_id e)
                       && (ta_assignee_agent_id a ==? target_agent_id)
                       && match ta_state a, av_terminal_task_state e with
                          | AttemptSucceeded, TaskSucceeded | AttemptFailed, TaskFailed => true
                          | _, _ => false
                          end) (task_attempts db)
  && existsb (fun c => (gc_goal_id c ==? av_goal_id e) && (gc_kind c ==? CorrelatesAgentTask) && (gc_reference_id c ==? av_task_id e))
       (goal_correlations db).

Definition require_agent_attention_event_for_wake (principal : CommunicationPrincipal) (source_event_id : option str)
  (target_agent_id : str) : ctx AgentAttentionEventRecord :=
  source_event_id ← or_fail source_event_id
    (comm_error (lit "agent_attention_wake_invariant") (lit "Agent attention Wake is missing source_event_id"));
  row ← gets (fun db => find (fun e => (av_event_id e ==? source_event_id) && attention_source_ok principal target_agent_id db e)
                          (attention_events db));
  or_fail row (comm_error (lit "agent_attention_wake_invariant")
    (lit "Agent attention Wake source is missing, unauthorized, or inconsistent with authoritative Goal/Task state")).

(** ** A delivery's Wake *)

Definition coalesce_agent_wake_for_delivery (wake_id target_agent_id delivery_id conversation_id message_id : str)
  (inbox_high_watermark now : Z) : ctx str :=
  queued ← count_rows wc_agent_deliveries
             (fun d => (dl_recipient_agent_id d ==? target_agent_id) && (dl_state d ==? DeliveryQueued));
  existing ← gets (fun db => first_row (by_key wk_created_at wk_wake_id)
                               (fun w => (wk_target_agent_id w ==? target_agent_id) && (wk_trigger_kind w ==? InboxChanged)
                                         && queueable (wk_state w)) (wakes db));
  match existing with
  | Some found =>
      _ ← execute_update wc_agent_wakes
            (fun _ w => (wk_wake_id w ==? wk_wake_id found) && queueable (wk_state w))
            (fun w => w <| wk_latest_triggering_delivery_id := Some delivery_id |>
                        <| wk_latest_conversation_id := Some conversation_id |>
                        <| wk_latest_message_id := Some message_id |>
                        <| wk_inbox_high_watermark := Z.max inbox_high_watermark <$> wk_inbox_high_watermark w |>
                        <| wk_queued_delivery_count_snapshot := Some queued |>
                        <| wk_revision := (wk_revision w + 1)%Z |>
                        <| wk_updated_at := Z.max (wk_updated_at w) now |>);
      mret (wk_wake_id found)
  | None =>
      _ ← execute_insert wc_agent_wakes
            (new_wake wake_id target_agent_id InboxChanged (Some delivery_id) (Some delivery_id) (Some conversation_id)
               (Some message_id) (Some inbox_high_watermark) (Some queued) None None None now);
      mret wake_id
  end.

(** ** The carrier of an AgentTask's Wake *)

Definition clear_agent_task_wake_carrier (wake_id : str) (now : Z) : ctx unit :=
  _ ← execute_update wc_agent_task_endpoint_executions (fun _ e => ee_wake_id e ==? wake_id) (clear_carrier now);
  mret tt.

Definition materialize_agent_task_wake_expiry (wake : AgentWakeRecord) (now : Z) : ctx unit :=
  match wk_source_task_id wake, wk_source_task_attempt_id wake with
  | Some task_id, Some task_attempt_id =>
      _ ← execute_update wc_agent_task_attempts
            (fun _ a => (ta_attempt_id a ==? task_attempt_id) && (ta_state a ==? AttemptActive)
                        && Z.leb (ta_lease_expires_at a) now)
            (fun a => a <| ta_state := AttemptExpired |> <| ta_terminal_at := coalesce (ta_terminal_at a) (Some now) |>);
      _ ← execute_update wc_agent_tasks
            (fun db t => (tk_task_id t ==? task_id) && (tk_state t ==? TaskActive)
                         && (tk_latest_attempt_id t ==? Some task_attempt_id)
                         && existsb (fun a => (ta_attempt_id a ==? task_attempt_id) && (ta_state a ==? AttemptExpired))
                              (task_attempts db)
                         && negb (existsb (fun r => (cb_attempt_id r ==? task_attempt_id) && blocks_replacement (cb_dispatch_state r))
                                    (coding_runs db)))
            (fun t => t <| tk_state := TaskReady |> <| tk_updated_at := Z.max (tk_updated_at t) now |>);
      mret tt
  | _, _ => mret tt
  end.

Definition retire_agent_task_wake_pre_dispatch (wake_id : str) (now : Z) : ctx unit :=
  found ← load_wake wake_id;
  wake ← or_fail found (comm_error (lit "wake_not_found") (lit "Agent Task Wake does not exist"));
  if wk_trigger_kind wake !=? AgentTaskAttemptTrigger then mret tt
  else
    _ ← materialize_agent_task_wake_expiry wake now;
    _ ← execute_update wc_agent_wake_attempts (fun _ a => (wa_wake_id a ==? wake_id) && (wa_state a ==? WaClaimed))
          (revoke_attempt now);
    _ ← clear_agent_task_wake_carrier wake_id now;
    _ ← execute_update wc_agent_wakes (fun _ w => (wk_wake_id w ==? wake_id) && queueable (wk_state w))
          (unclaim_wake WakeRetired now);
    mret tt.

(** The Wake's Attempt is the latest, active and unexpired one of its active task. *)
Definition task_wake_current (db : AgentDb) (now : Z) (w : AgentWakeRecord) : bool :=
  existsb (fun t =>
    existsb (fun a => (wk_source_task_attempt_id w ==? Some (ta_attempt_id a))
                      && (tk_latest_attempt_id t ==? Some (ta_attempt_id a))
                      && (ta_assignee_agent_id a ==? wk_target_agent_id w)
                      && (ta_state a ==? AttemptActive) && Z.ltb now (ta_lease_expires_at a)) (task_attempts db)
    && (wk_source_task_id w ==? Some (tk_task_id t))
    && (tk_assignee_agent_id t ==? Some (wk_target_agent_id w))
    && (tk_state t ==? TaskActive)) (agent_tasks db).

Definition retire_stale_agent_task_wakes_for_agent (agent_id : str) (now : Z) : ctx unit :=
  stale_wake_ids ← gets (fun db =>
    map wk_wake_id (List.filter (fun w => (wk_target_agent_id w ==? agent_id) && (wk_trigger_kind w ==? AgentTaskAttemptTrigger)
                                          && queueable (wk_state w) && negb (task_wake_current db now w)) (wakes db)));
  for_each stale_wake_ids (fun _ wake_id => retire_agent_task_wake_pre_dispatch wake_id now) 0.

Definition task_wake_invariant (message : str) : CommunicationStoreError :=
  comm_error (lit "agent_task_wake_invariant") message.

Definition bind_agent_task_wake_carrier (principal : CommunicationPrincipal) (wake : AgentWakeRecord) (endpoint_id : str)
  (endpoint_controller_generation now : Z) : ctx unit :=
  task_id ← or_fail (wk_source_task_id wake) (task_wake_invariant (lit "Agent Task Wake is missing source_task_id"));
  task_attempt_id ← or_fail (wk_source_task_attempt_id wake)
    (task_wake_invariant (lit "Agent Task Wake is missing source_task_attempt_id"));
  attempt ← query_row wc_agent_task_attempts (fun a => (ta_attempt_id a ==? task_attempt_id) && (ta_task_id a ==? task_id));
  _ ← replace_agent_task_attempt_controller_in_transaction principal task_id task_attempt_id (wk_target_agent_id wake)
        (ta_attempt_fence attempt) (ta_attempt_controller_generation attempt) now;
  changed ← execute_update wc_agent_task_endpoint_executions
    (fun _ e => (ee_task_id e ==? task_id) && (ee_attempt_id e ==? task_attempt_id) && (ee_wake_id e ==? wk_wake_id wake))
    (fun e => e <| ee_endpoint_id := Some endpoint_id |>
                <| ee_endpoint_controller_generation := Some endpoint_controller_generation |>
                <| ee_updated_at := Z.max (ee_updated_at e) now |>);
  reject (negb (Nat.eqb changed 1))
    (task_wake_invariant (lit "Agent Task Wake has no matching durable Endpoint execution binding")).

(** The task, the Attempt and the execution a dispatch needs, and the [consume] that takes over. *)
Definition carried_execution (db : AgentDb) (principal : CommunicationPrincipal)
  (task_id task_attempt_id agent_id wake_id endpoint_id : str) (endpoint_controller_generation : Z) : bool :=
  existsb (fun t => (tk_task_id t ==? task_id) && owned_by principal (tk_owner_principal_kind t) (tk_owner_principal_digest t)
                    && (tk_latest_attempt_id t ==? Some task_attempt_id) && (tk_assignee_agent_id t ==? Some agent_id)
                    && (tk_state t ==? TaskActive)) (agent_tasks db)
  && existsb (fun e => (ee_task_id e ==? task_id) && (ee_attempt_id e ==? task_attempt_id) && (ee_wake_id e ==? wake_id)
                       && (ee_endpoint_id e ==? Some endpoint_id)
                       && (ee_endpoint_controller_generation e ==? Some endpoint_controller_generation)) (endpoint_executions db).

Definition agent_task_wake_is_dispatchable (principal : CommunicationPrincipal) (wake : AgentWakeRecord) (endpoint_id : str)
  (endpoint_controller_generation now : Z) : ctx bool :=
  if wk_trigger_kind wake !=? AgentTaskAttemptTrigger then mret true
  else match wk_source_task_id wake, wk_source_task_attempt_id wake with
  | Some task_id, Some task_attempt_id =>
      gets (fun db =>
        carried_execution db principal task_id task_attempt_id (wk_target_agent_id wake) (wk_wake_id wake) endpoint_id
          endpoint_controller_generation
        && existsb (fun a => (ta_attempt_id a ==? task_attempt_id) && (ta_task_id a ==? task_id)
                             && (ta_assignee_agent_id a ==? wk_target_agent_id wake) && (ta_state a ==? AttemptActive)
                             && Z.ltb now (ta_lease_expires_at a)) (task_attempts db))
  | _, _ => mret false
  end.

(** ** The loss of an Endpoint *)

(** A current controller an Endpoint generation carries: its owner, task and Attempt. *)
Record CarriedController : Type := mkCarried {
  cc_principal : CommunicationPrincipal;
  cc_task_id : str;
  cc_attempt : StoredAttempt
}.

Definition controllers_of_endpoint (db : AgentDb) (agent_id endpoint_id : str) (endpoint_controller_generation now : Z)
  : list CarriedController :=
  flat_map (fun e =>
    if (ee_endpoint_id e ==? Some endpoint_id) && (ee_endpoint_controller_generation e ==? Some endpoint_controller_generation)
       && wake_in db (fun w => (wk_target_agent_id w ==? agent_id) && (wk_trigger_kind w ==? AgentTaskAttemptTrigger)) (ee_wake_id e)
    then flat_map (fun t =>
           if tk_task_id t ==? ee_task_id e
           then flat_map (fun a =>
                  if (ta_task_id a ==? ee_task_id e) && (ta_attempt_id a ==? ee_attempt_id e)
                     && (tk_latest_attempt_id t ==? Some (ta_attempt_id a)) && (tk_state t ==? TaskActive)
                     && (ta_assignee_agent_id a ==? agent_id) && (ta_state a ==? AttemptActive)
                     && Z.ltb now (ta_lease_expires_at a)
                  then [mkCarried (mkPrincipal (tk_owner_principal_kind t) (tk_owner_principal_digest t)) (ee_task_id e) a]
                  else []) (task_attempts db)
           else []) (agent_tasks db)
    else []) (endpoint_executions db).

Definition fence_agent_task_controllers_for_endpoint_loss (agent_id endpoint_id : str)
  (endpoint_controller_generation now : Z) : ctx unit :=
  controllers ← gets (fun db => controllers_of_endpoint db agent_id endpoint_id endpoint_controller_generation now);
  for_each controllers (fun _ c =>
    _ ← replace_agent_task_attempt_controller_in_transaction (cc_principal c) (cc_task_id c) (ta_attempt_id (cc_attempt c))
          (ta_assignee_agent_id (cc_attempt c)) (ta_attempt_fence (cc_attempt c))
          (ta_attempt_controller_generation (cc_attempt c)) now;
    mret tt) 0.

Definition claimed_by (endpoint_id : str) (generation : Z) (w : AgentWakeRecord) : bool :=
  (wk_claimed_endpoint_id w ==? Some endpoint_id) && (wk_claimed_controller_generation w ==? Some generation).
(** The Attempts an Endpoint generation has on an Agent's Wakes. *)
Definition attempts_of_endpoint (db : AgentDb) (agent_id endpoint_id : str) (generation : Z) (a : WakeAttemptRow) : bool :=
  (wa_endpoint_id a ==? endpoint_id) && Z.eqb (wa_controller_generation a) generation
  && wake_in db (fun w => wk_target_agent_id w ==? agent_id) (wa_wake_id a).

Definition attempt_unknown (now : Z) (a : WakeAttemptRow) : WakeAttemptRow :=
  a <| wa_state := WaDeliveryUnknown |> <| wa_delivery_unknown_at := coalesce (wa_delivery_unknown_at a) (Some now) |>.
(** The Wake of a dispatch whose outcome is unknown keeps its claim, without a lease. *)
Definition wake_unknown (now : Z) (w : AgentWakeRecord) : AgentWakeRecord :=
  move_wake WakeDeliveryUnknown now w <| wk_claim_lease_expires_at := None |>.

Definition reconcile_wakes_for_endpoint_loss (agent_id endpoint_id : str) (controller_generation now : Z)
  (fence_task_controller : bool) : ctx unit :=
  _ ← when fence_task_controller
        (fence_agent_task_controllers_for_endpoint_loss agent_id endpoint_id controller_generation now);
  _ ← execute_update wc_agent_task_endpoint_executions
        (fun db e => (ee_endpoint_id e ==? Some endpoint_id)
                     && (ee_endpoint_controller_generation e ==? Some controller_generation)
                     && wake_in db (fun w => (wk_target_agent_id w ==? agent_id)
                                             && (wk_trigger_kind w ==? AgentTaskAttemptTrigger)) (ee_wake_id e))
        (clear_carrier now);
  _ ← execute_update wc_agent_wake_attempts
        (fun db a => attempts_of_endpoint db agent_id endpoint_id controller_generation a && (wa_state a ==? WaClaimed))
        (revoke_attempt now);
  _ ← execute_update wc_agent_wakes
        (fun _ w => (wk_target_agent_id w ==? agent_id) && (wk_state w ==? WakeClaimed)
                    && claimed_by endpoint_id controller_generation w)
        (unclaim_wake WakePending now);
  _ ← execute_update wc_agent_wake_attempts
        (fun db a => attempts_of_endpoint db agent_id endpoint_id controller_generation a
                     && ((wa_state a ==? WaPrepared) || (wa_state a ==? WaDelivered)))
        (attempt_unknown now);
  _ ← execute_update wc_agent_wakes
        (fun _ w => (wk_target_agent_id w ==? agent_id) && ((wk_state w ==? WakePrepared) || (wk_state w ==? WakeDelivered))
                    && claimed_by endpoint_id controller_generation w)
        (wake_unknown now);
  mret tt.

Definition expire_stale_endpoints (now : Z) : ctx unit :=
  stale ← gets (fun db => List.filter (fun e => (ep_lifecycle e ==? EndpointAttached) && Z.leb (ep_lease_expires_at e) now)
                            (endpoints db));
  for_each stale (fun _ endpoint =>
    _ ← execute_update wc_agent_endpoints
          (fun _ e => (ep_endpoint_id e ==? ep_endpoint_id endpoint) && (ep_lifecycle e ==? EndpointAttached))
          (fun e => e <| ep_lifecycle := EndpointExpired |> <| ep_expired_at := coalesce (ep_expired_at e) (Some now) |>
                      <| ep_wake_capable := false |> <| ep_mcp_app_recovery_fingerprint := None |>);
    reconcile_wakes_for_endpoint_loss (ep_agent_id endpoint) (ep_endpoint_id endpoint) (ep_controller_generation endpoint)
      now true) 0.

(** ** Claims *)

(** [claim_lease_expires_at_unix_ms <= now], which a NULL lease is not. *)
Definition claim_expired (now : Z) (w : AgentWakeRecord) : bool :=
  is_some_and (fun expires => Z.leb expires now) (wk_claim_lease_expires_at w).

Definition release_expired_claims_for_agent (agent_id : str) (now : Z) : ctx unit :=
  _ ← execute_update wc_agent_task_endpoint_executions
        (fun db e => wake_in db (fun w => (wk_target_agent_id w ==? agent_id) && (wk_state w ==? WakeClaimed)
                                          && claim_expired now w && (wk_trigger_kind w ==? AgentTaskAttemptTrigger))
                       (ee_wake_id e))
        (clear_carrier now);
  _ ← execute_update wc_agent_wake_attempts
        (fun db a => (wa_state a ==? WaClaimed) && Z.leb (wa_claim_lease_expires_at a) now
                     && wake_in db (fun w => wk_target_agent_id w ==? agent_id) (wa_wake_id a))
        (revoke_attempt now);
  _ ← execute_update wc_agent_wakes
        (fun _ w => (wk_target_agent_id w ==? agent_id) && (wk_state w ==? WakeClaimed) && claim_expired now w)
        (unclaim_wake WakePending now);
  mret tt.

Section Digests.
Context `{!AgentDigest}.

Definition require_exact_claim (agent_id endpoint_id : str) (controller_generation : Z)
  (wake_id attempt_id claim_fence : str) (consume_token : option str) : ctx AgentWakeRecord :=
  _ ← lift (validate_id claim_fence AGENT_WAKE_CLAIM_FENCE_PREFIX (lit "invalid_wake_claim_fence"));
  found ← load_wake wake_id;
  wake ← or_fail found (comm_error (lit "wake_not_found") (lit "Agent Wake does not exist"));
  _ ← reject (wk_target_agent_id wake !=? agent_id)
        (comm_error (lit "wake_agent_mismatch") (lit "Agent Wake belongs to a different Agent"));
  _ ← reject ((wk_claimed_attempt_id wake !=? Some attempt_id) || negb (claimed_by endpoint_id controller_generation wake))
        (comm_error (lit "wake_claim_stale") (lit "Agent Wake claim is stale or belongs to another Endpoint generation"));
  found ← select_row wc_agent_wake_attempts
            (fun a => (wa_attempt_id a ==? attempt_id) && (wa_wake_id a ==? wake_id) && (wa_endpoint_id a ==? endpoint_id)
                      && Z.eqb (wa_controller_generation a) controller_generation);
  attempt ← or_fail found (comm_error (lit "wake_attempt_not_found") (lit "Agent Wake Attempt does not exist"));
  _ ← reject (wa_claim_fence_hash attempt !=? digest_text CLAIM_FENCE_DOMAIN claim_fence)
        (comm_error (lit "wake_claim_stale") (lit "Agent Wake claim fence is stale"));
  _ ← reject (is_some_and (fun token => wa_consume_token_hash attempt !=? digest_text CONSUME_TOKEN_DOMAIN token) consume_token)
        (comm_error (lit "wake_consume_token_mismatch")
           (lit "consume_token does not identify the exact Agent Wake continuation"));
  mret wake.
End Digests.

(** ** What a Host receives *)

Definition task_resume_hint (agent_id endpoint_id : str) (controller_generation : Z)
  (wake_id consume_token task_id attempt_id attempt_fence : str) (attempt_controller_generation : Z) : str :=
  lit "This is an exact WebCodex Durable AgentTask continuation.

agent_id="
  ++ agent_id
  ++ lit "
endpoint_id="
  ++ endpoint_id
  ++ lit "
controller_generation="
  ++ fmt_Z controller_generation
  ++ lit "
wake_id="
  ++ wake_id
  ++ lit "
consume_token="
  ++ consume_token
  ++ lit "
task_id="
  ++ task_id
  ++ lit "
attempt_id="
  ++ attempt_id
  ++ lit "
attempt_fence="
  ++ attempt_fence
  ++ lit "
attempt_controller_generation="
  ++ fmt_Z attempt_controller_generation
  ++ lit "

Authoritative continuation contract:
1. First call heartbeat_agent_task_attempt with this exact task_id, attempt_id, agent_id as assignee_agent_id, attempt_fence, and attempt_controller_generation. This is a stale/fence preflight before business work. If it is stale, expired, or otherwise rejected, stop and do not infer or revive another Attempt.
2. After that preflight succeeds, call bootstrap_agent_conversation with this exact agent_id, endpoint_id, controller_generation as expected_controller_generation, and wake_id. OMIT activation_idempotency_key. This Wake was already dispatched by the Endpoint continuation carrier; do not call start_agent_task_endpoint_continuation again. Require the returned Wake source to remain agent_task_attempt with this exact task_id and attempt_id. Never infer or retarget identities from ambient Host, Project, Workflow Session, ClientWindow, Goal, credential, recent Agent, or recent Task state.
3. Re-read the authoritative AgentTask with read_agent_task and use that durable record as the task instruction. This Host continuation contains no Task title/instruction body and creates no synthetic Conversation Message or Inbox Delivery.
4. Consume this exact Wake with consume_agent_wake only after this model turn has actually taken over. The first successful exact consume establishes the bounded online-turn TaskAttempt execution lease; consume replay does not slide it. Ordinary coding work does not require a periodic 60-second heartbeat. If work may genuinely exceed the takeover lease, the same exact heartbeat_agent_task_attempt remains the explicit extension mechanism. Wake consumption is still separate from AgentTask completion.
5. Agent/Conversation authority grants no Project, Runner, filesystem, Goal, or Workflow Session authority. Re-authorize those capabilities through ordinary WebCodex workflow and explicit Task references.
6. Complete only through complete_agent_task_attempt with this same exact Attempt fence/controller generation. Endpoint lease and TaskAttempt lease remain independent.
7. Make the resumed turn's user-visible final response reflect the actual result or blocker; do not merely restate this contract.
".

Definition attention_resume_hint (agent_id endpoint_id : str) (controller_generation : Z)
  (wake_id consume_token : str) (event : AgentAttentionEventRecord) : str :=
  lit "WebCodex Goal attention continuation.

agent_id="
  ++ agent_id
  ++ lit "
endpoint_id="
  ++ endpoint_id
  ++ lit "
controller_generation="
  ++ fmt_Z controller_generation
  ++ lit "
wake_id="
  ++ wake_id
  ++ lit "
consume_token="
  ++ consume_token
  ++ lit "
event_id="
  ++ av_event_id event
  ++ lit "
goal_id="
  ++ av_goal_id event
  ++ lit "
task_id="
  ++ av_task_id event
  ++ lit "
attempt_id="
  ++ av_task_attempt_id event
  ++ lit "
terminal_task_state="
  ++ agent_task_state_as_str (av_terminal_task_state event)
  ++ lit "

This attention_event Wake was already dispatched by the Endpoint continuation carrier. Bootstrap with this exact agent_id, endpoint_id, controller_generation as expected_controller_generation, and wake_id, and OMIT activation_idempotency_key. Require the returned Wake to remain attention_event with this exact event_id, goal_id, task_id, and attempt_id. Do not call start_agent_task_endpoint_continuation from this resumed turn and never infer or retarget identities from ambient Host, Project, Workflow Session, ClientWindow, credential, or recent state.
After this turn takes over, consume this exact Wake. attention_event is post-terminal reasoning attention: it does not require a TaskAttempt lease or heartbeat. Then independently get_goal(goal_id) and read_agent_task(task_id); the Event is historical correlation only and grants no Goal, Task, Project, Runner, filesystem, Conversation, or Workflow Session authority.
Use authoritative Goal/Task state to make an explicit Goal decision. Never repeat a terminal Task or reopen a completed/cancelled Goal. The Server does not auto-complete Goals or auto-create successor Tasks. Final response: report the actual decision/result/blocker, not this contract.
".

Definition inbox_resume_hint (agent_id endpoint_id : str) (controller_generation : Z)
  (wake_id consume_token : str) (queued_delivery_count inbox_high_watermark : Z) : str :=
  lit "This is an exact WebCodex Durable Agent continuation.

agent_id="
  ++ agent_id
  ++ lit "
endpoint_id="
  ++ endpoint_id
  ++ lit "
controller_generation="
  ++ fmt_Z controller_generation
  ++ lit "
wake_id="
  ++ wake_id
  ++ lit "
consume_token="
  ++ consume_token
  ++ lit "

Authoritative continuation contract:
1. First call bootstrap_agent_conversation with this exact agent_id, endpoint_id, controller_generation, and wake_id; do not infer or retarget any identity from ambient Host, Project, Workflow Session, ClientWindow, credential, recent Agent, or recent Task state.
2. Re-read the authoritative Agent Inbox with list_agent_inbox and read_conversation as needed. This Host message intentionally contains no business Message body or transcript. Treat newly queued or otherwise unprocessed durable Inbox deliveries as the authoritative current work for this resumed turn; do not restart or restate the initial setup/continuation instructions as the task.
3. Agent/Conversation authority grants communication authority only. It does not grant Project, Runner, filesystem, coding, Goal, Task, or Workflow Session authority; if coding work is needed, use the ordinary WebCodex authorization/project workflow.
4. Consume this exact Wake with consume_agent_wake only after this model turn has actually taken over the continuation. Wake consumption and Delivery consumption are distinct; separately consume only Delivery ids actually processed.
5. For Agent replies, keep using the existing wake_reply_id plus stable reply_operation_index replay contract.
6. After processing the durable work, make this resumed turn's user-visible final response reflect the actual work/result (or a real blocker). Do not merely repeat this continuation contract, its identity fields, or the initial setup prompt.

queued_delivery_count="
  ++ fmt_Z queued_delivery_count
  ++ lit "
inbox_high_watermark="
  ++ fmt_Z inbox_high_watermark
  ++ lit "
".

Record AgentWakeEnvelope : Type := mkEnvelope {
  we_wake_id : str;
  we_agent_id : str;
  we_endpoint_id : str;
  we_controller_generation : Z;
  we_queued_delivery_count : Z;
  we_inbox_high_watermark : Z;
  we_consume_token : str;
  we_resume_hint : str
}.

Definition wake_envelope (principal : CommunicationPrincipal) (wake : AgentWakeRecord) (endpoint_id : str)
  (controller_generation : Z) (consume_token : str) : ctx AgentWakeEnvelope :=
  let envelope := mkEnvelope (wk_wake_id wake) (wk_target_agent_id wake) endpoint_id controller_generation in
  match wk_trigger_kind wake with
  | AgentTaskAttemptTrigger =>
      task_id ← or_fail (wk_source_task_id wake) (task_wake_invariant (lit "Agent Task Wake is missing source_task_id"));
      task_attempt_id ← or_fail (wk_source_task_attempt_id wake)
        (task_wake_invariant (lit "Agent Task Wake is missing source_task_attempt_id"));
      attempt ← query_row wc_agent_task_attempts (fun a => (ta_task_id a ==? task_id) && (ta_attempt_id a ==? task_attempt_id));
      mret (envelope 0%Z 0%Z consume_token
              (task_resume_hint (wk_target_agent_id wake) endpoint_id controller_generation (wk_wake_id wake) consume_token
                 task_id task_attempt_id (ta_attempt_fence attempt) (ta_attempt_controller_generation attempt)))
  | AttentionEvent =>
      event ← require_agent_attention_event_for_wake principal (wk_source_event_id wake) (wk_target_agent_id wake);
      mret (envelope 0%Z 0%Z consume_token
              (attention_resume_hint (wk_target_agent_id wake) endpoint_id controller_generation (wk_wake_id wake)
                 consume_token event))
  | InboxChanged =>
      queued ← or_fail (wk_queued_delivery_count_snapshot wake)
        (comm_error (lit "agent_wake_invariant") (lit "Inbox Agent Wake is missing queued_delivery_count_snapshot"));
      watermark ← or_fail (wk_inbox_high_watermark wake)
        (comm_error (lit "agent_wake_invariant") (lit "Inbox Agent Wake is missing inbox_high_watermark"));
      mret (envelope queued watermark consume_token
              (inbox_resume_hint (wk_target_agent_id wake) endpoint_id controller_generation (wk_wake_id wake) consume_token
                 queued watermark))
  end.

(** ** Validation *)

Definition validate_adapter_kind (value : str) : checked str :=
  let value := trim value in
  bail? is_empty value || Z.ltb MAX_ADAPTER_KIND_CHARS (chars value) || negb (forallb is_kind_char value)
    with comm_error (lit "invalid_wake_adapter_kind") (lit "Wake adapter kind is invalid");;
  Ok value.

Definition validate_wake_mutation_ids (agent_id endpoint_id wake_id attempt_id : str) : checked unit :=
  check? validate_id agent_id DURABLE_AGENT_ID_PREFIX (lit "invalid_agent_id");;
  check? validate_id endpoint_id AGENT_ENDPOINT_ID_PREFIX (lit "invalid_endpoint_id");;
  check? validate_id wake_id AGENT_WAKE_ID_PREFIX (lit "invalid_wake_id");;
  validate_id attempt_id AGENT_WAKE_ATTEMPT_ID_PREFIX (lit "invalid_wake_attempt_id").
