(* ===== verification/AgentComm.v ===== *)
(** * AgentComm: Agent identities, Endpoints, Conversations and deliveries

    The operations of communication.rs.  Each holds the connection once, so each is one
    transaction.  The clock readings of an operation are numbered in the order it takes
    them, and so are the ids it draws. *)
From S2P Require Import Prelude RustStr Sql ConnectorModel CodingAgent AgentModel AgentStore AgentCore.

Definition OP_CREATE_AGENT : str := lit "create_agent_identity".
Definition OP_ATTACH_ENDPOINT : str := lit "attach_agent_endpoint".
Definition OP_RECOVER_MCP_APP_ENDPOINT : str := lit "recover_mcp_app_endpoint".
Definition OP_CREATE_CONVERSATION : str := lit "create_conversation".
Definition OP_POST_MESSAGE : str := lit "post_conversation_message".
Definition OP_POST_WAKE_REPLY : str := lit "post_agent_wake_reply".

(** ** Inputs *)

Record NewAgentIdentity : Type := mkNewAgent {
  ni_handle : str;
  ni_display_name : str;
  ni_description : str;
  ni_specialty_labels : list str;
  ni_idempotency_key : str
}.

Record AgentProfilePatch : Type := mkPatch {
  pp_handle : option str;
  pp_display_name : option str;
  pp_description : option str;
  pp_specialty_labels : option (list str)
}.

Record NewAgentEndpoint : Type := mkNewEndpoint {
  ne_agent_id : str;
  ne_host : str;
  ne_client_attachment_id : option str;
  ne_wake_capable : bool;
  ne_idempotency_key : str
}.

Record NewConversation : Type := mkNewConversation {
  nc_title : option str;
  nc_agent_ids : list str;
  nc_idempotency_key : str
}.

Record NewConversationMessage : Type := mkNewMessage {
  nm_conversation_id : str;
  nm_body : str;
  nm_author_agent_id : option str;
  nm_endpoint_id : option str;
  nm_expected_controller_generation : option Z;
  nm_recipient_agent_ids : option (list str);
  nm_reply_to : option str;
  nm_idempotency_key : option str;
  nm_wake_reply_id : option str;
  nm_reply_operation_index : option Z
}.


Inductive ConversationAccess : Type :=
| AccessHuman
| AccessAgent (agent_id endpoint_id : str) (expected_controller_generation : Z).

(** ** Results *)

Record AgentIdentityMutation : Type := mkAgentMutation {
  im_agent : DurableAgentIdentity;
  im_created : bool;
  im_replayed : bool;
  im_state_changed : bool
}.

Record AgentIdentityPage : Type := mkAgentPage {
  ip_total_count : Z;
  ip_offset : Z;
  ip_next_offset : option Z;
  ip_truncated : bool;
  ip_agents : list DurableAgentIdentity
}.

Record AgentEndpointMutation : Type := mkEndpointMutation {
  em_endpoint : AgentEndpointRecord;
  em_created : bool;
  em_replayed : bool;
  em_state_changed : bool
}.

Record MessageAuthorRecord : Type := mkAuthor {
  au_participant_kind : ParticipantKind;
  au_agent_id : option str;
  au_handle : option str;
  au_display_name : option str;
  au_principal_kind : option str
}.

Record MessageDeliveryRecord : Type := mkDeliveryRecord {
  md_delivery_order : Z;
  md_delivery_id : str;
  md_recipient_agent_id : str;
  md_state : MessageDeliveryState;
  md_created_at : Z;
  md_consumed_at : option Z
}.

Record ConversationMessageRecord : Type := mkMessageRecord {
  mr_message_id : str;
  mr_conversation_id : str;
  mr_seq : Z;
  mr_author : MessageAuthorRecord;
  mr_body : str;
  mr_reply_to : option str;
  mr_created_at : Z;
  mr_deliveries : list MessageDeliveryRecord
}.

Record ConversationParticipantRecord : Type := mkParticipantRecord {
  cp_participant_id : str;
  cp_participant_kind : ParticipantKind;
  cp_agent_id : option str;
  cp_handle : option str;
  cp_display_name : option str;
  cp_principal_kind : option str;
  cp_joined_at : Z
}.

Record ConversationSummaryRecord : Type := mkConversationSummary {
  cs_conversation_id : str;
  cs_title : option str;
  cs_lifecycle : ConversationLifecycle;
  cs_created_at : Z;
  cs_updated_at : Z;
  cs_participant_count : Z;
  cs_message_count : Z;
  cs_last_seq : Z;
  cs_queued_delivery_count : option Z
}.

Record ConversationPage : Type := mkConversationPage {
  cg_total_count : Z;
  cg_offset : Z;
  cg_next_offset : option Z;
  cg_truncated : bool;
  cg_conversations : list ConversationSummaryRecord
}.

Record ConversationDetailRecord : Type := mkConversationDetail {
  cd_conversation : ConversationSummaryRecord;
  cd_participants : list ConversationParticipantRecord;
  cd_messages : list ConversationMessageRecord;
  cd_after_seq : Z;
  cd_next_after_seq : option Z;
  cd_truncated : bool
}.

Record ConversationMutation : Type := mkConversationMutation {
  cm_conversation : ConversationDetailRecord;
  cm_created : bool;
  cm_replayed : bool;
  cm_state_changed : bool
}.

Record ConversationMessageMutation : Type := mkMessageMutation {
  mm_message : ConversationMessageRecord;
  mm_replayed : bool;
  mm_state_changed : bool
}.

Record AgentInboxItem : Type := mkInboxItem {
  ii_delivery_id : str;
  ii_state : MessageDeliveryState;
  ii_conversation_id : str;
  ii_conversation_title : option str;
  ii_message : ConversationMessageRecord
}.

Record AgentInboxPage : Type := mkInboxPage {
  ib_agent_id : str;
  ib_total_queued_count : Z;
  ib_after_delivery_order : Z;
  ib_next_after_delivery_order : option Z;
  ib_truncated : bool;
  ib_deliveries : list AgentInboxItem
}.

Record DeliveryConsumeResult : Type := mkConsumeResult {
  dc_agent_id : str;
  dc_consumed_delivery_ids : list str;
  dc_already_consumed_delivery_ids : list str;
  dc_state_changed : bool
}.


Inductive McpAppEndpointRecovery : Type :=
| RecoveryLive (endpoint : AgentEndpointRecord)
| RecoveryReplaced (from_endpoint_id : str) (from_controller_generation : Z) (endpoint : AgentEndpointRecord)
    (replayed state_changed successor_needs_recovery : bool).

Definition opt_int (o : option Z) : Value := match o with Some n => VInt n | None => VNull end.
Definition opt_strings (o : option (list str)) : Value :=
  match o with Some l => VArray (map VString l) | None => VNull end.
Definition member (key : string) (v : Value) : str * Value := (lit key, v).

(** [Some(offset + found)] when rows are left after a page, in [usize]. *)
Definition next_page (offset : Z) (found : nat) (total_count : Z) : option Z :=
  let next := usize_sat_add offset (Z.of_nat found) in
  if Z.ltb next total_count then Some next else None.

Section Communication.
Context `{!AgentDigest} `{!JsonText}.
Variable env : Env.
Abbreviation now n := (now_unix_ms env n).
Implicit Types principal : CommunicationPrincipal.

(** ** Identities *)

Definition create_agent_identity principal (input : NewAgentIdentity) : ctx AgentIdentityMutation :=
  _ ← lift (validate_communication_principal principal);
  handle ← lift (validate_handle (ni_handle input));
  display_name ← lift (validate_display_name (ni_display_name input));
  description ← lift (validate_description (ni_description input));
  specialty_labels ← lift (canonicalize_specialty_labels (ni_specialty_labels input));
  idempotency_key ← lift (validate_idempotency_key (ni_idempotency_key input));
  let request_hash := digest_json (VObject [member "handle" (VString handle); member "display_name" (VString display_name);
                        member "description" (VString description);
                        member "specialty_labels" (VArray (map VString specialty_labels))]) in
  existing ← lookup_idempotent_resource principal OP_CREATE_AGENT idempotency_key request_hash;
  match existing with
  | Some agent_id =>
      found ← load_agent agent_id (now 1);
      agent ← or_fail found (comm_error (lit "agent_not_found") (lit "Agent no longer exists"));
      mret (mkAgentMutation agent false true false)
  | None =>
      count ← count_rows wc_agent_identities (fun _ => true);
      _ ← reject (Z.leb MAX_DURABLE_AGENTS count)
            (comm_error (lit "agent_capacity_exceeded") (lit "Durable Agent capacity is exhausted"));
      let agent_id := new_id DURABLE_AGENT_ID_PREFIX env 0 in
      _ ← execute_insert wc_agent_identities
            (mkIdentity agent_id (pr_kind principal) (pr_digest principal) handle display_name description specialty_labels 1
               (now 0) (now 0) 0);
      _ ← record_idempotent_resource principal OP_CREATE_AGENT idempotency_key request_hash agent_id (now 0);
      found ← load_agent agent_id (now 1);
      agent ← expect found;
      mret (mkAgentMutation agent true false true)
  end.

Definition owned_agent principal (a : AgentIdentityRow) : bool :=
  owned_by principal (ai_owner_principal_kind a) (ai_owner_principal_digest a).

Definition list_agent_identities principal (agent_id : option str) (offset limit : Z) : ctx AgentIdentityPage :=
  _ ← lift (validate_communication_principal principal);
  limit ← lift (bounded_limit limit);
  match agent_id with
  | Some agent_id =>
      _ ← lift (validate_id agent_id DURABLE_AGENT_ID_PREFIX (lit "invalid_agent_id"));
      owned ← exists_row wc_agent_identities (fun a => (ai_agent_id a ==? agent_id) && owned_agent principal a);
      found ← (if (owned : bool) then load_agent agent_id (now 0) else mret None);
      let agents := match found with Some a => [a] | None => [] end in
      mret (mkAgentPage (Z.of_nat (length agents)) 0 None false agents)
  | None =>
      total_count ← count_rows wc_agent_identities (owned_agent principal);
      agents ← gets (fun db =>
        map (row_to_agent (now 0) db)
          (page limit offset
             (sort_by (fun a b => by_key (fun r => (- ai_updated_at r)%Z) ai_agent_id a b)
                (List.filter (owned_agent principal) (identities db)))));
      let next_offset := next_page offset (length agents) total_count in
      mret (mkAgentPage total_count offset next_offset (is_some next_offset) agents)
  end.

Definition patched {A : Type} (validate : A -> checked A) (value : option A) (current : A) : checked A :=
  match value with Some v => validate v | None => Ok current end.

Definition update_agent_identity principal (agent_id : str) (expected_profile_revision : Z) (patch : AgentProfilePatch)
  : ctx AgentIdentityMutation :=
  _ ← lift (validate_id agent_id DURABLE_AGENT_ID_PREFIX (lit "invalid_agent_id"));
  _ ← lift (validate_communication_principal principal);
  _ ← reject (Z.ltb expected_profile_revision 1)
        (comm_error (lit "invalid_profile_revision") (lit "expected_profile_revision must be at least 1"));
  _ ← reject (is_none (pp_handle patch) && is_none (pp_display_name patch) && is_none (pp_description patch)
              && is_none (pp_specialty_labels patch))
        (comm_error (lit "invalid_agent_profile_update") (lit "At least one Agent profile field must be provided"));
  _ ← require_agent_owner principal agent_id;
  found ← load_agent agent_id (now 0);
  current ← expect found;
  _ ← reject (negb (Z.eqb (da_profile_revision current) expected_profile_revision))
        (profile_changed (da_profile_revision current));
  handle ← lift (patched validate_handle (pp_handle patch) (da_handle current));
  display_name ← lift (patched validate_display_name (pp_display_name patch) (da_display_name current));
  description ← lift (patched validate_description (pp_description patch) (da_description current));
  specialty_labels ← lift (patched canonicalize_specialty_labels (pp_specialty_labels patch) (da_specialty_labels current));
  let changed := (handle !=? da_handle current) || (display_name !=? da_display_name current)
                 || (description !=? da_description current) || (specialty_labels !=? da_specialty_labels current) in
  if negb changed then mret (mkAgentMutation current false false false)
  else
    let revision := (da_profile_revision current + 1)%Z in
    let at_ := Z.max (now 1) (i64_sat_add (da_updated_at current) 1) in
    _ ← execute_update wc_agent_identities
          (fun _ a => (ai_agent_id a ==? agent_id) && Z.eqb (ai_profile_revision a) expected_profile_revision)
          (fun a => a <| ai_handle := handle |> <| ai_display_name := display_name |> <| ai_description := description |>
                      <| ai_specialty_labels := specialty_labels |> <| ai_profile_revision := revision |>
                      <| ai_updated_at := at_ |>);
    found ← load_agent agent_id (now 2);
    agent ← expect found;
    mret (mkAgentMutation agent false false true).

(** ** Endpoints *)

(** [checked_add(1)]. *)
Definition next_generation (generation : Z) : ctx Z :=
  if Z.leb (generation + 1) I64_MAX then mret (generation + 1)%Z
  else fail (comm_error (lit "controller_generation_exhausted") (lit "Agent controller generation is exhausted")).

Definition new_endpoint principal (endpoint_id agent_id host : str) (client_attachment_id : option str) (wake_capable : bool)
  (window : option str) (generation at_ lease : Z) : AgentEndpointRow :=
  mkEndpoint endpoint_id agent_id (pr_kind principal) (pr_digest principal) host client_attachment_id wake_capable None window
    generation EndpointAttached at_ at_ lease None None.

Definition attach_agent_endpoint principal (input : NewAgentEndpoint) : ctx AgentEndpointMutation :=
  let agent_id := ne_agent_id input in
  _ ← lift (validate_id agent_id DURABLE_AGENT_ID_PREFIX (lit "invalid_agent_id"));
  _ ← lift (validate_communication_principal principal);
  host ← lift (validate_nonempty_chars (ne_host input) MAX_ENDPOINT_HOST_CHARS (lit "invalid_endpoint_host") (lit "Endpoint host"));
  client_attachment_id ← lift (validate_optional_chars (ne_client_attachment_id input) MAX_ENDPOINT_ATTACHMENT_CHARS
                                 (lit "invalid_client_attachment_id") (lit "client_attachment_id"));
  idempotency_key ← lift (validate_idempotency_key (ne_idempotency_key input));
  let request_hash := digest_json (VObject [member "agent_id" (VString agent_id); member "host" (VString host);
                        member "client_attachment_id" (opt_string client_attachment_id);
                        member "wake_capable" (VBool (ne_wake_capable input))]) in
  let lease := i64_sat_add (now 0) DEFAULT_ENDPOINT_LEASE_MS in
  existing ← lookup_idempotent_resource principal OP_ATTACH_ENDPOINT idempotency_key request_hash;
  match existing with
  | Some endpoint_id =>
      found ← load_endpoint endpoint_id;
      endpoint ← or_fail found (comm_error (lit "endpoint_not_found") (lit "Agent Endpoint no longer exists"));
      mret (mkEndpointMutation endpoint false true false)
  | None =>
      _ ← require_agent_owner principal agent_id;
      current ← current_generation agent_id;
      generation ← next_generation current;
      previous ← gets (fun db => List.filter (fun e => (ep_agent_id e ==? agent_id) && (ep_lifecycle e ==? EndpointAttached))
                                   (endpoints db));
      _ ← for_each previous (fun _ e =>
            reconcile_wakes_for_endpoint_loss agent_id (ep_endpoint_id e) (ep_controller_generation e) (now 0) true) 0;
      _ ← execute_update wc_agent_endpoints
            (fun _ e => (ep_agent_id e ==? agent_id) && (ep_lifecycle e ==? EndpointAttached))
            (fun e => e <| ep_lifecycle := EndpointExpired |>
                        <| ep_expired_at := coalesce (ep_expired_at e) (Some (now 0)) |>
                        <| ep_last_seen_at := Z.max (ep_last_seen_at e) (now 0) |> <| ep_lease_expires_at := now 0 |>
                        <| ep_mcp_app_recovery_fingerprint := None |> <| ep_mcp_app_client_window_key := None |>);
      _ ← execute_update wc_agent_endpoints (fun _ e => ep_agent_id e ==? agent_id)
            (fun e => e <| ep_mcp_app_recovery_fingerprint := None |> <| ep_mcp_app_client_window_key := None |>);
      _ ← execute_update wc_agent_identities
            (fun _ a => (ai_agent_id a ==? agent_id) && Z.eqb (ai_current_controller_generation a) current)
            (fun a => a <| ai_current_controller_generation := generation |>);
      let endpoint_id := new_id AGENT_ENDPOINT_ID_PREFIX env 0 in
      _ ← execute_insert wc_agent_endpoints
            (new_endpoint principal endpoint_id agent_id host client_attachment_id (ne_wake_capable input) None generation
               (now 0) lease);
      _ ← record_idempotent_resource principal OP_ATTACH_ENDPOINT idempotency_key request_hash endpoint_id (now 0);
      found ← load_endpoint endpoint_id;
      endpoint ← expect found;
      mret (mkEndpointMutation endpoint true false true)
  end.

(** [SELECT mcp_app_client_window_key FROM wc_agent_endpoints WHERE endpoint_id = ?1]. *)
Definition window_key_of (endpoint_id : str) : ctx (option str) :=
  e ← query_row wc_agent_endpoints (fun e => ep_endpoint_id e ==? endpoint_id);
  mret (ep_mcp_app_client_window_key e).
Definition fingerprint_of (endpoint_id : str) : ctx (option str) :=
  e ← query_row wc_agent_endpoints (fun e => ep_endpoint_id e ==? endpoint_id);
  mret (ep_mcp_app_recovery_fingerprint e).

Definition stale_generation (message : str) : CommunicationStoreError := comm_error (lit "endpoint_generation_stale") message.

(** The replay of a recovery: the replacement must still be the authoritative successor. *)
Definition recovered_successor principal (agent_id endpoint_id : str) (expected_controller_generation : Z)
  (client_window_key replacement_endpoint_id : str) : ctx McpAppEndpointRecovery :=
  found ← load_endpoint_for_principal principal replacement_endpoint_id;
  replacement ← or_fail found (comm_error (lit "endpoint_not_found") (lit "Recovered Agent Endpoint no longer exists"));
  expected_replacement_generation ← next_generation expected_controller_generation;
  current ← current_generation agent_id;
  _ ← reject ((er_agent_id replacement !=? agent_id)
              || negb (Z.eqb (er_controller_generation replacement) expected_replacement_generation)
              || Z.ltb current (er_controller_generation replacement)
              || (er_lifecycle replacement ==? EndpointDetached))
        (stale_generation (lit "Recovered Agent Endpoint is no longer the authoritative successor"));
  successor_window ← window_key_of replacement_endpoint_id;
  _ ← when (successor_window !=? Some client_window_key)
        (_ ← reject (Z.ltb (er_controller_generation replacement) current)
               (stale_generation (lit "A newer unrelated Endpoint generation retired this recovery lineage"));
         fail (comm_error (lit "host_binding_stale")
                 (lit "Recovered Agent Endpoint no longer retains this Host ClientWindow")));
  let successor_needs_recovery :=
    (er_lifecycle replacement ==? EndpointExpired)
    || ((er_lifecycle replacement ==? EndpointAttached) && Z.leb (er_lease_expires_at replacement) (now 0)) in
  mret (RecoveryReplaced endpoint_id expected_controller_generation replacement true false successor_needs_recovery).

Definition replace_expired_endpoint principal (agent_id endpoint_id : str) (expected_controller_generation : Z)
  (client_window_key request_hash : str) (stale : AgentEndpointRecord) : ctx McpAppEndpointRecovery :=
  _ ← reconcile_wakes_for_endpoint_loss agent_id endpoint_id expected_controller_generation (now 0) true;
  _ ← execute_update wc_agent_endpoints
        (fun _ e => (ep_endpoint_id e ==? endpoint_id) && (ep_agent_id e ==? agent_id)
                    && Z.eqb (ep_controller_generation e) expected_controller_generation
                    && (ep_lifecycle e !=? EndpointDetached))
        (fun e => e <| ep_lifecycle := EndpointExpired |> <| ep_wake_capable := false |>
                    <| ep_expired_at := coalesce (ep_expired_at e) (Some (now 0)) |>
                    <| ep_last_seen_at := Z.max (ep_last_seen_at e) (now 0) |>
                    <| ep_lease_expires_at := Z.min (ep_lease_expires_at e) (now 0) |>
                    <| ep_mcp_app_recovery_fingerprint := None |>);
  generation ← next_generation expected_controller_generation;
  updated ← execute_update wc_agent_identities
              (fun _ a => (ai_agent_id a ==? agent_id) && Z.eqb (ai_current_controller_generation a) expected_controller_generation)
              (fun a => a <| ai_current_controller_generation := generation |>);
  _ ← reject (negb (Nat.eqb updated 1)) (stale_generation (lit "Another Endpoint generation already owns this Agent"));
  let replacement_endpoint_id := new_id AGENT_ENDPOINT_ID_PREFIX env 0 in
  _ ← execute_insert wc_agent_endpoints
        (new_endpoint principal replacement_endpoint_id agent_id (er_host stale) (er_client_attachment_id stale) false
           (Some client_window_key) generation (now 0) (i64_sat_add (now 0) DEFAULT_ENDPOINT_LEASE_MS));
  _ ← record_idempotent_resource principal OP_RECOVER_MCP_APP_ENDPOINT endpoint_id request_hash replacement_endpoint_id (now 0);
  found ← load_endpoint replacement_endpoint_id;
  endpoint ← expect found;
  mret (RecoveryReplaced endpoint_id expected_controller_generation endpoint false true false).

Definition recover_expired_mcp_app_endpoint principal (agent_id endpoint_id : str) (expected_controller_generation : Z)
  (client_window_key : str) : ctx McpAppEndpointRecovery :=
  _ ← lift (validate_communication_principal principal);
  _ ← lift (validate_id agent_id DURABLE_AGENT_ID_PREFIX (lit "invalid_agent_id"));
  _ ← lift (validate_id endpoint_id AGENT_ENDPOINT_ID_PREFIX (lit "invalid_endpoint_id"));
  _ ← reject (Z.ltb expected_controller_generation 1)
        (comm_error (lit "invalid_controller_generation") (lit "expected_controller_generation must be at least 1"));
  _ ← lift (validate_mcp_app_client_window_key client_window_key);
  let request_hash := digest_json (VObject [member "agent_id" (VString agent_id); member "endpoint_id" (VString endpoint_id);
                        member "expected_controller_generation" (VInt expected_controller_generation);
                        member "client_window_key" (VString client_window_key)]) in
  existing ← lookup_idempotent_resource principal OP_RECOVER_MCP_APP_ENDPOINT endpoint_id request_hash;
  match existing with
  | Some replacement_endpoint_id =>
      recovered_successor principal agent_id endpoint_id expected_controller_generation client_window_key
        replacement_endpoint_id
  | None =>
      _ ← require_agent_owner principal agent_id;
      found ← load_endpoint_for_principal principal endpoint_id;
      stale ← or_fail found (comm_error (lit "endpoint_not_found") (lit "Agent Endpoint does not exist"));
      _ ← reject (er_agent_id stale !=? agent_id)
            (comm_error (lit "endpoint_agent_mismatch") (lit "Agent Endpoint is attached to a different Agent"));
      _ ← reject (negb (Z.eqb (er_controller_generation stale) expected_controller_generation))
            (stale_generation (lit "Agent Endpoint controller generation is stale"));
      persisted_window ← window_key_of endpoint_id;
      _ ← reject (persisted_window !=? Some client_window_key)
            (comm_error (lit "host_binding_stale") (lit "MCP App replacement requires the same canonical Host ClientWindow"));
      current ← current_generation agent_id;
      _ ← reject (negb (Z.eqb current expected_controller_generation))
            (stale_generation (lit "Another Endpoint generation already owns this Agent"));
      match er_lifecycle stale with
      | EndpointDetached =>
          fail (comm_error (lit "endpoint_detached")
                  (lit "Explicitly detached Agent Endpoints are not eligible for automatic replacement"))
      | EndpointAttached =>
          if Z.ltb (now 0) (er_lease_expires_at stale) then mret (RecoveryLive stale)
          else replace_expired_endpoint principal agent_id endpoint_id expected_controller_generation client_window_key
                 request_hash stale
      | EndpointExpired =>
          replace_expired_endpoint principal agent_id endpoint_id expected_controller_generation client_window_key
            request_hash stale
      end
  end.

Definition detach_agent_endpoint principal (endpoint_id : str) : ctx AgentEndpointMutation :=
  _ ← lift (validate_communication_principal principal);
  _ ← lift (validate_id endpoint_id AGENT_ENDPOINT_ID_PREFIX (lit "invalid_endpoint_id"));
  found ← load_endpoint_for_principal principal endpoint_id;
  current ← or_fail found (comm_error (lit "endpoint_not_found") (lit "Agent Endpoint does not exist"));
  if er_lifecycle current ==? EndpointDetached then mret (mkEndpointMutation current false false false)
  else
    let at_ := Z.max (now 0) (er_last_seen_at current) in
    _ ← reconcile_wakes_for_endpoint_loss (er_agent_id current) endpoint_id (er_controller_generation current) at_ true;
    _ ← execute_update wc_agent_endpoints
          (fun _ e => (ep_endpoint_id e ==? endpoint_id) && (ep_lifecycle e !=? EndpointDetached))
          (fun e => e <| ep_lifecycle := EndpointDetached |> <| ep_detached_at := Some at_ |> <| ep_wake_capable := false |>
                      <| ep_last_seen_at := at_ |> <| ep_lease_expires_at := at_ |>
                      <| ep_mcp_app_recovery_fingerprint := None |> <| ep_mcp_app_client_window_key := None |>);
    found ← load_endpoint endpoint_id;
    endpoint ← expect found;
    mret (mkEndpointMutation endpoint false false true).

Definition renew_agent_endpoint principal (endpoint_id : str) (expected_controller_generation : Z) : ctx AgentEndpointMutation :=
  _ ← lift (validate_communication_principal principal);
  _ ← lift (validate_id endpoint_id AGENT_ENDPOINT_ID_PREFIX (lit "invalid_endpoint_id"));
  _ ← reject (Z.ltb expected_controller_generation 1)
        (comm_error (lit "invalid_controller_generation") (lit "expected_controller_generation must be at least 1"));
  let lease := i64_sat_add (now 0) DEFAULT_ENDPOINT_LEASE_MS in
  found ← load_endpoint_for_principal principal endpoint_id;
  current ← or_fail found (comm_error (lit "endpoint_not_found") (lit "Agent Endpoint does not exist"));
  _ ← require_current_endpoint principal (er_agent_id current) endpoint_id (Some expected_controller_generation) (now 1);
  _ ← execute_update wc_agent_endpoints
        (fun _ e => (ep_endpoint_id e ==? endpoint_id) && (ep_lifecycle e ==? EndpointAttached))
        (fun e => e <| ep_last_seen_at := Z.max (ep_last_seen_at e) (now 0) |>
                    <| ep_lease_expires_at := Z.max (ep_lease_expires_at e) lease |>);
  found ← load_endpoint endpoint_id;
  endpoint ← expect found;
  mret (mkEndpointMutation endpoint false false true).

Definition verify_current_agent_endpoint principal (agent_id endpoint_id : str) (expected_controller_generation : Z)
  : ctx AgentEndpointRecord :=
  _ ← lift (validate_communication_principal principal);
  require_current_endpoint principal agent_id endpoint_id (Some expected_controller_generation) (now 0).

Definition set_agent_endpoint_binding_projection principal (agent_id endpoint_id : str) (expected_controller_generation : Z)
  (wake_capable : bool) (recovery_fingerprint client_window_key : option str) : ctx AgentEndpointRecord :=
  _ ← lift (validate_communication_principal principal);
  _ ← lift (validate_optional validate_mcp_app_recovery_fingerprint recovery_fingerprint);
  _ ← lift (validate_optional validate_mcp_app_client_window_key client_window_key);
  current ← require_current_endpoint principal agent_id endpoint_id (Some expected_controller_generation) (now 0);
  current_fingerprint ← fingerprint_of endpoint_id;
  current_window ← window_key_of endpoint_id;
  if Bool.eqb (er_wake_capable current) wake_capable && (current_fingerprint ==? recovery_fingerprint)
     && (current_window ==? client_window_key)
  then mret current
  else
    _ ← when (er_wake_capable current && negb wake_capable)
          (reconcile_wakes_for_endpoint_loss agent_id endpoint_id expected_controller_generation (now 1) false);
    _ ← execute_update wc_agent_endpoints
          (fun _ e => (ep_endpoint_id e ==? endpoint_id) && (ep_agent_id e ==? agent_id)
                      && Z.eqb (ep_controller_generation e) expected_controller_generation
                      && (ep_lifecycle e ==? EndpointAttached))
          (fun e => e <| ep_wake_capable := wake_capable |> <| ep_mcp_app_recovery_fingerprint := recovery_fingerprint |>
                      <| ep_mcp_app_client_window_key := client_window_key |>
                      <| ep_last_seen_at := Z.max (ep_last_seen_at e) (now 1) |>);
    found ← load_endpoint endpoint_id;
    expect found.

Definition set_agent_endpoint_wake_capability principal (agent_id endpoint_id : str) (expected_controller_generation : Z)
  (wake_capable : bool) : ctx AgentEndpointRecord :=
  set_agent_endpoint_binding_projection principal agent_id endpoint_id expected_controller_generation wake_capable None None.

Definition set_agent_endpoint_mcp_app_binding_projection principal (agent_id endpoint_id : str)
  (expected_controller_generation : Z) (wake_capable : bool) (recovery_fingerprint client_window_key : option str)
  : ctx AgentEndpointRecord :=
  _ ← reject (wake_capable && is_none recovery_fingerprint)
        (comm_error (lit "missing_mcp_app_recovery_fingerprint")
           (lit "A live MCP App binding requires a restart recovery fingerprint"));
  set_agent_endpoint_binding_projection principal agent_id endpoint_id expected_controller_generation wake_capable
    recovery_fingerprint client_window_key.

Definition verify_mcp_app_restart_recovery principal (agent_id endpoint_id : str) (expected_controller_generation : Z)
  (recovery_fingerprint : str) : ctx (option AgentEndpointRecord) :=
  _ ← lift (validate_communication_principal principal);
  _ ← lift (validate_mcp_app_recovery_fingerprint recovery_fingerprint);
  current ← require_current_endpoint principal agent_id endpoint_id (Some expected_controller_generation) (now 0);
  if er_wake_capable current then mret None
  else
    persisted ← fingerprint_of endpoint_id;
    mret (if persisted ==? Some recovery_fingerprint then Some current else None).

Definition verify_mcp_app_window_continuity principal (agent_id endpoint_id : str) (expected_controller_generation : Z)
  (client_window_key : str) : ctx (option AgentEndpointRecord) :=
  _ ← lift (validate_communication_principal principal);
  _ ← lift (validate_mcp_app_client_window_key client_window_key);
  current ← require_current_endpoint principal agent_id endpoint_id (Some expected_controller_generation) (now 0);
  if er_wake_capable current then mret None
  else
    persisted ← window_key_of endpoint_id;
    mret (if persisted ==? Some client_window_key then Some current else None).

Definition mcp_app_registration_window_allows principal (agent_id endpoint_id : str) (expected_controller_generation : Z)
  (client_window_key : option str) : ctx bool :=
  _ ← lift (validate_communication_principal principal);
  _ ← lift (validate_optional validate_mcp_app_client_window_key client_window_key);
  _ ← require_current_endpoint principal agent_id endpoint_id (Some expected_controller_generation) (now 0);
  persisted ← window_key_of endpoint_id;
  mret (match persisted with
        | Some current_window => client_window_key ==? Some current_window
        | None => true
        end).

Definition verify_mcp_app_recovery_continuity principal (agent_id endpoint_id : str) (expected_controller_generation : Z)
  (recovery_fingerprint : str) (client_window_key : option str) : ctx (option AgentEndpointRecord) :=
  _ ← lift (validate_communication_principal principal);
  _ ← lift (validate_mcp_app_recovery_fingerprint recovery_fingerprint);
  _ ← lift (validate_optional validate_mcp_app_client_window_key client_window_key);
  current ← require_current_endpoint principal agent_id endpoint_id (Some expected_controller_generation) (now 0);
  if er_wake_capable current then mret None
  else
    persisted_fingerprint ← fingerprint_of endpoint_id;
    persisted_window ← window_key_of endpoint_id;
    let allowed := match client_window_key, persisted_window with
                   | Some caller_window, Some current_window => caller_window ==? current_window
                   | _, _ => persisted_fingerprint ==? Some recovery_fingerprint
                   end in
    mret (if allowed then Some current else None).

(** ** Conversations *)

Definition is_agent_participant (conversation_id agent_id : str) (p : ParticipantRow) : bool :=
  (pt_conversation_id p ==? conversation_id) && (pt_kind p ==? AgentParticipant) && (pt_agent_id p ==? Some agent_id).
Definition is_human_participant principal (conversation_id : str) (p : ParticipantRow) : bool :=
  (pt_conversation_id p ==? conversation_id) && (pt_kind p ==? HumanParticipant)
  && (pt_principal_kind p ==? Some (pr_kind principal)) && (pt_principal_digest p ==? Some (pr_digest principal)).

Definition authorize_list_access principal (access : ConversationAccess) : ctx (option str) :=
  match access with
  | AccessHuman => mret None
  | AccessAgent agent_id endpoint_id generation =>
      _ ← require_current_endpoint principal agent_id endpoint_id (Some generation) (now 0);
      mret (Some agent_id)
  end.

Definition authorize_conversation_access principal (access : ConversationAccess) (conversation_id : str) (at_ : Z)
  : ctx (option str) :=
  participant ← match access with
                | AccessHuman => exists_row wc_conversation_participants (is_human_participant principal conversation_id)
                | AccessAgent agent_id endpoint_id generation =>
                    _ ← require_current_endpoint principal agent_id endpoint_id (Some generation) at_;
                    exists_row wc_conversation_participants (is_agent_participant conversation_id agent_id)
                end;
  _ ← reject (negb participant) (comm_error (lit "conversation_not_found") (lit "Conversation does not exist"));
  mret (match access with AccessHuman => None | AccessAgent agent_id _ _ => Some agent_id end).

Definition row_to_conversation_summary (db : AgentDb) (access_agent_id : option str) (c : ConversationRow)
  : ConversationSummaryRecord :=
  mkConversationSummary (cv_conversation_id c) (cv_title c) (cv_lifecycle c) (cv_created_at c) (cv_updated_at c)
    (Z.of_nat (rows_matched (fun p => pt_conversation_id p ==? cv_conversation_id c) (participants db)))
    (cv_next_seq c - 1)%Z (cv_next_seq c - 1)%Z
    ((fun agent_id => Z.of_nat (rows_matched (fun d => (dl_conversation_id d ==? cv_conversation_id c)
                                                       && (dl_recipient_agent_id d ==? agent_id)
                                                       && (dl_state d ==? DeliveryQueued)) (deliveries db)))
       <$> access_agent_id).

Definition agent_of (db : AgentDb) (agent_id : option str) : option AgentIdentityRow :=
  agent_id ≫= fun id => find (fun a => ai_agent_id a ==? id) (identities db).

Definition message_deliveries (db : AgentDb) (message_id : str) : list MessageDeliveryRecord :=
  map (fun d => mkDeliveryRecord (dl_delivery_order d) (dl_delivery_id d) (dl_recipient_agent_id d) (dl_state d)
                  (dl_created_at d) (dl_consumed_at d))
    (sort_by (fun a b => str_leb (dl_recipient_agent_id a) (dl_recipient_agent_id b)
                         && ((dl_recipient_agent_id a !=? dl_recipient_agent_id b)
                             || str_leb (dl_delivery_id a) (dl_delivery_id b)))
       (List.filter (fun d => dl_message_id d ==? message_id) (deliveries db))).

(** The message with its author, who must be a participant. *)
Definition message_record (db : AgentDb) (m : MessageRow) : option ConversationMessageRecord :=
  (fun p => let agent := agent_of db (pt_agent_id p) in
            mkMessageRecord (ms_message_id m) (ms_conversation_id m) (ms_seq m)
              (mkAuthor (pt_kind p) (pt_agent_id p) (ai_handle <$> agent) (ai_display_name <$> agent) (pt_principal_kind p))
              (ms_body m) (ms_reply_to m) (ms_created_at m) (message_deliveries db (ms_message_id m)))
    <$> find (fun p => pt_participant_id p ==? ms_author_participant_id m) (participants db).
Definition load_message (message_id : str) : ctx (option ConversationMessageRecord) :=
  gets (fun db => find (fun m => ms_message_id m ==? message_id) (messages db) ≫= message_record db).

Definition participant_record (db : AgentDb) (p : ParticipantRow) : ConversationParticipantRecord :=
  let agent := agent_of db (pt_agent_id p) in
  mkParticipantRecord (pt_participant_id p) (pt_kind p) (pt_agent_id p) (ai_handle <$> agent) (ai_display_name <$> agent)
    (pt_principal_kind p) (pt_joined_at p).

(** [ORDER BY CASE kind WHEN 'human' THEN 0 ELSE 1 END, COALESCE(handle, principal_kind), participant_id];
    a NULL text is the least. *)
Definition participant_leb (a b : ConversationParticipantRecord) : bool :=
  let rank := fun p => match cp_participant_kind p with HumanParticipant => 0%Z | AgentParticipant => 1%Z end in
  let label := fun p => match coalesce (cp_handle p) (cp_principal_kind p) with Some s => 0%N :: s | None => [] end in
  Z.ltb (rank a) (rank b)
  || (Z.eqb (rank a) (rank b)
      && str_leb (label a) (label b)
      && ((label a !=? label b) || str_leb (cp_participant_id a) (cp_participant_id b))).

Fixpoint load_messages (message_ids : list str) (missing : str) : ctx (list ConversationMessageRecord) :=
  match message_ids with
  | [] => mret []
  | message_id :: rest =>
      found ← load_message message_id;
      message ← or_fail found (comm_error (lit "message_not_found") missing);
      messages ← load_messages rest missing;
      mret (message :: messages)
  end.

Definition read_conversation_in_connection principal (access : ConversationAccess) (conversation_id : str)
  (after_seq limit : Z) (at_ : Z) : ctx ConversationDetailRecord :=
  access_agent_id ← authorize_conversation_access principal access conversation_id at_;
  conversation ← query_row wc_conversations (fun c => cv_conversation_id c ==? conversation_id);
  summary ← gets (fun db => row_to_conversation_summary db access_agent_id conversation);
  participants ← gets (fun db => sort_by participant_leb
                         (map (participant_record db)
                            (List.filter (fun p => pt_conversation_id p ==? conversation_id) (participants db))));
  message_ids ← gets (fun db => map ms_message_id
                        (limit_rows (as_i64 (limit + 1))
                           (sort_by (fun a b => Z.leb (ms_seq a) (ms_seq b))
                              (List.filter (fun m => (ms_conversation_id m ==? conversation_id) && Z.ltb after_seq (ms_seq m))
                                 (messages db)))));
  let truncated := Z.ltb limit (Z.of_nat (length message_ids)) in
  messages ← load_messages (take (Z.to_nat limit) message_ids) (lit "Conversation Message disappeared");
  let next_after_seq := if truncated then mr_seq <$> last messages else None in
  mret (mkConversationDetail summary participants messages after_seq next_after_seq truncated).

Definition create_conversation principal (input : NewConversation) : ctx ConversationMutation :=
  _ ← lift (validate_communication_principal principal);
  title ← lift (validate_optional_chars (nc_title input) MAX_CONVERSATION_TITLE_CHARS (lit "invalid_conversation_title")
                  (lit "Conversation title"));
  agent_ids ← lift (canonicalize_agent_ids (nc_agent_ids input) true);
  idempotency_key ← lift (validate_idempotency_key (nc_idempotency_key input));
  let request_hash := digest_json (VObject [member "title" (opt_string title);
                        member "agent_ids" (VArray (map VString agent_ids))]) in
  existing ← lookup_idempotent_resource principal OP_CREATE_CONVERSATION idempotency_key request_hash;
  match existing with
  | Some conversation_id =>
      conversation ← read_conversation_in_connection principal AccessHuman conversation_id 0 1 (now 1);
      mret (mkConversationMutation conversation false true false)
  | None =>
      conversation_count ← count_rows wc_conversations (fun _ => true);
      _ ← reject (Z.leb MAX_CONVERSATIONS conversation_count)
            (comm_error (lit "conversation_capacity_exceeded") (lit "Conversation capacity is exhausted"));
      _ ← for_each agent_ids (fun _ agent_id => require_agent_owner principal agent_id) 0;
      let conversation_id := new_id CONVERSATION_ID_PREFIX env 0 in
      _ ← execute_insert wc_conversations
            (mkConversation conversation_id title ConversationOpen 1 (pr_kind principal) (pr_digest principal) (now 0) (now 0) None);
      _ ← execute_insert wc_conversation_participants
            (mkParticipant (new_id CONVERSATION_PARTICIPANT_ID_PREFIX env 1) conversation_id HumanParticipant None
               (Some (pr_kind principal)) (Some (pr_digest principal)) (now 0));
      _ ← for_each agent_ids (fun i agent_id =>
            execute_insert wc_conversation_participants
              (mkParticipant (new_id CONVERSATION_PARTICIPANT_ID_PREFIX env (2 + i)) conversation_id AgentParticipant
                 (Some agent_id) None None (now 0))) 0;
      _ ← record_idempotent_resource principal OP_CREATE_CONVERSATION idempotency_key request_hash conversation_id (now 0);
      conversation ← read_conversation_in_connection principal AccessHuman conversation_id 0 1 (now 1);
      mret (mkConversationMutation conversation true false true)
  end.

Definition list_conversations principal (access : ConversationAccess) (offset limit : Z) : ctx ConversationPage :=
  _ ← lift (validate_communication_principal principal);
  limit ← lift (bounded_limit limit);
  agent_id ← authorize_list_access principal access;
  visible ← gets (fun db => List.filter (fun c =>
    existsb (fun p => (pt_conversation_id p ==? cv_conversation_id c)
                      && match agent_id with
                         | Some agent_id => (pt_kind p ==? AgentParticipant) && (pt_agent_id p ==? Some agent_id)
                         | None => (pt_kind p ==? HumanParticipant) && (pt_principal_digest p ==? Some (pr_digest principal))
                         end) (participants db)) (conversations db));
  let total_count := Z.of_nat (length visible) in
  conversations ← gets (fun db =>
    map (row_to_conversation_summary db agent_id)
      (page limit offset (sort_by (fun a b => by_key (fun c => (- cv_updated_at c)%Z) cv_conversation_id a b) visible)));
  let next_offset := next_page offset (length conversations) total_count in
  mret (mkConversationPage total_count offset next_offset (is_some next_offset) conversations).

Definition read_conversation principal (access : ConversationAccess) (conversation_id : str) (after_seq limit : Z)
  : ctx ConversationDetailRecord :=
  _ ← lift (validate_communication_principal principal);
  _ ← lift (validate_id conversation_id CONVERSATION_ID_PREFIX (lit "invalid_conversation_id"));
  _ ← reject (Z.ltb after_seq 0)
        (comm_error (lit "invalid_conversation_sequence") (lit "after_seq must be zero or greater"));
  limit ← lift (bounded_limit limit);
  read_conversation_in_connection principal access conversation_id after_seq limit (now 0).

(** ** Messages *)

(** What identifies a send: the caller's key, or a Wake and the index of the reply in it. *)
Definition replay_identity (input : NewConversationMessage) : checked (str * str * option (str * Z)) :=
  match nm_idempotency_key input, nm_wake_reply_id input, nm_reply_operation_index input with
  | Some key, None, None => let? key := validate_idempotency_key key in Ok (OP_POST_MESSAGE, key, None)
  | None, Some wake_id, Some operation_index =>
      check? validate_id wake_id AGENT_WAKE_ID_PREFIX (lit "invalid_wake_id");;
      bail? negb (Z.leb 0 operation_index && Z.leb operation_index MAX_WAKE_REPLY_OPERATION_INDEX)
        with comm_error (lit "invalid_reply_operation_index")
               (lit "reply_operation_index must be between 0 and " ++ fmt_Z MAX_WAKE_REPLY_OPERATION_INDEX);;
      Ok (OP_POST_WAKE_REPLY, wake_id ++ lit ":" ++ fmt_Z operation_index, Some (wake_id, operation_index))
  | Some _, Some _, Some _ =>
      Err (comm_error (lit "conflicting_message_replay_identity")
             (lit "Provide idempotency_key or wake_reply_id plus reply_operation_index, not both"))
  | _, _, _ =>
      Err (comm_error (lit "message_replay_identity_required")
             (lit "Provide idempotency_key, or wake_reply_id plus reply_operation_index"))
  end.

Definition message_access (input : NewConversationMessage) (wake_reply : option (str * Z)) : checked ConversationAccess :=
  match nm_author_agent_id input with
  | Some agent_id =>
      let? endpoint_id := ok_or (nm_endpoint_id input)
        (comm_error (lit "endpoint_required") (lit "Agent-authored messages require an active Endpoint")) in
      let? generation := ok_or (nm_expected_controller_generation input)
        (comm_error (lit "controller_generation_required")
           (lit "Agent-authored messages require expected_controller_generation")) in
      Ok (AccessAgent agent_id endpoint_id generation)
  | None =>
      bail? is_some (nm_endpoint_id input) || is_some (nm_expected_controller_generation input)
        with comm_error (lit "unexpected_endpoint_id") (lit "Human-authored messages must not provide Endpoint fencing");;
      bail? is_some wake_reply
        with comm_error (lit "wake_reply_requires_agent_author")
               (lit "Wake-derived reply replay identity requires an Agent author");;
      Ok AccessHuman
  end.

Definition message_request_hash (input : NewConversationMessage) (body : str) (recipients : option (list str))
  (wake_reply : option (str * Z)) : str :=
  let replayed := is_none wake_reply in
  digest_json (VObject [
    member "conversation_id" (VString (nm_conversation_id input));
    member "author_agent_id" (opt_string (nm_author_agent_id input));
    member "endpoint_id" (opt_string (if replayed then nm_endpoint_id input else None));
    member "expected_controller_generation" (opt_int (if replayed then nm_expected_controller_generation input else None));
    member "body" (VString body);
    member "recipient_agent_ids" (opt_strings recipients);
    member "reply_to" (opt_string (nm_reply_to input));
    member "wake_reply_id" (opt_string (fst <$> wake_reply));
    member "reply_operation_index" (opt_int (snd <$> wake_reply))]).

(** A reply to a Wake needs the exact dispatched Wake. *)
Definition require_reply_fence (wake_reply : option (str * Z)) (access : ConversationAccess) : ctx unit :=
  match wake_reply, access with
  | Some (wake_id, _), AccessAgent agent_id endpoint_id generation =>
      found ← select_row wc_agent_wakes (fun w => (wk_wake_id w ==? wake_id) && (wk_target_agent_id w ==? agent_id));
      wake ← or_fail found (comm_error (lit "wake_not_found") (lit "Agent Wake does not exist"));
      match wk_state wake with
      | WakePrepared | WakeDelivered | WakeDeliveryUnknown =>
          reject (negb (claimed_by endpoint_id generation wake))
            (comm_error (lit "wake_endpoint_fence_mismatch") (lit "Agent Wake is bound to a different Endpoint generation"))
      | WakePending | WakeClaimed =>
          fail (comm_error (lit "wake_not_dispatched")
                  (lit "Agent Wake reply requires a dispatch or explicit-activation fence"))
      | WakeConsumed =>
          fail (comm_error (lit "wake_already_consumed")
                  (lit "Agent Wake was already consumed; re-read the Conversation before posting new work"))
      | WakeRetired =>
          fail (comm_error (lit "wake_retired")
                  (lit "Agent Wake was retired before dispatch and no longer authorizes a reply"))
      end
  | _, _ => mret tt
  end.

Definition author_participant principal (access : ConversationAccess) (conversation_id : str) : ctx (str * option str) :=
  match access with
  | AccessAgent agent_id _ _ =>
      p ← query_row wc_conversation_participants (is_agent_participant conversation_id agent_id);
      mret (pt_participant_id p, Some agent_id)
  | AccessHuman =>
      p ← query_row wc_conversation_participants (is_human_participant principal conversation_id);
      mret (pt_participant_id p, None)
  end.

(** The participants other than the author, when no recipients are named. *)
Definition message_recipients (explicit : option (list str)) (conversation_id : str) (author_agent_id : option str)
  : ctx (list str) :=
  match explicit with
  | Some agent_ids => mret agent_ids
  | None =>
      gets (fun db => List.filter (fun candidate => author_agent_id !=? Some candidate)
                        (sort_by str_leb
                           (omap (fun p => if (pt_conversation_id p ==? conversation_id) && (pt_kind p ==? AgentParticipant)
                                           then pt_agent_id p else None) (participants db))))
  end.

(** [last_insert_rowid] of an AUTOINCREMENT table no row of which is deleted. *)
Definition next_delivery_order (db : AgentDb) : Z :=
  (1 + foldr (fun d n => Z.max (dl_delivery_order d) n) 0 (deliveries db))%Z.

Definition deliver (message_id conversation_id : str) (seq at_ : Z) (i : nat) (recipient_agent_id : str) : ctx unit :=
  let delivery_id := new_id AGENT_DELIVERY_ID_PREFIX env (1 + 2 * i) in
  delivery_order ← gets next_delivery_order;
  _ ← execute_insert wc_agent_deliveries
        (mkDelivery delivery_order delivery_id message_id conversation_id seq recipient_agent_id DeliveryQueued at_ None None);
  _ ← coalesce_agent_wake_for_delivery (new_id AGENT_WAKE_ID_PREFIX env (2 + 2 * i)) recipient_agent_id delivery_id
        conversation_id message_id delivery_order at_;
  mret tt.

Definition post_conversation_message principal (input : NewConversationMessage) : ctx ConversationMessageMutation :=
  let conversation_id := nm_conversation_id input in
  _ ← lift (validate_communication_principal principal);
  _ ← lift (validate_id conversation_id CONVERSATION_ID_PREFIX (lit "invalid_conversation_id"));
  body ← lift (validate_message_body (nm_body input));
  identity ← lift (replay_identity input);
  let '(operation, idempotency_key, wake_reply) := identity in
  _ ← lift (validate_optional (fun id => validate_id id CONVERSATION_MESSAGE_ID_PREFIX (lit "invalid_message_id")) (nm_reply_to input));
  explicit ← lift (match nm_recipient_agent_ids input with
                   | Some agent_ids => let? ids := canonicalize_agent_ids agent_ids false in Ok (Some ids)
                   | None => Ok None
                   end);
  access ← lift (message_access input wake_reply);
  let request_hash := message_request_hash input body explicit wake_reply in
  existing ← lookup_idempotent_resource principal operation idempotency_key request_hash;
  match existing with
  | Some message_id =>
      found ← load_message message_id;
      message ← or_fail found (comm_error (lit "message_not_found") (lit "Conversation Message no longer exists"));
      mret (mkMessageMutation message true false)
  | None =>
      _ ← authorize_conversation_access principal access conversation_id (now 0);
      _ ← require_reply_fence wake_reply access;
      conversation ← query_row wc_conversations (fun c => cv_conversation_id c ==? conversation_id);
      _ ← reject (cv_lifecycle conversation !=? ConversationOpen)
            (comm_error (lit "conversation_closed") (lit "Conversation is closed"));
      author ← author_participant principal access conversation_id;
      let '(author_participant_id, author_agent_id) := author in
      reply_exists ← gets (fun db => is_none_or (message_in db conversation_id) (nm_reply_to input));
      _ ← reject (negb reply_exists)
            (comm_error (lit "reply_message_not_found") (lit "reply_to message does not exist in this Conversation"));
      recipients ← message_recipients explicit conversation_id author_agent_id;
      _ ← for_each recipients (fun _ recipient =>
            _ ← reject (author_agent_id ==? Some recipient)
                  (comm_error (lit "self_delivery_not_supported")
                     (lit "Agent-authored messages cannot create an Inbox delivery for the author"));
            participant ← exists_row wc_conversation_participants (is_agent_participant conversation_id recipient);
            reject (negb participant)
              (comm_error (lit "recipient_not_conversation_participant")
                 (lit "Recipient Agent is not a Conversation participant: " ++ recipient))) 0;
      let next_seq := cv_next_seq conversation in
      _ ← reject (Z.ltb MAX_MESSAGES_PER_CONVERSATION next_seq)
            (comm_error (lit "conversation_message_capacity_exceeded")
               (lit "Conversation has reached the message capacity bound"));
      let message_id := new_id CONVERSATION_MESSAGE_ID_PREFIX env 0 in
      _ ← execute_insert wc_conversation_messages
            (mkMessage message_id conversation_id next_seq author_participant_id body (nm_reply_to input) (now 1));
      _ ← for_each recipients (deliver message_id conversation_id next_seq (now 1)) 0;
      _ ← execute_update wc_conversations (fun _ c => cv_conversation_id c ==? conversation_id)
            (fun c => c <| cv_next_seq := (cv_next_seq c + 1)%Z |> <| cv_updated_at := now 1 |>);
      _ ← match author_agent_id, nm_endpoint_id input with
          | Some agent_id, Some endpoint_id =>
              _ ← execute_update wc_agent_endpoints
                    (fun _ e => (ep_endpoint_id e ==? endpoint_id) && (ep_agent_id e ==? agent_id)
                                && (ep_lifecycle e ==? EndpointAttached))
                    (fun e => e <| ep_last_seen_at := Z.max (ep_last_seen_at e) (now 1) |>);
              mret tt
          | _, _ => mret tt
          end;
      _ ← record_idempotent_resource principal operation idempotency_key request_hash message_id (now 1);
      found ← load_message message_id;
      message ← expect found;
      mret (mkMessageMutation message false true)
  end.

(** ** The Inbox *)

Fixpoint inbox_items (rows : list DeliveryRow) : ctx (list AgentInboxItem) :=
  match rows with
  | [] => mret []
  | d :: rest =>
      title ← gets (fun db => find (fun c => cv_conversation_id c ==? dl_conversation_id d) (conversations db) ≫= cv_title);
      found ← load_message (dl_message_id d);
      message ← or_fail found (comm_error (lit "message_not_found") (lit "Inbox Message no longer exists"));
      items ← inbox_items rest;
      mret (mkInboxItem (dl_delivery_id d) DeliveryQueued (dl_conversation_id d) title message :: items)
  end.

Definition list_agent_inbox principal (agent_id endpoint_id : str) (expected_controller_generation after_delivery_order limit : Z)
  : ctx AgentInboxPage :=
  _ ← lift (validate_communication_principal principal);
  _ ← reject (Z.ltb after_delivery_order 0)
        (comm_error (lit "invalid_delivery_order") (lit "after_delivery_order must be zero or greater"));
  limit ← lift (bounded_limit limit);
  _ ← require_current_endpoint principal agent_id endpoint_id (Some expected_controller_generation) (now 0);
  total ← count_rows wc_agent_deliveries (fun d => (dl_recipient_agent_id d ==? agent_id) && (dl_state d ==? DeliveryQueued));
  rows ← gets (fun db => limit_rows (limit + 1)
                (sort_by (fun a b => Z.leb (dl_delivery_order a) (dl_delivery_order b))
                   (List.filter (fun d => (dl_recipient_agent_id d ==? agent_id) && (dl_state d ==? DeliveryQueued)
                                          && Z.ltb after_delivery_order (dl_delivery_order d)) (deliveries db))));
  let truncated := Z.ltb limit (Z.of_nat (length rows)) in
  let shown := take (Z.to_nat limit) rows in
  items ← inbox_items shown;
  let next_after := if truncated then dl_delivery_order <$> last shown else None in
  mret (mkInboxPage agent_id total after_delivery_order next_after truncated items).

Fixpoint consume_each (agent_id endpoint_id : str) (at_ : Z) (delivery_ids : list str) : ctx (list str * list str) :=
  match delivery_ids with
  | [] => mret ([], [])
  | delivery_id :: rest =>
      found ← select_row wc_agent_deliveries (fun d => (dl_delivery_id d ==? delivery_id) && (dl_recipient_agent_id d ==? agent_id));
      d ← or_fail found (comm_error (lit "delivery_not_found") (lit "Agent delivery does not exist"));
      if dl_state d ==? DeliveryConsumed
      then
        ids ← consume_each agent_id endpoint_id at_ rest;
        mret (fst ids, delivery_id :: snd ids)
      else
        _ ← execute_update wc_agent_deliveries
              (fun _ d => (dl_delivery_id d ==? delivery_id) && (dl_recipient_agent_id d ==? agent_id)
                          && (dl_state d ==? DeliveryQueued))
              (fun d => d <| dl_state := DeliveryConsumed |> <| dl_consumed_at := Some at_ |>
                          <| dl_consumed_by_endpoint_id := Some endpoint_id |>);
        ids ← consume_each agent_id endpoint_id at_ rest;
        mret (delivery_id :: fst ids, snd ids)
  end.

Definition consume_agent_deliveries principal (agent_id endpoint_id : str) (expected_controller_generation : Z)
  (delivery_ids : list str) : ctx DeliveryConsumeResult :=
  _ ← lift (validate_communication_principal principal);
  _ ← lift (validate_id agent_id DURABLE_AGENT_ID_PREFIX (lit "invalid_agent_id"));
  _ ← lift (validate_id endpoint_id AGENT_ENDPOINT_ID_PREFIX (lit "invalid_endpoint_id"));
  delivery_ids ← lift (canonicalize_delivery_ids delivery_ids);
  _ ← require_current_endpoint principal agent_id endpoint_id (Some expected_controller_generation) (now 0);
  ids ← consume_each agent_id endpoint_id (now 1) delivery_ids;
  _ ← execute_update wc_agent_endpoints (fun _ e => (ep_endpoint_id e ==? endpoint_id) && (ep_lifecycle e ==? EndpointAttached))
        (fun e => e <| ep_last_seen_at := Z.max (ep_last_seen_at e) (now 1) |>);
  mret (mkConsumeResult agent_id (fst ids) (snd ids) (negb (is_empty (fst ids)))).
End Communication.
