(* ===== verification/AgentWakes.v ===== *)
(** * AgentWakes: the operations on Wakes

    The state machine of agent_wake.rs.  A Wake is pending until an Endpoint claims it; the
    claim is released, expires, or crosses the dispatch fence by being prepared; the Host's
    outcome is delivered or unknown; the resumed turn consumes it.  A pending inbox Wake can
    also be accepted into a turn that is already running. *)
From S2P Require Import Prelude RustStr Sql ConnectorModel CodingAgent AgentModel AgentStore AgentCore AgentComm.

(** ** Results *)

Record AgentWakeAttemptRecord : Type := mkWakeAttemptRecord {
  wr_attempt_id : str;
  wr_wake_id : str;
  wr_endpoint_id : str;
  wr_controller_generation : Z;
  wr_adapter_kind : str;
  wr_state : AgentWakeAttemptState;
  wr_claimed_at : Z;
  wr_claim_lease_expires_at : Z;
  wr_prepared_at : option Z;
  wr_delivered_at : option Z;
  wr_delivery_unknown_at : option Z;
  wr_revoked_at : option Z;
  wr_consumed_at : option Z
}.

Record AgentWakeClaim : Type := mkWakeClaim {
  wc_wake : AgentWakeRecord;
  wc_attempt : AgentWakeAttemptRecord;
  wc_claim_fence : str;
  wc_consume_token : str
}.

Record AgentWakePrepared : Type := mkWakePrepared {
  wp_wake : AgentWakeRecord;
  wp_attempt : AgentWakeAttemptRecord;
  wp_envelope : AgentWakeEnvelope
}.

Record AgentWakeConsumeResult : Type := mkWakeConsumed {
  wz_wake_id : str;
  wz_target_agent_id : str;
  wz_state : AgentWakeState;
  wz_already_consumed : bool;
  wz_consumed_at : Z;
  wz_state_changed : bool
}.

Record AgentWakeBootstrapSummary : Type := mkBootstrapWake {
  wb_wake_id : str;
  wb_state : AgentWakeState;
  wb_revision : Z;
  wb_trigger_kind : WakeTrigger;
  wb_conversation_id : option str;
  wb_latest_message_id : option str;
  wb_queued_delivery_count : option Z;
  wb_inbox_high_watermark : option Z;
  wb_task_id : option str;
  wb_task_attempt_id : option str;
  wb_event_id : option str;
  wb_goal_id : option str
}.

Record AgentConversationBootstrapRecord : Type := mkBootstrap {
  bs_acting_agent : DurableAgentIdentity;
  bs_endpoint : AgentEndpointRecord;
  bs_selected_conversation : option ConversationSummaryRecord;
  bs_queued_delivery_count : Z;
  bs_inbox_high_watermark : Z;
  bs_wake : option AgentWakeBootstrapSummary
}.

Record AgentWakeExplicitActivation : Type := mkActivation {
  ea_wake : AgentWakeRecord;
  ea_attempt_id : str;
  ea_consume_token : str;
  ea_replayed : bool;
  ea_state_changed : bool
}.


Definition row_to_attempt (a : WakeAttemptRow) : AgentWakeAttemptRecord :=
  mkWakeAttemptRecord (wa_attempt_id a) (wa_wake_id a) (wa_endpoint_id a) (wa_controller_generation a) (wa_adapter_kind a)
    (wa_state a) (wa_claimed_at a) (wa_claim_lease_expires_at a) (wa_prepared_at a) (wa_delivered_at a)
    (wa_delivery_unknown_at a) (wa_revoked_at a) (wa_consumed_at a).

Definition OP_EXPLICIT_ACTIVATION : str := lit "accept_explicit_agent_wake_activation".

Definition not_wake_capable (message : str) : CommunicationStoreError := comm_error (lit "endpoint_not_wake_capable") message.
Definition wake_missing : CommunicationStoreError := comm_error (lit "wake_not_found") (lit "Agent Wake does not exist").

Section Wakes.
Context `{!AgentDigest}.
Variable env : Env.
Abbreviation now n := (now_unix_ms env n).
Implicit Types principal : CommunicationPrincipal.

(** ** A new server takes over *)

Definition recover_agent_wakes_for_server_takeover (owns_database : bool) (at_ : Z) : ctx unit :=
  _ ← reject (negb owns_database)
        (comm_error (lit "server_instance_ownership_mismatch")
           (lit "Server ownership proof does not match this database state"));
  _ ← expire_stale_endpoints at_;
  _ ← execute_update wc_agent_endpoints (fun _ e => (ep_lifecycle e ==? EndpointAttached) && ep_wake_capable e)
        (fun e => e <| ep_wake_capable := false |>);
  _ ← execute_update wc_agent_task_endpoint_executions
        (fun db e => wake_in db (fun w => (wk_trigger_kind w ==? AgentTaskAttemptTrigger) && (wk_state w ==? WakeClaimed)) (ee_wake_id e))
        (clear_carrier at_);
  _ ← execute_update wc_agent_wake_attempts (fun _ a => wa_state a ==? WaClaimed) (revoke_attempt at_);
  _ ← execute_update wc_agent_wakes (fun _ w => wk_state w ==? WakeClaimed) (unclaim_wake WakePending at_);
  _ ← execute_update wc_agent_wake_attempts (fun _ a => wa_state a ==? WaPrepared) (attempt_unknown at_);
  _ ← execute_update wc_agent_wakes (fun _ w => wk_state w ==? WakePrepared) (wake_unknown at_);
  mret tt.

(** ** Claims *)

Definition claim_next_agent_wake principal (agent_id endpoint_id : str) (expected_controller_generation : Z)
  (adapter_kind : str) : ctx (option AgentWakeClaim) :=
  _ ← lift (validate_communication_principal principal);
  _ ← lift (validate_id agent_id DURABLE_AGENT_ID_PREFIX (lit "invalid_agent_id"));
  _ ← lift (validate_id endpoint_id AGENT_ENDPOINT_ID_PREFIX (lit "invalid_endpoint_id"));
  adapter_kind ← lift (validate_adapter_kind adapter_kind);
  endpoint ← require_current_endpoint principal agent_id endpoint_id (Some expected_controller_generation) (now 1);
  _ ← reject (negb (er_wake_capable endpoint)) (not_wake_capable (lit "Agent Endpoint is not wake-capable"));
  _ ← release_expired_claims_for_agent agent_id (now 0);
  _ ← retire_stale_agent_task_wakes_for_agent agent_id (now 0);
  blocked ← exists_row wc_agent_wakes (fun w => (wk_target_agent_id w ==? agent_id) && dispatched (wk_state w));
  selected ← gets (fun db => first_row (by_key wk_created_at wk_wake_id)
                               (fun w => (wk_target_agent_id w ==? agent_id) && (wk_state w ==? WakePending)) (wakes db));
  match (if blocked : bool then None else selected) with
  | None => mret None
  | Some selected_wake =>
      let wake_id := wk_wake_id selected_wake in
      _ ← when (wk_trigger_kind selected_wake ==? AgentTaskAttemptTrigger)
            (bind_agent_task_wake_carrier principal selected_wake endpoint_id expected_controller_generation (now 0));
      _ ← when (wk_trigger_kind selected_wake ==? AttentionEvent)
            (_ ← require_agent_attention_event_for_wake principal (wk_source_event_id selected_wake) agent_id; mret tt);
      let attempt_id := new_id AGENT_WAKE_ATTEMPT_ID_PREFIX env 0 in
      let claim_fence := new_id AGENT_WAKE_CLAIM_FENCE_PREFIX env 1 in
      let consume_token := new_id AGENT_WAKE_CONSUME_TOKEN_PREFIX env 2 in
      let lease := i64_sat_add (now 0) DEFAULT_WAKE_CLAIM_LEASE_MS in
      _ ← execute_insert wc_agent_wake_attempts
            (mkWakeAttempt attempt_id wake_id endpoint_id expected_controller_generation adapter_kind WaClaimed
               (digest_text CLAIM_FENCE_DOMAIN claim_fence) (digest_text CONSUME_TOKEN_DOMAIN consume_token)
               (now 0) lease None None None None None);
      changed ← execute_update wc_agent_wakes (fun _ w => (wk_wake_id w ==? wake_id) && (wk_state w ==? WakePending))
                  (fun w => w <| wk_state := WakeClaimed |> <| wk_revision := (wk_revision w + 1)%Z |>
                              <| wk_updated_at := now 0 |> <| wk_claimed_attempt_id := Some attempt_id |>
                              <| wk_claimed_endpoint_id := Some endpoint_id |>
                              <| wk_claimed_controller_generation := Some expected_controller_generation |>
                              <| wk_claim_lease_expires_at := Some lease |>);
      _ ← reject (negb (Nat.eqb changed 1)) (comm_error (lit "wake_claim_conflict") (lit "Agent Wake was claimed concurrently"));
      found ← load_wake wake_id;
      wake ← expect found;
      found ← load_attempt attempt_id;
      attempt ← expect found;
      mret (Some (mkWakeClaim wake (row_to_attempt attempt) claim_fence consume_token))
  end.

Definition release_agent_wake_claim principal (agent_id endpoint_id : str) (expected_controller_generation : Z)
  (wake_id attempt_id claim_fence : str) : ctx AgentWakeRecord :=
  _ ← lift (validate_wake_mutation_ids agent_id endpoint_id wake_id attempt_id);
  _ ← lift (validate_communication_principal principal);
  _ ← require_current_endpoint principal agent_id endpoint_id (Some expected_controller_generation) (now 1);
  wake ← require_exact_claim agent_id endpoint_id expected_controller_generation wake_id attempt_id claim_fence None;
  _ ← reject (wk_state wake !=? WakeClaimed)
        (comm_error (lit "wake_dispatch_fence_crossed") (lit "Agent Wake can only be released before the dispatch fence"));
  _ ← execute_update wc_agent_wake_attempts (fun _ a => (wa_attempt_id a ==? attempt_id) && (wa_state a ==? WaClaimed))
        (fun a => a <| wa_state := WaRevoked |> <| wa_revoked_at := Some (now 0) |>);
  _ ← execute_update wc_agent_wakes (fun _ w => (wk_wake_id w ==? wake_id) && (wk_state w ==? WakeClaimed))
        (fun w => clear_claim (w <| wk_state := WakePending |> <| wk_revision := (wk_revision w + 1)%Z |>
                                 <| wk_updated_at := now 0 |>));
  _ ← clear_agent_task_wake_carrier wake_id (now 0);
  found ← load_wake wake_id;
  expect found.

(** ** Dispatch *)

(** The error of a stale task's Wake is returned after its retirement is committed. *)
Definition prepare_agent_wake_dispatch principal (agent_id endpoint_id : str) (expected_controller_generation : Z)
  (wake_id attempt_id claim_fence consume_token : str) : ctx (result AgentWakePrepared CommunicationStoreError) :=
  _ ← lift (validate_wake_mutation_ids agent_id endpoint_id wake_id attempt_id);
  _ ← lift (validate_communication_principal principal);
  _ ← lift (validate_id consume_token AGENT_WAKE_CONSUME_TOKEN_PREFIX (lit "invalid_wake_consume_token"));
  endpoint ← require_current_endpoint principal agent_id endpoint_id (Some expected_controller_generation) (now 1);
  _ ← reject (negb (er_wake_capable endpoint)) (not_wake_capable (lit "Agent Endpoint is not wake-capable"));
  wake ← require_exact_claim agent_id endpoint_id expected_controller_generation wake_id attempt_id claim_fence
           (Some consume_token);
  _ ← reject (wk_state wake !=? WakeClaimed)
        (comm_error (lit "wake_not_claimed") (lit "Agent Wake is not in the claimed pre-dispatch state"));
  _ ← reject (claim_expired (now 0) wake)
        (comm_error (lit "wake_claim_expired") (lit "Agent Wake claim lease expired before the dispatch fence"));
  dispatchable ← agent_task_wake_is_dispatchable principal wake endpoint_id expected_controller_generation (now 0);
  if (wk_trigger_kind wake ==? AgentTaskAttemptTrigger) && negb dispatchable
  then
    _ ← retire_agent_task_wake_pre_dispatch (wk_wake_id wake) (now 0);
    mret (Err (stale_attempt (lit "AgentTaskAttempt expired or became stale before Host continuation dispatch")))
  else
    _ ← when (wk_trigger_kind wake ==? AttentionEvent)
          (_ ← require_agent_attention_event_for_wake principal (wk_source_event_id wake) agent_id; mret tt);
    _ ← execute_update wc_agent_wake_attempts (fun _ a => (wa_attempt_id a ==? attempt_id) && (wa_state a ==? WaClaimed))
          (fun a => a <| wa_state := WaPrepared |> <| wa_prepared_at := Some (now 0) |>);
    _ ← execute_update wc_agent_wakes (fun _ w => (wk_wake_id w ==? wake_id) && (wk_state w ==? WakeClaimed))
          (fun w => w <| wk_state := WakePrepared |> <| wk_revision := (wk_revision w + 1)%Z |>
                      <| wk_updated_at := now 0 |> <| wk_claim_lease_expires_at := None |>);
    found ← load_wake wake_id;
    wake ← expect found;
    found ← load_attempt attempt_id;
    attempt ← expect found;
    envelope ← wake_envelope principal wake endpoint_id expected_controller_generation consume_token;
    mret (Ok (mkWakePrepared wake (row_to_attempt attempt) envelope)).

Definition verify_agent_wake_dispatch_binding principal (agent_id endpoint_id : str) (expected_controller_generation : Z)
  (wake_id attempt_id claim_fence : str) : ctx unit :=
  _ ← lift (validate_wake_mutation_ids agent_id endpoint_id wake_id attempt_id);
  _ ← lift (validate_communication_principal principal);
  endpoint ← require_current_endpoint principal agent_id endpoint_id (Some expected_controller_generation) (now 0);
  _ ← reject (negb (er_wake_capable endpoint))
        (not_wake_capable (lit "Agent Endpoint no longer has a registered continuation adapter"));
  wake ← require_exact_claim agent_id endpoint_id expected_controller_generation wake_id attempt_id claim_fence None;
  _ ← reject (wk_state wake !=? WakePrepared)
        (comm_error (lit "wake_not_prepared") (lit "Agent Wake is no longer prepared for this dispatch"));
  found ← load_attempt attempt_id;
  attempt ← or_fail found (comm_error (lit "wake_attempt_not_found") (lit "Agent Wake Attempt does not exist"));
  _ ← reject (wa_state attempt !=? WaPrepared)
        (comm_error (lit "wake_attempt_not_prepared") (lit "Agent Wake Attempt is no longer prepared for dispatch"));
  when (wk_trigger_kind wake ==? AttentionEvent)
    (_ ← require_agent_attention_event_for_wake principal (wk_source_event_id wake) agent_id; mret tt).

Definition finish_agent_wake_delivery principal (agent_id endpoint_id : str) (expected_controller_generation : Z)
  (wake_id attempt_id claim_fence : str) (delivered : bool) : ctx AgentWakeRecord :=
  _ ← lift (validate_wake_mutation_ids agent_id endpoint_id wake_id attempt_id);
  _ ← lift (validate_communication_principal principal);
  _ ← require_current_endpoint principal agent_id endpoint_id (Some expected_controller_generation) (now 1);
  wake ← require_exact_claim agent_id endpoint_id expected_controller_generation wake_id attempt_id claim_fence None;
  if (wk_state wake ==? WakeConsumed) || (delivered && (wk_state wake ==? WakeDelivered))
     || (negb delivered && (wk_state wake ==? WakeDeliveryUnknown))
  then mret wake
  else
    _ ← reject (negb ((wk_state wake ==? WakePrepared) || (wk_state wake ==? WakeDeliveryUnknown)))
          (comm_error (lit "wake_not_prepared") (lit "Agent Wake delivery outcome requires the exact prepared attempt"));
    _ ← execute_update wc_agent_wake_attempts (fun _ a => wa_attempt_id a ==? attempt_id)
          (fun a => if delivered
                    then a <| wa_state := WaDelivered |> <| wa_delivered_at := coalesce (wa_delivered_at a) (Some (now 0)) |>
                    else attempt_unknown (now 0) a);
    _ ← execute_update wc_agent_wakes (fun _ w => wk_wake_id w ==? wake_id)
          (fun w => move_wake (if delivered then WakeDelivered else WakeDeliveryUnknown) (now 0) w
                      <| wk_claim_lease_expires_at := None |>);
    found ← load_wake wake_id;
    expect found.

Definition complete_agent_wake_delivery principal (agent_id endpoint_id : str) (expected_controller_generation : Z)
  (wake_id attempt_id claim_fence : str) : ctx AgentWakeRecord :=
  finish_agent_wake_delivery principal agent_id endpoint_id expected_controller_generation wake_id attempt_id claim_fence true.
Definition mark_agent_wake_delivery_unknown principal (agent_id endpoint_id : str) (expected_controller_generation : Z)
  (wake_id attempt_id claim_fence : str) : ctx AgentWakeRecord :=
  finish_agent_wake_delivery principal agent_id endpoint_id expected_controller_generation wake_id attempt_id claim_fence false.

(** ** The resumed turn *)

(** The first consume of a task's Wake extends the lease of the Attempt it carries. *)
Definition promote_task_attempt principal (wake : AgentWakeRecord) (agent_id endpoint_id : str)
  (expected_controller_generation at_ : Z) : ctx unit :=
  match wk_trigger_kind wake, wk_source_task_id wake, wk_source_task_attempt_id wake with
  | AgentTaskAttemptTrigger, Some task_id, Some task_attempt_id =>
      let lease := i64_sat_add at_ AGENT_TASK_ENDPOINT_TAKEOVER_LEASE_MS in
      promoted ← execute_update wc_agent_task_attempts
        (fun db a => (ta_attempt_id a ==? task_attempt_id) && (ta_task_id a ==? task_id) && (ta_assignee_agent_id a ==? agent_id)
                     && (ta_state a ==? AttemptActive) && Z.ltb at_ (ta_lease_expires_at a)
                     && carried_execution db principal task_id task_attempt_id agent_id (wk_wake_id wake) endpoint_id
                          expected_controller_generation)
        (fun a => a <| ta_lease_expires_at := Z.max (ta_lease_expires_at a) lease |>);
      when (Nat.eqb promoted 1) (touch_task task_id at_)
  | _, _, _ => mret tt
  end.

Definition consume_agent_wake principal (agent_id endpoint_id : str) (expected_controller_generation : Z)
  (wake_id consume_token : str) : ctx AgentWakeConsumeResult :=
  _ ← lift (validate_communication_principal principal);
  _ ← lift (validate_id agent_id DURABLE_AGENT_ID_PREFIX (lit "invalid_agent_id"));
  _ ← lift (validate_id endpoint_id AGENT_ENDPOINT_ID_PREFIX (lit "invalid_endpoint_id"));
  _ ← lift (validate_id wake_id AGENT_WAKE_ID_PREFIX (lit "invalid_wake_id"));
  _ ← lift (validate_id consume_token AGENT_WAKE_CONSUME_TOKEN_PREFIX (lit "invalid_wake_consume_token"));
  endpoint ← require_current_endpoint principal agent_id endpoint_id (Some expected_controller_generation) (now 1);
  found ← load_wake wake_id;
  wake ← or_fail found wake_missing;
  _ ← reject (wk_target_agent_id wake !=? agent_id)
        (comm_error (lit "wake_agent_mismatch") (lit "Agent Wake belongs to a different Agent"));
  _ ← reject (negb (claimed_by endpoint_id expected_controller_generation wake))
        (comm_error (lit "wake_endpoint_fence_mismatch") (lit "Agent Wake is bound to a different Endpoint generation"));
  wake_attempt_id ← or_fail (wk_claimed_attempt_id wake)
    (comm_error (lit "wake_not_dispatched") (lit "Agent Wake has no exact dispatched attempt to consume"));
  found ← load_attempt wake_attempt_id;
  attempt ← or_fail found (comm_error (lit "wake_attempt_not_found") (lit "Agent Wake Attempt does not exist"));
  _ ← reject (negb (er_wake_capable endpoint)
              && negb (one_of (wa_adapter_kind attempt) [lit "explicit_activation"; lit "mcp_app"]))
        (not_wake_capable (lit "Agent Endpoint is not wake-capable"));
  _ ← reject (wa_consume_token_hash attempt !=? digest_text CONSUME_TOKEN_DOMAIN consume_token)
        (comm_error (lit "wake_consume_token_mismatch")
           (lit "consume_token does not identify the exact Agent Wake continuation"));
  if wk_state wake ==? WakeConsumed
  then
    _ ← reject ((wk_consumed_by_endpoint_id wake !=? Some endpoint_id)
                || (wk_consumed_controller_generation wake !=? Some expected_controller_generation))
          (comm_error (lit "wake_endpoint_fence_mismatch")
             (lit "Consumed Agent Wake is bound to a different Endpoint generation"));
    consumed_at ← expect (wk_consumed_at wake);
    mret (mkWakeConsumed (wk_wake_id wake) (wk_target_agent_id wake) WakeConsumed true consumed_at false)
  else
    _ ← reject (negb (dispatched (wk_state wake)))
          (comm_error (lit "wake_not_dispatched") (lit "Agent Wake can only be consumed after the dispatch fence"));
    _ ← promote_task_attempt principal wake agent_id endpoint_id expected_controller_generation (now 0);
    _ ← execute_update wc_agent_wake_attempts (fun _ a => wa_attempt_id a ==? wake_attempt_id)
          (fun a => a <| wa_state := WaConsumed |> <| wa_consumed_at := coalesce (wa_consumed_at a) (Some (now 0)) |>);
    _ ← execute_update wc_agent_wakes (fun _ w => (wk_wake_id w ==? wake_id) && dispatched (wk_state w))
          (fun w => move_wake WakeConsumed (now 0) w <| wk_consumed_at := Some (now 0) |>
                      <| wk_consumed_by_endpoint_id := Some endpoint_id |>
                      <| wk_consumed_controller_generation := Some expected_controller_generation |>
                      <| wk_claim_lease_expires_at := None |>);
    _ ← execute_update wc_agent_endpoints (fun _ e => ep_endpoint_id e ==? endpoint_id)
          (fun e => e <| ep_last_seen_at := Z.max (ep_last_seen_at e) (now 0) |>);
    mret (mkWakeConsumed wake_id agent_id WakeConsumed false (now 0) true).

(** [ORDER BY CASE WHEN dispatched THEN 0 WHEN claimed THEN 1 ELSE 2 END, created_at, wake_id]. *)
Definition bootstrap_leb (a b : AgentWakeRecord) : bool :=
  let rank := fun w => if dispatched (wk_state w) then 0%Z else if wk_state w ==? WakeClaimed then 1%Z else 2%Z in
  Z.ltb (rank a) (rank b) || (Z.eqb (rank a) (rank b) && by_key wk_created_at wk_wake_id a b).

Definition bootstrap_summary principal (agent_id : str) (wake : AgentWakeRecord) : ctx AgentWakeBootstrapSummary :=
  event ← (if wk_trigger_kind wake ==? AttentionEvent
           then e ← require_agent_attention_event_for_wake principal (wk_source_event_id wake) agent_id; mret (Some e)
           else mret None);
  mret (mkBootstrapWake (wk_wake_id wake) (wk_state wake) (wk_revision wake) (wk_trigger_kind wake)
          (wk_latest_conversation_id wake) (wk_latest_message_id wake) (wk_queued_delivery_count_snapshot wake)
          (wk_inbox_high_watermark wake) (or_else (av_task_id <$> event) (wk_source_task_id wake))
          (or_else (av_task_attempt_id <$> event) (wk_source_task_attempt_id wake)) (av_event_id <$> event)
          (av_goal_id <$> event)).

Definition bootstrap_agent_conversation principal (agent_id endpoint_id : str) (expected_controller_generation : Z)
  (selected_conversation_id wake_id : option str) : ctx AgentConversationBootstrapRecord :=
  _ ← lift (validate_communication_principal principal);
  _ ← lift (validate_id agent_id DURABLE_AGENT_ID_PREFIX (lit "invalid_agent_id"));
  _ ← lift (validate_id endpoint_id AGENT_ENDPOINT_ID_PREFIX (lit "invalid_endpoint_id"));
  _ ← lift (validate_optional (fun id => validate_id id CONVERSATION_ID_PREFIX (lit "invalid_conversation_id")) selected_conversation_id);
  _ ← lift (validate_optional (fun id => validate_id id AGENT_WAKE_ID_PREFIX (lit "invalid_wake_id")) wake_id);
  endpoint ← require_current_endpoint principal agent_id endpoint_id (Some expected_controller_generation) (now 0);
  found ← load_agent agent_id (now 1);
  acting_agent ← or_fail found (comm_error (lit "agent_not_found") (lit "Agent identity does not exist"));
  wake ← match wake_id with
         | Some wake_id =>
             found ← load_wake wake_id;
             wake ← or_fail (opt_filter (fun w => wk_target_agent_id w ==? agent_id) found) wake_missing;
             mret (if resolved (wk_state wake) then None else Some wake)
         | None => gets (fun db => first_row bootstrap_leb
                           (fun w => (wk_target_agent_id w ==? agent_id) && negb (resolved (wk_state w))) (wakes db))
         end;
  selected_conversation ← match or_else selected_conversation_id (wake ≫= wk_latest_conversation_id) with
    | Some conversation_id =>
        detail ← read_conversation_in_connection principal (AccessAgent agent_id endpoint_id expected_controller_generation)
                   conversation_id 0 0 (now 2);
        mret (Some (cd_conversation detail))
    | None => mret None
    end;
  queued ← gets (fun db => List.filter (fun d => (dl_recipient_agent_id d ==? agent_id) && (dl_state d ==? DeliveryQueued)) (deliveries db));
  summary ← match wake with
            | Some wake => s ← bootstrap_summary principal agent_id wake; mret (Some s)
            | None => mret None
            end;
  mret (mkBootstrap acting_agent endpoint selected_conversation (Z.of_nat (length queued))
          (foldr (fun d n => Z.max (dl_delivery_order d) n) 0%Z queued) summary).

Definition with_nuls (parts : list str) : str := join [NUL] parts.

Definition accept_explicit_agent_wake_activation principal (agent_id endpoint_id : str) (expected_controller_generation : Z)
  (wake_id activation_idempotency_key : str) : ctx AgentWakeExplicitActivation :=
  _ ← lift (validate_communication_principal principal);
  _ ← lift (validate_id agent_id DURABLE_AGENT_ID_PREFIX (lit "invalid_agent_id"));
  _ ← lift (validate_id endpoint_id AGENT_ENDPOINT_ID_PREFIX (lit "invalid_endpoint_id"));
  _ ← lift (validate_id wake_id AGENT_WAKE_ID_PREFIX (lit "invalid_wake_id"));
  activation_idempotency_key ← lift (validate_idempotency_key activation_idempotency_key);
  let request_hash := digest_text (lit "webcodex.agent-wake.explicit-activation-request.v1")
                        (with_nuls [agent_id; endpoint_id; fmt_Z expected_controller_generation; wake_id]) in
  let consume_token_digest := digest_text (lit "webcodex.agent-wake.explicit-activation-consume.v1")
                                (with_nuls [pr_digest principal; agent_id; endpoint_id; fmt_Z expected_controller_generation;
                                            wake_id; activation_idempotency_key]) in
  let consume_token := AGENT_WAKE_CONSUME_TOKEN_PREFIX ++ take 32 consume_token_digest in
  existing ← lookup_idempotent_resource principal OP_EXPLICIT_ACTIVATION activation_idempotency_key request_hash;
  match existing with
  | Some attempt_id =>
      found ← load_attempt attempt_id;
      attempt ← or_fail found (comm_error (lit "wake_attempt_not_found") (lit "Explicit Agent Wake activation no longer exists"));
      found ← load_wake wake_id;
      wake ← or_fail found wake_missing;
      mret (mkActivation wake (wa_attempt_id attempt) consume_token true false)
  | None =>
      _ ← require_current_endpoint principal agent_id endpoint_id (Some expected_controller_generation) (now 1);
      found ← load_wake wake_id;
      wake ← or_fail (opt_filter (fun w => wk_target_agent_id w ==? agent_id) found) wake_missing;
      _ ← reject (wk_trigger_kind wake ==? AgentTaskAttemptTrigger)
            (comm_error (lit "agent_task_wake_requires_endpoint_dispatch")
               (lit "AgentTask-origin Wake must be claimed through the continuation Endpoint carrier path"));
      _ ← reject (wk_trigger_kind wake ==? AttentionEvent)
            (comm_error (lit "attention_wake_requires_endpoint_dispatch")
               (lit "Attention-event Wake must be claimed through the continuation Endpoint carrier path"));
      _ ← reject (wk_state wake !=? WakePending)
            (comm_error (lit "wake_not_pending") (lit "Explicit activation can accept only a pending Agent Wake"));
      dispatched_exists ← exists_row wc_agent_wakes (fun w => (wk_target_agent_id w ==? agent_id) && dispatched (wk_state w));
      _ ← reject dispatched_exists
            (comm_error (lit "wake_dispatch_blocked")
               (lit "Resolve the Agent's already-dispatched Wake before accepting another"));
      let attempt_id := new_id AGENT_WAKE_ATTEMPT_ID_PREFIX env 0 in
      let claim_fence := new_id AGENT_WAKE_CLAIM_FENCE_PREFIX env 1 in
      _ ← execute_insert wc_agent_wake_attempts
            (mkWakeAttempt attempt_id wake_id endpoint_id expected_controller_generation (lit "explicit_activation") WaDelivered
               (digest_text CLAIM_FENCE_DOMAIN claim_fence) (digest_text CONSUME_TOKEN_DOMAIN consume_token)
               (now 0) (now 0) (Some (now 0)) (Some (now 0)) None None None);
      changed ← execute_update wc_agent_wakes (fun _ w => (wk_wake_id w ==? wake_id) && (wk_state w ==? WakePending))
                  (fun w => w <| wk_state := WakeDelivered |> <| wk_revision := (wk_revision w + 1)%Z |>
                              <| wk_updated_at := now 0 |> <| wk_claimed_attempt_id := Some attempt_id |>
                              <| wk_claimed_endpoint_id := Some endpoint_id |>
                              <| wk_claimed_controller_generation := Some expected_controller_generation |>
                              <| wk_claim_lease_expires_at := None |>);
      _ ← reject (negb (Nat.eqb changed 1))
            (comm_error (lit "wake_activation_conflict") (lit "Agent Wake changed before explicit activation was accepted"));
      _ ← record_idempotent_resource principal OP_EXPLICIT_ACTIVATION activation_idempotency_key request_hash attempt_id (now 0);
      found ← load_wake wake_id;
      wake ← expect found;
      mret (mkActivation wake attempt_id consume_token false true)
  end.
End Wakes.
