(* ===== verification/AgentTasks.v ===== *)
(** * AgentTasks: the operations on AgentTasks

    agent_task.rs: creating and assigning a task, starting an Attempt, carrying it by an
    Endpoint's Wake or by a CodingAgent Run, its heartbeat, and the two ways a task becomes
    terminal: the controller completes its Attempt, or the bound Run is observed to end. *)
From S2P Require Import Prelude RustStr Sql ConnectorModel CodingAgent AgentModel AgentStore AgentCore AgentComm.

Definition MAX_AGENT_TASK_TITLE_CHARS : Z := 200.
Definition MAX_AGENT_TASK_INSTRUCTION_BYTES : Z := 8192.
Definition MAX_AGENT_TASK_TERMINAL_TEXT_BYTES : Z := 4096.
Definition MAX_AGENT_TASK_PROJECT_REF_CHARS : Z := 256.
Definition MAX_AGENT_TASK_LIST_LIMIT : Z := 100.
Definition OP_CREATE_AGENT_TASK : str := lit "create_agent_task".
Definition OP_START_AGENT_TASK_ATTEMPT : str := lit "start_agent_task_attempt".
Definition OP_COMPLETE_AGENT_TASK_ATTEMPT : str := lit "complete_agent_task_attempt".

Record NewAgentTask : Type := mkNewTask {
  nt_title : str;
  nt_instruction : str;
  nt_assignee_agent_id : option str;
  nt_source_conversation_id : option str;
  nt_source_message_id : option str;
  nt_referenced_project_id : option str;
  nt_idempotency_key : str
}.

Record AgentTaskMutation : Type := mkTaskMutation {
  tm_task : AgentTaskDetail;
  tm_created : bool;
  tm_replayed : bool;
  tm_state_changed : bool
}.

Record AgentTaskPage : Type := mkTaskPage {
  tp_total_count : Z;
  tp_offset : Z;
  tp_next_offset : option Z;
  tp_truncated : bool;
  tp_tasks : list AgentTaskSummary
}.

Record AgentTaskAttemptStartMutation : Type := mkStartMutation {
  sm_task : AgentTaskSummary;
  sm_attempt : AgentTaskAttemptRecord;
  sm_attempt_fence : str;
  sm_replayed : bool;
  sm_state_changed : bool
}.

Record AgentTaskAttemptHeartbeatMutation : Type := mkHeartbeat {
  hb_task : AgentTaskSummary;
  hb_attempt : AgentTaskAttemptRecord;
  hb_state_changed : bool
}.

Record AgentTaskAttemptCompletionMutation : Type := mkCompletion {
  ct_task : AgentTaskSummary;
  ct_attempt : AgentTaskAttemptRecord;
  ct_replayed : bool;
  ct_state_changed : bool;
  ct_attention_event_count : nat
}.

Record AgentTaskEndpointExecutionMutation : Type := mkExecutionMutation {
  xm_execution : AgentTaskEndpointExecutionRecord;
  xm_replayed : bool;
  xm_state_changed : bool
}.

Record AgentTaskCodingRunBindingIntent : Type := mkIntent {
  bi_run_id : str;
  bi_runtime_project_id : str;
  bi_provider_id : str;
  bi_provider_instance_id : str;
  bi_authority_fingerprint : str;
  bi_coding_agent_intent_fingerprint : str;
  bi_binding_intent_fingerprint : str
}.

Record AgentTaskCodingRunObservation : Type := mkObservation {
  ob_run_id : str;
  ob_runtime_project_id : str;
  ob_provider_id : str;
  ob_provider_instance_id : str;
  ob_authority_fingerprint : str;
  ob_coding_agent_intent_fingerprint : str;
  ob_run_state : CodingAgentRunState;
  ob_execution_state : CodingAgentExecutionState;
  ob_observation_revision : Z;
  ob_terminal_stop_reason : option str;
  ob_terminal_error_code : option str;
  ob_terminal_message : option str;
  ob_completed_at_unix : option Z
}.

Record AgentTaskCodingRunStartContext : Type := mkStartContext {
  sc_task : AgentTaskDetail;
  sc_attempt : AgentTaskAttemptRecord
}.

Record AgentTaskCodingRunPrepared : Type := mkRunPrepared {
  rp_binding : AgentTaskCodingRunBindingRecord;
  rp_replayed : bool
}.

Record AgentTaskCodingRunDispatchClaim : Type := mkDispatchClaim {
  kd_binding : AgentTaskCodingRunBindingRecord;
  kd_may_dispatch : bool
}.

Record AgentTaskCodingRunReconcileMutation : Type := mkReconcile {
  rc_task : AgentTaskSummary;
  rc_attempt : AgentTaskAttemptRecord;
  rc_binding : AgentTaskCodingRunBindingRecord;
  rc_state_changed : bool;
  rc_attention_event_count : nat
}.


(** ** Validation *)

Definition validate_task_title (value : str) : checked str :=
  let value := trim value in
  bail? Z.eqb (chars value) 0 || Z.ltb MAX_AGENT_TASK_TITLE_CHARS (chars value)
    with comm_error (lit "invalid_agent_task_title")
           (lit "title must contain 1..=" ++ fmt_Z MAX_AGENT_TASK_TITLE_CHARS ++ lit " characters");;
  Ok value.

Definition validate_instruction (value : str) : checked str :=
  let value := trim value in
  bail? Z.eqb (str_len value) 0 || Z.ltb MAX_AGENT_TASK_INSTRUCTION_BYTES (str_len value)
    with comm_error (lit "invalid_agent_task_instruction")
           (lit "instruction must contain 1..=" ++ fmt_Z MAX_AGENT_TASK_INSTRUCTION_BYTES ++ lit " UTF-8 bytes");;
  Ok value.

Definition validate_project_reference (value : option str) : checked (option str) :=
  match value with
  | None => Ok None
  | Some value =>
      let value := trim value in
      bail? Z.eqb (chars value) 0 || Z.ltb MAX_AGENT_TASK_PROJECT_REF_CHARS (chars value)
        with comm_error (lit "invalid_agent_task_project_reference")
               (lit "referenced_project_id must contain 1..=" ++ fmt_Z MAX_AGENT_TASK_PROJECT_REF_CHARS ++ lit " characters");;
      Ok (Some value)
  end.

Definition validate_optional_terminal_text (value : option str) (label : str) : checked (option str) :=
  match value with
  | None => Ok None
  | Some value =>
      let value := trim value in
      bail? is_empty value || Z.ltb MAX_AGENT_TASK_TERMINAL_TEXT_BYTES (str_len value)
        with comm_error (lit "invalid_agent_task_terminal_text")
               (label ++ lit " must contain 1..=" ++ fmt_Z MAX_AGENT_TASK_TERMINAL_TEXT_BYTES
                ++ lit " UTF-8 bytes when provided");;
      Ok (Some value)
  end.

Definition validate_optional_id (value : option str) (prefix code : str) : checked (option str) :=
  match value with
  | None => Ok None
  | Some value => check? validate_id value prefix code;; Ok (Some value)
  end.

Definition task_request_hash `{!AgentDigest} `{!JsonText} (value : Value) : str :=
  digest_text (lit "webcodex.agent-task.request.v1") (json_to_string value).

(** The state of the Attempt that ended with an outcome. *)
Definition attempt_outcome (outcome : AgentTaskState) : AgentTaskAttemptState :=
  match outcome with TaskSucceeded => AttemptSucceeded | _ => AttemptFailed end.

(** ** Observations of a CodingAgent Run *)

Definition observation_matches (b : AgentTaskCodingRunBindingRecord) (o : AgentTaskCodingRunObservation) : bool :=
  (cb_run_id b ==? ob_run_id o) && (cb_runtime_project_id b ==? ob_runtime_project_id o)
  && (cb_provider_id b ==? ob_provider_id o) && (cb_provider_instance_id b ==? ob_provider_instance_id o)
  && (cb_authority_fingerprint b ==? ob_authority_fingerprint o)
  && (cb_coding_agent_intent_fingerprint b ==? ob_coding_agent_intent_fingerprint o).

Definition require_coding_run_observation_identity (b : AgentTaskCodingRunBindingRecord) (o : AgentTaskCodingRunObservation)
  : checked unit :=
  bail? negb (observation_matches b o)
    with comm_error (lit "agent_task_coding_run_identity_mismatch")
           (lit "CodingAgentRun snapshot does not match the exact durable AgentTaskAttempt binding");;
  Ok tt.

Definition bounded_terminal_text (label : str) (value : option str) : result unit str :=
  bail? is_some_and (fun v => Z.ltb MAX_AGENT_TASK_TERMINAL_TEXT_BYTES (str_len v)) value
    with label ++ lit " exceeds the AgentTask bounded terminal text limit";;
  Ok tt.

Definition canonical_coding_run_snapshot (o : AgentTaskCodingRunObservation) : result CodingAgentRunSnapshot str :=
  check? bounded_terminal_text (lit "terminal_stop_reason") (ob_terminal_stop_reason o);;
  check? bounded_terminal_text (lit "terminal_error_code") (ob_terminal_error_code o);;
  check? bounded_terminal_text (lit "terminal_message") (ob_terminal_message o);;
  bail? Z.ltb (ob_observation_revision o) 0
    with lit "CodingAgentRun snapshot contains a negative observation revision";;
  let has_terminal_metadata := is_some (ob_terminal_stop_reason o) || is_some (ob_terminal_error_code o)
                               || is_some (ob_terminal_message o) || is_some (ob_completed_at_unix o) in
  let? terminal := (if has_terminal_metadata
                    then let? completed := ok_or (ob_completed_at_unix o)
                                             (lit "CodingAgentRun terminal observation lacks completed timestamp") in
                         Ok (Some (mkTerminal (ob_terminal_stop_reason o) (ob_terminal_error_code o) (ob_terminal_message o) completed))
                    else Ok None) in
  let snapshot := mkRun (ob_run_id o) (ob_coding_agent_intent_fingerprint o) (ob_authority_fingerprint o)
                    (ob_runtime_project_id o) (ob_provider_id o) (ob_provider_instance_id o) (ob_run_state o)
                    (ob_execution_state o) (ob_observation_revision o) 0 0 terminal in
  check? validate_coding_agent_run_snapshot snapshot;;
  Ok snapshot.

Definition validate_coding_run_observation (o : AgentTaskCodingRunObservation) : checked CodingAgentRunSnapshot :=
  map_err (comm_error (lit "invalid_agent_task_coding_run_observation")) (canonical_coding_run_snapshot o).

Definition storage_invariant (message : str) : CommunicationStoreError := comm_error (lit "agent_task_storage_invariant") message.

Definition stored_coding_run_snapshot (b : AgentTaskCodingRunBindingRecord) : checked (option CodingAgentRunSnapshot) :=
  match cb_last_observation_revision b with
  | None =>
      bail? is_some (cb_last_observed_run_state b) || is_some (cb_last_observed_execution_state b)
            || is_some (cb_terminal_stop_reason b) || is_some (cb_terminal_error_code b)
            || is_some (cb_terminal_message b) || is_some (cb_completed_at_unix b)
        with storage_invariant (lit "CodingAgent binding has observation fields without an observation revision");;
      Ok None
  | Some revision =>
      let? state := ok_or (cb_last_observed_run_state b)
                      (storage_invariant (lit "CodingAgent binding observation revision lacks run state")) in
      let? execution := ok_or (cb_last_observed_execution_state b)
                          (storage_invariant (lit "CodingAgent binding observation revision lacks execution state")) in
      let? snapshot := map_err (fun message => storage_invariant (lit "stored CodingAgent observation is invalid: " ++ message))
        (canonical_coding_run_snapshot
           (mkObservation (cb_run_id b) (cb_runtime_project_id b) (cb_provider_id b) (cb_provider_instance_id b)
              (cb_authority_fingerprint b) (cb_coding_agent_intent_fingerprint b) state execution revision
              (cb_terminal_stop_reason b) (cb_terminal_error_code b) (cb_terminal_message b) (cb_completed_at_unix b))) in
      Ok (Some snapshot)
  end.

Definition is_binding (task_id attempt_id : str) (b : AgentTaskCodingRunBindingRecord) : bool :=
  (cb_task_id b ==? task_id) && (cb_attempt_id b ==? attempt_id).

Definition merge_agent_task_coding_run_observation (binding : AgentTaskCodingRunBindingRecord)
  (o : AgentTaskCodingRunObservation) (at_ : Z) : ctx (AgentTaskCodingRunBindingRecord * CodingAgentObservationMerge) :=
  _ ← lift (require_coding_run_observation_identity binding o);
  incoming ← lift (validate_coding_run_observation o);
  stored ← lift (stored_coding_run_snapshot binding);
  disposition ← lift (match stored with
                      | Some stored => map_err (comm_error (lit "agent_task_coding_run_observation_conflict"))
                                         (merge_coding_agent_run_snapshot stored incoming)
                      | None => Ok Advance
                      end);
  match disposition with
  | Stale | ExactReplay => mret (binding, disposition)
  | Advance =>
      let dispatch_state := if (ob_run_state o ==? RunLost) || (ob_execution_state o ==? ExecOutcomeUnknown)
                            then DispatchOutcomeUnknown else DispatchBound in
      updated ← execute_update wc_agent_task_coding_runs
        (fun _ b => is_binding (cb_task_id binding) (cb_attempt_id binding) b
                    && (cb_last_observation_revision b ==? cb_last_observation_revision binding))
        (fun b => b <| cb_dispatch_state := dispatch_state |> <| cb_last_observed_run_state := Some (ob_run_state o) |>
                    <| cb_last_observed_execution_state := Some (ob_execution_state o) |>
                    <| cb_last_observation_revision := Some (ob_observation_revision o) |>
                    <| cb_terminal_stop_reason := ob_terminal_stop_reason o |>
                    <| cb_terminal_error_code := ob_terminal_error_code o |>
                    <| cb_terminal_message := ob_terminal_message o |> <| cb_completed_at_unix := ob_completed_at_unix o |>
                    <| cb_updated_at := Z.max (cb_updated_at b) at_ |>);
      _ ← reject (negb (Nat.eqb updated 1))
            (storage_invariant (lit "CodingAgent observation revision CAS did not update the exact durable binding"));
      found ← load_coding_run_binding_for_attempt (cb_task_id binding) (cb_attempt_id binding);
      binding ← or_fail found
        (storage_invariant (lit "AgentTask CodingAgent binding disappeared after monotonic observation merge"));
      mret (binding, disposition)
  end.

Definition run_not_found (message : str) : CommunicationStoreError := comm_error (lit "agent_task_coding_run_not_found") message.
Definition binding_conflict (message : str) : CommunicationStoreError :=
  comm_error (lit "agent_task_coding_run_binding_conflict") message.

(** [dispatch_state = s, updated_at = MAX(updated_at, now)] of one binding. *)
Definition set_dispatch_state (task_id attempt_id : str) (from : AgentTaskCodingRunDispatchState -> bool)
  (to : AgentTaskCodingRunDispatchState) (at_ : Z) : ctx unit :=
  _ ← execute_update wc_agent_task_coding_runs (fun _ b => is_binding task_id attempt_id b && from (cb_dispatch_state b))
        (fun b => b <| cb_dispatch_state := to |> <| cb_updated_at := Z.max (cb_updated_at b) at_ |>);
  mret tt.

(** The verdict of an Attempt and of its task. *)
Definition end_task_attempt (task_id attempt_id : str) (outcome : AgentTaskState) (terminal_result terminal_reason : option str)
  (at_ : Z) : ctx unit :=
  _ ← execute_update wc_agent_task_attempts (fun _ a => ta_attempt_id a ==? attempt_id)
        (fun a => a <| ta_state := attempt_outcome outcome |> <| ta_terminal_at := Some at_ |>
                    <| ta_terminal_result := terminal_result |> <| ta_terminal_reason := terminal_reason |>);
  _ ← execute_update wc_agent_tasks (fun _ t => tk_task_id t ==? task_id)
        (fun t => t <| tk_state := outcome |> <| tk_terminal_attempt_id := Some attempt_id |> <| tk_terminal_at := Some at_ |>
                    <| tk_updated_at := Z.max (tk_updated_at t) at_ |>);
  mret tt.

Section Tasks.
Context `{!AgentDigest} `{!JsonText}.
Variable env : Env.
Abbreviation now n := (now_unix_ms env n).
Implicit Types principal : CommunicationPrincipal.

(** ** Tasks *)

Definition require_owned_agent principal (agent_id : str) : ctx unit :=
  _ ← lift (validate_id agent_id DURABLE_AGENT_ID_PREFIX (lit "invalid_agent_id"));
  owned ← exists_row wc_agent_identities (fun a => (ai_agent_id a ==? agent_id) && owned_agent principal a);
  reject (negb owned) (comm_error (lit "agent_not_found") (lit "Agent identity does not exist")).

Definition validate_source_references principal (conversation_id message_id : option str) : ctx unit :=
  match conversation_id with
  | None => mret tt
  | Some conversation_id =>
      _ ← authorize_conversation_access principal AccessHuman conversation_id (now 1);
      exists_ ← gets (fun db => is_none_or (message_in db conversation_id) message_id);
      reject (negb exists_)
        (comm_error (lit "agent_task_source_message_not_found")
           (lit "Conversation Message does not exist in the referenced Conversation"))
  end.

Definition create_agent_task principal (input : NewAgentTask) : ctx AgentTaskMutation :=
  _ ← lift (validate_communication_principal principal);
  title ← lift (validate_task_title (nt_title input));
  instruction ← lift (validate_instruction (nt_instruction input));
  assignee ← lift (validate_optional_id (nt_assignee_agent_id input) DURABLE_AGENT_ID_PREFIX (lit "invalid_agent_id"));
  conversation ← lift (validate_optional_id (nt_source_conversation_id input) CONVERSATION_ID_PREFIX (lit "invalid_conversation_id"));
  message ← lift (validate_optional_id (nt_source_message_id input) CONVERSATION_MESSAGE_ID_PREFIX (lit "invalid_message_id"));
  _ ← reject (is_some message && is_none conversation)
        (comm_error (lit "agent_task_source_invalid") (lit "source_message_id requires source_conversation_id"));
  project ← lift (validate_project_reference (nt_referenced_project_id input));
  idempotency_key ← lift (validate_idempotency_key (nt_idempotency_key input));
  let request_hash := task_request_hash (VObject [member "title" (VString title); member "instruction" (VString instruction);
                        member "assignee_agent_id" (opt_string assignee); member "source_conversation_id" (opt_string conversation);
                        member "source_message_id" (opt_string message); member "referenced_project_id" (opt_string project)]) in
  existing ← lookup_idempotent_resource principal OP_CREATE_AGENT_TASK idempotency_key request_hash;
  match existing with
  | Some task_id =>
      task ← load_owned_task principal task_id;
      mret (mkTaskMutation (task_detail task (now 0)) false true false)
  | None =>
      _ ← match assignee with Some agent_id => require_owned_agent principal agent_id | None => mret tt end;
      _ ← validate_source_references principal conversation message;
      let task_id := new_id AGENT_TASK_ID_PREFIX env 0 in
      _ ← execute_insert wc_agent_tasks
            (mkAgentTask task_id (pr_kind principal) (pr_digest principal) assignee title instruction conversation message
               project TaskReady None None (now 0) (now 0) None);
      _ ← record_idempotent_resource principal OP_CREATE_AGENT_TASK idempotency_key request_hash task_id (now 0);
      task ← load_owned_task principal task_id;
      mret (mkTaskMutation (task_detail task (now 0)) true false true)
  end.

Fixpoint load_summaries principal (task_ids : list str) : ctx (list AgentTaskSummary) :=
  match task_ids with
  | [] => mret []
  | task_id :: rest =>
      task ← load_owned_task principal task_id;
      tasks ← load_summaries principal rest;
      mret (task_summary task (now 0) :: tasks)
  end.

Definition list_agent_tasks principal (assignee_agent_id : option str) (offset limit : Z) : ctx AgentTaskPage :=
  _ ← lift (validate_communication_principal principal);
  assignee ← lift (validate_optional_id assignee_agent_id DURABLE_AGENT_ID_PREFIX (lit "invalid_agent_id"));
  _ ← reject (Z.eqb limit 0 || Z.ltb MAX_AGENT_TASK_LIST_LIMIT limit)
        (comm_error (lit "invalid_agent_task_list_limit") (lit "limit must be 1..=" ++ fmt_Z MAX_AGENT_TASK_LIST_LIMIT));
  listed ← gets (fun db => List.filter (fun t => owned_by principal (tk_owner_principal_kind t) (tk_owner_principal_digest t)
                                                 && is_none_or (fun agent_id => tk_assignee_agent_id t ==? Some agent_id) assignee)
                             (agent_tasks db));
  let total_count := Z.of_nat (length listed) in
  tasks ← load_summaries principal
            (map tk_task_id (page limit offset (sort_by (fun a b => by_key (fun t => (- tk_updated_at t)%Z) tk_task_id a b) listed)));
  let next_offset := next_page offset (length tasks) total_count in
  mret (mkTaskPage total_count offset next_offset (is_some next_offset) tasks).

Definition read_agent_task principal (task_id : str) : ctx AgentTaskDetail :=
  _ ← lift (validate_communication_principal principal);
  _ ← lift (validate_id task_id AGENT_TASK_ID_PREFIX (lit "invalid_agent_task_id"));
  task ← load_owned_task principal task_id;
  mret (task_detail task (now 0)).

Definition attempt_is_active (task : StoredTask) : bool :=
  is_some_and (fun a => ta_state a ==? AttemptActive) (sk_latest_attempt task).

Definition assign_agent_task principal (task_id assignee_agent_id : str) : ctx AgentTaskMutation :=
  _ ← lift (validate_communication_principal principal);
  _ ← lift (validate_id task_id AGENT_TASK_ID_PREFIX (lit "invalid_agent_task_id"));
  _ ← lift (validate_id assignee_agent_id DURABLE_AGENT_ID_PREFIX (lit "invalid_agent_id"));
  task ← load_owned_task principal task_id;
  _ ← reject (task_terminal (sk_stored_state task)) task_terminal_error;
  _ ← require_owned_agent principal assignee_agent_id;
  task ← materialize_expired_latest_attempt task (now 0);
  let same := sk_assignee_agent_id task ==? Some assignee_agent_id in
  _ ← match (if same then None else blocking_execution_error (sk_latest_coding_run task)) with
      | Some error => fail error
      | None => mret tt
      end;
  if same then mret (mkTaskMutation (task_detail task (now 0)) false false false)
  else
    _ ← reject (attempt_is_active task)
          (comm_error (lit "agent_task_attempt_active")
             (lit "AgentTask has an unexpired active Attempt; reassignment is fenced"));
    _ ← execute_update wc_agent_tasks (fun _ t => tk_task_id t ==? task_id)
          (fun t => t <| tk_assignee_agent_id := Some assignee_agent_id |> <| tk_state := TaskReady |>
                      <| tk_updated_at := Z.max (now 0) (sk_updated_at task) |>);
    task ← load_owned_task principal task_id;
    mret (mkTaskMutation (task_detail task (now 0)) false false true).

(** ** Attempts *)

Definition start_agent_task_attempt principal (task_id assignee_agent_id idempotency_key : str)
  : ctx AgentTaskAttemptStartMutation :=
  _ ← lift (validate_communication_principal principal);
  _ ← lift (validate_id task_id AGENT_TASK_ID_PREFIX (lit "invalid_agent_task_id"));
  _ ← lift (validate_id assignee_agent_id DURABLE_AGENT_ID_PREFIX (lit "invalid_agent_id"));
  idempotency_key ← lift (validate_idempotency_key idempotency_key);
  let request_hash := task_request_hash (VObject [member "task_id" (VString task_id);
                        member "assignee_agent_id" (VString assignee_agent_id)]) in
  task ← load_owned_task principal task_id;
  existing ← lookup_idempotent_resource principal OP_START_AGENT_TASK_ATTEMPT idempotency_key request_hash;
  match existing with
  | Some attempt_id =>
      found ← load_attempt_for_task task_id attempt_id;
      attempt ← or_fail found (attempt_not_found (lit "AgentTaskAttempt does not exist"));
      mret (mkStartMutation (task_summary task (now 0)) (attempt_record attempt (now 0)) (ta_attempt_fence attempt) true false)
  | None =>
      _ ← reject (task_terminal (sk_stored_state task)) task_terminal_error;
      current_assignee ← or_fail (sk_assignee_agent_id task)
        (comm_error (lit "agent_task_unassigned")
           (lit "AgentTask must have an explicit assignee before an Attempt can start"));
      _ ← reject (current_assignee !=? assignee_agent_id)
            (comm_error (lit "agent_task_assignee_mismatch")
               (lit "Requested Agent does not match the AgentTask current assignee"));
      _ ← require_owned_agent principal assignee_agent_id;
      task ← materialize_expired_latest_attempt task (now 0);
      _ ← match blocking_execution_error (sk_latest_coding_run task) with Some error => fail error | None => mret tt end;
      _ ← reject (attempt_is_active task)
            (comm_error (lit "agent_task_attempt_active")
               (lit "AgentTask already has an unexpired authoritative Attempt"));
      let attempt_number := unwrap_or 1%Z ((fun a => i64_sat_add (ta_attempt_number a) 1) <$> sk_latest_attempt task) in
      let attempt_id := new_id AGENT_TASK_ATTEMPT_ID_PREFIX env 0 in
      let attempt_fence := new_id AGENT_TASK_ATTEMPT_FENCE_PREFIX env 1 in
      _ ← execute_insert wc_agent_task_attempts
            (mkStoredAttempt attempt_id task_id attempt_number assignee_agent_id AttemptActive
               (i64_sat_add (now 0) DEFAULT_AGENT_TASK_ATTEMPT_LEASE_MS) attempt_fence 1 (now 0) (now 0) None None None);
      _ ← execute_update wc_agent_tasks (fun _ t => tk_task_id t ==? task_id)
            (fun t => t <| tk_state := TaskActive |> <| tk_latest_attempt_id := Some attempt_id |>
                        <| tk_updated_at := Z.max (now 0) (sk_updated_at task) |>);
      _ ← record_idempotent_resource principal OP_START_AGENT_TASK_ATTEMPT idempotency_key request_hash attempt_id (now 0);
      task ← load_owned_task principal task_id;
      found ← load_attempt_for_task task_id attempt_id;
      attempt ← or_fail found (attempt_not_found (lit "AgentTaskAttempt disappeared after creation"));
      mret (mkStartMutation (task_summary task (now 0)) (attempt_record attempt (now 0)) (ta_attempt_fence attempt) false true)
  end.

Definition start_agent_task_endpoint_continuation principal (task_id attempt_id assignee_agent_id attempt_fence : str)
  (attempt_controller_generation : Z) : ctx AgentTaskEndpointExecutionMutation :=
  _ ← lift (validate_attempt_mutation_inputs principal task_id attempt_id assignee_agent_id attempt_fence
              attempt_controller_generation);
  let start_identity_fingerprint :=
    digest_text (lit "webcodex.agent-task.endpoint-continuation.start.v1")
      (json_to_string (VObject [member "task_id" (VString task_id); member "attempt_id" (VString attempt_id);
         member "assignee_agent_id" (VString assignee_agent_id); member "attempt_fence" (VString attempt_fence);
         member "attempt_controller_generation" (VInt attempt_controller_generation)])) in
  task ← load_owned_task principal task_id;
  existing ← select_row wc_agent_task_endpoint_executions (fun e => (ee_task_id e ==? task_id) && (ee_attempt_id e ==? attempt_id));
  match existing with
  | Some e =>
      _ ← reject (ee_start_identity_fingerprint e !=? start_identity_fingerprint)
            (comm_error (lit "agent_task_endpoint_execution_binding_conflict")
               (lit "AgentTaskAttempt Endpoint execution already exists for a different exact start identity"));
      found ← load_endpoint_execution_for_attempt task_id attempt_id;
      execution ← or_fail found (storage_invariant (lit "AgentTask Endpoint execution disappeared during exact replay"));
      mret (mkExecutionMutation execution true false)
  | None =>
      _ ← require_current_attempt task attempt_id assignee_agent_id attempt_fence attempt_controller_generation (now 0);
      binding ← load_coding_run_binding_for_attempt task_id attempt_id;
      _ ← reject (is_some binding)
            (comm_error (lit "agent_task_execution_backend_conflict")
               (lit "AgentTaskAttempt is already bound to the CodingAgentRun execution backend"));
      let wake_id := new_id AGENT_WAKE_ID_PREFIX env 0 in
      _ ← execute_insert wc_agent_wakes
            (new_wake wake_id assignee_agent_id AgentTaskAttemptTrigger None None None None None None (Some task_id)
               (Some attempt_id) None (now 0));
      _ ← execute_insert wc_agent_task_endpoint_executions
            (mkEndpointExecution task_id attempt_id wake_id start_identity_fingerprint None None (now 0) (now 0));
      found ← load_endpoint_execution_for_attempt task_id attempt_id;
      execution ← or_fail found (storage_invariant (lit "AgentTask Endpoint execution disappeared after creation"));
      mret (mkExecutionMutation execution false true)
  end.

Definition heartbeat_agent_task_attempt principal (task_id attempt_id assignee_agent_id attempt_fence : str)
  (attempt_controller_generation : Z) : ctx AgentTaskAttemptHeartbeatMutation :=
  _ ← lift (validate_attempt_mutation_inputs principal task_id attempt_id assignee_agent_id attempt_fence
              attempt_controller_generation);
  task ← load_owned_task principal task_id;
  attempt ← require_current_attempt task attempt_id assignee_agent_id attempt_fence attempt_controller_generation (now 0);
  let lease := Z.max (ta_lease_expires_at attempt) (i64_sat_add (now 0) DEFAULT_AGENT_TASK_ATTEMPT_LEASE_MS) in
  _ ← execute_update wc_agent_task_attempts (fun _ a => ta_attempt_id a ==? attempt_id)
        (fun a => a <| ta_lease_expires_at := lease |>);
  _ ← touch_task task_id (now 0);
  task ← load_owned_task principal task_id;
  found ← load_attempt_for_task task_id attempt_id;
  attempt ← or_fail found (attempt_not_found (lit "AgentTaskAttempt disappeared after heartbeat"));
  mret (mkHeartbeat (task_summary task (now 0)) (attempt_record attempt (now 0)) true).

Definition replace_agent_task_attempt_controller principal (task_id attempt_id assignee_agent_id attempt_fence : str)
  (expected_controller_generation : Z) : ctx AgentTaskAttemptRecord :=
  _ ← lift (validate_attempt_mutation_inputs principal task_id attempt_id assignee_agent_id attempt_fence
              expected_controller_generation);
  replace_agent_task_attempt_controller_in_transaction principal task_id attempt_id assignee_agent_id attempt_fence
    expected_controller_generation (now 0).

Definition complete_agent_task_attempt principal (task_id attempt_id assignee_agent_id attempt_fence : str)
  (attempt_controller_generation : Z) (outcome : AgentTaskState) (terminal_result terminal_reason : option str)
  (completion_key : str) : ctx AgentTaskAttemptCompletionMutation :=
  _ ← lift (validate_attempt_mutation_inputs principal task_id attempt_id assignee_agent_id attempt_fence
              attempt_controller_generation);
  _ ← reject (negb (task_terminal outcome))
        (comm_error (lit "invalid_agent_task_completion_outcome")
           (lit "AgentTaskAttempt completion outcome must be succeeded or failed"));
  terminal_result ← lift (validate_optional_terminal_text terminal_result (lit "terminal_result"));
  terminal_reason ← lift (validate_optional_terminal_text terminal_reason (lit "terminal_reason"));
  completion_key ← lift (validate_idempotency_key completion_key);
  let request_hash := task_request_hash (VObject [member "task_id" (VString task_id); member "attempt_id" (VString attempt_id);
                        member "assignee_agent_id" (VString assignee_agent_id); member "attempt_fence" (VString attempt_fence);
                        member "attempt_controller_generation" (VInt attempt_controller_generation);
                        member "outcome" (VString (agent_task_state_as_str outcome));
                        member "terminal_result" (opt_string terminal_result);
                        member "terminal_reason" (opt_string terminal_reason)]) in
  task ← load_owned_task principal task_id;
  existing ← lookup_idempotent_resource principal OP_COMPLETE_AGENT_TASK_ATTEMPT completion_key request_hash;
  match existing with
  | Some replayed_attempt_id =>
      _ ← reject (replayed_attempt_id !=? attempt_id)
            (comm_error (lit "agent_task_idempotency_invariant") (lit "Completion replay points to a different AgentTaskAttempt"));
      found ← load_attempt_for_task task_id attempt_id;
      attempt ← or_fail found (attempt_not_found (lit "AgentTaskAttempt does not exist"));
      mret (mkCompletion (task_summary task (now 0)) (attempt_record attempt (now 0)) true false 0)
  | None =>
      _ ← require_current_attempt task attempt_id assignee_agent_id attempt_fence attempt_controller_generation (now 0);
      _ ← end_task_attempt task_id attempt_id outcome terminal_result terminal_reason (now 0);
      _ ← retire_pre_dispatch_endpoint_execution_for_attempt attempt_id (now 0);
      events ← create_agent_task_terminal_attention_in_transaction env principal task_id attempt_id assignee_agent_id outcome (now 0);
      _ ← record_idempotent_resource principal OP_COMPLETE_AGENT_TASK_ATTEMPT completion_key request_hash attempt_id (now 0);
      task ← load_owned_task principal task_id;
      found ← load_attempt_for_task task_id attempt_id;
      attempt ← or_fail found (attempt_not_found (lit "AgentTaskAttempt disappeared after completion"));
      mret (mkCompletion (task_summary task (now 0)) (attempt_record attempt (now 0)) false true events)
  end.

(** ** CodingAgent Runs *)

Definition backend_conflict : CommunicationStoreError :=
  comm_error (lit "agent_task_execution_backend_conflict")
    (lit "AgentTaskAttempt is already bound to the Agent Endpoint continuation backend").

Definition require_project (task : StoredTask) : ctx str :=
  or_fail (sk_referenced_project_id task)
    (comm_error (lit "agent_task_project_required")
       (lit "AgentTask has no referenced_project_id and cannot dispatch a CodingAgentRun")).

Definition agent_task_coding_run_start_context principal (project task_id attempt_id assignee_agent_id attempt_fence : str)
  (attempt_controller_generation : Z) : ctx AgentTaskCodingRunStartContext :=
  _ ← lift (validate_attempt_mutation_inputs principal task_id attempt_id assignee_agent_id attempt_fence
              attempt_controller_generation);
  task ← load_owned_task principal task_id;
  referenced_project ← require_project task;
  _ ← reject (project !=? referenced_project)
        (comm_error (lit "agent_task_project_mismatch")
           (lit "Requested Project does not match AgentTask referenced_project_id"));
  attempt ← require_current_attempt task attempt_id assignee_agent_id attempt_fence attempt_controller_generation (now 0);
  execution ← load_endpoint_execution_for_attempt task_id attempt_id;
  _ ← reject (is_some execution) backend_conflict;
  mret (mkStartContext (task_detail task (now 0)) (attempt_record attempt (now 0))).

Definition same_intent (existing : AgentTaskCodingRunBindingRecord) (intent : AgentTaskCodingRunBindingIntent) : bool :=
  (cb_run_id existing ==? bi_run_id intent) && (cb_runtime_project_id existing ==? bi_runtime_project_id intent)
  && (cb_provider_id existing ==? bi_provider_id intent)
  && (cb_authority_fingerprint existing ==? bi_authority_fingerprint intent)
  && (cb_coding_agent_intent_fingerprint existing ==? bi_coding_agent_intent_fingerprint intent)
  && (cb_binding_intent_fingerprint existing ==? bi_binding_intent_fingerprint intent).

Definition undispatched (s : AgentTaskCodingRunDispatchState) : bool :=
  match s with DispatchPrepared | DispatchNotStarted => true | _ => false end.

Definition prepare_agent_task_coding_run principal (project task_id attempt_id assignee_agent_id attempt_fence : str)
  (attempt_controller_generation : Z) (intent : AgentTaskCodingRunBindingIntent) : ctx AgentTaskCodingRunPrepared :=
  _ ← lift (validate_attempt_mutation_inputs principal task_id attempt_id assignee_agent_id attempt_fence
              attempt_controller_generation);
  task ← load_owned_task principal task_id;
  referenced_project ← require_project task;
  _ ← reject ((project !=? referenced_project) || (bi_runtime_project_id intent !=? referenced_project))
        (comm_error (lit "agent_task_project_mismatch")
           (lit "CodingAgentRun Project does not match AgentTask referenced_project_id"));
  _ ← require_current_attempt task attempt_id assignee_agent_id attempt_fence attempt_controller_generation (now 0);
  execution ← load_endpoint_execution_for_attempt task_id attempt_id;
  _ ← reject (is_some execution) backend_conflict;
  existing ← load_coding_run_binding_for_attempt task_id attempt_id;
  match existing with
  | Some existing =>
      _ ← reject (negb (same_intent existing intent))
            (binding_conflict (lit "AgentTaskAttempt is already bound to a different CodingAgentRun intent"));
      if cb_provider_instance_id existing ==? bi_provider_instance_id intent
      then mret (mkRunPrepared existing true)
      else
        _ ← reject (negb (undispatched (cb_dispatch_state existing)))
              (binding_conflict (lit "AgentTaskAttempt CodingAgent provider instance cannot change after dispatch may have started"));
        _ ← execute_update wc_agent_task_coding_runs (fun _ b => is_binding task_id attempt_id b)
              (fun b => b <| cb_provider_instance_id := bi_provider_instance_id intent |>
                          <| cb_updated_at := Z.max (cb_updated_at b) (now 0) |>);
        found ← load_coding_run_binding_for_attempt task_id attempt_id;
        existing ← or_fail found (storage_invariant (lit "AgentTask CodingAgent binding disappeared during replay"));
        mret (mkRunPrepared existing true)
  | None =>
      conflicting ← exists_row wc_agent_task_coding_runs (fun b => cb_run_id b ==? bi_run_id intent);
      _ ← reject conflicting (binding_conflict (lit "CodingAgentRun is already bound to another AgentTaskAttempt"));
      _ ← execute_insert wc_agent_task_coding_runs
            (mkBinding task_id attempt_id (bi_run_id intent) (bi_runtime_project_id intent) (bi_provider_id intent)
               (bi_provider_instance_id intent) (bi_authority_fingerprint intent) (bi_coding_agent_intent_fingerprint intent)
               (bi_binding_intent_fingerprint intent) DispatchPrepared None None None None None None None (now 0) (now 0) None);
      found ← load_coding_run_binding_for_attempt task_id attempt_id;
      binding ← or_fail found (storage_invariant (lit "AgentTask CodingAgent binding disappeared after prepare"));
      mret (mkRunPrepared binding false)
  end.

Definition read_agent_task_coding_run_binding principal (task_id attempt_id : str) : ctx AgentTaskCodingRunBindingRecord :=
  _ ← lift (validate_communication_principal principal);
  _ ← lift (validate_id task_id AGENT_TASK_ID_PREFIX (lit "invalid_agent_task_id"));
  _ ← lift (validate_id attempt_id AGENT_TASK_ATTEMPT_ID_PREFIX (lit "invalid_agent_task_attempt_id"));
  task ← load_owned_task principal task_id;
  found ← load_attempt_for_task task_id attempt_id;
  _ ← or_fail found (attempt_not_found (lit "AgentTaskAttempt does not exist"));
  found ← load_coding_run_binding_for_attempt (sk_task_id task) attempt_id;
  or_fail found (run_not_found (lit "AgentTaskAttempt has no bound CodingAgentRun")).

Definition claim_agent_task_coding_run_dispatch principal (task_id attempt_id assignee_agent_id attempt_fence : str)
  (attempt_controller_generation : Z) (binding_intent_fingerprint : str) : ctx AgentTaskCodingRunDispatchClaim :=
  _ ← lift (validate_attempt_mutation_inputs principal task_id attempt_id assignee_agent_id attempt_fence
              attempt_controller_generation);
  task ← load_owned_task principal task_id;
  _ ← require_current_attempt task attempt_id assignee_agent_id attempt_fence attempt_controller_generation (now 0);
  found ← load_coding_run_binding_for_attempt task_id attempt_id;
  binding ← or_fail found (run_not_found (lit "AgentTaskAttempt has no prepared CodingAgentRun binding"));
  _ ← reject (cb_binding_intent_fingerprint binding !=? binding_intent_fingerprint)
        (binding_conflict (lit "CodingAgentRun binding intent does not match the durable Attempt binding"));
  let may_dispatch := undispatched (cb_dispatch_state binding) in
  _ ← when may_dispatch (set_dispatch_state task_id attempt_id undispatched DispatchOutcomeUnknown (now 0));
  found ← load_coding_run_binding_for_attempt task_id attempt_id;
  binding ← or_fail found (storage_invariant (lit "AgentTask CodingAgent binding disappeared during dispatch fencing"));
  mret (mkDispatchClaim binding may_dispatch).

Definition record_agent_task_coding_run_not_started principal (task_id attempt_id run_id : str)
  : ctx AgentTaskCodingRunBindingRecord :=
  _ ← load_owned_task principal task_id;
  found ← load_coding_run_binding_for_attempt task_id attempt_id;
  binding ← or_fail found (run_not_found (lit "AgentTaskAttempt has no bound CodingAgentRun"));
  _ ← reject (cb_run_id binding !=? run_id)
        (comm_error (lit "agent_task_coding_run_identity_mismatch")
           (lit "CodingAgentRun does not match the durable AgentTaskAttempt binding"));
  _ ← when (cb_dispatch_state binding ==? DispatchOutcomeUnknown)
        (set_dispatch_state task_id attempt_id (fun s => s ==? DispatchOutcomeUnknown) DispatchNotStarted (now 0));
  found ← load_coding_run_binding_for_attempt task_id attempt_id;
  or_fail found (storage_invariant (lit "AgentTask CodingAgent binding disappeared after NotStarted observation")).

Definition record_agent_task_coding_run_observation principal (task_id attempt_id : str) (o : AgentTaskCodingRunObservation)
  : ctx AgentTaskCodingRunBindingRecord :=
  _ ← load_owned_task principal task_id;
  found ← load_coding_run_binding_for_attempt task_id attempt_id;
  binding ← or_fail found (run_not_found (lit "AgentTaskAttempt has no bound CodingAgentRun"));
  merged ← merge_agent_task_coding_run_observation binding o (now 0);
  mret (fst merged).

Definition mark_agent_task_coding_run_reconcile_unavailable principal (task_id attempt_id : str)
  : ctx AgentTaskCodingRunBindingRecord :=
  _ ← load_owned_task principal task_id;
  found ← load_coding_run_binding_for_attempt task_id attempt_id;
  binding ← or_fail found (run_not_found (lit "AgentTaskAttempt has no bound CodingAgentRun"));
  _ ← when (cb_dispatch_state binding ==? DispatchBound)
        (set_dispatch_state task_id attempt_id (fun s => s ==? DispatchBound) DispatchOutcomeUnknown (now 0));
  found ← load_coding_run_binding_for_attempt task_id attempt_id;
  or_fail found (storage_invariant (lit "AgentTask CodingAgent binding disappeared during reconciliation")).

Definition terminalize_agent_task_coding_run principal (task_id attempt_id : str) (o : AgentTaskCodingRunObservation)
  (terminal_result terminal_reason : option str) : ctx AgentTaskCodingRunReconcileMutation :=
  _ ← lift (validate_communication_principal principal);
  terminal_result ← lift (validate_optional_terminal_text terminal_result (lit "terminal_result"));
  terminal_reason ← lift (validate_optional_terminal_text terminal_reason (lit "terminal_reason"));
  task ← load_owned_task principal task_id;
  _ ← reject ((ta_attempt_id <$> sk_latest_attempt task) !=? Some attempt_id)
        (stale_attempt (lit "Bound CodingAgentRun no longer belongs to the latest authoritative AgentTaskAttempt"));
  found ← load_coding_run_binding_for_attempt task_id attempt_id;
  binding ← or_fail found (run_not_found (lit "AgentTaskAttempt has no bound CodingAgentRun"));
  merged ← merge_agent_task_coding_run_observation binding o (now 0);
  let '(binding, disposition) := merged in
  _ ← reject (match disposition with Stale => true | _ => false end)
        (comm_error (lit "agent_task_coding_run_observation_stale")
           (lit "stale CodingAgentRun observation cannot terminalize AgentTask state"));
  desired_task_state ← match cb_last_observed_run_state binding with
    | Some RunCompleted => mret TaskSucceeded
    | Some (RunFailed | RunCancelled) => mret TaskFailed
    | _ => fail (comm_error (lit "agent_task_coding_run_not_terminal")
                   (lit "CodingAgentRun is not an authoritative terminal result for AgentTask reconciliation"))
    end;
  observation_revision ← or_fail (cb_last_observation_revision binding)
    (storage_invariant (lit "terminal CodingAgent reconciliation lacks an authoritative observation revision"));
  found ← load_attempt_for_task task_id attempt_id;
  attempt ← or_fail found (attempt_not_found (lit "AgentTaskAttempt does not exist"));
  if task_terminal (sk_stored_state task)
  then
    row ← query_row wc_agent_tasks (fun t => tk_task_id t ==? task_id);
    _ ← reject ((tk_terminal_attempt_id row !=? Some attempt_id) || (sk_stored_state task !=? desired_task_state))
          (stale_attempt (lit "AgentTask is already terminal from a different authoritative result"));
    mret (mkReconcile (task_summary task (now 0)) (attempt_record attempt (now 0)) binding false 0)
  else
    _ ← end_task_attempt task_id attempt_id desired_task_state terminal_result terminal_reason (now 0);
    updated ← execute_update wc_agent_task_coding_runs
      (fun _ b => is_binding task_id attempt_id b && (cb_last_observation_revision b ==? Some observation_revision))
      (fun b => b <| cb_dispatch_state := DispatchTerminal |> <| cb_terminal_at := Some (now 0) |>
                  <| cb_updated_at := Z.max (cb_updated_at b) (now 0) |>);
    _ ← reject (negb (Nat.eqb updated 1))
          (storage_invariant (lit "terminal CodingAgent binding revision CAS did not update the exact durable binding"));
    events ← create_agent_task_terminal_attention_in_transaction env principal task_id attempt_id (ta_assignee_agent_id attempt)
               desired_task_state (now 0);
    task ← load_owned_task principal task_id;
    found ← load_attempt_for_task task_id attempt_id;
    attempt ← or_fail found (attempt_not_found (lit "AgentTaskAttempt disappeared after backend reconciliation"));
    found ← load_coding_run_binding_for_attempt task_id attempt_id;
    binding ← or_fail found (storage_invariant (lit "AgentTask CodingAgent binding disappeared after terminal reconciliation"));
    mret (mkReconcile (task_summary task (now 0)) (attempt_record attempt (now 0)) binding true events).
End Tasks.
