(* ===== verification/AgentGoals.v ===== *)
(** * AgentGoals: the operations on Goals

    goal.rs: a Goal is active until it is completed or cancelled, every change of it counts
    one revision, and it correlates AgentTasks and Workflow Sessions. *)
From S2P Require Import Prelude RustStr Sql ConnectorModel CodingAgent AgentModel AgentStore AgentCore AgentComm.

Definition GOAL_ID_PREFIX : str := lit "wc_goal_".
Definition MAX_GOAL_TITLE_CHARS : Z := 200.
Definition MAX_GOAL_OBJECTIVE_BYTES : Z := 8192.
Definition MAX_GOAL_TERMINAL_REASON_BYTES : Z := 4096.
Definition MAX_GOAL_LIST_LIMIT : Z := 100.
Definition WORKFLOW_SESSION_ID_PREFIX : str := lit "wc_sess_".
Definition MAX_GOAL_IDEMPOTENCY_KEY_CHARS : Z := 128.
Definition OP_CREATE_GOAL : str := lit "create_goal".
Definition OP_UPDATE_GOAL : str := lit "update_goal".
Definition OP_ASSOCIATE_GOAL_AGENT_TASK : str := lit "associate_goal_agent_task".
Definition OP_ASSOCIATE_GOAL_WORKFLOW_SESSION : str := lit "associate_goal_workflow_session".

Record NewGoal : Type := mkNewGoal {
  ng_title : str;
  ng_objective : str;
  ng_idempotency_key : str
}.

Record GoalPatch : Type := mkGoalPatch {
  gp_title : option str;
  gp_objective : option str;
  gp_lifecycle : option GoalLifecycle;
  gp_terminal_reason : option str
}.

Record GoalCorrelation : Type := mkGoalCorrelation {
  gk_kind : GoalCorrelationKind;
  gk_reference_id : str;
  gk_created_at : Z
}.

Record GoalSummary : Type := mkGoalSummary {
  gs_goal_id : str;
  gs_title : str;
  gs_lifecycle : GoalLifecycle;
  gs_revision : Z;
  gs_created_at : Z;
  gs_updated_at : Z;
  gs_terminal_at : option Z;
  gs_agent_task_count : Z;
  gs_workflow_session_count : Z
}.

Record GoalDetail : Type := mkGoalDetail {
  gd_summary : GoalSummary;
  gd_objective : str;
  gd_terminal_reason : option str;
  gd_correlations : list GoalCorrelation
}.

Record GoalMutation : Type := mkGoalMutation {
  gm_goal : GoalDetail;
  gm_created : bool;
  gm_replayed : bool;
  gm_state_changed : bool
}.

Record GoalPage : Type := mkGoalPage {
  gg_total_count : Z;
  gg_offset : Z;
  gg_next_offset : option Z;
  gg_truncated : bool;
  gg_goals : list GoalSummary
}.


(** ** Validation *)

Abbreviation gtx := (tx AgentDb GoalStoreError).
Abbreviation gchecked A := (result A GoalStoreError).

Definition map_communication_validation_error (e : CommunicationStoreError) : GoalStoreError :=
  goal_error (ce_code e) (ce_message e).
Definition validate_goal_principal (principal : CommunicationPrincipal) : gchecked unit :=
  map_err map_communication_validation_error (validate_communication_principal principal).
Definition validate_goal_id (goal_id : str) : gchecked unit :=
  map_err map_communication_validation_error (validate_id goal_id GOAL_ID_PREFIX (lit "invalid_goal_id")).

Definition validate_goal_title (value : str) : gchecked str :=
  let value := trim value in
  bail? is_empty value || Z.ltb MAX_GOAL_TITLE_CHARS (chars value)
    with goal_error (lit "invalid_goal_title")
           (lit "Goal title must contain 1..=" ++ fmt_Z MAX_GOAL_TITLE_CHARS ++ lit " characters");;
  Ok value.
Definition validate_objective (value : str) : gchecked str :=
  let value := trim value in
  bail? is_empty value || Z.ltb MAX_GOAL_OBJECTIVE_BYTES (str_len value)
    with goal_error (lit "invalid_goal_objective")
           (lit "Goal objective must contain 1..=" ++ fmt_Z MAX_GOAL_OBJECTIVE_BYTES ++ lit " UTF-8 bytes");;
  Ok value.
Definition validate_terminal_reason (value : str) : gchecked str :=
  let value := trim value in
  bail? is_empty value || Z.ltb MAX_GOAL_TERMINAL_REASON_BYTES (str_len value)
    with goal_error (lit "invalid_goal_terminal_reason")
           (lit "Goal terminal_reason must contain 1..=" ++ fmt_Z MAX_GOAL_TERMINAL_REASON_BYTES ++ lit " UTF-8 bytes");;
  Ok value.
Definition validate_goal_idempotency_key (value : str) : gchecked str :=
  let value := trim value in
  bail? is_empty value || Z.ltb MAX_GOAL_IDEMPOTENCY_KEY_CHARS (chars value)
    with goal_error (lit "invalid_goal_idempotency_key")
           (lit "idempotency_key must contain 1..=" ++ fmt_Z MAX_GOAL_IDEMPOTENCY_KEY_CHARS ++ lit " characters");;
  Ok value.
(** [value.map(validate).transpose()?]. *)
Definition transpose {A B : Type} (validate : A -> gchecked B) (value : option A) : gchecked (option B) :=
  match value with Some v => let? v := validate v in Ok (Some v) | None => Ok None end.

Definition persisted_goal_state_error : GoalStoreError :=
  goal_error (lit "goal_store_unavailable") (lit "Durable Goal store contains invalid persisted state").

(** The text is stored as its validation returns it. *)
Definition normalized (validate : str -> gchecked str) (value : str) : bool :=
  match validate value with Ok v => v ==? value | Err _ => false end.

Definition validate_loaded_goal_summary (s : GoalSummary) : gchecked unit :=
  bail? negb (normalized validate_goal_title (gs_title s))
        || Z.ltb (gs_revision s) 1 || Z.ltb (gs_agent_task_count s) 0 || Z.ltb (gs_workflow_session_count s) 0
        || Z.ltb MAX_GOAL_CORRELATIONS (i64_sat_add (gs_agent_task_count s) (gs_workflow_session_count s))
        || ((gs_lifecycle s ==? GoalActive) && is_some (gs_terminal_at s))
        || (goal_terminal (gs_lifecycle s) && is_none (gs_terminal_at s))
    with persisted_goal_state_error;;
  Ok tt.

Definition correlation_reference_ok (c : GoalCorrelation) : bool :=
  match gk_kind c with
  | CorrelatesAgentTask => is_ok (validate_id (gk_reference_id c) AGENT_TASK_ID_PREFIX (lit "invalid_agent_task_id"))
  | CorrelatesWorkflowSession => is_ok (validate_id (gk_reference_id c) WORKFLOW_SESSION_ID_PREFIX (lit "invalid_workflow_session_id"))
  end.

Definition validate_loaded_goal_detail (d : GoalDetail) : gchecked unit :=
  check? validate_loaded_goal_summary (gd_summary d);;
  bail? negb (normalized validate_objective (gd_objective d))
        || ((gs_lifecycle (gd_summary d) ==? GoalActive) && is_some (gd_terminal_reason d))
        || negb (is_none_or (normalized validate_terminal_reason) (gd_terminal_reason d))
        || Z.ltb MAX_GOAL_CORRELATIONS (Z.of_nat (length (gd_correlations d)))
        || negb (forallb correlation_reference_ok (gd_correlations d))
    with persisted_goal_state_error;;
  Ok tt.

(** ** Reads *)

Definition correlation_count (db : AgentDb) (goal_id : str) (kind : GoalCorrelationKind) : Z :=
  Z.of_nat (rows_matched (fun c => (gc_goal_id c ==? goal_id) && (gc_kind c ==? kind)) (goal_correlations db)).

Definition goal_summary (db : AgentDb) (g : GoalRow) : GoalSummary :=
  mkGoalSummary (go_goal_id g) (go_title g) (go_lifecycle g) (go_revision g) (go_created_at g) (go_updated_at g)
    (go_terminal_at g) (correlation_count db (go_goal_id g) CorrelatesAgentTask)
    (correlation_count db (go_goal_id g) CorrelatesWorkflowSession).

Definition owned_goal (principal : CommunicationPrincipal) (goal_id : str) (g : GoalRow) : bool :=
  (go_goal_id g ==? goal_id) && owned_by principal (go_owner_principal_kind g) (go_owner_principal_digest g).
Definition goal_not_found : GoalStoreError := goal_error (lit "goal_not_found") (lit "Goal does not exist").

Definition load_owned_goal_summary (principal : CommunicationPrincipal) (goal_id : str) : gtx GoalSummary :=
  _ ← lift (validate_goal_id goal_id);
  found ← select_row wc_goals (owned_goal principal goal_id);
  row ← or_fail found goal_not_found;
  summary ← gets (fun db => goal_summary db row);
  _ ← lift (validate_loaded_goal_summary summary);
  mret summary.

(** [ORDER BY created_at_unix_ms, kind, reference_id]. *)
Definition correlation_leb (a b : CorrelationRow) : bool :=
  Z.ltb (gc_created_at a) (gc_created_at b)
  || (Z.eqb (gc_created_at a) (gc_created_at b)
      && str_leb (correlation_kind_as_str (gc_kind a)) (correlation_kind_as_str (gc_kind b))
      && ((gc_kind a !=? gc_kind b) || str_leb (gc_reference_id a) (gc_reference_id b))).

Definition load_owned_goal (principal : CommunicationPrincipal) (goal_id : str) : gtx GoalDetail :=
  _ ← lift (validate_goal_id goal_id);
  found ← select_row wc_goals (owned_goal principal goal_id);
  row ← or_fail found goal_not_found;
  summary ← gets (fun db => goal_summary db row);
  _ ← reject (Z.ltb MAX_GOAL_CORRELATIONS (i64_sat_add (gs_agent_task_count summary) (gs_workflow_session_count summary)))
        persisted_goal_state_error;
  correlations ← gets (fun db =>
    map (fun c => mkGoalCorrelation (gc_kind c) (gc_reference_id c) (gc_created_at c))
      (limit_rows (MAX_GOAL_CORRELATIONS + 1)
         (sort_by correlation_leb (List.filter (fun c => gc_goal_id c ==? goal_id) (goal_correlations db)))));
  let detail := mkGoalDetail summary (go_objective row) (go_terminal_reason row) correlations in
  _ ← lift (validate_loaded_goal_detail detail);
  mret detail.

Section Goals.
Context `{!AgentDigest} `{!JsonText}.
Variable env : Env.
Abbreviation now n := (now_unix_ms env n).
Implicit Types principal : CommunicationPrincipal.

Definition goal_request_hash (value : Value) : str := digest_text (lit "webcodex.goal.request.v1") (json_to_string value).
Definition GOAL_KEY_DOMAIN : str := lit "webcodex.goal.idempotency-key.v1".

Definition lookup_idempotent_goal principal (operation idempotency_key request_hash : str) : gtx (option str) :=
  existing ← select_row wc_goal_idempotency (key_matches GOAL_KEY_DOMAIN principal operation idempotency_key);
  match existing with
  | None => mret None
  | Some r =>
      if ik_request_hash r ==? request_hash then mret (Some (ik_resource_id r))
      else fail (goal_error (lit "goal_idempotency_conflict")
                   (lit "Idempotency key was already used with a different Goal request"))
  end.

Definition record_idempotent_goal principal (operation idempotency_key request_hash goal_id : str) (at_ : Z) : gtx unit :=
  execute_insert wc_goal_idempotency
    (mkIdempotency (pr_digest principal) operation (digest_text GOAL_KEY_DOMAIN idempotency_key) request_hash goal_id at_).

(** ** Operations *)

Definition create_goal principal (input : NewGoal) : gtx GoalMutation :=
  _ ← lift (validate_goal_principal principal);
  title ← lift (validate_goal_title (ng_title input));
  objective ← lift (validate_objective (ng_objective input));
  idempotency_key ← lift (validate_goal_idempotency_key (ng_idempotency_key input));
  let request_hash := goal_request_hash (VObject [member "title" (VString title); member "objective" (VString objective)]) in
  existing ← lookup_idempotent_goal principal OP_CREATE_GOAL idempotency_key request_hash;
  match existing with
  | Some goal_id =>
      goal ← load_owned_goal principal goal_id;
      mret (mkGoalMutation goal false true false)
  | None =>
      let goal_id := new_id GOAL_ID_PREFIX env 0 in
      _ ← execute_insert wc_goals
            (mkGoal goal_id (pr_kind principal) (pr_digest principal) title objective GoalActive 1 (now 0) (now 0) None None);
      _ ← record_idempotent_goal principal OP_CREATE_GOAL idempotency_key request_hash goal_id (now 0);
      goal ← load_owned_goal principal goal_id;
      mret (mkGoalMutation goal true false true)
  end.

Definition read_goal principal (goal_id : str) : gtx GoalDetail :=
  _ ← lift (validate_goal_principal principal);
  _ ← lift (validate_goal_id goal_id);
  load_owned_goal principal goal_id.

Fixpoint load_goal_summaries principal (goal_ids : list str) : gtx (list GoalSummary) :=
  match goal_ids with
  | [] => mret []
  | goal_id :: rest =>
      goal ← load_owned_goal_summary principal goal_id;
      goals ← load_goal_summaries principal rest;
      mret (goal :: goals)
  end.

Definition list_goals principal (lifecycle : option GoalLifecycle) (offset limit : Z) : gtx GoalPage :=
  _ ← lift (validate_goal_principal principal);
  _ ← reject (Z.eqb limit 0 || Z.ltb MAX_GOAL_LIST_LIMIT limit)
        (goal_error (lit "invalid_goal_list_limit") (lit "limit must be within 1..=" ++ fmt_Z MAX_GOAL_LIST_LIMIT));
  _ ← reject (Z.ltb I64_MAX offset)
        (goal_error (lit "invalid_goal_list_offset") (lit "offset exceeds the durable Goal store range"));
  listed ← gets (fun db => List.filter (fun g => owned_by principal (go_owner_principal_kind g) (go_owner_principal_digest g)
                                                 && is_none_or (fun l => go_lifecycle g ==? l) lifecycle) (goals db));
  let total_count := Z.of_nat (length listed) in
  goals ← load_goal_summaries principal
            (map go_goal_id (page limit offset (sort_by (fun a b => by_key (fun g => (- go_updated_at g)%Z) go_goal_id a b) listed)));
  let next_offset := next_page offset (length goals) total_count in
  mret (mkGoalPage total_count offset next_offset (is_some next_offset) goals).

Definition replayed_goal principal (goal_id replayed_goal_id : str) (message : str) : gtx GoalMutation :=
  _ ← reject (replayed_goal_id !=? goal_id) (goal_error (lit "goal_idempotency_conflict") message);
  goal ← load_owned_goal principal goal_id;
  mret (mkGoalMutation goal false true false).

Definition goal_terminal_error : GoalStoreError := goal_error (lit "goal_terminal") (lit "Terminal Goal state is immutable").

Definition update_goal principal (goal_id : str) (expected_revision : Z) (patch : GoalPatch) (idempotency_key : str)
  : gtx GoalMutation :=
  _ ← lift (validate_goal_principal principal);
  _ ← lift (validate_goal_id goal_id);
  _ ← reject (Z.ltb expected_revision 1) (goal_error (lit "invalid_goal_revision") (lit "expected_revision must be at least 1"));
  title ← lift (transpose validate_goal_title (gp_title patch));
  objective ← lift (transpose validate_objective (gp_objective patch));
  terminal_reason ← lift (transpose validate_terminal_reason (gp_terminal_reason patch));
  _ ← reject (is_none title && is_none objective && is_none (gp_lifecycle patch) && is_none terminal_reason)
        (goal_error (lit "goal_update_empty") (lit "Goal update must change bounded metadata or lifecycle"));
  _ ← reject (is_some terminal_reason && negb (is_some_and goal_terminal (gp_lifecycle patch)))
        (goal_error (lit "goal_terminal_reason_requires_terminal_lifecycle")
           (lit "terminal_reason requires an explicit completed or cancelled lifecycle transition"));
  idempotency_key ← lift (validate_goal_idempotency_key idempotency_key);
  let request_hash := goal_request_hash (VObject [member "goal_id" (VString goal_id);
                        member "expected_revision" (VInt expected_revision); member "title" (opt_string title);
                        member "objective" (opt_string objective);
                        member "lifecycle" (opt_string (goal_lifecycle_as_str <$> gp_lifecycle patch));
                        member "terminal_reason" (opt_string terminal_reason)]) in
  existing ← lookup_idempotent_goal principal OP_UPDATE_GOAL idempotency_key request_hash;
  match existing with
  | Some replayed_goal_id =>
      replayed_goal principal goal_id replayed_goal_id (lit "Goal update idempotency replay points at a different Goal")
  | None =>
      current ← load_owned_goal principal goal_id;
      let summary := gd_summary current in
      _ ← reject (negb (Z.eqb (gs_revision summary) expected_revision)) (revision_changed (gs_revision summary));
      _ ← reject (goal_terminal (gs_lifecycle summary)) goal_terminal_error;
      let target_lifecycle := unwrap_or GoalActive (gp_lifecycle patch) in
      let target_title := unwrap_or (gs_title summary) title in
      let target_objective := unwrap_or (gd_objective current) objective in
      let state_changed := (target_title !=? gs_title summary) || (target_objective !=? gd_objective current)
                           || (target_lifecycle !=? gs_lifecycle summary) || (terminal_reason !=? gd_terminal_reason current) in
      let ends := goal_terminal target_lifecycle in
      _ ← when state_changed
            (_ ← execute_update wc_goals (fun _ g => go_goal_id g ==? goal_id)
                   (fun g => g <| go_title := target_title |> <| go_objective := target_objective |>
                               <| go_lifecycle := target_lifecycle |> <| go_revision := (go_revision g + 1)%Z |>
                               <| go_updated_at := now 0 |>
                               <| go_terminal_at := if ends then Some (now 0) else None |>
                               <| go_terminal_reason := if ends then terminal_reason else None |>);
             mret tt);
      _ ← record_idempotent_goal principal OP_UPDATE_GOAL idempotency_key request_hash goal_id (now 0);
      goal ← load_owned_goal principal goal_id;
      mret (mkGoalMutation goal false false state_changed)
  end.

(** The Goals of an owner that are active and correlate a task. *)
Definition active_goal_fanout principal (task_id : str) (db : AgentDb) : Z :=
  Z.of_nat (length (flat_map (fun c =>
    if (gc_kind c ==? CorrelatesAgentTask) && (gc_reference_id c ==? task_id)
    then List.filter (fun g => (go_goal_id g ==? gc_goal_id c) && (go_lifecycle g ==? GoalActive)
                               && owned_by principal (go_owner_principal_kind g) (go_owner_principal_digest g)) (goals db)
    else []) (goal_correlations db))).

Definition associate_goal_reference principal (goal_id : str) (kind : GoalCorrelationKind) (reference_id idempotency_key : str)
  : gtx GoalMutation :=
  _ ← lift (validate_goal_principal principal);
  _ ← lift (validate_goal_id goal_id);
  idempotency_key ← lift (validate_goal_idempotency_key idempotency_key);
  let operation := match kind with
                   | CorrelatesAgentTask => OP_ASSOCIATE_GOAL_AGENT_TASK
                   | CorrelatesWorkflowSession => OP_ASSOCIATE_GOAL_WORKFLOW_SESSION
                   end in
  let request_hash := goal_request_hash (VObject [member "goal_id" (VString goal_id);
                        member "kind" (VString (correlation_kind_as_str kind)); member "reference_id" (VString reference_id)]) in
  existing ← lookup_idempotent_goal principal operation idempotency_key request_hash;
  match existing with
  | Some replayed_goal_id =>
      replayed_goal principal goal_id replayed_goal_id (lit "Goal association idempotency replay points at a different Goal")
  | None =>
      current ← load_owned_goal principal goal_id;
      _ ← reject (goal_terminal (gs_lifecycle (gd_summary current))) goal_terminal_error;
      correlated ← exists_row wc_goal_correlations
        (fun c => (gc_goal_id c ==? goal_id) && (gc_kind c ==? kind) && (gc_reference_id c ==? reference_id));
      _ ← when (negb correlated)
            (count ← count_rows wc_goal_correlations (fun c => gc_goal_id c ==? goal_id);
             _ ← reject (Z.leb MAX_GOAL_CORRELATIONS count)
                   (goal_error (lit "goal_correlation_capacity_exceeded")
                      (lit "Goal correlation count is limited to " ++ fmt_Z MAX_GOAL_CORRELATIONS));
             _ ← when (kind ==? CorrelatesAgentTask)
                   (fanout ← gets (active_goal_fanout principal reference_id);
                    reject (Z.leb MAX_GOAL_CORRELATIONS fanout)
                      (goal_error (lit "goal_agent_task_fanout_capacity_exceeded")
                         (lit "One AgentTask may be correlated to at most " ++ fmt_Z MAX_GOAL_CORRELATIONS
                          ++ lit " active Goals per owner")));
             _ ← execute_insert wc_goal_correlations (mkCorrelation goal_id kind reference_id (now 0));
             _ ← execute_update wc_goals (fun _ g => go_goal_id g ==? goal_id)
                   (fun g => g <| go_revision := (go_revision g + 1)%Z |> <| go_updated_at := now 0 |>);
             mret tt);
      _ ← record_idempotent_goal principal operation idempotency_key request_hash goal_id (now 0);
      goal ← load_owned_goal principal goal_id;
      mret (mkGoalMutation goal false false (negb correlated))
  end.

Definition associate_goal_agent_task principal (goal_id task_id idempotency_key : str) : gtx GoalMutation :=
  _ ← lift (map_err map_communication_validation_error (validate_id task_id AGENT_TASK_ID_PREFIX (lit "invalid_agent_task_id")));
  associate_goal_reference principal goal_id CorrelatesAgentTask task_id idempotency_key.

Definition associate_goal_workflow_session principal (goal_id session_id idempotency_key : str) : gtx GoalMutation :=
  _ ← lift (map_err map_communication_validation_error
              (validate_id session_id WORKFLOW_SESSION_ID_PREFIX (lit "invalid_workflow_session_id")));
  associate_goal_reference principal goal_id CorrelatesWorkflowSession session_id idempotency_key.
End Goals.
