(* ===== verification/AgentFacts.v ===== *)
(** * AgentFacts: how a row may change, what holds of the tables, and the rules of statements

    [evolves] says what every table allows of its rows between two calls, and [agent_inv]
    is what the code keeps beyond the schema: a Wake and its Attempt agree, a task and its
    Attempts agree, the messages of a Conversation are numbered without gaps, a delivery
    is covered by an inbox Wake, an Agent's Endpoints have the generations its identity
    counted, and an AgentTask's Wake belongs to its execution.  [agent_step] is the
    preorder of the two, which the statements of every operation are shown to follow. *)
From S2P Require Import Prelude RustStr Sql ConnectorModel CodingAgent AgentModel AgentStore AgentCore.

(** ** Unique columns *)

Section Unique.
Context {K : Type} `{EqDecision K}.

Lemma distinct_spec (l : list K) : distinct l = true <-> NoDup l.
Proof.
  induction l as [|k l IH]; cbn; [split; [constructor | done] | ]. rewrite andb_true_iff, negb_true_iff, IH, NoDup_cons.
  assert (He : existsb (fun k' => k' ==? k) l = false <-> k ∉ l); [ | by rewrite He].
  rewrite <- not_true_iff_false, existsb_exists, list_elem_of_In. split.
  - intros Hn Hk. apply Hn. exists k. by rewrite beq_refl.
  - intros Hn (k' & Hk & He%beq_true). by subst.
Qed.

Context {A : Type} (key : A -> option K).

(** A key belongs to one row. *)
Lemma unique_rows (t : list A) (a b : A) (k : K) :
  unique key t = true -> a ∈ t -> b ∈ t -> key a = Some k -> key b = Some k -> a = b.
Proof.
  unfold unique. rewrite distinct_spec. induction t as [|x t IH]; intros Hn Ha Hb Hka Hkb; [by apply not_elem_of_nil in Ha | ].
  assert (Hin : forall y, y ∈ t -> key y = Some k -> k ∈ omap key t).
  { intros y Hy Hk. apply list_elem_of_omap. by exists y. }
  cbn in Hn. apply elem_of_cons in Ha as [->|Ha]; apply elem_of_cons in Hb as [->|Hb]; [done | | | ].
  - rewrite Hka in Hn. apply NoDup_cons in Hn as [Hf _]. by destruct Hf; eapply Hin.
  - rewrite Hkb in Hn. apply NoDup_cons in Hn as [Hf _]. by destruct Hf; eapply Hin.
  - apply IH; [ | done..]. destruct (key x); [by apply NoDup_cons in Hn as [_ Hn] | done].
Qed.

(** The key of a row that was appended is new. *)
Lemma unique_fresh (t : list A) (row : A) (k : K) :
  unique key (t ++ [row]) = true -> key row = Some k -> forall r, r ∈ t -> key r <> Some k.
Proof.
  unfold unique. rewrite distinct_spec, omap_app. intros Hn Hk r Hr Hkr. apply NoDup_app in Hn as (_ & Hd & _).
  apply (Hd k); [apply list_elem_of_omap; by exists r | ]. cbn. rewrite Hk. apply list_elem_of_here.
Qed.
End Unique.

Lemma unique_find {A : Type} (key : A -> str) (t : list A) (row : A) :
  unique (fun r => Some (key r)) t = true -> row ∈ t -> find (fun r => key r ==? key row) t = Some row.
Proof.
  intros Hu Hr. destruct (find _ t) as [r|] eqn:E.
  - apply find_elem in E as [Hin He%beq_true]. f_equal.
    exact (unique_rows (fun r => Some (key r)) t r row (key row) Hu Hin Hr (f_equal Some He) eq_refl).
  - apply (find_elem_none _ _ row) in E; [ | done]. cbn in E. by rewrite beq_refl in E.
Qed.

(** ** Rows *)

Definition endpoint_rank (l : AgentEndpointLifecycle) : Z :=
  match l with EndpointAttached => 0 | EndpointExpired => 1 | EndpointDetached => 2 end.
Definition fence_rank (s : AgentWakeState) : Z := if queueable s then 0 else if dispatched s then 1 else 2.
Definition attempt_rank (s : AgentWakeAttemptState) : Z :=
  match s with WaClaimed => 0 | WaPrepared | WaDelivered | WaDeliveryUnknown => 1 | WaRevoked | WaConsumed => 2 end.
Definition task_attempt_rank (s : AgentTaskAttemptState) : Z :=
  match s with AttemptActive => 0 | AttemptExpired => 1 | AttemptSucceeded | AttemptFailed => 2 end.
Definition opt_le (a b : option Z) : Prop :=
  match a, b with None, _ => True | Some x, Some y => (x <= y)%Z | Some _, None => False end.

Record identity_moves (a b : AgentIdentityRow) : Prop := {
  idm_id : ai_agent_id b = ai_agent_id a;
  idm_kind : ai_owner_principal_kind b = ai_owner_principal_kind a;
  idm_digest : ai_owner_principal_digest b = ai_owner_principal_digest a;
  idm_revision : (ai_profile_revision a <= ai_profile_revision b)%Z;
  idm_generation : (ai_current_controller_generation a <= ai_current_controller_generation b)%Z
}.

Record endpoint_moves (a b : AgentEndpointRow) : Prop := {
  epm_id : ep_endpoint_id b = ep_endpoint_id a;
  epm_agent : ep_agent_id b = ep_agent_id a;
  epm_kind : ep_attachment_principal_kind b = ep_attachment_principal_kind a;
  epm_digest : ep_attachment_principal_digest b = ep_attachment_principal_digest a;
  epm_generation : ep_controller_generation b = ep_controller_generation a;
  epm_lifecycle : (endpoint_rank (ep_lifecycle a) <= endpoint_rank (ep_lifecycle b))%Z
}.

Record conversation_moves (a b : ConversationRow) : Prop := {
  cvm_id : cv_conversation_id b = cv_conversation_id a;
  cvm_lifecycle : cv_lifecycle b = cv_lifecycle a;
  cvm_seq : (cv_next_seq a <= cv_next_seq b)%Z
}.

Record delivery_moves (a b : DeliveryRow) : Prop := {
  dlm_order : dl_delivery_order b = dl_delivery_order a;
  dlm_id : dl_delivery_id b = dl_delivery_id a;
  dlm_message : dl_message_id b = dl_message_id a;
  dlm_conversation : dl_conversation_id b = dl_conversation_id a;
  dlm_recipient : dl_recipient_agent_id b = dl_recipient_agent_id a;
  dlm_consumed : dl_state a = DeliveryConsumed -> b = a
}.

Record wake_moves (a b : AgentWakeRecord) : Prop := {
  wkm_id : wk_wake_id b = wk_wake_id a;
  wkm_target : wk_target_agent_id b = wk_target_agent_id a;
  wkm_trigger : wk_trigger_kind b = wk_trigger_kind a;
  wkm_task : wk_source_task_id b = wk_source_task_id a;
  wkm_attempt : wk_source_task_attempt_id b = wk_source_task_attempt_id a;
  wkm_event : wk_source_event_id b = wk_source_event_id a;
  wkm_watermark : opt_le (wk_inbox_high_watermark a) (wk_inbox_high_watermark b);
  wkm_fence : (fence_rank (wk_state a) <= fence_rank (wk_state b))%Z;
  wkm_dispatched : dispatched (wk_state a) = true ->
    wk_state b <> WakeRetired /\ wk_claimed_attempt_id b = wk_claimed_attempt_id a /\
    wk_claimed_endpoint_id b = wk_claimed_endpoint_id a /\
    wk_claimed_controller_generation b = wk_claimed_controller_generation a;
  wkm_resolved : resolved (wk_state a) = true -> b = a;
  wkm_revision : b = a \/ (wk_revision a < wk_revision b)%Z
}.

Record wake_attempt_moves (a b : WakeAttemptRow) : Prop := {
  wam_id : wa_attempt_id b = wa_attempt_id a;
  wam_wake : wa_wake_id b = wa_wake_id a;
  wam_endpoint : wa_endpoint_id b = wa_endpoint_id a;
  wam_generation : wa_controller_generation b = wa_controller_generation a;
  wam_fence : wa_claim_fence_hash b = wa_claim_fence_hash a;
  wam_token : wa_consume_token_hash b = wa_consume_token_hash a;
  wam_lease : wa_claim_lease_expires_at b = wa_claim_lease_expires_at a;
  wam_state : (attempt_rank (wa_state a) <= attempt_rank (wa_state b))%Z;
  wam_final : attempt_rank (wa_state a) = 2%Z -> wa_state b = wa_state a
}.

Record task_moves (a b : AgentTaskRow) : Prop := {
  tkm_id : tk_task_id b = tk_task_id a;
  tkm_kind : tk_owner_principal_kind b = tk_owner_principal_kind a;
  tkm_digest : tk_owner_principal_digest b = tk_owner_principal_digest a;
  tkm_instruction : tk_instruction b = tk_instruction a;
  tkm_terminal : task_terminal (tk_state a) = true -> b = a
}.

Record task_attempt_moves (a b : StoredAttempt) : Prop := {
  tam_id : ta_attempt_id b = ta_attempt_id a;
  tam_task : ta_task_id b = ta_task_id a;
  tam_number : ta_attempt_number b = ta_attempt_number a;
  tam_assignee : ta_assignee_agent_id b = ta_assignee_agent_id a;
  tam_fence : ta_attempt_fence b = ta_attempt_fence a;
  tam_generation : (ta_attempt_controller_generation a <= ta_attempt_controller_generation b)%Z;
  tam_lease : (ta_lease_expires_at a <= ta_lease_expires_at b)%Z;
  tam_state : (task_attempt_rank (ta_state a) <= task_attempt_rank (ta_state b))%Z;
  tam_final : task_attempt_rank (ta_state a) = 2%Z -> b = a
}.

Record binding_moves (a b : AgentTaskCodingRunBindingRecord) : Prop := {
  cbm_task : cb_task_id b = cb_task_id a;
  cbm_attempt : cb_attempt_id b = cb_attempt_id a;
  cbm_run : cb_run_id b = cb_run_id a;
  cbm_revision : opt_le (cb_last_observation_revision a) (cb_last_observation_revision b)
}.

Record execution_moves (a b : EndpointExecutionRow) : Prop := {
  eem_task : ee_task_id b = ee_task_id a;
  eem_attempt : ee_attempt_id b = ee_attempt_id a;
  eem_wake : ee_wake_id b = ee_wake_id a;
  eem_start : ee_start_identity_fingerprint b = ee_start_identity_fingerprint a
}.

Record goal_moves (a b : GoalRow) : Prop := {
  gom_id : go_goal_id b = go_goal_id a;
  gom_kind : go_owner_principal_kind b = go_owner_principal_kind a;
  gom_digest : go_owner_principal_digest b = go_owner_principal_digest a;
  gom_revision : b = a \/ (go_revision a < go_revision b)%Z;
  gom_terminal : goal_terminal (go_lifecycle a) = true -> b = a
}.

Lemma opt_le_refl (a : option Z) : opt_le a a.
Proof. destruct a; cbn; [lia | done]. Qed.
Lemma opt_le_trans (a b c : option Z) : opt_le a b -> opt_le b c -> opt_le a c.
Proof. destruct a, b, c; cbn; intros; try done; lia. Qed.

Ltac moves_trans :=
  let a := fresh in let b := fresh in let c := fresh in intros a b c [] []; split; try congruence; try lia;
  try (by eapply opt_le_trans).

#[export] Instance identity_moves_pre : PreOrder identity_moves.
Proof. split; [intros a; split; done || lia | moves_trans]. Qed.
#[export] Instance endpoint_moves_pre : PreOrder endpoint_moves.
Proof. split; [intros a; split; done || lia | moves_trans]. Qed.
#[export] Instance conversation_moves_pre : PreOrder conversation_moves.
Proof. split; [intros a; split; done || lia | moves_trans]. Qed.
#[export] Instance delivery_moves_pre : PreOrder delivery_moves.
Proof. split; [intros a; split; done | moves_trans]. intros Hc. pose proof (dlm_consumed0 Hc) as ->. auto. Qed.
#[export] Instance binding_moves_pre : PreOrder binding_moves.
Proof. split; [intros a; split; done || apply opt_le_refl | moves_trans]. Qed.
#[export] Instance execution_moves_pre : PreOrder execution_moves.
Proof. split; [intros a; split; done | moves_trans]. Qed.
#[export] Instance task_moves_pre : PreOrder task_moves.
Proof. split; [intros a; split; done | moves_trans]. intros Hc. pose proof (tkm_terminal0 Hc) as ->. auto. Qed.
#[export] Instance task_attempt_moves_pre : PreOrder task_attempt_moves.
Proof. split; [intros a; split; done || lia | moves_trans]. intros Hc. pose proof (tam_final0 Hc) as ->. auto. Qed.
#[export] Instance goal_moves_pre : PreOrder goal_moves.
Proof.
  split; [intros a; split; auto | moves_trans].
  - destruct gom_revision0 as [->|], gom_revision1 as [->|]; auto; right; lia.
  - intros Hc. pose proof (gom_terminal0 Hc) as ->. auto.
Qed.
#[export] Instance wake_attempt_moves_pre : PreOrder wake_attempt_moves.
Proof.
  split; [intros a; split; done || lia | moves_trans]. intros Hc. pose proof (wam_final0 Hc) as He. rewrite <- He in Hc.
  rewrite <- He. auto.
Qed.

Lemma fence_dispatched (a b : AgentWakeState) :
  dispatched a = true -> (fence_rank a <= fence_rank b)%Z -> b <> WakeRetired -> dispatched b = true \/ b = WakeConsumed.
Proof. destruct a, b; cbn; intros; try done; auto; lia. Qed.

#[export] Instance wake_moves_pre : PreOrder wake_moves.
Proof.
  split.
  { intros a; split; try done; auto using opt_le_refl. intros Hd. split_and!; try done. intros He. by rewrite He in Hd. }
  intros a b c H1 H2. destruct H1, H2.
  split; try congruence; try lia; try (by eapply opt_le_trans).
  - intros Hd. destruct (wkm_dispatched0 Hd) as (Hr & He1 & He2 & He3).
    destruct (fence_dispatched _ _ Hd wkm_fence0 Hr) as [Hb|Hb].
    + destruct (wkm_dispatched1 Hb) as (Hr' & He1' & He2' & He3'). split_and!; congruence.
    + rewrite Hb in wkm_resolved1. pose proof (wkm_resolved1 eq_refl) as ->. auto.
  - intros Hr. pose proof (wkm_resolved0 Hr) as ->. auto.
  - destruct wkm_revision0 as [->|], wkm_revision1 as [->|]; auto; right; lia.
Qed.

(** ** Tables *)

Record evolves (db db' : AgentDb) : Prop := {
  ev_identities : grows identity_moves (identities db) (identities db');
  ev_endpoints : grows endpoint_moves (endpoints db) (endpoints db');
  ev_conversations : grows conversation_moves (conversations db) (conversations db');
  ev_participants : grows eq (participants db) (participants db');
  ev_messages : grows eq (messages db) (messages db');
  ev_deliveries : grows delivery_moves (deliveries db) (deliveries db');
  ev_comm_idempotency : grows eq (comm_idempotency db) (comm_idempotency db');
  ev_wakes : grows wake_moves (wakes db) (wakes db');
  ev_wake_attempts : grows wake_attempt_moves (wake_attempts db) (wake_attempts db');
  ev_tasks : grows task_moves (agent_tasks db) (agent_tasks db');
  ev_task_attempts : grows task_attempt_moves (task_attempts db) (task_attempts db');
  ev_coding_runs : grows binding_moves (coding_runs db) (coding_runs db');
  ev_executions : grows execution_moves (endpoint_executions db) (endpoint_executions db');
  ev_attention : grows eq (attention_events db) (attention_events db');
  ev_goals : grows goal_moves (goals db) (goals db');
  ev_correlations : grows eq (goal_correlations db) (goal_correlations db');
  ev_goal_idempotency : grows eq (goal_idempotency db) (goal_idempotency db')
}.

#[export] Instance evolves_pre : PreOrder evolves.
Proof.
  split; [intros db; split; reflexivity | ]. intros db db' db'' [] []. split; etransitivity; eassumption.
Qed.

(** What the schema says of a table by itself. *)
Record schema (db : AgentDb) : Prop := {
  sc_identities : identities_own (identities db) = true;
  sc_endpoints : endpoints_own (endpoints db) = true;
  sc_conversations : conversations_own (conversations db) = true;
  sc_participants : participants_own (participants db) = true;
  sc_messages : messages_own (messages db) = true;
  sc_deliveries : deliveries_own (deliveries db) = true;
  sc_comm_idempotency : comm_idempotency_own (comm_idempotency db) = true;
  sc_wakes : wakes_own (wakes db) = true;
  sc_wake_attempts : wake_attempts_own (wake_attempts db) = true;
  sc_tasks : agent_tasks_own (agent_tasks db) = true;
  sc_task_attempts : task_attempts_own (task_attempts db) = true;
  sc_coding_runs : coding_runs_own (coding_runs db) = true;
  sc_executions : endpoint_executions_own (endpoint_executions db) = true;
  sc_attention : attention_events_own (attention_events db) = true;
  sc_goals : goals_own (goals db) = true;
  sc_correlations : correlations_own (goal_correlations db) = true;
  sc_goal_idempotency : goal_idempotency_own (goal_idempotency db) = true
}.

(** A Wake and the Attempt it was claimed by. *)
Definition states_agree (w : AgentWakeState) (a : AgentWakeAttemptState) : bool :=
  match w, a with
  | WakeClaimed, WaClaimed | WakePrepared, WaPrepared | WakeDelivered, WaDelivered
  | WakeDeliveryUnknown, WaDeliveryUnknown | WakeConsumed, WaConsumed => true
  | _, _ => false
  end.
Record linked (w : AgentWakeRecord) (a : WakeAttemptRow) : Prop := {
  lk_attempt : wk_claimed_attempt_id w = Some (wa_attempt_id a);
  lk_wake : wa_wake_id a = wk_wake_id w;
  lk_endpoint : wk_claimed_endpoint_id w = Some (wa_endpoint_id a);
  lk_generation : wk_claimed_controller_generation w = Some (wa_controller_generation a);
  lk_state : states_agree (wk_state w) (wa_state a) = true;
  lk_lease : wk_state w = WakeClaimed -> wk_claim_lease_expires_at w = Some (wa_claim_lease_expires_at a)
}.
(** [state IN ('pending', 'retired')]. *)
Definition unclaimed (s : AgentWakeState) : bool := match s with WakePending | WakeRetired => true | _ => false end.

Record wake_link (ws : list AgentWakeRecord) (atts : list WakeAttemptRow) : Prop := {
  wl_claimed : forall w, w ∈ ws -> unclaimed (wk_state w) = false -> exists a, a ∈ atts /\ linked w a;
  wl_owner : forall a, a ∈ atts -> wa_state a <> WaRevoked -> exists w, w ∈ ws /\ linked w a
}.

(** A task and its latest Attempt. *)
Definition task_fits (t : AgentTaskRow) (a : StoredAttempt) : Prop :=
  match tk_state t, ta_state a with
  | TaskReady, AttemptExpired | TaskActive, (AttemptActive | AttemptExpired) => True
  | TaskSucceeded, AttemptSucceeded | TaskFailed, AttemptFailed => tk_terminal_attempt_id t = Some (ta_attempt_id a)
  | _, _ => False
  end.
Record latest_of (t : AgentTaskRow) (atts : list StoredAttempt) (a : StoredAttempt) : Prop := {
  lo_elem : a ∈ atts;
  lo_id : tk_latest_attempt_id t = Some (ta_attempt_id a);
  lo_task : ta_task_id a = tk_task_id t;
  lo_fits : task_fits t a;
  lo_others : forall a', a' ∈ atts -> ta_task_id a' = tk_task_id t -> a' <> a ->
    ta_state a' = AttemptExpired /\ (ta_attempt_number a' < ta_attempt_number a)%Z
}.
Record task_link (ts : list AgentTaskRow) (atts : list StoredAttempt) : Prop := {
  tl_latest : forall t, t ∈ ts ->
    (tk_latest_attempt_id t = None /\ tk_state t = TaskReady /\ forall a, a ∈ atts -> ta_task_id a <> tk_task_id t) \/
    exists a, latest_of t atts a;
  tl_owner : forall a, a ∈ atts -> exists t, t ∈ ts /\ tk_task_id t = ta_task_id a
}.

(** The messages of a Conversation, in the order of their insertion. *)
Definition seqs_of (ms : list MessageRow) (conversation_id : str) : list Z :=
  map ms_seq (List.filter (fun m => ms_conversation_id m ==? conversation_id) ms).
Record message_log (cs : list ConversationRow) (ms : list MessageRow) : Prop := {
  ml_seqs : forall c, c ∈ cs -> seqs_of ms (cv_conversation_id c) = seqZ 1 (cv_next_seq c - 1);
  ml_owner : forall m, m ∈ ms -> exists c, c ∈ cs /\ cv_conversation_id c = ms_conversation_id m
}.

(** An inbox Wake of the recipient that covers a delivery. *)
Definition covers (w : AgentWakeRecord) (d : DeliveryRow) : Prop :=
  wk_target_agent_id w = dl_recipient_agent_id d /\ wk_trigger_kind w = InboxChanged /\
  opt_le (Some (dl_delivery_order d)) (wk_inbox_high_watermark w).
Record inbox_cover (ds : list DeliveryRow) (ws : list AgentWakeRecord) : Prop := {
  ic_covered : forall d, d ∈ ds -> exists w, w ∈ ws /\ covers w d;
  ic_kept : forall w, w ∈ ws -> wk_trigger_kind w = InboxChanged -> wk_state w <> WakeRetired
}.

Record controllers (ids : list AgentIdentityRow) (es : list AgentEndpointRow) : Prop := {
  ct_counted : forall e, e ∈ es -> exists a, a ∈ ids /\ ai_agent_id a = ep_agent_id e /\
    (1 <= ep_controller_generation e <= ai_current_controller_generation a)%Z /\
    (ep_lifecycle e = EndpointAttached -> ep_controller_generation e = ai_current_controller_generation a);
  ct_distinct : forall e e', e ∈ es -> e' ∈ es -> ep_agent_id e = ep_agent_id e' ->
    ep_controller_generation e = ep_controller_generation e' -> ep_endpoint_id e = ep_endpoint_id e'
}.

(** An AgentTask's Wake and the execution it carries. *)
Definition carries (w : AgentWakeRecord) (e : EndpointExecutionRow) : Prop :=
  wk_wake_id w = ee_wake_id e /\ wk_trigger_kind w = AgentTaskAttemptTrigger /\
  wk_source_task_id w = Some (ee_task_id e) /\ wk_source_task_attempt_id w = Some (ee_attempt_id e).
Record carriers (ws : list AgentWakeRecord) (xs : list EndpointExecutionRow) : Prop := {
  cr_wake : forall e, e ∈ xs -> exists w, w ∈ ws /\ carries w e;
  cr_execution : forall w, w ∈ ws -> wk_trigger_kind w = AgentTaskAttemptTrigger -> exists e, e ∈ xs /\ carries w e
}.

(** The counters of an Attempt stay within an [i64]. *)
Definition within_i64 (a : StoredAttempt) : Prop :=
  (ta_attempt_number a <= I64_MAX /\ ta_attempt_controller_generation a <= I64_MAX)%Z.

Record agent_inv (db : AgentDb) : Prop := {
  inv_schema : schema db;
  inv_link : wake_link (wakes db) (wake_attempts db);
  inv_tasks : task_link (agent_tasks db) (task_attempts db);
  inv_width : Forall within_i64 (task_attempts db);
  inv_messages : message_log (conversations db) (messages db);
  inv_cover : inbox_cover (deliveries db) (wakes db);
  inv_controllers : controllers (identities db) (endpoints db);
  inv_carriers : carriers (wakes db) (endpoint_executions db)
}.

Lemma agent_inv_empty : agent_inv AgentDb_empty.
Proof.
  split; try (split; try done; intros x Hx; cbn in Hx; by apply not_elem_of_nil in Hx); [constructor | ].
  split; [intros x Hx | intros x y Hx]; cbn in Hx; by apply not_elem_of_nil in Hx.
Qed.

(** What a call that committed leaves: the rows moved as they may, and the invariant holds. *)
Record stepped (db db' : AgentDb) : Prop := {
  st_evolves : evolves db db';
  st_inv : agent_inv db'
}.

Lemma stepped_refl (db : AgentDb) : agent_inv db -> stepped db db.
Proof. by split. Qed.
Lemma stepped_trans (a b c : AgentDb) : stepped a b -> stepped b c -> stepped a c.
Proof. intros [H1 _] [H2 H3]. split; [by etransitivity | done]. Qed.

(** ** Statements on one table *)

(** The tables a statement leaves alone keep what holds of them. *)
Ltac stepped_split :=
  match goal with
  | H : stepped _ _ |- stepped _ _ =>
      let v := fresh "v" in let i := fresh "i" in let s := fresh "s" in
      destruct H as [v i]; destruct i as [s]; split;
      [etransitivity; [exact v | ]; split; try reflexivity; try assumption
      |split; [destruct s; split; try assumption | try assumption ..]]
  end.

Section Tables.
Variables db0 db : AgentDb.
Hypothesis Hs : stepped db0 db.

Lemma step_participants l :
  grows eq (participants db) l -> participants_own l = true -> stepped db0 (db <| participants := l |>).
Proof. intros. stepped_split. Qed.
Lemma step_comm_idempotency l :
  grows eq (comm_idempotency db) l -> comm_idempotency_own l = true -> stepped db0 (db <| comm_idempotency := l |>).
Proof. intros. stepped_split. Qed.
Lemma step_coding_runs l :
  grows binding_moves (coding_runs db) l -> coding_runs_own l = true -> stepped db0 (db <| coding_runs := l |>).
Proof. intros. stepped_split. Qed.
Lemma step_attention l :
  grows eq (attention_events db) l -> attention_events_own l = true -> stepped db0 (db <| attention_events := l |>).
Proof. intros. stepped_split. Qed.
Lemma step_goals l : grows goal_moves (goals db) l -> goals_own l = true -> stepped db0 (db <| goals := l |>).
Proof. intros. stepped_split. Qed.
Lemma step_correlations l :
  grows eq (goal_correlations db) l -> correlations_own l = true -> stepped db0 (db <| goal_correlations := l |>).
Proof. intros. stepped_split. Qed.
Lemma step_goal_idempotency l :
  grows eq (goal_idempotency db) l -> goal_idempotency_own l = true -> stepped db0 (db <| goal_idempotency := l |>).
Proof. intros. stepped_split. Qed.
Lemma step_identities l :
  grows identity_moves (identities db) l -> identities_own l = true -> controllers l (endpoints db) ->
  stepped db0 (db <| identities := l |>).
Proof. intros. stepped_split. Qed.
Lemma step_endpoints l :
  grows endpoint_moves (endpoints db) l -> endpoints_own l = true -> controllers (identities db) l ->
  stepped db0 (db <| endpoints := l |>).
Proof. intros. stepped_split. Qed.
Lemma step_deliveries l :
  grows delivery_moves (deliveries db) l -> deliveries_own l = true -> inbox_cover l (wakes db) ->
  stepped db0 (db <| deliveries := l |>).
Proof. intros. stepped_split. Qed.
Lemma step_executions l :
  grows execution_moves (endpoint_executions db) l -> endpoint_executions_own l = true -> carriers (wakes db) l ->
  stepped db0 (db <| endpoint_executions := l |>).
Proof. intros. stepped_split. Qed.
Lemma step_tasks l :
  grows task_moves (agent_tasks db) l -> agent_tasks_own l = true -> task_link l (task_attempts db) ->
  stepped db0 (db <| agent_tasks := l |>).
Proof. intros. stepped_split. Qed.
Lemma step_task_attempts l :
  grows task_attempt_moves (task_attempts db) l -> task_attempts_own l = true -> task_link (agent_tasks db) l ->
  Forall within_i64 l -> stepped db0 (db <| task_attempts := l |>).
Proof. intros. stepped_split. Qed.
Lemma step_conversations l :
  grows conversation_moves (conversations db) l -> conversations_own l = true -> message_log l (messages db) ->
  stepped db0 (db <| conversations := l |>).
Proof. intros. stepped_split. Qed.
End Tables.

(** * Rules for statements, loops and the links between tables

    What a committed statement leaves, in the style of weakest preconditions: a write holds
    the constraints of its table.  Then the lemmas that re-establish a link between two
    tables after an update of one or of both. *)

(** ** Statements *)

(** A table's column of the database, and what its constraints say of its own rows. *)
Class Owned {A : Type} (t : Table A) (get : AgentDb -> list A) (set : list A -> AgentDb -> AgentDb) (own : list A -> bool)
  : Prop := {
  owned_get : tget t = get;
  owned_set : tset t = set;
  owned_get_set : forall rows db, get (set rows db) = rows;
  owned_tok : forall db, tok t db = true -> own (get db) = true
}.

Ltac owned := split; try done; intros db H; first [exact H | by apply andb_true_iff in H as [? _]].
#[export] Instance owned_identities : Owned wc_agent_identities identities (fun l db => db <| identities := l |>) identities_own.
Proof. owned. Qed.
#[export] Instance owned_endpoints : Owned wc_agent_endpoints endpoints (fun l db => db <| endpoints := l |>) endpoints_own.
Proof. owned. Qed.
#[export] Instance owned_conversations : Owned wc_conversations conversations (fun l db => db <| conversations := l |>) conversations_own.
Proof. owned. Qed.
#[export] Instance owned_participants : Owned wc_conversation_participants participants (fun l db => db <| participants := l |>) participants_own.
Proof. owned. Qed.
#[export] Instance owned_messages : Owned wc_conversation_messages messages (fun l db => db <| messages := l |>) messages_own.
Proof. owned. Qed.
#[export] Instance owned_deliveries : Owned wc_agent_deliveries deliveries (fun l db => db <| deliveries := l |>) deliveries_own.
Proof. owned. Qed.
#[export] Instance owned_comm_idempotency : Owned wc_communication_idempotency comm_idempotency (fun l db => db <| comm_idempotency := l |>) comm_idempotency_own.
Proof. owned. Qed.
#[export] Instance owned_wakes : Owned wc_agent_wakes wakes (fun l db => db <| wakes := l |>) wakes_own.
Proof. owned. Qed.
#[export] Instance owned_wake_attempts : Owned wc_agent_wake_attempts wake_attempts (fun l db => db <| wake_attempts := l |>) wake_attempts_own.
Proof. owned. Qed.
#[export] Instance owned_agent_tasks : Owned wc_agent_tasks agent_tasks (fun l db => db <| agent_tasks := l |>) agent_tasks_own.
Proof. owned. Qed.
#[export] Instance owned_task_attempts : Owned wc_agent_task_attempts task_attempts (fun l db => db <| task_attempts := l |>) task_attempts_own.
Proof. owned. Qed.
#[export] Instance owned_coding_runs : Owned wc_agent_task_coding_runs coding_runs (fun l db => db <| coding_runs := l |>) coding_runs_own.
Proof. owned. Qed.
#[export] Instance owned_endpoint_executions : Owned wc_agent_task_endpoint_executions endpoint_executions (fun l db => db <| endpoint_executions := l |>) endpoint_executions_own.
Proof. owned. Qed.
#[export] Instance owned_attention_events : Owned wc_agent_attention_events attention_events (fun l db => db <| attention_events := l |>) attention_events_own.
Proof. owned. Qed.
#[export] Instance owned_goals : Owned wc_goals goals (fun l db => db <| goals := l |>) goals_own.
Proof. owned. Qed.
#[export] Instance owned_goal_correlations : Owned wc_goal_correlations goal_correlations (fun l db => db <| goal_correlations := l |>) correlations_own.
Proof. owned. Qed.
#[export] Instance owned_goal_idempotency : Owned wc_goal_idempotency goal_idempotency (fun l db => db <| goal_idempotency := l |>) goal_idempotency_own.
Proof. owned. Qed.

Section Rules.
Context {E : Type} `{!StoreErr E} {A : Type} (t : Table A).
Context (get : AgentDb -> list A) (set : list A -> AgentDb -> AgentDb) (own : list A -> bool) `{!Owned t get set own}.

Lemma wp_write (rows : AgentDb -> list A) (post : unit -> AgentDb -> Prop) (db : AgentDb) :
  (own (rows db) = true -> post tt (set (rows db) db)) -> tx_wp (write_table (E := E) t rows) post db.
Proof.
  intros Hp [] db'. unfold write_table. rewrite owned_set. destruct (tok t _) eqn:Ht; [ | done]. intros [= <-]. apply Hp.
  apply owned_tok in Ht. by rewrite owned_get_set in Ht.
Qed.

Lemma wp_insert (row : A) (post : unit -> AgentDb -> Prop) (db : AgentDb) :
  (own (get db ++ [row]) = true -> post tt (set (get db ++ [row]) db)) ->
  tx_wp (execute_insert (E := E) t row) post db.
Proof. intros Hp. unfold execute_insert. rewrite owned_get. by apply wp_write. Qed.

Lemma wp_update (sel : AgentDb -> A -> bool) (upd : A -> A) (post : nat -> AgentDb -> Prop) (db : AgentDb) :
  (own (rows_update (sel db) upd (get db)) = true ->
   post (rows_matched (sel db) (get db)) (set (rows_update (sel db) upd (get db)) db)) ->
  tx_wp (execute_update (E := E) t sel upd) post db.
Proof.
  intros Hp. unfold execute_update. rewrite owned_get. wp_steps. apply wp_write. intros Ho. wp_steps. by apply Hp.
Qed.

Lemma wp_select_row (sel : A -> bool) (post : option A -> AgentDb -> Prop) (db : AgentDb) :
  post (find sel (get db)) db -> tx_wp (select_row (E := E) t sel) post db.
Proof. intros Hp. unfold select_row. rewrite owned_get. exact (wp_gets (fun db => find sel (get db)) post db Hp). Qed.
Lemma wp_exists_row (sel : A -> bool) (post : bool -> AgentDb -> Prop) (db : AgentDb) :
  post (existsb sel (get db)) db -> tx_wp (exists_row (E := E) t sel) post db.
Proof. intros Hp. unfold exists_row. rewrite owned_get. exact (wp_gets (fun db => existsb sel (get db)) post db Hp). Qed.
Lemma wp_count_rows (sel : A -> bool) (post : Z -> AgentDb -> Prop) (db : AgentDb) :
  post (Z.of_nat (rows_matched sel (get db))) db -> tx_wp (count_rows (E := E) t sel) post db.
Proof.
  intros Hp. unfold count_rows. rewrite owned_get. exact (wp_gets (fun db => Z.of_nat (rows_matched sel (get db))) post db Hp).
Qed.
End Rules.

Section Loops.
Context {E : Type} {A : Type}.

(** What every turn of a loop keeps holds after it. *)
Lemma wp_for_each (P : AgentDb -> Prop) (l : list A) (body : nat -> A -> tx AgentDb E unit) (i : nat) (db : AgentDb) :
  P db -> (forall i x db, x ∈ l -> P db -> tx_wp (body i x) (fun _ => P) db) -> tx_wp (for_each l body i) (fun _ => P) db.
Proof.
  revert i db. induction l as [|x l IH]; intros i db Hp Hb; cbn; [by apply wp_ret | ]. apply wp_bind.
  eapply wp_mono; [apply Hb; [apply list_elem_of_here | done] | ]. intros [] db' Hp'. apply IH; [done | ].
  intros j y d Hy. apply Hb. by apply elem_of_cons; right.
Qed.
End Loops.

(** One statement of a transaction: reads give what they found, writes the constraints. *)
Ltac tx_step :=
  cbn beta;
  lazymatch goal with
  | |- tx_wp (execute_insert ?t _) _ _ => eapply (wp_insert t _ _ _); let H := fresh "Hown" in intros H
  | |- tx_wp (execute_update ?t _ _) _ _ => eapply (wp_update t _ _ _); let H := fresh "Hown" in intros H
  | |- tx_wp (select_row ?t _) _ _ => eapply (wp_select_row t _ _ _)
  | |- tx_wp (exists_row ?t _) _ _ => eapply (wp_exists_row t _ _ _)
  | |- tx_wp (count_rows ?t _) _ _ => eapply (wp_count_rows t _ _ _)
  | |- tx_wp (query_row _ _) _ _ => unfold query_row
  | |- tx_wp (expect _) _ _ => unfold expect
  | |- tx_wp (load_wake _) _ _ => unfold load_wake
  | |- tx_wp (load_attempt _) _ _ => unfold load_attempt
  | |- tx_wp (load_agent _ _) _ _ => unfold load_agent
  | |- tx_wp (load_endpoint _) _ _ => unfold load_endpoint
  | |- tx_wp (load_attempt_for_task _ _) _ _ => unfold load_attempt_for_task
  | |- tx_wp (load_coding_run_binding_for_attempt _ _) _ _ => unfold load_coding_run_binding_for_attempt
  | |- tx_wp (load_endpoint_execution_for_attempt _ _) _ _ => unfold load_endpoint_execution_for_attempt
  | _ => wp_step
  end.
Ltac tx_steps := repeat tx_step; cbn beta.

(** ** Reads leave the tables alone *)

Definition reads {E A : Type} (m : tx AgentDb E A) : Prop := forall db, tx_wp m (fun _ db' => db' = db) db.

Lemma reads_wp {E A : Type} (m : tx AgentDb E A) (post : A -> AgentDb -> Prop) (db : AgentDb) :
  reads m -> (forall a, m db = Ok (a, db) -> post a db) -> tx_wp m post db.
Proof. intros Hr Hp a db' Ha. pose proof (Hr db a db' Ha) as ->. by apply Hp. Qed.

(** ** Unique keys *)

Lemma forallb_elem {A : Type} (p : A -> bool) (t : list A) (x : A) : forallb p t = true -> x ∈ t -> p x = true.
Proof. rewrite forallb_forall, list_elem_of_In. auto. Qed.

Lemma unique_by {A : Type} (key : A -> str) (t : list A) (a b : A) :
  unique (fun r => Some (key r)) t = true -> a ∈ t -> b ∈ t -> key a = key b -> a = b.
Proof. intros Hu Ha Hb He. exact (unique_rows (fun r => Some (key r)) t a b (key b) Hu Ha Hb (f_equal Some He) eq_refl). Qed.

Lemma wakes_by_id (l : list AgentWakeRecord) (a b : AgentWakeRecord) :
  wakes_own l = true -> a ∈ l -> b ∈ l -> wk_wake_id a = wk_wake_id b -> a = b.
Proof. unfold wakes_own. intros Ho. split_andb. by apply unique_by. Qed.
Lemma wake_attempts_by_id (l : list WakeAttemptRow) (a b : WakeAttemptRow) :
  wake_attempts_own l = true -> a ∈ l -> b ∈ l -> wa_attempt_id a = wa_attempt_id b -> a = b.
Proof. unfold wake_attempts_own. intros Ho. split_andb. by apply unique_by. Qed.
Lemma tasks_by_id (l : list AgentTaskRow) (a b : AgentTaskRow) :
  agent_tasks_own l = true -> a ∈ l -> b ∈ l -> tk_task_id a = tk_task_id b -> a = b.
Proof. unfold agent_tasks_own. intros Ho. split_andb. by apply unique_by. Qed.
Lemma task_attempts_by_id (l : list StoredAttempt) (a b : StoredAttempt) :
  task_attempts_own l = true -> a ∈ l -> b ∈ l -> ta_attempt_id a = ta_attempt_id b -> a = b.
Proof. unfold task_attempts_own. intros Ho. split_andb. by apply unique_by. Qed.
Lemma identities_by_id (l : list AgentIdentityRow) (a b : AgentIdentityRow) :
  identities_own l = true -> a ∈ l -> b ∈ l -> ai_agent_id a = ai_agent_id b -> a = b.
Proof. unfold identities_own. intros Ho. split_andb. by apply unique_by. Qed.
Lemma endpoints_by_id (l : list AgentEndpointRow) (a b : AgentEndpointRow) :
  endpoints_own l = true -> a ∈ l -> b ∈ l -> ep_endpoint_id a = ep_endpoint_id b -> a = b.
Proof. unfold endpoints_own. intros Ho. split_andb. by apply unique_by. Qed.
Lemma conversations_by_id (l : list ConversationRow) (a b : ConversationRow) :
  conversations_own l = true -> a ∈ l -> b ∈ l -> cv_conversation_id a = cv_conversation_id b -> a = b.
Proof. unfold conversations_own. intros Ho. split_andb. by apply unique_by. Qed.
Lemma goals_by_id (l : list GoalRow) (a b : GoalRow) :
  goals_own l = true -> a ∈ l -> b ∈ l -> go_goal_id a = go_goal_id b -> a = b.
Proof. unfold goals_own. intros Ho. split_andb. by apply unique_by. Qed.
Lemma executions_by_attempt (l : list EndpointExecutionRow) (a b : EndpointExecutionRow) :
  endpoint_executions_own l = true -> a ∈ l -> b ∈ l -> ee_attempt_id a = ee_attempt_id b -> a = b.
Proof. unfold endpoint_executions_own. intros Ho. split_andb. by apply unique_by. Qed.
Lemma executions_by_wake (l : list EndpointExecutionRow) (a b : EndpointExecutionRow) :
  endpoint_executions_own l = true -> a ∈ l -> b ∈ l -> ee_wake_id a = ee_wake_id b -> a = b.
Proof. unfold endpoint_executions_own. intros Ho. split_andb. by apply unique_by. Qed.

(** ** Programs that only read *)

Section Reads.
Context {E : Type} `{!StoreErr E}.

Lemma reads_ret {A : Type} (a : A) : reads (E := E) (mret a).
Proof. intros db. by apply wp_ret. Qed.
Lemma reads_fail {A : Type} (e : E) : reads (A := A) (fail e).
Proof. intros db. apply wp_fail. Qed.
Lemma reads_gets {A : Type} (f : AgentDb -> A) : reads (E := E) (gets f).
Proof. intros db. by apply wp_gets. Qed.
Lemma reads_or_fail {A : Type} (o : option A) (e : E) : reads (or_fail o e).
Proof. intros db. by apply wp_or_fail. Qed.
Lemma reads_reject (b : bool) (e : E) : reads (reject b e).
Proof. intros db. by apply wp_reject. Qed.
Lemma reads_lift {A : Type} (r : result A E) : reads (lift r).
Proof. intros db. by apply wp_lift. Qed.
Lemma reads_when (b : bool) (m : tx AgentDb E unit) : reads m -> reads (when b m).
Proof. intros Hm db. apply wp_when; [intros _; apply Hm | done]. Qed.
Lemma reads_bind {A B : Type} (m : tx AgentDb E A) (k : A -> tx AgentDb E B) :
  reads m -> (forall a, reads (k a)) -> reads (m ≫= k).
Proof. intros Hm Hk db. apply wp_bind. eapply wp_mono; [apply Hm | ]. cbn beta. intros a db' ->. apply Hk. Qed.
Lemma reads_select {A : Type} (t : Table A) (sel : A -> bool) : reads (select_row (E := E) t sel).
Proof. apply reads_gets. Qed.
Lemma reads_exists {A : Type} (t : Table A) (sel : A -> bool) : reads (exists_row (E := E) t sel).
Proof. apply reads_gets. Qed.
Lemma reads_count {A : Type} (t : Table A) (sel : A -> bool) : reads (count_rows (E := E) t sel).
Proof. apply reads_gets. Qed.
Lemma reads_query {A : Type} (t : Table A) (sel : A -> bool) : reads (query_row (E := E) t sel).
Proof. apply reads_bind; [apply reads_select | intros a; apply reads_or_fail]. Qed.
Lemma reads_expect {A : Type} (o : option A) : reads (E := E) (expect o).
Proof. apply reads_or_fail. Qed.
Lemma reads_for_each {A : Type} (l : list A) (body : nat -> A -> tx AgentDb E unit) (i : nat) :
  (forall i x, reads (body i x)) -> reads (for_each l body i).
Proof. intros Hb db. apply wp_for_each; [done | ]. intros j x d _ ->. apply Hb. Qed.
End Reads.

Create HintDb reads.
#[export] Hint Resolve reads_ret reads_fail reads_gets reads_or_fail reads_reject reads_lift reads_select reads_exists
  reads_count reads_query reads_expect : reads.

(** Follows the body of a program that only reads. *)
Ltac reads_step :=
  first
    [ solve [eauto 1 with reads]
    | apply reads_bind; [ | intros ?]
    | apply reads_when
    | apply reads_for_each; intros ? ?
    | match goal with
      | |- reads (if ?b then _ else _) => destruct b
      | |- reads (match ?x with _ => _ end) => destruct x
      | |- reads (let '(_, _) := ?x in _) => destruct x
      end ].
Ltac reads_tac := repeat (cbn beta zeta; reads_step).

(** A read in a transaction: the tables are as they were. *)
Ltac read_step := eapply reads_wp; [solve [reads_tac] | intros ? ?].

(** A statement, or a read whose result nothing depends on. *)
Ltac op_step := first [tx_step | read_step].
Ltac op_steps := repeat op_step; cbn beta.

Lemma reads_load_agent (agent_id : str) (now : Z) : reads (load_agent agent_id now).
Proof. unfold load_agent. reads_tac. Qed.
Lemma reads_load_endpoint (endpoint_id : str) : reads (load_endpoint endpoint_id).
Proof. unfold load_endpoint. reads_tac. Qed.
Lemma reads_load_endpoint_for_principal (principal : CommunicationPrincipal) (endpoint_id : str) :
  reads (load_endpoint_for_principal principal endpoint_id).
Proof. unfold load_endpoint_for_principal. reads_tac. Qed.
#[export] Hint Resolve reads_load_agent reads_load_endpoint reads_load_endpoint_for_principal : reads.
Lemma reads_require_agent_owner (principal : CommunicationPrincipal) (agent_id : str) : reads (require_agent_owner principal agent_id).
Proof. unfold require_agent_owner. reads_tac. Qed.
Lemma reads_current_generation (agent_id : str) : reads (current_generation agent_id).
Proof. unfold current_generation. reads_tac. Qed.
#[export] Hint Resolve reads_require_agent_owner reads_current_generation : reads.
Lemma reads_require_current_endpoint (principal : CommunicationPrincipal) (agent_id endpoint_id : str) (generation : option Z) (now : Z) :
  reads (require_current_endpoint principal agent_id endpoint_id generation now).
Proof. unfold require_current_endpoint. reads_tac. Qed.
Lemma reads_lookup_idempotent `{!AgentDigest} (principal : CommunicationPrincipal) (operation key request_hash : str) :
  reads (lookup_idempotent_resource principal operation key request_hash).
Proof. unfold lookup_idempotent_resource. reads_tac. Qed.
Lemma reads_load_wake (wake_id : str) : reads (load_wake wake_id).
Proof. unfold load_wake. reads_tac. Qed.
Lemma reads_load_attempt (attempt_id : str) : reads (load_attempt attempt_id).
Proof. unfold load_attempt. reads_tac. Qed.
Lemma reads_load_attempt_for_task (task_id attempt_id : str) : reads (load_attempt_for_task task_id attempt_id).
Proof. unfold load_attempt_for_task. reads_tac. Qed.
Lemma reads_load_execution (task_id attempt_id : str) : reads (load_endpoint_execution_for_attempt task_id attempt_id).
Proof. unfold load_endpoint_execution_for_attempt. reads_tac. Qed.
Lemma reads_load_coding_run (task_id attempt_id : str) : reads (load_coding_run_binding_for_attempt task_id attempt_id).
Proof. unfold load_coding_run_binding_for_attempt. reads_tac. Qed.
#[export] Hint Resolve reads_require_current_endpoint reads_lookup_idempotent reads_load_wake reads_load_attempt
  reads_load_attempt_for_task reads_load_execution reads_load_coding_run : reads.
Lemma reads_load_owned_task (principal : CommunicationPrincipal) (task_id : str) : reads (load_owned_task principal task_id).
Proof. unfold load_owned_task. reads_tac. Qed.
Lemma reads_require_current_attempt (task : StoredTask) (attempt_id assignee attempt_fence : str) (generation now : Z) :
  reads (require_current_attempt task attempt_id assignee attempt_fence generation now).
Proof. unfold require_current_attempt. reads_tac. Qed.
Lemma reads_require_attention (principal : CommunicationPrincipal) (source : option str) (target : str) :
  reads (require_agent_attention_event_for_wake principal source target).
Proof. unfold require_agent_attention_event_for_wake. reads_tac. Qed.
Lemma reads_dispatchable (principal : CommunicationPrincipal) (wake : AgentWakeRecord) (endpoint_id : str) (generation now : Z) :
  reads (agent_task_wake_is_dispatchable principal wake endpoint_id generation now).
Proof. unfold agent_task_wake_is_dispatchable. reads_tac. Qed.
#[export] Hint Resolve reads_load_owned_task reads_require_current_attempt reads_require_attention reads_dispatchable : reads.
Lemma reads_envelope (principal : CommunicationPrincipal) (wake : AgentWakeRecord) (endpoint_id : str) (generation : Z) (token : str) :
  reads (wake_envelope principal wake endpoint_id generation token).
Proof. unfold wake_envelope. reads_tac. Qed.
Lemma reads_exact_claim `{!AgentDigest} (agent_id endpoint_id : str) (generation : Z) (wake_id attempt_id claim_fence : str)
  (token : option str) : reads (require_exact_claim agent_id endpoint_id generation wake_id attempt_id claim_fence token).
Proof. unfold require_exact_claim. reads_tac. Qed.
#[export] Hint Resolve reads_envelope reads_exact_claim : reads.
