(* ===== verification/AgentLinks.v ===== *)
(** * AgentLinks: the links between tables under updates

    When a statement, or a pair of statements, keeps a Wake and its Attempt, a task and its
    Attempts, a delivery and its Wake, an Endpoint and its identity linked. *)
From S2P Require Import Prelude RustStr Sql ConnectorModel CodingAgent AgentModel AgentStore AgentCore AgentFacts.

(** ** Rows of an updated table *)

Lemma rows_update_image {A : Type} (sel : A -> bool) (upd : A -> A) (t : list A) (row : A) :
  row ∈ t -> (if sel row then upd row else row) ∈ rows_update sel upd t.
Proof. intros Hr. exact (list_elem_of_fmap_2 _ _ _ Hr). Qed.

Lemma rows_update_moves {A : Type} (R : A -> A -> Prop) `{!PreOrder R} (sel : A -> bool) (upd : A -> A) (t : list A) (row : A) :
  (forall r, r ∈ t -> sel r = true -> R r (upd r)) -> row ∈ t -> R row (if sel row then upd row else row).
Proof. intros Hu Hr. destruct (sel row) eqn:E; [by apply Hu | reflexivity]. Qed.

(** ** Deliveries and executions of a Wake *)

Lemma covers_moves (w w' : AgentWakeRecord) (d d' : DeliveryRow) :
  wake_moves w w' -> delivery_moves d d' -> covers w d -> covers w' d'.
Proof.
  intros [] [] (Ht & Hk & Ho). unfold covers. split_and!; [congruence..|]. rewrite dlm_order. by eapply opt_le_trans.
Qed.

Lemma carries_moves (w w' : AgentWakeRecord) (e e' : EndpointExecutionRow) :
  wake_moves w w' -> execution_moves e e' -> carries w e -> carries w' e'.
Proof. intros [] [] (H1 & H2 & H3 & H4). unfold carries. split_and!; congruence. Qed.

Section WakeRows.
Variables (sel : AgentWakeRecord -> bool) (upd : AgentWakeRecord -> AgentWakeRecord) (ws : list AgentWakeRecord).
Hypothesis Hmoves : forall w, w ∈ ws -> sel w = true -> wake_moves w (upd w).

Lemma inbox_cover_wakes (ds : list DeliveryRow) :
  (forall w, w ∈ ws -> sel w = true -> wk_trigger_kind w = InboxChanged -> wk_state (upd w) <> WakeRetired) ->
  inbox_cover ds ws -> inbox_cover ds (rows_update sel upd ws).
Proof.
  intros Hkept [Hc Hk]. split.
  - intros d Hd. destruct (Hc d Hd) as (w & Hw & Hcov). eexists. split; [by apply rows_update_image | ].
    eapply covers_moves; [by apply (rows_update_moves wake_moves sel upd ws w) | reflexivity | done].
  - intros w' (w & Hw & [[Hs ->]|[Hs ->]])%rows_update_elem Ht; [ | by apply Hk]. apply Hkept; [done..|].
    destruct (Hmoves w Hw Hs). congruence.
Qed.

Lemma carriers_wakes (xs : list EndpointExecutionRow) : carriers ws xs -> carriers (rows_update sel upd ws) xs.
Proof.
  intros [Hc Hk]. split.
  - intros e He. destruct (Hc e He) as (w & Hw & Hcar). eexists. split; [by apply rows_update_image | ].
    eapply carries_moves; [by apply (rows_update_moves wake_moves sel upd ws w) | reflexivity | done].
  - intros w' (w & Hw & [[Hs ->]|[Hs ->]])%rows_update_elem Ht; [ | by apply Hk]. pose proof (Hmoves w Hw Hs) as Hm.
    destruct (Hk w Hw) as (e & He & Hcar); [by rewrite <- (wkm_trigger _ _ Hm) | ]. exists e. split; [done | ].
    by eapply carries_moves.
Qed.
End WakeRows.

Lemma carriers_executions (sel : EndpointExecutionRow -> bool) (upd : EndpointExecutionRow -> EndpointExecutionRow)
  (ws : list AgentWakeRecord) (xs : list EndpointExecutionRow) :
  (forall e, e ∈ xs -> sel e = true -> execution_moves e (upd e)) -> carriers ws xs -> carriers ws (rows_update sel upd xs).
Proof.
  intros Hm [Hc Hk]. split.
  - intros e' (e & He & [[Hs ->]|[Hs ->]])%rows_update_elem; [ | by apply Hc]. destruct (Hc e He) as (w & Hw & Hcar).
    exists w. split; [done | ]. eapply carries_moves; [reflexivity | by apply Hm | done].
  - intros w Hw Ht. destruct (Hk w Hw Ht) as (e & He & Hcar). eexists. split; [by apply rows_update_image | ].
    eapply carries_moves; [reflexivity | by apply (rows_update_moves execution_moves sel upd xs e) | done].
Qed.

Lemma inbox_cover_deliveries (sel : DeliveryRow -> bool) (upd : DeliveryRow -> DeliveryRow)
  (ws : list AgentWakeRecord) (ds : list DeliveryRow) :
  (forall d, d ∈ ds -> sel d = true -> delivery_moves d (upd d)) -> inbox_cover ds ws -> inbox_cover (rows_update sel upd ds) ws.
Proof.
  intros Hm [Hc Hk]. split; [ | done]. intros d' (d & Hd & [[Hs ->]|[Hs ->]])%rows_update_elem; [ | by apply Hc].
  destruct (Hc d Hd) as (w & Hw & Hcov). exists w. split; [done | ]. eapply covers_moves; [reflexivity | by apply Hm | done].
Qed.

(** A Wake that was inserted for something else covers and carries nothing new. *)
Lemma inbox_cover_more (ds : list DeliveryRow) (ws : list AgentWakeRecord) (w : AgentWakeRecord) :
  wk_state w <> WakeRetired -> inbox_cover ds ws -> inbox_cover ds (ws ++ [w]).
Proof.
  intros Hn [Hc Hk]. split.
  - intros d Hd. destruct (Hc d Hd) as (x & Hx & ?). exists x. split; [by apply elem_of_app; left | done].
  - intros x [Hx|Hx%list_elem_of_singleton]%elem_of_app Ht; [by apply Hk | by subst].
Qed.
Lemma carriers_more (ws : list AgentWakeRecord) (xs : list EndpointExecutionRow) (w : AgentWakeRecord) :
  wk_trigger_kind w <> AgentTaskAttemptTrigger -> carriers ws xs -> carriers (ws ++ [w]) xs.
Proof.
  intros Hn [Hc Hk]. split.
  - intros d Hd. destruct (Hc d Hd) as (x & Hx & ?). exists x. split; [by apply elem_of_app; left | done].
  - intros x [Hx|Hx%list_elem_of_singleton]%elem_of_app Ht; [by apply Hk | by subst].
Qed.
Lemma wake_link_more (ws : list AgentWakeRecord) (atts : list WakeAttemptRow) (w : AgentWakeRecord) :
  unclaimed (wk_state w) = true -> wake_link ws atts -> wake_link (ws ++ [w]) atts.
Proof.
  intros Hn [Hc Hk]. split.
  - intros x [Hx|Hx%list_elem_of_singleton]%elem_of_app Ht; [by apply Hc | by subst; rewrite Hn in Ht].
  - intros a Ha Hr. destruct (Hk a Ha Hr) as (x & Hx & ?). exists x. split; [by apply elem_of_app; left | done].
Qed.

(** ** A Wake and its Attempt *)

Lemma linked_claimed (w : AgentWakeRecord) (a : WakeAttemptRow) : linked w a -> unclaimed (wk_state w) = false /\ wa_state a <> WaRevoked.
Proof. intros []. by destruct (wk_state w), (wa_state a). Qed.

(** A pair of updates that take a Wake and its Attempt to linked rows, or release the claim. *)
Record paired (ws : list AgentWakeRecord) (atts : list WakeAttemptRow) (selW : AgentWakeRecord -> bool)
  (updW : AgentWakeRecord -> AgentWakeRecord) (selA : WakeAttemptRow -> bool) (updA : WakeAttemptRow -> WakeAttemptRow)
  : Prop := {
  pd_linked : forall w a, w ∈ ws -> a ∈ atts -> linked w a -> selW w = selA a /\
    (selW w = true -> linked (updW w) (updA a) \/ (unclaimed (wk_state (updW w)) = true /\ wa_state (updA a) = WaRevoked));
  pd_unclaimed : forall w, w ∈ ws -> unclaimed (wk_state w) = true -> selW w = true -> unclaimed (wk_state (updW w)) = true;
  pd_revoked : forall a, a ∈ atts -> wa_state a = WaRevoked -> selA a = true -> wa_state (updA a) = WaRevoked
}.

Section Paired.
Variables (ws : list AgentWakeRecord) (atts : list WakeAttemptRow).
Variables (selW : AgentWakeRecord -> bool) (updW : AgentWakeRecord -> AgentWakeRecord).
Variables (selA : WakeAttemptRow -> bool) (updA : WakeAttemptRow -> WakeAttemptRow).

Lemma wake_link_paired :
  paired ws atts selW updW selA updA -> wake_link ws atts -> wake_link (rows_update selW updW ws) (rows_update selA updA atts).
Proof.
  intros [Hl Hu Hv] [Hc Ho].
  assert (Hpair : forall w a, w ∈ ws -> a ∈ atts -> linked w a ->
    let w' := if selW w then updW w else w in let a' := if selA a then updA a else a in
    w' ∈ rows_update selW updW ws /\ a' ∈ rows_update selA updA atts /\
    (linked w' a' \/ (unclaimed (wk_state w') = true /\ wa_state a' = WaRevoked))).
  { intros w a Hw Ha Hla. destruct (Hl w a Hw Ha Hla) as [He Hs]. cbn. split_and!; [by apply rows_update_image.. | ].
    rewrite <- He. destruct (selW w); auto. }
  split.
  - intros w' Hw' Hcl. apply list_elem_of_fmap in Hw' as (w & -> & Hw).
    destruct (unclaimed (wk_state w)) eqn:Hun.
    { destruct (selW w) eqn:Es; [by rewrite (Hu w) in Hcl | by rewrite Hun in Hcl]. }
    destruct (Hc w Hw Hun) as (a & Ha & Hla). destruct (Hpair w a Hw Ha Hla) as (_ & Ha' & [Hla'|[Hx _]]);
      [by eexists | by rewrite Hx in Hcl].
  - intros a' Ha' Hr. apply list_elem_of_fmap in Ha' as (a & -> & Ha).
    destruct (decide (wa_state a = WaRevoked)) as [Hrev|Hrev].
    { destruct (selA a) eqn:Es; [by destruct Hr; apply Hv | done]. }
    destruct (Ho a Ha Hrev) as (w & Hw & Hla). destruct (Hpair w a Hw Ha Hla) as (Hw' & _ & [Hla'|[_ Hx]]);
      [by eexists | by destruct Hr].
Qed.
End Paired.

(** The Wake of an Attempt is the one its row names. *)
Lemma linked_wake (ws : list AgentWakeRecord) (w w' : AgentWakeRecord) (a : WakeAttemptRow) :
  wakes_own ws = true -> w ∈ ws -> w' ∈ ws -> linked w a -> wk_wake_id w' = wa_wake_id a -> w' = w.
Proof. intros Ho Hw Hw' [] He. apply (wakes_by_id ws); congruence. Qed.

(** The Attempt of a Wake is the one its row names. *)
Lemma linked_attempt (l : list WakeAttemptRow) (w : AgentWakeRecord) (a a' : WakeAttemptRow) :
  wake_attempts_own l = true -> a ∈ l -> a' ∈ l -> linked w a -> wk_claimed_attempt_id w = Some (wa_attempt_id a') -> a' = a.
Proof. intros Ho Hw Hw' [] He. apply (wake_attempts_by_id l); congruence. Qed.

(** A new claim of an unclaimed Wake. *)
Lemma wake_link_claim (ws : list AgentWakeRecord) (atts : list WakeAttemptRow) (a : WakeAttemptRow) (w : AgentWakeRecord)
  (sel : AgentWakeRecord -> bool) (upd : AgentWakeRecord -> AgentWakeRecord) :
  wakes_own ws = true -> w ∈ ws -> unclaimed (wk_state w) = true -> sel w = true -> linked (upd w) a ->
  (forall x, x ∈ ws -> sel x = true -> wk_wake_id x = wk_wake_id w) ->
  wake_link ws atts -> wake_link (rows_update sel upd ws) (atts ++ [a]).
Proof.
  intros Ho Hw Hu Hs Hl Hx [Hc Hk].
  assert (Honly : forall x, x ∈ ws -> sel x = true -> x = w). { intros x Hin Hsx. apply (wakes_by_id ws); auto. }
  split.
  - intros w' (x & Hin & [[Hsx ->]|[Hsx ->]])%rows_update_elem Hcl.
    + pose proof (Honly x Hin Hsx) as ->. exists a. split; [apply elem_of_app; right; apply list_elem_of_here | done].
    + destruct (Hc x Hin Hcl) as (a' & Ha' & ?). exists a'. split; [by apply elem_of_app; left | done].
  - intros a' [Ha'|Ha'%list_elem_of_singleton]%elem_of_app Hr.
    + destruct (Hk a' Ha' Hr) as (x & Hin & Hla). exists x. split; [ | done].
      destruct (sel x) eqn:Hsx; [ | by pose proof (rows_update_image sel upd ws x Hin) as Hi; rewrite Hsx in Hi].
      pose proof (Honly x Hin Hsx) as ->. apply linked_claimed in Hla as [Hla _]. by rewrite Hu in Hla.
    + subst a'. exists (upd w). split; [by apply rows_update_hit | done].
Qed.

(** ** An Agent's Endpoints *)

Lemma attached_rank (l l' : AgentEndpointLifecycle) :
  (endpoint_rank l <= endpoint_rank l')%Z -> l' = EndpointAttached -> l = EndpointAttached.
Proof. destruct l, l'; cbn; try done; lia. Qed.

Lemma controllers_endpoints (ids : list AgentIdentityRow) (es : list AgentEndpointRow)
  (sel : AgentEndpointRow -> bool) (upd : AgentEndpointRow -> AgentEndpointRow) :
  (forall e, e ∈ es -> sel e = true -> endpoint_moves e (upd e)) -> controllers ids es -> controllers ids (rows_update sel upd es).
Proof.
  intros Hm [Hc Hd].
  assert (Hsrc : forall e', e' ∈ rows_update sel upd es -> exists e, e ∈ es /\ endpoint_moves e e').
  { intros e' (e & -> & He)%list_elem_of_fmap. exists e. split; [done | ]. by apply (rows_update_moves endpoint_moves sel upd es e). }
  split.
  - intros e' (e & He & [])%Hsrc. destruct (Hc e He) as (a & Ha & Hid & Hg & Hat). exists a. split_and!; try done; try lia; try congruence.
    intros Hl. rewrite epm_generation. apply Hat. by eapply attached_rank.
  - intros e1' e2' (e1 & He1 & [])%Hsrc (e2 & He2 & [])%Hsrc Ha Hg. rewrite epm_id, epm_id0. apply Hd; congruence.
Qed.

Lemma controllers_identities (ids : list AgentIdentityRow) (es : list AgentEndpointRow)
  (sel : AgentIdentityRow -> bool) (upd : AgentIdentityRow -> AgentIdentityRow) :
  (forall a, a ∈ ids -> sel a = true -> ai_agent_id (upd a) = ai_agent_id a /\
     (ai_current_controller_generation a <= ai_current_controller_generation (upd a))%Z /\
     ((exists e, e ∈ es /\ ep_agent_id e = ai_agent_id a /\ ep_lifecycle e = EndpointAttached) ->
      ai_current_controller_generation (upd a) = ai_current_controller_generation a)) ->
  controllers ids es -> controllers (rows_update sel upd ids) es.
Proof.
  intros Hm [Hc Hd]. split; [ | done]. intros e He. destruct (Hc e He) as (a & Ha & Hid & Hg & Hat).
  eexists. split; [by apply rows_update_image | ]. destruct (sel a) eqn:Es; [ | auto].
  destruct (Hm a Ha Es) as (Hi & Hle & Hsame). split_and!; [congruence | lia | lia | ]. intros Hl. rewrite Hsame; [auto | ].
  by exists e.
Qed.

Lemma controllers_more (ids : list AgentIdentityRow) (es : list AgentEndpointRow) (a : AgentIdentityRow) :
  controllers ids es -> controllers (ids ++ [a]) es.
Proof.
  intros [Hc Hd]. split; [ | done]. intros e He. destruct (Hc e He) as (x & Hx & ?). exists x.
  split; [by apply elem_of_app; left | done].
Qed.

(** A new Endpoint of the generation its identity was raised to. *)
Lemma controllers_attach (ids : list AgentIdentityRow) (es : list AgentEndpointRow) (a : AgentIdentityRow) (e : AgentEndpointRow) :
  a ∈ ids -> ai_agent_id a = ep_agent_id e -> ep_controller_generation e = ai_current_controller_generation a ->
  (1 <= ep_controller_generation e)%Z ->
  (forall x, x ∈ es -> ep_agent_id x = ep_agent_id e -> (ep_controller_generation x < ep_controller_generation e)%Z) ->
  controllers ids es -> controllers ids (es ++ [e]).
Proof.
  intros Ha Hid Hg H1 Hold [Hc Hd]. split.
  - intros x [Hx|Hx%list_elem_of_singleton]%elem_of_app; [by apply Hc | subst x]. exists a. split_and!; try done; lia.
  - intros x y [Hx|Hx%list_elem_of_singleton]%elem_of_app [Hy|Hy%list_elem_of_singleton]%elem_of_app Hxy Hgen; subst;
      [by apply Hd | | | done].
    + pose proof (Hold x Hx Hxy). lia.
    + symmetry in Hxy. pose proof (Hold y Hy Hxy). lia.
Qed.

(** ** A task and its Attempts *)

Lemma latest_unique (atts : list StoredAttempt) (t : AgentTaskRow) (a a' : StoredAttempt) :
  task_attempts_own atts = true -> latest_of t atts a -> a' ∈ atts -> tk_latest_attempt_id t = Some (ta_attempt_id a') -> a' = a.
Proof. intros Ho [] Ha' He. apply (task_attempts_by_id atts); congruence. Qed.

(** An update that keeps an Attempt's verdict, or lets an active one expire. *)
Definition attempt_kept (a b : StoredAttempt) : Prop :=
  ta_attempt_id b = ta_attempt_id a /\ ta_task_id b = ta_task_id a /\ ta_attempt_number b = ta_attempt_number a /\
  (ta_state b = ta_state a \/ (ta_state a = AttemptActive /\ ta_state b = AttemptExpired)).

Lemma attempt_kept_refl (a : StoredAttempt) : attempt_kept a a.
Proof. unfold attempt_kept. auto. Qed.

Lemma task_link_attempts (ts : list AgentTaskRow) (atts : list StoredAttempt)
  (sel : StoredAttempt -> bool) (upd : StoredAttempt -> StoredAttempt) :
  task_attempts_own atts = true ->
  (forall a, a ∈ atts -> sel a = true -> attempt_kept a (upd a)) ->
  task_link ts atts -> task_link ts (rows_update sel upd atts).
Proof.
  intros Hown Hk [Hl Ho].
  assert (Himg : forall a, a ∈ atts -> attempt_kept a (if sel a then upd a else a)).
  { intros a Ha. destruct (sel a) eqn:E; [by apply Hk | apply attempt_kept_refl]. }
  split.
  - intros t Ht. destruct (Hl t Ht) as [(Hn & Hr & Hno) | (a & [Hin Hid Htask Hfit Hoth])].
    + left. split_and!; [done | done | ]. intros a' (a & -> & Ha)%list_elem_of_fmap.
      destruct (Himg a Ha) as (_ & -> & _). by apply Hno.
    + right. destruct (Himg a Hin) as (E1 & E2 & E3 & E4). eexists. split; [by apply rows_update_image | congruence | congruence | | ].
      * unfold task_fits in *. destruct E4 as [->|[Ea ->]]; [by rewrite E1 | ]. rewrite Ea in Hfit. by destruct (tk_state t).
      * intros x' (x & -> & Hx)%list_elem_of_fmap Hxt Hne. destruct (Himg x Hx) as (F1 & F2 & F3 & F4).
        destruct (Hoth x Hx) as [Hexp Hnum]; [congruence | by intros -> | ]. rewrite F3, E3. split; [ | done].
        destruct F4 as [->|[Fa _]]; [done | by rewrite Fa in Hexp].
  - intros a' (a & -> & Ha)%list_elem_of_fmap. destruct (Himg a Ha) as (_ & -> & _). by apply Ho.
Qed.

(** An update that keeps a task's verdict, or hands it back when its Attempt expired. *)
Definition task_kept (atts : list StoredAttempt) (t t' : AgentTaskRow) : Prop :=
  tk_task_id t' = tk_task_id t /\ tk_latest_attempt_id t' = tk_latest_attempt_id t /\
  ((tk_state t' = tk_state t /\ tk_terminal_attempt_id t' = tk_terminal_attempt_id t) \/
   (tk_state t' = TaskReady /\ forall a, latest_of t atts a -> ta_state a = AttemptExpired)).

Lemma task_link_tasks (ts : list AgentTaskRow) (atts : list StoredAttempt)
  (sel : AgentTaskRow -> bool) (upd : AgentTaskRow -> AgentTaskRow) :
  (forall t, t ∈ ts -> sel t = true -> task_kept atts t (upd t)) -> task_link ts atts -> task_link (rows_update sel upd ts) atts.
Proof.
  intros Hk [Hl Ho].
  assert (Himg : forall t, t ∈ ts -> task_kept atts t (if sel t then upd t else t)).
  { intros t Ht. destruct (sel t) eqn:E; [by apply Hk | unfold task_kept; auto]. }
  split.
  - intros t' (t & -> & Ht)%list_elem_of_fmap. destruct (Himg t Ht) as (E1 & E2 & E3).
    destruct (Hl t Ht) as [(Hn & Hr & Hno) | (a & Hla)].
    + left. split_and!; [congruence | destruct E3 as [[-> _]|[-> _]]; done | ]. rewrite E1. by apply Hno.
    + right. exists a. pose proof Hla as [Hin Hid Htask Hfit Hoth]. split; try congruence.
      * unfold task_fits in *. destruct E3 as [[-> ->]|[-> Hexp]]; [done | by rewrite (Hexp a Hla)].
      * by rewrite E1.
  - intros a Ha. destruct (Ho a Ha) as (t & Ht & He). eexists. split; [by apply rows_update_image | ].
    destruct (Himg t Ht) as (-> & _). done.
Qed.

Lemma task_link_new (ts : list AgentTaskRow) (atts : list StoredAttempt) (t : AgentTaskRow) :
  agent_tasks_own (ts ++ [t]) = true -> tk_latest_attempt_id t = None -> tk_state t = TaskReady ->
  task_link ts atts -> task_link (ts ++ [t]) atts.
Proof.
  intros Hown Hn Hr [Hl Ho]. split.
  - intros x [Hx|Hx%list_elem_of_singleton]%elem_of_app; [by apply Hl | subst x]. left. split_and!; [done..|].
    intros a Ha He. destruct (Ho a Ha) as (t' & Ht' & Hid). unfold agent_tasks_own in Hown. split_andb.
    eapply (unique_fresh (fun t => Some (tk_task_id t)) ts t); [done | done | exact Ht' | ]. cbn. congruence.
  - intros a Ha. destruct (Ho a Ha) as (t' & Ht' & Hid). exists t'. split; [by apply elem_of_app; left | done].
Qed.

Lemma task_link_start (ts : list AgentTaskRow) (atts : list StoredAttempt) (t : AgentTaskRow) (a : StoredAttempt)
  (sel : AgentTaskRow -> bool) (upd : AgentTaskRow -> AgentTaskRow) :
  agent_tasks_own ts = true -> task_attempts_own (atts ++ [a]) = true -> t ∈ ts ->
  (forall x, sel x = true <-> tk_task_id x = tk_task_id t) -> ta_task_id a = tk_task_id t -> ta_state a = AttemptActive ->
  tk_task_id (upd t) = tk_task_id t -> tk_latest_attempt_id (upd t) = Some (ta_attempt_id a) -> tk_state (upd t) = TaskActive ->
  (forall l, latest_of t atts l -> ta_state l = AttemptExpired /\ (ta_attempt_number l < ta_attempt_number a)%Z) ->
  task_link ts atts -> task_link (rows_update sel upd ts) (atts ++ [a]).
Proof.
  intros Hts Hatts Ht Hsel Hta Hact U1 U2 U3 Hlast [Hl Ho].
  assert (Hin : a ∈ atts ++ [a]) by (apply elem_of_app; right; apply list_elem_of_here).
  split.
  - intros x' (x & Hx & [[Hsx ->]|[Hsx ->]])%rows_update_elem.
    + apply Hsel in Hsx. pose proof (tasks_by_id ts x t Hts Hx Ht Hsx) as ->. right. exists a. split; try congruence.
      * unfold task_fits. by rewrite U3, Hact.
      * intros b [Hb|Hb%list_elem_of_singleton]%elem_of_app Hbt Hne; [ | by subst]. rewrite U1 in Hbt.
        destruct (Hl t Ht) as [(_ & _ & Hno) | (l & Hla)]; [by destruct (Hno b Hb) | ].
        destruct (Hlast l Hla) as [Hexp Hnum]. destruct (decide (ta_attempt_id b = ta_attempt_id l)) as [He|Hbl].
        { assert (b = l) as ->; [ | done]. apply (task_attempts_by_id (atts ++ [a])); try done; apply elem_of_app; left; [done | ].
          apply (lo_elem _ _ _ Hla). }
        destruct (lo_others _ _ _ Hla b Hb Hbt); [congruence | split; [done | lia]].
    + assert (Hne : ta_task_id a <> tk_task_id x).
      { rewrite Hta. intros He. symmetry in He. apply Hsel in He. congruence. }
      destruct (Hl x Hx) as [(Hn & Hr & Hno) | (l & [Lin Lid Ltask Lfit Loth])].
      * left. split_and!; [done..|]. intros b [Hb|Hb%list_elem_of_singleton]%elem_of_app; [by apply Hno | by subst].
      * right. exists l. split; try done; [by apply elem_of_app; left | ].
        intros b [Hb|Hb%list_elem_of_singleton]%elem_of_app Hbt; [by apply Loth | by subst].
  - intros b [Hb|Hb%list_elem_of_singleton]%elem_of_app.
    + destruct (Ho b Hb) as (x & Hx & Hid). eexists. split; [by apply rows_update_image | ].
      destruct (sel x) eqn:Es; [ | done]. apply Hsel in Es. pose proof (tasks_by_id ts x t Hts Hx Ht Es) as ->. congruence.
    + subst b. exists (upd t). split; [ | congruence]. apply rows_update_hit; [done | by apply Hsel].
Qed.

(** The verdict of the latest Attempt becomes the verdict of its task. *)
Lemma task_link_end (ts : list AgentTaskRow) (atts : list StoredAttempt) (t : AgentTaskRow) (a : StoredAttempt)
  (selT : AgentTaskRow -> bool) (updT : AgentTaskRow -> AgentTaskRow)
  (selA : StoredAttempt -> bool) (updA : StoredAttempt -> StoredAttempt) :
  agent_tasks_own ts = true -> task_attempts_own atts = true -> t ∈ ts -> latest_of t atts a ->
  (forall x, selT x = true <-> tk_task_id x = tk_task_id t) -> (forall x, selA x = true <-> ta_attempt_id x = ta_attempt_id a) ->
  tk_task_id (updT t) = tk_task_id t -> tk_latest_attempt_id (updT t) = tk_latest_attempt_id t ->
  ta_attempt_id (updA a) = ta_attempt_id a -> ta_task_id (updA a) = ta_task_id a -> ta_attempt_number (updA a) = ta_attempt_number a ->
  task_fits (updT t) (updA a) ->
  task_link ts atts -> task_link (rows_update selT updT ts) (rows_update selA updA atts).
Proof.
  intros Hts Hatts Ht Hla HselT HselA U1 U2 V1 V2 V3 Hfit [Hl Ho].
  assert (HA : forall b', b' ∈ rows_update selA updA atts -> (b' = updA a) \/ (b' ∈ atts /\ b' <> a)).
  { intros b' (b & Hb & [[Hsb ->]|[Hsb ->]])%rows_update_elem.
    - apply HselA in Hsb. left. f_equal. by apply (task_attempts_by_id atts); [ | | apply (lo_elem _ _ _ Hla) | ].
    - right. split; [done | ]. intros ->. by rewrite (proj2 (HselA a) eq_refl) in Hsb. }
  assert (HB : forall b, b ∈ atts -> b <> a -> b ∈ rows_update selA updA atts).
  { intros b Hb Hne. pose proof (rows_update_image selA updA atts b Hb) as Hi. destruct (selA b) eqn:Es; [ | done].
    destruct Hne. apply HselA in Es. by apply (task_attempts_by_id atts); [ | | apply (lo_elem _ _ _ Hla) | ]. }
  pose proof Hla as [Lin Lid Ltask Lfit Loth].
  split.
  - intros x' (x & Hx & [[Hsx ->]|[Hsx ->]])%rows_update_elem.
    + apply HselT in Hsx. pose proof (tasks_by_id ts x t Hts Hx Ht Hsx) as ->. right. exists (updA a). split; try congruence.
      * apply rows_update_hit; [done | by apply HselA].
      * intros b [->|[Hb Hne]]%HA Hbt; [done | ]. intros _. rewrite V3. apply Loth; congruence.
    + assert (Hne : tk_task_id x <> tk_task_id t).
      { intros He. apply HselT in He. congruence. }
      destruct (Hl x Hx) as [(Hn & Hr & Hno) | (l & [Min Mid Mtask Mfit Moth])].
      * left. split_and!; [done..|]. intros b [->|[Hb _]]%HA; [congruence | by apply Hno].
      * right. exists l. split; try done; [apply HB; [done | intros ->; congruence] | ].
        intros b [->|[Hb _]]%HA Hbt; [congruence | by apply Moth].
  - intros b Hb. apply HA in Hb as [->|[Hb _]].
    + exists (updT t). split; [apply rows_update_hit; [done | by apply HselT] | congruence].
    + destruct (Ho b Hb) as (x & Hx & Hid). eexists. split; [by apply rows_update_image | ].
      destruct (selT x) eqn:Es; [ | done]. apply HselT in Es. pose proof (tasks_by_id ts x t Hts Hx Ht Es) as ->. congruence.
Qed.

(** ** The messages of a Conversation *)

Lemma seqs_of_none (ms : list MessageRow) (conversation_id : str) :
  (forall m, m ∈ ms -> ms_conversation_id m <> conversation_id) -> seqs_of ms conversation_id = [].
Proof.
  unfold seqs_of. intros Hn. induction ms as [|m ms IH]; [done | ]. cbn.
  destruct (ms_conversation_id m ==? conversation_id) eqn:E.
  - apply beq_true in E. destruct (Hn m); [apply list_elem_of_here | done].
  - apply IH. intros x Hx. apply Hn. by apply elem_of_cons; right.
Qed.

Lemma seqs_of_app (ms : list MessageRow) (m : MessageRow) (conversation_id : str) :
  seqs_of (ms ++ [m]) conversation_id =
  seqs_of ms conversation_id ++ (if ms_conversation_id m ==? conversation_id then [ms_seq m] else []).
Proof. unfold seqs_of. rewrite List.filter_app, map_app. cbn. by destruct (_ ==? _). Qed.

Lemma message_log_new (cs : list ConversationRow) (ms : list MessageRow) (c : ConversationRow) :
  conversations_own (cs ++ [c]) = true -> cv_next_seq c = 1%Z -> message_log cs ms -> message_log (cs ++ [c]) ms.
Proof.
  intros Hown Hn [Hs Ho]. split.
  - intros x [Hx|Hx%list_elem_of_singleton]%elem_of_app; [by apply Hs | subst x]. rewrite Hn. apply seqs_of_none.
    intros m Hm He. destruct (Ho m Hm) as (x & Hx & Hid). unfold conversations_own in Hown. split_andb.
    eapply (unique_fresh (fun t => Some (cv_conversation_id t)) cs c); [done | done | exact Hx | ]. cbn. congruence.
  - intros m Hm. destruct (Ho m Hm) as (x & Hx & Hid). exists x. split; [by apply elem_of_app; left | done].
Qed.

Lemma message_log_post (cs : list ConversationRow) (ms : list MessageRow) (c : ConversationRow) (m : MessageRow)
  (sel : ConversationRow -> bool) (upd : ConversationRow -> ConversationRow) :
  conversations_own cs = true -> c ∈ cs -> ms_conversation_id m = cv_conversation_id c -> ms_seq m = cv_next_seq c ->
  (forall x, sel x = true <-> cv_conversation_id x = cv_conversation_id c) ->
  cv_conversation_id (upd c) = cv_conversation_id c -> cv_next_seq (upd c) = (cv_next_seq c + 1)%Z ->
  message_log cs ms -> message_log (rows_update sel upd cs) (ms ++ [m]).
Proof.
  intros Hown Hc Hmc Hms Hsel U1 U2 [Hs Ho].
  assert (Hone : forall x, x ∈ cs -> sel x = true -> x = c).
  { intros x Hx He%Hsel. by apply (conversations_by_id cs). }
  assert (Hpos : (1 <= cv_next_seq c)%Z).
  { unfold conversations_own in Hown. split_andb. match goal with H : forallb _ _ = true |- _ => rewrite forallb_forall in H;
      specialize (H c (proj1 (list_elem_of_In _ _) Hc)) end. lia. }
  split.
  - intros x' (x & Hx & [[Hsx ->]|[Hsx ->]])%rows_update_elem; rewrite seqs_of_app.
    + pose proof (Hone x Hx Hsx) as ->. rewrite U1, U2, Hmc, beq_refl, Hs, Hms by done.
      replace (cv_next_seq c + 1 - 1)%Z with (cv_next_seq c - 1 + 1)%Z by lia. rewrite seqZ_app by lia. f_equal.
      rewrite seqZ_cons, seqZ_nil by lia. f_equal. lia.
    + rewrite Hmc. destruct (_ ==? _) eqn:E; [ | rewrite app_nil_r; by apply Hs].
      apply beq_true in E. symmetry in E. apply Hsel in E. congruence.
  - assert (Hkeep : forall x, x ∈ cs -> exists x', x' ∈ rows_update sel upd cs /\ cv_conversation_id x' = cv_conversation_id x).
    { intros x Hx. eexists. split; [by apply rows_update_image | ]. destruct (sel x) eqn:Es; [ | done].
      pose proof (Hone x Hx Es) as ->. done. }
    intros b [Hb|Hb%list_elem_of_singleton]%elem_of_app.
    + destruct (Ho b Hb) as (x & Hx & Hid). destruct (Hkeep x Hx) as (x' & Hx' & He). exists x'. split; [done | congruence].
    + subst b. destruct (Hkeep c Hc) as (x' & Hx' & He). exists x'. split; [done | congruence].
Qed.

(** ** Rows of Wakes and of their Attempts *)

Lemma wake_row (w w' : AgentWakeRecord) :
  wk_wake_id w' = wk_wake_id w -> wk_target_agent_id w' = wk_target_agent_id w -> wk_trigger_kind w' = wk_trigger_kind w ->
  wk_source_task_id w' = wk_source_task_id w -> wk_source_task_attempt_id w' = wk_source_task_attempt_id w ->
  wk_source_event_id w' = wk_source_event_id w -> opt_le (wk_inbox_high_watermark w) (wk_inbox_high_watermark w') ->
  (wk_revision w < wk_revision w')%Z ->
  queueable (wk_state w) = true \/
  (dispatched (wk_state w) = true /\ (dispatched (wk_state w') = true \/ wk_state w' = WakeConsumed) /\
   wk_claimed_attempt_id w' = wk_claimed_attempt_id w /\ wk_claimed_endpoint_id w' = wk_claimed_endpoint_id w /\
   wk_claimed_controller_generation w' = wk_claimed_controller_generation w) ->
  wake_moves w w'.
Proof.
  intros E1 E2 E3 E4 E5 E6 E7 E8 [Hq|(Hd & Hn & E9 & E10 & E11)]; split; try done; auto.
  - by destruct (wk_state w), (wk_state w').
  - intros Hd. by destruct (wk_state w).
  - intros Hd. by destruct (wk_state w).
  - destruct Hn as [Hn|Hn]; [ | rewrite Hn]; by destruct (wk_state w), (wk_state w').
  - intros _. split_and!; try done. intros He. rewrite He in Hn. by destruct Hn.
  - by destruct (wk_state w).
Qed.

Lemma unclaimed_moves (w : AgentWakeRecord) (s : AgentWakeState) (now : Z) :
  queueable (wk_state w) = true -> wake_moves w (unclaim_wake s now w).
Proof. intros Hq. apply wake_row; try done; cbn; [apply opt_le_refl | lia | by left]. Qed.

Lemma unknown_moves (w : AgentWakeRecord) (now : Z) : dispatched (wk_state w) = true -> wake_moves w (wake_unknown now w).
Proof. intros Hd. apply wake_row; try done; cbn; [apply opt_le_refl | lia | ]. right. by auto. Qed.

Lemma attempt_row (a a' : WakeAttemptRow) :
  wa_attempt_id a' = wa_attempt_id a -> wa_wake_id a' = wa_wake_id a -> wa_endpoint_id a' = wa_endpoint_id a ->
  wa_controller_generation a' = wa_controller_generation a -> wa_claim_fence_hash a' = wa_claim_fence_hash a ->
  wa_consume_token_hash a' = wa_consume_token_hash a -> wa_claim_lease_expires_at a' = wa_claim_lease_expires_at a ->
  (attempt_rank (wa_state a) < 2)%Z -> (attempt_rank (wa_state a) <= attempt_rank (wa_state a'))%Z -> wake_attempt_moves a a'.
Proof. intros. split; try done. lia. Qed.

Lemma revoked_moves (a : WakeAttemptRow) (now : Z) : wa_state a = WaClaimed -> wake_attempt_moves a (revoke_attempt now a).
Proof. intros Hc. apply attempt_row; try done; by rewrite Hc. Qed.

Lemma attempt_unknown_moves (a : WakeAttemptRow) (now : Z) :
  attempt_rank (wa_state a) = 1%Z -> wake_attempt_moves a (attempt_unknown now a).
Proof. intros Hc. apply attempt_row; try done; cbn; lia. Qed.

Section Pairs.
Variables (ws : list AgentWakeRecord) (atts : list WakeAttemptRow).
Variables (selW : AgentWakeRecord -> bool) (updW : AgentWakeRecord -> AgentWakeRecord).
Variables (selA : WakeAttemptRow -> bool) (updA : WakeAttemptRow -> WakeAttemptRow).
Hypothesis Hsel : forall w a, w ∈ ws -> a ∈ atts -> linked w a -> selW w = selA a.

(** The claims a pair of updates releases. *)
Lemma paired_release :
  (forall w, unclaimed (wk_state (updW w)) = true) -> (forall a, wa_state (updA a) = WaRevoked) ->
  paired ws atts selW updW selA updA.
Proof. intros Hw Ha. split; auto. Qed.

(** The linked rows a pair of updates moves on. *)
Lemma paired_moved :
  (forall w a, w ∈ ws -> a ∈ atts -> linked w a -> selW w = true -> linked (updW w) (updA a)) ->
  (forall w, w ∈ ws -> selW w = true -> unclaimed (wk_state w) = false) ->
  (forall a, a ∈ atts -> selA a = true -> wa_state a <> WaRevoked) -> paired ws atts selW updW selA updA.
Proof.
  intros Hl Hw Ha. split; auto.
  - intros w Hin Hu Hs. by rewrite (Hw w) in Hu.
  - intros a Hin Hr Hs. by destruct (Ha a).
Qed.
End Pairs.

Section WakeSteps.
Variables db0 db : AgentDb.
Hypothesis Hs : stepped db0 db.

Lemma step_wake_pair selW updW selA updA :
  wake_attempts_own (rows_update selA updA (wake_attempts db)) = true -> wakes_own (rows_update selW updW (wakes db)) = true ->
  (forall w, w ∈ wakes db -> selW w = true ->
     wake_moves w (updW w) /\ (wk_trigger_kind w = InboxChanged -> wk_state (updW w) <> WakeRetired)) ->
  (forall a, a ∈ wake_attempts db -> selA a = true -> wake_attempt_moves a (updA a)) ->
  paired (wakes db) (wake_attempts db) selW updW selA updA ->
  stepped db0 (db <| wake_attempts := rows_update selA updA (wake_attempts db) |>
                  <| wakes := rows_update selW updW (wakes db) |>).
Proof.
  intros Ho1 Ho2 Hw Ha Hp. assert (Hw' : forall w, w ∈ wakes db -> selW w = true -> wake_moves w (updW w)) by (intros; by apply Hw).
  stepped_split.
  - by apply grows_update; [apply _ | ].
  - by apply grows_update; [apply _ | ].
  - by apply wake_link_paired.
  - apply inbox_cover_wakes; [done | | done]. intros w Hin Hsel. by apply Hw.
  - by apply carriers_wakes.
Qed.

Lemma step_wake_claim a w sel upd :
  wake_attempts_own (wake_attempts db ++ [a]) = true -> wakes_own (rows_update sel upd (wakes db)) = true ->
  w ∈ wakes db -> wk_state w = WakePending -> sel w = true -> linked (upd w) a ->
  (forall x, sel x = true -> wk_wake_id x = wk_wake_id w /\ wk_state x = WakePending /\ wake_moves x (upd x) /\
     wk_state (upd x) <> WakeRetired) ->
  stepped db0 (db <| wake_attempts := wake_attempts db ++ [a] |> <| wakes := rows_update sel upd (wakes db) |>).
Proof.
  intros Ho1 Ho2 Hin Hp Hsel Hl Hx.
  assert (Hw' : forall w, w ∈ wakes db -> sel w = true -> wake_moves w (upd w)) by (intros ? _ ?; by apply Hx).
  stepped_split.
  - by apply grows_update; [apply _ | ].
  - apply grows_app, _.
  - eapply (wake_link_claim _ _ a w); try done; [by destruct s | by rewrite Hp | ]. intros x _ Hsx. by apply Hx.
  - apply inbox_cover_wakes; [done | | done]. intros x _ Hsx _. by apply Hx.
  - by apply carriers_wakes.
Qed.

Lemma step_wake_insert w :
  wakes_own (wakes db ++ [w]) = true -> wk_state w = WakePending -> wk_trigger_kind w <> AgentTaskAttemptTrigger ->
  stepped db0 (db <| wakes := wakes db ++ [w] |>).
Proof.
  intros Ho Hp Ht. stepped_split.
  - apply grows_app, _.
  - apply wake_link_more; [by rewrite Hp | done].
  - apply inbox_cover_more; [by rewrite Hp | done].
  - by apply carriers_more.
Qed.
End WakeSteps.
