(* ===== verification/AgentCoreSound.v ===== *)
(** * AgentCoreSound: the shared statements keep the invariant

    The checks of agent_task.rs, agent_wake.rs and agent_attention.rs give the facts their
    callers rely on, and each group of statements the operations share ends in tables that
    moved as they may ([stepped]) and in which only the tables it writes have changed. *)
From S2P Require Import Prelude RustStr Sql ConnectorModel CodingAgent AgentModel AgentStore AgentCore AgentFacts AgentLinks.

(** ** Frames *)

(** Only the tasks and their Attempts changed. *)
Definition only_tasks (db db' : AgentDb) : Prop :=
  exists ts atts, db' = db <| agent_tasks := ts |> <| task_attempts := atts |>.
(** Only tasks, Wakes, their Attempts and executions changed. *)
Definition only_wakes (db db' : AgentDb) : Prop :=
  exists ts atts xs ws was,
    db' = db <| agent_tasks := ts |> <| task_attempts := atts |> <| endpoint_executions := xs |> <| wakes := ws |>
             <| wake_attempts := was |>.

Lemma only_tasks_refl (db : AgentDb) : only_tasks db db.
Proof. exists (agent_tasks db), (task_attempts db). by destruct db. Qed.
Lemma only_wakes_refl (db : AgentDb) : only_wakes db db.
Proof. exists (agent_tasks db), (task_attempts db), (endpoint_executions db), (wakes db), (wake_attempts db). by destruct db. Qed.
Lemma only_tasks_trans (a b c : AgentDb) : only_tasks a b -> only_tasks b c -> only_tasks a c.
Proof. intros (ts & atts & ->) (ts' & atts' & ->). by exists ts', atts'. Qed.
Lemma only_wakes_trans (a b c : AgentDb) : only_wakes a b -> only_wakes b c -> only_wakes a c.
Proof. intros (? & ? & ? & ? & ? & ->) (ts & atts & xs & ws & was & ->). by exists ts, atts, xs, ws, was. Qed.
Lemma only_tasks_wakes (a b : AgentDb) : only_tasks a b -> only_wakes a b.
Proof. intros (ts & atts & ->). exists ts, atts, (endpoint_executions a), (wakes a), (wake_attempts a). by destruct a. Qed.

Lemma only_tasks_eq (db db' : AgentDb) :
  db' = db <| agent_tasks := agent_tasks db' |> <| task_attempts := task_attempts db' |> -> only_tasks db db'.
Proof. intros He. by eexists _, _. Qed.
Lemma only_wakes_eq (db db' : AgentDb) :
  db' = db <| agent_tasks := agent_tasks db' |> <| task_attempts := task_attempts db' |>
           <| endpoint_executions := endpoint_executions db' |> <| wakes := wakes db' |> <| wake_attempts := wake_attempts db' |> ->
  only_wakes db db'.
Proof. intros He. by eexists _, _, _, _, _. Qed.

(** The frame of the statements that ran. *)
Ltac frame := first [apply only_tasks_refl | apply only_wakes_refl | apply only_tasks_eq; reflexivity | apply only_wakes_eq; reflexivity].

(** The rows that reads found. *)
Ltac found :=
  repeat match goal with
  | H : find _ _ = Some _ |- _ => let Hin := fresh "Hin" in apply find_elem in H; destruct H as [Hin H]
  end.

(** ** What a loaded task says of the tables *)

Record task_loaded (db : AgentDb) (task : StoredTask) (row : AgentTaskRow) : Prop := {
  tl_row : row ∈ agent_tasks db;
  tl_id : tk_task_id row = sk_task_id task;
  tl_state : tk_state row = sk_stored_state task;
  tl_latest_id : tk_latest_attempt_id row = ta_attempt_id <$> sk_latest_attempt task;
  tl_attempt : forall a, sk_latest_attempt task = Some a -> a ∈ task_attempts db /\ ta_task_id a = sk_task_id task
}.

Lemma wp_load_owned_task (principal : CommunicationPrincipal) (task_id : str) (post : StoredTask -> AgentDb -> Prop) (db : AgentDb) :
  (forall task row, task_loaded db task row -> sk_task_id task = task_id -> post task db) ->
  tx_wp (load_owned_task principal task_id) post db.
Proof.
  intros Hp. unfold load_owned_task. tx_steps.
  - apply find_elem in H0 as [Hr Hid]. split_andb. eapply Hp; [split; [exact Hr | try done ..] | done].
    all: apply find_elem in H2 as [Ha Hia]; split_andb.
    + cbn. congruence.
    + intros b [= <-]. split; [done | cbn; congruence].
  - apply find_elem in H0 as [Hr Hid]. split_andb. by eapply Hp; [split; [exact Hr | try done ..] | done].
Qed.

Lemma loaded_latest (db : AgentDb) (task : StoredTask) (row : AgentTaskRow) (a : StoredAttempt) :
  agent_inv db -> task_loaded db task row -> sk_latest_attempt task = Some a -> latest_of row (task_attempts db) a.
Proof.
  intros Hi [Hr Hid _ Hlat Hatt] Ha. destruct (Hatt a Ha) as [Hin Ht]. rewrite Ha in Hlat. cbn in Hlat.
  destruct (tl_latest _ _ (inv_tasks _ Hi) row Hr) as [(Hn & _) | (l & Hl)]; [congruence | ].
  rewrite (latest_unique (task_attempts db) row l a); [done | apply (sc_task_attempts _ (inv_schema _ Hi)) | done..].
Qed.

(** What [require_current_attempt] checked. *)
Record attempt_current (db : AgentDb) (task : StoredTask) (a : StoredAttempt) (now : Z) : Prop := {
  ac_elem : a ∈ task_attempts db;
  ac_task : ta_task_id a = sk_task_id task;
  ac_latest : (ta_attempt_id <$> sk_latest_attempt task) = Some (ta_attempt_id a);
  ac_open : task_terminal (sk_stored_state task) = false;
  ac_active : ta_state a = AttemptActive;
  ac_lease : (now < ta_lease_expires_at a)%Z
}.

Lemma wp_require_current_attempt (task : StoredTask) (attempt_id assignee attempt_fence : str) (generation now : Z)
  (post : StoredAttempt -> AgentDb -> Prop) (db : AgentDb) :
  (forall a, attempt_current db task a now -> ta_attempt_id a = attempt_id -> ta_assignee_agent_id a = assignee ->
     ta_attempt_fence a = attempt_fence -> ta_attempt_controller_generation a = generation -> post a db) ->
  tx_wp (require_current_attempt task attempt_id assignee attempt_fence generation now) post db.
Proof.
  intros Hp. unfold require_current_attempt. tx_steps. apply find_elem in H3 as [Hin Hid]. split_andb.
  apply Hp; try congruence; [ | lia]. split; try congruence; try done; try lia.
Qed.

(** ** Tasks *)

Section Tasks.
Variables db0 db : AgentDb.
Hypothesis Hs : stepped db0 db.

Lemma stepped_schema : schema db.
Proof. by destruct Hs as [_ []]. Qed.

(** An update of tasks that keeps their verdicts, or hands one back. *)
Lemma step_tasks_kept (sel : AgentTaskRow -> bool) (upd : AgentTaskRow -> AgentTaskRow) :
  agent_tasks_own (rows_update sel upd (agent_tasks db)) = true ->
  (forall t, t ∈ agent_tasks db -> sel t = true -> task_moves t (upd t) /\ task_kept (task_attempts db) t (upd t)) ->
  stepped db0 (db <| agent_tasks := rows_update sel upd (agent_tasks db) |>).
Proof.
  intros Ho Hu. apply step_tasks; [done | | done | ].
  - apply grows_update; [apply _ | ]. intros t Ht Hsel. by apply Hu.
  - apply task_link_tasks; [ | by destruct Hs as [_ []]]. intros t Ht Hsel. by apply Hu.
Qed.

(** An update of Attempts that keeps their verdicts, or lets active ones expire. *)
Lemma step_attempts_kept (sel : StoredAttempt -> bool) (upd : StoredAttempt -> StoredAttempt) :
  task_attempts_own (rows_update sel upd (task_attempts db)) = true ->
  (forall a, a ∈ task_attempts db -> sel a = true -> within_i64 a ->
     task_attempt_moves a (upd a) /\ attempt_kept a (upd a) /\ within_i64 (upd a)) ->
  stepped db0 (db <| task_attempts := rows_update sel upd (task_attempts db) |>).
Proof.
  intros Ho Hu. pose proof (inv_width _ (st_inv _ _ Hs)) as Hw.
  assert (Hu' : forall a, a ∈ task_attempts db -> sel a = true -> task_attempt_moves a (upd a) /\ attempt_kept a (upd a) /\ within_i64 (upd a)).
  { rewrite Forall_forall in Hw. auto. }
  apply step_task_attempts; [done | | done | | ].
  - apply grows_update; [apply _ | ]. intros a Ha Hsel. by apply Hu'.
  - apply task_link_attempts; [apply (sc_task_attempts _ stepped_schema) | | by destruct Hs as [_ []]].
    intros a Ha Hsel. by apply Hu'.
  - apply rows_update_Forall; [ | done]. intros a Ha Hsel _. by apply Hu'.
Qed.

(** An update of executions that moves their carrier. *)
Lemma step_executions_kept (sel : EndpointExecutionRow -> bool) (upd : EndpointExecutionRow -> EndpointExecutionRow) :
  endpoint_executions_own (rows_update sel upd (endpoint_executions db)) = true ->
  (forall e, execution_moves e (upd e)) ->
  stepped db0 (db <| endpoint_executions := rows_update sel upd (endpoint_executions db) |>).
Proof.
  intros Ho Hu. apply step_executions; [done | | done | ].
  - by apply grows_update; [apply _ | ].
  - apply carriers_executions; [done | by destruct Hs as [_ []]].
Qed.

(** An update of Endpoints that gives none of them back. *)
Lemma step_endpoints_kept (sel : AgentEndpointRow -> bool) (upd : AgentEndpointRow -> AgentEndpointRow) :
  endpoints_own (rows_update sel upd (endpoints db)) = true ->
  (forall e, e ∈ endpoints db -> sel e = true -> endpoint_moves e (upd e)) ->
  stepped db0 (db <| endpoints := rows_update sel upd (endpoints db) |>).
Proof.
  intros Ho Hu. apply step_endpoints; [done | | done | ].
  - by apply grows_update; [apply _ | ].
  - apply controllers_endpoints; [done | by destruct Hs as [_ []]].
Qed.

Lemma wp_touch_agent_task (task_id : str) (now : Z) :
  (forall t, t ∈ agent_tasks db -> tk_task_id t = task_id -> task_terminal (tk_state t) = false) ->
  tx_wp (touch_task task_id now) (fun _ db' => stepped db0 db' /\ only_tasks db db') db.
Proof.
  intros Hopen. unfold touch_task. tx_steps. split.
  - apply step_tasks_kept; [done | ]. intros t Ht Hsel. split_andb. split.
    + split; try done. intros Hterm. by rewrite (Hopen t) in Hterm.
    + unfold task_kept. by auto.
  - frame.
Qed.
End Tasks.

(** The task a caller controls is not terminal. *)
Lemma loaded_open (db : AgentDb) (task : StoredTask) (row : AgentTaskRow) :
  agent_inv db -> task_loaded db task row -> task_terminal (sk_stored_state task) = false ->
  forall t, t ∈ agent_tasks db -> tk_task_id t = sk_task_id task -> task_terminal (tk_state t) = false.
Proof.
  intros Hi [Hr Hid Hst _ _] Hopen t Ht He. rewrite (tasks_by_id (agent_tasks db) t row); try done; try congruence.
  apply (sc_tasks _ (inv_schema _ Hi)).
Qed.

Lemma sat_add_next (g : Z) : (1 <= g <= I64_MAX)%Z -> (g <= i64_sat_add g 1 <= I64_MAX)%Z.
Proof. unfold i64_sat_add, i64_clamp, I64_MAX, I64_MIN. lia. Qed.

Lemma attempt_generation_pos (atts : list StoredAttempt) (a : StoredAttempt) :
  task_attempts_own atts = true -> a ∈ atts -> (1 <= ta_attempt_number a)%Z /\ (1 <= ta_attempt_controller_generation a)%Z.
Proof.
  unfold task_attempts_own. intros Ho Ha. split_andb. rewrite forallb_forall in H0.
  specialize (H0 a (proj1 (list_elem_of_In _ _) Ha)). unfold task_attempt_check in H0. split_andb. lia.
Qed.

Lemma wp_replace_controller (db0 db : AgentDb) (principal : CommunicationPrincipal)
  (task_id attempt_id assignee attempt_fence : str) (generation now : Z) :
  stepped db0 db ->
  tx_wp (replace_agent_task_attempt_controller_in_transaction principal task_id attempt_id assignee attempt_fence generation now)
    (fun _ db' => stepped db0 db' /\ only_tasks db db') db.
Proof.
  intros Hs. unfold replace_agent_task_attempt_controller_in_transaction. wp_step. apply wp_load_owned_task.
  intros task row Hl <-. wp_step. apply wp_require_current_attempt. intros a [Hin Hta Hlat Hopen Hact Hlease] <- <- <- <-.
  pose proof (st_inv _ _ Hs) as Hi. pose proof (sc_task_attempts _ (inv_schema _ Hi)) as Hown0.
  pose proof (attempt_generation_pos _ _ Hown0 Hin) as [_ Hpos].
  tx_steps. apply (wp_mono _ (fun _ db' => stepped db0 db' /\
    only_tasks (db <| task_attempts := rows_update (fun x => ta_attempt_id x ==? ta_attempt_id a)
      (fun x => x <| ta_attempt_controller_generation := i64_sat_add (ta_attempt_controller_generation a) 1 |>) (task_attempts db) |>) db')).
  - apply wp_touch_agent_task; [ | by apply (loaded_open db task row)]. apply step_attempts_kept; [done | done | ].
    intros x Hx Hsel [Hw1 Hw2]. split_andb. pose proof (task_attempts_by_id _ x a Hown0 Hx Hin Hsel) as ->.
    pose proof (sat_add_next (ta_attempt_controller_generation a)). split_and!.
    + split; cbn; try done; try lia. by rewrite Hact.
    + unfold attempt_kept. by auto.
    + split; cbn; lia.
  - intros [] db' [Hs' Ho]. tx_steps. split; [done | ]. eapply only_tasks_trans; [ | exact Ho].
    frame.
Qed.

(** ** Wakes that leave the queue *)

Lemma cleared_moves (now : Z) (e : EndpointExecutionRow) : execution_moves e (clear_carrier now e).
Proof. by split. Qed.

(** A claim that is released together with its carrier. *)
Lemma step_wake_trio (db0 db : AgentDb) selW updW selA updA selX updX :
  stepped db0 db ->
  wake_attempts_own (rows_update selA updA (wake_attempts db)) = true -> wakes_own (rows_update selW updW (wakes db)) = true ->
  endpoint_executions_own (rows_update selX updX (endpoint_executions db)) = true -> (forall e, execution_moves e (updX e)) ->
  (forall w, w ∈ wakes db -> selW w = true ->
     wake_moves w (updW w) /\ (wk_trigger_kind w = InboxChanged -> wk_state (updW w) <> WakeRetired)) ->
  (forall a, a ∈ wake_attempts db -> selA a = true -> wake_attempt_moves a (updA a)) ->
  paired (wakes db) (wake_attempts db) selW updW selA updA ->
  stepped db0 (db <| wake_attempts := rows_update selA updA (wake_attempts db) |>
                  <| endpoint_executions := rows_update selX updX (endpoint_executions db) |>
                  <| wakes := rows_update selW updW (wakes db) |>).
Proof.
  intros Hs Ho1 Ho2 Ho3 Hx Hw Ha Hp.
  exact (step_wake_pair db0 (db <| endpoint_executions := rows_update selX updX (endpoint_executions db) |>)
           (step_executions_kept db0 db Hs selX updX Ho3 Hx) selW updW selA updA Ho1 Ho2 Hw Ha Hp).
Qed.

Lemma wake_in_spec (db : AgentDb) (sel : AgentWakeRecord -> bool) (w : AgentWakeRecord) :
  wakes_own (wakes db) = true -> w ∈ wakes db -> wake_in db sel (wk_wake_id w) = sel w.
Proof.
  intros Ho Hw. unfold wake_in. apply eq_true_iff_eq. rewrite existsb_exists. split.
  - intros (x & Hx%list_elem_of_In & Hsel). split_andb. by rewrite (wakes_by_id _ w x Ho Hw Hx).
  - intros Hsel. exists w. rewrite beq_refl, Hsel. split; [by apply list_elem_of_In | done].
Qed.

Lemma linked_claims (w : AgentWakeRecord) (a : WakeAttemptRow) :
  linked w a -> (wa_state a ==? WaClaimed) = (wk_state w ==? WakeClaimed) /\ queueable (wk_state w) = (wk_state w ==? WakeClaimed).
Proof. intros []. by destruct (wk_state w), (wa_state a). Qed.

(** The execution that names a Wake and an Attempt is the one the Wake carries. *)
Lemma carried_source (db : AgentDb) (w : AgentWakeRecord) (attempt_id : str) :
  agent_inv db -> w ∈ wakes db ->
  existsb (fun e => (ee_wake_id e ==? wk_wake_id w) && (ee_attempt_id e ==? attempt_id)) (endpoint_executions db) = true <->
  wk_trigger_kind w = AgentTaskAttemptTrigger /\ wk_source_task_attempt_id w = Some attempt_id.
Proof.
  intros Hi Hw. pose proof (sc_wakes _ (inv_schema _ Hi)) as Ho. destruct (inv_carriers _ Hi) as [Hc Hk]. rewrite existsb_exists. split.
  - intros (e & He%list_elem_of_In & Hsel). split_andb. destruct (Hc e He) as (w' & Hw' & (E1 & E2 & E3 & E4)).
    assert (w' = w) as -> by (apply (wakes_by_id _ _ _ Ho); congruence). split; congruence.
  - intros [Ht Hat]. destruct (Hk w Hw Ht) as (e & He & (E1 & E2 & E3 & E4)). exists e. split; [by apply list_elem_of_In | ].
    rewrite Hat in E4. injection E4 as ->. by rewrite E1, !beq_refl.
Qed.

Lemma wp_retire_for_attempt (db0 db : AgentDb) (attempt_id : str) (now : Z) :
  stepped db0 db ->
  tx_wp (retire_pre_dispatch_endpoint_execution_for_attempt attempt_id now)
    (fun _ db' => stepped db0 db' /\ only_wakes db db' /\ agent_tasks db' = agent_tasks db /\ task_attempts db' = task_attempts db) db.
Proof.
  intros Hs. pose proof (st_inv _ _ Hs) as Hi. pose proof (sc_wakes _ (inv_schema _ Hi)) as Ho.
  unfold retire_pre_dispatch_endpoint_execution_for_attempt. tx_steps.
  split_and!; [ | frame | done | done].
  apply (step_wake_trio db0 db); try done.
  - intros w Hw Hsel. split_andb. split; [by apply unclaimed_moves | ]. intros Ht. congruence.
  - intros a Ha Hsel. split_andb. by apply revoked_moves.
  - apply paired_release; [ | done | done]. intros w a Hw Ha Hl. destruct (linked_claims w a Hl) as [Hc Hq].
    rewrite (lk_wake _ _ Hl), wake_in_spec, Hc, Hq by done. apply eq_true_iff_eq. rewrite !andb_true_iff.
    rewrite (carried_source db w attempt_id Hi Hw), !beq_eq. naive_solver.
Qed.

(** The Attempt a Wake carries expires with its lease. *)
Lemma wp_materialize_wake_expiry (db0 db : AgentDb) (wake : AgentWakeRecord) (now : Z) :
  stepped db0 db ->
  tx_wp (materialize_agent_task_wake_expiry wake now) (fun _ db' => stepped db0 db' /\ only_tasks db db') db.
Proof.
  intros Hs. unfold materialize_agent_task_wake_expiry.
  destruct (wk_source_task_id wake) as [task_id|]; [ | tx_steps; auto using only_tasks_refl].
  destruct (wk_source_task_attempt_id wake) as [attempt_id|]; [ | tx_steps; auto using only_tasks_refl].
  tx_steps. split; [ | frame].
  assert (Hs1 : stepped db0 (db <| task_attempts := rows_update (fun a => (ta_attempt_id a ==? attempt_id) && (ta_state a ==? AttemptActive)
                        && Z.leb (ta_lease_expires_at a) now)
            (fun a => a <| ta_state := AttemptExpired |> <| ta_terminal_at := coalesce (ta_terminal_at a) (Some now) |>) (task_attempts db) |>)).
  { apply step_attempts_kept; [done | done | ]. intros a Ha Hsel Hw. split_andb. split_and!; [ | | done].
    - split; cbn; try done; try lia; match goal with H : ta_state a = _ |- _ => rewrite H; cbn; first [lia | intros ?; lia] end.
    - unfold attempt_kept. split_and!; try done. by right. }
  apply (step_tasks_kept _ _ Hs1); [done | ]. intros t Ht Hsel. split_andb. split.
  - split; try done. intros Hterm. match goal with H : tk_state t = _ |- _ => by rewrite H in Hterm end.
  - split_and!; [done | done | right]. split; [done | ]. intros l Hl.
    match goal with H : existsb _ _ = true |- _ => apply existsb_exists in H as (x & Hx%list_elem_of_In & Hsx) end. split_andb.
    rewrite <- (latest_unique _ t l x (sc_task_attempts _ (stepped_schema _ _ Hs1)) Hl Hx); [done | congruence].
Qed.

Lemma wp_retire_wake (db0 db : AgentDb) (wake_id : str) (now : Z) :
  stepped db0 db ->
  tx_wp (retire_agent_task_wake_pre_dispatch wake_id now) (fun _ db' => stepped db0 db' /\ only_wakes db db') db.
Proof.
  intros Hs. unfold retire_agent_task_wake_pre_dispatch. tx_steps; [auto using only_wakes_refl | ].
  eapply wp_mono; [by apply wp_materialize_wake_expiry | ]. intros [] db' [Hs' Hf].
  pose proof (sc_wakes _ (stepped_schema _ _ Hs')) as Hown. unfold clear_agent_task_wake_carrier. tx_steps.
  apply find_elem in H as [Hin Hid]. assert (Hw : wakes db' = wakes db) by (by destruct Hf as (? & ? & ->)). split_andb.
  split; [ | eapply only_wakes_trans; [by apply only_tasks_wakes | ]; frame].
  apply (step_wake_trio db0 db'); try done.
  - intros w Hwin Hsel. split_andb. split; [by apply unclaimed_moves | ]. intros Ht.
    rewrite (wakes_by_id _ w a Hown) in Ht; try congruence; by rewrite ?Hw.
  - intros x Hx Hsel. split_andb. by apply revoked_moves.
  - apply paired_release; [ | done | done]. intros w x Hwin Hx Hl. destruct (linked_claims w x Hl) as [Hc Hq].
    by rewrite (lk_wake _ _ Hl), Hc, Hq.
Qed.

Lemma wp_retire_stale (db0 db : AgentDb) (agent_id : str) (now : Z) :
  stepped db0 db ->
  tx_wp (retire_stale_agent_task_wakes_for_agent agent_id now) (fun _ db' => stepped db0 db' /\ only_wakes db db') db.
Proof.
  intros Hs. unfold retire_stale_agent_task_wakes_for_agent. tx_steps. apply wp_for_each; [auto using only_wakes_refl | ].
  intros _ wake_id d _ [Hd Hf]. eapply wp_mono; [by apply wp_retire_wake | ]. intros [] d' [Hd' Hf']. split; [done | ].
  by eapply only_wakes_trans.
Qed.

(** ** The expiry of a task's latest Attempt *)

(** Expiring an active Attempt keeps what holds of the Attempts. *)
Lemma step_attempt_expired (db0 db : AgentDb) (attempt_id : str) (now : Z) :
  let sel := fun a => (ta_attempt_id a ==? attempt_id) && (ta_state a ==? AttemptActive) in
  let upd := fun a => a <| ta_state := AttemptExpired |> <| ta_terminal_at := Some now |> in
  stepped db0 db -> task_attempts_own (rows_update sel upd (task_attempts db)) = true ->
  stepped db0 (db <| task_attempts := rows_update sel upd (task_attempts db) |>).
Proof.
  intros sel upd Hs Ho. apply step_attempts_kept; [done | done | ]. intros a Ha Hsel Hw. unfold sel in Hsel. split_andb.
  split_and!; [ | | done].
  - split; cbn; try done; try lia; match goal with H : ta_state a = _ |- _ => rewrite H; cbn; first [lia | intros ?; lia] end.
  - unfold attempt_kept. split_and!; try done. by right.
Qed.

(** The task handed back when its latest Attempt has expired. *)
Lemma step_task_ready (db0 db : AgentDb) (task_id : str) (now : Z) (row : AgentTaskRow) (a : StoredAttempt) :
  let sel := fun t => (tk_task_id t ==? task_id) && (tk_state t ==? TaskActive) in
  let upd := fun t => t <| tk_state := TaskReady |> <| tk_updated_at := Z.max (tk_updated_at t) now |> in
  stepped db0 db -> row ∈ agent_tasks db -> tk_task_id row = task_id -> latest_of row (task_attempts db) a ->
  ta_state a = AttemptExpired -> agent_tasks_own (rows_update sel upd (agent_tasks db)) = true ->
  stepped db0 (db <| agent_tasks := rows_update sel upd (agent_tasks db) |>).
Proof.
  intros sel upd Hs Hr Hid Hl He Ho. apply step_tasks_kept; [done | done | ]. intros t Ht Hsel. unfold sel in Hsel. split_andb.
  assert (t = row) as -> by (apply (tasks_by_id _ _ _ (sc_tasks _ (stepped_schema _ _ Hs))); congruence). split.
  - split; try done. intros Hterm. match goal with H : tk_state row = _ |- _ => by rewrite H in Hterm end.
  - split_and!; [done | done | right]. split; [done | ]. intros l Hl'. rewrite <- He. f_equal. symmetry.
    apply (latest_unique (task_attempts db) row); [apply (sc_task_attempts _ (stepped_schema _ _ Hs)) | done | apply (lo_elem _ _ _ Hl) | ].
    apply (lo_id _ _ _ Hl).
Qed.

(** What [materialize_expired_latest_attempt] leaves. *)
Record materialized (db0 db : AgentDb) (task : StoredTask) (now : Z) (task' : StoredTask) (db' : AgentDb) : Prop := {
  mt_stepped : stepped db0 db';
  mt_only : only_wakes db db';
  mt_loaded : exists row, task_loaded db' task' row;
  mt_id : sk_task_id task' = sk_task_id task;
  mt_open : task_terminal (sk_stored_state task) = false -> task_terminal (sk_stored_state task') = false
}.

Lemma wp_materialize_expired (db0 db : AgentDb) (task : StoredTask) (row : AgentTaskRow) (now : Z) :
  stepped db0 db -> task_loaded db task row ->
  tx_wp (materialize_expired_latest_attempt task now) (materialized db0 db task now) db.
Proof.
  intros Hs Hl. unfold materialize_expired_latest_attempt.
  destruct (sk_latest_attempt task) as [a|] eqn:Ha; [ | tx_steps; split; eauto using only_wakes_refl].
  destruct ((ta_state a !=? AttemptActive) || Z.ltb now (ta_lease_expires_at a)) eqn:Hb; [tx_steps; split; eauto using only_wakes_refl | ].
  split_andb. wp_step. tx_step.
  set (expired := fun a => a <| ta_state := AttemptExpired |> <| ta_terminal_at := Some now |>) in *.
  set (db1 := db <| task_attempts := _ |>). assert (Hs1 : stepped db0 db1) by (by apply step_attempt_expired).
  pose proof (loaded_latest db task row a (st_inv _ _ Hs) Hl Ha) as Hla.
  assert (Ha1 : expired a ∈ task_attempts db1).
  { apply rows_update_hit; [apply (lo_elem _ _ _ Hla) | ]. rewrite beq_refl. by apply beq_eq. }
  set (task1 := task <| sk_latest_attempt := Some (expired a) |>).
  assert (Hl1 : task_loaded db1 task1 row).
  { destruct Hl as [L1 L2 L3 L4 L5]. split; try done; [by rewrite L4, Ha | ]. intros b [= <-]. split; [done | ]. cbn.
    by apply L5. }
  pose proof (loaded_latest db1 task1 row (expired a) (st_inv _ _ Hs1) Hl1 eq_refl) as Hla1.
  assert (Hend : forall db2 row2 st up, stepped db0 db2 -> only_tasks db db2 ->
    task_loaded db2 (task1 <| sk_stored_state := st |> <| sk_updated_at := up |>) row2 ->
    (task_terminal (sk_stored_state task) = false -> task_terminal st = false) ->
    tx_wp (retire_pre_dispatch_endpoint_execution_for_attempt (ta_attempt_id a) now)
      (fun _ => materialized db0 db task now (task1 <| sk_stored_state := st |> <| sk_updated_at := up |>)) db2).
  { intros db2 row2 st up Hs2 Hf2 Hl2 Hst. eapply wp_mono; [by apply wp_retire_for_attempt | ].
    intros [] db3 (Hs3 & Hf3 & Et & Ea). split; try done.
    - eapply only_wakes_trans; [by apply only_tasks_wakes | done].
    - exists row2. destruct Hl2. split; try done; by rewrite ?Et, ?Ea. }
  assert (Hf1 : only_tasks db db1) by frame.
  assert (Hact : tk_state row = TaskActive).
  { pose proof (lo_fits _ _ _ Hla) as Hfit. unfold task_fits in Hfit.
    match goal with H : ta_state a = _ |- _ => rewrite H in Hfit end. by destruct (tk_state row). }
  wp_step. apply wp_when; intros Hblocked.
  - tx_step. tx_step. tx_step. tx_step. split_andb. rewrite Hblocked.
    eapply wp_mono; [eapply Hend | intros [] ? Hm; apply wp_ret; exact Hm].
    + by apply (step_task_ready db0 db1 _ now row (expired a)); [ | apply Hl1 | apply Hl1 | ..].
    + eapply only_tasks_trans; [exact Hf1 | frame].
    + destruct Hl1 as [L1 L2 L3 L4 L5]. split; [eapply rows_update_hit; [exact L1 | ] | done..].
      rewrite L2, Hact. cbn. by rewrite beq_refl.
    + done.
  - tx_step. split_andb. rewrite Hblocked.
    eapply wp_mono; [apply (Hend db1 row (sk_stored_state task)); [done | done | by destruct Hl1 | done]
                    | intros [] ? Hm; apply wp_ret; exact Hm].
Qed.

(** ** The carrier of a task's Wake *)

Lemma wp_bind_carrier (db0 db : AgentDb) (principal : CommunicationPrincipal) (wake : AgentWakeRecord) (endpoint_id : str)
  (generation now : Z) :
  stepped db0 db ->
  tx_wp (bind_agent_task_wake_carrier principal wake endpoint_id generation now)
    (fun _ db' => stepped db0 db' /\ only_wakes db db' /\ wakes db' = wakes db /\ wake_attempts db' = wake_attempts db) db.
Proof.
  intros Hs. unfold bind_agent_task_wake_carrier. tx_steps.
  eapply wp_mono; [by apply wp_replace_controller | ]. intros r db' [Hs' Hf]. tx_steps. split_and!.
  - by apply step_executions_kept.
  - eapply only_wakes_trans; [by apply only_tasks_wakes | frame].
  - by destruct Hf as (? & ? & ->).
  - by destruct Hf as (? & ? & ->).
Qed.

Lemma wp_fence_controllers (db0 db : AgentDb) (agent_id endpoint_id : str) (generation now : Z) :
  stepped db0 db ->
  tx_wp (fence_agent_task_controllers_for_endpoint_loss agent_id endpoint_id generation now)
    (fun _ db' => stepped db0 db' /\ only_tasks db db') db.
Proof.
  intros Hs. unfold fence_agent_task_controllers_for_endpoint_loss. tx_steps. apply wp_for_each; [split; [done | frame] | ].
  intros _ c d _ [Hd Hf]. tx_steps. eapply wp_mono; [by apply wp_replace_controller | ]. intros r d' [Hd' Hf']. tx_steps.
  split; [done | by eapply only_tasks_trans].
Qed.

(** ** The loss of an Endpoint *)

Lemma linked_claimed_by (w : AgentWakeRecord) (a : WakeAttemptRow) (endpoint_id : str) (generation : Z) :
  linked w a -> claimed_by endpoint_id generation w = (wa_endpoint_id a ==? endpoint_id) && Z.eqb (wa_controller_generation a) generation.
Proof.
  intros []. unfold claimed_by. rewrite lk_endpoint, lk_generation. apply eq_true_iff_eq. rewrite !andb_true_iff, !beq_eq, Z.eqb_eq.
  naive_solver.
Qed.

Lemma linked_of_endpoint (db : AgentDb) (w : AgentWakeRecord) (a : WakeAttemptRow) (agent_id endpoint_id : str) (generation : Z) :
  wakes_own (wakes db) = true -> w ∈ wakes db -> linked w a ->
  attempts_of_endpoint db agent_id endpoint_id generation a = claimed_by endpoint_id generation w && (wk_target_agent_id w ==? agent_id).
Proof.
  intros Ho Hw Hl. unfold attempts_of_endpoint. by rewrite (linked_claimed_by w a), (lk_wake _ _ Hl), wake_in_spec.
Qed.

(** The claims an Endpoint generation loses. *)
Lemma step_claims_lost (db0 db : AgentDb) (agent_id endpoint_id : str) (generation now : Z) :
  let selA := fun a => attempts_of_endpoint db agent_id endpoint_id generation a && (wa_state a ==? WaClaimed) in
  let selW := fun w => (wk_target_agent_id w ==? agent_id) && (wk_state w ==? WakeClaimed) && claimed_by endpoint_id generation w in
  stepped db0 db ->
  wake_attempts_own (rows_update selA (revoke_attempt now) (wake_attempts db)) = true ->
  wakes_own (rows_update selW (unclaim_wake WakePending now) (wakes db)) = true ->
  stepped db0 (db <| wake_attempts := rows_update selA (revoke_attempt now) (wake_attempts db) |>
                  <| wakes := rows_update selW (unclaim_wake WakePending now) (wakes db) |>).
Proof.
  intros selA selW Hs Ho1 Ho2. pose proof (sc_wakes _ (stepped_schema _ _ Hs)) as Ho. apply step_wake_pair; try done.
  - intros w Hw Hsel. unfold selW in Hsel. split_andb. split; [ | done]. apply unclaimed_moves.
    match goal with H : wk_state w = _ |- _ => by rewrite H end.
  - intros a Ha Hsel. unfold selA in Hsel. split_andb. by apply revoked_moves.
  - apply paired_release; [ | done | done]. intros w a Hw Ha Hl. destruct (linked_claims w a Hl) as [Hc _]. unfold selW, selA.
    rewrite (linked_of_endpoint db w a agent_id endpoint_id generation Ho Hw Hl), Hc.
    destruct (claimed_by _ _ _), (wk_target_agent_id w ==? _), (wk_state w ==? _); done.
Qed.

Definition sent (s : AgentWakeState) : bool := (s ==? WakePrepared) || (s ==? WakeDelivered).
Definition attempt_sent (s : AgentWakeAttemptState) : bool := (s ==? WaPrepared) || (s ==? WaDelivered).

Lemma linked_sent (w : AgentWakeRecord) (a : WakeAttemptRow) : linked w a -> sent (wk_state w) = attempt_sent (wa_state a).
Proof. intros []. by destruct (wk_state w), (wa_state a). Qed.

(** Dispatched rows whose outcome becomes unknown, when they are selected together. *)
Lemma step_unknown (db0 db : AgentDb) (selW : AgentWakeRecord -> bool) (selA : WakeAttemptRow -> bool) (now : Z) :
  stepped db0 db ->
  wake_attempts_own (rows_update selA (attempt_unknown now) (wake_attempts db)) = true ->
  wakes_own (rows_update selW (wake_unknown now) (wakes db)) = true ->
  (forall w, selW w = true -> sent (wk_state w) = true) -> (forall a, selA a = true -> attempt_sent (wa_state a) = true) ->
  (forall w a, w ∈ wakes db -> a ∈ wake_attempts db -> linked w a -> selW w = selA a) ->
  stepped db0 (db <| wake_attempts := rows_update selA (attempt_unknown now) (wake_attempts db) |>
                  <| wakes := rows_update selW (wake_unknown now) (wakes db) |>).
Proof.
  intros Hs Ho1 Ho2 HW HA Hsel. apply step_wake_pair; try done.
  - intros w Hw Hw'%HW. split; [ | done]. apply unknown_moves. by destruct (wk_state w).
  - intros a Ha Ha'%HA. apply attempt_unknown_moves. by destruct (wa_state a).
  - apply paired_moved; [done | | | ].
    + intros w a Hw Ha [] Hs'. by split.
    + intros w Hw Hw'%HW. by destruct (wk_state w).
    + intros a Ha Ha'%HA. by destruct (wa_state a).
Qed.

Lemma wp_reconcile (db0 db : AgentDb) (agent_id endpoint_id : str) (generation now : Z) (fence : bool) :
  stepped db0 db ->
  tx_wp (reconcile_wakes_for_endpoint_loss agent_id endpoint_id generation now fence)
    (fun _ db' => stepped db0 db' /\ only_wakes db db') db.
Proof.
  intros Hs. unfold reconcile_wakes_for_endpoint_loss. wp_step.
  apply (wp_mono _ (fun _ db' => stepped db0 db' /\ only_tasks db db')).
  { apply wp_when; intros _; [by apply wp_fence_controllers | split; [done | frame]]. }
  intros [] db1 [Hs1 Hf]. wp_step. tx_step. set (db2 := db1 <| endpoint_executions := _ |>).
  assert (Hs2 : stepped db0 db2) by (by apply step_executions_kept).
  wp_step. tx_step. wp_step. tx_step. set (db3 := _ <| wakes := _ |>).
  assert (Hs3 : stepped db0 db3) by (by apply (step_claims_lost db0 db2)).
  tx_steps. split.
  - pose proof (sc_wakes _ (stepped_schema _ _ Hs3)) as Ho. apply (step_unknown db0 db3); try done.
    + intros w Hsel. by split_andb.
    + intros a Hsel. by split_andb.
    + intros w a Hw Ha Hl. rewrite (linked_of_endpoint db3 w a agent_id endpoint_id generation Ho Hw Hl).
      change ((wk_target_agent_id w ==? agent_id) && sent (wk_state w) && claimed_by endpoint_id generation w =
              claimed_by endpoint_id generation w && (wk_target_agent_id w ==? agent_id) && attempt_sent (wa_state a)).
      rewrite (linked_sent w a Hl). destruct (claimed_by _ _ _), (wk_target_agent_id w ==? _), (attempt_sent _); done.
  - eapply only_wakes_trans; [by apply only_tasks_wakes | frame].
Qed.

Lemma wp_expire_stale_endpoints (db0 db : AgentDb) (now : Z) :
  stepped db0 db -> tx_wp (expire_stale_endpoints now) (fun _ db' => stepped db0 db') db.
Proof.
  intros Hs. unfold expire_stale_endpoints. tx_steps. apply wp_for_each; [done | ].
  intros _ e d _ Hd. tx_steps. eapply wp_mono; [apply wp_reconcile | by intros [] d' [Hd' _]].
  apply step_endpoints_kept; [done | done | ]. intros x Hx Hsel. split_andb.
  split; try done. match goal with H : ep_lifecycle x = _ |- _ => by rewrite H end.
Qed.

(** ** Claims whose lease ended *)

Lemma wp_release_expired (db0 db : AgentDb) (agent_id : str) (now : Z) :
  stepped db0 db -> tx_wp (release_expired_claims_for_agent agent_id now) (fun _ db' => stepped db0 db' /\ only_wakes db db') db.
Proof.
  intros Hs. unfold release_expired_claims_for_agent. wp_step. tx_step. set (db1 := db <| endpoint_executions := _ |>).
  assert (Hs1 : stepped db0 db1) by (by apply step_executions_kept).
  pose proof (sc_wakes _ (stepped_schema _ _ Hs1)) as Ho. tx_steps. split; [ | frame].
  apply (step_wake_pair db0 db1); try done.
  - intros w Hw Hsel. split_andb. split; [ | done]. apply unclaimed_moves.
    match goal with H : wk_state w = _ |- _ => by rewrite H end.
  - intros a Ha Hsel. split_andb. by apply revoked_moves.
  - apply paired_release; [ | done | done]. intros w a Hw Ha Hl. destruct (linked_claims w a Hl) as [Hc _].
    rewrite (lk_wake _ _ Hl), wake_in_spec, Hc by done. unfold claim_expired.
    destruct (wk_state w ==? WakeClaimed) eqn:Es; [ | by rewrite !andb_false_r]. apply beq_true in Es.
    rewrite (lk_lease _ _ Hl Es). cbn. destruct (wk_target_agent_id w ==? _), (Z.leb _ _); done.
Qed.

(** ** The exact claim of a caller *)

(** The Attempt a claimed Wake names selects that Wake and no other. *)
Lemma claim_selects (db : AgentDb) (w0 : AgentWakeRecord) (attempt_id : str) :
  agent_inv db -> w0 ∈ wakes db -> unclaimed (wk_state w0) = false -> wk_claimed_attempt_id w0 = Some attempt_id ->
  forall w a, w ∈ wakes db -> a ∈ wake_attempts db -> linked w a ->
    (wk_wake_id w ==? wk_wake_id w0) = (wa_attempt_id a ==? attempt_id).
Proof.
  intros Hi Hw0 Hu Hc w a Hw Ha Hl. pose proof (inv_schema _ Hi) as Hsc.
  destruct (wl_claimed _ _ (inv_link _ Hi) w0 Hw0 Hu) as (a0 & Ha0 & Hl0).
  apply eq_true_iff_eq. rewrite !beq_eq. split; intros He.
  - pose proof (wakes_by_id _ w w0 (sc_wakes _ Hsc) Hw Hw0 He) as ->. pose proof (lk_attempt _ _ Hl). congruence.
  - pose proof (lk_attempt _ _ Hl0). assert (a = a0) as -> by (apply (wake_attempts_by_id _ _ _ (sc_wake_attempts _ Hsc)); congruence).
    pose proof (lk_wake _ _ Hl). pose proof (lk_wake _ _ Hl0). congruence.
Qed.

Section Digests.
Context `{!AgentDigest}.

Lemma wp_require_exact_claim (agent_id endpoint_id : str) (generation : Z) (wake_id attempt_id claim_fence : str)
  (consume_token : option str) (post : AgentWakeRecord -> AgentDb -> Prop) (db : AgentDb) :
  (forall w, w ∈ wakes db -> wk_wake_id w = wake_id -> wk_target_agent_id w = agent_id ->
     wk_claimed_attempt_id w = Some attempt_id -> claimed_by endpoint_id generation w = true -> post w db) ->
  tx_wp (require_exact_claim agent_id endpoint_id generation wake_id attempt_id claim_fence consume_token) post db.
Proof.
  intros Hp. unfold require_exact_claim. tx_steps. found. split_andb. by apply Hp.
Qed.
End Digests.

(** ** Attention and idempotency records *)

Lemma wp_attention (db0 db : AgentDb) (env : Env) (principal : CommunicationPrincipal) (task_id attempt_id target : str)
  (state : AgentTaskState) (now : Z) :
  stepped db0 db ->
  tx_wp (create_agent_task_terminal_attention_in_transaction env principal task_id attempt_id target state now)
    (fun _ db' => stepped db0 db') db.
Proof.
  intros Hs. unfold create_agent_task_terminal_attention_in_transaction. tx_steps.
  eapply wp_mono; [apply (wp_for_each (stepped db0)); [done | ] | intros [] d Hd; by tx_steps].
  intros i goal_id d _ Hd. tx_steps. set (d1 := d <| attention_events := _ |>).
  assert (Hd1 : stepped db0 d1) by (apply step_attention; [done | apply grows_app, _ | done]).
  by apply (step_wake_insert db0 d1).
Qed.

Lemma wp_record_idempotent `{!AgentDigest} (db0 db : AgentDb) (principal : CommunicationPrincipal)
  (operation key request_hash resource_id : str) (now : Z) :
  stepped db0 db ->
  tx_wp (record_idempotent_resource principal operation key request_hash resource_id now) (fun _ db' => stepped db0 db') db.
Proof.
  intros Hs. unfold record_idempotent_resource. tx_steps. apply step_comm_idempotency; [done | apply grows_app, _ | done].
Qed.

(** ** A delivery and the Wake that covers it *)

Lemma sort_by_elem {A : Type} (le : A -> A -> bool) (l : list A) (x : A) : x ∈ sort_by le l -> x ∈ l.
Proof. intros Hx. by rewrite <- (sort_by_perm le l). Qed.

Lemma first_row_elem {A : Type} (le : A -> A -> bool) (sel : A -> bool) (t : list A) (x : A) :
  first_row le sel t = Some x -> x ∈ t /\ sel x = true.
Proof.
  unfold first_row. intros Hh. assert (Hx : x ∈ sort_by le (List.filter sel t)).
  { destruct (sort_by _ _); [done | ]. injection Hh as ->. apply list_elem_of_here. }
  apply sort_by_elem, list_elem_of_In, filter_In in Hx. by rewrite list_elem_of_In.
Qed.

(** An update that keeps the claims of Wakes. *)
Lemma wake_link_same (ws : list AgentWakeRecord) (atts : list WakeAttemptRow) (sel : AgentWakeRecord -> bool)
  (upd : AgentWakeRecord -> AgentWakeRecord) :
  (forall w, wk_wake_id (upd w) = wk_wake_id w /\ wk_state (upd w) = wk_state w /\
     wk_claimed_attempt_id (upd w) = wk_claimed_attempt_id w /\ wk_claimed_endpoint_id (upd w) = wk_claimed_endpoint_id w /\
     wk_claimed_controller_generation (upd w) = wk_claimed_controller_generation w /\
     wk_claim_lease_expires_at (upd w) = wk_claim_lease_expires_at w) ->
  wake_link ws atts -> wake_link (rows_update sel upd ws) atts.
Proof.
  intros Hu [Hc Ho].
  assert (Hl : forall w a, linked w a -> linked (if sel w then upd w else w) a).
  { intros w a []. destruct (sel w); [ | by split]. destruct (Hu w) as (E1 & E2 & E3 & E4 & E5 & E6).
    split; rewrite ?E1, ?E2, ?E3, ?E4, ?E5, ?E6; done. }
  split.
  - intros w' (w & -> & Hw)%list_elem_of_fmap Hcl. destruct (Hc w Hw) as (a & Ha & Hla); [ | by exists a; auto].
    destruct (sel w); [ | done]. destruct (Hu w) as (_ & E & _). by rewrite E in Hcl.
  - intros a Ha Hr. destruct (Ho a Ha Hr) as (w & Hw & Hla). eexists. split; [by apply rows_update_image | by apply Hl].
Qed.

Lemma inbox_watermark (ws : list AgentWakeRecord) (w : AgentWakeRecord) :
  wakes_own ws = true -> w ∈ ws -> wk_trigger_kind w = InboxChanged -> exists n, wk_inbox_high_watermark w = Some n.
Proof.
  unfold wakes_own. intros Ho Hw Ht. split_andb. rewrite forallb_forall in H0.
  specialize (H0 w (proj1 (list_elem_of_In _ _) Hw)). unfold wake_check in H0. rewrite Ht in H0. split_andb.
  destruct (wk_inbox_high_watermark w) as [n|]; [by exists n | done].
Qed.

