(* ===== verification/AgentCommSound.v ===== *)
(** * AgentCommSound: the operations of communication.rs and agent_wake.rs keep the invariant

    Every operation on identities, Endpoints, Conversations and deliveries, when it commits,
    leaves tables that moved as they may and in which the invariant holds. *)
From S2P Require Import Prelude RustStr Sql ConnectorModel CodingAgent AgentModel AgentStore AgentCore AgentComm AgentWakes AgentFacts AgentLinks AgentCoreSound.

(** ** A delivery and the Wake that covers it *)

(** The messages may be ahead of the numbers of their Conversation: [old] is what was counted. *)
Lemma step_deliver_new (db0 db : AgentDb) (old : list MessageRow) (d : DeliveryRow) (w : AgentWakeRecord) :
  stepped db0 (db <| messages := old |>) -> deliveries_own (deliveries db ++ [d]) = true -> wakes_own (wakes db ++ [w]) = true ->
  wk_state w = WakePending -> covers w d ->
  stepped db0 (db <| deliveries := deliveries db ++ [d] |> <| wakes := wakes db ++ [w] |> <| messages := old |>).
Proof.
  intros Hs Ho1 Ho2 Hp Hcov. stepped_split.
  - apply grows_app, _.
  - apply grows_app, _.
  - apply wake_link_more; [by rewrite Hp | done].
  - assert (Hic : inbox_cover (deliveries db) (wakes db ++ [w])) by (apply inbox_cover_more; [by rewrite Hp | done]).
    destruct Hic as [Hc Hk]. split; [ | done]. intros x [Hx|Hx%list_elem_of_singleton]%elem_of_app; [by apply Hc | subst x].
    exists w. split; [apply elem_of_app; right; apply list_elem_of_here | done].
  - apply carriers_more; [ | done]. destruct Hcov as (_ & Ht & _). by rewrite Ht.
Qed.

Lemma step_deliver_coalesced (db0 db : AgentDb) (old : list MessageRow) (d : DeliveryRow) (w : AgentWakeRecord) (sel : AgentWakeRecord -> bool)
  (upd : AgentWakeRecord -> AgentWakeRecord) :
  stepped db0 (db <| messages := old |>) -> deliveries_own (deliveries db ++ [d]) = true -> wakes_own (rows_update sel upd (wakes db)) = true ->
  w ∈ wakes db -> sel w = true -> covers (upd w) d ->
  (forall x, x ∈ wakes db -> sel x = true -> wake_moves x (upd x) /\ wk_state (upd x) <> WakeRetired) ->
  (forall w, wk_wake_id (upd w) = wk_wake_id w /\ wk_state (upd w) = wk_state w /\
     wk_claimed_attempt_id (upd w) = wk_claimed_attempt_id w /\ wk_claimed_endpoint_id (upd w) = wk_claimed_endpoint_id w /\
     wk_claimed_controller_generation (upd w) = wk_claimed_controller_generation w /\
     wk_claim_lease_expires_at (upd w) = wk_claim_lease_expires_at w) ->
  stepped db0 (db <| deliveries := deliveries db ++ [d] |> <| wakes := rows_update sel upd (wakes db) |> <| messages := old |>).
Proof.
  intros Hs Ho1 Ho2 Hw Hsel Hcov Hm Hsame.
  assert (Hm' : forall x, x ∈ wakes db -> sel x = true -> wake_moves x (upd x)) by (intros; by apply Hm).
  stepped_split.
  - apply grows_app, _.
  - by apply grows_update; [apply _ | ].
  - by apply wake_link_same.
  - assert (Hic : inbox_cover (deliveries db) (rows_update sel upd (wakes db))).
    { apply inbox_cover_wakes; [done | | done]. intros x Hx Hsx _. by apply Hm. }
    destruct Hic as [Hc Hk]. split; [ | done]. intros x [Hx|Hx%list_elem_of_singleton]%elem_of_app; [by apply Hc | subst x].
    exists (upd w). split; [by apply rows_update_hit | done].
  - by apply carriers_wakes.
Qed.

(** A delivery is inserted and coalesced while the message it delivers is not counted yet:
    the tables are sound with the messages there were before it. *)
Lemma wp_deliver (db0 db : AgentDb) (old : list MessageRow) (env : Env) (message_id conversation_id : str) (seq at_ : Z)
  (i : nat) (recipient : str) :
  stepped db0 (db <| messages := old |>) ->
  tx_wp (deliver env message_id conversation_id seq at_ i recipient)
    (fun _ db' => stepped db0 (db' <| messages := old |>) /\ messages db' = messages db /\ conversations db' = conversations db) db.
Proof.
  intros Hs. unfold deliver, coalesce_agent_wake_for_delivery. tx_steps; (split; [ | done]).
  - apply first_row_elem in Ho as [Hin Hsel]. split_andb.
    destruct (inbox_watermark _ a (sc_wakes _ (stepped_schema _ _ Hs)) Hin) as (n & Hn); [done | ].
    eapply (step_deliver_coalesced db0 db old _ a); try done.
    + cbn. rewrite beq_refl. done.
    + unfold covers. cbn. rewrite Hn. cbn. split_and!; [done | done | lia].
    + intros x Hx Hsx. split_andb. split; [ | by intros He; cbn in He; match goal with H : queueable _ = true |- _ => rewrite He in H end].
      assert (x = a) as -> by (by apply (wakes_by_id _ _ _ (sc_wakes _ (stepped_schema _ _ Hs)))).
      apply wake_row; try done; cbn; [rewrite Hn; cbn; lia | lia | by left].
  - eapply (step_deliver_new db0 db old); try done. unfold covers. cbn. split_and!; [done | done | lia].
Qed.

Section Communication.
Context `{!AgentDigest} `{!JsonText}.
Variable env : Env.
Implicit Types (principal : CommunicationPrincipal) (db : AgentDb).

(** ** Reads *)

Lemma reads_window_key_of (endpoint_id : str) : reads (window_key_of endpoint_id).
Proof. unfold window_key_of. reads_tac. Qed.
Lemma reads_fingerprint_of (endpoint_id : str) : reads (fingerprint_of endpoint_id).
Proof. unfold fingerprint_of. reads_tac. Qed.
Lemma reads_next_generation (generation : Z) : reads (next_generation generation).
Proof. unfold next_generation. reads_tac. Qed.
Lemma reads_load_message (message_id : str) : reads (load_message message_id).
Proof. unfold load_message. reads_tac. Qed.
#[local] Hint Resolve reads_window_key_of reads_fingerprint_of reads_next_generation reads_load_message : reads.
Lemma reads_authorize_list principal (access : ConversationAccess) : reads (authorize_list_access env principal access).
Proof. unfold authorize_list_access. reads_tac. Qed.
Lemma reads_authorize_conversation principal (access : ConversationAccess) (conversation_id : str) (at_ : Z) :
  reads (authorize_conversation_access principal access conversation_id at_).
Proof. unfold authorize_conversation_access. reads_tac. Qed.
Lemma reads_load_messages (ids : list str) (missing : str) : reads (load_messages ids missing).
Proof. induction ids; cbn; reads_tac. Qed.
Lemma reads_inbox_items (rows : list DeliveryRow) : reads (inbox_items rows).
Proof. induction rows; cbn; reads_tac. Qed.
#[local] Hint Resolve reads_authorize_list reads_authorize_conversation reads_load_messages reads_inbox_items : reads.
Lemma reads_read_conversation principal (access : ConversationAccess) (conversation_id : str) (after_seq limit at_ : Z) :
  reads (read_conversation_in_connection principal access conversation_id after_seq limit at_).
Proof. unfold read_conversation_in_connection. reads_tac. Qed.
Lemma reads_recovered_successor principal (agent_id endpoint_id : str) (generation : Z) (window replacement : str) :
  reads (recovered_successor env principal agent_id endpoint_id generation window replacement).
Proof. unfold recovered_successor. reads_tac. Qed.
Lemma reads_reply_fence (wake_reply : option (str * Z)) (access : ConversationAccess) : reads (require_reply_fence wake_reply access).
Proof. unfold require_reply_fence. reads_tac. Qed.
Lemma reads_author principal (access : ConversationAccess) (conversation_id : str) : reads (author_participant principal access conversation_id).
Proof. unfold author_participant. reads_tac. Qed.
Lemma reads_recipients (explicit : option (list str)) (conversation_id : str) (author : option str) :
  reads (message_recipients explicit conversation_id author).
Proof. unfold message_recipients. reads_tac. Qed.
#[local] Hint Resolve reads_read_conversation reads_recovered_successor reads_reply_fence reads_author reads_recipients : reads.

(** ** Identities *)

Lemma create_agent_identity_sound principal (input : NewAgentIdentity) db0 db :
  stepped db0 db -> tx_wp (create_agent_identity env principal input) (fun _ => stepped db0) db.
Proof.
  intros Hs. unfold create_agent_identity. op_steps; [done | ].
  eapply wp_mono; [apply wp_record_idempotent | intros [] d Hd; by op_steps].
  apply step_identities; [done | apply grows_app, _ | done | ]. apply controllers_more. by destruct Hs as [_ []].
Qed.

Lemma list_agent_identities_reads principal (agent_id : option str) (offset limit : Z) :
  reads (list_agent_identities env principal agent_id offset limit).
Proof. unfold list_agent_identities. reads_tac. Qed.

Lemma update_agent_identity_sound principal (agent_id : str) (expected : Z) (patch : AgentProfilePatch) db0 db :
  stepped db0 db -> tx_wp (update_agent_identity env principal agent_id expected patch) (fun _ => stepped db0) db.
Proof.
  intros Hs. unfold update_agent_identity. op_steps; [done | ]. split_andb.
  apply step_identities; [done | | done | ].
  - apply grows_update; [apply _ | ]. intros x Hx Hsel. split_andb. split; cbn; try done; lia.
  - apply controllers_identities; [ | by destruct Hs as [_ []]]. intros x Hx Hsel. split_and!; cbn; done || lia.
Qed.

(** ** Endpoints *)

Lemma controllers_raised db0 db (agent_id : str) (current generation : Z) :
  let sel := fun a => (ai_agent_id a ==? agent_id) && Z.eqb (ai_current_controller_generation a) current in
  let upd := fun a => a <| ai_current_controller_generation := generation |> in
  stepped db0 db -> (current <= generation)%Z ->
  (forall e, e ∈ endpoints db -> ep_agent_id e = agent_id -> ep_lifecycle e <> EndpointAttached) ->
  identities_own (rows_update sel upd (identities db)) = true ->
  stepped db0 (db <| identities := rows_update sel upd (identities db) |>).
Proof.
  intros sel upd Hs Hle Hnone Ho. apply step_identities; [done | | done | ].
  - apply grows_update; [apply _ | ]. intros a Ha Hsel. unfold sel in Hsel. split_andb. split; cbn; try done; lia.
  - apply controllers_identities; [ | by destruct Hs as [_ []]]. intros a Ha Hsel. unfold sel in Hsel. split_andb. split_and!; cbn; [done | lia | ].
    intros (e & He & Hid & Hat). destruct (Hnone e He); congruence.
Qed.

(** The Endpoint of the generation an identity was raised to. *)
Lemma step_attach db0 db (agent_id : str) (current : Z) (a : AgentIdentityRow) (e : AgentEndpointRow) :
  let sel := fun a => (ai_agent_id a ==? agent_id) && Z.eqb (ai_current_controller_generation a) current in
  let upd := fun a => a <| ai_current_controller_generation := (current + 1)%Z |> in
  stepped db0 db -> a ∈ identities db -> ai_agent_id a = agent_id -> ai_current_controller_generation a = current ->
  (forall e, e ∈ endpoints db -> ep_agent_id e = agent_id -> ep_lifecycle e <> EndpointAttached) ->
  ep_agent_id e = agent_id -> ep_controller_generation e = (current + 1)%Z ->
  identities_own (rows_update sel upd (identities db)) = true -> endpoints_own (endpoints db ++ [e]) = true ->
  stepped db0 (db <| identities := rows_update sel upd (identities db) |> <| endpoints := endpoints db ++ [e] |>).
Proof.
  intros sel upd Hs Ha Hid Hcur Hnone Hea Heg Ho1 Ho2.
  assert (Hs1 : stepped db0 (db <| identities := rows_update sel upd (identities db) |>)) by (apply controllers_raised; done || lia).
  pose proof (inv_controllers _ (st_inv _ _ Hs)) as [Hc _]. pose proof (sc_identities _ (stepped_schema _ _ Hs)) as Ho.
  assert (Hpos : (0 <= current)%Z).
  { unfold identities_own in Ho. split_andb. match goal with H : forallb _ _ = true |- _ => pose proof (forallb_elem _ _ a H Ha) as Hx end.
    cbn beta in Hx. split_andb. lia. }
  apply (step_endpoints _ _ Hs1); [apply grows_app, _ | done | ].
  eapply (controllers_attach _ _ (upd a)); [ | cbn; congruence | done | lia | | by destruct Hs1 as [_ []]].
  - apply rows_update_hit; [done | ]. unfold sel. rewrite Hid, Hcur, beq_refl. cbn. lia.
  - intros x Hx Hxa. destruct (Hc x Hx) as (a' & Ha' & Hid' & Hg & _).
    assert (a' = a) as -> by (apply (identities_by_id _ _ _ Ho); congruence). lia.
Qed.

Lemma attach_agent_endpoint_sound principal (input : NewAgentEndpoint) db0 db :
  stepped db0 db -> tx_wp (attach_agent_endpoint env principal input) (fun _ => stepped db0) db.
Proof.
  intros Hs. unfold attach_agent_endpoint, current_generation, next_generation. op_steps; [done | ].
  eapply wp_mono; [apply (wp_for_each (fun d => stepped db0 d /\ only_wakes db d)); [split; [done | frame] | ] | ].
  { intros _ e d _ [Hd Hf]. eapply wp_mono; [by apply wp_reconcile | ]. intros [] d' [Hd' Hf']. split; [done | by eapply only_wakes_trans]. }
  intros [] d [Hd Hf]. found. split_andb. wp_step. tx_step. set (d1 := d <| endpoints := _ |>).
  assert (Hd1 : stepped db0 d1).
  { apply step_endpoints_kept; [done | done | ]. intros e He Hsel. split_andb. split; try done.
    match goal with H : ep_lifecycle e = _ |- _ => by rewrite H end. }
  assert (Hnone : forall e, e ∈ endpoints d1 -> ep_agent_id e = ne_agent_id input -> ep_lifecycle e <> EndpointAttached).
  { intros e' (e & He & [[_ ->]|[Hne ->]])%rows_update_elem Hag; [done | ]. intros Hat. by rewrite Hag, Hat, beq_refl in Hne. }
  wp_step. tx_step. set (d2 := d1 <| endpoints := _ |>).
  assert (Hd2 : stepped db0 d2) by (apply (step_endpoints_kept db0 d1); [done | done | by split]).
  assert (Hnone2 : forall e, e ∈ endpoints d2 -> ep_agent_id e = ne_agent_id input -> ep_lifecycle e <> EndpointAttached).
  { intros e' (e & He & [[_ ->]|[Hne ->]])%rows_update_elem; exact (Hnone e He). }
  assert (Hid2 : identities d2 = identities db) by (by destruct Hf as (? & ? & ? & ? & ? & ->)).
  op_steps. eapply wp_mono; [apply wp_record_idempotent | intros [] d3 Hd3; by op_steps].
  eapply (step_attach db0 d2); try done. by rewrite Hid2.
Qed.

Lemma replace_expired_sound principal (agent_id endpoint_id : str) (generation : Z) (window request_hash : str)
  (stale : AgentEndpointRecord) (e : AgentEndpointRow) db0 db :
  stepped db0 db -> e ∈ endpoints db -> ep_endpoint_id e = endpoint_id -> ep_agent_id e = agent_id ->
  ep_controller_generation e = generation ->
  tx_wp (replace_expired_endpoint env principal agent_id endpoint_id generation window request_hash stale) (fun _ => stepped db0) db.
Proof.
  intros Hs He Hid Hag Hg. unfold replace_expired_endpoint, next_generation. wp_step.
  eapply wp_mono; [by apply wp_reconcile | ]. intros [] d [Hd Hf].
  assert (Hed : e ∈ endpoints d) by (by destruct Hf as (? & ? & ? & ? & ? & ->)).
  wp_step. tx_step. set (d1 := d <| endpoints := _ |>).
  assert (Hd1 : stepped db0 d1).
  { apply step_endpoints_kept; [done | done | ]. intros x Hx Hsel. split_andb. split; try done. by destruct (ep_lifecycle x). }
  op_steps. eapply wp_mono; [apply wp_record_idempotent | intros [] d3 Hd3; by op_steps].
  match goal with H : negb _ = false |- _ => apply rows_matched_hit in H as (a & Ha & Hsel) end. split_andb.
  eapply (step_attach db0 d1); try done; [lia | ].
  intros x' (x & Hx & [[_ ->]|[Hne ->]])%rows_update_elem Hxa; [done | ]. intros Hat.
  pose proof (inv_controllers _ (st_inv _ _ Hd)) as [Hc Hdist]. destruct (Hc x Hx) as (a' & Ha' & Hida & Hga & Hcur).
  assert (a' = a) as -> by (apply (identities_by_id _ _ _ (sc_identities _ (stepped_schema _ _ Hd))); done || congruence).
  assert (Hxid : ep_endpoint_id x = ep_endpoint_id e). { apply Hdist; try done; [congruence | ]. rewrite (Hcur Hat). lia. }
  assert (x = e) as -> by (by apply (endpoints_by_id _ _ _ (sc_endpoints _ (stepped_schema _ _ Hd)))).
  rewrite Hid, Hag, Hg, !beq_refl, Z.eqb_refl, Hat in Hne. done.
Qed.

Lemma recover_expired_mcp_app_endpoint_sound principal (agent_id endpoint_id : str) (generation : Z) (window : str) db0 db :
  stepped db0 db -> tx_wp (recover_expired_mcp_app_endpoint env principal agent_id endpoint_id generation window) (fun _ => stepped db0) db.
Proof.
  intros Hs. unfold recover_expired_mcp_app_endpoint, load_endpoint_for_principal. op_steps; [done | ].
  match goal with H : _ <$> find _ _ = Some ?r |- _ => apply fmap_Some in H as (e & He & ->) end. found. split_andb.
  assert (Hrep : forall stale, tx_wp (replace_expired_endpoint env principal agent_id endpoint_id generation window
    (digest_json (VObject [member "agent_id" (VString agent_id); member "endpoint_id" (VString endpoint_id);
                           member "expected_controller_generation" (VInt generation);
                           member "client_window_key" (VString window)])) stale) (fun _ => stepped db0) db).
  { intros stale. apply (replace_expired_sound _ _ _ _ _ _ _ e); try done. cbn in *. lia. }
  destruct (er_lifecycle _); op_steps; auto.
Qed.

Lemma detach_agent_endpoint_sound principal (endpoint_id : str) db0 db :
  stepped db0 db -> tx_wp (detach_agent_endpoint env principal endpoint_id) (fun _ => stepped db0) db.
Proof.
  intros Hs. unfold detach_agent_endpoint. op_steps; [done | ]. eapply wp_mono; [by apply wp_reconcile | ].
  intros [] d [Hd Hf]. op_steps. apply step_endpoints_kept; [done | done | ]. intros e He Hsel. split_andb. split; try done.
  by destruct (ep_lifecycle e).
Qed.

Lemma renew_agent_endpoint_sound principal (endpoint_id : str) (generation : Z) db0 db :
  stepped db0 db -> tx_wp (renew_agent_endpoint env principal endpoint_id generation) (fun _ => stepped db0) db.
Proof.
  intros Hs. unfold renew_agent_endpoint. op_steps. by apply step_endpoints_kept.
Qed.

Lemma set_agent_endpoint_binding_projection_sound principal (agent_id endpoint_id : str) (generation : Z) (wake_capable : bool)
  (fingerprint window : option str) db0 db :
  stepped db0 db ->
  tx_wp (set_agent_endpoint_binding_projection env principal agent_id endpoint_id generation wake_capable fingerprint window)
    (fun _ => stepped db0) db.
Proof.
  intros Hs. unfold set_agent_endpoint_binding_projection. repeat op_step; [done | | ].
  - eapply wp_mono; [by apply wp_reconcile | ]. intros [] d [Hd Hf]. op_steps. by apply step_endpoints_kept.
  - by apply step_endpoints_kept.
Qed.

Lemma set_agent_endpoint_mcp_app_binding_projection_sound principal (agent_id endpoint_id : str) (generation : Z) (wake_capable : bool)
  (fingerprint window : option str) db0 db :
  stepped db0 db ->
  tx_wp (set_agent_endpoint_mcp_app_binding_projection env principal agent_id endpoint_id generation wake_capable fingerprint window)
    (fun _ => stepped db0) db.
Proof.
  intros Hs. unfold set_agent_endpoint_mcp_app_binding_projection. tx_step. tx_step.
  by apply set_agent_endpoint_binding_projection_sound.
Qed.

Lemma verify_current_agent_endpoint_reads principal (agent_id endpoint_id : str) (generation : Z) :
  reads (verify_current_agent_endpoint env principal agent_id endpoint_id generation).
Proof. unfold verify_current_agent_endpoint. reads_tac. Qed.
Lemma verify_mcp_app_restart_recovery_reads principal (agent_id endpoint_id : str) (generation : Z) (fingerprint : str) :
  reads (verify_mcp_app_restart_recovery env principal agent_id endpoint_id generation fingerprint).
Proof. unfold verify_mcp_app_restart_recovery. reads_tac. Qed.
Lemma verify_mcp_app_window_continuity_reads principal (agent_id endpoint_id : str) (generation : Z) (window : str) :
  reads (verify_mcp_app_window_continuity env principal agent_id endpoint_id generation window).
Proof. unfold verify_mcp_app_window_continuity. reads_tac. Qed.
Lemma mcp_app_registration_window_allows_reads principal (agent_id endpoint_id : str) (generation : Z) (window : option str) :
  reads (mcp_app_registration_window_allows env principal agent_id endpoint_id generation window).
Proof. unfold mcp_app_registration_window_allows. reads_tac. Qed.
Lemma verify_mcp_app_recovery_continuity_reads principal (agent_id endpoint_id : str) (generation : Z) (fingerprint : str)
  (window : option str) : reads (verify_mcp_app_recovery_continuity env principal agent_id endpoint_id generation fingerprint window).
Proof. unfold verify_mcp_app_recovery_continuity. reads_tac. Qed.

(** ** Conversations *)

Lemma create_conversation_sound principal (input : NewConversation) db0 db :
  stepped db0 db -> tx_wp (create_conversation env principal input) (fun _ => stepped db0) db.
Proof.
  intros Hs. unfold create_conversation. repeat op_step; [done | ].
  set (d1 := db <| conversations := _ |>).
  assert (Hd1 : stepped db0 d1).
  { apply step_conversations; [done | apply grows_app, _ | done | ]. apply message_log_new; [done | done | by destruct Hs as [_ []]]. }
  set (d2 := d1 <| participants := _ |>).
  assert (Hd2 : stepped db0 d2) by (apply (step_participants db0 d1); [done | apply grows_app, _ | done]).
  eapply wp_mono; [apply (wp_for_each (stepped db0)); [done | ] | ].
  { intros i agent_id d _ Hd. op_steps. apply step_participants; [done | apply grows_app, _ | done]. }
  intros [] d Hd. wp_step. eapply wp_mono; [by apply wp_record_idempotent | intros [] d3 Hd3; by op_steps].
Qed.

Lemma list_conversations_reads principal (access : ConversationAccess) (offset limit : Z) :
  reads (list_conversations env principal access offset limit).
Proof. unfold list_conversations. reads_tac. Qed.
Lemma read_conversation_reads principal (access : ConversationAccess) (conversation_id : str) (after_seq limit : Z) :
  reads (read_conversation env principal access conversation_id after_seq limit).
Proof. unfold read_conversation. reads_tac. Qed.

(** ** Messages *)

(** A message and the number its Conversation goes on to. *)
Lemma step_post db0 db (old : list MessageRow) (c : ConversationRow) (m : MessageRow) (at_ : Z) :
  let sel := fun c' => cv_conversation_id c' ==? cv_conversation_id c in
  let upd := fun c => c <| cv_next_seq := (cv_next_seq c + 1)%Z |> <| cv_updated_at := at_ |> in
  stepped db0 (db <| messages := old |>) -> messages db = old ++ [m] -> messages_own (old ++ [m]) = true ->
  c ∈ conversations db -> ms_conversation_id m = cv_conversation_id c -> ms_seq m = cv_next_seq c ->
  conversations_own (rows_update sel upd (conversations db)) = true ->
  stepped db0 (db <| conversations := rows_update sel upd (conversations db) |>).
Proof.
  intros sel upd Hs Hm Ho1 Hc Hmc Hms Ho2. stepped_split.
  - apply grows_update; [apply _ | ]. intros x _ _. split; cbn; done || lia.
  - cbn. rewrite Hm. apply grows_app, _.
  - cbn. by rewrite Hm.
  - cbn. rewrite Hm. apply (message_log_post _ _ c); try done; [by destruct s | ]. intros x. unfold sel. by rewrite beq_eq.
Qed.

Lemma post_conversation_message_sound principal (input : NewConversationMessage) db0 db :
  stepped db0 db -> tx_wp (post_conversation_message env principal input) (fun _ => stepped db0) db.
Proof.
  intros Hs. unfold post_conversation_message. op_steps.
  match goal with H : replay_identity input = Ok ?x |- _ => destruct x as [[operation key] wake_reply] end. op_steps; [done | ].
  match goal with H : author_participant _ _ _ _ = Ok (?x, _) |- _ => destruct x as [author author_agent] end. op_steps. found. split_andb.
  match goal with H : cv_conversation_id ?c = _ |- _ => rewrite <- H in *; rename c into conv end.
  match goal with |- tx_wp (for_each _ _ _) _ ?d => set (d1 := d) end.
  eapply wp_mono; [apply (wp_for_each (fun d => stepped db0 (d <| messages := messages db |>) /\ messages d = messages d1 /\
                                        conversations d = conversations db)) | ].
  { split_and!; [ | done | done]. by destruct db. }
  { intros i r d _ (Hd & Hm & Hc). eapply wp_mono; [by apply wp_deliver | ]. intros [] d' (Hd' & Hm' & Hc').
    split_and!; [done | congruence | congruence]. }
  intros [] d (Hd & Hm & Hc). wp_step. tx_step. set (d2 := d <| conversations := _ |>).
  assert (Hd2 : stepped db0 d2).
  { eapply (step_post db0 d (messages db) conv); [done | exact Hm | done | by rewrite Hc | done..]. }
  wp_step. apply (wp_mono _ (fun _ => stepped db0)).
  - destruct author_agent; [ | by op_steps]. destruct (nm_endpoint_id input); [ | by op_steps]. op_steps.
    by apply (step_endpoints_kept db0 d2).
  - intros [] d3 Hd3. wp_step. eapply wp_mono; [by apply wp_record_idempotent | intros [] d4 Hd4; by op_steps].
Qed.

(** ** The Inbox *)

Lemma list_agent_inbox_reads principal (agent_id endpoint_id : str) (generation after limit : Z) :
  reads (list_agent_inbox env principal agent_id endpoint_id generation after limit).
Proof. unfold list_agent_inbox. reads_tac. Qed.

Lemma consume_each_sound (agent_id endpoint_id : str) (at_ : Z) (ids : list str) db0 db :
  stepped db0 db -> tx_wp (consume_each agent_id endpoint_id at_ ids) (fun _ => stepped db0) db.
Proof.
  revert db. induction ids as [|id_ ids IH]; intros db Hs; cbn; op_steps; [done | | ].
  - eapply wp_mono; [by apply IH | ]. intros r d Hd. by op_steps.
  - eapply wp_mono; [apply IH | intros r d Hd; by op_steps].
    assert (Hm : forall d, dl_state d = DeliveryQueued -> delivery_moves d (d <| dl_state := DeliveryConsumed |> <| dl_consumed_at := Some at_ |>
                          <| dl_consumed_by_endpoint_id := Some endpoint_id |>)) by (intros d Hd; split; try done; congruence).
    apply step_deliveries; [done | | done | ].
    + apply grows_update; [apply _ | ]. intros d Hd Hsel. split_andb. by apply Hm.
    + apply inbox_cover_deliveries; [ | by destruct Hs as [_ []]]. intros d Hd Hsel. split_andb. by apply Hm.
Qed.

Lemma consume_agent_deliveries_sound principal (agent_id endpoint_id : str) (generation : Z) (ids : list str) db0 db :
  stepped db0 db -> tx_wp (consume_agent_deliveries env principal agent_id endpoint_id generation ids) (fun _ => stepped db0) db.
Proof.
  intros Hs. unfold consume_agent_deliveries. op_steps. eapply wp_mono; [by apply consume_each_sound | ].
  intros r d Hd. op_steps. by apply step_endpoints_kept.
Qed.
End Communication.

#[export] Hint Resolve reads_window_key_of reads_fingerprint_of reads_next_generation reads_load_message reads_authorize_list
  reads_authorize_conversation reads_read_conversation : reads.

(** * The operations of agent_wake.rs keep the invariant

    Every operation of a Wake's life, when it commits, leaves tables that moved as they
    may: the Wake and the Attempt it is claimed by change together. *)

(** The claim a caller must hold gives the Wake and its Attempt. *)
Ltac claim_step :=
  first
    [ lazymatch goal with
      | |- tx_wp (require_exact_claim _ _ _ _ _ _ _) _ _ =>
          apply wp_require_exact_claim; intros w0 Hw0 Hid0 Htarget0 Hclaim0 Hby0
      end
    | op_step ].

Section Wakes.
Context `{!AgentDigest}.
Variable env : Env.
Implicit Types (principal : CommunicationPrincipal) (db : AgentDb).

Lemma recover_agent_wakes_for_server_takeover_sound (owns : bool) (at_ : Z) db0 db :
  stepped db0 db -> tx_wp (recover_agent_wakes_for_server_takeover owns at_) (fun _ => stepped db0) db.
Proof.
  intros Hs. unfold recover_agent_wakes_for_server_takeover. tx_step. tx_step. wp_step.
  eapply wp_mono; [by apply wp_expire_stale_endpoints | ]. intros [] d Hd. wp_step. tx_step. set (d1 := d <| endpoints := _ |>).
  assert (Hd1 : stepped db0 d1) by (by apply step_endpoints_kept).
  wp_step. tx_step. set (d2 := d1 <| endpoint_executions := _ |>).
  assert (Hd2 : stepped db0 d2) by (by apply (step_executions_kept db0 d1)).
  wp_step. tx_step. wp_step. tx_step. set (d3 := _ <| wakes := _ |>).
  assert (Hd3 : stepped db0 d3).
  { apply (step_wake_pair db0 d2); try done.
    - intros w Hw Hsel. split_andb. split; [ | done]. apply unclaimed_moves. by rewrite Hsel.
    - intros a Ha Hsel. split_andb. by apply revoked_moves.
    - apply paired_release; [ | done | done]. intros w a Hw Ha Hl. by destruct (linked_claims w a Hl). }
  tx_steps. apply (step_wake_pair db0 d3); try done.
  - intros w Hw Hsel. split_andb. split; [ | done]. apply unknown_moves. by rewrite Hsel.
  - intros a Ha Hsel. split_andb. apply attempt_unknown_moves. by rewrite Hsel.
  - apply paired_moved.
    + intros w a Hw Ha []. by destruct (wk_state w), (wa_state a).
    + intros w a Hw Ha [] Hsel. by split.
    + intros w Hw Hsel. split_andb. by rewrite Hsel.
    + intros a Ha Hsel. split_andb. by rewrite Hsel.
Qed.

Lemma claim_next_agent_wake_sound principal (agent_id endpoint_id : str) (generation : Z) (adapter : str) db0 db :
  stepped db0 db -> tx_wp (claim_next_agent_wake env principal agent_id endpoint_id generation adapter) (fun _ => stepped db0) db.
Proof.
  intros Hs. unfold claim_next_agent_wake. op_steps.
  eapply wp_mono; [by apply wp_release_expired | ]. intros [] d1 [Hd1 _]. wp_step.
  eapply wp_mono; [by apply wp_retire_stale | ]. intros [] d2 [Hd2 _]. tx_step. tx_step. tx_step. tx_step.
  destruct (existsb _ _) eqn:Hblock; [by tx_steps | ]. destruct (first_row _ _ _) as [w|] eqn:Hw; [ | by tx_steps].
  apply first_row_elem in Hw as [Hin Hsel]. split_andb. wp_step.
  apply (wp_mono _ (fun _ d => stepped db0 d /\ wakes d = wakes d2 /\ wake_attempts d = wake_attempts d2)).
  { apply wp_when; intros _; [ | done]. eapply wp_mono; [by apply wp_bind_carrier | ]. by intros [] d (Hd & _ & E1 & E2). }
  intros [] d3 (Hd3 & Hw3 & Ha3). op_steps; (eapply (step_wake_claim db0 d3 Hd3 _ w); try done; [by rewrite Hw3 | | ]).
  1, 3: cbn; by rewrite beq_refl, H7.
  all: intros x Hsel; split_andb; split_and!; try done; apply wake_row; try done; cbn; [apply opt_le_refl | lia | left];
    match goal with H : wk_state _ = _ |- queueable (wk_state ?y) = _ => by rewrite H end.
Qed.

Lemma release_agent_wake_claim_sound principal (agent_id endpoint_id : str) (generation : Z) (wake_id attempt_id claim_fence : str) db0 db :
  stepped db0 db ->
  tx_wp (release_agent_wake_claim env principal agent_id endpoint_id generation wake_id attempt_id claim_fence) (fun _ => stepped db0) db.
Proof.
  intros Hs. unfold release_agent_wake_claim, clear_agent_task_wake_carrier. repeat claim_step. split_andb. subst wake_id.
  match goal with H : wk_state w0 = _ |- _ => rename H into Hst end.
  match goal with |- stepped _ (set_field (proj := endpoint_executions) _ ?d) => set (d1 := d) end.
  assert (Hd1 : stepped db0 d1).
  { apply (step_wake_pair db0 db); try done.
    - intros w Hw Hsel. split_andb. split; [ | done]. apply wake_row; try done; cbn; [apply opt_le_refl | lia | left].
      match goal with H : wk_state w = _ |- _ => by rewrite H end.
    - intros a' Ha' Hsel. split_andb. apply attempt_row; try done; match goal with H : wa_state a' = _ |- _ => by rewrite H end.
    - apply paired_release; [ | done | done]. intros w a' Hw Ha' Hl. destruct (linked_claims w a' Hl) as [Hc _].
      assert (Hun : unclaimed (wk_state w0) = false) by (by rewrite Hst).
      by rewrite (claim_selects db w0 attempt_id (st_inv _ _ Hs) Hw0 Hun Hclaim0 w a' Hw Ha' Hl), Hc. }
  by apply (step_executions_kept db0 d1).
Qed.

(** The dispatched rows that a caller's claim moves on together. *)
Lemma step_claimed_pair db0 db (w0 : AgentWakeRecord) (attempt_id : str) (fromW : AgentWakeState -> bool)
  (fromA : AgentWakeAttemptState -> bool) selW updW selA updA :
  (forall w, selW w = (wk_wake_id w ==? wk_wake_id w0) && fromW (wk_state w)) ->
  (forall a, selA a = (wa_attempt_id a ==? attempt_id) && fromA (wa_state a)) ->
  stepped db0 db -> w0 ∈ wakes db -> wk_claimed_attempt_id w0 = Some attempt_id ->
  wake_attempts_own (rows_update selA updA (wake_attempts db)) = true -> wakes_own (rows_update selW updW (wakes db)) = true ->
  fromW (wk_state w0) = true -> unclaimed (wk_state w0) = false ->
  wake_moves w0 (updW w0) -> wk_state (updW w0) <> WakeRetired ->
  (forall a, linked w0 a -> fromA (wa_state a) = true /\ linked (updW w0) (updA a) /\ wake_attempt_moves a (updA a)) ->
  stepped db0 (db <| wake_attempts := rows_update selA updA (wake_attempts db) |> <| wakes := rows_update selW updW (wakes db) |>).
Proof.
  intros EW EA Hs Hw0 Hc Ho1 Ho2 Hf Hu Hm Hr Ha.
  pose proof (st_inv _ _ Hs) as Hi. pose proof (inv_schema _ Hi) as Hsc.
  assert (HW : forall w, w ∈ wakes db -> selW w = true -> w = w0).
  { intros w Hw Hsel. rewrite EW in Hsel. split_andb. by apply (wakes_by_id _ _ _ (sc_wakes _ Hsc)). }
  destruct (wl_claimed _ _ (inv_link _ Hi) w0 Hw0 Hu) as (a0 & Ha0 & Hl0).
  assert (HA : forall a, a ∈ wake_attempts db -> selA a = true -> a = a0).
  { intros a Hin Hsel. rewrite EA in Hsel. split_andb. apply (wake_attempts_by_id _ _ _ (sc_wake_attempts _ Hsc)); try done.
    pose proof (lk_attempt _ _ Hl0). congruence. }
  destruct (Ha a0 Hl0) as (Hfa & Hl' & Hma). apply step_wake_pair; try done.
  - intros w Hw Hsel. by rewrite (HW w Hw Hsel).
  - intros a Hin Hsel. by rewrite (HA a Hin Hsel).
  - apply paired_moved.
    + intros w a Hw Hin Hl. rewrite EW, EA, (claim_selects db w0 attempt_id Hi Hw0 Hu Hc w a Hw Hin Hl).
      destruct (wa_attempt_id a ==? attempt_id) eqn:E; [ | done]. apply beq_true in E.
      assert (a = a0) as ->.
      { apply (wake_attempts_by_id _ _ _ (sc_wake_attempts _ Hsc)); try done. pose proof (lk_attempt _ _ Hl0). congruence. }
      rewrite (linked_wake _ w w0 a0 (sc_wakes _ Hsc)) in Hf; try done; [ | by rewrite (lk_wake _ _ Hl0)].
      by rewrite Hf, Hfa.
    + intros w a Hw Hin Hl Hsel. pose proof (HW w Hw Hsel) as ->. assert (a = a0) as ->; [ | done].
      apply (linked_attempt (wake_attempts db) w0); try done; [apply (sc_wake_attempts _ Hsc) | apply (lk_attempt _ _ Hl)].
    + intros w Hw Hsel. by rewrite (HW w Hw Hsel).
    + intros a Hin Hsel. rewrite (HA a Hin Hsel). by destruct (linked_claimed _ _ Hl0).
Qed.

Lemma prepare_agent_wake_dispatch_sound principal (agent_id endpoint_id : str) (generation : Z)
  (wake_id attempt_id claim_fence consume_token : str) db0 db :
  stepped db0 db ->
  tx_wp (prepare_agent_wake_dispatch env principal agent_id endpoint_id generation wake_id attempt_id claim_fence consume_token)
    (fun _ => stepped db0) db.
Proof.
  intros Hs. unfold prepare_agent_wake_dispatch. repeat claim_step.
  { eapply wp_mono; [by apply wp_retire_wake | ]. intros [] d [Hd _]. by tx_steps. }
  all: split_andb; subst wake_id; match goal with H : wk_state ?x = WakeClaimed |- _ => rename H into Hst end.
  all: eapply (step_claimed_pair db0 db w0 attempt_id (fun s => s ==? WakeClaimed) (fun s => s ==? WaClaimed)); try done; try (by rewrite Hst).
  all: try (apply wake_row; try done; cbn; [apply opt_le_refl | lia | left; by rewrite Hst]).
  all: intros x []; rewrite Hst in *; destruct (wa_state x) eqn:Ex; try done; split_and!; try done; apply attempt_row; try done; by rewrite Ex.
Qed.

Lemma verify_agent_wake_dispatch_binding_reads principal (agent_id endpoint_id : str) (generation : Z)
  (wake_id attempt_id claim_fence : str) :
  reads (verify_agent_wake_dispatch_binding env principal agent_id endpoint_id generation wake_id attempt_id claim_fence).
Proof. unfold verify_agent_wake_dispatch_binding. reads_tac. Qed.

Lemma finish_agent_wake_delivery_sound principal (agent_id endpoint_id : str) (generation : Z)
  (wake_id attempt_id claim_fence : str) (delivered : bool) db0 db :
  stepped db0 db ->
  tx_wp (finish_agent_wake_delivery env principal agent_id endpoint_id generation wake_id attempt_id claim_fence delivered)
    (fun _ => stepped db0) db.
Proof.
  intros Hs. unfold finish_agent_wake_delivery. repeat claim_step; [done | ]. subst wake_id.
  match goal with H : negb _ = false |- _ => rename H into Hst end. apply negb_false_iff, orb_true_iff in Hst.
  assert (Hd : dispatched (wk_state w0) = true) by (destruct Hst as [Hst|Hst]; apply beq_true in Hst; by rewrite Hst).
  eapply (step_claimed_pair db0 db w0 attempt_id (fun _ => true) (fun _ => true)); try done.
  - intros w. by rewrite andb_true_r.
  - intros w. by rewrite andb_true_r.
  - by destruct (wk_state w0).
  - apply wake_row; try done; cbn; [apply opt_le_refl | lia | right]. split_and!; try done. by destruct delivered; left.
  - by destruct delivered.
  - intros x [L1 L2 L3 L4 L5 L6]. split_and!; [done | by destruct delivered | ].
    assert (Hr : attempt_rank (wa_state x) = 1%Z) by (by destruct (wk_state w0), (wa_state x)).
    destruct delivered; apply attempt_row; try done; cbn; lia.
Qed.

Lemma wp_promote principal (wake : AgentWakeRecord) (agent_id endpoint_id : str) (generation at_ : Z) db0 db :
  stepped db0 db ->
  tx_wp (promote_task_attempt principal wake agent_id endpoint_id generation at_) (fun _ d => stepped db0 d /\ only_tasks db d) db.
Proof.
  intros Hs. unfold promote_task_attempt. destruct (wk_trigger_kind wake), (wk_source_task_id wake) as [task_id|],
    (wk_source_task_attempt_id wake) as [attempt_id|]; try (by apply wp_ret; split; [done | frame]).
  wp_step. tx_step. set (d1 := db <| task_attempts := _ |>).
  assert (Hd1 : stepped db0 d1).
  { apply step_attempts_kept; [done | done | ]. intros a Ha Hsel Hw. split_andb. split_and!; [ | | done].
    - split; cbn; try done; try lia. match goal with H : ta_state a = _ |- _ => by rewrite H end.
    - unfold attempt_kept. by auto. }
  apply wp_when; intros Hn; [ | split; [done | frame]]. eapply wp_mono; [apply wp_touch_agent_task; [done | ] | ].
  - apply Nat.eqb_eq in Hn. assert (Hm : negb (Nat.eqb 1 1) = false) by done. rewrite <- Hn in Hm at 1.
    apply rows_matched_hit in Hm as (a & Ha & Hsel). unfold carried_execution in Hsel. split_andb.
    match goal with H : existsb _ (agent_tasks db) = true |- _ => apply existsb_exists in H as (t & Ht%list_elem_of_In & Hst) end. split_andb.
    intros t' Ht' He. assert (t' = t) as ->.
    { apply (tasks_by_id _ _ _ (sc_tasks _ (stepped_schema _ _ Hs))); [done | done | congruence]. }
    match goal with H : tk_state t = _ |- _ => by rewrite H end.
  - intros [] d [Hd Hf]. split; [done | ]. eapply only_tasks_trans; [ | exact Hf]. frame.
Qed.

Lemma consume_agent_wake_sound principal (agent_id endpoint_id : str) (generation : Z) (wake_id consume_token : str) db0 db :
  stepped db0 db ->
  tx_wp (consume_agent_wake env principal agent_id endpoint_id generation wake_id consume_token) (fun _ => stepped db0) db.
Proof.
  intros Hs. unfold consume_agent_wake. repeat claim_step; [done | ]. found. split_andb.
  match goal with H : wk_wake_id ?w = wake_id |- _ => subst wake_id; rename w into w0 end.
  eapply wp_mono; [by apply wp_promote | ]. intros [] d [Hd Hf].
  assert (Hwd : wakes d = wakes db /\ wake_attempts d = wake_attempts db) by (by destruct Hf as (? & ? & ->)). destruct Hwd as [Ew Ea].
  wp_step. tx_step. wp_step. tx_step. set (d1 := _ <| wakes := _ |>).
  assert (Hd1 : stepped db0 d1).
  { eapply (step_claimed_pair db0 d w0 _ dispatched (fun _ => true)); try done; [by intros; rewrite andb_true_r | by rewrite Ew | .. ].
    - by destruct (wk_state w0).
    - apply wake_row; try done; cbn; [apply opt_le_refl | lia | right]. split_and!; try done. by right.
    - intros x [L1 L2 L3 L4 L5 L6]. split_and!; [done | by split | ].
      assert (Hr : attempt_rank (wa_state x) = 1%Z) by (by destruct (wk_state w0), (wa_state x)).
      apply attempt_row; try done; cbn; lia. }
  tx_steps. by apply (step_endpoints_kept db0 d1).
Qed.

Lemma bootstrap_agent_conversation_reads principal (agent_id endpoint_id : str) (generation : Z) (conversation wake : option str) :
  reads (bootstrap_agent_conversation env principal agent_id endpoint_id generation conversation wake).
Proof. unfold bootstrap_agent_conversation, bootstrap_summary. reads_tac. Qed.

Lemma accept_explicit_agent_wake_activation_sound principal (agent_id endpoint_id : str) (generation : Z) (wake_id key : str) db0 db :
  stepped db0 db ->
  tx_wp (accept_explicit_agent_wake_activation env principal agent_id endpoint_id generation wake_id key) (fun _ => stepped db0) db.
Proof.
  intros Hs. unfold accept_explicit_agent_wake_activation. repeat claim_step; [done | ].
  match goal with H : opt_filter _ _ = Some ?w |- _ => apply opt_filter_some in H as [H Htarget]; rename w into w0 end. found. split_andb.
  subst wake_id. eapply wp_mono; [apply wp_record_idempotent | intros [] d Hd; by op_steps].
  eapply (step_wake_claim db0 db Hs _ w0); try done.
  - rewrite beq_refl. cbn. by apply beq_eq.
  - intros x Hsel. split_andb. split_and!; try done. apply wake_row; try done; cbn; [apply opt_le_refl | lia | left].
    match goal with H : wk_state x = _ |- _ => by rewrite H end.
Qed.
End Wakes.
