(* ===== verification/AgentTaskSound.v ===== *)
(** * AgentTaskSound: the operations of agent_task.rs and goal.rs keep the invariant *)
From S2P Require Import Prelude RustStr Sql ConnectorModel CodingAgent AgentModel AgentStore AgentCore AgentComm AgentTasks AgentGoals AgentFacts AgentLinks AgentCoreSound AgentCommSound.

(** What a loaded task and its current Attempt give. *)
Ltac task_step :=
  first
    [ lazymatch goal with
      | |- tx_wp (load_owned_task _ _) _ _ =>
          apply wp_load_owned_task; let H := fresh "Hload" in let E := fresh "Etask" in intros ? ? H E
      | |- tx_wp (require_current_attempt _ _ _ _ _ _) _ _ =>
          apply wp_require_current_attempt; let H := fresh "Hcur" in intros ? H ? ? ? ?
      end
    | op_step ].

(** ** CodingAgent Runs *)

Lemma stored_snapshot_revision (b : AgentTaskCodingRunBindingRecord) (s : CodingAgentRunSnapshot) :
  stored_coding_run_snapshot b = Ok (Some s) -> cb_last_observation_revision b = Some (observation_revision s).
Proof.
  unfold stored_coding_run_snapshot. destruct (cb_last_observation_revision b) as [r|]; intros H; [ | by step_guards H].
  step_guards H. injection H as ->. match goal with H : map_err _ _ = Ok s |- _ => rename H into Hc end.
  unfold canonical_coding_run_snapshot in Hc. cbn in Hc. unfold map_err in Hc. case_match; [ | done]. injection Hc as <-.
  match goal with H : _ = Ok _ |- _ => step_guards H; injection H as <- end. done.
Qed.

Lemma canonical_revision (o : AgentTaskCodingRunObservation) (s : CodingAgentRunSnapshot) :
  validate_coding_run_observation o = Ok s -> observation_revision s = ob_observation_revision o.
Proof.
  unfold validate_coding_run_observation, map_err, canonical_coding_run_snapshot. case_match; [ | done]. intros [= <-].
  match goal with H : _ = Ok _ |- _ => step_guards H; injection H as <- end. done.
Qed.

(** Only the CodingAgent bindings changed. *)
Definition only_runs (db db' : AgentDb) : Prop := db' = db <| coding_runs := coding_runs db' |>.

Lemma step_runs_kept (db0 db : AgentDb) sel upd :
  stepped db0 db -> coding_runs_own (rows_update sel upd (coding_runs db)) = true ->
  (forall b, b ∈ coding_runs db -> sel b = true -> binding_moves b (upd b)) ->
  stepped db0 (db <| coding_runs := rows_update sel upd (coding_runs db) |>).
Proof. intros Hs Ho Hm. apply step_coding_runs; [done | by apply grows_update; [apply _ | ] | done]. Qed.

Lemma binding_row (b b' : AgentTaskCodingRunBindingRecord) :
  cb_task_id b' = cb_task_id b -> cb_attempt_id b' = cb_attempt_id b -> cb_run_id b' = cb_run_id b ->
  cb_last_observation_revision b' = cb_last_observation_revision b -> binding_moves b b'.
Proof. intros E1 E2 E3 E4. split; try done. rewrite E4. apply opt_le_refl. Qed.

Lemma wp_merge (db0 db : AgentDb) (b : AgentTaskCodingRunBindingRecord) (o : AgentTaskCodingRunObservation) (at_ : Z) :
  stepped db0 db ->
  tx_wp (merge_agent_task_coding_run_observation b o at_) (fun _ d => stepped db0 d /\ only_runs db d) db.
Proof.
  intros Hs. unfold merge_agent_task_coding_run_observation. repeat op_step.
  match goal with H : _ = Ok a2 |- _ => rename H into Hdisp end.
  destruct a2; op_steps; try (split; [done | by destruct db]).
  split; [ | by destruct db]. apply step_runs_kept; [done | done | ]. intros x Hx Hsel. split_andb. split; try done. cbn.
  match goal with H : cb_last_observation_revision x = _ |- _ => rewrite H end.
  match goal with H : stored_coding_run_snapshot b = Ok ?x |- _ => rename H into Hst; destruct x as [s|] end.
  - rewrite (stored_snapshot_revision b s Hst). cbn. unfold map_err in Hdisp. destruct (merge_coding_agent_run_snapshot s _) eqn:Hmerge; [ | done]. injection Hdisp as ->.
    match goal with H : merge_coding_agent_run_snapshot _ _ = Ok Advance |- _ => apply merge_advance in H as (_ & _ & _ & Hv) end.
    match goal with H : validate_coding_run_observation o = Ok _ |- _ => rewrite <- (canonical_revision o _ H) end.
    unfold validate_coding_agent_run_transition in Hv. step_guards Hv. lia.
  - unfold stored_coding_run_snapshot in Hst. destruct (cb_last_observation_revision b); [by step_guards Hst | done].
Qed.

Lemma wp_set_dispatch (db0 db : AgentDb) (task_id attempt_id : str) (from : AgentTaskCodingRunDispatchState -> bool)
  (to : AgentTaskCodingRunDispatchState) (at_ : Z) :
  stepped db0 db -> tx_wp (set_dispatch_state task_id attempt_id from to at_) (fun _ => stepped db0) db.
Proof. intros Hs. unfold set_dispatch_state. op_steps. apply step_runs_kept; [done | done | ]. intros b _ _. by apply binding_row. Qed.

(** ** Verdicts *)

(** The latest Attempt of a task that is not terminal has no verdict. *)
Lemma open_latest (t : AgentTaskRow) (atts : list StoredAttempt) (a : StoredAttempt) :
  latest_of t atts a -> task_terminal (tk_state t) = false -> ta_state a = AttemptActive \/ ta_state a = AttemptExpired.
Proof. intros [_ _ _ Hf _]. unfold task_fits in Hf. destruct (tk_state t), (ta_state a); try done; auto. Qed.

Lemma wp_end_task_attempt (db0 db : AgentDb) (row : AgentTaskRow) (a : StoredAttempt) (outcome : AgentTaskState)
  (result reason : option str) (at_ : Z) :
  stepped db0 db -> row ∈ agent_tasks db -> task_terminal (tk_state row) = false -> latest_of row (task_attempts db) a ->
  task_terminal outcome = true ->
  tx_wp (end_task_attempt (tk_task_id row) (ta_attempt_id a) outcome result reason at_) (fun _ => stepped db0) db.
Proof.
  intros Hs Hr Hopen Hla Hout. unfold end_task_attempt. op_steps.
  pose proof (stepped_schema _ _ Hs) as Hsc. pose proof (sc_tasks _ Hsc) as Ho1. pose proof (sc_task_attempts _ Hsc) as Ho2.
  pose proof (open_latest _ _ _ Hla Hopen) as Hst. pose proof (inv_width _ (st_inv _ _ Hs)) as Hw.
  stepped_split.
  - apply grows_update; [apply _ | ]. intros t Ht Hsel. split_andb.
    assert (t = row) as -> by (by apply (tasks_by_id _ _ _ Ho1)). split; try done. intros Hterm. congruence.
  - apply grows_update; [apply _ | ]. intros x Hx Hsel. split_andb.
    assert (x = a) as -> by (apply (task_attempts_by_id _ _ _ Ho2); [done | apply (lo_elem _ _ _ Hla) | done]).
    split; cbn; try done; try lia; destruct Hst as [-> | ->]; destruct outcome; cbn; done || lia || (intros ?; lia).
  - eapply (task_link_end _ _ row a); try done.
    + intros x. by rewrite beq_eq.
    + intros x. by rewrite beq_eq.
    + unfold task_fits. cbn. by destruct outcome.
  - apply rows_update_Forall; [ | done]. by intros x _ _ [].
Qed.

(** The task handed out with a new Attempt. *)
Lemma step_start (db0 db : AgentDb) (row : AgentTaskRow) (a : StoredAttempt) (sel : AgentTaskRow -> bool)
  (upd : AgentTaskRow -> AgentTaskRow) :
  stepped db0 db -> row ∈ agent_tasks db -> task_terminal (tk_state row) = false ->
  task_attempts_own (task_attempts db ++ [a]) = true -> agent_tasks_own (rows_update sel upd (agent_tasks db)) = true ->
  (forall x, sel x = true <-> tk_task_id x = tk_task_id row) -> ta_task_id a = tk_task_id row -> ta_state a = AttemptActive ->
  task_moves row (upd row) -> tk_latest_attempt_id (upd row) = Some (ta_attempt_id a) -> tk_state (upd row) = TaskActive ->
  within_i64 a ->
  (forall l, latest_of row (task_attempts db) l -> ta_state l <> AttemptActive /\ (ta_attempt_number l <= ta_attempt_number a)%Z) ->
  stepped db0 (db <| task_attempts := task_attempts db ++ [a] |> <| agent_tasks := rows_update sel upd (agent_tasks db) |>).
Proof.
  intros Hs Hr Hopen Ho1 Ho2 Hsel Hta Hact Hm Hlat Hst Hw Hlast.
  assert (Hlast' : forall l, latest_of row (task_attempts db) l ->
            ta_state l = AttemptExpired /\ (ta_attempt_number l < ta_attempt_number a)%Z).
  { intros l Hl. destruct (Hlast l Hl) as [Hna Hle]. destruct (open_latest _ _ _ Hl Hopen) as [?|Hexp]; [done | ]. split; [done | ].
    enough (ta_attempt_number l <> ta_attempt_number a) by lia. intros He.
    unfold task_attempts_own in Ho1. split_andb.
    eapply (unique_fresh (fun a => Some (ta_task_id a, ta_attempt_number a)) (task_attempts db) a); [done | done | apply (lo_elem _ _ _ Hl) | ].
    cbn. rewrite (lo_task _ _ _ Hl), He. congruence. }
  stepped_split.
  - apply grows_update; [apply _ | ]. intros t Ht Hst'%Hsel.
    assert (t = row) as -> by (apply (tasks_by_id (agent_tasks db)); [by destruct s | done..]). done.
  - apply grows_app, _.
  - eapply (task_link_start _ _ row a); try done; [by destruct s | apply (tkm_id _ _ Hm)].
  - apply Forall_app. split; [done | by constructor].
Qed.

(** An execution and the Wake that carries it. *)
Lemma step_execution_new (db0 db : AgentDb) (w : AgentWakeRecord) (e : EndpointExecutionRow) :
  stepped db0 db -> wakes_own (wakes db ++ [w]) = true -> endpoint_executions_own (endpoint_executions db ++ [e]) = true ->
  wk_state w = WakePending -> carries w e ->
  stepped db0 (db <| wakes := wakes db ++ [w] |> <| endpoint_executions := endpoint_executions db ++ [e] |>).
Proof.
  intros Hs Ho1 Ho2 Hp Hc. stepped_split.
  - apply grows_app, _.
  - apply grows_app, _.
  - apply wake_link_more; [by rewrite Hp | done].
  - apply inbox_cover_more; [by rewrite Hp | done].
  - assert (Hw : w ∈ wakes db ++ [w]) by (apply elem_of_app; right; apply list_elem_of_here).
    assert (He : e ∈ endpoint_executions db ++ [e]) by (apply elem_of_app; right; apply list_elem_of_here).
    match goal with H : carriers _ _ |- _ => destruct H as [C1 C2] end. split.
    + intros x [Hx|Hx%list_elem_of_singleton]%elem_of_app; [ | by subst; exists w]. destruct (C1 x Hx) as (y & Hy & ?).
      exists y. split; [by apply elem_of_app; left | done].
    + intros x [Hx|Hx%list_elem_of_singleton]%elem_of_app Ht; [ | by subst; exists e]. destruct (C2 x Hx Ht) as (y & Hy & ?).
      exists y. split; [by apply elem_of_app; left | done].
Qed.

(** The Attempt a load found is the latest one. *)
Lemma loaded_is_latest (db : AgentDb) (task : StoredTask) (row : AgentTaskRow) (l : StoredAttempt) :
  agent_inv db -> task_loaded db task row -> latest_of row (task_attempts db) l -> sk_latest_attempt task = Some l.
Proof.
  intros Hi Hl Hlat. destruct (sk_latest_attempt task) as [x|] eqn:Ex.
  - pose proof (loaded_latest db task row x Hi Hl Ex) as Hx. f_equal.
    apply (latest_unique _ row _ _ (sc_task_attempts _ (inv_schema _ Hi)) Hlat); [apply (lo_elem _ _ _ Hx) | apply (lo_id _ _ _ Hx)].
  - pose proof (tl_latest_id _ _ _ Hl) as Hn. rewrite Ex, (lo_id _ _ _ Hlat) in Hn. done.
Qed.

(** The current Attempt is the latest one. *)
Lemma current_latest (db : AgentDb) (task : StoredTask) (row : AgentTaskRow) (a : StoredAttempt) (now : Z) :
  agent_inv db -> task_loaded db task row -> attempt_current db task a now -> latest_of row (task_attempts db) a.
Proof.
  intros Hi Hl Hc. destruct (sk_latest_attempt task) as [x|] eqn:Ex; [ | destruct Hc; by rewrite Ex in *].
  assert (a = x) as -> by (destruct Hc as [C1 _ C3]; rewrite Ex in C3; cbn in C3; apply (task_attempts_by_id _ _ _ (sc_task_attempts _ (inv_schema _ Hi)));
    [done | by apply (tl_attempt _ _ _ Hl) | congruence]).
  by apply (loaded_latest db task).
Qed.

Section Tasks.
Context `{!AgentDigest} `{!JsonText}.
Variable env : Env.
Implicit Types (principal : CommunicationPrincipal) (db : AgentDb).

Lemma reads_require_owned_agent principal (agent_id : str) : reads (require_owned_agent principal agent_id).
Proof. unfold require_owned_agent. reads_tac. Qed.
Lemma reads_source_references principal (conversation_id message_id : option str) :
  reads (validate_source_references env principal conversation_id message_id).
Proof. unfold validate_source_references. reads_tac. Qed.
Lemma reads_load_summaries principal (ids : list str) : reads (load_summaries env principal ids).
Proof. induction ids; cbn; reads_tac. Qed.
Lemma reads_require_project (task : StoredTask) : reads (require_project task).
Proof. unfold require_project. reads_tac. Qed.
#[local] Hint Resolve reads_require_owned_agent reads_source_references reads_load_summaries reads_require_project : reads.

Lemma create_agent_task_sound principal (input : NewAgentTask) db0 db :
  stepped db0 db -> tx_wp (create_agent_task env principal input) (fun _ => stepped db0) db.
Proof.
  intros Hs. unfold create_agent_task. op_steps; try done.
  all: eapply wp_mono; [apply wp_record_idempotent | intros [] d Hd; by op_steps].
  all: apply step_tasks; [done | apply grows_app, _ | done | ]; apply task_link_new; [done.. | by destruct Hs as [_ []]].
Qed.

Lemma list_agent_tasks_reads principal (assignee : option str) (offset limit : Z) :
  reads (list_agent_tasks env principal assignee offset limit).
Proof. unfold list_agent_tasks. reads_tac. Qed.
Lemma read_agent_task_reads principal (task_id : str) : reads (read_agent_task env principal task_id).
Proof. unfold read_agent_task. reads_tac. Qed.

Lemma assign_agent_task_sound principal (task_id assignee : str) db0 db :
  stepped db0 db -> tx_wp (assign_agent_task env principal task_id assignee) (fun _ => stepped db0) db.
Proof.
  intros Hs. unfold assign_agent_task. repeat task_step.
  eapply wp_mono; [by eapply wp_materialize_expired | ]. intros task' d [Hd _ (row' & Hl') Hid Hopen]. wp_step.
  apply reads_wp; [reads_tac | intros [] _]. repeat task_step; [done | ]. subst task_id.
  apply step_tasks_kept; [done | done | ]. intros t Ht Hsel. split_andb.
  assert (t = row') as ->.
  { apply (tasks_by_id _ _ _ (sc_tasks _ (stepped_schema _ _ Hd))); [done | apply Hl' | ]. rewrite (tl_id _ _ _ Hl'). congruence. }
  assert (Hop : task_terminal (tk_state row') = false) by (rewrite (tl_state _ _ _ Hl'); auto).
  split; [split; try done; congruence | ]. split_and!; [done | done | right]. split; [done | ]. intros l Hl.
  destruct (open_latest _ _ _ Hl Hop) as [Hact|]; [exfalso | done].
  pose proof (loaded_is_latest d task' row' l (st_inv _ _ Hd) Hl' Hl) as Ex.
  match goal with H : attempt_is_active task' = false |- _ => unfold attempt_is_active in H; rewrite Ex in H; cbn in H; by rewrite Hact in H end.
Qed.

Lemma start_agent_task_attempt_sound principal (task_id assignee key : str) db0 db :
  stepped db0 db -> tx_wp (start_agent_task_attempt env principal task_id assignee key) (fun _ => stepped db0) db.
Proof.
  intros Hs. unfold start_agent_task_attempt. repeat task_step; [done | ].
  eapply wp_mono; [by eapply wp_materialize_expired | ]. intros task' d [Hd _ (row' & Hl') Hid Hopen]. wp_step.
  apply reads_wp; [reads_tac | intros [] _]. repeat task_step. subst task_id.
  assert (Hop : task_terminal (tk_state row') = false) by (rewrite (tl_state _ _ _ Hl'); auto).
  eapply wp_mono; [apply wp_record_idempotent | intros [] d1 Hd1; by op_steps].
  assert (Hrow : tk_task_id row' = sk_task_id task) by (rewrite (tl_id _ _ _ Hl'); done).
  eapply (step_start db0 d row'); try done.
  - apply Hl'.
  - intros x. rewrite beq_eq. by rewrite Hrow.
  - split; try done. congruence.
  - pose proof (inv_width _ (st_inv _ _ Hd)) as Hw. rewrite Forall_forall in Hw. split; cbn; [ | by vm_compute].
    destruct (sk_latest_attempt task') as [x|] eqn:Ex; cbn; [ | by vm_compute].
    apply sat_add_next. destruct (tl_attempt _ _ _ Hl' x Ex) as [Hin _]. destruct (Hw x Hin).
    destruct (attempt_generation_pos _ x (sc_task_attempts _ (stepped_schema _ _ Hd)) Hin). lia.
  - intros l Hl. pose proof (loaded_is_latest d task' row' l (st_inv _ _ Hd) Hl' Hl) as Ex. rewrite Ex. cbn. split.
    + intros Hact. match goal with H : attempt_is_active task' = false |- _ => unfold attempt_is_active in H; rewrite Ex in H; cbn in H; by rewrite Hact in H end.
    + pose proof (inv_width _ (st_inv _ _ Hd)) as Hw. rewrite Forall_forall in Hw. destruct (Hw l (lo_elem _ _ _ Hl)).
      destruct (attempt_generation_pos _ l (sc_task_attempts _ (stepped_schema _ _ Hd)) (lo_elem _ _ _ Hl)).
      apply sat_add_next. lia.
Qed.

Lemma start_agent_task_endpoint_continuation_sound principal (task_id attempt_id assignee attempt_fence : str) (generation : Z) db0 db :
  stepped db0 db ->
  tx_wp (start_agent_task_endpoint_continuation env principal task_id attempt_id assignee attempt_fence generation) (fun _ => stepped db0) db.
Proof.
  intros Hs. unfold start_agent_task_endpoint_continuation. repeat task_step; [done | ].
  by apply (step_execution_new db0 db).
Qed.

Lemma heartbeat_agent_task_attempt_sound principal (task_id attempt_id assignee attempt_fence : str) (generation : Z) db0 db :
  stepped db0 db ->
  tx_wp (heartbeat_agent_task_attempt env principal task_id attempt_id assignee attempt_fence generation) (fun _ => stepped db0) db.
Proof.
  intros Hs. unfold heartbeat_agent_task_attempt. repeat task_step. subst. eapply wp_mono; [apply wp_touch_agent_task | ].
  - apply step_attempts_kept; [done | done | ]. intros x Hx Hsel Hw. split_andb. destruct Hcur as [C1 C2 C3 C4 C5 C6].
    pose proof (task_attempts_by_id _ x _ (sc_task_attempts _ (stepped_schema _ _ Hs)) Hx C1 Hsel) as ->. split_and!; [ | | done].
    + split; cbn; try done; try lia. by rewrite C5.
    + unfold attempt_kept. by auto.
  - eapply (loaded_open db); [by destruct Hs | done | by destruct Hcur].
  - intros [] d [Hd _]. by op_steps.
Qed.

Lemma replace_agent_task_attempt_controller_sound principal (task_id attempt_id assignee attempt_fence : str) (generation : Z) db0 db :
  stepped db0 db ->
  tx_wp (replace_agent_task_attempt_controller env principal task_id attempt_id assignee attempt_fence generation) (fun _ => stepped db0) db.
Proof.
  intros Hs. unfold replace_agent_task_attempt_controller. tx_step. tx_step. eapply wp_mono; [by apply wp_replace_controller | ].
  by intros r d [Hd _].
Qed.

Lemma complete_agent_task_attempt_sound principal (task_id attempt_id assignee attempt_fence : str) (generation : Z)
  (outcome : AgentTaskState) (result reason : option str) (key : str) db0 db :
  stepped db0 db ->
  tx_wp (complete_agent_task_attempt env principal task_id attempt_id assignee attempt_fence generation outcome result reason key)
    (fun _ => stepped db0) db.
Proof.
  intros Hs. unfold complete_agent_task_attempt. repeat task_step; [done | ]. subst. split_andb.
  pose proof (current_latest db _ _ _ _ (st_inv _ _ Hs) Hload Hcur) as Hla.
  rewrite <- (tl_id _ _ _ Hload). eapply wp_mono; [apply (wp_end_task_attempt db0 db row) | ]; try done.
  { apply Hload. }
  { rewrite (tl_state _ _ _ Hload). by destruct Hcur. }
  intros [] d Hd. wp_step. eapply wp_mono; [by apply wp_retire_for_attempt | ]. intros [] d1 (Hd1 & _). wp_step.
  eapply wp_mono; [by apply wp_attention | ]. cbn beta. intros n d2 Hd2. wp_step.
  eapply wp_mono; [by apply wp_record_idempotent | intros [] d3 Hd3; by op_steps].
Qed.

(** ** CodingAgent Runs *)

Lemma agent_task_coding_run_start_context_reads principal (project task_id attempt_id assignee attempt_fence : str) (generation : Z) :
  reads (agent_task_coding_run_start_context env principal project task_id attempt_id assignee attempt_fence generation).
Proof. unfold agent_task_coding_run_start_context. reads_tac. Qed.

Lemma prepare_agent_task_coding_run_sound principal (project task_id attempt_id assignee attempt_fence : str) (generation : Z)
  (intent : AgentTaskCodingRunBindingIntent) db0 db :
  stepped db0 db ->
  tx_wp (prepare_agent_task_coding_run env principal project task_id attempt_id assignee attempt_fence generation intent)
    (fun _ => stepped db0) db.
Proof.
  intros Hs. unfold prepare_agent_task_coding_run. op_steps; [done | | ].
  - apply step_runs_kept; [done | done | ]. intros b _ _. by apply binding_row.
  - apply step_coding_runs; [done | apply grows_app, _ | done].
Qed.

Lemma read_agent_task_coding_run_binding_reads principal (task_id attempt_id : str) :
  reads (read_agent_task_coding_run_binding principal task_id attempt_id).
Proof. unfold read_agent_task_coding_run_binding. reads_tac. Qed.

Lemma claim_agent_task_coding_run_dispatch_sound principal (task_id attempt_id assignee attempt_fence : str) (generation : Z)
  (fingerprint : str) db0 db :
  stepped db0 db ->
  tx_wp (claim_agent_task_coding_run_dispatch env principal task_id attempt_id assignee attempt_fence generation fingerprint)
    (fun _ => stepped db0) db.
Proof.
  intros Hs. unfold claim_agent_task_coding_run_dispatch. op_steps; [ | done].
  eapply wp_mono; [by apply wp_set_dispatch | intros [] d Hd; by op_steps].
Qed.

Lemma record_agent_task_coding_run_not_started_sound principal (task_id attempt_id run_id : str) db0 db :
  stepped db0 db ->
  tx_wp (record_agent_task_coding_run_not_started env principal task_id attempt_id run_id) (fun _ => stepped db0) db.
Proof.
  intros Hs. unfold record_agent_task_coding_run_not_started. op_steps; [ | done].
  eapply wp_mono; [by apply wp_set_dispatch | intros [] d Hd; by op_steps].
Qed.

Lemma record_agent_task_coding_run_observation_sound principal (task_id attempt_id : str) (o : AgentTaskCodingRunObservation) db0 db :
  stepped db0 db ->
  tx_wp (record_agent_task_coding_run_observation env principal task_id attempt_id o) (fun _ => stepped db0) db.
Proof.
  intros Hs. unfold record_agent_task_coding_run_observation. op_steps.
  eapply wp_mono; [by apply wp_merge | ]. intros r d [Hd _]. by op_steps.
Qed.

Lemma mark_agent_task_coding_run_reconcile_unavailable_sound principal (task_id attempt_id : str) db0 db :
  stepped db0 db ->
  tx_wp (mark_agent_task_coding_run_reconcile_unavailable env principal task_id attempt_id) (fun _ => stepped db0) db.
Proof.
  intros Hs. unfold mark_agent_task_coding_run_reconcile_unavailable. op_steps; [ | done].
  eapply wp_mono; [by apply wp_set_dispatch | intros [] d Hd; by op_steps].
Qed.

Lemma terminalize_agent_task_coding_run_sound principal (task_id attempt_id : str) (o : AgentTaskCodingRunObservation)
  (result reason : option str) db0 db :
  stepped db0 db ->
  tx_wp (terminalize_agent_task_coding_run env principal task_id attempt_id o result reason) (fun _ => stepped db0) db.
Proof.
  intros Hs. unfold terminalize_agent_task_coding_run. repeat task_step. subst. split_andb.
  eapply wp_mono; [by apply wp_merge | ]. intros [binding disposition] d [Hd Hf]. wp_step. wp_step. wp_step.
  assert (Hload' : task_loaded d task row) by (rewrite Hf; by destruct Hload).
  eapply (wp_mono _ (fun outcome d' => d' = d /\ task_terminal outcome = true)).
  { destruct (cb_last_observed_run_state binding) as [[]|]; op_steps; done. }
  intros outcome d' [-> Hout]. tx_steps; op_steps; [done | ]. found. split_andb.
  match goal with H : _ <$> _ = Some attempt_id |- _ => apply fmap_Some in H as (x & Ex & ->) end.
  pose proof (loaded_latest d task row x (st_inv _ _ Hd) Hload' Ex) as Hla.
  rewrite <- (tl_id _ _ _ Hload'). eapply wp_mono; [apply (wp_end_task_attempt db0 d row) | ]; try done.
  { apply Hload'. }
  { by rewrite (tl_state _ _ _ Hload'). }
  intros [] d1 Hd1. tx_steps. match goal with |- tx_wp _ _ ?d => set (d2 := d) end.
  assert (Hd2 : stepped db0 d2) by (apply step_runs_kept; [done | done | ]; intros b _ _; by apply binding_row).
  eapply wp_mono; [by apply wp_attention | ]. cbn beta. intros n d3 Hd3. by op_steps.
Qed.
End Tasks.

(** ** Goals *)

Section Goals.
Context `{!AgentDigest} `{!JsonText}.
Variable env : Env.
Implicit Types (principal : CommunicationPrincipal) (db : AgentDb).

Lemma reads_load_goal_summary principal (goal_id : str) : reads (load_owned_goal_summary principal goal_id).
Proof. unfold load_owned_goal_summary. reads_tac. Qed.
Lemma reads_load_goal principal (goal_id : str) : reads (load_owned_goal principal goal_id).
Proof. unfold load_owned_goal. reads_tac. Qed.
Lemma reads_lookup_goal principal (operation key request_hash : str) : reads (lookup_idempotent_goal principal operation key request_hash).
Proof. unfold lookup_idempotent_goal. reads_tac. Qed.
#[local] Hint Resolve reads_load_goal_summary reads_load_goal reads_lookup_goal : reads.
Lemma reads_load_goal_summaries principal (ids : list str) : reads (load_goal_summaries principal ids).
Proof. induction ids; cbn; reads_tac. Qed.
Lemma reads_replayed_goal principal (goal_id replayed message : str) : reads (replayed_goal principal goal_id replayed message).
Proof. unfold replayed_goal. reads_tac. Qed.
#[local] Hint Resolve reads_load_goal_summaries reads_replayed_goal : reads.
Lemma read_goal_reads principal (goal_id : str) : reads (read_goal principal goal_id).
Proof. unfold read_goal. reads_tac. Qed.
Lemma list_goals_reads principal (lifecycle : option GoalLifecycle) (offset limit : Z) : reads (list_goals principal lifecycle offset limit).
Proof. unfold list_goals. reads_tac. Qed.

Lemma wp_record_goal principal (operation key request_hash goal_id : str) (at_ : Z) db0 db :
  stepped db0 db -> tx_wp (record_idempotent_goal principal operation key request_hash goal_id at_) (fun _ => stepped db0) db.
Proof. intros Hs. unfold record_idempotent_goal. op_steps. apply step_goal_idempotency; [done | apply grows_app, _ | done]. Qed.

Lemma create_goal_sound principal (input : NewGoal) db0 db :
  stepped db0 db -> tx_wp (create_goal env principal input) (fun _ => stepped db0) db.
Proof.
  intros Hs. unfold create_goal. op_steps; [done | ]. eapply wp_mono; [apply wp_record_goal | intros [] d Hd; by op_steps].
  apply step_goals; [done | apply grows_app, _ | done].
Qed.

(** What a loaded Goal says of its row. *)
Lemma wp_load_owned_goal principal (goal_id : str) (post : GoalDetail -> AgentDb -> Prop) db :
  (forall detail row, row ∈ goals db -> go_goal_id row = goal_id -> gs_lifecycle (gd_summary detail) = go_lifecycle row ->
     gs_revision (gd_summary detail) = go_revision row -> post detail db) ->
  tx_wp (load_owned_goal principal goal_id) post db.
Proof.
  intros Hp. unfold load_owned_goal. op_steps. found. unfold owned_goal in *. split_andb. by eapply Hp.
Qed.

Ltac goal_step :=
  first
    [ lazymatch goal with
      | |- tx_wp (load_owned_goal _ _) _ _ => apply wp_load_owned_goal; intros ? ? ? ? ? ?
      end
    | op_step ].

Lemma step_goal db0 db (goal_id : str) (row : GoalRow) upd :
  stepped db0 db -> row ∈ goals db -> go_goal_id row = goal_id -> goal_terminal (go_lifecycle row) = false ->
  goals_own (rows_update (fun g => go_goal_id g ==? goal_id) upd (goals db)) = true ->
  (forall g, go_goal_id (upd g) = go_goal_id g /\ go_owner_principal_kind (upd g) = go_owner_principal_kind g /\
     go_owner_principal_digest (upd g) = go_owner_principal_digest g /\ go_revision (upd g) = (go_revision g + 1)%Z) ->
  stepped db0 (db <| goals := rows_update (fun g => go_goal_id g ==? goal_id) upd (goals db) |>).
Proof.
  intros Hs Hr Hid Hopen Ho Hu. apply step_goals; [done | | done]. apply grows_update; [apply _ | ]. intros g Hg Hsel. split_andb.
  assert (g = row) as -> by (apply (goals_by_id _ _ _ (sc_goals _ (stepped_schema _ _ Hs))); congruence).
  destruct (Hu row) as (E1 & E2 & E3 & E4). split; try done; [right; lia | congruence].
Qed.

Lemma update_goal_sound principal (goal_id : str) (expected : Z) (patch : GoalPatch) (key : str) db0 db :
  stepped db0 db -> tx_wp (update_goal env principal goal_id expected patch key) (fun _ => stepped db0) db.
Proof.
  intros Hs. unfold update_goal. repeat goal_step; try done.
  - eapply wp_mono; [apply wp_record_goal | intros [] d Hd; by op_steps].
    match goal with H : go_goal_id _ = goal_id |- _ => rename H into Hid end.
    eapply (step_goal db0 db goal_id); try done. congruence.
  - eapply wp_mono; [by apply wp_record_goal | intros [] d Hd; by op_steps].
Qed.

Lemma associate_goal_reference_sound principal (goal_id : str) (kind : GoalCorrelationKind) (reference_id key : str) db0 db :
  stepped db0 db -> tx_wp (associate_goal_reference env principal goal_id kind reference_id key) (fun _ => stepped db0) db.
Proof.
  intros Hs. unfold associate_goal_reference. repeat goal_step; try done.
  all: eapply wp_mono; [apply wp_record_goal | intros [] d Hd; by op_steps]; try done.
  all: match goal with |- stepped _ (set_field (proj := goals) _ ?d) => set (d1 := d) end.
  all: assert (Hd1 : stepped db0 d1) by (apply step_correlations; [done | apply grows_app, _ | done]).
  all: eapply (step_goal db0 d1 goal_id); try done; congruence.
Qed.

Lemma associate_goal_agent_task_sound principal (goal_id task_id key : str) db0 db :
  stepped db0 db -> tx_wp (associate_goal_agent_task env principal goal_id task_id key) (fun _ => stepped db0) db.
Proof. intros Hs. unfold associate_goal_agent_task. tx_step. tx_step. by apply associate_goal_reference_sound. Qed.
Lemma associate_goal_workflow_session_sound principal (goal_id session_id key : str) db0 db :
  stepped db0 db -> tx_wp (associate_goal_workflow_session env principal goal_id session_id key) (fun _ => stepped db0) db.
Proof. intros Hs. unfold associate_goal_workflow_session. tx_step. tx_step. by apply associate_goal_reference_sound. Qed.
End Goals.
