(* ===== verification/AgentLaws.v ===== *)
(** * AgentLaws: the histories of Agent collaboration and their laws

    [AgentOp] lists the operations of the store that communication.rs, agent_wake.rs,
    agent_task.rs and goal.rs offer.  A history performs them one after the other, each
    with its own readings of the clock and ids; a call that returns an error, or panics,
    leaves the tables as they were.  Every history moves the tables as they may and keeps
    the invariant. *)
From S2P Require Import Prelude RustStr Sql ConnectorModel CodingAgent AgentModel AgentStore AgentCore AgentComm AgentWakes AgentTasks AgentGoals AgentFacts AgentLinks AgentCoreSound AgentCommSound AgentTaskSound.

(** The credentials of an Attempt's controller. *)
Record Controller : Type := mkController {
  ctl_principal : CommunicationPrincipal;
  ctl_task_id : str;
  ctl_attempt_id : str;
  ctl_assignee_agent_id : str;
  ctl_attempt_fence : str;
  ctl_generation : Z
}.

(** The credentials of an Endpoint. *)
Record Session : Type := mkSession {
  ses_principal : CommunicationPrincipal;
  ses_agent_id : str;
  ses_endpoint_id : str;
  ses_generation : Z
}.

Inductive AgentOp : Type :=
(* communication.rs *)
| CreateAgentIdentity (p : CommunicationPrincipal) (input : NewAgentIdentity)
| ListAgentIdentities (p : CommunicationPrincipal) (agent_id : option str) (offset limit : Z)
| UpdateAgentIdentity (p : CommunicationPrincipal) (agent_id : str) (expected : Z) (patch : AgentProfilePatch)
| AttachAgentEndpoint (p : CommunicationPrincipal) (input : NewAgentEndpoint)
| RecoverExpiredMcpAppEndpoint (s : Session) (client_window_key : str)
| DetachAgentEndpoint (p : CommunicationPrincipal) (endpoint_id : str)
| RenewAgentEndpoint (p : CommunicationPrincipal) (endpoint_id : str) (expected : Z)
| VerifyCurrentAgentEndpoint (s : Session)
| SetWakeCapability (s : Session) (wake_capable : bool)
| SetMcpAppProjection (s : Session) (wake_capable : bool) (fingerprint client_window_key : option str)
| VerifyMcpAppRestartRecovery (s : Session) (fingerprint : str)
| VerifyMcpAppWindowContinuity (s : Session) (client_window_key : str)
| McpAppRegistrationWindowAllows (s : Session) (client_window_key : option str)
| VerifyMcpAppRecoveryContinuity (s : Session) (fingerprint : str) (client_window_key : option str)
| CreateConversation (p : CommunicationPrincipal) (input : NewConversation)
| ListConversations (p : CommunicationPrincipal) (access : ConversationAccess) (offset limit : Z)
| ReadConversation (p : CommunicationPrincipal) (access : ConversationAccess) (conversation_id : str) (after_seq limit : Z)
| PostConversationMessage (p : CommunicationPrincipal) (input : NewConversationMessage)
| ListAgentInbox (s : Session) (after limit : Z)
| ConsumeAgentDeliveries (s : Session) (delivery_ids : list str)
(* agent_wake.rs *)
| ServerTakeover (owns_database : bool) (at_ : Z)
| ClaimNextAgentWake (s : Session) (adapter_kind : str)
| ReleaseAgentWakeClaim (s : Session) (wake_id attempt_id claim_fence : str)
| PrepareAgentWakeDispatch (s : Session) (wake_id attempt_id claim_fence consume_token : str)
| VerifyAgentWakeDispatchBinding (s : Session) (wake_id attempt_id claim_fence : str)
| CompleteAgentWakeDelivery (s : Session) (wake_id attempt_id claim_fence : str)
| MarkAgentWakeDeliveryUnknown (s : Session) (wake_id attempt_id claim_fence : str)
| ConsumeAgentWake (s : Session) (wake_id consume_token : str)
| BootstrapAgentConversation (s : Session) (conversation_id wake_id : option str)
| AcceptExplicitActivation (s : Session) (wake_id idempotency_key : str)
(* agent_task.rs *)
| CreateAgentTask (p : CommunicationPrincipal) (input : NewAgentTask)
| ListAgentTasks (p : CommunicationPrincipal) (assignee : option str) (offset limit : Z)
| ReadAgentTask (p : CommunicationPrincipal) (task_id : str)
| AssignAgentTask (p : CommunicationPrincipal) (task_id assignee : str)
| StartAgentTaskAttempt (p : CommunicationPrincipal) (task_id assignee idempotency_key : str)
| StartEndpointContinuation (c : Controller)
| HeartbeatAgentTaskAttempt (c : Controller)
| ReplaceAttemptController (c : Controller)
| CompleteAgentTaskAttempt (c : Controller) (outcome : AgentTaskState) (result reason : option str) (completion_key : str)
| CodingRunStartContext (c : Controller) (project : str)
| PrepareCodingRun (c : Controller) (project : str) (intent : AgentTaskCodingRunBindingIntent)
| ReadCodingRunBinding (p : CommunicationPrincipal) (task_id attempt_id : str)
| ClaimCodingRunDispatch (c : Controller) (fingerprint : str)
| RecordCodingRunNotStarted (p : CommunicationPrincipal) (task_id attempt_id run_id : str)
| RecordCodingRunObservation (p : CommunicationPrincipal) (task_id attempt_id : str) (o : AgentTaskCodingRunObservation)
| MarkCodingRunUnavailable (p : CommunicationPrincipal) (task_id attempt_id : str)
| TerminalizeCodingRun (p : CommunicationPrincipal) (task_id attempt_id : str) (o : AgentTaskCodingRunObservation)
    (result reason : option str)
(* goal.rs *)
| CreateGoal (p : CommunicationPrincipal) (input : NewGoal)
| ReadGoal (p : CommunicationPrincipal) (goal_id : str)
| ListGoals (p : CommunicationPrincipal) (lifecycle : option GoalLifecycle) (offset limit : Z)
| UpdateGoal (p : CommunicationPrincipal) (goal_id : str) (expected : Z) (patch : GoalPatch) (idempotency_key : str)
| AssociateGoalAgentTask (p : CommunicationPrincipal) (goal_id task_id idempotency_key : str)
| AssociateGoalWorkflowSession (p : CommunicationPrincipal) (goal_id session_id idempotency_key : str).

(** The tables after a transaction: what it committed, or what there was. *)
Definition after {E A : Type} (m : tx AgentDb E A) (db : AgentDb) : AgentDb := fst (run_tx m db).

Section History.
Context `{!AgentDigest} `{!JsonText}.

Definition with_session {A : Type} (s : Session) (f : CommunicationPrincipal -> str -> str -> Z -> A) : A :=
  f (ses_principal s) (ses_agent_id s) (ses_endpoint_id s) (ses_generation s).
Definition with_controller {A : Type} (c : Controller) (f : str -> str -> str -> str -> Z -> A) : A :=
  f (ctl_task_id c) (ctl_attempt_id c) (ctl_assignee_agent_id c) (ctl_attempt_fence c) (ctl_generation c).

Definition perform (env : Env) (op : AgentOp) : AgentDb -> AgentDb :=
  match op with
  | CreateAgentIdentity p input => after (create_agent_identity env p input)
  | ListAgentIdentities p agent_id offset limit => after (list_agent_identities env p agent_id offset limit)
  | UpdateAgentIdentity p agent_id expected patch => after (update_agent_identity env p agent_id expected patch)
  | AttachAgentEndpoint p input => after (attach_agent_endpoint env p input)
  | RecoverExpiredMcpAppEndpoint s window => after (with_session s (recover_expired_mcp_app_endpoint env) window)
  | DetachAgentEndpoint p endpoint_id => after (detach_agent_endpoint env p endpoint_id)
  | RenewAgentEndpoint p endpoint_id expected => after (renew_agent_endpoint env p endpoint_id expected)
  | VerifyCurrentAgentEndpoint s => after (with_session s (verify_current_agent_endpoint env))
  | SetWakeCapability s capable => after (with_session s (set_agent_endpoint_wake_capability env) capable)
  | SetMcpAppProjection s capable fingerprint window =>
      after (with_session s (set_agent_endpoint_mcp_app_binding_projection env) capable fingerprint window)
  | VerifyMcpAppRestartRecovery s fingerprint => after (with_session s (verify_mcp_app_restart_recovery env) fingerprint)
  | VerifyMcpAppWindowContinuity s window => after (with_session s (verify_mcp_app_window_continuity env) window)
  | McpAppRegistrationWindowAllows s window => after (with_session s (mcp_app_registration_window_allows env) window)
  | VerifyMcpAppRecoveryContinuity s fingerprint window =>
      after (with_session s (verify_mcp_app_recovery_continuity env) fingerprint window)
  | CreateConversation p input => after (create_conversation env p input)
  | ListConversations p access offset limit => after (list_conversations env p access offset limit)
  | ReadConversation p access conversation_id after_seq limit => after (read_conversation env p access conversation_id after_seq limit)
  | PostConversationMessage p input => after (post_conversation_message env p input)
  | ListAgentInbox s after_ limit => after (with_session s (list_agent_inbox env) after_ limit)
  | ConsumeAgentDeliveries s ids => after (with_session s (consume_agent_deliveries env) ids)
  | ServerTakeover owns at_ => after (recover_agent_wakes_for_server_takeover owns at_)
  | ClaimNextAgentWake s adapter => after (with_session s (claim_next_agent_wake env) adapter)
  | ReleaseAgentWakeClaim s wake_id attempt_id fence => after (with_session s (release_agent_wake_claim env) wake_id attempt_id fence)
  | PrepareAgentWakeDispatch s wake_id attempt_id fence token =>
      after (with_session s (prepare_agent_wake_dispatch env) wake_id attempt_id fence token)
  | VerifyAgentWakeDispatchBinding s wake_id attempt_id fence =>
      after (with_session s (verify_agent_wake_dispatch_binding env) wake_id attempt_id fence)
  | CompleteAgentWakeDelivery s wake_id attempt_id fence =>
      after (with_session s (complete_agent_wake_delivery env) wake_id attempt_id fence)
  | MarkAgentWakeDeliveryUnknown s wake_id attempt_id fence =>
      after (with_session s (mark_agent_wake_delivery_unknown env) wake_id attempt_id fence)
  | ConsumeAgentWake s wake_id token => after (with_session s (consume_agent_wake env) wake_id token)
  | BootstrapAgentConversation s conversation_id wake_id =>
      after (with_session s (bootstrap_agent_conversation env) conversation_id wake_id)
  | AcceptExplicitActivation s wake_id key => after (with_session s (accept_explicit_agent_wake_activation env) wake_id key)
  | CreateAgentTask p input => after (create_agent_task env p input)
  | ListAgentTasks p assignee offset limit => after (list_agent_tasks env p assignee offset limit)
  | ReadAgentTask p task_id => after (read_agent_task env p task_id)
  | AssignAgentTask p task_id assignee => after (assign_agent_task env p task_id assignee)
  | StartAgentTaskAttempt p task_id assignee key => after (start_agent_task_attempt env p task_id assignee key)
  | StartEndpointContinuation c => after (with_controller c (start_agent_task_endpoint_continuation env (ctl_principal c)))
  | HeartbeatAgentTaskAttempt c => after (with_controller c (heartbeat_agent_task_attempt env (ctl_principal c)))
  | ReplaceAttemptController c => after (with_controller c (replace_agent_task_attempt_controller env (ctl_principal c)))
  | CompleteAgentTaskAttempt c outcome result reason key =>
      after (with_controller c (complete_agent_task_attempt env (ctl_principal c)) outcome result reason key)
  | CodingRunStartContext c project => after (with_controller c (agent_task_coding_run_start_context env (ctl_principal c) project))
  | PrepareCodingRun c project intent => after (with_controller c (prepare_agent_task_coding_run env (ctl_principal c) project) intent)
  | ReadCodingRunBinding p task_id attempt_id => after (read_agent_task_coding_run_binding p task_id attempt_id)
  | ClaimCodingRunDispatch c fingerprint =>
      after (with_controller c (claim_agent_task_coding_run_dispatch env (ctl_principal c)) fingerprint)
  | RecordCodingRunNotStarted p task_id attempt_id run_id =>
      after (record_agent_task_coding_run_not_started env p task_id attempt_id run_id)
  | RecordCodingRunObservation p task_id attempt_id o => after (record_agent_task_coding_run_observation env p task_id attempt_id o)
  | MarkCodingRunUnavailable p task_id attempt_id => after (mark_agent_task_coding_run_reconcile_unavailable env p task_id attempt_id)
  | TerminalizeCodingRun p task_id attempt_id o result reason =>
      after (terminalize_agent_task_coding_run env p task_id attempt_id o result reason)
  | CreateGoal p input => after (create_goal env p input)
  | ReadGoal p goal_id => after (read_goal p goal_id)
  | ListGoals p lifecycle offset limit => after (list_goals p lifecycle offset limit)
  | UpdateGoal p goal_id expected patch key => after (update_goal env p goal_id expected patch key)
  | AssociateGoalAgentTask p goal_id task_id key => after (associate_goal_agent_task env p goal_id task_id key)
  | AssociateGoalWorkflowSession p goal_id session_id key => after (associate_goal_workflow_session env p goal_id session_id key)
  end.

Definition run (history : list (Env * AgentOp)) (db : AgentDb) : AgentDb :=
  fold_left (fun db call => perform (fst call) (snd call) db) history db.

(** ** Every history keeps the invariant *)

Lemma after_sound {E A : Type} (m : tx AgentDb E A) (db : AgentDb) :
  agent_inv db -> tx_wp m (fun _ => stepped db) db -> stepped db (after m db).
Proof. intros Hi Hm. apply (run_tx_wp m (stepped db)); [by apply stepped_refl | done]. Qed.

Lemma after_reads {E A : Type} (m : tx AgentDb E A) (db : AgentDb) : reads m -> after m db = db.
Proof. intros Hr. apply (run_tx_wp m (fun d => d = db)); [done | apply Hr]. Qed.

Lemma perform_sound (env : Env) (op : AgentOp) (db : AgentDb) : agent_inv db -> stepped db (perform env op db).
Proof.
  intros Hi. pose proof (stepped_refl db Hi) as Hs. destruct op; cbn; unfold with_session, with_controller,
    complete_agent_wake_delivery, mark_agent_wake_delivery_unknown, set_agent_endpoint_wake_capability;
    first [ apply after_sound; [done | ]; by auto using create_agent_identity_sound, update_agent_identity_sound,
              attach_agent_endpoint_sound, recover_expired_mcp_app_endpoint_sound, detach_agent_endpoint_sound,
              renew_agent_endpoint_sound, set_agent_endpoint_binding_projection_sound,
              set_agent_endpoint_mcp_app_binding_projection_sound, create_conversation_sound, post_conversation_message_sound,
              consume_agent_deliveries_sound, recover_agent_wakes_for_server_takeover_sound, claim_next_agent_wake_sound,
              release_agent_wake_claim_sound, prepare_agent_wake_dispatch_sound, finish_agent_wake_delivery_sound,
              consume_agent_wake_sound, accept_explicit_agent_wake_activation_sound, create_agent_task_sound,
              assign_agent_task_sound, start_agent_task_attempt_sound, start_agent_task_endpoint_continuation_sound,
              heartbeat_agent_task_attempt_sound, replace_agent_task_attempt_controller_sound,
              complete_agent_task_attempt_sound, prepare_agent_task_coding_run_sound,
              claim_agent_task_coding_run_dispatch_sound, record_agent_task_coding_run_not_started_sound,
              record_agent_task_coding_run_observation_sound, mark_agent_task_coding_run_reconcile_unavailable_sound,
              terminalize_agent_task_coding_run_sound, create_goal_sound, update_goal_sound, associate_goal_agent_task_sound,
              associate_goal_workflow_session_sound
          | rewrite after_reads; [done | ]; by auto using list_agent_identities_reads, verify_current_agent_endpoint_reads,
              verify_mcp_app_restart_recovery_reads, verify_mcp_app_window_continuity_reads,
              mcp_app_registration_window_allows_reads, verify_mcp_app_recovery_continuity_reads, list_conversations_reads,
              read_conversation_reads, list_agent_inbox_reads, verify_agent_wake_dispatch_binding_reads,
              bootstrap_agent_conversation_reads, list_agent_tasks_reads, read_agent_task_reads,
              agent_task_coding_run_start_context_reads, read_agent_task_coding_run_binding_reads, read_goal_reads,
              list_goals_reads ].
Qed.

Lemma run_sound (history : list (Env * AgentOp)) (db : AgentDb) : agent_inv db -> stepped db (run history db).
Proof.
  revert db. induction history as [|[env op] history IH]; intros db Hi; [by apply stepped_refl | ]. cbn.
  pose proof (perform_sound env op db Hi) as Hs. eapply stepped_trans; [done | ]. apply IH, (st_inv _ _ Hs).
Qed.

Lemma run_app (h1 h2 : list (Env * AgentOp)) (db : AgentDb) : run (h1 ++ h2) db = run h2 (run h1 db).
Proof. apply fold_left_app. Qed.

(** The tables a history of calls reaches from an empty database. *)
Definition reached (history : list (Env * AgentOp)) : AgentDb := run history AgentDb_empty.

Lemma reached_inv (history : list (Env * AgentOp)) : agent_inv (reached history).
Proof. apply (st_inv _ _ (run_sound history AgentDb_empty agent_inv_empty)). Qed.

Lemma reached_evolves (h1 h2 : list (Env * AgentOp)) : evolves (reached h1) (reached (h1 ++ h2)).
Proof. unfold reached. rewrite run_app. apply (st_evolves _ _ (run_sound h2 _ (reached_inv h1))). Qed.
End History.

(** * What Agents can rely on

    The properties of every history of calls: verdicts are final, an AgentTask has one
    controller, replaced controllers and Endpoints are fenced for good, a Wake is
    dispatched at most once, deliveries stay covered, messages are numbered without gaps
    and posted once, and a Goal's revisions are taken once. *)

Section Laws.
Context `{!AgentDigest} `{!JsonText}.
Implicit Types (h : list (Env * AgentOp)) (db : AgentDb).

(** ** AgentTasks *)

(** C7: The verdict of an AgentTask is final.  Once a task is terminal, an Attempt holds the
    same verdict, and after any further calls both rows, with their results and reasons, are
    exactly what they were. *)
Theorem agent_task_verdict_final h1 h2 (t : AgentTaskRow) :
  t ∈ agent_tasks (reached h1) -> task_terminal (tk_state t) = true ->
  exists a, a ∈ task_attempts (reached h1) /\ tk_terminal_attempt_id t = Some (ta_attempt_id a) /\
    ta_state a = attempt_outcome (tk_state t) /\
    t ∈ agent_tasks (reached (h1 ++ h2)) /\ a ∈ task_attempts (reached (h1 ++ h2)).
Proof.
  intros Ht Hterm. pose proof (reached_evolves h1 h2) as Hev.
  destruct (tl_latest _ _ (inv_tasks _ (reached_inv h1)) t Ht) as [(_ & Hr & _) | (a & [Ha Hid Htask Hfit _])]; [by rewrite Hr in Hterm | ].
  assert (Hv : tk_terminal_attempt_id t = Some (ta_attempt_id a) /\ ta_state a = attempt_outcome (tk_state t)).
  { unfold task_fits in Hfit. by destruct (tk_state t), (ta_state a). }
  destruct Hv as [Hv1 Hv2]. exists a. split_and!; [done..| | ].
  - destruct (grows_elem _ _ _ _ (ev_tasks _ _ Hev) Ht) as (t' & Ht' & Hm). by rewrite <- (tkm_terminal _ _ Hm Hterm).
  - destruct (grows_elem _ _ _ _ (ev_task_attempts _ _ Hev) Ha) as (a' & Ha' & Hm). rewrite <- (tam_final _ _ Hm); [done | ].
    rewrite Hv2. by destruct (tk_state t).
Qed.

(** C6: An AgentTask has at most one controller.  An active Attempt is the latest of its
    task, the task is active, and every other Attempt of the task has expired and has a
    smaller number. *)
Theorem agent_task_one_controller h (t : AgentTaskRow) (a : StoredAttempt) :
  t ∈ agent_tasks (reached h) -> a ∈ task_attempts (reached h) -> ta_task_id a = tk_task_id t -> ta_state a = AttemptActive ->
  tk_state t = TaskActive /\ tk_latest_attempt_id t = Some (ta_attempt_id a) /\
  forall a', a' ∈ task_attempts (reached h) -> ta_task_id a' = tk_task_id t -> a' <> a ->
    ta_state a' = AttemptExpired /\ (ta_attempt_number a' < ta_attempt_number a)%Z.
Proof.
  intros Ht Ha Hid Hact. destruct (tl_latest _ _ (inv_tasks _ (reached_inv h)) t Ht) as [(_ & _ & Hno) | (l & [L1 L2 L3 L4 L5])].
  { by destruct (Hno a Ha). }
  assert (a = l) as ->.
  { destruct (decide (ta_attempt_id a = ta_attempt_id l)) as [He|He].
    - by apply (task_attempts_by_id _ _ _ (sc_task_attempts _ (inv_schema _ (reached_inv h)))).
    - destruct (L5 a Ha Hid) as [Hexp _]; congruence. }
  split_and!; [ | done | done]. unfold task_fits in L4. rewrite Hact in L4. by destruct (tk_state t).
Qed.

(** The calls that carry the credentials of an Attempt's controller. *)
Inductive controlled_by (c : Controller) : AgentOp -> Prop :=
| by_continuation : controlled_by c (StartEndpointContinuation c)
| by_heartbeat : controlled_by c (HeartbeatAgentTaskAttempt c)
| by_replace : controlled_by c (ReplaceAttemptController c)
| by_complete outcome result reason key : controlled_by c (CompleteAgentTaskAttempt c outcome result reason key)
| by_prepare project intent : controlled_by c (PrepareCodingRun c project intent)
| by_dispatch fingerprint : controlled_by c (ClaimCodingRunDispatch c fingerprint).

Lemma after_same {E A : Type} (m : tx AgentDb E A) db : tx_wp m (fun _ d => d = db) db -> after m db = db.
Proof. intros Hm. by apply (run_tx_wp m (fun d => d = db)). Qed.

(** No other generation than the one the Attempt has passes. *)
Lemma wp_stale_attempt db (task : StoredTask) (attempt_id assignee attempt_fence : str) (generation now : Z) (a : StoredAttempt)
  (post : StoredAttempt -> AgentDb -> Prop) :
  agent_inv db -> a ∈ task_attempts db -> ta_attempt_id a = attempt_id -> (generation < ta_attempt_controller_generation a)%Z ->
  tx_wp (require_current_attempt task attempt_id assignee attempt_fence generation now) post db.
Proof.
  intros Hi Ha Hid Hg. apply wp_require_current_attempt. intros x Hc E1 _ _ E2. exfalso.
  assert (x = a) as -> by (apply (task_attempts_by_id _ _ _ (sc_task_attempts _ (inv_schema _ Hi))); [apply Hc | done | congruence]). lia.
Qed.

(** C5: A replaced controller changes nothing, ever.  When an Attempt has reached a controller
    generation, then after any further calls every call that carries an older generation of
    that Attempt (a continuation, a heartbeat, a replacement, a completion, the preparation
    or the dispatch of a CodingAgent Run) leaves all tables as they are. *)
Theorem stale_controller_changes_nothing h1 h2 (env : Env) (c : Controller) (op : AgentOp) (a : StoredAttempt) :
  a ∈ task_attempts (reached h1) -> ta_attempt_id a = ctl_attempt_id c ->
  (ctl_generation c < ta_attempt_controller_generation a)%Z -> controlled_by c op ->
  perform env op (reached (h1 ++ h2)) = reached (h1 ++ h2).
Proof.
  intros Ha Hid Hg Hop. pose proof (reached_inv (h1 ++ h2)) as Hi. pose proof (reached_evolves h1 h2) as Hev.
  destruct (grows_elem _ _ _ _ (ev_task_attempts _ _ Hev) Ha) as (a' & Ha' & Hm). set (db := reached (h1 ++ h2)) in *.
  assert (Hid' : ta_attempt_id a' = ctl_attempt_id c) by (by rewrite (tam_id _ _ Hm)).
  assert (Hg' : (ctl_generation c < ta_attempt_controller_generation a')%Z) by (pose proof (tam_generation _ _ Hm); lia).
  pose proof (fun task now post => wp_stale_attempt db task _ (ctl_assignee_agent_id c) (ctl_attempt_fence c) _ now a' post Hi Ha' Hid' Hg') as Hstale.
  destruct Hop; cbn; unfold with_controller; apply after_same.
  - unfold start_agent_task_endpoint_continuation. repeat first [apply Hstale | op_step]; done.
  - unfold heartbeat_agent_task_attempt. repeat first [apply Hstale | op_step]; done.
  - unfold replace_agent_task_attempt_controller, replace_agent_task_attempt_controller_in_transaction.
    repeat first [apply Hstale | op_step]; done.
  - unfold complete_agent_task_attempt. repeat first [apply Hstale | op_step]; done.
  - unfold prepare_agent_task_coding_run. repeat first [apply Hstale | op_step]; done.
  - unfold claim_agent_task_coding_run_dispatch. repeat first [apply Hstale | op_step]; done.
Qed.

(** ** Wakes *)

(** C9: A Wake and the Attempts on it agree.  A Wake that is claimed, dispatched or consumed
    is so by exactly one Attempt, which names the same Endpoint generation and is in the
    same state; every other Attempt on the Wake was revoked. *)
Theorem wake_claim_agrees h (w : AgentWakeRecord) :
  w ∈ wakes (reached h) -> unclaimed (wk_state w) = false ->
  exists a, a ∈ wake_attempts (reached h) /\ linked w a /\
    forall a', a' ∈ wake_attempts (reached h) -> wa_wake_id a' = wk_wake_id w -> a' <> a -> wa_state a' = WaRevoked.
Proof.
  intros Hw Hc. pose proof (reached_inv h) as Hi. pose proof (inv_schema _ Hi) as Hsc.
  destruct (wl_claimed _ _ (inv_link _ Hi) w Hw Hc) as (a & Ha & Hl). exists a. split_and!; [done | done | ].
  intros a' Ha' Hid Hne. destruct (decide (wa_state a' = WaRevoked)) as [|Hlive]; [done | exfalso].
  destruct (wl_owner _ _ (inv_link _ Hi) a' Ha' Hlive) as (w' & Hw' & Hl').
  assert (w' = w) as -> by (apply (wakes_by_id _ _ _ (sc_wakes _ Hsc)); [done | done | rewrite <- (lk_wake _ _ Hl'); done]).
  apply Hne. apply (linked_attempt (wake_attempts (reached h)) w); [apply (sc_wake_attempts _ Hsc) | done | done | done | apply (lk_attempt _ _ Hl')].
Qed.

(** C8: A Wake crosses the dispatch fence at most once.  A dispatched Wake never returns to
    the queue and is never retired: after any further calls it is still dispatched, or
    consumed, under the Attempt and the Endpoint generation it was dispatched with, and no
    other Attempt on it is live. *)
Theorem wake_dispatched_once h1 h2 (w : AgentWakeRecord) :
  w ∈ wakes (reached h1) -> dispatched (wk_state w) = true ->
  exists w', w' ∈ wakes (reached (h1 ++ h2)) /\ wk_wake_id w' = wk_wake_id w /\
    (dispatched (wk_state w') = true \/ wk_state w' = WakeConsumed) /\
    wk_claimed_attempt_id w' = wk_claimed_attempt_id w /\ wk_claimed_endpoint_id w' = wk_claimed_endpoint_id w /\
    wk_claimed_controller_generation w' = wk_claimed_controller_generation w /\
    forall a, a ∈ wake_attempts (reached (h1 ++ h2)) -> wa_wake_id a = wk_wake_id w -> wa_state a <> WaRevoked ->
      wk_claimed_attempt_id w = Some (wa_attempt_id a).
Proof.
  intros Hw Hd. pose proof (reached_evolves h1 h2) as Hev. pose proof (reached_inv (h1 ++ h2)) as Hi.
  destruct (grows_elem _ _ _ _ (ev_wakes _ _ Hev) Hw) as (w' & Hw' & Hm). destruct (wkm_dispatched _ _ Hm Hd) as (Hr & E1 & E2 & E3).
  exists w'. split_and!; [done | apply (wkm_id _ _ Hm) | apply (fence_dispatched _ _ Hd (wkm_fence _ _ Hm) Hr) | done | done | done | ].
  intros a Ha Hid Hlive. destruct (wl_owner _ _ (inv_link _ Hi) a Ha Hlive) as (x & Hx & Hl).
  assert (x = w') as ->.
  { apply (wakes_by_id _ _ _ (sc_wakes _ (inv_schema _ Hi))); [done | done | ]. pose proof (lk_wake _ _ Hl). pose proof (wkm_id _ _ Hm). congruence. }
  rewrite <- E1. apply (lk_attempt _ _ Hl).
Qed.

(** ** Conversations *)

(** C10: No delivery is forgotten.  Every delivery is covered by an inbox Wake of its
    recipient whose watermark reaches it; such a Wake is never retired, and of the inbox
    Wakes of an Agent at most one is queued. *)
Theorem delivery_always_covered h (d : DeliveryRow) :
  d ∈ deliveries (reached h) ->
  exists w n, w ∈ wakes (reached h) /\ wk_target_agent_id w = dl_recipient_agent_id d /\ wk_trigger_kind w = InboxChanged /\
    wk_inbox_high_watermark w = Some n /\ (dl_delivery_order d <= n)%Z /\ wk_state w <> WakeRetired /\
    forall w', w' ∈ wakes (reached h) -> wk_target_agent_id w' = dl_recipient_agent_id d -> wk_trigger_kind w' = InboxChanged ->
      queueable (wk_state w) = true -> queueable (wk_state w') = true -> w' = w.
Proof.
  intros Hd. pose proof (reached_inv h) as Hi. destruct (ic_covered _ _ (inv_cover _ Hi) d Hd) as (w & Hw & (Ht & Hk & Hle)).
  destruct (wk_inbox_high_watermark w) as [n|] eqn:En; [ | done]. exists w, n.
  split_and!; [done..| by apply (ic_kept _ _ (inv_cover _ Hi)) | ]. intros w' Hw' Ht' Hk' Hq Hq'.
  pose proof (sc_wakes _ (inv_schema _ Hi)) as Ho. unfold wakes_own in Ho. split_andb.
  eapply (unique_rows (fun w => if (wk_trigger_kind w ==? InboxChanged) && queueable (wk_state w)
                                then Some (wk_target_agent_id w) else None) (wakes (reached h)) w' w (dl_recipient_agent_id d)); try done.
  - by rewrite Hk', Hq', Ht'.
  - by rewrite Hk, Hq, Ht.
Qed.

(** C12: The messages of a Conversation are numbered 1, 2, 3, ... without a gap or a repeat, in
    the order in which they were posted, up to the number before its next one. *)
Theorem conversation_numbered h (c : ConversationRow) :
  c ∈ conversations (reached h) ->
  map ms_seq (List.filter (fun m => ms_conversation_id m ==? cv_conversation_id c) (messages (reached h))) =
  seqZ 1 (cv_next_seq c - 1).
Proof. apply (ml_seqs _ _ (inv_messages _ (reached_inv h))). Qed.

(** ** Messages *)

(** A step whose result and state nothing depends on. *)
Lemma wp_any {E A : Type} (m : tx AgentDb E A) (post : A -> AgentDb -> Prop) db : (forall a d, post a d) -> tx_wp m post db.
Proof. intros Hp a d _. apply Hp. Qed.

(** The tables hold the message that a request stands for, under its replay identity. *)
Definition posted (p : CommunicationPrincipal) (input : NewConversationMessage) (m : MessageRow) db : Prop :=
  exists operation key wake_reply body explicit access k author,
    validate_communication_principal p = Ok tt /\
    validate_id (nm_conversation_id input) CONVERSATION_ID_PREFIX (lit "invalid_conversation_id") = Ok tt /\
    validate_message_body (nm_body input) = Ok body /\
    replay_identity input = Ok (operation, key, wake_reply) /\
    validate_optional (fun id => validate_id id CONVERSATION_MESSAGE_ID_PREFIX (lit "invalid_message_id")) (nm_reply_to input) = Ok tt /\
    match nm_recipient_agent_ids input with
    | Some agent_ids => let? ids := canonicalize_agent_ids agent_ids false in Ok (Some ids)
    | None => Ok None
    end = Ok explicit /\
    message_access input wake_reply = Ok access /\
    k ∈ comm_idempotency db /\ key_matches COMMUNICATION_KEY_DOMAIN p operation key k = true /\
    ik_request_hash k = message_request_hash input body explicit wake_reply /\
    m ∈ messages db /\ ms_message_id m = ik_resource_id k /\
    author ∈ participants db /\ pt_participant_id author = ms_author_participant_id m.

Lemma posted_kept p input m db db' : evolves db db' -> posted p input m db -> posted p input m db'.
Proof.
  intros Hev (o & key & wr & body & ex & acc & k & au & H1 & H2 & H3 & H4 & H5 & H6 & H7 & Hk & Hkm & Hh & Hm & Hmid & Hau & Haid).
  destruct (grows_elem _ _ _ _ (ev_comm_idempotency _ _ Hev) Hk) as (k' & Hk' & <-).
  destruct (grows_elem _ _ _ _ (ev_messages _ _ Hev) Hm) as (m' & Hm' & <-).
  destruct (grows_elem _ _ _ _ (ev_participants _ _ Hev) Hau) as (au' & Hau' & <-). by exists o, key, wr, body, ex, acc, k, au.
Qed.

(** What is the same in every answer about a message. *)
Definition tells (m : MessageRow) (r : ConversationMessageRecord) : Prop :=
  mr_message_id r = ms_message_id m /\ mr_conversation_id r = ms_conversation_id m /\ mr_seq r = ms_seq m /\
  mr_body r = ms_body m /\ mr_reply_to r = ms_reply_to m /\ mr_created_at r = ms_created_at m.

Lemma loaded_message (message_id : str) (r : ConversationMessageRecord) db :
  find (fun m => ms_message_id m ==? message_id) (messages db) ≫= message_record db = Some r ->
  exists m author, m ∈ messages db /\ ms_message_id m = message_id /\ author ∈ participants db /\
    pt_participant_id author = ms_author_participant_id m /\ tells m r.
Proof.
  intros (m & Hm & Hr)%bind_Some. apply find_elem in Hm as [Hin Hid%beq_true]. unfold message_record in Hr.
  apply fmap_Some in Hr as (au & Hau & ->). apply find_elem in Hau as [Hau Hid'%beq_true]. by exists m, au.
Qed.

Lemma wp_posted (env : Env) p input db :
  tx_wp (post_conversation_message env p input) (fun r d => exists m, posted p input m d /\ tells m (mm_message r)) db.
Proof.
  unfold post_conversation_message, lookup_idempotent_resource, load_message. tx_steps.
  match goal with H : replay_identity input = Ok ?x |- _ => destruct x as [[operation key] wake_reply] end.
  match goal with a : unit, b : unit |- _ => destruct a, b end. tx_steps.
  - match goal with H : _ ≫= _ = Some _ |- _ => destruct (loaded_message _ _ _ H) as (m & au & Hm & Hid & Hau & Haid & Ht) end. found.
    exists m. split; [ | done]. match goal with u : unit |- _ => destruct u end. do 8 eexists. split_and!; try done. by apply beq_true.
  - match goal with u : unit |- _ => destruct u end. do 4 (apply wp_any; intros; tx_step). apply wp_any. intros [author author_agent] ?.
    repeat (tx_step; lazymatch goal with |- tx_wp (record_idempotent_resource _ _ _ _ _ _) _ _ => fail | _ => apply wp_any; intros end).
    unfold record_idempotent_resource. tx_steps.
    match goal with H : _ ≫= _ = Some _ |- _ => destruct (loaded_message _ _ _ H) as (m & au & Hm & Hid & Hau & Haid & Ht) end.
    exists m. split; [ | done]. do 8 eexists. split_and!; try done; [apply elem_of_app; right; apply list_elem_of_here | | done..].
    unfold key_matches. cbn. by rewrite !beq_refl.
Qed.


Lemma posted_again (env : Env) p input m db :
  agent_inv db -> posted p input m db ->
  exists r, post_conversation_message env p input db = Ok (mkMessageMutation r true false, db) /\ tells m r.
Proof.
  intros Hi (o & key & wr & body & ex & acc & k & au & H1 & H2 & H3 & H4 & H5 & H6 & H7 & Hk & Hkm & Hh & Hm & Hmid & Hau & Haid).
  pose proof (inv_schema _ Hi) as Hsc.
  assert (Fk : find (key_matches COMMUNICATION_KEY_DOMAIN p o key) (comm_idempotency db) = Some k).
  { apply find_only; [done | done | ]. intros y Hy Hym. pose proof (sc_comm_idempotency _ Hsc) as Hu.
    unfold key_matches in *. split_andb. apply (unique_rows idempotency_key_of _ y k (pr_digest p, o, digest_text COMMUNICATION_KEY_DOMAIN key) Hu); try done;
      unfold idempotency_key_of; congruence. }
  assert (Fm : find (fun m => ms_message_id m ==? ik_resource_id k) (messages db) = Some m).
  { rewrite <- Hmid. pose proof (sc_messages _ Hsc) as Hu. unfold messages_own in Hu. split_andb. by apply unique_find. }
  assert (Fa : find (fun p => pt_participant_id p ==? ms_author_participant_id m) (participants db) = Some au).
  { rewrite <- Haid. pose proof (sc_participants _ Hsc) as Hu. unfold participants_own in Hu. split_andb. by apply unique_find. }
  eexists. split.
  - unfold post_conversation_message, lookup_idempotent_resource, select_row, load_message. rewrite H1, H2, H3, H4, H5, H6.
    cbv beta iota zeta delta [mbind tx_bind mret tx_ret lift gets]. rewrite H7. cbv beta iota zeta.
    change (tget wc_communication_idempotency db) with (comm_idempotency db). rewrite Fk. rewrite Hh, beq_refl. cbv beta iota zeta.
    change (@option_bind ?A ?B ?f ?o) with (o ≫= f).
    rewrite Fm. cbn [mbind option_bind]. unfold message_record at 1. rewrite Fa. reflexivity.
  - done.
Qed.

(** C11: A message is posted once.  When a post has committed, then after any further calls
    the same request, however often and whenever it is sent again, succeeds, changes no
    table and answers with the message that was posted, under its number. *)
Theorem message_posted_once h1 h2 (env env' : Env) (p : CommunicationPrincipal) (input : NewConversationMessage)
  (r : ConversationMessageMutation) :
  snd (run_tx (post_conversation_message env p input) (reached h1)) = Ok r ->
  exists r', run_tx (post_conversation_message env' p input) (reached (h1 ++ (env, PostConversationMessage p input) :: h2))
             = (reached (h1 ++ (env, PostConversationMessage p input) :: h2), Ok r') /\
    mm_replayed r' = true /\ mm_state_changed r' = false /\
    mr_message_id (mm_message r') = mr_message_id (mm_message r) /\ mr_conversation_id (mm_message r') = mr_conversation_id (mm_message r) /\
    mr_seq (mm_message r') = mr_seq (mm_message r) /\ mr_body (mm_message r') = mr_body (mm_message r).
Proof.
  intros Hr. assert (Hp : exists m, posted p input m (reached (h1 ++ [(env, PostConversationMessage p input)])) /\ tells m (mm_message r)).
  { unfold reached. rewrite run_app. cbn. unfold after, run_tx in *. fold (reached h1).
    destruct (post_conversation_message env p input (reached h1)) as [[r0 d]|] eqn:E; [ | done]. injection Hr as ->. exact (wp_posted _ _ _ _ _ _ E). }
  destruct Hp as (m & Hp & T1 & T2 & T3 & T4 & _).
  assert (Hev : evolves (reached (h1 ++ [(env, PostConversationMessage p input)])) (reached (h1 ++ (env, PostConversationMessage p input) :: h2))).
  { pose proof (reached_evolves (h1 ++ [(env, PostConversationMessage p input)]) h2) as Hev. by rewrite <- app_assoc in Hev. }
  destruct (posted_again env' p input m _ (reached_inv _) (posted_kept _ _ _ _ _ Hev Hp)) as (r' & Hr' & U1 & U2 & U3 & U4 & _).
  eexists. unfold run_tx. rewrite Hr'. split_and!; [done..| cbn; congruence | cbn; congruence | cbn; congruence | cbn; congruence].
Qed.

(** ** Endpoints *)

(** The calls an Endpoint makes with its generation. *)
Inductive session_op (s : Session) : AgentOp -> Prop :=
| on_capability capable : session_op s (SetWakeCapability s capable)
| on_projection capable fingerprint window : session_op s (SetMcpAppProjection s capable fingerprint window)
| on_recovery window : session_op s (RecoverExpiredMcpAppEndpoint s window)
| on_renewal p expected : session_op s (RenewAgentEndpoint p (ses_endpoint_id s) expected)
| on_deliveries ids : session_op s (ConsumeAgentDeliveries s ids)
| on_claim adapter : session_op s (ClaimNextAgentWake s adapter)
| on_release wake_id attempt_id fence : session_op s (ReleaseAgentWakeClaim s wake_id attempt_id fence)
| on_prepare wake_id attempt_id fence token : session_op s (PrepareAgentWakeDispatch s wake_id attempt_id fence token)
| on_delivered wake_id attempt_id fence : session_op s (CompleteAgentWakeDelivery s wake_id attempt_id fence)
| on_unknown wake_id attempt_id fence : session_op s (MarkAgentWakeDeliveryUnknown s wake_id attempt_id fence)
| on_consume wake_id token : session_op s (ConsumeAgentWake s wake_id token)
| on_activation wake_id key : session_op s (AcceptExplicitActivation s wake_id key).

(** An Endpoint whose identity has gone on to a later generation. *)
Definition outdated db (endpoint_id : str) : Prop :=
  exists e i, e ∈ endpoints db /\ ep_endpoint_id e = endpoint_id /\ i ∈ identities db /\ ai_agent_id i = ep_agent_id e /\
    (ep_controller_generation e < ai_current_controller_generation i)%Z.

Lemma outdated_kept db db' (endpoint_id : str) : evolves db db' -> outdated db endpoint_id -> outdated db' endpoint_id.
Proof.
  intros Hev (e & i & He & Hid & Hi & Hag & Hg). destruct (grows_elem _ _ _ _ (ev_endpoints _ _ Hev) He) as (e' & He' & Hm).
  destruct (grows_elem _ _ _ _ (ev_identities _ _ Hev) Hi) as (i' & Hi' & Hm'). destruct Hm, Hm'. exists e', i'.
  split_and!; try done; try congruence. lia.
Qed.

Lemma loaded_outdated db (endpoint_id : str) (p : CommunicationPrincipal) (r : AgentEndpointRecord) (a : AgentIdentityRow) :
  agent_inv db -> outdated db endpoint_id ->
  row_to_endpoint <$> find (fun e => (ep_endpoint_id e ==? endpoint_id)
                            && owned_by p (ep_attachment_principal_kind e) (ep_attachment_principal_digest e)) (endpoints db) = Some r ->
  a ∈ identities db -> ai_agent_id a = er_agent_id r -> (er_controller_generation r < ai_current_controller_generation a)%Z.
Proof.
  intros Hi (e & i & He & Hid & Hin & Hag & Hg) Hr Ha Hida. apply fmap_Some in Hr as (x & Hx & ->). found. split_andb.
  assert (x = e) as -> by (apply (endpoints_by_id _ _ _ (sc_endpoints _ (inv_schema _ Hi))); [done | done | congruence]).
  assert (a = i) as -> by (apply (identities_by_id _ _ _ (sc_identities _ (inv_schema _ Hi))); [done | done | cbn in Hida; congruence]).
  done.
Qed.

Lemma wp_outdated db (endpoint_id : str) (p : CommunicationPrincipal) (agent_id : str) (expected : option Z) (now : Z)
  (post : AgentEndpointRecord -> AgentDb -> Prop) :
  agent_inv db -> outdated db endpoint_id -> tx_wp (require_current_endpoint p agent_id endpoint_id expected now) post db.
Proof.
  intros Hi Ho. unfold require_current_endpoint, load_endpoint_for_principal, current_generation. repeat tx_step.
  destruct (er_lifecycle _); tx_steps. exfalso. split_andb.
  match goal with H : find _ (identities db) = Some ?a |- _ => apply find_elem in H as [Ha Hida]; rename a into i end. split_andb.
  match goal with H : _ <$> _ = Some ?r |- _ =>
    assert (Hlt : (er_controller_generation r < ai_current_controller_generation i)%Z)
      by (apply (loaded_outdated db endpoint_id p r i Hi Ho H Ha); congruence) end.
  lia.
Qed.

(** C13: A replaced Endpoint is fenced for good.  When an Agent's identity has gone on to a
    later controller generation than the one an Endpoint was attached with, then after any
    further calls every call made as that Endpoint (claims, dispatch, outcomes, consumption
    of Wakes and deliveries, renewal, recovery, its binding) leaves all tables as they are. *)
Theorem old_endpoint_fenced h1 h2 (env : Env) (s : Session) (op : AgentOp) (e : AgentEndpointRow) (i : AgentIdentityRow) :
  e ∈ endpoints (reached h1) -> ep_endpoint_id e = ses_endpoint_id s -> i ∈ identities (reached h1) ->
  ai_agent_id i = ep_agent_id e -> (ep_controller_generation e < ai_current_controller_generation i)%Z -> session_op s op ->
  perform env op (reached (h1 ++ h2)) = reached (h1 ++ h2).
Proof.
  intros He Hid Hin Hag Hg Hop. pose proof (reached_inv (h1 ++ h2)) as Hi. pose proof (reached_evolves h1 h2) as Hev.
  assert (Hout : outdated (reached (h1 ++ h2)) (ses_endpoint_id s)).
  { apply (outdated_kept _ _ _ Hev). by exists e, i. }
  set (db := reached (h1 ++ h2)) in *.
  pose proof (fun p agent_id expected now post => wp_outdated db _ p agent_id expected now post Hi Hout) as Hold.
  destruct Hop; cbn; unfold with_session; apply after_same.
  - unfold set_agent_endpoint_wake_capability, set_agent_endpoint_binding_projection. repeat first [apply Hold | op_step]; done.
  - unfold set_agent_endpoint_mcp_app_binding_projection, set_agent_endpoint_binding_projection. repeat first [apply Hold | op_step]; done.
  - unfold recover_expired_mcp_app_endpoint, load_endpoint_for_principal, current_generation. repeat op_step; [done | ]. exfalso. split_andb.
    match goal with H : find _ (identities db) = Some ?a |- _ => apply find_elem in H as [Ha Hida]; rename a into x end. split_andb.
    match goal with H : _ <$> _ = Some ?r |- _ =>
      assert (Hlt : (er_controller_generation r < ai_current_controller_generation x)%Z)
        by (apply (loaded_outdated db _ _ r x Hi Hout H Ha); congruence) end.
    lia.
  - unfold renew_agent_endpoint. repeat first [apply Hold | op_step]; done.
  - unfold consume_agent_deliveries. repeat first [apply Hold | op_step]; done.
  - unfold claim_next_agent_wake. repeat first [apply Hold | op_step]; done.
  - unfold release_agent_wake_claim. repeat first [apply Hold | op_step]; done.
  - unfold prepare_agent_wake_dispatch. repeat first [apply Hold | op_step]; done.
  - unfold complete_agent_wake_delivery, finish_agent_wake_delivery. repeat first [apply Hold | op_step]; done.
  - unfold mark_agent_wake_delivery_unknown, finish_agent_wake_delivery. repeat first [apply Hold | op_step]; done.
  - unfold consume_agent_wake. repeat first [apply Hold | op_step]; done.
  - unfold accept_explicit_agent_wake_activation. repeat first [apply Hold | op_step]; done.
Qed.

(** ** Goals *)

(** The calls that may change a Goal. *)
Inductive goal_op (goal_id : str) : AgentOp -> Prop :=
| goal_updated p expected patch key : goal_op goal_id (UpdateGoal p goal_id expected patch key)
| goal_task p task_id key : goal_op goal_id (AssociateGoalAgentTask p goal_id task_id key)
| goal_workflow p session_id key : goal_op goal_id (AssociateGoalWorkflowSession p goal_id session_id key).

(** The summary that is loaded is that of the Goal. *)
Lemma wp_load_goal db (p : CommunicationPrincipal) (g : GoalRow) (post : GoalDetail -> AgentDb -> Prop) :
  agent_inv db -> g ∈ goals db ->
  (forall d, gs_revision (gd_summary d) = go_revision g -> gs_lifecycle (gd_summary d) = go_lifecycle g -> post d db) ->
  tx_wp (load_owned_goal p (go_goal_id g)) post db.
Proof.
  intros Hi Hg Hp. unfold load_owned_goal. tx_steps. found. unfold owned_goal in *. split_andb.
  match goal with H : go_goal_id ?x = go_goal_id g |- _ =>
    assert (x = g) as -> by (by apply (goals_by_id _ _ _ (sc_goals _ (inv_schema _ Hi)))) end.
  by apply Hp.
Qed.

Lemma wp_replayed_goal db (p : CommunicationPrincipal) (goal_id replayed message : str) :
  tx_wp (replayed_goal p goal_id replayed message) (fun _ d => d = db) db.
Proof. unfold replayed_goal. op_steps. done. Qed.

(** C14: A revision of a Goal is taken once.  When a Goal has gone on to a later revision, then
    after any further calls an update that expects the earlier one, by anyone, with any
    patch and any key, leaves all tables as they are. *)
Theorem goal_revision_taken_once h1 h2 (env : Env) (p : CommunicationPrincipal) (g : GoalRow) (expected : Z) (patch : GoalPatch) (key : str) :
  g ∈ goals (reached h1) -> (expected < go_revision g)%Z ->
  perform env (UpdateGoal p (go_goal_id g) expected patch key) (reached (h1 ++ h2)) = reached (h1 ++ h2).
Proof.
  intros Hg Hlt. destruct (grows_elem _ _ _ _ (ev_goals _ _ (reached_evolves h1 h2)) Hg) as (g' & Hg' & Hm).
  pose proof (reached_inv (h1 ++ h2)) as Hi. set (db := reached (h1 ++ h2)) in *. rewrite <- (gom_id _ _ Hm). cbn. apply after_same.
  unfold update_goal. repeat first [apply wp_replayed_goal | apply wp_load_goal; [done | done | intros; cbn beta] | op_step].
  all: exfalso; assert (go_revision g <= go_revision g')%Z by (destruct (gom_revision _ _ Hm) as [->|]; lia); split_andb; lia.
Qed.

(** C15: A Goal that was completed or cancelled is frozen.  After any further calls its row is
    what it was, and no call, neither an update nor a new correlation, changes any table
    on its behalf. *)
Theorem goal_terminal_frozen h1 h2 (env : Env) (op : AgentOp) (g : GoalRow) :
  g ∈ goals (reached h1) -> goal_terminal (go_lifecycle g) = true -> goal_op (go_goal_id g) op ->
  g ∈ goals (reached (h1 ++ h2)) /\ perform env op (reached (h1 ++ h2)) = reached (h1 ++ h2).
Proof.
  intros Hg Ht Hop. destruct (grows_elem _ _ _ _ (ev_goals _ _ (reached_evolves h1 h2)) Hg) as (g' & Hg' & Hm).
  rewrite (gom_terminal _ _ Hm Ht) in Hg'. split; [done | ]. pose proof (reached_inv (h1 ++ h2)) as Hi. set (db := reached (h1 ++ h2)) in *.
  destruct Hop; cbn; apply after_same; unfold update_goal, associate_goal_agent_task, associate_goal_workflow_session, associate_goal_reference;
    repeat first [apply wp_replayed_goal | apply wp_load_goal; [done | done | intros; cbn beta] | op_step]; congruence.
Qed.
End Laws.
