(* ===== verification/AgentExamples.v ===== *)
(** * AgentExamples: histories of Agent collaboration that run

    Two Agents, a Conversation, an AgentTask with its Attempts, a Wake that is claimed,
    dispatched and consumed, and a Goal; the laws are applied to these histories. *)
From S2P Require Import Prelude RustStr Sql ConnectorModel CodingAgent AgentModel AgentStore AgentCore AgentComm AgentWakes AgentTasks AgentGoals AgentFacts AgentLaws.

(** ** Digests, texts and environments *)

(** The last [n] hexadecimal digits of a number. *)
Fixpoint hex_digits (n : nat) (v : Z) : str :=
  match n with
  | O => []
  | S n => hex_digits n (Z.div v 16) ++ [let d := Z.to_N (Z.modulo v 16) in if (d <? 10)%N then (48 + d)%N else (87 + d)%N]
  end.

(** A stand-in for SHA-256 on the short texts below: the text, padded. *)
#[local] Instance ex_digest : AgentDigest := fun _ value => take 64 (value ++ replicate 64 48%N).
#[local] Instance ex_json : JsonText := fun _ => lit "{}".

(** The clock stands at [at_] during call [k], whose ids are [k]0, [k]1, ... *)
Definition ex_uuid (k n : Z) : str := hex_digits 32 (256 * k + n).
Definition ex_env (k at_ : Z) : Env := mkEnv (fun _ => at_) (fun n => ex_uuid k (Z.of_nat n)).
Definition ex_owner : CommunicationPrincipal := mkPrincipal (lit "user") (COMMUNICATION_PRINCIPAL_DIGEST_PREFIX ++ hex_digits 64 5%Z).

(** ** A Conversation between two Agents *)

Definition ex_ann : str := DURABLE_AGENT_ID_PREFIX ++ ex_uuid 1 0.
Definition ex_bob : str := DURABLE_AGENT_ID_PREFIX ++ ex_uuid 2 0.
Definition ex_endpoint (k : Z) : str := AGENT_ENDPOINT_ID_PREFIX ++ ex_uuid k 0.
Definition ex_conversation : str := CONVERSATION_ID_PREFIX ++ ex_uuid 5 0.
Definition ex_bob_session : Session := mkSession ex_owner ex_bob (ex_endpoint 4) 1.
Definition ex_message (body key : str) : NewConversationMessage :=
  mkNewMessage ex_conversation body (Some ex_ann) (Some (ex_endpoint 3)) (Some 1%Z) None None (Some key) None None.

Definition ex_agents : list (Env * AgentOp) :=
  [(ex_env 1 1000, CreateAgentIdentity ex_owner (mkNewAgent (lit "ann") (lit "Ann") [] [] (lit "k1")));
   (ex_env 2 1001, CreateAgentIdentity ex_owner (mkNewAgent (lit "bob") (lit "Bob") [] [] (lit "k2")));
   (ex_env 3 1002, AttachAgentEndpoint ex_owner (mkNewEndpoint ex_ann (lit "host") None true (lit "k3")));
   (ex_env 4 1003, AttachAgentEndpoint ex_owner (mkNewEndpoint ex_bob (lit "host") None true (lit "k4")));
   (ex_env 5 1004, CreateConversation ex_owner (mkNewConversation None [ex_ann; ex_bob] (lit "k5")))].

Definition ex_first : NewConversationMessage := ex_message (lit "hello") (lit "k6").
Definition ex_talk : list (Env * AgentOp) :=
  ex_agents ++ [(ex_env 6 1005, PostConversationMessage ex_owner ex_first);
                (ex_env 7 1006, PostConversationMessage ex_owner (ex_message (lit "again") (lit "k7")))].

Definition ex_wake : str := AGENT_WAKE_ID_PREFIX ++ ex_uuid 6 2.
Definition ex_claimed : list (Env * AgentOp) := ex_talk ++ [(ex_env 8 1007, ClaimNextAgentWake ex_bob_session (lit "mcp_app"))].
Definition ex_attempt_id : str := AGENT_WAKE_ATTEMPT_ID_PREFIX ++ ex_uuid 8 0.
Definition ex_claim_fence : str := AGENT_WAKE_CLAIM_FENCE_PREFIX ++ ex_uuid 8 1.
Definition ex_consume_token : str := AGENT_WAKE_CONSUME_TOKEN_PREFIX ++ ex_uuid 8 2.
Definition ex_dispatched : list (Env * AgentOp) :=
  ex_claimed ++ [(ex_env 9 1008, PrepareAgentWakeDispatch ex_bob_session ex_wake ex_attempt_id ex_claim_fence ex_consume_token)].
Definition ex_resolved : list (Env * AgentOp) :=
  [(ex_env 10 1009, CompleteAgentWakeDelivery ex_bob_session ex_wake ex_attempt_id ex_claim_fence);
   (ex_env 11 1010, ConsumeAgentWake ex_bob_session ex_wake ex_consume_token)].
Definition ex_reattached : list (Env * AgentOp) :=
  ex_talk ++ [(ex_env 12 2000, AttachAgentEndpoint ex_owner (mkNewEndpoint ex_bob (lit "host") None true (lit "k12")))].

(** ** An AgentTask and a Goal *)

Definition ex_task : str := AGENT_TASK_ID_PREFIX ++ ex_uuid 20 0.
Definition ex_controller (k n : Z) (generation : Z) : Controller :=
  mkController ex_owner ex_task (AGENT_TASK_ATTEMPT_ID_PREFIX ++ ex_uuid k 0) ex_bob
    (AGENT_TASK_ATTEMPT_FENCE_PREFIX ++ ex_uuid k n) generation.
Definition ex_started : list (Env * AgentOp) :=
  ex_agents ++
  [(ex_env 20 3000, CreateAgentTask ex_owner (mkNewTask (lit "title") (lit "do it") (Some ex_bob) None None None (lit "k20")));
   (ex_env 21 3001, StartAgentTaskAttempt ex_owner ex_task ex_bob (lit "k21"));
   (ex_env 22 70000, StartAgentTaskAttempt ex_owner ex_task ex_bob (lit "k22"))].
Definition ex_replaced : list (Env * AgentOp) := ex_started ++ [(ex_env 23 70001, ReplaceAttemptController (ex_controller 22 1 1))].
Definition ex_done : list (Env * AgentOp) :=
  ex_replaced ++ [(ex_env 24 70002, CompleteAgentTaskAttempt (ex_controller 22 1 2) TaskSucceeded (Some (lit "ok")) None (lit "k24"))].

Definition ex_goal : str := GOAL_ID_PREFIX ++ ex_uuid 30 0.
Definition ex_goal_opened : list (Env * AgentOp) :=
  ex_started ++
  [(ex_env 30 71000, CreateGoal ex_owner (mkNewGoal (lit "goal") (lit "objective") (lit "k30")));
   (ex_env 31 71001, AssociateGoalAgentTask ex_owner ex_goal ex_task (lit "k31"))].
Definition ex_goal_done : list (Env * AgentOp) :=
  ex_goal_opened ++ [(ex_env 32 71002, UpdateGoal ex_owner ex_goal 2 (mkGoalPatch None None (Some GoalCompleted) None) (lit "k32"))].

(** ** The laws on these histories *)

(** The row at a place of a table that has one. *)
Definition row_at {A : Type} (n : nat) (t : list A) : match t !! n with Some _ => A | None => unit end :=
  match t !! n as o return match o with Some _ => A | None => unit end with Some x => x | None => tt end.

Lemma row_at_elem {A : Type} (t : list A) (n : nat) (x : A) : t !! n = Some x -> x ∈ t.
Proof. intros Hx. apply list_elem_of_lookup. by exists n. Qed.

Definition ex_done_task_table : list AgentTaskRow := Eval vm_compute in agent_tasks (reached ex_done).
Definition ex_done_task : AgentTaskRow := Eval vm_compute in row_at 0 ex_done_task_table.
Definition ex_later : list (Env * AgentOp) := [(ex_env 40 90000, StartAgentTaskAttempt ex_owner ex_task ex_bob (lit "k40"))].

Lemma agent_task_verdict_final_witness :
  tk_state ex_done_task = TaskSucceeded /\
  exists a, a ∈ task_attempts (reached ex_done) /\ tk_terminal_attempt_id ex_done_task = Some (ta_attempt_id a) /\
    ta_state a = attempt_outcome (tk_state ex_done_task) /\
    ex_done_task ∈ agent_tasks (reached (ex_done ++ ex_later)) /\ a ∈ task_attempts (reached (ex_done ++ ex_later)).
Proof.
  split; [reflexivity | ]. apply (agent_task_verdict_final ex_done ex_later ex_done_task).
  - apply (row_at_elem _ 0). vm_compute. reflexivity.
  - reflexivity.
Defined.

Definition ex_active_task_table : list AgentTaskRow := Eval vm_compute in agent_tasks (reached ex_started).
Definition ex_active_task : AgentTaskRow := Eval vm_compute in row_at 0 ex_active_task_table.
Definition ex_active_attempt_table : list StoredAttempt := Eval vm_compute in task_attempts (reached ex_started).
Definition ex_active_attempt : StoredAttempt := Eval vm_compute in row_at 1 ex_active_attempt_table.
Definition ex_expired_attempt_table : list StoredAttempt := Eval vm_compute in task_attempts (reached ex_started).
Definition ex_expired_attempt : StoredAttempt := Eval vm_compute in row_at 0 ex_expired_attempt_table.

Lemma agent_task_one_controller_witness :
  tk_latest_attempt_id ex_active_task = Some (ta_attempt_id ex_active_attempt) /\
  ta_state ex_expired_attempt = AttemptExpired /\ (ta_attempt_number ex_expired_attempt < ta_attempt_number ex_active_attempt)%Z.
Proof.
  destruct (agent_task_one_controller ex_started ex_active_task ex_active_attempt) as (_ & Hl & Ho).
  - apply (row_at_elem _ 0). vm_compute. reflexivity.
  - apply (row_at_elem _ 1). vm_compute. reflexivity.
  - reflexivity.
  - reflexivity.
  - split; [exact Hl | ]. apply Ho; [ | reflexivity | discriminate]. apply (row_at_elem _ 0). vm_compute. reflexivity.
Defined.

Definition ex_replaced_attempt_table : list StoredAttempt := Eval vm_compute in task_attempts (reached ex_replaced).
Definition ex_replaced_attempt : StoredAttempt := Eval vm_compute in row_at 1 ex_replaced_attempt_table.

Lemma stale_controller_changes_nothing_witness :
  ta_attempt_controller_generation ex_replaced_attempt = 2%Z /\
  perform (ex_env 41 70003) (CompleteAgentTaskAttempt (ex_controller 22 1 1) TaskFailed None None (lit "k41")) (reached (ex_replaced ++ []))
  = reached (ex_replaced ++ []).
Proof.
  split; [reflexivity | ]. apply (stale_controller_changes_nothing ex_replaced [] _ (ex_controller 22 1 1) _ ex_replaced_attempt).
  - apply (row_at_elem _ 1). vm_compute. reflexivity.
  - reflexivity.
  - reflexivity.
  - constructor.
Defined.

Definition ex_claimed_wake_table : list AgentWakeRecord := Eval vm_compute in wakes (reached ex_claimed).
Definition ex_claimed_wake : AgentWakeRecord := Eval vm_compute in row_at 0 ex_claimed_wake_table.
Definition ex_dispatched_wake_table : list AgentWakeRecord := Eval vm_compute in wakes (reached ex_dispatched).
Definition ex_dispatched_wake : AgentWakeRecord := Eval vm_compute in row_at 0 ex_dispatched_wake_table.

Lemma wake_claim_agrees_witness :
  wk_state ex_claimed_wake = WakeClaimed /\
  exists a, a ∈ wake_attempts (reached ex_claimed) /\ linked ex_claimed_wake a /\
    forall a', a' ∈ wake_attempts (reached ex_claimed) -> wa_wake_id a' = wk_wake_id ex_claimed_wake -> a' <> a -> wa_state a' = WaRevoked.
Proof.
  split; [reflexivity | ]. apply (wake_claim_agrees ex_claimed ex_claimed_wake).
  - apply (row_at_elem _ 0). vm_compute. reflexivity.
  - reflexivity.
Defined.

Lemma wake_dispatched_once_witness :
  wk_state ex_dispatched_wake = WakePrepared /\
  exists w', w' ∈ wakes (reached (ex_dispatched ++ ex_resolved)) /\ wk_wake_id w' = ex_wake /\
    (dispatched (wk_state w') = true \/ wk_state w' = WakeConsumed) /\ wk_claimed_attempt_id w' = Some ex_attempt_id.
Proof.
  split; [reflexivity | ].
  destruct (wake_dispatched_once ex_dispatched ex_resolved ex_dispatched_wake) as (w' & Hw & Hid & Hs & Ha & _).
  - apply (row_at_elem _ 0). vm_compute. reflexivity.
  - reflexivity.
  - exists w'. split; [exact Hw | ]. split; [rewrite Hid; reflexivity | ]. split; [exact Hs | ]. rewrite Ha. reflexivity.
Defined.

Definition ex_delivery_table : list DeliveryRow := Eval vm_compute in deliveries (reached ex_talk).
Definition ex_delivery : DeliveryRow := Eval vm_compute in row_at 1 ex_delivery_table.
Definition ex_conversation_row_table : list ConversationRow := Eval vm_compute in conversations (reached ex_talk).
Definition ex_conversation_row : ConversationRow := Eval vm_compute in row_at 0 ex_conversation_row_table.

Lemma delivery_always_covered_witness :
  exists w n, w ∈ wakes (reached ex_talk) /\ wk_target_agent_id w = ex_bob /\ wk_inbox_high_watermark w = Some n /\
    (dl_delivery_order ex_delivery <= n)%Z /\ wk_state w <> WakeRetired.
Proof.
  destruct (delivery_always_covered ex_talk ex_delivery) as (w & n & Hw & Ht & _ & Hn & Hle & Hs & _).
  - apply (row_at_elem _ 1). vm_compute. reflexivity.
  - exists w, n. split; [exact Hw | ]. split; [rewrite Ht; reflexivity | ]. split; [exact Hn | ]. split; [exact Hle | exact Hs].
Defined.

Lemma conversation_numbered_witness :
  cv_next_seq ex_conversation_row = 3%Z /\
  map ms_seq (List.filter (fun m => ms_conversation_id m ==? cv_conversation_id ex_conversation_row) (messages (reached ex_talk))) = [1; 2]%Z.
Proof.
  split; [reflexivity | ]. rewrite (conversation_numbered ex_talk ex_conversation_row).
  - reflexivity.
  - apply (row_at_elem _ 0). vm_compute. reflexivity.
Defined.

Lemma message_posted_once_witness :
  exists r', run_tx (post_conversation_message (ex_env 42 5000) ex_owner ex_first) (reached ex_talk) = (reached ex_talk, Ok r') /\
    mm_replayed r' = true /\ mr_seq (mm_message r') = 1%Z.
Proof.
  destruct (snd (run_tx (post_conversation_message (ex_env 6 1005) ex_owner ex_first) (reached ex_agents))) as [r|e] eqn:E.
  - destruct (message_posted_once ex_agents [(ex_env 7 1006, PostConversationMessage ex_owner (ex_message (lit "again") (lit "k7")))]
                (ex_env 6 1005) (ex_env 42 5000) ex_owner ex_first r E) as (r' & Hr & Hp & _ & _ & _ & Hs & _).
    exists r'. split; [exact Hr | ]. split; [exact Hp | ]. rewrite Hs. revert E. vm_compute. intros E. injection E as <-. reflexivity.
  - exfalso. revert E. vm_compute. discriminate.
Defined.

Definition ex_old_endpoint_table : list AgentEndpointRow := Eval vm_compute in endpoints (reached ex_reattached).
Definition ex_old_endpoint : AgentEndpointRow := Eval vm_compute in row_at 1 ex_old_endpoint_table.
Definition ex_bob_row_table : list AgentIdentityRow := Eval vm_compute in identities (reached ex_reattached).
Definition ex_bob_row : AgentIdentityRow := Eval vm_compute in row_at 1 ex_bob_row_table.

Lemma old_endpoint_fenced_witness :
  ep_controller_generation ex_old_endpoint = 1%Z /\ ai_current_controller_generation ex_bob_row = 2%Z /\
  perform (ex_env 43 2001) (ClaimNextAgentWake ex_bob_session (lit "mcp_app")) (reached (ex_reattached ++ [])) = reached (ex_reattached ++ []).
Proof.
  split; [reflexivity | ]. split; [reflexivity | ].
  apply (old_endpoint_fenced ex_reattached [] _ ex_bob_session _ ex_old_endpoint ex_bob_row).
  - apply (row_at_elem _ 1). vm_compute. reflexivity.
  - reflexivity.
  - apply (row_at_elem _ 1). vm_compute. reflexivity.
  - reflexivity.
  - reflexivity.
  - constructor.
Defined.

Definition ex_open_goal_table : list GoalRow := Eval vm_compute in goals (reached ex_goal_opened).
Definition ex_open_goal : GoalRow := Eval vm_compute in row_at 0 ex_open_goal_table.
Definition ex_completed_goal_table : list GoalRow := Eval vm_compute in goals (reached ex_goal_done).
Definition ex_completed_goal : GoalRow := Eval vm_compute in row_at 0 ex_completed_goal_table.

Lemma goal_revision_taken_once_witness :
  go_revision ex_open_goal = 2%Z /\
  perform (ex_env 44 72000) (UpdateGoal ex_owner (go_goal_id ex_open_goal) 1 (mkGoalPatch (Some (lit "new")) None None None) (lit "k44"))
    (reached (ex_goal_opened ++ [])) = reached (ex_goal_opened ++ []).
Proof.
  split; [reflexivity | ]. apply (goal_revision_taken_once ex_goal_opened [] _ _ ex_open_goal).
  - apply (row_at_elem _ 0). vm_compute. reflexivity.
  - reflexivity.
Defined.

Lemma goal_terminal_frozen_witness :
  go_lifecycle ex_completed_goal = GoalCompleted /\
  ex_completed_goal ∈ goals (reached (ex_goal_done ++ ex_later)) /\
  perform (ex_env 45 72000) (AssociateGoalAgentTask ex_owner (go_goal_id ex_completed_goal) ex_task (lit "k45"))
    (reached (ex_goal_done ++ ex_later)) = reached (ex_goal_done ++ ex_later).
Proof.
  split; [reflexivity | ]. apply (goal_terminal_frozen ex_goal_done ex_later).
  - apply (row_at_elem _ 0). vm_compute. reflexivity.
  - reflexivity.
  - constructor.
Defined.
